(* ===== verification/_CoqProject ===== *)
-Q . S2P
Prelude.v
Scheduler.v
ListScheduler.v
MapScheduler.v
PriorityQueueScheduler.v
HeapScheduler.v
CalendarScheduler.v
SchedulerTrace.v
DefaultSimulatorImpl.v
SimulatorCorrect.v
Buffer.v
BufferCorrect.v
BufferTheorems.v
ByteIter.v
BufferIter.v
PacketTagList.v
TagListGraph.v
TagListCorrect.v
TagListOps.v
TagListTheorems.v
Address.v
Ipv4Address.v
Header.v
UdpHeader.v
Ipv4Header.v
IpInterfaces.v
StaticRouting.v
ListRouting.v
EndPointDemux.v
SequenceNumber.v
TcpRxBuffer.v
TcpRxCorrect.v
TcpRxTheorems.v
PacketQueue.v
QueueDisc.v
Int64x64.v
NsTime.v
GateList.v
TransmissionGate.v
TasQueueDisc.v
QueueDiscCorrect.v
GateCorrect.v
TasSchedule.v
TasEvents.v
TasGates.v
TasCorrect.v
TasSession.v
TasTheorems.v
IpFragments.v
IpReassembly.v
IpTimeouts.v
IpTheorems.v
Ipv4L3.v
IpForwarding.v
IpDelivery.v
IpExample.v
TcpTxBuffer.v
TcpTxCorrect.v
TcpTxInvariant.v
TcpTxDiscard.v
TcpTxSack.v
TcpTxTheorems.v
TcpTransfer.v
RtpsTypes.v
MemoryPool.v
RtpsBuffer.v
HistoryCache.v
HistoryCorrect.v
HistoryTheorems.v
RtpsMessages.v
RtpsCodec.v
RtpsReceiver.v
RtpsReceive.v
RtpsPackets.v
RtpsReader.v
RtpsWriter.v
RtpsParticipant.v
RtpsSession.v
RtpsTheorems.v
RtpsExample.v
