(* ===== verification/Prelude.v ===== *)
(** * NetSim: a verification development for the network simulator

    The program is a discrete event network simulator (src/src, the modules of ns-3) with a
    module for time sensitive networking (src/contrib/tsn) and a middleware that runs over the
    simulated network (src/contrib/embeddedrtps, src/contrib/myudpdriver).  This development
    models the event core, the storage of packets, parts of the Internet stack, the time aware
    shaper, and the readers and writers of the middleware, and proves what makes them correct.

    ** The program's parts and how they interact

    The simulator (core/model/default-simulator-impl.cc) keeps events in a scheduler, one of
    five data structures behind one interface, and runs them in the order of time.  Everything
    else happens inside events.  Packets are bytes in blocks that buffers share and copy on
    write (network/model/buffer.cc), with tags in lists that packets share (packet-tag-list.cc);
    protocols put headers before them and take headers off.
    The network layer (internet/model/ipv4-l3-protocol.cc) asks its routing protocol, most often
    static tables (ipv4-static-routing.cc) in a list of protocols (ipv4-list-routing.cc), where a
    datagram goes: on to another node, with one hop less to live, or to a protocol of this node.
    A datagram for a link is cut into fragments that fit, and put together again at the
    receiver; a packet for this node is given to the end
    point the demultiplexer finds.  TCP keeps the bytes that are not acknowledged in the
    transmission buffer (tcp-tx-buffer.cc), which also keeps score of what is sacked and lost,
    and collects what arrives in the receive buffer (tcp-rx-buffer.cc), which says what to
    acknowledge.  Between the stack and a device packets wait in queue discs (traffic-control/model/queue-disc.cc).
    The shaper of the TSN module (tas-queue-disc.cc) is a queue disc with eight child queue
    discs (transmisson-gate-qdisc.cc), whose gates it opens and closes by a gate control list
    (net-device-list-config.cc), using the clock of the device, transmission times computed in
    fixed point (int64x64-128.cc, data-rate.cc), and events of the simulator.
    The middleware is an implementation of RTPS (embeddedrtps/embeddedrtps).  A participant
    (entities/Participant.cpp) has writers and readers.  A writer keeps the changes of its
    application in a ring (storages/HistoryCacheWithDeletion.h), sends them as DATA, announces them
    with HEARTBEATs, and answers the ACKNACKs of readers with the changes asked for or with a GAP
    (entities/StatefulWriter.tpp); a reader gives changes to its callbacks one after another
    (entities/StatefulReader.tpp).  Messages are built by MessageFactory.h in buffers of lwIP
    (storages/PBufWrapper.cpp) and taken apart by messages/MessageReceiver.cpp.

    ** Conventions

    A C++ function is a function on values; what it may change is an argument and part of the
    result.  Failure is a value ([res], [fault] below): an assertion, an abort, undefined
    behaviour (also signed overflow) and the model's own [OutOfFuel].  Integers are [Z], with
    [wrap] and [sint] where the code's type wraps around, and [int64] where overflow is
    undefined.  Definitions keep the names of the code; the comment before a definition names
    the file (under src/src, src/contrib/tsn/model or src/contrib/embeddedrtps/embeddedrtps), the lines where the function is not
    modelled whole, and the function.  Section hypotheses stand for code that is not modelled
    (devices, packet filters, user code).

    ** Files

    The event core.
    - Scheduler: events, keys, the interface of a scheduler as a class with its laws
      (core/model/scheduler.h).
    - ListScheduler, MapScheduler, PriorityQueueScheduler, HeapScheduler, CalendarScheduler:
      the five implementations, a Section or Module each, with their invariants.
    - SchedulerTrace: a run of scheduler operations; each implementation answers as the list.
    - DefaultSimulatorImpl, SimulatorCorrect: the simulator over any scheduler; user code is a
      tree of calls; other threads hand over events between any two steps.
    Packets.
    - Buffer, BufferCorrect, BufferTheorems: the store of blocks, with reference counts, free
      list, dirty and zero areas; what each operation does to the content of a buffer and that
      it leaves all other buffers alone.
    - ByteIter, BufferIter: the multi-byte accessors and the checksum over an interface of
      byte iterators, and its instance for buffers.
    - PacketTagList: the lists of tags, as nodes with counts in a memory; TagListGraph (chains and
      trees of nodes), TagListCorrect (what a list is worth, the counts), TagListOps (lists of
      tags as values; the operations keep them), TagListTheorems (any sequence of operations).
    - Address, Ipv4Address, Header, UdpHeader, Ipv4Header: addresses and headers; headers are
      verified against the iterator interface.
    The Internet stack.
    - IpFragments, IpReassembly, IpTimeouts, IpTheorems: fragmentation, the reassembly buffers
      and their timeouts.
    - IpInterfaces: interfaces and their addresses, routes, and the class [RoutingProtocol] with its
      laws; StaticRouting: the static tables and the route they choose; ListRouting:
      protocols in the order of priorities.  Both are instances of the class.
    - Ipv4L3: sending, receiving, forwarding, delivery and the detection of duplicates, over the class
      [RoutingProtocol]; IpForwarding: what a node does with a frame, and
      nodes with links between them (time to live).
    - IpDelivery (a datagram under way, from [Send] to the protocol above), IpExample (three nodes in a row, two in a circle).
    - EndPointDemux: lookup and allocation of end points.
    - SequenceNumber, TcpRxBuffer, TcpRxCorrect, TcpRxTheorems: sequence numbers modulo 2^32
      and the TCP receive buffer.
    - TcpTxBuffer: the TCP transmission buffer; TcpTxCorrect (items laid over the stream, cut
      and merged), TcpTxInvariant (the invariant, new segments and retransmissions),
      TcpTxDiscard (acknowledgments), TcpTxSack (selective acknowledgments and loss),
      TcpTxTheorems (any sequence of operations, the next segment).
    - TcpTransfer: both buffers with a network between them that loses, repeats and reorders
      segments and acknowledgments.
    Queues and the shaper.
    - PacketQueue: the queues of network/utils; QueueDisc, QueueDiscCorrect: the base class of
      queue discs, its virtual functions as a class, and its accounting.
    - Int64x64, NsTime: 64.64 fixed point numbers, times and transmission times.
    - GateList: gate control lists; TransmissionGate, GateCorrect: a gate with its queue.
    - TasQueueDisc: the shaper; TasSchedule (the state of a gate at a time), TasEvents (the
      events it schedules), TasGates (the execution of the list), TasCorrect (packets in and
      out), TasSession (lists, timeouts, initialization), TasTheorems (reachable states).
    The middleware.
    - RtpsTypes: numbers of 64 bits in two halves, identifiers; MemoryPool: the pool of proxies.
    - RtpsBuffer: buffers as a class with its laws, and its instance for PBufWrapper, over an
      allocation that is a parameter.
    - HistoryCache, HistoryCorrect, HistoryTheorems: the two rings of changes against lists.
    - RtpsMessages, RtpsCodec: messages, their bytes written and read; RtpsPackets: the bytes of
      what is sent.  RtpsReceiver, RtpsReceive: the receiver over the class [Endpoints].
    - RtpsReader, RtpsWriter, RtpsParticipant: the endpoints and the participant, an instance of
      [Endpoints].
    - RtpsSession (the invariant, by steps), RtpsTheorems, RtpsExample: a writer and a reader with
      a network between them that loses, repeats and reorders packets; an instance of it.

    ** What the theorems show

    Event core: all five schedulers answer every admissible run as the sorted list does, so
    that [SimulatorCorrect.Run_correct] - [Run] ends and processes the events in the order of
    their keys - holds over each; identifiers expire, cancel and remove as documented.  The
    heap is excepted where it is wrong: [heap_remove_loses_order].
    Packets: each buffer operation is the list operation on its content, for every layout of
    zero area and sharing; headers survive the round trip through a buffer, and the UDP
    checksum finds every change of a byte.  Lists of tags answer as if each packet had its own, but for a tag
    that is replaced by one of another length; no node is used after it was freed, and none is left when
    no packet is ([taglist_refines]).
    Internet stack: a lookup finds the route with the longest prefix, of these the least metric
    ([LookupStatic_chooses]; among host routes the first), and fails only at an entry of an interface that is not there or has no address.  In a network of nodes over any routing protocol
    a datagram whose way is in the tables is handed to the protocol at the destination, whole and once,
    however it is cut on the way ([IpDelivery.datagram_delivered], on frames as bytes); and with whatever tables,
    circular ones too, packets are handled a bounded number of times ([IpForwarding.ttl_ends_loops]).
    What is sent are consecutive pieces that fit the link; whatever order the
    pieces arrive in, and whatever arrives between, the datagram is delivered exactly when the
    last one is there; no incomplete datagram is kept longer than the timeout; the
    demultiplexer finds the most specific end point; ports are allocated without conflict; a
    TCP receiver delivers a prefix of the stream and acknowledges only what it has.  A TCP
    sender's buffer holds exactly the unacknowledged part of the stream; its counters are those
    of its items, through all calls the code is good for ([TcpTxBuffer_scoreboard] shows where it is not); what retransmissions, acknowledgments
    and selective acknowledgments do to the items is given exactly; the choice of
    the next segment is that of RFC 6675 except where [NextSeg_correct] says, and
    [CopyFromSequence_past_sent] and [Update_order_dependent] show two faults.  [TcpTransfer.tcp_transfer] puts sender and receiver together:
    what one application writes the other one reads, in order, each byte once.
    Shaper: in every state after the initialization, while times are below 2^60 fs, no operation fails; a packet that leaves
    is sent completely while the gate of its class is open by the list in force, after all
    higher classes had their turn; a packet behind a closed gate has a run scheduled for the
    moment the gate opens.  [tas_gaps] shows what it does not do.
    Middleware: for any sequence of writes, removals, threads and packets that arrive, late, twice
    or never, the reader's callbacks are called for the changes in their order, with the bytes
    written, and none is left out unless it was removed ([RtpsTheorems.rtps_session]); a reader
    that is behind catches up in finitely many rounds without loss while the history has what it
    lacks ([rtps_recovers]) and never once it has not ([rtps_stuck]).  These are about packets as
    bytes and rest on the rings being lists (up to the removals that never end, [HistoryCacheWithDeletion_correct]), the pool being
    slots ([MemoryPool_correct]), every message that is written being read as written
    ([codec_roundtrip]) and handled as its submessages ([processMessage_correct]).
    [processMessage_diverges], [processMessage_overread], [dropOldest_diverges] and [unknown_found]
    show inputs and histories where the code does not end or reads what it should not.
    Counterexamples ([AddAtEnd_buffer_loses_trailer], [Ipv4Header_options_lost],
    [SimpleLookup_wrong_connection], [Copy_reapplies_offsets], [Update_order_dependent], the examples at the
    ends of StaticRouting and IpExample, and those above) state where the
    code does not do what it means to.

    ** Fuel

    Loops that are not structural take a number of iterations.  The bounds are: the number of
    buckets for the searches in the calendar and of elements for the heap, given by their
    invariants; the number of calls user code makes for [Run]; the number of ports of the range for the allocation of a
    port; the length of the packet plus one for fragmentation, as every fragment but the last
    has eight bytes; the quota for the loop of a queue disc; the 64 digits of a quotient; in the
    transmission buffer the two calls of [CopyFromSequence], three walks more than there are items
    in the search that cuts and merges (a walk ends it, cuts an item, or merges two), and two more
    than there are items for [DiscardUpTo].
    In the middleware: the number of bytes of a message for the receiver, as a submessage has at
    least four; the numbers given out plus two for the answers of a writer.  For
    each a theorem or lemma says that the loop ends within it; only the loops of [processMessage_diverges],
    of the removals of [HistoryCacheWithDeletion_correct] and [dropOldest_diverges], and of fragmentation with an MTU
    below 28 ([IpFragments.DoFragmentation_diverges]) do not.

    ** What is not modelled

    Reference counts and memory management of objects other than buffer blocks; logging,
    tracing but for the counters of queues and drops, attributes and the object model; byte tags and
    metadata of packets (the network layer takes of the packet tags only those it reads); floating
    point (propagation, random numbers, congestion control); the rest of
    the Internet stack (global routing and RIP, ARP, ICMP, IPv6, TCP sockets and congestion control), wireless
    stacks, ad hoc routing, other queue discs and devices; the discovery of the middleware, its
    threads (a call of a reader or writer is one step) and its driver.  In the network of IpForwarding a link delivers
    what is sent on it, and queues, ARP and the protocols above are not in between: [datagram_delivered] is about frames
    that are not lost.  The session of a writer
    and a reader is for one writer and one reader, fewer than 2^30 steps, and changes of 1 to
    63999 bytes; readers that share a writer only share its history.  The theorems about the shaper are for device times below 2^60 fs, about 1152 s.  The theorems about the
    TCP buffers are for a transmission buffer of at most 2^30 bytes and a receive window of at
    most 2^29, with acknowledgments not older than 2^29 bytes, so that sequence numbers can be
    told apart.  Vendored code (lwIP), bindings, helpers, examples and tests are left out for good. *)

From Stdlib Require Export ZArith Lia.
From stdpp Require Export base tactics option sorting gmap numbers list_numbers list.

(** ** Outcomes of C++ code

    A C++ function either returns, or stops the program: [NS_ASSERT] and
    [NS_ASSERT_MSG] ([NsAssert], in a build with assertions), [NS_FATAL_ERROR] and
    [NS_ABORT_MSG] ([NsFatal]), or it leaves the language's defined behaviour
    ([Undefined]: an out-of-range [operator[]], [front()] of an empty container,
    signed overflow).  [OutOfFuel] is the model's own outcome of a loop that was
    given too few iterations; the termination theorems rule it out. *)

Inductive fault := NsAssert | NsFatal | Undefined | OutOfFuel.

#[export] Instance fault_eq_dec : EqDecision fault.
Proof. solve_decision. Defined.

Inductive res (A : Type) :=
  | Ok (a : A)
  | Err (f : fault).
Arguments Ok {A} _.
Arguments Err {A} _.

#[export] Instance res_ret : MRet res := @Ok.
#[export] Instance res_bind : MBind res := λ A B k m,
  match m with Ok a => k a | Err f => Err f end.
#[export] Instance res_fmap : FMap res := λ A B g m,
  match m with Ok a => Ok (g a) | Err f => Err f end.

#[export] Instance res_eq_dec {A} `{EqDecision A} : EqDecision (res A).
Proof. solve_decision. Defined.

(** [NS_ASSERT(b)]. *)
Definition ns_assert (b : bool) : res unit := if b then Ok tt else Err NsAssert.

(** [NS_ABORT_MSG_UNLESS(b, ...)] / [NS_FATAL_ERROR] when [b] is false. *)
Definition ns_abort_unless (b : bool) : res unit := if b then Ok tt else Err NsFatal.

(** Reading through an index, a pointer or an iterator that must be valid. *)
Definition deref {A} (o : option A) : res A :=
  match o with Some a => Ok a | None => Err Undefined end.

Definition is_ok {A} (r : res A) : bool := match r with Ok _ => true | Err _ => false end.

Lemma res_bind_ok {A B} (m : res A) (k : A → res B) b :
  (m ≫= k) = Ok b ↔ ∃ a, m = Ok a ∧ k a = Ok b.
Proof.
  destruct m as [a|f]; cbn; split.
  - intros Hk. by exists a.
  - by intros (a' & [= ->] & Hk).
  - done.
  - by intros (a' & [=] & _).
Qed.

Lemma ns_assert_ok b : ns_assert b = Ok tt ↔ b = true.
Proof. by destruct b. Qed.

Lemma deref_ok {A} (o : option A) a : deref o = Ok a ↔ o = Some a.
Proof. destruct o; cbn; naive_solver. Qed.

(** Inverts every bind of a successful computation in the context. *)
Ltac res_inv :=
  repeat match goal with
  | H : (_ ≫= _) = Ok _ |- _ => apply res_bind_ok in H; destruct H as (? & ? & ?)
  | H : ns_assert _ = Ok ?u |- _ => destruct u; apply ns_assert_ok in H
  | H : deref _ = Ok _ |- _ => apply deref_ok in H
  | H : Ok _ = Ok _ |- _ => injection H as H
  | H : Err _ = Ok _ |- _ => discriminate H
  | H : mret _ = Ok _ |- _ => unfold mret, res_ret in H
  end.

(** Reduces the binds of a computation whose first steps are known. *)
Ltac res_simpl := cbn [mbind res_bind mret res_ret fmap res_fmap ns_assert deref].

(** Splits a syntactic conjunction, without unfolding definitions. *)
Ltac conj := repeat match goal with |- _ ∧ _ => split end.

(** ** Machine integers

    A value of an unsigned C++ integer type of [w] bits is a [Z] in
    [[0, 2^w)]; [wrap w] is the reduction the language performs on assignment
    and arithmetic.  [sint w] is the two's-complement value of the low [w] bits. *)

Definition wrap (w z : Z) : Z := (z mod 2 ^ w)%Z.

Definition sint (w z : Z) : Z :=
  (if wrap w z <? 2 ^ (w - 1) then wrap w z else wrap w z - 2 ^ w)%Z.

Abbreviation u8 := (wrap 8).
Abbreviation u16 := (wrap 16).
Abbreviation u32 := (wrap 32).
Abbreviation u64 := (wrap 64).

(** The value is representable in [w] unsigned bits. *)
Definition fits (w z : Z) : Prop := (0 ≤ z < 2 ^ w)%Z.

#[export] Instance fits_dec w z : Decision (fits w z).
Proof. unfold fits. apply _. Defined.

Definition INT64_MAX : Z := (2 ^ 63 - 1)%Z.
Definition UINT64_MAX : Z := (2 ^ 64 - 1)%Z.
Definition UINT32_MAX : Z := (2 ^ 32 - 1)%Z.

Section wrap.
Local Open Scope Z_scope.
Context (w : Z) (Hw : 0 ≤ w).

Lemma wrap_fits z : fits w (wrap w z).
Proof using Hw. apply Z.mod_pos_bound. lia. Qed.

Lemma wrap_id z : fits w z → wrap w z = z.
Proof. apply Z.mod_small. Qed.

Lemma wrap_idemp z : wrap w (wrap w z) = wrap w z.
Proof using Hw. apply wrap_id, wrap_fits. Qed.

Lemma wrap_le z : 0 ≤ z → wrap w z ≤ z.
Proof using Hw. intros. apply Z.mod_le; lia. Qed.

Lemma wrap_add_l x y : wrap w (wrap w x + y) = wrap w (x + y).
Proof. apply Z.add_mod_idemp_l. lia. Qed.

Lemma wrap_add_r x y : wrap w (x + wrap w y) = wrap w (x + y).
Proof. apply Z.add_mod_idemp_r. lia. Qed.

Lemma wrap_sub_l x y : wrap w (wrap w x - y) = wrap w (x - y).
Proof. apply Zminus_mod_idemp_l. Qed.

Lemma wrap_sub_r x y : wrap w (x - wrap w y) = wrap w (x - y).
Proof. apply Zminus_mod_idemp_r. Qed.
End wrap.

(** Congruent numbers differ by a multiple of the modulus. *)
Lemma mod_eq_multiple (a b n : Z) :
  (0 < n → a mod n = b mod n → ∃ m, a = b + m * n)%Z.
Proof.
  intros Hn H. exists (a / n - b / n)%Z.
  pose proof (Z.div_mod a n ltac:(lia)). pose proof (Z.div_mod b n ltac:(lia)). lia.
Qed.

Create HintDb netsim discriminated.
#[export] Hint Resolve wrap_fits : netsim.
#[export] Hint Resolve Z.le_refl Z.lt_le_incl : netsim.

(** Unfolds the width bounds and calls [lia]. *)
Ltac zlia := unfold fits, INT64_MAX, UINT64_MAX, UINT32_MAX in *; lia.

(** ** Bytes of words *)

Lemma land_ones_wrap (w z : Z) : (0 ≤ w → Z.land z (Z.ones w) = wrap w z)%Z.
Proof. intros. by apply Z.land_ones. Qed.

Lemma lor_shiftl_add (a b k : Z) :
  (0 ≤ k → 0 ≤ b < 2 ^ k → Z.lor (Z.shiftl a k) b = a * 2 ^ k + b)%Z.
Proof.
  intros Hk Hb. rewrite <- Z.shiftl_mul_pow2 by done. symmetry. apply Z.add_nocarry_lor.
  apply Z.bits_inj'. intros i Hi. rewrite Z.land_spec, Z.bits_0, Z.shiftl_spec by done.
  destruct (Z.lt_ge_cases i k).
  - by rewrite Z.testbit_neg_r by lia.
  - assert (Z.testbit b i = false) as ->; [|apply andb_false_r].
    destruct (Z.eq_dec b 0%Z) as [->|]; [apply Z.bits_0|].
    apply Z.bits_above_log2; [lia|]. apply Z.log2_lt_pow2; [lia|].
    apply Z.lt_le_trans with (2 ^ k)%Z; [lia|]. apply Z.pow_le_mono_r; lia.
Qed.

Lemma shiftr_div (a k : Z) : (0 ≤ k → Z.shiftr a k = a / 2 ^ k)%Z.
Proof. apply Z.shiftr_div_pow2. Qed.

(** [lia] with division and remainder by constants. *)
Ltac div_lia := Z.to_euclidean_division_equations; zlia.

(** ** Lists *)

Section lists.
Context {A : Type}.
Implicit Types l : list A.

(** The insertion loop of a [std::list]: before the first element [i] with
    [before ev i], or at the end. *)
Fixpoint insert_before (before : A → A → bool) (ev : A) (l : list A) : list A :=
  match l with
  | [] => [ev]
  | i :: l' => if before ev i then ev :: i :: l' else i :: insert_before before ev l'
  end.

(** The search-and-erase loop of a [std::list]: the first element that
    satisfies [p], and the list without it. *)
Fixpoint erase_first (p : A → bool) (l : list A) : option (A * list A) :=
  match l with
  | [] => None
  | i :: l' =>
      if p i then Some (i, l')
      else match erase_first p l' with
           | Some (x, l'') => Some (x, i :: l'')
           | None => None
           end
  end.

Lemma insert_before_perm before ev l : insert_before before ev l ≡ₚ ev :: l.
Proof.
  induction l as [|i l IH]; cbn; [done|].
  case_match; [done|]. rewrite IH. apply Permutation_swap.
Qed.

Lemma insert_before_app before ev l :
  ∃ l1 l2, l = l1 ++ l2 ∧ insert_before before ev l = l1 ++ ev :: l2
    ∧ Forall (λ i, before ev i = false) l1
    ∧ (∀ i, head l2 = Some i → before ev i = true).
Proof.
  induction l as [|i l (l1 & l2 & -> & IH & Hf & Hh)]; cbn.
  - by exists [], [].
  - destruct (before ev i) eqn:Hb.
    + exists [], (i :: l1 ++ l2). naive_solver.
    + exists (i :: l1), l2. rewrite IH. auto.
Qed.

Lemma insert_before_sorted (R : A → A → Prop) before ev l :
  Transitive R →
  (∀ i, before ev i = true → R ev i) →
  (∀ i, before ev i = false → R i ev) →
  StronglySorted R l → StronglySorted R (insert_before before ev l).
Proof.
  intros HR Ht Hf. induction 1 as [|i l Hl IH Hi]; cbn.
  - repeat constructor.
  - destruct (before ev i) eqn:Hb.
    + constructor; [by constructor|]. constructor; [auto|].
      rewrite Forall_forall in Hi |- *. intros j Hj. etrans; [by apply Ht|]. by apply Hi.
    + constructor; [done|]. rewrite insert_before_perm. constructor; auto.
Qed.

Lemma erase_first_Some p l x l' :
  erase_first p l = Some (x, l') →
  ∃ l1 l2, l = l1 ++ x :: l2 ∧ l' = l1 ++ l2 ∧ p x = true
    ∧ Forall (λ i, p i = false) l1.
Proof.
  revert l'. induction l as [|i l IH]; intros l' H; cbn in H; [done|].
  destruct (p i) eqn:Hp.
  - simplify_eq. by exists [], l'.
  - destruct (erase_first p l) as [[y l'']|] eqn:He; simplify_eq.
    destruct (IH _ eq_refl) as (l1 & l2 & -> & -> & Hx & Hf).
    exists (i :: l1), l2. auto.
Qed.

Lemma erase_first_perm p l x l' : erase_first p l = Some (x, l') → l ≡ₚ x :: l'.
Proof.
  intros (l1 & l2 & -> & -> & _)%erase_first_Some. by rewrite Permutation_middle.
Qed.

Lemma erase_first_None p l : erase_first p l = None ↔ Forall (λ i, p i = false) l.
Proof.
  induction l as [|i l IH]; cbn; [by split|].
  rewrite Forall_cons. destruct (p i) eqn:Hp; [by split; [|intros [[=] _]]|].
  destruct (erase_first p l) as [[??]|].
  - split; [done|]. intros [_ Hl]. by apply IH in Hl.
  - split; [by intros _; split; [|apply IH]|done].
Qed.

Lemma erase_first_is_Some p l x : x ∈ l → p x = true → is_Some (erase_first p l).
Proof.
  intros Hx Hp. destruct (erase_first p l) eqn:He; [by eauto|].
  apply erase_first_None in He. rewrite Forall_forall in He.
  specialize (He x Hx). congruence.
Qed.

Lemma StronglySorted_delete_mid (R : A → A → Prop) l1 x l2 :
  StronglySorted R (l1 ++ x :: l2) → StronglySorted R (l1 ++ l2).
Proof.
  rewrite !StronglySorted_app, StronglySorted_cons. intros (H & H1 & _ & H2).
  repeat split; auto. intros. apply H; [done|]. by right.
Qed.

Lemma erase_first_sorted (R : A → A → Prop) p l x l' :
  erase_first p l = Some (x, l') → StronglySorted R l → StronglySorted R l'.
Proof.
  intros (l1 & l2 & -> & -> & _)%erase_first_Some. apply StronglySorted_delete_mid.
Qed.

(** A strictly sorted list has its order reversed by [reverse]. *)
Lemma StronglySorted_reverse (R : A → A → Prop) l :
  StronglySorted R l → StronglySorted (flip R) (reverse l).
Proof.
  induction 1 as [|x l Hl IH Hx]; [constructor|].
  rewrite reverse_cons. apply StronglySorted_app_2; [|done|repeat constructor].
  intros y z Hy Hz. rewrite elem_of_reverse in Hy.
  apply list_elem_of_singleton in Hz as ->.
  rewrite Forall_forall in Hx. by apply Hx.
Qed.
End lists.

#[export] Hint Resolve insert_before_perm erase_first_perm : netsim.

(** ** Lengths *)

Definition zlen {A} (l : list A) : Z := Z.of_nat (length l).

Lemma zlen_app {A} (l1 l2 : list A) : zlen (l1 ++ l2) = (zlen l1 + zlen l2)%Z.
Proof. unfold zlen. rewrite length_app. lia. Qed.

Lemma zlen_cons {A} (x : A) l : zlen (x :: l) = (1 + zlen l)%Z.
Proof. unfold zlen. cbn. lia. Qed.

Lemma zlen_nil {A} : zlen (@nil A) = 0%Z.
Proof. done. Qed.

Lemma zlen_nonneg {A} (l : list A) : (0 ≤ zlen l)%Z.
Proof. unfold zlen. lia. Qed.
