(* ===== verification/Scheduler.v ===== *)
(** * Event keys, events and the scheduler interface (src/src/core/model/scheduler.h)

    The data of [ns3::Scheduler] with its comparison operators, and the interface
    every event queue implements: the five virtual operations as a class
    [Scheduler], and what the simulator core relies on as the classes
    [SchedulerSpec] and [SchedulerRemoveSpec].  The abstract state of a queue is
    the list of the events it holds, up to permutation; its next event is the
    least one for the order of timestamps, ties broken by unique id. *)

From S2P Require Import Prelude.
Local Open Scope Z_scope.

(** [scheduler.h:169-174] Scheduler::EventKey *)
Record EventKey := mkKey {
  m_ts : Z;       (* uint64_t *)
  m_uid : Z;      (* uint32_t *)
  m_context : Z   (* uint32_t *)
}.

(** [scheduler.h:183-187] Scheduler::Event

    [impl] is the address of an [EventImpl]; 0 is [nullptr]. *)
Record Event := mkEvent {
  impl : Z;
  key : EventKey
}.

#[export] Instance EventKey_eq_dec : EqDecision EventKey.
Proof. solve_decision. Defined.
#[export] Instance Event_eq_dec : EqDecision Event.
Proof. solve_decision. Defined.

(** [scheduler.h:239-243] operator==(EventKey) *)
Definition key_eqb (a b : EventKey) : bool := m_uid a =? m_uid b.

(** [scheduler.h:253-257] operator!=(EventKey) *)
Definition key_neqb (a b : EventKey) : bool := negb (m_uid a =? m_uid b).

(** [scheduler.h:272-287] operator<(EventKey) *)
Definition key_ltb (a b : EventKey) : bool :=
  if m_ts a <? m_ts b then true
  else if (m_ts a =? m_ts b) && (m_uid a <? m_uid b) then true
  else false.

(** [scheduler.h:296-311] operator>(EventKey) *)
Definition key_gtb (a b : EventKey) : bool :=
  if m_ts a >? m_ts b then true
  else if (m_ts a =? m_ts b) && (m_uid a >? m_uid b) then true
  else false.

(** [scheduler.h:320-324] operator==(Event) *)
Definition event_eqb (a b : Event) : bool := key_eqb (key a) (key b).

(** [scheduler.h:333-337] operator!=(Event) *)
Definition event_neqb (a b : Event) : bool := key_neqb (key a) (key b).

(** [scheduler.h:346-350] operator<(Event) *)
Definition event_ltb (a b : Event) : bool := key_ltb (key a) (key b).

(** [scheduler.h:359-363] operator>(Event) *)
Definition event_gtb (a b : Event) : bool := key_gtb (key a) (key b).

(** ** The order *)

(** The event's key holds values of its fields' C++ types. *)
Definition key_fits (k : EventKey) : Prop :=
  fits 64 (m_ts k) ∧ fits 32 (m_uid k) ∧ fits 32 (m_context k).

Abbreviation ts e := (m_ts (key e)) (only parsing).
Abbreviation uid e := (m_uid (key e)) (only parsing).

Definition event_le (a b : Event) : Prop := event_ltb b a = false.
Definition event_lt (a b : Event) : Prop := event_ltb a b = true.

Lemma key_ltb_true a b :
  key_ltb a b = true ↔ m_ts a < m_ts b ∨ (m_ts a = m_ts b ∧ m_uid a < m_uid b).
Proof. unfold key_ltb. repeat case_match; lia. Qed.

Lemma key_ltb_false a b :
  key_ltb a b = false ↔ m_ts b < m_ts a ∨ (m_ts a = m_ts b ∧ m_uid b ≤ m_uid a).
Proof. unfold key_ltb. repeat case_match; lia. Qed.

Lemma key_gtb_ltb a b : key_gtb a b = key_ltb b a.
Proof.
  unfold key_gtb, key_ltb. rewrite !Z.gtb_ltb, (Z.eqb_sym (m_ts b)). done.
Qed.

Lemma event_lt_spec a b :
  event_lt a b ↔ ts a < ts b ∨ (ts a = ts b ∧ uid a < uid b).
Proof. apply key_ltb_true. Qed.

Lemma event_le_spec a b :
  event_le a b ↔ ts a < ts b ∨ (ts a = ts b ∧ uid a ≤ uid b).
Proof.
  unfold event_le, event_ltb. rewrite key_ltb_false. lia.
Qed.

(** Turns every order fact into arithmetic on timestamps and ids. *)
Ltac event_order :=
  repeat match goal with
  | H : event_ltb _ _ = true |- _ => apply key_ltb_true in H
  | H : event_ltb _ _ = false |- _ => apply key_ltb_false in H
  | H : event_lt _ _ |- _ => apply event_lt_spec in H
  | H : event_le _ _ |- _ => apply event_le_spec in H
  | |- event_lt _ _ => apply event_lt_spec
  | |- event_le _ _ => apply event_le_spec
  | |- event_ltb _ _ = true => apply key_ltb_true
  | |- event_ltb _ _ = false => apply key_ltb_false
  end; lia.

#[export] Instance event_le_trans : Transitive event_le.
Proof. intros a b c Hab Hbc. event_order. Qed.
#[export] Instance event_le_total : Total event_le.
Proof. intros a b. rewrite !event_le_spec. lia. Qed.
#[export] Instance event_lt_trans : Transitive event_lt.
Proof. intros a b c Hab Hbc. event_order. Qed.
#[export] Instance event_le_refl : Reflexive event_le.
Proof. intros a. event_order. Qed.

Lemma event_lt_le a b : event_lt a b → event_le a b.
Proof. intros. event_order. Qed.

Lemma event_le_lt a b : event_le a b → uid a ≠ uid b → event_lt a b.
Proof. intros. event_order. Qed.

Lemma event_lt_irrefl a : ¬ event_lt a a.
Proof. intros ?. event_order. Qed.

#[export] Hint Resolve event_lt_le event_le_lt : netsim.

(** ** The abstract queue *)

(** The unique ids of the events of a queue. *)
Definition uids (l : list Event) : list Z := (λ e, uid e) <$> l.

(** [ev] is the next event of a queue that holds [l]: every other event of [l]
    comes strictly later. *)
Definition is_next (ev : Event) (l : list Event) : Prop :=
  ev ∈ l ∧ ∀ e, e ∈ l → e = ev ∨ event_lt ev e.

#[export] Instance uids_proper : Proper ((≡ₚ) ==> (≡ₚ)) uids.
Proof. intros l l' H. unfold uids. by rewrite H. Qed.

#[export] Instance is_next_proper : Proper ((=) ==> (≡ₚ) ==> iff) is_next.
Proof. intros ev ? <- l l' H. unfold is_next. by setoid_rewrite H. Qed.

Lemma uids_inj l a b : NoDup (uids l) → a ∈ l → b ∈ l → uid a = uid b → a = b.
Proof.
  unfold uids. intros Hnd Ha Hb Hab.
  apply list_elem_of_lookup in Ha as [i Hi]. apply list_elem_of_lookup in Hb as [j Hj].
  assert (i = j) as ->; [|congruence].
  eapply NoDup_lookup; [exact Hnd|rewrite list_lookup_fmap, Hi; done|].
  rewrite list_lookup_fmap, Hj. cbn. by f_equal.
Qed.

(** The least element of a queue with distinct ids is its next event. *)
Lemma is_next_least ev l :
  NoDup (uids l) → ev ∈ l → (∀ e, e ∈ l → event_le ev e) → is_next ev l.
Proof.
  intros Hnd Hev Hle. split; [done|]. intros e He.
  destruct (decide (uid e = uid ev)) as [Heq|Hne].
  - left. by eapply uids_inj.
  - right. apply event_le_lt; auto.
Qed.

Lemma is_next_unique l a b : is_next a l → is_next b l → a = b.
Proof.
  intros [Ha Ha'] [Hb Hb']. destruct (Ha' b Hb) as [->|Hab]; [done|].
  destruct (Hb' a Ha) as [->|Hba]; [done|]. event_order.
Qed.

Lemma is_next_exists l : NoDup (uids l) → l ≠ [] → ∃ ev, is_next ev l.
Proof.
  induction l as [|x l IH]; [done|]. intros Hnd _.
  destruct l as [|y l].
  { exists x. apply is_next_least; [done|by left|]. intros e.
    rewrite list_elem_of_singleton. intros ->. reflexivity. }
  destruct IH as [ev [Hev Hle]]; [by inversion Hnd|done|].
  destruct (total event_le x ev) as [Hx|Hx].
  - exists x. apply is_next_least; [done|by left|].
    intros e [->|He]%elem_of_cons; [reflexivity|].
    destruct (Hle e He) as [->|?]; [done|]. etrans; [done|]. by apply event_lt_le.
  - exists ev. apply is_next_least; [done|by right|].
    intros e [->|He]%elem_of_cons; [done|].
    destruct (Hle e He) as [->|?]; [reflexivity|]. by apply event_lt_le.
Qed.

(** The events a queue may hold: fields within their types, a timestamp below
    the sentinel [UINT64_MAX], pairwise distinct unique ids. *)
Definition event_ok (e : Event) : Prop := key_fits (key e) ∧ ts e < UINT64_MAX.
Definition queue_ok (l : list Event) : Prop := NoDup (uids l) ∧ Forall event_ok l.

#[export] Instance queue_ok_proper : Proper ((≡ₚ) ==> iff) queue_ok.
Proof. intros l l' H. unfold queue_ok. by rewrite H. Qed.

Lemma queue_ok_nil : queue_ok [].
Proof. split; constructor. Qed.

Lemma queue_ok_cons x l : queue_ok (x :: l) ↔ event_ok x ∧ (uid x ∉ uids l) ∧ queue_ok l.
Proof. unfold queue_ok. cbn. rewrite NoDup_cons, Forall_cons. tauto. Qed.

Lemma queue_ok_erase x l l' : queue_ok l → l ≡ₚ x :: l' → queue_ok l'.
Proof. intros Hq H. rewrite H, queue_ok_cons in Hq. tauto. Qed.

Lemma queue_ok_insert x l l' :
  queue_ok l → event_ok x → uid x ∉ uids l → l' ≡ₚ x :: l → queue_ok l'.
Proof. intros Hq Hx Hu H. rewrite H, queue_ok_cons. done. Qed.

Lemma queue_ok_ts x l : queue_ok l → x ∈ l → 0 ≤ ts x < UINT64_MAX.
Proof.
  intros [_ Hf] Hx. rewrite Forall_forall in Hf. destruct (Hf x Hx) as [[[? _] _] ?]. done.
Qed.

#[export] Hint Resolve queue_ok_nil queue_ok_erase : netsim.

Lemma elem_of_uids x l : x ∈ l → uid x ∈ uids l.
Proof. intros Hx. unfold uids. by apply (list_elem_of_fmap_2 (λ e, uid e)). Qed.

(** Erasing by unique id removes the event itself. *)
Lemma erase_uid_spec l ev :
  NoDup (uids l) → ev ∈ l →
  ∃ l', erase_first (λ i, m_uid (key i) =? m_uid (key ev)) l = Some (ev, l').
Proof.
  intros Hnd Hev.
  destruct (erase_first_is_Some (λ i, uid i =? uid ev) l ev) as [[x l'] He];
    [done|by apply Z.eqb_refl|].
  exists l'. rewrite He. do 2 f_equal.
  apply erase_first_Some in He as (l1 & l2 & -> & -> & Hx & _). apply Z.eqb_eq in Hx.
  eapply uids_inj; [done| |done|done]. apply elem_of_app. right. by left.
Qed.

(** ** The interface

    The abstract class [ns3::Scheduler]: what [DefaultSimulatorImpl] calls. *)

(** [scheduler.h:156-229] Scheduler *)
Class Scheduler (S : Type) := {
  sched_new : S;
  sched_Insert : Event → S → res S;
  sched_IsEmpty : S → bool;
  sched_PeekNext : S → res Event;
  sched_RemoveNext : S → res (Event * S);
  sched_Remove : Event → S → res S
}.

(** What an implementation promises, [Remove] aside.  [sched_low] is the least
    timestamp the queue accepts: the calendar queue cannot take an event that is
    due before the last event it returned, the other queues accept every
    timestamp. *)
Class SchedulerSpec (S : Type) `{!Scheduler S} := {
  sched_inv : S → Prop;
  sched_events : S → list Event;
  sched_low : S → Z;
  spec_ok s : sched_inv s → queue_ok (sched_events s);
  spec_new :
    sched_inv sched_new ∧ sched_events sched_new = [] ∧ sched_low sched_new ≤ 0;
  spec_insert s ev :
    sched_inv s → event_ok ev →
    sched_low s ≤ ts ev → uid ev ∉ uids (sched_events s) →
    Z.of_nat (length (sched_events s)) < UINT32_MAX →
    ∃ s', sched_Insert ev s = Ok s' ∧ sched_inv s' ∧
      sched_events s' ≡ₚ ev :: sched_events s ∧ sched_low s' ≤ sched_low s;
  spec_is_empty s : sched_inv s → (sched_IsEmpty s = true ↔ sched_events s = []);
  spec_peek_next s :
    sched_inv s → sched_events s ≠ [] →
    ∃ ev, sched_PeekNext s = Ok ev ∧ is_next ev (sched_events s);
  spec_remove_next s :
    sched_inv s → sched_events s ≠ [] →
    ∃ ev s', sched_RemoveNext s = Ok (ev, s') ∧ is_next ev (sched_events s) ∧
      sched_inv s' ∧ sched_events s ≡ₚ ev :: sched_events s' ∧ sched_low s' ≤ ts ev
}.

(** The promise on [Remove], which not every queue keeps. *)
Class SchedulerRemoveSpec (S : Type) `{!Scheduler S} `{!SchedulerSpec S} := {
  spec_remove s ev :
    sched_inv s → ev ∈ sched_events s →
    ∃ s', sched_Remove ev s = Ok s' ∧ sched_inv s' ∧
      sched_events s ≡ₚ ev :: sched_events s' ∧ sched_low s' ≤ sched_low s
}.
