(* ===== verification/ListScheduler.v ===== *)
(** * ListScheduler (src/src/core/model/list-scheduler.cc)

    The queue is a [std::list] of events that [Insert] keeps sorted.  It
    implements the whole scheduler interface. *)

From S2P Require Import Prelude Scheduler.
Local Open Scope Z_scope.

(** [ListScheduler::m_events]. *)
Record t := mk { m_events : list Event }.

(** [list-scheduler.cc] ListScheduler::ListScheduler *)
Definition new : t := mk [].

(** [list-scheduler.cc] ListScheduler::Insert *)
Definition Insert (ev : Event) (s : t) : res t :=
  Ok (mk (insert_before (λ ev i, key_ltb (key ev) (key i)) ev (m_events s))).

(** [list-scheduler.cc] ListScheduler::IsEmpty *)
Definition IsEmpty (s : t) : bool :=
  match m_events s with [] => true | _ :: _ => false end.

(** [list-scheduler.cc] ListScheduler::PeekNext *)
Definition PeekNext (s : t) : res Event := deref (head (m_events s)).

(** [list-scheduler.cc] ListScheduler::RemoveNext *)
Definition RemoveNext (s : t) : res (Event * t) :=
  match m_events s with
  | [] => Err Undefined
  | next :: rest => Ok (next, mk rest)
  end.

(** [list-scheduler.cc] ListScheduler::Remove

    [Err NsAssert] is the final [NS_ASSERT(false)]: no event has this id. *)
Definition Remove (ev : Event) (s : t) : res t :=
  match erase_first (λ i, m_uid (key i) =? m_uid (key ev)) (m_events s) with
  | Some (i, rest) => ns_assert (impl ev =? impl i) ≫= λ _, Ok (mk rest)
  | None => Err NsAssert
  end.

#[global] Instance ops : Scheduler t := {|
  sched_new := new; sched_Insert := Insert; sched_IsEmpty := IsEmpty;
  sched_PeekNext := PeekNext; sched_RemoveNext := RemoveNext; sched_Remove := Remove
|}.

(** ** Correctness *)

Definition inv (s : t) : Prop :=
  StronglySorted event_le (m_events s) ∧ queue_ok (m_events s).

Lemma insert_sorted ev l :
  StronglySorted event_le l →
  StronglySorted event_le (insert_before (λ ev i, key_ltb (key ev) (key i)) ev l).
Proof.
  apply insert_before_sorted; [apply _| |].
  - intros i H. apply event_lt_le. done.
  - intros i H. done.
Qed.

(** The head of a sorted queue is its next event. *)
Lemma head_is_next ev l :
  StronglySorted event_le (ev :: l) → queue_ok (ev :: l) → is_next ev (ev :: l).
Proof.
  intros Hs [Hnd _]. apply is_next_least; [done|by left|].
  apply StronglySorted_inv in Hs as [_ Hf]. rewrite Forall_forall in Hf.
  intros e [->|He]%elem_of_cons; [reflexivity|auto].
Qed.

#[global] Instance spec : SchedulerSpec t.
Proof.
  refine {| sched_inv := inv; sched_events := m_events; sched_low := λ _, 0 |}.
  - by intros s [_ ?].
  - conj; [split; [constructor|apply queue_ok_nil]|done|done].
  - intros s ev [Hs Hq] Hok _ Huid _. eexists. split; [done|]. cbn.
    split; [|split; [apply insert_before_perm|done]].
    split; [by apply insert_sorted|].
    eapply queue_ok_insert; [exact Hq|done|exact Huid|apply insert_before_perm].
  - intros [l] _. cbn. by destruct l.
  - intros [[|ev l]] [Hs Hq] Hne; [done|]. exists ev. split; [done|].
    by apply head_is_next.
  - intros [[|ev l]] [Hs Hq] Hne; [done|]. exists ev, (mk l). cbn in *.
    conj; [done|by apply head_is_next| |done|].
    + apply StronglySorted_inv in Hs as [Hs _]. split; [done|].
      by eapply queue_ok_erase.
    + apply (queue_ok_ts ev) in Hq; [lia|by left].
Defined.

#[global] Instance remove_spec : SchedulerRemoveSpec t.
Proof.
  constructor. intros s ev [Hs Hq] Hev.
  destruct (erase_uid_spec _ _ (proj1 Hq) Hev) as [l' He].
  exists (mk l'). cbn. unfold Remove. rewrite He, Z.eqb_refl.
  pose proof (erase_first_perm _ _ _ _ He) as Hp.
  conj; [done| |done|done].
  split; [by eapply erase_first_sorted|by eapply queue_ok_erase].
Qed.
