(* ===== verification/MapScheduler.v ===== *)
(** * MapScheduler (src/src/core/model/map-scheduler.cc)

    The queue is a [std::map] from event keys to event implementations.  A
    [std::map] is modelled by the sequence of its entries in iteration order:
    ascending for [operator<], one entry per equivalence class of keys. *)

From S2P Require Import Prelude Scheduler.
Local Open Scope Z_scope.

(** [MapScheduler::m_list]. *)
Record t := mk { m_list : list (EventKey * Z) }.

(** [std::map::insert]: nothing is inserted when an equivalent key is present;
    the boolean is [result.second]. *)
Fixpoint map_insert (k : EventKey) (v : Z) (m : list (EventKey * Z))
    : list (EventKey * Z) * bool :=
  match m with
  | [] => ([(k, v)], true)
  | (k', v') :: m' =>
      if key_ltb k k' then ((k, v) :: m, true)
      else if key_ltb k' k then
        let '(m'', b) := map_insert k v m' in ((k', v') :: m'', b)
      else (m, false)
  end.

(** Neither key is before the other. *)
Definition key_equiv (a b : EventKey) : bool := negb (key_ltb a b) && negb (key_ltb b a).

(** [map-scheduler.cc] MapScheduler::MapScheduler *)
Definition new : t := mk [].

(** [map-scheduler.cc] MapScheduler::Insert *)
Definition Insert (ev : Event) (s : t) : res t :=
  let '(m, second) := map_insert (key ev) (impl ev) (m_list s) in
  ns_assert second ≫= λ _, Ok (mk m).

(** [map-scheduler.cc] MapScheduler::IsEmpty *)
Definition IsEmpty (s : t) : bool :=
  match m_list s with [] => true | _ :: _ => false end.

(** [map-scheduler.cc] MapScheduler::PeekNext *)
Definition PeekNext (s : t) : res Event :=
  match m_list s with
  | [] => Err NsAssert
  | (k, v) :: _ => Ok (mkEvent v k)
  end.

(** [map-scheduler.cc] MapScheduler::RemoveNext *)
Definition RemoveNext (s : t) : res (Event * t) :=
  match m_list s with
  | [] => Err NsAssert
  | (k, v) :: m => Ok (mkEvent v k, mk m)
  end.

(** [map-scheduler.cc] MapScheduler::Remove

    [find] returns [end()] for an absent key, which the code dereferences. *)
Definition Remove (ev : Event) (s : t) : res t :=
  match erase_first (λ e, key_equiv (fst e) (key ev)) (m_list s) with
  | Some (i, m) => ns_assert (snd i =? impl ev) ≫= λ _, Ok (mk m)
  | None => Err Undefined
  end.

#[global] Instance ops : Scheduler t := {|
  sched_new := new; sched_Insert := Insert; sched_IsEmpty := IsEmpty;
  sched_PeekNext := PeekNext; sched_RemoveNext := RemoveNext; sched_Remove := Remove
|}.

(** ** Correctness: the map holds the same sequence as a sorted list *)

Definition entry_event (e : EventKey * Z) : Event := mkEvent (snd e) (fst e).
Definition events (s : t) : list Event := entry_event <$> m_list s.

Definition inv (s : t) : Prop :=
  StronglySorted event_lt (events s) ∧ queue_ok (events s).

Lemma map_insert_fresh k v m :
  k.(m_uid) ∉ uids (entry_event <$> m) →
  ∃ m', map_insert k v m = (m', true) ∧
    entry_event <$> m' =
      insert_before (λ ev i, key_ltb (key ev) (key i)) (mkEvent v k) (entry_event <$> m).
Proof.
  induction m as [|[k' v'] m IH]; cbn; intros Hu; [by eexists|].
  apply not_elem_of_cons in Hu as [Hne Hu]. cbn in Hne.
  destruct (key_ltb k k') eqn:H1; [by eexists|].
  destruct (key_ltb k' k) eqn:H2.
  - destruct (IH Hu) as (m' & -> & Hm'). eexists. split; [done|]. cbn. by rewrite Hm'.
  - apply key_ltb_false in H1. apply key_ltb_false in H2. lia.
Qed.

Lemma insert_lt_sorted ev l :
  uid ev ∉ uids l → StronglySorted event_lt l →
  StronglySorted event_lt (insert_before (λ ev i, key_ltb (key ev) (key i)) ev l).
Proof.
  induction l as [|i l IH]; intros Hu Hs; cbn; [repeat constructor|].
  apply not_elem_of_cons in Hu as [Hne Hu].
  apply StronglySorted_inv in Hs as [Hs Hi].
  destruct (key_ltb (key ev) (key i)) eqn:Hb.
  - constructor; [by constructor|]. constructor; [done|].
    rewrite Forall_forall in Hi |- *. intros j Hj. etrans; [exact Hb|by apply Hi].
  - constructor; [by apply IH|]. rewrite insert_before_perm. constructor; [|done].
    apply event_le_lt; [done|]. congruence.
Qed.

Lemma head_is_next_lt ev l : StronglySorted event_lt (ev :: l) → is_next ev (ev :: l).
Proof.
  intros [_ Hf]%StronglySorted_inv. split; [by left|]. rewrite Forall_forall in Hf.
  intros e [->|He]%elem_of_cons; [by left|right; auto].
Qed.

Lemma key_equiv_uid e k : key_equiv (fst e) k = true → uid (entry_event e) = m_uid k.
Proof.
  unfold key_equiv. rewrite andb_true_iff, !negb_true_iff, !key_ltb_false. cbn. lia.
Qed.

Lemma find_spec s ev :
  queue_ok (events s) → ev ∈ events s →
  ∃ m, erase_first (λ e, key_equiv (fst e) (key ev)) (m_list s) = Some ((key ev, impl ev), m).
Proof.
  intros [Hnd _] Hev. apply list_elem_of_fmap in Hev as ([k v] & -> & Hin).
  destruct (erase_first_is_Some (λ e, key_equiv (fst e) k) (m_list s) (k, v))
    as [[[k' v'] m] He]; [done| |].
  { unfold key_equiv. cbn. rewrite andb_true_iff, !negb_true_iff, !key_ltb_false. lia. }
  exists m. cbn. rewrite He. do 2 f_equal.
  apply erase_first_Some in He as (l1 & l2 & Hl & _ & Hk & _).
  apply key_equiv_uid in Hk.
  assert (mkEvent v' k' = mkEvent v k) as [= -> ->]; [|done].
  apply (uids_inj (events s)); [done| |by apply (list_elem_of_fmap_2 entry_event _ (k, v))|done].
  apply (list_elem_of_fmap_2 entry_event _ (k', v')). rewrite Hl. apply elem_of_app.
  right. by left.
Qed.

#[global] Instance spec : SchedulerSpec t.
Proof.
  refine {| sched_inv := inv; sched_events := events; sched_low := λ _, 0 |}.
  - by intros s [_ ?].
  - conj; [split; [constructor|apply queue_ok_nil]|done|done].
  - intros s ev [Hs Hq] Hok _ Huid _. cbn. unfold Insert.
    destruct (map_insert_fresh (key ev) (impl ev) (m_list s) Huid) as (m' & -> & Hm').
    exists (mk m'). unfold inv, events. cbn [m_list].
    replace (mkEvent (impl ev) (key ev)) with ev in Hm' by (by destruct ev).
    rewrite Hm'. conj; [done|by apply insert_lt_sorted| |apply insert_before_perm|done].
    eapply queue_ok_insert; [exact Hq|done|exact Huid|apply insert_before_perm].
  - intros [l] _. unfold events. cbn. by destruct l.
  - intros [[|[k v] l]] [Hs Hq] Hne; [done|]. exists (mkEvent v k). split; [done|].
    by apply head_is_next_lt.
  - intros [[|[k v] l]] [Hs Hq] Hne; [done|]. exists (mkEvent v k), (mk l). cbn in *.
    conj; [done|by apply head_is_next_lt| |done|].
    + apply StronglySorted_inv in Hs as [Hs _]. split; [done|].
      by eapply queue_ok_erase.
    + apply (queue_ok_ts (mkEvent v k)) in Hq; [cbn in *; lia|by left].
Defined.

#[global] Instance remove_spec : SchedulerRemoveSpec t.
Proof.
  constructor. intros s ev [Hs Hq] Hev.
  destruct (find_spec s ev Hq Hev) as [m He].
  exists (mk m). cbn. unfold Remove. rewrite He. cbn. rewrite Z.eqb_refl.
  apply erase_first_Some in He as (l1 & l2 & Hl & -> & _ & _).
  assert (events s = (entry_event <$> l1) ++ ev :: (entry_event <$> l2)) as Hev'.
  { unfold events. rewrite Hl, fmap_app. cbn. by destruct ev. }
  rewrite Hev' in Hs, Hq.
  assert (events (mk (l1 ++ l2)) = (entry_event <$> l1) ++ (entry_event <$> l2)) as Hm.
  { unfold events. cbn. by rewrite fmap_app. }
  assert (events s ≡ₚ ev :: events (mk (l1 ++ l2))) as Hp.
  { rewrite Hev', Hm. symmetry. apply Permutation_middle. }
  conj; [done| |exact Hp|done].
  rewrite <- Hev' in Hq. split; [|exact (queue_ok_erase _ _ _ Hq Hp)].
  rewrite Hm. by eapply StronglySorted_delete_mid.
Qed.
