(* ===== verification/PriorityQueueScheduler.v ===== *)
(** * PriorityQueueScheduler (src/src/core/model/priority-queue-scheduler.cc)

    The queue is a [std::priority_queue<Event, std::vector<Event>, std::greater<>>],
    modelled by what the C++ standard says of it: a container of elements
    whose [top] is an element that [operator>] puts below none of the others.  The order
    of the underlying vector is the library's and no operation depends on it. *)

From S2P Require Import Prelude Scheduler.
Local Open Scope Z_scope.

(** [PriorityQueueScheduler::m_queue]: the elements of its container [c]. *)
Record t := mk { c : list Event }.

(** [std::priority_queue::top] for the comparison [operator>]. *)
Fixpoint pq_top (l : list Event) : option Event :=
  match l with
  | [] => None
  | x :: l' =>
      match pq_top l' with
      | Some y => Some (if event_gtb x y then y else x)
      | None => Some x
      end
  end.

(** [std::priority_queue::pop]: removes the element [top] returned. *)
Definition pq_pop (l : list Event) : list Event :=
  match pq_top l with
  | Some x => match erase_first (λ i, bool_decide (i = x)) l with
              | Some (_, l') => l'
              | None => l
              end
  | None => l
  end.

(** [priority-queue-scheduler.cc] PriorityQueueScheduler::EventPriorityQueue::remove

    [std::find] compares with [operator==], that is, by unique id. *)
Definition EventPriorityQueue_remove (ev : Event) (l : list Event) : list Event * bool :=
  match erase_first (λ i, event_eqb i ev) l with
  | Some (_, l') => (l', true)
  | None => (l, false)
  end.

(** [priority-queue-scheduler.cc] PriorityQueueScheduler::PriorityQueueScheduler *)
Definition new : t := mk [].

(** [priority-queue-scheduler.cc] PriorityQueueScheduler::Insert *)
Definition Insert (ev : Event) (s : t) : res t := Ok (mk (ev :: c s)).

(** [priority-queue-scheduler.cc] PriorityQueueScheduler::IsEmpty *)
Definition IsEmpty (s : t) : bool := match c s with [] => true | _ :: _ => false end.

(** [priority-queue-scheduler.cc] PriorityQueueScheduler::PeekNext *)
Definition PeekNext (s : t) : res Event := deref (pq_top (c s)).

(** [priority-queue-scheduler.cc] PriorityQueueScheduler::RemoveNext *)
Definition RemoveNext (s : t) : res (Event * t) :=
  deref (pq_top (c s)) ≫= λ ev, Ok (ev, mk (pq_pop (c s))).

(** [priority-queue-scheduler.cc] PriorityQueueScheduler::Remove

    The result of [m_queue.remove] is not looked at. *)
Definition Remove (ev : Event) (s : t) : res t :=
  Ok (mk (fst (EventPriorityQueue_remove ev (c s)))).

#[global] Instance ops : Scheduler t := {|
  sched_new := new; sched_Insert := Insert; sched_IsEmpty := IsEmpty;
  sched_PeekNext := PeekNext; sched_RemoveNext := RemoveNext; sched_Remove := Remove
|}.

(** ** Correctness *)

Definition inv (s : t) : Prop := queue_ok (c s).

Lemma pq_top_least l x :
  pq_top l = Some x → x ∈ l ∧ ∀ e, e ∈ l → event_le x e.
Proof.
  revert x. induction l as [|y l IH]; intros x H; [done|]. cbn in H.
  destruct (pq_top l) as [z|] eqn:Hz.
  - destruct (IH z eq_refl) as [Hin Hle]. unfold event_gtb in H. rewrite key_gtb_ltb in H.
    destruct (key_ltb (key z) (key y)) eqn:Hzy; simplify_eq.
    + split; [by right|]. intros e [->|He]%elem_of_cons; [by apply event_lt_le|auto].
    + split; [by left|]. intros e [->|He]%elem_of_cons; [reflexivity|].
      etrans; [exact Hzy|auto].
  - destruct l; [|by cbn in Hz; destruct (pq_top l)]. simplify_eq. split; [by left|].
    intros e ->%list_elem_of_singleton. reflexivity.
Qed.

Lemma pq_top_is_Some l : l ≠ [] → ∃ x, pq_top l = Some x.
Proof. destruct l as [|x l]; [done|]. cbn. destruct (pq_top l); eauto. Qed.

Lemma pq_top_is_next l x : queue_ok l → pq_top l = Some x → is_next x l.
Proof. intros [Hnd _] [Hin Hle]%pq_top_least. by apply is_next_least. Qed.

Lemma pq_pop_perm l x : pq_top l = Some x → l ≡ₚ x :: pq_pop l.
Proof.
  intros H. unfold pq_pop. rewrite H. apply pq_top_least in H as [Hin _].
  destruct (erase_first_is_Some (λ i, bool_decide (i = x)) l x) as [[y l'] He];
    [done|by apply bool_decide_eq_true|].
  rewrite He. pose proof (erase_first_perm _ _ _ _ He) as Hp.
  apply erase_first_Some in He as (? & ? & ? & ? & Hy & _).
  by apply bool_decide_eq_true in Hy as ->.
Qed.

#[global] Instance spec : SchedulerSpec t.
Proof.
  refine {| sched_inv := inv; sched_events := c; sched_low := λ _, 0 |}.
  - done.
  - conj; [apply queue_ok_nil|done|done].
  - intros s ev Hq Hok _ Huid _. eexists. conj; [done| |done|done].
    unfold inv. cbn. by rewrite queue_ok_cons.
  - intros [l] _. cbn. by destruct l.
  - intros s Hq Hne. destruct (pq_top_is_Some _ Hne) as [x Hx]. exists x.
    cbn. unfold PeekNext. rewrite Hx. split; [done|by apply pq_top_is_next].
  - intros s Hq Hne. destruct (pq_top_is_Some _ Hne) as [x Hx].
    pose proof (pq_pop_perm _ _ Hx) as Hp.
    exists x, (mk (pq_pop (c s))). cbn. unfold RemoveNext. rewrite Hx.
    conj; [done|by apply pq_top_is_next|exact (queue_ok_erase _ _ _ Hq Hp)|done|].
    apply (queue_ok_ts x) in Hq; [lia|]. by apply pq_top_least in Hx as [? _].
Defined.

#[global] Instance remove_spec : SchedulerRemoveSpec t.
Proof.
  constructor. intros s ev Hq Hev.
  destruct (erase_uid_spec _ _ (proj1 Hq) Hev) as [l' He].
  exists (mk l'). cbn. unfold Remove, EventPriorityQueue_remove, event_eqb, key_eqb.
  rewrite He. pose proof (erase_first_perm _ _ _ _ He) as Hp.
  conj; [done|exact (queue_ok_erase _ _ _ Hq Hp)|done|done].
Qed.
