(* ===== verification/HeapScheduler.v ===== *)
(** * HeapScheduler (src/src/core/model/heap-scheduler.cc)

    The queue is a binary heap in a [std::vector] whose element 0 is a dummy, so
    that the root has index 1.  [Insert] and [RemoveNext] keep the heap order.
    [Remove] moves the last element to the freed index and only sifts it down:
    the heap order survives when that element is not before its new parent, and
    can be lost otherwise.  Indices are [nat]s: a [std::size_t] index of an
    existing vector never overflows. *)

From Stdlib Require Import ZifyNat.
From S2P Require Import Prelude Scheduler.
Local Open Scope nat_scope.

(** [HeapScheduler::m_heap]. *)
Record t := mk { m_heap : list Event }.

(** [heap-scheduler.cc] HeapScheduler::HeapScheduler *)
Definition new : t := mk [mkEvent 0 (mkKey 0 0 0)].

(** [heap-scheduler.cc] HeapScheduler::Parent *)
Definition Parent (id : nat) : nat := id / 2.

(** [heap-scheduler.cc] HeapScheduler::Sibling *)
Definition Sibling (id : nat) : nat := id + 1.

(** [heap-scheduler.cc] HeapScheduler::LeftChild *)
Definition LeftChild (id : nat) : nat := id * 2.

(** [heap-scheduler.cc] HeapScheduler::RightChild *)
Definition RightChild (id : nat) : nat := id * 2 + 1.

(** [heap-scheduler.cc] HeapScheduler::Root *)
Definition Root : nat := 1.

(** [heap-scheduler.cc] HeapScheduler::IsRoot *)
Definition IsRoot (id : nat) : bool := id =? Root.

(** [heap-scheduler.cc] HeapScheduler::Last *)
Definition Last (h : list Event) : nat := length h - 1.

(** [heap-scheduler.cc] HeapScheduler::IsBottom *)
Definition IsBottom (h : list Event) (id : nat) : bool := length h <=? id.

(** [heap-scheduler.cc] HeapScheduler::Exch *)
Definition Exch (a b : nat) (h : list Event) : res (list Event) :=
  _ ← ns_assert ((b <? length h) && (a <? length h));
  tmp ← deref (h !! a);
  hb ← deref (h !! b);
  Ok (<[b := tmp]> (<[a := hb]> h)).

(** [heap-scheduler.cc] HeapScheduler::IsLessStrictly *)
Definition IsLessStrictly (h : list Event) (a b : nat) : res bool :=
  ea ← deref (h !! a);
  eb ← deref (h !! b);
  Ok (event_ltb ea eb).

(** [heap-scheduler.cc] HeapScheduler::Smallest *)
Definition Smallest (h : list Event) (a b : nat) : res nat :=
  lt ← IsLessStrictly h a b;
  Ok (if lt : bool then a else b).

(** [heap-scheduler.cc] HeapScheduler::IsEmpty *)
Definition IsEmpty (s : t) : bool := length (m_heap s) =? 1.

(** [heap-scheduler.cc:158-163] HeapScheduler::BottomUp

    The [while] loop.  The index halves at each turn. *)
Fixpoint BottomUp_loop (fuel index : nat) (h : list Event) : res (list Event) :=
  match fuel with
  | O => Err OutOfFuel
  | S fuel =>
      if IsRoot index then Ok h
      else
        lt ← IsLessStrictly h index (Parent index);
        if lt : bool then
          h ← Exch index (Parent index) h;
          BottomUp_loop fuel (Parent index) h
        else Ok h
  end.

(** [heap-scheduler.cc] HeapScheduler::BottomUp *)
Definition BottomUp (h : list Event) : res (list Event) :=
  BottomUp_loop (S (length h)) (Last h) h.

(** [heap-scheduler.cc:184-198] HeapScheduler::TopDown

    What follows the loop: the case of a node with a left child only. *)
Definition TopDown_tail (index : nat) (h : list Event) : res (list Event) :=
  if IsBottom h index then Ok h
  else
    let left := LeftChild index in
    if IsBottom h left then Ok h
    else
      lt ← IsLessStrictly h index left;
      if lt : bool then Ok h else Exch index left h.

(** [heap-scheduler.cc:170-183] HeapScheduler::TopDown

    The [while] loop.  The index at least doubles at each turn. *)
Fixpoint TopDown_loop (fuel index : nat) (h : list Event) : res (list Event) :=
  match fuel with
  | O => Err OutOfFuel
  | S fuel =>
      let right := RightChild index in
      if IsBottom h right then TopDown_tail index h
      else
        let left := LeftChild index in
        tmp ← Smallest h left right;
        lt ← IsLessStrictly h index tmp;
        if lt : bool then Ok h
        else
          h ← Exch index tmp h;
          TopDown_loop fuel tmp h
  end.

(** [heap-scheduler.cc] HeapScheduler::TopDown *)
Definition TopDown (start : nat) (h : list Event) : res (list Event) :=
  TopDown_loop (S (length h)) start h.

(** [heap-scheduler.cc] HeapScheduler::Insert *)
Definition Insert (ev : Event) (s : t) : res t :=
  h ← BottomUp (m_heap s ++ [ev]);
  Ok (mk h).

(** [heap-scheduler.cc] HeapScheduler::PeekNext *)
Definition PeekNext (s : t) : res Event := deref (m_heap s !! Root).

(** [std::vector::pop_back]. *)
Definition pop_back (h : list Event) : list Event := take (length h - 1) h.

(** [heap-scheduler.cc] HeapScheduler::RemoveNext *)
Definition RemoveNext (s : t) : res (Event * t) :=
  next ← deref (m_heap s !! Root);
  h ← Exch Root (Last (m_heap s)) (m_heap s);
  h ← TopDown Root (pop_back h);
  Ok (next, mk h).

(** [heap-scheduler.cc:232-234] HeapScheduler::Remove

    The search of the [for] loop: the least index [i >= 1] whose event has the
    unique id [uid]. *)
Fixpoint find_uid (uid : Z) (i : nat) (h : list Event) : option nat :=
  match h with
  | [] => None
  | e :: h' =>
      if (1 <=? i) && (uid =? m_uid (key e))%Z then Some i else find_uid uid (S i) h'
  end.

(** [heap-scheduler.cc] HeapScheduler::Remove *)
Definition Remove (ev : Event) (s : t) : res t :=
  match find_uid (m_uid (key ev)) 0 (m_heap s) with
  | None => Err NsAssert
  | Some i =>
      e ← deref (m_heap s !! i);
      _ ← ns_assert (impl e =? impl ev)%Z;
      h ← Exch i (Last (m_heap s)) (m_heap s);
      h ← TopDown i (pop_back h);
      Ok (mk h)
  end.

#[global] Instance ops : Scheduler t := {|
  sched_new := new; sched_Insert := Insert; sched_IsEmpty := IsEmpty;
  sched_PeekNext := PeekNext; sched_RemoveNext := RemoveNext; sched_Remove := Remove
|}.

(** ** Exchanges *)

#[export] Instance Event_inhabited : Inhabited Event := populate (mkEvent 0 (mkKey 0 0 0)).

Definition swap (a b : nat) (h : list Event) : list Event :=
  <[b := h !!! a]> (<[a := h !!! b]> h).

Lemma lookup_ok (h : list Event) i : i < length h → deref (h !! i) = Ok (h !!! i).
Proof. intros Hi. by rewrite (list_lookup_lookup_total_lt h i Hi). Qed.

Lemma Exch_ok a b h : a < length h → b < length h → Exch a b h = Ok (swap a b h).
Proof.
  intros Ha Hb. unfold Exch. rewrite (proj2 (Nat.ltb_lt _ _) Ha), (proj2 (Nat.ltb_lt _ _) Hb).
  cbn. by rewrite !lookup_ok.
Qed.

Lemma IsLessStrictly_ok h a b :
  a < length h → b < length h → IsLessStrictly h a b = Ok (event_ltb (h !!! a) (h !!! b)).
Proof. intros Ha Hb. unfold IsLessStrictly. by rewrite !lookup_ok. Qed.

Lemma length_swap a b h : length (swap a b h) = length h.
Proof. unfold swap. by rewrite !length_insert. Qed.

Lemma swap_lookup a b h i :
  a < length h → b < length h →
  swap a b h !!! i = if decide (i = b) then h !!! a else if decide (i = a) then h !!! b else h !!! i.
Proof.
  intros Ha Hb. unfold swap. case_decide as H1; [subst|].
  { apply list_lookup_total_insert_eq. by rewrite length_insert. }
  rewrite list_lookup_total_insert_ne by done.
  case_decide as H2; [subst|]; [by apply list_lookup_total_insert_eq|].
  by rewrite list_lookup_total_insert_ne.
Qed.

Lemma insert_perm (l : list Event) i x : i < length l → (l !!! i) :: <[i:=x]> l ≡ₚ x :: l.
Proof.
  intros Hi. pose proof (list_lookup_lookup_total_lt l i Hi) as Hx.
  rewrite insert_take_drop by done.
  rewrite <- (take_drop_middle l i _ Hx) at 4. rewrite <- !Permutation_middle.
  apply Permutation_swap.
Qed.

Lemma swap_perm a b h : a < length h → b < length h → swap a b h ≡ₚ h.
Proof.
  intros Ha Hb. apply (Permutation_cons_inv (a := h !!! b)).
  destruct (decide (a = b)) as [->|Hne].
  - unfold swap. rewrite list_insert_insert_eq. by apply insert_perm.
  - unfold swap. set (h1 := <[a := h !!! b]> h).
    assert (h1 !!! b = h !!! b) as Hb1 by (unfold h1; by rewrite list_lookup_total_insert_ne).
    rewrite <- Hb1 at 1. rewrite insert_perm by (unfold h1; by rewrite length_insert).
    unfold h1. by apply insert_perm.
Qed.

(** The events of the heap: everything but the dummy. *)
Definition events (s : t) : list Event := drop 1 (m_heap s).

(** A rearrangement of the array that leaves the dummy in place. *)
Definition rearranges (h' h : list Event) : Prop :=
  h' ≡ₚ h ∧ length h' = length h ∧ h' !!! 0 = h !!! 0.

#[export] Instance rearranges_trans : Transitive rearranges.
Proof. intros h1 h2 h3 (?&?&?) (?&?&?). unfold rearranges. conj; etrans; eauto. Qed.
#[export] Instance rearranges_refl : Reflexive rearranges.
Proof. intros h. done. Qed.

Lemma swap_rearranges a b h :
  1 ≤ a < length h → 1 ≤ b < length h → rearranges (swap a b h) h.
Proof.
  intros Ha Hb. unfold rearranges. conj; [apply swap_perm; lia|apply length_swap|].
  rewrite swap_lookup by lia. repeat case_decide; (done || lia).
Qed.

Lemma rearranges_drop h h' : 0 < length h → rearranges h' h → drop 1 h' ≡ₚ drop 1 h.
Proof.
  intros Hl (Hp & Hlen & H0). destruct h as [|d h], h' as [|d' h']; cbn in *; try lia.
  subst. by apply Permutation_cons_inv in Hp.
Qed.

(** ** Heap order *)

(** Every event but the root's is not before its parent's. *)
Definition heap_ordered (h : list Event) : Prop :=
  ∀ i, 2 ≤ i < length h → event_le (h !!! Parent i) (h !!! i).

(** Heap order but for the edge above [j]: [j]'s children are still above [j]'s parent. *)
Definition ordered_but_up (h : list Event) (j : nat) : Prop :=
  (∀ i, 2 ≤ i < length h → i ≠ j → event_le (h !!! Parent i) (h !!! i)) ∧
  (∀ i, 2 ≤ i < length h → Parent i = j → 2 ≤ j → event_le (h !!! Parent j) (h !!! i)).

(** Heap order but for the edges below [j]. *)
Definition ordered_but_down (h : list Event) (j : nat) : Prop :=
  (∀ i, 2 ≤ i < length h → Parent i ≠ j → event_le (h !!! Parent i) (h !!! i)) ∧
  (∀ i, 2 ≤ i < length h → Parent i = j → 2 ≤ j → event_le (h !!! Parent j) (h !!! i)).

Lemma heap_ordered_root h i :
  heap_ordered h → 1 ≤ i < length h → event_le (h !!! 1) (h !!! i).
Proof.
  intros Hh. induction (lt_wf i) as [i _ IH]. intros Hi.
  destruct (decide (i = 1)) as [->|]; [reflexivity|].
  etrans; [apply (IH (Parent i)); unfold Parent; lia|apply Hh; lia].
Qed.

Lemma swap_l a b h : a < length h → b < length h → swap a b h !!! a = h !!! b.
Proof. intros. rewrite swap_lookup by done. repeat case_decide; congruence. Qed.
Lemma swap_r a b h : a < length h → b < length h → swap a b h !!! b = h !!! a.
Proof. intros. rewrite swap_lookup by done. by rewrite decide_True. Qed.
Lemma swap_ne a b h i :
  a < length h → b < length h → i ≠ a → i ≠ b → swap a b h !!! i = h !!! i.
Proof. intros. rewrite swap_lookup by done. by rewrite !decide_False. Qed.

(** Arithmetic on heap indices. *)
Ltac heap_lia := unfold Parent, LeftChild, RightChild in *; lia.

Lemma BottomUp_step h j :
  2 ≤ j < length h → ordered_but_up h j → event_lt (h !!! j) (h !!! Parent j) →
  ordered_but_up (swap j (Parent j) h) (Parent j).
Proof.
  intros Hj [H1 H2] Hlt. unfold ordered_but_up. rewrite length_swap. split.
  - intros i Hi Hne. destruct (decide (i = j)) as [->|Hij].
    { rewrite swap_r, swap_l by heap_lia. by apply event_lt_le. }
    rewrite (swap_ne _ _ _ i) by heap_lia.
    destruct (decide (Parent i = Parent j)) as [Hp|Hp].
    { rewrite Hp, swap_r by heap_lia. etrans; [by apply event_lt_le|].
      rewrite <- Hp. by apply H1. }
    destruct (decide (Parent i = j)) as [Hpj|Hpj].
    { rewrite Hpj, swap_l by heap_lia. apply H2; [done..|lia]. }
    rewrite swap_ne by heap_lia. by apply H1.
  - intros i Hi Hp Hp2. rewrite (swap_ne _ _ _ (Parent (Parent j))) by heap_lia.
    assert (event_le (h !!! Parent (Parent j)) (h !!! Parent j)) as Hle
      by (apply H1; heap_lia).
    destruct (decide (i = j)) as [->|Hij]; [by rewrite swap_l by heap_lia|].
    rewrite swap_ne by heap_lia. etrans; [exact Hle|]. rewrite <- Hp. by apply H1.
Qed.

Lemma ordered_but_up_stop h j :
  ordered_but_up h j → (2 ≤ j < length h → event_le (h !!! Parent j) (h !!! j)) →
  heap_ordered h.
Proof.
  intros [H1 _] Hj i Hi. destruct (decide (i = j)) as [->|]; [by apply Hj|by apply H1].
Qed.

Lemma BottomUp_loop_ok fuel j h :
  1 ≤ j < length h → j < fuel → ordered_but_up h j →
  ∃ h', BottomUp_loop fuel j h = Ok h' ∧ rearranges h' h ∧ heap_ordered h'.
Proof.
  revert j h. induction fuel as [|fuel IH]; intros j h Hj Hf Ho; [lia|]. cbn [BottomUp_loop].
  unfold IsRoot, Root. destruct (Nat.eqb_spec j 1) as [->|Hj1].
  { exists h. conj; [done..|]. apply (ordered_but_up_stop _ 1); [done|lia]. }
  rewrite IsLessStrictly_ok by heap_lia. res_simpl.
  destruct (event_ltb (h !!! j) (h !!! Parent j)) eqn:Hlt.
  - rewrite Exch_ok by heap_lia. res_simpl.
    destruct (IH (Parent j) (swap j (Parent j) h)) as (h' & -> & Hr & Hh).
    + rewrite length_swap. heap_lia.
    + heap_lia.
    + apply BottomUp_step; [lia|done..].
    + exists h'. conj; [done| |done]. etrans; [exact Hr|apply swap_rearranges; heap_lia].
  - exists h. conj; [done..|]. apply (ordered_but_up_stop _ j); [done|]. intros _. exact Hlt.
Qed.

Lemma TopDown_step h j c :
  1 ≤ j → c < length h → c = LeftChild j ∨ c = RightChild j → ordered_but_down h j →
  event_le (h !!! c) (h !!! j) →
  (∀ i, 2 ≤ i < length h → Parent i = j → event_le (h !!! c) (h !!! i)) →
  ordered_but_down (swap j c h) c.
Proof.
  intros Hj Hc Hcj [H1 H2] Hle Hmin. unfold ordered_but_down. rewrite length_swap.
  assert (Parent c = j) as Hpc by heap_lia. split.
  - intros i Hi Hne. destruct (decide (i = c)) as [->|Hic].
    { rewrite Hpc, swap_l, swap_r by heap_lia. done. }
    destruct (decide (i = j)) as [->|Hij].
    { rewrite swap_l, swap_ne by heap_lia. etrans; [|apply H2; [|exact Hpc|]; heap_lia].
      reflexivity. }
    rewrite (swap_ne _ _ _ i) by heap_lia.
    destruct (decide (Parent i = j)) as [Hp|Hp].
    { rewrite Hp, swap_l by heap_lia. by apply Hmin. }
    rewrite swap_ne by heap_lia. by apply H1.
  - intros i Hi Hp Hc2. rewrite Hpc, swap_l, swap_ne by heap_lia.
    rewrite <- Hp. apply H1; heap_lia.
Qed.

Lemma ordered_but_down_stop h j :
  ordered_but_down h j →
  (∀ i, 2 ≤ i < length h → Parent i = j → event_le (h !!! j) (h !!! i)) →
  heap_ordered h.
Proof.
  intros [H1 _] Hj i Hi.
  destruct (decide (Parent i = j)) as [<-|]; [by apply Hj|by apply H1].
Qed.

(** The two children of [j] are the only indices whose parent is [j]. *)
Lemma children j i : 2 ≤ i → Parent i = j → i = LeftChild j ∨ i = RightChild j.
Proof. intros. heap_lia. Qed.

Lemma IsBottom_spec h i : IsBottom h i = true ↔ length h ≤ i.
Proof. apply Nat.leb_le. Qed.

Lemma TopDown_tail_ok j h :
  1 ≤ j → length h ≤ RightChild j →
  ∃ h', TopDown_tail j h = Ok h' ∧ rearranges h' h ∧
    (ordered_but_down h j → heap_ordered h').
Proof.
  intros Hj Hr. unfold TopDown_tail.
  destruct (IsBottom h j) eqn:Hb; [apply IsBottom_spec in Hb|
    apply not_true_iff_false in Hb; rewrite IsBottom_spec in Hb].
  { exists h. conj; [done..|]. intros Ho. apply (ordered_but_down_stop _ _ Ho). heap_lia. }
  destruct (IsBottom h (LeftChild j)) eqn:Hl; [apply IsBottom_spec in Hl|
    apply not_true_iff_false in Hl; rewrite IsBottom_spec in Hl].
  { exists h. conj; [done..|]. intros Ho. apply (ordered_but_down_stop _ _ Ho). heap_lia. }
  rewrite IsLessStrictly_ok by heap_lia. res_simpl.
  destruct (event_ltb (h !!! j) (h !!! LeftChild j)) eqn:Hlt.
  - exists h. conj; [done..|]. intros Ho. apply (ordered_but_down_stop _ _ Ho).
    intros i Hi Hp. destruct (children j i) as [->| ->]; [lia|done| |heap_lia].
    by apply event_lt_le.
  - rewrite Exch_ok by heap_lia. exists (swap j (LeftChild j) h). conj; [done| |].
    { apply swap_rearranges; heap_lia. }
    intros Ho. apply (ordered_but_down_stop _ (LeftChild j)).
    + apply TopDown_step; [done|heap_lia|by left|done|done|].
      intros i Hi Hp. destruct (children j i) as [->| ->]; [lia|done|reflexivity|heap_lia].
    + rewrite length_swap. heap_lia.
Qed.

Lemma TopDown_loop_ok fuel j h :
  1 ≤ j → length h < j + fuel → 0 < fuel →
  ∃ h', TopDown_loop fuel j h = Ok h' ∧ rearranges h' h ∧
    (ordered_but_down h j → heap_ordered h').
Proof.
  revert j h. induction fuel as [|fuel IH]; intros j h Hj Hf Hf0; [lia|].
  cbn [TopDown_loop].
  destruct (IsBottom h (RightChild j)) eqn:Hb.
  { apply IsBottom_spec in Hb. by apply TopDown_tail_ok. }
  apply not_true_iff_false in Hb. rewrite IsBottom_spec in Hb.
  unfold Smallest. rewrite IsLessStrictly_ok by heap_lia. res_simpl.
  set (c := if event_ltb _ _ then _ else _).
  assert (c = LeftChild j ∨ c = RightChild j) as Hc by (unfold c; case_match; auto).
  assert (∀ i, 2 ≤ i < length h → Parent i = j → event_le (h !!! c) (h !!! i)) as Hmin.
  { intros i Hi Hp. unfold c. destruct (children j i) as [->| ->]; [lia|done|..];
      case_match; try reflexivity; [exact H|by apply event_lt_le]. }
  rewrite IsLessStrictly_ok by heap_lia. res_simpl.
  destruct (event_ltb (h !!! j) (h !!! c)) eqn:Hlt.
  - exists h. conj; [done..|]. intros Ho. apply (ordered_but_down_stop _ _ Ho).
    intros i Hi Hp. etrans; [by apply event_lt_le|by apply Hmin].
  - rewrite Exch_ok by heap_lia. res_simpl.
    destruct (IH c (swap j c h)) as (h' & -> & Hr & Hh); rewrite ?length_swap; [heap_lia..|].
    exists h'. conj; [done| |].
    + etrans; [exact Hr|apply swap_rearranges; heap_lia].
    + intros Ho. apply Hh. apply TopDown_step; [done|heap_lia|done..].
Qed.

Lemma TopDown_ok j h :
  1 ≤ j → 0 < length h →
  ∃ h', TopDown j h = Ok h' ∧ rearranges h' h ∧ (ordered_but_down h j → heap_ordered h').
Proof. intros. apply TopDown_loop_ok; lia. Qed.

(** ** The operations *)

Definition wf (s : t) : Prop := 0 < length (m_heap s) ∧ queue_ok (events s).
Definition inv (s : t) : Prop := wf s ∧ heap_ordered (m_heap s).

Lemma heap_elem_of_events s e :
  e ∈ events s ↔ ∃ i, 1 ≤ i < length (m_heap s) ∧ m_heap s !!! i = e.
Proof.
  unfold events. rewrite list_elem_of_lookup. split.
  - intros [i Hi]. rewrite lookup_drop in Hi. exists (1 + i). split.
    + apply lookup_lt_Some in Hi. lia.
    + by apply list_lookup_total_correct.
  - intros (i & Hi & <-). exists (i - 1). rewrite lookup_drop.
    replace (1 + (i - 1)) with i by lia. apply list_lookup_lookup_total_lt. lia.
Qed.

Lemma length_events s : length (events s) = length (m_heap s) - 1.
Proof. unfold events. by rewrite length_drop. Qed.

Lemma rearranges_events h s : 0 < length (m_heap s) → rearranges h (m_heap s) → events (mk h) ≡ₚ events s.
Proof. apply rearranges_drop. Qed.

Lemma length_pop_back h : length (pop_back h) = length h - 1.
Proof. unfold pop_back. rewrite length_take. lia. Qed.

Lemma pop_back_lookup h i : i < length h - 1 → pop_back h !!! i = h !!! i.
Proof.
  intros Hi. unfold pop_back. apply list_lookup_total_correct.
  rewrite lookup_take_lt by lia. apply list_lookup_lookup_total_lt. lia.
Qed.

(** Removing index [i] by exchange with the last element. *)
Definition without (i : nat) (h : list Event) : list Event := pop_back (swap i (Last h) h).

Lemma without_lookup i h k :
  1 ≤ i < length h → k < length h - 1 →
  without i h !!! k = if decide (k = i) then h !!! Last h else h !!! k.
Proof.
  intros Hi Hk. unfold without. rewrite pop_back_lookup by (rewrite length_swap; lia).
  unfold Last. rewrite swap_lookup by lia. repeat case_decide; (done || lia).
Qed.

Lemma length_without i h : length (without i h) = length h - 1.
Proof. unfold without. by rewrite length_pop_back, length_swap. Qed.

Lemma without_perm i h : 1 ≤ i < length h → drop 1 h ≡ₚ (h !!! i) :: drop 1 (without i h).
Proof.
  intros Hi. set (h' := swap i (Last h) h).
  assert (rearranges h' h) as Hr by (apply swap_rearranges; unfold Last; lia).
  rewrite <- (rearranges_drop h h') by (done || lia).
  assert (length h' = length h) as Hl by apply length_swap.
  assert (h' !! Last h = Some (h !!! i)) as Hlast.
  { rewrite list_lookup_lookup_total_lt by (rewrite Hl; unfold Last; lia).
    unfold h'. by rewrite swap_r by (unfold Last; lia). }
  unfold without. fold h'. unfold pop_back. rewrite Hl.
  rewrite <- (take_drop_middle h' _ _ Hlast) at 1. unfold Last.
  rewrite (drop_ge h' (S _)) by lia. rewrite drop_app_le by (rewrite length_take; lia).
  symmetry. apply Permutation_cons_append.
Qed.

Lemma ordered_but_up_snoc h ev :
  1 ≤ length h → heap_ordered h → ordered_but_up (h ++ [ev]) (length h).
Proof.
  intros Hl Hh. unfold ordered_but_up. rewrite length_app. cbn [length].
  split; intros i Hi; [|intros Hp; heap_lia].
  intros Hne. rewrite !lookup_total_app_l by heap_lia. apply Hh. lia.
Qed.

Lemma ordered_but_down_without i h :
  1 ≤ i < length h → heap_ordered h →
  (2 ≤ i < length h - 1 → event_le (h !!! Parent i) (h !!! Last h)) →
  ordered_but_down (without i h) i.
Proof.
  intros Hi Hh Hlast. unfold ordered_but_down. rewrite length_without. split.
  - intros k Hk Hp. rewrite (without_lookup i h (Parent k)) by heap_lia.
    rewrite (decide_False (P := Parent k = i)) by done.
    rewrite without_lookup by heap_lia. case_decide; [subst; apply Hlast; lia|apply Hh; lia].
  - intros k Hk Hp Hi2. rewrite !without_lookup by heap_lia.
    rewrite !decide_False by heap_lia.
    etrans; [apply (Hh i); heap_lia|]. rewrite <- Hp. apply Hh. lia.
Qed.

Lemma Insert_ok s ev :
  inv s → event_ok ev → uid ev ∉ uids (events s) →
  ∃ s', Insert ev s = Ok s' ∧ inv s' ∧ events s' ≡ₚ ev :: events s.
Proof.
  intros [[Hl Hq] Hh] Hok Hu. unfold Insert, BottomUp, Last.
  rewrite length_app. cbn [length]. replace (length (m_heap s) + 1 - 1) with (length (m_heap s)) by lia.
  destruct (BottomUp_loop_ok (S (length (m_heap s) + 1)) (length (m_heap s)) (m_heap s ++ [ev]))
    as (h' & -> & Hr & Ho); [rewrite length_app; cbn; lia|lia| |].
  { by apply ordered_but_up_snoc. }
  res_simpl. exists (mk h').
  assert (events (mk h') ≡ₚ ev :: events s) as Hp.
  { etrans; [apply (rearranges_drop (m_heap s ++ [ev])); [rewrite length_app; cbn; lia|exact Hr]|].
    rewrite drop_app_le by lia. symmetry. apply Permutation_cons_append. }
  conj; [done| |done]. split; [|done]. split.
  - destruct Hr as (_ & Hlen & _). cbn. rewrite Hlen, length_app. cbn. lia.
  - by eapply queue_ok_insert.
Qed.

Lemma root_is_next s : inv s → events s ≠ [] → is_next (m_heap s !!! 1) (events s).
Proof.
  intros [[Hl Hq] Hh] Hne.
  assert (length (events s) ≠ 0) as Hln by (by destruct (events s)).
  rewrite length_events in Hln.
  apply is_next_least; [apply Hq|apply heap_elem_of_events; exists 1; split; [lia|done]|].
  intros e (i & Hi & <-)%heap_elem_of_events. by apply heap_ordered_root.
Qed.

(** Exchanging index [i] with the last element, popping it and sifting down. *)
Lemma remove_at_ok s i :
  wf s → 1 ≤ i < length (m_heap s) →
  ∃ h, (Exch i (Last (m_heap s)) (m_heap s) ≫= λ h, TopDown i (pop_back h)) = Ok h ∧
    wf (mk h) ∧ events s ≡ₚ (m_heap s !!! i) :: events (mk h) ∧
    (ordered_but_down (without i (m_heap s)) i → heap_ordered h).
Proof.
  intros [Hl Hq] Hi. rewrite Exch_ok by (unfold Last; lia). res_simpl.
  fold (without i (m_heap s)).
  destruct (TopDown_ok i (without i (m_heap s))) as (h & -> & Hr & Ho);
    [lia|rewrite length_without; lia|].
  exists h.
  assert (events s ≡ₚ (m_heap s !!! i) :: events (mk h)) as Hp.
  { etrans; [by apply without_perm|]. apply perm_skip. symmetry.
    apply rearranges_drop; [rewrite length_without; lia|exact Hr]. }
  conj; [done| |done|done]. split; [|by eapply queue_ok_erase].
  destruct Hr as (_ & Hlen & _). cbn. rewrite Hlen, length_without. lia.
Qed.

Lemma RemoveNext_ok s :
  inv s → events s ≠ [] →
  ∃ s', RemoveNext s = Ok (m_heap s !!! 1, s') ∧ inv s' ∧
    events s ≡ₚ (m_heap s !!! 1) :: events s'.
Proof.
  intros [Hwf Hh] Hne.
  assert (length (events s) ≠ 0) as Hln by (by destruct (events s)).
  rewrite length_events in Hln.
  destruct (remove_at_ok s 1) as (h & He & Hwf' & Hp & Ho); [done|lia|].
  exists (mk h). unfold RemoveNext, Root. rewrite lookup_ok by lia. res_simpl.
  apply res_bind_ok in He as (h0 & Hx & Ht). rewrite Hx. res_simpl. rewrite Ht.
  conj; [done| |done]. split; [done|]. apply Ho.
  apply ordered_but_down_without; [lia|done|lia].
Qed.

#[global] Instance spec : SchedulerSpec t.
Proof.
  refine {| sched_inv := inv; sched_events := events; sched_low := λ _, 0%Z |}.
  - by intros s [[_ ?] _].
  - conj; [|done|done]. split; [split; [cbn; lia|apply queue_ok_nil]|].
    intros i Hi. cbn in Hi. lia.
  - intros s ev Hinv Hok _ Hu _. destruct (Insert_ok s ev Hinv Hok Hu) as (s' & ? & ? & ?).
    by exists s'.
  - intros s [[Hl _] _]. cbn. unfold IsEmpty. rewrite Nat.eqb_eq.
    pose proof (length_events s) as He. destruct (events s); cbn in He; split; (done || lia).
  - intros s Hinv Hne. exists (m_heap s !!! 1). split; [|by apply root_is_next].
    cbn. unfold PeekNext, Root. apply lookup_ok.
    pose proof (length_events s) as He. destruct (events s); [done|]. cbn in He. lia.
  - intros s Hinv Hne. destruct (RemoveNext_ok s Hinv Hne) as (s' & He & Hinv' & Hp).
    exists (m_heap s !!! 1), s'. pose proof (root_is_next s Hinv Hne) as Hn.
    conj; [done..|]. apply (queue_ok_ts (m_heap s !!! 1) (events s)); [apply Hinv|apply Hn].
Defined.

(** ** Remove *)

Lemma find_uid_Some u i0 h i :
  find_uid u i0 h = Some i → i0 ≤ i < i0 + length h ∧ 1 ≤ i ∧ m_uid (key (h !!! (i - i0))) = u.
Proof.
  revert i0. induction h as [|e h IH]; intros i0 Hf; [done|]. cbn [find_uid] in Hf.
  destruct ((1 <=? i0) && (u =? m_uid (key e))%Z) eqn:Hc.
  - injection Hf as ->. apply andb_true_iff in Hc as [H1%Nat.leb_le Hu%Z.eqb_eq].
    replace (i - i) with 0 by lia. cbn [length]. conj; (lia || done).
  - apply IH in Hf as (? & ? & <-). cbn [length]. conj; try lia.
    replace (i - i0) with (S (i - S i0)) by lia. done.
Qed.

Lemma find_uid_None u i0 h k :
  find_uid u i0 h = None → k < length h → 1 ≤ i0 + k → m_uid (key (h !!! k)) ≠ u.
Proof.
  revert i0 k. induction h as [|e h IH]; intros i0 k Hf Hk H1;
    cbn [find_uid length] in *; [lia|].
  destruct ((1 <=? i0) && (u =? m_uid (key e))%Z) eqn:Hc; [done|].
  destruct k as [|k]; cbn [lookup_total list_lookup_total].
  - rewrite (proj2 (Nat.leb_le 1 i0)) in Hc by lia. apply Z.eqb_neq in Hc. congruence.
  - apply (IH (S i0)); [done|lia|lia].
Qed.

Lemma find_uid_ok s ev :
  wf s → ev ∈ events s →
  ∃ i, find_uid (m_uid (key ev)) 0 (m_heap s) = Some i ∧ 1 ≤ i < length (m_heap s) ∧
    m_heap s !!! i = ev.
Proof.
  intros [_ [Hnd _]] Hev. destruct (find_uid _ 0 (m_heap s)) as [i|] eqn:Hf.
  - exists i. apply find_uid_Some in Hf as (? & ? & Hu). rewrite Nat.sub_0_r in Hu.
    conj; [done|lia|lia|]. apply (uids_inj (events s)); [done| |done|done].
    apply heap_elem_of_events. exists i. split; [lia|done].
  - apply heap_elem_of_events in Hev as (k & Hk & <-).
    by eapply (find_uid_None _ 0 _ k) in Hf; [|lia|lia].
Qed.

(** [Remove] always succeeds on an event of the queue, and takes out exactly that
    event; the heap order is kept when the last element may stand below the
    parent of the freed index. *)
Lemma Remove_ok s ev :
  wf s → ev ∈ events s →
  ∃ i s', m_heap s !!! i = ev ∧ 1 ≤ i < length (m_heap s) ∧ Remove ev s = Ok s' ∧
    wf s' ∧ events s ≡ₚ ev :: events s' ∧
    (heap_ordered (m_heap s) →
     (2 ≤ i < length (m_heap s) - 1 → event_le (m_heap s !!! Parent i) (m_heap s !!! Last (m_heap s))) →
     inv s').
Proof.
  intros Hwf Hev. destruct (find_uid_ok s ev Hwf Hev) as (i & Hf & Hi & Hie).
  destruct (remove_at_ok s i Hwf Hi) as (h & He & Hwf' & Hp & Ho).
  exists i, (mk h). unfold Remove. rewrite Hf, lookup_ok by lia. res_simpl.
  subst ev. rewrite Z.eqb_refl. res_simpl.
  apply res_bind_ok in He as (h0 & Hx & Ht). rewrite Hx. res_simpl. rewrite Ht.
  conj; [done|lia|lia|done|done|done|]. intros Hh Hc. split; [done|]. apply Ho.
  by apply ordered_but_down_without.
Qed.
