(* ===== verification/CalendarScheduler.v ===== *)
(** * CalendarScheduler (src/src/core/model/calendar-scheduler.cc)

    The queue is a calendar: an array of buckets, each a sorted [std::list];
    an event of timestamp [ts] is in bucket [(ts / m_width) % m_nBuckets].
    [PeekNext] and [DoRemoveNext] scan one year of buckets from the one the last
    event came from, and fall back on the least bucket head.  The array doubles or
    halves with the number of events, with a width estimated from the first
    events.  The attribute [Reverse], set at construction only, is the index of the
    state's type: in reverse mode buckets are sorted in decreasing order.

    The fields are unsigned C++ integers, with their wrap-around: [m_bucketTop]
    and the tops of the scan may overflow 64 bits, and the queue is right in that
    case too. *)

From S2P Require Import Prelude Scheduler.
Local Open Scope Z_scope.

(** [calendar-scheduler.h:169-184] CalendarScheduler

    [Bucket] is [std::list<Scheduler::Event>]. *)
Record t (m_reverse : bool) := mk {
  m_buckets : list (list Event);
  m_nBuckets : Z;     (* uint32_t *)
  m_width : Z;        (* uint64_t *)
  m_lastBucket : Z;   (* uint32_t *)
  m_bucketTop : Z;    (* uint64_t *)
  m_lastPrio : Z;     (* uint64_t *)
  m_qSize : Z         (* uint32_t *)
}.
Arguments mk {m_reverse}.
Arguments m_buckets {m_reverse}.
Arguments m_nBuckets {m_reverse}.
Arguments m_width {m_reverse}.
Arguments m_lastBucket {m_reverse}.
Arguments m_bucketTop {m_reverse}.
Arguments m_lastPrio {m_reverse}.
Arguments m_qSize {m_reverse}.

(** The outcome of the scan of [DoRemoveNext]: the event found in its year, with
    the bucket and the top it was found at, or the least head of all buckets. *)
Inductive scan_result :=
  | Found (i bucketTop : Z) (next : Event)
  | Exhausted (minKey : EventKey) (minBucket : Z).

Section calendar.
Context {r : bool}.
Implicit Types s : t r.

Definition set_buckets (b : list (list Event)) s : t r :=
  mk b (m_nBuckets s) (m_width s) (m_lastBucket s) (m_bucketTop s) (m_lastPrio s) (m_qSize s).
Definition set_cursor (lastBucket lastPrio bucketTop : Z) s : t r :=
  mk (m_buckets s) (m_nBuckets s) (m_width s) lastBucket bucketTop lastPrio (m_qSize s).
Definition set_qSize (n : Z) s : t r :=
  mk (m_buckets s) (m_nBuckets s) (m_width s) (m_lastBucket s) (m_bucketTop s) (m_lastPrio s) n.

(** [m_buckets[i]] for reading. *)
Definition bucket_at (i : Z) s : res (list Event) :=
  if i <? 0 then Err Undefined else deref (m_buckets s !! Z.to_nat i).
Definition set_bucket (i : Z) (b : list Event) s : t r :=
  set_buckets (<[Z.to_nat i := b]> (m_buckets s)) s.

(** The three functions [SetReverse] selects. *)

(** [calendar-scheduler.cc:76-94] CalendarScheduler::SetReverse *)
Definition NextEvent (bucket : list Event) : res Event :=
  deref (if r then last bucket else head bucket).

(** [calendar-scheduler.cc:76-94] CalendarScheduler::SetReverse *)
Definition Order (a b : EventKey) : bool := if r then key_gtb a b else key_ltb a b.

(** [calendar-scheduler.cc:76-94] CalendarScheduler::SetReverse *)
Definition Pop (bucket : list Event) : list Event :=
  if r then take (length bucket - 1) bucket else drop 1 bucket.

(** [calendar-scheduler.cc] CalendarScheduler::Hash

    The divisions are by [m_width] and [m_nBuckets], which the invariant keeps
    positive. *)
Definition Hash (ts : Z) s : Z := u32 ((ts / m_width s) mod m_nBuckets s).

(** [calendar-scheduler.cc] CalendarScheduler::Init *)
Definition Init (nBuckets width startPrio : Z) s : t r :=
  let s := mk (replicate (Z.to_nat nBuckets) []) nBuckets width
              (m_lastBucket s) (m_bucketTop s) startPrio (m_qSize s) in
  set_cursor (Hash startPrio s) startPrio (u64 ((startPrio / width + 1) * width)) s.

(** [calendar-scheduler.cc] CalendarScheduler::CalendarScheduler *)
Definition new : t r :=
  set_qSize 0 (Init 2 1 0 (mk [] 0 0 0 0 0 0)).

(** [calendar-scheduler.cc] CalendarScheduler::DoInsert *)
Definition DoInsert (ev : Event) s : res (t r) :=
  let bucket := Hash (ts ev) s in
  b ← bucket_at bucket s;
  Ok (set_bucket bucket (insert_before (λ ev i, Order (key ev) (key i)) ev b) s).

(** [calendar-scheduler.cc] CalendarScheduler::IsEmpty *)
Definition IsEmpty s : bool := m_qSize s =? 0.

(** [calendar-scheduler.cc:180-197] CalendarScheduler::PeekNext

    The [do ... while] loop; it makes at most [m_nBuckets] turns. *)
Fixpoint PeekNext_loop (fuel : nat) (i bucketTop : Z) (minEvent : Event) s : res Event :=
  match fuel with
  | O => Err OutOfFuel
  | S fuel =>
      let continue minEvent :=
        let i := u32 (i + 1) mod m_nBuckets s in
        let bucketTop := u64 (bucketTop + m_width s) in
        if i =? m_lastBucket s then Ok minEvent
        else PeekNext_loop fuel i bucketTop minEvent s in
      b ← bucket_at i s;
      match b with
      | [] => continue minEvent
      | _ =>
          next ← NextEvent b;
          if ts next <? bucketTop then Ok next
          else if key_ltb (key next) (key minEvent) then continue next
          else continue minEvent
      end
  end.

(** [calendar-scheduler.cc] CalendarScheduler::PeekNext *)
Definition PeekNext s : res Event :=
  _ ← ns_assert (negb (IsEmpty s));
  PeekNext_loop (Z.to_nat (m_nBuckets s)) (m_lastBucket s) (m_bucketTop s)
    (mkEvent 0 (mkKey UINT64_MAX UINT32_MAX 0)) s.

(** [calendar-scheduler.cc:215-237] CalendarScheduler::DoRemoveNext *)
Fixpoint DoRemoveNext_loop (fuel : nat) (i bucketTop : Z) (minKey : EventKey)
    (minBucket : Z) s : res scan_result :=
  match fuel with
  | O => Err OutOfFuel
  | S fuel =>
      let continue minKey minBucket :=
        let i := u32 (i + 1) mod m_nBuckets s in
        let bucketTop := u64 (bucketTop + m_width s) in
        if i =? m_lastBucket s then Ok (Exhausted minKey minBucket)
        else DoRemoveNext_loop fuel i bucketTop minKey minBucket s in
      b ← bucket_at i s;
      match b with
      | [] => continue minKey minBucket
      | _ =>
          next ← NextEvent b;
          if ts next <? bucketTop then Ok (Found i bucketTop next)
          else if key_ltb (key next) minKey then continue (key next) (sint 32 i)
          else continue minKey minBucket
      end
  end.

(** [calendar-scheduler.cc:222-245] CalendarScheduler::DoRemoveNext

    The updates before either [return]: lines 222-226 for an event found in its
    year, lines 239-245 after the loop. *)
Definition take_event s (found : scan_result) : res (Event * t r) :=
  match found with
  | Found i bucketTop next =>
      let s := set_cursor i (ts next) bucketTop s in
      b ← bucket_at i s;
      Ok (next, set_bucket i (Pop b) s)
  | Exhausted minKey minBucket =>
      let s := set_cursor (Hash (m_ts minKey) s) (m_ts minKey)
                 (u64 ((m_ts minKey / m_width s + 1) * m_width s)) s in
      b ← bucket_at minBucket s;
      next ← NextEvent b;
      Ok (next, set_bucket minBucket (Pop b) s)
  end.

(** [calendar-scheduler.cc] CalendarScheduler::DoRemoveNext *)
Definition DoRemoveNext s : res (Event * t r) :=
  _ ← ns_assert (negb (IsEmpty s));
  found ← DoRemoveNext_loop (Z.to_nat (m_nBuckets s)) (m_lastBucket s) (m_bucketTop s)
            (mkKey UINT64_MAX 0 UINT32_MAX) (-1) s;
  take_event s found.

(** [calendar-scheduler.cc:339-342] CalendarScheduler::CalculateNewWidth *)
Fixpoint gather (n : nat) s : res (list Event * t r) :=
  match n with
  | O => Ok ([], s)
  | S n =>
      '(ev, s) ← DoRemoveNext s;
      '(samples, s) ← gather n s;
      Ok (ev :: samples, s)
  end.

(** [calendar-scheduler.cc:344-347] CalendarScheduler::CalculateNewWidth *)
Fixpoint put_back (samples : list Event) s : res (t r) :=
  match samples with
  | [] => Ok s
  | ev :: samples => s ← DoInsert ev s; put_back samples s
  end.

(** [calendar-scheduler.cc:355-365] CalendarScheduler::CalculateNewWidth *)
Fixpoint sum_separation (cur : Event) (next : list Event) (totalSeparation : Z) : Z :=
  match next with
  | [] => totalSeparation
  | n :: rest =>
      sum_separation n rest (u64 (totalSeparation + u64 (ts n - ts cur)))
  end.

(** [calendar-scheduler.cc:367-380] CalendarScheduler::CalculateNewWidth *)
Fixpoint sum_close_separation (twiceAvg : Z) (cur : Event) (next : list Event)
    (totalSeparation : Z) : Z :=
  match next with
  | [] => totalSeparation
  | n :: rest =>
      let diff := u64 (ts n - ts cur) in
      sum_close_separation twiceAvg n rest
        (if diff <=? twiceAvg then u64 (totalSeparation + diff) else totalSeparation)
  end.

(** [calendar-scheduler.cc:354-384] CalendarScheduler::CalculateNewWidth

    The estimate from the samples; the lists that are empty are never met, as at
    least two events are sampled. *)
Definition width_of_samples (nSamples : Z) (samples : list Event) : res Z :=
  match samples with
  | [] => Err Undefined
  | cur :: next =>
      let totalSeparation := sum_separation cur next 0 in
      let twiceAvg := u64 (totalSeparation / (nSamples - 1) * 2) in
      let totalSeparation := sum_close_separation twiceAvg cur next 0 in
      Ok (Z.max (u64 (totalSeparation * 3)) 1)
  end.

(** [calendar-scheduler.cc] CalendarScheduler::CalculateNewWidth *)
Definition CalculateNewWidth s : res (Z * t r) :=
  if m_qSize s <? 2 then Ok (1, s)
  else
    let nSamples := if m_qSize s <=? 5 then m_qSize s else u32 (5 + m_qSize s / 10) in
    let nSamples := if nSamples >? 25 then 25 else nSamples in
    let lastBucket := m_lastBucket s in
    let bucketTop := m_bucketTop s in
    let lastPrio := m_lastPrio s in
    '(samples, s) ← gather (Z.to_nat nSamples) s;
    s ← put_back samples s;
    let s := set_cursor lastBucket lastPrio bucketTop s in
    w ← width_of_samples nSamples samples;
    Ok (w, s).

(** [calendar-scheduler.cc] CalendarScheduler::DoResize *)
Definition DoResize (newSize newWidth : Z) s : res (t r) :=
  put_back (concat (m_buckets s)) (Init newSize newWidth (m_lastPrio s) s).

(** [calendar-scheduler.cc] CalendarScheduler::Resize *)
Definition Resize (newSize : Z) s : res (t r) :=
  '(newWidth, s) ← CalculateNewWidth s;
  DoResize newSize newWidth s.

(** [calendar-scheduler.cc] CalendarScheduler::ResizeUp *)
Definition ResizeUp s : res (t r) :=
  if (m_qSize s >? u32 (m_nBuckets s * 2)) && (m_nBuckets s <? 32768)
  then Resize (u32 (m_nBuckets s * 2)) s
  else Ok s.

(** [calendar-scheduler.cc] CalendarScheduler::ResizeDown *)
Definition ResizeDown s : res (t r) :=
  if m_qSize s <? m_nBuckets s / 2 then Resize (m_nBuckets s / 2) s else Ok s.

(** [calendar-scheduler.cc] CalendarScheduler::Insert *)
Definition Insert (ev : Event) s : res (t r) :=
  s ← DoInsert ev s;
  ResizeUp (set_qSize (u32 (m_qSize s + 1)) s).

(** [calendar-scheduler.cc] CalendarScheduler::RemoveNext *)
Definition RemoveNext s : res (Event * t r) :=
  _ ← ns_assert (negb (IsEmpty s));
  '(ev, s) ← DoRemoveNext s;
  s ← ResizeDown (set_qSize (u32 (m_qSize s - 1)) s);
  Ok (ev, s).

(** [calendar-scheduler.cc] CalendarScheduler::Remove *)
Definition Remove (ev : Event) s : res (t r) :=
  _ ← ns_assert (negb (IsEmpty s));
  let bucket := Hash (ts ev) s in
  b ← bucket_at bucket s;
  match erase_first (λ i, m_uid (key i) =? m_uid (key ev)) b with
  | Some (i, b') =>
      _ ← ns_assert (impl ev =? impl i);
      let s := set_bucket bucket b' s in
      ResizeDown (set_qSize (u32 (m_qSize s - 1)) s)
  | None => Err NsAssert
  end.
End calendar.

#[global] Instance ops r : Scheduler (t r) := {|
  sched_new := new; sched_Insert := Insert; sched_IsEmpty := IsEmpty;
  sched_PeekNext := PeekNext; sched_RemoveNext := RemoveNext; sched_Remove := Remove
|}.

(** ** Invariants *)

Section proofs.
Context {r : bool}.
Implicit Types s : t r.

(** The order of a bucket. *)
Definition ord : Event → Event → Prop := if r then flip event_le else event_le.

Definition events s : list Event := concat (m_buckets s).

(** The bucket of the virtual bucket number [q], that is, of the timestamps in
    [[q * m_width, (q + 1) * m_width)]. *)
Definition bucketq s (q : Z) : list Event := m_buckets s !!! Z.to_nat (q mod m_nBuckets s).

(** The array: every bucket is sorted and holds the events that hash to it. *)
Record bk s : Prop := {
  bk_len : Z.of_nat (length (m_buckets s)) = m_nBuckets s;
  bk_n : 1 ≤ m_nBuckets s < 65536;
  bk_w : 1 ≤ m_width s < 2 ^ 64;
  bk_sorted i : StronglySorted ord (m_buckets s !!! i);
  bk_hash i e : e ∈ m_buckets s !!! i → Z.of_nat i = (ts e / m_width s) mod m_nBuckets s;
  bk_ok : queue_ok (events s)
}.

(** The cursor of the scan stands at the year and bucket of [m_lastPrio]. *)
Definition cursor s : Prop :=
  0 ≤ m_lastPrio s < 2 ^ 64 ∧
  m_lastBucket s = (m_lastPrio s / m_width s) mod m_nBuckets s ∧
  m_bucketTop s = u64 ((m_lastPrio s / m_width s + 1) * m_width s).

(** No event is due before the last one returned. *)
Definition bounded s : Prop := ∀ e, e ∈ events s → m_lastPrio s ≤ ts e.

Definition inv s : Prop :=
  bk s ∧ cursor s ∧ bounded s ∧
  m_qSize s = Z.of_nat (length (events s)) ∧ m_qSize s < 2 ^ 32.

Definition same_cursor s s' : Prop :=
  m_lastBucket s = m_lastBucket s' ∧ m_bucketTop s = m_bucketTop s' ∧
  m_lastPrio s = m_lastPrio s'.
Definition same_size s s' : Prop :=
  m_nBuckets s = m_nBuckets s' ∧ m_width s = m_width s' ∧ m_qSize s = m_qSize s'.

Lemma elem_of_concat (l : list (list Event)) e : e ∈ concat l ↔ ∃ i, e ∈ l !!! i.
Proof.
  rewrite list_elem_of_In, in_concat. split.
  - intros (b & Hb & He). rewrite <- list_elem_of_In in Hb. rewrite <- list_elem_of_In in He.
    apply list_elem_of_lookup in Hb as [i Hi]. exists i.
    by rewrite (list_lookup_total_correct _ _ _ Hi).
  - intros [i He]. exists (l !!! i). rewrite <- !list_elem_of_In. split; [|done].
    destruct (decide (i < length l)%nat) as [Hi|Hi].
    + by apply list_elem_of_lookup_total_2.
    + rewrite list_lookup_total_alt, lookup_ge_None_2 in He by lia. by apply not_elem_of_nil in He.
Qed.

Lemma concat_take_x_drop (l : list (list Event)) i b :
  (i < length l)%nat → concat (<[i:=b]> l) ≡ₚ b ++ concat (take i l ++ drop (S i) l).
Proof.
  intros Hi. rewrite insert_take_drop by done. rewrite !concat_app. cbn.
  rewrite !app_assoc. apply Permutation_app_tail. apply Permutation_app_comm.
Qed.

(** Adding one event to a bucket, and taking one out. *)
Lemma concat_insert (l : list (list Event)) i b x :
  (i < length l)%nat → b ≡ₚ x :: (l !!! i) → concat (<[i:=b]> l) ≡ₚ x :: concat l.
Proof.
  intros Hi Hb. rewrite concat_take_x_drop, Hb by done. cbn. apply perm_skip.
  rewrite <- concat_take_x_drop by done. rewrite list_insert_id; [done|].
  by apply list_lookup_lookup_total_lt.
Qed.

Lemma concat_delete (l : list (list Event)) i b x :
  (i < length l)%nat → (l !!! i) ≡ₚ x :: b → concat l ≡ₚ x :: concat (<[i:=b]> l).
Proof.
  intros Hi Hb. rewrite concat_take_x_drop by done.
  rewrite <- (list_insert_id l i (l !!! i)) at 1 by by apply list_lookup_lookup_total_lt.
  rewrite concat_take_x_drop by done. by rewrite Hb.
Qed.

Lemma Hash_eq s n : bk s → Hash n s = (n / m_width s) mod m_nBuckets s.
Proof.
  intros Hbk. destruct (bk_n _ Hbk). apply wrap_id.
  pose proof (Z.mod_pos_bound (n / m_width s) (m_nBuckets s)). unfold fits. lia.
Qed.

Lemma bucket_at_ok s i :
  bk s → 0 ≤ i < m_nBuckets s → bucket_at i s = Ok (m_buckets s !!! Z.to_nat i).
Proof.
  intros Hbk Hi. pose proof (bk_len _ Hbk). unfold bucket_at.
  rewrite (proj2 (Z.ltb_ge i 0)) by lia.
  rewrite list_lookup_lookup_total_lt by lia. done.
Qed.

Lemma mod_n s q : bk s → 0 ≤ q mod m_nBuckets s < m_nBuckets s.
Proof. intros Hbk. destruct (bk_n _ Hbk). apply Z.mod_pos_bound. lia. Qed.

Lemma bucket_at_mod s q : bk s → bucket_at (q mod m_nBuckets s) s = Ok (bucketq s q).
Proof. intros Hbk. apply bucket_at_ok; [done|by apply mod_n]. Qed.

(** An event is in the bucket of its own virtual number. *)
Lemma cal_elem_of_events s e :
  bk s → e ∈ events s ↔ e ∈ bucketq s (ts e / m_width s).
Proof.
  intros Hbk. unfold events, bucketq. rewrite elem_of_concat. split.
  - intros [i He]. rewrite <- (bk_hash _ Hbk i e He). by rewrite Nat2Z.id.
  - by eauto.
Qed.

Lemma bucketq_hash s q e :
  bk s → e ∈ bucketq s q → (ts e / m_width s) mod m_nBuckets s = q mod m_nBuckets s.
Proof.
  intros Hbk He. pose proof (mod_n s q Hbk).
  apply (bk_hash _ Hbk) in He. lia.
Qed.

Lemma bucketq_elem s q e : e ∈ bucketq s q → e ∈ events s.
Proof. intros He. apply elem_of_concat. by eexists. Qed.

(** ** Buckets *)

Lemma ord_le a b : ord a b ↔ if r then event_le b a else event_le a b.
Proof. unfold ord. by destruct r. Qed.

#[local] Instance ord_trans : Transitive ord.
Proof.
  intros a b c. rewrite !ord_le. destruct r; intros; etrans; eauto.
Qed.

Lemma insert_bucket_sorted ev b :
  StronglySorted ord b →
  StronglySorted ord (insert_before (λ ev i, Order (r:=r) (key ev) (key i)) ev b).
Proof.
  apply insert_before_sorted; [apply _| |]; intros i; rewrite ord_le; unfold Order;
    destruct r; rewrite ?key_gtb_ltb; intros H; try exact H; by apply event_lt_le.
Qed.

(** The next event of a bucket is its least one, and [Pop] removes it. *)
Lemma NextEvent_ok b :
  StronglySorted ord b → b ≠ [] →
  ∃ e, NextEvent (r:=r) b = Ok e ∧ (∀ e', e' ∈ b → event_le e e') ∧
    b ≡ₚ e :: Pop (r:=r) b ∧ StronglySorted ord (Pop (r:=r) b).
Proof.
  intros Hs Hne. unfold NextEvent, Pop, ord in *. destruct r.
  - destruct (exists_last Hne) as (b' & e & ->). exists e.
    rewrite last_snoc, length_app. cbn.
    replace (length b' + 1 - 1)%nat with (length b') by lia. rewrite take_app_length.
    apply StronglySorted_app in Hs as (Hle & Hs & _).
    conj; [done| |symmetry; apply Permutation_cons_append|done].
    intros e' [He'| ->%list_elem_of_singleton]%elem_of_app; [|reflexivity].
    apply (Hle e' e); [done|by left].
  - destruct b as [|e b]; [done|]. exists e. cbn.
    apply StronglySorted_inv in Hs as [Hs Hle]. rewrite Forall_forall in Hle.
    conj; [done| |done|done]. intros e' [->|He']%elem_of_cons; [reflexivity|auto].
Qed.

Lemma NextEvent_nil : NextEvent (r:=r) [] = Err Undefined.
Proof. unfold NextEvent. by destruct r. Qed.

Lemma bucketq_sorted s q : bk s → StronglySorted ord (bucketq s q).
Proof. intros Hbk. apply (bk_sorted _ Hbk). Qed.

Lemma NextEvent_elem s q e :
  bk s → NextEvent (r:=r) (bucketq s q) = Ok e →
  e ∈ bucketq s q ∧ ∀ e', e' ∈ bucketq s q → event_le e e'.
Proof.
  intros Hbk He. destruct (bucketq s q) as [|x b] eqn:Hb.
  { by rewrite NextEvent_nil in He. }
  destruct (NextEvent_ok (x :: b)) as (e' & He' & Hle & Hp & _); [|done|].
  { rewrite <- Hb. by apply bucketq_sorted. }
  assert (e' = e) as -> by congruence. split; [|done]. rewrite Hp. by left.
Qed.

(** Replacing one bucket by another sorted bucket of the same hash keeps the array. *)
Lemma bk_set_bucket s i b :
  bk s → 0 ≤ i < m_nBuckets s → StronglySorted ord b →
  (∀ e, e ∈ b → i = (ts e / m_width s) mod m_nBuckets s) →
  queue_ok (events (set_bucket i b s)) → bk (set_bucket i b s).
Proof.
  intros Hbk Hi Hs Hh Hq. pose proof (bk_len _ Hbk) as Hlen. destruct Hbk. constructor; cbn.
  - by rewrite length_insert.
  - done.
  - done.
  - intros j. destruct (decide (j = Z.to_nat i)) as [->|Hne].
    + rewrite list_lookup_total_insert_eq by lia. done.
    + rewrite list_lookup_total_insert_ne by done. auto.
  - intros j e. destruct (decide (j = Z.to_nat i)) as [->|Hne].
    + rewrite list_lookup_total_insert_eq by lia. intros He. rewrite <- (Hh e He). lia.
    + rewrite list_lookup_total_insert_ne by done. auto.
  - done.
Qed.

Lemma DoInsert_ok s ev :
  bk s → event_ok ev → uid ev ∉ uids (events s) →
  ∃ s', DoInsert ev s = Ok s' ∧ bk s' ∧ events s' ≡ₚ ev :: events s ∧
    same_cursor s' s ∧ same_size s' s.
Proof.
  intros Hbk Hok Hu. unfold DoInsert. rewrite Hash_eq by done.
  rewrite bucket_at_mod by done. res_simpl.
  set (q := ts ev / m_width s). set (b' := insert_before _ _ _).
  exists (set_bucket (q mod m_nBuckets s) b' s).
  pose proof (mod_n s q Hbk) as Hq. pose proof (bk_len _ Hbk) as Hlen.
  assert (b' ≡ₚ ev :: bucketq s q) as Hb' by apply insert_before_perm.
  assert (events (set_bucket (q mod m_nBuckets s) b' s) ≡ₚ ev :: events s) as Hp.
  { apply concat_insert; [lia|done]. }
  conj; [done| |done|done|done]. apply bk_set_bucket; [done|done| | |].
  - by apply insert_bucket_sorted, bucketq_sorted.
  - intros e. rewrite Hb'. intros [->|He]%elem_of_cons; [done|].
    symmetry. by apply bucketq_hash.
  - eapply queue_ok_insert; [exact (bk_ok _ Hbk)|done..].
Qed.

(** Taking the event [NextEvent] returns out of its bucket. *)
Lemma Pop_ok s q e :
  bk s → NextEvent (r:=r) (bucketq s q) = Ok e →
  let s' := set_bucket (q mod m_nBuckets s) (Pop (r:=r) (bucketq s q)) s in
  bk s' ∧ events s ≡ₚ e :: events s'.
Proof.
  intros Hbk He s'. destruct (NextEvent_elem s q e Hbk He) as [Hin _].
  destruct (NextEvent_ok (bucketq s q)) as (e' & He' & _ & Hp & Hs).
  { by apply bucketq_sorted. } { intros Hb. rewrite Hb in Hin. by apply elem_of_nil in Hin. }
  assert (e' = e) as -> by congruence.
  pose proof (mod_n s q Hbk) as Hq. pose proof (bk_len _ Hbk) as Hlen.
  assert (events s ≡ₚ e :: events s') as Hev by (apply concat_delete; [lia|done]).
  split; [|done]. apply bk_set_bucket; [done|done|done| |].
  - intros e'' He''. symmetry. apply bucketq_hash; [done|]. rewrite Hp. by right.
  - eapply queue_ok_erase; [exact (bk_ok _ Hbk)|done].
Qed.

(** ** The scan of one year

    Step [k] of the scan, counted from 0, looks at virtual bucket number
    [q0 s + k], whose true top is [vtop s k]; the code's top is that modulo 2^64. *)

Definition q0 s : Z := m_lastPrio s / m_width s.
Definition idx s (k : Z) : Z := (q0 s + k) mod m_nBuckets s.
Definition vtop s (k : Z) : Z := (q0 s + k + 1) * m_width s.
Definition top s (k : Z) : Z := u64 (vtop s k).

(** No event of the first [k] buckets is below its top. *)
Definition missed s (k : Z) : Prop :=
  ∀ j e, 0 ≤ j < k → e ∈ bucketq s (q0 s + j) → top s j ≤ ts e.

(** [o] is the least head of the first [k] buckets. *)
Definition best s (k : Z) (o : option Event) : Prop :=
  match o with
  | None => ∀ j, 0 ≤ j < k → bucketq s (q0 s + j) = []
  | Some e => ∃ j, 0 ≤ j < k ∧ NextEvent (r:=r) (bucketq s (q0 s + j)) = Ok e ∧
      ∀ j' e', 0 ≤ j' < k → e' ∈ bucketq s (q0 s + j') → event_le e e'
  end.

Definition least s (e : Event) : Prop := ∀ e', e' ∈ events s → event_le e e'.

Lemma idx_step s k : bk s → u32 (idx s k + 1) mod m_nBuckets s = idx s (k + 1).
Proof.
  intros Hbk. pose proof (mod_n s (q0 s + k) Hbk). destruct (bk_n _ Hbk).
  unfold idx in *. rewrite wrap_id by (unfold fits; lia).
  rewrite Z.add_mod_idemp_l by lia. f_equal. lia.
Qed.

Lemma top_step s k : u64 (top s k + m_width s) = top s (k + 1).
Proof. unfold top, vtop. rewrite wrap_add_l by lia. f_equal. lia. Qed.

Lemma cursor_start s : cursor s → m_lastBucket s = idx s 0 ∧ m_bucketTop s = top s 0.
Proof.
  intros (_ & -> & ->). unfold idx, top, vtop, q0. rewrite Z.add_0_r. done.
Qed.

Lemma idx_end s k : bk s → 0 ≤ k < m_nBuckets s → idx s (k + 1) = idx s 0 ↔ k + 1 = m_nBuckets s.
Proof.
  intros Hbk Hk. unfold idx. split.
  - intros [m Hm]%mod_eq_multiple; [|lia].
    assert (m ≤ 0 ∨ m = 1 ∨ 2 ≤ m) as [?|[->|?]] by lia; nia.
  - intros ->. rewrite Z.add_0_r.
    replace (q0 s + m_nBuckets s) with (q0 s + 1 * m_nBuckets s) by lia. apply Z_mod_plus_full.
Qed.

(** The virtual number of an event, seen from the cursor. *)
Lemma virtual_of_event s e :
  bk s → cursor s → bounded s → e ∈ events s →
  q0 s ≤ ts e / m_width s ∧
  ∃ j, 0 ≤ j < m_nBuckets s ∧ e ∈ bucketq s (q0 s + j) ∧
    (ts e / m_width s = q0 s + j ∨ q0 s + m_nBuckets s ≤ ts e / m_width s).
Proof.
  intros Hbk Hc Hb He. destruct (bk_w _ Hbk). destruct (bk_n _ Hbk).
  assert (q0 s ≤ ts e / m_width s) as Hle by (apply Z.div_le_mono; [lia|by apply Hb]).
  split; [done|]. exists ((ts e / m_width s - q0 s) mod m_nBuckets s). conj.
  - apply Z.mod_pos_bound. lia.
  - apply Z.mod_pos_bound. lia.
  - apply (cal_elem_of_events s e Hbk) in He. unfold bucketq in *.
    rewrite Z.add_mod_idemp_r by lia. by replace (q0 s + _) with (ts e / m_width s) by lia.
  - destruct (decide (ts e / m_width s < q0 s + m_nBuckets s)); [left|right; lia].
    rewrite Z.mod_small by lia. lia.
Qed.

Lemma virtual_of_bucket s k e :
  bk s → cursor s → bounded s → 0 ≤ k < m_nBuckets s → e ∈ bucketq s (q0 s + k) →
  q0 s + k ≤ ts e / m_width s.
Proof.
  intros Hbk Hc Hb Hk He. pose proof (bucketq_hash _ _ _ Hbk He) as Hh.
  apply bucketq_elem in He. destruct (virtual_of_event s e Hbk Hc Hb He) as [Hle _].
  destruct (bk_n _ Hbk). apply mod_eq_multiple in Hh as [m Hm]; [|lia].
  destruct (decide (q0 s + k ≤ ts e / m_width s)); [done|].
  destruct (decide (0 ≤ m)); nia.
Qed.

(** The bounds of a timestamp from its virtual number. *)
Lemma virtual_bounds s e :
  bk s → (ts e / m_width s) * m_width s ≤ ts e < (ts e / m_width s + 1) * m_width s.
Proof.
  intros Hbk. destruct (bk_w _ Hbk).
  pose proof (Z.div_mod (ts e) (m_width s)).
  pose proof (Z.mod_pos_bound (ts e) (m_width s)). nia.
Qed.

(** The head found below the code's top is the least event of the queue, whether
    or not the tops of the scan overflow. *)
Lemma hit_least s k e :
  bk s → cursor s → bounded s → 0 ≤ k < m_nBuckets s →
  NextEvent (r:=r) (bucketq s (q0 s + k)) = Ok e → missed s k → ts e < top s k →
  least s e ∧ ts e / m_width s = q0 s + k.
Proof.
  intros Hbk Hc Hb Hk He Hm Ht. destruct (bk_w _ Hbk) as [Hw1 Hw2].
  assert (0 ≤ q0 s) as Hq0 by (apply Z.div_pos; [apply Hc|lia]).
  destruct (NextEvent_elem _ _ _ Hbk He) as [Hin Hmin].
  pose proof (virtual_of_bucket s k e Hbk Hc Hb Hk Hin) as Hv.
  pose proof (virtual_bounds s e Hbk) as Hvb.
  assert (top s k ≤ vtop s k) as Htv by (apply wrap_le; unfold vtop; nia).
  assert (ts e / m_width s = q0 s + k) as Hveq.
  { apply Z.le_antisymm; [|done]. apply Z.lt_succ_r.
    apply Z.div_lt_upper_bound; [lia|]. unfold vtop in Htv. nia. }
  split; [|done]. rewrite Hveq in Hvb.
  assert (vtop s k < 2 ^ 64) as Hno.
  { destruct (decide (vtop s k < 2 ^ 64)); [done|exfalso].
    assert (top s k ≤ vtop s k - 2 ^ 64) as Htk.
    { unfold top, wrap. pose proof (Z.div_mod (vtop s k) (2 ^ 64)).
      assert (1 ≤ vtop s k / 2 ^ 64) by (apply Z.div_le_lower_bound; lia). lia. }
    unfold vtop in *. nia. }
  intros e' He'. pose proof (virtual_bounds s e' Hbk) as Hvb'.
  destruct (virtual_of_event s e' Hbk Hc Hb He') as (Hle & j & Hj & Hin' & Hcase).
  destruct (Z.lt_trichotomy (ts e' / m_width s) (q0 s + k)) as [Hlt|[Heq|Hgt]].
  - exfalso. destruct Hcase as [Hcase|Hcase]; [|lia].
    pose proof (Hm j e' ltac:(lia) Hin') as Htj. unfold top in Htj.
    rewrite wrap_id in Htj; unfold vtop in *; [|unfold fits]; nia.
  - apply Hmin. assert (j = k) as -> by lia. done.
  - apply event_le_spec. left. nia.
Qed.

(** The running minimum of the scan. *)
Lemma best_empty s k o : bucketq s (q0 s + k) = [] → best s k o → best s (k + 1) o.
Proof.
  intros Hk. destruct o as [e|]; cbn.
  - intros (j & Hj & He & Hmin). exists j. conj; [lia|lia|done|]. intros j' e' Hj' He'.
    destruct (decide (j' = k)) as [->|]; [rewrite Hk in He'; by apply elem_of_nil in He'|].
    apply (Hmin j'); [lia|done].
  - intros Hall j Hj. destruct (decide (j = k)) as [->|]; [done|apply Hall; lia].
Qed.

Lemma best_take s k o e :
  bk s → 0 ≤ k → NextEvent (r:=r) (bucketq s (q0 s + k)) = Ok e → best s k o →
  (∀ e0, o = Some e0 → event_lt e e0) → best s (k + 1) (Some e).
Proof.
  intros Hbk Hk He Hb Hlt. destruct (NextEvent_elem _ _ _ Hbk He) as [_ Hmin].
  exists k. conj; [lia|lia|done|]. intros j' e' Hj' He'.
  destruct (decide (j' = k)) as [->|]; [by apply Hmin|].
  destruct o as [e0|]; cbn in Hb.
  - destruct Hb as (j & _ & _ & Hmin0). etrans; [by apply event_lt_le, Hlt|].
    apply (Hmin0 j'); [lia|done].
  - rewrite Hb in He' by lia. by apply elem_of_nil in He'.
Qed.

Lemma best_keep s k e0 e :
  bk s → NextEvent (r:=r) (bucketq s (q0 s + k)) = Ok e → best s k (Some e0) →
  event_le e0 e → best s (k + 1) (Some e0).
Proof.
  intros Hbk He (j & Hj & He0 & Hmin0) Hle.
  destruct (NextEvent_elem _ _ _ Hbk He) as [_ Hmin].
  exists j. conj; [lia|lia|done|]. intros j' e' Hj' He'.
  destruct (decide (j' = k)) as [->|]; [etrans; [done|by apply Hmin]|].
  apply (Hmin0 j'); [lia|done].
Qed.

Lemma missed_step s k :
  missed s k → (∀ e, e ∈ bucketq s (q0 s + k) → top s k ≤ ts e) → missed s (k + 1).
Proof.
  intros Hm Hk j e Hj He. destruct (decide (j = k)) as [->|]; [by apply Hk|].
  apply (Hm j); [lia|done].
Qed.

(** At the end of the year the running minimum is the least event of the queue. *)
Lemma best_least s o :
  bk s → cursor s → bounded s → events s ≠ [] → best s (m_nBuckets s) o →
  ∃ e j, o = Some e ∧ 0 ≤ j < m_nBuckets s ∧
    NextEvent (r:=r) (bucketq s (q0 s + j)) = Ok e ∧ least s e.
Proof.
  intros Hbk Hc Hb Hne Hbest.
  assert (∀ e', e' ∈ events s → ∃ j, 0 ≤ j < m_nBuckets s ∧ e' ∈ bucketq s (q0 s + j)) as Hall.
  { intros e' He'. destruct (virtual_of_event s e' Hbk Hc Hb He') as (_ & j & ? & ? & _). eauto. }
  destruct o as [e|]; cbn in Hbest.
  - destruct Hbest as (j & Hj & He & Hmin). exists e, j. conj; [done|lia|lia|done|].
    intros e' He'. destruct (Hall e' He') as (j' & Hj' & Hin). by apply (Hmin j').
  - exfalso. destruct (events s) as [|e' l] eqn:Hev; [done|].
    destruct (Hall e') as (j & Hj & Hin); [by left|].
    rewrite Hbest in Hin by done. by apply elem_of_nil in Hin.
Qed.

(** ** The loops of PeekNext and DoRemoveNext *)

Lemma bucket_at_idx s k : bk s → bucket_at (idx s k) s = Ok (bucketq s (q0 s + k)).
Proof. apply bucket_at_mod. Qed.

Definition scan_ok s (res : scan_result) : Prop :=
  match res with
  | Found i bucketTop e => ∃ k, 0 ≤ k < m_nBuckets s ∧ i = idx s k ∧ bucketTop = top s k ∧
      NextEvent (r:=r) (bucketq s (q0 s + k)) = Ok e ∧ least s e ∧ ts e / m_width s = q0 s + k
  | Exhausted minKey minBucket => ∃ k e, 0 ≤ k < m_nBuckets s ∧ minBucket = idx s k ∧
      minKey = key e ∧ NextEvent (r:=r) (bucketq s (q0 s + k)) = Ok e ∧ least s e
  end.

(** The accumulators of the two loops as representations of the running minimum. *)
Definition acc_remove s (o : option Event) (minKey : EventKey) (minBucket : Z) : Prop :=
  match o with
  | None => minKey = mkKey UINT64_MAX 0 UINT32_MAX ∧ minBucket = -1
  | Some e => minKey = key e ∧ ∃ k, 0 ≤ k < m_nBuckets s ∧ minBucket = idx s k ∧
      NextEvent (r:=r) (bucketq s (q0 s + k)) = Ok e
  end.

Definition acc_peek (o : option Event) (minEvent : Event) : Prop :=
  minEvent = match o with Some e => e | None => mkEvent 0 (mkKey UINT64_MAX UINT32_MAX 0) end.

Section scan.
Context (s : t r) (Hbk : bk s) (Hc : cursor s) (Hb : bounded s) (Hne : events s ≠ []).

Lemma event_below_sentinel e q u c :
  NextEvent (r:=r) (bucketq s q) = Ok e → key_ltb (key e) (mkKey UINT64_MAX u c) = true.
Proof using Hbk.
  intros He. apply key_ltb_true. left. cbn.
  destruct (NextEvent_elem _ _ _ Hbk He) as [Hin%bucketq_elem _].
  apply (queue_ok_ts e (events s)); [apply (bk_ok _ Hbk)|done].
Qed.

(** What one step of the scan does, for either loop. *)
Lemma scan_step k o :
  0 ≤ k < m_nBuckets s → missed s k → best s k o →
  match bucketq s (q0 s + k) with
  | [] => missed s (k + 1) ∧ best s (k + 1) o
  | _ => ∃ e, NextEvent (r:=r) (bucketq s (q0 s + k)) = Ok e ∧
      (ts e < top s k → least s e ∧ ts e / m_width s = q0 s + k) ∧
      (top s k ≤ ts e → missed s (k + 1) ∧
        match o with
        | Some e0 => if event_ltb e e0 then best s (k + 1) (Some e) else best s (k + 1) o
        | None => best s (k + 1) (Some e)
        end)
  end.
Proof using Hbk Hc Hb.
  intros Hk Hm Hbest. destruct (bucketq s (q0 s + k)) as [|x b] eqn:Hq.
  - split; [|by apply best_empty]. apply missed_step; [done|]. intros e He.
    rewrite Hq in He. by apply elem_of_nil in He.
  - destruct (NextEvent_ok (bucketq s (q0 s + k))) as (e & He & Hmin & _);
      [by apply bucketq_sorted|by rewrite Hq|].
    rewrite <- Hq. exists e. conj; [done| |].
    + intros Ht. by apply (hit_least s k e).
    + intros Ht. split.
      { apply missed_step; [done|]. intros e' He'. apply Hmin in He'.
        apply event_le_spec in He'. lia. }
      destruct o as [e0|]; [|by eapply best_take; [done|lia|done|done|]].
      destruct (event_ltb e e0) eqn:Hlt; [|by eapply best_keep].
      eapply best_take; [done|lia|done|done|]. by intros ? [= <-].
Qed.

Lemma DoRemoveNext_loop_ok fuel k o minKey minBucket :
  0 ≤ k → Z.of_nat fuel = m_nBuckets s - k → 0 < m_nBuckets s - k →
  missed s k → best s k o → acc_remove s o minKey minBucket →
  ∃ res, DoRemoveNext_loop fuel (idx s k) (top s k) minKey minBucket s = Ok res ∧ scan_ok s res.
Proof using Hbk Hc Hb Hne.
  revert k o minKey minBucket.
  induction fuel as [|fuel IH]; intros k o mk mb Hk Hf Hpos Hm Hbest Hacc; [lia|].
  cbn [DoRemoveNext_loop]. rewrite bucket_at_idx by done. res_simpl.
  assert (∀ o' mk' mb', missed s (k + 1) → best s (k + 1) o' → acc_remove s o' mk' mb' →
    ∃ res, (if u32 (idx s k + 1) mod m_nBuckets s =? m_lastBucket s
            then Ok (Exhausted mk' mb')
            else DoRemoveNext_loop fuel (u32 (idx s k + 1) mod m_nBuckets s)
                   (u64 (top s k + m_width s)) mk' mb' s) = Ok res ∧ scan_ok s res) as Hcont.
  { intros o' mk' mb' Hm' Hbest' Hacc'. rewrite idx_step, top_step by done.
    rewrite (proj1 (cursor_start s Hc)). destruct (Z.eqb_spec (idx s (k + 1)) (idx s 0)) as [He|He].
    - apply idx_end in He; [|done|lia]. eexists. split; [done|]. rewrite He in Hbest'.
      destruct (best_least s o' Hbk Hc Hb Hne Hbest') as (e & j & -> & Hj & Hn & Hl).
      destruct Hacc' as (-> & k' & Hk' & -> & Hn'). by exists k', e.
    - rewrite idx_end in He by (done || lia). apply IH with o'; (done || lia). }
  pose proof (scan_step k o ltac:(lia) Hm Hbest) as Hstep.
  destruct (bucketq s (q0 s + k)) as [|x b] eqn:Hq; [by destruct Hstep; apply (Hcont o)|].
  rewrite <- Hq in *. destruct Hstep as (e & He & Hhit & Hmiss). rewrite He. res_simpl.
  destruct (Z.ltb_spec (ts e) (top s k)) as [Ht|Ht].
  { eexists. split; [done|]. destruct (Hhit Ht). exists k. conj; (done || lia). }
  destruct (Hmiss Ht) as [Hm' Hb']. destruct o as [e0|]; cbn in Hacc.
  - destruct Hacc as [-> Hacc]. unfold event_ltb in Hb'.
    destruct (key_ltb (key e) (key e0)).
    + apply (Hcont (Some e)); [done..|]. split; [done|]. exists k. conj; [lia|lia| |done].
      pose proof (mod_n s (q0 s + k) Hbk). destruct (bk_n _ Hbk). unfold idx, sint.
      rewrite wrap_id by (unfold fits; lia). rewrite (proj2 (Z.ltb_lt _ _)) by lia. done.
    + apply (Hcont (Some e0)); [done..|]. by split.
  - destruct Hacc as [-> ->]. rewrite (event_below_sentinel e _ _ _ He).
    apply (Hcont (Some e)); [done..|]. split; [done|]. exists k. conj; [lia|lia| |done].
    pose proof (mod_n s (q0 s + k) Hbk). destruct (bk_n _ Hbk). unfold idx, sint.
    rewrite wrap_id by (unfold fits; lia). rewrite (proj2 (Z.ltb_lt _ _)) by lia. done.
Qed.

Lemma PeekNext_loop_ok fuel k o minEvent :
  0 ≤ k → Z.of_nat fuel = m_nBuckets s - k → 0 < m_nBuckets s - k →
  missed s k → best s k o → acc_peek o minEvent →
  ∃ e, PeekNext_loop fuel (idx s k) (top s k) minEvent s = Ok e ∧ e ∈ events s ∧ least s e.
Proof using Hbk Hc Hb Hne.
  revert k o minEvent.
  induction fuel as [|fuel IH]; intros k o me Hk Hf Hpos Hm Hbest Hacc; [lia|].
  cbn [PeekNext_loop]. rewrite bucket_at_idx by done. res_simpl.
  assert (∀ o' me', missed s (k + 1) → best s (k + 1) o' → acc_peek o' me' →
    ∃ e, (if u32 (idx s k + 1) mod m_nBuckets s =? m_lastBucket s then Ok me'
          else PeekNext_loop fuel (u32 (idx s k + 1) mod m_nBuckets s)
                 (u64 (top s k + m_width s)) me' s) = Ok e ∧ e ∈ events s ∧ least s e) as Hcont.
  { intros o' me' Hm' Hbest' ->. rewrite idx_step, top_step by done.
    rewrite (proj1 (cursor_start s Hc)). destruct (Z.eqb_spec (idx s (k + 1)) (idx s 0)) as [He|He].
    - apply idx_end in He; [|done|lia]. rewrite He in Hbest'.
      destruct (best_least s o' Hbk Hc Hb Hne Hbest') as (e & j & -> & Hj & Hn & Hl).
      exists e. conj; [done| |done]. eapply bucketq_elem. by apply NextEvent_elem in Hn as [? _].
    - rewrite idx_end in He by (done || lia). apply IH with o'; (done || lia). }
  pose proof (scan_step k o ltac:(lia) Hm Hbest) as Hstep.
  destruct (bucketq s (q0 s + k)) as [|x b] eqn:Hq; [by destruct Hstep; apply (Hcont o)|].
  rewrite <- Hq in *. destruct Hstep as (e & He & Hhit & Hmiss). rewrite He. res_simpl.
  destruct (Z.ltb_spec (ts e) (top s k)) as [Ht|Ht].
  { exists e. destruct (Hhit Ht). conj; [done| |done]. eapply bucketq_elem.
    by apply NextEvent_elem in He as [? _]. }
  destruct (Hmiss Ht) as [Hm' Hb']. unfold acc_peek in Hacc.
  destruct o as [e0|]; subst me.
  - unfold event_ltb in Hb'. destruct (key_ltb (key e) (key e0)).
    + by apply (Hcont (Some e)).
    + by apply (Hcont (Some e0)).
  - cbn [key]. rewrite (event_below_sentinel e _ _ _ He). by apply (Hcont (Some e)).
Qed.

Lemma scan_start : missed s 0 ∧ best s 0 None.
Proof using. clear. split; [intros j e Hj; lia|intros j Hj; lia]. Qed.
End scan.

(** ** The operations *)

(** Everything a scan needs, without the event count. *)
Definition core s : Prop := bk s ∧ cursor s ∧ bounded s.

Lemma IsEmpty_false s : m_qSize s ≠ 0 → IsEmpty s = false.
Proof. apply Z.eqb_neq. Qed.

Lemma PeekNext_ok s :
  core s → events s ≠ [] → m_qSize s ≠ 0 →
  ∃ e, PeekNext s = Ok e ∧ e ∈ events s ∧ least s e.
Proof.
  intros (Hbk & Hc & Hb) Hne Hq. unfold PeekNext. rewrite IsEmpty_false by done. res_simpl.
  destruct (bk_n _ Hbk). destruct (cursor_start s Hc) as [-> ->].
  destruct (scan_start s) as [Hm Hbest].
  apply (PeekNext_loop_ok s Hbk Hc Hb Hne _ 0 None); (done || lia).
Qed.

(** A cursor moved to the timestamp of the event it just returned. *)
Lemma cursor_moved s s' q e i bucketTop :
  bk s → 0 ≤ ts e < 2 ^ 64 → ts e / m_width s = q → i = q mod m_nBuckets s →
  bucketTop = u64 ((q + 1) * m_width s) →
  m_nBuckets s' = m_nBuckets s → m_width s' = m_width s →
  m_lastBucket s' = i → m_lastPrio s' = ts e → m_bucketTop s' = bucketTop → cursor s'.
Proof.
  intros Hbk Ht Hq -> -> Hn Hw Hlb Hlp Hbt. unfold cursor.
  rewrite Hn, Hw, Hlb, Hlp, Hbt, Hq. done.
Qed.

Lemma take_event_ok s found :
  core s → scan_ok s found →
  ∃ e s', take_event s found = Ok (e, s') ∧ core s' ∧ events s ≡ₚ e :: events s' ∧
    least s e ∧ m_lastPrio s' = ts e ∧ same_size s' s.
Proof.
  intros (Hbk & Hc & Hb) Hok.
  assert (∃ q e i bucketTop, NextEvent (r:=r) (bucketq s q) = Ok e ∧ least s e ∧
    i = (ts e / m_width s) mod m_nBuckets s ∧
    bucketTop = u64 ((ts e / m_width s + 1) * m_width s) ∧
    take_event s found = Ok (e, set_bucket (q mod m_nBuckets s) (Pop (r:=r) (bucketq s q))
                                  (set_cursor i (ts e) bucketTop s)))
    as (q & e & i & bucketTop & He & Hl & Hi & Hbt & Hr).
  { destruct found as [i bt e|mk' mb].
    - destruct Hok as (k & Hk & -> & -> & He & Hl & Hv).
      exists (q0 s + k), e, (idx s k), (top s k). rewrite Hv. conj; try done.
      pose proof (bucket_at_idx s k Hbk) as Hbi. unfold take_event, bucket_at in Hbi |- *.
      cbn [m_buckets set_cursor]. by rewrite Hbi.
    - destruct Hok as (k & e & Hk & -> & -> & He & Hl).
      exists (q0 s + k), e, (Hash (ts e) s), (u64 ((ts e / m_width s + 1) * m_width s)).
      rewrite Hash_eq by done. conj; try done.
      pose proof (bucket_at_idx s k Hbk) as Hbi. unfold take_event, bucket_at in Hbi |- *.
      cbn [m_buckets set_cursor]. rewrite Hbi. res_simpl. rewrite He. res_simpl.
      by rewrite Hash_eq. }
  rewrite Hr. destruct (Pop_ok s q e Hbk He) as [Hbk' Hp].
  assert (0 ≤ ts e < UINT64_MAX) as Ht.
  { apply (queue_ok_ts e (events s)); [apply (bk_ok _ Hbk)|]. rewrite Hp. by left. }
  set (s' := set_bucket _ _ _). exists e, s'.
  conj; [done| |done|done|done|done]. unfold core. conj.
  - destruct Hbk'. by constructor.
  - apply (cursor_moved s s' (ts e / m_width s) e i bucketTop); (done || zlia).
  - intros e' He'. change (m_lastPrio s') with (ts e).
    assert (e' ∈ events s) as Hin by (rewrite Hp; by right).
    apply Hl in Hin. apply event_le_spec in Hin. lia.
Qed.

Lemma DoRemoveNext_ok s :
  core s → events s ≠ [] → m_qSize s ≠ 0 →
  ∃ e s', DoRemoveNext s = Ok (e, s') ∧ core s' ∧ events s ≡ₚ e :: events s' ∧
    least s e ∧ m_lastPrio s' = ts e ∧ same_size s' s.
Proof.
  intros (Hbk & Hc & Hb) Hne Hq. unfold DoRemoveNext. rewrite IsEmpty_false by done. res_simpl.
  destruct (bk_n _ Hbk). destruct (scan_start s) as [Hm Hbest].
  destruct (DoRemoveNext_loop_ok s Hbk Hc Hb Hne (Z.to_nat (m_nBuckets s)) 0 None
    (mkKey UINT64_MAX 0 UINT32_MAX) (-1)) as (res & Hres & Hok); [done || lia..|].
  destruct (cursor_start s Hc) as [<- <-] in Hres. rewrite Hres. res_simpl.
  by apply take_event_ok.
Qed.

(** ** Resizing *)

Lemma core_transport s s' :
  core s → bk s' → events s' ≡ₚ events s → same_cursor s' s → same_size s' s → core s'.
Proof.
  intros (Hbk & Hc & Hb) Hbk' Hp (Hc1 & Hc2 & Hc3) (Hz1 & Hz2 & _). unfold core. conj; [done| |].
  - unfold cursor in *. by rewrite Hc1, Hc2, Hc3, Hz1, Hz2.
  - intros e. rewrite Hp, Hc3. apply Hb.
Qed.

Lemma gather_ok n s :
  (n ≤ length (events s))%nat → core s → m_qSize s ≠ 0 →
  ∃ l s', gather n s = Ok (l, s') ∧ core s' ∧ events s ≡ₚ l ++ events s' ∧
    length l = n ∧ same_size s' s.
Proof.
  revert s. induction n as [|n IH]; intros s Hn Hc Hq.
  { by exists [], s. }
  destruct (DoRemoveNext_ok s Hc) as (e & s1 & He & Hc1 & Hp1 & _ & _ & Hz1);
    [by intros Hnil; rewrite Hnil in Hn; cbn in Hn; lia|done|].
  apply Permutation_length in Hp1 as Hl1. cbn [length] in Hl1. destruct Hz1 as (Hz1a & Hz1b & Hz1c).
  destruct (IH s1) as (l & s2 & Hg & Hc2 & Hp2 & Hl2 & Hz2a & Hz2b & Hz2c); [lia|done|congruence|].
  exists (e :: l), s2. cbn. rewrite He. res_simpl. rewrite Hg. res_simpl.
  conj; [done|done| |by rewrite Hl2|]. { by rewrite Hp1, Hp2. }
  unfold same_size. conj; congruence.
Qed.

Lemma put_back_ok l s :
  bk s → queue_ok (l ++ events s) →
  ∃ s', put_back l s = Ok s' ∧ bk s' ∧ events s' ≡ₚ l ++ events s ∧
    same_cursor s' s ∧ same_size s' s.
Proof.
  revert s. induction l as [|e l IH]; intros s Hbk Hq; [by exists s|].
  cbn [app] in Hq. pose proof Hq as (Hok & Hu & Hq')%queue_ok_cons.
  destruct (DoInsert_ok s e Hbk Hok) as (s1 & Hs1 & Hbk1 & Hp1 & Hc1 & Hz1).
  { intros Hin. apply Hu. unfold uids in *. rewrite fmap_app. apply elem_of_app. by right. }
  assert (e :: l ++ events s ≡ₚ l ++ events s1) as Hperm
    by (rewrite Hp1; apply Permutation_middle).
  destruct (IH s1 Hbk1) as (s2 & Hs2 & Hbk2 & Hp2 & Hc2 & Hz2); [by rewrite <- Hperm|].
  exists s2. cbn. rewrite Hs1. res_simpl.
  conj; [done|done|by rewrite Hp2, <- Hperm| |].
  - destruct Hc1 as (?&?&?), Hc2 as (?&?&?). unfold same_cursor. conj; congruence.
  - destruct Hz1 as (?&?&?), Hz2 as (?&?&?). unfold same_size. conj; congruence.
Qed.

Lemma width_of_samples_ok n samples :
  samples ≠ [] → ∃ w, width_of_samples n samples = Ok w ∧ 1 ≤ w < 2 ^ 64.
Proof.
  destruct samples as [|cur next]; [done|]. intros _. eexists. split; [done|].
  match goal with |- context [wrap 64 ?x] => pose proof (wrap_fits 64 ltac:(lia) x) as Hf end.
  unfold fits in Hf. lia.
Qed.

Definition counted s : Prop := m_qSize s = Z.of_nat (length (events s)) ∧ m_qSize s < 2 ^ 32.

Lemma CalculateNewWidth_ok s :
  core s → counted s →
  ∃ w s', CalculateNewWidth s = Ok (w, s') ∧ 1 ≤ w < 2 ^ 64 ∧ core s' ∧
    events s' ≡ₚ events s ∧ same_cursor s' s ∧ same_size s' s.
Proof.
  intros Hc [Hq Hq32]. unfold CalculateNewWidth.
  destruct (Z.ltb_spec (m_qSize s) 2) as [Hlt|Hge]; [by exists 1, s|].
  set (n0 := if m_qSize s <=? 5 then _ else _). set (n := if n0 >? 25 then 25 else n0).
  assert (1 ≤ n ≤ m_qSize s) as Hn.
  { assert (1 ≤ n0 ≤ m_qSize s) as Hn0.
    { unfold n0. destruct (Z.leb_spec (m_qSize s) 5); [lia|].
      pose proof (Z.div_lt_upper_bound (m_qSize s) 10 (m_qSize s - 4)).
      pose proof (Z.div_pos (m_qSize s) 10). rewrite wrap_id; unfold fits; lia. }
    unfold n. destruct (Z.gtb_spec n0 25); lia. }
  destruct (gather_ok (Z.to_nat n) s) as (l & s1 & Hg & Hc1 & Hp1 & Hl & Hz1); [lia|done|lia|].
  rewrite Hg. res_simpl.
  destruct (put_back_ok l s1) as (s2 & Hs2 & Hbk2 & Hp2 & Hc2 & Hz2); [apply Hc1| |].
  { rewrite <- Hp1. apply (bk_ok _ (proj1 Hc)). }
  rewrite Hs2. res_simpl.
  destruct (width_of_samples_ok n l) as (w & Hw & Hwb); [by intros ->; cbn in Hl; lia|].
  rewrite Hw. res_simpl. set (s3 := set_cursor _ _ _ s2). exists w, s3.
  assert (events s3 ≡ₚ events s) as Hp3
    by (change (events s3) with (events s2); by rewrite Hp2, <- Hp1).
  assert (same_size s3 s) as Hz3.
  { destruct Hz1 as (?&?&?), Hz2 as (?&?&?). unfold same_size, s3. cbn. conj; congruence. }
  conj; [done|lia|lia| |done|done|done].
  apply (core_transport s); [done| |done|done|done]. by destruct Hbk2; constructor.
Qed.

Lemma Init_ok s nBuckets width :
  1 ≤ nBuckets < 65536 → 1 ≤ width < 2 ^ 64 → 0 ≤ m_lastPrio s < 2 ^ 64 →
  let s' := Init nBuckets width (m_lastPrio s) s in
  bk s' ∧ cursor s' ∧ events s' = [].
Proof.
  intros Hn Hw Hp s'.
  assert (events s' = []) as Hev.
  { unfold events, s'. cbn. by induction (Z.to_nat nBuckets). }
  assert (∀ i, m_buckets s' !!! i = []) as Hnil.
  { intros i. unfold s'. cbn. rewrite list_lookup_total_alt.
    destruct (replicate _ _ !! i) as [b|] eqn:Hb; [|done].
    apply lookup_replicate in Hb as [-> _]. done. }
  assert (bk s') as Hbk.
  { constructor; [..|rewrite Hev; apply queue_ok_nil].
    - unfold s'. cbn. rewrite length_replicate. lia.
    - done.
    - done.
    - intros i. rewrite Hnil. constructor.
    - intros i e. rewrite Hnil. intros H. by apply elem_of_nil in H. }
  conj; [done| |done]. unfold cursor. conj; [apply Hp|apply Hp| |done].
  apply (Hash_eq s' (m_lastPrio s) Hbk).
Qed.

Lemma Resize_ok newSize s :
  core s → counted s → 1 ≤ newSize < 65536 →
  ∃ s', Resize newSize s = Ok s' ∧ core s' ∧ events s' ≡ₚ events s ∧
    m_lastPrio s' = m_lastPrio s ∧ m_qSize s' = m_qSize s.
Proof.
  intros Hc Hcnt Hn. unfold Resize.
  destruct (CalculateNewWidth_ok s Hc Hcnt) as (w & s1 & -> & Hw & Hc1 & Hp1 & Hcur1 & Hz1).
  res_simpl. unfold DoResize.
  destruct (Init_ok s1 newSize w Hn Hw) as (Hbk2 & Hcur2 & Hev2); [apply Hc1|].
  set (s2 := Init _ _ _ _) in *.
  destruct (put_back_ok (concat (m_buckets s1)) s2) as (s3 & -> & Hbk3 & Hp3 & Hcur3 & Hz3).
  { done. } { rewrite Hev2, app_nil_r. apply (bk_ok _ (proj1 Hc1)). }
  rewrite Hev2, app_nil_r in Hp3. exists s3.
  assert (core s2) as Hc2.
  { unfold core. conj; [done|done|]. intros e. rewrite Hev2. intros H. by apply elem_of_nil in H. }
  destruct Hcur1 as (_ & _ & Hlp1), Hcur3 as (Hlb3 & Hbt3 & Hlp3), Hz1 as (_ & _ & Hq1),
    Hz3 as (Hn3 & Hw3 & Hq3).
  assert (m_lastPrio s3 = m_lastPrio s) as Hlp by (rewrite Hlp3; exact Hlp1).
  conj; [done| |by rewrite Hp3, <- Hp1|done|rewrite Hq3; exact Hq1].
  unfold core. conj; [done| |].
  - unfold cursor in *. by rewrite Hlb3, Hbt3, Hlp3, Hn3, Hw3.
  - intros e He. rewrite Hlp. apply (proj2 (proj2 Hc)). rewrite <- Hp1. by rewrite Hp3 in He.
Qed.

Lemma ResizeUp_ok s :
  core s → counted s →
  ∃ s', ResizeUp s = Ok s' ∧ core s' ∧ events s' ≡ₚ events s ∧
    m_lastPrio s' = m_lastPrio s ∧ m_qSize s' = m_qSize s.
Proof.
  intros Hc Hcnt. unfold ResizeUp. destruct (_ && _) eqn:Hb; [|by exists s].
  apply andb_true_iff in Hb as [_ Hb%Z.ltb_lt]. destruct (bk_n _ (proj1 Hc)).
  apply Resize_ok; [done..|]. rewrite wrap_id by (unfold fits; lia). lia.
Qed.

Lemma ResizeDown_ok s :
  core s → counted s →
  ∃ s', ResizeDown s = Ok s' ∧ core s' ∧ events s' ≡ₚ events s ∧
    m_lastPrio s' = m_lastPrio s ∧ m_qSize s' = m_qSize s.
Proof.
  intros Hc Hcnt. unfold ResizeDown.
  destruct (Z.ltb_spec (m_qSize s) (m_nBuckets s / 2)) as [Hb|Hb]; [|by exists s].
  destruct (bk_n _ (proj1 Hc)), Hcnt as [Hq Hq32] eqn:?.
  pose proof (Z.div_le_upper_bound (m_nBuckets s) 2 (m_nBuckets s)).
  apply Resize_ok; [done..|]. lia.
Qed.

(** The invariant does not look at the count, so a recounted state has it. *)
Lemma core_set_qSize n s : core s → core (set_qSize n s).
Proof.
  intros (Hbk & Hc & Hb). unfold core. conj; [|done|done]. by destruct Hbk; constructor.
Qed.

Lemma inv_core s : inv s ↔ core s ∧ counted s.
Proof. unfold inv, core, counted. tauto. Qed.

(** A resized state of the right count satisfies the invariant. *)
Lemma inv_resized s s' :
  core s' → events s' ≡ₚ events s → m_qSize s' = m_qSize s → counted s → inv s'.
Proof.
  intros Hc Hp Hq [Hl H32]. apply inv_core. split; [done|]. unfold counted.
  apply Permutation_length in Hp. rewrite Hq, Hp. done.
Qed.

Lemma counted_nonempty s : counted s → events s ≠ [] → m_qSize s ≠ 0.
Proof. intros [-> _] Hne. destruct (events s); cbn; lia || done. Qed.

Lemma counted_shrink s s1 e :
  counted s → events s ≡ₚ e :: events s1 → m_qSize s1 = m_qSize s →
  counted (set_qSize (u32 (m_qSize s1 - 1)) s1).
Proof.
  intros [Hl H32] Hp Hq. apply Permutation_length in Hp. cbn [length] in Hp.
  unfold counted. cbn [m_qSize set_qSize]. change (events (set_qSize _ s1)) with (events s1).
  rewrite wrap_id by (unfold fits; lia). lia.
Qed.

#[local] Instance spec_of : SchedulerSpec (t r).
Proof.
  refine {| sched_inv := inv; sched_events := events; sched_low := m_lastPrio |}.
  - intros s (Hbk & _). apply (bk_ok _ Hbk).
  - pose proof (Init_ok (mk (m_reverse:=r) [] 0 0 0 0 0 0) 2 1) as (Hbk & Hc & He); [cbn; lia..|].
    conj; [|done|done]. apply inv_core. split.
    + apply core_set_qSize. unfold core. conj; [done|done|]. intros e H. by apply elem_of_nil in H.
    + done.
  - intros s ev Hinv Hok Hlow Hu Hlen. pose proof Hinv as [Hc [Hq H32]]%inv_core.
    destruct (DoInsert_ok s ev (proj1 Hc) Hok Hu) as (s1 & Hs1 & Hbk1 & Hp1 & Hcur1 & Hz1).
    cbn. unfold Insert. rewrite Hs1. res_simpl. set (s2 := set_qSize _ s1).
    assert (counted s2) as Hcnt.
    { apply Permutation_length in Hp1. cbn [length] in Hp1. destruct Hz1 as (_ & _ & Hz1).
      unfold counted, s2. cbn [m_qSize set_qSize]. change (events (set_qSize _ s1)) with (events s1).
      rewrite wrap_id by zlia. zlia. }
    destruct (ResizeUp_ok s2) as (s3 & -> & Hc3 & Hp3 & Hlp3 & Hq3); [|done|].
    { apply core_set_qSize. destruct Hcur1 as (H1 & H2 & H3), Hz1 as (H4 & H5 & H6).
      unfold core. conj; [done| |].
      - destruct Hc as (_ & Hcur & _). unfold cursor in *. by rewrite H1, H2, H3, H4, H5.
      - intros e. rewrite Hp1, H3. intros [->|He]%elem_of_cons; [done|by apply Hc]. }
    exists s3. conj; [done|by apply (inv_resized s2)|by rewrite Hp3|].
    rewrite Hlp3. destruct Hcur1 as (_ & _ & H3). cbn. rewrite H3. lia.
  - intros s [_ [Hq _]]%inv_core. cbn. unfold IsEmpty. rewrite Z.eqb_eq, Hq.
    destruct (events s); cbn; split; (done || lia).
  - intros s [Hc Hcnt]%inv_core Hne.
    destruct (PeekNext_ok s Hc Hne) as (e & He & Hin & Hl); [by apply counted_nonempty|].
    exists e. split; [done|]. apply is_next_least; [|done|done].
    apply (bk_ok _ (proj1 Hc)).
  - intros s [Hc Hcnt]%inv_core Hne.
    pose proof (counted_nonempty s Hcnt Hne) as Hq0.
    destruct (DoRemoveNext_ok s Hc Hne Hq0) as (e & s1 & He & Hc1 & Hp1 & Hl & Hlp & Hz1).
    assert (e ∈ events s) as Hin by (rewrite Hp1; by left).
    destruct (ResizeDown_ok (set_qSize (u32 (m_qSize s1 - 1)) s1))
      as (s2 & Hs2 & Hc2 & Hp2 & Hlp2 & Hq2).
    { by apply core_set_qSize. } { by eapply counted_shrink; [|done|apply Hz1]. }
    exists e, s2. cbn. unfold RemoveNext. rewrite IsEmpty_false by done. res_simpl.
    rewrite He. res_simpl. rewrite Hs2. res_simpl. conj; [done| | | |].
    + apply is_next_least; [apply (bk_ok _ (proj1 Hc))|done|done].
    + eapply inv_resized; [done|done|done|]. by eapply counted_shrink; [|done|apply Hz1].
    + by rewrite Hp2.
    + rewrite Hlp2. cbn. lia.
Defined.

#[local] Instance remove_spec_of : SchedulerRemoveSpec (t r).
Proof.
  constructor. intros s ev [Hc Hcnt]%inv_core Hev. pose proof Hc as (Hbk & Hcur & Hb).
  assert (events s ≠ []) as Hne by (intros H; cbn in Hev; rewrite H in Hev; by apply elem_of_nil in Hev).
  set (q := ts ev / m_width s). pose proof (bucketq_sorted s q Hbk) as Hs.
  assert (ev ∈ bucketq s q) as Hin by by apply cal_elem_of_events.
  destruct (erase_first_is_Some (λ i, uid i =? uid ev) (bucketq s q) ev) as [[x b'] He];
    [done|by apply Z.eqb_refl|].
  pose proof (erase_first_perm _ _ _ _ He) as Hpb.
  pose proof (erase_first_sorted ord _ _ _ _ He Hs) as Hsb.
  assert (x = ev) as ->.
  { apply erase_first_Some in He as (l1 & l2 & _ & _ & Hx%Z.eqb_eq & _).
    apply (uids_inj (events s)); [apply (bk_ok _ Hbk)| |by eapply bucketq_elem|done].
    eapply bucketq_elem. rewrite Hpb. by left. }
  pose proof (mod_n s q Hbk) as Hq. pose proof (bk_len _ Hbk) as Hlen.
  set (s1 := set_bucket (q mod m_nBuckets s) b' s).
  assert (events s ≡ₚ ev :: events s1) as Hp1 by (apply concat_delete; [lia|done]).
  assert (bk s1) as Hbk1.
  { apply bk_set_bucket; [done|done|done| |].
    - intros e' He'. symmetry. apply bucketq_hash; [done|]. rewrite Hpb. by right.
    - eapply queue_ok_erase; [exact (bk_ok _ Hbk)|done]. }
  assert (counted (set_qSize (u32 (m_qSize s1 - 1)) s1)) as Hcnt1
    by by eapply counted_shrink.
  destruct (ResizeDown_ok (set_qSize (u32 (m_qSize s1 - 1)) s1))
    as (s2 & Hs2 & Hc2 & Hp2 & Hlp2 & Hq2); [|done|].
  { apply core_set_qSize. unfold core. conj; [done|done|]. intros e' He'. apply Hb.
    rewrite Hp1. by right. }
  exists s2. cbn. unfold Remove. rewrite IsEmpty_false by by apply counted_nonempty. res_simpl.
  rewrite Hash_eq by done. fold q. rewrite bucket_at_mod by done. res_simpl.
  rewrite He, Z.eqb_refl. res_simpl. conj; [exact Hs2|by eapply inv_resized| |].
  - by rewrite Hp2.
  - rewrite Hlp2. done.
Qed.
End proofs.

#[global] Existing Instance spec_of.
#[global] Existing Instance remove_spec_of.
