(* ===== verification/SchedulerTrace.v ===== *)
(** * Every event queue behaves like the sorted list

    Runs of scheduler operations, and the theorems that the map, the binary heap,
    the priority queue and the calendar answer every admissible run exactly as
    [ListScheduler] does.  Admissible means what [DefaultSimulatorImpl] guarantees:
    fresh unique ids, no event due before the last one removed, no look at an
    empty queue, removal of events that are in the queue. *)

From S2P Require Import Prelude Scheduler.
From S2P Require ListScheduler MapScheduler PriorityQueueScheduler HeapScheduler.
From S2P Require CalendarScheduler.
Local Open Scope Z_scope.

Inductive op :=
  | OpInsert (ev : Event)
  | OpIsEmpty
  | OpPeekNext
  | OpRemoveNext
  | OpRemove (ev : Event).

Inductive answer :=
  | ANone
  | ABool (b : bool)
  | AEvent (ev : Event).

Definition step {S} `{Scheduler S} (o : op) (s : S) : res (answer * S) :=
  match o with
  | OpInsert ev => s ← sched_Insert ev s; Ok (ANone, s)
  | OpIsEmpty => Ok (ABool (sched_IsEmpty s), s)
  | OpPeekNext => ev ← sched_PeekNext s; Ok (AEvent ev, s)
  | OpRemoveNext => '(ev, s) ← sched_RemoveNext s; Ok (AEvent ev, s)
  | OpRemove ev => s ← sched_Remove ev s; Ok (ANone, s)
  end.

Fixpoint run {S} `{Scheduler S} (ops : list op) (s : S) : res (list answer * S) :=
  match ops with
  | [] => Ok ([], s)
  | o :: ops =>
      '(a, s) ← step o s;
      '(out, s) ← run ops s;
      Ok (a :: out, s)
  end.

(** The operation may be called when the queue holds [l] and the last event removed
    was due at [last]; [rm] says whether [Remove] is used at all. *)
Definition allowed (rm : bool) (last : Z) (l : list Event) (o : op) : bool :=
  match o with
  | OpInsert ev =>
      bool_decide (event_ok ev) && (last <=? ts ev) && bool_decide (uid ev ∉ uids l) &&
      (Z.of_nat (length l) <? UINT32_MAX)
  | OpIsEmpty => true
  | OpPeekNext | OpRemoveNext => negb (bool_decide (l = []))
  | OpRemove ev => rm && bool_decide (ev ∈ l)
  end.

Definition last_of (last : Z) (a : answer) (o : op) : Z :=
  match o, a with OpRemoveNext, AEvent ev => ts ev | _, _ => last end.

(** A run is admissible when every operation is allowed in the state the sorted list
    has reached. *)
Fixpoint admissible (rm : bool) (last : Z) (s : ListScheduler.t) (ops : list op) : bool :=
  match ops with
  | [] => true
  | o :: ops =>
      allowed rm last (ListScheduler.m_events s) o &&
      match step o s with
      | Ok (a, s) => admissible rm (last_of last a o) s ops
      | Err _ => false
      end
  end.

#[export] Instance event_ok_dec e : Decision (event_ok e).
Proof. unfold event_ok, key_fits. apply _. Defined.

Section refinement.
Context {S : Type} `{!Scheduler S} `{!SchedulerSpec S}.
Context (rm : bool) (Hrm : rm = true → SchedulerRemoveSpec S).

(** The queue holds the events of the list, and accepts what [last] allows. *)
Definition rel (last : Z) (s : S) (l : ListScheduler.t) : Prop :=
  sched_inv s ∧ sched_inv l ∧ sched_events s ≡ₚ ListScheduler.m_events l ∧
  sched_low s ≤ last ∧ 0 ≤ last.

Lemma rel_new : rel 0 sched_new ListScheduler.new.
Proof using.
  destruct (spec_new (S:=S)) as (Hinv & Hev & Hlow).
  destruct (spec_new (S:=ListScheduler.t)) as (Hinv' & _ & _).
  unfold rel. conj; [done|done|by rewrite Hev|done|done].
Qed.

Lemma events_nil s l : sched_events s ≡ₚ ListScheduler.m_events l →
  sched_events s = [] ↔ ListScheduler.m_events l = [].
Proof using.
  intros Hp. split; intros H; rewrite H in Hp.
  - by apply Permutation_nil in Hp.
  - by apply Permutation_nil, symmetry.
Qed.

(** One allowed operation: same answer, related states. *)
Lemma step_refines last s l o :
  rel last s l → allowed rm last (ListScheduler.m_events l) o = true →
  ∃ a s' l', step o s = Ok (a, s') ∧ step o l = Ok (a, l') ∧ rel (last_of last a o) s' l'.
Proof using Hrm.
  intros (Hs & Hl & Hp & Hlow & H0) Hall.
  pose proof (Permutation_length Hp) as Hlen. pose proof (events_nil s l Hp) as Hnil.
  destruct o as [ev| | | |ev]; cbn [allowed] in Hall.
  - apply andb_true_iff in Hall as [Hall Hcap%Z.ltb_lt].
    apply andb_true_iff in Hall as [Hall Hu%bool_decide_eq_true].
    apply andb_true_iff in Hall as [Hok%bool_decide_eq_true Hts%Z.leb_le].
    destruct (spec_insert s ev Hs Hok) as (s' & Hi & Hs' & Hp' & Hlow'); [lia| |by rewrite Hlen|].
    { by rewrite Hp. }
    destruct (spec_insert l ev Hl Hok) as (l' & Hi' & Hl' & Hpl' & _); [cbn; lia|done|done|].
    exists ANone, s', l'. cbn. rewrite Hi. conj; [done| |].
    { cbn in Hi'. by injection Hi' as ->. }
    unfold rel. cbn [last_of]. conj; [done|done| |lia|done]. cbn in Hpl'. by rewrite Hp', Hpl', Hp.
  - exists (ABool (sched_IsEmpty s)), s, l. conj; [done| |done]. cbn. do 3 f_equal.
    apply eq_true_iff_eq. rewrite (spec_is_empty l Hl), (spec_is_empty s Hs). symmetry. exact Hnil.
  - rewrite negb_true_iff, bool_decide_eq_false in Hall.
    destruct (spec_peek_next s Hs) as (ev & He & Hn); [by rewrite Hnil|].
    destruct (spec_peek_next l Hl Hall) as (ev' & He' & Hn').
    rewrite Hp in Hn. pose proof (is_next_unique _ _ _ Hn Hn') as <-.
    exists (AEvent ev), s, l. cbn in He' |- *. rewrite He, He'. done.
  - rewrite negb_true_iff, bool_decide_eq_false in Hall.
    destruct (spec_remove_next s Hs) as (ev & s' & He & Hn & Hs' & Hp' & Hlow'); [by rewrite Hnil|].
    destruct (spec_remove_next l Hl Hall) as (ev' & l' & He' & Hn' & Hl' & Hpl' & Hlow'').
    rewrite Hp in Hn. pose proof (is_next_unique _ _ _ Hn Hn') as <-.
    exists (AEvent ev), s', l'. cbn in He' |- *. rewrite He, He'. conj; [done|done|].
    unfold rel. cbn [last_of]. conj; [done|done| |done|cbn in Hlow''; lia].
    apply (Permutation_cons_inv (a := ev)). cbn in Hpl'. by rewrite <- Hp', Hp, Hpl'.
  - apply andb_true_iff in Hall as [Hrmt Hin%bool_decide_eq_true].
    pose proof (Hrm Hrmt) as HR.
    destruct (spec_remove s ev Hs) as (s' & He & Hs' & Hp' & Hlow'); [by rewrite Hp|].
    destruct (spec_remove l ev Hl Hin) as (l' & He' & Hl' & Hpl' & _).
    exists ANone, s', l'. cbn in He' |- *. rewrite He, He'. conj; [done|done|].
    unfold rel. cbn [last_of]. conj; [done|done| |lia|done].
    apply (Permutation_cons_inv (a := ev)). cbn in Hpl'. by rewrite <- Hp', Hp, Hpl'.
Qed.

Lemma run_refines last s l ops :
  rel last s l → admissible rm last l ops = true →
  ∃ out s' l', run ops s = Ok (out, s') ∧ run ops l = Ok (out, l').
Proof using Hrm.
  revert last s l. induction ops as [|o ops IH]; intros last s l Hrel Hadm.
  { by exists [], s, l. }
  cbn [admissible] in Hadm. apply andb_true_iff in Hadm as [Hall Hadm].
  destruct (step_refines last s l o Hrel Hall) as (a & s' & l' & Hs & Hl & Hrel').
  rewrite Hl in Hadm. destruct (IH _ s' l' Hrel' Hadm) as (out & s'' & l'' & Hs' & Hl').
  exists (a :: out), s'', l''. cbn [run]. rewrite Hs, Hl. res_simpl. rewrite Hs', Hl'. done.
Qed.

Lemma new_refines ops :
  admissible rm 0 ListScheduler.new ops = true →
  ∃ out s' l', run ops (sched_new : S) = Ok (out, s') ∧ run ops ListScheduler.new = Ok (out, l').
Proof using Hrm. apply run_refines, rel_new. Qed.
End refinement.

(** C28 Every admissible run of operations on a [MapScheduler] returns normally and
    gives the same answers, event by event, as on a [ListScheduler]. *)
Theorem map_refines_list ops :
  admissible true 0 ListScheduler.new ops = true →
  ∃ out s l, run ops MapScheduler.new = Ok (out, s) ∧ run ops ListScheduler.new = Ok (out, l).
Proof. exact (new_refines (S:=MapScheduler.t) true (λ _, _) ops). Qed.

(** Every admissible run of operations on a [PriorityQueueScheduler] returns normally
    and gives the same answers as on a [ListScheduler]. *)
Theorem priority_queue_refines_list ops :
  admissible true 0 ListScheduler.new ops = true →
  ∃ out s l, run ops PriorityQueueScheduler.new = Ok (out, s) ∧
    run ops ListScheduler.new = Ok (out, l).
Proof. exact (new_refines (S:=PriorityQueueScheduler.t) true (λ _, _) ops). Qed.

(** C27 Every admissible run of operations other than [Remove] on a [HeapScheduler]
    returns normally (the sifting loops terminate) and gives the same answers as on a
    [ListScheduler]. *)
Theorem heap_refines_list ops :
  admissible false 0 ListScheduler.new ops = true →
  ∃ out s l, run ops HeapScheduler.new = Ok (out, s) ∧ run ops ListScheduler.new = Ok (out, l).
Proof.
  assert (false = true → SchedulerRemoveSpec HeapScheduler.t) as H by discriminate.
  exact (new_refines (S:=HeapScheduler.t) false H ops).
Qed.

(** C14 Every admissible run of operations on a [CalendarScheduler], in either storage
    order, returns normally (through every resize and every overflow of the bucket tops)
    and gives the same answers as on a [ListScheduler]. *)
Theorem calendar_refines_list r ops :
  admissible true 0 ListScheduler.new ops = true →
  ∃ out s l, run ops (CalendarScheduler.new (r:=r)) = Ok (out, s) ∧
    run ops ListScheduler.new = Ok (out, l).
Proof. exact (new_refines (S:=CalendarScheduler.t r) true (λ _, _) ops). Qed.

(** ** Concrete runs *)

Definition ev (t u : Z) : Event := mkEvent (100 + u) (mkKey t u 7).

Definition sample_run : list op :=
  [OpInsert (ev 30 4); OpInsert (ev 10 5); OpInsert (ev 30 6); OpInsert (ev 5 7);
   OpInsert (ev 99 8); OpInsert (ev 10 9); OpPeekNext; OpRemoveNext; OpRemoveNext;
   OpInsert (ev 12 10); OpIsEmpty; OpRemoveNext; OpRemoveNext; OpRemoveNext].

Definition sample_run_remove : list op :=
  sample_run ++ [OpRemove (ev 99 8); OpPeekNext; OpRemoveNext; OpIsEmpty].

Lemma map_refines_list_witness :
  admissible true 0 ListScheduler.new sample_run_remove = true ∧
  ∃ out s l, run sample_run_remove MapScheduler.new = Ok (out, s) ∧
    run sample_run_remove ListScheduler.new = Ok (out, l).
Proof. split; [reflexivity|]. apply map_refines_list. reflexivity. Defined.

Lemma priority_queue_refines_list_witness :
  admissible true 0 ListScheduler.new sample_run_remove = true ∧
  ∃ out s l, run sample_run_remove PriorityQueueScheduler.new = Ok (out, s) ∧
    run sample_run_remove ListScheduler.new = Ok (out, l).
Proof. split; [reflexivity|]. apply priority_queue_refines_list. reflexivity. Defined.

Lemma heap_refines_list_witness :
  admissible false 0 ListScheduler.new sample_run = true ∧
  ∃ out s l, run sample_run HeapScheduler.new = Ok (out, s) ∧
    run sample_run ListScheduler.new = Ok (out, l).
Proof. split; [reflexivity|]. apply heap_refines_list. reflexivity. Defined.

Lemma calendar_refines_list_witness :
  admissible true 0 ListScheduler.new sample_run_remove = true ∧
  ∃ out s l, run sample_run_remove (CalendarScheduler.new (r:=true)) = Ok (out, s) ∧
    run sample_run_remove ListScheduler.new = Ok (out, l).
Proof. split; [reflexivity|]. apply calendar_refines_list. reflexivity. Defined.

(** [HeapScheduler::Remove] can lose the heap order: after the removal of the event
    with id 7 from these seven events, the queue returns the event due at 10 before the
    one due at 4, where [ListScheduler] returns them in order. *)
Theorem heap_remove_loses_order :
  let inserts := OpInsert <$> [ev 1 4; ev 10 5; ev 2 6; ev 11 7; ev 12 8; ev 30 9; ev 4 10] in
  let ops := inserts ++ [OpRemove (ev 11 7); OpRemoveNext; OpRemoveNext; OpRemoveNext; OpRemoveNext] in
  admissible true 0 ListScheduler.new ops = true ∧
  (drop 8 ∘ fst <$> run ops HeapScheduler.new) =
    Ok [AEvent (ev 1 4); AEvent (ev 2 6); AEvent (ev 10 5); AEvent (ev 4 10)] ∧
  (drop 8 ∘ fst <$> run ops ListScheduler.new) =
    Ok [AEvent (ev 1 4); AEvent (ev 2 6); AEvent (ev 4 10); AEvent (ev 10 5)].
Proof. cbv zeta. conj; vm_compute; reflexivity. Qed.
