(* ===== verification/DefaultSimulatorImpl.v ===== *)
(** * The event loop (src/src/core/model/default-simulator-impl.cc, event-id, event-impl)

    [DefaultSimulatorImpl] over any event queue that implements the [Scheduler]
    interface: scheduling, cancellation, expiry and the loop of [Run].  The code an
    event runs when it is invoked is user code; it is a tree of calls back into the
    simulator ([prog]) that may depend on the answers.  Reference counts and the
    lifetime of [EventImpl] objects are not modelled: an event is its address, and
    [m_cancel] is the set of the addresses whose [EventImpl::m_cancel] is set.
    Calls of other threads are the [CallOtherThread] nodes: each is one critical section
    of [m_eventsWithContextMutex], so placing them between calls of the main thread is
    the interleaving the lock allows. *)

From S2P Require Import Prelude Scheduler.
Local Open Scope Z_scope.

(** ** Event identifiers *)

(** [event-id.cc:45-52] EventId::EventId *)
Record EventId := mkEventId {
  m_eventImpl : Z;   (* an address; 0 is nullptr *)
  eid_ts : Z;        (* uint64_t *)
  eid_context : Z;   (* uint32_t *)
  eid_uid : Z        (* uint32_t *)
}.

#[export] Instance EventId_eq_dec : EqDecision EventId.
Proof. solve_decision. Defined.

(** [event-id.h:58-70] EventId::UID *)
Inductive UID := INVALID | NOW | DESTROY | RESERVED | VALID.

(** [event-id.h:58-70] EventId::UID *)
Definition UID_value (u : UID) : Z :=
  match u with INVALID => 0 | NOW => 1 | DESTROY => 2 | RESERVED => 3 | VALID => 4 end.

(** [event-id.h:156-161] operator==(EventId) *)
Definition EventId_eqb (a b : EventId) : bool :=
  (eid_uid a =? eid_uid b) && (eid_context a =? eid_context b) &&
  (eid_ts a =? eid_ts b) && (m_eventImpl a =? m_eventImpl b).

Lemma EventId_eqb_eq a b : EventId_eqb a b = true ↔ a = b.
Proof.
  unfold EventId_eqb. rewrite !andb_true_iff, !Z.eqb_eq.
  destruct a, b; cbn. naive_solver.
Qed.

(** [default-simulator-impl.h:86-98] DefaultSimulatorImpl::EventWithContext *)
Record EventWithContext := mkEwc {
  ewc_context : Z;
  ewc_timestamp : Z;
  ewc_event : Z
}.

(** ** The state *)

(** [default-simulator-impl.h:103-138] DefaultSimulatorImpl *)
Record t (S : Type) := mk {
  m_eventsWithContext : list EventWithContext;
  m_eventsWithContextEmpty : bool;
  m_destroyEvents : list EventId;
  m_stop : bool;
  m_events : option S;          (* Ptr<Scheduler>; [None] is nullptr *)
  m_uid : Z;                    (* uint32_t *)
  m_currentUid : Z;             (* uint32_t *)
  m_currentTs : Z;              (* uint64_t *)
  m_currentContext : Z;         (* uint32_t *)
  m_eventCount : Z;             (* uint64_t *)
  m_unscheduledEvents : Z;      (* int *)
  m_mainThreadId : Z;
  m_cancel : gset Z             (* EventImpl::m_cancel, of every event object *)
}.
Arguments mk {S}.
Arguments m_eventsWithContext {S}. Arguments m_eventsWithContextEmpty {S}.
Arguments m_destroyEvents {S}. Arguments m_stop {S}. Arguments m_events {S}.
Arguments m_uid {S}. Arguments m_currentUid {S}. Arguments m_currentTs {S}.
Arguments m_currentContext {S}. Arguments m_eventCount {S}.
Arguments m_unscheduledEvents {S}. Arguments m_mainThreadId {S}. Arguments m_cancel {S}.

(** The members a C++ statement assigns. *)
Section setters.
Context {S : Type}.
Implicit Types s : t S.
Definition set_pending l b s := mk l b (m_destroyEvents s) (m_stop s) (m_events s) (m_uid s)
  (m_currentUid s) (m_currentTs s) (m_currentContext s) (m_eventCount s)
  (m_unscheduledEvents s) (m_mainThreadId s) (m_cancel s).
Definition set_destroyEvents l s := mk (m_eventsWithContext s) (m_eventsWithContextEmpty s) l
  (m_stop s) (m_events s) (m_uid s) (m_currentUid s) (m_currentTs s) (m_currentContext s)
  (m_eventCount s) (m_unscheduledEvents s) (m_mainThreadId s) (m_cancel s).
Definition set_stop b s := mk (m_eventsWithContext s) (m_eventsWithContextEmpty s)
  (m_destroyEvents s) b (m_events s) (m_uid s) (m_currentUid s) (m_currentTs s)
  (m_currentContext s) (m_eventCount s) (m_unscheduledEvents s) (m_mainThreadId s) (m_cancel s).
Definition set_events (q : option S) s := mk (m_eventsWithContext s) (m_eventsWithContextEmpty s)
  (m_destroyEvents s) (m_stop s) q (m_uid s) (m_currentUid s) (m_currentTs s)
  (m_currentContext s) (m_eventCount s) (m_unscheduledEvents s) (m_mainThreadId s) (m_cancel s).
Definition set_uid u s := mk (m_eventsWithContext s) (m_eventsWithContextEmpty s)
  (m_destroyEvents s) (m_stop s) (m_events s) u (m_currentUid s) (m_currentTs s)
  (m_currentContext s) (m_eventCount s) (m_unscheduledEvents s) (m_mainThreadId s) (m_cancel s).
Definition set_current uid ts ctx s := mk (m_eventsWithContext s) (m_eventsWithContextEmpty s)
  (m_destroyEvents s) (m_stop s) (m_events s) (m_uid s) uid ts ctx (m_eventCount s)
  (m_unscheduledEvents s) (m_mainThreadId s) (m_cancel s).
Definition set_counts c n s := mk (m_eventsWithContext s) (m_eventsWithContextEmpty s)
  (m_destroyEvents s) (m_stop s) (m_events s) (m_uid s) (m_currentUid s) (m_currentTs s)
  (m_currentContext s) c n (m_mainThreadId s) (m_cancel s).
Definition set_mainThreadId tid s := mk (m_eventsWithContext s) (m_eventsWithContextEmpty s)
  (m_destroyEvents s) (m_stop s) (m_events s) (m_uid s) (m_currentUid s) (m_currentTs s)
  (m_currentContext s) (m_eventCount s) (m_unscheduledEvents s) tid (m_cancel s).
Definition set_cancel c s := mk (m_eventsWithContext s) (m_eventsWithContextEmpty s)
  (m_destroyEvents s) (m_stop s) (m_events s) (m_uid s) (m_currentUid s) (m_currentTs s)
  (m_currentContext s) (m_eventCount s) (m_unscheduledEvents s) (m_mainThreadId s) c.
End setters.

(** Signed arithmetic: overflow is undefined. *)
Definition int64_add (a b : Z) : res Z :=
  let r := a + b in
  if (- 2 ^ 63 <=? r) && (r <=? INT64_MAX) then Ok r else Err Undefined.

Definition int_add (a b : Z) : res Z :=
  let r := a + b in
  if (- 2 ^ 31 <=? r) && (r <? 2 ^ 31) then Ok r else Err Undefined.

Definition NO_CONTEXT : Z := 4294967295.

(** What an event's code asks of the simulator, and what it is answered. *)
Inductive call :=
  | CallSchedule (delay event : Z)
  | CallScheduleWithContext (context delay event : Z)
  | CallOtherThread (tid context delay event : Z)
  | CallScheduleNow (event : Z)
  | CallScheduleDestroy (event : Z)
  | CallStop
  | CallStopDelay (delay event : Z)
  | CallCancel (id : EventId)
  | CallRemove (id : EventId)
  | CallIsExpired (id : EventId)
  | CallGetDelayLeft (id : EventId)
  | CallNow
  | CallGetContext
  | CallGetEventCount.

Inductive answer :=
  | AUnit
  | AId (id : EventId)
  | ABool (b : bool)
  | ATime (z : Z)
  | ANum (z : Z).

(** User code with state [U]: finished, or a call and what follows its answer. *)
Inductive prog (U : Type) :=
  | Done (u : U)
  | Do (c : call) (k : answer → prog U).
Arguments Done {U}. Arguments Do {U}.

Section simulator.
Context {S : Type} `{!Scheduler S}.
Implicit Types s : t S.

(** [default-simulator-impl.cc:55-67] DefaultSimulatorImpl::DefaultSimulatorImpl *)
Definition new (this_thread : Z) : t S :=
  mk [] true [] false None (UID_value VALID) (UID_value INVALID) 0 NO_CONTEXT 0 0
    this_thread ∅.

(** [event-impl.cc] EventImpl::IsCancelled *)
Definition EventImpl_IsCancelled (ev : Z) s : bool := bool_decide (ev ∈ m_cancel s).

(** [event-impl.cc] EventImpl::Cancel *)
Definition EventImpl_Cancel (ev : Z) s : t S := set_cancel ({[ ev ]} ∪ m_cancel s) s.

(** [default-simulator-impl.cc] DefaultSimulatorImpl::GetContext *)
Definition GetContext s : Z := m_currentContext s.

(** [default-simulator-impl.cc] DefaultSimulatorImpl::GetEventCount *)
Definition GetEventCount s : Z := m_eventCount s.

(** [default-simulator-impl.cc] DefaultSimulatorImpl::Now *)
Definition Now s : Z := sint 64 (m_currentTs s).

(** [default-simulator-impl.cc] DefaultSimulatorImpl::GetMaximumSimulationTime *)
Definition GetMaximumSimulationTime : Z := 0x7fffffffffffffff.

(** [default-simulator-impl.cc:237-239] DefaultSimulatorImpl::Schedule

    The three statements that follow the making of an event:
    [m_uid++; m_unscheduledEvents++; m_events->Insert(ev);]. *)
Definition insert_event (ev : Event) s : res (t S) :=
  n ← int_add (m_unscheduledEvents s) 1;
  q ← deref (m_events s);
  q ← sched_Insert ev q;
  Ok (set_events (Some q)
        (set_counts (m_eventCount s) n (set_uid (u32 (m_uid s + 1)) s))).

(** [default-simulator-impl.cc:222-241] DefaultSimulatorImpl::Schedule *)
Definition Schedule (this_thread delay event : Z) s : res (EventId * t S) :=
  ns_assert (m_mainThreadId s =? this_thread) ≫= λ _,
  ns_assert (0 <=? delay) ≫= λ _,
  tAbsolute ← int64_add delay (sint 64 (m_currentTs s));
  let ev := mkEvent event (mkKey (u64 tAbsolute) (m_uid s) (GetContext s)) in
  s' ← insert_event ev s;
  Ok (mkEventId event (m_ts (key ev)) (m_context (key ev)) (Scheduler.m_uid (key ev)), s').

(** [default-simulator-impl.cc:243-273] DefaultSimulatorImpl::ScheduleWithContext *)
Definition ScheduleWithContext (this_thread context delay event : Z) s : res (t S) :=
  if m_mainThreadId s =? this_thread then
    tAbsolute ← int64_add delay (sint 64 (m_currentTs s));
    insert_event (mkEvent event (mkKey (u64 tAbsolute) (m_uid s) context)) s
  else
    Ok (set_pending (m_eventsWithContext s ++ [mkEwc context (u64 delay) event]) false s).

(** [default-simulator-impl.cc:275-282] DefaultSimulatorImpl::ScheduleNow *)
Definition ScheduleNow (this_thread event : Z) s : res (EventId * t S) :=
  ns_assert (m_mainThreadId s =? this_thread) ≫= λ _, Schedule this_thread 0 event s.

(** [default-simulator-impl.cc:284-294] DefaultSimulatorImpl::ScheduleDestroy *)
Definition ScheduleDestroy (this_thread event : Z) s : res (EventId * t S) :=
  ns_assert (m_mainThreadId s =? this_thread) ≫= λ _,
  let id := mkEventId event (m_currentTs s) 0xffffffff 2 in
  Ok (id, set_uid (u32 (m_uid s + 1)) (set_destroyEvents (m_destroyEvents s ++ [id]) s)).

(** [default-simulator-impl.cc:205-210] DefaultSimulatorImpl::Stop *)
Definition Stop s : t S := set_stop true s.

(** [default-simulator-impl.cc:212-217] DefaultSimulatorImpl::Stop

    [event] is the address of the event made from [&Simulator::Stop]. *)
Definition Stop_delay (this_thread delay event : Z) s : res (EventId * t S) :=
  Schedule this_thread delay event s.

(** [default-simulator-impl.cc] DefaultSimulatorImpl::IsExpired *)
Definition IsExpired (id : EventId) s : bool :=
  if eid_uid id =? UID_value DESTROY then
    if (m_eventImpl id =? 0) || EventImpl_IsCancelled (m_eventImpl id) s then true
    else negb (existsb (λ i, EventId_eqb i id) (m_destroyEvents s))
  else
    (m_eventImpl id =? 0) || (eid_ts id <? m_currentTs s) ||
    ((eid_ts id =? m_currentTs s) && (eid_uid id <=? m_currentUid s)) ||
    EventImpl_IsCancelled (m_eventImpl id) s.

(** [default-simulator-impl.cc] DefaultSimulatorImpl::GetDelayLeft *)
Definition GetDelayLeft (id : EventId) s : Z :=
  if IsExpired id s then 0 else sint 64 (u64 (eid_ts id - m_currentTs s)).

(** The event a scheduler looks up for an identifier. *)
Definition event_of (id : EventId) : Event :=
  mkEvent (m_eventImpl id) (mkKey (eid_ts id) (eid_uid id) (eid_context id)).

(** [default-simulator-impl.cc:316-347] DefaultSimulatorImpl::Remove *)
Definition Remove (id : EventId) s : res (t S) :=
  if eid_uid id =? UID_value DESTROY then
    Ok (match erase_first (λ i, EventId_eqb i id) (m_destroyEvents s) with
        | Some (_, l) => set_destroyEvents l s
        | None => s
        end)
  else if IsExpired id s then Ok s
  else
    let event := event_of id in
    q ← deref (m_events s);
    q ← sched_Remove event q;
    let s := EventImpl_Cancel (impl event) (set_events (Some q) s) in
    n ← int_add (m_unscheduledEvents s) (-1);
    Ok (set_counts (m_eventCount s) n s).

(** [default-simulator-impl.cc:349-356] DefaultSimulatorImpl::Cancel *)
Definition Cancel (id : EventId) s : t S :=
  if negb (IsExpired id s) then EventImpl_Cancel (m_eventImpl id) s else s.

(** A call made by the thread [this_thread]. *)
Definition exec_call (this_thread : Z) (c : call) s : res (answer * t S) :=
  match c with
  | CallSchedule delay ev => '(id, s) ← Schedule this_thread delay ev s; Ok (AId id, s)
  | CallScheduleWithContext ctx delay ev =>
      s ← ScheduleWithContext this_thread ctx delay ev s; Ok (AUnit, s)
  | CallOtherThread tid ctx delay ev =>
      s ← ScheduleWithContext tid ctx delay ev s; Ok (AUnit, s)
  | CallScheduleNow ev => '(id, s) ← ScheduleNow this_thread ev s; Ok (AId id, s)
  | CallScheduleDestroy ev => '(id, s) ← ScheduleDestroy this_thread ev s; Ok (AId id, s)
  | CallStop => Ok (AUnit, Stop s)
  | CallStopDelay delay ev => '(_, s) ← Stop_delay this_thread delay ev s; Ok (AUnit, s)
  | CallCancel id => Ok (AUnit, Cancel id s)
  | CallRemove id => s ← Remove id s; Ok (AUnit, s)
  | CallIsExpired id => Ok (ABool (IsExpired id s), s)
  | CallGetDelayLeft id => Ok (ATime (GetDelayLeft id s), s)
  | CallNow => Ok (ATime (Now s), s)
  | CallGetContext => Ok (ANum (GetContext s), s)
  | CallGetEventCount => Ok (ANum (GetEventCount s), s)
  end.

Fixpoint exec_prog {U} (this_thread : Z) (p : prog U) s : res (U * t S) :=
  match p with
  | Done u => Ok (u, s)
  | Do c k => '(a, s) ← exec_call this_thread c s; exec_prog this_thread (k a) s
  end.

(** [default-simulator-impl.cc:171-183] DefaultSimulatorImpl::ProcessEventsWithContext

    The loop of [ProcessEventsWithContext] over the swapped queue. *)
Fixpoint ProcessEventsWithContext_loop (l : list EventWithContext) s : res (t S) :=
  match l with
  | [] => Ok s
  | event :: l =>
      let ev := mkEvent (ewc_event event)
        (mkKey (u64 (m_currentTs s + ewc_timestamp event)) (m_uid s) (ewc_context event)) in
      s ← insert_event ev s;
      ProcessEventsWithContext_loop l s
  end.

(** [default-simulator-impl.cc:156-184] DefaultSimulatorImpl::ProcessEventsWithContext *)
Definition ProcessEventsWithContext s : res (t S) :=
  if m_eventsWithContextEmpty s then Ok s
  else ProcessEventsWithContext_loop (m_eventsWithContext s) (set_pending [] true s).

(** [default-simulator-impl.cc:150-154] DefaultSimulatorImpl::IsFinished *)
Definition IsFinished s : res bool :=
  q ← deref (m_events s); Ok (sched_IsEmpty q || m_stop s).

Section user_code.
Context {U : Type}.
(** [EventImpl::Notify], a pure virtual method. *)
Variable Notify : U → Z → prog U.

(** [event-impl.cc] EventImpl::Invoke *)
Definition EventImpl_Invoke (this_thread ev : Z) (u : U) s : res (U * t S) :=
  if ev =? 0 then Err Undefined
  else if negb (EventImpl_IsCancelled ev s) then exec_prog this_thread (Notify u ev) s
  else Ok (u, s).

(** [default-simulator-impl.cc:129-148] DefaultSimulatorImpl::ProcessOneEvent

    Returns the identifier it passes to [PreEventHook], which is an empty virtual
    method. *)
Definition ProcessOneEvent (this_thread : Z) (u : U) s : res (EventId * U * t S) :=
  q ← deref (m_events s);
  '(next, q) ← sched_RemoveNext q;
  let s := set_events (Some q) s in
  let id := mkEventId (impl next) (m_ts (key next)) (m_context (key next))
              (Scheduler.m_uid (key next)) in
  ns_assert (m_currentTs s <=? m_ts (key next)) ≫= λ _,
  n ← int_add (m_unscheduledEvents s) (-1);
  let s := set_counts (u64 (m_eventCount s + 1)) n s in
  let s := set_current (Scheduler.m_uid (key next)) (m_ts (key next)) (m_context (key next)) s in
  '(u, s) ← EventImpl_Invoke this_thread (impl next) u s;
  s ← ProcessEventsWithContext s;
  Ok (id, u, s).

(** [default-simulator-impl.cc:195-198] DefaultSimulatorImpl::Run

    The loop of [Run]; the list is the identifiers of the events processed. *)
Fixpoint Run_loop (fuel : nat) (this_thread : Z) (u : U) s : res (list EventId * U * t S) :=
  match fuel with
  | O => Err OutOfFuel
  | Datatypes.S fuel =>
      finished ← IsFinished s;
      if finished : bool then Ok ([], u, s)
      else
        '(id, u, s) ← ProcessOneEvent this_thread u s;
        '(ids, u, s) ← Run_loop fuel this_thread u s;
        Ok (id :: ids, u, s)
  end.

(** [default-simulator-impl.cc:186-203] DefaultSimulatorImpl::Run *)
Definition Run (fuel : nat) (this_thread : Z) (u : U) s : res (list EventId * U * t S) :=
  let s := set_mainThreadId this_thread s in
  s ← ProcessEventsWithContext s;
  let s := set_stop false s in
  '(ids, u, s) ← Run_loop fuel this_thread u s;
  q ← deref (m_events s);
  ns_assert (negb (sched_IsEmpty q) || (m_unscheduledEvents s =? 0)) ≫= λ _,
  Ok (ids, u, s).

(** [default-simulator-impl.cc:89-103] DefaultSimulatorImpl::Destroy *)
Fixpoint Destroy (fuel : nat) (this_thread : Z) (u : U) s : res (U * t S) :=
  match fuel with
  | O => Err OutOfFuel
  | Datatypes.S fuel =>
      match m_destroyEvents s with
      | [] => Ok (u, s)
      | front :: rest =>
          let ev := m_eventImpl front in
          let s := set_destroyEvents rest s in
          '(u, s) ← (if ev =? 0 then Err Undefined
                     else if negb (EventImpl_IsCancelled ev s)
                     then EventImpl_Invoke this_thread ev u s else Ok (u, s));
          Destroy fuel this_thread u s
      end
  end.
End user_code.

(** The [while (!m_events->IsEmpty())] loops of [SetScheduler] and [DoDispose], with
    what the loop does with the event it removed. *)
Fixpoint drain {A} (body : Event → A → res A) (fuel : nat) (q : S) (a : A) : res (S * A) :=
  match fuel with
  | O => Err OutOfFuel
  | Datatypes.S fuel =>
      if sched_IsEmpty q then Ok (q, a)
      else
        '(next, q) ← sched_RemoveNext q;
        a ← body next a;
        drain body fuel q a
  end.

(** [default-simulator-impl.cc:74-87] DefaultSimulatorImpl::DoDispose *)
Definition DoDispose (fuel : nat) s : res (t S) :=
  s ← ProcessEventsWithContext s;
  q ← deref (m_events s);
  drain (λ _ a, Ok a) fuel q tt ≫= λ _, Ok (set_events None s).
End simulator.

(** [default-simulator-impl.cc:105-120] DefaultSimulatorImpl::SetScheduler

    The new scheduler is of the type [S'] the factory creates. *)
Definition SetScheduler {S S'} `{!Scheduler S} `{!Scheduler S'} (fuel : nat) (s : t S) : res (t S') :=
  let scheduler := sched_new in
  scheduler ← (match m_events s with
               | Some q => '(_, scheduler) ← drain sched_Insert fuel q scheduler; Ok scheduler
               | None => Ok scheduler
               end);
  Ok (mk (m_eventsWithContext s) (m_eventsWithContextEmpty s) (m_destroyEvents s) (m_stop s)
        (Some scheduler) (m_uid s) (m_currentUid s) (m_currentTs s) (m_currentContext s)
        (m_eventCount s) (m_unscheduledEvents s) (m_mainThreadId s) (m_cancel s)).
