(* ===== verification/SimulatorCorrect.v ===== *)
(** * Correctness of the event loop

    The invariant of [DefaultSimulatorImpl], over any queue that keeps the scheduler
    contract, the contract of user code ([polite]), and what follows: no call fails,
    time never goes back, [Run] processes events in the order of their keys and its
    final consistency check holds, an identifier is unexpired exactly while its event
    is pending. *)

From S2P Require Import Prelude Scheduler DefaultSimulatorImpl.
From S2P Require MapScheduler ListScheduler.
Local Open Scope Z_scope.

(** Order of identifiers: by timestamp, then by unique id. *)
Definition id_lt (a b : EventId) : Prop :=
  eid_ts a < eid_ts b ∨ (eid_ts a = eid_ts b ∧ eid_uid a < eid_uid b).

(** ** The contract of user code *)

(** The number of unique ids a call uses up. *)
Definition cost (c : call) : Z :=
  match c with
  | CallSchedule _ _ | CallScheduleWithContext _ _ _ | CallOtherThread _ _ _ _
  | CallScheduleNow _ | CallScheduleDestroy _ | CallStopDelay _ _ => 1
  | _ => 0
  end.

(** Delays are between 0 and [D], events are not [nullptr], and [Remove] is called
    with an identifier the simulator returned ([G] lists these). *)
Definition call_ok (D : Z) (G : list EventId) (c : call) : Prop :=
  match c with
  | CallSchedule d ev | CallStopDelay d ev => 0 ≤ d ≤ D ∧ ev ≠ 0
  | CallScheduleWithContext ctx d ev | CallOtherThread _ ctx d ev =>
      0 ≤ d ≤ D ∧ fits 32 ctx ∧ ev ≠ 0
  | CallScheduleNow ev | CallScheduleDestroy ev => ev ≠ 0
  | CallRemove id => id ∈ G
  | _ => True
  end.

Definition new_ids (a : answer) : list EventId := match a with AId id => [id] | _ => [] end.

(** [p] makes allowed calls only, at most [n] of them use up an id; [Q] holds of what is
    left of [n], of the identifiers known and of the user state at the end. *)
Fixpoint polite {U} (D n : Z) (G : list EventId) (p : prog U)
    (Q : Z → list EventId → U → Prop) : Prop :=
  match p with
  | Done u => Q n G u
  | Do c k => call_ok D G c ∧ cost c ≤ n ∧
      ∀ a, polite D (n - cost c) (new_ids a ++ G) (k a) Q
  end.

Section correctness.
Context {S : Type} `{!Scheduler S} `{!SchedulerSpec S} `{!SchedulerRemoveSpec S}.
Context (D : Z).
Implicit Types s : t S.

(** ** The invariant *)

(** The events in the scheduler. *)
Definition queue s : list Event :=
  match m_events s with Some q => sched_events q | None => [] end.

(** A key that is still to come. *)
Definition after s (ts uid : Z) : Prop :=
  m_currentTs s < ts ∨ (m_currentTs s = ts ∧ m_currentUid s < uid).

(** What is true of an identifier the simulator returned: it was run, or cancelled or
    removed, or its event is in the queue. *)
Definition id_ok s (id : EventId) : Prop :=
  eid_uid id = 2 ∨ ¬ after s (eid_ts id) (eid_uid id) ∨
  m_eventImpl id ∈ m_cancel s ∨ event_of id ∈ queue s.

(** The scheduler accepts every event that is not in the past. *)
Definition scheduler_ok s : Prop :=
  ∃ q, m_events s = Some q ∧ sched_inv q ∧ sched_low q ≤ m_currentTs s.

Definition pending_ok s (e : Event) : Prop :=
  after s (ts e) (uid e) ∧ ts e ≤ m_currentTs s + D ∧ 4 ≤ uid e < m_uid s ∧ impl e ≠ 0.

Definition ewc_ok (w : EventWithContext) : Prop :=
  0 ≤ ewc_timestamp w ≤ D ∧ fits 32 (ewc_context w) ∧ ewc_event w ≠ 0.

Record sim_inv (G : list EventId) s : Prop := {
  inv_delay : 0 ≤ D;
  inv_scheduler : scheduler_ok s;
  inv_pending : Forall (pending_ok s) (queue s);
  inv_count : m_unscheduledEvents s = Z.of_nat (length (queue s));
  inv_count_uid : m_unscheduledEvents s ≤ m_uid s;
  inv_uid : 4 ≤ m_uid s < 2 ^ 31;
  inv_current : 0 ≤ m_currentTs s ∧ 0 ≤ m_currentUid s < m_uid s;
  inv_context : fits 32 (m_currentContext s);
  inv_ewc : Forall ewc_ok (m_eventsWithContext s);
  inv_flag : m_eventsWithContextEmpty s = true ↔ m_eventsWithContext s = [];
  inv_destroy : Forall (λ id, m_eventImpl id ≠ 0) (m_destroyEvents s);
  inv_ids : Forall (id_ok s) G
}.

(** There is room for [n] more unique ids, and for one more delay. *)
Definition room (n : Z) s : Prop :=
  m_uid s + Z.of_nat (length (m_eventsWithContext s)) + n < 2 ^ 31.

(** A call leaves the clock and the running thread alone. *)
Definition same_now s s' : Prop :=
  m_currentTs s' = m_currentTs s ∧ m_currentUid s' = m_currentUid s ∧
  m_mainThreadId s' = m_mainThreadId s.

Lemma same_now_trans s1 s2 s3 : same_now s1 s2 → same_now s2 s3 → same_now s1 s3.
Proof using. unfold same_now. intuition congruence. Qed.

(** The queue with the events handed over by other threads. *)
Definition backlog s : Z :=
  Z.of_nat (length (queue s)) + Z.of_nat (length (m_eventsWithContext s)).

Lemma now_sint s : 0 ≤ m_currentTs s ≤ INT64_MAX → sint 64 (m_currentTs s) = m_currentTs s.
Proof using.
  intros H. unfold sint. rewrite wrap_id by zlia. case_match; [done|].
  apply Z.ltb_ge in H0. unfold INT64_MAX in H. lia.
Qed.

Lemma int64_add_ok a b : 0 ≤ a → 0 ≤ b → a + b ≤ INT64_MAX → int64_add a b = Ok (a + b).
Proof using.
  intros. unfold int64_add. case_match eqn:E; [done|].
  apply andb_false_iff in E as [E|E]; apply Z.leb_gt in E; zlia.
Qed.

Lemma int_add_ok a b : - 2 ^ 31 ≤ a + b < 2 ^ 31 → int_add a b = Ok (a + b).
Proof using.
  intros. unfold int_add. case_match eqn:E; [done|].
  apply andb_false_iff in E as [E|E]; [apply Z.leb_gt in E|apply Z.ltb_ge in E]; lia.
Qed.

Lemma queue_fits G s e : sim_inv G s → e ∈ queue s → event_ok e.
Proof using.
  intros Hs He. destruct (inv_scheduler _ _ Hs) as (q & Hq & Hinv & _).
  unfold queue in He. rewrite Hq in He. destruct (spec_ok q Hinv) as [_ Hf].
  rewrite Forall_forall in Hf. by apply Hf.
Qed.

(** A fresh event can be inserted. *)
Lemma insert_event_ok G s ev :
  sim_inv G s → uid ev = m_uid s → m_currentTs s ≤ ts ev ≤ m_currentTs s + D →
  fits 32 (m_context (key ev)) → impl ev ≠ 0 →
  m_uid s + 1 < 2 ^ 31 → m_currentTs s + D ≤ INT64_MAX →
  ∃ s', insert_event ev s = Ok s' ∧ sim_inv G s' ∧ same_now s s' ∧
    queue s' ≡ₚ ev :: queue s ∧ m_uid s' = m_uid s + 1 ∧ m_stop s' = m_stop s ∧
    m_eventsWithContext s' = m_eventsWithContext s ∧
    m_eventsWithContextEmpty s' = m_eventsWithContextEmpty s.
Proof using.
  intros Hs Hu Hts Hctx Himpl Hroom Htime.
  destruct (inv_scheduler _ _ Hs) as (q & Hq & Hqi & Hlow).
  pose proof (inv_pending _ _ Hs) as Hp. pose proof (inv_count _ _ Hs) as Hc.
  pose proof (inv_count_uid _ _ Hs) as Hcu. pose proof (inv_current _ _ Hs) as Hcur.
  pose proof (inv_uid _ _ Hs) as Huid.
  assert (queue s = sched_events q) as Hqs by (unfold queue; by rewrite Hq).
  destruct (spec_insert q ev Hqi) as (q' & Hi & Hqi' & Hp' & Hlow'); [| | |rewrite <- Hqs; zlia|].
  { unfold event_ok, key_fits, fits. rewrite Hu. unfold fits in Hctx. zlia. }
  { lia. }
  { rewrite <- Hqs, Hu. unfold uids. intros (e & He & Hin)%list_elem_of_fmap.
    rewrite Forall_forall in Hp. destruct (Hp e Hin) as (_ & _ & ? & _). lia. }
  unfold insert_event. rewrite int_add_ok by lia. rewrite Hq. res_simpl. rewrite Hi. res_simpl.
  rewrite (wrap_id 32 (m_uid s + 1)) by zlia.
  eexists. split; [done|]. rewrite Hqs in *.
  assert (∀ e, pending_ok s e → pending_ok (set_events (Some q') (set_counts (m_eventCount s)
      (m_unscheduledEvents s + 1) (set_uid (m_uid s + 1) s))) e) as Hmono.
  { unfold pending_ok, after. cbn. intuition lia. }
  conj; try done.
  destruct Hs as [HD _ _ _ _ _ _ Hcx Hew Hfl Hde Hids]. split; cbn; try done; try lia.
  - exists q'. conj; [done|done|cbn; lia].
  - rewrite Hp'. constructor.
    + unfold pending_ok, after. cbn. lia.
    + eapply Forall_impl; [exact Hp|exact Hmono].
  - rewrite Hp'. cbn [length]. rewrite Hc. lia.
  - eapply Forall_impl; [exact Hids|]. intros id. unfold id_ok, after, queue. cbn.
    rewrite Hq, Hp'. rewrite elem_of_cons. tauto.
Qed.

Lemma sim_inv_cons G s id : sim_inv G s → id_ok s id → sim_inv (id :: G) s.
Proof using. intros [] ?. split; try done. by constructor. Qed.

(** Changes to members the invariant does not constrain. *)
Lemma sim_inv_stop G s b : sim_inv G s → sim_inv G (set_stop b s).
Proof using. intros []. by split. Qed.

Lemma sim_inv_thread G s tid : sim_inv G s → sim_inv G (set_mainThreadId tid s).
Proof using. intros []. by split. Qed.

Lemma sim_inv_cancel G s ev : sim_inv G s → sim_inv G (EventImpl_Cancel ev s).
Proof using.
  intros []. split; try done. eapply Forall_impl; [done|]. intros id.
  unfold id_ok, EventImpl_Cancel. cbn. rewrite elem_of_union. tauto.
Qed.

(** ** Expiry *)

Lemma EventImpl_IsCancelled_spec ev s : EventImpl_IsCancelled ev s = true ↔ ev ∈ m_cancel s.
Proof using. apply bool_decide_eq_true. Qed.

Lemma IsExpired_spec G s id :
  sim_inv G s → id ∈ G → eid_uid id ≠ 2 →
  IsExpired id s = false ↔ event_of id ∈ queue s ∧ m_eventImpl id ∉ m_cancel s.
Proof using.
  intros Hs HG Hd. unfold IsExpired. rewrite (proj2 (Z.eqb_neq _ _)) by done.
  rewrite !orb_false_iff, andb_false_iff, Z.eqb_neq, Z.ltb_ge, Z.eqb_neq, Z.leb_gt.
  rewrite <- EventImpl_IsCancelled_spec, not_true_iff_false.
  pose proof (inv_ids _ _ Hs) as Hids. rewrite Forall_forall in Hids. specialize (Hids id HG).
  pose proof (inv_pending _ _ Hs) as Hp. rewrite Forall_forall in Hp. specialize (Hp (event_of id)).
  unfold id_ok, pending_ok, after in *. cbn [key event_of m_ts Scheduler.m_uid impl] in Hp.
  split.
  - intros (((Hn & Ht) & Hu) & Hc). split; [|done].
    destruct Hids as [|[Hna|[Hca|Hq]]]; [done| | |done].
    + exfalso. apply Hna. lia.
    + apply EventImpl_IsCancelled_spec in Hca. congruence.
  - intros (Hq & Hc). specialize (Hp Hq). conj; [lia|lia|lia|done].
Qed.

Lemma pending_ok_ext s s' e :
  same_now s s' → m_uid s' = m_uid s → pending_ok s e → pending_ok s' e.
Proof using. unfold same_now, pending_ok, after. intros (-> & -> & _) ->. done. Qed.

(** [Remove] of an identifier the simulator returned. *)
Lemma Remove_call_ok G s id :
  sim_inv G s → id ∈ G →
  ∃ s', Remove id s = Ok s' ∧ sim_inv G s' ∧ same_now s s' ∧ m_uid s' = m_uid s ∧
    m_eventsWithContext s' = m_eventsWithContext s ∧
    (if (eid_uid id =? 2) || IsExpired id s then queue s' = queue s
     else queue s ≡ₚ event_of id :: queue s' ∧ m_eventImpl id ∈ m_cancel s').
Proof using SchedulerRemoveSpec0.
  intros Hs HG. unfold Remove. change (UID_value DESTROY) with 2.
  destruct (Z.eqb_spec (eid_uid id) 2) as [Hd|Hd].
  { eexists. split; [done|]. destruct (erase_first _ _) as [[x l]|] eqn:He; cbn; [|by conj].
    conj; try done. destruct Hs. split; try done. cbn.
    apply erase_first_perm in He. rewrite He in inv_destroy0. by inversion inv_destroy0. }
  destruct (IsExpired id s) eqn:Hx; cbn; [by exists s|].
  destruct (proj1 (IsExpired_spec _ _ _ Hs HG Hd) Hx) as (Hq & Hnc).
  destruct (inv_scheduler _ _ Hs) as (q & Hqe & Hqi & Hlow).
  unfold queue in Hq. rewrite Hqe in Hq.
  destruct (spec_remove q (event_of id) Hqi Hq) as (q' & Hr & Hqi' & Hp & Hlow').
  rewrite Hqe. res_simpl. rewrite Hr. res_simpl.
  assert (queue s ≡ₚ event_of id :: sched_events q') as Hqp by (unfold queue; by rewrite Hqe).
  pose proof (Permutation_length Hqp) as Hlen. cbn in Hlen.
  pose proof (inv_count _ _ Hs) as Hc. pose proof (inv_count_uid _ _ Hs) as Hcu.
  pose proof (inv_uid _ _ Hs) as Hu.
  rewrite int_add_ok by (cbn; lia). res_simpl. eexists. split; [done|].
  conj; [|done|done|done|exact Hqp|cbn; set_solver].
  - destruct Hs. split; cbn; try done; try lia.
    + exists q'. conj; [done|done|cbn; lia].
    + rewrite Hqp in inv_pending0. inversion_clear inv_pending0.
      eapply Forall_impl; [done|]. intros e. by apply pending_ok_ext.
    + eapply Forall_impl; [exact inv_ids0|]. intros i. unfold id_ok, after. cbn.
      rewrite Hqp, elem_of_cons, elem_of_union, elem_of_singleton.
      intros [?|[?|[?|[He|?]]]]; [tauto|tauto|tauto| |tauto].
      right. right. left. left. apply (f_equal impl) in He. exact He.
Qed.

(** ** The calls of user code *)

(** What every allowed call guarantees: no failure, the invariant, the clock unmoved,
    ids used up and backlog grown by at most the cost of the call. *)
Definition call_post G s (c : Z) (a : answer) s' : Prop :=
  sim_inv (new_ids a ++ G) s' ∧ same_now s s' ∧
  m_uid s' + Z.of_nat (length (m_eventsWithContext s')) ≤
    m_uid s + Z.of_nat (length (m_eventsWithContext s)) + c ∧
  backlog s' ≤ backlog s + c.

Lemma Schedule_ok G s d ev :
  sim_inv G s → 0 ≤ d ≤ D → ev ≠ 0 → m_uid s + 1 < 2 ^ 31 → m_currentTs s + D ≤ INT64_MAX →
  ∃ s', Schedule (m_mainThreadId s) d ev s =
      Ok (mkEventId ev (m_currentTs s + d) (m_currentContext s) (m_uid s), s') ∧
    call_post G s 1 (AId (mkEventId ev (m_currentTs s + d) (m_currentContext s) (m_uid s))) s' ∧
    queue s' ≡ₚ event_of (mkEventId ev (m_currentTs s + d) (m_currentContext s) (m_uid s)) :: queue s.
Proof using.
  intros Hs Hd Hev Hroom Htime. destruct (inv_current _ _ Hs) as [Hts Hcu].
  unfold Schedule. rewrite Z.eqb_refl. res_simpl. rewrite (proj2 (Z.leb_le 0 d)) by lia.
  res_simpl. rewrite now_sint, int64_add_ok by lia. res_simpl.
  rewrite (wrap_id 64 (d + _)) by zlia. unfold GetContext. rewrite (Z.add_comm d).
  destruct (insert_event_ok G s (event_of (mkEventId ev (m_currentTs s + d)
    (m_currentContext s) (m_uid s)))) as (s' & Hi & Hinv & Hnow & Hq & Hu & _ & Hpe & _);
    [done|done|cbn; lia|apply Hs|done|lia|done|].
  unfold event_of in Hi at 1. cbn [m_eventImpl eid_ts eid_uid eid_context] in Hi.
  rewrite Hi. res_simpl. eexists. split; [done|]. split; [|done].
  unfold call_post, backlog. rewrite Hpe, Hq, Hu. cbn [length new_ids app]. conj; [|done|lia|lia].
  apply sim_inv_cons; [done|]. right. right. right. rewrite Hq. by left.
Qed.

Lemma ScheduleWithContext_ok G s tid ctx d ev :
  sim_inv G s → 0 ≤ d ≤ D → fits 32 ctx → ev ≠ 0 → m_uid s + 1 < 2 ^ 31 →
  m_currentTs s + D ≤ INT64_MAX →
  ∃ s', ScheduleWithContext tid ctx d ev s = Ok s' ∧ call_post G s 1 AUnit s'.
Proof using.
  intros Hs Hd Hctx Hev Hroom Htime. destruct (inv_current _ _ Hs) as [Hts Hcu].
  unfold ScheduleWithContext. destruct (_ =? _).
  - rewrite now_sint, int64_add_ok by lia. res_simpl. rewrite (wrap_id 64 (d + _)) by zlia.
    edestruct (insert_event_ok G s (mkEvent ev (mkKey (d + m_currentTs s) (m_uid s) ctx)))
      as (s' & Hi & Hinv & Hnow & Hq & Hu & _ & Hpe & _);
      [done|done|cbn; lia|done|done|lia|done|].
    rewrite Hi. eexists. split; [done|].
    unfold call_post, backlog. rewrite Hpe, Hq, Hu. cbn [length new_ids app]. conj; [done|done|lia|lia].
  - eexists. split; [done|]. unfold call_post, backlog. cbn [set_pending m_eventsWithContext m_uid].
    rewrite length_app. cbn [length new_ids app]. conj; [|done|lia|unfold queue; cbn; lia].
    destruct Hs. split; cbn; try done.
    + apply Forall_app. split; [done|]. apply Forall_singleton.
      unfold ewc_ok. cbn. rewrite wrap_id by zlia. done.
    + split; [done|]. intros H. by destruct (m_eventsWithContext s).
Qed.

Lemma exec_call_ok G s c :
  sim_inv G s → call_ok D G c → room (cost c) s → m_currentTs s + D ≤ INT64_MAX →
  ∃ a s', exec_call (m_mainThreadId s) c s = Ok (a, s') ∧ call_post G s (cost c) a s'.
Proof using SchedulerRemoveSpec0.
  intros Hs Hc Hroom Htime. pose proof (inv_delay _ _ Hs) as HD. unfold room in Hroom.
  assert (∀ a s', sim_inv (new_ids a ++ G) s' → same_now s s' → m_uid s' = m_uid s →
    m_eventsWithContext s' = m_eventsWithContext s → queue s' = queue s →
    call_post G s 0 a s') as Hid.
  { intros a s' ? ? Hu Hp Hq. unfold call_post, backlog. rewrite Hu, Hp, Hq. conj; [done|done|lia|lia]. }
  destruct c; cbn [call_ok cost] in *; cbn [exec_call];
    try (eexists _, _; split; [done|]; apply Hid; done).
  - destruct Hc. destruct (Schedule_ok G s delay event) as (s' & -> & ? & _); [done..|lia|done|].
    res_simpl. by eexists _, _.
  - destruct Hc as (?&?&?). destruct (ScheduleWithContext_ok G s (m_mainThreadId s) context delay event)
      as (s' & -> & ?); [done..|lia|done|]. res_simpl. by eexists _, _.
  - destruct Hc as (?&?&?). destruct (ScheduleWithContext_ok G s tid context delay event)
      as (s' & -> & ?); [done..|lia|done|]. res_simpl. by eexists _, _.
  - unfold ScheduleNow. rewrite Z.eqb_refl. res_simpl.
    destruct (Schedule_ok G s 0 event) as (s' & -> & ? & _); [done|lia|done|lia|done|].
    res_simpl. by eexists _, _.
  - unfold ScheduleDestroy. rewrite Z.eqb_refl. res_simpl. eexists _, _. split; [done|].
    pose proof (inv_uid _ _ Hs). unfold call_post, backlog. cbn. rewrite (wrap_id 32) by zlia.
    conj; [|done|lia|unfold queue; cbn; lia].
    apply sim_inv_cons; [|by left]. destruct Hs. split; cbn; try done; try lia.
    + eapply Forall_impl; [done|]. unfold pending_ok, after. cbn. intros e. lia.
    + apply Forall_app. split; [done|]. by apply Forall_singleton.
  - eexists _, _. split; [done|]. apply Hid; [|done..]. by apply sim_inv_stop.
  - destruct Hc. unfold Stop_delay.
    destruct (Schedule_ok G s delay event) as (s' & -> & (Hp & Hp') & _); [done..|lia|done|].
    res_simpl. eexists _, _. split; [done|]. split; [|done]. cbn in Hp |- *.
    destruct Hp. split; try done. by inversion inv_ids0.
  - eexists _, _. split; [done|]. unfold Cancel. case_match; [|by apply Hid].
    apply Hid; [|done..]. by apply sim_inv_cancel.
  - destruct (Remove_call_ok G s id Hs Hc) as (s' & -> & ? & ? & Hu & Hp & Hq). res_simpl.
    eexists _, _. split; [done|]. unfold call_post, backlog. rewrite Hu, Hp.
    conj; [done|done|lia|]. destruct (_ || _); [by rewrite Hq; lia|].
    destruct Hq as [Hq _]. rewrite Hq. cbn. lia.
Qed.

(** User code that keeps its contract runs to its end. *)
Lemma exec_prog_ok {U} (p : prog U) n G s Q :
  sim_inv G s → polite D n G p Q → room n s → 0 ≤ n → m_currentTs s + D ≤ INT64_MAX →
  ∃ u s' n' G', exec_prog (m_mainThreadId s) p s = Ok (u, s') ∧ sim_inv G' s' ∧ Q n' G' u ∧
    same_now s s' ∧ room n' s' ∧ 0 ≤ n' ∧ backlog s' + n' ≤ backlog s + n ∧ G ⊆ G'.
Proof using SchedulerRemoveSpec0.
  revert n G s. induction p as [u|c k IH]; intros n G s Hs Hp Hroom Hn0 Htime.
  - exists u, s, n, G. by conj.
  - destruct Hp as (Hc & Hn & Hk). unfold room in Hroom.
    destruct (exec_call_ok G s c Hs Hc) as (a & s1 & He & Hs1 & Hnow & Hu & Hb);
      [unfold room; lia|done|].
    cbn [exec_prog]. rewrite He. res_simpl. destruct Hnow as (Ht & Hcu & Hm).
    destruct (IH a _ _ s1 Hs1 (Hk a)) as (u & s' & n' & G' & He' & Hs' & HQ & Hnow' & Hr & Hn' & Hb' & HG);
      [unfold room; lia|lia|by rewrite Ht|].
    rewrite Hm in He'. exists u, s', n', G'. conj; try done.
    + by eapply same_now_trans.
    + lia.
    + etrans; [|done]. intros x Hx. apply elem_of_app. by right.
Qed.

Lemma ProcessEventsWithContext_loop_ok G l s :
  sim_inv G s → Forall ewc_ok l → m_uid s + Z.of_nat (length l) < 2 ^ 31 →
  m_currentTs s + D ≤ INT64_MAX →
  ∃ s', ProcessEventsWithContext_loop l s = Ok s' ∧ sim_inv G s' ∧ same_now s s' ∧
    m_uid s' = m_uid s + Z.of_nat (length l) ∧ m_stop s' = m_stop s ∧
    m_eventsWithContext s' = m_eventsWithContext s ∧
    length (queue s') = (length (queue s) + length l)%nat.
Proof using.
  revert s. induction l as [|w l IH]; intros s Hs Hl Hroom Htime.
  { exists s. cbn. conj; try done; lia. }
  apply Forall_cons in Hl as [(Hw1 & Hw2 & Hw3) Hl]. destruct (inv_current _ _ Hs) as [Hts Hcu].
  cbn [ProcessEventsWithContext_loop length] in *. rewrite wrap_id by zlia.
  destruct (insert_event_ok G s (mkEvent (ewc_event w) (mkKey (m_currentTs s + ewc_timestamp w)
    (m_uid s) (ewc_context w)))) as (s1 & Hi & Hs1 & Hnow & Hq & Hu & Hst & Hpe & Hem);
    [done|done|cbn; lia|done|done|lia|done|].
  rewrite Hi. res_simpl. destruct (proj1 Hnow).
  destruct (IH s1) as (s' & -> & Hs' & Hnow' & Hu' & Hst' & Hpe' & Hq'); [done|done|lia|done|].
  exists s'. conj; [done|done|by eapply same_now_trans|lia|congruence|congruence|].
  rewrite Hq', Hq. cbn. lia.
Qed.

Lemma ProcessEventsWithContext_ok G n s :
  sim_inv G s → room n s → 0 ≤ n → m_currentTs s + D ≤ INT64_MAX →
  ∃ s', ProcessEventsWithContext s = Ok s' ∧ sim_inv G s' ∧ same_now s s' ∧ room n s' ∧
    m_eventsWithContext s' = [] ∧ backlog s' = backlog s ∧ m_stop s' = m_stop s.
Proof using.
  intros Hs Hroom Hn Htime. unfold ProcessEventsWithContext.
  destruct (m_eventsWithContextEmpty s) eqn:Hf.
  { exists s. apply (inv_flag _ _ Hs) in Hf. by conj. }
  unfold room in *.
  destruct (ProcessEventsWithContext_loop_ok G (m_eventsWithContext s) (set_pending [] true s))
    as (s' & -> & Hs' & Hnow & Hu & Hst & Hpe & Hq).
  - destruct Hs. by split.
  - apply Hs.
  - cbn. lia.
  - done.
  - cbn [set_pending m_uid m_eventsWithContext] in *. exists s'. unfold backlog.
    rewrite Hpe, Hq, Hu, Hst. cbn [length]. change (queue (set_pending _ _ s)) with (queue s).
    conj; [done|done|done|lia|done|lia|done].
Qed.

(** ** The loop *)

(** The event with the least key is the one [RemoveNext] takes; its removal and the new
    current time keep the invariant. *)
Lemma take_next_ok G s next q q' :
  sim_inv G s → m_events s = Some q → sched_inv q' → is_next next (sched_events q) →
  sched_events q ≡ₚ next :: sched_events q' → sched_low q' ≤ ts next →
  sim_inv G (set_current (uid next) (ts next) (m_context (key next))
    (set_counts (u64 (m_eventCount s + 1)) (m_unscheduledEvents s - 1)
      (set_events (Some q') s))).
Proof using.
  intros Hs Hq Hqi [Hin Hnext] Hp Hlow.
  assert (queue s = sched_events q) as Hqs by (unfold queue; by rewrite Hq).
  assert (event_ok next) as [[_ [_ Hctx]] _] by (eapply queue_fits; [done|by rewrite Hqs]).
  pose proof (spec_ok q' Hqi) as [Hnd _].
  destruct (inv_scheduler _ _ Hs) as (q0 & Hq0 & Hqi0 & _). simplify_eq.
  pose proof (spec_ok q Hqi0) as Hok. rewrite Hp, queue_ok_cons in Hok.
  destruct Hok as (_ & Hnew & _). destruct Hs. rewrite Hqs in *.
  pose proof (proj1 (Forall_forall _ _) inv_pending0) as Hall.
  destruct (Hall next Hin) as (Haft & Hle & Huid & Himpl). unfold after in Haft.
  pose proof (Permutation_length Hp) as Hlen. cbn in Hlen.
  split; cbn; try done; try lia.
  - by exists q'.
  - apply Forall_forall. intros e He. assert (e ∈ sched_events q) as He0 by (rewrite Hp; by right).
    destruct (Hall e He0) as (_ & Hle' & Hu' & Hi'). unfold pending_ok, after. cbn.
    destruct (Hnext e He0) as [->|Hlt]; [by destruct Hnew; apply elem_of_uids|].
    apply event_lt_spec in Hlt. conj; [lia|lia|lia|lia|done].
  - eapply Forall_impl; [exact inv_ids0|]. intros i. unfold id_ok, after. cbn. rewrite Hqs, Hp.
    rewrite elem_of_cons. intros [?|[?|[?|[He|?]]]]; [tauto| |tauto| |tauto].
    + right. left. lia.
    + right. left. rewrite <- He. cbn. lia.
Qed.

(** One iteration of [Run]: the next event is processed, nothing fails. *)
Lemma ProcessOneEvent_ok {U} (Notify : U → Z → prog U) n G u s Q :
  sim_inv G s → queue s ≠ [] → Q n G u → (∀ ev, ev ≠ 0 → polite D n G (Notify u ev) Q) →
  room n s → 0 ≤ n → m_currentTs s + 2 * D ≤ INT64_MAX →
  ∃ id u' s' n' G', ProcessOneEvent Notify (m_mainThreadId s) u s = Ok (id, u', s') ∧
    is_next (event_of id) (queue s) ∧ sim_inv G' s' ∧ Q n' G' u' ∧ room n' s' ∧ 0 ≤ n' ∧
    m_eventsWithContext s' = [] ∧ backlog s' + n' + 1 ≤ backlog s + n ∧
    m_currentTs s' = eid_ts id ∧ m_currentUid s' = eid_uid id ∧
    m_mainThreadId s' = m_mainThreadId s ∧ after s (eid_ts id) (eid_uid id) ∧
    eid_ts id ≤ m_currentTs s + D ∧ G ⊆ G'.
Proof using SchedulerRemoveSpec0.
  intros Hs Hne HQ Hpol Hroom Hn Htime. pose proof (inv_delay _ _ Hs) as HD.
  destruct (inv_scheduler _ _ Hs) as (q & Hq & Hqi & Hlow).
  assert (queue s = sched_events q) as Hqs by (unfold queue; by rewrite Hq).
  destruct (spec_remove_next q Hqi) as (next & q' & Hr & Hnx & Hqi' & Hp & Hlow'); [congruence|].
  pose proof (take_next_ok G s next q q' Hs Hq Hqi' Hnx Hp Hlow') as Hs1.
  pose proof (inv_pending _ _ Hs) as Hall. rewrite Hqs, Forall_forall in Hall.
  destruct (Hall next (proj1 Hnx)) as (Haft & Hle & Huid & Himpl).
  pose proof (Permutation_length Hp) as Hlen. cbn in Hlen.
  pose proof (inv_count _ _ Hs) as Hc. pose proof (inv_count_uid _ _ Hs) as Hcu.
  pose proof (inv_uid _ _ Hs) as Hu. rewrite Hqs in Hc.
  unfold ProcessOneEvent. rewrite Hq. res_simpl. rewrite Hr. res_simpl.
  rewrite (proj2 (Z.leb_le _ _)) by (cbn; unfold after in Haft; lia). res_simpl.
  rewrite int_add_ok by (cbn; lia). res_simpl. unfold EventImpl_Invoke.
  rewrite (proj2 (Z.eqb_neq _ _) Himpl). rewrite <- Z.sub_opp_r.
  change (- - (1)) with 1. cbn [m_eventCount set_events m_unscheduledEvents].
  set (s1 := set_current _ _ _ _) in *.
  assert (∃ u' s2 n' G', (if negb (EventImpl_IsCancelled (impl next) s1)
      then exec_prog (m_mainThreadId s) (Notify u (impl next)) s1 else Ok (u, s1)) = Ok (u', s2) ∧
    sim_inv G' s2 ∧ Q n' G' u' ∧ same_now s1 s2 ∧ room n' s2 ∧ 0 ≤ n' ∧
    backlog s2 + n' ≤ backlog s1 + n ∧ G ⊆ G')
    as (u' & s2 & n' & G' & He & Hs2 & HQ' & (Ht & Hcu2 & Hm) & Hroom' & Hn' & Hb & HG).
  { destruct (EventImpl_IsCancelled _ _); cbn [negb].
    - exists u, s1, n, G. by conj.
    - apply (exec_prog_ok (Notify u (impl next)) n G s1); [done|by apply Hpol|done|done|cbn; lia]. }
  rewrite He. res_simpl.
  destruct (ProcessEventsWithContext_ok G' n' s2) as (s3 & -> & Hs3 & (Ht3 & Hcu3 & Hm3) & Hroom3 & Hpe & Hb3 & _);
    [done|done|done|rewrite Ht; cbn; lia|].
  res_simpl. eexists _, _, _, _, _. split; [done|].
  assert (event_of (mkEventId (impl next) (ts next) (m_context (key next)) (uid next)) = next) as Hev
    by (destruct next as [? []]; done).
  rewrite Hev, Hqs. cbn [eid_ts eid_uid]. conj; try done; try congruence.
  - rewrite Hb3. unfold backlog in *. rewrite Hqs, Hlen. cbn in Hb. lia.
  - rewrite Ht3, Ht. done.
  - rewrite Hcu3, Hcu2. done.
  - rewrite Hm3, Hm. done.
Qed.

Lemma IsFinished_ok G s :
  sim_inv G s → IsFinished s = Ok (bool_decide (queue s = []) || m_stop s).
Proof using.
  intros Hs. destruct (inv_scheduler _ _ Hs) as (q & Hq & Hqi & _). unfold IsFinished, queue.
  rewrite Hq. res_simpl. do 2 f_equal. pose proof (spec_is_empty q Hqi) as He.
  case_bool_decide; destruct (sched_IsEmpty q); naive_solver.
Qed.

Section run.
Context {U : Type} (Notify : U → Z → prog U) (UI : Z → list EventId → U → Prop).
Context (Hpolite : ∀ n G u ev, 0 ≤ n → UI n G u → ev ≠ 0 → polite D n G (Notify u ev) UI).

Lemma Run_loop_ok fuel n G u s :
  sim_inv G s → UI n G u → room n s → 0 ≤ n → m_eventsWithContext s = [] →
  m_currentTs s + (backlog s + n + 1) * D ≤ INT64_MAX → backlog s + n < Z.of_nat fuel →
  ∃ ids u' s' n' G', Run_loop Notify fuel (m_mainThreadId s) u s = Ok (ids, u', s') ∧
    sim_inv G' s' ∧ UI n' G' u' ∧ StronglySorted id_lt ids ∧
    Forall (λ id, after s (eid_ts id) (eid_uid id)) ids ∧
    (queue s' = [] ∨ m_stop s' = true) ∧ G ⊆ G'.
Proof using SchedulerRemoveSpec0 Hpolite.
  revert n G u s. induction fuel as [|fuel IH]; intros n G u s Hs HU Hroom Hn Hpe Htime Hfuel.
  { unfold backlog in Hfuel. lia. }
  pose proof (inv_delay _ _ Hs) as HD.
  cbn [Run_loop]. rewrite (IsFinished_ok G s Hs). res_simpl.
  destruct (bool_decide (queue s = []) || m_stop s) eqn:Hfin.
  { exists [], u, s, n, G. conj; try done; [constructor|].
    apply orb_true_iff in Hfin as [Hq|Hst]; [left; by apply bool_decide_eq_true in Hq|by right]. }
  apply orb_false_iff in Hfin as [Hne%bool_decide_eq_false _].
  assert (1 ≤ backlog s) as Hb1 by (unfold backlog; destruct (queue s); [done|cbn; lia]).
  destruct (ProcessOneEvent_ok Notify n G u s UI) as
    (id & u1 & s1 & n1 & G1 & -> & Hnx & Hs1 & HU1 & Hr1 & Hn1 & Hp1 & Hb & Ht & Hcu & Hm & Haft & Hle & HG);
    [done|done|done|by auto|done|done|nia|].
  res_simpl.
  destruct (IH n1 G1 u1 s1) as (ids & u' & s' & n' & G' & He & Hs' & HU' & Hsort & Hall & Hend & HG');
    [done|done|done|done|done|nia|lia|].
  rewrite Hm in He. rewrite He. res_simpl. exists (id :: ids), u', s', n', G'.
  assert (Forall (id_lt id) ids) as Hlt.
  { eapply Forall_impl; [exact Hall|]. intros i. unfold after, id_lt. rewrite Ht, Hcu. lia. }
  conj; [done|done|done|by constructor| |done|by etrans].
  constructor; [done|]. eapply Forall_impl; [exact Hlt|]. unfold after, id_lt in *. intros; lia.
Qed.
End run.

(** The statements of [Run] before its loop. *)
Lemma Run_start_ok G n s tid :
  sim_inv G s → room n s → 0 ≤ n → m_currentTs s + D ≤ INT64_MAX →
  ∃ s', ProcessEventsWithContext (set_mainThreadId tid s) = Ok s' ∧
    sim_inv G (set_stop false s') ∧ room n (set_stop false s') ∧
    m_eventsWithContext s' = [] ∧ backlog (set_stop false s') = backlog s ∧
    m_currentTs s' = m_currentTs s ∧ m_currentUid s' = m_currentUid s ∧ m_mainThreadId s' = tid.
Proof using.
  intros Hs Hroom Hn Htime.
  destruct (ProcessEventsWithContext_ok G n (set_mainThreadId tid s)) as
    (s' & He & Hs' & (Ht & Hcu & Hm) & Hr & Hp & Hb & _); [by apply sim_inv_thread|done|done|done|].
  exists s'. conj; try done. by apply sim_inv_stop.
Qed.

(** The consistency check that ends [Run]. *)
Lemma Run_check_ok G s q :
  sim_inv G s → m_events s = Some q →
  ns_assert (negb (sched_IsEmpty q) || (m_unscheduledEvents s =? 0)) = Ok tt.
Proof using.
  intros Hs Hq. apply ns_assert_ok, orb_true_iff.
  destruct (sched_IsEmpty q) eqn:He; [right|by left]. apply Z.eqb_eq.
  destruct (inv_scheduler _ _ Hs) as (q' & Hq' & Hqi & _). simplify_eq.
  apply (spec_is_empty q Hqi) in He. rewrite (inv_count _ _ Hs). unfold queue. by rewrite Hq, He.
Qed.

(** ** User code that schedules nothing *)

Fixpoint quiet {U} (p : prog U) : Prop :=
  match p with
  | Done _ => True
  | Do c k =>
      match c with
      | CallCancel _ | CallIsExpired _ | CallGetDelayLeft _ | CallNow | CallGetContext
      | CallGetEventCount => True
      | _ => False
      end ∧ ∀ a, quiet (k a)
  end.

Lemma exec_prog_quiet {U} (p : prog U) tid s :
  quiet p → ∃ u c, exec_prog tid p s = Ok (u, set_cancel c s) ∧ m_cancel s ⊆ c.
Proof using.
  revert s. induction p as [u|c k IH]; intros s Hp.
  { exists u, (m_cancel s). by destruct s. }
  destruct Hp as [Hc Hk]. destruct c; try done; cbn [exec_prog exec_call]; res_simpl;
    try by apply IH.
  unfold Cancel. case_match; [|by apply IH].
  destruct (IH AUnit (EventImpl_Cancel (m_eventImpl id) s)) as (u & c & He & Hsub); [done|].
  exists u, c. split; [exact He|]. intros x Hx. apply Hsub. cbn. apply elem_of_union. by right.
Qed.

Lemma ProcessOneEvent_quiet {U} (Notify : U → Z → prog U) tid G u s :
  sim_inv G s → queue s ≠ [] → m_eventsWithContext s = [] → (∀ ev, quiet (Notify u ev)) →
  ∃ id u' s', ProcessOneEvent Notify tid u s = Ok (id, u', s') ∧
    queue s ≡ₚ event_of id :: queue s' ∧ sim_inv G s' ∧ m_eventsWithContext s' = [] ∧
    m_stop s' = m_stop s ∧ m_eventCount s' = u64 (m_eventCount s + 1) ∧
    m_currentTs s' = eid_ts id ∧ m_currentUid s' = eid_uid id ∧ after s (eid_ts id) (eid_uid id).
Proof using.
  intros Hs Hne Hpe Hquiet.
  destruct (inv_scheduler _ _ Hs) as (q & Hq & Hqi & Hlow).
  assert (queue s = sched_events q) as Hqs by (unfold queue; by rewrite Hq).
  destruct (spec_remove_next q Hqi) as (next & q' & Hr & Hnx & Hqi' & Hp & Hlow'); [congruence|].
  pose proof (take_next_ok G s next q q' Hs Hq Hqi' Hnx Hp Hlow') as Hs1.
  pose proof (inv_pending _ _ Hs) as Hall. rewrite Hqs, Forall_forall in Hall.
  destruct (Hall next (proj1 Hnx)) as (Haft & Hle & Huid & Himpl).
  pose proof (Permutation_length Hp) as Hlen. cbn in Hlen.
  pose proof (inv_count _ _ Hs) as Hc. pose proof (inv_count_uid _ _ Hs) as Hcu.
  pose proof (inv_uid _ _ Hs) as Hu. rewrite Hqs in Hc.
  unfold ProcessOneEvent. rewrite Hq. res_simpl. rewrite Hr. res_simpl.
  rewrite (proj2 (Z.leb_le _ _)) by (cbn; unfold after in Haft; lia). res_simpl.
  rewrite int_add_ok by (cbn; lia). res_simpl. unfold EventImpl_Invoke.
  rewrite (proj2 (Z.eqb_neq _ _) Himpl). rewrite <- Z.sub_opp_r.
  change (- - (1)) with 1. cbn [m_eventCount set_events m_unscheduledEvents].
  set (s1 := set_current _ _ _ _) in *.
  assert (∃ u' c, (if negb (EventImpl_IsCancelled (impl next) s1)
      then exec_prog tid (Notify u (impl next)) s1 else Ok (u, s1)) = Ok (u', set_cancel c s1) ∧
    m_cancel s1 ⊆ c) as (u' & c & He & Hsub).
  { destruct (EventImpl_IsCancelled _ _); cbn [negb]; [by exists u, (m_cancel s1)|].
    by apply exec_prog_quiet. }
  assert (sim_inv G (set_cancel c s1)) as Hs2.
  { destruct Hs1. split; try done. eapply Forall_impl; [done|]. intros i.
    unfold id_ok. intros [?|[?|[?|?]]]; [by left|by right; left| |by right; right; right].
    right. right. left. by apply Hsub. }
  rewrite He. res_simpl. unfold ProcessEventsWithContext.
  rewrite (proj2 (inv_flag _ _ Hs2)) by done. res_simpl. eexists _, _, _. split; [done|].
  assert (event_of (mkEventId (impl next) (ts next) (m_context (key next)) (uid next)) = next) as Hev
    by (destruct next as [? []]; done).
  rewrite Hev, Hqs. by conj.
Qed.

Lemma Run_loop_quiet {U} (Notify : U → Z → prog U) tid G fuel u s :
  (∀ u ev, quiet (Notify u ev)) →
  sim_inv G s → m_eventsWithContext s = [] → m_stop s = false → (length (queue s) < fuel)%nat →
  ∃ ids u' s', Run_loop Notify fuel tid u s = Ok (ids, u', s') ∧
    event_of <$> ids ≡ₚ queue s ∧ StronglySorted id_lt ids ∧
    Forall (λ id, after s (eid_ts id) (eid_uid id)) ids ∧
    sim_inv G s' ∧ queue s' = [] ∧
    u64 (m_eventCount s') = u64 (m_eventCount s + Z.of_nat (length ids)).
Proof using.
  intros Hquiet. revert u s. induction fuel as [|fuel IH]; intros u s Hs Hpe Hst Hfuel; [lia|].
  cbn [Run_loop]. rewrite (IsFinished_ok G s Hs), Hst, orb_false_r. res_simpl. case_bool_decide as Hq.
  { exists [], u, s. rewrite Hq, Z.add_0_r. conj; try done; constructor. }
  destruct (ProcessOneEvent_quiet Notify tid G u s) as
    (id & u1 & s1 & -> & Hp & Hs1 & Hp1 & Hst1 & Hec & Ht & Hcu & Haft); [done|done|done|auto|].
  pose proof (Permutation_length Hp) as Hlen. cbn in Hlen. res_simpl.
  destruct (IH u1 s1) as (ids & u' & s' & -> & Hperm & Hsort & Hall & Hs' & Hq' & Hcnt);
    [done|done|congruence|lia|].
  res_simpl. exists (id :: ids), u', s'.
  assert (Forall (id_lt id) ids) as Hlt.
  { eapply Forall_impl; [exact Hall|]. intros i. unfold after, id_lt. rewrite Ht, Hcu. lia. }
  conj; [done| |by constructor| |done|done|].
  - rewrite fmap_cons, Hperm. by rewrite Hp.
  - constructor; [done|]. eapply Forall_impl; [exact Hlt|]. unfold after, id_lt in *. intros; lia.
  - rewrite Hcnt, Hec, wrap_add_l by lia. cbn [length]. f_equal. lia.
Qed.

(** ** Replacing the scheduler *)

Lemma drain_insert_ok {S'} `{!Scheduler S'} `{!SchedulerSpec S'} fuel (q : S) (q' : S') :
  sched_inv q → sched_inv q' → sched_low q' ≤ 0 →
  queue_ok (sched_events q ++ sched_events q') →
  Z.of_nat (length (sched_events q ++ sched_events q')) < UINT32_MAX →
  (length (sched_events q) < fuel)%nat →
  ∃ r r', drain sched_Insert fuel q q' = Ok (r, r') ∧ sched_inv r' ∧ sched_low r' ≤ 0 ∧
    sched_events r' ≡ₚ sched_events q ++ sched_events q'.
Proof using SchedulerSpec0.
  revert q q'. induction fuel as [|fuel IH]; intros q q' Hq Hq' Hlow Hok Hlen Hfuel; [lia|].
  cbn [drain]. pose proof (spec_is_empty q Hq) as He.
  destruct (sched_IsEmpty q).
  { exists q, q'. by rewrite (proj1 He eq_refl). }
  destruct (spec_remove_next q Hq) as (next & q1 & -> & _ & Hq1 & Hp & _).
  { intros E. by apply He in E. }
  res_simpl. assert (sched_events q ++ sched_events q' ≡ₚ
    next :: sched_events q1 ++ sched_events q') as Hp2 by (by rewrite Hp).
  rewrite Hp2 in Hok, Hlen. rewrite Hp in Hfuel. cbn in Hlen, Hfuel.
  rewrite length_app in Hlen. apply queue_ok_cons in Hok as (Hn & Hfresh & Hok).
  unfold uids in Hfresh. rewrite fmap_app, not_elem_of_app in Hfresh. destruct Hfresh as [Hf1 Hf2].
  destruct (spec_insert q' next Hq' Hn) as (q2 & -> & Hq2 & Hp' & Hlow2); [|done|lia|].
  { destruct Hn as [[[? _] _] _]. lia. }
  res_simpl.
  assert (sched_events q1 ++ sched_events q2 ≡ₚ next :: sched_events q1 ++ sched_events q') as Hp3.
  { rewrite Hp'. by rewrite <- Permutation_middle. }
  destruct (IH q1 q2) as (r & r' & -> & Hr & Hlr & Hpr); [done|done|lia| | |lia|].
  - rewrite Hp3. apply queue_ok_cons. conj; [done| |done]. unfold uids.
    rewrite fmap_app, not_elem_of_app. done.
  - rewrite Hp3. cbn [length]. rewrite length_app. lia.
  - exists r, r'. conj; [done|done|done|]. by rewrite Hpr, Hp3, Hp2.
Qed.
End correctness.

(** The state after [SetScheduler] on a new simulator. *)
Definition initial {S} `{!Scheduler S} (tid : Z) : t S :=
  set_events (Some sched_new) (new tid).

Lemma initial_ok {S} `{!Scheduler S, !SchedulerSpec S} D tid :
  0 ≤ D → sim_inv D [] (initial (S:=S) tid).
Proof.
  intros HD. destruct (spec_new (S:=S)) as (Hi & He & Hl).
  split; unfold queue; cbn; try done; try rewrite He; try done; try (by constructor).
  by exists sched_new.
Qed.

(** ** A concrete simulation *)

(** The code of event 1 schedules event 2, that of event 2 schedules event 3 in the same
    instant, as long as the user's counter allows. *)
Definition demo_Notify (u : nat) (ev : Z) : prog nat :=
  match u with
  | O => Done O
  | Datatypes.S u' =>
      if ev =? 1 then Do (CallSchedule 5 2) (λ _, Done u')
      else if ev =? 2 then Do (CallScheduleNow 3) (λ _, Done u')
      else Done u
  end.

Definition demo_UI (n : Z) (_ : list EventId) (u : nat) : Prop := n = Z.of_nat u.

Lemma demo_polite n G u ev :
  0 ≤ n → demo_UI n G u → ev ≠ 0 → polite 100 n G (demo_Notify u ev) demo_UI.
Proof.
  unfold demo_UI. intros Hn -> _. unfold demo_Notify. destruct u as [|u]; [done|].
  destruct (ev =? 1); [|destruct (ev =? 2)]; cbn; try done; conj; try lia; intros; lia.
Qed.

(** Another thread has handed over event 1, the main thread has scheduled event 7. *)
Definition demo_id : EventId := mkEventId 7 10 NO_CONTEXT 4.
Definition demo_queued : t MapScheduler.t :=
  match Schedule 1 10 7 (initial 1) with Ok (_, s) => s | Err _ => initial 1 end.
Definition demo_state : t MapScheduler.t := set_pending [mkEwc 0 3 1] false demo_queued.

Lemma demo_queued_ok : sim_inv 100 [demo_id] demo_queued ∧ length (queue demo_queued) = 1%nat.
Proof.
  split; [|by vm_compute].
  destruct (Schedule_ok 100 [] (initial (S:=MapScheduler.t) 1) 10 7) as (s & Hs & (Hi & _) & _);
    [by apply initial_ok|done|done|done|done|].
  unfold demo_queued. change 1 with (m_mainThreadId (initial (S:=MapScheduler.t) 1)) at 1.
  by rewrite Hs.
Qed.

Lemma demo_state_ok : sim_inv 100 [demo_id] demo_state ∧ length (queue demo_state) = 1%nat.
Proof.
  destruct demo_queued_ok as ([] & Hlen). split; [|exact Hlen].
  split; try done. apply Forall_singleton. unfold ewc_ok, fits. cbn. lia.
Qed.

(** ** The properties *)

Section properties.
Context {S : Type} `{!Scheduler S} `{!SchedulerSpec S} `{!SchedulerRemoveSpec S}.

(** C1 [Run] is correct for user code that makes a bounded number of scheduling calls,
    from the events themselves and from other threads: it terminates (enough fuel is one
    more than the events in the queue, handed over or still to be scheduled), no
    assertion fails and no behaviour is undefined, events are processed strictly in the
    order of their keys, none before the current time, and at the end the queue is empty
    or [Stop] was called, with [m_unscheduledEvents] the number of events left. *)
Theorem Run_correct {U} (Notify : U → Z → prog U) (UI : Z → list EventId → U → Prop)
    D n G u (s : t S) fuel tid :
  sim_inv D G s → UI n G u → 0 ≤ n →
  (∀ n G u ev, 0 ≤ n → UI n G u → ev ≠ 0 → polite D n G (Notify u ev) UI) →
  room n s → m_currentTs s + (backlog s + n + 1) * D ≤ INT64_MAX →
  backlog s + n < Z.of_nat fuel →
  ∃ ids u' s', Run Notify fuel tid u s = Ok (ids, u', s') ∧
    StronglySorted id_lt ids ∧ Forall (λ id, after s (eid_ts id) (eid_uid id)) ids ∧
    (queue s' = [] ∨ m_stop s' = true) ∧
    m_unscheduledEvents s' = Z.of_nat (length (queue s')) ∧
    ∃ n' G', sim_inv D G' s' ∧ UI n' G' u'.
Proof using SchedulerRemoveSpec0.
  intros Hs HU Hn Hpol Hroom Htime Hfuel. pose proof (inv_delay _ _ _ Hs) as HD.
  destruct (Run_start_ok D G n s tid) as (s1 & He & Hs1 & Hr1 & Hp1 & Hb1 & Ht1 & Hcu1 & Hm1);
    [done|done|done|unfold backlog in Htime; nia|].
  destruct (Run_loop_ok D Notify UI Hpol fuel n G u (set_stop false s1)) as
    (ids & u' & s' & n' & G' & Hl & Hs' & HU' & Hsort & Hall & Hend & _);
    [done|done|done|done|done|cbn; by rewrite Hb1, Ht1|by rewrite Hb1|].
  destruct (inv_scheduler _ _ _ Hs') as (q & Hq & _). cbn in Hl. rewrite Hm1 in Hl.
  unfold Run. rewrite He. res_simpl. rewrite Hl. res_simpl. rewrite Hq. res_simpl.
  rewrite (Run_check_ok D G' s' q Hs' Hq). exists ids, u', s'.
  conj; [done|done| |done|apply (inv_count _ _ _ Hs')|by exists n', G'].
  eapply Forall_impl; [exact Hall|]. intros id. unfold after. cbn. by rewrite Ht1, Hcu1.
Qed.

(** When the code of the events schedules, removes and stops nothing, [Run] processes
    exactly the events of the queue, each once, in the order of their keys, and leaves
    the queue empty. *)
Theorem Run_drains_queue {U} (Notify : U → Z → prog U) D G u (s : t S) fuel tid :
  (∀ u ev, quiet (Notify u ev)) → sim_inv D G s → m_eventsWithContext s = [] →
  (length (queue s) < fuel)%nat →
  ∃ ids u' s', Run Notify fuel tid u s = Ok (ids, u', s') ∧
    event_of <$> ids ≡ₚ queue s ∧ StronglySorted id_lt ids ∧ queue s' = [] ∧
    m_unscheduledEvents s' = 0 ∧
    u64 (m_eventCount s') = u64 (m_eventCount s + Z.of_nat (length ids)).
Proof using SchedulerSpec0.
  intros Hquiet Hs Hpe Hfuel.
  destruct (Run_loop_quiet D Notify tid G fuel u (set_stop false (set_mainThreadId tid s))) as
    (ids & u' & s' & Hl & Hperm & Hsort & _ & Hs' & Hq' & Hcnt);
    [done|by apply sim_inv_stop, sim_inv_thread|done|done|done|].
  destruct (inv_scheduler _ _ _ Hs') as (q & Hq & _).
  assert (ProcessEventsWithContext (set_mainThreadId tid s) = Ok (set_mainThreadId tid s)) as He.
  { unfold ProcessEventsWithContext. cbn. by rewrite (proj2 (inv_flag _ _ _ Hs) Hpe). }
  unfold Run. rewrite He. res_simpl. rewrite Hl. res_simpl. rewrite Hq. res_simpl.
  rewrite (Run_check_ok D G s' q Hs' Hq). exists ids, u', s'.
  conj; [done|done|done|done| |done]. by rewrite (inv_count _ _ _ Hs'), Hq'.
Qed.

(** C37 An identifier the simulator returned, not of a destroy event, is unexpired exactly
    while its event is in the queue and not cancelled; the delay left is then the time
    from now to the event, and 0 otherwise. *)
Theorem IsExpired_iff_not_pending D G (s : t S) id :
  sim_inv D G s → id ∈ G → eid_uid id ≠ UID_value DESTROY → m_currentTs s + D ≤ INT64_MAX →
  (IsExpired id s = false ↔ event_of id ∈ queue s ∧ m_eventImpl id ∉ m_cancel s) ∧
  GetDelayLeft id s = (if IsExpired id s then 0 else eid_ts id - m_currentTs s).
Proof using.
  intros Hs HG Hd Htime. pose proof (IsExpired_spec D G s id Hs HG Hd) as Hspec.
  split; [done|]. unfold GetDelayLeft. destruct (IsExpired id s); [done|].
  destruct (proj1 Hspec eq_refl) as [Hq _].
  pose proof (inv_pending _ _ _ Hs) as Hp. rewrite Forall_forall in Hp.
  destruct (Hp _ Hq) as (Ha & Hle & _). unfold after in Ha. cbn in Ha, Hle.
  destruct (inv_current _ _ _ Hs). rewrite wrap_id by zlia. unfold sint.
  rewrite wrap_id by zlia. case_match; [done|]. unfold INT64_MAX in Htime.
  apply Z.ltb_ge in H1. lia.
Qed.

(** C38 [Remove] of an unexpired identifier takes exactly its event out of the queue,
    counts it out and leaves the identifier expired; of an expired one it does nothing. *)
Theorem Remove_correct D G (s : t S) id :
  sim_inv D G s → id ∈ G → eid_uid id ≠ UID_value DESTROY →
  ∃ s', Remove id s = Ok s' ∧ sim_inv D G s' ∧ IsExpired id s' = true ∧
    if IsExpired id s then queue s' = queue s
    else queue s ≡ₚ event_of id :: queue s' ∧
      m_unscheduledEvents s' = m_unscheduledEvents s - 1.
Proof using SchedulerRemoveSpec0.
  intros Hs HG Hd. destruct (Remove_call_ok D G s id Hs HG) as (s' & Hr & Hs' & Hnow & Hu & Hp & Hq).
  rewrite (proj2 (Z.eqb_neq (eid_uid id) 2) Hd) in Hq. cbn [orb] in Hq.
  exists s'. conj; [done|done| |].
  - destruct (IsExpired id s) eqn:Hx.
    + unfold Remove in Hr. rewrite (proj2 (Z.eqb_neq _ _) Hd), Hx in Hr. by simplify_eq.
    + apply not_false_iff_true. rewrite (IsExpired_spec D G s' id Hs' HG Hd). tauto.
  - destruct (IsExpired id s); [done|]. destruct Hq as [Hq _]. split; [done|].
    rewrite (inv_count _ _ _ Hs), (inv_count _ _ _ Hs'), Hq. cbn. lia.
Qed.
End properties.

(** [SetScheduler] moves every event to a queue of another kind: the new queue holds
    the same events, and the invariant carries over. *)
Theorem SetScheduler_correct {S S'} `{!Scheduler S, !SchedulerSpec S}
    `{!Scheduler S', !SchedulerSpec S'} D G (s : t S) fuel :
  sim_inv D G s → (length (queue s) < fuel)%nat →
  ∃ s' : t S', SetScheduler fuel s = Ok s' ∧ queue s' ≡ₚ queue s ∧ sim_inv D G s'.
Proof.
  intros Hs Hfuel. destruct (inv_scheduler _ _ _ Hs) as (q & Hq & Hqi & _).
  destruct (spec_new (S:=S')) as (Hni & Hne & Hnl).
  assert (queue s = sched_events q) as Hqs by (unfold queue; by rewrite Hq).
  pose proof (inv_count _ _ _ Hs) as Hc. pose proof (inv_count_uid _ _ _ Hs) as Hcu.
  pose proof (inv_uid _ _ _ Hs) as Hu. rewrite Hqs in Hc, Hfuel.
  destruct (drain_insert_ok fuel q (sched_new (S:=S'))) as (r & r' & He & Hr & Hlr & Hp);
    [done|done|done|rewrite Hne, app_nil_r; by apply spec_ok|rewrite Hne, app_nil_r; zlia|done|].
  rewrite Hne, app_nil_r in Hp.
  unfold SetScheduler. rewrite Hq. res_simpl. rewrite He. res_simpl.
  eexists. split; [done|].
  destruct Hs. rewrite Hqs in *. split; [by cbn|].
  split; cbn; try done.
  - exists r'. conj; [done|done|cbn; lia].
  - unfold queue. cbn. rewrite Hp. eapply Forall_impl; [done|]. done.
  - unfold queue. cbn. by rewrite Hp.
  - eapply Forall_impl; [exact inv_ids0|]. intros i. unfold id_ok, queue, after. cbn.
    rewrite Hq, Hp. tauto.
Qed.

Lemma Run_correct_witness :
  ∃ ids u' s', Run demo_Notify 10 1 2%nat demo_state = Ok (ids, u', s') ∧
    StronglySorted id_lt ids ∧ (queue s' = [] ∨ m_stop s' = true).
Proof.
  destruct demo_state_ok as (Hs & Hlen).
  destruct (Run_correct demo_Notify demo_UI 100 2 [demo_id] 2%nat demo_state 10 1)
    as (ids & u' & s' & Hr & Hsort & _ & Hend & _).
  - exact Hs.
  - reflexivity.
  - lia.
  - exact demo_polite.
  - vm_compute. reflexivity.
  - vm_compute. discriminate.
  - vm_compute. reflexivity.
  - exists ids, u', s'. split; [exact Hr|]. split; [exact Hsort|exact Hend].
Defined.

Lemma Run_drains_queue_witness :
  ∃ ids u' s', Run (λ u _, Done u) 5 1 tt demo_queued = Ok (ids, u', s') ∧
    event_of <$> ids ≡ₚ queue demo_queued ∧ queue s' = [].
Proof.
  destruct (Run_drains_queue (λ u _, Done u) 100 [demo_id] tt demo_queued 5 1)
    as (ids & u' & s' & Hr & Hp & _ & Hq & _).
  - intros u ev. exact I.
  - apply demo_queued_ok.
  - reflexivity.
  - vm_compute. lia.
  - exists ids, u', s'. split; [exact Hr|]. split; [exact Hp|exact Hq].
Defined.

Lemma IsExpired_iff_not_pending_witness :
  (IsExpired demo_id demo_state = false ↔
    event_of demo_id ∈ queue demo_state ∧ m_eventImpl demo_id ∉ m_cancel demo_state) ∧
  GetDelayLeft demo_id demo_state = 10.
Proof.
  destruct demo_state_ok as (Hs & _).
  destruct (IsExpired_iff_not_pending 100 [demo_id] demo_state demo_id) as [H1 H2].
  - exact Hs.
  - apply list_elem_of_singleton. reflexivity.
  - discriminate.
  - vm_compute. discriminate.
  - split; [exact H1|]. rewrite H2. vm_compute. reflexivity.
Defined.

Lemma Remove_correct_witness :
  ∃ s', Remove demo_id demo_state = Ok s' ∧ IsExpired demo_id s' = true ∧
    m_unscheduledEvents s' = 0.
Proof.
  destruct demo_state_ok as (Hs & _).
  destruct (Remove_correct 100 [demo_id] demo_state demo_id) as (s' & Hr & _ & Hx & Hq).
  - exact Hs.
  - apply list_elem_of_singleton. reflexivity.
  - discriminate.
  - exists s'. split; [exact Hr|]. split; [exact Hx|].
    assert (IsExpired demo_id demo_state = false) as He by (vm_compute; reflexivity).
    rewrite He in Hq. destruct Hq as [_ ->]. vm_compute. reflexivity.
Defined.

Lemma SetScheduler_correct_witness :
  ∃ s' : t ListScheduler.t, SetScheduler 2 demo_state = Ok s' ∧
    queue s' ≡ₚ queue demo_state ∧ sim_inv 100 [demo_id] s'.
Proof.
  destruct demo_state_ok as (Hs & Hlen).
  apply (SetScheduler_correct 100 [demo_id] demo_state 2).
  - exact Hs.
  - rewrite Hlen. lia.
Defined.
