(* ===== verification/Buffer.v ===== *)
(** * Packet buffers (src/src/network/model/buffer.cc, buffer.h)

    A [Buffer] is a window on a reference-counted block of bytes with a virtual area of
    zeroes inside it.  The store of blocks is explicit ([heap]), so that copies of a
    buffer share their block as in the code; the free list, the dirty area and the
    allocation heuristics are modelled.  Offsets are [uint32_t] values with their
    wrap-around.  The bytes of a new block are indeterminate: they are the parameter
    [fill].  An access outside a block is [Err Undefined]. *)

From S2P Require Import Prelude.
Local Open Scope Z_scope.

(** ** Pieces of a byte array *)

(** [n] bytes from offset [a]. *)
Definition slice {A} (a n : Z) (l : list A) : list A := take (Z.to_nat n) (drop (Z.to_nat a) l).

(** The array with [bs] copied to offset [a]. *)
Definition splice {A} (a : Z) (bs l : list A) : list A :=
  take (Z.to_nat a) l ++ bs ++ drop (Z.to_nat a + length bs) l.

Definition zeros (n : Z) : list Z := replicate (Z.to_nat n) 0.

(** ** The store *)

(** [buffer.h:662-688] Buffer::Data *)
Record Data := mkData {
  m_count : Z;
  m_size : Z;
  m_dirtyStart : Z;
  m_dirtyEnd : Z;
  m_bytes : list Z    (* m_data, [m_size] bytes *)
}.

(** [buffer.cc:76-81] IS_INITIALIZED

    [g_freeList]; the head of the list is its back. *)
Inductive FreeList := UNINITIALIZED | INITIALIZED (l : list Z) | DESTROYED.

Record heap := mkHeap {
  blocks : gmap Z Data;         (* the [Buffer::Data] objects, by address *)
  next_address : Z;
  g_maxSize : Z;
  g_freeList : FreeList;
  g_recommendedStart : Z
}.

Definition set_block (a : Z) (d : Data) (h : heap) : heap :=
  mkHeap (<[a := d]> (blocks h)) (next_address h) (g_maxSize h) (g_freeList h) (g_recommendedStart h).
Definition set_count (n : Z) (d : Data) : Data :=
  mkData n (m_size d) (m_dirtyStart d) (m_dirtyEnd d) (m_bytes d).
Definition set_dirty (s e : Z) (d : Data) : Data :=
  mkData (m_count d) (m_size d) s e (m_bytes d).
Definition set_bytes (l : list Z) (d : Data) : Data :=
  mkData (m_count d) (m_size d) (m_dirtyStart d) (m_dirtyEnd d) l.
Definition set_freeList (g : Z) (l : FreeList) (h : heap) : heap :=
  mkHeap (blocks h) (next_address h) g l (g_recommendedStart h).
Definition set_recommendedStart (z : Z) (h : heap) : heap :=
  mkHeap (blocks h) (next_address h) (g_maxSize h) (g_freeList h) z.

(** [memcpy] from and to a block; copying nothing accesses nothing. *)
Definition mem_read (a off n : Z) (h : heap) : res (list Z) :=
  d ← deref (blocks h !! a);
  if n =? 0 then Ok []
  else if (0 <=? off) && (0 <=? n) && (off + n <=? m_size d) then Ok (slice off n (m_bytes d))
  else Err Undefined.

Definition mem_write (a off : Z) (bs : list Z) (h : heap) : res heap :=
  d ← deref (blocks h !! a);
  if Z.of_nat (length bs) =? 0 then Ok h
  else if (0 <=? off) && (off + Z.of_nat (length bs) <=? m_size d)
  then Ok (set_block a (set_bytes (splice off bs (m_bytes d)) d) h)
  else Err Undefined.

(** ** Buffers *)

(** [buffer.h:754-793] Buffer *)
Record Buffer := mkBuffer {
  m_data : Z;                 (* the address of a block *)
  m_maxZeroAreaStart : Z;
  m_zeroAreaStart : Z;
  m_zeroAreaEnd : Z;
  m_start : Z;
  m_end : Z
}.

#[export] Instance Buffer_eq_dec : EqDecision Buffer.
Proof. solve_decision. Defined.

Section buffer.
(** What [new uint8_t[size]] leaves at an offset of the block at an address. *)
Context (fill : Z → Z → Z).

(** [buffer.cc:159] Buffer::ALLOC_OVER_PROVISION *)
Definition ALLOC_OVER_PROVISION : Z := 100.

(** [buffer.cc:165-181] Buffer::Allocate *)
Definition Allocate (reqSize : Z) (h : heap) : res (Z * heap) :=
  let reqSize := if reqSize =? 0 then 1 else reqSize in
  ns_assert (1 <=? reqSize) ≫= λ _,
  let reqSize := u32 (reqSize + ALLOC_OVER_PROVISION) in
  let a := next_address h in
  let data := mkData 1 reqSize 0 0 (fill a <$> seqZ 0 reqSize) in
  Ok (a, mkHeap (<[a := data]> (blocks h)) (a + 1) (g_maxSize h) (g_freeList h)
           (g_recommendedStart h)).

(** [buffer.cc:183-190] Buffer::Deallocate *)
Definition Deallocate (a : Z) (h : heap) : res heap :=
  d ← deref (blocks h !! a);
  ns_assert (m_count d =? 0) ≫= λ _,
  Ok (mkHeap (delete a (blocks h)) (next_address h) (g_maxSize h) (g_freeList h)
        (g_recommendedStart h)).

(** [buffer.cc:100-117] Buffer::Recycle *)
Definition Recycle (a : Z) (h : heap) : res heap :=
  d ← deref (blocks h !! a);
  ns_assert (m_count d =? 0) ≫= λ _,
  ns_assert (match g_freeList h with UNINITIALIZED => false | _ => true end) ≫= λ _,
  let h := set_freeList (Z.max (g_maxSize h) (m_size d)) (g_freeList h) h in
  match g_freeList h with
  | INITIALIZED l =>
      if (m_size d <? g_maxSize h) || (1000 <? Z.of_nat (length l)) then Deallocate a h
      else Ok (set_freeList (g_maxSize h) (INITIALIZED (a :: l)) h)
  | _ => Deallocate a h
  end.

(** [buffer.cc:129-138] Buffer::Create

    The loop over the free list: a block that is large enough, or none. *)
Fixpoint Create_loop (dataSize : Z) (l : list Z) (h : heap) : res (option Z * heap) :=
  match l with
  | [] => Ok (None, set_freeList (g_maxSize h) (INITIALIZED []) h)
  | a :: l =>
      d ← deref (blocks h !! a);
      if dataSize <=? m_size d then
        Ok (Some a, set_block a (set_count 1 d) (set_freeList (g_maxSize h) (INITIALIZED l) h))
      else
        h ← Deallocate a h;
        Create_loop dataSize l h
  end.

(** [buffer.cc:119-145] Buffer::Create *)
Definition Create (dataSize : Z) (h : heap) : res (Z * heap) :=
  '(found, h) ← (match g_freeList h with
                 | UNINITIALIZED => Ok (None, set_freeList (g_maxSize h) (INITIALIZED []) h)
                 | INITIALIZED l => Create_loop dataSize l h
                 | DESTROYED => Ok (None, h)
                 end);
  match found with
  | Some a => Ok (a, h)
  | None =>
      '(a, h) ← Allocate dataSize h;
      d ← deref (blocks h !! a);
      ns_assert (m_count d =? 1) ≫= λ _, Ok (a, h)
  end.

(** [m_data->m_count--; if (m_data->m_count == 0) Recycle(m_data);] *)
(** [buffer.cc:292-296] Buffer::~Buffer *)
Definition release (a : Z) (h : heap) : res heap :=
  d ← deref (blocks h !! a);
  let h := set_block a (set_count (u32 (m_count d - 1)) d) h in
  if u32 (m_count d - 1) =? 0 then Recycle a h else Ok h.

Definition acquire (a : Z) (h : heap) : res heap :=
  d ← deref (blocks h !! a); Ok (set_block a (set_count (u32 (m_count d + 1)) d) h).

Definition update_dirty (b : Buffer) (s e : Z) (h : heap) : res heap :=
  d ← deref (blocks h !! m_data b); Ok (set_block (m_data b) (set_dirty s e d) h).

(** [buffer.cc] Buffer::Initialize *)
Definition Initialize (zeroSize : Z) (h : heap) : res (Buffer * heap) :=
  '(a, h) ← Create 0 h;
  d ← deref (blocks h !! a);
  let start := Z.min (m_size d) (g_recommendedStart h) in
  let b := mkBuffer a start start (u32 (start + zeroSize)) start (u32 (start + zeroSize)) in
  h ← update_dirty b (m_start b) (m_end b) h;
  Ok (b, h).

(** [buffer.h:1055-1065] Buffer::Buffer

    The copy constructor. *)
Definition copy (o : Buffer) (h : heap) : res (Buffer * heap) :=
  h ← acquire (m_data o) h;
  Ok (mkBuffer (m_data o) (m_zeroAreaStart o) (m_zeroAreaStart o) (m_zeroAreaEnd o)
        (m_start o) (m_end o), h).

(** [buffer.cc] Buffer::~Buffer *)
Definition destroy (b : Buffer) (h : heap) : res heap :=
  release (m_data b) (set_recommendedStart (Z.max (g_recommendedStart h) (m_maxZeroAreaStart b)) h).

(** [buffer.cc:262-285] Buffer::operator= *)
Definition assign (b o : Buffer) (h : heap) : res (Buffer * heap) :=
  h ← (if m_data b =? m_data o then Ok h
       else h ← release (m_data b) h; acquire (m_data o) h);
  let h := set_recommendedStart (Z.max (g_recommendedStart h) (m_maxZeroAreaStart b)) h in
  Ok (mkBuffer (m_data o) (m_maxZeroAreaStart o) (m_zeroAreaStart o) (m_zeroAreaEnd o)
        (m_start o) (m_end o), h).

(** [buffer.h:1067-1071] Buffer::GetSize *)
Definition GetSize (b : Buffer) : Z := u32 (m_end b - m_start b).

(** [buffer.cc] Buffer::GetInternalSize *)
Definition GetInternalSize (b : Buffer) : Z :=
  u32 (m_zeroAreaStart b - m_start b + m_end b - m_zeroAreaEnd b).

(** [buffer.cc] Buffer::GetInternalEnd *)
Definition GetInternalEnd (b : Buffer) : Z :=
  u32 (m_end b - (m_zeroAreaEnd b - m_zeroAreaStart b)).

(** [m_maxZeroAreaStart = std::max(m_maxZeroAreaStart, m_zeroAreaStart)], the last
    statement of every operation that moves the zero area. *)
Definition update_max (b : Buffer) : Buffer :=
  mkBuffer (m_data b) (Z.max (m_maxZeroAreaStart b) (m_zeroAreaStart b)) (m_zeroAreaStart b)
    (m_zeroAreaEnd b) (m_start b) (m_end b).

(** [buffer.cc:313-357] Buffer::AddAtStart *)
Definition AddAtStart (start : Z) (b : Buffer) (h : heap) : res (Buffer * heap) :=
  d ← deref (blocks h !! m_data b);
  let isDirty := (1 <? m_count d) && (m_dirtyStart d <? m_start b) in
  '(b, h) ← (if (start <=? m_start b) && negb isDirty then
      ns_assert ((m_count d =? 1) || (m_start b =? m_dirtyStart d)) ≫= λ _,
      let b := mkBuffer (m_data b) (m_maxZeroAreaStart b) (m_zeroAreaStart b) (m_zeroAreaEnd b)
                 (u32 (m_start b - start)) (m_end b) in
      h ← update_dirty b (m_start b) (m_dirtyEnd d) h;
      Ok (b, h)
    else
      let newSize := u32 (GetInternalSize b + start) in
      '(newData, h) ← Create newSize h;
      bytes ← mem_read (m_data b) (m_start b) (GetInternalSize b) h;
      h ← mem_write newData start bytes h;
      h ← release (m_data b) h;
      let delta := sint 32 (start - m_start b) in
      let b := mkBuffer newData (m_maxZeroAreaStart b) (u32 (m_zeroAreaStart b + delta))
                 (u32 (m_zeroAreaEnd b + delta)) (u32 (u32 (m_start b + delta) - start))
                 (u32 (m_end b + delta)) in
      h ← update_dirty b (m_start b) (m_end b) h;
      Ok (b, h));
  Ok (update_max b, h).

(** [buffer.cc:359-403] Buffer::AddAtEnd *)
Definition AddAtEnd (end_ : Z) (b : Buffer) (h : heap) : res (Buffer * heap) :=
  d ← deref (blocks h !! m_data b);
  let isDirty := (1 <? m_count d) && (m_end b <? m_dirtyEnd d) in
  '(b, h) ← (if (u32 (GetInternalEnd b + end_) <=? m_size d) && negb isDirty then
      ns_assert ((m_count d =? 1) || (m_end b =? m_dirtyEnd d)) ≫= λ _,
      let b := mkBuffer (m_data b) (m_maxZeroAreaStart b) (m_zeroAreaStart b) (m_zeroAreaEnd b)
                 (m_start b) (u32 (m_end b + end_)) in
      h ← update_dirty b (m_dirtyStart d) (m_end b) h;
      Ok (b, h)
    else
      let newSize := u32 (GetInternalSize b + end_) in
      '(newData, h) ← Create newSize h;
      bytes ← mem_read (m_data b) (m_start b) (GetInternalSize b) h;
      h ← mem_write newData 0 bytes h;
      h ← release (m_data b) h;
      let delta := sint 32 (- m_start b) in
      let b := mkBuffer newData (m_maxZeroAreaStart b) (u32 (m_zeroAreaStart b + delta))
                 (u32 (m_zeroAreaEnd b + delta)) (u32 (m_start b + delta))
                 (u32 (u32 (m_end b + delta) + end_)) in
      h ← update_dirty b (m_start b) (m_end b) h;
      Ok (b, h));
  Ok (update_max b, h).

(** [buffer.cc:446-490] Buffer::RemoveAtStart *)
Definition RemoveAtStart (start : Z) (b : Buffer) : res Buffer :=
  let newStart := u32 (m_start b + start) in
  b ← (if newStart <=? m_zeroAreaStart b then
         Ok (mkBuffer (m_data b) (m_maxZeroAreaStart b) (m_zeroAreaStart b) (m_zeroAreaEnd b)
               newStart (m_end b))
       else if newStart <=? m_zeroAreaEnd b then
         let delta := u32 (newStart - m_zeroAreaStart b) in
         Ok (mkBuffer (m_data b) (m_maxZeroAreaStart b) (m_zeroAreaStart b)
               (u32 (m_zeroAreaEnd b - delta)) (m_zeroAreaStart b) (u32 (m_end b - delta)))
       else if newStart <=? m_end b then
         ns_assert (start <=? m_end b) ≫= λ _,
         let zeroSize := u32 (m_zeroAreaEnd b - m_zeroAreaStart b) in
         let st := u32 (newStart - zeroSize) in
         Ok (mkBuffer (m_data b) (m_maxZeroAreaStart b) st st st (u32 (m_end b - zeroSize)))
       else
         let e := u32 (m_end b - u32 (m_zeroAreaEnd b - m_zeroAreaStart b)) in
         Ok (mkBuffer (m_data b) (m_maxZeroAreaStart b) e e e e));
  Ok (update_max b).

(** [buffer.cc:492-526] Buffer::RemoveAtEnd *)
Definition RemoveAtEnd (end_ : Z) (b : Buffer) : Buffer :=
  let newEnd := u32 (m_end b - Z.min end_ (u32 (m_end b - m_start b))) in
  update_max
    (if m_zeroAreaEnd b <? newEnd then
       mkBuffer (m_data b) (m_maxZeroAreaStart b) (m_zeroAreaStart b) (m_zeroAreaEnd b)
         (m_start b) newEnd
     else if m_zeroAreaStart b <? newEnd then
       mkBuffer (m_data b) (m_maxZeroAreaStart b) (m_zeroAreaStart b) newEnd (m_start b) newEnd
     else if m_start b <? newEnd then
       mkBuffer (m_data b) (m_maxZeroAreaStart b) newEnd newEnd (m_start b) newEnd
     else
       mkBuffer (m_data b) (m_maxZeroAreaStart b) (m_start b) (m_start b) (m_start b) (m_start b)).

(** [buffer.cc:528-538] Buffer::CreateFragment *)
Definition CreateFragment (start length : Z) (b : Buffer) (h : heap) : res (Buffer * heap) :=
  '(tmp, h) ← copy b h;
  tmp ← RemoveAtStart start tmp;
  Ok (RemoveAtEnd (u32 (GetSize b - u32 (start + length))) tmp, h).

(** ** Iterators *)

(** [buffer.h:456-486] Buffer::Iterator *)
Record Iterator := mkIterator {
  i_zeroStart : Z;
  i_zeroEnd : Z;
  i_dataStart : Z;
  i_dataEnd : Z;
  i_current : Z;
  i_data : Z
}.

(** [buffer.h:842-850] Buffer::Iterator::Construct *)
Definition Construct (b : Buffer) (current : Z) : Iterator :=
  mkIterator (m_zeroAreaStart b) (m_zeroAreaEnd b) (m_start b) (m_end b) current (m_data b).

(** [buffer.h:1073-1078] Buffer::Begin *)
Definition Begin (b : Buffer) : Iterator := Construct b (m_start b).

(** [buffer.h:1080-1085] Buffer::End *)
Definition End_ (b : Buffer) : Iterator := Construct b (m_end b).

Definition set_current (c : Z) (i : Iterator) : Iterator :=
  mkIterator (i_zeroStart i) (i_zeroEnd i) (i_dataStart i) (i_dataEnd i) c (i_data i).

(** [buffer.h:866-871] Buffer::Iterator::Next *)
Definition Next (delta : Z) (i : Iterator) : res Iterator :=
  ns_assert (u32 (i_current i + delta) <=? i_dataEnd i) ≫= λ _,
  Ok (set_current (u32 (i_current i + delta)) i).

(** [buffer.h:873-878] Buffer::Iterator::Prev *)
Definition Prev (delta : Z) (i : Iterator) : res Iterator :=
  ns_assert (delta <=? i_current i) ≫= λ _, Ok (set_current (u32 (i_current i - delta)) i).

(** [buffer.cc:785-799] Buffer::Iterator::GetDistanceFrom *)
Definition GetDistanceFrom (i o : Iterator) : res Z :=
  ns_assert (i_data i =? i_data o) ≫= λ _,
  let diff := sint 32 (i_current i - i_current o) in
  Ok (u32 (if diff <? 0 then - diff else diff)).

(** [buffer.cc] Buffer::Iterator::IsEnd *)
Definition IsEnd (i : Iterator) : bool := i_current i =? i_dataEnd i.

(** [buffer.cc] Buffer::Iterator::IsStart *)
Definition IsStart (i : Iterator) : bool := i_current i =? i_dataStart i.

(** [buffer.cc:1171-1176] Buffer::Iterator::GetSize *)
Definition Iterator_GetSize (i : Iterator) : Z := u32 (i_dataEnd i - i_dataStart i).

(** [buffer.cc] Buffer::Iterator::GetRemainingSize *)
Definition GetRemainingSize (i : Iterator) : Z := u32 (i_dataEnd i - i_current i).

(** [buffer.cc] Buffer::Iterator::CheckNoZero *)
Definition CheckNoZero (i : Iterator) (start end_ : Z) : bool :=
  negb ((start <? i_dataStart i) || (i_dataEnd i <? end_) ||
    ((i_zeroStart i <? end_) && (start <? i_zeroEnd i) && negb (i_zeroEnd i =? i_zeroStart i) &&
     negb (start =? end_))).

(** [buffer.cc:823-828] Buffer::Iterator::Check *)
Definition Check_ (i : Iterator) (p : Z) : bool :=
  (i_dataStart i <=? p) && negb ((i_zeroStart i <=? p) && (p <? i_zeroEnd i)) &&
  (p <=? i_dataEnd i).

(** The offset in the block of a virtual offset past the zero area. *)
Definition past_zero (i : Iterator) (p : Z) : Z := u32 (p - u32 (i_zeroEnd i - i_zeroStart i)).

(** [buffer.h:880-895] Buffer::Iterator::WriteU8 *)
Definition WriteU8 (data : Z) (i : Iterator) (h : heap) : res (Iterator * heap) :=
  ns_assert (Check_ i (i_current i)) ≫= λ _,
  let off := if i_current i <? i_zeroStart i then i_current i else past_zero i (i_current i) in
  h ← mem_write (i_data i) off [u8 data] h;
  Ok (set_current (u32 (i_current i + 1)) i, h).

(** [buffer.h:897-912] Buffer::Iterator::WriteU8 *)
Definition WriteU8_len (data len : Z) (i : Iterator) (h : heap) : res (Iterator * heap) :=
  ns_assert (CheckNoZero i (i_current i) (u32 (i_current i + len))) ≫= λ _,
  let off := if i_current i <=? i_zeroStart i then i_current i else past_zero i (i_current i) in
  h ← mem_write (i_data i) off (replicate (Z.to_nat len) (u8 data)) h;
  Ok (set_current (u32 (i_current i + len)) i, h).

(** [buffer.h:914-930] Buffer::Iterator::WriteHtonU16 *)
Definition WriteHtonU16 (data : Z) (i : Iterator) (h : heap) : res (Iterator * heap) :=
  ns_assert (CheckNoZero i (i_current i) (u32 (i_current i + 2))) ≫= λ _,
  let off := if u32 (i_current i + 2) <=? i_zeroStart i then i_current i
             else past_zero i (i_current i) in
  h ← mem_write (i_data i) off [Z.land (Z.shiftr data 8) 0xff; Z.land (Z.shiftr data 0) 0xff] h;
  Ok (set_current (u32 (i_current i + 2)) i, h).

(** [buffer.h:932-951] Buffer::Iterator::WriteHtonU32 *)
Definition WriteHtonU32 (data : Z) (i : Iterator) (h : heap) : res (Iterator * heap) :=
  ns_assert (CheckNoZero i (i_current i) (u32 (i_current i + 4))) ≫= λ _,
  let off := if u32 (i_current i + 4) <=? i_zeroStart i then i_current i
             else past_zero i (i_current i) in
  h ← mem_write (i_data i) off
        [Z.land (Z.shiftr data 24) 0xff; Z.land (Z.shiftr data 16) 0xff;
         Z.land (Z.shiftr data 8) 0xff; Z.land (Z.shiftr data 0) 0xff] h;
  Ok (set_current (u32 (i_current i + 4)) i, h).

(** [buffer.cc:953-969] Buffer::Iterator::Write

    The check is the code's: its second argument is the size, not the end. *)
Definition Write_bytes (buffer : list Z) (i : Iterator) (h : heap) : res (Iterator * heap) :=
  let size := Z.of_nat (length buffer) in
  ns_assert (CheckNoZero i (i_current i) size) ≫= λ _,
  let off := if i_current i <=? i_zeroStart i then i_current i else past_zero i (i_current i) in
  h ← mem_write (i_data i) off buffer h;
  Ok (set_current (u32 (i_current i + size)) i, h).

(** [buffer.cc:830-862] Buffer::Iterator::Write

    The bytes between two iterators of another buffer. *)
Definition Write (start end_ i : Iterator) (h : heap) : res (Iterator * heap) :=
  ns_assert (i_data start =? i_data end_) ≫= λ _,
  ns_assert (i_current start <=? i_current end_) ≫= λ _,
  ns_assert (i_zeroStart start =? i_zeroStart end_) ≫= λ _,
  ns_assert (i_zeroEnd start =? i_zeroEnd end_) ≫= λ _,
  ns_assert (negb (i_data i =? i_data start)) ≫= λ _,
  let size := u32 (i_current end_ - i_current start) in
  ns_assert (CheckNoZero i (i_current i) (u32 (i_current i + size))) ≫= λ _,
  '(cur, scur, size, h) ← (if i_current start <=? i_zeroStart start then
      let toCopy := Z.min size (i_zeroStart start - i_current start) in
      bs ← mem_read (i_data start) (i_current start) toCopy h;
      h ← mem_write (i_data i) (i_current i) bs h;
      Ok (u32 (i_current i + toCopy), u32 (i_current start + toCopy), size - toCopy, h)
    else Ok (i_current i, i_current start, size, h));
  '(cur, scur, size, h) ← (if scur <=? i_zeroEnd start then
      let toCopy := Z.min size (i_zeroEnd start - scur) in
      h ← mem_write (i_data i) cur (zeros toCopy) h;
      Ok (u32 (cur + toCopy), u32 (scur + toCopy), size - toCopy, h)
    else Ok (cur, scur, size, h));
  let toCopy := Z.min size (u32 (i_dataEnd start - scur)) in
  bs ← mem_read (i_data start) (past_zero start scur) toCopy h;
  h ← mem_write (i_data i) cur bs h;
  Ok (set_current (u32 (cur + toCopy)) i, h).

(** [buffer.h:1005-1024] Buffer::Iterator::PeekU8 *)
Definition PeekU8 (i : Iterator) (h : heap) : res Z :=
  ns_assert ((i_dataStart i <=? i_current i) && (i_current i <? i_dataEnd i)) ≫= λ _,
  if i_current i <? i_zeroStart i then
    bs ← mem_read (i_data i) (i_current i) 1 h; deref (head bs)
  else if i_current i <? i_zeroEnd i then Ok 0
  else bs ← mem_read (i_data i) (past_zero i (i_current i)) 1 h; deref (head bs).

(** [buffer.h:1026-1032] Buffer::Iterator::ReadU8 *)
Definition ReadU8 (i : Iterator) (h : heap) : res (Z * Iterator) :=
  ret ← PeekU8 i h; Ok (ret, set_current (u32 (i_current i + 1)) i).

(** The value of bytes, most significant first: [retval <<= 8; retval |= byte]. *)
Definition ntoh (w : Z) (bs : list Z) : Z :=
  fold_left (λ retval b, Z.lor (wrap w (Z.shiftl retval 8)) b) bs 0.

(** [buffer.cc] Buffer::Iterator::SlowReadNtohU16 *)
Definition SlowReadNtohU16 (i : Iterator) (h : heap) : res (Z * Iterator) :=
  '(b0, i) ← ReadU8 i h;
  '(b1, i) ← ReadU8 i h;
  Ok (ntoh 16 [b0; b1], i).

(** [buffer.cc] Buffer::Iterator::SlowReadNtohU32 *)
Definition SlowReadNtohU32 (i : Iterator) (h : heap) : res (Z * Iterator) :=
  '(b0, i) ← ReadU8 i h;
  '(b1, i) ← ReadU8 i h;
  '(b2, i) ← ReadU8 i h;
  '(b3, i) ← ReadU8 i h;
  Ok (ntoh 32 [b0; b1; b2; b3], i).

(** [buffer.h:953-975] Buffer::Iterator::ReadNtohU16 *)
Definition ReadNtohU16 (i : Iterator) (h : heap) : res (Z * Iterator) :=
  if u32 (i_current i + 2) <=? i_zeroStart i then
    bs ← mem_read (i_data i) (i_current i) 2 h;
    Ok (ntoh 16 bs, set_current (u32 (i_current i + 2)) i)
  else if i_zeroEnd i <=? i_current i then
    bs ← mem_read (i_data i) (past_zero i (i_current i)) 2 h;
    Ok (ntoh 16 bs, set_current (u32 (i_current i + 2)) i)
  else SlowReadNtohU16 i h.

(** [buffer.h:977-1003] Buffer::Iterator::ReadNtohU32 *)
Definition ReadNtohU32 (i : Iterator) (h : heap) : res (Z * Iterator) :=
  if u32 (i_current i + 4) <=? i_zeroStart i then
    bs ← mem_read (i_data i) (i_current i) 4 h;
    Ok (ntoh 32 bs, set_current (u32 (i_current i + 4)) i)
  else if i_zeroEnd i <=? i_current i then
    bs ← mem_read (i_data i) (past_zero i (i_current i)) 4 h;
    Ok (ntoh 32 bs, set_current (u32 (i_current i + 4)) i)
  else SlowReadNtohU32 i h.

(** [buffer.cc:1130-1138] Buffer::Iterator::Read *)
Fixpoint Read (size : nat) (i : Iterator) (h : heap) : res (list Z * Iterator) :=
  match size with
  | O => Ok ([], i)
  | S size => '(b, i) ← ReadU8 i h; '(bs, i) ← Read size i h; Ok (b :: bs, i)
  end.

(** [buffer.h:1046-1053] Buffer::Iterator::Read

    Copies the next [size] bytes to the iterator [start] of another buffer. *)
Definition Read_to (start : Iterator) (size : Z) (i : Iterator) (h : heap) : res heap :=
  end_ ← Next size i;
  '(_, h) ← Write i end_ start h;
  Ok h.

(** ** Operations that copy bytes *)

(** [buffer.cc:540-563] Buffer::CreateFullCopy *)
Definition CreateFullCopy (b : Buffer) (h : heap) : res (Buffer * heap) :=
  let zeroSize := u32 (m_zeroAreaEnd b - m_zeroAreaStart b) in
  if negb (zeroSize =? 0) then
    '(tmp, h) ← Initialize 0 h;
    '(tmp, h) ← AddAtStart zeroSize tmp h;
    '(_, h) ← WriteU8_len 0 zeroSize (Begin tmp) h;
    let dataStart := u32 (m_zeroAreaStart b - m_start b) in
    '(tmp, h) ← AddAtStart dataStart tmp h;
    bs ← mem_read (m_data b) (m_start b) dataStart h;
    '(_, h) ← Write_bytes bs (Begin tmp) h;
    let dataEnd := u32 (m_end b - m_zeroAreaEnd b) in
    '(tmp, h) ← AddAtEnd dataEnd tmp h;
    i ← Prev dataEnd (End_ tmp);
    bs ← mem_read (m_data b) (m_zeroAreaStart b) dataEnd h;
    '(_, h) ← Write_bytes bs i h;
    Ok (tmp, h)
  else copy b h.

(** [buffer.cc:698-706] Buffer::TransformIntoRealBuffer *)
Definition TransformIntoRealBuffer (b : Buffer) (h : heap) : res (Buffer * heap) :=
  '(tmp, h) ← CreateFullCopy b h;
  '(b, h) ← assign b tmp h;
  h ← destroy tmp h;
  Ok (b, h).

(** [buffer.cc:708-716] Buffer::PeekData

    The buffer after its transformation, and the offset in its block. *)
Definition PeekData (b : Buffer) (h : heap) : res (Z * Buffer * heap) :=
  '(b, h) ← TransformIntoRealBuffer b h; Ok (m_start b, b, h).

(** [buffer.cc:405-444] Buffer::AddAtEnd

    [b] and [o] are different variables. *)
Definition AddAtEnd_buffer (o b : Buffer) (h : heap) : res (Buffer * heap) :=
  d ← deref (blocks h !! m_data b);
  if (m_count d =? 1) &&
     ((m_end b =? m_zeroAreaEnd b) || (m_zeroAreaStart b =? m_zeroAreaEnd b)) &&
     (m_end b =? m_dirtyEnd d) && (m_start o =? m_zeroAreaStart o) &&
     (0 <? u32 (m_zeroAreaEnd o - m_zeroAreaStart o))
  then
    let zs := if m_zeroAreaStart b =? m_zeroAreaEnd b then m_end b else m_zeroAreaStart b in
    let zeroSize := u32 (m_zeroAreaEnd o - m_zeroAreaStart o) in
    let ze := u32 (m_end b + zeroSize) in
    let b := mkBuffer (m_data b) (m_maxZeroAreaStart b) zs ze (m_start b) ze in
    h ← update_dirty b (m_dirtyStart d) ze h;
    let endData := u32 (m_end o - m_zeroAreaEnd o) in
    '(b, h) ← AddAtEnd endData b h;
    dst ← Prev endData (End_ b);
    src ← Prev endData (End_ o);
    '(_, h) ← Write src (End_ o) dst h;
    Ok (b, h)
  else
    '(tmp, h) ← CreateFullCopy b h;
    '(b, h) ← assign b tmp h;
    h ← destroy tmp h;
    '(b, h) ← AddAtEnd (GetSize o) b h;
    destStart ← Prev (GetSize o) (End_ b);
    '(_, h) ← Write (Begin o) (End_ o) destStart h;
    Ok (b, h).

(** [buffer.cc:34-47] Zeroes *)
Definition g_zeroes_size : Z := 1000.

(** [buffer.cc:761-768] Buffer::CopyData

    The loop that copies [left] bytes from [g_zeroes]. *)
Fixpoint zeroes_loop (fuel : nat) (left : Z) : res (list Z) :=
  match fuel with
  | O => Err OutOfFuel
  | S fuel =>
      if 0 <? left then
        let toWrite := Z.min left g_zeroes_size in
        bs ← zeroes_loop fuel (left - toWrite);
        Ok (zeros toWrite ++ bs)
      else Ok []
  end.

(** Enough iterations for [left] bytes. *)
Definition zeroes_fuel (left : Z) : nat := S (Z.to_nat left).

(** [buffer.cc:747-779] Buffer::CopyData

    The bytes written to the caller's buffer; their number is the result. *)
Definition CopyData (size : Z) (b : Buffer) (h : heap) : res (list Z) :=
  if 0 <? size then
    let tmpsize := Z.min (u32 (m_zeroAreaStart b - m_start b)) size in
    bs1 ← mem_read (m_data b) (m_start b) tmpsize h;
    let size := size - tmpsize in
    if 0 <? size then
      let tmpsize := Z.min (u32 (m_zeroAreaEnd b - m_zeroAreaStart b)) size in
      bs2 ← zeroes_loop (zeroes_fuel tmpsize) tmpsize;
      let size := size - tmpsize in
      if 0 <? size then
        let tmpsize := Z.min (u32 (m_end b - m_zeroAreaEnd b)) size in
        bs3 ← mem_read (m_data b) (m_zeroAreaStart b) tmpsize h;
        Ok (bs1 ++ bs2 ++ bs3)
      else Ok (bs1 ++ bs2)
    else Ok bs1
  else Ok [].

(** [buffer.cc:718-745] Buffer::CopyData

    The bytes written to the stream. *)
Definition CopyData_stream (size : Z) (b : Buffer) (h : heap) : res (list Z) :=
  if 0 <? size then
    let tmpsize := Z.min (u32 (m_zeroAreaStart b - m_start b)) size in
    bs1 ← mem_read (m_data b) (m_start b) tmpsize h;
    if tmpsize <? size then
      let size := size - u32 (m_zeroAreaStart b - m_start b) in
      let tmpsize := Z.min (u32 (m_zeroAreaEnd b - m_zeroAreaStart b)) size in
      bs2 ← zeroes_loop (zeroes_fuel tmpsize) tmpsize;
      if tmpsize <? size then
        let size := size - tmpsize in
        let tmpsize := Z.min (u32 (m_end b - m_zeroAreaEnd b)) size in
        bs3 ← mem_read (m_data b) (m_zeroAreaStart b) tmpsize h;
        Ok (bs1 ++ bs2 ++ bs3)
      else Ok (bs1 ++ bs2)
    else Ok bs1
  else Ok [].

(** ** Serialization

    The words are in the host's byte order, little-endian here. *)

Definition word (z : Z) : list Z :=
  [Z.land z 0xff; Z.land (Z.shiftr z 8) 0xff; Z.land (Z.shiftr z 16) 0xff; Z.land (Z.shiftr z 24) 0xff].

Definition of_word (bs : list Z) : Z :=
  match bs with
  | [b0; b1; b2; b3] => Z.lor (Z.lor b0 (Z.shiftl b1 8)) (Z.lor (Z.shiftl b2 16) (Z.shiftl b3 24))
  | _ => 0
  end.

(** [(n + 3) & (~0x3)]. *)
Definition align4 (n : Z) : Z := Z.land (u32 (n + 3)) 0xfffffffc.

(** [buffer.cc] Buffer::GetSerializedSize *)
Definition GetSerializedSize (b : Buffer) : Z :=
  let dataStart := align4 (u32 (m_zeroAreaStart b - m_start b)) in
  let dataEnd := align4 (u32 (m_end b - m_zeroAreaEnd b)) in
  u32 (4 + 4 + dataStart + 4 + dataEnd).

(** Access to the caller's array at the pointer [p]. *)
Definition array_write (p : Z) (bs out : list Z) : res (list Z) :=
  if p + Z.of_nat (length bs) <=? Z.of_nat (length out) then Ok (splice p bs out) else Err Undefined.
Definition array_read (p n : Z) (buf : list Z) : res (list Z) :=
  if p + n <=? Z.of_nat (length buf) then Ok (slice p n buf) else Err Undefined.

(** [buffer.cc:581-651] Buffer::Serialize

    [out] is the caller's array; the result is what is returned and the array after. *)
Definition Serialize (maxSize : Z) (out : list Z) (b : Buffer) (h : heap) : res (Z * list Z) :=
  if 4 <=? maxSize then
    out ← array_write 0 (word (u32 (m_zeroAreaEnd b - m_zeroAreaStart b))) out;
    let dataStartLength := u32 (m_zeroAreaStart b - m_start b) in
    if 8 <=? maxSize then
      out ← array_write 4 (word dataStartLength) out;
      if u32 (8 + align4 dataStartLength) <=? maxSize then
        let size := u32 (8 + align4 dataStartLength) in
        bs ← mem_read (m_data b) (m_start b) dataStartLength h;
        out ← array_write 8 bs out;
        let p := 8 + align4 dataStartLength in
        let dataEndLength := u32 (m_end b - m_zeroAreaEnd b) in
        if u32 (size + 4) <=? maxSize then
          out ← array_write p (word dataEndLength) out;
          let size := u32 (size + 4) in
          if u32 (size + align4 dataEndLength) <=? maxSize then
            bs ← mem_read (m_data b) (m_zeroAreaStart b) dataEndLength h;
            out ← array_write (p + 4) bs out;
            Ok (1, out)
          else Ok (0, out)
        else Ok (0, out)
      else Ok (0, out)
    else Ok (0, out)
  else Ok (0, out).

(** [buffer.cc:653-696] Buffer::Deserialize

    The block the buffer had before is not released. *)
Definition Deserialize (buffer : list Z) (size : Z) (h : heap) : res (Z * Buffer * heap) :=
  let sizeCheck := u32 (size - 4) in
  ns_assert (4 <=? sizeCheck) ≫= λ _,
  zeroDataLength ← of_word <$> array_read 0 4 buffer;
  let sizeCheck := u32 (sizeCheck - 4) in
  '(b, h) ← Initialize zeroDataLength h;
  ns_assert (4 <=? sizeCheck) ≫= λ _,
  dataStartLength ← of_word <$> array_read 4 4 buffer;
  let sizeCheck := u32 (sizeCheck - 4) in
  '(b, h) ← AddAtStart dataStartLength b h;
  ns_assert (dataStartLength <=? sizeCheck) ≫= λ _,
  bs ← array_read 8 dataStartLength buffer;
  '(_, h) ← Write_bytes bs (Begin b) h;
  let p := 8 + align4 dataStartLength in
  let sizeCheck := u32 (sizeCheck - align4 dataStartLength) in
  ns_assert (4 <=? sizeCheck) ≫= λ _,
  dataEndLength ← of_word <$> array_read p 4 buffer;
  let sizeCheck := u32 (sizeCheck - 4) in
  '(b, h) ← AddAtEnd dataEndLength b h;
  ns_assert (dataEndLength <=? sizeCheck) ≫= λ _,
  tmp ← Prev dataEndLength (End_ b);
  bs ← array_read (p + 4) dataEndLength buffer;
  '(_, h) ← Write_bytes bs tmp h;
  let sizeCheck := u32 (sizeCheck - align4 dataEndLength) in
  ns_assert (sizeCheck =? 0) ≫= λ _,
  Ok (if negb (sizeCheck =? 0) then 0 else 1, b, h).
End buffer.
