(* ===== verification/BufferCorrect.v ===== *)
(** * Correctness of packet buffers

    The content of a buffer is the list [view]; [heap_inv] says that reference counts
    count the live buffers and that the dirty area of a block covers the windows of its
    users.  Each operation is characterised by its effect on [view]; the buffers that
    share a block never see each other's added bytes. *)

From S2P Require Import Prelude Buffer.
Local Open Scope Z_scope.

(** ** Pieces of lists *)

Section pieces.
Context {A : Type}.
Implicit Types l bs : list A.

Lemma lookup_slice a n l (i : nat) :
  slice a n l !! i = if decide (i < Z.to_nat n)%nat then l !! (Z.to_nat a + i)%nat else None.
Proof.
  unfold slice. case_decide.
  - by rewrite lookup_take_lt, lookup_drop.
  - apply lookup_take_ge. lia.
Qed.

Lemma lookup_splice a bs l (i : nat) :
  0 ≤ a → a + Z.of_nat (length bs) ≤ Z.of_nat (length l) →
  splice a bs l !! i =
    if decide (i < Z.to_nat a)%nat then l !! i
    else if decide (i < Z.to_nat a + length bs)%nat then bs !! (i - Z.to_nat a)%nat
    else l !! i.
Proof.
  intros Ha Hl. unfold splice. case_decide as H1.
  - rewrite lookup_app_l by (rewrite length_take; lia). by rewrite lookup_take_lt.
  - rewrite lookup_app_r by (rewrite length_take; lia). rewrite length_take, Nat.min_l by lia.
    case_decide as H2.
    + rewrite lookup_app_l by lia. done.
    + rewrite lookup_app_r by lia. rewrite lookup_drop. f_equal. lia.
Qed.

Lemma length_slice a n l :
  0 ≤ a → 0 ≤ n → a + n ≤ Z.of_nat (length l) → length (slice a n l) = Z.to_nat n.
Proof. intros. unfold slice. rewrite length_take, length_drop. lia. Qed.

Lemma length_splice a bs l :
  0 ≤ a → a + Z.of_nat (length bs) ≤ Z.of_nat (length l) → length (splice a bs l) = length l.
Proof. intros. unfold splice. rewrite !length_app, length_take, length_drop. lia. Qed.

Lemma slice_app a n m l :
  0 ≤ a → 0 ≤ n → 0 ≤ m → slice a (n + m) l = slice a n l ++ slice (a + n) m l.
Proof.
  intros. unfold slice. rewrite !Z2Nat.inj_add by lia.
  rewrite <- (drop_drop l). generalize (drop (Z.to_nat a) l) as l'.
  generalize (Z.to_nat n) as p. intros p. induction p as [|p IH]; intros [|x l']; cbn.
  - done.
  - done.
  - by rewrite take_nil.
  - by rewrite IH.
Qed.

Lemma slice_splice_same a bs l :
  0 ≤ a → a + Z.of_nat (length bs) ≤ Z.of_nat (length l) →
  slice a (Z.of_nat (length bs)) (splice a bs l) = bs.
Proof.
  intros. apply list_eq. intros i. rewrite lookup_slice. case_decide.
  - rewrite lookup_splice by done. rewrite decide_False by lia. rewrite decide_True by lia.
    f_equal. lia.
  - symmetry. apply lookup_ge_None. lia.
Qed.

Lemma slice_splice_other a bs l c n :
  0 ≤ a → 0 ≤ c → a + Z.of_nat (length bs) ≤ Z.of_nat (length l) →
  c + n ≤ a ∨ a + Z.of_nat (length bs) ≤ c →
  slice c n (splice a bs l) = slice c n l.
Proof.
  intros Ha Hc Hl Hd. apply list_eq. intros i. rewrite !lookup_slice. case_decide; [|done].
  rewrite lookup_splice by done. case_decide; [done|]. case_decide; [lia|done].
Qed.

Lemma slice_0 a l : slice a 0 l = [].
Proof. done. Qed.

Lemma slice_all l : slice 0 (Z.of_nat (length l)) l = l.
Proof. unfold slice. rewrite drop_0. apply take_ge. lia. Qed.

Lemma slice_slice a n b m l :
  0 ≤ a → 0 ≤ b → 0 ≤ m → b + m ≤ n → slice b m (slice a n l) = slice (a + b) m l.
Proof.
  intros. apply list_eq. intros i. rewrite !lookup_slice. case_decide; [|done].
  rewrite decide_True by lia. f_equal. lia.
Qed.

Lemma slice_sub_eq a a' n l l' x m :
  slice a n l = slice a' n l' → 0 ≤ a → 0 ≤ a' → 0 ≤ x → 0 ≤ m → x + m ≤ n →
  slice (a + x) m l = slice (a' + x) m l'.
Proof. intros H ?????. rewrite <- !(slice_slice _ n) by lia. by rewrite H. Qed.
End pieces.

Lemma zeros_app n m : 0 ≤ n → 0 ≤ m → zeros (n + m) = zeros n ++ zeros m.
Proof. intros. unfold zeros. rewrite Z2Nat.inj_add by lia. apply replicate_add. Qed.

Lemma length_zeros n : length (zeros n) = Z.to_nat n.
Proof. apply length_replicate. Qed.

(** ** Content and invariant *)

Definition bytes_of (h : heap) (a : Z) : list Z := default [] (m_bytes <$> blocks h !! a).

(** The bytes of a buffer. *)
Definition view (h : heap) (b : Buffer) : list Z :=
  slice (m_start b) (m_zeroAreaStart b - m_start b) (bytes_of h (m_data b)) ++
  zeros (m_zeroAreaEnd b - m_zeroAreaStart b) ++
  slice (m_zeroAreaStart b) (m_end b - m_zeroAreaEnd b) (bytes_of h (m_data b)).

(** The end of a buffer's bytes in its block. *)
Definition iend (b : Buffer) : Z := m_end b - (m_zeroAreaEnd b - m_zeroAreaStart b).

Definition window_ok (b : Buffer) : Prop :=
  0 ≤ m_start b ≤ m_zeroAreaStart b ∧ m_zeroAreaStart b ≤ m_zeroAreaEnd b ≤ m_end b ∧
  m_end b < 2 ^ 31 ∧ 0 ≤ m_maxZeroAreaStart b.

Definition block_shape (d : Data) : Prop :=
  length (m_bytes d) = Z.to_nat (m_size d) ∧ 0 ≤ m_size d < 2 ^ 31.

(** A user's window is inside the dirty area, and no user's bytes reach past [hw], the end
    of the bytes of the users whose end is the dirty end. *)
Definition user_ok (d : Data) (hw : Z) (b : Buffer) : Prop :=
  window_ok b ∧ m_dirtyStart d ≤ m_start b ∧ m_end b ≤ m_dirtyEnd d ∧ iend b ≤ hw ∧
  (m_end b = m_dirtyEnd d → iend b = hw).

Definition block_ok (d : Data) (us : list Buffer) : Prop :=
  m_count d = Z.of_nat (length us) ∧ ∃ hw, hw ≤ m_size d ∧ Forall (user_ok d hw) us.

Definition users (a : Z) (bs : list Buffer) : list Buffer := filter (λ b, m_data b = a) bs.
Arguments users : simpl never.

Definition free_ok (h : heap) (bs : list Buffer) : Prop :=
  match g_freeList h with
  | UNINITIALIZED => bs = []
  | INITIALIZED l => NoDup l ∧ ∀ a, a ∈ l → ∃ d, blocks h !! a = Some d ∧ m_count d = 0
  | DESTROYED => True
  end.

(** [bs] are the live buffers; [held] is a block an operation holds a count of before it
    belongs to a buffer. *)
Record heap_inv (held : option Z) (h : heap) (bs : list Buffer) : Prop := {
  hi_live : ∀ b, b ∈ bs → is_Some (blocks h !! m_data b);
  hi_shape : ∀ a d, blocks h !! a = Some d → block_shape d ∧ a < next_address h;
  hi_held : ∀ a, held = Some a →
    users a bs = [] ∧ ∃ d, blocks h !! a = Some d ∧ m_count d = 1;
  hi_block : ∀ a d, blocks h !! a = Some d → held ≠ Some a → block_ok d (users a bs);
  hi_free : free_ok h bs;
  hi_init : held ≠ None → g_freeList h ≠ UNINITIALIZED;
  hi_rec : 0 ≤ g_recommendedStart h
}.

(** The blocks of the buffers [bs] are not touched. *)
Definition same_blocks (h h' : heap) (bs : list Buffer) : Prop :=
  ∀ b, b ∈ bs → blocks h' !! m_data b = blocks h !! m_data b.

(** The bytes of the buffers [bs] are not touched. *)
Definition same_bytes (h h' : heap) (bs : list Buffer) : Prop :=
  ∀ b, b ∈ bs → bytes_of h' (m_data b) = bytes_of h (m_data b).

Lemma same_blocks_bytes h h' bs : same_blocks h h' bs → same_bytes h h' bs.
Proof. intros H b Hb. unfold bytes_of. by rewrite H. Qed.

Lemma same_bytes_trans h1 h2 h3 bs :
  same_bytes h1 h2 bs → same_bytes h2 h3 bs → same_bytes h1 h3 bs.
Proof. intros H1 H2 b Hb. by rewrite H2, H1. Qed.

Lemma same_bytes_view h h' bs b : same_bytes h h' bs → b ∈ bs → view h' b = view h b.
Proof. intros H Hb. unfold view. by rewrite H. Qed.

Lemma users_cons_eq b bs : users (m_data b) (b :: bs) = b :: users (m_data b) bs.
Proof. unfold users. by rewrite filter_cons_True. Qed.

Lemma users_cons_ne a b bs : m_data b ≠ a → users a (b :: bs) = users a bs.
Proof. intros. unfold users. by rewrite filter_cons_False. Qed.

Lemma elem_of_users a b bs : b ∈ users a bs ↔ m_data b = a ∧ b ∈ bs.
Proof. unfold users. by rewrite list_elem_of_filter. Qed.

Lemma users_nil a bs : users a bs = [] ↔ ∀ b, b ∈ bs → m_data b ≠ a.
Proof.
  split.
  - intros Hu b Hb Ha. assert (b ∈ users a bs) as Hin by by apply elem_of_users.
    rewrite Hu in Hin. by apply not_elem_of_nil in Hin.
  - intros H. destruct (users a bs) as [|b l] eqn:Hu; [done|].
    assert (b ∈ users a bs) as Hin by (rewrite Hu; by left).
    apply elem_of_users in Hin as [Ha Hb]. by destruct (H b Hb).
Qed.

Lemma block_ok_free d bs : block_shape d → m_count d = 0 → bs = [] → block_ok d bs.
Proof. intros [_ ?] Hc ->. split; [done|]. exists 0. split; [lia|constructor]. Qed.

Lemma block_ok_count0 d us : block_ok d us → m_count d = 0 → us = [].
Proof. intros [Hc _] H. rewrite H in Hc. destruct us; cbn in Hc; [done|lia]. Qed.

(** ** Allocation *)

Section allocation.
Context (fill : Z → Z → Z).

(** A free block that is not wanted is given back to the system. *)
Lemma inv_deallocate g a l h bs :
  heap_inv None (set_freeList g (INITIALIZED (a :: l)) h) bs →
  ∃ h', Deallocate a h = Ok h' ∧ heap_inv None (set_freeList g (INITIALIZED l) h') bs ∧
    same_blocks h h' bs ∧ g_maxSize h' = g_maxSize h ∧
    g_recommendedStart h' = g_recommendedStart h.
Proof.
  intros H. destruct (hi_free _ _ _ H) as [Hnd Hfree].
  destruct (Hfree a) as (d & Hd & Hc); [by left|]. cbn in Hd.
  assert (users a bs = []) as Hu.
  { eapply block_ok_count0; [|exact Hc]. by apply (hi_block _ _ _ H). }
  unfold Deallocate. rewrite Hd. res_simpl. rewrite Hc. eexists. split; [done|].
  rewrite users_nil in Hu. apply NoDup_cons in Hnd as [Hal Hnd].
  conj; [|intros b Hb; cbn; rewrite lookup_delete_ne; [done|by apply not_eq_sym, Hu]|done|done].
  destruct H. split; cbn in *; try done.
  - intros b Hb. rewrite lookup_delete_ne; [by apply hi_live0|by apply not_eq_sym, Hu].
  - intros a' d' [_ Hd']%lookup_delete_Some. by apply hi_shape0.
  - intros a' d' [_ Hd']%lookup_delete_Some. by apply hi_block0.
  - split; [done|]. cbn. intros a' Ha'. destruct (Hfree a') as (d' & Hd' & Hc'); [by right|].
    exists d'. split; [|done]. rewrite lookup_delete_ne; [done|]. by intros ->.
Qed.

(** A free block taken into use. *)
Lemma inv_take_free g a l d h bs :
  heap_inv None (set_freeList g (INITIALIZED (a :: l)) h) bs → blocks h !! a = Some d →
  heap_inv (Some a) (set_block a (set_count 1 d) (set_freeList g (INITIALIZED l) h)) bs ∧
  same_blocks h (set_block a (set_count 1 d) (set_freeList g (INITIALIZED l) h)) bs.
Proof.
  intros H Hd. destruct (hi_free _ _ _ H) as [Hnd Hfree].
  destruct (Hfree a) as (d0 & Hd0 & Hc); [by left|]. cbn in Hd0. simplify_eq.
  assert (users a bs = []) as Hu.
  { eapply block_ok_count0; [|exact Hc]. by apply (hi_block _ _ _ H). }
  pose proof Hu as Hu'. rewrite users_nil in Hu'. apply NoDup_cons in Hnd as [Hal Hnd].
  split; [|intros b Hb; cbn; rewrite lookup_insert_ne; [done|by apply not_eq_sym, Hu']].
  destruct H. split; cbn in *; try done.
  - intros b Hb. rewrite lookup_insert_ne; [by apply hi_live0|by apply not_eq_sym, Hu'].
  - intros a' d' [[<- <-]|[_ Hd']]%lookup_insert_Some; [|by apply hi_shape0].
    by apply (hi_shape0 a d).
  - intros a' [= <-]. split; [done|]. exists (set_count 1 d). by rewrite lookup_insert_eq.
  - intros a' d' [[<- <-]|[_ Hd']]%lookup_insert_Some ?; [done|by apply hi_block0].
  - split; [done|]. intros a' Ha'. destruct (Hfree a') as (d' & Hd' & Hc'); [by right|].
    exists d'. split; [|done]. cbn. rewrite lookup_insert_ne; [done|]. by intros ->.
Qed.

Lemma Create_loop_ok n l g h bs :
  heap_inv None (set_freeList g (INITIALIZED l) h) bs →
  ∃ r h', Create_loop n l h = Ok (r, h') ∧ same_blocks h h' bs ∧
    g_recommendedStart h' = g_recommendedStart h ∧
    match r with
    | Some a => heap_inv (Some a) h' bs ∧ ∃ d, blocks h' !! a = Some d ∧ n ≤ m_size d
    | None => heap_inv None h' bs ∧ g_freeList h' ≠ UNINITIALIZED
    end.
Proof.
  revert h. induction l as [|a l IH]; intros h H; cbn [Create_loop].
  { eexists _, _. split; [done|]. conj; [done|done| |done]. destruct H. by split. }
  destruct (hi_free _ _ _ H) as [_ Hfree]. destruct (Hfree a) as (d & Hd & _); [by left|].
  cbn in Hd. rewrite Hd. res_simpl. destruct (Z.leb_spec n (m_size d)).
  - destruct (inv_take_free g a l d h bs H Hd) as [Hi Hs].
    eexists _, _. split; [done|]. conj; [done|done|by destruct Hi|].
    exists (set_count 1 d). split; [by cbn; rewrite lookup_insert_eq|done].
  - destruct (inv_deallocate g a l h bs H) as (h1 & -> & Hi & Hs & Hg & Hr). res_simpl.
    destruct (IH h1 Hi) as (r & h' & -> & Hs' & Hr' & Hm). exists r, h'.
    conj; [done| |by rewrite Hr'|done]. intros b Hb. by rewrite Hs', Hs.
Qed.

Lemma Allocate_ok n h bs :
  heap_inv None h bs → g_freeList h ≠ UNINITIALIZED → 0 ≤ n < 2 ^ 31 - 100 →
  ∃ a h' d, Allocate fill n h = Ok (a, h') ∧ heap_inv (Some a) h' bs ∧ same_blocks h h' bs ∧
    blocks h' !! a = Some d ∧ n ≤ m_size d ∧ m_count d = 1 ∧
    g_recommendedStart h' = g_recommendedStart h.
Proof.
  intros H Hf Hn. unfold Allocate. set (req := if n =? 0 then 1 else n).
  assert (1 ≤ req < 2 ^ 31 - 100 ∧ n ≤ req) as [Hreq Hle] by (subst req; case_match; lia).
  rewrite (proj2 (Z.leb_le 1 req)) by lia. res_simpl.
  unfold ALLOC_OVER_PROVISION. rewrite (wrap_id 32) by zlia.
  assert (∀ b, b ∈ bs → m_data b < next_address h) as Hlt.
  { intros b Hb. destruct (hi_live _ _ _ H b Hb) as [d Hd]. by apply (hi_shape _ _ _ H) in Hd as []. }
  assert (blocks h !! next_address h = None) as Hnone.
  { destruct (blocks h !! next_address h) eqn:E; [|done]. apply (hi_shape _ _ _ H) in E as []. lia. }
  assert (users (next_address h) bs = []) as Hu by (apply users_nil; intros b Hb; specialize (Hlt b Hb); lia).
  eexists _, _, _. split; [done|].
  assert (∀ b, b ∈ bs → next_address h ≠ m_data b) as Hne by (intros b Hb; specialize (Hlt b Hb); lia).
  conj; [|intros b Hb; cbn; by rewrite lookup_insert_ne by auto
         |by cbn; rewrite lookup_insert_eq|cbn; lia|done|done].
  destruct H. split; cbn; try done.
  - intros b Hb. rewrite lookup_insert_ne by auto. by apply hi_live0.
  - intros a d [[<- <-]|[_ Hd]]%lookup_insert_Some.
    + unfold block_shape. cbn. rewrite length_fmap, length_seqZ. lia.
    + apply hi_shape0 in Hd as []. split; [done|lia].
  - intros a [= <-]. split; [done|]. eexists. by rewrite lookup_insert_eq.
  - intros a d [[<- <-]|[_ Hd]]%lookup_insert_Some ?; [done|by apply hi_block0].
  - unfold free_ok in *. cbn. destruct (g_freeList h); [done| |done].
    destruct hi_free0 as [? Hfree]. split; [done|]. intros a Ha.
    destruct (Hfree a Ha) as (d & Hd & ?). exists d. rewrite lookup_insert_ne; [done|]. congruence.
Qed.

Lemma Create_ok n h bs :
  heap_inv None h bs → 0 ≤ n < 2 ^ 31 - 100 →
  ∃ a h' d, Create fill n h = Ok (a, h') ∧ heap_inv (Some a) h' bs ∧ same_blocks h h' bs ∧
    blocks h' !! a = Some d ∧ n ≤ m_size d ∧ g_recommendedStart h' = g_recommendedStart h.
Proof.
  intros H Hn. unfold Create.
  assert (∃ r h1, (match g_freeList h with
    | UNINITIALIZED => Ok (None, set_freeList (g_maxSize h) (INITIALIZED []) h)
    | INITIALIZED l => Create_loop n l h
    | DESTROYED => Ok (None, h)
    end) = Ok (r, h1) ∧ same_blocks h h1 bs ∧ g_recommendedStart h1 = g_recommendedStart h ∧
    match r with
    | Some a => heap_inv (Some a) h1 bs ∧ ∃ d, blocks h1 !! a = Some d ∧ n ≤ m_size d
    | None => heap_inv None h1 bs ∧ g_freeList h1 ≠ UNINITIALIZED
    end) as (r & h1 & -> & Hs & Hr & Hm).
  { destruct (g_freeList h) as [|l|] eqn:Hf.
    - eexists _, _. split; [done|]. conj; [done|done| |done]. destruct H. split; cbn; try done.
      split; [constructor|]. intros a Ha. by apply not_elem_of_nil in Ha.
    - apply (Create_loop_ok n l (g_maxSize h)). destruct H. split; try done.
      unfold free_ok in *. cbn. by rewrite Hf in hi_free0.
    - eexists _, _. split; [done|]. conj; [done|done|done|by rewrite Hf]. }
  res_simpl. destruct r as [a|].
  - destruct Hm as (Hi & d & Hd & Hle). eexists _, _, _. split; [done|]. by conj.
  - destruct Hm as (Hi & Hf).
    destruct (Allocate_ok n h1 bs Hi Hf Hn) as (a & h' & d & -> & Hi' & Hs' & Hd & Hle & Hc & Hr').
    res_simpl. rewrite Hd. res_simpl. rewrite Hc. eexists _, _, _. split; [done|].
    conj; [done| |done|done|by rewrite Hr']. intros b Hb. by rewrite Hs', Hs.
Qed.
End allocation.

(** ** Reference counts and memory *)

Lemma block_ok_uncons d b us :
  block_ok d (b :: us) → block_ok (set_count (Z.of_nat (length us)) d) us.
Proof.
  intros [_ (hw & Hhw & Hf)]. split; [done|]. exists hw. split; [done|].
  by apply Forall_cons in Hf as [_ Hf].
Qed.

(** Changing the user-visible part of a block and its list of users. *)
Lemma inv_set_block held a d d' h bs :
  heap_inv held h bs → blocks h !! a = Some d → held ≠ Some a →
  block_shape d' → block_ok d' (users a bs) → (m_count d = 0 → m_count d' = 0) →
  heap_inv held (set_block a d' h) bs.
Proof.
  intros H Hd Hne Hshape Hok Hc. destruct H. split; cbn; try done.
  - intros b Hb. destruct (decide (a = m_data b)) as [<-|]; [by rewrite lookup_insert_eq|].
    rewrite lookup_insert_ne by done. by apply hi_live0.
  - intros a' x [[<- <-]|[_ Hx]]%lookup_insert_Some; [|by apply hi_shape0].
    split; [done|]. by apply hi_shape0 in Hd as [].
  - intros a' ->. destruct (hi_held0 a' eq_refl) as (Hu & x & Hx & Hx').
    split; [done|]. exists x. rewrite lookup_insert_ne; [done|congruence].
  - intros a' x [[<- <-]|[_ Hx]]%lookup_insert_Some ?; [done|by apply hi_block0].
  - unfold free_ok in *. cbn. destruct (g_freeList h); [done| |done].
    destruct hi_free0 as [Hnd Hf]. split; [done|]. intros a' Ha'.
    destruct (Hf a' Ha') as (x & Hx & Hx0). destruct (decide (a = a')) as [<-|].
    + simplify_eq. exists d'. rewrite lookup_insert_eq. auto.
    + exists x. by rewrite lookup_insert_ne.
Qed.

(** The invariant, but that the block [a] counts one user more than it has. *)
Lemma inv_forget held b h bs d :
  heap_inv held h (b :: bs) → blocks h !! m_data b = Some d → held ≠ Some (m_data b) →
  let n := Z.of_nat (length (users (m_data b) bs)) in
  m_count d = n + 1 ∧
  (n ≠ 0 → heap_inv held (set_block (m_data b) (set_count n d) h) bs).
Proof.
  intros H Hd Hne n. pose proof (hi_block _ _ _ H _ _ Hd Hne) as Hok.
  rewrite users_cons_eq in Hok. pose proof (proj1 Hok) as Hc. cbn in Hc. split; [lia|].
  intros Hn. apply block_ok_uncons in Hok. fold n in Hok.
  assert (heap_inv held h bs ∨ True) as _ by by right.
  destruct H. split; cbn; try done.
  - intros b' Hb'. destruct (decide (m_data b = m_data b')) as [<-|]; [by rewrite lookup_insert_eq|].
    rewrite lookup_insert_ne by done. apply hi_live0. by right.
  - intros a x [[<- <-]|[_ Hx]]%lookup_insert_Some; [|by apply hi_shape0].
    by apply hi_shape0 in Hd.
  - intros a ->. destruct (hi_held0 a eq_refl) as (Hu & x & Hx & Hx').
    assert (m_data b ≠ a) as Hba by congruence. rewrite users_cons_ne in Hu by done.
    split; [done|]. exists x. by rewrite lookup_insert_ne.
  - intros a x [[<- <-]|[Hba Hx]]%lookup_insert_Some Ha; [done|].
    rewrite <- (users_cons_ne a b) by done. by apply hi_block0.
  - unfold free_ok in *. cbn. destruct (g_freeList h); [done| |done].
    destruct hi_free0 as [Hnd Hf]. split; [done|]. intros a Ha.
    destruct (Hf a Ha) as (x & Hx & Hx0). exists x. rewrite lookup_insert_ne; [done|].
    intros <-. simplify_eq. lia.
Qed.

(** The last user of a block is gone. *)
Lemma Recycle_ok held b h bs d :
  heap_inv held h (b :: bs) → blocks h !! m_data b = Some d → held ≠ Some (m_data b) →
  users (m_data b) bs = [] →
  ∃ h', Recycle (m_data b) (set_block (m_data b) (set_count 0 d) h) = Ok h' ∧
    heap_inv held h' bs ∧ (∀ a, a ≠ m_data b → blocks h' !! a = blocks h !! a) ∧
    g_recommendedStart h' = g_recommendedStart h.
Proof.
  intros H Hd Hne Hu. unfold Recycle. set (a := m_data b) in *.
  set (h0 := set_block a (set_count 0 d) h).
  assert (blocks h0 !! a = Some (set_count 0 d)) as Hd0 by (cbn; by rewrite lookup_insert_eq).
  rewrite Hd0. res_simpl.
  assert (g_freeList h ≠ UNINITIALIZED) as Hf.
  { pose proof (hi_free _ _ _ H) as Hfr. unfold free_ok in Hfr. by intros E; rewrite E in Hfr. }
  change (g_freeList h0) with (g_freeList h).
  assert (ns_assert match g_freeList h with UNINITIALIZED => false | _ => true end = Ok tt) as ->.
  { by destruct (g_freeList h). }
  res_simpl. cbv zeta. cbn [g_freeList g_maxSize set_freeList].
  change (g_freeList h0) with (g_freeList h).
  assert (a ∉ match g_freeList h with INITIALIZED l => l | _ => [] end) as Hal.
  { pose proof (hi_free _ _ _ H) as Hfr. unfold free_ok in Hfr.
    destruct (g_freeList h); [by apply not_elem_of_nil| |by apply not_elem_of_nil].
    destruct Hfr as [_ Hfr]. intros Ha. destruct (Hfr a Ha) as (x & Hx & Hx0). simplify_eq.
    destruct (inv_forget held b h bs _ H Hd Hne) as [Hc _]. lia. }
  pose proof (users_nil a bs) as Hun. rewrite Hu in Hun. destruct Hun as [Hun _].
  specialize (Hun eq_refl).
  assert (∀ fl g', (match fl with INITIALIZED l => g_freeList h = INITIALIZED l | _ => fl = g_freeList h end) →
    heap_inv held (mkHeap (delete a (blocks h0)) (next_address h) g' fl (g_recommendedStart h)) bs) as Hdel.
  { intros fl g' Hfl. destruct H. split; cbn; try done.
    - intros b' Hb'. unfold h0. cbn. rewrite delete_insert_eq, lookup_delete_ne by (by apply not_eq_sym, Hun).
      apply hi_live0. by right.
    - intros a' x. unfold h0. cbn. rewrite delete_insert_eq.
      intros [_ Hx]%lookup_delete_Some. by apply hi_shape0.
    - intros a' ->. destruct (hi_held0 a' eq_refl) as (Hu' & x & Hx & Hx').
      assert (a ≠ a') as Hba by congruence. rewrite users_cons_ne in Hu' by done.
      split; [done|]. exists x. unfold h0. cbn. by rewrite delete_insert_eq, lookup_delete_ne.
    - intros a' x. unfold h0. cbn. rewrite delete_insert_eq.
      intros [Hba Hx]%lookup_delete_Some Ha. rewrite <- (users_cons_ne a' b) by done.
      by apply hi_block0.
    - unfold free_ok in *. cbn. destruct fl as [|l|]; [by rewrite <- Hfl in Hf| |done].
      rewrite Hfl in *. destruct hi_free0 as [Hnd Hfr]. split; [done|]. intros a' Ha'.
      destruct (Hfr a' Ha') as (x & Hx & Hx0). exists x. unfold h0. cbn.
      rewrite delete_insert_eq, lookup_delete_ne; [done|]. by intros ->.
    - intros Hh. destruct fl; [by rewrite <- Hfl in Hf|done|done]. }
  assert (∀ g fl, Deallocate a (set_freeList g fl h0) =
    Ok (mkHeap (delete a (blocks h0)) (next_address h) g fl (g_recommendedStart h))) as Hdea.
  { intros g fl. unfold Deallocate. cbn [blocks set_freeList]. rewrite Hd0. done. }
  assert (∀ a', a' ≠ a → delete a (blocks h0) !! a' = blocks h !! a') as Hdl.
  { intros a' Ha'. unfold h0. cbn. by rewrite delete_insert_eq, lookup_delete_ne. }
  destruct (g_freeList h) as [|l|] eqn:Hfl; [done| |].
  - destruct (_ || _); [rewrite Hdea; eexists; split; [done|]; split; [by apply Hdel|by split]|].
    eexists. split; [done|]. split; [|split; [intros a' ?; cbn; by rewrite lookup_insert_ne|done]].
    clear Hdel Hdea Hdl. destruct H. split; cbn; try done.
    + intros b' Hb'. rewrite lookup_insert_ne by (by apply not_eq_sym, Hun). apply hi_live0. by right.
    + intros a' x [[<- <-]|[_ Hx]]%lookup_insert_Some; [|by apply hi_shape0].
      by apply hi_shape0 in Hd.
    + intros a' ->. destruct (hi_held0 a' eq_refl) as (Hu' & x & Hx & Hx').
      assert (a ≠ a') as Hba by congruence. rewrite users_cons_ne in Hu' by done.
      split; [done|]. exists x. by rewrite lookup_insert_ne.
    + intros a' x [[<- <-]|[Hba Hx]]%lookup_insert_Some Ha.
      * apply block_ok_free; [by apply hi_shape0 in Hd as []|done|done].
      * rewrite <- (users_cons_ne a' b) by done. by apply hi_block0.
    + unfold free_ok in *. cbn. rewrite Hfl in hi_free0. destruct hi_free0 as [Hnd Hfr].
      split; [by constructor|]. intros a' [->|Ha']%elem_of_cons.
      * exists (set_count 0 d). by rewrite lookup_insert_eq.
      * destruct (Hfr a' Ha') as (x & Hx & Hx0). exists x. rewrite lookup_insert_ne; [done|].
        by intros ->.
  - rewrite Hdea. eexists. split; [done|]. split; [by apply Hdel|by split].
Qed.

Lemma release_ok held b h bs :
  heap_inv held h (b :: bs) → held ≠ Some (m_data b) →
  Z.of_nat (length (b :: bs)) < 2 ^ 32 →
  ∃ h', release (m_data b) h = Ok h' ∧ heap_inv held h' bs ∧ same_bytes h h' bs ∧
    (∀ a, a ≠ m_data b → blocks h' !! a = blocks h !! a) ∧
    g_recommendedStart h' = g_recommendedStart h.
Proof.
  intros H Hne Hlen. destruct (hi_live _ _ _ H b) as [d Hd]; [by left|].
  destruct (inv_forget held b h bs d H Hd Hne) as [Hc Hinv].
  assert (Z.of_nat (length (users (m_data b) bs)) + 1 < 2 ^ 32) as Hu.
  { cbn in Hlen. pose proof (length_filter (λ b', m_data b' = m_data b) bs). unfold users. lia. }
  unfold release. rewrite Hd. res_simpl. rewrite Hc, Z.add_simpl_r, wrap_id by zlia.
  case_match eqn:Hz.
  - apply Z.eqb_eq in Hz. assert (users (m_data b) bs = []) as Hn.
    { destruct (users (m_data b) bs); cbn in Hz; [done|lia]. }
    rewrite Hz. destruct (Recycle_ok held b h bs d H Hd Hne Hn) as (h' & -> & Hi & Hb & Hr).
    exists h'. conj; [done|done| |done|done]. intros b' Hb'. unfold bytes_of.
    rewrite users_nil in Hn. by rewrite Hb by (by apply Hn).
  - apply Z.eqb_neq in Hz. eexists. split; [done|]. conj; [by apply Hinv| | |done].
    + intros b' Hb'. unfold bytes_of. cbn.
      destruct (decide (m_data b = m_data b')) as [<-|]; [by rewrite lookup_insert_eq, Hd|].
      by rewrite lookup_insert_ne.
    + intros a Ha. cbn. by rewrite lookup_insert_ne.
Qed.

(** A buffer of the same window as a live one. *)
Lemma copy_ok h bs o :
  heap_inv None h bs → o ∈ bs → Z.of_nat (length bs) + 1 < 2 ^ 32 →
  ∃ b h', copy o h = Ok (b, h') ∧ heap_inv None h' (b :: bs) ∧ same_bytes h h' bs ∧
    view h' b = view h o ∧ m_start b = m_start o ∧ m_end b = m_end o ∧ m_data b = m_data o ∧
    m_zeroAreaStart b = m_zeroAreaStart o ∧ m_zeroAreaEnd b = m_zeroAreaEnd o.
Proof.
  intros H Ho Hlen. destruct (hi_live _ _ _ H o Ho) as [d Hd].
  assert (block_ok d (users (m_data o) bs)) as Hok by (by apply (hi_block _ _ _ H)).
  assert (o ∈ users (m_data o) bs) as Hou by (by apply elem_of_users).
  assert (Z.of_nat (length (users (m_data o) bs)) + 1 < 2 ^ 32) as Hu.
  { pose proof (length_filter (λ b', m_data b' = m_data o) bs). unfold users. lia. }
  destruct Hok as [Hc (hw & Hhw & Hf)].
  unfold copy, acquire. rewrite Hd. res_simpl. rewrite Hc, wrap_id by zlia.
  set (b := mkBuffer (m_data o) _ _ _ _ _). set (h' := set_block _ _ _).
  eexists b, _. split; [done|].
  assert (same_bytes h h' (b :: bs)) as Hsame.
  { intros b' _. unfold bytes_of, h'. cbn.
    destruct (decide (m_data o = m_data b')) as [<-|]; [by rewrite lookup_insert_eq, Hd|].
    by rewrite lookup_insert_ne. }
  conj; [|intros b' Hb'; apply Hsame; by right| |done..].
  2: { unfold view. rewrite (Hsame b) by (by left). done. }
  destruct H. split; cbn; try done.
  - intros b' Hb'. destruct (decide (m_data o = m_data b')) as [<-|]; [by rewrite lookup_insert_eq|].
    rewrite lookup_insert_ne by done. apply elem_of_cons in Hb' as [->|]; [done|]. by apply hi_live0.
  - intros a x [[<- <-]|[_ Hx]]%lookup_insert_Some; [|by apply hi_shape0].
    by apply hi_shape0 in Hd.
  - intros a x [[<- <-]|[Ha Hx]]%lookup_insert_Some _.
    + pose proof (users_cons_eq b bs) as E. change (m_data b) with (m_data o) in E. rewrite E.
      split; [cbn; lia|]. exists hw. split; [done|].
      constructor; [|done]. rewrite Forall_forall in Hf. specialize (Hf o Hou).
      unfold user_ok, window_ok, iend in *. cbn. intuition lia.
    + rewrite users_cons_ne by done. by apply hi_block0.
  - unfold free_ok in *. cbn. destruct (g_freeList h); [by rewrite hi_free0 in Ho; apply not_elem_of_nil in Ho| |done].
    destruct hi_free0 as [Hnd Hfr]. split; [done|]. intros a Ha.
    destruct (Hfr a Ha) as (x & Hx & Hx0). exists x. rewrite lookup_insert_ne; [done|].
    intros <-. simplify_eq. destruct (users (m_data o) bs); [by apply not_elem_of_nil in Hou|cbn in Hc; lia].
Qed.

Lemma mem_read_ok a off n h d :
  blocks h !! a = Some d → 0 ≤ off → 0 ≤ n → off + n ≤ m_size d →
  mem_read a off n h = Ok (slice off n (bytes_of h a)).
Proof.
  intros Hd Ho Hn Hle. unfold mem_read, bytes_of. rewrite Hd. res_simpl.
  case_match eqn:E; [apply Z.eqb_eq in E as ->; done|].
  rewrite !(proj2 (Z.leb_le _ _)) by lia. done.
Qed.

(** A write inside a block: the invariant, the other blocks and the shape are kept. *)
Lemma mem_write_ok a off bs h d :
  blocks h !! a = Some d → block_shape d → 0 ≤ off → off + Z.of_nat (length bs) ≤ m_size d →
  ∃ h', mem_write a off bs h = Ok h' ∧
    bytes_of h' a = splice off bs (bytes_of h a) ∧
    (∀ a', a' ≠ a → blocks h' !! a' = blocks h !! a') ∧
    blocks h' !! a = Some (set_bytes (bytes_of h' a) d) ∧
    g_recommendedStart h' = g_recommendedStart h ∧
    ∀ held us, heap_inv held h us → heap_inv held h' us.
Proof.
  intros Hd [Hl Hsz] Ho Hle. unfold mem_write. rewrite Hd. res_simpl. case_match eqn:E.
  { apply Z.eqb_eq in E. assert (bs = []) as -> by (destruct bs; cbn in E; [done|lia]).
    exists h. unfold bytes_of. rewrite Hd. cbn. unfold splice. cbn. rewrite Nat.add_0_r, take_drop.
    conj; try done. destruct d; done. }
  rewrite !(proj2 (Z.leb_le _ _)) by lia. res_simpl.
  eexists. split; [done|]. unfold bytes_of. cbn. rewrite lookup_insert_eq, Hd. cbn.
  conj; [done|intros a' Ha'; by rewrite lookup_insert_ne|done|done|].
  intros held us H. assert (length (splice off bs (m_bytes d)) = Z.to_nat (m_size d)) as Hls.
  { rewrite length_splice; lia. }
  destruct H. split; cbn; try done.
  - intros b Hb. destruct (decide (a = m_data b)) as [<-|]; [by rewrite lookup_insert_eq|].
    rewrite lookup_insert_ne by done. by apply hi_live0.
  - intros a' x [[<- <-]|[_ Hx]]%lookup_insert_Some; [|by apply hi_shape0].
    split; [by split|]. by apply hi_shape0 in Hd as [].
  - intros a' ->. destruct (hi_held0 a' eq_refl) as (Hu & x & Hx & Hx'). split; [done|].
    destruct (decide (a = a')) as [<-|]; [|exists x; by rewrite lookup_insert_ne].
    simplify_eq. eexists. by rewrite lookup_insert_eq.
  - intros a' x [[<- <-]|[_ Hx]]%lookup_insert_Some Ha; [|by apply hi_block0].
    by apply (hi_block0 a d).
  - unfold free_ok in *. cbn. destruct (g_freeList h); [done| |done].
    destruct hi_free0 as [Hnd Hf]. split; [done|]. intros a' Ha'.
    destruct (Hf a' Ha') as (x & Hx & Hx0). destruct (decide (a = a')) as [<-|].
    + simplify_eq. eexists. by rewrite lookup_insert_eq.
    + exists x. by rewrite lookup_insert_ne.
Qed.

(** The block an operation holds becomes the block of the buffer [b]. *)
Lemma inv_adopt a h bs b d :
  heap_inv (Some a) h bs → m_data b = a → blocks h !! a = Some d → window_ok b →
  iend b ≤ m_size d →
  ∃ h', update_dirty b (m_start b) (m_end b) h = Ok h' ∧ heap_inv None h' (b :: bs) ∧
    (∀ a', a' ≠ a → blocks h' !! a' = blocks h !! a') ∧ bytes_of h' a = bytes_of h a ∧
    g_recommendedStart h' = g_recommendedStart h.
Proof.
  intros H <- Hd Hw Hie. unfold update_dirty. rewrite Hd. res_simpl. eexists. split; [done|].
  destruct (hi_held _ _ _ H _ eq_refl) as (Hu & d0 & Hd0 & Hc). simplify_eq.
  conj; [|intros a' Ha'; cbn; by rewrite lookup_insert_ne
         |unfold bytes_of; cbn; by rewrite lookup_insert_eq, Hd|done].
  destruct H. split; cbn; try done.
  - intros b' Hb'. destruct (decide (m_data b = m_data b')) as [<-|]; [by rewrite lookup_insert_eq|].
    rewrite lookup_insert_ne by done. apply elem_of_cons in Hb' as [->|]; [done|]. by apply hi_live0.
  - intros a x [[<- <-]|[_ Hx]]%lookup_insert_Some; [|by apply hi_shape0].
    by apply hi_shape0 in Hd.
  - intros a x [[<- <-]|[Ha Hx]]%lookup_insert_Some _.
    + rewrite users_cons_eq, Hu. split; [done|]. exists (iend b). split; [done|].
      apply Forall_singleton. unfold user_ok. cbn. conj; try done; lia.
    + rewrite users_cons_ne by done. apply hi_block0; [done|congruence].
  - unfold free_ok in *. cbn. destruct (g_freeList h); [by destruct (hi_init0 ltac:(done))| |done].
    destruct hi_free0 as [Hnd Hfr]. split; [done|]. intros a Ha.
    destruct (Hfr a Ha) as (x & Hx & Hx0). exists x. rewrite lookup_insert_ne; [done|].
    intros <-. simplify_eq. lia.
Qed.

(** A live buffer is replaced by another on the same block. *)
Lemma inv_replace b b' bs h d d' :
  heap_inv None h (b :: bs) → blocks h !! m_data b = Some d → m_data b' = m_data b →
  block_shape d' → block_ok d' (b' :: users (m_data b) bs) →
  heap_inv None (set_block (m_data b) d' h) (b' :: bs).
Proof.
  intros H Hd Hb' Hs Hok.
  pose proof (hi_block _ _ _ H _ _ Hd ltac:(done)) as Hok0. rewrite users_cons_eq in Hok0.
  destruct H. split; cbn; try done.
  - intros x Hx. destruct (decide (m_data b = m_data x)) as [<-|]; [by rewrite lookup_insert_eq|].
    rewrite lookup_insert_ne by done. apply elem_of_cons in Hx as [->|]; [done|].
    apply hi_live0. by right.
  - intros a x [[<- <-]|[_ Hx]]%lookup_insert_Some; [|by apply hi_shape0].
    split; [done|]. by apply hi_shape0 in Hd as [].
  - intros a x [[<- <-]|[Ha Hx]]%lookup_insert_Some _.
    + by rewrite <- Hb', users_cons_eq, Hb'.
    + rewrite users_cons_ne by (by rewrite Hb'). rewrite <- (users_cons_ne a b) by done.
      by apply hi_block0.
  - unfold free_ok in *. cbn. destruct (g_freeList h); [done| |done].
    destruct hi_free0 as [Hnd Hfr]. split; [done|]. intros a Ha.
    destruct (Hfr a Ha) as (x & Hx & Hx0). exists x. rewrite lookup_insert_ne; [done|].
    intros <-. simplify_eq. destruct Hok0 as [Hc _]. cbn in Hc. lia.
Qed.

Lemma user_of_live b bs h d :
  heap_inv None h (b :: bs) → blocks h !! m_data b = Some d →
  window_ok b ∧ m_dirtyStart d ≤ m_start b ∧ m_end b ≤ m_dirtyEnd d ∧ iend b ≤ m_size d ∧
  block_shape d ∧ block_ok d (b :: users (m_data b) bs).
Proof.
  intros H Hd. pose proof (hi_block _ _ _ H _ _ Hd ltac:(done)) as Hok.
  rewrite users_cons_eq in Hok. pose proof Hok as [_ (hw & Hhw & [Hu _]%Forall_cons)].
  destruct Hu as (Hw & Hds & Hde & Hie & _). conj; try done; [lia|].
  by apply (hi_shape _ _ _ H) in Hd as [].
Qed.

Lemma window_of_live b bs h : heap_inv None h (b :: bs) → window_ok b.
Proof.
  intros H. destruct (hi_live _ _ _ H b) as [d Hd]; [by left|].
  by apply (user_of_live _ _ _ _ H) in Hd as [].
Qed.

Lemma GetInternalSize_ok b : window_ok b → GetInternalSize b = iend b - m_start b.
Proof. unfold window_ok, GetInternalSize, iend. intros. rewrite wrap_id; zlia. Qed.

Lemma GetInternalEnd_ok b : window_ok b → GetInternalEnd b = iend b.
Proof. unfold window_ok, GetInternalEnd, iend. intros. rewrite wrap_id; zlia. Qed.

Lemma GetSize_ok b : window_ok b → GetSize b = m_end b - m_start b.
Proof. unfold window_ok, GetSize. intros. rewrite wrap_id; zlia. Qed.

Lemma sint32_small z : - 2 ^ 31 ≤ z < 2 ^ 31 → sint 32 z = z.
Proof.
  intros Hz. unfold sint. destruct (decide (0 ≤ z)).
  - rewrite wrap_id by zlia. rewrite (proj2 (Z.ltb_lt _ _)) by lia. done.
  - assert (u32 z = z + 2 ^ 32) as ->.
    { unfold wrap. rewrite <- (Z.mod_add z 1) by lia. rewrite Z.mod_small; lia. }
    rewrite (proj2 (Z.ltb_ge _ _)) by lia. lia.
Qed.

(** A live buffer whose window shrinks, in its block. *)
Lemma inv_shrink b b' bs h :
  heap_inv None h (b :: bs) → m_data b' = m_data b → window_ok b' → m_start b ≤ m_start b' →
  m_end b' ≤ m_end b → iend b' ≤ iend b → (m_end b' = m_end b → iend b' = iend b) →
  heap_inv None h (b' :: bs).
Proof.
  intros H Hdata Hw Hst He Hie Heq. destruct H. split; try done.
  - intros x [->|Hx]%elem_of_cons; [rewrite Hdata; by apply (hi_live0 b); left|by apply hi_live0; right].
  - intros a d Hd Hh. specialize (hi_block0 a d Hd Hh). destruct (decide (m_data b = a)) as [<-|].
    + rewrite users_cons_eq in hi_block0. rewrite <- Hdata, users_cons_eq, Hdata.
      destruct hi_block0 as [Hc (hw & Hhw & [Hub Hf]%Forall_cons)]. split; [done|].
      exists hw. split; [done|]. constructor; [|done]. unfold user_ok in *.
      destruct Hub as (_ & ? & ? & ? & Hub). conj; [done|lia|lia|lia|]. intros E.
      rewrite Heq by lia. apply Hub. lia.
    + rewrite users_cons_ne by (by rewrite Hdata). by rewrite users_cons_ne in hi_block0.
  - unfold free_ok in *. by destruct (g_freeList h).
Qed.

Lemma inv_update_max b bs h : heap_inv None h (b :: bs) → heap_inv None h (update_max b :: bs).
Proof.
  intros H. pose proof (window_of_live _ _ _ H) as Hw.
  apply (inv_shrink b); try done. unfold window_ok in *. cbn. lia.
Qed.

Section operations.
Context (fill : Z → Z → Z).

(** The statements that move a buffer's bytes to a larger new block, at [off]. *)
Lemma realloc_ok b bs h n off :
  heap_inv None h (b :: bs) → 0 ≤ n → 0 ≤ off ≤ n → m_end b + n < 2 ^ 31 - 100 →
  Z.of_nat (length (b :: bs)) < 2 ^ 32 →
  ∃ a h1 bytes h2 h3 d,
    Create fill (u32 (GetInternalSize b + n)) h = Ok (a, h1) ∧
    mem_read (m_data b) (m_start b) (GetInternalSize b) h1 = Ok bytes ∧
    mem_write a off bytes h1 = Ok h2 ∧ release (m_data b) h2 = Ok h3 ∧
    heap_inv (Some a) h3 bs ∧ same_bytes h h3 bs ∧ blocks h3 !! a = Some d ∧
    GetInternalSize b + n ≤ m_size d ∧
    slice off (iend b - m_start b) (bytes_of h3 a) =
      slice (m_start b) (iend b - m_start b) (bytes_of h (m_data b)) ∧
    (∀ o, o ∈ bs → m_data o ≠ a) ∧ g_recommendedStart h3 = g_recommendedStart h.
Proof.
  intros H Hn Hoff Hcap Hlen. pose proof (window_of_live _ _ _ H) as Hw.
  rewrite GetInternalSize_ok by done. unfold window_ok, iend in *.
  set (isz := m_end b - (m_zeroAreaEnd b - m_zeroAreaStart b) - m_start b).
  assert (0 ≤ isz ≤ m_end b) as Hisz by lia. rewrite (wrap_id 32) by zlia.
  destruct (Create_ok fill (isz + n) h (b :: bs) H) as (a & h1 & d1 & Hcr & H1 & Hs1 & Hd1 & Hsz & Hr1); [lia|].
  destruct (hi_held _ _ _ H1 a eq_refl) as (Hu & _). pose proof (proj1 (users_nil _ _) Hu) as Hne.
  destruct (hi_live _ _ _ H b) as [d Hd]; [by left|].
  destruct (user_of_live _ _ _ _ H Hd) as (_ & _ & _ & Hie & [Hbl Hms] & _).
  assert (blocks h1 !! m_data b = Some d) as Hd' by (rewrite Hs1; [done|by left]).
  assert (bytes_of h1 (m_data b) = bytes_of h (m_data b)) as Hb1 by (unfold bytes_of; by rewrite Hd', Hd).
  assert (length (bytes_of h (m_data b)) = Z.to_nat (m_size d)) as Hlb by (unfold bytes_of; by rewrite Hd).
  destruct (hi_shape _ _ _ H1 _ _ Hd1) as [Hsh1 _].
  set (bytes := slice (m_start b) isz (bytes_of h (m_data b))).
  assert (length bytes = Z.to_nat isz) as Hlby by (unfold bytes; rewrite length_slice; unfold iend in *; lia).
  destruct (mem_write_ok a off bytes h1 d1) as (h2 & Hwr & Hby & Hfr & Hd2 & Hr2 & Hi2); [done|done|lia|lia|].
  destruct (release_ok (Some a) b h2 bs) as (h3 & Hre & H3 & Hs3 & Hf3 & Hr3);
    [by apply Hi2|intros [= ->]; by apply (Hne b); [left|]|done|].
  assert (a ≠ m_data b) as Hab by (intros ->; by apply (Hne b); [left|]).
  eexists a, h1, bytes, h2, h3, _.
  conj; [done|rewrite (mem_read_ok _ _ _ _ d), Hb1 by (done || unfold iend in *; lia); done
        |done|done|done| |by rewrite Hf3, Hd2|done| |intros o Ho; apply Hne; by right|congruence].
  - intros o Ho. rewrite Hs3 by done. unfold bytes_of. rewrite Hfr by (apply Hne; by right).
    rewrite Hs1; [done|by right].
  - unfold bytes_of at 1. rewrite Hf3, Hd2 by done. cbn. rewrite Hby.
    rewrite <- (Z2Nat.id isz) at 1 by lia. rewrite <- Hlby. destruct Hsh1 as [Hl1 ?].
    apply slice_splice_same; [lia|]. unfold bytes_of. rewrite Hd1. cbn. lia.
Qed.

(** What the bytes of a grown buffer are: room for [n] new bytes, then the old ones. *)
Definition grown_at_start (n : Z) (h : heap) (b : Buffer) (h' : heap) (b' : Buffer) : Prop :=
  m_zeroAreaStart b' - m_start b' = n + (m_zeroAreaStart b - m_start b) ∧
  m_zeroAreaEnd b' - m_zeroAreaStart b' = m_zeroAreaEnd b - m_zeroAreaStart b ∧
  m_end b' - m_zeroAreaEnd b' = m_end b - m_zeroAreaEnd b ∧
  slice (m_start b' + n) (m_zeroAreaStart b - m_start b) (bytes_of h' (m_data b')) =
    slice (m_start b) (m_zeroAreaStart b - m_start b) (bytes_of h (m_data b)) ∧
  slice (m_zeroAreaStart b') (m_end b - m_zeroAreaEnd b) (bytes_of h' (m_data b')) =
    slice (m_zeroAreaStart b) (m_end b - m_zeroAreaEnd b) (bytes_of h (m_data b)).

Lemma AddAtStart_ok n b bs h :
  heap_inv None h (b :: bs) → 0 ≤ n → m_end b + n < 2 ^ 31 - 100 →
  Z.of_nat (length (b :: bs)) < 2 ^ 32 →
  ∃ b' h', AddAtStart fill n b h = Ok (b', h') ∧ heap_inv None h' (b' :: bs) ∧
    same_bytes h h' bs ∧ grown_at_start n h b h' b' ∧ m_end b' ≤ m_end b + n ∧
    (∀ o, o ∈ bs → m_data o = m_data b' → m_start b' + n ≤ m_start o) ∧
    (m_data b' = m_data b ∨ ∀ o, o ∈ bs → m_data o ≠ m_data b') ∧
    g_recommendedStart h' = g_recommendedStart h.
Proof.
  intros H Hn Hcap Hlen. destruct (hi_live _ _ _ H b) as [d Hd]; [by left|].
  destruct (user_of_live _ _ _ _ H Hd) as (Hw & Hds & Hde & Hie & Hsh & Hok).
  pose proof (GetInternalSize_ok b Hw) as Hgi.
  unfold AddAtStart. rewrite Hd. res_simpl. unfold window_ok in Hw.
  destruct (_ && _) eqn:Hcond.
  - apply andb_true_iff in Hcond as [Hle%Z.leb_le Hnd%negb_true_iff].
    destruct Hok as [Hc (hw & Hhw & [Hub Hf]%Forall_cons)]. cbn in Hc.
    assert (m_count d = 1 ∨ m_start b = m_dirtyStart d) as Has.
    { apply andb_false_iff in Hnd as [Hnd|Hnd]; apply Z.ltb_ge in Hnd; lia. }
    assert (∀ o, o ∈ users (m_data b) bs → m_start b ≤ m_start o) as Hlow.
    { intros o Ho. rewrite Forall_forall in Hf.
      destruct Has as [H1|Has]; [|destruct (Hf o Ho) as (_ & ? & _); lia].
      destruct (users (m_data b) bs); [by apply not_elem_of_nil in Ho|cbn in Hc; lia]. }
    assert ((m_count d =? 1) || (m_start b =? m_dirtyStart d) = true) as ->.
    { apply orb_true_iff. rewrite !Z.eqb_eq. done. }
    res_simpl. unfold update_dirty. cbn [m_data m_start]. rewrite Hd. res_simpl.
    rewrite (wrap_id 32) by zlia. eexists _, _. split; [done|].
    assert (∀ a, bytes_of (set_block (m_data b) (set_dirty (m_start b - n) (m_dirtyEnd d) d) h) a = bytes_of h a)
      as Hby.
    { intros a. unfold bytes_of. cbn. destruct (decide (m_data b = a)) as [<-|];
        [by rewrite lookup_insert_eq, Hd|by rewrite lookup_insert_ne]. }
    conj; [|intros o _; apply Hby| |cbn; lia| |by left|done].
    + apply (inv_replace b _ bs h d); [done|done|done|done|]. split; [cbn; lia|].
      exists hw. split; [done|]. constructor.
      * unfold user_ok, window_ok, iend in *. cbn. conj; lia.
      * rewrite Forall_forall in Hf |- *. intros o Ho. specialize (Hf o Ho). specialize (Hlow o Ho).
        unfold user_ok, window_ok, iend in *. cbn. intuition lia.
    + unfold grown_at_start. rewrite !Hby. cbn. conj; [lia|lia|lia|f_equal; lia|done].
    + intros o Ho Heq. cbn in Heq |- *.
      assert (o ∈ users (m_data b) bs) as Hou by by apply elem_of_users.
      specialize (Hlow o Hou). lia.
  - cbv zeta. destruct (realloc_ok b bs h n n) as
      (a & h1 & by_ & h2 & h3 & d3 & Hcr & Hrd & Hwr & Hre & H3 & Hs3 & Hd3 & Hsz & Hsl & Hne & Hr3); [done|lia|lia|lia|lia|].
    rewrite Hcr. res_simpl. rewrite Hrd. res_simpl. rewrite Hwr. res_simpl. rewrite Hre. res_simpl.
    rewrite Hgi in Hsz. rewrite (sint32_small (n - m_start b)) by lia.
    cbn [m_data m_start m_end].
    rewrite (wrap_id 32 (m_start b + _)) by zlia. rewrite !wrap_id by zlia.
    replace (m_start b + (n - m_start b) - n) with 0 by lia.
    destruct (inv_adopt a h3 bs (mkBuffer a (m_maxZeroAreaStart b) (m_zeroAreaStart b + (n - m_start b))
      (m_zeroAreaEnd b + (n - m_start b)) 0 (m_end b + (n - m_start b))) d3) as (h4 & Hup & H4 & Hf4 & Hb4 & Hr4);
      [done|done|done|unfold window_ok; cbn; lia|unfold iend in *; cbn; lia|].
    cbn [m_start m_end] in Hup. rewrite Hup. res_simpl. eexists _, _. split; [done|].
    conj; [by apply inv_update_max| | |cbn; lia|intros o Ho Heq; by destruct (Hne o Ho)
          |right; exact Hne|congruence].
    + intros o Ho. unfold bytes_of. rewrite Hf4 by (by apply Hne). by apply Hs3.
    + unfold grown_at_start, iend in *. cbn [m_data m_zeroAreaStart m_zeroAreaEnd m_start m_end update_max].
      rewrite Hb4. conj; [lia|lia|lia| |].
      * rewrite <- (Z.add_0_r (m_start b)) at 2. rewrite Z.add_comm.
        apply (slice_sub_eq _ _ _ _ _ 0 _ Hsl); lia.
      * replace (m_zeroAreaStart b + (n - m_start b)) with (n + (m_zeroAreaStart b - m_start b)) by lia.
        replace (m_zeroAreaStart b) with (m_start b + (m_zeroAreaStart b - m_start b)) at 2 by lia.
        apply (slice_sub_eq _ _ _ _ _ _ _ Hsl); lia.
Qed.

Definition grown_at_end (n : Z) (h : heap) (b : Buffer) (h' : heap) (b' : Buffer) : Prop :=
  m_zeroAreaStart b' - m_start b' = m_zeroAreaStart b - m_start b ∧
  m_zeroAreaEnd b' - m_zeroAreaStart b' = m_zeroAreaEnd b - m_zeroAreaStart b ∧
  m_end b' - m_zeroAreaEnd b' = m_end b - m_zeroAreaEnd b + n ∧
  slice (m_start b') (m_zeroAreaStart b - m_start b) (bytes_of h' (m_data b')) =
    slice (m_start b) (m_zeroAreaStart b - m_start b) (bytes_of h (m_data b)) ∧
  slice (m_zeroAreaStart b') (m_end b - m_zeroAreaEnd b) (bytes_of h' (m_data b')) =
    slice (m_zeroAreaStart b) (m_end b - m_zeroAreaEnd b) (bytes_of h (m_data b)).

Lemma AddAtEnd_ok n b bs h :
  heap_inv None h (b :: bs) → 0 ≤ n → m_end b + n < 2 ^ 31 - 100 →
  Z.of_nat (length (b :: bs)) < 2 ^ 32 →
  ∃ b' h', AddAtEnd fill n b h = Ok (b', h') ∧ heap_inv None h' (b' :: bs) ∧
    same_bytes h h' bs ∧ grown_at_end n h b h' b' ∧ m_end b' ≤ m_end b + n ∧
    (∀ o, o ∈ bs → m_data o = m_data b' → iend o ≤ iend b' - n) ∧
    (m_data b' = m_data b ∨ ∀ o, o ∈ bs → m_data o ≠ m_data b') ∧
    g_recommendedStart h' = g_recommendedStart h.
Proof.
  intros H Hn Hcap Hlen. destruct (hi_live _ _ _ H b) as [d Hd]; [by left|].
  destruct (user_of_live _ _ _ _ H Hd) as (Hw & Hds & Hde & Hie & Hsh & Hok).
  pose proof (GetInternalSize_ok b Hw) as Hgi.
  unfold AddAtEnd. rewrite Hd. res_simpl. rewrite (GetInternalEnd_ok b Hw). unfold window_ok in Hw.
  destruct (_ && _) eqn:Hcond.
  - apply andb_true_iff in Hcond as [Hle%Z.leb_le Hnd%negb_true_iff].
    rewrite (wrap_id 32) in Hle by (unfold iend in *; zlia).
    destruct Hok as [Hc (hw & Hhw & [Hub Hf]%Forall_cons)]. cbn in Hc.
    assert (m_count d = 1 ∨ m_end b = m_dirtyEnd d) as Has.
    { apply andb_false_iff in Hnd as [Hnd|Hnd]; apply Z.ltb_ge in Hnd; lia. }
    assert (∀ o, o ∈ users (m_data b) bs → m_end b = m_dirtyEnd d ∧ iend b = hw) as Hlow.
    { intros o Ho. rewrite Forall_forall in Hf.
      destruct Has as [H1|Has]; [|split; [done|by apply Hub]].
      destruct (users (m_data b) bs); [by apply not_elem_of_nil in Ho|cbn in Hc; lia]. }
    assert ((m_count d =? 1) || (m_end b =? m_dirtyEnd d) = true) as ->.
    { apply orb_true_iff. rewrite !Z.eqb_eq. done. }
    res_simpl. unfold update_dirty. cbn [m_data m_end]. rewrite Hd. res_simpl.
    rewrite (wrap_id 32) by zlia. eexists _, _. split; [done|].
    assert (∀ a, bytes_of (set_block (m_data b) (set_dirty (m_dirtyStart d) (m_end b + n) d) h) a = bytes_of h a)
      as Hby.
    { intros a. unfold bytes_of. cbn. destruct (decide (m_data b = a)) as [<-|];
        [by rewrite lookup_insert_eq, Hd|by rewrite lookup_insert_ne]. }
    conj; [|intros o _; apply Hby| |cbn; lia| |by left|done].
    + apply (inv_replace b _ bs h d); [done|done|done|done|]. split; [cbn; lia|].
      exists (iend b + n). split; [cbn; lia|]. constructor.
      * unfold user_ok, window_ok, iend in *. cbn. conj; lia.
      * rewrite Forall_forall in Hf |- *. intros o Ho. specialize (Hf o Ho). specialize (Hlow o Ho).
        unfold user_ok, window_ok, iend in *. cbn. intuition lia.
    + unfold grown_at_end. rewrite !Hby. cbn. conj; [lia|lia|lia|done|done].
    + intros o Ho Heq. cbn in Heq.
      assert (o ∈ users (m_data b) bs) as Hou by by apply elem_of_users.
      destruct (Hlow o Hou) as [_ Hhe]. rewrite Forall_forall in Hf.
      destruct (Hf o Hou) as (_ & _ & _ & Hio & _). unfold iend in *. cbn. lia.
  - cbv zeta. destruct (realloc_ok b bs h n 0) as
      (a & h1 & by_ & h2 & h3 & d3 & Hcr & Hrd & Hwr & Hre & H3 & Hs3 & Hd3 & Hsz & Hsl & Hne & Hr3);
      [done|lia|lia|lia|lia|].
    rewrite Hcr. res_simpl. rewrite Hrd. res_simpl. rewrite Hwr. res_simpl. rewrite Hre. res_simpl.
    rewrite Hgi in Hsz. rewrite (sint32_small (- m_start b)) by lia.
    cbn [m_data m_start m_end]. rewrite (wrap_id 32 (m_end b + _)) by zlia. rewrite !wrap_id by zlia.
    replace (m_start b + - m_start b) with 0 by lia.
    destruct (inv_adopt a h3 bs (mkBuffer a (m_maxZeroAreaStart b) (m_zeroAreaStart b + - m_start b)
      (m_zeroAreaEnd b + - m_start b) 0 (m_end b + - m_start b + n)) d3) as (h4 & Hup & H4 & Hf4 & Hb4 & Hr4);
      [done|done|done|unfold window_ok; cbn; lia|unfold iend in *; cbn; lia|].
    cbn [m_start m_end] in Hup. rewrite Hup. res_simpl. eexists _, _. split; [done|].
    conj; [by apply inv_update_max| | |cbn; lia|intros o Ho Heq; by destruct (Hne o Ho)
          |right; exact Hne|congruence].
    + intros o Ho. unfold bytes_of. rewrite Hf4 by (by apply Hne). by apply Hs3.
    + unfold grown_at_end, iend in *. cbn [m_data m_zeroAreaStart m_zeroAreaEnd m_start m_end update_max].
      rewrite Hb4. conj; [lia|lia|lia| |].
      * rewrite <- (Z.add_0_r (m_start b)) at 2. rewrite <- (Z.add_0_l 0) at 1.
        apply (slice_sub_eq _ _ _ _ _ 0 _ Hsl); lia.
      * replace (m_zeroAreaStart b + - m_start b) with (0 + (m_zeroAreaStart b - m_start b)) by lia.
        replace (m_zeroAreaStart b) with (m_start b + (m_zeroAreaStart b - m_start b)) at 2 by lia.
        apply (slice_sub_eq _ _ _ _ _ _ _ Hsl); lia.
Qed.
End operations.

(** ** Bytes by virtual offset *)

Lemma drop_slice {A} (l : list A) a m n :
  0 ≤ a → 0 ≤ n ≤ m → drop (Z.to_nat n) (slice a m l) = slice (a + n) (m - n) l.
Proof.
  intros. apply list_eq. intros i. rewrite lookup_drop, !lookup_slice.
  repeat case_decide; try lia; [f_equal; lia|done].
Qed.

Lemma take_slice {A} (l : list A) a m n :
  0 ≤ n ≤ m → take (Z.to_nat n) (slice a m l) = slice a n l.
Proof. intros. unfold slice. rewrite take_take. f_equal. lia. Qed.

Lemma drop_zeros m n : 0 ≤ n ≤ m → drop (Z.to_nat n) (zeros m) = zeros (m - n).
Proof. intros. unfold zeros. rewrite drop_replicate. f_equal. lia. Qed.

Lemma take_zeros m n : 0 ≤ n ≤ m → take (Z.to_nat n) (zeros m) = zeros n.
Proof. intros. unfold zeros. rewrite take_replicate. f_equal. lia. Qed.

Lemma splice_app_l {A} a (bs l1 l2 : list A) :
  0 ≤ a → a + Z.of_nat (length bs) ≤ Z.of_nat (length l1) →
  splice a bs (l1 ++ l2) = splice a bs l1 ++ l2.
Proof.
  intros. unfold splice. rewrite take_app_le, drop_app_le by lia. by rewrite <- !app_assoc.
Qed.

Lemma splice_app_r {A} a (bs l1 l2 : list A) :
  Z.of_nat (length l1) ≤ a →
  splice a bs (l1 ++ l2) = l1 ++ splice (a - Z.of_nat (length l1)) bs l2.
Proof.
  intros. unfold splice. rewrite take_app_ge, drop_app_ge by lia. rewrite <- app_assoc.
  do 2 f_equal; [f_equal; lia|]. do 2 f_equal. lia.
Qed.

Lemma slice_splice_in {A} a n off (bs l : list A) :
  0 ≤ a → a ≤ off → off + Z.of_nat (length bs) ≤ a + n → a + n ≤ Z.of_nat (length l) →
  slice a n (splice off bs l) = splice (off - a) bs (slice a n l).
Proof.
  intros. assert (length (slice a n l) = Z.to_nat n) as Hl by (apply length_slice; lia).
  apply list_eq. intros i. rewrite (lookup_splice (off - a)) by lia.
  rewrite !lookup_slice. case_decide.
  - rewrite lookup_splice by lia. repeat case_decide; try lia; try done. f_equal. lia.
  - repeat case_decide; try lia; done.
Qed.

Definition phys (b : Buffer) (p : Z) : Z :=
  if p <? m_zeroAreaEnd b then p else p - (m_zeroAreaEnd b - m_zeroAreaStart b).

(** [k] bytes from [p] are real bytes of [b]: all before or all after the zero area. *)
Definition real_range (b : Buffer) (p k : Z) : Prop :=
  (m_start b ≤ p ∧ p + k ≤ m_zeroAreaStart b) ∨ (m_zeroAreaEnd b ≤ p ∧ p + k ≤ m_end b).

Section access.
Context (b : Buffer) (bs : list Buffer) (h : heap) (H : heap_inv None h (b :: bs)).

Lemma live_block : ∃ d, blocks h !! m_data b = Some d ∧ window_ok b ∧ iend b ≤ m_size d ∧
  block_shape d ∧ Z.of_nat (length (bytes_of h (m_data b))) = m_size d.
Proof using H.
  destruct (hi_live _ _ _ H b) as [d Hd]; [by left|].
  destruct (user_of_live _ _ _ _ H Hd) as (Hw & _ & _ & Hie & Hsh & _).
  exists d. conj; try done. destruct Hsh. unfold bytes_of. rewrite Hd. cbn. lia.
Qed.

(** The lengths of the three parts of the view. *)
Lemma view_parts :
  Z.of_nat (length (slice (m_start b) (m_zeroAreaStart b - m_start b) (bytes_of h (m_data b)))) =
    m_zeroAreaStart b - m_start b ∧
  Z.of_nat (length (zeros (m_zeroAreaEnd b - m_zeroAreaStart b))) =
    m_zeroAreaEnd b - m_zeroAreaStart b ∧
  Z.of_nat (length (slice (m_zeroAreaStart b) (m_end b - m_zeroAreaEnd b) (bytes_of h (m_data b)))) =
    m_end b - m_zeroAreaEnd b.
Proof using H.
  destruct live_block as (d & _ & Hw & Hie & _ & Hl). unfold window_ok, iend in *.
  rewrite length_zeros, !length_slice by lia. lia.
Qed.

Lemma length_view : Z.of_nat (length (view h b)) = m_end b - m_start b.
Proof using H.
  destruct view_parts as (H1 & H2 & H3). unfold view. rewrite !length_app. lia.
Qed.

(** A write of real bytes, and who sees it. *)
Lemma write_at p bytes :
  real_range b p (Z.of_nat (length bytes)) →
  ∃ h', mem_write (m_data b) (phys b p) bytes h = Ok h' ∧ heap_inv None h' (b :: bs) ∧
    view h' b = splice (p - m_start b) bytes (view h b) ∧
    (∀ o, o ∈ bs →
      (m_data o = m_data b → iend o ≤ phys b p ∨ phys b p + Z.of_nat (length bytes) ≤ m_start o) →
      view h' o = view h o) ∧
    (∀ a, a ≠ m_data b → blocks h' !! a = blocks h !! a) ∧
    g_recommendedStart h' = g_recommendedStart h.
Proof using H.
  intros Hr. destruct live_block as (d & Hd & Hw & Hie & Hsh & Hl).
  destruct view_parts as (Hl1 & Hl2 & Hl3). set (k := Z.of_nat (length bytes)) in *.
  assert (0 ≤ phys b p ∧ phys b p + k ≤ m_size d) as [Hp0 Hpk].
  { unfold phys, real_range, window_ok, iend in *. case_match eqn:E;
      [apply Z.ltb_lt in E|apply Z.ltb_ge in E]; lia. }
  destruct (mem_write_ok (m_data b) (phys b p) bytes h d) as (h' & Hwr & Hby & Hfr & _ & Hrec & Hi);
    [done|done|done|fold k; lia|].
  exists h'. conj; [done|by apply Hi| | |done|done].
  - unfold view. rewrite Hby. unfold real_range, window_ok, iend, phys in *.
    destruct Hr as [[Hr1 Hr2]|[Hr1 Hr2]].
    + assert (phys b p = p) as Hph.
      { unfold phys. case_match eqn:E; [done|]. apply Z.ltb_ge in E. lia. }
      unfold phys in Hph. rewrite Hph. rewrite splice_app_l by (fold k; lia). f_equal.
      * apply slice_splice_in; fold k; lia.
      * f_equal. destruct (decide (m_zeroAreaStart b < m_zeroAreaStart b)); [lia|].
        apply slice_splice_other; fold k; lia.
    + assert (phys b p = p - (m_zeroAreaEnd b - m_zeroAreaStart b)) as Hph.
      { unfold phys. case_match eqn:E; [apply Z.ltb_lt in E; lia|done]. }
      unfold phys in Hph. rewrite Hph. rewrite !splice_app_r by lia. f_equal; [|f_equal].
      * apply slice_splice_other; fold k; lia.
      * rewrite slice_splice_in by (fold k; lia). f_equal. lia.
  - intros o Ho Hdis. destruct (decide (m_data o = m_data b)) as [Ho'|Ho'].
    2: { unfold view, bytes_of. by rewrite Hfr. }
    specialize (Hdis Ho'). pose proof (hi_block _ _ _ H _ _ Hd ltac:(done)) as [_ (hw & _ & Hf)].
    rewrite Forall_forall in Hf. destruct (Hf o) as (Hwo & _); [apply elem_of_users; split; [done|by right]|].
    unfold view. rewrite Ho', Hby. unfold window_ok, iend in *.
    f_equal; [|f_equal]; apply slice_splice_other; fold k; lia.
Qed.

(** A read of real bytes. *)
Lemma read_at p k :
  0 ≤ k → real_range b p k → mem_read (m_data b) (phys b p) k h = Ok (slice (p - m_start b) k (view h b)).
Proof using H.
  intros Hk Hr. destruct live_block as (d & Hd & Hw & Hie & Hsh & Hl).
  destruct view_parts as (Hl1 & Hl2 & Hl3).
  assert (0 ≤ phys b p ∧ phys b p + k ≤ m_size d) as [Hp0 Hpk].
  { unfold phys, real_range, window_ok, iend in *. case_match eqn:E;
      [apply Z.ltb_lt in E|apply Z.ltb_ge in E]; lia. }
  rewrite (mem_read_ok _ _ _ _ d) by (done || lia). f_equal.
  unfold view, real_range, window_ok, iend in *.
  apply list_eq. intros i. rewrite !lookup_slice. case_decide; [|done].
  destruct Hr as [[Hr1 Hr2]|[Hr1 Hr2]].
  - assert (phys b p = p) as ->. { unfold phys. case_match eqn:E; [done|]. apply Z.ltb_ge in E. lia. }
    rewrite lookup_app_l by lia. rewrite lookup_slice, decide_True by lia. f_equal. lia.
  - assert (phys b p = p - (m_zeroAreaEnd b - m_zeroAreaStart b)) as ->.
    { unfold phys. case_match eqn:E; [apply Z.ltb_lt in E; lia|done]. }
    rewrite !lookup_app_r by lia. rewrite lookup_slice, decide_True by lia. f_equal. lia.
Qed.

(** [PeekU8] reads the view, zero area included. *)
Lemma PeekU8_ok p :
  m_start b ≤ p < m_end b →
  ∃ v, PeekU8 (Construct b p) h = Ok v ∧ view h b !! Z.to_nat (p - m_start b) = Some v.
Proof using H.
  intros Hp. destruct live_block as (d & Hd & Hw & Hie & Hsh & Hl).
  destruct view_parts as (Hl1 & Hl2 & Hl3). pose proof length_view as Hlv.
  destruct (lookup_lt_is_Some_2 (view h b) (Z.to_nat (p - m_start b))) as [v Hv]; [lia|].
  exists v. split; [|done]. unfold PeekU8. cbn [i_dataStart i_current i_dataEnd Construct i_zeroStart i_zeroEnd i_data].
  rewrite (proj2 (Z.leb_le _ _)), (proj2 (Z.ltb_lt _ (m_end b))) by lia. res_simpl.
  assert (real_range b p 1 → (bs0 ← mem_read (m_data b) (phys b p) 1 h; deref (head bs0)) = Ok v) as Hrd.
  { intros Hr. rewrite read_at by (done || lia). res_simpl.
    destruct (slice _ 1 _) as [|x l] eqn:E.
    - apply (f_equal length) in E. rewrite length_slice in E by (unfold real_range, window_ok in *; lia).
      done.
    - apply (f_equal (.!! 0%nat)) in E. rewrite lookup_slice, decide_True, Nat.add_0_r, Hv in E by lia.
      cbn in E. cbn. congruence. }
  unfold real_range, window_ok in *. unfold phys in Hrd. destruct (Z.ltb_spec p (m_zeroAreaStart b)).
  - rewrite (proj2 (Z.ltb_lt _ _)) in Hrd by lia. apply Hrd. lia.
  - destruct (Z.ltb_spec p (m_zeroAreaEnd b)).
    + unfold view in Hv. rewrite lookup_app_r, lookup_app_l in Hv by lia.
      unfold zeros in Hv. apply lookup_replicate in Hv as [-> _]. done.
    + unfold past_zero. cbn [i_zeroStart i_zeroEnd Construct].
      rewrite (wrap_id 32 (m_zeroAreaEnd b - _)), wrap_id by zlia. apply Hrd. lia.
Qed.
End access.

(** ** Removal *)

Ltac z_cases :=
  repeat match goal with
  | |- context [?x <=? ?y] => destruct (Z.leb_spec x y)
  | |- context [?x <? ?y] => destruct (Z.ltb_spec x y)
  end.

Section removal.
Context (b : Buffer) (bs : list Buffer) (h : heap) (H : heap_inv None h (b :: bs)).

Lemma RemoveAtStart_ok n :
  0 ≤ n → m_start b + n < 2 ^ 32 →
  ∃ b', RemoveAtStart n b = Ok b' ∧ heap_inv None h (b' :: bs) ∧
    view h b' = drop (Z.to_nat n) (view h b) ∧ m_end b' ≤ m_end b ∧ m_data b' = m_data b.
Proof using H.
  intros Hn Hcap. pose proof (window_of_live _ _ _ H) as Hw. pose proof Hw as Hw'.
  unfold window_ok in Hw'. destruct (view_parts b bs h H) as (Hl1 & Hl2 & Hl3).
  unfold RemoveAtStart. rewrite (wrap_id 32 (m_start b + n)) by zlia.
  destruct (Z.leb_spec (m_start b + n) (m_zeroAreaStart b));
    [|destruct (Z.leb_spec (m_start b + n) (m_zeroAreaEnd b));
      [|destruct (Z.leb_spec (m_start b + n) (m_end b))]]; res_simpl.
  - eexists. split; [done|]. conj; [|unfold view; cbn|done|done].
    + apply inv_update_max, (inv_shrink b); unfold window_ok, iend; cbn; try done; try lia.
    + rewrite drop_app_le by lia. rewrite drop_slice by lia. do 2 f_equal. lia.
  - eexists. rewrite (wrap_id 32 (m_start b + n - _)) by zlia. rewrite !wrap_id by zlia.
    split; [done|]. conj; [|unfold view; cbn|cbn; lia|done].
    + apply inv_update_max, (inv_shrink b); unfold window_ok, iend; cbn; try done; try lia.
    + rewrite drop_app_ge by lia. rewrite Z.sub_diag, slice_0. cbn [app].
      rewrite drop_app_le by lia.
      replace (Z.to_nat n - _)%nat with (Z.to_nat (n - (m_zeroAreaStart b - m_start b))) by lia.
      rewrite drop_zeros by lia. f_equal; [|f_equal]; [f_equal; lia|lia].
  - rewrite (proj2 (Z.leb_le n _)) by lia. res_simpl. eexists.
    rewrite (wrap_id 32 (m_zeroAreaEnd b - _)) by zlia. rewrite !wrap_id by zlia.
    split; [done|]. conj; [|unfold view; cbn|cbn; lia|done].
    + apply inv_update_max, (inv_shrink b); unfold window_ok, iend; cbn; try done; try lia.
    + rewrite !drop_app_ge by lia. rewrite !Z.sub_diag, slice_0. cbn [app].
      replace (_ - _ - _)%nat with (Z.to_nat (n - (m_zeroAreaEnd b - m_start b))) by lia.
      rewrite drop_slice by lia. change (zeros 0) with (@nil Z). cbn [app]. f_equal; lia.
  - eexists. rewrite (wrap_id 32 (m_zeroAreaEnd b - _)) by zlia. rewrite !wrap_id by zlia.
    split; [done|]. conj; [|unfold view; cbn|cbn; lia|done].
    + apply inv_update_max, (inv_shrink b); unfold window_ok, iend; cbn; try done; try lia.
    + rewrite !Z.sub_diag, !slice_0. symmetry. apply drop_ge. rewrite !length_app. cbn. lia.
Qed.

Lemma RemoveAtEnd_ok n :
  0 ≤ n →
  heap_inv None h (RemoveAtEnd n b :: bs) ∧
  view h (RemoveAtEnd n b) = take (length (view h b) - Z.to_nat n) (view h b) ∧
  m_end (RemoveAtEnd n b) ≤ m_end b ∧ m_data (RemoveAtEnd n b) = m_data b.
Proof using H.
  intros Hn. pose proof (window_of_live _ _ _ H) as Hw. pose proof Hw as Hw'.
  unfold window_ok in Hw'. destruct (view_parts b bs h H) as (Hl1 & Hl2 & Hl3).
  pose proof (length_view b bs h H) as Hlv.
  unfold RemoveAtEnd. rewrite (wrap_id 32 (m_end b - m_start b)), wrap_id by zlia.
  set (e := m_end b - Z.min n (m_end b - m_start b)).
  assert (m_start b ≤ e ≤ m_end b) as He by lia.
  assert ((length (view h b) - Z.to_nat n)%nat = Z.to_nat (e - m_start b)) as -> by lia.
  assert (∀ b', m_data b' = m_data b → m_start b' = m_start b → window_ok b' → m_end b' ≤ m_end b →
    iend b' ≤ iend b → (m_end b' = m_end b → iend b' = iend b) →
    heap_inv None h (update_max b' :: bs)) as Hinv.
  { intros. apply inv_update_max, (inv_shrink b); try done; lia. }
  destruct (Z.ltb_spec (m_zeroAreaEnd b) e); [|destruct (Z.ltb_spec (m_zeroAreaStart b) e);
    [|destruct (Z.ltb_spec (m_start b) e)]]; conj; try done; try (cbn; lia);
    try (apply Hinv; unfold window_ok, iend; cbn; try done; lia); unfold view; cbn.
  - rewrite take_app_ge, take_app_ge by lia. do 2 f_equal.
    replace (_ - _ - _)%nat with (Z.to_nat (e - m_zeroAreaEnd b)) by lia.
    symmetry. apply take_slice. lia.
  - rewrite take_app_ge, take_app_le by lia. rewrite Z.sub_diag, slice_0, app_nil_r. f_equal.
    replace (_ - _)%nat with (Z.to_nat (e - m_zeroAreaStart b)) by lia.
    symmetry. apply take_zeros. lia.
  - rewrite take_app_le by lia. rewrite !Z.sub_diag, slice_0. cbn [zeros app]. rewrite app_nil_r.
    symmetry. apply take_slice. lia.
  - rewrite !Z.sub_diag, !slice_0. cbn. assert (e - m_start b = 0) as -> by lia. done.
Qed.
End removal.

Lemma CreateFragment_ok start len b bs h :
  heap_inv None h bs → b ∈ bs → Z.of_nat (length bs) + 1 < 2 ^ 32 →
  0 ≤ start → 0 ≤ len → m_start b + start + len ≤ m_end b →
  ∃ b' h', CreateFragment start len b h = Ok (b', h') ∧ heap_inv None h' (b' :: bs) ∧
    same_bytes h h' bs ∧ view h' b' = take (Z.to_nat len) (drop (Z.to_nat start) (view h b)).
Proof.
  intros H Hb Hlen Hs Hl Hfit.
  destruct (copy_ok h bs b H Hb Hlen) as (t & h' & Hc & H' & Hsame & Hv & Hst & Hen & _).
  pose proof (window_of_live _ _ _ H') as Hw. pose proof (length_view _ _ _ H') as Hlv.
  assert (window_ok b) as Hwb.
  { destruct (hi_live _ _ _ H b Hb) as [d Hd].
    destruct (hi_block _ _ _ H _ _ Hd ltac:(done)) as [_ (hw & _ & Hf)].
    rewrite Forall_forall in Hf. apply Hf, elem_of_users. done. }
  unfold window_ok in Hw.
  destruct (RemoveAtStart_ok t bs h' H' start) as (t1 & Hr & H1 & Hv1 & _ & _); [lia|lia|].
  unfold CreateFragment. rewrite Hc. res_simpl. rewrite Hr. res_simpl.
  rewrite GetSize_ok by done. rewrite (wrap_id 32 (start + len)), wrap_id by zlia.
  destruct (RemoveAtEnd_ok t1 bs h' H1 (m_end b - m_start b - (start + len))) as (H2 & Hv2 & _); [lia|].
  eexists _, _. split; [done|]. conj; [done|done|].
  rewrite Hv2, Hv1, Hv. f_equal. rewrite length_drop, <- Hv. lia.
Qed.

(** ** Headers and trailers *)

Section write_bytes.
Context (b : Buffer) (bs : list Buffer) (h : heap) (H : heap_inv None h (b :: bs)).

(** The writing operations of an iterator write the view. *)
Lemma Write_bytes_ok p bytes :
  real_range b p (Z.of_nat (length bytes)) →
  ∃ h', Write_bytes bytes (Construct b p) h = Ok (Construct b (p + Z.of_nat (length bytes)), h') ∧
    mem_write (m_data b) (phys b p) bytes h = Ok h'.
Proof using H.
  intros Hr. pose proof (window_of_live _ _ _ H) as Hw. unfold window_ok in Hw.
  destruct (write_at b bs h H p bytes Hr) as (h' & Hwr & _).
  exists h'. split; [|done]. unfold Write_bytes. cbn [i_current Construct i_data i_zeroStart].
  assert (CheckNoZero (Construct b p) p (Z.of_nat (length bytes)) = true) as ->.
  { unfold CheckNoZero, real_range in *. cbn. apply negb_true_iff. rewrite !orb_false_iff, !andb_false_iff.
    rewrite !Z.ltb_ge, !negb_false_iff, !Z.eqb_eq. lia. }
  res_simpl.
  assert ((if p <=? m_zeroAreaStart b then p else past_zero (Construct b p) p) = phys b p) as ->.
  { unfold phys, past_zero, real_range in *. cbn. rewrite (wrap_id 32 (m_zeroAreaEnd b - _)) by zlia.
    z_cases; try lia; rewrite ?wrap_id by zlia; lia. }
  rewrite Hwr. res_simpl. do 2 f_equal. unfold set_current, Construct. cbn. f_equal.
  rewrite wrap_id; [done|]. unfold real_range in Hr. zlia.
Qed.
End write_bytes.

(** The header of a packet: the bytes in front of the old content. *)
Lemma grown_at_start_view n h b h' b' bs :
  grown_at_start n h b h' b' → 0 ≤ n → heap_inv None h (b :: bs) → heap_inv None h' (b' :: bs) →
  view h' b' = slice (m_start b') n (bytes_of h' (m_data b')) ++ view h b.
Proof.
  intros (H1 & H2 & H3 & H4 & H5) Hn Hi Hi'. pose proof (window_of_live _ _ _ Hi) as Hw.
  pose proof (window_of_live _ _ _ Hi') as Hw'. unfold window_ok in *.
  unfold view. rewrite H1, H2, H3, H5, slice_app, H4 by lia. by rewrite <- !app_assoc.
Qed.

Lemma grown_at_end_view n h b h' b' bs :
  grown_at_end n h b h' b' → 0 ≤ n → heap_inv None h (b :: bs) → heap_inv None h' (b' :: bs) →
  view h' b' = view h b ++ slice (iend b' - n) n (bytes_of h' (m_data b')).
Proof.
  intros (H1 & H2 & H3 & H4 & H5) Hn Hi Hi'. pose proof (window_of_live _ _ _ Hi) as Hw.
  pose proof (window_of_live _ _ _ Hi') as Hw'. unfold window_ok in *.
  unfold view, iend. rewrite H1, H2, H3, slice_app, H4, H5 by lia. rewrite <- !app_assoc.
  do 4 f_equal. lia.
Qed.

Section headers.
Context (fill : Z → Z → Z).

Lemma add_header_ok hdr b bs h :
  heap_inv None h (b :: bs) → m_end b + Z.of_nat (length hdr) < 2 ^ 31 - 100 →
  Z.of_nat (length (b :: bs)) < 2 ^ 32 →
  ∃ b' h1 h2, AddAtStart fill (Z.of_nat (length hdr)) b h = Ok (b', h1) ∧
    Write_bytes hdr (Begin b') h1 =
      Ok (Construct b' (m_start b' + Z.of_nat (length hdr)), h2) ∧
    heap_inv None h2 (b' :: bs) ∧ view h2 b' = hdr ++ view h b ∧
    (∀ o, o ∈ bs → view h2 o = view h o) ∧ m_end b' ≤ m_end b + Z.of_nat (length hdr) ∧
    m_zeroAreaEnd b' - m_zeroAreaStart b' = m_zeroAreaEnd b - m_zeroAreaStart b ∧
    m_end b' - m_zeroAreaEnd b' = m_end b - m_zeroAreaEnd b ∧
    (m_data b' = m_data b ∨ ∀ o, o ∈ bs → m_data o ≠ m_data b') ∧
    g_recommendedStart h2 = g_recommendedStart h.
Proof.
  intros H Hcap Hlen. set (n := Z.of_nat (length hdr)) in *.
  destruct (AddAtStart_ok fill n b bs h H) as (b' & h1 & Hadd & H1 & Hsame & Hg & Hend & Hdis & Hblk & Hrec);
    [lia|done|done|].
  pose proof (grown_at_start_view n h b h1 b' bs Hg ltac:(lia) H H1) as Hv.
  pose proof (window_of_live _ _ _ H1) as Hw. pose proof (window_of_live _ _ _ H) as Hw0.
  destruct Hg as (Hz & Hz2 & Hz3 & _).
  assert (real_range b' (m_start b') n) as Hr by (unfold real_range, window_ok in *; lia).
  destruct (Write_bytes_ok b' bs h1 H1 (m_start b') hdr Hr) as (h2 & Hwr & Hmw).
  destruct (write_at b' bs h1 H1 (m_start b') hdr Hr) as (h2' & Hmw' & H2 & Hv2 & Hoth & _ & Hrec2).
  assert (h2' = h2) as -> by congruence. fold n in Hwr, Hmw, Hoth.
  exists b', h1, h2. conj; try done; [| |congruence].
  - rewrite Hv2, Hv, Z.sub_diag.
    assert (length (slice (m_start b') n (bytes_of h1 (m_data b'))) = length hdr) as Hl.
    { destruct (live_block b' bs h1 H1) as (d & _ & _ & Hie & _ & Hl). unfold window_ok, iend in *.
      rewrite length_slice; lia. }
    unfold splice. cbn [take app Z.to_nat]. rewrite Nat.add_0_l, <- Hl, drop_app_length. done.
  - intros o Ho. rewrite Hoth; [|done|].
    + by apply (same_bytes_view h h1 bs).
    + intros Heq. right. specialize (Hdis o Ho Heq). fold n.
      unfold phys, window_ok in *. case_match; [done|]. apply Z.ltb_ge in H0. lia.
Qed.

Lemma add_trailer_ok tr b bs h :
  heap_inv None h (b :: bs) → m_end b + Z.of_nat (length tr) < 2 ^ 31 - 100 →
  Z.of_nat (length (b :: bs)) < 2 ^ 32 →
  ∃ b' h1 i h2, AddAtEnd fill (Z.of_nat (length tr)) b h = Ok (b', h1) ∧
    Prev (Z.of_nat (length tr)) (End_ b') = Ok i ∧
    Write_bytes tr i h1 = Ok (End_ b', h2) ∧
    heap_inv None h2 (b' :: bs) ∧ view h2 b' = view h b ++ tr ∧
    (∀ o, o ∈ bs → view h2 o = view h o) ∧ m_end b' ≤ m_end b + Z.of_nat (length tr) ∧
    m_zeroAreaEnd b' - m_zeroAreaStart b' = m_zeroAreaEnd b - m_zeroAreaStart b ∧
    (m_data b' = m_data b ∨ ∀ o, o ∈ bs → m_data o ≠ m_data b') ∧
    g_recommendedStart h2 = g_recommendedStart h.
Proof.
  intros H Hcap Hlen. set (n := Z.of_nat (length tr)) in *.
  destruct (AddAtEnd_ok fill n b bs h H) as (b' & h1 & Hadd & H1 & Hsame & Hg & Hend & Hdis & Hblk & Hrec);
    [lia|done|done|].
  pose proof (grown_at_end_view n h b h1 b' bs Hg ltac:(lia) H H1) as Hv.
  pose proof (window_of_live _ _ _ H1) as Hw. pose proof (window_of_live _ _ _ H) as Hw0.
  destruct Hg as (Hz & Hz2 & Hz3 & _).
  assert (real_range b' (m_end b' - n) n) as Hr by (unfold real_range, window_ok in *; lia).
  destruct (Write_bytes_ok b' bs h1 H1 (m_end b' - n) tr Hr) as (h2 & Hwr & Hmw).
  destruct (write_at b' bs h1 H1 (m_end b' - n) tr Hr) as (h2' & Hmw' & H2 & Hv2 & Hoth & _ & Hrec2).
  assert (h2' = h2) as -> by congruence. fold n in Hwr, Hmw, Hoth.
  exists b', h1, (Construct b' (m_end b' - n)), h2.
  rewrite Z.sub_add in Hwr.
  assert (phys b' (m_end b' - n) = iend b' - n) as Hph.
  { unfold phys, window_ok, iend in *. case_match eqn:E; [|lia]. apply Z.ltb_lt in E. lia. }
  unfold window_ok in *. pose proof (length_view _ _ _ H) as Hlv.
  conj; try done; [| | |congruence].
  - unfold Prev, End_. cbn [i_current Construct]. rewrite (proj2 (Z.leb_le n _)) by lia. res_simpl.
    rewrite wrap_id by zlia. done.
  - rewrite Hv2, Hv. rewrite splice_app_r by lia.
    replace (m_end b' - n - m_start b' - Z.of_nat (length (view h b))) with 0 by lia.
    f_equal. unfold splice. cbn [take app Z.to_nat]. rewrite Nat.add_0_l.
    rewrite drop_ge; [by rewrite app_nil_r|].
    destruct (live_block b' bs h1 H1) as (d & _ & _ & Hie & _ & Hl). unfold iend in *.
    rewrite length_slice; lia.
  - intros o Ho. rewrite Hoth; [|done|].
    + by apply (same_bytes_view h h1 bs).
    + intros Heq. left. rewrite Hph. by apply Hdis.
Qed.
End headers.

(** ** Other buffers and assignment *)

Lemma users_perm a bs bs' : bs ≡ₚ bs' → users a bs ≡ₚ users a bs'.
Proof. intros H. unfold users. by rewrite H. Qed.

Lemma inv_perm held h bs bs' : bs ≡ₚ bs' → heap_inv held h bs → heap_inv held h bs'.
Proof.
  intros Hp []. split; try done.
  - intros b Hb. apply hi_live0. by rewrite Hp.
  - intros a Ha. destruct (hi_held0 a Ha) as [Hu ?]. split; [|done].
    apply Permutation_nil. rewrite <- Hu. by apply users_perm.
  - intros a d Hd Ha. destruct (hi_block0 a d Hd Ha) as [Hc (hw & Hhw & Hf)].
    split; [by rewrite Hc, (users_perm a _ _ Hp)|]. exists hw. split; [done|].
    by rewrite <- (users_perm a _ _ Hp).
  - unfold free_ok in *. destruct (g_freeList h); [|done..]. subst. by apply Permutation_nil.
Qed.

(** A live buffer moved to the front. *)
Lemma inv_front held h bs b :
  heap_inv held h bs → b ∈ bs → ∃ bs', bs ≡ₚ b :: bs' ∧ heap_inv held h (b :: bs').
Proof.
  intros H Hb. apply elem_of_Permutation in Hb as [bs' Hp]. exists bs'.
  split; [done|]. by eapply inv_perm.
Qed.

Lemma inv_recommended held h bs z :
  heap_inv held h bs → 0 ≤ z → heap_inv held (set_recommendedStart z h) bs.
Proof. intros [] Hz. by split. Qed.

(** The window of [b] is that of [o], in the same block. *)
Definition same_window (b o : Buffer) : Prop :=
  m_data b = m_data o ∧ m_zeroAreaStart b = m_zeroAreaStart o ∧
  m_zeroAreaEnd b = m_zeroAreaEnd o ∧ m_start b = m_start o ∧ m_end b = m_end o ∧
  0 ≤ m_maxZeroAreaStart b.

Lemma same_window_view h b o : same_window b o → view h b = view h o.
Proof. intros (H1 & H2 & H3 & H4 & H5 & _). unfold view. by rewrite H1, H2, H3, H4, H5. Qed.

Lemma user_ok_same_window d hw b o : same_window b o → user_ok d hw o → user_ok d hw b.
Proof.
  intros (H1 & H2 & H3 & H4 & H5 & H6). unfold user_ok, window_ok, iend.
  rewrite H2, H3, H4, H5. tauto.
Qed.

Lemma acquire_ok h bs o b :
  heap_inv None h bs → o ∈ bs → same_window b o → Z.of_nat (length bs) + 1 < 2 ^ 32 →
  ∃ h', acquire (m_data o) h = Ok h' ∧ heap_inv None h' (b :: bs) ∧
    (∀ a, bytes_of h' a = bytes_of h a) ∧ g_recommendedStart h' = g_recommendedStart h.
Proof.
  intros H Ho Hsw Hlen. destruct (copy_ok h bs o H Ho Hlen) as (c & h' & Hc & H' & _ & _ & Hst & Hen & Hda & Hzs & Hze).
  unfold copy in Hc. destruct (acquire (m_data o) h) as [h1|] eqn:Ha; [|done].
  cbn in Hc. injection Hc as <- <-. exists h1. split; [done|].
  pose proof (window_of_live _ _ _ H') as Hw. destruct Hsw as (H1 & H2 & H3 & H4 & H5 & H6).
  unfold acquire in Ha. destruct (blocks h !! m_data o) as [d|] eqn:Hd; [|done]. cbn in Ha.
  injection Ha as <-. conj; [| |done].
  - eapply inv_shrink; [exact H'|done|..]; unfold window_ok, iend in *; cbn in *; lia.
  - intros a. unfold bytes_of. cbn.
    destruct (decide (m_data o = a)) as [<-|]; [by rewrite lookup_insert_eq, Hd|by rewrite lookup_insert_ne].
Qed.

(** [*b = o]: the variable [b] has the window of [o]. *)
Lemma assign_ok b o bs h :
  heap_inv None h (o :: b :: bs) → Z.of_nat (length (o :: b :: bs)) + 1 < 2 ^ 32 →
  ∃ b' h', assign b o h = Ok (b', h') ∧ heap_inv None h' (o :: b' :: bs) ∧ same_window b' o ∧
    same_bytes h h' (o :: bs) ∧ g_recommendedStart h' = Z.max (g_recommendedStart h) (m_maxZeroAreaStart b).
Proof.
  intros H Hlen. pose proof (window_of_live _ _ _ H) as Hwo. unfold assign.
  set (b' := mkBuffer (m_data o) _ _ _ _ _).
  assert (same_window b' o) as Hsw by (unfold same_window, window_ok in *; cbn; intuition lia).
  pose proof (hi_rec _ _ _ H) as Hrec.
  destruct (Z.eqb_spec (m_data b) (m_data o)) as [E|E]; res_simpl.
  - eexists b', _. split; [done|]. conj; [|done|done|done].
    apply inv_recommended; [|lia]. destruct H. split; try done.
    + intros x Hx. apply elem_of_cons in Hx as [->|[->|Hx]%elem_of_cons];
        [apply hi_live0; by left|cbn; apply hi_live0; by left|apply hi_live0; by do 2 right].
    + intros a d Hd Hh. specialize (hi_block0 a d Hd Hh). destruct (decide (m_data o = a)) as [Ea|Ea].
      * subst a. rewrite users_cons_eq in *. rewrite <- E, users_cons_eq, E in hi_block0.
        pose proof (users_cons_eq b' bs) as Eu. change (m_data b') with (m_data o) in Eu.
        change (m_data o) with (m_data b') at 1. change (m_data b') with (m_data o). rewrite Eu.
        destruct hi_block0 as [Hc (hw & Hhw & [Huo [_ Hf]%Forall_cons]%Forall_cons)].
        split; [done|]. exists hw. split; [done|].
        constructor; [done|]. constructor; [|done]. by eapply user_ok_same_window.
      * rewrite !users_cons_ne by done. by rewrite !users_cons_ne in hi_block0 by congruence.
    + unfold free_ok in *. by destruct (g_freeList h).
  - destruct (release_ok None b h (o :: bs)) as (h1 & -> & H1 & Hs1 & _ & Hr1);
      [by eapply inv_perm; [apply perm_swap|]|done|cbn in *; lia|].
    res_simpl. destruct (acquire_ok h1 (o :: bs) o b') as (h2 & -> & H2 & Hs2 & Hr2);
      [done|by left|done|cbn in *; lia|].
    res_simpl. eexists b', _. split; [done|]. conj; [|done| |cbn; congruence].
    + apply inv_recommended; [|rewrite Hr2, Hr1; lia]. by eapply inv_perm; [apply perm_swap|].
    + intros x Hx. change (bytes_of (set_recommendedStart _ h2)) with (bytes_of h2).
      rewrite Hs2. by apply Hs1.
Qed.

Lemma destroy_ok b bs h :
  heap_inv None h (b :: bs) → Z.of_nat (length (b :: bs)) < 2 ^ 32 →
  ∃ h', destroy b h = Ok h' ∧ heap_inv None h' bs ∧ same_bytes h h' bs.
Proof.
  intros H Hlen. pose proof (hi_rec _ _ _ H). unfold destroy.
  destruct (release_ok None b (set_recommendedStart (Z.max (g_recommendedStart h) (m_maxZeroAreaStart b)) h) bs)
    as (h' & -> & H' & Hs & _); [by apply inv_recommended; [|lia]|done|done|].
  by exists h'.
Qed.

Section creation.
Context (fill : Z → Z → Z).

Lemma Initialize_ok z bs h :
  heap_inv None h bs → 0 ≤ z → g_recommendedStart h + z < 2 ^ 31 →
  ∃ b h', Initialize fill z h = Ok (b, h') ∧ heap_inv None h' (b :: bs) ∧ same_bytes h h' bs ∧
    view h' b = zeros z ∧ m_start b = m_zeroAreaStart b ∧ m_zeroAreaEnd b = m_zeroAreaStart b + z ∧
    m_end b = m_zeroAreaEnd b ∧ m_start b ≤ g_recommendedStart h ∧
    (∀ o, o ∈ bs → m_data o ≠ m_data b) ∧ g_recommendedStart h' = g_recommendedStart h.
Proof.
  intros H Hz Hcap. pose proof (hi_rec _ _ _ H) as Hrec.
  destruct (Create_ok fill 0 h bs H) as (a & h1 & d & Hc & H1 & Hs1 & Hd & _ & Hr1); [lia|].
  destruct (hi_held _ _ _ H1 a eq_refl) as (Hu & _). pose proof (proj1 (users_nil _ _) Hu) as Hne.
  destruct (hi_shape _ _ _ H1 _ _ Hd) as [[Hl Hsz] _].
  unfold Initialize. rewrite Hc. res_simpl. rewrite Hd. res_simpl. rewrite Hr1.
  set (st := Z.min _ _). rewrite !(wrap_id 32) by zlia.
  destruct (inv_adopt a h1 bs (mkBuffer a st st (st + z) st (st + z)) d) as (h2 & Hup & H2 & Hf2 & Hb2 & Hr2);
    [done|done|done|unfold window_ok; cbn; lia|unfold iend; cbn; lia|].
  cbn [m_start m_end] in Hup |- *. rewrite Hup. res_simpl. eexists _, _. split; [done|].
  conj; [done| | |done|done|done|cbn; lia|done|congruence].
  - intros o Ho. unfold bytes_of. rewrite Hf2 by (by apply Hne). by rewrite Hs1.
  - unfold view. cbn. rewrite !Z.sub_diag, !slice_0, app_nil_r. cbn. f_equal. lia.
Qed.
End creation.

(** ** Copies of the content *)

Definition front (h : heap) (b : Buffer) : list Z :=
  slice (m_start b) (m_zeroAreaStart b - m_start b) (bytes_of h (m_data b)).
Definition back (h : heap) (b : Buffer) : list Z :=
  slice (m_zeroAreaStart b) (m_end b - m_zeroAreaEnd b) (bytes_of h (m_data b)).

(** What a live buffer offers to a reader. *)
Record readable (h : heap) (o : Buffer) : Prop := {
  rd_window : window_ok o;
  rd_front : mem_read (m_data o) (m_start o) (m_zeroAreaStart o - m_start o) h = Ok (front h o);
  rd_back : mem_read (m_data o) (m_zeroAreaStart o) (m_end o - m_zeroAreaEnd o) h = Ok (back h o);
  rd_front_len : Z.of_nat (length (front h o)) = m_zeroAreaStart o - m_start o;
  rd_back_len : Z.of_nat (length (back h o)) = m_end o - m_zeroAreaEnd o;
  rd_view_len : Z.of_nat (length (view h o)) = m_end o - m_start o
}.

Lemma live_readable h bs o : heap_inv None h bs → o ∈ bs → readable h o.
Proof.
  intros H Ho. destruct (inv_front _ _ _ _ H Ho) as (bs' & _ & H').
  destruct (live_block _ _ _ H') as (d & Hd & Hw & Hie & _ & _).
  destruct (view_parts _ _ _ H') as (H1 & _ & H3). pose proof (length_view _ _ _ H').
  unfold window_ok, iend in *. split; try done; rewrite (mem_read_ok _ _ _ _ d); try done; lia.
Qed.

Lemma same_bytes_front h h' bs o : same_bytes h h' bs → o ∈ bs → front h' o = front h o ∧ back h' o = back h o.
Proof. intros H Ho. unfold front, back. by rewrite H. Qed.

Lemma WriteU8_len_ok b bs h p data len :
  heap_inv None h (b :: bs) → 0 ≤ len → real_range b p len →
  ∃ h', WriteU8_len data len (Construct b p) h = Ok (Construct b (p + len), h') ∧
    mem_write (m_data b) (phys b p) (replicate (Z.to_nat len) (u8 data)) h = Ok h'.
Proof.
  intros H Hlen Hr. pose proof (window_of_live _ _ _ H) as Hw. unfold window_ok in Hw.
  destruct (write_at b bs h H p (replicate (Z.to_nat len) (u8 data))) as (h' & Hwr & _).
  { rewrite length_replicate, Z2Nat.id by lia. done. }
  exists h'. split; [|done]. unfold WriteU8_len. cbn [i_current Construct i_data i_zeroStart].
  assert (p + len < 2 ^ 31 ∧ 0 ≤ p) as [Hp ?] by (unfold real_range in Hr; lia).
  rewrite (wrap_id 32 (p + len)) by zlia.
  assert (CheckNoZero (Construct b p) p (p + len) = true) as ->.
  { unfold CheckNoZero, real_range in *. cbn. apply negb_true_iff. rewrite !orb_false_iff, !andb_false_iff.
    rewrite !Z.ltb_ge, !negb_false_iff, !Z.eqb_eq. lia. }
  res_simpl.
  assert (phys b p = if p <=? m_zeroAreaStart b then p else past_zero (Construct b p) p) as Hph.
  { unfold phys, past_zero, real_range in *. cbn. rewrite (wrap_id 32 (m_zeroAreaEnd b - _)) by zlia.
    z_cases; try lia; rewrite ?wrap_id by zlia; lia. }
  rewrite <- Hph, Hwr. res_simpl. done.
Qed.

(** Two writes one after the other are one write. *)
Lemma splice_splice_next {A} off (bs1 bs2 l : list A) :
  0 ≤ off → off + Z.of_nat (length bs1) + Z.of_nat (length bs2) ≤ Z.of_nat (length l) →
  splice (off + Z.of_nat (length bs1)) bs2 (splice off bs1 l) = splice off (bs1 ++ bs2) l.
Proof.
  intros. apply list_eq. intros i.
  rewrite lookup_splice; [|lia|rewrite length_splice; lia].
  rewrite !lookup_splice by (rewrite ?length_app; lia). rewrite length_app.
  repeat case_decide; try lia; try done.
  - rewrite lookup_app_l by lia. done.
  - rewrite lookup_app_r by lia. f_equal. lia.
Qed.

Lemma mem_write_app a off bs1 bs2 h d :
  blocks h !! a = Some d → block_shape d → 0 ≤ off →
  off + Z.of_nat (length bs1) + Z.of_nat (length bs2) ≤ m_size d →
  (mem_write a off bs1 h ≫= mem_write a (off + Z.of_nat (length bs1)) bs2) =
    mem_write a off (bs1 ++ bs2) h.
Proof.
  intros Hd [Hl Hsz] Hoff Hle. destruct bs1 as [|x1 bs1].
  { cbn [length app]. rewrite Z.add_0_r. assert (mem_write a off [] h = Ok h) as ->; [|done].
    unfold mem_write. by rewrite Hd. }
  unfold mem_write. rewrite Hd. res_simpl. rewrite length_app.
  rewrite (proj2 (Z.eqb_neq (Z.of_nat (length (x1 :: bs1))) 0)) by (cbn; lia).
  rewrite (proj2 (Z.eqb_neq (Z.of_nat (length (x1 :: bs1) + length bs2)) 0)) by (cbn; lia).
  rewrite !(proj2 (Z.leb_le _ _)) by lia. cbn [andb]. res_simpl.
  cbn [blocks set_block]. rewrite lookup_insert_eq. res_simpl.
  destruct bs2 as [|x2 bs2].
  { cbn [length]. rewrite app_nil_r. done. }
  rewrite (proj2 (Z.eqb_neq _ 0)) by (cbn; lia).
  cbn [m_size set_bytes]. rewrite !(proj2 (Z.leb_le _ _)) by lia. cbn [andb].
  unfold set_block, set_bytes.
  cbn [blocks next_address g_maxSize g_freeList g_recommendedStart m_count m_size m_dirtyStart m_dirtyEnd m_bytes].
  rewrite insert_insert_eq.
  by rewrite splice_splice_next by lia.
Qed.

Section copies.
Context (fill : Z → Z → Z).

(** A header of zeroes, as [CreateFullCopy] writes the zero area. *)
Lemma add_zeros_ok n b bs h :
  heap_inv None h (b :: bs) → 0 ≤ n → m_end b + n < 2 ^ 31 - 100 →
  Z.of_nat (length (b :: bs)) < 2 ^ 32 →
  ∃ b' h1 h2 i, AddAtStart fill n b h = Ok (b', h1) ∧
    WriteU8_len 0 n (Begin b') h1 = Ok (i, h2) ∧
    heap_inv None h2 (b' :: bs) ∧ view h2 b' = zeros n ++ view h b ∧
    (∀ o, o ∈ bs → view h2 o = view h o) ∧ m_end b' ≤ m_end b + n ∧
    m_zeroAreaEnd b' - m_zeroAreaStart b' = m_zeroAreaEnd b - m_zeroAreaStart b ∧
    (m_data b' = m_data b ∨ ∀ o, o ∈ bs → m_data o ≠ m_data b').
Proof.
  intros H Hn Hcap Hlen.
  assert (length (zeros n) = Z.to_nat n) as Hlz by apply length_zeros.
  destruct (add_header_ok fill (zeros n) b bs h H) as
    (b' & h1 & h2 & Hadd & Hwr & H2 & Hv & Ho & He & Hz & _ & Hblk & _);
    [rewrite Hlz; lia|done|].
  rewrite Hlz, Z2Nat.id in * by done.
  destruct (AddAtStart_ok fill n b bs h H) as (b0 & h0 & Hadd' & H1 & _ & Hg & _); [done|done|done|].
  rewrite Hadd in Hadd'. injection Hadd' as <- <-. destruct Hg as (Hz1 & Hz2 & Hz3 & _).
  pose proof (window_of_live _ _ _ H1) as Hw. pose proof (window_of_live _ _ _ H) as Hw0.
  assert (real_range b' (m_start b') n) as Hr by (unfold real_range, window_ok in *; lia).
  destruct (WriteU8_len_ok b' bs h1 (m_start b') 0 n H1 Hn Hr) as (h3 & Hwz & Hmw).
  destruct (Write_bytes_ok b' bs h1 H1 (m_start b') (zeros n)) as (h4 & Hwr' & Hmw').
  { by rewrite Hlz, Z2Nat.id. }
  change (replicate (Z.to_nat n) (u8 0)) with (zeros n) in Hmw.
  assert (h2 = h3) as -> by (unfold Begin in Hwr; congruence).
  eexists b', h1, h3, _. by conj.
Qed.

Lemma front_back_of_view h h' b :
  window_ok b → readable h b → readable h' b → view h' b = view h b →
  front h' b = front h b ∧ back h' b = back h b.
Proof.
  intros Hw H H' Hv. destruct H, H'. unfold view in Hv. fold (front h b) (back h b) (front h' b) (back h' b) in Hv.
  apply app_inj_1 in Hv as [-> Hv]; [|lia]. by apply app_inj_1 in Hv as [_ ->].
Qed.

(** The copy has the same content, no zero area, and a block of its own unless there was
    no zero area. *)
Lemma CreateFullCopy_ok b bs h :
  heap_inv None h bs → b ∈ bs → Z.of_nat (length bs) + 1 < 2 ^ 32 →
  g_recommendedStart h + (m_end b - m_start b) < 2 ^ 31 - 100 →
  ∃ t h', CreateFullCopy fill b h = Ok (t, h') ∧ heap_inv None h' (t :: bs) ∧
    view h' t = view h b ∧ (∀ o, o ∈ bs → view h' o = view h o) ∧
    m_zeroAreaStart t = m_zeroAreaEnd t ∧
    m_end t ≤ Z.max (m_end b) (g_recommendedStart h + (m_end b - m_start b)) ∧
    (if m_zeroAreaEnd b =? m_zeroAreaStart b then m_data t = m_data b
     else ∀ o, o ∈ bs → m_data o ≠ m_data t).
Proof.
  intros H Hb Hlen Hcap. pose proof (live_readable h bs b H Hb) as Hrd.
  pose proof (rd_window _ _ Hrd) as Hw. pose proof Hw as Hw'. unfold window_ok in Hw'.
  unfold CreateFullCopy. rewrite (wrap_id 32 (m_zeroAreaEnd b - _)) by zlia.
  rewrite (wrap_id 32 (m_zeroAreaStart b - _)), (wrap_id 32 (m_end b - _)) by zlia.
  destruct (Z.eqb_spec (m_zeroAreaEnd b - m_zeroAreaStart b) 0) as [Hz|Hz]; cbn [negb].
  { destruct (copy_ok h bs b H Hb Hlen) as (t & h' & -> & H' & Hs & Hv & Hst & Hen & Hd & Hzs & Hze).
    exists t, h'. conj; [done|done|done|by intros; eapply same_bytes_view|lia|lia|].
    by rewrite (proj2 (Z.eqb_eq _ _)) by lia. }
  set (z := m_zeroAreaEnd b - m_zeroAreaStart b) in *.
  destruct (Initialize_ok fill 0 bs h H) as
    (t0 & h0 & -> & H0 & Hs0 & Hv0 & Ht1 & Ht2 & Ht3 & Ht4 & Hn0 & _); [lia|lia|]. res_simpl.
  destruct (add_zeros_ok z t0 bs h0 H0) as (t1 & h1 & h2 & i2 & -> & Hwz & H2 & Hv2 & Ho2 & He2 & Hz2 & Hk2);
    [lia|lia|cbn; lia|].
  res_simpl. rewrite Hwz. res_simpl.
  assert (∀ o, o ∈ bs → view h2 o = view h o) as Hb2.
  { intros o Ho. rewrite Ho2 by done. by apply (same_bytes_view h h0 bs). }
  assert (readable h2 b) as Hrd2 by (apply (live_readable _ _ _ H2); by right).
  destruct (front_back_of_view h h2 b Hw Hrd Hrd2 (Hb2 b Hb)) as [Hf2 Hbk2].
  destruct (add_header_ok fill (front h b) t1 bs h2 H2) as
    (t2 & h3 & h4 & Ha3 & Hw3 & H4 & Hv4 & Ho4 & He4 & Hz4 & _ & Hk4 & _);
    [rewrite (rd_front_len _ _ Hrd); lia|cbn; lia|].
  rewrite (rd_front_len _ _ Hrd) in *. rewrite Ha3. res_simpl.
  assert (heap_inv None h3 (t2 :: bs) ∧ ∀ o, o ∈ bs → view h3 o = view h o) as [H3 Hb3].
  { destruct (AddAtStart_ok fill (m_zeroAreaStart b - m_start b) t1 bs h2 H2)
      as (t2' & h3' & Ha3' & H3' & Hs3' & _); [lia|lia|cbn; lia|].
    rewrite Ha3 in Ha3'. injection Ha3' as <- <-. split; [done|]. intros o Ho. rewrite <- Hb2 by done. by apply (same_bytes_view h2 h3 bs). }
  assert (readable h3 b) as Hrd3 by (apply (live_readable _ _ _ H3); by right).
  destruct (front_back_of_view h h3 b Hw Hrd Hrd3 (Hb3 b Hb)) as [Hf3 _].
  rewrite (rd_front _ _ Hrd3), Hf3. res_simpl. rewrite Hw3. res_simpl.
  destruct (add_trailer_ok fill (back h b) t2 bs h4 H4) as
    (t3 & h5 & i5 & h6 & Ha5 & Hp5 & Hw5 & H6 & Hv6 & Ho6 & He6 & Hz6 & Hk6 & _);
    [rewrite (rd_back_len _ _ Hrd); lia|cbn; lia|].
  rewrite (rd_back_len _ _ Hrd) in *. rewrite Ha5. res_simpl. rewrite Hp5. res_simpl.
  assert (heap_inv None h5 (t3 :: bs) ∧ ∀ o, o ∈ bs → view h5 o = view h o) as [H5 Hb5].
  { destruct (AddAtEnd_ok fill (m_end b - m_zeroAreaEnd b) t2 bs h4 H4)
      as (t3' & h5' & Ha5' & H5' & Hs5' & _); [lia|lia|cbn; lia|].
    rewrite Ha5 in Ha5'. injection Ha5' as <- <-. split; [done|]. intros o Ho. rewrite <- Hb2, <- Ho4 by done.
    by apply (same_bytes_view h4 h5 bs). }
  assert (readable h5 b) as Hrd5 by (apply (live_readable _ _ _ H5); by right).
  destruct (front_back_of_view h h5 b Hw Hrd Hrd5 (Hb5 b Hb)) as [_ Hbk5].
  rewrite (rd_back _ _ Hrd5), Hbk5. res_simpl. rewrite Hw5. res_simpl.
  exists t3, h6. conj; [done|done| | |lia|lia|].
  - rewrite Hv6, Hv4, Hv2, Hv0. change (zeros 0) with (@nil Z). rewrite app_nil_r, <- app_assoc. done.
  - intros o Ho. by rewrite Ho6, Ho4, Hb2.
  - rewrite (proj2 (Z.eqb_neq _ _)) by lia. intros o Ho.
    destruct Hk6 as [Hk6|Hk6]; [|by apply Hk6]. rewrite Hk6.
    destruct Hk4 as [Hk4|Hk4]; [|by apply Hk4]. rewrite Hk4.
    destruct Hk2 as [Hk2|Hk2]; [|by apply Hk2]. rewrite Hk2. by apply Hn0.
Qed.

(** [*this = CreateFullCopy()], and the destruction of the temporary. *)
Lemma replace_by_copy_ok b bs h :
  heap_inv None h (b :: bs) → Z.of_nat (length (b :: bs)) + 2 < 2 ^ 32 →
  g_recommendedStart h + (m_end b - m_start b) < 2 ^ 31 - 100 →
  ∃ b' h', TransformIntoRealBuffer fill b h = Ok (b', h') ∧ heap_inv None h' (b' :: bs) ∧
    view h' b' = view h b ∧ (∀ o, o ∈ bs → view h' o = view h o) ∧
    m_zeroAreaStart b' = m_zeroAreaEnd b' ∧
    m_end b' ≤ Z.max (m_end b) (g_recommendedStart h + (m_end b - m_start b)) ∧
    (if m_zeroAreaEnd b =? m_zeroAreaStart b then m_data b' = m_data b
     else ∀ o, o ∈ bs → m_data o ≠ m_data b').
Proof.
  intros H Hlen Hcap.
  destruct (CreateFullCopy_ok b (b :: bs) h H) as (t & h1 & Hc & H1 & Hv1 & Ho1 & Hz1 & He1 & Hk1);
    [by left|lia|done|].
  destruct (assign_ok b t bs h1 H1) as (b' & h2 & Ha & H2 & Hsw & Hs2 & _); [cbn in *; lia|].
  destruct (destroy_ok t (b' :: bs) h2 H2) as (h3 & Hd & H3 & Hs3); [cbn in *; lia|].
  unfold TransformIntoRealBuffer. rewrite Hc. res_simpl. rewrite Ha. res_simpl. rewrite Hd. res_simpl.
  exists b', h3.
  assert (∀ o, o ∈ b' :: bs → view h3 o = view h2 o) as Hv3 by (intros; by eapply same_bytes_view).
  pose proof Hsw as (Hda & Hzs & Hze & Hst & Hen & _).
  conj; [done|done| | |congruence|congruence|].
  - rewrite Hv3 by (by left). rewrite (same_window_view _ _ _ Hsw).
    rewrite (same_bytes_view h1 h2 (t :: bs)) by (done || by left). done.
  - intros o Ho. rewrite Hv3 by (by right). rewrite (same_bytes_view h1 h2 (t :: bs)) by (done || by right).
    apply Ho1. by right.
  - rewrite Hda. destruct (_ =? _); [done|]. intros o Ho. apply Hk1. by right.
Qed.
End copies.
