(* ===== verification/BufferTheorems.v ===== *)
(** * What the operations of packet buffers promise

    The theorems on [Buffer] and [Buffer::Iterator], and the two defects of
    [AddAtEnd(const Buffer&)] and of the iterator's bounds checks. *)

From S2P Require Import Prelude Buffer BufferCorrect.
Local Open Scope Z_scope.

Section copying.
Context (fill : Z → Z → Z).

(** Three writes in a row. *)
Lemma mem_write_app3 a off l1 l2 l3 h d h' :
  blocks h !! a = Some d → block_shape d → 0 ≤ off →
  off + Z.of_nat (length (l1 ++ l2 ++ l3)) ≤ m_size d →
  mem_write a off (l1 ++ l2 ++ l3) h = Ok h' →
  ∃ h1 h2, mem_write a off l1 h = Ok h1 ∧
    mem_write a (off + Z.of_nat (length l1)) l2 h1 = Ok h2 ∧
    mem_write a (off + Z.of_nat (length l1) + Z.of_nat (length l2)) l3 h2 = Ok h' ∧
    (∀ a', a' ≠ a → blocks h1 !! a' = blocks h !! a') ∧
    (∀ a', a' ≠ a → blocks h2 !! a' = blocks h !! a').
Proof.
  intros Hd Hs Ho Hle Hw. rewrite !length_app in Hle. pose proof Hs as [Hbl _].
  rewrite <- (mem_write_app a off l1 (l2 ++ l3) h d) in Hw by (rewrite ?length_app; done || lia).
  destruct (mem_write_ok a off l1 h d) as (h1 & H1 & Hb1 & Hf1 & Hd1 & _ & _); [done|done|lia|lia|].
  assert (block_shape (set_bytes (bytes_of h1 a) d)) as Hs1.
  { destruct Hs as [Hl ?]. split; [|done]. cbn. rewrite Hb1. unfold bytes_of. rewrite Hd. cbn.
    rewrite length_splice; lia. }
  rewrite H1 in Hw. res_simpl. cbn [mbind res_bind] in Hw.
  rewrite <- (mem_write_app a _ l2 l3 h1 _ Hd1 Hs1) in Hw by (cbn; lia).
  destruct (mem_write_ok a (off + Z.of_nat (length l1)) l2 h1 _ Hd1 Hs1) as (h2 & H2 & _ & Hf2 & _);
    [lia|cbn; lia|].
  rewrite H2 in Hw. cbn [mbind res_bind] in Hw. exists h1, h2. conj; try done.
  intros a' Ha'. by rewrite Hf2, Hf1.
Qed.

(** [Iterator::Write] copies a whole buffer, zero area included, where no zero area of the
    destination precedes. *)
Lemma Write_ok b o bs h p :
  heap_inv None h (b :: bs) → o ∈ bs → m_data o ≠ m_data b → phys b p = p →
  real_range b p (m_end o - m_start o) →
  ∃ h', Write (Begin o) (End_ o) (Construct b p) h = Ok (Construct b (p + (m_end o - m_start o)), h') ∧
    heap_inv None h' (b :: bs) ∧ view h' b = splice (p - m_start b) (view h o) (view h b) ∧
    (∀ x, x ∈ bs →
      (m_data x = m_data b → iend x ≤ p ∨ p + (m_end o - m_start o) ≤ m_start x) →
      view h' x = view h x).
Proof.
  intros H Ho Hne Hp Hr. pose proof (live_readable h (b :: bs) o H ltac:(by right)) as Hro.
  pose proof (window_of_live _ _ _ H) as Hwb. destruct Hro as [Hwo Hrf Hrb Hfl Hbl Hvl].
  unfold window_ok in *. set (n := m_end o - m_start o) in *.
  destruct (write_at b bs h H p (view h o)) as (h' & Hw & H' & Hv & Hoth & _); [by rewrite Hvl|].
  rewrite Hp, Hvl in Hoth. rewrite Hp in Hw. exists h'. conj; [|done|done|done].
  destruct (live_block _ _ _ H) as (d & Hd & _ & Hie & Hs & _).
  assert (0 ≤ p ∧ p + n ≤ m_size d ∧ p + n < 2 ^ 31) as (Hp0 & Hpn & Hpc).
  { unfold real_range, iend, phys in *. revert Hp. z_cases; lia. }
  destruct (mem_write_app3 (m_data b) p (front h o) (zeros (m_zeroAreaEnd o - m_zeroAreaStart o)) (back h o) h d h')
    as (h1 & h2 & Hw1 & Hw2 & Hw3 & Hf1 & Hf2); [done|done|done| |done|].
  { change (front h o ++ _ ++ back h o) with (view h o). lia. }
  rewrite Hfl in Hw2, Hw3. rewrite length_zeros, Z2Nat.id in Hw3 by lia.
  unfold Write, Begin, End_. cbn [i_data i_current i_zeroStart i_zeroEnd i_dataEnd Construct].
  rewrite Z.eqb_refl. res_simpl. rewrite (proj2 (Z.leb_le (m_start o) _)) by lia. res_simpl.
  rewrite !Z.eqb_refl. res_simpl. rewrite (proj2 (Z.eqb_neq (m_data b) _)) by congruence.
  cbn [negb]. res_simpl. rewrite (wrap_id 32 (m_end o - m_start o)) by zlia. fold n.
  rewrite (wrap_id 32 (p + n)) by zlia.
  assert (CheckNoZero (Construct b p) p (p + n) = true) as ->.
  { unfold CheckNoZero, real_range in *. cbn. apply negb_true_iff. rewrite !orb_false_iff, !andb_false_iff.
    rewrite !Z.ltb_ge, !negb_false_iff, !Z.eqb_eq. lia. }
  res_simpl. rewrite (proj2 (Z.leb_le (m_start o) _)) by lia.
  rewrite (Z.min_r n) by lia. rewrite Hrf. res_simpl. rewrite Hw1. res_simpl.
  rewrite (wrap_id 32 (p + _)), (wrap_id 32 (m_start o + _)) by zlia.
  replace (m_start o + (m_zeroAreaStart o - m_start o)) with (m_zeroAreaStart o) by lia.
  rewrite (proj2 (Z.leb_le (m_zeroAreaStart o) _)) by lia.
  rewrite (Z.min_r (n - _)) by lia. rewrite Hw2. res_simpl.
  rewrite (wrap_id 32 (p + (m_zeroAreaStart o - m_start o) + _)) by zlia.
  rewrite (wrap_id 32 (m_zeroAreaStart o + _)) by zlia.
  replace (m_zeroAreaStart o + (m_zeroAreaEnd o - m_zeroAreaStart o)) with (m_zeroAreaEnd o) by lia.
  rewrite (wrap_id 32 (m_end o - m_zeroAreaEnd o)) by zlia. rewrite (Z.min_r (_ - _ - _)) by lia.
  unfold past_zero. cbn [i_zeroStart i_zeroEnd Construct].
  rewrite (wrap_id 32 (m_zeroAreaEnd o - m_zeroAreaStart o)) by zlia.
  rewrite (wrap_id 32 (m_zeroAreaEnd o - (m_zeroAreaEnd o - m_zeroAreaStart o))) by zlia.
  replace (m_zeroAreaEnd o - (m_zeroAreaEnd o - m_zeroAreaStart o)) with (m_zeroAreaStart o) by lia.
  assert (mem_read (m_data o) (m_zeroAreaStart o) (m_end o - m_zeroAreaEnd o) h2 = Ok (back h o)) as ->.
  { rewrite <- Hrb. unfold mem_read. by rewrite Hf2. }
  res_simpl. rewrite Hw3. res_simpl. do 2 f_equal. unfold set_current, Construct. cbn. f_equal.
  rewrite wrap_id by zlia. lia.
Qed.

(** Concatenation: when [b] has a zero area or does not share its block with [o], and
    the optimisation for adjacent zero areas does not apply or has nothing to copy after
    them, [b.AddAtEnd(o)] makes the content of [b] the concatenation and changes no other
    buffer. *)
Theorem AddAtEnd_buffer_correct b o bs h :
  heap_inv None h (b :: bs) → o ∈ bs → Z.of_nat (length (b :: bs)) + 2 < 2 ^ 32 →
  Z.max (m_end b) (g_recommendedStart h + (m_end b - m_start b)) + (m_end o - m_start o) < 2 ^ 31 - 100 →
  m_zeroAreaStart o ≠ m_start o ∨ m_zeroAreaEnd o = m_zeroAreaStart o →
  m_data o ≠ m_data b ∨ m_zeroAreaStart b < m_zeroAreaEnd b →
  ∃ b' h', AddAtEnd_buffer fill o b h = Ok (b', h') ∧ heap_inv None h' (b' :: bs) ∧
    view h' b' = view h b ++ view h o ∧ (∀ x, x ∈ bs → view h' x = view h x).
Proof.
  intros H Ho Hlen Hcap Hopt Hblk. destruct (hi_live _ _ _ H b) as [d Hd]; [by left|].
  pose proof (live_readable h (b :: bs) o H ltac:(by right)) as Hro. destruct Hro as [Hwo _ _ _ _ Hvl].
  pose proof (window_of_live _ _ _ H) as Hwb. pose proof (GetSize_ok o Hwo) as Hsz.
  unfold window_ok in Hwo, Hwb.
  unfold AddAtEnd_buffer. rewrite Hd. res_simpl. rewrite (wrap_id 32 (m_zeroAreaEnd o - _)) by zlia.
  assert ((m_start o =? m_zeroAreaStart o) && (0 <? m_zeroAreaEnd o - m_zeroAreaStart o) = false) as Hno.
  { apply andb_false_iff. rewrite Z.eqb_neq, Z.ltb_ge. lia. }
  rewrite <- andb_assoc, Hno, andb_false_r.
  destruct (replace_by_copy_ok fill b bs h H) as
    (b1 & h1 & Ht & H1 & Hv1 & Ho1 & Hz1 & He1 & Hk1); [lia|lia|].
  assert (readable h1 o) as Hro1 by (apply (live_readable _ _ _ H1); by right).
  destruct (AddAtEnd_ok fill (GetSize o) b1 bs h1 H1) as
    (b2 & h2 & Ha & H2 & Hs2 & Hg & He2 & Hdis & Hk2 & _); [lia|lia|cbn in *; lia|].
  pose proof (grown_at_end_view _ h1 b1 h2 b2 bs Hg ltac:(lia) H1 H2) as Hv2.
  destruct Hg as (Hg1 & Hg2 & Hg3 & _).
  pose proof (window_of_live _ _ _ H1) as Hw1. pose proof (window_of_live _ _ _ H2) as Hw2.
  unfold window_ok in Hw1, Hw2. set (n := m_end o - m_start o) in *. rewrite Hsz in *.
  assert (m_data o ≠ m_data b2) as Hne.
  { destruct Hk2 as [->|Hk2]; [|by apply Hk2]. destruct (Z.eqb_spec (m_zeroAreaEnd b) (m_zeroAreaStart b)).
    - rewrite Hk1. destruct Hblk; [done|lia].
    - by apply Hk1. }
  assert (phys b2 (m_end b2 - n) = m_end b2 - n) as Hph by (unfold phys; z_cases; lia).
  destruct (Write_ok b2 o bs h2 (m_end b2 - n) H2 Ho Hne Hph) as (h3 & Hw & H3 & Hv3 & Ho3).
  { unfold real_range. lia. }
  revert Ht. unfold TransformIntoRealBuffer.
  destruct (CreateFullCopy fill b h) as [[tmp hc]|]; [|done]. res_simpl.
  destruct (assign b tmp hc) as [[b1' hd]|]; [|done]. res_simpl.
  destruct (destroy tmp hd) as [he|]; [|done]. res_simpl. intros [= -> ->].
  rewrite Ha. res_simpl. unfold Prev, End_. cbn [i_current Construct].
  rewrite (proj2 (Z.leb_le n _)) by lia. res_simpl. rewrite wrap_id by zlia.
  change (set_current (m_end b2 - n) (Construct b2 (m_end b2))) with (Construct b2 (m_end b2 - n)).
  unfold End_ in Hw. rewrite Hw. res_simpl. exists b2, h3.
  assert (view h2 o = view h o) as Hvo.
  { rewrite (same_bytes_view h1 h2 bs o Hs2 Ho). by apply Ho1. }
  conj; [done|done| |].
  - rewrite Hv3, Hv2, Hvo, <- Hv1. pose proof (length_view _ _ _ H1) as Hl1.
    rewrite splice_app_r by lia.
    replace (m_end b2 - n - m_start b2 - Z.of_nat (length (view h1 b1))) with 0 by lia. f_equal.
    unfold splice. cbn [take app Z.to_nat]. rewrite Nat.add_0_l, drop_ge, app_nil_r; [done|].
    destruct (live_block _ _ _ H2) as (d2 & _ & _ & Hie & _ & Hl2). unfold iend in *.
    rewrite length_slice; lia.
  - intros x Hx. rewrite Ho3; [|done|].
    + rewrite (same_bytes_view h1 h2 bs x Hs2 Hx). by apply Ho1.
    + intros Heq. left. specialize (Hdis x Hx Heq). unfold iend in *. lia.
Qed.
End copying.

(** ** Iterators *)

Lemma land_ff z : Z.land z 0xff = u8 z.
Proof. unfold wrap. change 0xff with (Z.ones 8). by rewrite Z.land_ones. Qed.

Section iterators.
Context (b : Buffer) (bs : list Buffer) (h : heap) (H : heap_inv None h (b :: bs)).

Lemma window : window_ok b.
Proof using H. by eapply window_of_live. Qed.

Lemma ReadU8_ok p :
  m_start b ≤ p < m_end b →
  ∃ v, ReadU8 (Construct b p) h = Ok (v, Construct b (p + 1)) ∧
    view h b !! Z.to_nat (p - m_start b) = Some v.
Proof using H.
  intros Hp. pose proof window as Hw. unfold window_ok in Hw.
  destruct (PeekU8_ok b bs h H p Hp) as (v & Hv & Hl). exists v. split; [|done].
  unfold ReadU8. rewrite Hv. res_simpl. do 2 f_equal. unfold set_current, Construct. cbn. f_equal.
  apply wrap_id. zlia.
Qed.

Lemma slice_cons {A} (l : list A) a n x :
  0 ≤ a → 0 < n → l !! Z.to_nat a = Some x → slice a n l = x :: slice (a + 1) (n - 1) l.
Proof using.
  intros Ha Hn Hx. replace n with (1 + (n - 1)) at 1 by lia. rewrite slice_app by lia.
  apply list_eq. intros i. destruct i as [|i].
  - rewrite lookup_app_l; [|unfold slice; rewrite length_take, length_drop;
      apply lookup_lt_Some in Hx; lia].
    rewrite lookup_slice, decide_True by lia. rewrite Nat.add_0_r. done.
  - assert (length (slice a 1 l) = 1%nat) as Hl.
    { apply lookup_lt_Some in Hx. rewrite length_slice; lia. }
    rewrite lookup_app_r by lia. rewrite Hl. cbn. f_equal. lia.
Qed.

(** Byte by byte, [Read] gives the view. *)
Lemma Read_ok k p :
  m_start b ≤ p → p + Z.of_nat k ≤ m_end b →
  Read k (Construct b p) h =
    Ok (slice (p - m_start b) (Z.of_nat k) (view h b), Construct b (p + Z.of_nat k)).
Proof using H.
  revert p. induction k as [|k IH]; intros p Hp Hk; cbn [Read].
  { rewrite Z.add_0_r. done. }
  destruct (ReadU8_ok p) as (v & -> & Hv); [lia|]. res_simpl.
  rewrite IH by lia. res_simpl.
  rewrite (slice_cons _ (p - m_start b) (Z.of_nat (S k)) v) by (done || lia).
  do 3 f_equal; [f_equal; [lia|lia]|lia].
Qed.

Lemma SlowReadNtohU16_Read p :
  SlowReadNtohU16 (Construct b p) h =
    ('(bytes, i) ← Read 2 (Construct b p) h; Ok (ntoh 16 bytes, i)).
Proof using.
  unfold SlowReadNtohU16. cbn [Read].
  destruct (ReadU8 (Construct b p) h) as [[b0 i0]|]; res_simpl; [|done].
  destruct (ReadU8 i0 h) as [[b1 i1]|]; res_simpl; done.
Qed.

Lemma SlowReadNtohU32_Read p :
  SlowReadNtohU32 (Construct b p) h =
    ('(bytes, i) ← Read 4 (Construct b p) h; Ok (ntoh 32 bytes, i)).
Proof using.
  unfold SlowReadNtohU32. cbn [Read].
  destruct (ReadU8 (Construct b p) h) as [[b0 i0]|]; res_simpl; [|done].
  destruct (ReadU8 i0 h) as [[b1 i1]|]; res_simpl; [|done].
  destruct (ReadU8 i1 h) as [[b2 i2]|]; res_simpl; [|done].
  destruct (ReadU8 i2 h) as [[b3 i3]|]; res_simpl; done.
Qed.

Lemma read_ntoh_fast_ok p :
  m_start b ≤ p →
  (p + 2 ≤ m_end b →
    ReadNtohU16 (Construct b p) h = SlowReadNtohU16 (Construct b p) h ∧
    ReadNtohU16 (Construct b p) h =
      Ok (ntoh 16 (slice (p - m_start b) 2 (view h b)), Construct b (p + 2))) ∧
  (p + 4 ≤ m_end b →
    ReadNtohU32 (Construct b p) h = SlowReadNtohU32 (Construct b p) h ∧
    ReadNtohU32 (Construct b p) h =
      Ok (ntoh 32 (slice (p - m_start b) 4 (view h b)), Construct b (p + 4))).
Proof using H.
  intros Hp. pose proof window as Hw. unfold window_ok in Hw.
  assert (∀ k, 0 ≤ k → p + k ≤ m_end b →
    (if u32 (p + k) <=? m_zeroAreaStart b then mem_read (m_data b) p k h
     else if m_zeroAreaEnd b <=? p then mem_read (m_data b) (past_zero (Construct b p) p) k h
     else Ok (slice (p - m_start b) k (view h b))) = Ok (slice (p - m_start b) k (view h b))) as Hfast.
  { intros k Hk Hpk. rewrite (wrap_id 32 (p + k)) by zlia.
    assert (real_range b p k → mem_read (m_data b) (phys b p) k h = Ok (slice (p - m_start b) k (view h b)))
      as Hrd by (by apply (read_at b bs)).
    unfold real_range, phys, past_zero in *. cbn [i_zeroStart i_zeroEnd Construct].
    rewrite (wrap_id 32 (m_zeroAreaEnd b - _)) by zlia.
    destruct (Z.leb_spec (p + k) (m_zeroAreaStart b)).
    - destruct (Z.ltb_spec p (m_zeroAreaEnd b)); [apply Hrd; lia|].
      replace (p - (m_zeroAreaEnd b - m_zeroAreaStart b)) with p in Hrd by lia. apply Hrd. lia.
    - destruct (Z.leb_spec (m_zeroAreaEnd b) p); [|done].
      rewrite (proj2 (Z.ltb_ge p _)) in Hrd by lia. rewrite wrap_id by zlia. apply Hrd. lia. }
  split; intros Hpk.
  - rewrite SlowReadNtohU16_Read, (Read_ok 2 p) by lia. res_simpl. change (Z.of_nat 2) with 2.
    assert (ReadNtohU16 (Construct b p) h =
      Ok (ntoh 16 (slice (p - m_start b) 2 (view h b)), Construct b (p + 2))) as E; [|by rewrite E].
    specialize (Hfast 2 ltac:(lia) Hpk). unfold ReadNtohU16.
    cbn [i_current i_zeroStart i_zeroEnd i_data Construct].
    assert (set_current (u32 (p + 2)) (Construct b p) = Construct b (p + 2)) as ->
      by (unfold set_current, Construct; cbn; f_equal; apply wrap_id; zlia).
    destruct (_ <=? _); [rewrite Hfast; done|].
    destruct (_ <=? _); [rewrite Hfast; done|].
    rewrite SlowReadNtohU16_Read, (Read_ok 2 p) by lia. done.
  - rewrite SlowReadNtohU32_Read, (Read_ok 4 p) by lia. res_simpl. change (Z.of_nat 4) with 4.
    assert (ReadNtohU32 (Construct b p) h =
      Ok (ntoh 32 (slice (p - m_start b) 4 (view h b)), Construct b (p + 4))) as E; [|by rewrite E].
    specialize (Hfast 4 ltac:(lia) Hpk). unfold ReadNtohU32.
    cbn [i_current i_zeroStart i_zeroEnd i_data Construct].
    assert (set_current (u32 (p + 4)) (Construct b p) = Construct b (p + 4)) as ->
      by (unfold set_current, Construct; cbn; f_equal; apply wrap_id; zlia).
    destruct (_ <=? _); [rewrite Hfast; done|].
    destruct (_ <=? _); [rewrite Hfast; done|].
    rewrite SlowReadNtohU32_Read, (Read_ok 4 p) by lia. done.
Qed.

(** The fast paths of [ReadNtohU16] and [ReadNtohU32] give what reading byte by byte
    gives, wherever the bytes lie: before, after, inside or across the zero area. *)
Theorem ReadNtoh_fast_is_slow p :
  m_start b ≤ p →
  (p + 2 ≤ m_end b →
    ReadNtohU16 (Construct b p) h = SlowReadNtohU16 (Construct b p) h ∧
    ReadNtohU16 (Construct b p) h =
      Ok (ntoh 16 (slice (p - m_start b) 2 (view h b)), Construct b (p + 2))) ∧
  (p + 4 ≤ m_end b →
    ReadNtohU32 (Construct b p) h = SlowReadNtohU32 (Construct b p) h ∧
    ReadNtohU32 (Construct b p) h =
      Ok (ntoh 32 (slice (p - m_start b) 4 (view h b)), Construct b (p + 4))).
Proof using H. exact (read_ntoh_fast_ok p). Qed.
End iterators.

(** A byte written by [WriteU8]. *)
Lemma WriteU8_ok b bs h p v :
  heap_inv None h (b :: bs) → real_range b p 1 →
  WriteU8 v (Construct b p) h =
    (h' ← mem_write (m_data b) (phys b p) [u8 v] h; Ok (Construct b (p + 1), h')).
Proof.
  intros H Hr. pose proof (window_of_live _ _ _ H) as Hw. unfold window_ok, real_range in *.
  unfold WriteU8. cbn [i_current i_zeroStart i_data Construct].
  assert (Check_ (Construct b p) p = true) as ->.
  { unfold Check_. cbn. rewrite !andb_true_iff, negb_true_iff, andb_false_iff, !Z.leb_le, Z.leb_gt, Z.ltb_ge. lia. }
  res_simpl.
  assert ((if p <? m_zeroAreaStart b then p else past_zero (Construct b p) p) = phys b p) as ->.
  { unfold phys, past_zero. cbn. rewrite (wrap_id 32 (m_zeroAreaEnd b - _)) by zlia.
    z_cases; try lia; rewrite ?wrap_id by zlia; lia. }
  destruct (mem_write _ _ _ _); res_simpl; [|done]. do 2 f_equal.
  unfold set_current, Construct. cbn. f_equal. apply wrap_id. zlia.
Qed.

Lemma mem_write_nil a off h d : blocks h !! a = Some d → mem_write a off [] h = Ok h.
Proof. intros Hd. unfold mem_write. by rewrite Hd. Qed.

(** Writing bytes one by one with [WriteU8]. *)
Fixpoint WriteU8s (l : list Z) (i : Iterator) (h : heap) : res (Iterator * heap) :=
  match l with
  | [] => Ok (i, h)
  | v :: l => '(i, h) ← WriteU8 v i h; WriteU8s l i h
  end.

Lemma WriteU8s_ok b bs l h p :
  heap_inv None h (b :: bs) → real_range b p (Z.of_nat (length l)) →
  WriteU8s l (Construct b p) h =
    (h' ← mem_write (m_data b) (phys b p) (wrap 8 <$> l) h;
     Ok (Construct b (p + Z.of_nat (length l)), h')).
Proof.
  revert h p. induction l as [|v l IH]; intros h p H Hr; cbn [WriteU8s].
  { destruct (live_block _ _ _ H) as (d & Hd & _). unfold mem_write. rewrite Hd. cbn.
    by rewrite Z.add_0_r. }
  pose proof (window_of_live _ _ _ H) as Hw. cbn [length] in Hr. rewrite Nat2Z.inj_succ in Hr.
  assert (real_range b p 1 ∧ real_range b (p + 1) (Z.of_nat (length l)) ∧
    (l = [] ∨ phys b (p + 1) = phys b p + 1)) as (Hr1 & Hr2 & Hph).
  { unfold real_range, phys, window_ok in *. destruct l; [split; [lia|split; [cbn; lia|by left]]|].
    cbn [length] in *. split; [lia|]. split; [lia|]. right. z_cases; lia. }
  rewrite (WriteU8_ok b bs) by done.
  destruct (live_block _ _ _ H) as (d & Hd & _ & Hie & Hs & _).
  destruct (write_at b bs h H p [u8 v] Hr1) as (h1 & H1 & Hi & _). rewrite H1. res_simpl.
  rewrite IH by done. cbn [fmap list_fmap]. change (u8 v :: list_fmap _ _ (wrap 8) l) with ([u8 v] ++ (wrap 8 <$> l)).
  assert (0 ≤ phys b p ∧ phys b p + 1 + Z.of_nat (length l) ≤ m_size d) as [? ?].
  { unfold real_range, phys, window_ok, iend in *. z_cases; lia. }
  rewrite <- (mem_write_app _ _ _ _ h d) by (rewrite ?length_fmap; done || cbn; lia).
  rewrite H1. res_simpl. destruct Hph as [->|Hph].
  - cbn [length fmap list_fmap]. destruct (live_block _ _ _ Hi) as (d1 & Hd1 & _).
    rewrite !(mem_write_nil _ _ _ d1) by done. res_simpl. do 3 f_equal. lia.
  - cbn [length] in *. rewrite Hph. change (Z.of_nat 1) with 1. cbn [length].
    destruct (mem_write _ (phys b p + 1) _ h1); [|done]. res_simpl. do 3 f_equal. lia.
Qed.

Lemma write_fast_ok b bs h p :
  heap_inv None h (b :: bs) →
  (∀ data, real_range b p 2 →
    WriteHtonU16 data (Construct b p) h =
      WriteU8s [Z.land (Z.shiftr data 8) 0xff; Z.land (Z.shiftr data 0) 0xff] (Construct b p) h) ∧
  (∀ data, real_range b p 4 →
    WriteHtonU32 data (Construct b p) h =
      WriteU8s [Z.land (Z.shiftr data 24) 0xff; Z.land (Z.shiftr data 16) 0xff;
                Z.land (Z.shiftr data 8) 0xff; Z.land (Z.shiftr data 0) 0xff] (Construct b p) h) ∧
  (∀ data len, 0 ≤ len → real_range b p len →
    WriteU8_len data len (Construct b p) h =
      WriteU8s (replicate (Z.to_nat len) data) (Construct b p) h) ∧
  (∀ bytes, Forall (fits 8) bytes → real_range b p (Z.of_nat (length bytes)) →
    Write_bytes bytes (Construct b p) h = WriteU8s bytes (Construct b p) h).
Proof.
  intros H. pose proof (window_of_live _ _ _ H) as Hw. unfold window_ok in Hw.
  assert (∀ k, 0 < k → real_range b p k → CheckNoZero (Construct b p) p (u32 (p + k)) = true ∧
    (if u32 (p + k) <=? m_zeroAreaStart b then p else past_zero (Construct b p) p) = phys b p ∧
    set_current (u32 (p + k)) (Construct b p) = Construct b (p + k)) as Hchk.
  { intros k Hk Hr. unfold real_range in Hr. rewrite (wrap_id 32 (p + k)) by zlia. conj; [| |done].
    - unfold CheckNoZero. cbn. apply negb_true_iff. rewrite !orb_false_iff, !andb_false_iff.
      rewrite !Z.ltb_ge, !negb_false_iff, !Z.eqb_eq. lia.
    - unfold phys, past_zero. cbn. rewrite (wrap_id 32 (m_zeroAreaEnd b - _)) by zlia.
      z_cases; try lia; rewrite ?wrap_id by zlia; lia. }
  conj.
  - intros data Hr. destruct (Hchk 2 ltac:(lia) Hr) as (Hc & Hoff & Hcur).
    unfold WriteHtonU16. cbn [i_current i_zeroStart i_data Construct]. rewrite Hc. res_simpl.
    rewrite Hoff, Hcur, (WriteU8s_ok b bs) by done. cbn. by rewrite !land_ff, !wrap_idemp by lia.
  - intros data Hr. destruct (Hchk 4 ltac:(lia) Hr) as (Hc & Hoff & Hcur).
    unfold WriteHtonU32. cbn [i_current i_zeroStart i_data Construct]. rewrite Hc. res_simpl.
    rewrite Hoff, Hcur, (WriteU8s_ok b bs) by done. cbn. by rewrite !land_ff, !wrap_idemp by lia.
  - intros data len Hlen Hr. destruct (WriteU8_len_ok b bs h p data len H Hlen Hr) as (h' & -> & Hm).
    rewrite (WriteU8s_ok b bs) by (rewrite ?length_replicate, ?Z2Nat.id by lia; done).
    rewrite fmap_replicate, Hm, length_replicate, Z2Nat.id by lia. done.
  - intros bytes Hf Hr. destruct (Write_bytes_ok b bs h H p bytes Hr) as (h' & -> & Hm).
    rewrite (WriteU8s_ok b bs) by done.
    assert (wrap 8 <$> bytes = bytes) as ->; [|by rewrite Hm].
    clear -Hf. induction Hf as [|x l Hx _ IH]; [done|]. cbn. by rewrite IH, wrap_id.
Qed.

(** The one-shot writers [WriteHtonU16], [WriteHtonU32], [WriteU8(data, len)] and
    [Write(buffer, size)] do what writing their bytes one by one does, on either side of
    the zero area. *)
Theorem Write_fast_is_slow b bs h p :
  heap_inv None h (b :: bs) →
  (∀ data, real_range b p 2 →
    WriteHtonU16 data (Construct b p) h =
      WriteU8s [Z.land (Z.shiftr data 8) 0xff; Z.land (Z.shiftr data 0) 0xff] (Construct b p) h) ∧
  (∀ data, real_range b p 4 →
    WriteHtonU32 data (Construct b p) h =
      WriteU8s [Z.land (Z.shiftr data 24) 0xff; Z.land (Z.shiftr data 16) 0xff;
                Z.land (Z.shiftr data 8) 0xff; Z.land (Z.shiftr data 0) 0xff] (Construct b p) h) ∧
  (∀ data len, 0 ≤ len → real_range b p len →
    WriteU8_len data len (Construct b p) h =
      WriteU8s (replicate (Z.to_nat len) data) (Construct b p) h) ∧
  (∀ bytes, Forall (fits 8) bytes → real_range b p (Z.of_nat (length bytes)) →
    Write_bytes bytes (Construct b p) h = WriteU8s bytes (Construct b p) h).
Proof. exact (write_fast_ok b bs h p). Qed.

(** ** Copies and serialization *)

Lemma zeroes_loop_ok fuel left :
  0 ≤ left < Z.of_nat fuel → zeroes_loop fuel left = Ok (zeros left).
Proof.
  revert left. induction fuel as [|fuel IH]; intros left Hl; [lia|].
  cbn [zeroes_loop]. destruct (Z.ltb_spec 0 left).
  - unfold g_zeroes_size. rewrite IH by lia. res_simpl. rewrite <- zeros_app by lia.
    do 2 f_equal. lia.
  - assert (left = 0) as -> by lia. done.
Qed.

(** [CopyData] gives the first bytes of the content, through the zero area, to an array
    and to a stream alike. *)
Theorem CopyData_correct b bs h size :
  heap_inv None h bs → b ∈ bs → 0 ≤ size →
  CopyData size b h = Ok (take (Z.to_nat size) (view h b)) ∧
  CopyData_stream size b h = Ok (take (Z.to_nat size) (view h b)).
Proof.
  intros H Hb Hs. destruct (inv_front _ _ _ _ H Hb) as (bs' & _ & H').
  destruct (live_block _ _ _ H') as (d & Hd & Hw & Hie & _ & _).
  destruct (view_parts _ _ _ H') as (H1 & H2 & H3). unfold window_ok, iend in *.
  assert (∀ n, 0 ≤ n ≤ m_zeroAreaStart b - m_start b →
    mem_read (m_data b) (m_start b) n h = Ok (take (Z.to_nat n) (front h b))) as Hf.
  { intros n Hn. rewrite (mem_read_ok _ _ _ _ d) by (done || lia). unfold front. by rewrite take_slice by lia. }
  assert (∀ n, 0 ≤ n ≤ m_end b - m_zeroAreaEnd b →
    mem_read (m_data b) (m_zeroAreaStart b) n h = Ok (take (Z.to_nat n) (back h b))) as Hk.
  { intros n Hn. rewrite (mem_read_ok _ _ _ _ d) by (done || lia). unfold back. by rewrite take_slice by lia. }
  assert (∀ n, 0 ≤ n → zeroes_loop (zeroes_fuel n) n = Ok (zeros n)) as Hz.
  { intros n Hn. apply zeroes_loop_ok. unfold zeroes_fuel. lia. }
  change (slice (m_start b) _ _) with (front h b) in H1. change (slice (m_zeroAreaStart b) _ _) with (back h b) in H3.
  change (view h b) with (front h b ++ zeros (m_zeroAreaEnd b - m_zeroAreaStart b) ++ back h b).
  unfold CopyData, CopyData_stream.
  rewrite (wrap_id 32 (m_zeroAreaStart b - m_start b)), (wrap_id 32 (m_zeroAreaEnd b - m_zeroAreaStart b)),
    (wrap_id 32 (m_end b - m_zeroAreaEnd b)) by zlia.
  destruct (Z.ltb_spec 0 size).
  2: { assert (size = 0) as -> by lia. by rewrite take_0. }
  rewrite Hf by lia. res_simpl.
  destruct (Z.le_gt_cases size (m_zeroAreaStart b - m_start b)).
  { rewrite Z.min_r by lia. rewrite Z.sub_diag, !Z.ltb_irrefl. rewrite take_app_le by lia. done. }
  rewrite Z.min_l by lia. rewrite (proj2 (Z.ltb_lt 0 _)), (proj2 (Z.ltb_lt _ size)) by lia.
  rewrite (take_ge (front h b)) by lia. rewrite Hz by lia. res_simpl.
  rewrite (take_app_ge (front h b)) by lia.
  set (size' := size - (m_zeroAreaStart b - m_start b)).
  destruct (Z.le_gt_cases size' (m_zeroAreaEnd b - m_zeroAreaStart b)).
  { rewrite Z.min_r by lia. rewrite Z.sub_diag, !Z.ltb_irrefl.
    rewrite take_app_le by lia.
    replace (Z.to_nat size - length (front h b))%nat with (Z.to_nat size') by lia.
    rewrite take_zeros by lia. done. }
  rewrite (Z.min_l (m_zeroAreaEnd b - m_zeroAreaStart b)) by lia.
  rewrite (proj2 (Z.ltb_lt 0 _)), (proj2 (Z.ltb_lt _ size')) by lia. rewrite Hk by lia. res_simpl.
  rewrite (take_app_ge (zeros _)) by lia.
  assert (take (Z.to_nat (Z.min (m_end b - m_zeroAreaEnd b) (size' - (m_zeroAreaEnd b - m_zeroAreaStart b))))
    (back h b) = take (Z.to_nat size - length (front h b) -
      length (zeros (m_zeroAreaEnd b - m_zeroAreaStart b))) (back h b)) as ->; [|done].
  destruct (Z.le_gt_cases (m_end b - m_zeroAreaEnd b) (size' - (m_zeroAreaEnd b - m_zeroAreaStart b))).
  - rewrite !take_ge by lia. done.
  - f_equal. lia.
Qed.

Lemma length_word z : length (word z) = 4%nat.
Proof. done. Qed.

Lemma of_word_word z : fits 32 z → of_word (word z) = z.
Proof.
  intros Hz. unfold of_word, word. change 0xff with (Z.ones 8).
  rewrite !land_ones_wrap, !shiftr_div by lia.
  rewrite (Z.lor_comm (u8 z)), (Z.lor_comm (Z.shiftl (u8 (z / 2 ^ 16)) 16)).
  assert (∀ x, 0 ≤ u8 x < 2 ^ 8) as H8 by (intros; apply wrap_fits; lia).
  rewrite (lor_shiftl_add (u8 (z / 2 ^ 8))) by (lia || apply H8).
  assert (Z.lor (Z.shiftl (u8 (z / 2 ^ 24)) 24) (Z.shiftl (u8 (z / 2 ^ 16)) 16) =
    Z.shiftl (u8 (z / 2 ^ 24) * 2 ^ 8 + u8 (z / 2 ^ 16)) 16) as ->.
  { rewrite <- lor_shiftl_add by (lia || apply H8). rewrite Z.shiftl_lor, Z.shiftl_shiftl by lia. done. }
  rewrite Z.lor_comm, lor_shiftl_add; [|lia|].
  - unfold wrap, fits in *. change (2 ^ 24) with (2 ^ 8 * 2 ^ 16). change (2 ^ 16) with (2 ^ 8 * 2 ^ 8).
    rewrite <- !Z.div_div by lia. change (2 ^ 32) with 4294967296 in Hz. change (2 ^ 8) with 256. clear H8.
    div_lia.
  - pose proof (H8 z). pose proof (H8 (z / 2 ^ 8)). lia.
Qed.

Lemma align4_spec n : 0 ≤ n → n + 3 < 2 ^ 32 → align4 n = (n + 3) / 4 * 4.
Proof.
  intros Hn Hc. unfold align4. rewrite wrap_id by zlia.
  change 0xfffffffc with (Z.shiftl (Z.ones 30) 2).
  assert (Z.land (n + 3) (Z.shiftl (Z.ones 30) 2) = Z.shiftl (Z.land (Z.shiftr (n + 3) 2) (Z.ones 30)) 2) as ->.
  { apply Z.bits_inj'. intros i Hi. rewrite Z.land_spec, !Z.shiftl_spec by lia.
    destruct (Z.lt_ge_cases i 2); [by rewrite !(Z.testbit_neg_r _ (i - 2)), andb_false_r by lia|].
    rewrite Z.land_spec, Z.shiftr_spec by lia. do 2 f_equal. lia. }
  rewrite land_ones_wrap, shiftr_div, Z.shiftl_mul_pow2 by lia. rewrite wrap_id; [done|].
  unfold fits. change (2 ^ 32) with 4294967296 in Hc. change (2 ^ 30) with 1073741824. change (2 ^ 2) with 4. div_lia.
Qed.

Lemma array_write_ok p bs out :
  0 ≤ p → p + Z.of_nat (length bs) ≤ Z.of_nat (length out) →
  array_write p bs out = Ok (splice p bs out) ∧ length (splice p bs out) = length out.
Proof.
  intros. unfold array_write. rewrite (proj2 (Z.leb_le _ _)) by done. split; [done|].
  by apply length_splice.
Qed.

Lemma array_read_ok p n buf :
  p + n ≤ Z.of_nat (length buf) → array_read p n buf = Ok (slice p n buf).
Proof. intros. unfold array_read. by rewrite (proj2 (Z.leb_le _ _)). Qed.

(** What [Serialize] leaves in an array of the right size. *)
Lemma Serialize_ok b bs h out :
  heap_inv None h bs → b ∈ bs → m_end b < 2 ^ 31 - 32 →
  GetSerializedSize b = Z.of_nat (length out) →
  let z := m_zeroAreaEnd b - m_zeroAreaStart b in
  let s := m_zeroAreaStart b - m_start b in
  let e := m_end b - m_zeroAreaEnd b in
  let p := 8 + align4 s in
  ∃ out', Serialize (GetSerializedSize b) out b h = Ok (1, out') ∧
    length out' = length out ∧ GetSerializedSize b = p + 4 + align4 e ∧
    slice 0 4 out' = word z ∧ slice 4 4 out' = word s ∧ slice 8 s out' = front h b ∧
    slice p 4 out' = word e ∧ slice (p + 4) e out' = back h b.
Proof.
  intros H Hb Hcap Hsz z s e p. destruct (live_readable h bs b H Hb) as [Hw Hrf Hrb Hfl Hbl _].
  unfold window_ok in Hw. fold s in Hrf, Hfl. fold e in Hrb, Hbl.
  assert (0 ≤ s ∧ 0 ≤ e ∧ 0 ≤ z ∧ s + e + z ≤ m_end b) as (Hs & He & Hz & Hse) by lia.
  pose proof (align4_spec s ltac:(lia) ltac:(lia)) as Has.
  pose proof (align4_spec e ltac:(lia) ltac:(lia)) as Hae.
  assert (s ≤ align4 s ≤ s + 3 ∧ e ≤ align4 e ≤ e + 3) as [HAs HAe] by (rewrite Has, Hae; div_lia).
  assert (GetSerializedSize b = p + 4 + align4 e) as Hg.
  { unfold GetSerializedSize. fold s e. rewrite (wrap_id 32 s), (wrap_id 32 e) by zlia.
    rewrite wrap_id by zlia. subst p. lia. }
  rewrite Hg in Hsz |- *. subst p.
  destruct (array_write_ok 0 (word z) out) as [W1 L1]; [lia|rewrite length_word; lia|].
  set (o1 := splice 0 (word z) out) in *.
  destruct (array_write_ok 4 (word s) o1) as [W2 L2]; [lia|rewrite length_word; lia|].
  set (o2 := splice 4 (word s) o1) in *.
  destruct (array_write_ok 8 (front h b) o2) as [W3 L3]; [lia|lia|].
  set (o3 := splice 8 (front h b) o2) in *.
  destruct (array_write_ok (8 + align4 s) (word e) o3) as [W4 L4]; [lia|rewrite length_word; lia|].
  set (o4 := splice (8 + align4 s) (word e) o3) in *.
  destruct (array_write_ok (8 + align4 s + 4) (back h b) o4) as [W5 L5]; [lia|lia|].
  set (o5 := splice (8 + align4 s + 4) (back h b) o4) in *.
  exists o5. conj; [|lia|done| | | | |].
  - unfold Serialize. fold z s e. rewrite (wrap_id 32 z), (wrap_id 32 s), (wrap_id 32 e) by zlia.
    rewrite (wrap_id 32 (8 + align4 s)) by zlia. rewrite (wrap_id 32 (8 + align4 s + 4)) by zlia.
    rewrite (wrap_id 32 (8 + align4 s + 4 + align4 e)) by zlia.
    rewrite !(proj2 (Z.leb_le _ _)) by lia.
    rewrite W1. res_simpl. rewrite W2. res_simpl. rewrite Hrf. res_simpl. rewrite W3. res_simpl.
    rewrite W4. res_simpl. rewrite Hrb. res_simpl. rewrite W5. done.
  - unfold o5. rewrite slice_splice_other by (rewrite ?length_word; lia).
    unfold o4. rewrite slice_splice_other by (rewrite ?length_word; lia).
    unfold o3. rewrite slice_splice_other by (rewrite ?length_word; lia).
    unfold o2. rewrite slice_splice_other by (rewrite ?length_word; lia).
    unfold o1. change 4 with (Z.of_nat (length (word z))). apply slice_splice_same; rewrite ?length_word; lia.
  - unfold o5. rewrite slice_splice_other by (rewrite ?length_word; lia).
    unfold o4. rewrite slice_splice_other by (rewrite ?length_word; lia).
    unfold o3. rewrite slice_splice_other by (rewrite ?length_word; lia).
    unfold o2. change 4 with (Z.of_nat (length (word s))) at 2. apply slice_splice_same; rewrite ?length_word; lia.
  - unfold o5. rewrite slice_splice_other by (rewrite ?length_word; lia).
    unfold o4. rewrite slice_splice_other by (rewrite ?length_word; lia).
    rewrite <- Hfl. unfold o3. apply slice_splice_same; lia.
  - unfold o5. rewrite slice_splice_other by (rewrite ?length_word; lia).
    unfold o4. change 4 with (Z.of_nat (length (word e))). apply slice_splice_same; rewrite ?length_word; lia.
  - rewrite <- Hbl. unfold o5. apply slice_splice_same; lia.
Qed.

(** Round trip: what [Serialize] writes in an array of [GetSerializedSize()] bytes,
    [Deserialize] turns into a buffer of the same content, and no live buffer changes. The
    size it is given counts four bytes more, as [Packet::Deserialize] calls it. *)
Theorem Serialize_Deserialize fill b bs h out :
  heap_inv None h bs → b ∈ bs → Z.of_nat (length bs) + 1 < 2 ^ 32 →
  g_recommendedStart h + m_end b < 2 ^ 31 - 200 →
  GetSerializedSize b = Z.of_nat (length out) →
  ∃ out' b' h', Serialize (GetSerializedSize b) out b h = Ok (1, out') ∧
    Deserialize fill out' (GetSerializedSize b + 4) h = Ok (1, b', h') ∧
    heap_inv None h' (b' :: bs) ∧ view h' b' = view h b ∧
    (∀ o, o ∈ bs → view h' o = view h o).
Proof.
  intros H Hb Hlen Hcap Hsz. pose proof (hi_rec _ _ _ H) as Hrec.
  destruct (Serialize_ok b bs h out H Hb ltac:(lia) Hsz) as
    (o & Hser & Hlo & Hg & R1 & R2 & R3 & R4 & R5).
  destruct (live_readable h bs b H Hb) as [Hw Hrf Hrb Hfl Hbl _]. unfold window_ok in Hw.
  set (z := m_zeroAreaEnd b - m_zeroAreaStart b) in *. set (s := m_zeroAreaStart b - m_start b) in *.
  set (e := m_end b - m_zeroAreaEnd b) in *.
  assert (0 ≤ s ∧ 0 ≤ e ∧ 0 ≤ z ∧ s + e + z ≤ m_end b) as (Hs & He & Hz & Hse) by lia.
  pose proof (align4_spec s ltac:(lia) ltac:(lia)) as Has.
  pose proof (align4_spec e ltac:(lia) ltac:(lia)) as Hae.
  assert (s ≤ align4 s ≤ s + 3 ∧ e ≤ align4 e ≤ e + 3) as [HAs HAe] by (rewrite Has, Hae; div_lia).
  destruct (Initialize_ok fill z bs h H) as
    (b0 & h0 & Hi & H0 & Hs0 & Hv0 & Hb1 & Hb2 & Hb3 & Hb4 & Hn0 & _); [lia|lia|].
  destruct (add_header_ok fill (front h b) b0 bs h0 H0) as
    (b1 & h1 & h2 & Ha1 & Hw1 & H2 & Hv2 & Ho2 & He2 & Hz2 & _); [lia|cbn; lia|].
  destruct (add_trailer_ok fill (back h b) b1 bs h2 H2) as
    (b3 & h3 & i3 & h4 & Ha3 & Hp3 & Hw3 & H4 & Hv4 & Ho4 & _); [lia|cbn; lia|].
  rewrite Hfl in *. rewrite Hbl in *. rewrite Hg in Hsz.
  exists o, b3, h4. conj; [done| |done| |].
  - unfold Deserialize. rewrite Hg.
    rewrite (wrap_id 32 (8 + align4 s + 4 + align4 e + 4 - 4)) by zlia.
    rewrite (proj2 (Z.leb_le 4 (8 + align4 s + 4 + align4 e + 4 - 4))) by lia. res_simpl.
    rewrite (array_read_ok 0 4), R1 by lia. res_simpl. rewrite (of_word_word z) by zlia.
    rewrite Hi. res_simpl.
    replace (8 + align4 s + 4 + align4 e + 4 - 4 - 4) with (8 + align4 s + align4 e) by lia.
    rewrite (wrap_id 32 (8 + align4 s + align4 e)) by zlia.
    rewrite (proj2 (Z.leb_le 4 (8 + align4 s + align4 e))) by lia. res_simpl.
    rewrite (array_read_ok 4 4), R2 by lia. res_simpl. rewrite (of_word_word s) by zlia. rewrite Ha1. res_simpl.
    replace (8 + align4 s + align4 e - 4) with (4 + align4 s + align4 e) by lia.
    rewrite (wrap_id 32 (4 + align4 s + align4 e)) by zlia.
    rewrite (proj2 (Z.leb_le s (4 + align4 s + align4 e))) by lia. res_simpl.
    rewrite (array_read_ok 8 s), R3 by lia. res_simpl. rewrite Hw1. res_simpl.
    replace (4 + align4 s + align4 e - align4 s) with (4 + align4 e) by lia.
    rewrite (wrap_id 32 (4 + align4 e)) by zlia.
    rewrite (proj2 (Z.leb_le 4 (4 + align4 e))) by lia. res_simpl.
    rewrite (array_read_ok (8 + align4 s) 4), R4 by lia. res_simpl. rewrite (of_word_word e) by zlia. rewrite Ha3. res_simpl.
    replace (4 + align4 e - 4) with (align4 e) by lia. rewrite (wrap_id 32 (align4 e)) by zlia.
    rewrite (proj2 (Z.leb_le e (align4 e))) by lia. res_simpl. rewrite Hp3. res_simpl.
    rewrite (array_read_ok (8 + align4 s + 4) e), R5 by lia. res_simpl. rewrite Hw3. res_simpl. rewrite Z.sub_diag. done.
  - rewrite Hv4, Hv2, Hv0, <- app_assoc. done.
  - intros x Hx. rewrite Ho4, Ho2 by done. by apply (same_bytes_view h h0 bs).
Qed.

(** ** Growing and shrinking *)

Section growth.
Context (fill : Z → Z → Z).

(** C29 A header written into the room [AddAtStart] makes stands before the old content,
    and no other buffer changes, though it may share the block: copy-on-write. *)
Theorem AddAtStart_header hdr b bs h :
  heap_inv None h (b :: bs) → m_end b + Z.of_nat (length hdr) < 2 ^ 31 - 100 →
  Z.of_nat (length (b :: bs)) < 2 ^ 32 →
  ∃ b' h1 i h2, AddAtStart fill (Z.of_nat (length hdr)) b h = Ok (b', h1) ∧
    Write_bytes hdr (Begin b') h1 = Ok (i, h2) ∧ heap_inv None h2 (b' :: bs) ∧
    view h2 b' = hdr ++ view h b ∧ ∀ o, o ∈ bs → view h2 o = view h o.
Proof using.
  intros H Hcap Hlen.
  destruct (add_header_ok fill hdr b bs h H Hcap Hlen) as (b' & h1 & h2 & Ha & Hw & Hi & Hv & Ho & _).
  exists b', h1. eexists _, h2. by conj.
Qed.

(** A trailer written into the room [AddAtEnd] makes stands after the old content, and
    no other buffer changes. *)
Theorem AddAtEnd_trailer tr b bs h :
  heap_inv None h (b :: bs) → m_end b + Z.of_nat (length tr) < 2 ^ 31 - 100 →
  Z.of_nat (length (b :: bs)) < 2 ^ 32 →
  ∃ b' h1 i i' h2, AddAtEnd fill (Z.of_nat (length tr)) b h = Ok (b', h1) ∧
    Prev (Z.of_nat (length tr)) (End_ b') = Ok i ∧ Write_bytes tr i h1 = Ok (i', h2) ∧
    heap_inv None h2 (b' :: bs) ∧ view h2 b' = view h b ++ tr ∧ ∀ o, o ∈ bs → view h2 o = view h o.
Proof using.
  intros H Hcap Hlen.
  destruct (add_trailer_ok fill tr b bs h H Hcap Hlen) as
    (b' & h1 & i & h2 & Ha & Hp & Hw & Hi & Hv & Ho & _).
  exists b', h1, i. eexists _, h2. by conj.
Qed.

(** [RemoveAtStart] drops the first bytes, [RemoveAtEnd] the last ones (all of them when
    there are not so many), and a fragment is the piece of the content it names; no other
    buffer changes. *)
Theorem Remove_and_fragment b bs h n start len :
  heap_inv None h (b :: bs) → Z.of_nat (length (b :: bs)) + 1 < 2 ^ 32 →
  0 ≤ n → m_start b + n < 2 ^ 32 → 0 ≤ start → 0 ≤ len → start + len ≤ GetSize b →
  (∃ b', RemoveAtStart n b = Ok b' ∧ heap_inv None h (b' :: bs) ∧
    view h b' = drop (Z.to_nat n) (view h b)) ∧
  (heap_inv None h (RemoveAtEnd n b :: bs) ∧
    view h (RemoveAtEnd n b) = take (length (view h b) - Z.to_nat n) (view h b)) ∧
  (∃ b' h', CreateFragment start len b h = Ok (b', h') ∧ heap_inv None h' (b' :: b :: bs) ∧
    view h' b' = take (Z.to_nat len) (drop (Z.to_nat start) (view h b)) ∧
    ∀ o, o ∈ b :: bs → view h' o = view h o).
Proof using.
  intros H Hlen Hn Hcap Hs Hl Hfit. pose proof (window_of_live _ _ _ H) as Hw.
  rewrite GetSize_ok in Hfit by done. conj.
  - destruct (RemoveAtStart_ok b bs h H n Hn Hcap) as (b' & ? & ? & ? & _). by exists b'.
  - by apply RemoveAtEnd_ok.
  - by apply (RemoveAtEnd_ok b bs h H n Hn).
  - destruct (CreateFragment_ok start len b (b :: bs) h H) as (b' & h' & ? & ? & Hsame & ?);
      [by left|done|done|done|lia|].
    exists b', h'. conj; [done|done|done|]. intros o Ho. by eapply same_bytes_view.
Qed.

(** [TransformIntoRealBuffer], and so [PeekData], leaves the content of the buffer as it
    is, with no zero area: the block holds all of it from [m_start]. *)
Theorem PeekData_correct b bs h :
  heap_inv None h (b :: bs) → Z.of_nat (length (b :: bs)) + 2 < 2 ^ 32 →
  g_recommendedStart h + (m_end b - m_start b) < 2 ^ 31 - 100 →
  ∃ p b' h', PeekData fill b h = Ok (p, b', h') ∧ heap_inv None h' (b' :: bs) ∧
    view h' b' = view h b ∧
    slice p (GetSize b) (bytes_of h' (m_data b')) = view h b ∧
    ∀ o, o ∈ bs → view h' o = view h o.
Proof using.
  intros H Hlen Hcap. pose proof (window_of_live _ _ _ H) as Hw.
  destruct (replace_by_copy_ok fill b bs h H Hlen Hcap) as (b' & h' & Ht & H' & Hv & Ho & Hz & _).
  unfold PeekData. rewrite Ht. res_simpl. eexists _, b', h'. split; [done|]. conj; [done|done| |done].
  pose proof (length_view _ _ _ H) as Hl. pose proof (length_view _ _ _ H') as Hl'.
  pose proof (window_of_live _ _ _ H') as Hw'. unfold window_ok in Hw'.
  rewrite GetSize_ok by done. rewrite <- Hv. rewrite Hv in Hl'. unfold view.
  rewrite Hz, Z.sub_diag. change (zeros 0) with (@nil Z). cbn [app].
  replace (m_end b - m_start b) with ((m_zeroAreaEnd b' - m_start b') + (m_end b' - m_zeroAreaEnd b')) by lia.
  rewrite slice_app by lia. do 2 f_equal. lia.
Qed.
End growth.

(** ** Concrete buffers *)

Definition empty_heap : heap := mkHeap ∅ 0 0 UNINITIALIZED 0.

Lemma empty_heap_ok : heap_inv None empty_heap [].
Proof. split; try done; [intros b Hb; by apply not_elem_of_nil in Hb|set_solver..]. Qed.

Definition demo_fill (a i : Z) : Z := 170.

(** A buffer of ten zeroes with the bytes 1 2 3 in front and 4 5 behind, and a copy. *)
Definition demo : res (Buffer * Buffer * heap) :=
  '(b, h) ← Initialize demo_fill 10 empty_heap;
  '(b, h) ← AddAtStart demo_fill 3 b h;
  '(_, h) ← Write_bytes [1; 2; 3] (Begin b) h;
  '(b, h) ← AddAtEnd demo_fill 2 b h;
  i ← Prev 2 (End_ b);
  '(_, h) ← Write_bytes [4; 5] i h;
  '(c, h) ← copy b h;
  Ok (b, c, h).
Definition demo_b : Buffer := match demo with Ok (b, _, _) => b | Err _ => mkBuffer 0 0 0 0 0 0 end.
Definition demo_c : Buffer := match demo with Ok (_, c, _) => c | Err _ => mkBuffer 0 0 0 0 0 0 end.
Definition demo_h : heap := match demo with Ok (_, _, h) => h | Err _ => empty_heap end.

Lemma demo_ok : heap_inv None demo_h [demo_c; demo_b].
Proof.
  assert (∃ b c h, demo = Ok (b, c, h) ∧ heap_inv None h [c; b]) as (b & c & h & Hd & Hi).
  2: { unfold demo_h, demo_c, demo_b. by rewrite Hd. }
  unfold demo.
  destruct (Initialize_ok demo_fill 10 [] empty_heap empty_heap_ok) as
    (b0 & h0 & -> & H0 & _ & _ & H01 & H02 & H03 & H04 & _); [done|cbn; lia|]. res_simpl.
  cbn in H04.
  destruct (add_header_ok demo_fill [1; 2; 3] b0 [] h0 H0) as
    (b1 & h1 & h2 & Ha1 & Hw1 & H2 & _ & _ & He2 & _); [cbn; lia|done|].
  change (Z.of_nat (length [1; 2; 3])) with 3 in *. rewrite Ha1. res_simpl. rewrite Hw1. res_simpl.
  destruct (add_trailer_ok demo_fill [4; 5] b1 [] h2 H2) as
    (b3 & h3 & i3 & h4 & Ha3 & Hp3 & Hw3 & H4 & _); [cbn; lia|done|].
  change (Z.of_nat (length [4; 5])) with 2 in *. rewrite Ha3. res_simpl. rewrite Hp3. res_simpl.
  rewrite Hw3. res_simpl.
  destruct (copy_ok h4 [b3] b3 H4) as (c & h5 & -> & H5 & _); [by left|done|]. res_simpl.
  by exists b3, c, h5.
Qed.

Example demo_view : view demo_h demo_b = [1; 2; 3; 0; 0; 0; 0; 0; 0; 0; 0; 0; 0; 4; 5].
Proof. vm_compute. reflexivity. Qed.

Lemma AddAtStart_header_witness :
  ∃ b' h1 i h2, AddAtStart demo_fill 2 demo_c demo_h = Ok (b', h1) ∧
    Write_bytes [8; 9] (Begin b') h1 = Ok (i, h2) ∧
    view h2 b' = [8; 9; 1; 2; 3; 0; 0; 0; 0; 0; 0; 0; 0; 0; 0; 4; 5] ∧
    view h2 demo_b = view demo_h demo_b.
Proof.
  destruct (AddAtStart_header demo_fill [8; 9] demo_c [demo_b] demo_h) as
    (b' & h1 & i & h2 & Ha & Hw & _ & Hv & Ho).
  - exact demo_ok.
  - vm_compute. reflexivity.
  - vm_compute. reflexivity.
  - exists b', h1, i, h2. split; [exact Ha|]. split; [exact Hw|]. split.
    + rewrite Hv. vm_compute. reflexivity.
    + apply Ho. apply list_elem_of_singleton. reflexivity.
Defined.

Lemma AddAtEnd_trailer_witness :
  ∃ b' h1 i i' h2, AddAtEnd demo_fill 2 demo_c demo_h = Ok (b', h1) ∧
    Prev 2 (End_ b') = Ok i ∧ Write_bytes [8; 9] i h1 = Ok (i', h2) ∧
    view h2 b' = [1; 2; 3; 0; 0; 0; 0; 0; 0; 0; 0; 0; 0; 4; 5; 8; 9].
Proof.
  destruct (AddAtEnd_trailer demo_fill [8; 9] demo_c [demo_b] demo_h) as
    (b' & h1 & i & i' & h2 & Ha & Hp & Hw & _ & Hv & _).
  - exact demo_ok.
  - vm_compute. reflexivity.
  - vm_compute. reflexivity.
  - exists b', h1, i, i', h2. split; [exact Ha|]. split; [exact Hp|]. split; [exact Hw|].
    rewrite Hv. vm_compute. reflexivity.
Defined.

Lemma Remove_and_fragment_witness :
  (∃ b', RemoveAtStart 5 demo_c = Ok b' ∧ view demo_h b' = [0; 0; 0; 0; 0; 0; 0; 0; 4; 5]) ∧
  view demo_h (RemoveAtEnd 5 demo_c) = [1; 2; 3; 0; 0; 0; 0; 0; 0; 0] ∧
  ∃ b' h', CreateFragment 1 4 demo_c demo_h = Ok (b', h') ∧ view h' b' = [2; 3; 0; 0].
Proof.
  destruct (Remove_and_fragment demo_c [demo_b] demo_h 5 1 4) as
    ((b1 & H1 & _ & V1) & (_ & V2) & (b3 & h3 & H3 & _ & V3 & _)).
  - exact demo_ok.
  - vm_compute. reflexivity.
  - lia.
  - vm_compute. reflexivity.
  - lia.
  - lia.
  - vm_compute. discriminate.
  - split; [|split].
    + exists b1. split; [exact H1|]. rewrite V1. vm_compute. reflexivity.
    + rewrite V2. vm_compute. reflexivity.
    + exists b3, h3. split; [exact H3|]. rewrite V3. vm_compute. reflexivity.
Defined.

Lemma PeekData_correct_witness :
  ∃ p b' h', PeekData demo_fill demo_c demo_h = Ok (p, b', h') ∧
    slice p 15 (bytes_of h' (m_data b')) = [1; 2; 3; 0; 0; 0; 0; 0; 0; 0; 0; 0; 0; 4; 5].
Proof.
  destruct (PeekData_correct demo_fill demo_c [demo_b] demo_h) as (p & b' & h' & Hp & _ & _ & Hs & _).
  - exact demo_ok.
  - vm_compute. reflexivity.
  - vm_compute. reflexivity.
  - exists p, b', h'. split; [exact Hp|].
    change 15 with (GetSize demo_c). rewrite Hs. vm_compute. reflexivity.
Defined.

Lemma AddAtEnd_buffer_correct_witness :
  ∃ b' h', AddAtEnd_buffer demo_fill demo_b demo_c demo_h = Ok (b', h') ∧
    view h' b' = view demo_h demo_c ++ view demo_h demo_b.
Proof.
  destruct (AddAtEnd_buffer_correct demo_fill demo_c demo_b [demo_b] demo_h) as (b' & h' & Ha & _ & Hv & _).
  - exact demo_ok.
  - apply list_elem_of_singleton. reflexivity.
  - vm_compute. reflexivity.
  - vm_compute. reflexivity.
  - left. vm_compute. discriminate.
  - right. vm_compute. reflexivity.
  - exists b', h'. split; [exact Ha|exact Hv].
Defined.

Lemma CopyData_correct_witness :
  CopyData 6 demo_b demo_h = Ok [1; 2; 3; 0; 0; 0].
Proof.
  destruct (CopyData_correct demo_b [demo_c; demo_b] demo_h 6) as [H _].
  - exact demo_ok.
  - apply elem_of_cons. right. apply list_elem_of_singleton. reflexivity.
  - lia.
  - rewrite H. vm_compute. reflexivity.
Defined.

Lemma ReadNtoh_fast_is_slow_witness :
  ReadNtohU32 (Construct demo_c (m_start demo_c + 1)) demo_h =
    SlowReadNtohU32 (Construct demo_c (m_start demo_c + 1)) demo_h.
Proof.
  destruct (ReadNtoh_fast_is_slow demo_c [demo_b] demo_h demo_ok (m_start demo_c + 1)) as [_ H].
  - lia.
  - apply H. vm_compute. discriminate.
Defined.

Lemma Write_fast_is_slow_witness :
  WriteHtonU16 515 (Begin demo_c) demo_h = WriteU8s [2; 3] (Begin demo_c) demo_h.
Proof.
  destruct (Write_fast_is_slow demo_c [demo_b] demo_h (m_start demo_c) demo_ok) as [H _].
  apply (H 515). left. vm_compute. split; discriminate.
Defined.

Lemma Serialize_Deserialize_witness :
  ∃ out' b' h', Serialize 20 (replicate 20 7) demo_b demo_h = Ok (1, out') ∧
    Deserialize demo_fill out' 24 demo_h = Ok (1, b', h') ∧ view h' b' = view demo_h demo_b.
Proof.
  destruct (Serialize_Deserialize demo_fill demo_b [demo_c; demo_b] demo_h (replicate 20 7))
    as (out' & b' & h' & Hs & Hd & _ & Hv & _).
  - exact demo_ok.
  - apply elem_of_cons. right. apply list_elem_of_singleton. reflexivity.
  - vm_compute. reflexivity.
  - vm_compute. reflexivity.
  - vm_compute. reflexivity.
  - exists out', b', h'. split; [exact Hs|]. split; [exact Hd|exact Hv].
Defined.

(** ** Where the code falls short *)

(** A buffer of [z] zeroes followed by [tr], appended to a buffer of [n] zeroes: the
    content it should have, and the content it has. *)
Definition append_demo (n z : Z) (tr : list Z) : res (list Z * list Z) :=
  '(b, h) ← Initialize demo_fill n empty_heap;
  '(o, h) ← Initialize demo_fill z h;
  '(o, h) ← AddAtEnd demo_fill (Z.of_nat (length tr)) o h;
  i ← Prev (Z.of_nat (length tr)) (End_ o);
  '(_, h) ← Write_bytes tr i h;
  let expected := view h b ++ view h o in
  '(b, h) ← AddAtEnd_buffer demo_fill o b h;
  Ok (expected, view h b).

(** Defect: the optimisation of [AddAtEnd(const Buffer&)] for adjacent zero areas writes
    the bytes behind them at a virtual offset.  A short zero area gets indeterminate bytes
    instead of the trailer, a long one makes the write leave the block. *)
Theorem AddAtEnd_buffer_loses_trailer :
  append_demo 4 2 [1; 2; 3] = Ok ([0; 0; 0; 0; 0; 0; 1; 2; 3], [0; 0; 0; 0; 0; 0; 170; 170; 170]) ∧
  append_demo 100 50 [1; 2; 3] = Err Undefined.
Proof. split; vm_compute; reflexivity. Qed.

(** Defect: a buffer of real bytes cannot be appended to itself through a copy: the
    bytes are added in place, and [Iterator::Write] asserts that source and destination
    are different blocks. *)
Theorem AddAtEnd_copy_asserts :
  ('(b, h) ← Initialize demo_fill 0 empty_heap;
   '(b, h) ← AddAtEnd demo_fill 4 b h;
   '(c, h) ← copy b h;
   AddAtEnd_buffer demo_fill c b h) = Err NsAssert.
Proof. vm_compute. reflexivity. Qed.

(** Defect: the bounds checks of the iterator let writes past the end of the buffer
    through: [WriteU8] at [End()], and [Write(buffer, size)] of more bytes than are left,
    whose check is given the size where it needs the end. *)
Theorem Iterator_writes_past_end :
  ∃ b h, ('(b, h) ← Initialize demo_fill 0 empty_heap; AddAtEnd demo_fill 4 b h) = Ok (b, h) ∧
    is_ok (WriteU8 1 (End_ b) h) = true ∧
    (i ← Prev 1 (End_ b); '(i, _) ← Write_bytes [1; 2; 3; 4] i h;
     Ok (i_current i - i_dataEnd i)) = Ok 3.
Proof. eexists _, _. split; [vm_compute; reflexivity|]. split; vm_compute; reflexivity. Qed.
