(* ===== verification/ByteIter.v ===== *)
(** * The interface of [Buffer::Iterator]

    What the packet headers use of an iterator, as a type class: memory [M], iterators
    [I].  [Buffer.v] implements it with shared blocks and a zero area; a byte array is
    another implementation.  The accessors the program builds from [WriteU8] and [ReadU8]
    (src/src/network/model/buffer.cc) are defined once, for every implementation.

    [ByteIterLaws] is the promise: while [m] holds the bytes [l], the iterator at position
    [p] reads [l] at [p], and writes [l] at [p] as long as the position is below [w]. *)

From S2P Require Import Prelude Buffer BufferCorrect.
Local Open Scope Z_scope.

Class ByteIter (M I : Type) := {
  iWriteU8 : Z → I → M → res (I * M);
  iWriteU8_len : Z → Z → I → M → res (I * M);
  iWriteHtonU16 : Z → I → M → res (I * M);
  iWriteHtonU32 : Z → I → M → res (I * M);
  iWrite : list Z → I → M → res (I * M);
  iReadU8 : I → M → res (Z * I);
  iReadNtohU16 : I → M → res (Z * I);
  iReadNtohU32 : I → M → res (Z * I);
  iNext : Z → I → res I;
  iPrev : Z → I → res I;
  iGetSize : I → Z;
  iGetRemainingSize : I → Z;
  iGetDistanceFrom : I → I → res Z
}.

(** The bytes of a 16-bit and of a 32-bit number, most significant first. *)
Definition be16 (v : Z) : list Z := [u8 (Z.shiftr v 8); u8 v].
Definition be32 (v : Z) : list Z := [u8 (Z.shiftr v 24); u8 (Z.shiftr v 16); u8 (Z.shiftr v 8); u8 v].

Section derived.
Context {M I : Type} `{ByteIter M I}.

(** [WriteU8] called for each byte in turn. *)
Fixpoint iWriteU8s (l : list Z) (i : I) (m : M) : res (I * M) :=
  match l with
  | [] => Ok (i, m)
  | v :: l => '(i, m) ← iWriteU8 v i m; iWriteU8s l i m
  end.

(** [buffer.cc] Buffer::Iterator::WriteU16 *)
Definition WriteU16 (data : Z) (i : I) (m : M) : res (I * M) :=
  iWriteU8s [Z.land data 0xff; Z.land (Z.shiftr data 8) 0xff] i m.

(** [buffer.cc] Buffer::Iterator::WriteU32 *)
Definition WriteU32 (data : Z) (i : I) (m : M) : res (I * M) :=
  iWriteU8s [Z.land data 0xff; Z.land (Z.shiftr data 8) 0xff; Z.land (Z.shiftr (Z.shiftr data 8) 8) 0xff;
             Z.land (Z.shiftr (Z.shiftr (Z.shiftr data 8) 8) 8) 0xff] i m.

(** [data >>= 8] between the writes, [n] times. *)
Fixpoint shifted (n : nat) (data : Z) : list Z :=
  match n with O => [] | S n => Z.land data 0xff :: shifted n (Z.shiftr data 8) end.

(** [buffer.cc] Buffer::Iterator::WriteU64 *)
Definition WriteU64 (data : Z) (i : I) (m : M) : res (I * M) := iWriteU8s (shifted 8 data) i m.

(** The byte of [data] that starts at bit [k]. *)
Definition byte_at (data k : Z) : Z := Z.land (Z.shiftr data k) 0xff.

(** [buffer.cc] Buffer::Iterator::WriteHtolsbU16 *)
Definition WriteHtolsbU16 (data : Z) (i : I) (m : M) : res (I * M) :=
  iWriteU8s (byte_at data <$> [0; 8]) i m.

(** [buffer.cc] Buffer::Iterator::WriteHtolsbU32 *)
Definition WriteHtolsbU32 (data : Z) (i : I) (m : M) : res (I * M) :=
  iWriteU8s (byte_at data <$> [0; 8; 16; 24]) i m.

(** [buffer.cc] Buffer::Iterator::WriteHtolsbU64 *)
Definition WriteHtolsbU64 (data : Z) (i : I) (m : M) : res (I * M) :=
  iWriteU8s (byte_at data <$> [0; 8; 16; 24; 32; 40; 48; 56]) i m.

(** [buffer.cc] Buffer::Iterator::WriteHtonU64 *)
Definition WriteHtonU64 (data : Z) (i : I) (m : M) : res (I * M) :=
  iWriteU8s (byte_at data <$> [56; 48; 40; 32; 24; 16; 8; 0]) i m.

(** [buffer.cc:1130-1138] Buffer::Iterator::Read *)
Fixpoint iRead (size : nat) (i : I) (m : M) : res (list Z * I) :=
  match size with
  | O => Ok ([], i)
  | S size => '(b, i) ← iReadU8 i m; '(bs, i) ← iRead size i m; Ok (b :: bs, i)
  end.

(** [data = byte_k; data <<= 8; data |= byte_{k-1}; ...]. *)
Definition lsb (w : Z) (bytes : list Z) : Z :=
  fold_right (λ b data, Z.lor (wrap w (Z.shiftl data 8)) b) 0 bytes.

(** [buffer.h:1034-1044] Buffer::Iterator::ReadU16 *)
Definition ReadU16 (i : I) (m : M) : res (Z * I) := '(bs, i) ← iRead 2 i m; Ok (lsb 16 bs, i).

(** [buffer.cc] Buffer::Iterator::ReadU32 *)
Definition ReadU32 (i : I) (m : M) : res (Z * I) := '(bs, i) ← iRead 4 i m; Ok (lsb 32 bs, i).

(** [buffer.cc] Buffer::Iterator::ReadU64 *)
Definition ReadU64 (i : I) (m : M) : res (Z * I) := '(bs, i) ← iRead 8 i m; Ok (lsb 64 bs, i).

(** [buffer.cc] Buffer::Iterator::ReadNtohU64 *)
Definition ReadNtohU64 (i : I) (m : M) : res (Z * I) := '(bs, i) ← iRead 8 i m; Ok (ntoh 64 bs, i).

(** [buffer.cc] Buffer::Iterator::ReadLsbtohU16 *)
Definition ReadLsbtohU16 (i : I) (m : M) : res (Z * I) := '(bs, i) ← iRead 2 i m; Ok (lsb 16 bs, i).

(** [buffer.cc] Buffer::Iterator::ReadLsbtohU32 *)
Definition ReadLsbtohU32 (i : I) (m : M) : res (Z * I) := '(bs, i) ← iRead 4 i m; Ok (lsb 32 bs, i).

(** [buffer.cc] Buffer::Iterator::ReadLsbtohU64 *)
Definition ReadLsbtohU64 (i : I) (m : M) : res (Z * I) := '(bs, i) ← iRead 8 i m; Ok (lsb 64 bs, i).

(** [buffer.cc:1153-1156] Buffer::Iterator::CalculateIpChecksum *)
Fixpoint sum_words (n : nat) (sum : Z) (i : I) (m : M) : res (Z * I) :=
  match n with
  | O => Ok (sum, i)
  | S n => '(v, i) ← ReadU16 i m; sum_words n (u32 (sum + v)) i m
  end.

(** [buffer.cc:1163-1166] Buffer::Iterator::CalculateIpChecksum *)
Fixpoint fold_carry (fuel : nat) (sum : Z) : res Z :=
  match fuel with
  | O => Err OutOfFuel
  | S fuel =>
      if Z.shiftr sum 16 =? 0 then Ok sum
      else fold_carry fuel (u32 (Z.land sum 0xffff + Z.shiftr sum 16))
  end.

(** Three rounds reduce 32 bits to 16. *)
Definition carry_fuel : nat := 4.

(** [buffer.cc:1147-1169] Buffer::Iterator::CalculateIpChecksum *)
Definition CalculateIpChecksum_init (size initialChecksum : Z) (i : I) (m : M) : res (Z * I) :=
  '(sum, i) ← sum_words (Z.to_nat (size / 2)) initialChecksum i m;
  '(sum, i) ← (if Z.land size 1 =? 0 then Ok (sum, i)
               else '(v, i) ← iReadU8 i m; Ok (u32 (sum + v), i));
  sum ← fold_carry carry_fuel sum;
  Ok (u16 (Z.lnot sum), i).

(** [buffer.cc:1140-1145] Buffer::Iterator::CalculateIpChecksum *)
Definition CalculateIpChecksum (size : Z) (i : I) (m : M) : res (Z * I) :=
  CalculateIpChecksum_init size 0 i m.
End derived.

(** ** Running to a result *)

Definition wp {A} (c : res A) (Q : A → Prop) : Prop := match c with Ok a => Q a | Err _ => False end.

Lemma wp_bind {A B} (c : res A) (k : A → res B) Q : wp c (λ a, wp (k a) Q) → wp (c ≫= k) Q.
Proof. by destruct c. Qed.

Lemma wp_mono {A} (c : res A) (P Q : A → Prop) : wp c P → (∀ a, P a → Q a) → wp c Q.
Proof. destruct c; cbn; auto. Qed.

Lemma wp_Ok {A} (c : res A) (Q : A → Prop) : wp c Q ↔ ∃ a, c = Ok a ∧ Q a.
Proof. destruct c; cbn; naive_solver. Qed.

(** ** The laws *)

Class ByteIterLaws (M I : Type) `{ByteIter M I} := {
  (** [m] holds the bytes [l], iterators are [mk p], writable below [w]. *)
  holds : M → list Z → Z → (Z → I) → Prop;
  holds_len m l w mk : holds m l w mk → 0 ≤ w ≤ Z.of_nat (length l) ∧ Z.of_nat (length l) < 2 ^ 31;
  law_WriteU8 m l w mk p v : holds m l w mk → 0 ≤ p → p + 1 ≤ w →
    wp (iWriteU8 v (mk p) m) (λ '(i, m'), i = mk (p + 1) ∧ holds m' (splice p [u8 v] l) w mk);
  law_WriteU8_len m l w mk p v n : holds m l w mk → 0 ≤ p → 0 ≤ n → p + n ≤ w →
    wp (iWriteU8_len v n (mk p) m)
      (λ '(i, m'), i = mk (p + n) ∧ holds m' (splice p (replicate (Z.to_nat n) (u8 v)) l) w mk);
  law_WriteHtonU16 m l w mk p v : holds m l w mk → 0 ≤ p → p + 2 ≤ w →
    wp (iWriteHtonU16 v (mk p) m) (λ '(i, m'), i = mk (p + 2) ∧ holds m' (splice p (be16 v) l) w mk);
  law_WriteHtonU32 m l w mk p v : holds m l w mk → 0 ≤ p → p + 4 ≤ w →
    wp (iWriteHtonU32 v (mk p) m) (λ '(i, m'), i = mk (p + 4) ∧ holds m' (splice p (be32 v) l) w mk);
  law_Write m l w mk p bs : holds m l w mk → 0 ≤ p → p + Z.of_nat (length bs) ≤ w →
    wp (iWrite bs (mk p) m)
      (λ '(i, m'), i = mk (p + Z.of_nat (length bs)) ∧ holds m' (splice p bs l) w mk);
  law_ReadU8 m l w mk p : holds m l w mk → 0 ≤ p → p < Z.of_nat (length l) →
    wp (iReadU8 (mk p) m) (λ '(v, i), l !! Z.to_nat p = Some v ∧ i = mk (p + 1));
  law_ReadNtohU16 m l w mk p : holds m l w mk → 0 ≤ p → p + 2 ≤ Z.of_nat (length l) →
    iReadNtohU16 (mk p) m = Ok (ntoh 16 (slice p 2 l), mk (p + 2));
  law_ReadNtohU32 m l w mk p : holds m l w mk → 0 ≤ p → p + 4 ≤ Z.of_nat (length l) →
    iReadNtohU32 (mk p) m = Ok (ntoh 32 (slice p 4 l), mk (p + 4));
  law_Next m l w mk p d : holds m l w mk → 0 ≤ p → 0 ≤ d → p + d ≤ Z.of_nat (length l) →
    iNext d (mk p) = Ok (mk (p + d));
  law_Prev m l w mk p d : holds m l w mk → p ≤ Z.of_nat (length l) → 0 ≤ d ≤ p →
    iPrev d (mk p) = Ok (mk (p - d));
  law_GetSize m l w mk p : holds m l w mk → iGetSize (mk p) = Z.of_nat (length l);
  law_GetRemainingSize m l w mk p : holds m l w mk → 0 ≤ p ≤ Z.of_nat (length l) →
    iGetRemainingSize (mk p) = Z.of_nat (length l) - p;
  law_GetDistanceFrom m l w mk p q : holds m l w mk →
    0 ≤ p ≤ Z.of_nat (length l) → 0 ≤ q ≤ Z.of_nat (length l) →
    iGetDistanceFrom (mk p) (mk q) = Ok (Z.abs (p - q))
}.

(** ** What the laws give for the derived accessors *)

(** [l] with its first bytes replaced by [a]: the state of a sequential writer. *)
Definition over (a l : list Z) : list Z := a ++ drop (length a) l.

Lemma over_nil l : over [] l = l.
Proof. done. Qed.

Lemma splice_over p a bs l :
  p = Z.of_nat (length a) → (length a + length bs ≤ length l)%nat →
  splice p bs (over a l) = over (a ++ bs) l.
Proof.
  intros -> Hl. unfold splice, over. rewrite Nat2Z.id.
  rewrite take_app_length. rewrite <- app_assoc. f_equal. f_equal.
  rewrite length_app, drop_app, drop_ge by lia. cbn. rewrite drop_drop. f_equal. lia.
Qed.

Lemma length_over a l : (length a ≤ length l)%nat → length (over a l) = length l.
Proof. intros. unfold over. rewrite length_app, length_drop. lia. Qed.

Lemma over_app a l : over a (a ++ l) = a ++ l.
Proof. unfold over. by rewrite drop_app_length. Qed.

(** A writer that filled the room leaves the payload. *)
Lemma over_room_full a room l : length a = length room → over a (room ++ l) = a ++ l.
Proof. intros Hl. unfold over. by rewrite Hl, drop_app_length. Qed.

Section laws.
Context {M I : Type} `{ByteIterLaws M I}.
Context (m : M) (l : list Z) (w : Z) (mk : Z → I).

(** Reading [n] bytes in sequence. *)
Lemma iRead_ok n p :
  holds m l w mk → 0 ≤ p → p + Z.of_nat n ≤ Z.of_nat (length l) →
  iRead n (mk p) m = Ok (slice p (Z.of_nat n) l, mk (p + Z.of_nat n)).
Proof.
  intros Hm. revert p. induction n as [|n IH]; intros p Hp Hn; cbn [iRead].
  { by rewrite Z.add_0_r. }
  pose proof (law_ReadU8 m l w mk p Hm Hp ltac:(lia)) as Hr.
  destruct (iReadU8 (mk p) m) as [[v i]|]; [|done]. destruct Hr as [Hv ->]. res_simpl.
  rewrite IH by lia. res_simpl. do 2 f_equal; [|f_equal; lia].
  unfold slice. replace (Z.to_nat (Z.of_nat (S n))) with (S n) by lia. rewrite Nat2Z.id.
  rewrite (drop_S l v (Z.to_nat p)) by done. cbn [take]. do 3 f_equal. lia.
Qed.
End laws.

(** ** Sequential writing and reading *)

Section sequential.
Context {M I : Type} `{ByteIterLaws M I}.
Context (m : M) (a l : list Z) (w : Z) (mk : Z → I).

Lemma splice_over_in p (bs : list Z) :
  0 ≤ p → p + Z.of_nat (length bs) ≤ Z.of_nat (length a) →
  splice p bs (over a l) = over (splice p bs a) l.
Proof using.
  intros Hp Hl. unfold over. rewrite (splice_app_l p bs a (drop (length a) l)) by lia.
  by rewrite length_splice by lia.
Qed.

Lemma over_room (bs : list Z) :
  holds m (over a l) w mk → Z.of_nat (length a) + Z.of_nat (length bs) ≤ w → bs ≠ [] →
  (length a + length bs ≤ length l)%nat.
Proof.
  intros Hm Hw Hb. apply holds_len in Hm as [[_ Hl] _]. unfold over in Hl.
  rewrite length_app, length_drop in Hl. destruct bs; [done|]. cbn [length] in *. lia.
Qed.

Context (p : Z) (Hm : holds m (over a l) w mk) (Hp : p = Z.of_nat (length a)).

Lemma wr_WriteU8 {B} v (k : I * M → res B) R :
  p + 1 ≤ w → (∀ m', holds m' (over (a ++ [u8 v]) l) w mk → wp (k (mk (p + 1), m')) R) →
  wp (iWriteU8 v (mk p) m ≫= k) R.
Proof using Hm Hp.
  intros Hw Hk. apply wp_bind. eapply wp_mono; [apply law_WriteU8; [exact Hm|lia|lia]|].
  intros [i m'] [-> Hm']. apply Hk. rewrite (splice_over p) in Hm'; [done|done|].
  apply over_room; [done|cbn; lia|done].
Qed.

Lemma wr_WriteHtonU16 {B} v (k : I * M → res B) R :
  p + 2 ≤ w → (∀ m', holds m' (over (a ++ be16 v) l) w mk → wp (k (mk (p + 2), m')) R) →
  wp (iWriteHtonU16 v (mk p) m ≫= k) R.
Proof using Hm Hp.
  intros Hw Hk. apply wp_bind. eapply wp_mono; [apply law_WriteHtonU16; [exact Hm|lia|lia]|].
  intros [i m'] [-> Hm']. apply Hk. rewrite (splice_over p) in Hm'; [done|done|].
  apply over_room; [done|cbn; lia|done].
Qed.

Lemma wr_WriteHtonU32 {B} v (k : I * M → res B) R :
  p + 4 ≤ w → (∀ m', holds m' (over (a ++ be32 v) l) w mk → wp (k (mk (p + 4), m')) R) →
  wp (iWriteHtonU32 v (mk p) m ≫= k) R.
Proof using Hm Hp.
  intros Hw Hk. apply wp_bind. eapply wp_mono; [apply law_WriteHtonU32; [exact Hm|lia|lia]|].
  intros [i m'] [-> Hm']. apply Hk. rewrite (splice_over p) in Hm'; [done|done|].
  apply over_room; [done|cbn; lia|done].
Qed.

Lemma wr_Write {B} bs (k : I * M → res B) R :
  bs ≠ [] → p + Z.of_nat (length bs) ≤ w →
  (∀ m', holds m' (over (a ++ bs) l) w mk → wp (k (mk (p + Z.of_nat (length bs)), m')) R) →
  wp (iWrite bs (mk p) m ≫= k) R.
Proof using Hm Hp.
  intros Hb Hw Hk. apply wp_bind. eapply wp_mono; [apply law_Write; [exact Hm|lia|lia]|].
  intros [i m'] [-> Hm']. apply Hk. rewrite (splice_over p) in Hm'; [done|done|].
  apply over_room; [done|lia|done].
Qed.
End sequential.

(** The same for the accessors made of [WriteU8]. *)
Lemma wr_WriteU8s {M I} `{ByteIterLaws M I} {B} bs m a l w mk p (k : I * M → res B) R :
  holds m (over a l) w mk → p = Z.of_nat (length a) → p + Z.of_nat (length bs) ≤ w →
  (∀ m', holds m' (over (a ++ (wrap 8 <$> bs)) l) w mk → wp (k (mk (p + Z.of_nat (length bs)), m')) R) →
  wp (iWriteU8s bs (mk p) m ≫= k) R.
Proof.
  revert m a p. induction bs as [|v bs IH]; intros m a p Hm Hp Hw Hk; cbn [iWriteU8s].
  { cbn. specialize (Hk m). rewrite app_nil_r, Z.add_0_r in Hk. auto. }
  cbn [length] in Hw. assert (wp (iWriteU8 v (mk p) m ≫= λ '(i, m0), iWriteU8s bs i m0 ≫= k) R) as Hg.
  { eapply wr_WriteU8; [exact Hm|done|lia|]. intros m' Hm'. eapply IH; [exact Hm'| |lia|].
    - rewrite length_app. cbn. lia.
    - intros m2 Hm2. rewrite <- app_assoc in Hm2. cbn [length] in Hk.
      replace (p + 1 + Z.of_nat (length bs)) with (p + Z.of_nat (S (length bs))) by lia. by apply Hk. }
  destruct (iWriteU8 v (mk p) m) as [[i m']|]; done.
Qed.

(** The bytes of a 16-bit and a 32-bit number, least significant first. *)
Definition le16 (v : Z) : list Z := [u8 v; u8 (Z.shiftr v 8)].
Definition le32 (v : Z) : list Z := [u8 v; u8 (Z.shiftr v 8); u8 (Z.shiftr v 16); u8 (Z.shiftr v 24)].

Lemma land_255 z : Z.land z 255 = u8 z.
Proof. unfold wrap. change 255 with (Z.ones 8). by rewrite Z.land_ones. Qed.

Lemma wr_WriteU16 {M I} `{ByteIterLaws M I} {B} v m a l w mk p (k : I * M → res B) R :
  holds m (over a l) w mk → p = Z.of_nat (length a) → p + 2 ≤ w →
  (∀ m', holds m' (over (a ++ le16 v) l) w mk → wp (k (mk (p + 2), m')) R) →
  wp (WriteU16 v (mk p) m ≫= k) R.
Proof.
  intros Hm Hp Hw Hk. unfold WriteU16. eapply wr_WriteU8s; [exact Hm|done|cbn; lia|].
  intros m' Hm'. apply Hk. cbn -[wrap] in Hm'. by rewrite !land_255, !wrap_idemp in Hm' by lia.
Qed.

Section reading.
Context {M I : Type} `{ByteIterLaws M I}.
Context (m : M) (a l : list Z) (w : Z) (mk : Z → I) (Hm : holds m (a ++ l) w mk).

Lemma slice_app_in {A} p n (a' l' : list A) :
  0 ≤ p → 0 ≤ n → p + n ≤ Z.of_nat (length a') → slice p n (a' ++ l') = slice p n a'.
Proof using.
  intros. unfold slice. rewrite drop_app_le by lia. apply take_app_le. rewrite length_drop. lia.
Qed.

Lemma rd_ReadU8 {B} p v (k : Z * I → res B) R :
  0 ≤ p → a !! Z.to_nat p = Some v → wp (k (v, mk (p + 1))) R → wp (iReadU8 (mk p) m ≫= k) R.
Proof using Hm.
  intros Hp Hv Hk. pose proof (lookup_lt_Some _ _ _ Hv). apply wp_bind.
  eapply wp_mono; [eapply law_ReadU8; [exact Hm|done|rewrite length_app; lia]|].
  intros [v' i] [Hv' ->]. rewrite lookup_app_l in Hv' by lia. congruence.
Qed.

Lemma rd_ReadNtohU16 {B} p bs (k : Z * I → res B) R :
  0 ≤ p → slice p 2 a = bs → length bs = 2%nat → wp (k (ntoh 16 bs, mk (p + 2))) R →
  wp (iReadNtohU16 (mk p) m ≫= k) R.
Proof using Hm.
  intros Hp Hs Hl Hk. assert (p + 2 ≤ Z.of_nat (length a)).
  { rewrite <- Hs in Hl. unfold slice in Hl. rewrite length_take, length_drop in Hl. lia. }
  rewrite (law_ReadNtohU16 _ (a ++ l) w) by (done || rewrite ?length_app; lia).
  by rewrite slice_app_in, Hs by lia.
Qed.

Lemma rd_ReadNtohU32 {B} p bs (k : Z * I → res B) R :
  0 ≤ p → slice p 4 a = bs → length bs = 4%nat → wp (k (ntoh 32 bs, mk (p + 4))) R →
  wp (iReadNtohU32 (mk p) m ≫= k) R.
Proof using Hm.
  intros Hp Hs Hl Hk. assert (p + 4 ≤ Z.of_nat (length a)).
  { rewrite <- Hs in Hl. unfold slice in Hl. rewrite length_take, length_drop in Hl. lia. }
  rewrite (law_ReadNtohU32 _ (a ++ l) w) by (done || rewrite ?length_app; lia).
  by rewrite slice_app_in, Hs by lia.
Qed.

Lemma rd_iRead {B} n p bs (k : list Z * I → res B) R :
  0 ≤ p → slice p (Z.of_nat n) a = bs → length bs = n → wp (k (bs, mk (p + Z.of_nat n))) R →
  wp (iRead n (mk p) m ≫= k) R.
Proof using Hm.
  intros Hp Hs Hl Hk. destruct (decide (n = 0%nat)) as [->|Hn].
  { cbn. destruct bs; [|done]. by rewrite Z.add_0_r in Hk. }
  assert (p + Z.of_nat n ≤ Z.of_nat (length a)).
  { rewrite <- Hs in Hl. unfold slice in Hl. rewrite length_take, length_drop in Hl. lia. }
  rewrite (iRead_ok m (a ++ l) w) by (done || rewrite ?length_app; lia).
  by rewrite slice_app_in, Hs by lia.
Qed.

Lemma rd_ReadU16 {B} p bs (k : Z * I → res B) R :
  0 ≤ p → slice p 2 a = bs → length bs = 2%nat → wp (k (lsb 16 bs, mk (p + 2))) R →
  wp (ReadU16 (mk p) m ≫= k) R.
Proof using Hm.
  intros Hp Hs Hl Hk. unfold ReadU16.
  assert (wp (iRead 2 (mk p) m ≫= λ '(bs, i), k (lsb 16 bs, i)) R) as Hg by (by eapply rd_iRead).
  destruct (iRead 2 (mk p) m) as [[??]|]; done.
Qed.
End reading.

(** ** Values of byte sequences *)

Lemma lor_shift8 w a b : 8 ≤ w → 0 ≤ a → a * 256 + 255 < 2 ^ w → fits 8 b →
  Z.lor (wrap w (Z.shiftl a 8)) b = a * 256 + b.
Proof.
  intros Hw Ha Hb Hf. rewrite wrap_id.
  - rewrite lor_shiftl_add by (done || lia). done.
  - rewrite Z.shiftl_mul_pow2 by lia. unfold fits in *. lia.
Qed.

(** Arithmetic of bytes and words. *)
Ltac byte_lia :=
  unfold wrap, fits in *;
  change (2 ^ 8) with 256 in *; change (2 ^ 16) with 65536 in *; change (2 ^ 24) with 16777216 in *;
  change (2 ^ 32) with 4294967296 in *; Z.to_euclidean_division_equations; lia.

Lemma u8_fits v : fits 8 (u8 v).
Proof. apply wrap_fits. lia. Qed.

Lemma ntoh16_be16 v : fits 16 v → ntoh 16 (be16 v) = v.
Proof.
  intros Hv. unfold ntoh, be16. cbn [fold_left]. rewrite shiftr_div by lia.
  rewrite (lor_shift8 16 0) by (apply u8_fits || lia).
  rewrite lor_shift8 by (apply u8_fits || byte_lia).
  byte_lia.
Qed.

Lemma ntoh32_bytes a b c d :
  fits 8 a → fits 8 b → fits 8 c → fits 8 d →
  ntoh 32 [a; b; c; d] = ((a * 256 + b) * 256 + c) * 256 + d.
Proof.
  intros Ha Hb Hc Hd. unfold ntoh. cbn [fold_left]. unfold fits in *.
  rewrite (lor_shift8 32 0 a) by (unfold fits; lia).
  rewrite (lor_shift8 32 (0 * 256 + a) b) by (unfold fits; lia).
  rewrite (lor_shift8 32 _ c) by (unfold fits; lia).
  rewrite (lor_shift8 32 _ d) by (unfold fits; lia). lia.
Qed.

Lemma ntoh32_be32 v : fits 32 v → ntoh 32 (be32 v) = v.
Proof.
  intros Hv. unfold be32. rewrite ntoh32_bytes by apply u8_fits. rewrite !shiftr_div by lia. byte_lia.
Qed.

Lemma lsb16_pair a b : fits 8 a → fits 8 b → lsb 16 [a; b] = a + 256 * b.
Proof.
  intros Ha Hb. unfold lsb. cbn [fold_right].
  rewrite (lor_shift8 16 0) by (done || lia). rewrite lor_shift8 by (unfold fits in *; done || lia). lia.
Qed.

Lemma lsb16_le16 v : fits 16 v → lsb 16 (le16 v) = v.
Proof.
  intros Hv. unfold le16. rewrite lsb16_pair by apply u8_fits. rewrite shiftr_div by lia.
  byte_lia.
Qed.

(** ** The Internet checksum *)

(** The sum of the 16-bit words, the first byte of each the less significant. *)
Fixpoint wsum (l : list Z) : Z :=
  match l with
  | a :: b :: l => a + 256 * b + wsum l
  | [a] => a
  | [] => 0
  end.

(** One's complement sums as numbers of 16 bits. *)
Definition fold16 (s : Z) : Z := if s =? 0 then 0 else (s - 1) mod 65535 + 1.

Lemma fold16_range s : 0 ≤ s → 0 ≤ fold16 s ≤ 65535.
Proof. intros. unfold fold16. case_match; div_lia. Qed.

Lemma fold16_small s : 0 ≤ s < 65536 → fold16 s = s.
Proof.
  intros. unfold fold16. destruct (Z.eqb_spec s 0); [lia|]. rewrite Z.mod_small; lia.
Qed.

Lemma fold16_carry s : 0 ≤ s → fold16 (s mod 65536 + s / 65536) = fold16 s.
Proof.
  intros Hs. pose proof (Z.div_mod s 65536 ltac:(lia)) as E.
  pose proof (Z.mod_pos_bound s 65536 ltac:(lia)) as Hb.
  assert (0 ≤ s / 65536) by (apply Z.div_pos; lia).
  unfold fold16. destruct (Z.eqb_spec s 0) as [->|Hs0]; [done|].
  rewrite (proj2 (Z.eqb_neq _ _)) by lia. f_equal.
  rewrite E at 3. replace (65536 * (s / 65536) + s mod 65536 - 1)
    with (s mod 65536 + s / 65536 - 1 + (s / 65536) * 65535) by lia.
  by rewrite Z.mod_add by lia.
Qed.


Lemma carry_step fuel s :
  0 ≤ s < 2 ^ 32 →
  fold_carry (S fuel) s = if s <? 65536 then Ok s else fold_carry fuel (s mod 65536 + s / 65536).
Proof.
  intros Hs. cbn [fold_carry]. rewrite shiftr_div by lia. change (2 ^ 16) with 65536.
  change 65535 with (Z.ones 16). rewrite Z.land_ones by lia. change (2 ^ 16) with 65536.
  destruct (Z.ltb_spec s 65536).
  - rewrite Z.div_small by lia. done.
  - rewrite (proj2 (Z.eqb_neq _ _)) by div_lia. rewrite wrap_id by (unfold fits; div_lia). done.
Qed.

(** The carry loop ends within its fuel, with the one's complement sum. *)
Lemma fold_carry_ok s : 0 ≤ s < 2 ^ 32 → fold_carry carry_fuel s = Ok (fold16 s).
Proof.
  intros Hs. unfold carry_fuel. rewrite carry_step by lia.
  destruct (Z.ltb_spec s 65536); [by rewrite fold16_small by lia|].
  rewrite <- fold16_carry by lia. set (s1 := s mod 65536 + s / 65536).
  assert (0 ≤ s1 ≤ 131070) by (unfold s1; div_lia). rewrite carry_step by lia.
  destruct (Z.ltb_spec s1 65536); [by rewrite fold16_small by lia|].
  rewrite <- (fold16_carry s1) by lia. set (s2 := s1 mod 65536 + s1 / 65536).
  assert (0 ≤ s2 < 65536) by (unfold s2; div_lia). rewrite carry_step by lia.
  rewrite (proj2 (Z.ltb_lt _ _)) by lia. by rewrite fold16_small by lia.
Qed.

(** Complementing the sum of the rest makes the total all ones. *)
Definition ones_complement (s : Z) : Z := 65535 - fold16 s.

Lemma ones_complement_fits s : 0 ≤ s → fits 16 (ones_complement s).
Proof. intros. pose proof (fold16_range s). unfold ones_complement, fits. lia. Qed.

Lemma ones_complement_verify s : 0 ≤ s → ones_complement (s + ones_complement s) = 0.
Proof.
  intros Hs. unfold ones_complement. pose proof (fold16_range s Hs) as Hr.
  assert (fold16 (s + (65535 - fold16 s)) = 65535) as ->; [|lia].
  clear Hr. unfold fold16. destruct (Z.eqb_spec s 0) as [->|Hs0]; [done|].
  pose proof (Z.mod_pos_bound (s - 1) 65535 ltac:(lia)).
  rewrite (proj2 (Z.eqb_neq _ _)) by lia.
  replace (s + (65535 - ((s - 1) mod 65535 + 1)) - 1) with (65534 + (s - 1) / 65535 * 65535)
    by (pose proof (Z.div_mod (s - 1) 65535 ltac:(lia)); lia).
  rewrite Z.mod_add by lia. done.
Qed.

(** A sum that does not change shows an unchanged word: the complement tells. *)
Lemma wsum_nonneg l : Forall (fits 8) l → 0 ≤ wsum l ≤ 65535 * ((Z.of_nat (length l) + 1) / 2).
Proof.
  revert l. fix IH 1. intros [|a [|b l]] Hf; cbn [wsum length].
  - done.
  - apply Forall_cons in Hf as [Ha _]. unfold fits in Ha. change ((Z.of_nat 1 + 1) / 2) with 1. lia.
  - apply Forall_cons in Hf as [Ha Hf]. apply Forall_cons in Hf as [Hb Hf].
    specialize (IH l Hf). unfold fits in Ha, Hb. div_lia.
Qed.

Lemma lnot_u16 x : 0 ≤ x ≤ 65535 → u16 (Z.lnot x) = 65535 - x.
Proof. intros. unfold Z.lnot, wrap. change (2 ^ 16) with 65536. rewrite <- (Z.mod_add _ 1) by lia. rewrite Z.mod_small; lia. Qed.

Lemma wsum_app l1 l2 : Nat.Even (length l1) → wsum (l1 ++ l2) = wsum l1 + wsum l2.
Proof.
  revert l1. fix IH 1. intros [|a [|b l1]] He; [done| |].
  - apply Nat.even_spec in He. done.
  - cbn [wsum app]. rewrite IH; [lia|]. cbn in He. apply Nat.even_spec in He. by apply Nat.even_spec.
Qed.

Lemma slice_snoc {A} (l : list A) p n x :
  0 ≤ p → 0 ≤ n → l !! Z.to_nat (p + n) = Some x → slice p (n + 1) l = slice p n l ++ [x].
Proof.
  intros Hp Hn Hx. unfold slice. replace (Z.to_nat (n + 1)) with (S (Z.to_nat n)) by lia.
  rewrite (take_S_r _ _ x); [done|]. rewrite lookup_drop. rewrite <- Hx. f_equal. lia.
Qed.

Lemma slice_prefix {A} n (a l : list A) : n = Z.of_nat (length a) → slice 0 n (a ++ l) = a.
Proof. intros ->. unfold slice. by rewrite drop_0, Nat2Z.id, take_app_length. Qed.

Section checksum.
Context {M I : Type} `{ByteIterLaws M I}.
Context (m : M) (l : list Z) (w : Z) (mk : Z → I) (Hm : holds m l w mk) (Hl : Forall (fits 8) l).

Lemma slice_pair p : 0 ≤ p → p + 2 ≤ Z.of_nat (length l) →
  ∃ a b, slice p 2 l = [a; b] ∧ fits 8 a ∧ fits 8 b.
Proof using Hl.
  intros Hp Hle. assert (length (slice p 2 l) = 2%nat) as Hlen by (rewrite length_slice; lia).
  assert (Forall (fits 8) (slice p 2 l)) as Hf by (by apply Forall_take, Forall_drop).
  destruct (slice p 2 l) as [|a [|b [|? ?]]]; try done.
  apply Forall_cons in Hf as [? Hf]. apply Forall_cons in Hf as [? _]. by exists a, b.
Qed.

Lemma sum_words_ok n p sum :
  0 ≤ p → p + 2 * Z.of_nat n ≤ Z.of_nat (length l) → 0 ≤ sum → sum + 65536 * Z.of_nat n < 2 ^ 32 →
  sum_words n sum (mk p) m = Ok (sum + wsum (slice p (2 * Z.of_nat n) l), mk (p + 2 * Z.of_nat n)).
Proof using Hl Hm.
  revert p sum. induction n as [|n IH]; intros p sum Hp Hn Hs Hb; cbn [sum_words].
  { cbn. by rewrite !Z.add_0_r. }
  unfold ReadU16. rewrite (iRead_ok m l w) by (done || lia). res_simpl. change (Z.of_nat 2) with 2.
  destruct (slice_pair p) as (a & b & Hab & Ha & Hb'); [lia|lia|].
  rewrite Hab, lsb16_pair by done. unfold fits in Ha, Hb'. rewrite wrap_id by (unfold fits; lia).
  rewrite IH by lia. replace (2 * Z.of_nat (S n)) with (2 + 2 * Z.of_nat n) by lia.
  rewrite slice_app by lia. rewrite Hab. cbn [wsum app]. do 2 f_equal; [lia|f_equal; lia].
Qed.

(** The checksum of [size] bytes from [p] on. *)
Lemma CalculateIpChecksum_ok p size init :
  0 ≤ p → 0 ≤ size < 2 ^ 16 → p + size ≤ Z.of_nat (length l) → 0 ≤ init < 2 ^ 16 →
  CalculateIpChecksum_init size init (mk p) m =
    Ok (ones_complement (init + wsum (slice p size l)), mk (p + size)).
Proof using Hl Hm.
  intros Hp Hs Hps Hi. unfold CalculateIpChecksum_init.
  assert (size = 2 * (size / 2) + size mod 2) as E by (apply Z.div_mod; lia).
  rewrite sum_words_ok by (rewrite ?Z2Nat.id by div_lia; div_lia).
  rewrite Z2Nat.id by div_lia. res_simpl. change 1 with (Z.ones 1) at 1. rewrite Z.land_ones by lia.
  change (2 ^ 1) with 2. set (k := size / 2) in *.
  assert (∀ n, 0 ≤ n → p + n ≤ Z.of_nat (length l) → 0 ≤ wsum (slice p n l) ≤ 65535 * ((n + 1) / 2)) as Hw.
  { intros n Hn Hpn. pose proof (wsum_nonneg (slice p n l)) as Hw'. rewrite length_slice in Hw' by lia.
    rewrite Z2Nat.id in Hw' by lia. apply Hw'. by apply Forall_take, Forall_drop. }
  assert (0 ≤ init + wsum (slice p size l) < 2 ^ 32) as Hbound by (specialize (Hw size); div_lia).
  assert (fold_carry carry_fuel (init + wsum (slice p size l)) ≫= (λ sum, Ok (u16 (Z.lnot sum), mk (p + size)))
    = Ok (ones_complement (init + wsum (slice p size l)), mk (p + size))) as Hfin.
  { rewrite fold_carry_ok by done. res_simpl. by rewrite lnot_u16 by (apply fold16_range; lia). }
  assert (0 ≤ k) by (unfold k; div_lia).
  destruct (Z.eqb_spec (size mod 2) 0) as [Hev|Hev].
  - assert (2 * k = size) as -> by lia. exact Hfin.
  - assert (size = 2 * k + 1) as Hk by div_lia.
    pose proof (law_ReadU8 m l w mk (p + 2 * k) Hm ltac:(lia) ltac:(lia)) as Hr.
    destruct (iReadU8 (mk (p + 2 * k)) m) as [[x i]|]; [|done]. destruct Hr as [Hx ->]. res_simpl.
    rewrite Hk in Hfin |- *. rewrite (slice_snoc l p (2 * k) x) in Hfin |- * by (done || lia).
    rewrite wsum_app in Hfin |- * by (apply Nat.even_spec; rewrite length_slice by lia;
      replace (Z.to_nat (2 * k)) with (2 * Z.to_nat k)%nat by lia; apply Nat.even_mul).
    cbn [wsum] in Hfin |- *. rewrite Hk, (slice_snoc l p (2 * k) x), wsum_app in Hbound; try done; try lia.
    2: { apply Nat.even_spec; rewrite length_slice by lia.
      replace (Z.to_nat (2 * k)) with (2 * Z.to_nat k)%nat by lia; apply Nat.even_mul. }
    cbn [wsum] in Hbound. replace (p + 2 * k + 1) with (p + (2 * k + 1)) by lia.
    rewrite wrap_id by (unfold fits; lia). rewrite <- Z.add_assoc. exact Hfin.
Qed.
End checksum.

(** One write of a sequence: [Hh] is what the memory holds, before and after. *)
Ltac wr_side := first [lia | rewrite ?length_app; cbn; lia].
Ltac wr_step Hh :=
  lazymatch type of Hh with
  | @holds _ _ _ ?L _ (over ?a ?l) ?w ?mk =>
      lazymatch goal with
      | |- wp (iWriteU8 _ _ _ ≫= _) _ => eapply (wr_WriteU8 (H0 := L) _ a l w mk _ Hh)
      | |- wp (iWriteHtonU16 _ _ _ ≫= _) _ => eapply (wr_WriteHtonU16 (H0 := L) _ a l w mk _ Hh)
      | |- wp (iWriteHtonU32 _ _ _ ≫= _) _ => eapply (wr_WriteHtonU32 (H0 := L) _ a l w mk _ Hh)
      | |- wp (WriteU16 _ _ _ ≫= _) _ => eapply (wr_WriteU16 (H0 := L) _ _ a l w mk _ _ _ Hh)
      end; [wr_side|wr_side|clear Hh; intros ? Hh]
  end.
