(* ===== verification/BufferIter.v ===== *)
(** * Implementations of the iterator interface

    A byte array with positions, and [Buffer::Iterator] over the shared blocks of
    [Buffer.v]: the latter keeps the contents of every other buffer. *)

From S2P Require Import Prelude Buffer BufferCorrect BufferTheorems ByteIter.
Local Open Scope Z_scope.

(** ** A byte array *)

Definition flat_write (bs : list Z) (i : Z) (m : list Z) : res (Z * list Z) :=
  if (0 <=? i) && (i + Z.of_nat (length bs) <=? Z.of_nat (length m))
  then Ok (i + Z.of_nat (length bs), splice i bs m) else Err Undefined.

Definition flat_read (n : Z) (i : Z) (m : list Z) : res (list Z * Z) :=
  if (0 <=? i) && (i + n <=? Z.of_nat (length m)) then Ok (slice i n m, i + n) else Err Undefined.

(** A byte array knows its length: an iterator is the length and a position. *)
Definition flat_iter (len : Z) : ByteIter (list Z) Z := {|
  iWriteU8 v i m := flat_write [u8 v] i m;
  iWriteU8_len v n i m := flat_write (replicate (Z.to_nat n) (u8 v)) i m;
  iWriteHtonU16 v i m := flat_write (be16 v) i m;
  iWriteHtonU32 v i m := flat_write (be32 v) i m;
  iWrite bs i m := flat_write bs i m;
  iReadU8 i m := '(bs, i) ← flat_read 1 i m; v ← deref (head bs); Ok (v, i);
  iReadNtohU16 i m := '(bs, i) ← flat_read 2 i m; Ok (ntoh 16 bs, i);
  iReadNtohU32 i m := '(bs, i) ← flat_read 4 i m; Ok (ntoh 32 bs, i);
  iNext d i := ns_assert (i + d <=? len) ≫= λ _, Ok (i + d);
  iPrev d i := ns_assert (d <=? i) ≫= λ _, Ok (i - d);
  iGetSize _ := len;
  iGetRemainingSize i := len - i;
  iGetDistanceFrom i j := Ok (Z.abs (i - j))
|}.

Definition flat_holds (len : Z) (m l : list Z) (w : Z) (mk : Z → Z) : Prop :=
  m = l ∧ Z.of_nat (length l) = len ∧ len < 2 ^ 31 ∧ 0 ≤ w ≤ len ∧ (∀ p, mk p = p).

Lemma flat_write_ok len m l w mk p bs :
  flat_holds len m l w mk → 0 ≤ p → p + Z.of_nat (length bs) ≤ w →
  wp (flat_write bs (mk p) m)
    (λ '(i, m'), i = mk (p + Z.of_nat (length bs)) ∧ flat_holds len m' (splice p bs l) w mk).
Proof.
  intros (-> & Hl & Hb & Hw & Hmk) Hp Hle. unfold flat_write. rewrite !Hmk.
  rewrite (proj2 (Z.leb_le 0 p)), (proj2 (Z.leb_le _ _)) by lia. cbn [andb wp]. split; [done|].
  unfold flat_holds. rewrite length_splice by lia. auto.
Qed.

Lemma flat_read_ok len m l w mk p n :
  flat_holds len m l w mk → 0 ≤ p → 0 ≤ n → p + n ≤ Z.of_nat (length l) →
  flat_read n (mk p) m = Ok (slice p n l, mk (p + n)).
Proof.
  intros (-> & Hl & Hb & Hw & Hmk) Hp Hn Hle. unfold flat_read. rewrite !Hmk.
  by rewrite (proj2 (Z.leb_le 0 p)), (proj2 (Z.leb_le _ _)) by lia.
Qed.

#[local, refine] Instance flat_laws (len : Z) : ByteIterLaws (H := flat_iter len) (list Z) Z := {
  holds := flat_holds len
}.
Proof.
  - intros m l w mk (-> & Hl & Hb & Hw & Hmk). lia.
  - intros. by apply (flat_write_ok len m l w mk p [u8 v]).
  - intros m l w mk p v n Hm Hp Hn Hw. pose proof (flat_write_ok len m l w mk p (replicate (Z.to_nat n) (u8 v)) Hm Hp) as Hf.
    rewrite length_replicate, Z2Nat.id in Hf by done. auto.
  - intros. by apply (flat_write_ok len m l w mk p (be16 v)).
  - intros. by apply (flat_write_ok len m l w mk p (be32 v)).
  - intros. by apply (flat_write_ok len m l w mk p bs).
  - intros m l w mk p Hm Hp Hlt. cbn. rewrite (flat_read_ok len m l w mk) by (done || lia). res_simpl.
    destruct (lookup_lt_is_Some_2 l (Z.to_nat p)) as [v Hv]; [lia|].
    rewrite (slice_cons l p 1 v) by (done || lia). cbn. done.
  - intros m l w mk p Hm Hp Hlt. cbn. by rewrite (flat_read_ok len m l w mk) by (done || lia).
  - intros m l w mk p Hm Hp Hlt. cbn. by rewrite (flat_read_ok len m l w mk) by (done || lia).
  - intros m l w mk p d (-> & Hl & Hb & Hw & Hmk) Hp Hd Hle. cbn. rewrite !Hmk.
    by rewrite (proj2 (Z.leb_le _ _)) by lia.
  - intros m l w mk p d (-> & Hl & Hb & Hw & Hmk) Hp Hd. cbn. rewrite !Hmk.
    by rewrite (proj2 (Z.leb_le _ _)) by lia.
  - intros m l w mk p (-> & Hl & Hb & Hw & Hmk). done.
  - intros m l w mk p (-> & Hl & Hb & Hw & Hmk) Hp. cbn. rewrite Hmk. lia.
  - intros m l w mk p q (-> & Hl & Hb & Hw & Hmk) Hp Hq. cbn. by rewrite !Hmk.
Defined.

(** ** [Buffer::Iterator] *)

#[export] Instance buffer_iter : ByteIter heap Iterator := {
  iWriteU8 := WriteU8;
  iWriteU8_len := WriteU8_len;
  iWriteHtonU16 := WriteHtonU16;
  iWriteHtonU32 := WriteHtonU32;
  iWrite := Write_bytes;
  iReadU8 := ReadU8;
  iReadNtohU16 := ReadNtohU16;
  iReadNtohU32 := ReadNtohU32;
  iNext := Next;
  iPrev := Prev;
  iGetSize := Iterator_GetSize;
  iGetRemainingSize := GetRemainingSize;
  iGetDistanceFrom := GetDistanceFrom
}.

Section buffer.
(** The buffer, the others, and their contents. *)
Context (b : Buffer) (bs : list Buffer) (v : Buffer → list Z).

(** The buffer holds [l], its first [w] bytes are real and nobody else's, and every other
    buffer has its content. *)
Definition buffer_holds (h : heap) (l : list Z) (w : Z) (mk : Z → Iterator) : Prop :=
  heap_inv None h (b :: bs) ∧ view h b = l ∧ (∀ o, o ∈ bs → view h o = v o) ∧
  0 ≤ w ∧ real_range b (m_start b) w ∧
  (∀ o, o ∈ bs → m_data o = m_data b →
    iend o ≤ phys b (m_start b) ∨ phys b (m_start b) + w ≤ m_start o) ∧
  (∀ p, mk p = Construct b (m_start b + p)).

Lemma buffer_holds_len h l w mk :
  buffer_holds h l w mk → 0 ≤ w ≤ Z.of_nat (length l) ∧ Z.of_nat (length l) < 2 ^ 31.
Proof using.
  intros (Hi & Hl & _ & Hw & Hr & _). pose proof (length_view b bs h Hi) as Hv.
  pose proof (window_of_live _ _ _ Hi). unfold real_range, window_ok in *. subst l. lia.
Qed.

Lemma room_range h l w mk p k :
  buffer_holds h l w mk → 0 ≤ p → 0 ≤ k → p + k ≤ w →
  real_range b (m_start b + p) k ∧ (0 < k → phys b (m_start b + p) = phys b (m_start b) + p).
Proof using.
  intros (Hi & _ & _ & Hw & Hr & _) Hp Hk Hle. pose proof (window_of_live _ _ _ Hi).
  unfold real_range, phys, window_ok in *. split; [lia|]. intros. z_cases; lia.
Qed.

(** An operation that writes [data] at the iterator. *)
Lemma room_write h l w mk p data (op : Iterator → heap → res (Iterator * heap)) :
  buffer_holds h l w mk → 0 ≤ p → p + Z.of_nat (length data) ≤ w →
  (real_range b (m_start b + p) (Z.of_nat (length data)) →
    op (Construct b (m_start b + p)) h =
      (h' ← mem_write (m_data b) (phys b (m_start b + p)) data h;
       Ok (Construct b (m_start b + p + Z.of_nat (length data)), h'))) →
  wp (op (mk p) h)
    (λ '(i, h'), i = mk (p + Z.of_nat (length data)) ∧ buffer_holds h' (splice p data l) w mk).
Proof using.
  intros Hh Hp Hle Hop. destruct (room_range h l w mk p (Z.of_nat (length data))) as [Hr Hph]; try done; [lia|].
  destruct Hh as (Hi & Hl & Ho & Hw & Hrw & Hdis & Hmk). rewrite !Hmk. rewrite Hop by done.
  destruct (write_at b bs h Hi (m_start b + p) data Hr) as (h' & -> & Hi' & Hv & Hoth & _). res_simpl.
  cbn [wp]. split; [by rewrite Z.add_assoc|]. unfold buffer_holds. conj; try done.
  - rewrite Hv, Hl. f_equal. lia.
  - intros o Hin. destruct (decide (data = [])) as [->|Hd].
    + destruct (decide (m_data o = m_data b)) as [Heq|Hne].
      * rewrite Hoth; [by apply Ho|done|]. intros _. cbn [length]. rewrite Z.add_0_r.
        destruct (Z.le_gt_cases (iend o) (phys b (m_start b + p))); [by left|right].
        destruct (Hdis o Hin Heq) as [?|?].
        -- pose proof (window_of_live _ _ _ Hi). unfold phys, real_range, window_ok in *.
           revert H H0. z_cases; intros; lia.
        -- unfold phys, real_range in *. pose proof (window_of_live _ _ _ Hi) as Hwo. unfold window_ok in Hwo.
           cbn [length] in *. revert H H0. z_cases; intros; lia.
      * rewrite Hoth; [by apply Ho|done|done].
    + rewrite Hoth; [by apply Ho|done|]. intros Heq.
      assert (0 < Z.of_nat (length data)) by (destruct data; [done|cbn; lia]).
      rewrite Hph by done. specialize (Hdis o Hin Heq). lia.
Qed.
End buffer.

Section buffer_laws.
Context (b : Buffer) (bs : list Buffer) (v : Buffer → list Z).

Lemma construct_cur p q : 0 ≤ q < 2 ^ 32 → set_current (u32 q) (Construct b p) = Construct b q.
Proof. intros. unfold set_current, Construct. cbn -[wrap]. f_equal. by apply wrap_id. Qed.

Lemma buffer_inv h l w mk :
  buffer_holds b bs v h l w mk → heap_inv None h (b :: bs) ∧ view h b = l ∧ window_ok b ∧
    Z.of_nat (length l) = m_end b - m_start b.
Proof.
  intros (Hi & Hl & _). pose proof (length_view b bs h Hi). pose proof (window_of_live _ _ _ Hi).
  subst l. auto.
Qed.

(** What [WriteU8s] writes. *)
Lemma room_write_u8s h l w mk p data (op : Iterator → heap → res (Iterator * heap)) :
  buffer_holds b bs v h l w mk → 0 ≤ p → p + Z.of_nat (length data) ≤ w →
  (real_range b (m_start b + p) (Z.of_nat (length data)) →
    op (Construct b (m_start b + p)) h = WriteU8s data (Construct b (m_start b + p)) h) →
  wp (op (mk p) h)
    (λ '(i, h'), i = mk (p + Z.of_nat (length data)) ∧
      buffer_holds b bs v h' (splice p (wrap 8 <$> data) l) w mk).
Proof.
  intros Hh Hp Hle Hop. rewrite <- (length_fmap (wrap 8) data).
  apply (room_write b bs v); rewrite ?length_fmap; try done.
  intros Hr. rewrite Hop by done. destruct Hh as (Hi & _).
  by rewrite (WriteU8s_ok b bs) by done.
Qed.

Lemma law_read h l w mk p n :
  buffer_holds b bs v h l w mk → 0 ≤ p → p + n ≤ Z.of_nat (length l) → 0 ≤ n →
  m_start b ≤ m_start b + p ∧ m_start b + p + n ≤ m_end b.
Proof. intros Hh Hp Hn H0. apply buffer_inv in Hh as (_ & _ & Hw & Hl). lia. Qed.

#[export, refine] Instance buffer_laws : ByteIterLaws heap Iterator := {
  holds := buffer_holds b bs v
}.
Proof.
  - apply buffer_holds_len.
  - intros m l w mk p x Hh Hp Hw. apply (room_write b bs v m l w mk p [u8 x]); [done|done|done|].
    intros Hr. destruct Hh as (Hi & _). by rewrite (WriteU8_ok b bs) by done.
  - intros m l w mk p x n Hh Hp Hn Hw.
    pose proof (room_write_u8s m l w mk p (replicate (Z.to_nat n) x) (WriteU8_len x n) Hh Hp) as Hg.
    rewrite length_replicate, Z2Nat.id, fmap_replicate in Hg by done. apply Hg; [done|].
    intros Hr. destruct Hh as (Hi & _). by apply (write_fast_ok b bs).
  - intros m l w mk p x Hh Hp Hw.
    pose proof (room_write_u8s m l w mk p [Z.land (Z.shiftr x 8) 0xff; Z.land (Z.shiftr x 0) 0xff]
      (WriteHtonU16 x) Hh Hp Hw) as Hg.
    cbn [fmap list_fmap length] in Hg. rewrite !land_ff, Z.shiftr_0_r, !wrap_idemp in Hg by lia. apply Hg.
    intros Hr. destruct Hh as (Hi & _). rewrite <- !land_ff.
    pose proof (proj1 (write_fast_ok b bs m (m_start b + p) Hi) x Hr) as E. by rewrite Z.shiftr_0_r in E.
  - intros m l w mk p x Hh Hp Hw.
    pose proof (room_write_u8s m l w mk p [Z.land (Z.shiftr x 24) 0xff; Z.land (Z.shiftr x 16) 0xff;
      Z.land (Z.shiftr x 8) 0xff; Z.land (Z.shiftr x 0) 0xff] (WriteHtonU32 x) Hh Hp Hw) as Hg.
    cbn [fmap list_fmap length] in Hg. rewrite !land_ff, Z.shiftr_0_r, !wrap_idemp in Hg by lia. apply Hg.
    intros Hr. destruct Hh as (Hi & _). rewrite <- !land_ff.
    pose proof (proj1 (proj2 (write_fast_ok b bs m (m_start b + p) Hi)) x Hr) as E. by rewrite Z.shiftr_0_r in E.
  - intros m l w mk p data Hh Hp Hw. apply (room_write b bs v); try done.
    intros Hr. destruct Hh as (Hi & _).
    destruct (Write_bytes_ok b bs m Hi _ data Hr) as (h' & Hwr & Hmw).
    cbn [iWrite buffer_iter]. rewrite Hwr, Hmw. done.
  - intros m l w mk p Hh Hp Hlt. pose proof Hh as (Hi & Hl & _ & _ & _ & _ & Hmk).
    destruct (law_read m l w mk p 1 Hh Hp ltac:(lia) ltac:(lia)) as [? ?].
    destruct (ReadU8_ok b bs m Hi (m_start b + p)) as (x & Hx & Hlk); [lia|].
    rewrite Hmk. cbn [iReadU8 buffer_iter]. rewrite Hx. cbn [wp]. rewrite Hmk. split; [|f_equal; lia].
    rewrite Hl in Hlk. by replace (m_start b + p - m_start b) with p in Hlk by lia.
  - intros m l w mk p Hh Hp Hlt. pose proof Hh as (Hi & Hl & _ & _ & _ & _ & Hmk).
    destruct (law_read m l w mk p 2 Hh Hp Hlt ltac:(lia)) as [? ?].
    destruct (read_ntoh_fast_ok b bs m Hi (m_start b + p)) as [Hr _]; [lia|].
    destruct Hr as [_ Hr]; [lia|]. rewrite !Hmk. cbn [iReadNtohU16 buffer_iter]. rewrite Hr, Hl.
    by replace (m_start b + p - m_start b) with p by lia; rewrite Z.add_assoc.
  - intros m l w mk p Hh Hp Hlt. pose proof Hh as (Hi & Hl & _ & _ & _ & _ & Hmk).
    destruct (law_read m l w mk p 4 Hh Hp Hlt ltac:(lia)) as [? ?].
    destruct (read_ntoh_fast_ok b bs m Hi (m_start b + p)) as [_ Hr]; [lia|].
    destruct Hr as [_ Hr]; [lia|]. rewrite !Hmk. cbn [iReadNtohU32 buffer_iter]. rewrite Hr, Hl.
    by replace (m_start b + p - m_start b) with p by lia; rewrite Z.add_assoc.
  - intros m l w mk p d Hh Hp Hd Hle. pose proof Hh as (_ & _ & _ & _ & _ & _ & Hmk).
    apply buffer_inv in Hh as (_ & _ & Hw & Hl). unfold window_ok in Hw.
    rewrite !Hmk. cbn [iNext buffer_iter]. unfold Next. cbn [i_current i_dataEnd Construct].
    rewrite construct_cur, wrap_id, (proj2 (Z.leb_le _ _)) by zlia. res_simpl. by rewrite Z.add_assoc.
  - intros m l w mk p d Hh Hp Hd. pose proof Hh as (_ & _ & _ & _ & _ & _ & Hmk).
    apply buffer_inv in Hh as (_ & _ & Hw & Hl). unfold window_ok in Hw.
    rewrite !Hmk. cbn [iPrev buffer_iter]. unfold Prev. cbn [i_current Construct].
    rewrite construct_cur, (proj2 (Z.leb_le _ _)) by zlia. res_simpl. do 2 f_equal. lia.
  - intros m l w mk p Hh. pose proof Hh as (_ & _ & _ & _ & _ & _ & Hmk).
    apply buffer_inv in Hh as (_ & _ & Hw & Hl). unfold window_ok in Hw. rewrite Hmk.
    cbn -[wrap]. unfold Iterator_GetSize. cbn [i_dataEnd i_dataStart Construct]. rewrite wrap_id by zlia. lia.
  - intros m l w mk p Hh Hp. pose proof Hh as (_ & _ & _ & _ & _ & _ & Hmk).
    apply buffer_inv in Hh as (_ & _ & Hw & Hl). unfold window_ok in Hw. rewrite Hmk.
    cbn -[wrap]. unfold GetRemainingSize. cbn [i_dataEnd i_current Construct]. rewrite wrap_id by zlia. lia.
  - intros m l w mk p q Hh Hp Hq. pose proof Hh as (_ & _ & _ & _ & _ & _ & Hmk).
    apply buffer_inv in Hh as (_ & _ & Hw & Hl). unfold window_ok in Hw. rewrite !Hmk.
    cbn [iGetDistanceFrom buffer_iter]. unfold GetDistanceFrom. cbn [i_data i_current Construct].
    rewrite Z.eqb_refl. res_simpl. rewrite sint32_small by lia. case_match eqn:Hc;
      [apply Z.ltb_lt in Hc|apply Z.ltb_ge in Hc]; rewrite wrap_id by zlia; f_equal; lia.
Defined.
End buffer_laws.

(** The room [AddAtStart] makes is held for a header of [n] bytes. *)
Lemma AddAtStart_room fill n b bs h :
  heap_inv None h (b :: bs) → 0 ≤ n → m_end b + n < 2 ^ 31 - 100 → Z.of_nat (length (b :: bs)) < 2 ^ 32 →
  ∃ b' h' room, AddAtStart fill n b h = Ok (b', h') ∧ Z.of_nat (length room) = n ∧
    holds (ByteIterLaws := buffer_laws b' bs (view h)) h' (room ++ view h b) n
      (λ p, Construct b' (m_start b' + p)).
Proof.
  intros H Hn Hcap Hlen.
  destruct (AddAtStart_ok fill n b bs h H) as (b' & h' & Hadd & H' & Hsame & Hg & Hend & Hdis & _);
    [lia|done|done|].
  pose proof (grown_at_start_view n h b h' b' bs Hg ltac:(lia) H H') as Hv.
  pose proof (window_of_live _ _ _ H') as Hw. pose proof (window_of_live _ _ _ H) as Hw0.
  destruct Hg as (Hz & Hz2 & Hz3 & _). destruct (live_block b' bs h' H') as (d & _ & _ & Hie & _ & Hl).
  eexists b', h', _. split; [done|]. split; [|split; [exact H'|split; [exact Hv|]]].
  - unfold window_ok, iend in *. rewrite length_slice; lia.
  - assert (real_range b' (m_start b') n) as Hr by (unfold real_range, window_ok in *; lia).
    conj; try done.
    + intros o Ho. by apply (same_bytes_view h h' bs).
    + intros o Ho Heq. right. specialize (Hdis o Ho Heq). unfold phys, window_ok in *. z_cases; lia.
Qed.
