(* ===== verification/PacketTagList.v ===== *)
(** * Packet tags (network/model/packet-tag-list)

    The tags of a packet are a linked list of [TagData], newest first, that ends in a null
    pointer.  Lists share their tails: a copy of a packet points to the same node, and a node
    counts the pointers to it.  A list writes only nodes that it alone reaches; the shared nodes
    before the one to be changed are copied first.

    Memory is explicit: nodes by address, the objects [PacketTagList] by name; a node that was
    freed is not there any more, and following a pointer to it is undefined. *)

From S2P Require Import Prelude.
Local Open Scope Z_scope.

(** [packet-tag-list.h:142-149] PacketTagList::TagData

    [t_data] are the bytes allocated for it. *)
Record TagData := mkTagData { t_next : option positive; t_count : Z (* uint32_t *); t_tid : Z (* TypeId *); t_size : Z (* uint32_t *); t_data : list Z }.

Definition set_next (p : option positive) (n : TagData) : TagData := mkTagData p (t_count n) (t_tid n) (t_size n) (t_data n).
Definition set_count (c : Z) (n : TagData) : TagData := mkTagData (t_next n) c (t_tid n) (t_size n) (t_data n).
Definition set_data (l : list Z) (n : TagData) : TagData := mkTagData (t_next n) (t_count n) (t_tid n) (t_size n) l.

(** A tag: its type and what it serializes to. *)
Record Tag := mkTag { tag_tid : Z; tag_bytes : list Z }.

(** Memory: the nodes, and the pointers [m_next] of the lists. *)
Record memory := mkMemory { nodes : gmap positive TagData; lists : gmap nat (option positive) }.
Implicit Types s : memory.

(** Where a pointer to a node is: the type [TagData**]. *)
Inductive place := Head (i : nat) | NextOf (a : positive).
#[export] Instance place_eq_dec : EqDecision place.
Proof. solve_decision. Defined.

Definition put_node (a : positive) (n : TagData) s : memory := mkMemory (<[a := n]> (nodes s)) (lists s).
Definition put_list (i : nat) (p : option positive) s : memory := mkMemory (nodes s) (<[i := p]> (lists s)).
Definition node_at (a : positive) s : res TagData := deref (nodes s !! a).
Definition list_at (i : nat) s : res (option positive) := deref (lists s !! i).

(** [free]. *)
Definition free (a : positive) s : memory := mkMemory (delete a (nodes s)) (lists s).

(** Writing through a [TagData**]. *)
Definition write_place (l : place) (p : option positive) s : res memory :=
  match l with
  | Head i => _ ← list_at i s; Ok (put_list i p s)
  | NextOf a => n ← node_at a s; Ok (put_node a (set_next p n) s)
  end.

(** One pointer to the node less, one more. *)
Definition dec_count (a : positive) s : res memory := n ← node_at a s; Ok (put_node a (set_count (u32 (t_count n - 1)) n) s).
Definition inc_count (a : positive) s : res memory := n ← node_at a s; Ok (put_node a (set_count (u32 (t_count n + 1)) n) s).

(** What a [TagBuffer] over [size] bytes takes: the bytes written replace the first ones. *)
Definition serialize_into (bytes old : list Z) : res (list Z) :=
  if zlen old <? zlen bytes then Err NsAssert else Ok (bytes ++ drop (length bytes) old).

(** [packet-tag-list.cc:39-53] PacketTagList::CreateTagData

    Memory is allocated where there is none; the fields other than [size] are not initialized. *)
Definition CreateTagData (dataSize : Z) s : res (positive * memory) :=
  if negb (dataSize <? 2 ^ 32 - 1) then Err NsAssert
  else
    let p := fresh (dom (nodes s)) in
    Ok (p, put_node p (mkTagData None 0 0 dataSize (replicate (Z.to_nat dataSize) 0)) s).

(** ** Copy on write *)

(** The functions called on the node found: whether it comes before the first shared node, the
    node and the pointer to it.  They return the bytes that the tag of the caller has then. *)
Definition COWWriter : Type := Tag → bool → positive → place → memory → res (list Z * memory).

(** How the search before the first shared node ends. *)
Inductive search := NotFound | Merge (cur : positive) (prevNext : place) | Found (cur : positive) (prevNext : place).

Section operations.
Context (fuel : nat).

(** [packet-tag-list.cc:75-95] PacketTagList::COWTraverse

    The loop up to the first shared node or the tag. *)
Fixpoint search_loop (fuel : nat) (tid : Z) (cur : option positive) (prevNext : place) s : res search :=
  match cur, fuel with
  | None, _ => Ok NotFound
  | Some _, O => Err OutOfFuel
  | Some a, S fuel =>
      n ← node_at a s;
      if 1 <? t_count n then Ok (Merge a prevNext)
      else if t_tid n =? tid then Ok (Found a prevNext)
      else search_loop fuel tid (t_next n) (NextOf a) s
  end.

(** [packet-tag-list.cc:108-114] PacketTagList::COWTraverse

    Whether the tag is in the rest of the list, and its bytes. *)
Fixpoint exists_loop (fuel : nat) (tid : Z) (cur : option positive) s : res (option (list Z)) :=
  match cur, fuel with
  | None, _ => Ok None
  | Some _, O => Err OutOfFuel
  | Some a, S fuel => n ← node_at a s; if t_tid n =? tid then Ok (Some (take (Z.to_nat (t_size n)) (t_data n))) else exists_loop fuel tid (t_next n) s
  end.

(** [packet-tag-list.cc:149-163] PacketTagList::COWTraverse

    The loop that copies up to the tag. *)
Fixpoint copy_loop (fuel : nat) (tid : Z) (cur : positive) (prevNext : place) s : res (positive * place * memory) :=
  n ← node_at cur s;
  if t_tid n =? tid then Ok (cur, prevNext, s)
  else
    match fuel with
    | O => Err OutOfFuel
    | S fuel =>
        if negb (1 <? t_count n) then Err NsAssert
        else
          s ← dec_count cur s;
          '(copy, s) ← CreateTagData (t_size n) s;
          let s := put_node copy (mkTagData (t_next n) 1 (t_tid n) (t_size n) (take (Z.to_nat (t_size n)) (t_data n))) s in
          next ← deref (t_next n);
          s ← inc_count next s;
          s ← write_place prevNext (Some copy) s;
          copy_loop fuel tid next (NextOf copy) s
    end.

(** [packet-tag-list.cc:55-173] PacketTagList::COWTraverse *)
Definition COWTraverse (tag : Tag) (Writer : COWWriter) (i : nat) s : res (option (list Z) * memory) :=
  m_next ← list_at i s;
  r ← search_loop fuel (tag_tid tag) m_next (Head i) s;
  match r with
  | NotFound => Ok (None, s)
  | Found cur prevNext => '(b, s) ← Writer tag true cur prevNext s; Ok (Some b, s)
  | Merge cur prevNext =>
      it ← exists_loop fuel (tag_tid tag) (Some cur) s;
      match it with
      | None => Ok (None, s)
      | Some _ =>
          '(cur, prevNext, s) ← copy_loop fuel (tag_tid tag) cur prevNext s;
          n ← node_at cur s;
          if negb (1 <? t_count n) then Err NsAssert
          else '(b, s) ← Writer tag false cur prevNext s; Ok (Some b, s)
      end
  end.

(** [packet-tag-list.cc:181-213] PacketTagList::RemoveWriter *)
Definition RemoveWriter : COWWriter := λ tag preMerge cur prevNext s,
  n ← node_at cur s;
  let b := take (Z.to_nat (t_size n)) (t_data n) in
  s ← write_place prevNext (t_next n) s;
  if preMerge then Ok (b, free cur s)
  else
    s ← dec_count cur s;
    s ← (match t_next n with Some next => inc_count next s | None => Ok s end);
    Ok (b, s).

(** [packet-tag-list.cc:175-179] PacketTagList::Remove *)
Definition Remove (tag : Tag) (i : nat) s : res (option (list Z) * memory) := COWTraverse tag RemoveWriter i s.

(** [packet-tag-list.cc:226-259] PacketTagList::ReplaceWriter *)
Definition ReplaceWriter : COWWriter := λ tag preMerge cur prevNext s,
  if preMerge then
    n ← node_at cur s;
    b ← serialize_into (tag_bytes tag) (t_data n);
    Ok (tag_bytes tag, put_node cur (set_data b n) s)
  else
    s ← dec_count cur s;
    '(copy, s) ← CreateTagData (zlen (tag_bytes tag)) s;
    n ← node_at cur s;
    let s := put_node copy (mkTagData (t_next n) 1 (tag_tid tag) (zlen (tag_bytes tag)) (tag_bytes tag)) s in
    s ← (match t_next n with Some next => inc_count next s | None => Ok s end);
    s ← write_place prevNext (Some copy) s;
    Ok (tag_bytes tag, s).

(** ** Adding and reading *)

(** [packet-tag-list.cc:261-279] PacketTagList::Add *)
Definition Add (tag : Tag) (i : nat) s : res memory :=
  m_next ← list_at i s;
  old ← exists_loop fuel (tag_tid tag) m_next s;
  match old with
  | Some _ => Err NsAssert
  | None =>
      '(head, s) ← CreateTagData (zlen (tag_bytes tag)) s;
      Ok (put_list i (Some head) (put_node head (mkTagData m_next 1 (tag_tid tag) (zlen (tag_bytes tag)) (tag_bytes tag)) s))
  end.

(** [packet-tag-list.cc:215-224] PacketTagList::Replace *)
Definition Replace (tag : Tag) (i : nat) s : res (option (list Z) * memory) :=
  '(found, s) ← COWTraverse tag ReplaceWriter i s;
  match found with
  | Some _ => Ok (found, s)
  | None => s ← Add tag i s; Ok (None, s)
  end.

(** [packet-tag-list.cc:281-297] PacketTagList::Peek *)
Definition Peek (tid : Z) (i : nat) s : res (option (list Z)) :=
  m_next ← list_at i s;
  exists_loop fuel tid m_next s.

(** ** Objects *)

Definition free_prev (prev : option positive) s : memory := match prev with Some a => free a s | None => s end.

(** [packet-tag-list.h:358-377] PacketTagList::RemoveAll

    The loop. *)
Fixpoint removeAll_loop (fuel : nat) (prev cur : option positive) s : res memory :=
  match cur, fuel with
  | None, _ => Ok (free_prev prev s)
  | Some _, O => Err OutOfFuel
  | Some a, S fuel =>
      s ← dec_count a s;
      n ← node_at a s;
      if 0 <? t_count n then Ok (free_prev prev s)
      else removeAll_loop fuel (Some a) (t_next n) (free_prev prev s)
  end.

(** [packet-tag-list.h:355-379] PacketTagList::RemoveAll *)
Definition RemoveAll (i : nat) s : res memory :=
  m_next ← list_at i s;
  s ← removeAll_loop fuel None m_next s;
  Ok (put_list i None s).

(** [packet-tag-list.h:319-322] PacketTagList::PacketTagList *)
Definition PacketTagList_new (i : nat) s : memory := put_list i None s.

(** A pointer more to the node that [p] points to. *)
Definition share (p : option positive) s : res memory := match p with Some a => inc_count a s | None => Ok s end.

(** [packet-tag-list.h:324-331] PacketTagList::PacketTagList

    The copy [j] of [o]. *)
Definition PacketTagList_copy (j o : nat) s : res memory :=
  p ← list_at o s;
  share p (put_list j p s).

(** [packet-tag-list.h:333-348] PacketTagList::operator= *)
Definition assign_list (i o : nat) s : res memory :=
  p ← list_at i s;
  q ← list_at o s;
  if bool_decide (p = q) then Ok s
  else
    s ← RemoveAll i s;
    q ← list_at o s;
    share q (put_list i q s).

(** [packet-tag-list.h:350-353] PacketTagList::~PacketTagList *)
Definition PacketTagList_delete (i : nat) s : res memory :=
  s ← RemoveAll i s;
  Ok (mkMemory (nodes s) (delete i (lists s))).
End operations.
