(* ===== verification/TagListGraph.v ===== *)
(** * Packet tags: the graph of the nodes

    Pointers are held in places: the lists and the fields [next].  [refs] counts the places that
    point to a node; [path] follows them.  A node that is reached from a list over nodes with one
    reference each is reached from no other list, which is what writing in place rests on. *)

From S2P Require Import Prelude PacketTagList.
Local Open Scope Z_scope.

(** ** Places, counts, tags *)

Definition ptr s (l : place) : option (option positive) :=
  match l with Head i => lists s !! i | NextOf a => t_next <$> nodes s !! a end.
Definition cnt_of s (a : positive) : option Z := t_count <$> nodes s !! a.
Definition tag_of s (a : positive) : option (Z * Z * list Z) := (λ n, (t_tid n, t_size n, t_data n)) <$> nodes s !! a.

(** How often a node is pointed to from a map. *)
Definition occurs {K} `{Countable K} (m : gmap K (option positive)) (x : positive) : Z := Z.of_nat (size (filter (λ kp, kp.2 = Some x) m)).
Definition links s : gmap positive (option positive) := t_next <$> nodes s.
Definition refs s (x : positive) : Z := occurs (lists s) x + occurs (links s) x.

Definition one_if (P : Prop) `{Decision P} : Z := if decide P then 1 else 0.

Lemma occurs_insert {K} `{Countable K} (m : gmap K (option positive)) k p x :
  occurs (<[k:=p]> m) x = occurs m x - one_if (m !! k = Some (Some x)) + one_if (p = Some x).
Proof.
  unfold occurs, one_if. rewrite map_filter_insert. cbn [snd]. rewrite map_filter_delete.
  assert (filter (λ kp, kp.2 = Some x) m !! k = Some (Some x) ↔ m !! k = Some (Some x)) as Hin.
  { rewrite map_lookup_filter_Some. cbn. naive_solver. }
  destruct (decide (m !! k = Some (Some x))) as [Hk|Hk].
  - apply Hin in Hk. destruct (decide (p = Some x)).
    + rewrite map_size_insert_Some by eauto. lia.
    + rewrite map_size_delete_Some by eauto. assert (size (filter (λ kp, kp.2 = Some x) m) ≠ 0%nat); [|lia].
      intros E. apply map_size_empty_iff in E. by rewrite E in Hk.
  - assert (filter (λ kp, kp.2 = Some x) m !! k = None) as Hn.
    { apply eq_None_not_Some. intros [q E]. pose proof E as [_ Hq]%map_lookup_filter_Some. cbn in Hq. subst q. by apply Hin in E. }
    destruct (decide (p = Some x)).
    + rewrite map_size_insert_None by done. lia.
    + rewrite delete_id by done. lia.
Qed.

Lemma occurs_delete {K} `{Countable K} (m : gmap K (option positive)) k x : occurs (delete k m) x = occurs m x - one_if (m !! k = Some (Some x)).
Proof.
  destruct (m !! k) as [p|] eqn:E.
  - pose proof (occurs_insert (delete k m) k p x) as Hi. rewrite insert_delete_eq, insert_id, lookup_delete_eq in Hi by done.
    unfold one_if in *. rewrite (decide_False (P := None = _)) in Hi by done. destruct (decide (p = Some x)), (decide (Some p = Some (Some x))); try lia; congruence.
  - rewrite delete_id by done. unfold one_if. rewrite decide_False by done. lia.
Qed.

Lemma occurs_nonneg {K} `{Countable K} (m : gmap K (option positive)) x : 0 ≤ occurs m x.
Proof. unfold occurs. lia. Qed.

Lemma occurs_size {K} `{Countable K} (m : gmap K (option positive)) x : occurs m x ≤ Z.of_nat (size m).
Proof. unfold occurs. apply inj_le. apply map_subseteq_size, map_filter_subseteq. Qed.

(** ** The primitive changes *)

Definition redirect (l : place) (p : option positive) s : memory :=
  match l with Head i => put_list i p s | NextOf a => mkMemory (alter (set_next p) a (nodes s)) (lists s) end.
Definition recount (f : Z → Z) (a : positive) s : memory := mkMemory (alter (λ n, set_count (f (t_count n)) n) a (nodes s)) (lists s).

Lemma write_place_is l p s : is_Some (ptr s l) → write_place l p s = Ok (redirect l p s).
Proof.
  intros [q Hq]. destruct l as [i|a]; cbn [ptr write_place redirect] in *.
  - unfold list_at. by rewrite Hq.
  - apply fmap_Some in Hq as (n & Hn & ->). unfold node_at. rewrite Hn. res_simpl. unfold put_node. do 2 f_equal.
    apply map_eq. intros b. destruct (decide (a = b)) as [->|]; [by rewrite lookup_insert_eq, lookup_alter_eq, Hn|by rewrite lookup_insert_ne, lookup_alter_ne].
Qed.

Lemma put_recount f a n s : nodes s !! a = Some n → put_node a (set_count (f (t_count n)) n) s = recount f a s.
Proof.
  intros Hn. unfold put_node, recount. f_equal. apply map_eq. intros b.
  destruct (decide (a = b)) as [->|]; [by rewrite lookup_insert_eq, lookup_alter_eq, Hn|by rewrite lookup_insert_ne, lookup_alter_ne].
Qed.

Lemma dec_count_is a s n : nodes s !! a = Some n → dec_count a s = Ok (recount (λ c, u32 (c - 1)) a s).
Proof. intros Hn. unfold dec_count, node_at. rewrite Hn. res_simpl. by rewrite <- (put_recount (λ c, u32 (c - 1)) a n). Qed.

Lemma inc_count_is a s n : nodes s !! a = Some n → inc_count a s = Ok (recount (λ c, u32 (c + 1)) a s).
Proof. intros Hn. unfold inc_count, node_at. rewrite Hn. res_simpl. by rewrite <- (put_recount (λ c, u32 (c + 1)) a n). Qed.

Lemma ptr_redirect l p s l' : is_Some (ptr s l) → ptr (redirect l p s) l' = if decide (l = l') then Some p else ptr s l'.
Proof.
  intros [q Hq]. destruct l as [i|a], l' as [j|b]; cbn [ptr redirect put_list lists nodes] in *; try (rewrite decide_False by done; done).
  - destruct (decide (i = j)) as [->|]; [rewrite decide_True by done; by rewrite lookup_insert_eq|].
    rewrite decide_False by (intros [=]; done). by rewrite lookup_insert_ne.
  - destruct (decide (a = b)) as [->|].
    + rewrite decide_True by done. rewrite lookup_alter_eq. apply fmap_Some in Hq as (n & -> & _). done.
    + rewrite decide_False by (intros [=]; done). by rewrite lookup_alter_ne.
Qed.

Lemma alter_same {A} (f : TagData → TagData) (g : TagData → A) a (m : gmap positive TagData) b : (∀ n, g (f n) = g n) → g <$> alter f a m !! b = g <$> m !! b.
Proof.
  intros Hg. destruct (decide (a = b)) as [->|]; [rewrite lookup_alter_eq; destruct (m !! b); cbn; [by rewrite Hg|done]|by rewrite lookup_alter_ne].
Qed.

Lemma cnt_redirect l p s a : cnt_of (redirect l p s) a = cnt_of s a.
Proof. destruct l; [done|]. by apply alter_same. Qed.
Lemma tag_redirect l p s a : tag_of (redirect l p s) a = tag_of s a.
Proof. destruct l; [done|]. by apply alter_same. Qed.
Lemma ptr_recount f a s l : ptr (recount f a s) l = ptr s l.
Proof. destruct l; [done|]. by apply alter_same. Qed.
Lemma tag_recount f a s b : tag_of (recount f a s) b = tag_of s b.
Proof. by apply alter_same. Qed.
Lemma cnt_recount f a s b : cnt_of (recount f a s) b = if decide (a = b) then f <$> cnt_of s b else cnt_of s b.
Proof.
  unfold cnt_of, recount. cbn [nodes]. destruct (decide (a = b)) as [->|]; [rewrite lookup_alter_eq|by rewrite lookup_alter_ne].
  by destruct (nodes s !! b).
Qed.

(** References depend on the pointers only. *)
Lemma refs_ext s s' x : (∀ l, ptr s' l = ptr s l) → refs s' x = refs s x.
Proof.
  intros Hp. unfold refs. f_equal; f_equal.
  - apply map_eq. intros i. apply (Hp (Head i)).
  - apply map_eq. intros a. unfold links. rewrite !lookup_fmap. apply (Hp (NextOf a)).
Qed.

Lemma refs_recount f a s x : refs (recount f a s) x = refs s x.
Proof. apply refs_ext. intros l. apply ptr_recount. Qed.

Lemma links_lookup s a : links s !! a = ptr s (NextOf a).
Proof. apply lookup_fmap. Qed.

Lemma refs_redirect l p s x : is_Some (ptr s l) → refs (redirect l p s) x = refs s x - one_if (ptr s l = Some (Some x)) + one_if (p = Some x).
Proof.
  intros Hl. destruct l as [i|a]; unfold refs.
  - change (links (redirect (Head i) p s)) with (links s). cbn [redirect put_list lists]. rewrite occurs_insert. cbn [ptr]. lia.
  - change (lists (redirect (NextOf a) p s)) with (lists s). assert (links (redirect (NextOf a) p s) = <[a:=p]> (links s)) as ->.
    { apply map_eq. intros b. rewrite links_lookup, (ptr_redirect _ p s (NextOf b)) by done. destruct (decide (a = b)) as [->|].
      - rewrite decide_True by done. by rewrite lookup_insert_eq.
      - rewrite decide_False by (intros [=]; done). by rewrite lookup_insert_ne, links_lookup. }
    rewrite occurs_insert, links_lookup. lia.
Qed.

(** A new node. *)
Lemma ptr_new a n s l : ptr (put_node a n s) l = if decide (l = NextOf a) then Some (t_next n) else ptr s l.
Proof.
  destruct l as [i|b]; cbn [ptr put_node lists nodes]; [by rewrite decide_False|].
  destruct (decide (a = b)) as [->|]; [rewrite decide_True by done; by rewrite lookup_insert_eq|].
  rewrite decide_False by (intros [=]; done). by rewrite lookup_insert_ne.
Qed.
Lemma cnt_new a n s b : cnt_of (put_node a n s) b = if decide (a = b) then Some (t_count n) else cnt_of s b.
Proof. unfold cnt_of, put_node. cbn [nodes]. destruct (decide (a = b)) as [->|]; [by rewrite lookup_insert_eq|by rewrite lookup_insert_ne]. Qed.
Lemma tag_new a n s b : tag_of (put_node a n s) b = if decide (a = b) then Some (t_tid n, t_size n, t_data n) else tag_of s b.
Proof. unfold tag_of, put_node. cbn [nodes]. destruct (decide (a = b)) as [->|]; [by rewrite lookup_insert_eq|by rewrite lookup_insert_ne]. Qed.
Lemma refs_new a n s x : nodes s !! a = None → refs (put_node a n s) x = refs s x + one_if (t_next n = Some x).
Proof.
  intros Ha. unfold refs. cbn [put_node lists]. assert (links (put_node a n s) = <[a:=t_next n]> (links s)) as -> by (unfold links, put_node; cbn [nodes]; by rewrite fmap_insert).
  rewrite occurs_insert. unfold links. rewrite lookup_fmap, Ha. cbn. unfold one_if at 1. rewrite decide_False by done. lia.
Qed.

(** A node less. *)
Lemma ptr_free a s l : ptr (free a s) l = if decide (l = NextOf a) then None else ptr s l.
Proof.
  destruct l as [i|b]; cbn [ptr free lists nodes]; [by rewrite decide_False|].
  destruct (decide (a = b)) as [->|]; [rewrite decide_True by done; by rewrite lookup_delete_eq|].
  rewrite decide_False by (intros [=]; done). by rewrite lookup_delete_ne.
Qed.
Lemma cnt_free a s b : cnt_of (free a s) b = if decide (a = b) then None else cnt_of s b.
Proof. unfold cnt_of, free. cbn [nodes]. destruct (decide (a = b)) as [->|]; [by rewrite lookup_delete_eq|by rewrite lookup_delete_ne]. Qed.
Lemma tag_free a s b : tag_of (free a s) b = if decide (a = b) then None else tag_of s b.
Proof. unfold tag_of, free. cbn [nodes]. destruct (decide (a = b)) as [->|]; [by rewrite lookup_delete_eq|by rewrite lookup_delete_ne]. Qed.
Lemma refs_free a s x : refs (free a s) x = refs s x - one_if (ptr s (NextOf a) = Some (Some x)).
Proof.
  unfold refs. cbn [free lists]. assert (links (free a s) = delete a (links s)) as -> by (unfold links, free; cbn [nodes]; by rewrite fmap_delete).
  rewrite occurs_delete, links_lookup. lia.
Qed.

(** A list more or less. *)
Lemma ptr_put_list i p s l : ptr (put_list i p s) l = if decide (l = Head i) then Some p else ptr s l.
Proof.
  destruct l as [j|b]; cbn [ptr put_list lists nodes]; [|by rewrite decide_False].
  destruct (decide (i = j)) as [->|]; [rewrite decide_True by done; by rewrite lookup_insert_eq|].
  rewrite decide_False by (intros [=]; done). by rewrite lookup_insert_ne.
Qed.
Lemma refs_put_list i p s x : refs (put_list i p s) x = refs s x - one_if (lists s !! i = Some (Some x)) + one_if (p = Some x).
Proof. unfold refs. cbn [put_list lists]. rewrite occurs_insert. change (links (put_list i p s)) with (links s). lia. Qed.

(** ** References *)

Lemma refs_nonneg s x : 0 ≤ refs s x.
Proof. unfold refs. pose proof (occurs_nonneg (lists s) x). pose proof (occurs_nonneg (links s) x). lia. Qed.

Lemma refs_pos s l x : ptr s l = Some (Some x) → 1 ≤ refs s x.
Proof.
  intros Hl. pose proof (refs_redirect l None s x ltac:(by rewrite Hl)) as Hr. pose proof (refs_nonneg (redirect l None s) x).
  unfold one_if in Hr. rewrite decide_True, decide_False in Hr by done. lia.
Qed.

Lemma refs_unique s l l' x : ptr s l = Some (Some x) → ptr s l' = Some (Some x) → refs s x = 1 → l = l'.
Proof.
  intros Hl Hl' Hx. destruct (decide (l = l')) as [|Hne]; [done|]. pose proof (refs_redirect l None s x ltac:(by rewrite Hl)) as Hr.
  assert (ptr (redirect l None s) l' = Some (Some x)) as Hp%refs_pos by (rewrite ptr_redirect, decide_False by (done || by rewrite Hl); done).
  unfold one_if in Hr. rewrite decide_True, decide_False in Hr by done. lia.
Qed.

Lemma refs_size s x : refs s x ≤ Z.of_nat (size (lists s)) + Z.of_nat (size (nodes s)).
Proof.
  unfold refs. pose proof (occurs_size (lists s) x). pose proof (occurs_size (links s) x) as Hl. unfold links in *. rewrite map_size_fmap in Hl. lia.
Qed.

(** ** Paths *)

Inductive path s : place → list positive → Prop :=
  | path_nil l : ptr s l = Some None → path s l []
  | path_cons l a as' : ptr s l = Some (Some a) → path s (NextOf a) as' → path s l (a :: as').

(** The places passed, the first included. *)
Definition via (l : place) (as' : list positive) : list place := l :: (NextOf <$> as').
Definition last_place (l : place) (pre : list positive) : place := List.last (via l pre) l.

Lemma path_det s l as1 as2 : path s l as1 → path s l as2 → as1 = as2.
Proof.
  intros H1. revert as2. induction H1 as [l Hl|l a as' Hl _ IH]; intros as2; inversion 1 as [? Hl'|? a' as2' Hl' H2']; subst; try congruence.
  assert (a' = a) as -> by congruence. f_equal. by apply IH.
Qed.

Lemma path_ptr s l as' : path s l as' → is_Some (ptr s l).
Proof. by inversion 1; eexists. Qed.

Lemma path_frame s s' l as' : path s l as' → (∀ l', l' ∈ via l as' → ptr s' l' = ptr s l') → path s' l as'.
Proof.
  induction 1 as [l Hl|l a as' Hl _ IH]; intros Hf.
  - apply path_nil. rewrite Hf; [done|by left].
  - apply path_cons; [rewrite Hf; [done|by left]|]. apply IH. intros l' Hl'. apply Hf. by right.
Qed.

Lemma last_place_cons l a pre : last_place l (a :: pre) = last_place (NextOf a) pre.
Proof.
  unfold last_place, via. cbn [fmap list_fmap]. revert a l. induction pre as [|b pre IH]; intros a l; [done|].
  cbn [fmap list_fmap]. change (List.last (l :: NextOf a :: NextOf b :: (NextOf <$> pre)) l) with (List.last (NextOf a :: NextOf b :: (NextOf <$> pre)) l).
  transitivity (List.last (NextOf b :: (NextOf <$> pre)) l); [done|].
  generalize (NextOf <$> pre) as xs. intros xs. revert b. induction xs as [|x xs IHx]; intros b; [done|]. destruct xs; [done|]. apply (IHx b).
Qed.

Lemma last_place_snoc l pre a : last_place l (pre ++ [a]) = NextOf a.
Proof. revert l. induction pre as [|b pre IH]; intros l; [done|]. rewrite <- app_comm_cons, last_place_cons. apply IH. Qed.

Lemma last_place_in l pre : last_place l pre ∈ via l pre.
Proof.
  revert l. induction pre as [|a pre IH]; intros l; [by left|]. rewrite last_place_cons. right. apply IH.
Qed.

Lemma via_app l as1 as2 l' : l' ∈ via l as1 → l' ∈ via l (as1 ++ as2).
Proof.
  unfold via. rewrite fmap_app. intros [->|Hin]%elem_of_cons; [by left|]. right. apply elem_of_app. by left.
Qed.

Lemma path_app s l as1 as2 : path s l (as1 ++ as2) → path s (last_place l as1) as2.
Proof.
  revert l. induction as1 as [|a as1 IH]; intros l; [done|]. rewrite last_place_cons. inversion 1; subst. by apply IH.
Qed.

Lemma path_node s l as' a : path s l as' → a ∈ as' → is_Some (nodes s !! a).
Proof.
  induction 1 as [|l b as' Hl Hp IH]; intros Ha; [by apply not_elem_of_nil in Ha|]. apply elem_of_cons in Ha as [->|Ha]; [|by apply IH].
  apply path_ptr in Hp. cbn [ptr] in Hp. by destruct (nodes s !! b); [eexists|destruct Hp].
Qed.

Lemma path_acyclic s a as' : path s (NextOf a) as' → a ∉ as'.
Proof.
  intros Hp Ha. apply list_elem_of_split in Ha as (l1 & l2 & ->). pose proof (path_app s (NextOf a) (l1 ++ [a]) l2) as Hs.
  rewrite <- app_assoc, last_place_snoc in Hs. specialize (Hs Hp). apply (path_det _ _ _ _ Hp) in Hs.
  apply (f_equal length) in Hs. rewrite length_app in Hs. cbn in Hs. lia.
Qed.

Lemma path_NoDup s l as' : path s l as' → NoDup as'.
Proof. induction 1 as [|l a as' _ Hp IH]; [constructor|]. constructor; [by eapply path_acyclic|done]. Qed.

Lemma path_same s l l' as' : path s l as' → ptr s l' = ptr s l → path s l' as'.
Proof. inversion 1; subst; intros E; [apply path_nil|eapply path_cons; [|done]]; congruence. Qed.

Lemma path_head s l a as' : path s l as' → ptr s l = Some (Some a) → ∃ rest, as' = a :: rest.
Proof. inversion 1; subst; intros E; [congruence|]. eexists. f_equal. congruence. Qed.

(** The same nodes from another place, or in another state. *)
Lemma path_from s s' l l' as' :
  path s l as' → ptr s' l' = ptr s l → (∀ a, a ∈ as' → ptr s' (NextOf a) = ptr s (NextOf a)) → path s' l' as'.
Proof.
  intros Hp Hl Hf. inversion Hp as [? Hx|? a rest Hx Hr]; subst; [apply path_nil; congruence|]. apply path_cons; [congruence|].
  apply (path_frame s); [done|]. intros l0 Hin. unfold via in Hin. apply elem_of_cons in Hin as [->|Hin]; [apply Hf; by left|].
  apply list_elem_of_fmap in Hin as (b & -> & Hb). apply Hf. by right.
Qed.

(** A place of the prefix is not passed again. *)
Lemma last_place_before s i pre cur rest :
  path s (Head i) (pre ++ cur :: rest) → last_place (Head i) pre ∉ via (NextOf cur) rest.
Proof.
  intros Hp Hin. pose proof (path_NoDup _ _ _ Hp) as (_ & Hd & _)%NoDup_app.
  pose proof (last_place_in (Head i) pre) as [E|Hin']%elem_of_cons.
  - unfold via in Hin. rewrite E in Hin. apply elem_of_cons in Hin as [?|Hin]; [done|]. by apply list_elem_of_fmap in Hin as (? & ? & _).
  - apply list_elem_of_fmap in Hin' as (b & E & Hb). apply (Hd b Hb). rewrite E in Hin. unfold via in Hin.
    apply elem_of_cons in Hin as [[= ->]|Hin]; [by left|]. right. by apply list_elem_of_fmap in Hin as (? & [= <-] & ?).
Qed.

(** A node on a path is pointed to from a place passed before. *)
Lemma path_pred s l pre rest a : path s l (pre ++ rest) → a ∈ pre → ∃ l', l' ∈ via l pre ∧ ptr s l' = Some (Some a).
Proof.
  revert l. induction pre as [|b pre IH]; intros l Hp Ha; [by apply not_elem_of_nil in Ha|]. inversion Hp as [|? ? ? Hl Hp']; subst.
  apply elem_of_cons in Ha as [->|Ha]; [exists l; split; [by left|done]|]. destruct (IH _ Hp' Ha) as (l' & Hl' & ?). exists l'. split; [by right|done].
Qed.

(** ** Nodes of one list *)

Definition sole s (a : positive) : Prop := refs s a = 1.

(** What one list reaches over nodes with one reference each is reached from nowhere else. *)
Lemma sole_disjoint s i pre rest l' as' :
  path s (Head i) (pre ++ rest) → Forall (sole s) pre → path s l' as' → l' ∉ via (Head i) pre → ∀ a, a ∈ as' → a ∉ pre.
Proof.
  intros Hp Hs. rewrite Forall_forall in Hs. induction 1 as [|l' b as' Hl' _ IH]; intros Hn a Ha; [by apply not_elem_of_nil in Ha|].
  assert (b ∉ pre) as Hb.
  { intros Hb. destruct (path_pred _ _ _ _ _ Hp Hb) as (l0 & Hl0 & Hl0'). apply Hn. by rewrite (refs_unique s l' l0 b Hl' Hl0' (Hs b Hb)). }
  apply elem_of_cons in Ha as [->|Ha]; [done|]. apply IH; [|done].
  intros [E|Hin]%elem_of_cons; [done|]. apply list_elem_of_fmap in Hin as (c & [= <-] & Hc). done.
Qed.

(** The place at the end of such a prefix is passed by no other list. *)
Lemma last_place_other s i pre rest j as' :
  path s (Head i) (pre ++ rest) → Forall (sole s) pre → path s (Head j) as' → j ≠ i → last_place (Head i) pre ∉ via (Head j) as'.
Proof.
  intros Hp Hs Hj Hne Hin. pose proof (last_place_in (Head i) pre) as Hl. unfold via in Hin, Hl.
  apply elem_of_cons in Hl as [El|Hl].
  - rewrite El in Hin. apply elem_of_cons in Hin as [[= ?]|Hin]; [congruence|]. by apply list_elem_of_fmap in Hin as (? & ? & _).
  - apply list_elem_of_fmap in Hl as (a & El & Ha). rewrite El in Hin. apply elem_of_cons in Hin as [?|Hin]; [done|].
    apply list_elem_of_fmap in Hin as (b & [= <-] & Hb). eapply (sole_disjoint s i pre rest (Head j) as'); try done.
    intros [[= ?]|Hc]%elem_of_cons; [congruence|]. by apply list_elem_of_fmap in Hc as (? & ? & _).
Qed.

(** ** Changing one pointer *)

(** [s'] differs from [s] in where the place [l0] leads, in nodes that are new, and in nodes that
    only [l0] and each other pointed to and that are gone. *)
Lemma path_edit s s' l0 tail tail' (dead : positive → Prop) :
  path s l0 tail → path s' l0 tail' →
  (∀ l p, l ≠ l0 → (∀ d, l = NextOf d → ¬ dead d) → ptr s l = Some p → ptr s' l = Some p) →
  (∀ l d, ptr s l = Some (Some d) → dead d → l = l0) →
  ∀ l as', path s l as' → (∀ d, l = NextOf d → ¬ dead d) →
    ((l0 ∉ via l as') ∧ path s' l as' ∧ ∀ a, a ∈ as' → ¬ dead a) ∨ (∃ as1, as' = as1 ++ tail ∧ path s' l (as1 ++ tail') ∧ last_place l as1 = l0).
Proof.
  intros Ht Ht' Hkeep Hdead. induction 1 as [l Hl|l a as' Hl Hp IH]; intros Hn.
  - destruct (decide (l = l0)) as [->|Hne]; [right; exists []; split; [by eapply path_det; [apply path_nil|]|by split]|].
    left. split; [intros [?|?%not_elem_of_nil]%elem_of_cons; congruence|]. split; [|by intros a ?%not_elem_of_nil]. apply path_nil. by apply Hkeep.
  - destruct (decide (l = l0)) as [->|Hne]; [right; exists []; split; [by eapply path_det; [by apply path_cons|]|by split]|].
    pose proof (Hkeep l _ Hne Hn Hl) as Hl'. assert (¬ dead a) as Ha by (intros Hd; by apply Hne, (Hdead l a)).
    destruct IH as [(Hv & Hp' & Hall)|(as1 & -> & Hp' & Hla)]; [by intros d [= <-]| |].
    + left. split; [intros [?|Hin]%elem_of_cons; [congruence|]; apply Hv; exact Hin|]. split; [by apply path_cons|].
      intros b [->|Hb]%elem_of_cons; [done|by apply Hall].
    + right. exists (a :: as1). split; [done|]. split; [cbn [app]; by apply path_cons|]. by rewrite last_place_cons.
Qed.

(** ** What lists hold *)

Definition shown s (a : positive) : option (Z * list Z) := (λ n, (t_tid n, t_data n)) <$> nodes s !! a.
Definition content s (as' : list positive) : list (Z * list Z) := omap (shown s) as'.
Definition reads s (i : nat) (c : list (Z * list Z)) : Prop := ∃ as', path s (Head i) as' ∧ content s as' = c.

Lemma shown_tag s a : shown s a = (λ x, (x.1.1, x.2)) <$> tag_of s a.
Proof. unfold shown, tag_of. by destruct (nodes s !! a). Qed.

Lemma content_ext s s' as' : (∀ a, a ∈ as' → shown s' a = shown s a) → content s' as' = content s as'.
Proof.
  induction as' as [|a as' IH]; intros Hs; [done|]. unfold content in *. cbn [omap list_omap]. rewrite Hs by (by left).
  rewrite IH; [done|]. intros b Hb. apply Hs. by right.
Qed.

Lemma reads_det s i c c' : reads s i c → reads s i c' → c = c'.
Proof. intros (as1 & H1 & <-) (as2 & H2 & <-). by rewrite (path_det _ _ _ _ H1 H2). Qed.

(** Only list [i] may read differently, and no list is more or less. *)
Definition only_list s s' (i : nat) : Prop :=
  (∀ j c, j ≠ i → reads s j c → reads s' j c) ∧ (∀ j, is_Some (lists s' !! j) ↔ is_Some (lists s !! j)).

Lemma only_list_trans s1 s2 s3 i : only_list s1 s2 i → only_list s2 s3 i → only_list s1 s3 i.
Proof. intros [Hr1 Hd1] [Hr2 Hd2]. split; [auto|]. intros j. by rewrite Hd2, Hd1. Qed.

(** The pointer behind the nodes that only list [i] reaches is changed. *)
Lemma edit_ok s s' i pre tail tail' (dead : positive → Prop) :
  let l0 := last_place (Head i) pre in
  (∀ l, is_Some (ptr s l) → ∃ as', path s l as') →
  path s (Head i) (pre ++ tail) → Forall (sole s) pre → path s' l0 tail' →
  (∀ l p, l ≠ l0 → (∀ d, l = NextOf d → ¬ dead d) → ptr s l = Some p → ptr s' l = Some p) →
  (∀ l d, ptr s l = Some (Some d) → dead d → l = l0) →
  (∀ l, is_Some (ptr s' l) → is_Some (ptr s l) ∧ (∀ d, l = NextOf d → ¬ dead d) ∨ ∃ as', path s' l as') →
  (∀ a, is_Some (nodes s !! a) → ¬ dead a → shown s' a = shown s a ∨ a ∈ pre) →
  (∀ j, is_Some (lists s' !! j) ↔ is_Some (lists s !! j)) →
  (∀ l, is_Some (ptr s' l) → ∃ as', path s' l as') ∧ path s' (Head i) (pre ++ tail') ∧ only_list s s' i.
Proof.
  intros l0 Hall Hp Hs Ht' Hkeep Hdead Hnew Hsh Hdom.
  pose proof (path_edit s s' l0 tail tail' dead (path_app _ _ _ _ Hp) Ht' Hkeep Hdead) as He.
  split; [|split; [|split; [|done]]].
  - intros l Hl. destruct (Hnew l Hl) as [[Hl1 Hl2]|?]; [|done]. destruct (Hall l Hl1) as [as' Has]. destruct (He l as' Has Hl2) as [(_ & ? & _)|(as1 & _ & ? & _)]; eauto.
  - destruct (He (Head i) _ Hp ltac:(done)) as [(Hv & _)|(as1 & E & Hp' & _)].
    + exfalso. apply Hv, via_app, last_place_in.
    + apply app_inv_tail in E. by rewrite E.
  - intros j c Hj (as' & Has & <-). pose proof (last_place_other s i pre tail j as' Hp Hs Has Hj) as Hv.
    destruct (He (Head j) as' Has ltac:(done)) as [(_ & Hp' & Hnd)|(as1 & -> & _ & Hla)].
    + exists as'. split; [done|]. apply content_ext. intros a Ha. destruct (Hsh a) as [?|Hin]; [by eapply path_node|by apply Hnd|done|].
      exfalso. eapply (sole_disjoint s i pre tail (Head j) as'); try done. intros [[= ?]|Hc]%elem_of_cons; [congruence|]. by apply list_elem_of_fmap in Hc as (? & ? & _).
    + exfalso. apply Hv. unfold l0 in Hla. rewrite <- Hla. apply via_app, last_place_in.
Qed.
