(* ===== verification/TagListCorrect.v ===== *)
(** * Packet tags: the steps of the operations keep the counts

    [inv]: every pointer leads to a node and in the end to null, counts are the numbers of
    references, and the bytes of a node are as many as its size.  Each lemma is about one change of
    the graph that the operations make: a shared node is copied, a node is rewritten, taken out,
    put in front, a reference is taken or given up. *)

From S2P Require Import Prelude PacketTagList TagListGraph.
Local Open Scope Z_scope.

Record inv s : Prop := {
  iv_path : ∀ l, is_Some (ptr s l) → ∃ as', path s l as';
  iv_count : ∀ a c, cnt_of s a = Some c → c = refs s a ∧ 1 ≤ c;
  iv_data : ∀ a t z d, tag_of s a = Some (t, z, d) → z = zlen d ∧ z < 2 ^ 32 - 1
}.

(** Fewer nodes and lists than a count can hold. *)
Definition room s : Prop := Z.of_nat (size (lists s)) + Z.of_nat (size (nodes s)) < 2 ^ 32 - 1.

Lemma refs_zero s x : (∀ l, ptr s l ≠ Some (Some x)) → refs s x = 0.
Proof.
  intros Hn. unfold refs, occurs. rewrite !(proj2 (map_size_empty_iff _)); [done|..]; apply map_empty; intros k; apply map_lookup_filter_None; right; intros p Hk E; cbn in E; subst p.
  - by apply (Hn (NextOf k)); rewrite <- links_lookup.
  - by apply (Hn (Head k)).
Qed.

Lemma inv_target s l a : inv s → ptr s l = Some (Some a) → is_Some (nodes s !! a).
Proof.
  intros Hi Hl. destruct (iv_path s Hi l ltac:(by rewrite Hl)) as [as' Hp]. inversion Hp as [|? b ? Hl' Hp']; subst; [congruence|].
  assert (b = a) as -> by congruence. eapply path_node; [exact Hp|by left].
Qed.

Lemma refs_absent s a : inv s → nodes s !! a = None → refs s a = 0.
Proof. intros Hi Ha. apply refs_zero. intros l Hl. destruct (inv_target s l a Hi Hl) as [n Hn]. congruence. Qed.

Lemma node_count s a n : inv s → nodes s !! a = Some n → t_count n = refs s a ∧ 1 ≤ t_count n.
Proof. intros Hi Hn. apply (iv_count s Hi a). unfold cnt_of. by rewrite Hn. Qed.

Lemma node_sole s a n : inv s → nodes s !! a = Some n → t_count n ≤ 1 → sole s a.
Proof. intros Hi Hn Hc. destruct (node_count s a n Hi Hn). unfold sole. lia. Qed.

Lemma count_fits s a n : inv s → room s → nodes s !! a = Some n → 1 ≤ t_count n < 2 ^ 32 - 1.
Proof. intros Hi Hr Hn. destruct (node_count s a n Hi Hn) as [-> ?]. pose proof (refs_size s a). unfold room in Hr. lia. Qed.

Definition bump (p : option positive) s : memory := match p with Some a => recount (λ c, u32 (c + 1)) a s | None => s end.

Lemma ptr_bump p s l : ptr (bump p s) l = ptr s l.
Proof. destruct p; [apply ptr_recount|done]. Qed.
Lemma tag_bump p s a : tag_of (bump p s) a = tag_of s a.
Proof. destruct p; [apply tag_recount|done]. Qed.
Lemma refs_bump p s a : refs (bump p s) a = refs s a.
Proof. destruct p; [apply refs_recount|done]. Qed.
Lemma cnt_bump p s a : cnt_of (bump p s) a = if decide (p = Some a) then (λ c, u32 (c + 1)) <$> cnt_of s a else cnt_of s a.
Proof.
  destruct p as [b|]; cbn [bump]; [|by rewrite decide_False]. rewrite cnt_recount. destruct (decide (b = a)) as [->|].
  - by rewrite decide_True.
  - by rewrite decide_False by congruence.
Qed.

Lemma one_if_true (P : Prop) `{Decision P} : P → one_if P = 1.
Proof. intros. unfold one_if. by rewrite decide_True. Qed.
Lemma one_if_false (P : Prop) `{Decision P} : ¬ P → one_if P = 0.
Proof. intros. unfold one_if. by rewrite decide_False. Qed.

Lemma tag_node s a n : nodes s !! a = Some n → tag_of s a = Some (t_tid n, t_size n, t_data n).
Proof. intros Hn. unfold tag_of. by rewrite Hn. Qed.

(** A shared node is copied for the list [i], with bytes [d'] or its own. *)
Section copy.
Context s (i : nat) (pre : list positive) (cur : positive) (rest : list positive) (n : TagData) (copy : positive) (t' z' : Z) (d' : list Z)
  (Hinv : inv s) (Hroom : room s) (Hp : path s (Head i) (pre ++ cur :: rest)) (Hsole : Forall (sole s) pre)
  (Hn : nodes s !! cur = Some n) (Hc : 1 < t_count n) (Hfresh : nodes s !! copy = None) (Hz : z' = zlen d' ∧ z' < 2 ^ 32 - 1).
Abbreviation L := (last_place (Head i) pre).
Let s1 := bump (t_next n) (put_node copy (mkTagData (t_next n) 1 t' z' d') (recount (λ c, u32 (c - 1)) cur s)).
Let s' := redirect L (Some copy) s1.

Lemma copy_ptr_L : ptr s L = Some (Some cur).
Proof using All. pose proof (path_app _ _ _ _ Hp) as Ha. by inversion Ha. Qed.

Lemma copy_place : L ≠ NextOf copy.
Proof using All. intros E. pose proof copy_ptr_L as H. rewrite E in H. cbn [ptr] in H. rewrite Hfresh in H. done. Qed.

Lemma copy_ptr1 l : ptr s1 l = if decide (l = NextOf copy) then Some (t_next n) else ptr s l.
Proof using All. unfold s1. rewrite ptr_bump, ptr_new, ptr_recount. done. Qed.

Lemma copy_ptr l : ptr s' l = if decide (L = l) then Some (Some copy) else if decide (l = NextOf copy) then Some (t_next n) else ptr s l.
Proof using All.
  unfold s'. rewrite ptr_redirect, copy_ptr1; [done|]. rewrite copy_ptr1, decide_False by apply copy_place. rewrite copy_ptr_L. by eexists.
Qed.

Lemma copy_tag a : tag_of s' a = if decide (copy = a) then Some (t', z', d') else tag_of s a.
Proof using All. unfold s', s1. by rewrite tag_redirect, tag_bump, tag_new, tag_recount. Qed.

Lemma copy_rest : path s (NextOf cur) rest ∧ ptr s (NextOf cur) = Some (t_next n).
Proof using All. pose proof (path_app _ _ _ _ Hp) as Ha. inversion Ha. split; [done|]. cbn [ptr]. by rewrite Hn. Qed.

Lemma copy_next_ne : t_next n ≠ Some cur.
Proof using All.
  intros E. destruct copy_rest as [Hr Hpn]. rewrite E in Hpn. destruct (path_head _ _ _ _ Hr Hpn) as [tl Etl].
  apply (path_acyclic _ _ _ Hr). rewrite Etl. by left.
Qed.

Lemma copy_refs x : refs s' x = refs s x + one_if (t_next n = Some x) - one_if (cur = x) + one_if (copy = x).
Proof using All.
  unfold s'. rewrite refs_redirect by (rewrite copy_ptr1, decide_False by apply copy_place; rewrite copy_ptr_L; by eexists).
  rewrite copy_ptr1, decide_False, copy_ptr_L by apply copy_place. unfold s1. rewrite refs_bump, refs_new, refs_recount.
  - cbn [t_next]. unfold one_if. destruct (decide (Some (Some cur) = Some (Some x))), (decide (cur = x)), (decide (Some copy = Some x)), (decide (copy = x)); try congruence; lia.
  - unfold recount. cbn [nodes]. rewrite lookup_alter_ne; [done|]. intros ->. congruence.
Qed.

Lemma copy_cnt a c : cnt_of s' a = Some c → c = refs s' a ∧ 1 ≤ c.
Proof using All.
  rewrite copy_refs. unfold s', s1. rewrite cnt_redirect, cnt_bump, cnt_new, cnt_recount. cbn [t_count].
  assert (copy ≠ cur) as Hcc by congruence. pose proof copy_next_ne as Hnc.
  assert (t_next n ≠ Some copy) as Hnx by (intros E; destruct copy_rest as [_ Hx]; rewrite E in Hx; apply inv_target in Hx as [? ?]; [congruence|done]).
  destruct (decide (copy = a)) as [<-|Hca].
  { rewrite decide_False by done. intros [= <-]. rewrite (refs_absent s copy), (one_if_false (t_next n = _)), (one_if_false (cur = _)), one_if_true by done. lia. }
  rewrite (one_if_false (copy = a)) by done. destruct (decide (cur = a)) as [<-|Hka].
  - rewrite decide_False, (one_if_false (t_next n = _)), one_if_true by done. unfold cnt_of. rewrite Hn. cbn. intros [= <-].
    pose proof (count_fits s cur n Hinv Hroom Hn). destruct (node_count s cur n Hinv Hn). rewrite wrap_id by (unfold fits; lia). lia.
  - rewrite (one_if_false (cur = a)) by done. destruct (decide (t_next n = Some a)) as [E|E].
    + rewrite one_if_true by done. destruct (cnt_of s a) as [c0|] eqn:Ec; [|done]. cbn. intros [= <-].
      unfold cnt_of in Ec. apply fmap_Some in Ec as (na & Hna & ->). pose proof (count_fits s a na Hinv Hroom Hna). destruct (node_count s a na Hinv Hna).
      rewrite wrap_id by (unfold fits; lia). lia.
    + rewrite one_if_false by done. intros Ec. destruct (iv_count s Hinv a c Ec). lia.
Qed.

Lemma taglist_copy_ok :
  inv s' ∧ path s' (Head i) (pre ++ copy :: rest) ∧ Forall (sole s') (pre ++ [copy]) ∧ only_list s s' i ∧
  (∀ a, a ≠ copy → shown s' a = shown s a) ∧ shown s' copy = Some (t', d') ∧
  ∀ b nb, t_next n = Some b → nodes s' !! b = Some nb → 1 < t_count nb.
Proof using All.
  assert (∀ a, a ≠ copy → shown s' a = shown s a) as Hsh by (intros a Ha; rewrite !shown_tag, copy_tag, decide_False by congruence; done).
  assert (∀ l p, ptr s l = Some p → l ≠ L → ptr s' l = Some p) as Hkeep.
  { intros l p Hl Hne. rewrite copy_ptr, decide_False by congruence. rewrite decide_False; [done|]. intros ->. cbn [ptr] in Hl. by rewrite Hfresh in Hl. }
  assert (L ∉ via (NextOf cur) rest) as HL by (by apply (last_place_before s)).
  assert (path s' (NextOf cur) rest) as Hrest.
  { apply (path_frame s); [apply copy_rest|]. intros l Hl. destruct copy_rest as [Hr _].
    assert (is_Some (ptr s l)) as [p Hpl].
    { unfold via in Hl. apply elem_of_cons in Hl as [->|Hl]; [by eapply path_ptr|]. apply list_elem_of_fmap in Hl as (b & -> & Hb).
      destruct (path_node _ _ _ _ Hr Hb) as [nb Hnb]. cbn [ptr]. rewrite Hnb. by eexists. }
    rewrite Hpl. apply Hkeep; [done|]. intros ->. done. }
  assert (path s' L (copy :: rest)) as Htail.
  { apply path_cons; [by rewrite copy_ptr, decide_True|]. apply (path_same _ _ _ _ Hrest).
    rewrite !copy_ptr, decide_False, decide_True by (done || apply copy_place). rewrite decide_False by (intros E; apply HL; rewrite E; by left).
    rewrite decide_False by congruence. symmetry. apply copy_rest. }
  destruct (edit_ok s s' i pre (cur :: rest) (copy :: rest) (λ _, False)) as (Hall & Hpath & Honly); try done.
  - apply Hinv.
  - intros l p Hne _ Hl. by apply Hkeep.
  - intros l. rewrite copy_ptr. destruct (decide (L = l)) as [<-|]; [intros _; right; exists (copy :: rest); exact Htail|]. destruct (decide (l = NextOf copy)) as [->|]; [|intros Hl; left; split; [done|tauto]].
    intros _. right. exists rest. inversion Htail. done.
  - intros a [na Hna] _. left. apply Hsh. congruence.
  - intros j. change (lists s' !! j) with (ptr s' (Head j)). change (lists s !! j) with (ptr s (Head j)). rewrite copy_ptr.
    destruct (decide (L = Head j)) as [<-|]; [rewrite copy_ptr_L; split; by eexists|]. by rewrite decide_False.
  - split; [|split; [done|split; [|split; [done|split; [done|split]]]]].
    + constructor; [done|apply copy_cnt|]. intros a t z d. rewrite copy_tag. destruct (decide (copy = a)); [intros [= <- <- <-]; done|apply Hinv].
    + apply Forall_app. split.
      * apply Forall_forall. intros a Ha. assert (sole s a) as Hsa by (by apply (proj1 (Forall_forall _ _) Hsole)).
        unfold sole in *. rewrite copy_refs, Hsa.
        assert (is_Some (nodes s !! a)) as [na Hna] by (eapply path_node; [exact Hp|]; apply elem_of_app; by left).
        pose proof (path_NoDup _ _ _ Hp) as (_ & Hd & _)%NoDup_app.
        rewrite !one_if_false; [done|congruence|intros <-; apply (Hd cur Ha); by left|].
        intros E. destruct copy_rest as [Hr Hpn]. rewrite E in Hpn. destruct (path_head _ _ _ _ Hr Hpn) as [tl Etl].
        apply (Hd a Ha). rewrite Etl. right. by left.
      * apply Forall_singleton. unfold sole. rewrite copy_refs, (refs_absent s copy), one_if_false, (one_if_false (cur = _)), one_if_true; try done; [congruence|].
        intros E. destruct copy_rest as [_ Hpn]. rewrite E in Hpn. apply inv_target in Hpn as [? ?]; [congruence|done].
    + by rewrite shown_tag, copy_tag, decide_True.
    + intros b nb Hb Hnb. destruct (copy_cnt b (t_count nb)) as [-> _]; [unfold cnt_of; by rewrite Hnb|].
      rewrite copy_refs, one_if_true, (one_if_false (cur = b)) by (done || intros <-; by apply copy_next_ne).
      assert (1 ≤ refs s b) by (apply (refs_pos s (NextOf cur)); by rewrite (proj2 copy_rest), Hb). unfold one_if. destruct (decide _); lia.
Qed.
End copy.

(** A node before the first shared one gets other bytes. *)
Lemma rewrite_ok s i pre cur rest n b :
  inv s → path s (Head i) (pre ++ cur :: rest) → Forall (sole s) (pre ++ [cur]) → nodes s !! cur = Some n → zlen b = zlen (t_data n) →
  let s' := put_node cur (set_data b n) s in
  inv s' ∧ path s' (Head i) (pre ++ cur :: rest) ∧ only_list s s' i ∧ (∀ a, a ≠ cur → shown s' a = shown s a) ∧ shown s' cur = Some (t_tid n, b).
Proof.
  intros Hinv Hp Hs Hn Hb s'.
  assert (∀ l, ptr s' l = ptr s l) as Hptr.
  { intros l. unfold s'. rewrite ptr_new. destruct (decide (l = NextOf cur)) as [->|]; [|done]. cbn [ptr]. by rewrite Hn. }
  assert (∀ a, a ≠ cur → shown s' a = shown s a) as Hsh by (intros a Ha; rewrite !shown_tag; unfold s'; rewrite tag_new, decide_False by congruence; done).
  assert (∀ l as', path s l as' → path s' l as') as Hpath by (intros l as' Hl; apply (path_frame s); [done|auto]).
  split; [constructor|split; [by apply Hpath|split; [split|split; [done|]]]].
  - intros l Hl. rewrite Hptr in Hl. destruct (iv_path s Hinv l Hl) as [as' ?]. exists as'. by apply Hpath.
  - intros a c. rewrite (refs_ext s s') by done. unfold s'. rewrite cnt_new. destruct (decide (cur = a)) as [<-|]; [|apply Hinv].
    cbn [t_count set_data]. intros [= <-]. by apply node_count.
  - intros a t z d. unfold s'. rewrite tag_new. destruct (decide (cur = a)) as [<-|]; [|apply Hinv]. cbn [set_data t_tid t_size t_data]. intros [= <- <- <-].
    rewrite Hb. apply (iv_data s Hinv cur (t_tid n)). by apply tag_node.
  - intros j c Hj (as' & Has & <-). exists as'. split; [by apply Hpath|]. apply content_ext. intros a Ha. apply Hsh. intros ->.
    replace (pre ++ cur :: rest) with ((pre ++ [cur]) ++ rest) in Hp by (by rewrite <- app_assoc).
    eapply (sole_disjoint s i (pre ++ [cur]) rest (Head j) as' Hp Hs Has); [|exact Ha|apply elem_of_app; right; by left].
    intros [[= ?]|Hc]%elem_of_cons; [congruence|]. by apply list_elem_of_fmap in Hc as (? & ? & _).
  - done.
  - rewrite shown_tag. unfold s'. by rewrite tag_new, decide_True.
Qed.

(** A node is taken out of the list [i]; if no other list has it, it is freed. *)
Section unlink.
Context s (i : nat) (pre : list positive) (cur : positive) (rest : list positive) (n : TagData)
  (Hinv : inv s) (Hroom : room s) (Hp : path s (Head i) (pre ++ cur :: rest)) (Hsole : Forall (sole s) pre) (Hn : nodes s !! cur = Some n).
Abbreviation L := (last_place (Head i) pre).
Let s1 := redirect L (t_next n) s.

Lemma unlink_ptr_L : ptr s L = Some (Some cur).
Proof using All. pose proof (path_app _ _ _ _ Hp) as Ha. by inversion Ha. Qed.

Lemma unlink_rest : path s (NextOf cur) rest ∧ ptr s (NextOf cur) = Some (t_next n).
Proof using All. pose proof (path_app _ _ _ _ Hp) as Ha. inversion Ha. split; [done|]. cbn [ptr]. by rewrite Hn. Qed.

Lemma unlink_next_ne : t_next n ≠ Some cur.
Proof using All.
  intros E. destruct unlink_rest as [Hr Hpn]. rewrite E in Hpn. destruct (path_head _ _ _ _ Hr Hpn) as [tl Etl].
  apply (path_acyclic _ _ _ Hr). rewrite Etl. by left.
Qed.

Lemma unlink_ptr l : ptr s1 l = if decide (L = l) then Some (t_next n) else ptr s l.
Proof using All. unfold s1. apply ptr_redirect. rewrite unlink_ptr_L. by eexists. Qed.

Lemma unlink_refs x : refs s1 x = refs s x - one_if (cur = x) + one_if (t_next n = Some x).
Proof using All.
  unfold s1. rewrite refs_redirect by (rewrite unlink_ptr_L; by eexists). rewrite unlink_ptr_L. unfold one_if.
  destruct (decide (Some (Some cur) = Some (Some x))), (decide (cur = x)); congruence || lia.
Qed.

(** [s'] has the pointers of [s1] but for [cur], which may be gone. *)
Lemma unlink_edit s' (dead : positive → Prop) :
  (∀ l, l ≠ NextOf cur → ptr s' l = ptr s1 l) → (ptr s' (NextOf cur) = ptr s1 (NextOf cur) ∧ (∀ d, ¬ dead d) ∨ ptr s' (NextOf cur) = None ∧ dead cur) →
  (∀ d, dead d → d = cur ∧ sole s cur) → (∀ a, a ≠ cur ∨ ¬ dead cur → shown s' a = shown s a) → lists s' = lists s1 →
  (∀ l, is_Some (ptr s' l) → ∃ as', path s' l as') ∧ path s' (Head i) (pre ++ rest) ∧ only_list s s' i.
Proof using All.
  intros Hptr Hcur Hdead Hsh Hlists. pose proof (last_place_before _ _ _ _ _ Hp) as HL. destruct unlink_rest as [Hr Hpn].
  assert (cur ∉ rest) as Hcr by (by eapply path_acyclic).
  assert (L ≠ NextOf cur) as HLc by (intros E; apply HL; rewrite E; by left).
  assert (path s' L rest) as Htail.
  { apply (path_from s s' (NextOf cur)); [done| |].
    - rewrite Hptr, unlink_ptr, decide_True by done. by rewrite Hpn.
    - intros a Ha. rewrite Hptr by (intros [= ->]; done). rewrite unlink_ptr, decide_False; [done|]. intros E. apply HL. rewrite E. right. by apply list_elem_of_fmap_2. }
  apply (edit_ok s s' i pre (cur :: rest) rest dead); try done.
  - apply Hinv.
  - intros l p Hne Hnd Hl. destruct (decide (l = NextOf cur)) as [->|Hlc].
    + destruct Hcur as [[-> _]|[_ Hd]]; [rewrite unlink_ptr, decide_False by done; done|by destruct (Hnd cur)].
    + rewrite Hptr, unlink_ptr, decide_False by congruence. done.
  - intros l d Hl Hd. destruct (Hdead d Hd) as [-> Hs]. by apply (refs_unique s l L cur Hl unlink_ptr_L).
  - intros l Hl. destruct (decide (l = L)) as [->|HlL]; [right; by exists rest|]. left. destruct (decide (l = NextOf cur)) as [->|Hlc].
    + destruct Hcur as [[E Hnd]|[E _]]; rewrite E in Hl; [|by destruct Hl]. rewrite unlink_ptr, decide_False in Hl by congruence. split; [done|]. intros d _. apply Hnd.
    + rewrite Hptr, unlink_ptr, decide_False in Hl by congruence. split; [done|]. intros d -> Hd. destruct (Hdead d Hd) as [-> _]. done.
  - intros a _ Hnd. left. apply Hsh. destruct (decide (a = cur)) as [->|]; [by right|by left].
  - intros j. rewrite Hlists. change (lists s1 !! j) with (ptr s1 (Head j)). change (lists s !! j) with (ptr s (Head j)). rewrite unlink_ptr.
    destruct (decide (L = Head j)) as [<-|]; [rewrite unlink_ptr_L; split; by eexists|done].
Qed.

Lemma unlink_sole_ok :
  sole s cur →
  let s' := free cur s1 in
  inv s' ∧ path s' (Head i) (pre ++ rest) ∧ only_list s s' i ∧ (∀ a, a ≠ cur → shown s' a = shown s a) ∧ ∀ a, a ∈ pre → sole s' a.
Proof using All.
  intros Hs s'. pose proof unlink_next_ne as Hnc. destruct unlink_rest as [Hr Hpn].
  assert (L ≠ NextOf cur) as HLc by (intros E; apply (last_place_before _ _ _ _ _ Hp); rewrite E; by left).
  assert (∀ a, a ≠ cur → shown s' a = shown s a) as Hsh.
  { intros a Ha. rewrite !shown_tag. unfold s', s1. by rewrite tag_free, decide_False, tag_redirect by congruence. }
  assert (∀ x, x ≠ cur → refs s' x = refs s x) as Href.
  { intros x Hx. unfold s'. rewrite refs_free, unlink_refs, unlink_ptr, decide_False, Hpn, (one_if_false (cur = x)) by congruence. unfold one_if.
    destruct (decide (t_next n = Some x)), (decide (Some (t_next n) = Some (Some x))); congruence || lia. }
  destruct (unlink_edit s' (λ d, d = cur)) as (Hall & Hpath & Honly); try done.
  - intros l Hl. unfold s'. by rewrite ptr_free, decide_False.
  - right. unfold s'. by rewrite ptr_free, decide_True.
  - intros a [Ha|Ha]; [by apply Hsh|done].
  - split; [constructor; [done| |]|split; [done|split; [done|split; [done|]]]].
    + intros a c. unfold s', s1. rewrite cnt_free, cnt_redirect. destruct (decide (cur = a)) as [|Hne]; [done|]. intros Hc.
      fold s1. fold s'. rewrite Href by congruence. by apply Hinv.
    + intros a t z d. unfold s', s1. rewrite tag_free, tag_redirect. destruct (decide (cur = a)); [done|apply Hinv].
    + intros a Ha. unfold sole. rewrite Href; [by apply (proj1 (Forall_forall _ _) Hsole)|]. intros ->.
      pose proof (path_NoDup _ _ _ Hp) as (_ & Hd & _)%NoDup_app. apply (Hd cur Ha). by left.
Qed.

Lemma unlink_shared_ok :
  1 < t_count n →
  let s' := bump (t_next n) (recount (λ c, u32 (c - 1)) cur s1) in
  inv s' ∧ path s' (Head i) (pre ++ rest) ∧ only_list s s' i ∧ (∀ a, shown s' a = shown s a).
Proof using All.
  intros Hc s'. pose proof unlink_next_ne as Hnc. destruct unlink_rest as [Hr Hpn].
  assert (∀ l, ptr s' l = ptr s1 l) as Hptr by (intros l; unfold s'; by rewrite ptr_bump, ptr_recount).
  assert (∀ a, shown s' a = shown s a) as Hsh by (intros a; rewrite !shown_tag; unfold s', s1; by rewrite tag_bump, tag_recount, tag_redirect).
  assert (∀ x, refs s' x = refs s1 x) as Href by (intros x; by apply refs_ext).
  destruct (unlink_edit s' (λ _, False)) as (Hall & Hpath & Honly); try done.
  - left. split; [apply Hptr|tauto].
  - unfold s'. by destruct (t_next n).
  - split; [constructor; [done| |]|split; [done|split; done]].
    + intros a c. rewrite Href, unlink_refs. unfold s', s1. rewrite cnt_bump, cnt_recount, cnt_redirect. destruct (decide (cur = a)) as [<-|Hka].
      * rewrite decide_False, one_if_true, one_if_false by done. unfold cnt_of. rewrite Hn. cbn. intros [= <-].
        pose proof (count_fits s cur n Hinv Hroom Hn). destruct (node_count s cur n Hinv Hn). rewrite wrap_id by (unfold fits; lia). lia.
      * rewrite (one_if_false (cur = a)) by done. destruct (decide (t_next n = Some a)) as [E|E].
        -- rewrite one_if_true by done. destruct (cnt_of s a) as [c0|] eqn:Ec; [|done]. cbn. intros [= <-].
           unfold cnt_of in Ec. apply fmap_Some in Ec as (na & Hna & ->). pose proof (count_fits s a na Hinv Hroom Hna). destruct (node_count s a na Hinv Hna).
           rewrite wrap_id by (unfold fits; lia). lia.
        -- rewrite one_if_false by done. intros Ec. destruct (iv_count s Hinv a c Ec). lia.
    + intros a t z d. unfold s', s1. rewrite tag_bump, tag_recount, tag_redirect. apply Hinv.
Qed.
End unlink.

(** ** Lists *)

Lemma reads_frame s s' j c :
  reads s j c → (∀ l, l = Head j ∨ (∃ a, l = NextOf a ∧ is_Some (nodes s !! a)) → ptr s' l = ptr s l) →
  (∀ a, is_Some (nodes s !! a) → shown s' a = shown s a) → reads s' j c.
Proof.
  intros (as' & Has & <-) Hptr Hsh. exists as'. split.
  - apply (path_frame s); [done|]. intros l [->|Hl]%elem_of_cons; [apply Hptr; by left|]. apply list_elem_of_fmap in Hl as (a & -> & Ha).
    apply Hptr. right. exists a. split; [done|by eapply path_node].
  - apply content_ext. intros a Ha. apply Hsh. by eapply path_node.
Qed.

(** A list gets a pointer to [p], where it had none. *)
Section point.
Context s (j : nat) (p : option positive) (Hinv : inv s) (Hj : lists s !! j = None ∨ lists s !! j = Some None).

Lemma point_refs x : refs (put_list j p s) x = refs s x + one_if (p = Some x).
Proof using Hj. rewrite refs_put_list, one_if_false; [lia|]. destruct Hj as [->| ->]; congruence. Qed.

Lemma point_other i c : i ≠ j → reads s i c → reads (put_list j p s) i c.
Proof using. clear. intros Hi Hr. apply (reads_frame s); [done| |done]. intros l Hl. rewrite ptr_put_list, decide_False; [done|]. intros ->. destruct Hl as [[= ?]|(? & ? & _)]; congruence. Qed.

Lemma point_path l as' : path s l as' → l ≠ Head j → path (put_list j p s) l as'.
Proof using.
  clear. intros Hp Hl. apply (path_frame s); [done|]. intros l' [->|Hl']%elem_of_cons; [by rewrite ptr_put_list, decide_False|].
  apply list_elem_of_fmap in Hl' as (a & -> & _). by rewrite ptr_put_list, decide_False.
Qed.

Lemma share_ok l as' :
  room (put_list j p s) → path s l as' → ptr s l = Some p → l ≠ Head j →
  let s' := bump p (put_list j p s) in inv s' ∧ path s' (Head j) as' ∧ (∀ i c, i ≠ j → reads s i c → reads s' i c) ∧ content s' as' = content s as'.
Proof using All.
  intros Hroom Hp Hl Hlj s'. assert (∀ l, ptr s' l = ptr (put_list j p s) l) as Hptr by (intros l'; apply ptr_bump).
  assert (∀ a, shown s' a = shown s a) as Hsh by (intros a; rewrite !shown_tag; unfold s'; by rewrite tag_bump).
  assert (∀ l as', path (put_list j p s) l as' → path s' l as') as Hpath by (intros l0 as0 H0; apply (path_frame (put_list j p s)); auto).
  assert (path s' (Head j) as') as Hpj.
  { apply (path_from s s' l); [done| |]; [rewrite Hptr, ptr_put_list, decide_True, Hl by done; done|].
    intros a _. by rewrite Hptr, ptr_put_list, decide_False. }
  split; [constructor|split; [done|split; [|by apply content_ext]]].
  - intros l' Hl'. destruct (decide (l' = Head j)) as [->|Hne]; [by exists as'|]. rewrite Hptr, ptr_put_list, decide_False in Hl' by done.
    destruct (iv_path s Hinv l' Hl') as [as1 H1]. exists as1. by apply Hpath, point_path.
  - intros a c. rewrite (refs_ext (put_list j p s) s') by done. rewrite point_refs. unfold s'. rewrite cnt_bump.
    change (cnt_of (put_list j p s) a) with (cnt_of s a). destruct (decide (p = Some a)) as [E|E].
    + rewrite one_if_true by done. destruct (cnt_of s a) as [c0|] eqn:Ec; [|done]. cbn. intros [= <-]. destruct (iv_count s Hinv a c0 Ec) as [-> ?].
      pose proof (refs_size (put_list j p s) a) as Hsz. rewrite point_refs, one_if_true in Hsz by done. unfold room in Hroom. rewrite wrap_id by (unfold fits; lia). lia.
    + rewrite one_if_false by done. intros Ec. destruct (iv_count s Hinv a c Ec). lia.
  - intros a t z d. unfold s'. rewrite tag_bump. apply Hinv.
  - intros i c Hi Hr. apply (reads_frame (put_list j p s)); [by apply point_other|auto|]. intros a _. by rewrite Hsh.
Qed.
End point.

(** The pointer of list [i] to a shared node is given up. *)
Lemma give_up_ok s i a n :
  inv s → room s → lists s !! i = Some (Some a) → nodes s !! a = Some n → 1 < t_count n →
  let s' := recount (λ c, u32 (c - 1)) a (put_list i None s) in inv s' ∧ only_list s s' i.
Proof.
  intros Hinv Hroom Hi Hn Hc s'. assert (∀ l, ptr s' l = if decide (l = Head i) then Some None else ptr s l) as Hptr by (intros l; unfold s'; by rewrite ptr_recount, ptr_put_list).
  assert (∀ b, shown s' b = shown s b) as Hsh by (intros b; rewrite !shown_tag; unfold s'; by rewrite tag_recount).
  destruct (iv_path s Hinv (Head i)) as [as' Hp]; [cbn [ptr]; by rewrite Hi|].
  destruct (edit_ok s s' i [] as' [] (λ _, False)) as (Hall & _ & Honly); try done.
  - apply Hinv.
  - apply path_nil. by rewrite Hptr, decide_True.
  - intros l p Hne _ Hl. by rewrite Hptr, decide_False.
  - intros l. rewrite Hptr. destruct (decide (l = Head i)) as [->|]; [intros _; right; exists []; apply path_nil; by rewrite Hptr, decide_True|].
    intros Hl. left. split; [done|tauto].
  - intros b _ _. by left.
  - intros k. unfold s'. cbn [recount put_list lists]. destruct (decide (i = k)) as [->|]; [rewrite lookup_insert_eq, Hi; split; by eexists|by rewrite lookup_insert_ne].
  - split; [|done]. constructor; [done| |].
    + intros b c. unfold s'. rewrite refs_recount, refs_put_list, cnt_recount, Hi, (one_if_false (None = _)) by done. change (cnt_of (put_list i None s) b) with (cnt_of s b).
      destruct (decide (a = b)) as [<-|Hab].
      * rewrite one_if_true by done. unfold cnt_of. rewrite Hn. cbn. intros [= <-]. pose proof (count_fits s a n Hinv Hroom Hn). destruct (node_count s a n Hinv Hn).
        rewrite wrap_id by (unfold fits; lia). lia.
      * rewrite one_if_false by congruence. intros Ec. destruct (iv_count s Hinv b c Ec). lia.
    + intros b t z d. unfold s'. rewrite tag_recount. apply Hinv.
Qed.

(** A new node in front of list [i]. *)
Lemma push_ok s i m_next as' h t z d :
  inv s → lists s !! i = Some m_next → path s (Head i) as' → nodes s !! h = None → z = zlen d ∧ z < 2 ^ 32 - 1 →
  let s' := put_list i (Some h) (put_node h (mkTagData m_next 1 t z d) s) in
  inv s' ∧ path s' (Head i) (h :: as') ∧ (∀ j c, j ≠ i → reads s j c → reads s' j c) ∧ content s' (h :: as') = (t, d) :: content s as'.
Proof.
  intros Hinv Hi Hp Hh Hz s'.
  assert (∀ l, ptr s' l = if decide (l = Head i) then Some (Some h) else if decide (l = NextOf h) then Some m_next else ptr s l) as Hptr.
  { intros l. unfold s'. rewrite ptr_put_list, ptr_new. done. }
  assert (∀ a, a ≠ h → shown s' a = shown s a) as Hsh.
  { intros a Ha. rewrite !shown_tag. unfold s'. change (tag_of (put_list i ?p ?m)) with (tag_of m). by rewrite tag_new, decide_False by congruence. }
  assert (shown s' h = Some (t, d)) as Hhd by (rewrite shown_tag; unfold s'; change (tag_of (put_list i ?p ?m)) with (tag_of m); by rewrite tag_new, decide_True).
  assert (∀ l as1, path s l as1 → l ≠ Head i → path s' l as1) as Hpath.
  { intros l as1 H1 Hl. apply (path_frame s); [done|]. intros l' Hl'. assert (is_Some (ptr s l')) as Hsome.
    { apply elem_of_cons in Hl' as [->|Hl']; [by eapply path_ptr|]. apply list_elem_of_fmap in Hl' as (b & -> & Hb). destruct (path_node _ _ _ _ H1 Hb) as [nb Hnb].
      cbn [ptr]. rewrite Hnb. by eexists. }
    rewrite Hptr. rewrite (decide_False (P := l' = NextOf h)); [|intros ->; cbn [ptr] in Hsome; rewrite Hh in Hsome; by destruct Hsome].
    rewrite decide_False; [done|]. intros ->. apply elem_of_cons in Hl' as [?|Hl']; [done|]. by apply list_elem_of_fmap in Hl' as (? & ? & _). }
  assert (path s' (Head i) (h :: as')) as Hpi.
  { apply path_cons; [by rewrite Hptr, decide_True|]. apply (path_from s s' (Head i)); [done|by rewrite Hptr, decide_False, decide_True|].
    intros a Ha. destruct (path_node _ _ _ _ Hp Ha) as [na Hna]. rewrite Hptr, decide_False, decide_False by congruence. done. }
  split; [constructor|split; [done|split]].
  - intros l Hl. destruct (decide (l = Head i)) as [->|H1]; [by exists (h :: as')|]. destruct (decide (l = NextOf h)) as [->|H2].
    + inversion Hpi; subst. by exists as'.
    + rewrite Hptr, decide_False, decide_False in Hl by done. destruct (iv_path s Hinv l Hl) as [as1 ?]. exists as1. by apply Hpath.
  - intros a c. unfold s'. rewrite refs_put_list, refs_new by done. cbn [put_node lists t_next]. rewrite Hi.
    change (cnt_of (put_list i ?p ?m)) with (cnt_of m). rewrite cnt_new. cbn [t_count]. unfold one_if.
    destruct (decide (h = a)) as [<-|Hne].
    + intros [= <-]. rewrite (refs_absent s h) by done. destruct (decide (Some m_next = Some (Some h))), (decide (m_next = Some h)), (decide (Some h = Some h)); try congruence; lia.
    + intros Ec. destruct (iv_count s Hinv a c Ec) as [-> ?].
      destruct (decide (Some m_next = Some (Some a))), (decide (m_next = Some a)), (decide (Some h = Some a)); try congruence; lia.
  - intros a t0 z0 d0. unfold s'. change (tag_of (put_list i ?p ?m)) with (tag_of m). rewrite tag_new. destruct (decide (h = a)); [intros [= <- <- <-]; done|apply Hinv].
  - intros j c Hj Hr. apply (reads_frame s); [done| |].
    + intros l Hl. rewrite Hptr, decide_False; [|intros ->; destruct Hl as [[= ?]|(? & ? & _)]; congruence].
      rewrite decide_False; [done|]. intros ->. destruct Hl as [?|(a & [= <-] & [na Hna])]; congruence.
    + intros a [na Hna]. apply Hsh. congruence.
  - unfold content. cbn [omap list_omap]. rewrite Hhd. f_equal. apply content_ext. intros a Ha. apply Hsh. intros ->.
    destruct (path_node _ _ _ _ Hp Ha) as [na Hna]. congruence.
Qed.
