(* ===== verification/TagListOps.v ===== *)
(** * Packet tags: what the lists promise, and that the operations keep it

    The specification keeps, for each list, the tags it holds, and knows no nodes: an operation on
    one list changes that list only.  What it cannot know is whether the node of a tag is shared when
    the tag is replaced, which shows if the new value has another length than the old one: it answers
    for both cases.  [holds] says which of its states memory stands for.  Every node is on some
    list ([inv_reached]), so the lists bound the number of nodes and with it the counts ([holds_room]).

    Then the operations.  The loops first: the search for the tag before the first shared node, the search in a whole
    list, the copying of shared nodes, the release of a list.  Then one lemma for each operation:
    from a memory that stands for a state it ends as the specification says, in a memory that stands
    for the state it gives, or with its assertion. *)

From S2P Require Import Prelude PacketTagList TagListGraph TagListCorrect.
Local Open Scope Z_scope.

(** ** The specification *)

Abbreviation tags := (list (Z * list Z)).

Fixpoint find_tag (tid : Z) (c : tags) : option (list Z) :=
  match c with [] => None | x :: c => if x.1 =? tid then Some x.2 else find_tag tid c end.
Fixpoint remove_tag (tid : Z) (c : tags) : tags :=
  match c with [] => [] | x :: c => if x.1 =? tid then c else x :: remove_tag tid c end.
Fixpoint replace_tag (tag : Tag) (c : tags) : tags :=
  match c with [] => [] | x :: c => if x.1 =? tag_tid tag then (x.1, tag_bytes tag) :: c else x :: replace_tag tag c end.

Inductive op := OpNew (i : nat) | OpCopy (j o : nat) | OpAssign (i o : nat) | OpDelete (i : nat) | OpAdd (tag : Tag) (i : nat)
  | OpRemove (tid : Z) (i : nat) | OpReplace (tag : Tag) (i : nat) | OpPeek (tid : Z) (i : nat) | OpRemoveAll (i : nat).

Abbreviation spec := (gmap nat tags).
Implicit Types σ : spec.

(** A tag must not be too long. *)
Definition spec_add (tag : Tag) (i : nat) (c : tags) σ : res (option (list Z) * spec) :=
  if bool_decide (zlen (tag_bytes tag) < 2 ^ 32 - 1) then Ok (None, <[i := (tag_tid tag, tag_bytes tag) :: c]> σ) else Err NsAssert.

(** The new value of a tag takes the place of the old one in a [shared] list; in a list of its own it is
    written over the old value, of which the bytes beyond it stay, and must not be longer. *)
Definition spec_replace (shared : bool) (tag : Tag) (i : nat) (c : tags) (old : list Z) σ : res (option (list Z) * spec) :=
  if shared then
    if bool_decide (zlen (tag_bytes tag) < 2 ^ 32 - 1) then Ok (Some (tag_bytes tag), <[i := replace_tag tag c]> σ) else Err NsAssert
  else
    if bool_decide (zlen (tag_bytes tag) ≤ zlen old)
    then Ok (Some (tag_bytes tag), <[i := replace_tag (mkTag (tag_tid tag) (tag_bytes tag ++ drop (length (tag_bytes tag)) old)) c]> σ)
    else Err NsAssert.

(** A list that is not there. *)
Definition spec_at (i : nat) σ : res tags := deref (σ !! i).

Definition spec_step (shared : bool) (o : op) σ : res (option (list Z) * spec) :=
  match o with
  | OpNew i => Ok (None, <[i := []]> σ)
  | OpCopy j o => c ← spec_at o σ; Ok (None, <[j := c]> σ)
  | OpAssign i o => _ ← spec_at i σ; c ← spec_at o σ; Ok (None, <[i := c]> σ)
  | OpDelete i => _ ← spec_at i σ; Ok (None, delete i σ)
  | OpAdd tag i => c ← spec_at i σ; match find_tag (tag_tid tag) c with None => spec_add tag i c σ | Some _ => Err NsAssert end
  | OpRemove tid i => c ← spec_at i σ; Ok (find_tag tid c, <[i := remove_tag tid c]> σ)
  | OpReplace tag i => c ← spec_at i σ; match find_tag (tag_tid tag) c with None => spec_add tag i c σ | Some old => spec_replace shared tag i c old σ end
  | OpPeek tid i => c ← spec_at i σ; Ok (find_tag tid c, σ)
  | OpRemoveAll i => _ ← spec_at i σ; Ok (None, <[i := []]> σ)
  end.

(** [sh]: what is shared at each operation. *)
Fixpoint spec_run (sh : list bool) (os : list op) σ : res (list (option (list Z)) * spec) :=
  match os with
  | [] => Ok ([], σ)
  | o :: os => '(a, σ) ← spec_step (hd false sh) o σ; '(l, σ) ← spec_run (tl sh) os σ; Ok (a :: l, σ)
  end.

(** Objects are used between their construction and their destruction; [live]: those there are. *)
Definition op_live (live : gset nat) (o : op) : Prop :=
  match o with
  | OpNew i => i ∉ live
  | OpCopy j o => o ∈ live ∧ j ∉ live
  | OpAssign i o => i ∈ live ∧ o ∈ live
  | OpDelete i | OpAdd _ i | OpRemove _ i | OpReplace _ i | OpPeek _ i | OpRemoveAll i => i ∈ live
  end.

Definition live_after (live : gset nat) (o : op) : gset nat :=
  match o with OpNew i | OpCopy i _ => {[i]} ∪ live | OpDelete i => live ∖ {[i]} | _ => live end.

Fixpoint scoped (live : gset nat) (os : list op) : Prop :=
  match os with [] => True | o :: os => op_live live o ∧ scoped (live_after live o) os end.

(** ** What memory stands for *)

Record holds s σ : Prop := {
  h_inv : inv s;
  h_dom : ∀ i, is_Some (lists s !! i) ↔ is_Some (σ !! i);
  h_reads : ∀ i c, σ !! i = Some c → reads s i c
}.

(** Every node is on a list. *)
Definition no_leaks s : Prop := ∀ a, is_Some (nodes s !! a) → ∃ i as', path s (Head i) as' ∧ a ∈ as'.

Definition small (k : nat) σ : Prop := (size σ ≤ k)%nat ∧ ∀ i c, σ !! i = Some c → (length c ≤ k)%nat.

Lemma path_shown s l as' a : path s l as' → a ∈ as' → is_Some (shown s a).
Proof. intros Hp Ha. destruct (path_node _ _ _ _ Hp Ha) as [n Hn]. unfold shown. rewrite Hn. by eexists. Qed.

Lemma content_length s l as' : path s l as' → length (content s as') = length as'.
Proof.
  intros Hp. assert (∀ a, a ∈ as' → is_Some (shown s a)) as Hs by (intros a; by apply (path_shown s l)). clear Hp.
  induction as' as [|a as' IH]; [done|]. unfold content in *. cbn [omap list_omap]. destruct (Hs a) as [x ->]; [by left|].
  cbn [length]. f_equal. apply IH. intros b Hb. apply Hs. by right.
Qed.

Lemma path_length s l as' : path s l as' → (length as' ≤ size (nodes s))%nat.
Proof.
  intros Hp. rewrite <- (length_map_to_list (nodes s)), <- (length_fmap fst (map_to_list (nodes s))).
  apply submseteq_length, NoDup_submseteq; [by eapply path_NoDup|].
  intros a Ha. destruct (path_node _ _ _ _ Hp Ha) as [n Hn]. apply list_elem_of_fmap. exists (a, n). split; [done|]. by apply elem_of_map_to_list.
Qed.

Lemma occurs_some {K} `{Countable K} (m : gmap K (option positive)) x : occurs m x ≠ 0 → ∃ k, m !! k = Some (Some x).
Proof.
  unfold occurs. intros Ho. destruct (map_choose_or_empty (filter (λ kp, kp.2 = Some x) m)) as [(k & p & Hp)|E].
  - apply map_lookup_filter_Some in Hp as [Hk Hx]. cbn in Hx. subst p. by exists k.
  - rewrite E, map_size_empty in Ho. done.
Qed.

Lemma refs_some s x : refs s x ≠ 0 → ∃ l, ptr s l = Some (Some x).
Proof.
  unfold refs. intros Hr. destruct (decide (occurs (lists s) x = 0)) as [E|Hl].
  - destruct (occurs_some (links s) x) as [a Ha]; [lia|]. exists (NextOf a). by rewrite <- links_lookup.
  - destruct (occurs_some (lists s) x Hl) as [i Hi]. by exists (Head i).
Qed.

Lemma inv_reached s : inv s → no_leaks s.
Proof.
  intros Hinv a [n Hn].
  assert (∀ k b as', path s (NextOf b) as' → a ∈ b :: as' → (size (nodes s) - length as' ≤ k)%nat → ∃ i as1, path s (Head i) as1 ∧ a ∈ as1) as Hr.
  { induction k as [|k IH]; intros b as' Hp Ha Hk.
    all: assert (is_Some (nodes s !! b)) as [nb Hnb] by (apply path_ptr in Hp; cbn [ptr] in Hp; destruct (nodes s !! b); [by eexists|by destruct Hp]).
    all: destruct (node_count s b nb Hinv Hnb) as [Hc1 Hc2]; destruct (refs_some s b) as [l Hl]; [lia|].
    all: pose proof (path_cons s l b as' Hl Hp) as Hp'; pose proof (path_length _ _ _ Hp') as Hlen; cbn [length] in Hlen.
    all: destruct l as [i|b']; [by exists i, (b :: as')|].
    - lia.
    - apply (IH b' (b :: as')); [done|by right|cbn [length]; lia]. }
  destruct (iv_path s Hinv (NextOf a)) as [as' Hp]; [cbn [ptr]; rewrite Hn; by eexists|]. eapply (Hr _ a as' Hp); [by left|reflexivity].
Qed.

(** ** Room for the counts *)

Lemma lists_nodes s σ k (ixs : list nat) :
  holds s σ → small k σ → (∀ i, i ∈ ixs → is_Some (σ !! i)) →
  ∃ l : list positive, (length l ≤ k * length ixs)%nat ∧ ∀ i as' a, i ∈ ixs → path s (Head i) as' → a ∈ as' → a ∈ l.
Proof.
  intros Hh [_ Hk]. induction ixs as [|i ixs IH]; intros His; [exists []; split; [cbn; lia|by intros ? ? ? ?%not_elem_of_nil]|].
  destruct IH as (l & Hl & Hin); [intros j Hj; apply His; by right|]. destruct (His i ltac:(by left)) as [c Hc].
  destruct (h_reads s σ Hh i c Hc) as (as' & Hp & <-). pose proof (Hk i _ Hc) as Hlen. rewrite (content_length _ _ _ Hp) in Hlen.
  exists (as' ++ l). split; [rewrite length_app; cbn [length]; lia|]. intros j as1 a [->|Hj]%elem_of_cons Hp1 Ha; apply elem_of_app.
  - left. by rewrite (path_det _ _ _ _ Hp Hp1).
  - right. by eapply Hin.
Qed.

Lemma holds_size s σ k : holds s σ → small k σ → (size (lists s) ≤ k)%nat ∧ (size (nodes s) ≤ k * k)%nat.
Proof.
  intros Hh Hk. assert (dom (lists s) = dom σ) as Hdom by (apply set_eq; intros i; rewrite !elem_of_dom; apply (h_dom s σ Hh)).
  assert (size (lists s) = size σ) as Hsz by (by rewrite <- !size_dom, Hdom). destruct Hk as [Hk1 Hk2]. split; [lia|].
  destruct (lists_nodes s σ k (map_to_list σ).*1 Hh) as (l & Hl & Hin); [done| |].
  { intros i Hi. apply list_elem_of_fmap in Hi as ([j c] & -> & Hj). apply elem_of_map_to_list in Hj. by eexists. }
  rewrite length_fmap, length_map_to_list in Hl. transitivity (length l); [|nia].
  rewrite <- (length_map_to_list (nodes s)), <- (length_fmap fst (map_to_list (nodes s))). apply submseteq_length, NoDup_submseteq; [apply NoDup_fst_map_to_list|].
  intros a Ha. apply list_elem_of_fmap in Ha as ([b n] & -> & Hb). apply elem_of_map_to_list in Hb. cbn [fst].
  destruct (inv_reached s (h_inv s σ Hh) b) as (i & as' & Hp & Hba); [by eexists|]. eapply (Hin i); [|exact Hp|done].
  assert (is_Some (σ !! i)) as [c Hc] by (apply (h_dom s σ Hh); apply path_ptr in Hp; exact Hp).
  apply list_elem_of_fmap. exists (i, c). split; [done|]. by apply elem_of_map_to_list.
Qed.

Lemma holds_room s σ k : holds s σ → small k σ → Z.of_nat k < 2 ^ 15 → room s.
Proof. intros Hh Hk Hlt. destruct (holds_size s σ k Hh Hk). unfold room. nia. Qed.

Lemma small_insert k σ i c : small k σ → is_Some (σ !! i) → (length c ≤ k)%nat → small k (<[i := c]> σ).
Proof.
  intros [Hs Hl] Hi Hc. split; [by rewrite map_size_insert_Some|]. intros j d. destruct (decide (i = j)) as [->|].
  - rewrite lookup_insert_eq. by intros [= <-].
  - rewrite lookup_insert_ne by done. apply Hl.
Qed.

Lemma small_new k σ i c : small k σ → (length c ≤ k)%nat → small (S k) (<[i := c]> σ).
Proof.
  intros [Hs Hl] Hc. split; [rewrite map_size_insert; destruct (σ !! i); cbn; unfold size in *; lia|]. intros j d. destruct (decide (i = j)) as [->|].
  - rewrite lookup_insert_eq. intros [= <-]. lia.
  - rewrite lookup_insert_ne by done. intros Hd. specialize (Hl j d Hd). lia.
Qed.

Lemma small_S k σ : small k σ → small (S k) σ.
Proof. intros [Hs Hl]. split; [lia|]. intros i c Hc. specialize (Hl i c Hc). lia. Qed.

(** ** Contents *)

Lemma taglist_content_app s as1 as2 : content s (as1 ++ as2) = content s as1 ++ content s as2.
Proof. apply omap_app. Qed.

Lemma content_cons s a as' x : shown s a = Some x → content s (a :: as') = x :: content s as'.
Proof. intros Hx. unfold content. cbn [omap list_omap]. by rewrite Hx. Qed.

Definition lacks (tid : Z) (c : tags) : Prop := Forall (λ x, x.1 ≠ tid) c.

Lemma find_app tid c1 x c2 : lacks tid c1 → x.1 = tid → find_tag tid (c1 ++ x :: c2) = Some x.2.
Proof.
  intros Hl Hx. induction Hl as [|y c1 Hy _ IH]; cbn [app find_tag]; [by rewrite (proj2 (Z.eqb_eq _ _) Hx)|].
  by rewrite (proj2 (Z.eqb_neq _ _) Hy).
Qed.

Lemma find_lacks tid c : lacks tid c → find_tag tid c = None.
Proof. induction 1 as [|x c Hx _ IH]; [done|]. cbn [find_tag]. by rewrite (proj2 (Z.eqb_neq _ _) Hx). Qed.

Lemma find_app_lacks tid c1 c2 : lacks tid c1 → find_tag tid (c1 ++ c2) = find_tag tid c2.
Proof. induction 1 as [|x c Hx _ IH]; [done|]. cbn [app find_tag]. by rewrite (proj2 (Z.eqb_neq _ _) Hx). Qed.

Lemma remove_app tid c1 x c2 : lacks tid c1 → x.1 = tid → remove_tag tid (c1 ++ x :: c2) = c1 ++ c2.
Proof.
  intros Hl Hx. induction Hl as [|y c1 Hy _ IH]; cbn [app remove_tag]; [by rewrite (proj2 (Z.eqb_eq _ _) Hx)|].
  rewrite (proj2 (Z.eqb_neq _ _) Hy). by f_equal.
Qed.

Lemma remove_none tid c : find_tag tid c = None → remove_tag tid c = c.
Proof. induction c as [|x c IH]; [done|]. cbn [find_tag remove_tag]. destruct (x.1 =? tid); [done|]. intros Hf. f_equal. by apply IH. Qed.

Lemma replace_app tag c1 x c2 : lacks (tag_tid tag) c1 → x.1 = tag_tid tag → replace_tag tag (c1 ++ x :: c2) = c1 ++ (tag_tid tag, tag_bytes tag) :: c2.
Proof.
  intros Hl Hx. induction Hl as [|y c1 Hy _ IH]; cbn [app replace_tag]; [rewrite (proj2 (Z.eqb_eq _ _) Hx); by rewrite Hx|].
  rewrite (proj2 (Z.eqb_neq _ _) Hy). by f_equal.
Qed.

Lemma shown_node s a n : nodes s !! a = Some n → shown s a = Some (t_tid n, t_data n).
Proof. intros Hn. unfold shown. by rewrite Hn. Qed.

Lemma lacks_content s tid pre : lacks tid (content s pre) ↔ ∀ a n, a ∈ pre → nodes s !! a = Some n → t_tid n ≠ tid.
Proof.
  unfold lacks. rewrite Forall_forall. split.
  - intros Hf a n Ha Hn. apply (Hf (t_tid n, t_data n)). apply list_elem_of_omap. exists a. split; [done|by apply shown_node].
  - intros Hf x Hx. apply list_elem_of_omap in Hx as (a & Ha & Hs). unfold shown in Hs. apply fmap_Some in Hs as (n & Hn & ->). by apply (Hf a n).
Qed.

Lemma data_whole s a n : inv s → nodes s !! a = Some n → take (Z.to_nat (t_size n)) (t_data n) = t_data n.
Proof.
  intros Hi Hn. destruct (iv_data s Hi a _ _ _ (tag_node s a n Hn)) as [-> _]. apply take_ge. unfold zlen. lia.
Qed.

(** ** The states stood for *)

Lemma holds_update s s' σ i c' :
  holds s σ → inv s' → only_list s s' i → is_Some (σ !! i) → reads s' i c' → holds s' (<[i := c']> σ).
Proof.
  intros Hh Hi [Ho Hd] Hsi Hr. constructor; [done| |].
  - intros j. rewrite Hd, (h_dom s σ Hh). destruct (decide (i = j)) as [->|]; [rewrite lookup_insert_eq; split; [by eexists|done]|by rewrite lookup_insert_ne].
  - intros j c. destruct (decide (i = j)) as [->|]; [rewrite lookup_insert_eq; by intros [= <-]|]. rewrite lookup_insert_ne by done.
    intros Hc. apply Ho; [done|]. by apply (h_reads s σ Hh).
Qed.

Lemma holds_same s s' σ i c : holds s σ → inv s' → only_list s s' i → σ !! i = Some c → reads s' i c → holds s' σ.
Proof. intros Hh Hi Ho Hc Hr. rewrite <- (insert_id σ i c Hc). eapply holds_update; done. Qed.

Lemma holds_list s σ i c : holds s σ → σ !! i = Some c → ∃ p as', list_at i s = Ok p ∧ ptr s (Head i) = Some p ∧ path s (Head i) as' ∧ content s as' = c.
Proof.
  intros Hh Hc. destruct (h_reads s σ Hh i c Hc) as (as' & Hp & Hcc). destruct (path_ptr _ _ _ Hp) as [p Hptr].
  exists p, as'. split; [|done]. unfold list_at. cbn [ptr] in Hptr. by rewrite Hptr.
Qed.

Lemma share_is p s : (∀ a, p = Some a → is_Some (nodes s !! a)) → share p s = Ok (bump p s).
Proof. intros Hp. destruct p as [a|]; [|done]. destruct (Hp a eq_refl) as [n Hn]. by apply (inc_count_is a s n). Qed.

Lemma fresh_none s : nodes s !! fresh (dom (nodes s)) = None.
Proof. apply not_elem_of_dom, is_fresh. Qed.

(** ** The searches *)

Lemma exists_ok s tid : inv s → ∀ as' fuel l p, path s l as' → ptr s l = Some p → (length as' < fuel)%nat → exists_loop fuel tid p s = Ok (find_tag tid (content s as')).
Proof.
  intros Hinv. induction as' as [|a as' IH]; intros fuel l p Hp Hl Hf; inversion Hp as [? Hl'|? ? ? Hl' Hp']; subst; rewrite Hl' in Hl; injection Hl as <-.
  - by destruct fuel.
  - destruct fuel as [|fuel]; [lia|]. assert (is_Some (nodes s !! a)) as [n Hn] by (eapply path_node; [exact Hp|by left]).
    cbn [exists_loop]. unfold node_at. rewrite Hn. res_simpl. rewrite (content_cons _ _ _ _ (shown_node s a n Hn)). cbn [find_tag fst snd].
    destruct (t_tid n =? tid); [by rewrite (data_whole s a n)|]. apply (IH fuel (NextOf a)); [done| |cbn in Hf; lia]. cbn [ptr]. by rewrite Hn.
Qed.

(** What the search up to the first shared node has found. *)
Definition searched s (tid : Z) (l : place) (as' : list positive) (r : search) : Prop :=
  ∃ pre, Forall (sole s) pre ∧ lacks tid (content s pre) ∧
    match r with
    | NotFound => as' = pre
    | Merge cur at_ => at_ = last_place l pre ∧ ∃ rest n, as' = pre ++ cur :: rest ∧ nodes s !! cur = Some n ∧ 1 < t_count n
    | Found cur at_ => at_ = last_place l pre ∧ ∃ rest n, as' = pre ++ cur :: rest ∧ nodes s !! cur = Some n ∧ sole s cur ∧ t_tid n = tid
    end.

Lemma search_ok s tid : inv s → ∀ as' fuel l p, path s l as' → ptr s l = Some p → (length as' < fuel)%nat → ∃ r, search_loop fuel tid p l s = Ok r ∧ searched s tid l as' r.
Proof.
  intros Hinv. induction as' as [|a as' IH]; intros fuel l p Hp Hl Hf; inversion Hp as [? Hl'|? ? ? Hl' Hp']; subst; rewrite Hl' in Hl; injection Hl as <-.
  - exists NotFound. split; [by destruct fuel|]. exists []. split; [constructor|]. split; [constructor|done].
  - destruct fuel as [|fuel]; [lia|]. assert (is_Some (nodes s !! a)) as [n Hn] by (eapply path_node; [exact Hp|by left]).
    cbn [search_loop]. unfold node_at. rewrite Hn. res_simpl. destruct (Z.ltb_spec 1 (t_count n)) as [Hc|Hc].
    { exists (Merge a l). split; [done|]. exists []. split; [constructor|]. split; [constructor|]. split; [done|]. by exists as', n. }
    pose proof (node_sole s a n Hinv Hn Hc) as Hs. destruct (Z.eqb_spec (t_tid n) tid) as [Ht|Ht].
    { exists (Found a l). split; [done|]. exists []. split; [constructor|]. split; [constructor|]. split; [done|]. by exists as', n. }
    destruct (IH fuel (NextOf a) (t_next n)) as (r & Hr & pre & Hpre & Hlk & Hm); [done|cbn [ptr]; by rewrite Hn|cbn in Hf; lia|].
    exists r. split; [done|]. exists (a :: pre). split; [by constructor|]. split.
    { rewrite (content_cons _ _ _ _ (shown_node s a n Hn)). by constructor. }
    destruct r as [|cur at_|cur at_]; cbv beta iota in Hm |- *; [by f_equal| |]; rewrite last_place_cons; destruct Hm as (-> & rest & nc & -> & Hm); split; try done; by exists rest, nc.
Qed.

(** ** Copying *)

Lemma put_put a n m s : put_node a n (put_node a m s) = put_node a n s.
Proof. unfold put_node. cbn [nodes lists]. by rewrite insert_insert_eq. Qed.

Lemma create_is z s : z < 2 ^ 32 - 1 → CreateTagData z s = Ok (fresh (dom (nodes s)), put_node (fresh (dom (nodes s))) (mkTagData None 0 0 z (replicate (Z.to_nat z) 0)) s).
Proof. intros Hz. unfold CreateTagData. by rewrite (proj2 (Z.ltb_lt _ _) Hz). Qed.

Lemma recount_none f a s b : nodes (recount f a s) !! b = None → nodes s !! b = None.
Proof.
  unfold recount. cbn [nodes]. destruct (decide (a = b)) as [->|]; [rewrite lookup_alter_eq|by rewrite lookup_alter_ne]. by destruct (nodes s !! b).
Qed.

Lemma recount_some f a s b n : nodes s !! b = Some n → is_Some (nodes (recount f a s) !! b).
Proof.
  intros Hn. unfold recount. cbn [nodes]. destruct (decide (a = b)) as [->|]; [rewrite lookup_alter_eq, Hn; by eexists|rewrite lookup_alter_ne, Hn by done; by eexists].
Qed.

Lemma put_node_some a m s b : is_Some (nodes s !! b) → is_Some (nodes (put_node a m s) !! b).
Proof.
  intros Hn. unfold put_node. cbn [nodes]. destruct (decide (a = b)) as [->|]; [rewrite lookup_insert_eq; by eexists|by rewrite lookup_insert_ne].
Qed.

Lemma next_some s i pre cur rest n b : inv s → path s (Head i) (pre ++ cur :: rest) → nodes s !! cur = Some n → t_next n = Some b → is_Some (nodes s !! b).
Proof. intros Hi _ Hn Hb. apply (inv_target s (NextOf cur)); [done|]. cbn [ptr]. by rewrite Hn, <- Hb. Qed.

Definition dec : Z → Z := λ c, u32 (c - 1).

Section copy_code.
Context s (i : nat) (pre : list positive) (cur : positive) (rest : list positive) (n : TagData) (z t' z' : Z) (d' : list Z)
  (Hinv : inv s) (Hp : path s (Head i) (pre ++ cur :: rest)) (Hn : nodes s !! cur = Some n) (Hz : z < 2 ^ 32 - 1).
Let s1 := recount dec cur s.
Let copy := fresh (dom (nodes s1)).
Let s2 := put_node copy (mkTagData None 0 0 z (replicate (Z.to_nat z) 0)) s1.
Let s3 := put_node copy (mkTagData (t_next n) 1 t' z' d') s1.

Lemma copy_code :
  nodes s !! copy = None ∧ dec_count cur s = Ok s1 ∧ CreateTagData z s1 = Ok (copy, s2) ∧ put_node copy (mkTagData (t_next n) 1 t' z' d') s2 = s3 ∧
  node_at cur s2 = Ok (set_count (dec (t_count n)) n) ∧ share (t_next n) s3 = Ok (bump (t_next n) s3) ∧
  write_place (last_place (Head i) pre) (Some copy) (bump (t_next n) s3) = Ok (redirect (last_place (Head i) pre) (Some copy) (bump (t_next n) s3)).
Proof using Hinv Hp Hn Hz.
  assert (nodes s !! copy = None) as Hcopy by (apply (recount_none dec cur), fresh_none).
  split; [done|]. split; [by apply (dec_count_is cur s n)|]. split; [by apply create_is|]. split; [apply put_put|]. split; [|split].
  - unfold node_at, s2, put_node. cbn [nodes]. rewrite lookup_insert_ne by congruence. unfold s1, recount. cbn [nodes]. by rewrite lookup_alter_eq, Hn.
  - apply share_is. intros b Hb. apply put_node_some. destruct (next_some s i pre cur rest n b Hinv Hp Hn Hb) as [nb Hnb]. by apply (recount_some dec cur s b nb).
  - apply write_place_is. rewrite ptr_bump. unfold s3. rewrite ptr_new. destruct (decide _); [by eexists|]. unfold s1. rewrite ptr_recount.
    exact (path_ptr _ _ _ (path_app _ _ _ _ Hp)).
Qed.
End copy_code.

Lemma content_swap s s' i pre cur copy rest x :
  path s (Head i) (pre ++ cur :: rest) → copy ∉ pre ++ rest → (∀ a, a ≠ copy → shown s' a = shown s a) → shown s' copy = Some x →
  content s' (pre ++ copy :: rest) = content s pre ++ x :: content s rest ∧ content s' pre = content s pre.
Proof.
  intros Hp Hc Hsh Hx. rewrite not_elem_of_app in Hc. destruct Hc as [Hc1 Hc2].
  assert (content s' pre = content s pre) as E by (apply content_ext; intros a Ha; apply Hsh; congruence). split; [|done].
  rewrite taglist_content_app, (content_cons _ _ _ _ Hx), E. do 2 f_equal. apply content_ext. intros a Ha. apply Hsh. congruence.
Qed.

Lemma path_absent s l as1 a as2 copy : path s l (as1 ++ a :: as2) → nodes s !! copy = None → copy ∉ as1 ++ as2.
Proof.
  intros Hp Hc Hin. destruct (path_node s l _ copy Hp) as [nc Hnc]; [|congruence]. apply elem_of_app in Hin as [?|?]; apply elem_of_app; [by left|right; by right].
Qed.

Lemma path_inv s l a as' : path s l (a :: as') → ptr s l = Some (Some a) ∧ path s (NextOf a) as'.
Proof. by inversion 1. Qed.

(** A list [i] of a state with few lists, and the tag looked for. *)
Section one_list.
Context σ (k i : nat) (c : tags) (tid : Z) (Hk : small k σ) (Hlt : Z.of_nat k < 2 ^ 15) (Hc : σ !! i = Some c).

(** The nodes [pre] before [as'] are on list [i] only, and have other tags. *)
Record at_place s (pre as' : list positive) : Prop := {
  ap_holds : holds s σ;
  ap_path : path s (Head i) (pre ++ as');
  ap_sole : Forall (sole s) pre;
  ap_lacks : lacks tid (content s pre)
}.

Lemma at_content s pre as' : at_place s pre as' → c = content s pre ++ content s as'.
Proof using Hc.
  intros [Hh Hp _ _]. destruct (h_reads s σ Hh i c Hc) as (as1 & H1 & <-). by rewrite (path_det _ _ _ _ H1 Hp), taglist_content_app.
Qed.

(** A shared node without the tag is copied. *)
Lemma copy_step s pre cur rest n :
  at_place s pre (cur :: rest) → nodes s !! cur = Some n → 1 < t_count n → t_tid n ≠ tid → rest ≠ [] →
  ∃ s' next rest' nb, rest = next :: rest' ∧ at_place s' (pre ++ [fresh (dom (nodes (recount dec cur s)))]) rest ∧ nodes s' !! next = Some nb ∧ 1 < t_count nb ∧
    ∀ fuel, copy_loop (S fuel) tid cur (last_place (Head i) pre) s = copy_loop fuel tid next (NextOf (fresh (dom (nodes (recount dec cur s))))) s'.
Proof using Hk Hlt Hc.
  intros Hat Hn Hcn Ht Hrest. destruct Hat as [Hh Hp Hs Hl] eqn:E. pose proof (at_content _ _ _ Hat) as Hcont. clear E. pose proof (h_inv s σ Hh) as Hinv.
  destruct (iv_data s Hinv cur _ _ _ (tag_node s cur n Hn)) as [Hz Hz32].
  destruct (copy_code s i pre cur rest n (t_size n) (t_tid n) (t_size n) (take (Z.to_nat (t_size n)) (t_data n)) Hinv Hp Hn Hz32) as (Hf & Hdec & Hcr & Hput & Hat2 & Hsh & Hw).
  set (copy := fresh _) in *.
  destruct (taglist_copy_ok s i pre cur rest n copy (t_tid n) (t_size n) (take (Z.to_nat (t_size n)) (t_data n)) Hinv (holds_room s σ k Hh Hk Hlt) Hp Hs Hn Hcn Hf) as (Hinv' & Hp' & Hs' & Ho & Hsh1 & Hsh2 & Hnext).
  { by rewrite (data_whole s cur n). }
  change (λ c, u32 (c - 1)) with dec in *. set (s' := redirect _ _ _) in *.
  assert (ptr s (NextOf cur) = Some (t_next n)) as Hpn by (cbn [ptr]; by rewrite Hn).
  destruct (path_inv _ _ _ _ (path_app _ _ _ _ Hp)) as [_ Hr].
  destruct rest as [|next rest']; [done|]. destruct (path_inv _ _ _ _ Hr) as [Hl1 Hr1]. rewrite Hpn in Hl1. injection Hl1 as Hnx.
  assert (is_Some (nodes s' !! next)) as [nb Hnb] by (eapply path_node; [exact Hp'|apply elem_of_app; right; right; by left]).
  destruct (content_swap s s' i pre cur copy (next :: rest') _ Hp (path_absent _ _ _ _ _ _ Hp Hf) Hsh1 Hsh2) as [Hc1 Hc2]. rewrite (data_whole s cur n) in Hc1 by done.
  exists s', next, rest', nb. split; [done|]. split; [|split; [done|split; [by apply (Hnext next)|]]].
  - assert (path s' (Head i) ((pre ++ [copy]) ++ next :: rest')) as Hp2 by (by rewrite <- app_assoc).
    constructor; [|done|done|].
    + apply (holds_same s s' σ i c); try done. exists (pre ++ copy :: next :: rest'). split; [done|]. rewrite Hc1, Hcont.
      by rewrite (content_cons _ _ _ _ (shown_node s cur n Hn)).
    + rewrite taglist_content_app, Hc2. apply Forall_app. split; [done|]. rewrite (content_cons _ _ _ _ Hsh2). by constructor.
  - intros fuel. cbn [copy_loop]. unfold node_at at 1. rewrite Hn. res_simpl. rewrite (proj2 (Z.eqb_neq _ _) Ht), (proj2 (Z.ltb_lt _ _) Hcn). cbn [negb].
    rewrite Hdec. res_simpl. rewrite Hcr. res_simpl. rewrite Hput. rewrite Hnx in *. cbn [deref]. res_simpl. cbn [share] in Hsh. rewrite Hsh. res_simpl. rewrite Hw. res_simpl. done.
Qed.

Lemma copy_loop_ok : ∀ rest fuel s pre cur n,
  at_place s pre (cur :: rest) → nodes s !! cur = Some n → 1 < t_count n → find_tag tid (content s (cur :: rest)) ≠ None → (length rest ≤ fuel)%nat →
  ∃ s' pre' cur' rest' n', copy_loop fuel tid cur (last_place (Head i) pre) s = Ok (cur', last_place (Head i) pre', s') ∧
    at_place s' pre' (cur' :: rest') ∧ nodes s' !! cur' = Some n' ∧ 1 < t_count n' ∧ t_tid n' = tid.
Proof using Hk Hlt Hc.
  induction rest as [|b rest IH]; intros fuel s pre cur n Hat Hn Hcn Hf Hlen; rewrite (content_cons _ _ _ _ (shown_node s cur n Hn)) in Hf; cbn [find_tag fst snd] in Hf.
  all: destruct (Z.eqb_spec (t_tid n) tid) as [Ht|Ht];
    [exists s, pre, cur; eexists; exists n; split; [|done]; destruct fuel; cbn [copy_loop]; unfold node_at; rewrite Hn; res_simpl; by rewrite (proj2 (Z.eqb_eq _ _) Ht)|].
  - done.
  - destruct fuel as [|fuel]; [cbn in Hlen; lia|].
    destruct (copy_step s pre cur (b :: rest) n Hat Hn Hcn Ht) as (s1 & next & rest' & nb & [= <- <-] & Hat1 & Hnb & Hcb & Hcode); [done|].
    rewrite Hcode, <- (last_place_snoc (Head i) pre). apply (IH fuel s1 _ b nb); [done|done|done| |cbn in Hlen; lia].
    pose proof (at_content _ _ _ Hat) as E0. rewrite (at_content _ _ _ Hat1) in E0.
    rewrite (content_cons _ _ _ _ (shown_node s cur n Hn)) in E0.
    apply (f_equal (find_tag tid)) in E0. rewrite find_app_lacks, find_app_lacks in E0 by apply Hat1 || apply Hat. cbn [find_tag fst] in E0.
    rewrite (proj2 (Z.eqb_neq _ _) Ht) in E0. by rewrite E0.
Qed.

(** The node with the tag, when the writer is called. *)
Definition at_tag s (pre : list positive) (cur : positive) (rest : list positive) (n : TagData) (preMerge : bool) : Prop :=
  at_place s pre (cur :: rest) ∧ nodes s !! cur = Some n ∧ t_tid n = tid ∧ if preMerge then sole s cur else 1 < t_count n.

Lemma at_tag_content s pre cur rest n b : at_tag s pre cur rest n b → c = content s pre ++ (tid, t_data n) :: content s rest.
Proof using Hc. intros (Hat & Hn & Ht & _). rewrite (at_content _ _ _ Hat). by rewrite (content_cons _ _ _ _ (shown_node s cur n Hn)), Ht. Qed.

Lemma traverse_ok s fuel b (Writer : COWWriter) :
  holds s σ → (length c < fuel)%nat →
  match find_tag tid c with
  | Some _ =>
    ∃ s1 pre cur rest n preMerge, at_tag s1 pre cur rest n preMerge ∧
      COWTraverse fuel (mkTag tid b) Writer i s = ('(d, s2) ← Writer (mkTag tid b) preMerge cur (last_place (Head i) pre) s1; Ok (Some d, s2))
  | None => COWTraverse fuel (mkTag tid b) Writer i s = Ok (None, s)
  end.
Proof using Hk Hlt Hc.
  intros Hh Hfuel. destruct (holds_list s σ i c Hh Hc) as (p & as' & Hli & Hptr & Hp & Hcc). pose proof (h_inv s σ Hh) as Hinv.
  assert (length as' < fuel)%nat as Hf by (rewrite <- (content_length _ _ _ Hp); by rewrite Hcc).
  destruct (search_ok s tid Hinv as' fuel (Head i) p Hp Hptr Hf) as (r & Hr & pre & Hpre & Hlk & Hm).
  unfold COWTraverse. rewrite Hli. res_simpl. cbn [tag_tid]. rewrite Hr. res_simpl. destruct r as [|cur at_|cur at_].
  - rewrite <- Hcc, Hm, (find_lacks _ _ Hlk). done.
  - destruct Hm as (-> & rest & n & E & Hn & Hcn). rewrite E in *.
    assert (find_tag tid c = find_tag tid (content s (cur :: rest))) as Hfind by (by rewrite <- Hcc, taglist_content_app, find_app_lacks).
    assert (exists_loop fuel tid (Some cur) s = Ok (find_tag tid c)) as Hex.
    { rewrite Hfind. pose proof (path_app _ _ _ _ Hp) as Hpa. destruct (path_inv _ _ _ _ Hpa) as [Hl _].
      apply (exists_ok s tid Hinv (cur :: rest) fuel _ _ Hpa Hl). rewrite length_app in Hf. lia. }
    rewrite Hex. res_simpl. destruct (find_tag tid c) as [d|] eqn:Ef; [|done].
    destruct (copy_loop_ok rest fuel s pre cur n) as (s1 & pre1 & cur1 & rest1 & n1 & Hcode & Hat & Hn1 & Hc1 & Ht1); [by constructor|done|done|by rewrite <- Hfind|rewrite length_app in Hf; cbn in Hf; lia|].
    exists s1, pre1, cur1, rest1, n1, false. split; [done|]. rewrite Hcode. res_simpl. unfold node_at. rewrite Hn1. res_simpl. by rewrite (proj2 (Z.ltb_lt _ _) Hc1).
  - destruct Hm as (-> & rest & n & -> & Hn & Hs & Ht).
    assert (at_tag s pre cur rest n true) as Hat by (split; [by constructor|done]).
    rewrite (at_tag_content _ _ _ _ _ _ Hat), find_app by done. by exists s, pre, cur, rest, n, true.
Qed.

Lemma RemoveWriter_ok s pre cur rest n preMerge b :
  at_tag s pre cur rest n preMerge →
  ∃ s', RemoveWriter (mkTag tid b) preMerge cur (last_place (Head i) pre) s = Ok (t_data n, s') ∧ holds s' (<[i := remove_tag tid c]> σ).
Proof using Hk Hlt Hc.
  intros Hat0. pose proof (at_tag_content _ _ _ _ _ _ Hat0) as Hcont. destruct Hat0 as ([Hh Hp Hs Hl] & Hn & Ht & Hm). pose proof (h_inv s σ Hh) as Hinv.
  pose proof (holds_room s σ k Hh Hk Hlt) as Hroom. destruct (path_inv _ _ _ _ (path_app _ _ _ _ Hp)) as [HL Hrest].
  assert (remove_tag tid c = content s (pre ++ rest)) as Hrem by (rewrite Hcont, taglist_content_app; by apply remove_app).
  assert (cur ∉ pre ++ rest) as Hcur.
  { intros [Hin|Hin]%elem_of_app; [|by apply (path_acyclic _ _ _ Hrest)]. pose proof (path_NoDup _ _ _ Hp) as (_ & Hd & _)%NoDup_app. apply (Hd cur Hin). by left. }
  unfold RemoveWriter. unfold node_at at 1. rewrite Hn. res_simpl. rewrite (data_whole s cur n), write_place_is by (done || by rewrite HL). res_simpl. destruct preMerge.
  - destruct (unlink_sole_ok s i pre cur rest n Hinv Hroom Hp Hs Hn Hm) as (Hi' & Hp' & Ho & Hsh & _). eexists. split; [reflexivity|].
    apply (holds_update s _ σ i _ Hh Hi' Ho); [by eexists|]. eexists. split; [exact Hp'|]. rewrite Hrem. apply content_ext. intros a Ha. apply Hsh. congruence.
  - destruct (unlink_shared_ok s i pre cur rest n Hinv Hroom Hp Hs Hn Hm) as (Hi' & Hp' & Ho & Hsh).
    assert (cnt_of (redirect (last_place (Head i) pre) (t_next n) s) cur = Some (t_count n)) as (n1 & Hn1 & _)%fmap_Some by (rewrite cnt_redirect; unfold cnt_of; by rewrite Hn).
    rewrite (dec_count_is cur _ n1 Hn1). res_simpl. change (match t_next n with Some next => inc_count next ?x | None => Ok ?x end) with (share (t_next n) x).
    rewrite share_is.
    + res_simpl. eexists. split; [reflexivity|]. apply (holds_update s _ σ i _ Hh Hi' Ho); [by eexists|]. eexists. split; [exact Hp'|]. rewrite Hrem. apply content_ext. auto.
    + intros b' Hb. destruct (next_some s i pre cur rest n b' Hinv Hp Hn Hb) as [nb Hnb].
      assert (cnt_of (redirect (last_place (Head i) pre) (t_next n) s) b' = Some (t_count nb)) as (n2 & Hn2 & _)%fmap_Some by (rewrite cnt_redirect; unfold cnt_of; by rewrite Hnb).
      by apply (recount_some _ _ _ _ n2).
Qed.

(** Written over the old value. *)
Lemma ReplaceWriter_own s pre cur rest n b :
  at_tag s pre cur rest n true → zlen b ≤ zlen (t_data n) →
  ∃ s', ReplaceWriter (mkTag tid b) true cur (last_place (Head i) pre) s = Ok (b, s') ∧
    holds s' (<[i := replace_tag (mkTag tid (b ++ drop (length b) (t_data n))) c]> σ).
Proof using Hk Hlt Hc.
  intros Hat0 Hb. pose proof (at_tag_content _ _ _ _ _ _ Hat0) as Hcont. destruct Hat0 as ([Hh Hp Hs Hl] & Hn & Ht & Hm). pose proof (h_inv s σ Hh) as Hinv.
  set (d := b ++ drop (length b) (t_data n)). assert (zlen d = zlen (t_data n)) as Hd by (unfold d, zlen in *; rewrite length_app, length_drop; lia).
  assert (replace_tag (mkTag tid d) c = content s pre ++ (tid, d) :: content s rest) as Hrep by (rewrite Hcont; by apply (replace_app (mkTag tid d))).
  unfold ReplaceWriter. cbn [tag_bytes tag_tid]. unfold node_at. rewrite Hn. res_simpl. unfold serialize_into. rewrite (proj2 (Z.ltb_ge _ _)) by done. res_simpl. fold d.
  eexists. split; [reflexivity|].
  destruct (rewrite_ok s i pre cur rest n d Hinv Hp) as (Hi' & Hp' & Ho & Hsh & Hx); [apply Forall_app; split; [done|by apply Forall_singleton]|done|done|].
  apply (holds_update s _ σ i _ Hh Hi' Ho); [by eexists|]. eexists. split; [exact Hp'|]. rewrite Hrep, <- Ht.
  apply (content_swap s _ i pre cur cur rest); [done| |done|done]. intros [Hin|Hin]%elem_of_app.
  + pose proof (path_NoDup _ _ _ Hp) as (_ & Hdj & _)%NoDup_app. apply (Hdj cur Hin). by left.
  + destruct (path_inv _ _ _ _ (path_app _ _ _ _ Hp)) as [_ Hr]. by apply (path_acyclic _ _ _ Hr).
Qed.

Lemma ReplaceWriter_too_long s pre cur rest n b :
  at_tag s pre cur rest n true → zlen (t_data n) < zlen b → ReplaceWriter (mkTag tid b) true cur (last_place (Head i) pre) s = Err NsAssert.
Proof.
  intros (_ & Hn & _) Hb. unfold ReplaceWriter. cbn [tag_bytes tag_tid]. unfold node_at. rewrite Hn. res_simpl. unfold serialize_into. by rewrite (proj2 (Z.ltb_lt _ _)).
Qed.

(** Put in a new node. *)
Lemma ReplaceWriter_copy s pre cur rest n b :
  at_tag s pre cur rest n false → zlen b < 2 ^ 32 - 1 →
  ∃ s', ReplaceWriter (mkTag tid b) false cur (last_place (Head i) pre) s = Ok (b, s') ∧ holds s' (<[i := replace_tag (mkTag tid b) c]> σ).
Proof using Hk Hlt Hc.
  intros Hat0 Hb32. pose proof (at_tag_content _ _ _ _ _ _ Hat0) as Hcont. destruct Hat0 as ([Hh Hp Hs Hl] & Hn & Ht & Hm). pose proof (h_inv s σ Hh) as Hinv.
  assert (replace_tag (mkTag tid b) c = content s pre ++ (tid, b) :: content s rest) as Hrep by (rewrite Hcont; by apply (replace_app (mkTag tid b))).
  unfold ReplaceWriter. cbn [tag_bytes tag_tid].
  destruct (copy_code s i pre cur rest n (zlen b) tid (zlen b) b Hinv Hp Hn Hb32) as (Hf & Hdec & Hcr & Hput & Hat2 & Hsh & Hw).
  rewrite Hdec. res_simpl. rewrite Hcr. res_simpl. rewrite Hat2. res_simpl. cbn [set_count t_next]. rewrite Hput.
  change (match t_next n with Some next => inc_count next ?x | None => Ok ?x end) with (share (t_next n) x). rewrite Hsh. res_simpl. rewrite Hw. res_simpl.
  eexists. split; [reflexivity|]. set (copy := fresh _) in *.
  destruct (taglist_copy_ok s i pre cur rest n copy tid (zlen b) b Hinv (holds_room s σ k Hh Hk Hlt) Hp Hs Hn Hm Hf) as (Hi' & Hp' & _ & Ho & Hsh1 & Hsh2 & _); [done|].
  apply (holds_update s _ σ i _ Hh Hi' Ho); [by eexists|]. eexists. split; [exact Hp'|]. rewrite Hrep.
  by apply (content_swap s _ i pre cur copy rest _ Hp (path_absent _ _ _ _ _ _ Hp Hf)).
Qed.

Lemma create_too_long z s : ¬ z < 2 ^ 32 - 1 → CreateTagData z s = Err NsAssert.
Proof. intros Hz. unfold CreateTagData. by rewrite (proj2 (Z.ltb_ge _ _)) by lia. Qed.

Lemma ReplaceWriter_no_room s pre cur rest n b :
  at_tag s pre cur rest n false → ¬ zlen b < 2 ^ 32 - 1 → ReplaceWriter (mkTag tid b) false cur (last_place (Head i) pre) s = Err NsAssert.
Proof.
  intros (_ & Hn & _) Hb. unfold ReplaceWriter. cbn [tag_bytes tag_tid]. rewrite (dec_count_is cur s n Hn). res_simpl. by rewrite create_too_long.
Qed.

Lemma taglist_Remove_ok s fuel :
  holds s σ → (length c < fuel)%nat → ∃ s', Remove fuel (mkTag tid []) i s = Ok (find_tag tid c, s') ∧ holds s' (<[i := remove_tag tid c]> σ).
Proof using Hk Hlt Hc.
  intros Hh Hf. pose proof (traverse_ok s fuel [] RemoveWriter Hh Hf) as Ht. unfold Remove. destruct (find_tag tid c) as [d|] eqn:Ef.
  - destruct Ht as (s1 & pre & cur & rest & n & pm & Hat & ->). destruct (RemoveWriter_ok s1 pre cur rest n pm [] Hat) as (s' & -> & Hh'). res_simpl.
    exists s'. split; [|done]. pose proof (at_tag_content _ _ _ _ _ _ Hat) as Hcont. destruct Hat as (Hat & _).
    rewrite Hcont, find_app in Ef by (done || apply Hat). by injection Ef as <-.
  - rewrite Ht. exists s. split; [done|]. by rewrite remove_none, insert_id by done.
Qed.

Lemma Peek_ok s fuel : holds s σ → (length c < fuel)%nat → Peek fuel tid i s = Ok (find_tag tid c).
Proof using Hk Hlt Hc.
  intros Hh Hf. destruct (holds_list s σ i c Hh Hc) as (p & as' & Hli & Hptr & Hp & Hcc). unfold Peek. rewrite Hli. res_simpl.
  rewrite <- Hcc. apply (exists_ok s tid (h_inv s σ Hh) as' fuel (Head i)); [done|done|]. rewrite <- (content_length _ _ _ Hp). by rewrite Hcc.
Qed.

Lemma taglist_Add_ok s fuel b :
  holds s σ → (length c < fuel)%nat → find_tag tid c = None → zlen b < 2 ^ 32 - 1 →
  ∃ s', Add fuel (mkTag tid b) i s = Ok s' ∧ holds s' (<[i := (tid, b) :: c]> σ).
Proof using Hk Hlt Hc.
  intros Hh Hf Hn Hb. destruct (holds_list s σ i c Hh Hc) as (p & as' & Hli & Hptr & Hp & Hcc).
  pose proof (Peek_ok s fuel Hh Hf) as Hpeek. unfold Peek in Hpeek. rewrite Hli in Hpeek. cbn in Hpeek.
  unfold Add. rewrite Hli. cbn [tag_tid tag_bytes]. res_simpl. rewrite Hpeek, Hn. res_simpl. rewrite create_is by done. res_simpl. rewrite put_put. eexists. split; [reflexivity|].
  destruct (push_ok s i p as' (fresh (dom (nodes s))) tid (zlen b) b (h_inv s σ Hh) Hptr Hp (fresh_none s) (conj eq_refl Hb)) as (Hi' & Hp' & Hr & Hcc').
  apply (holds_update s _ σ i _ Hh Hi'); [|by eexists|].
  - split; [exact Hr|]. intros j. cbn [put_list lists put_node]. destruct (decide (i = j)) as [->|]; [|by rewrite lookup_insert_ne].
    rewrite lookup_insert_eq. cbn [ptr] in Hptr. rewrite Hptr. split; by eexists.
  - eexists. split; [exact Hp'|]. by rewrite Hcc', Hcc.
Qed.

Lemma Add_any s fuel b :
  holds s σ → (length c < fuel)%nat →
  match match find_tag tid c with None => spec_add (mkTag tid b) i c σ | Some _ => Err NsAssert end with
  | Ok (_, σ') => ∃ s', Add fuel (mkTag tid b) i s = Ok s' ∧ holds s' σ'
  | Err e => Add fuel (mkTag tid b) i s = Err e
  end.
Proof using Hk Hlt Hc.
  intros Hh Hf. destruct (holds_list s σ i c Hh Hc) as (p & as' & Hli & Hptr & Hp & Hcc).
  assert (exists_loop fuel tid p s = Ok (find_tag tid c)) as Hex.
  { rewrite <- Hcc. apply (exists_ok s tid (h_inv s σ Hh) as' fuel (Head i)); [done|done|]. rewrite <- (content_length _ _ _ Hp). by rewrite Hcc. }
  destruct (find_tag tid c) eqn:Ef.
  - unfold Add. rewrite Hli. res_simpl. cbn [tag_tid]. by rewrite Hex.
  - unfold spec_add. cbn [tag_tid tag_bytes]. case_bool_decide as Hb; [by apply taglist_Add_ok|].
    unfold Add. rewrite Hli. res_simpl. cbn [tag_tid tag_bytes]. rewrite Hex. res_simpl. by rewrite create_too_long.
Qed.

Lemma Replace_ok s fuel b :
  holds s σ → (length c < fuel)%nat →
  ∃ shared, match match find_tag tid c with None => spec_add (mkTag tid b) i c σ | Some old => spec_replace shared (mkTag tid b) i c old σ end with
  | Ok (a, σ') => ∃ s', Replace fuel (mkTag tid b) i s = Ok (a, s') ∧ holds s' σ'
  | Err e => Replace fuel (mkTag tid b) i s = Err e
  end.
Proof using Hk Hlt Hc.
  intros Hh Hf. pose proof (traverse_ok s fuel b ReplaceWriter Hh Hf) as Ht. unfold Replace. destruct (find_tag tid c) as [d|] eqn:Ef.
  - destruct Ht as (s1 & pre & cur & rest & n & pm & Hat & ->).
    pose proof (at_tag_content _ _ _ _ _ _ Hat) as Hcont. pose proof Hat as (Hat1 & _). rewrite Hcont, find_app in Ef by (done || apply Hat1). injection Ef as Ed. cbn [snd] in Ed. subst d.
    exists (negb pm). unfold spec_replace. cbn [tag_tid tag_bytes]. destruct pm; cbn [negb]; case_bool_decide as Hb.
    + destruct (ReplaceWriter_own s1 pre cur rest n b Hat Hb) as (s' & -> & Hh'). res_simpl. by exists s'.
    + by rewrite (ReplaceWriter_too_long s1 pre cur rest n b Hat ltac:(lia)).
    + destruct (ReplaceWriter_copy s1 pre cur rest n b Hat Hb) as (s' & -> & Hh'). res_simpl. by exists s'.
    + by rewrite (ReplaceWriter_no_room s1 pre cur rest n b Hat Hb).
  - exists false. rewrite Ht. res_simpl. pose proof (Add_any s fuel b Hh Hf) as Ha. rewrite Ef in Ha. unfold spec_add in *. cbn [tag_tid tag_bytes] in *.
    case_bool_decide; [destruct Ha as (s' & -> & Hh'); res_simpl; by exists s'|by rewrite Ha].
Qed.
End one_list.

(** ** Giving up a list

    Meanwhile one node, already off the list, waits to be freed, and the list still has its first
    pointer [p0]. *)

Definition limbo (q : option (positive * TagData)) (i : nat) (p0 : option positive) s : memory :=
  mkMemory (match q with Some (a, n) => <[a := n]> (nodes s) | None => nodes s end) (<[i := p0]> (lists s)).
Definition waits (q : option (positive * TagData)) s : Prop := ∀ a n, q = Some (a, n) → nodes s !! a = None.

Lemma limbo_node q i p0 s a n : waits q s → nodes s !! a = Some n → nodes (limbo q i p0 s) !! a = Some n.
Proof.
  intros Hq Hn. destruct q as [[b m]|]; [|done]. cbn [limbo nodes]. rewrite lookup_insert_ne; [done|]. intros ->. rewrite (Hq a m) in Hn; done.
Qed.

Lemma free_limbo q i p0 s a n : waits q s → nodes s !! a = Some n → free_prev (fst <$> q) (recount dec a (limbo q i p0 s)) = recount dec a (limbo None i p0 s).
Proof.
  intros Hq Hn. destruct q as [[b m]|]; [|done]. cbn [free_prev fmap option_fmap option_map fst]. unfold free, recount, limbo. cbn [nodes lists]. f_equal.
  specialize (Hq b m eq_refl). apply map_eq. intros x. destruct (decide (b = x)) as [->|Hbx].
  - rewrite lookup_delete_eq, lookup_alter_ne by congruence. done.
  - rewrite lookup_delete_ne by done. destruct (decide (a = x)) as [->|Hax]; [rewrite !lookup_alter_eq; by rewrite lookup_insert_ne|].
    rewrite !lookup_alter_ne by done. by rewrite lookup_insert_ne.
Qed.

Lemma limbo_sole i p0 s a n : nodes s !! a = Some n → recount dec a (limbo None i p0 s) = limbo (Some (a, set_count (dec (t_count n)) n)) i p0 (free a (redirect (Head i) (t_next n) s)).
Proof.
  intros Hn. unfold recount, limbo, free, redirect, put_list. cbn [nodes lists]. rewrite insert_insert_eq, insert_delete_eq. f_equal.
  apply map_eq. intros x. destruct (decide (a = x)) as [->|]; [by rewrite lookup_alter_eq, lookup_insert_eq, Hn|by rewrite lookup_alter_ne, lookup_insert_ne].
Qed.

Lemma limbo_shared i p0 s a : put_list i None (recount dec a (limbo None i p0 s)) = recount dec a (put_list i None s).
Proof. unfold put_list, recount, limbo. cbn [nodes lists]. by rewrite insert_insert_eq. Qed.

Lemma limbo_end q i p0 s : waits q s → lists s !! i = Some None → put_list i None (free_prev (fst <$> q) (limbo q i p0 s)) = s.
Proof.
  intros Hq Hi. destruct s as [m l]. cbn [lists] in Hi. destruct q as [[b n]|]; cbn [free_prev fmap option_fmap option_map fst]; unfold free, limbo, put_list; cbn [nodes lists]; rewrite insert_insert_eq, (insert_id l i None Hi); [|done].
  f_equal. apply delete_insert_id. by apply (Hq b n).
Qed.

Lemma holds_sub s σ i c c' : holds s (<[i := c]> σ) → inv c' → only_list s c' i → ∀ d, reads c' i d → holds c' (<[i := d]> σ).
Proof.
  intros Hh Hi Ho d Hd. rewrite <- (insert_insert_eq σ i d c). eapply holds_update; try done. rewrite lookup_insert_eq. by eexists.
Qed.

Lemma removeAll_loop_ok σ k i p0 : small k σ → Z.of_nat k < 2 ^ 15 → is_Some (σ !! i) →
  ∀ rest fuel s q cur, holds s (<[i := content s rest]> σ) → path s (Head i) rest → ptr s (Head i) = Some cur → waits q s → (length rest ≤ fuel)%nat → (length rest ≤ k)%nat →
  ∃ s', removeAll_loop fuel (fst <$> q) cur (limbo q i p0 s) = Ok s' ∧ holds (put_list i None s') (<[i := []]> σ).
Proof.
  intros Hk Hlt Hi. induction rest as [|a rest IH]; intros fuel s q cur Hh Hp Hcur Hq Hf Hlen; inversion Hp as [? Hl|? ? ? Hl Hr]; subst; rewrite Hl in Hcur; injection Hcur as <-.
  - exists (free_prev (fst <$> q) (limbo q i p0 s)). split; [by destruct fuel|]. by rewrite limbo_end.
  - destruct fuel as [|fuel]; [cbn in Hf; lia|]. pose proof (h_inv s _ Hh) as Hinv. assert (is_Some (nodes s !! a)) as [n Hn] by (eapply path_node; [exact Hp|by left]).
    assert (room s) as Hroom by (apply (holds_room s _ k Hh); [apply small_insert; [done|done|by rewrite (content_length _ _ _ Hp)]|done]).
    pose proof (count_fits s a n Hinv Hroom Hn) as Hcount.
    cbn [removeAll_loop]. rewrite (dec_count_is a _ n (limbo_node q i p0 s a n Hq Hn)). change (λ c, u32 (c - 1)) with dec. res_simpl.
    unfold node_at. cbn [recount nodes]. rewrite lookup_alter_eq, (limbo_node q i p0 s a n Hq Hn). cbn [fmap option_fmap option_map]. res_simpl. cbn [set_count t_count t_next].
    change (mkMemory (alter _ a (nodes (limbo q i p0 s))) (lists (limbo q i p0 s))) with (recount dec a (limbo q i p0 s)).
    rewrite (free_limbo q i p0 s a n Hq Hn). assert (dec (t_count n) = t_count n - 1) as -> by (unfold dec; rewrite wrap_id by (unfold fits; lia); done).
    destruct (Z.ltb_spec 0 (t_count n - 1)) as [Hc|Hc].
    + eexists. split; [reflexivity|]. rewrite limbo_shared. destruct (give_up_ok s i a n Hinv Hroom Hl Hn ltac:(lia)) as [Hi' Ho].
      apply (holds_sub s σ i _ _ Hh Hi' Ho). exists []. split; [|done]. apply path_nil. cbn [ptr recount put_list lists]. by rewrite lookup_insert_eq.
    + destruct (unlink_sole_ok s i [] a rest n Hinv Hroom Hp (Forall_nil_2 _) Hn) as (Hi' & Hp' & Ho & Hsh & _); [apply (node_sole s a n); [done|done|lia]|].
      cbn [app] in Hp'. change (last_place (Head i) []) with (Head i) in *.
      assert (content (free a (redirect (Head i) (t_next n) s)) rest = content s rest) as Hcc by (apply content_ext; intros b Hb; apply Hsh; intros ->; by apply (path_acyclic _ _ _ Hr)).
      rewrite (limbo_sole i p0 s a n Hn). change (Some a) with (fst <$> Some (a, set_count (dec (t_count n)) n)).
      apply (IH fuel _ _ (t_next n)).
      * apply (holds_sub s σ i _ _ Hh Hi' Ho). by exists rest.
      * done.
      * rewrite ptr_free, decide_False by done. rewrite ptr_redirect, decide_True; [done|done|]. by rewrite Hl; eexists.
      * intros b m [= <- <-]. cbn [free nodes]. apply lookup_delete_eq.
      * cbn in Hf. lia.
      * cbn in Hlen. lia.
Qed.

(** ** Objects *)

Lemma holds_put s s' σ j c :
  holds s σ → inv s' → (∀ i d, i ≠ j → reads s i d → reads s' i d) → (∀ i, i ≠ j → lists s' !! i = lists s !! i) → reads s' j c → holds s' (<[j := c]> σ).
Proof.
  intros Hh Hi Hr Hd Hj. constructor; [done| |].
  - intros i. destruct (decide (j = i)) as [->|]; [|by rewrite lookup_insert_ne, Hd by done; apply (h_dom s σ Hh)].
    rewrite lookup_insert_eq. destruct Hj as (as' & Hp & _). apply path_ptr in Hp. split; [by eexists|done].
  - intros i d. destruct (decide (j = i)) as [->|]; [rewrite lookup_insert_eq; by intros [= <-]|]. rewrite lookup_insert_ne by done.
    intros Hd'. apply Hr; [done|]. by apply (h_reads s σ Hh).
Qed.

Lemma taglist_new_ok s σ i : holds s σ → σ !! i = None → holds (PacketTagList_new i s) (<[i := []]> σ).
Proof.
  intros Hh Hi. assert (lists s !! i = None) as Hli by (apply eq_None_not_Some; intros Hs%(h_dom s σ Hh); rewrite Hi in Hs; by destruct Hs).
  pose proof (h_inv s σ Hh) as Hinv. unfold PacketTagList_new.
  assert (path (put_list i None s) (Head i) []) as Hpi by (apply path_nil; by rewrite ptr_put_list, decide_True).
  apply (holds_put s); [done| | | |].
  - constructor.
    + intros l Hl. destruct (decide (l = Head i)) as [->|Hne]; [by eexists|]. rewrite ptr_put_list, decide_False in Hl by done.
      destruct (iv_path s Hinv l Hl) as [as' ?]. exists as'. by apply point_path.
    + intros a c Hc. rewrite refs_put_list, Hli, !one_if_false by done. destruct (iv_count s Hinv a c Hc). lia.
    + apply (iv_data s Hinv).
  - intros j d Hj. by apply point_other.
  - intros j Hj. cbn [put_list lists]. by rewrite lookup_insert_ne.
  - by exists [].
Qed.

(** A list without nodes gets those of list [o], or a new list does. *)
Lemma share_holds s σ k j o c :
  holds s σ → small k σ → Z.of_nat k < 2 ^ 15 → σ !! o = Some c → j ≠ o → lists s !! j = None ∨ lists s !! j = Some None →
  ∃ q s', list_at o s = Ok q ∧ share q (put_list j q s) = Ok s' ∧ holds s' (<[j := c]> σ).
Proof.
  intros Hh Hk Hlt Hc Hjo Hj. destruct (holds_list s σ o c Hh Hc) as (q & as' & Hli & Hptr & Hp & Hcc). pose proof (h_inv s σ Hh) as Hinv.
  exists q. eexists. split; [done|]. split; [apply share_is; intros a ->; by apply (inv_target s (Head o))|].
  assert (room (put_list j q s)) as Hroom.
  { destruct (holds_size s σ k Hh Hk) as [H1 H2]. unfold room. cbn [put_list lists nodes]. rewrite map_size_insert. unfold size in *. destruct Hj as [-> | ->]; cbn; nia. }
  destruct (share_ok s j q Hinv Hj (Head o) as' Hroom Hp Hptr) as (Hi' & Hp' & Hr & Hcc'); [congruence|].
  apply (holds_put s); [done|done|exact Hr| |].
  - intros i Hi. assert (lists (bump q (put_list j q s)) = lists (put_list j q s)) as -> by (by destruct q). cbn [put_list lists]. by rewrite lookup_insert_ne.
  - exists as'. split; [done|]. by rewrite Hcc', Hcc.
Qed.

Lemma drop_ok s σ i : holds s σ → lists s !! i = Some None → holds (mkMemory (nodes s) (delete i (lists s))) (delete i σ).
Proof.
  intros Hh Hi. pose proof (h_inv s σ Hh) as Hinv. set (s' := mkMemory _ _).
  assert (∀ l, l ≠ Head i → ptr s' l = ptr s l) as Hptr by (intros [j|a] Hl; [|done]; cbn [ptr s' lists]; apply lookup_delete_ne; congruence).
  assert (∀ l as', path s l as' → l ≠ Head i → path s' l as') as Hpath.
  { intros l as' Hp Hl. apply (path_frame s); [done|]. intros l' Hl'. apply Hptr. intros ->. apply elem_of_cons in Hl' as [?|Hl']; [done|].
    by apply list_elem_of_fmap in Hl' as (? & ? & _). }
  constructor; [constructor| |].
  - intros l Hl. destruct (decide (l = Head i)) as [->|Hne]; [cbn [ptr s' lists] in Hl; rewrite lookup_delete_eq in Hl; by destruct Hl|].
    rewrite Hptr in Hl by done. destruct (iv_path s Hinv l Hl) as [as' ?]. exists as'. by apply Hpath.
  - intros a c Hc. assert (refs s' a = refs s a) as ->; [|by apply (iv_count s Hinv)]. unfold refs. cbn [s' lists]. rewrite occurs_delete, Hi, one_if_false by done.
    change (links s') with (links s). lia.
  - apply (iv_data s Hinv).
  - intros j. cbn [s' lists]. destruct (decide (i = j)) as [->|]; [by rewrite !lookup_delete_eq|]. rewrite !lookup_delete_ne by done. apply (h_dom s σ Hh).
  - intros j c. destruct (decide (i = j)) as [->|]; [by rewrite lookup_delete_eq|]. rewrite lookup_delete_ne by done. intros Hc.
    destruct (h_reads s σ Hh j c Hc) as (as' & Hp & Hcc). exists as'. split; [apply Hpath; congruence|done].
Qed.

Section objects.
Context σ (k : nat) (Hk : small k σ) (Hlt : Z.of_nat k < 2 ^ 15).

Lemma RemoveAll_ok s fuel i c :
  holds s σ → σ !! i = Some c → (length c < fuel)%nat → ∃ s', RemoveAll fuel i s = Ok s' ∧ holds s' (<[i := []]> σ) ∧ lists s' !! i = Some None.
Proof using Hk Hlt.
  intros Hh Hc Hf. destruct (holds_list s σ i c Hh Hc) as (p & as' & Hli & Hptr & Hp & Hcc). unfold RemoveAll. rewrite Hli. res_simpl.
  pose proof (content_length _ _ _ Hp) as Hlen. rewrite Hcc in Hlen. pose proof (proj2 Hk i c Hc) as Hck.
  destruct (removeAll_loop_ok σ k i p Hk Hlt ltac:(by eexists) as' fuel s None p) as (s' & Hl & Hh'); [by rewrite Hcc, insert_id|done|done|done|lia|lia|].
  unfold limbo in Hl. cbn [ptr] in Hptr. rewrite insert_id in Hl by done. assert (mkMemory (nodes s) (lists s) = s) as E by (by destruct s). rewrite E in Hl.
  cbn [fmap option_fmap option_map] in Hl. rewrite Hl. res_simpl. eexists. split; [reflexivity|]. split; [done|]. cbn [put_list lists]. by rewrite lookup_insert_eq.
Qed.

Lemma copy_list_ok s j o c : holds s σ → σ !! o = Some c → σ !! j = None → ∃ s', PacketTagList_copy j o s = Ok s' ∧ holds s' (<[j := c]> σ).
Proof using Hk Hlt.
  intros Hh Hc Hj. destruct (share_holds s σ k j o c Hh Hk Hlt Hc) as (q & s' & Hq & Hs & Hh'); [congruence| |].
  - left. apply eq_None_not_Some. intros Hs%(h_dom s σ Hh). rewrite Hj in Hs. by destruct Hs.
  - exists s'. unfold PacketTagList_copy. rewrite Hq. res_simpl. done.
Qed.

Lemma taglist_assign_ok s fuel i o c d :
  holds s σ → σ !! i = Some c → σ !! o = Some d → (length c < fuel)%nat → ∃ s', assign_list fuel i o s = Ok s' ∧ holds s' (<[i := d]> σ).
Proof using Hk Hlt.
  intros Hh Hc Hd Hf. destruct (holds_list s σ i c Hh Hc) as (p & as1 & Hli & Hptr & Hp & Hcc). destruct (holds_list s σ o d Hh Hd) as (q & as2 & Hlo & Hptro & Hpo & Hcco).
  unfold assign_list. rewrite Hli, Hlo. res_simpl. case_bool_decide as Hpq.
  - subst q. assert (as1 = as2) as E by (apply (path_det s (Head o)); [by apply (path_same s (Head i)); [|rewrite Hptro]|done]).
    assert (c = d) as -> by (by rewrite <- Hcc, <- Hcco, E). exists s. split; [done|]. by rewrite insert_id.
  - assert (i ≠ o) as Hio by (intros ->; rewrite Hptr in Hptro; congruence).
    destruct (RemoveAll_ok s fuel i c Hh Hc Hf) as (s1 & -> & Hh1 & Hl1). res_simpl.
    destruct (share_holds s1 (<[i := []]> σ) k i o d Hh1) as (q1 & s2 & -> & Hs2 & Hh2); [by apply small_insert; [|by eexists|cbn; lia]|done|by rewrite lookup_insert_ne|done|by right|].
    res_simpl. exists s2. split; [done|]. by rewrite insert_insert_eq in Hh2.
Qed.

Lemma delete_ok s fuel i c : holds s σ → σ !! i = Some c → (length c < fuel)%nat → ∃ s', PacketTagList_delete fuel i s = Ok s' ∧ holds s' (delete i σ).
Proof using Hk Hlt.
  intros Hh Hc Hf. destruct (RemoveAll_ok s fuel i c Hh Hc Hf) as (s1 & Hs1 & Hh1 & Hl1). unfold PacketTagList_delete. rewrite Hs1. res_simpl.
  eexists. split; [reflexivity|]. rewrite <- (delete_insert_eq σ i []). by apply drop_ok.
Qed.
End objects.
