(* ===== verification/TagListTheorems.v ===== *)
(** * Packet tags: how far copy on write shows

    [taglist_refines]: what the code does with nodes and counts answers every sequence of
    operations as the specification does, never follows a pointer to a node that was freed, and
    keeps no node that no list holds.  What lists share shows only when a tag is replaced by one of another length. *)

From S2P Require Import Prelude PacketTagList TagListGraph TagListCorrect TagListOps.
Local Open Scope Z_scope.
Implicit Types σ : spec.

(** ** Sequences of operations *)

Definition step (fuel : nat) (o : op) s : res (option (list Z) * memory) :=
  match o with
  | OpNew i => Ok (None, PacketTagList_new i s)
  | OpCopy j o => s ← PacketTagList_copy j o s; Ok (None, s)
  | OpAssign i o => s ← assign_list fuel i o s; Ok (None, s)
  | OpDelete i => s ← PacketTagList_delete fuel i s; Ok (None, s)
  | OpAdd tag i => s ← Add fuel tag i s; Ok (None, s)
  | OpRemove tid i => Remove fuel (mkTag tid []) i s
  | OpReplace tag i => Replace fuel tag i s
  | OpPeek tid i => b ← Peek fuel tid i s; Ok (b, s)
  | OpRemoveAll i => s ← RemoveAll fuel i s; Ok (None, s)
  end.

Fixpoint run (fuel : nat) (os : list op) s : res (list (option (list Z)) * memory) :=
  match os with
  | [] => Ok ([], s)
  | o :: os => '(a, s) ← step fuel o s; '(l, s) ← run fuel os s; Ok (a :: l, s)
  end.

(** An operation adds at most a list, and a tag to a list. *)
Lemma spec_step_small b o σ a σ' k : spec_step b o σ = Ok (a, σ') → small k σ → small (S k) σ'.
Proof.
  assert (∀ tag i c, σ !! i = Some c → small k σ → spec_add tag i c σ = Ok (a, σ') → small (S k) σ') as Hadd.
  { intros tag i c Hc Hk. unfold spec_add. case_bool_decide; [|done]. intros [= _ <-]. apply small_insert; [by apply small_S|by eexists|]. cbn [length]. pose proof (proj2 Hk i c Hc). lia. }
  intros Hs Hk. pose proof Hk as [Hk1 Hk2].
  assert (∀ i d, (length d ≤ k)%nat → small (S k) (<[i := d]> σ)) as Hins by (intros i d Hd; by apply small_new).
  assert (∀ tid c, length (remove_tag tid c) ≤ length c)%nat as Hrm by (intros tid c; induction c as [|x c IH]; cbn [remove_tag length]; [lia|destruct (x.1 =? tid); cbn [length]; lia]).
  assert (∀ tag c, length (replace_tag tag c) = length c) as Hrp by (intros tag c; induction c as [|x c IH]; cbn [replace_tag length]; [done|destruct (x.1 =? tag_tid tag); cbn [length]; lia]).
  destruct o as [i|j o|i o|i|tag i|tid i|tag i|tid i|i]; cbn [spec_step] in Hs; unfold spec_at in Hs; res_inv; simplify_eq.
  - apply Hins. cbn. lia.
  - apply Hins. by eapply Hk2.
  - apply Hins. by eapply Hk2.
  - split; [rewrite map_size_delete; destruct (σ !! i); cbn; unfold size in *; lia|]. intros j d. rewrite lookup_delete_Some. intros [_ Hd]. specialize (Hk2 j d Hd). lia.
  - destruct (find_tag _ _); [done|]. by eapply Hadd.
  - apply Hins. etrans; [apply Hrm|by eapply Hk2].
  - destruct (find_tag _ _); [|by eapply Hadd]. unfold spec_replace in *. destruct b; case_bool_decide; simplify_eq; apply Hins; rewrite Hrp; by eapply Hk2.
  - by apply small_S.
  - apply Hins. cbn. lia.
Qed.

Lemma spec_step_live b o σ a σ' : op_live (dom σ) o → spec_step b o σ = Ok (a, σ') → dom σ' = live_after (dom σ) o.
Proof.
  assert (∀ i c d, σ !! i = Some c → dom (<[i := d]> σ) = dom σ) as Hin.
  { intros i c d Hc. rewrite dom_insert_L. apply elem_of_dom_2 in Hc. set_solver. }
  assert (∀ tag i c, σ !! i = Some c → spec_add tag i c σ = Ok (a, σ') → dom σ' = dom σ) as Hadd.
  { intros tag i c Hc. unfold spec_add. case_bool_decide; [|done]. intros [= _ <-]. by eapply Hin. }
  intros _ Hs. destruct o as [i|j o|i o|i|tag i|tid i|tag i|tid i|i]; cbn [spec_step live_after] in *; unfold spec_at in Hs; res_inv; simplify_eq;
    try (by eapply Hin); [apply dom_insert_L|apply dom_insert_L|apply dom_delete_L| | |done].
  - destruct (find_tag _ _); [done|]. by eapply Hadd.
  - destruct (find_tag _ _); [|by eapply Hadd]. unfold spec_replace in *. destruct b; case_bool_decide; simplify_eq; by eapply Hin.
Qed.

(** The result of the code is that of the specification. *)
Definition step_result (r : res (option (list Z) * memory)) (q : res (option (list Z) * spec)) : Prop :=
  match q with Ok (a, σ) => ∃ s, r = Ok (a, s) ∧ holds s σ | Err e => r = Err e end.

Lemma step_taglist o s σ k fuel :
  holds s σ → small k σ → Z.of_nat k < 2 ^ 15 → (k < fuel)%nat → op_live (dom σ) o → ∃ b, step_result (step fuel o s) (spec_step b o σ).
Proof.
  intros Hh Hk Hlt Hf Hl. assert (∀ i c, σ !! i = Some c → (length c < fuel)%nat) as Hlen by (intros i c Hc; pose proof (proj2 Hk i c Hc); lia).
  assert (∀ i, i ∈ dom σ → ∃ c, σ !! i = Some c ∧ (length c < fuel)%nat) as Hat by (intros i [c Hc]%elem_of_dom; exists c; split; [done|by eapply Hlen]).
  destruct o as [i|j o|i o|i|[tid b] i|tid i|[tid b] i|tid i|i]; cbn [spec_step step op_live tag_tid] in *; unfold spec_at, step_result;
    try (destruct (Hat i Hl) as (c & Hc & Hfc); rewrite Hc).
  all: res_simpl.
  - exists false. eexists. split; [done|]. apply taglist_new_ok; [done|by apply not_elem_of_dom].
  - destruct Hl as [Ho Hj%not_elem_of_dom]. destruct (Hat o Ho) as (c & Hc & _). exists false. rewrite Hc. res_simpl.
    destruct (copy_list_ok σ k Hk Hlt s j o c Hh Hc Hj) as (s' & -> & Hh'). res_simpl. by exists s'.
  - destruct Hl as [Hi Ho]. destruct (Hat i Hi) as (c & Hc & Hfc), (Hat o Ho) as (d & Hd & _). exists false. rewrite Hc, Hd. res_simpl.
    destruct (taglist_assign_ok σ k Hk Hlt s fuel i o c d Hh Hc Hd Hfc) as (s' & -> & Hh'). res_simpl. by exists s'.
  - exists false. destruct (delete_ok σ k Hk Hlt s fuel i c Hh Hc Hfc) as (s' & -> & Hh'). res_simpl. by exists s'.
  - exists false. pose proof (Add_any σ k i c tid Hk Hlt Hc s fuel b Hh Hfc) as Ha. destruct (find_tag tid c); [by rewrite Ha|]. unfold spec_add in *.
    case_bool_decide; [destruct Ha as (s' & -> & Hh'); res_simpl; by exists s'|by rewrite Ha].
  - exists false. by apply (taglist_Remove_ok σ k i c tid Hk Hlt Hc s fuel Hh).
  - by apply (Replace_ok σ k i c tid Hk Hlt Hc s fuel b Hh).
  - exists false. rewrite (Peek_ok σ k i c tid Hk Hlt Hc s fuel Hh) by done. res_simpl. by exists s.
  - exists false. destruct (RemoveAll_ok σ k Hk Hlt s fuel i c Hh Hc Hfc) as (s' & -> & Hh' & _). res_simpl. by exists s'.
Qed.

Definition run_result (r : res (list (option (list Z)) * memory)) (q : res (list (option (list Z)) * spec)) : Prop :=
  match q with Ok (l, σ) => ∃ s, r = Ok (l, s) ∧ holds s σ | Err e => r = Err e end.

Lemma run_taglist fuel : ∀ os k s σ,
  holds s σ → small k σ → Z.of_nat (k + length os) < 2 ^ 15 → (k + length os ≤ fuel)%nat → scoped (dom σ) os →
  ∃ sh, length sh = length os ∧ run_result (run fuel os s) (spec_run sh os σ).
Proof.
  induction os as [|o os IH]; intros k s σ Hh Hk Hlt Hf Hsc; [exists []; split; [done|by exists s]|]. cbn [length scoped] in *. destruct Hsc as [Hl Hsc].
  destruct (step_taglist o s σ k fuel Hh Hk) as [b Hstep]; [lia|lia|done|]. unfold step_result in Hstep. destruct (spec_step b o σ) as [[a σ1]|e] eqn:Eo.
  - destruct Hstep as (s1 & E1 & Hh1). destruct (IH (S k) s1 σ1 Hh1) as (sh & Hsh & Hr); [by eapply spec_step_small|lia|lia|by rewrite (spec_step_live _ _ _ _ _ Hl Eo)|].
    exists (b :: sh). cbn [length spec_run run hd tl]. split; [lia|]. rewrite E1, Eo. res_simpl. unfold run_result in *.
    destruct (spec_run sh os σ1) as [[l σ2]|]; res_simpl; [destruct Hr as (s2 & -> & Hh2); res_simpl; by exists s2|by rewrite Hr].
  - exists (b :: replicate (length os) false). cbn [length spec_run run hd tl]. rewrite length_replicate, Eo, Hstep. by split.
Qed.

(** The specification fails in no other way than an assertion. *)
Lemma spec_step_fails b o σ e : op_live (dom σ) o → spec_step b o σ = Err e → e = NsAssert.
Proof.
  intros Hl. assert (∀ i, i ∈ dom σ → ∃ c, spec_at i σ = Ok c) as Hat by (intros i [c Hc]%elem_of_dom; exists c; unfold spec_at; by rewrite Hc).
  assert (∀ tag i c, spec_add tag i c σ = Err e → e = NsAssert) as Hadd by (intros tag i c; unfold spec_add; case_bool_decide; congruence).
  destruct o as [i|j o|i o|i|tag i|tid i|tag i|tid i|i]; cbn [spec_step op_live] in *; try (destruct (Hat _ Hl) as [c ->]); res_simpl; try done.
  - destruct Hl as [Hl _]. destruct (Hat _ Hl) as [c ->]. done.
  - destruct Hl as [Hl Hl']. destruct (Hat _ Hl) as [c ->], (Hat _ Hl') as [d ->]. done.
  - destruct (find_tag _ c); [congruence|apply Hadd].
  - destruct (find_tag _ c); [|apply Hadd]. unfold spec_replace. destruct b; case_bool_decide; congruence.
Qed.

Lemma spec_run_fails os : ∀ sh σ e, scoped (dom σ) os → spec_run sh os σ = Err e → e = NsAssert.
Proof.
  induction os as [|o os IH]; intros sh σ e; [done|]. intros [Hl Hsc]. cbn [spec_run]. destruct (spec_step (hd false sh) o σ) as [[a σ1]|e1] eqn:Eo; res_simpl.
  - destruct (spec_run (tl sh) os σ1) as [[l σ2]|e2] eqn:Er; res_simpl; [done|]. intros [= ->]. apply (IH (tl sh) σ1); [by rewrite (spec_step_live _ _ _ _ _ Hl Eo)|done].
  - intros [= ->]. by apply (spec_step_fails (hd false sh) o σ).
Qed.

(** ** Types of tag with one size *)

Section sizes.
Context (sz : Z → Z).

(** All tags of a type have the same length. *)
Definition sized (o : op) : Prop := match o with OpAdd tag _ | OpReplace tag _ => zlen (tag_bytes tag) = sz (tag_tid tag) | _ => True end.

Definition tag_sized (x : Z * list Z) : Prop := zlen x.2 = sz x.1 ∧ zlen x.2 < 2 ^ 32 - 1.
Definition all_sized σ : Prop := map_Forall (λ _ c, Forall tag_sized c) σ.

Lemma find_tag_in tid c d : find_tag tid c = Some d → (tid, d) ∈ c.
Proof. induction c as [|[t b] c IH]; [done|]. cbn [find_tag fst snd]. destruct (Z.eqb_spec t tid) as [->|]; [intros [= ->]; by left|right; auto]. Qed.

Lemma remove_sized tid c : Forall tag_sized c → Forall tag_sized (remove_tag tid c).
Proof. induction 1 as [|x c Hx Hc IH]; [constructor|]. cbn [remove_tag]. destruct (x.1 =? tid); [done|by constructor]. Qed.

Lemma replace_sized tag c : tag_sized (tag_tid tag, tag_bytes tag) → Forall tag_sized c → Forall tag_sized (replace_tag tag c).
Proof. intros Ht. induction 1 as [|x c Hx Hc IH]; [constructor|]. cbn [replace_tag]. destruct (Z.eqb_spec x.1 (tag_tid tag)) as [->|]; by constructor. Qed.

Lemma all_sized_at i c σ : all_sized σ → spec_at i σ = Ok c → Forall tag_sized c.
Proof. intros Ha Hc. apply deref_ok in Hc. by apply (map_Forall_lookup_1 _ _ _ _ Ha Hc). Qed.

Lemma spec_add_sized tag i c σ a σ' : zlen (tag_bytes tag) = sz (tag_tid tag) → all_sized σ → Forall tag_sized c → spec_add tag i c σ = Ok (a, σ') → all_sized σ'.
Proof. intros Ht Ha Hc. unfold spec_add. case_bool_decide; [|done]. intros [= _ <-]. apply map_Forall_insert_2; [|done]. constructor; [|done]. by split. Qed.

Lemma spec_replace_sized b tag i c old σ : zlen (tag_bytes tag) = sz (tag_tid tag) → all_sized σ → Forall tag_sized c → find_tag (tag_tid tag) c = Some old →
  spec_replace b tag i c old σ = Ok (Some (tag_bytes tag), <[i := replace_tag tag c]> σ) ∧ all_sized (<[i := replace_tag tag c]> σ).
Proof.
  intros Ht Ha Hc Hf. apply find_tag_in in Hf. rewrite Forall_forall in Hc. destruct (Hc _ Hf) as [Hl Hl32]. cbn [fst snd] in *. rewrite <- Forall_forall in Hc.
  assert (tag_sized (tag_tid tag, tag_bytes tag)) as Hs by (split; cbn [fst snd]; lia). split; [|apply map_Forall_insert_2; [by apply replace_sized|done]].
  unfold spec_replace. rewrite !bool_decide_true by lia. rewrite drop_ge, app_nil_r by (unfold zlen in *; lia). destruct tag as [tid bs]. by destruct b.
Qed.

(** The specification does not look at what is shared. *)
Lemma spec_step_sized b o σ : sized o → all_sized σ → spec_step b o σ = spec_step false o σ ∧ ∀ a σ', spec_step b o σ = Ok (a, σ') → all_sized σ'.
Proof.
  intros Ho Ha. assert (∀ i c, spec_at i σ = Ok c → Forall tag_sized c) as Hat by (intros i c; by apply all_sized_at).
  assert (∀ i c, Forall tag_sized c → all_sized (<[i := c]> σ)) as Hins by (intros i c Hc; by apply map_Forall_insert_2).
  destruct o as [i|j o|i o|i|tag i|tid i|tag i|tid i|i]; cbn [spec_step sized] in *.
  7: { destruct (spec_at i σ) as [c|] eqn:Ec; res_simpl; [|done]. destruct (find_tag _ c) as [old|] eqn:Ef; [|split; [done|]; intros a σ'; apply spec_add_sized; eauto].
    rewrite !(proj1 (spec_replace_sized _ tag i c old σ Ho Ha (Hat _ _ Ec) Ef)). split; [done|]. intros a σ' [= _ <-].
    apply (spec_replace_sized false tag i c old σ Ho Ha (Hat _ _ Ec) Ef). }
  all: split; [done|]; intros a σ' Hs; res_inv; simplify_eq; eauto using remove_sized.
  - by apply map_Forall_delete.
  - destruct (find_tag _ _); [done|]. eapply spec_add_sized; [exact Ho|exact Ha| |eassumption]. by eapply Hat.
Qed.

Lemma spec_run_sized os : ∀ sh sh' σ, Forall sized os → all_sized σ → spec_run sh os σ = spec_run sh' os σ.
Proof.
  induction os as [|o os IH]; intros sh sh' σ Ho Ha; [done|]. apply Forall_cons in Ho as [Ho Hos]. cbn [spec_run].
  rewrite (proj1 (spec_step_sized (hd false sh') o σ Ho Ha)). destruct (spec_step_sized (hd false sh) o σ Ho Ha) as [E Hs]. rewrite E in *.
  destruct (spec_step false o σ) as [[a σ1]|] eqn:Es; res_simpl; [|done]. by rewrite (IH (tl sh) (tl sh') σ1 Hos (Hs a σ1 eq_refl)).
Qed.
End sizes.

Lemma holds_empty : holds (mkMemory ∅ ∅) ∅.
Proof.
  constructor; [constructor| |].
  - intros [i|a] [p Hp]; cbn in Hp; [by rewrite lookup_empty in Hp|by rewrite lookup_empty in Hp].
  - intros a c Hc. unfold cnt_of in Hc. cbn [nodes] in Hc. by rewrite lookup_empty in Hc.
  - intros a t z d Hd. unfold tag_of in Hd. cbn [nodes] in Hd. by rewrite lookup_empty in Hd.
  - intros i. cbn [lists]. by rewrite !lookup_empty.
  - intros i c Hc. by rewrite lookup_empty in Hc.
Qed.

(** The lists of memory [s] read as [σ] says, and memory has no other nodes: with the last list the last node is freed. *)
Definition stands_for s σ : Prop :=
  (∀ i, is_Some (lists s !! i) ↔ is_Some (σ !! i)) ∧ (∀ i c, σ !! i = Some c → reads s i c) ∧ no_leaks s ∧ (σ = ∅ → nodes s = ∅).

Lemma holds_stands s σ : holds s σ → stands_for s σ.
Proof.
  intros Hh. pose proof (inv_reached s (h_inv s σ Hh)) as Hl. split; [apply Hh|]. split; [apply Hh|]. split; [done|].
  intros ->. apply map_empty. intros a. apply eq_None_not_Some. intros Ha. destruct (Hl a Ha) as (i & as' & Hp & _).
  apply path_ptr, (h_dom s ∅ Hh) in Hp. rewrite lookup_empty in Hp. by destruct Hp.
Qed.

(** C8 How far copy on write shows.  Any fewer than 2^15 operations on packet tag lists that are used between their construction
    and their destruction - construction, copy, assignment, destruction, [Add], [Remove], [Replace], [Peek],
    [RemoveAll] - give the result of lists that share nothing, where [Replace] of a tag that is there has two outcomes: either the new value takes
    the place of the old one, whatever their lengths, as in a list that shares the tag with another; or it is written over the old value, whose
    further bytes stay, and an assertion fails if it is longer.  Other assertions fail only where the lists say so: for [Add] of a type that is there already
    and for a tag of 2^32 - 1 bytes or more.  No pointer to a freed node is followed; in the end every list reads as the
    specification says, and each node left is on some list.
    If the tags of each type all have the same length, the outcomes are one, so that what lists share never shows. *)
Theorem taglist_refines os fuel :
  Z.of_nat (length os) < 2 ^ 15 → (length os ≤ fuel)%nat → scoped ∅ os →
  let result_is sh :=
    match spec_run sh os ∅ with
    | Ok (l, σ) => ∃ s, run fuel os (mkMemory ∅ ∅) = Ok (l, s) ∧ stands_for s σ
    | Err e => e = NsAssert ∧ run fuel os (mkMemory ∅ ∅) = Err NsAssert
    end in
  (∃ sh, length sh = length os ∧ result_is sh) ∧
  (∀ sz, Forall (sized sz) os → ∀ sh, result_is sh).
Proof.
  intros Hlt Hf Hsc result_is. destruct (run_taglist fuel os 0 (mkMemory ∅ ∅) ∅ holds_empty) as (sh & Hlen & Hr); [|done|done|by rewrite dom_empty_L|].
  { split; [by rewrite map_size_empty|]. intros i c Hc. by rewrite lookup_empty in Hc. }
  assert (result_is sh) as Hres.
  { unfold result_is, run_result in *. destruct (spec_run sh os ∅) as [[l σ]|e] eqn:Er.
    2: { assert (e = NsAssert) as -> by (eapply spec_run_fails; [by rewrite dom_empty_L|exact Er]). done. }
    destruct Hr as (s & Hs & Hh). exists s. split; [done|by apply holds_stands]. }
  split; [by exists sh|]. intros sz Hsz sh'. unfold result_is. rewrite (spec_run_sized sz os sh' sh ∅ Hsz); [exact Hres|]. by apply map_Forall_empty.
Qed.

(** Two copies of a packet, changed in turn. *)
Definition example_ops : list op :=
  [OpNew 0; OpAdd (mkTag 1 [10]) 0; OpAdd (mkTag 2 [20; 21]) 0; OpAdd (mkTag 3 [30]) 0; OpCopy 1 0; OpRemove 2 1; OpReplace (mkTag 1 [11]) 1;
   OpPeek 1 0; OpCopy 2 1; OpAdd (mkTag 4 [40]) 2; OpReplace (mkTag 3 [31]) 0; OpAssign 0 2; OpPeek 1 0; OpDelete 1; OpRemoveAll 2; OpDelete 2].

Definition example_state : spec := {[ 0%nat := [(4, [40]); (3, [30]); (1, [11])] ]}.

(** Tags of type 2 have two bytes, the others one. *)
Definition example_size (tid : Z) : Z := if tid =? 2 then 2 else 1.

Lemma taglist_refines_witness :
  let l := [None; None; None; None; None; Some [20; 21]; Some [11]; Some [10]; None; None; Some [31]; None; Some [11]; None; None; None] in
  Z.of_nat (length example_ops) < 2 ^ 15 ∧ scoped ∅ example_ops ∧ spec_run [] example_ops ∅ = Ok (l, example_state) ∧
  ∃ s, run 16 example_ops (mkMemory ∅ ∅) = Ok (l, s) ∧ stands_for s example_state.
Proof.
  assert (H : spec_run [] example_ops ∅ = Ok ([None; None; None; None; None; Some [20; 21]; Some [11]; Some [10]; None; None; Some [31]; None; Some [11]; None; None; None], example_state)) by (vm_compute; reflexivity).
  assert (Hs : scoped ∅ example_ops) by (cbn; set_solver).
  split; [reflexivity|]. split; [exact Hs|]. split; [exact H|].
  pose proof (proj2 (taglist_refines example_ops 16 eq_refl (le_n 16) Hs) example_size ltac:(repeat constructor) []) as Hr. cbv beta zeta in Hr. rewrite H in Hr. exact Hr.
Defined.

(** A tag replaced by one of another length, in a list of its own and in a shared one: a longer one fails the assertion or is put in a new node;
    of a shorter one the rest of the old value stays or not. *)
Example Replace_longer :
  run 9 [OpNew 0; OpAdd (mkTag 1 [10]) 0; OpReplace (mkTag 1 [11; 12]) 0] (mkMemory ∅ ∅) = Err NsAssert ∧
  (∃ s, run 9 [OpNew 0; OpAdd (mkTag 1 [10]) 0; OpCopy 1 0; OpReplace (mkTag 1 [11; 12]) 0; OpPeek 1 0] (mkMemory ∅ ∅) = Ok ([None; None; None; Some [11; 12]; Some [11; 12]], s)) ∧
  (∃ s, run 9 [OpNew 0; OpAdd (mkTag 1 [10; 20]) 0; OpReplace (mkTag 1 [11]) 0; OpPeek 1 0] (mkMemory ∅ ∅) = Ok ([None; None; Some [11]; Some [11; 20]], s)) ∧
  ∃ s, run 9 [OpNew 0; OpAdd (mkTag 1 [10; 20]) 0; OpCopy 1 0; OpReplace (mkTag 1 [11]) 0; OpPeek 1 0] (mkMemory ∅ ∅) = Ok ([None; None; None; Some [11]; Some [11]], s).
Proof. split; [vm_compute; reflexivity|]. split; [|split]; eexists; vm_compute; reflexivity. Qed.
