(* ===== verification/Address.v ===== *)
(** * Polymorphic addresses (src/src/network/model/address.cc)

    A type number given out by [Register], a length, and the bytes.  The bytes of the
    fixed array behind the length are never read and are left out. *)

From S2P Require Import Prelude.
Local Open Scope Z_scope.

(** [address.h:106-106] Address::MAX_SIZE *)
Definition MAX_SIZE : Z := 20.

(** [address.h:280-282] Address *)
Record Address := mkAddress {
  a_type : Z;
  a_len : Z;
  a_data : list Z
}.

(** [address.cc:34-40] Address::Address *)
Definition Address_default : Address := mkAddress 0 0 [].

(** [address.cc:42-49] Address::Address *)
Definition Address_new (type : Z) (buffer : list Z) (len : Z) : res Address :=
  ns_assert (len <=? MAX_SIZE) ≫= λ _,
  if len <=? Z.of_nat (length buffer) then Ok (mkAddress type len (take (Z.to_nat len) buffer))
  else Err Undefined.

(** [address.cc] Address::IsInvalid *)
Definition IsInvalid (a : Address) : bool := (a_len a =? 0) && (a_type a =? 0).

(** [address.cc] Address::GetLength *)
Definition GetLength (a : Address) : res Z := ns_assert (a_len a <=? MAX_SIZE) ≫= λ _, Ok (a_len a).

(** [address.cc] Address::CopyTo

    The bytes copied; their number is returned. *)
Definition CopyTo (a : Address) : res (list Z) := ns_assert (a_len a <=? MAX_SIZE) ≫= λ _, Ok (a_data a).

(** [address.cc] Address::CopyAllTo *)
Definition CopyAllTo (len : Z) (a : Address) : res (list Z) :=
  ns_assert (1 <? len - a_len a) ≫= λ _, Ok (a_type a :: a_len a :: a_data a).

(** [address.cc] Address::CopyFrom *)
Definition CopyFrom (buffer : list Z) (len : Z) (a : Address) : res Address :=
  ns_assert (len <=? MAX_SIZE) ≫= λ _,
  if len <=? Z.of_nat (length buffer) then Ok (mkAddress (a_type a) len (take (Z.to_nat len) buffer))
  else Err Undefined.

(** [address.cc] Address::CopyAllFrom

    [m_len] is not compared with the size of [m_data]; more bytes overflow it. *)
Definition CopyAllFrom (buffer : list Z) (len : Z) : res Address :=
  ns_assert (2 <=? len) ≫= λ _,
  match buffer with
  | ty :: n :: rest =>
      ns_assert (1 <? len - n) ≫= λ _,
      if (n <=? Z.of_nat (length rest)) && (n <=? MAX_SIZE) then Ok (mkAddress ty n (take (Z.to_nat n) rest))
      else Err Undefined
  | _ => Err Undefined
  end.

(** [address.cc] Address::CheckCompatible *)
Definition CheckCompatible (type len : Z) (a : Address) : res bool :=
  ns_assert (len <=? MAX_SIZE) ≫= λ _,
  Ok (((a_len a =? len) && (a_type a =? type)) || ((len <=? a_len a) && (a_type a =? 0))).

(** [address.cc] Address::IsMatchingType *)
Definition IsMatchingType (type : Z) (a : Address) : bool := a_type a =? type.

(** [address.cc] Address::Register

    [last] is the last number given out, 1 at first. *)
Definition Register (last : Z) : Z := u8 (last + 1).

(** [address.cc] Address::GetSerializedSize *)
Definition GetSerializedSize (a : Address) : Z := 1 + 1 + a_len a.

(** [address.cc] Address::Serialize *)
Definition Serialize (a : Address) : list Z := a_type a :: a_len a :: a_data a.

(** [address.cc] Address::Deserialize *)
Definition Deserialize (buffer : list Z) : res Address :=
  match buffer with
  | ty :: n :: rest =>
      ns_assert (n <=? MAX_SIZE) ≫= λ _,
      if n <=? Z.of_nat (length rest) then Ok (mkAddress ty n (take (Z.to_nat n) rest)) else Err Undefined
  | _ => Err Undefined
  end.

(** [address.cc:182-203] operator== *)
Definition address_eq (a b : Address) : bool :=
  if negb (a_type a =? a_type b) && negb (a_type a =? 0) && negb (a_type b =? 0) then false
  else if negb (a_len a =? a_len b) then false
  else bool_decide (a_data a = a_data b).

(** The loop of [operator<]: bytes in order. *)
Fixpoint data_lt (l1 l2 : list Z) : bool :=
  match l1, l2 with
  | x :: l1, y :: l2 => if x <? y then true else if y <? x then false else data_lt l1 l2
  | _, _ => false
  end.

(** [address.cc:211-243] operator< *)
Definition address_lt (a b : Address) : bool :=
  if a_type a <? a_type b then true
  else if a_type b <? a_type a then false
  else if a_len a <? a_len b then true
  else if a_len b <? a_len a then false
  else data_lt (a_data a) (a_data b).

(** ** Facts *)

(** An address as every operation leaves it. *)
Definition address_ok (a : Address) : Prop :=
  fits 8 (a_type a) ∧ a_len a = Z.of_nat (length (a_data a)) ∧ a_len a ≤ MAX_SIZE ∧ Forall (fits 8) (a_data a).

Lemma Address_new_ok type buffer :
  fits 8 type → Forall (fits 8) buffer → Z.of_nat (length buffer) ≤ MAX_SIZE →
  Address_new type buffer (Z.of_nat (length buffer)) = Ok (mkAddress type (Z.of_nat (length buffer)) buffer) ∧
  address_ok (mkAddress type (Z.of_nat (length buffer)) buffer).
Proof.
  intros Ht Hb Hl. unfold Address_new. rewrite (proj2 (Z.leb_le _ MAX_SIZE)) by done. res_simpl.
  rewrite Z.leb_refl, Nat2Z.id, firstn_all. by unfold address_ok.
Qed.

Lemma Serialize_roundtrip a rest : address_ok a → Deserialize (Serialize a ++ rest) = Ok a.
Proof.
  intros (Ht & Hl & Hm & _). unfold Deserialize, Serialize. cbn [app].
  rewrite (proj2 (Z.leb_le (a_len a) MAX_SIZE)) by done. res_simpl. rewrite length_app.
  rewrite (proj2 (Z.leb_le _ _)) by lia. rewrite Hl, Nat2Z.id, take_app_length. f_equal.
  destruct a as [ty n d]. cbn in *. by subst n.
Qed.

(** The order is total on addresses with known types, and agrees with [==] there. *)
Lemma data_lt_total l1 l2 :
  length l1 = length l2 → l1 = l2 ∨ data_lt l1 l2 = true ∨ data_lt l2 l1 = true.
Proof.
  revert l2. induction l1 as [|x l1 IH]; intros [|y l2] Hl; try done; [by left|]. cbn.
  injection Hl as Hl. destruct (Z.ltb_spec x y); [auto|]. destruct (Z.ltb_spec y x); [auto|].
  assert (x = y) as -> by lia. destruct (IH l2 Hl) as [->|?]; auto.
Qed.

Lemma data_lt_irrefl l : data_lt l l = false.
Proof. induction l as [|x l IH]; cbn; [done|]. by rewrite Z.ltb_irrefl. Qed.
