(* ===== verification/Ipv4Address.v ===== *)
(** * IPv4 addresses and masks (src/src/network/utils/ipv4-address.cc)

    32-bit numbers in host order.  The constructors from strings call [inet_pton] and are
    not modelled, except for the prefix lengths of masks. *)

From S2P Require Import Prelude Buffer Address ByteIter.
Local Open Scope Z_scope.

(** [ipv4-address.cc:150-154] UNINITIALIZED *)
Definition UNINITIALIZED : Z := 0x66666666.

(** [ipv4-address.h:214-215] Ipv4Address *)
Record Ipv4Address := mkIpv4 {
  m_address : Z;
  m_initialized : bool
}.

(** [ipv4-address.cc:156-161] Ipv4Address::Ipv4Address *)
Definition Ipv4Address_default : Ipv4Address := mkIpv4 UNINITIALIZED false.

(** [ipv4-address.cc:163-168] Ipv4Address::Ipv4Address *)
Definition Ipv4Address_of (address : Z) : Ipv4Address := mkIpv4 address true.

(** [ipv4-address.cc:192-198] Ipv4Address::Set *)
Definition Set_ (address : Z) : Ipv4Address := mkIpv4 address true.

(** [ipv4-address.cc:97-102] Ipv4Mask::GetInverse *)
Definition GetInverse (mask : Z) : Z := u32 (Z.lnot mask).

(** [ipv4-address.cc:50-74] Ipv4Mask::Ipv4Mask

    The mask "/plen". *)
Definition mask_of_prefix (plen : Z) : res Z :=
  ns_assert (plen <=? 32) ≫= λ _,
  Ok (if 0 <? plen then u32 (Z.shiftl 0xffffffff (32 - plen)) else 0).

(** [ipv4-address.cc:76-81] Ipv4Mask::IsMatch *)
Definition IsMatch (mask : Z) (a b : Ipv4Address) : bool :=
  Z.land (m_address a) mask =? Z.land (m_address b) mask.

(** [ipv4-address.cc:136-148] Ipv4Mask::GetPrefixLength

    The loop; 33 iterations shift 32 bits out. *)
Fixpoint GetPrefixLength_loop (fuel : nat) (tmp mask : Z) : res Z :=
  match fuel with
  | O => Err OutOfFuel
  | S fuel => if mask =? 0 then Ok tmp else GetPrefixLength_loop fuel (u16 (tmp + 1)) (u32 (Z.shiftl mask 1))
  end.

(** [ipv4-address.cc:136-148] Ipv4Mask::GetPrefixLength *)
Definition GetPrefixLength (mask : Z) : res Z := GetPrefixLength_loop 33 0 mask.

(** [ipv4-address.cc:215-220] Ipv4Address::CombineMask *)
Definition CombineMask (mask : Z) (a : Ipv4Address) : Ipv4Address :=
  Ipv4Address_of (Z.land (m_address a) mask).

(** [ipv4-address.cc:222-232] Ipv4Address::GetSubnetDirectedBroadcast *)
Definition GetSubnetDirectedBroadcast (mask : Z) (a : Ipv4Address) : res Ipv4Address :=
  ns_assert (negb (mask =? 0xffffffff)) ≫= λ _,
  Ok (Ipv4Address_of (Z.lor (m_address a) (GetInverse mask))).

(** [ipv4-address.cc:234-245] Ipv4Address::IsSubnetDirectedBroadcast *)
Definition IsSubnetDirectedBroadcast (mask : Z) (a : Ipv4Address) : bool :=
  if mask =? 0xffffffff then false else Z.lor (m_address a) mask =? 0xffffffff.

(** [ipv4-address.cc] Ipv4Address::IsAny *)
Definition IsAny (a : Ipv4Address) : bool := m_address a =? 0.

(** [ipv4-address.cc] Ipv4Address::IsLocalhost *)
Definition IsLocalhost (a : Ipv4Address) : bool := m_address a =? 0x7f000001.

(** [ipv4-address.cc] Ipv4Address::IsBroadcast *)
Definition IsBroadcast (a : Ipv4Address) : bool := m_address a =? 0xffffffff.

(** [ipv4-address.cc] Ipv4Address::IsMulticast *)
Definition IsMulticast (a : Ipv4Address) : bool :=
  (0xe0000000 <=? m_address a) && (m_address a <=? 0xefffffff).

(** [ipv4-address.cc] Ipv4Address::IsLocalMulticast *)
Definition IsLocalMulticast (a : Ipv4Address) : bool := Z.land (m_address a) 0xffffff00 =? 0xe0000000.

(** [ipv4-address.cc] Ipv4Address::Serialize *)
Definition Ipv4_Serialize (a : Ipv4Address) : list Z :=
  [Z.land (Z.shiftr (m_address a) 24) 0xff; Z.land (Z.shiftr (m_address a) 16) 0xff;
   Z.land (Z.shiftr (m_address a) 8) 0xff; Z.land (Z.shiftr (m_address a) 0) 0xff].

(** [ipv4-address.cc] Ipv4Address::Deserialize *)
Definition Ipv4_Deserialize (buf : list Z) : Ipv4Address := Ipv4Address_of (ntoh 32 buf).

(** The address of an interface's network and its last address. *)
Definition GetAny : Ipv4Address := Ipv4Address_of 0.
Definition GetBroadcast : Ipv4Address := Ipv4Address_of 0xffffffff.
Definition GetLoopback : Ipv4Address := Ipv4Address_of 0x7f000001.

(** [ipv4-address.h:377-381] operator== *)
Definition ipv4_eq (a b : Ipv4Address) : bool := m_address a =? m_address b.

(** The type numbers the static counters of [Address::Register] give. *)
Class AddressTypes := {
  ipv4_type : Z;
  ipv6_type : Z;
  address_types_ok : fits 8 ipv4_type ∧ fits 8 ipv6_type ∧ ipv4_type ≠ 0 ∧ ipv6_type ≠ 0 ∧ ipv4_type ≠ ipv6_type
}.

Section conversion.
Context `{AddressTypes}.

(** [ipv4-address.cc] Ipv4Address::IsMatchingType *)
Definition Ipv4_IsMatchingType (a : Address) : res bool := CheckCompatible ipv4_type 4 a.

(** [ipv4-address.cc] Ipv4Address::ConvertTo *)
Definition ConvertTo (a : Ipv4Address) : res Address := Address_new ipv4_type (Ipv4_Serialize a) 4.

(** [ipv4-address.cc] Ipv4Address::ConvertFrom *)
Definition ConvertFrom (a : Address) : res Ipv4Address :=
  ok ← CheckCompatible ipv4_type 4 a;
  ns_assert ok ≫= λ _,
  buf ← CopyTo a;
  Ok (Ipv4_Deserialize (take 4 buf)).
End conversion.

(** ** Networks *)

Lemma GetPrefixLength_all : Forall (λ n, mask_of_prefix n ≫= GetPrefixLength = Ok n) (seqZ 0 33).
Proof. apply (bool_decide_unpack _). vm_compute. exact I. Qed.

Lemma mask_of_prefix_eq n :
  0 ≤ n ≤ 32 → mask_of_prefix n = Ok (Z.shiftl (Z.ones n) (32 - n)).
Proof.
  intros Hn. unfold mask_of_prefix. rewrite (proj2 (Z.leb_le n 32)) by lia. res_simpl. f_equal.
  destruct (Z.ltb_spec 0 n).
  - change 0xffffffff with (Z.ones 32). rewrite <- land_ones_wrap by lia.
    apply Z.bits_inj'. intros i Hi. rewrite Z.land_spec, !Z.shiftl_spec by done.
    destruct (Z.lt_ge_cases i (32 - n)); [by rewrite !(Z.testbit_neg_r _ (i - (32 - n))) by lia|].
    rewrite !Z.testbit_ones_nonneg by lia.
    destruct (Z.ltb_spec (i - (32 - n)) 32), (Z.ltb_spec i 32), (Z.ltb_spec (i - (32 - n)) n); done || lia.
  - assert (n = 0) as -> by lia. done.
Qed.

(** Masking keeps the network part. *)
Lemma land_mask a n :
  fits 32 a → 0 ≤ n ≤ 32 →
  Z.land a (Z.shiftl (Z.ones n) (32 - n)) = a / 2 ^ (32 - n) * 2 ^ (32 - n).
Proof.
  intros Ha Hn. rewrite <- Z.shiftr_div_pow2, <- Z.shiftl_mul_pow2 by lia.
  apply Z.bits_inj'. intros i Hi. rewrite Z.land_spec, !Z.shiftl_spec by done.
  destruct (Z.lt_ge_cases i (32 - n)).
  - rewrite !(Z.testbit_neg_r _ (i - (32 - n))) by lia. apply andb_false_r.
  - rewrite Z.shiftr_spec by lia. replace (i - (32 - n) + (32 - n)) with i by lia.
    rewrite Z.testbit_ones_nonneg by lia. destruct (Z.ltb_spec (i - (32 - n)) n); [apply andb_true_r|].
    rewrite andb_false_r. symmetry. rewrite <- (wrap_id 32 a) by done. apply Z.mod_pow2_bits_high. lia.
Qed.

Lemma GetInverse_mask n :
  0 ≤ n ≤ 32 → GetInverse (Z.shiftl (Z.ones n) (32 - n)) = Z.ones (32 - n).
Proof.
  intros Hn. unfold GetInverse. rewrite <- land_ones_wrap by lia.
  apply Z.bits_inj'. intros i Hi. rewrite Z.land_spec, Z.lnot_spec, Z.shiftl_spec by done.
  rewrite !(Z.testbit_ones_nonneg _ i) by lia. destruct (Z.lt_ge_cases i (32 - n)).
  - rewrite Z.testbit_neg_r by lia. destruct (Z.ltb_spec i 32), (Z.ltb_spec i (32 - n)); done || lia.
  - rewrite Z.testbit_ones_nonneg by lia.
    destruct (Z.ltb_spec i 32), (Z.ltb_spec i (32 - n)), (Z.ltb_spec (i - (32 - n)) n); done || lia.
Qed.

Lemma lor_low_ones a k :
  0 ≤ a → 0 ≤ k → Z.lor a (Z.ones k) = a / 2 ^ k * 2 ^ k + (2 ^ k - 1).
Proof.
  intros Ha Hk.
  assert (Z.lor a (Z.ones k) = Z.lor (Z.shiftl (Z.shiftr a k) k) (Z.ones k)) as ->.
  { apply Z.bits_inj'. intros i Hi. rewrite !Z.lor_spec, Z.shiftl_spec by done.
    rewrite Z.testbit_ones_nonneg by lia. destruct (Z.ltb_spec i k); [by rewrite !orb_true_r|].
    rewrite Z.shiftr_spec by lia. do 2 f_equal. lia. }
  assert (Z.ones k = 2 ^ k - 1) as E by (rewrite Z.ones_equiv; lia).
  assert (0 < 2 ^ k) by (apply Z.pow_pos_nonneg; lia).
  rewrite lor_shiftl_add by lia. rewrite Z.shiftr_div_pow2 by lia. lia.
Qed.

Lemma lor_mask a n :
  fits 32 a → 0 ≤ n ≤ 32 →
  Z.lor a (Z.shiftl (Z.ones n) (32 - n)) = Z.shiftl (Z.ones n) (32 - n) + a mod 2 ^ (32 - n).
Proof.
  intros Ha Hn. pose proof (Z.mod_pos_bound a (2 ^ (32 - n)) ltac:(apply Z.pow_pos_nonneg; lia)).
  rewrite <- (Z.shiftl_mul_pow2 (Z.ones n)) || rewrite (Z.shiftl_mul_pow2 (Z.ones n)) at 2 by lia.
  rewrite <- (lor_shiftl_add (Z.ones n) (a mod 2 ^ (32 - n)) (32 - n)) by lia.
  apply Z.bits_inj'. intros i Hi. rewrite !Z.lor_spec, !Z.shiftl_spec by done.
  destruct (Z.lt_ge_cases i (32 - n)).
  - rewrite (Z.testbit_neg_r _ (i - (32 - n))) by lia. rewrite Z.mod_pow2_bits_low by lia. apply orb_false_r.
  - rewrite Z.mod_pow2_bits_high, orb_false_r by lia. rewrite Z.testbit_ones_nonneg by lia.
    destruct (Z.ltb_spec (i - (32 - n)) n); [apply orb_true_r|]. rewrite orb_false_r.
    rewrite <- (wrap_id 32 a) by done. apply Z.mod_pow2_bits_high. lia.
Qed.

(** Networks of the masks "/n": [GetPrefixLength] gives [n] back (its loop ends);
    [CombineMask] gives the first address of the network of an address, and
    [GetSubnetDirectedBroadcast] its last one, which [IsSubnetDirectedBroadcast]
    recognises; [IsMatch] tells whether two addresses are of the same network. *)
Theorem Ipv4Mask_network n a b :
  0 ≤ n ≤ 32 → fits 32 (m_address a) → fits 32 (m_address b) →
  ∃ mask, mask_of_prefix n = Ok mask ∧ fits 32 mask ∧ GetPrefixLength mask = Ok n ∧
    let size := 2 ^ (32 - n) in
    let net := m_address a / size * size in
    m_address (CombineMask mask a) = net ∧
    IsMatch mask a b = (net <=? m_address b) && (m_address b <? net + size) ∧
    (n < 32 → ∃ bc, GetSubnetDirectedBroadcast mask a = Ok bc ∧ m_address bc = net + (size - 1) ∧
      IsSubnetDirectedBroadcast mask bc = true ∧
      IsSubnetDirectedBroadcast mask a = ipv4_eq a bc).
Proof.
  intros Hn Ha Hb. set (mask := Z.shiftl (Z.ones n) (32 - n)). exists mask.
  assert (GetPrefixLength mask = Ok n) as Hp.
  { pose proof GetPrefixLength_all as Hall. rewrite Forall_forall in Hall.
    specialize (Hall n ltac:(apply elem_of_seqZ; lia)). by rewrite mask_of_prefix_eq in Hall. }
  assert (0 < 2 ^ (32 - n) ∧ 2 ^ (32 - n) * 2 ^ n = 2 ^ 32) as [Hs Hs32].
  { split; [apply Z.pow_pos_nonneg; lia|]. rewrite <- Z.pow_add_r by lia. f_equal. lia. }
  set (size := 2 ^ (32 - n)) in *.
  assert (∀ x, fits 32 x → Z.land x mask = x / size * size) as Hland by (intros; by apply land_mask).
  assert (Z.ones (32 - n) = size - 1) as Hones by (rewrite Z.ones_equiv; unfold size; lia).
  assert (mask = 2 ^ 32 - size) as Hmask.
  { unfold mask. rewrite Z.shiftl_mul_pow2, Z.ones_equiv by lia. fold size. nia. }
  assert (0 < 2 ^ n) by (apply Z.pow_pos_nonneg; lia).
  conj; [by rewrite mask_of_prefix_eq|unfold fits; nia|done|]. cbn zeta. fold size. conj.
  - by apply Hland.
  - unfold IsMatch. rewrite !Hland by done. unfold fits in *.
    pose proof (Z.div_mod (m_address a) size ltac:(lia)). pose proof (Z.mod_pos_bound (m_address a) size Hs).
    pose proof (Z.div_mod (m_address b) size ltac:(lia)). pose proof (Z.mod_pos_bound (m_address b) size Hs).
    set (qa := m_address a / size) in *. set (qb := m_address b / size) in *.
    apply Bool.eq_iff_eq_true. rewrite andb_true_iff, Z.eqb_eq, Z.leb_le, Z.ltb_lt. split; [lia|].
    intros [Hlo Hhi]. assert (qa < qb + 1 ∧ qb < qa + 1) as [??] by nia. by replace qa with qb by lia.
  - intros Hn32. unfold GetSubnetDirectedBroadcast, IsSubnetDirectedBroadcast.
    assert (mask ≠ 0xffffffff) as Hne.
    { assert (1 < size); [|lia]. unfold size. apply Z.pow_gt_1; lia. }
    rewrite (proj2 (Z.eqb_neq _ _)) by done. res_simpl. eexists. split; [done|].
    unfold ipv4_eq. cbn [m_address Ipv4Address_of].
    assert (Z.lor (m_address a) (GetInverse mask) = m_address a / size * size + (size - 1)) as ->.
    { unfold mask. rewrite GetInverse_mask by lia. apply lor_low_ones; unfold fits in *; lia. }
    pose proof (Z.div_mod (m_address a) size ltac:(lia)) as Ea.
    pose proof (Z.mod_pos_bound (m_address a) size Hs) as Ba.
    assert (∀ x, fits 32 x → Z.lor x mask = mask + x mod size) as Hlor by (intros; by apply lor_mask).
    assert (m_address a / size < 2 ^ n) by (apply Z.div_lt_upper_bound; [lia|rewrite Hs32; apply Ha]).
    assert (0 ≤ m_address a / size) by (apply Z.div_pos; unfold fits in *; lia).
    conj; [done| |].
    + apply Z.eqb_eq. rewrite Hlor by (unfold fits; nia).
      assert ((m_address a / size * size + (size - 1)) mod size = size - 1) as -> by (rewrite Z.add_comm, Z.mod_add, Z.mod_small; lia).
      lia.
    + apply Bool.eq_iff_eq_true. rewrite !Z.eqb_eq, Hlor by done. lia.
Qed.

Lemma Ipv4Mask_network_witness :
  ∃ mask, mask_of_prefix 24 = Ok mask ∧ mask = 0xffffff00 ∧
    m_address (CombineMask mask (Ipv4Address_of 0x0a010205)) = 0x0a010200 ∧
    IsMatch mask (Ipv4Address_of 0x0a010205) (Ipv4Address_of 0x0a010305) = false.
Proof.
  destruct (Ipv4Mask_network 24 (Ipv4Address_of 0x0a010205) (Ipv4Address_of 0x0a010305))
    as (mask & Hm & _ & _ & Hc & Hi & _).
  - lia.
  - unfold fits. cbn. lia.
  - unfold fits. cbn. lia.
  - exists mask. split; [exact Hm|]. split; [vm_compute in Hm; injection Hm as <-; reflexivity|].
    split; [rewrite Hc; vm_compute; reflexivity|rewrite Hi; vm_compute; reflexivity].
Defined.

Section conversion_facts.
Context `{AddressTypes}.

Lemma Ipv4_Serialize_be32 a : Ipv4_Serialize a = be32 (m_address a).
Proof. unfold Ipv4_Serialize, be32. by rewrite !land_255, Z.shiftr_0_r. Qed.

Lemma ConvertTo_ok a :
  fits 32 (m_address a) →
  ConvertTo a = Ok (mkAddress ipv4_type 4 (be32 (m_address a))).
Proof. intros Ha. unfold ConvertTo. rewrite Ipv4_Serialize_be32. done. Qed.

Lemma ConvertFrom_ConvertTo a :
  fits 32 (m_address a) → (b ← ConvertTo a; ConvertFrom b) = Ok (Ipv4Address_of (m_address a)).
Proof.
  intros Ha. rewrite ConvertTo_ok by done. res_simpl. unfold ConvertFrom, CheckCompatible. cbn [a_len a_type].
  rewrite !Z.eqb_refl. change (4 <=? MAX_SIZE) with true. res_simpl. cbn [andb orb]. res_simpl.
  unfold CopyTo. cbn [a_len a_data]. change (4 <=? MAX_SIZE) with true. res_simpl.
  unfold Ipv4_Deserialize. change (take 4 (be32 (m_address a))) with (be32 (m_address a)).
  by rewrite ntoh32_be32.
Qed.
End conversion_facts.
