(* ===== verification/Header.v ===== *)
(** * Packet headers: the interface (src/src/network/model/header.h)

    A header class serializes into room an iterator points to, and deserializes from an
    iterator, whatever implements iterators.  [HeaderLaws] is what the packet code relies
    on: [Serialize] fills exactly the room of [GetSerializedSize] with the wire format and
    leaves the payload, [Deserialize] reads the wire format back and says how long it is. *)

From S2P Require Import Prelude Buffer BufferCorrect BufferTheorems ByteIter BufferIter.
Local Open Scope Z_scope.

Class Header (T : Type) := {
  hdr_size : T → Z;
  hdr_Serialize : ∀ {M I : Type} `{ByteIter M I}, T → I → M → res M;
  (** The object that receives the fields is an argument: its settings matter. *)
  hdr_Deserialize : ∀ {M I : Type} `{ByteIter M I}, T → I → M → res (Z * T)
}.

Class HeaderLaws (T : Type) `{Header T} := {
  (** A header that may stand in front of the payload. *)
  hdr_ok : T → list Z → Prop;
  hdr_wire : T → list Z → list Z;
  (** An object that may receive a header. *)
  hdr_accepts : T → Prop;
  (** What the receiving object holds of the header that was sent. *)
  hdr_received : T → T → list Z → T;
  hdr_wire_size h l : hdr_ok h l → Z.of_nat (length (hdr_wire h l)) = hdr_size h;
  hdr_law_Serialize {M I : Type} `{ByteIterLaws M I} m room l mk h :
    hdr_ok h l → Z.of_nat (length room) = hdr_size h →
    holds m (room ++ l) (hdr_size h) mk →
    wp (hdr_Serialize h (mk 0) m) (λ m', holds m' (hdr_wire h l ++ l) (hdr_size h) mk);
  hdr_law_Deserialize {M I : Type} `{ByteIterLaws M I} m l w mk h0 h :
    hdr_ok h l → hdr_accepts h0 → holds m (hdr_wire h l ++ l) w mk →
    hdr_Deserialize h0 (mk 0) m = Ok (hdr_size h, hdr_received h0 h l)
}.

(** ** Headers in buffers *)

Section buffers.
Context `{HeaderLaws T} (fill : Z → Z → Z).

(** A header written into the room [AddAtStart] makes is the front of the buffer; read
    back it gives the header, and removing its length the old content.  No other buffer
    changes at any point, though the block may be shared. *)
Lemma header_roundtrip b bs h (hd h0 : T) :
  heap_inv None h (b :: bs) → hdr_ok hd (view h b) → hdr_accepts h0 → 0 ≤ hdr_size hd →
  m_end b + hdr_size hd < 2 ^ 31 - 100 → Z.of_nat (length (b :: bs)) < 2 ^ 32 →
  ∃ b1 h1 h2 b2, AddAtStart fill (hdr_size hd) b h = Ok (b1, h1) ∧
    hdr_Serialize hd (Begin b1) h1 = Ok h2 ∧ heap_inv None h2 (b1 :: bs) ∧
    view h2 b1 = hdr_wire hd (view h b) ++ view h b ∧
    hdr_Deserialize h0 (Begin b1) h2 = Ok (hdr_size hd, hdr_received h0 hd (view h b)) ∧
    RemoveAtStart (hdr_size hd) b1 = Ok b2 ∧ heap_inv None h2 (b2 :: bs) ∧
    view h2 b2 = view h b ∧ ∀ o, o ∈ bs → view h2 o = view h o.
Proof.
  intros Hi Hok Hacc Hsz Hcap Hlen.
  destruct (AddAtStart_room fill (hdr_size hd) b bs h Hi Hsz Hcap Hlen) as (b1 & h1 & room & Hadd & Hroom & Hh).
  set (mk := λ p, Construct b1 (m_start b1 + p)) in *.
  assert (mk 0 = Begin b1) as Hbeg by (unfold mk, Begin; f_equal; lia).
  pose proof (hdr_law_Serialize (H1 := buffer_laws b1 bs (view h)) h1 room (view h b) mk hd Hok Hroom Hh) as Hs.
  rewrite Hbeg in Hs. destruct (hdr_Serialize hd (Begin b1) h1) as [h2|] eqn:Es; [|done]. cbn in Hs.
  pose proof (hdr_law_Deserialize (H1 := buffer_laws b1 bs (view h)) h2 (view h b) _ mk h0 hd Hok Hacc Hs) as Hd.
  rewrite Hbeg in Hd. destruct Hs as (Hi2 & Hv2 & Ho2 & _).
  pose proof (length_view b1 bs h2 Hi2) as Hl2. pose proof (window_of_live _ _ _ Hi2) as Hw2.
  pose proof (hdr_wire_size hd (view h b) Hok) as Hws. rewrite Hv2, length_app in Hl2.
  destruct (RemoveAtStart_ok b1 bs h2 Hi2 (hdr_size hd)) as (b2 & Hrm & Hi3 & Hv3 & _ & _);
    [lia|unfold window_ok in *; lia|].
  exists b1, h1, h2, b2. conj; try done.
    rewrite Hv3, Hv2. rewrite <- Hws, Nat2Z.id. apply drop_app_length.
Qed.
End buffers.
