(* ===== verification/UdpHeader.v ===== *)
(** * The UDP header (src/src/internet/model/udp-header.cc)

    Serialization with the checksum over the pseudo header, the header and the payload,
    and the check on reception.  The pseudo header is written into a buffer of its own: a
    byte array here. *)

From S2P Require Import Prelude Buffer BufferCorrect BufferTheorems ByteIter BufferIter Address Ipv4Address Header.
Local Open Scope Z_scope.

(** [udp-header.h:166-176] UdpHeader *)
Record UdpHeader := mkUdp {
  m_sourcePort : Z;
  m_destinationPort : Z;
  m_payloadSize : Z;
  m_forcedPayloadSize : Z;
  m_source : Address;
  m_destination : Address;
  m_protocol : Z;
  m_checksum : Z;
  m_calcChecksum : bool;
  m_goodChecksum : bool
}.

(** [udp-header.h:166-176] UdpHeader *)
Definition UdpHeader_new : UdpHeader :=
  mkUdp 0xfffd 0xfffd 0 0 Address_default Address_default 17 0 false true.

(** [udp-header.cc] UdpHeader::EnableChecksums *)
Definition EnableChecksums (h : UdpHeader) : UdpHeader :=
  mkUdp (m_sourcePort h) (m_destinationPort h) (m_payloadSize h) (m_forcedPayloadSize h) (m_source h)
    (m_destination h) (m_protocol h) (m_checksum h) true (m_goodChecksum h).

(** [udp-header.cc] UdpHeader::SetDestinationPort *)
Definition SetDestinationPort (port : Z) (h : UdpHeader) : UdpHeader :=
  mkUdp (m_sourcePort h) port (m_payloadSize h) (m_forcedPayloadSize h) (m_source h)
    (m_destination h) (m_protocol h) (m_checksum h) (m_calcChecksum h) (m_goodChecksum h).

(** [udp-header.cc] UdpHeader::SetSourcePort *)
Definition SetSourcePort (port : Z) (h : UdpHeader) : UdpHeader :=
  mkUdp port (m_destinationPort h) (m_payloadSize h) (m_forcedPayloadSize h) (m_source h)
    (m_destination h) (m_protocol h) (m_checksum h) (m_calcChecksum h) (m_goodChecksum h).

(** [udp-header.cc:59-81] UdpHeader::InitializeChecksum

    The three overloads: IPv4 and IPv6 addresses are converted to [Address]. *)
Definition InitializeChecksum (source destination : Address) (protocol : Z) (h : UdpHeader) : UdpHeader :=
  mkUdp (m_sourcePort h) (m_destinationPort h) (m_payloadSize h) (m_forcedPayloadSize h) source
    destination protocol (m_checksum h) (m_calcChecksum h) (m_goodChecksum h).

(** [udp-header.cc] UdpHeader::IsChecksumOk *)
Definition IsChecksumOk (h : UdpHeader) : bool := m_goodChecksum h.

(** [udp-header.cc] UdpHeader::ForceChecksum *)
Definition ForceChecksum (checksum : Z) (h : UdpHeader) : UdpHeader :=
  mkUdp (m_sourcePort h) (m_destinationPort h) (m_payloadSize h) (m_forcedPayloadSize h) (m_source h)
    (m_destination h) (m_protocol h) checksum (m_calcChecksum h) (m_goodChecksum h).

(** [udp-header.cc] UdpHeader::ForcePayloadSize *)
Definition ForcePayloadSize (payloadSize : Z) (h : UdpHeader) : UdpHeader :=
  mkUdp (m_sourcePort h) (m_destinationPort h) (m_payloadSize h) payloadSize (m_source h)
    (m_destination h) (m_protocol h) (m_checksum h) (m_calcChecksum h) (m_goodChecksum h).

(** [udp-header.cc] UdpHeader::GetSerializedSize *)
Definition GetSerializedSize (h : UdpHeader) : Z := 8.

(** [address-utils.cc:46-53] WriteTo *)
Definition WriteTo_Address {M I} `{ByteIter M I} (i : I) (ad : Address) (m : M) : res (I * M) :=
  mac ← CopyTo ad;
  len ← GetLength ad;
  iWrite (take (Z.to_nat len) mac) i m.

(** The scratch buffer: 48 bytes of room in front of 48 zero bytes, the room zero here. *)
Definition scratch_len : Z := 2 * (2 * MAX_SIZE + 8).
Definition scratch : list Z := replicate (Z.to_nat scratch_len) 0.

#[local] Instance scratch_iter : ByteIter (list Z) Z := flat_iter scratch_len.

Section checksum.
Context `{AddressTypes}.

(** [udp-header.cc] UdpHeader::CalculateHeaderChecksum *)
Definition CalculateHeaderChecksum (size : Z) (h : UdpHeader) : res Z :=
  let it : Z := 0 in
  '(it, buf) ← WriteTo_Address it (m_source h) scratch;
  '(it, buf) ← WriteTo_Address it (m_destination h) buf;
  v4 ← Ipv4_IsMatchingType (m_source h);
  '(buf, hdrSize) ←
    (if (v4 : bool) then
       '(it, buf) ← iWriteU8 0 it buf;
       '(it, buf) ← iWriteU8 (m_protocol h) it buf;
       '(it, buf) ← iWriteU8 (Z.shiftr size 8) it buf;
       '(it, buf) ← iWriteU8 (Z.land size 0xff) it buf;
       Ok (buf, 12)
     else
       v6 ← CheckCompatible ipv6_type 16 (m_source h);
       if (v6 : bool) then
         '(it, buf) ← WriteU16 0 it buf;
         '(it, buf) ← iWriteU8 (Z.shiftr size 8) it buf;
         '(it, buf) ← iWriteU8 (Z.land size 0xff) it buf;
         '(it, buf) ← WriteU16 0 it buf;
         '(it, buf) ← iWriteU8 0 it buf;
         '(it, buf) ← iWriteU8 (m_protocol h) it buf;
         Ok (buf, 40)
       else Ok (buf, 0));
  '(c, _) ← CalculateIpChecksum hdrSize 0 buf;
  Ok (u16 (Z.lnot c)).

Section serialization.
Context {M I : Type} `{ByteIter M I}.

(** [udp-header.cc] UdpHeader::Serialize *)
Definition Serialize (h : UdpHeader) (start : I) (m : M) : res M :=
  '(i, m) ← iWriteHtonU16 (m_sourcePort h) start m;
  '(i, m) ← iWriteHtonU16 (m_destinationPort h) i m;
  '(i, m) ← iWriteHtonU16 (if m_forcedPayloadSize h =? 0 then u16 (iGetSize start)
                           else m_forcedPayloadSize h) i m;
  if m_checksum h =? 0 then
    '(i, m) ← WriteU16 0 i m;
    if m_calcChecksum h then
      headerChecksum ← CalculateHeaderChecksum (u16 (iGetSize start)) h;
      '(checksum, _) ← CalculateIpChecksum_init (u16 (iGetSize start)) headerChecksum start m;
      i ← iNext 6 start;
      '(_, m) ← WriteU16 checksum i m;
      Ok m
    else Ok m
  else
    '(_, m) ← WriteU16 (m_checksum h) i m;
    Ok m.

(** [udp-header.cc] UdpHeader::Deserialize *)
Definition Deserialize (h : UdpHeader) (start : I) (m : M) : res (Z * UdpHeader) :=
  '(sourcePort, i) ← iReadNtohU16 start m;
  '(destinationPort, i) ← iReadNtohU16 i m;
  '(len, i) ← iReadNtohU16 i m;
  '(checksum, i) ← ReadU16 i m;
  good ← (if m_calcChecksum h then
            headerChecksum ← CalculateHeaderChecksum (u16 (iGetSize start)) h;
            '(checksum, _) ← CalculateIpChecksum_init (u16 (iGetSize start)) headerChecksum start m;
            Ok (checksum =? 0)
          else Ok (m_goodChecksum h));
  Ok (8, mkUdp sourcePort destinationPort (u16 (len - 8)) (m_forcedPayloadSize h) (m_source h)
           (m_destination h) (m_protocol h) checksum (m_calcChecksum h) good).
End serialization.
End checksum.

#[export] Instance udp_header `{AddressTypes} : Header UdpHeader := {
  hdr_size := GetSerializedSize;
  hdr_Serialize M I B := Serialize;
  hdr_Deserialize M I B := Deserialize
}.

Arguments CalculateHeaderChecksum : simpl never.

(** ** Correctness *)

Section correct.
Context `{AddressTypes}.

(** The pseudo header that both ends sum: both addresses are of the same family. *)
Definition pseudo_header (h : UdpHeader) (size : Z) : list Z :=
  if a_type (m_source h) =? ipv4_type then
    a_data (m_source h) ++ a_data (m_destination h) ++
      [0; m_protocol h; u8 (Z.shiftr size 8); u8 size]
  else
    a_data (m_source h) ++ a_data (m_destination h) ++
      [0; 0; u8 (Z.shiftr size 8); u8 size; 0; 0; 0; m_protocol h].

(** [InitializeChecksum] with two IPv4 addresses or two IPv6 addresses. *)
Definition checksum_addresses (h : UdpHeader) : Prop :=
  fits 8 (m_protocol h) ∧ address_ok (m_source h) ∧ address_ok (m_destination h) ∧
  a_len (m_source h) = a_len (m_destination h) ∧
  ((a_type (m_source h) = ipv4_type ∧ a_len (m_source h) = 4) ∨
   (a_type (m_source h) = ipv6_type ∧ a_len (m_source h) = 16)).

Lemma WriteTo_Address_ok {M I} `{ByteIterLaws M I} {B} ad m a l w mk p (k : I * M → res B) R :
  address_ok ad → 0 < a_len ad → holds m (over a l) w mk → p = Z.of_nat (length a) → p + a_len ad ≤ w →
  (∀ m', holds m' (over (a ++ a_data ad) l) w mk → wp (k (mk (p + a_len ad), m')) R) →
  wp (WriteTo_Address (mk p) ad m ≫= k) R.
Proof.
  intros (_ & Hl & Hm & _) Hpos Hh Hp Hw Hk. unfold WriteTo_Address, CopyTo, GetLength.
  rewrite (proj2 (Z.leb_le (a_len ad) MAX_SIZE)) by done. res_simpl.
  rewrite Hl, Nat2Z.id, firstn_all. eapply wr_Write; [exact Hh|done| |lia|].
  - intros E. rewrite E in Hl. cbn in Hl. lia.
  - intros m' Hm'. rewrite <- Hl. auto.
Qed.

(** The sum over a scratch buffer that starts with [a]. *)
Lemma scratch_sum a m :
  holds (ByteIterLaws := flat_laws scratch_len) m (over a scratch) scratch_len (λ p, p) →
  Forall (fits 8) a → Z.of_nat (length a) ≤ 40 →
  CalculateIpChecksum (Z.of_nat (length a)) 0 m = Ok (ones_complement (wsum a), Z.of_nat (length a)).
Proof.
  intros Hh Ha Hl. unfold CalculateIpChecksum.
  assert (length scratch = 96%nat) as Hs by done.
  rewrite (CalculateIpChecksum_ok (H0 := flat_laws scratch_len) m (over a scratch) scratch_len (λ p, p) Hh).
  - rewrite Z.add_0_l. unfold slice, over. rewrite Nat2Z.id, drop_0, take_app_length. done.
  - apply Forall_app. split; [done|]. apply Forall_drop, Forall_replicate. unfold fits. lia.
  - done.
  - lia.
  - rewrite length_over; lia.
  - lia.
Qed.

(** The rest of the pseudo header behind the addresses. *)
Definition pseudo_tail4 (h : UdpHeader) (size : Z) : list Z :=
  [0; m_protocol h; u8 (Z.shiftr size 8); u8 size].
Definition pseudo_tail6 (h : UdpHeader) (size : Z) : list Z :=
  [0; 0; u8 (Z.shiftr size 8); u8 size; 0; 0; 0; m_protocol h].

Lemma pseudo_tail_fits h size :
  fits 8 (m_protocol h) → Forall (fits 8) (pseudo_tail4 h size) ∧ Forall (fits 8) (pseudo_tail6 h size).
Proof.
  intros Hp. unfold pseudo_tail4, pseudo_tail6.
  split; repeat (constructor; [exact Hp || apply u8_fits || (unfold fits; lia)|]); constructor.
Qed.

Lemma u8_byte size : u8 (Z.land size 255) = u8 size.
Proof. by rewrite land_255, wrap_idemp by lia. Qed.

(** What the sum over the pseudo header is. *)
Lemma CalculateHeaderChecksum_ok h size :
  checksum_addresses h → fits 16 size →
  CalculateHeaderChecksum size h = Ok (fold16 (wsum (pseudo_header h size))).
Proof.
  intros (Hp & Hs & Hd & Hl & Hf) Hsz.
  assert (∃ c, CalculateHeaderChecksum size h = Ok c ∧ c = fold16 (wsum (pseudo_header h size))) as (c & -> & ->); [|done].
  apply wp_Ok. unfold CalculateHeaderChecksum.
  set (a1 := a_data (m_source h)) in *. set (a2 := a_data (m_destination h)) in *.
  assert (holds (ByteIterLaws := flat_laws scratch_len) scratch (over [] scratch) scratch_len (λ p, p)) as Hh.
  { split; [done|]. vm_compute. intuition discriminate. }
  assert (scratch_len = 96) as Hsl by done.
  pose proof Hs as (_ & Hl1 & _ & Hf1). pose proof Hd as (_ & Hl2 & _ & Hf2). fold a1 in Hl1, Hf1. fold a2 in Hl2, Hf2.
  eapply (WriteTo_Address_ok (H1 := flat_laws scratch_len) _ _ [] _ _ (λ p, p)); [done|lia|exact Hh|done|lia|].
  clear Hh. intros m1 Hh. cbn [app] in Hh. fold a1 in Hh.
  eapply (WriteTo_Address_ok (H1 := flat_laws scratch_len) _ _ a1 _ _ (λ p, p)); [done|lia|exact Hh|lia|lia|].
  clear Hh. intros m2 Hh. fold a2 in Hh. unfold Ipv4_IsMatchingType, CheckCompatible. res_simpl.
  change (4 <=? MAX_SIZE) with true. change (16 <=? MAX_SIZE) with true. res_simpl.
  destruct address_types_ok as (_ & _ & Ht4 & Ht6 & Hne). destruct (pseudo_tail_fits h size Hp) as [Hft4 Hft6].
  assert (∀ a m n, holds (ByteIterLaws := flat_laws scratch_len) m (over a scratch) scratch_len (λ p, p) →
    a = pseudo_header h size → Forall (fits 8) a → Z.of_nat (length a) = n → n ≤ 40 →
    wp ('(c, _) ← CalculateIpChecksum n 0 m; Ok (u16 (Z.lnot c)))
      (λ c, c = fold16 (wsum (pseudo_header h size)))) as Hfin.
  { intros a m n Hm Hps Ha <- Hal. rewrite scratch_sum by done. res_simpl. cbn [wp]. rewrite <- Hps.
    pose proof (wsum_nonneg a Ha). pose proof (fold16_range (wsum a) ltac:(lia)).
    unfold ones_complement. rewrite lnot_u16; lia. }
  unfold pseudo_header in Hfin |- *. fold a1 a2 in Hfin. fold a1 a2.
  destruct Hf as [[Ht Hal]|[Ht Hal]]; rewrite <- Hl, Hal, Ht, ?Z.eqb_refl in *; res_simpl; cbn [andb orb].
  - apply wp_bind. do 4 wr_step Hh. rewrite u8_byte, (wrap_id 8 (m_protocol h)), (wrap_id 8 0), <- !app_assoc in Hh by done.
    cbn [wp app] in *. eapply Hfin; [exact Hh|done|by rewrite !Forall_app| |lia].
    rewrite !length_app, !Nat2Z.inj_add. cbn [length]. lia.
  - rewrite !(proj2 (Z.eqb_neq ipv6_type _)) in Hfin |- * by congruence.
    rewrite (proj2 (Z.eqb_neq ipv6_type 0)), !andb_false_r by done. cbn [andb orb]. res_simpl. cbn [andb orb]. apply wp_bind. do 6 wr_step Hh.
    change (le16 0) with [0; 0] in Hh. change (u8 0) with 0 in Hh.
    rewrite u8_byte, (wrap_id 8 (m_protocol h)), <- !app_assoc in Hh by done.
    cbn [wp app] in *. eapply Hfin; [exact Hh|done|by rewrite !Forall_app| |lia].
    rewrite !length_app, !Nat2Z.inj_add. cbn [length]. lia.
Qed.

(** ** The wire format *)

Definition udp_size (l : list Z) : Z := 8 + Z.of_nat (length l).

Definition udp_front (h : UdpHeader) (l : list Z) : list Z :=
  be16 (m_sourcePort h) ++ be16 (m_destinationPort h) ++
  be16 (if m_forcedPayloadSize h =? 0 then udp_size l else m_forcedPayloadSize h).

(** The one's complement sum of the pseudo header and the datagram [d]. *)
Definition udp_sum (h : UdpHeader) (size : Z) (d : list Z) : Z :=
  fold16 (wsum (pseudo_header h size)) + wsum d.

Definition udp_checksum (h : UdpHeader) (l : list Z) : Z :=
  if m_checksum h =? 0 then
    if m_calcChecksum h then ones_complement (udp_sum h (udp_size l) (udp_front h l ++ [0; 0] ++ l)) else 0
  else m_checksum h.

Definition udp_wire (h : UdpHeader) (l : list Z) : list Z := udp_front h l ++ le16 (udp_checksum h l).

(** The result of the check on reception. *)
Definition udp_good (h : UdpHeader) (d : list Z) : bool :=
  if m_calcChecksum h then ones_complement (udp_sum h (Z.of_nat (length d)) d) =? 0 else m_goodChecksum h.

Definition udp_received (h0 h : UdpHeader) (l : list Z) : UdpHeader :=
  mkUdp (m_sourcePort h) (m_destinationPort h)
    (u16 ((if m_forcedPayloadSize h =? 0 then udp_size l else m_forcedPayloadSize h) - 8))
    (m_forcedPayloadSize h0) (m_source h0) (m_destination h0) (m_protocol h0)
    (udp_checksum h l) (m_calcChecksum h0) (udp_good h0 (udp_wire h l ++ l)).

Definition udp_ok (h : UdpHeader) (l : list Z) : Prop :=
  fits 16 (m_sourcePort h) ∧ fits 16 (m_destinationPort h) ∧ fits 16 (m_forcedPayloadSize h) ∧
  fits 16 (m_checksum h) ∧ udp_size l < 2 ^ 16 ∧ Forall (fits 8) l ∧
  (m_calcChecksum h = true → checksum_addresses h).

Definition udp_accepts (h : UdpHeader) : Prop := m_calcChecksum h = true → checksum_addresses h.

Lemma pseudo_header_fits h size : checksum_addresses h → Forall (fits 8) (pseudo_header h size).
Proof.
  intros (Hp & (_ & _ & _ & H1) & (_ & _ & _ & H2) & _). destruct (pseudo_tail_fits h size Hp).
  unfold pseudo_header. case_match; rewrite !Forall_app; auto.
Qed.

Lemma be16_fits v : Forall (fits 8) (be16 v).
Proof. repeat constructor; apply u8_fits. Qed.

Lemma le16_fits v : Forall (fits 8) (le16 v).
Proof. repeat constructor; apply u8_fits. Qed.

Lemma udp_front_fits h l : Forall (fits 8) (udp_front h l).
Proof. unfold udp_front. rewrite !Forall_app. auto using be16_fits. Qed.

Lemma udp_sum_nonneg h size d : checksum_addresses h → Forall (fits 8) d → 0 ≤ udp_sum h size d.
Proof.
  intros Hc Hd. pose proof (wsum_nonneg _ (pseudo_header_fits h size Hc)).
  pose proof (fold16_range (wsum (pseudo_header h size)) ltac:(lia)). pose proof (wsum_nonneg d Hd).
  unfold udp_sum. lia.
Qed.

Lemma udp_checksum_fits h l : udp_ok h l → fits 16 (udp_checksum h l).
Proof.
  intros (_ & _ & _ & Hck & _ & Hl & Ha). unfold udp_checksum. case_match; [|done].
  destruct (m_calcChecksum h); [|unfold fits; lia]. apply ones_complement_fits, udp_sum_nonneg; [auto|].
  rewrite !Forall_app. conj; [apply udp_front_fits| |done]. repeat constructor; unfold fits; lia.
Qed.

(** The checksum over [d], as both [Serialize] and [Deserialize] compute it. *)
Lemma udp_sum_ok {M I} `{ByteIterLaws M I} {B} h m d w mk (k : Z → res B) R :
  checksum_addresses h → holds m d w mk → Forall (fits 8) d → Z.of_nat (length d) < 2 ^ 16 →
  wp (k (ones_complement (udp_sum h (Z.of_nat (length d)) d))) R →
  wp (hc ← CalculateHeaderChecksum (u16 (iGetSize (mk 0))) h;
      '(c, _) ← CalculateIpChecksum_init (u16 (iGetSize (mk 0))) hc (mk 0) m; k c) R.
Proof.
  intros Hc Hm Hd Hl Hk. rewrite (law_GetSize _ _ _ _ 0 Hm), wrap_id by (unfold fits; lia).
  rewrite CalculateHeaderChecksum_ok by (done || unfold fits; lia). res_simpl.
  pose proof (wsum_nonneg _ (pseudo_header_fits h (Z.of_nat (length d)) Hc)).
  pose proof (fold16_range (wsum (pseudo_header h (Z.of_nat (length d)))) ltac:(lia)).
  rewrite (CalculateIpChecksum_ok m d w mk Hm Hd 0 (Z.of_nat (length d))) by lia. res_simpl.
  unfold slice in *. by rewrite drop_0, Nat2Z.id, firstn_all.
Qed.

Lemma length_udp_front h l : length (udp_front h l) = 6%nat.
Proof. done. Qed.

Lemma udp_Serialize_ok {M I} `{ByteIterLaws M I} m room l mk h :
  udp_ok h l → Z.of_nat (length room) = 8 → holds m (room ++ l) 8 mk →
  wp (Serialize h (mk 0) m) (λ m', holds m' (udp_wire h l ++ l) 8 mk).
Proof.
  intros Hok Hroom Hm. pose proof Hok as (Hs & Hd & Hf & Hck & Hsz & Hl & Ha).
  unfold udp_size in Hsz. unfold Serialize, udp_wire, udp_checksum.
  rewrite (law_GetSize _ _ _ _ 0 Hm), length_app, Nat2Z.inj_add, Hroom.
  rewrite (wrap_id 16 (8 + _)) by (unfold fits; lia). fold (udp_size l).
  rewrite <- (over_nil (room ++ l)) in Hm. do 3 wr_step Hm. cbn [app] in Hm.
  change (holds m'1 (over (udp_front h l) (room ++ l)) 8 mk) in Hm.
  destruct (m_checksum h =? 0).
  2: { wr_step Hm. cbn [wp]. rewrite over_room_full in Hm; [done|]. rewrite length_app, length_udp_front. cbn. lia. }
  wr_step Hm. change (le16 0) with [0; 0] in Hm.
  assert (length (udp_front h l ++ [0; 0]) = length room) as Hlen by (rewrite length_app, length_udp_front; cbn; lia).
  rewrite over_room_full in Hm by done. destruct (m_calcChecksum h) eqn:Hcalc.
  2: { cbn [wp]. exact Hm. }
  assert (Z.of_nat (length ((udp_front h l ++ [0; 0]) ++ l)) = udp_size l) as Hd8.
  { rewrite length_app, Hlen. unfold udp_size. lia. }
  assert (u16 (iGetSize (mk 0)) = udp_size l) as Egs.
  { rewrite (law_GetSize _ _ _ _ 0 Hm), Hd8. apply wrap_id. unfold fits, udp_size in *. lia. }
  rewrite <- Egs. eapply (udp_sum_ok (M := M)); [by apply Ha|exact Hm| |unfold udp_size in *; lia|].
  { rewrite !Forall_app. conj; [apply udp_front_fits|repeat constructor; unfold fits; lia|done]. }
  rewrite (law_Next _ _ _ _ 0 6 Hm) by (unfold udp_size in *; lia). res_simpl. rewrite Egs, Hd8.
  rewrite <- app_assoc in Hm |- *. rewrite <- (over_app (udp_front h l)) in Hm.
  change (0 + 6) with 6. wr_step Hm. cbn [wp]. rewrite app_assoc, over_room_full in Hm; [done|].
  rewrite !length_app. done.
Qed.

Lemma udp_Deserialize_ok {M I} `{ByteIterLaws M I} m l w mk h0 h :
  udp_ok h l → udp_accepts h0 → holds m (udp_wire h l ++ l) w mk →
  Deserialize h0 (mk 0) m = Ok (8, udp_received h0 h l).
Proof.
  intros Hok Hacc Hm. pose proof (udp_checksum_fits h l Hok) as Hck'.
  pose proof Hok as (Hs & Hd & Hf & Hck & Hsz & Hl & Ha). unfold udp_size in Hsz.
  assert (∃ r, Deserialize h0 (mk 0) m = Ok r ∧ r = (8, udp_received h0 h l)) as (r & -> & ->); [|done].
  apply wp_Ok. unfold Deserialize.
  set (len := if m_forcedPayloadSize h =? 0 then udp_size l else m_forcedPayloadSize h).
  assert (fits 16 len) as Hlen by (unfold len, fits, udp_size in *; case_match; lia).
  eapply (rd_ReadNtohU16 m _ _ _ _ Hm _ (be16 (m_sourcePort h))); [lia|reflexivity|done|].
  eapply (rd_ReadNtohU16 m _ _ _ _ Hm _ (be16 (m_destinationPort h))); [lia|reflexivity|done|].
  eapply (rd_ReadNtohU16 m _ _ _ _ Hm _ (be16 len)); [lia|reflexivity|done|].
  eapply (rd_ReadU16 m _ _ _ _ Hm _ (le16 (udp_checksum h l))); [lia|reflexivity|done|].
  rewrite !ntoh16_be16, lsb16_le16 by done. unfold udp_received, udp_good. fold len.
  destruct (m_calcChecksum h0) eqn:Hcalc; [|cbn [wp]; done].
  assert (length (udp_wire h l) = 8%nat) as Hw8 by done.
  apply wp_bind. eapply (udp_sum_ok (M := M)); [by apply Hacc|exact Hm| | |cbn [wp]; done].
  - unfold udp_wire. rewrite !Forall_app. auto using udp_front_fits, le16_fits.
  - rewrite length_app, Hw8. lia.
Qed.
End correct.

#[export, refine] Instance udp_laws `{AddressTypes} : HeaderLaws UdpHeader := {
  hdr_ok := udp_ok;
  hdr_wire := udp_wire;
  hdr_accepts := udp_accepts;
  hdr_received := udp_received
}.
Proof.
  - done.
  - intros M I B L m room l mk h. apply udp_Serialize_ok.
  - intros M I B L m l w mk h0 h. apply udp_Deserialize_ok.
Defined.

(** ** Detection of corruption *)

(** The weight of byte [i] in a sum of words. *)
Definition weight (i : nat) : Z := if Nat.even i then 1 else 256.

Lemma wsum_insert l (i : nat) (x y : Z) :
  l !! i = Some x → wsum (<[i := y]> l) = wsum l + (y - x) * weight i.
Proof.
  revert l i. fix IH 1. intros [|a [|b l]] [|[|i]] Hi; try done; cbn in Hi.
  - injection Hi as ->. cbn. lia.
  - injection Hi as ->. cbn [insert list_insert wsum weight Nat.even]. lia.
  - injection Hi as ->. cbn [insert list_insert wsum weight Nat.even]. lia.
  - change (wsum (<[S (S i) := y]> (a :: b :: l))) with (a + 256 * b + wsum (<[i := y]> l)).
    rewrite (IH l i Hi). unfold weight. cbn [Nat.even wsum]. lia.
Qed.

(** A sum that is right is not right any more when one byte changes. *)
Lemma checksum_detects s d i x y :
  0 ≤ s → Forall (fits 8) d → ones_complement (s + wsum d) = 0 → d !! i = Some x → fits 8 y → x ≠ y →
  ones_complement (s + wsum (<[i := y]> d)) ≠ 0.
Proof.
  intros Hs Hd H0 Hi Hy Hne. pose proof (wsum_nonneg d Hd) as Hw.
  assert (fits 8 x) as Hx by (rewrite Forall_forall in Hd; by eapply Hd, list_elem_of_lookup_2).
  assert (Forall (fits 8) (<[i := y]> d)) as Hd' by (by apply Forall_insert).
  pose proof (wsum_nonneg _ Hd') as Hw'. rewrite (wsum_insert d i x y Hi) in *.
  unfold ones_complement, fold16, weight, fits in *.
  destruct (Z.eqb_spec (s + wsum d) 0); [lia|].
  destruct (Z.eqb_spec (s + (wsum d + (y - x) * (if Nat.even i then 1 else 256))) 0); [lia|].
  intros H1. destruct (Nat.even i); Z.to_euclidean_division_equations; lia.
Qed.

Section theorems.
Context `{AddressTypes}.

(** Both ends check, for the same addresses and protocol. *)
Definition same_pseudo (h0 h : UdpHeader) : Prop :=
  m_calcChecksum h0 = true ∧ m_calcChecksum h = true ∧ m_checksum h = 0 ∧
  m_source h0 = m_source h ∧ m_destination h0 = m_destination h ∧ m_protocol h0 = m_protocol h ∧
  checksum_addresses h.

Lemma udp_wire_good h0 h l :
  udp_ok h l → same_pseudo h0 h →
  ones_complement (udp_sum h0 (udp_size l) (udp_wire h l ++ l)) = 0.
Proof.
  intros (_ & _ & _ & _ & Hsz & Hl & _) (_ & Hc & Hck & Hs & Hd & Hp & Ha).
  assert (∀ size d, udp_sum h0 size d = udp_sum h size d) as E.
  { intros. unfold udp_sum, pseudo_header. by rewrite Hs, Hd, Hp. }
  rewrite E. clear E. set (s := udp_sum h (udp_size l) (udp_front h l ++ [0; 0] ++ l)).
  assert (Forall (fits 8) (udp_front h l ++ [0; 0] ++ l)) as Hf.
  { rewrite !Forall_app. conj; [apply udp_front_fits|repeat constructor; unfold fits; lia|done]. }
  assert (udp_sum h (udp_size l) (udp_wire h l ++ l) = s + ones_complement s) as ->.
  { unfold udp_sum at 1. unfold udp_wire, udp_checksum. rewrite Hc, Hck. cbn [Z.eqb].
    fold s. pose proof (ones_complement_fits s (udp_sum_nonneg h (udp_size l) _ Ha Hf)) as Hfit.
    rewrite <- app_assoc. rewrite !wsum_app by (by exists 3%nat).
    unfold le16 at 1. cbn [app wsum]. rewrite shiftr_div by lia.
    assert (u8 (ones_complement s) + 256 * u8 (ones_complement s / 2 ^ 8) = ones_complement s) by byte_lia.
    assert (s = fold16 (wsum (pseudo_header h (udp_size l))) + (wsum (udp_front h l) + (0 + 256 * 0 + wsum l))) as Es.
    { unfold s, udp_sum. by rewrite wsum_app by (by exists 3%nat). }
    clearbody s. lia. }
  apply ones_complement_verify. by apply udp_sum_nonneg.
Qed.

(** Deserialization of any datagram of at least a header. *)
Lemma udp_Deserialize_any {M I} `{ByteIterLaws M I} m d w mk h0 :
  udp_accepts h0 → holds m d w mk → 8 ≤ Z.of_nat (length d) < 2 ^ 16 → Forall (fits 8) d →
  ∃ h', Deserialize h0 (mk 0) m = Ok (8, h') ∧ IsChecksumOk h' = udp_good h0 d.
Proof.
  intros Hacc Hm Hlen Hd.
  assert (∃ r, Deserialize h0 (mk 0) m = Ok r ∧ r.1 = 8 ∧ IsChecksumOk r.2 = udp_good h0 d) as ([n h'] & -> & Hn & Hg).
  2: { cbn in Hn. subst n. by exists h'. }
  apply wp_Ok. unfold Deserialize, udp_good. pose proof Hm as Hm'. rewrite <- (take_drop 8 d) in Hm'.
  assert (length (take 8 d) = 8%nat) as Hl8 by (rewrite length_take; lia).
  assert (∀ p, 0 ≤ p ≤ 6 → length (slice p 2 (take 8 d)) = 2%nat) as Hsl by (intros; rewrite length_slice; lia).
  eapply (rd_ReadNtohU16 m _ _ _ _ Hm'); [lia|reflexivity|apply Hsl; lia|].
  eapply (rd_ReadNtohU16 m _ _ _ _ Hm'); [lia|reflexivity|apply Hsl; lia|].
  eapply (rd_ReadNtohU16 m _ _ _ _ Hm'); [lia|reflexivity|apply Hsl; lia|].
  eapply (rd_ReadU16 m _ _ _ _ Hm'); [lia|reflexivity|apply Hsl; lia|].
  destruct (m_calcChecksum h0) eqn:Hcalc; [|by cbn [wp]].
  apply wp_bind. eapply (udp_sum_ok (M := M)); [by apply Hacc|exact Hm|done|lia|]. by cbn [wp].
Qed.

(** C33 A UDP header in a packet: serialized into the room made in front of the payload it
    leaves the payload and every other buffer; read back it gives the ports and the
    payload's length, the checksum is right when both ends compute it for the same
    addresses, and what is left is the payload. *)
Theorem UdpHeader_roundtrip fill b bs h (hd h0 : UdpHeader) :
  heap_inv None h (b :: bs) → udp_ok hd (view h b) → same_pseudo h0 hd → m_forcedPayloadSize hd = 0 →
  m_end b < 2 ^ 31 - 108 → Z.of_nat (length (b :: bs)) < 2 ^ 32 →
  ∃ b1 h1 h2 b2 hd', AddAtStart fill (GetSerializedSize hd) b h = Ok (b1, h1) ∧
    Serialize hd (Begin b1) h1 = Ok h2 ∧ Deserialize h0 (Begin b1) h2 = Ok (8, hd') ∧
    m_sourcePort hd' = m_sourcePort hd ∧ m_destinationPort hd' = m_destinationPort hd ∧
    m_payloadSize hd' = Z.of_nat (length (view h b)) ∧ IsChecksumOk hd' = true ∧
    RemoveAtStart 8 b1 = Ok b2 ∧ heap_inv None h2 (b2 :: bs) ∧ view h2 b2 = view h b ∧
    ∀ o, o ∈ bs → view h2 o = view h o.
Proof.
  intros Hi Hok Hsame Hf Hcap Hlen.
  assert (udp_accepts h0) as Hacc.
  { intros _. destruct Hsame as (_ & _ & _ & Hs & Hd & Hp & Ha). unfold checksum_addresses in *. by rewrite Hs, Hd, Hp. }
  destruct (@header_roundtrip UdpHeader _ udp_laws fill b bs h hd h0 Hi Hok Hacc) as (b1 & h1 & h2 & b2 & Hadd & Hser & _ & _ & Hde & Hrm & Hi2 & Hv & Ho).
  { cbn. unfold GetSerializedSize. lia. } { cbn. unfold GetSerializedSize. lia. } { done. }
  eexists b1, h1, h2, b2, _. conj; [exact Hadd|exact Hser|exact Hde|done|done| | |exact Hrm|done|done|done].
  - cbn -[wrap]. rewrite Hf. cbn -[wrap]. unfold udp_ok, udp_size in *. rewrite wrap_id; unfold fits; lia.
  - change (udp_good h0 (udp_wire hd (view h b) ++ view h b) = true). unfold udp_good.
    rewrite (proj1 Hsame). apply Z.eqb_eq. rewrite length_app, Nat2Z.inj_add.
    by apply udp_wire_good.
Qed.

(** C39 The UDP checksum: when a single byte of the datagram, header or payload, changes on
    the way, [IsChecksumOk] is false after [Deserialize]; unchanged, it is true.  In any
    memory that implements iterators. *)
Theorem UdpHeader_detects_corruption {M I} `{ByteIterLaws M I} m l d w mk h0 h (i : nat) x y :
  udp_ok h l → same_pseudo h0 h → d = udp_wire h l ++ l → d !! i = Some x → fits 8 y →
  holds m (<[i := y]> d) w mk →
  ∃ h', Deserialize h0 (mk 0) m = Ok (8, h') ∧ IsChecksumOk h' = bool_decide (x = y).
Proof.
  intros Hok Hsame Hd Hi Hy Hm. pose proof (udp_wire_good h0 h l Hok Hsame) as Hgood.
  pose proof Hok as (_ & _ & _ & _ & Hsz & Hl & _). pose proof Hsame as (Hc0 & _ & _ & Hs & Hdst & Hp & Ha).
  assert (checksum_addresses h0) as Ha0 by (unfold checksum_addresses in *; by rewrite Hs, Hdst, Hp).
  assert (length (udp_wire h l) = 8%nat) as Hw8 by done.
  assert (Z.of_nat (length d) = udp_size l) as Hlen by (subst d; rewrite length_app, Hw8; unfold udp_size; lia).
  assert (Forall (fits 8) d) as Hfd.
  { subst d. apply Forall_app. split; [|done]. unfold udp_wire. apply Forall_app. auto using udp_front_fits, le16_fits. }
  destruct (udp_Deserialize_any m (<[i := y]> d) w mk h0) as (h' & Hde & Hg); [by intros _|done| | |].
  { rewrite length_insert. unfold udp_size in *. lia. } { by apply Forall_insert. }
  exists h'. split; [done|]. rewrite Hg. unfold udp_good. rewrite Hc0, length_insert, Hlen.
  rewrite <- Hd in Hgood. unfold udp_sum in *.
  assert (0 ≤ fold16 (wsum (pseudo_header h0 (udp_size l)))) as Hps.
  { apply fold16_range, wsum_nonneg. by apply pseudo_header_fits. }
  destruct (decide (x = y)) as [->|Hne].
  - rewrite bool_decide_true by done. rewrite list_insert_id by done. by apply Z.eqb_eq.
  - rewrite bool_decide_false by done. apply Z.eqb_neq. by eapply checksum_detects.
Qed.
End theorems.

(** ** The theorems on concrete input *)

Section example.
Definition demo_types : AddressTypes.
Proof. refine {| ipv4_type := 2; ipv6_type := 3 |}. unfold fits. lia. Defined.
Local Existing Instance demo_types.

Definition demo_addr (x : Z) : Address := mkAddress 2 4 (be32 x).
Definition demo_udp : UdpHeader :=
  InitializeChecksum (demo_addr 0x0a000001) (demo_addr 0x0a000002) 17
    (EnableChecksums (SetSourcePort 4000 (SetDestinationPort 53 UdpHeader_new))).

Lemma demo_addr_ok x : address_ok (demo_addr x).
Proof.
  unfold address_ok, demo_addr, MAX_SIZE. cbn [a_type a_len a_data]. conj; [unfold fits; lia|done|lia|apply be16_fits || idtac].
  repeat constructor; apply u8_fits.
Qed.

Lemma demo_checksum_addresses : checksum_addresses demo_udp.
Proof. unfold checksum_addresses. conj; [unfold fits; cbn; lia|apply demo_addr_ok|apply demo_addr_ok|done|by left]. Qed.

Lemma demo_same : same_pseudo demo_udp demo_udp.
Proof. unfold same_pseudo. conj; try done. apply demo_checksum_addresses. Qed.

Lemma demo_udp_ok l : udp_size l < 2 ^ 16 → Forall (fits 8) l → udp_ok demo_udp l.
Proof. intros. unfold udp_ok. conj; try done; unfold fits; cbn; try lia. intros _. apply demo_checksum_addresses. Qed.

Lemma UdpHeader_roundtrip_witness :
  view demo_h demo_c = [1; 2; 3; 0; 0; 0; 0; 0; 0; 0; 0; 0; 0; 4; 5] ∧
  ∃ b1 h1 h2 b2 hd', AddAtStart demo_fill 8 demo_c demo_h = Ok (b1, h1) ∧
    Serialize demo_udp (Begin b1) h1 = Ok h2 ∧ Deserialize demo_udp (Begin b1) h2 = Ok (8, hd') ∧
    IsChecksumOk hd' = true ∧ m_payloadSize hd' = 15 ∧ view h2 b2 = view demo_h demo_c.
Proof.
  split; [vm_compute; reflexivity|].
  destruct (UdpHeader_roundtrip demo_fill demo_c [demo_b] demo_h demo_udp demo_udp)
    as (b1 & h1 & h2 & b2 & hd' & Hadd & Hser & Hde & _ & _ & Hsz & Hck & _ & _ & Hv & _).
  - exact demo_ok.
  - apply demo_udp_ok; [vm_compute; reflexivity|apply (bool_decide_unpack _); vm_compute; exact I].
  - exact demo_same.
  - reflexivity.
  - vm_compute. reflexivity.
  - vm_compute. reflexivity.
  - exists b1, h1, h2, b2, hd'. split; [exact Hadd|]. split; [exact Hser|]. split; [exact Hde|].
    split; [exact Hck|]. split; [rewrite Hsz; vm_compute; reflexivity|exact Hv].
Defined.

(** The last byte of the payload [7; 8; 9] arrives as 5. *)
Lemma UdpHeader_detects_corruption_witness :
  ∃ h', Deserialize (H0 := flat_iter 11) demo_udp 0
      (<[10%nat := 5]> (udp_wire demo_udp [7; 8; 9] ++ [7; 8; 9])) = Ok (8, h') ∧
    IsChecksumOk h' = false.
Proof.
  destruct (UdpHeader_detects_corruption (H1 := flat_laws 11)
    (<[10%nat := 5]> (udp_wire demo_udp [7; 8; 9] ++ [7; 8; 9])) [7; 8; 9]
    (udp_wire demo_udp [7; 8; 9] ++ [7; 8; 9]) 0 (λ p, p) demo_udp demo_udp 10 9 5) as (h' & Hde & Hck).
  - apply demo_udp_ok; [vm_compute; reflexivity|apply (bool_decide_unpack _); vm_compute; exact I].
  - exact demo_same.
  - reflexivity.
  - vm_compute. reflexivity.
  - unfold fits. lia.
  - split; [reflexivity|]. vm_compute. intuition discriminate.
  - exists h'. split; [exact Hde|exact Hck].
Defined.
End example.
