(* ===== verification/Ipv4Header.v ===== *)
(** * The IPv4 header (src/src/internet/model/ipv4-header.cc)

    Fields, serialization with the header checksum, deserialization. *)

From S2P Require Import Prelude Buffer BufferCorrect BufferTheorems ByteIter BufferIter Ipv4Address Header.
Local Open Scope Z_scope.

(** [ipv4-header.h:246-250] Ipv4Header::FlagsE *)
Definition DONT_FRAGMENT : Z := 1.
Definition MORE_FRAGMENTS : Z := 2.

(** [ipv4-header.h:252-265] Ipv4Header *)
Record Ipv4Header := mkIp {
  m_calcChecksum : bool;
  m_payloadSize : Z;
  m_identification : Z;
  m_tos : Z;
  m_ttl : Z;
  m_protocol : Z;
  m_flags : Z;
  m_fragmentOffset : Z;
  m_source : Ipv4Address;
  m_destination : Ipv4Address;
  m_checksum : Z;
  m_goodChecksum : bool;
  m_headerSize : Z
}.

(** [ipv4-header.cc:34-47] Ipv4Header::Ipv4Header *)
Definition Ipv4Header_new : Ipv4Header :=
  mkIp false 0 0 0 0 0 0 0 Ipv4Address_default Ipv4Address_default 0 true (5 * 4).

(** [ipv4-header.cc] Ipv4Header::EnableChecksum *)
Definition EnableChecksum (h : Ipv4Header) : Ipv4Header :=
  mkIp true (m_payloadSize h) (m_identification h) (m_tos h) (m_ttl h) (m_protocol h) (m_flags h)
    (m_fragmentOffset h) (m_source h) (m_destination h) (m_checksum h) (m_goodChecksum h) (m_headerSize h).

(** [ipv4-header.cc] Ipv4Header::SetPayloadSize *)
Definition SetPayloadSize (size : Z) (h : Ipv4Header) : Ipv4Header :=
  mkIp (m_calcChecksum h) size (m_identification h) (m_tos h) (m_ttl h) (m_protocol h) (m_flags h)
    (m_fragmentOffset h) (m_source h) (m_destination h) (m_checksum h) (m_goodChecksum h) (m_headerSize h).

(** [ipv4-header.cc] Ipv4Header::SetIdentification *)
Definition SetIdentification (identification : Z) (h : Ipv4Header) : Ipv4Header :=
  mkIp (m_calcChecksum h) (m_payloadSize h) identification (m_tos h) (m_ttl h) (m_protocol h) (m_flags h)
    (m_fragmentOffset h) (m_source h) (m_destination h) (m_checksum h) (m_goodChecksum h) (m_headerSize h).

(** [ipv4-header.cc] Ipv4Header::SetTos *)
Definition SetTos (tos : Z) (h : Ipv4Header) : Ipv4Header :=
  mkIp (m_calcChecksum h) (m_payloadSize h) (m_identification h) tos (m_ttl h) (m_protocol h) (m_flags h)
    (m_fragmentOffset h) (m_source h) (m_destination h) (m_checksum h) (m_goodChecksum h) (m_headerSize h).

(** [ipv4-header.cc] Ipv4Header::SetDscp *)
Definition SetDscp (dscp : Z) (h : Ipv4Header) : Ipv4Header :=
  SetTos (u8 (Z.lor (Z.land (m_tos h) 0x3) (Z.shiftl dscp 2))) h.

(** [ipv4-header.cc] Ipv4Header::SetEcn *)
Definition SetEcn (ecn : Z) (h : Ipv4Header) : Ipv4Header :=
  SetTos (u8 (Z.lor (Z.land (m_tos h) 0xFC) ecn)) h.

(** [ipv4-header.cc] Ipv4Header::GetDscp *)
Definition GetDscp (h : Ipv4Header) : Z := Z.shiftr (Z.land (m_tos h) 0xFC) 2.

(** [ipv4-header.cc] Ipv4Header::GetEcn *)
Definition GetEcn (h : Ipv4Header) : Z := Z.land (m_tos h) 0x3.

Definition set_flags (flags : Z) (h : Ipv4Header) : Ipv4Header :=
  mkIp (m_calcChecksum h) (m_payloadSize h) (m_identification h) (m_tos h) (m_ttl h) (m_protocol h)
    (wrap 3 flags) (m_fragmentOffset h) (m_source h) (m_destination h) (m_checksum h) (m_goodChecksum h)
    (m_headerSize h).

(** [ipv4-header.cc] Ipv4Header::SetMoreFragments *)
Definition SetMoreFragments (h : Ipv4Header) : Ipv4Header := set_flags (Z.lor (m_flags h) MORE_FRAGMENTS) h.

(** [ipv4-header.cc] Ipv4Header::SetLastFragment *)
Definition SetLastFragment (h : Ipv4Header) : Ipv4Header :=
  set_flags (Z.land (m_flags h) (Z.lnot MORE_FRAGMENTS)) h.

(** [ipv4-header.cc] Ipv4Header::IsLastFragment *)
Definition IsLastFragment (h : Ipv4Header) : bool := Z.land (m_flags h) MORE_FRAGMENTS =? 0.

(** [ipv4-header.cc] Ipv4Header::SetDontFragment *)
Definition SetDontFragment (h : Ipv4Header) : Ipv4Header := set_flags (Z.lor (m_flags h) DONT_FRAGMENT) h.

(** [ipv4-header.cc] Ipv4Header::SetMayFragment *)
Definition SetMayFragment (h : Ipv4Header) : Ipv4Header :=
  set_flags (Z.land (m_flags h) (Z.lnot DONT_FRAGMENT)) h.

(** [ipv4-header.cc] Ipv4Header::IsDontFragment *)
Definition IsDontFragment (h : Ipv4Header) : bool := negb (Z.land (m_flags h) DONT_FRAGMENT =? 0).

(** [ipv4-header.cc] Ipv4Header::SetFragmentOffset *)
Definition SetFragmentOffset (offsetBytes : Z) (h : Ipv4Header) : res Ipv4Header :=
  ns_abort_unless (Z.land offsetBytes 0x7 =? 0) ≫= λ _,
  Ok (mkIp (m_calcChecksum h) (m_payloadSize h) (m_identification h) (m_tos h) (m_ttl h) (m_protocol h)
        (m_flags h) offsetBytes (m_source h) (m_destination h) (m_checksum h) (m_goodChecksum h)
        (m_headerSize h)).

(** [ipv4-header.cc] Ipv4Header::GetFragmentOffset

    A fragment that exceeds the maximum size only logs a warning. *)
Definition GetFragmentOffset (h : Ipv4Header) : Z := m_fragmentOffset h.

(** [ipv4-header.cc] Ipv4Header::SetTtl *)
Definition SetTtl (ttl : Z) (h : Ipv4Header) : Ipv4Header :=
  mkIp (m_calcChecksum h) (m_payloadSize h) (m_identification h) (m_tos h) ttl (m_protocol h) (m_flags h)
    (m_fragmentOffset h) (m_source h) (m_destination h) (m_checksum h) (m_goodChecksum h) (m_headerSize h).

(** [ipv4-header.cc] Ipv4Header::SetProtocol *)
Definition SetProtocol (protocol : Z) (h : Ipv4Header) : Ipv4Header :=
  mkIp (m_calcChecksum h) (m_payloadSize h) (m_identification h) (m_tos h) (m_ttl h) protocol (m_flags h)
    (m_fragmentOffset h) (m_source h) (m_destination h) (m_checksum h) (m_goodChecksum h) (m_headerSize h).

(** [ipv4-header.cc] Ipv4Header::SetSource *)
Definition SetSource (source : Ipv4Address) (h : Ipv4Header) : Ipv4Header :=
  mkIp (m_calcChecksum h) (m_payloadSize h) (m_identification h) (m_tos h) (m_ttl h) (m_protocol h) (m_flags h)
    (m_fragmentOffset h) source (m_destination h) (m_checksum h) (m_goodChecksum h) (m_headerSize h).

(** [ipv4-header.cc] Ipv4Header::SetDestination *)
Definition SetDestination (dst : Ipv4Address) (h : Ipv4Header) : Ipv4Header :=
  mkIp (m_calcChecksum h) (m_payloadSize h) (m_identification h) (m_tos h) (m_ttl h) (m_protocol h) (m_flags h)
    (m_fragmentOffset h) (m_source h) dst (m_checksum h) (m_goodChecksum h) (m_headerSize h).

(** [ipv4-header.cc] Ipv4Header::IsChecksumOk *)
Definition IsChecksumOk (h : Ipv4Header) : bool := m_goodChecksum h.

(** [ipv4-header.cc] Ipv4Header::GetSerializedSize *)
Definition GetSerializedSize (h : Ipv4Header) : Z := m_headerSize h.

Section serialization.
Context {M I : Type} `{ByteIter M I}.

(** [ipv4-header.cc:402-411] Ipv4Header::Serialize

    The byte of the flags and the high bits of the offset. *)
Definition flags_frag (h : Ipv4Header) : Z :=
  let fragmentOffset := m_fragmentOffset h / 8 in
  let flagsFrag := u8 (Z.land (Z.shiftr fragmentOffset 8) 0x1f) in
  let flagsFrag := if Z.land (m_flags h) DONT_FRAGMENT =? 0 then flagsFrag
                   else Z.lor flagsFrag (Z.shiftl 1 6) in
  if Z.land (m_flags h) MORE_FRAGMENTS =? 0 then flagsFrag else Z.lor flagsFrag (Z.shiftl 1 5).

(** [ipv4-header.cc] Ipv4Header::Serialize *)
Definition Serialize (h : Ipv4Header) (start : I) (m : M) : res M :=
  '(i, m) ← iWriteU8 (Z.lor (Z.shiftl 4 4) 5) start m;
  '(i, m) ← iWriteU8 (m_tos h) i m;
  '(i, m) ← iWriteHtonU16 (u16 (m_payloadSize h + 5 * 4)) i m;
  '(i, m) ← iWriteHtonU16 (m_identification h) i m;
  '(i, m) ← iWriteU8 (flags_frag h) i m;
  '(i, m) ← iWriteU8 (u8 (Z.land (m_fragmentOffset h / 8) 0xff)) i m;
  '(i, m) ← iWriteU8 (m_ttl h) i m;
  '(i, m) ← iWriteU8 (m_protocol h) i m;
  '(i, m) ← iWriteHtonU16 0 i m;
  '(i, m) ← iWriteHtonU32 (m_address (m_source h)) i m;
  '(i, m) ← iWriteHtonU32 (m_address (m_destination h)) i m;
  if m_calcChecksum h then
    '(checksum, _) ← CalculateIpChecksum 20 start m;
    i ← iNext 10 start;
    '(_, m) ← WriteU16 checksum i m;
    Ok m
  else Ok m.

(** [ipv4-header.cc:452-462] Ipv4Header::Deserialize

    The flags of the byte on the wire. *)
Definition read_flags (flags : Z) : Z :=
  let f := if Z.land flags (Z.shiftl 1 6) =? 0 then 0 else DONT_FRAGMENT in
  if Z.land flags (Z.shiftl 1 5) =? 0 then f else Z.lor f MORE_FRAGMENTS.

(** [ipv4-header.cc] Ipv4Header::Deserialize *)
Definition Deserialize (h : Ipv4Header) (start : I) (m : M) : res (Z * Ipv4Header) :=
  '(verIhl, i) ← iReadU8 start m;
  let ihl := Z.land verIhl 0x0f in
  let headerSize := ihl * 4 in
  if negb (Z.shiftr verIhl 4 =? 4) then Ok (0, h)
  else
    '(tos, i) ← iReadU8 i m;
    '(size, i) ← iReadNtohU16 i m;
    '(identification, i) ← iReadNtohU16 i m;
    '(flags, i) ← iReadU8 i m;
    i ← iPrev 1 i;
    '(b1, i) ← iReadU8 i m;
    '(b2, i) ← iReadU8 i m;
    let fragmentOffset := u16 (Z.shiftl (Z.lor (u16 (Z.shiftl (Z.land b1 0x1f) 8)) b2) 3) in
    '(ttl, i) ← iReadU8 i m;
    '(protocol, i) ← iReadU8 i m;
    '(checksum, i) ← ReadU16 i m;
    '(source, i) ← iReadNtohU32 i m;
    '(destination, i) ← iReadNtohU32 i m;
    good ← (if m_calcChecksum h then
              '(checksum, _) ← CalculateIpChecksum headerSize start m;
              Ok (checksum =? 0)
            else Ok (m_goodChecksum h));
    Ok (headerSize, mkIp (m_calcChecksum h) (u16 (size - headerSize)) identification tos ttl protocol
          (read_flags flags) fragmentOffset (Set_ source) (Set_ destination) checksum good headerSize).
End serialization.

#[export] Instance ipv4_header : Header Ipv4Header := {
  hdr_size := GetSerializedSize;
  hdr_Serialize M I B := Serialize;
  hdr_Deserialize M I B := Deserialize
}.

(** ** The wire format *)

Definition ip_front (h : Ipv4Header) : list Z :=
  [0x45; m_tos h] ++ be16 (m_payloadSize h + 20) ++ be16 (m_identification h) ++
  [flags_frag h; m_fragmentOffset h / 8 mod 256; m_ttl h; m_protocol h].

Definition ip_back (h : Ipv4Header) : list Z :=
  be32 (m_address (m_source h)) ++ be32 (m_address (m_destination h)).

Definition ip_checksum (h : Ipv4Header) : Z :=
  if m_calcChecksum h then ones_complement (wsum (ip_front h ++ [0; 0] ++ ip_back h)) else 0.

Definition ip_wire (h : Ipv4Header) : list Z := ip_front h ++ le16 (ip_checksum h) ++ ip_back h.

(** A header without options, with the fields in their ranges. *)
Record ip_ok (h : Ipv4Header) : Prop := {
  ip_size : m_headerSize h = 20;
  ip_payload : 0 ≤ m_payloadSize h ∧ m_payloadSize h + 20 < 2 ^ 16;
  ip_id : fits 16 (m_identification h);
  ip_bytes : fits 8 (m_tos h) ∧ fits 8 (m_ttl h) ∧ fits 8 (m_protocol h);
  ip_flags : 0 ≤ m_flags h < 4;
  ip_offset : fits 16 (m_fragmentOffset h) ∧ m_fragmentOffset h mod 8 = 0;
  ip_addresses : fits 32 (m_address (m_source h)) ∧ fits 32 (m_address (m_destination h))
}.

(** The byte of the flags, for every flag and high offset. *)
Definition flags_byte (flags hi : Z) : Z :=
  let b := if Z.land flags DONT_FRAGMENT =? 0 then hi else Z.lor hi (Z.shiftl 1 6) in
  if Z.land flags MORE_FRAGMENTS =? 0 then b else Z.lor b (Z.shiftl 1 5).

Lemma flags_byte_all :
  Forall (λ flags, Forall (λ hi, fits 8 (flags_byte flags hi) ∧ Z.land (flags_byte flags hi) 0x1f = hi ∧
    read_flags (flags_byte flags hi) = flags) (seqZ 0 32)) (seqZ 0 4).
Proof. apply (bool_decide_unpack _). vm_compute. exact I. Qed.

Lemma flags_byte_spec flags hi :
  0 ≤ flags < 4 → 0 ≤ hi < 32 →
  fits 8 (flags_byte flags hi) ∧ Z.land (flags_byte flags hi) 0x1f = hi ∧ read_flags (flags_byte flags hi) = flags.
Proof.
  intros Hf Hh. pose proof flags_byte_all as Hall. rewrite Forall_forall in Hall.
  specialize (Hall flags ltac:(apply elem_of_seqZ; lia)). rewrite Forall_forall in Hall.
  apply Hall, elem_of_seqZ. lia.
Qed.

Lemma flags_frag_byte h : ip_ok h → flags_frag h = flags_byte (m_flags h) (m_fragmentOffset h / 2048) ∧
  0 ≤ m_fragmentOffset h / 2048 < 32.
Proof.
  intros Hok. destruct (ip_offset _ Hok) as [Ho _]. unfold fits in Ho.
  assert (0 ≤ m_fragmentOffset h / 2048 < 32) as Hr by div_lia. split; [|done].
  unfold flags_frag, flags_byte. rewrite shiftr_div by lia.
  change 0x1f with (Z.ones 5). rewrite Z.land_ones by lia.
  replace (m_fragmentOffset h / 8 / 2 ^ 8) with (m_fragmentOffset h / 2048)
    by (rewrite Z.div_div by lia; done).
  rewrite (Z.mod_small _ (2 ^ 5)) by lia. by rewrite (wrap_id 8 (m_fragmentOffset h / 2048)) by (unfold fits; lia).
Qed.

(** The offset read back. *)
Lemma fragment_offset h :
  ip_ok h →
  u16 (Z.shiftl (Z.lor (u16 (Z.shiftl (m_fragmentOffset h / 2048) 8)) (m_fragmentOffset h / 8 mod 256)) 3) =
    m_fragmentOffset h.
Proof.
  intros Hok. destruct (ip_offset _ Hok) as [Ho H8]. unfold fits in Ho.
  rewrite (lor_shift8 16) by (unfold fits; div_lia). rewrite Z.shiftl_mul_pow2 by lia.
  rewrite wrap_id by (unfold fits; div_lia). div_lia.
Qed.

Lemma ip_front_fits h : ip_ok h → Forall (fits 8) (ip_front h).
Proof.
  intros Hok. destruct (ip_bytes _ Hok) as (? & ? & ?). destruct (flags_frag_byte h Hok) as [Ef Hr].
  destruct (flags_byte_spec (m_flags h) (m_fragmentOffset h / 2048) (ip_flags _ Hok) Hr) as (Hfb & _).
  unfold ip_front. rewrite Ef. repeat (constructor; [done || apply u8_fits || (unfold fits in *; div_lia)|]).
  constructor.
Qed.

Lemma ip_back_fits h : Forall (fits 8) (ip_back h).
Proof. unfold ip_back, be32. repeat (constructor; [apply u8_fits|]). constructor. Qed.

Lemma ip_checksum_fits h : ip_ok h → fits 16 (ip_checksum h).
Proof.
  intros Hok. unfold ip_checksum. case_match; [|unfold fits; lia]. apply ones_complement_fits.
  apply wsum_nonneg. rewrite !Forall_app. conj; [by apply ip_front_fits| |apply ip_back_fits].
  repeat constructor; unfold fits; lia.
Qed.

Lemma ip_wire_fits h : ip_ok h → Forall (fits 8) (ip_wire h).
Proof.
  intros Hok. unfold ip_wire. rewrite !Forall_app. conj; [by apply ip_front_fits| |apply ip_back_fits].
  repeat constructor; apply u8_fits.
Qed.

Lemma ip_wire_good h : ip_ok h → m_calcChecksum h = true → ones_complement (wsum (ip_wire h)) = 0.
Proof.
  intros Hok Hc. set (s := wsum (ip_front h ++ [0; 0] ++ ip_back h)).
  assert (0 ≤ s) as Hs.
  { apply wsum_nonneg. rewrite !Forall_app. conj; [by apply ip_front_fits| |apply ip_back_fits].
    repeat constructor; unfold fits; lia. }
  pose proof (ones_complement_fits s Hs) as Hf.
  assert (wsum (ip_wire h) = s + ones_complement s) as ->; [|by apply ones_complement_verify].
  assert (s = wsum (ip_front h) + (0 + 256 * 0 + wsum (ip_back h))) as Es.
  { unfold s. by rewrite wsum_app by (by exists 5%nat). }
  unfold ip_wire, ip_checksum. rewrite Hc. fold s. rewrite wsum_app by (by exists 5%nat).
  unfold le16. cbn [app wsum]. rewrite shiftr_div by lia.
  assert (u8 (ones_complement s) + 256 * u8 (ones_complement s / 2 ^ 8) = ones_complement s) by byte_lia.
  clearbody s. lia.
Qed.

(** The checksum over the first bytes [a] of what the memory holds. *)
Lemma ip_sum_ok {M I} `{ByteIterLaws M I} {B} m a l w mk n (k : Z → res B) R :
  holds m (a ++ l) w mk → Forall (fits 8) a → Forall (fits 8) l → n = Z.of_nat (length a) → n < 2 ^ 16 →
  wp (k (ones_complement (wsum a))) R →
  wp ('(c, _) ← CalculateIpChecksum n (mk 0) m; k c) R.
Proof.
  intros Hm Ha Hl Hn Hn16 Hk. unfold CalculateIpChecksum.
  rewrite (CalculateIpChecksum_ok m (a ++ l) w mk Hm) by (rewrite ?Forall_app, ?length_app; done || lia).
  res_simpl. by rewrite slice_prefix, Z.add_0_l.
Qed.

Definition ip_hdr_ok (h : Ipv4Header) (l : list Z) : Prop := ip_ok h ∧ Forall (fits 8) l.

Lemma ip_Serialize_ok {M I} `{ByteIterLaws M I} m room l mk h :
  ip_hdr_ok h l → Z.of_nat (length room) = 20 → holds m (room ++ l) 20 mk →
  wp (Serialize h (mk 0) m) (λ m', holds m' (ip_wire h ++ l) 20 mk).
Proof.
  intros [Hok Hl] Hroom Hm. destruct (ip_bytes _ Hok) as (Htos & Httl & Hpr).
  pose proof (ip_payload _ Hok) as Hpay. pose proof (ip_offset _ Hok) as [Hoff _].
  destruct (flags_frag_byte h Hok) as [Ef Hr].
  destruct (flags_byte_spec (m_flags h) (m_fragmentOffset h / 2048) (ip_flags _ Hok) Hr) as (Hfb & _).
  unfold Serialize, ip_wire, ip_checksum. change (u16 (m_payloadSize h + 5 * 4)) with (u16 (m_payloadSize h + 20)).
  rewrite (wrap_id 16 (m_payloadSize h + 20)) by (unfold fits; lia).
  rewrite <- (over_nil (room ++ l)) in Hm. do 11 wr_step Hm.
  assert (u8 (u8 (Z.land (m_fragmentOffset h / 8) 255)) = m_fragmentOffset h / 8 mod 256) as Efr.
  { rewrite land_255, !wrap_idemp by lia. done. }
  rewrite Efr, (wrap_id 8 (m_tos h)), (wrap_id 8 (m_ttl h)), (wrap_id 8 (m_protocol h)),
    (wrap_id 8 (flags_frag h)) in Hm by (done || by rewrite Ef).
  change (holds m'9 (over (ip_front h ++ [0; 0] ++ ip_back h) (room ++ l)) 20 mk) in Hm.
  assert (length (ip_front h ++ [0; 0] ++ ip_back h) = length room) as Hlen by (cbn; lia).
  rewrite over_room_full in Hm by done. destruct (m_calcChecksum h).
  2: { cbn [wp]. exact Hm. }
  assert (Forall (fits 8) (ip_front h ++ [0; 0] ++ ip_back h)) as Hf.
  { rewrite !Forall_app. conj; [by apply ip_front_fits| |apply ip_back_fits]. repeat constructor; unfold fits; lia. }
  eapply (ip_sum_ok (M := M)); [exact Hm|done|done|cbn; lia|lia|].
  assert (0 + 10 ≤ Z.of_nat (length ((ip_front h ++ [0; 0] ++ ip_back h) ++ l))) as H10.
  { rewrite length_app, Hlen. lia. }
  rewrite (law_Next _ _ _ _ 0 10 Hm) by lia. res_simpl.
  assert ((ip_front h ++ [0; 0] ++ ip_back h) ++ l = (ip_front h ++ [0; 0]) ++ ip_back h ++ l) as E
    by (by rewrite <- !app_assoc).
  rewrite E, <- (app_assoc (ip_front h)), <- (over_app (ip_front h)) in Hm.
  change (0 + 10) with 10. wr_step Hm. cbn [wp].
  rewrite (app_assoc (ip_front h) [0; 0] (ip_back h ++ l)), over_room_full in Hm by done. by rewrite <- !app_assoc.
Qed.

Lemma read_flags_byte h :
  ip_ok h → read_flags (flags_frag h) = m_flags h ∧ Z.land (flags_frag h) 0x1f = m_fragmentOffset h / 2048.
Proof.
  intros Hok. destruct (flags_frag_byte h Hok) as [-> Hr].
  by destruct (flags_byte_spec (m_flags h) (m_fragmentOffset h / 2048) (ip_flags _ Hok) Hr) as (_ & ? & ?).
Qed.

(** What the receiving object holds. *)
Definition ip_received (h0 h : Ipv4Header) : Ipv4Header :=
  mkIp (m_calcChecksum h0) (m_payloadSize h) (m_identification h) (m_tos h) (m_ttl h) (m_protocol h)
    (m_flags h) (m_fragmentOffset h) (Ipv4Address_of (m_address (m_source h)))
    (Ipv4Address_of (m_address (m_destination h))) (ip_checksum h)
    (if m_calcChecksum h0 then ones_complement (wsum (ip_wire h)) =? 0 else m_goodChecksum h0) 20.

Lemma ip_Deserialize_ok {M I} `{ByteIterLaws M I} m l w mk h0 h :
  ip_hdr_ok h l → holds m (ip_wire h ++ l) w mk →
  Deserialize h0 (mk 0) m = Ok (20, ip_received h0 h).
Proof.
  intros [Hok Hl] Hm. pose proof (ip_payload _ Hok) as Hpay. pose proof (ip_checksum_fits h Hok) as Hck.
  destruct (ip_addresses _ Hok) as [Hsrc Hdst]. destruct (read_flags_byte h Hok) as [Hfl Hhi].
  assert (∃ r, Deserialize h0 (mk 0) m = Ok r ∧ r = (20, ip_received h0 h)) as (r & -> & ->); [|done].
  assert (∀ p, 0 ≤ p → p ≤ Z.of_nat (length (ip_wire h ++ l)) → True) as _ by done.
  apply wp_Ok. unfold Deserialize.
  eapply (rd_ReadU8 m _ _ _ _ Hm _ 0x45); [lia|reflexivity|]. cbn [negb].
  change (Z.shiftr 69 4 =? 4) with true. cbn [negb]. change (Z.land 69 15 * 4) with 20.
  eapply (rd_ReadU8 m _ _ _ _ Hm _ (m_tos h)); [lia|reflexivity|].
  eapply (rd_ReadNtohU16 m _ _ _ _ Hm _ (be16 (m_payloadSize h + 20))); [lia|reflexivity|done|].
  eapply (rd_ReadNtohU16 m _ _ _ _ Hm _ (be16 (m_identification h))); [lia|reflexivity|done|].
  eapply (rd_ReadU8 m _ _ _ _ Hm _ (flags_frag h)); [lia|reflexivity|].
  rewrite (law_Prev _ _ _ _ _ 1 Hm); [|rewrite length_app; cbn; lia|lia]. res_simpl.
  eapply (rd_ReadU8 m _ _ _ _ Hm _ (flags_frag h)); [lia|reflexivity|].
  eapply (rd_ReadU8 m _ _ _ _ Hm _ (m_fragmentOffset h / 8 mod 256)); [lia|reflexivity|].
  eapply (rd_ReadU8 m _ _ _ _ Hm _ (m_ttl h)); [lia|reflexivity|].
  eapply (rd_ReadU8 m _ _ _ _ Hm _ (m_protocol h)); [lia|reflexivity|].
  eapply (rd_ReadU16 m _ _ _ _ Hm _ (le16 (ip_checksum h))); [lia|reflexivity|done|].
  eapply (rd_ReadNtohU32 m _ _ _ _ Hm _ (be32 (m_address (m_source h)))); [lia|reflexivity|done|].
  eapply (rd_ReadNtohU32 m _ _ _ _ Hm _ (be32 (m_address (m_destination h)))); [lia|reflexivity|done|].
  rewrite !ntoh32_be32, !ntoh16_be16, lsb16_le16, Hfl, Hhi, fragment_offset by
    (done || apply (ip_id _ Hok) || (unfold fits; lia)).
  replace (m_payloadSize h + 20 - 20) with (m_payloadSize h) by lia.
  rewrite (wrap_id 16 (m_payloadSize h)) by (unfold fits; lia).
  unfold ip_received. destruct (m_calcChecksum h0); [|cbn [wp]; done].
  apply wp_bind. eapply (ip_sum_ok (M := M)); [exact Hm|by apply ip_wire_fits|done|done|lia|]. cbn [wp]. done.
Qed.

#[export, refine] Instance ip_laws : HeaderLaws Ipv4Header := {
  hdr_ok := ip_hdr_ok;
  hdr_wire h _ := ip_wire h;
  hdr_accepts _ := True;
  hdr_received h0 h _ := ip_received h0 h
}.
Proof.
  - intros h l [Hok _]. cbn. unfold GetSerializedSize. by rewrite (ip_size _ Hok).
  - intros M I B L m room l mk h Hh Hr Hm. cbn in *. unfold GetSerializedSize in *.
    rewrite (ip_size _ (proj1 Hh)) in *. by eapply ip_Serialize_ok.
  - intros M I B L m l w mk h0 h Hh _ Hm. cbn in *. unfold GetSerializedSize.
    rewrite (ip_size _ (proj1 Hh)). by eapply ip_Deserialize_ok.
Defined.

(** C34 An IPv4 header without options in a packet: serialized into the room made in front
    of the payload it leaves the payload and every other buffer; read back every field is
    the one sent, flags and fragment offset included, and the checksum is right when both
    ends compute it; what is left is the payload. *)
Theorem Ipv4Header_roundtrip fill b bs h (hd h0 : Ipv4Header) :
  heap_inv None h (b :: bs) → ip_ok hd → Forall (fits 8) (view h b) →
  m_end b < 2 ^ 31 - 120 → Z.of_nat (length (b :: bs)) < 2 ^ 32 →
  ∃ b1 h1 h2 b2 hd', AddAtStart fill (GetSerializedSize hd) b h = Ok (b1, h1) ∧
    Serialize hd (Begin b1) h1 = Ok h2 ∧ Deserialize h0 (Begin b1) h2 = Ok (20, hd') ∧
    m_payloadSize hd' = m_payloadSize hd ∧ m_identification hd' = m_identification hd ∧
    m_tos hd' = m_tos hd ∧ m_ttl hd' = m_ttl hd ∧ m_protocol hd' = m_protocol hd ∧
    IsLastFragment hd' = IsLastFragment hd ∧ IsDontFragment hd' = IsDontFragment hd ∧
    GetFragmentOffset hd' = GetFragmentOffset hd ∧
    ipv4_eq (m_source hd') (m_source hd) = true ∧ ipv4_eq (m_destination hd') (m_destination hd) = true ∧
    (m_calcChecksum hd = true → m_calcChecksum h0 = true → IsChecksumOk hd' = true) ∧
    RemoveAtStart 20 b1 = Ok b2 ∧ heap_inv None h2 (b2 :: bs) ∧ view h2 b2 = view h b ∧
    ∀ o, o ∈ bs → view h2 o = view h o.
Proof.
  intros Hi Hok Hf Hcap Hlen. pose proof (ip_size _ Hok) as Hsz.
  destruct (@header_roundtrip Ipv4Header _ ip_laws fill b bs h hd h0 Hi (conj Hok Hf) I)
    as (b1 & h1 & h2 & b2 & Hadd & Hser & _ & _ & Hde & Hrm & Hi2 & Hv & Ho).
  { cbn. unfold GetSerializedSize. lia. } { cbn. unfold GetSerializedSize. lia. } { done. }
  cbn [hdr_size ipv4_header hdr_Serialize hdr_Deserialize hdr_received ip_laws] in *.
  unfold GetSerializedSize in *. rewrite Hsz in *.
  eexists b1, h1, h2, b2, _. split; [exact Hadd|]. split; [exact Hser|]. split; [exact Hde|].
  unfold ipv4_eq. cbn [m_source m_destination m_address Ipv4Address_of ip_received]. rewrite !Z.eqb_refl.
  conj; try done. unfold IsChecksumOk. cbn [m_goodChecksum ip_received]. intros Hc ->.
  by rewrite ip_wire_good.
Qed.

(** ** The theorem on concrete input, and headers with options *)

Definition demo_ip : Ipv4Header :=
  SetPayloadSize 15 (SetTtl 64 (SetProtocol 17 (SetIdentification 7 (SetDontFragment
    (SetSource (Ipv4Address_of 0x0a000001) (SetDestination (Ipv4Address_of 0x0a000002)
      (EnableChecksum Ipv4Header_new))))))).

Lemma Ipv4Header_roundtrip_witness :
  ∃ b1 h1 h2 b2 hd', AddAtStart demo_fill 20 demo_c demo_h = Ok (b1, h1) ∧
    Serialize demo_ip (Begin b1) h1 = Ok h2 ∧ Deserialize demo_ip (Begin b1) h2 = Ok (20, hd') ∧
    IsChecksumOk hd' = true ∧ IsDontFragment hd' = true ∧ view h2 b2 = view demo_h demo_c.
Proof.
  destruct (Ipv4Header_roundtrip demo_fill demo_c [demo_b] demo_h demo_ip demo_ip)
    as (b1 & h1 & h2 & b2 & hd' & Hadd & Hser & Hde & _ & _ & _ & _ & _ & _ & Hdf & _ & _ & _ & Hck & _ & _ & Hv & _).
  - exact demo_ok.
  - split; unfold fits; vm_compute; intuition discriminate.
  - apply (bool_decide_unpack _). vm_compute. exact I.
  - vm_compute. reflexivity.
  - vm_compute. reflexivity.
  - exists b1, h1, h2, b2, hd'. split; [exact Hadd|]. split; [exact Hser|]. split; [exact Hde|].
    split; [apply Hck; reflexivity|]. split; [rewrite Hdf; vm_compute; reflexivity|exact Hv].
Defined.

(** A header of 24 bytes: one word of options, payload of four bytes. *)
Definition options_packet : list Z :=
  [0x46; 0; 0; 28; 0; 7; 0; 0; 64; 17; 0; 0; 10; 0; 0; 1; 10; 0; 0; 2; 1; 1; 1; 1; 201; 202; 203; 204].

(** A header received with options is not forwarded right: [Deserialize] keeps its size of
    24 bytes in [GetSerializedSize], but [Serialize] writes 20 bytes that announce a header
    of 20 and a packet of 24 bytes.  The four bytes behind are whatever the memory held (170
    here), and the next receiver takes them for the start of the payload. *)
Theorem Ipv4Header_options_lost :
  ∃ hd m, Deserialize (H := flat_iter 28) Ipv4Header_new 0 options_packet = Ok (24, hd) ∧
    GetSerializedSize hd = 24 ∧ m_payloadSize hd = 4 ∧
    Serialize (H := flat_iter 28) hd 0 (replicate 24 170 ++ [201; 202; 203; 204]) = Ok m ∧
    ∃ hd2, Deserialize (H := flat_iter 28) Ipv4Header_new 0 m = Ok (20, hd2) ∧ m_payloadSize hd2 = 4 ∧
      take 4 (drop 20 m) = [170; 170; 170; 170].
Proof. eexists _, _. do 4 (split; [vm_compute; reflexivity|]). eexists. vm_compute. auto. Qed.
