(* ===== verification/IpInterfaces.v ===== *)
(** * The IPv4 interfaces of a node (internet/model/ipv4-interface.cc, ipv4-l3-protocol.cc)

    The state of [Ipv4L3Protocol] that routing reads: interfaces with their addresses, the map from
    devices to interfaces, and the counters of identifications; and the class [RoutingProtocol] of
    what the protocol asks of a routing protocol.  Devices are numbers, 0 is the null pointer; the
    MTU of a device is a parameter. *)

From S2P Require Import Prelude Buffer Ipv4Address.
From S2P Require Ipv4Header.
Import Ipv4Header (Ipv4Header, m_source, m_destination).
Local Open Scope Z_scope.

(** [ipv4-interface-address.h:51-56] InterfaceAddressScope_e *)
Inductive InterfaceAddressScope_e := HOST | LINK | GLOBAL.
#[export] Instance scope_eq_dec : EqDecision InterfaceAddressScope_e.
Proof. solve_decision. Defined.

(** [ipv4-interface-address.h:167-175] Ipv4InterfaceAddress *)
Record Ipv4InterfaceAddress := mkIfAddr { a_local : Ipv4Address; a_mask : Z; a_broadcast : Ipv4Address; a_scope : InterfaceAddressScope_e; a_secondary : bool }.

(** [ipv4-address.cc:38-42] Ipv4Mask::Ipv4Mask

    The mask of the default constructor. *)
Definition Ipv4Mask_default : Z := 0x66666666.
Definition GetOnes : Z := 0xffffffff.
Definition GetZero : Ipv4Address := Ipv4Address_of 0.

(** [ipv4-interface-address.cc:30-35] Ipv4InterfaceAddress::Ipv4InterfaceAddress *)
Definition Ipv4InterfaceAddress_default : Ipv4InterfaceAddress := mkIfAddr Ipv4Address_default Ipv4Mask_default Ipv4Address_default GLOBAL false.

(** [ipv4-interface-address.cc:37-49] Ipv4InterfaceAddress::Ipv4InterfaceAddress *)
Definition Ipv4InterfaceAddress_new (local : Ipv4Address) (mask : Z) : Ipv4InterfaceAddress :=
  mkIfAddr local mask (Ipv4Address_of (Z.lor (m_address local) (GetInverse mask))) (if ipv4_eq local GetLoopback then HOST else GLOBAL) false.

(** [ipv4-interface-address.h:205-210] operator== *)
Definition ifaddr_eq (a b : Ipv4InterfaceAddress) : bool :=
  ipv4_eq (a_local a) (a_local b) && (a_mask a =? a_mask b) && ipv4_eq (a_broadcast a) (a_broadcast b) && bool_decide (a_scope a = a_scope b) &&
    bool_decide (a_secondary a = a_secondary b).

(** [ipv4-interface-address.cc] Ipv4InterfaceAddress::IsInSameSubnet *)
Definition IsInSameSubnet (b : Ipv4Address) (a : Ipv4InterfaceAddress) : bool := ipv4_eq (CombineMask (a_mask a) (a_local a)) (CombineMask (a_mask a) b).

(** [ipv4-interface.h:240-245] Ipv4Interface

    Without the metric, the ARP cache and the traffic control layer. *)
Record Ipv4Interface := mkInterface { m_ifup : bool; m_forwarding : bool; m_ifaddrs : list Ipv4InterfaceAddress; m_device : Z }.

(** [ipv4-interface.cc] Ipv4Interface::SetUp *)
Definition if_up (i : Ipv4Interface) : Ipv4Interface := mkInterface true (m_forwarding i) (m_ifaddrs i) (m_device i).
(** [ipv4-interface.cc] Ipv4Interface::SetDown *)
Definition if_down (i : Ipv4Interface) : Ipv4Interface := mkInterface false (m_forwarding i) (m_ifaddrs i) (m_device i).
(** [ipv4-interface.cc] Ipv4Interface::SetForwarding *)
Definition if_forwarding (val : bool) (i : Ipv4Interface) : Ipv4Interface := mkInterface (m_ifup i) val (m_ifaddrs i) (m_device i).
Definition set_ifaddrs (l : list Ipv4InterfaceAddress) (i : Ipv4Interface) : Ipv4Interface := mkInterface (m_ifup i) (m_forwarding i) l (m_device i).

(** [ipv4-interface.cc] Ipv4Interface::AddAddress *)
Definition if_AddAddress (addr : Ipv4InterfaceAddress) (i : Ipv4Interface) : Ipv4Interface := set_ifaddrs (m_ifaddrs i ++ [addr]) i.

(** [ipv4-interface.cc:331-353] Ipv4Interface::GetAddress *)
Definition if_GetAddress (index : Z) (i : Ipv4Interface) : res Ipv4InterfaceAddress :=
  match m_ifaddrs i !! Z.to_nat index with Some a => Ok a | None => Err NsFatal end.

(** [ipv4-interface.cc:355-383] Ipv4Interface::RemoveAddress

    The address with an index. *)
Definition if_RemoveAddress_index (index : Z) (i : Ipv4Interface) : res (Ipv4InterfaceAddress * Ipv4Interface) :=
  match m_ifaddrs i !! Z.to_nat index with
  | Some a => Ok (a, set_ifaddrs (delete (Z.to_nat index) (m_ifaddrs i)) i)
  | None => Err NsFatal
  end.

Fixpoint remove_local (address : Ipv4Address) (l : list Ipv4InterfaceAddress) : option (Ipv4InterfaceAddress * list Ipv4InterfaceAddress) :=
  match l with
  | [] => None
  | a :: l => if ipv4_eq (a_local a) address then Some (a, l) else match remove_local address l with Some (x, l) => Some (x, a :: l) | None => None end
  end.

(** [ipv4-interface.cc:385-411] Ipv4Interface::RemoveAddress *)
Definition if_RemoveAddress (address : Ipv4Address) (i : Ipv4Interface) : Ipv4InterfaceAddress * Ipv4Interface :=
  if ipv4_eq address GetLoopback then (Ipv4InterfaceAddress_default, i)
  else match remove_local address (m_ifaddrs i) with Some (a, l) => (a, set_ifaddrs l i) | None => (Ipv4InterfaceAddress_default, i) end.

(** [ipv4-l3-protocol.h:461-469] Ipv4L3Protocol *)
Record Ipv4 := mkIpv4L3 {
  m_ipForward : bool;
  m_weakEsModel : bool;
  m_interfaces : list Ipv4Interface;
  m_reverseInterfaces : gmap Z Z;
  m_defaultTtl : Z (* uint8_t *);
  m_identification : gmap (Z * Z) Z (* uint16_t for (source and destination, protocol) *)
}.
Implicit Types ip : Ipv4.

Definition set_interfaces (l : list Ipv4Interface) ip : Ipv4 := mkIpv4L3 (m_ipForward ip) (m_weakEsModel ip) l (m_reverseInterfaces ip) (m_defaultTtl ip) (m_identification ip).
Definition set_interface (i : Z) (x : Ipv4Interface) ip : Ipv4 := set_interfaces (<[Z.to_nat i := x]> (m_interfaces ip)) ip.

(** [ipv4-l3-protocol.cc] Ipv4L3Protocol::AddIpv4Interface *)
Definition AddIpv4Interface (interface : Ipv4Interface) ip : Z * Ipv4 :=
  let index := Z.of_nat (length (m_interfaces ip)) in
  (index, mkIpv4L3 (m_ipForward ip) (m_weakEsModel ip) (m_interfaces ip ++ [interface]) (<[m_device interface := index]> (m_reverseInterfaces ip)) (m_defaultTtl ip) (m_identification ip)).

(** [ipv4-l3-protocol.cc:426-431] Ipv4L3Protocol::AddInterface

    The handlers are registered with the node and the traffic control layer, which are not modelled. *)
Definition AddInterface (device : Z) ip : Z * Ipv4 := AddIpv4Interface (mkInterface false (m_ipForward ip) [] device) ip.

(** [ipv4-l3-protocol.cc] Ipv4L3Protocol::GetInterface

    Its result is always dereferenced. *)
Definition GetInterface (index : Z) ip : res Ipv4Interface := if index <? 0 then Err Undefined else deref (m_interfaces ip !! Z.to_nat index).

(** [ipv4-l3-protocol.cc] Ipv4L3Protocol::GetNInterfaces *)
Definition GetNInterfaces ip : Z := Z.of_nat (length (m_interfaces ip)).

(** [ipv4-l3-protocol.cc] Ipv4L3Protocol::GetInterfaceForDevice *)
Definition GetInterfaceForDevice (device : Z) ip : Z := default (-1) (m_reverseInterfaces ip !! device).

(** [ipv4-l3-protocol.cc] Ipv4L3Protocol::GetNetDevice *)
Definition GetNetDevice (i : Z) ip : res Z := x ← GetInterface i ip; Ok (m_device x).
(** [ipv4-l3-protocol.cc] Ipv4L3Protocol::IsUp *)
Definition IsUp (i : Z) ip : res bool := x ← GetInterface i ip; Ok (m_ifup x).
(** [ipv4-l3-protocol.cc] Ipv4L3Protocol::IsForwarding *)
Definition IsForwarding (i : Z) ip : res bool := x ← GetInterface i ip; Ok (m_forwarding x).
(** [ipv4-l3-protocol.cc] Ipv4L3Protocol::SetForwarding *)
Definition SetForwarding (i : Z) (val : bool) ip : res Ipv4 := x ← GetInterface i ip; Ok (set_interface i (if_forwarding val x) ip).
(** [ipv4-l3-protocol.cc] Ipv4L3Protocol::GetNAddresses *)
Definition GetNAddresses (i : Z) ip : res Z := x ← GetInterface i ip; Ok (Z.of_nat (length (m_ifaddrs x))).
(** [ipv4-l3-protocol.cc] Ipv4L3Protocol::GetAddress *)
Definition GetAddress (i j : Z) ip : res Ipv4InterfaceAddress := x ← GetInterface i ip; if_GetAddress j x.

(** [ipv4-l3-protocol.cc] Ipv4L3Protocol::SetIpForward *)
Definition SetIpForward (forward : bool) ip : Ipv4 :=
  mkIpv4L3 forward (m_weakEsModel ip) (if_forwarding forward <$> m_interfaces ip) (m_reverseInterfaces ip) (m_defaultTtl ip) (m_identification ip).

(** The first index from [n] on whose interface passes a test. *)
Fixpoint find_interface (f : Ipv4Interface → bool) (l : list Ipv4Interface) (n : Z) : Z :=
  match l with [] => -1 | x :: l => if f x then n else find_interface f l (n + 1) end.

(** [ipv4-l3-protocol.cc] Ipv4L3Protocol::GetInterfaceForAddress *)
Definition GetInterfaceForAddress (address : Ipv4Address) ip : Z := find_interface (λ x, existsb (λ a, ipv4_eq (a_local a) address) (m_ifaddrs x)) (m_interfaces ip) 0.

(** [ipv4-l3-protocol.cc] Ipv4L3Protocol::GetInterfaceForPrefix *)
Definition GetInterfaceForPrefix (address : Ipv4Address) (mask : Z) ip : Z :=
  find_interface (λ x, existsb (λ a, ipv4_eq (CombineMask mask (a_local a)) (CombineMask mask address)) (m_ifaddrs x)) (m_interfaces ip) 0.

Definition own_address (address : Ipv4Address) (x : Ipv4Interface) : bool := existsb (λ a, ipv4_eq address (a_local a) || ipv4_eq address (a_broadcast a)) (m_ifaddrs x).

(** [ipv4-l3-protocol.cc] Ipv4L3Protocol::IsDestinationAddress *)
Definition IsDestinationAddress (address : Ipv4Address) (iif : Z) ip : res bool :=
  x ← GetInterface iif ip;
  if own_address address x then Ok true
  else if IsMulticast address then Ok true
  else if IsBroadcast address then Ok true
  else if m_weakEsModel ip then Ok (existsb (own_address address) (delete (Z.to_nat iif) (m_interfaces ip)))
  else Ok false.

(** [ipv4-l3-protocol.cc:701-729] Ipv4L3Protocol::IsUnicast *)
Definition IsUnicast (ad : Ipv4Address) ip : bool :=
  if IsBroadcast ad || IsMulticast ad then false
  else negb (existsb (λ x, existsb (λ a, ipv4_eq ad (a_broadcast a)) (m_ifaddrs x)) (m_interfaces ip)).

Fixpoint select_source (dest candidate : Ipv4Address) (l : list Ipv4InterfaceAddress) : Ipv4Address :=
  match l with
  | [] => candidate
  | test :: l => if ipv4_eq (CombineMask (a_mask test) (a_local test)) (CombineMask (a_mask test) dest) && negb (a_secondary test) then a_local test else select_source dest candidate l
  end.

(** [ipv4-l3-protocol.cc] Ipv4L3Protocol::SourceAddressSelection *)
Definition SourceAddressSelection (interfaceIdx : Z) (dest : Ipv4Address) ip : res Ipv4Address :=
  x ← GetInterface interfaceIdx ip;
  a ← if_GetAddress 0 x;
  if (Z.of_nat (length (m_ifaddrs x)) =? 1) then Ok (a_local a) else Ok (select_source dest (a_local a) (m_ifaddrs x)).

Definition scope_number (x : InterfaceAddressScope_e) : Z := match x with HOST => 0 | LINK => 1 | GLOBAL => 2 end.

(** [ipv4-l3-protocol.cc:1289-1309] Ipv4L3Protocol::SelectSourceAddress

    The addresses of the device: the one in the network of the destination, or else the first
    that may be used. *)
Fixpoint SelectSourceAddress_device (dst : Ipv4Address) (scope : InterfaceAddressScope_e) (found : option Ipv4Address) (l : list Ipv4InterfaceAddress) : option Ipv4Address :=
  match l with
  | [] => found
  | iaddr :: l =>
      if a_secondary iaddr then SelectSourceAddress_device dst scope found l
      else if scope_number scope <? scope_number (a_scope iaddr) then SelectSourceAddress_device dst scope found l
      else if ipv4_eq (CombineMask (a_mask iaddr) dst) (CombineMask (a_mask iaddr) (a_local iaddr)) then Some (a_local iaddr)
      else SelectSourceAddress_device dst scope (Some (default (a_local iaddr) found)) l
  end.

(** [ipv4-l3-protocol.cc] Ipv4L3Protocol::SelectSourceAddress

    A device of 0 is the null pointer. *)
Definition SelectSourceAddress (device : Z) (dst : Ipv4Address) (scope : InterfaceAddressScope_e) ip : res Ipv4Address :=
  found ← (if device =? 0 then Ok None
           else
             let i := GetInterfaceForDevice device ip in
             _ ← ns_assert (0 <=? i); x ← GetInterface i ip; Ok (SelectSourceAddress_device dst scope None (m_ifaddrs x)));
  match found with
  | Some addr => Ok addr
  | None =>
      match list_find (λ iaddr, (negb (a_secondary iaddr) && negb (scope_number (a_scope iaddr) =? 1) && (scope_number (a_scope iaddr) <=? scope_number scope)) = true) (concat (m_ifaddrs <$> m_interfaces ip)) with
      | Some (_, iaddr) => Ok (a_local iaddr)
      | None => Ok GetZero
      end
  end.

(** ** Routes and routing protocols *)

(** [ipv4-route.h:91-94] Ipv4Route *)
Record Ipv4Route := mkRoute { r_dest : Ipv4Address; r_source : Ipv4Address; r_gateway : Ipv4Address; r_device : Z }.

(** [ipv4-route.h:162-165] Ipv4MulticastRoute *)
Record Ipv4MulticastRoute := mkMRoute { mr_group : Ipv4Address; mr_origin : Ipv4Address; mr_parent : Z; m_ttls : gmap Z Z }.

(** [ipv4-route.h:159-159] MAX_TTL *)
Definition MAX_TTL : Z := 255.

(** [ipv4-route.cc] Ipv4MulticastRoute::SetOutputTtl *)
Definition SetOutputTtl (oif ttl : Z) (r : Ipv4MulticastRoute) : Ipv4MulticastRoute :=
  mkMRoute (mr_group r) (mr_origin r) (mr_parent r) (if MAX_TTL <=? ttl then delete oif (m_ttls r) else <[oif := ttl]> (m_ttls r)).

(** [Socket::SocketErrno], as far as routing protocols give it. *)
Inductive SocketErrno := ERROR_NOTERROR | ERROR_NOROUTETOHOST.

(** The callbacks given to [RouteInput], with what it calls them with besides the packet and its
    header. *)
Inductive Callback := Ucb (r : Ipv4Route) | Mcb (r : Ipv4MulticastRoute) | Lcb (iif : Z) | Ecb (e : SocketErrno).

(** [ipv4-routing-protocol.h:100-174] Ipv4RoutingProtocol

    The virtual functions, over the state of the protocol.  [RouteInput] says whether the local
    delivery callback is null and lists the calls in order; callbacks that change routing state
    meanwhile are not modelled. *)
Class RoutingProtocol (P : Type) := {
  RouteOutput : Ipv4 → list Z → Ipv4Header → Z → P → res (option Ipv4Route * SocketErrno * P);
  RouteInput : Ipv4 → list Z → Ipv4Header → Z → bool → P → res (bool * list Callback * P);
  NotifyInterfaceUp : Ipv4 → Z → P → res P;
  NotifyInterfaceDown : Ipv4 → Z → P → res P;
  NotifyAddAddress : Ipv4 → Z → Ipv4InterfaceAddress → P → res P;
  NotifyRemoveAddress : Ipv4 → Z → Ipv4InterfaceAddress → P → res P;
  SetIpv4 : Ipv4 → P → res P
}.

(** What is asked of the calls of [RouteInput]: none if the packet is not handled, at most one
    local delivery and none with a null callback, at most one call for a packet that is not multicast, and then
    not to the multicast callback. *)
Definition is_local (c : Callback) : bool := match c with Lcb _ => true | _ => false end.
Definition is_mcast (c : Callback) : bool := match c with Mcb _ => true | _ => false end.
Definition locals (l : list Callback) : list Callback := filter (λ c, is_local c = true) l.

Record calls_ok (multicast lcb found : bool) (l : list Callback) : Prop := {
  co_none : found = false → l = [];
  co_null : lcb = false → locals l = [];
  co_once : (length (locals l) ≤ 1)%nat;
  co_unicast : multicast = false → (length l ≤ 1)%nat ∧ Forall (λ c, is_mcast c = false) l
}.

Class RoutingLaws (P : Type) `{RoutingProtocol P} :=
  law_RouteInput ip p h d lcb s found l s' : RouteInput ip p h d lcb s = Ok (found, l, s') → calls_ok (IsMulticast (m_destination h)) lcb found l.

(** ** Changes that routing protocols are told of *)

Section notify.
Context {P : Type} `{RoutingProtocol P} (GetMtu : Z → Z).
Implicit Types rp : option P.

Definition notify (f : P → res P) rp : res (option P) := match rp with Some p => p ← f p; Ok (Some p) | None => Ok None end.

(** [ipv4-l3-protocol.cc] Ipv4L3Protocol::AddAddress *)
Definition AddAddress (i : Z) (address : Ipv4InterfaceAddress) ip rp : res (Ipv4 * option P) :=
  x ← GetInterface i ip;
  let ip := set_interface i (if_AddAddress address x) ip in
  rp ← notify (NotifyAddAddress ip i address) rp;
  Ok (ip, rp).

(** [ipv4-l3-protocol.cc:1207-1222] Ipv4L3Protocol::RemoveAddress *)
Definition RemoveAddress_index (i addressIndex : Z) ip rp : res (bool * Ipv4 * option P) :=
  x ← GetInterface i ip;
  '(address, x) ← if_RemoveAddress_index addressIndex x;
  let ip := set_interface i x ip in
  if negb (ifaddr_eq address Ipv4InterfaceAddress_default) then rp ← notify (NotifyRemoveAddress ip i address) rp; Ok (true, ip, rp)
  else Ok (false, ip, rp).

(** [ipv4-l3-protocol.cc:1224-1245] Ipv4L3Protocol::RemoveAddress *)
Definition RemoveAddress (i : Z) (address : Ipv4Address) ip rp : res (bool * Ipv4 * option P) :=
  if ipv4_eq address GetLoopback then Ok (false, ip, rp)
  else
    x ← GetInterface i ip;
    let '(ifAddr, x) := if_RemoveAddress address x in
    let ip := set_interface i x ip in
    if negb (ifaddr_eq ifAddr Ipv4InterfaceAddress_default) then rp ← notify (NotifyRemoveAddress ip i ifAddr) rp; Ok (true, ip, rp)
    else Ok (false, ip, rp).

(** [ipv4-l3-protocol.cc] Ipv4L3Protocol::SetUp *)
Definition SetUp (i : Z) ip rp : res (Ipv4 * option P) :=
  x ← GetInterface i ip;
  if 68 <=? GetMtu (m_device x) then
    let ip := set_interface i (if_up x) ip in
    rp ← notify (NotifyInterfaceUp ip i) rp;
    Ok (ip, rp)
  else Ok (ip, rp).

(** [ipv4-l3-protocol.cc] Ipv4L3Protocol::SetDown *)
Definition SetDown (ifaceIndex : Z) ip rp : res (Ipv4 * option P) :=
  x ← GetInterface ifaceIndex ip;
  let ip := set_interface ifaceIndex (if_down x) ip in
  rp ← notify (NotifyInterfaceDown ip ifaceIndex) rp;
  Ok (ip, rp).
End notify.
