(* ===== verification/StaticRouting.v ===== *)
(** * Static routing (internet/model/ipv4-static-routing.cc, ipv4-routing-table-entry.cc)

    The table of network routes with their metrics and the list of multicast routes; how they follow
    the addresses and states of the interfaces; lookup, output and input.  Entries are allocated
    and freed together with their place in a list, so the lists hold the entries themselves.
    Then which route a lookup chooses. *)

From S2P Require Import Prelude Buffer Ipv4Address IpInterfaces.
From S2P Require Ipv4Header.
Import Ipv4Header (Ipv4Header, m_source, m_destination).
Local Open Scope Z_scope.

(** [ipv4-routing-table-entry.h:169-172] Ipv4RoutingTableEntry *)
Record Ipv4RoutingTableEntry := mkEntry { e_dest : Ipv4Address; e_mask : Z; e_gateway : Ipv4Address; e_interface : Z }.

(** [ipv4-routing-table-entry.cc:175-183] Ipv4RoutingTableEntry::CreateNetworkRouteTo *)
Definition CreateNetworkRouteTo_via (network : Ipv4Address) (networkMask : Z) (nextHop : Ipv4Address) (interface : Z) : Ipv4RoutingTableEntry :=
  mkEntry network networkMask nextHop interface.
(** [ipv4-routing-table-entry.cc:185-192] Ipv4RoutingTableEntry::CreateNetworkRouteTo *)
Definition CreateNetworkRouteTo (network : Ipv4Address) (networkMask interface : Z) : Ipv4RoutingTableEntry := mkEntry network networkMask GetZero interface.

(** [ipv4-routing-table-entry.cc] Ipv4RoutingTableEntry::IsHost *)
Definition IsHost (e : Ipv4RoutingTableEntry) : bool := e_mask e =? GetOnes.
(** [ipv4-routing-table-entry.cc] Ipv4RoutingTableEntry::IsNetwork *)
Definition IsNetwork (e : Ipv4RoutingTableEntry) : bool := negb (IsHost e).

(** [ipv4-routing-table-entry.h:267-270] Ipv4MulticastRoutingTableEntry *)
Record Ipv4MulticastRoutingTableEntry := mkMEntry { me_origin : Ipv4Address; me_group : Ipv4Address; me_input : Z; me_output : list Z }.

(** [ipv4-static-routing.h:411-421] Ipv4StaticRouting

    [m_ipv4]: whether the pointer is set. *)
Record StaticRouting := mkStatic { m_networkRoutes : list (Ipv4RoutingTableEntry * Z (* metric *)); m_multicastRoutes : list Ipv4MulticastRoutingTableEntry; m_ipv4 : bool }.
Implicit Types s : StaticRouting.

(** [ipv4-static-routing.cc] Ipv4StaticRouting::Ipv4StaticRouting *)
Definition Ipv4StaticRouting_new : StaticRouting := mkStatic [] [] false.

Definition set_routes (l : list (Ipv4RoutingTableEntry * Z)) s : StaticRouting := mkStatic l (m_multicastRoutes s) (m_ipv4 s).
Definition set_mroutes (l : list Ipv4MulticastRoutingTableEntry) s : StaticRouting := mkStatic (m_networkRoutes s) l (m_ipv4 s).

(** ** The table *)

Definition same_route (route : Ipv4RoutingTableEntry) (metric : Z) (j : Ipv4RoutingTableEntry * Z) : bool :=
  ipv4_eq (e_dest j.1) (e_dest route) && (e_mask j.1 =? e_mask route) && ipv4_eq (e_gateway j.1) (e_gateway route) && (e_interface j.1 =? e_interface route) && (j.2 =? metric).

(** [ipv4-static-routing.cc] Ipv4StaticRouting::LookupRoute *)
Definition LookupRoute (route : Ipv4RoutingTableEntry) (metric : Z) s : bool := existsb (same_route route metric) (m_networkRoutes s).

Definition add_route (route : Ipv4RoutingTableEntry) (metric : Z) s : StaticRouting :=
  if negb (LookupRoute route metric s) then set_routes (m_networkRoutes s ++ [(route, metric)]) s else s.

(** [ipv4-static-routing.cc:66-84] Ipv4StaticRouting::AddNetworkRouteTo *)
Definition AddNetworkRouteTo_via (network : Ipv4Address) (networkMask : Z) (nextHop : Ipv4Address) (interface metric : Z) s : StaticRouting :=
  add_route (CreateNetworkRouteTo_via network networkMask nextHop interface) metric s.
(** [ipv4-static-routing.cc:86-102] Ipv4StaticRouting::AddNetworkRouteTo *)
Definition AddNetworkRouteTo (network : Ipv4Address) (networkMask interface metric : Z) s : StaticRouting :=
  add_route (CreateNetworkRouteTo network networkMask interface) metric s.
(** [ipv4-static-routing.cc:104-112] Ipv4StaticRouting::AddHostRouteTo *)
Definition AddHostRouteTo_via (dest nextHop : Ipv4Address) (interface metric : Z) s : StaticRouting := AddNetworkRouteTo_via dest GetOnes nextHop interface metric s.
(** [ipv4-static-routing.cc:114-119] Ipv4StaticRouting::AddHostRouteTo *)
Definition AddHostRouteTo (dest : Ipv4Address) (interface metric : Z) s : StaticRouting := AddNetworkRouteTo dest GetOnes interface metric s.
(** [ipv4-static-routing.cc] Ipv4StaticRouting::SetDefaultRoute *)
Definition SetDefaultRoute (nextHop : Ipv4Address) (interface metric : Z) s : StaticRouting := AddNetworkRouteTo_via GetZero 0 nextHop interface metric s.

(** [ipv4-static-routing.cc] Ipv4StaticRouting::AddMulticastRoute *)
Definition AddMulticastRoute (origin group : Ipv4Address) (inputInterface : Z) (outputInterfaces : list Z) s : StaticRouting :=
  set_mroutes (m_multicastRoutes s ++ [mkMEntry origin group inputInterface outputInterfaces]) s.
(** [ipv4-static-routing.cc] Ipv4StaticRouting::SetDefaultMulticastRoute *)
Definition SetDefaultMulticastRoute (outputInterface : Z) s : StaticRouting :=
  set_routes (m_networkRoutes s ++ [(CreateNetworkRouteTo (Ipv4Address_of 0xe0000000) 0xf0000000 outputInterface, 0)]) s.

(** [ipv4-static-routing.cc] Ipv4StaticRouting::GetNMulticastRoutes *)
Definition GetNMulticastRoutes s : Z := Z.of_nat (length (m_multicastRoutes s)).
(** [ipv4-static-routing.cc] Ipv4StaticRouting::GetMulticastRoute *)
Definition GetMulticastRoute (index : Z) s : res Ipv4MulticastRoutingTableEntry :=
  match m_multicastRoutes s !! Z.to_nat index with Some i => Ok i | None => Err NsAssert end.

(** [ipv4-static-routing.cc:187-205] Ipv4StaticRouting::RemoveMulticastRoute *)
Definition RemoveMulticastRoute (origin group : Ipv4Address) (inputInterface : Z) s : bool * StaticRouting :=
  match list_find (λ route, (ipv4_eq origin (me_origin route) && ipv4_eq group (me_group route) && (inputInterface =? me_input route)) = true) (m_multicastRoutes s) with
  | Some (k, _) => (true, set_mroutes (delete k (m_multicastRoutes s)) s)
  | None => (false, s)
  end.
(** [ipv4-static-routing.cc:207-222] Ipv4StaticRouting::RemoveMulticastRoute *)
Definition RemoveMulticastRoute_index (index : Z) s : StaticRouting := set_mroutes (delete (Z.to_nat index) (m_multicastRoutes s)) s.

(** [ipv4-static-routing.cc] Ipv4StaticRouting::GetNRoutes *)
Definition GetNRoutes s : Z := Z.of_nat (length (m_networkRoutes s)).
(** [ipv4-static-routing.cc] Ipv4StaticRouting::GetRoute *)
Definition GetRoute (index : Z) s : res Ipv4RoutingTableEntry := match m_networkRoutes s !! Z.to_nat index with Some j => Ok j.1 | None => Err NsAssert end.
(** [ipv4-static-routing.cc] Ipv4StaticRouting::GetMetric *)
Definition GetMetric (index : Z) s : res Z := match m_networkRoutes s !! Z.to_nat index with Some j => Ok j.2 | None => Err NsAssert end.
(** [ipv4-static-routing.cc] Ipv4StaticRouting::RemoveRoute *)
Definition RemoveRoute (index : Z) s : res StaticRouting :=
  match m_networkRoutes s !! Z.to_nat index with Some _ => Ok (set_routes (delete (Z.to_nat index) (m_networkRoutes s)) s) | None => Err NsAssert end.

(** [ipv4-static-routing.cc:388-404] Ipv4StaticRouting::GetDefaultRoute

    The loop. *)
Fixpoint GetDefaultRoute_loop (l : list (Ipv4RoutingTableEntry * Z)) (shortest_metric : Z) (result : option Ipv4RoutingTableEntry) : res (option Ipv4RoutingTableEntry) :=
  match l with
  | [] => Ok result
  | (j, metric) :: l =>
      masklen ← GetPrefixLength (e_mask j);
      if negb (masklen =? 0) then GetDefaultRoute_loop l shortest_metric result
      else if shortest_metric <? metric then GetDefaultRoute_loop l shortest_metric result
      else GetDefaultRoute_loop l metric (Some j)
  end.

(** [ipv4-static-routing.cc] Ipv4StaticRouting::GetDefaultRoute

    [None]: the entry of the default constructor, whose interface has no value. *)
Definition GetDefaultRoute s : res (option Ipv4RoutingTableEntry) := GetDefaultRoute_loop (m_networkRoutes s) 0xffffffff None.

(** [ipv4-static-routing.cc] Ipv4StaticRouting::DoDispose *)
Definition Static_DoDispose s : StaticRouting := mkStatic [] [] false.

(** ** Lookup *)

Definition the_ipv4 s : res unit := if m_ipv4 s then Ok tt else Err Undefined.

(** The route made of an entry. *)
Definition make_route (ip : Ipv4) (route : Ipv4RoutingTableEntry) : res Ipv4Route :=
  src ← SourceAddressSelection (e_interface route) (e_dest route) ip;
  dev ← GetNetDevice (e_interface route) ip;
  Ok (mkRoute (e_dest route) src (e_gateway route) dev).

(** Whether the device asked for, if any, is that of the entry. *)
Definition on_device (ip : Ipv4) (oif : Z) (j : Ipv4RoutingTableEntry) : res bool :=
  if oif =? 0 then Ok true else d ← GetNetDevice (e_interface j) ip; Ok (oif =? d).

(** [ipv4-static-routing.cc:264-313] Ipv4StaticRouting::LookupStatic

    The loop. *)
Fixpoint LookupStatic_loop (ip : Ipv4) (dest : Ipv4Address) (oif : Z) (routes : list (Ipv4RoutingTableEntry * Z)) (longest_mask shortest_metric : Z) (rtentry : option Ipv4Route) :
    res (option Ipv4Route) :=
  match routes with
  | [] => Ok rtentry
  | (j, metric) :: routes =>
      masklen ← GetPrefixLength (e_mask j);
      if IsMatch (e_mask j) dest (e_dest j) then
        on ← on_device ip oif j;
        if negb on then LookupStatic_loop ip dest oif routes longest_mask shortest_metric rtentry
        else if masklen <? longest_mask then LookupStatic_loop ip dest oif routes longest_mask shortest_metric rtentry
        else
          let shortest_metric := if longest_mask <? masklen then 0xffffffff else shortest_metric in
          if shortest_metric <? metric then LookupStatic_loop ip dest oif routes masklen shortest_metric rtentry
          else
            route ← make_route ip j;
            if masklen =? 32 then Ok (Some route) else LookupStatic_loop ip dest oif routes masklen metric (Some route)
      else LookupStatic_loop ip dest oif routes longest_mask shortest_metric rtentry
  end.

(** [ipv4-static-routing.cc:242-323] Ipv4StaticRouting::LookupStatic *)
Definition LookupStatic (ip : Ipv4) (dest : Ipv4Address) (oif : Z) s : res (option Ipv4Route) :=
  _ ← the_ipv4 s;
  if IsLocalMulticast dest then
    if oif =? 0 then Err NsAssert
    else a ← GetAddress (GetInterfaceForDevice oif ip) 0 ip; Ok (Some (mkRoute dest (a_local a) GetZero oif))
  else LookupStatic_loop ip dest oif (m_networkRoutes s) 0 0xffffffff None.

Definition output_ttls (outputs : list Z) (r : Ipv4MulticastRoute) : Ipv4MulticastRoute :=
  foldl (λ r o, if o =? 0 then r else SetOutputTtl o (MAX_TTL - 1) r) r outputs.

(** [ipv4.h:441-441] Ipv4::IF_ANY *)
Definition IF_ANY : Z := 0xffffffff.

(** [ipv4-static-routing.cc:325-371] Ipv4StaticRouting::LookupStatic

    Multicast.  The origin is not compared. *)
Definition LookupStatic_multicast (origin group : Ipv4Address) (interface : Z) s : option Ipv4MulticastRoute :=
  match list_find (λ route, (ipv4_eq group (me_group route) && ((interface =? IF_ANY) || (interface =? me_input route))) = true) (m_multicastRoutes s) with
  | Some (_, route) => Some (output_ttls (me_output route) (mkMRoute (me_group route) (me_origin route) (me_input route) ∅))
  | None => None
  end.

(** ** As a routing protocol *)

(** [ipv4-static-routing.cc] Ipv4StaticRouting::RouteOutput *)
Definition Static_RouteOutput (ip : Ipv4) (p : list Z) (header : Ipv4Header) (oif : Z) s : res (option Ipv4Route * SocketErrno * StaticRouting) :=
  rtentry ← LookupStatic ip (m_destination header) oif s;
  Ok (rtentry, match rtentry with Some _ => ERROR_NOTERROR | None => ERROR_NOROUTETOHOST end, s).

(** [ipv4-static-routing.cc] Ipv4StaticRouting::RouteInput *)
Definition Static_RouteInput (ip : Ipv4) (p : list Z) (ipHeader : Ipv4Header) (idev : Z) (lcb : bool) s : res (bool * list Callback * StaticRouting) :=
  _ ← ns_assert (m_ipv4 s);
  _ ← ns_assert (0 <=? GetInterfaceForDevice idev ip);
  let iif := GetInterfaceForDevice idev ip in
  if IsMulticast (m_destination ipHeader) then
    match LookupStatic_multicast (m_source ipHeader) (m_destination ipHeader) iif s with
    | Some mrtentry => Ok (true, [Mcb mrtentry], s)
    | None => Ok (false, [], s)
    end
  else
    own ← IsDestinationAddress (m_destination ipHeader) iif ip;
    if own : bool then (if lcb then Ok (true, [Lcb iif], s) else Ok (false, [], s))
    else
      forwarding ← IsForwarding iif ip;
      if negb forwarding then Ok (true, [Ecb ERROR_NOROUTETOHOST], s)
      else
        rtentry ← LookupStatic ip (m_destination ipHeader) 0 s;
        match rtentry with Some r => Ok (true, [Ucb r], s) | None => Ok (false, [], s) end.

(** The route to the network of an address of an interface. *)
Definition network_route (i : Z) (a : Ipv4InterfaceAddress) s : StaticRouting := AddNetworkRouteTo (CombineMask (a_mask a) (a_local a)) (a_mask a) i 0 s.

(** [ipv4-static-routing.cc] Ipv4StaticRouting::NotifyInterfaceUp *)
Definition Static_NotifyInterfaceUp (ip : Ipv4) (i : Z) s : res StaticRouting :=
  _ ← the_ipv4 s;
  x ← GetInterface i ip;
  Ok (foldl (λ s a, if negb (ipv4_eq (a_local a) Ipv4Address_default) && negb (a_mask a =? Ipv4Mask_default) && negb (a_mask a =? GetOnes) then network_route i a s else s) s (m_ifaddrs x)).

(** [ipv4-static-routing.cc] Ipv4StaticRouting::NotifyInterfaceDown *)
Definition Static_NotifyInterfaceDown (ip : Ipv4) (i : Z) s : res StaticRouting :=
  Ok (set_routes (filter (λ j, negb (e_interface j.1 =? i) = true) (m_networkRoutes s)) s).

(** [ipv4-static-routing.cc] Ipv4StaticRouting::NotifyAddAddress *)
Definition Static_NotifyAddAddress (ip : Ipv4) (interface : Z) (address : Ipv4InterfaceAddress) s : res StaticRouting :=
  _ ← the_ipv4 s;
  up ← IsUp interface ip;
  if negb up then Ok s
  else if negb (ipv4_eq (a_local address) Ipv4Address_default) && negb (a_mask address =? Ipv4Mask_default) then Ok (network_route interface address s)
  else Ok s.

(** [ipv4-static-routing.cc] Ipv4StaticRouting::NotifyRemoveAddress *)
Definition Static_NotifyRemoveAddress (ip : Ipv4) (interface : Z) (address : Ipv4InterfaceAddress) s : res StaticRouting :=
  _ ← the_ipv4 s;
  up ← IsUp interface ip;
  if negb up then Ok s
  else
    let networkAddress := CombineMask (a_mask address) (a_local address) in
    Ok (set_routes (filter (λ j, negb ((e_interface j.1 =? interface) && IsNetwork j.1 && ipv4_eq (e_dest j.1) networkAddress && (e_mask j.1 =? a_mask address)) = true)
      (m_networkRoutes s)) s).

(** [ipv4-static-routing.cc:696-706] Ipv4StaticRouting::SetIpv4

    The loop over the interfaces. *)
Fixpoint SetIpv4_loop (ip : Ipv4) (i : Z) (l : list Ipv4Interface) s : res StaticRouting :=
  match l with
  | [] => Ok s
  | x :: l => s ← (if m_ifup x then Static_NotifyInterfaceUp ip i s else Static_NotifyInterfaceDown ip i s); SetIpv4_loop ip (i + 1) l s
  end.

(** [ipv4-static-routing.cc] Ipv4StaticRouting::SetIpv4 *)
Definition Static_SetIpv4 (ip : Ipv4) s : res StaticRouting :=
  _ ← ns_assert (negb (m_ipv4 s));
  SetIpv4_loop ip 0 (m_interfaces ip) (mkStatic (m_networkRoutes s) (m_multicastRoutes s) true).

(** [ipv4-static-routing.h:78-95] Ipv4StaticRouting *)
#[export] Instance Static_protocol : RoutingProtocol StaticRouting := {
  RouteOutput := Static_RouteOutput;
  RouteInput := Static_RouteInput;
  NotifyInterfaceUp := Static_NotifyInterfaceUp;
  NotifyInterfaceDown := Static_NotifyInterfaceDown;
  NotifyAddAddress := Static_NotifyAddAddress;
  NotifyRemoveAddress := Static_NotifyRemoveAddress;
  SetIpv4 := Static_SetIpv4
}.

Lemma calls_ok_nil m lcb : calls_ok m lcb false [].
Proof. constructor; cbn; auto. Qed.

Lemma calls_ok_one m lcb c : (is_mcast c = true → m = true) → (is_local c = true → lcb = true) → calls_ok m lcb true [c].
Proof. intros Hm Hl. destruct c, m, lcb; constructor; cbn in *; intros; subst; split_and?; repeat constructor; try done; try (by specialize (Hm eq_refl)); by specialize (Hl eq_refl). Qed.

#[export] Instance Static_laws : RoutingLaws StaticRouting.
Proof.
  intros ip p h d lcb s found l s' E. cbn in E. unfold Static_RouteInput in E. res_inv.
  repeat (case_match; res_inv); simplify_eq; try apply calls_ok_nil; apply calls_ok_one; cbn; congruence.
Qed.

(** * Static routing: which route a lookup chooses

    [LookupStatic_chooses]: the longest prefix, then the least metric, then the route added last -
    but among routes to one host the route added first, whatever its metric. *)

(** ** Prefix lengths *)

Lemma GetPrefixLength_loop_ok : ∀ fuel tmp mask,
  fits 32 mask → (2 ^ (33 - Z.of_nat fuel) | mask) → (fuel ≤ 33)%nat → 0 ≤ tmp → tmp + Z.of_nat fuel ≤ 33 → (1 ≤ fuel)%nat →
  ∃ n, GetPrefixLength_loop fuel tmp mask = Ok n ∧ 0 ≤ n ≤ 32.
Proof.
  induction fuel as [|fuel IH]; intros tmp mask Hm Hd Hf Ht Hs H1; [lia|]. cbn [GetPrefixLength_loop]. destruct (Z.eqb_spec mask 0) as [->|Hne]; [exists tmp; split; [done|lia]|].
  destruct fuel as [|fuel].
  - exfalso. destruct Hd as [q Hq]. change (33 - Z.of_nat 1) with 32 in Hq. unfold fits in Hm. rewrite Hq in Hm. assert (q = 0) by nia. subst q. lia.
  - assert (u16 (tmp + 1) = tmp + 1) as -> by (apply wrap_id; zlia). apply IH; [by apply wrap_fits| |lia|lia|lia|lia].
    rewrite Z.shiftl_mul_pow2 by lia. destruct Hd as [q Hq].
    assert (2 ^ (33 - Z.of_nat (S (S fuel))) * 2 = 2 ^ (33 - Z.of_nat (S fuel))) as Hpow.
    { rewrite <- (Z.pow_1_r 2) at 2. rewrite <- Z.pow_add_r by lia. f_equal. lia. }
    assert (2 ^ (33 - Z.of_nat (S fuel)) * 2 ^ (Z.of_nat (S fuel) - 1) = 2 ^ 32) as H32 by (rewrite <- Z.pow_add_r by lia; f_equal; lia).
    unfold wrap. rewrite Z.mod_eq by lia. exists (q - mask * 2 ^ 1 / 2 ^ 32 * 2 ^ (Z.of_nat (S fuel) - 1)).
    rewrite Z.mul_sub_distr_r, <- Hpow, Z.mul_assoc, <- Hq, Z.pow_1_r. f_equal. rewrite <- H32, <- Hpow. lia.
Qed.

Lemma GetPrefixLength_total mask : fits 32 mask → ∃ n, GetPrefixLength mask = Ok n ∧ 0 ≤ n ≤ 32.
Proof. intros Hm. apply GetPrefixLength_loop_ok; [done|apply Z.divide_1_l|lia|lia|lia|lia]. Qed.

Definition plen (x : Ipv4RoutingTableEntry * Z) : Z := match GetPrefixLength (e_mask x.1) with Ok n => n | Err _ => 0 end.

(** ** The choice *)

Section lookup.
Context (ip : Ipv4) (dest : Ipv4Address) (oif : Z).

(** The route leads to the destination, over the device asked for. *)
Definition candidate (x : Ipv4RoutingTableEntry * Z) : Prop := IsMatch (e_mask x.1) dest (e_dest x.1) = true ∧ on_device ip oif x.1 = Ok true.

Definition beats_earlier (e x : Ipv4RoutingTableEntry * Z) : Prop := plen x < plen e ∨ (plen x = plen e ∧ plen e < 32 ∧ e.2 ≤ x.2).
Definition beats_later (e x : Ipv4RoutingTableEntry * Z) : Prop := plen x < plen e ∨ (plen x = plen e ∧ e.2 < x.2).

Definition chosen (routes : list (Ipv4RoutingTableEntry * Z)) (e : Ipv4RoutingTableEntry * Z) : Prop :=
  ∃ pre post, routes = pre ++ e :: post ∧ candidate e ∧ (∀ x, x ∈ pre → candidate x → beats_earlier e x) ∧ (plen e < 32 → ∀ x, x ∈ post → candidate x → beats_later e x).

(** An entry of the table: the mask and the metric are [uint32_t]. *)
Definition entry_ok (x : Ipv4RoutingTableEntry * Z) : Prop := fits 32 (e_mask x.1) ∧ fits 32 x.2.

(** Where a lookup fails with an error: at a matching entry that is reached, as no route to one host stands before it, and whose
    interface does not exist, or that is the best entry so far and of which no route can be made. *)
Definition fails_at (routes : list (Ipv4RoutingTableEntry * Z)) (x : Ipv4RoutingTableEntry * Z) (err : fault) : Prop :=
  ∃ pre post, routes = pre ++ x :: post ∧ (∀ y, y ∈ pre → candidate y → plen y < 32) ∧ IsMatch (e_mask x.1) dest (e_dest x.1) = true ∧
    (on_device ip oif x.1 = Err err ∨ (chosen (pre ++ [x]) x ∧ make_route ip x.1 = Err err)).

Definition so_far (pre : list (Ipv4RoutingTableEntry * Z)) (longest shortest : Z) (rt : option Ipv4Route) : Prop :=
  match rt with
  | None => longest = 0 ∧ shortest = 0xffffffff ∧ ∀ x, x ∈ pre → ¬ candidate x
  | Some r => ∃ e, chosen pre e ∧ make_route ip e.1 = Ok r ∧ longest = plen e ∧ plen e < 32 ∧ shortest = e.2
  end.

Lemma so_far_skip pre longest shortest rt x : so_far pre longest shortest rt → (candidate x → ∃ e, rt ≠ None ∧ longest = plen e ∧ shortest = e.2 ∧ beats_later e x) → so_far (pre ++ [x]) longest shortest rt.
Proof.
  destruct rt as [r|]; cbn [so_far].
  - intros (e & (p1 & p2 & -> & Hc & H1 & H2) & Hr & HL & Hlt & HS) Hx. exists e. split; [|done]. exists p1, (p2 ++ [x]). split; [by rewrite <- app_assoc|].
    split; [done|]. split; [done|]. intros _ y [Hy|Hy%list_elem_of_singleton]%elem_of_app Hcy; [by apply H2|]. subst y.
    destruct (Hx Hcy) as (e' & _ & HL' & HS' & Hb). unfold beats_later in *. rewrite <- HL', <- HS' in Hb. rewrite <- HL, <- HS. done.
  - intros (-> & -> & Hn) Hx. split; [done|]. split; [done|]. intros y [Hy|Hy%list_elem_of_singleton]%elem_of_app Hcy; [by apply (Hn y)|]. subst y.
    by destruct (Hx Hcy) as (? & ? & _).
Qed.

Lemma so_far_take pre longest shortest rt x post :
  so_far pre longest shortest rt → candidate x → 0 ≤ plen x ≤ 32 → longest ≤ plen x → (plen x = longest → x.2 ≤ shortest) →
  plen x = 32 ∨ post = [] → chosen (pre ++ x :: post) x.
Proof.
  intros Hs Hc Hp HL HS Hpost. exists pre, post. split; [done|]. split; [done|]. split; [|intros Hlt; destruct Hpost as [?| ->]; [lia|by intros ? ?%not_elem_of_nil]].
  destruct rt as [r|]; cbn [so_far] in Hs; [|destruct Hs as (_ & _ & Hn); intros y Hy Hcy; by destruct (Hn y Hy)].
  destruct Hs as (e & (p1 & p2 & -> & Hce & H1 & H2) & _ & -> & Hlt & ->). unfold beats_earlier, beats_later in *.
  intros y [Hy|[->|Hy]%elem_of_cons]%elem_of_app Hcy.
  - destruct (H1 y Hy Hcy) as [?|(? & ? & ?)]; [left; lia|]. destruct (Z.eq_dec (plen x) (plen e)) as [E|]; [right|left; lia]. specialize (HS E). lia.
  - destruct (Z.eq_dec (plen x) (plen e)) as [E|]; [right|left; lia]. specialize (HS E). lia.
  - destruct (H2 Hlt y Hy Hcy) as [?|(? & ?)]; [left; lia|]. destruct (Z.eq_dec (plen x) (plen e)) as [E|]; [right|left; lia]. specialize (HS E). lia.
Qed.

Lemma make_route_device e r : make_route ip e = Ok r → ∃ b, on_device ip oif e = Ok b.
Proof.
  unfold make_route, on_device. destruct (oif =? 0); [by eexists|]. intros Hr. res_inv. match goal with H : GetNetDevice _ _ = Ok ?d |- _ => rewrite H end. by eexists.
Qed.

(** No route to one host has been passed. *)
Lemma so_far_short pre longest shortest rt : so_far pre longest shortest rt → ∀ y, y ∈ pre → candidate y → plen y < 32.
Proof.
  destruct rt as [r|]; cbn [so_far]; [|intros (_ & _ & Hn) y Hy Hc; by destruct (Hn y Hy)].
  intros (e & (p1 & p2 & -> & Hce & H1 & H2) & _ & _ & Hlt & _) y Hy Hc. unfold beats_earlier, beats_later in *.
  apply elem_of_app in Hy as [Hy|[->|Hy]%elem_of_cons]; [destruct (H1 y Hy Hc); lia|done|destruct (H2 Hlt y Hy Hc); lia].
Qed.

Definition answer (routes : list (Ipv4RoutingTableEntry * Z)) (rt : res (option Ipv4Route)) : Prop :=
  match rt with
  | Ok (Some r) => ∃ e, chosen routes e ∧ make_route ip e.1 = Ok r
  | Ok None => ∀ x, x ∈ routes → ¬ candidate x
  | Err err => ∃ x, fails_at routes x err
  end.

Lemma LookupStatic_loop_ok : ∀ post pre longest shortest rt,
  Forall entry_ok (pre ++ post) → so_far pre longest shortest rt → answer (pre ++ post) (LookupStatic_loop ip dest oif post longest shortest rt).
Proof.
  induction post as [|[j metric] post IH]; intros pre longest shortest rt Hok Hs.
  { rewrite app_nil_r. destruct rt as [r|]; cbn in *; [destruct Hs as (e & ? & ? & _); by exists e|by destruct Hs as (_ & _ & ?)]. }
  assert (entry_ok (j, metric)) as (Hmask & Hmet) by (apply (proj1 (Forall_forall _ _) Hok); apply elem_of_app; right; by left). cbn [fst snd] in Hmask, Hmet.
  destruct (GetPrefixLength_total (e_mask j) Hmask) as (n & Hn & Hrange). assert (plen (j, metric) = n) as Hpl by (unfold plen; cbn [fst]; by rewrite Hn).
  pose proof (so_far_short _ _ _ _ Hs) as Hshort. cbn [LookupStatic_loop]. rewrite Hn. res_simpl.
  destruct (IsMatch (e_mask j) dest (e_dest j)) eqn:Hmatch.
  2: { rewrite cons_middle, app_assoc in *. apply IH; [done|]. apply so_far_skip; [done|]. intros [Hm _]. cbn [fst] in Hm. congruence. }
  destruct (on_device ip oif j) as [b|err] eqn:Hb; res_simpl; [|by exists (j, metric), pre, post; split_and?; try done; left].
  destruct b; cbn [negb].
  2: { rewrite cons_middle, app_assoc in *. apply IH; [done|]. apply so_far_skip; [done|]. intros [_ Ho]. cbn [fst] in Ho. congruence. }
  assert (candidate (j, metric)) as Hcand by done.
  destruct (Z.ltb_spec n longest) as [Hlt|Hge].
  { rewrite cons_middle, app_assoc in *. apply IH; [done|]. apply so_far_skip; [done|]. intros _. destruct rt as [r'|]; cbn [so_far] in Hs; [|lia].
    destruct Hs as (e & _ & _ & -> & _ & ->). exists e. split; [done|]. split; [done|]. split; [done|]. left. lia. }
  destruct (Z.ltb_spec (if longest <? n then 0xffffffff else shortest) metric) as [Hm|Hm].
  - destruct (Z.ltb_spec longest n) as [|Hle]; [unfold fits in Hmet; lia|]. assert (n = longest) as En by lia. rewrite En.
    rewrite cons_middle, app_assoc in *. apply IH; [done|]. apply so_far_skip; [done|].
    intros _. destruct rt as [r'|]; cbn [so_far] in Hs; [|destruct Hs as (_ & -> & _); unfold fits in Hmet; lia]. destruct Hs as (e & _ & _ & He & _ & ->). exists e. split; [done|]. split; [done|]. split; [done|].
    right. cbn [snd]. split; [congruence|lia].
  - assert (plen (j, metric) = longest → metric ≤ shortest) as HS.
    { intros E. destruct (Z.ltb_spec longest n); [lia|done]. }
    assert (∀ rest, plen (j, metric) = 32 ∨ rest = [] → chosen (pre ++ (j, metric) :: rest) (j, metric)) as Htake.
    { intros rest Hrest. apply (so_far_take pre longest shortest rt); [done|done|lia|lia|exact HS|done]. }
    destruct (make_route ip j) as [r|err] eqn:Hroute; res_simpl; [|exists (j, metric), pre, post; split_and?; try done; right; split; [apply Htake; by right|done]].
    destruct (Z.eqb_spec n 32) as [E32|Hne]; [exists (j, metric); split; [apply Htake; left; lia|done]|].
    rewrite cons_middle, app_assoc in *. apply IH; [done|]. exists (j, metric). split; [apply Htake; by right|split; [done|split; [done|split; [lia|done]]]].
Qed.
End lookup.

(** C11 The static route to a unicast destination, for every table of 32-bit entries.  [LookupStatic]
    finds no route exactly if no entry matches the destination and the device asked for.
    If it finds one, the route is made of the entry that the matching entries compare to as follows:
    none has a longer prefix; if that prefix is shorter than 32 bits, none of the same length has a
    smaller metric, and none after it an equal one; if it is a host route, it is the first one in
    the table, and metrics do not matter.  If it ends with an error, that is the error of a
    matching entry before which no host route stands: its interface has no device to compare with the one asked
    for, or it is the best entry up to there and no route can be made of it (the interface does not exist or has no
    address).  So no lookup fails if a route can be made of every matching entry. *)
Theorem LookupStatic_chooses ip dest oif s :
  m_ipv4 s = true → IsLocalMulticast dest = false → Forall entry_ok (m_networkRoutes s) →
  match LookupStatic ip dest oif s with
  | Ok (Some route) => ∃ e pre post, m_networkRoutes s = pre ++ e :: post ∧ candidate ip dest oif e ∧ make_route ip e.1 = Ok route ∧
      (∀ x, x ∈ pre ++ post → candidate ip dest oif x → plen x ≤ plen e) ∧
      (plen e < 32 → (∀ x, x ∈ pre → candidate ip dest oif x → plen x = plen e → e.2 ≤ x.2) ∧ (∀ x, x ∈ post → candidate ip dest oif x → plen x = plen e → e.2 < x.2)) ∧
      (plen e = 32 → ∀ x, x ∈ pre → candidate ip dest oif x → plen x < 32)
  | Ok None => ∀ x, x ∈ m_networkRoutes s → ¬ candidate ip dest oif x
  | Err err => ∃ x, fails_at ip dest oif (m_networkRoutes s) x err
  end ∧
  (Forall (λ x, IsMatch (e_mask x.1) dest (e_dest x.1) = true → is_ok (make_route ip x.1) = true) (m_networkRoutes s) → is_ok (LookupStatic ip dest oif s) = true).
Proof.
  intros Hip Hmc Hok. unfold LookupStatic, the_ipv4. rewrite Hip, Hmc. res_simpl.
  assert (answer ip dest oif (m_networkRoutes s) (LookupStatic_loop ip dest oif (m_networkRoutes s) 0 0xffffffff None)) as Ha.
  { apply (LookupStatic_loop_ok ip dest oif (m_networkRoutes s) []); [done|]. split; [done|split; [done|by intros ? ?%not_elem_of_nil]]. }
  destruct (LookupStatic_loop _ _ _ _ _ _ _) as [[route|]|err]; cbn [answer] in Ha.
  2: by split. 2: { split; [done|]. intros Hall. exfalso. destruct Ha as (x & pre & post & E & _ & Hm & Hx). rewrite E in Hall.
    apply Forall_app in Hall as [_ [Hr _]%Forall_cons]. specialize (Hr Hm). destruct (make_route ip x.1) as [r|] eqn:Er; [|done].
    destruct (make_route_device ip oif _ _ Er) as [b Hb]. destruct Hx as [?|[_ ?]]; congruence. }
  split; [|done]. destruct Ha as (e & (pre & post & E & Hc & H1 & H2) & Hr). exists e, pre, post.
  assert (∀ x, x ∈ m_networkRoutes s → 0 ≤ plen x ≤ 32) as Hpl.
  { intros x Hx. apply (proj1 (Forall_forall _ _) Hok) in Hx as (Hm & _). destruct (GetPrefixLength_total _ Hm) as (n & Hn & ?). unfold plen. by rewrite Hn. }
  assert (plen e ≤ 32) as He by (apply Hpl; rewrite E; apply elem_of_app; right; by left).
  unfold beats_earlier, beats_later in *. split; [done|]. split; [done|]. split; [done|]. split; [|split].
  - intros x [Hx|Hx]%elem_of_app Hcx; [destruct (H1 x Hx Hcx); lia|]. destruct (Z.eq_dec (plen e) 32) as [E32|]; [|destruct (H2 ltac:(lia) x Hx Hcx); lia].
    assert (0 ≤ plen x ≤ 32) by (apply Hpl; rewrite E; apply elem_of_app; right; by right). lia.
  - intros Hlt. split; intros x Hx Hcx Ex; [destruct (H1 x Hx Hcx); lia|destruct (H2 Hlt x Hx Hcx); lia].
  - intros E32 x Hx Hcx. destruct (H1 x Hx Hcx); lia.
Qed.

(** ** Examples *)

Definition addr (a b c d : Z) : Ipv4Address := Ipv4Address_of (((a * 256 + b) * 256 + c) * 256 + d).

(** Two interfaces, 10.0.1.1/24 on device 1 and 10.0.2.1/24 on device 2. *)
Definition example_ip : Ipv4 :=
  mkIpv4L3 true true
    [mkInterface true true [Ipv4InterfaceAddress_new (addr 10 0 1 1) 0xffffff00] 1; mkInterface true true [Ipv4InterfaceAddress_new (addr 10 0 2 1) 0xffffff00] 2]
    (<[1 := 0]> (<[2 := 1]> ∅)) 64 ∅.

Definition example_table : StaticRouting :=
  mkStatic [(mkEntry GetZero 0 (addr 10 0 1 9) 0, 0); (mkEntry (addr 10 7 0 0) 0xffff0000 (addr 10 0 1 2) 0, 7); (mkEntry (addr 10 7 0 0) 0xffff0000 (addr 10 0 2 3) 1, 5);
            (mkEntry (addr 10 7 0 0) 0xffff0000 (addr 10 0 2 4) 1, 5); (mkEntry (addr 10 0 0 0) 0xff000000 (addr 10 0 1 5) 0, 1);
            (mkEntry (addr 10 8 0 1) 0xffffffff (addr 10 0 1 6) 0, 9); (mkEntry (addr 10 8 0 1) 0xffffffff (addr 10 0 2 6) 1, 2)] [] true.

Lemma example_entries : Forall entry_ok (m_networkRoutes example_table).
Proof. repeat (constructor; [split; vm_compute; split; congruence|]). constructor. Qed.

Lemma LookupStatic_chooses_witness :
  LookupStatic example_ip (addr 10 7 1 1) 0 example_table = Ok (Some (mkRoute (addr 10 7 0 0) (addr 10 0 2 1) (addr 10 0 2 4) 2)) ∧
  ∃ e pre post, m_networkRoutes example_table = pre ++ e :: post ∧ candidate example_ip (addr 10 7 1 1) 0 e ∧
    make_route example_ip e.1 = Ok (mkRoute (addr 10 7 0 0) (addr 10 0 2 1) (addr 10 0 2 4) 2) ∧
    (∀ x, x ∈ pre ++ post → candidate example_ip (addr 10 7 1 1) 0 x → plen x ≤ plen e) ∧
    (plen e < 32 → (∀ x, x ∈ pre → candidate example_ip (addr 10 7 1 1) 0 x → plen x = plen e → e.2 ≤ x.2) ∧ (∀ x, x ∈ post → candidate example_ip (addr 10 7 1 1) 0 x → plen x = plen e → e.2 < x.2)) ∧
    (plen e = 32 → ∀ x, x ∈ pre → candidate example_ip (addr 10 7 1 1) 0 x → plen x < 32).
Proof. split; [vm_compute; reflexivity|]. exact (proj1 (LookupStatic_chooses example_ip (addr 10 7 1 1) 0 example_table eq_refl eq_refl example_entries)). Defined.

(** An entry of an interface that is not there makes the lookup fail, although a route of the same destination exists: it has the better metric. *)
Example lookup_fails :
  LookupStatic example_ip (addr 10 7 1 1) 0 (mkStatic [(mkEntry (addr 10 7 0 0) 0xffff0000 (addr 10 0 1 2) 0, 7); (mkEntry (addr 10 7 0 0) 0xffff0000 (addr 10 0 2 3) 5, 6)] [] true) = Err Undefined.
Proof. vm_compute. reflexivity. Qed.

(** Of two routes to the same host the one added first is taken, although its metric is greater. *)
Example host_route_metric :
  LookupStatic example_ip (addr 10 8 0 1) 0 example_table = Ok (Some (mkRoute (addr 10 8 0 1) (addr 10 0 1 1) (addr 10 0 1 6) 1)).
Proof. vm_compute. reflexivity. Qed.
