(* ===== verification/ListRouting.v ===== *)
(** * Routing protocols in a list (internet/model/ipv4-list-routing.cc)

    [Ipv4ListRouting] asks protocols in the order of their priorities.  The protocols are of any type that is
    an instance of [RoutingProtocol]; the list is one itself, and keeps its laws. *)

From S2P Require Import Prelude Buffer Ipv4Address IpInterfaces StaticRouting.
From S2P Require Ipv4Header.
Import Ipv4Header (Ipv4Header, m_source, m_destination).
Local Open Scope Z_scope.

Section routing.
Context {P : Type} `{RoutingProtocol P}.

(** [ipv4-list-routing.h:116-125] Ipv4ListRouting *)
Record ListRouting := mkList { m_routingProtocols : list (Z * P); lr_ipv4 : bool }.
Implicit Types s : ListRouting.

(** [ipv4-list-routing.cc] Ipv4ListRouting::Ipv4ListRouting *)
Definition Ipv4ListRouting_new : ListRouting := mkList [] false.
(** [ipv4-list-routing.cc] Ipv4ListRouting::DoDispose *)
Definition List_DoDispose s : ListRouting := mkList [] false.

(** [ipv4-list-routing.cc] Ipv4ListRouting::Compare *)
Definition Compare (a b : Z * P) : bool := b.1 <? a.1.

(** [list::sort], which is stable. *)
Definition sort (l : list (Z * P)) : list (Z * P) := foldl (λ l x, insert_before Compare x l) [] l.

(** [ipv4-list-routing.cc] Ipv4ListRouting::AddRoutingProtocol *)
Definition AddRoutingProtocol (ip : Ipv4) (routingProtocol : P) (priority : Z) s : res ListRouting :=
  p ← (if lr_ipv4 s then SetIpv4 ip routingProtocol else Ok routingProtocol);
  Ok (mkList (sort (m_routingProtocols s ++ [(priority, p)])) (lr_ipv4 s)).

(** [ipv4-list-routing.cc] Ipv4ListRouting::GetNRoutingProtocols *)
Definition GetNRoutingProtocols s : Z := Z.of_nat (length (m_routingProtocols s)).
(** [ipv4-list-routing.cc] Ipv4ListRouting::GetRoutingProtocol *)
Definition GetRoutingProtocol (index : Z) s : res (P * Z) :=
  match m_routingProtocols s !! Z.to_nat index with Some (priority, p) => Ok (p, priority) | None => Err NsFatal end.

(** [ipv4-list-routing.cc:113-127] Ipv4ListRouting::RouteOutput

    The loop. *)
Fixpoint List_RouteOutput_loop (ip : Ipv4) (p : list Z) (header : Ipv4Header) (oif : Z) (l : list (Z * P)) : res (option Ipv4Route * list (Z * P)) :=
  match l with
  | [] => Ok (None, [])
  | (priority, i) :: l =>
      '(route, _, i) ← RouteOutput ip p header oif i;
      match route with
      | Some route => Ok (Some route, (priority, i) :: l)
      | None => '(route, l) ← List_RouteOutput_loop ip p header oif l; Ok (route, (priority, i) :: l)
      end
  end.

(** [ipv4-list-routing.cc] Ipv4ListRouting::RouteOutput *)
Definition List_RouteOutput (ip : Ipv4) (p : list Z) (header : Ipv4Header) (oif : Z) s : res (option Ipv4Route * SocketErrno * ListRouting) :=
  '(route, l) ← List_RouteOutput_loop ip p header oif (m_routingProtocols s);
  Ok (route, match route with Some _ => ERROR_NOTERROR | None => ERROR_NOROUTETOHOST end, mkList l (lr_ipv4 s)).

(** [ipv4-list-routing.cc:185-195] Ipv4ListRouting::RouteInput

    The loop. *)
Fixpoint List_RouteInput_loop (ip : Ipv4) (p : list Z) (header : Ipv4Header) (idev : Z) (downstreamLcb : bool) (l : list (Z * P)) : res (bool * list Callback * list (Z * P)) :=
  match l with
  | [] => Ok (false, [], [])
  | (priority, i) :: l =>
      '(found, calls, i) ← RouteInput ip p header idev downstreamLcb i;
      if found : bool then Ok (true, calls, (priority, i) :: l)
      else '(found, calls', l) ← List_RouteInput_loop ip p header idev downstreamLcb l; Ok (found, calls ++ calls', (priority, i) :: l)
  end.

(** [ipv4-list-routing.cc] Ipv4ListRouting::RouteInput

    The local delivery callback is called without a test. *)
Definition List_RouteInput (ip : Ipv4) (p : list Z) (header : Ipv4Header) (idev : Z) (lcb : bool) s : res (bool * list Callback * ListRouting) :=
  _ ← ns_assert (lr_ipv4 s);
  _ ← ns_assert (0 <=? GetInterfaceForDevice idev ip);
  let iif := GetInterfaceForDevice idev ip in
  retVal ← IsDestinationAddress (m_destination header) iif ip;
  _ ← (if (retVal : bool) && negb lcb then Err Undefined else Ok tt : res unit);
  let delivery := if retVal : bool then [Lcb iif] else [] in
  if retVal && negb (IsMulticast (m_destination header)) then Ok (true, delivery, s)
  else
    forwarding ← IsForwarding iif ip;
    if negb forwarding then Ok (true, delivery ++ [Ecb ERROR_NOROUTETOHOST], s)
    else
      '(found, calls, l) ← List_RouteInput_loop ip p header idev (lcb && negb retVal) (m_routingProtocols s);
      Ok (found || retVal, delivery ++ calls, mkList l (lr_ipv4 s)).

(** Each protocol is told. *)
Fixpoint notify_all (f : P → res P) (l : list (Z * P)) : res (list (Z * P)) :=
  match l with [] => Ok [] | (priority, i) :: l => i ← f i; l ← notify_all f l; Ok ((priority, i) :: l) end.

(** [ipv4-list-routing.cc] Ipv4ListRouting::NotifyInterfaceUp *)
Definition List_NotifyInterfaceUp (ip : Ipv4) (interface : Z) s : res ListRouting :=
  l ← notify_all (NotifyInterfaceUp ip interface) (m_routingProtocols s); Ok (mkList l (lr_ipv4 s)).
(** [ipv4-list-routing.cc] Ipv4ListRouting::NotifyInterfaceDown *)
Definition List_NotifyInterfaceDown (ip : Ipv4) (interface : Z) s : res ListRouting :=
  l ← notify_all (NotifyInterfaceDown ip interface) (m_routingProtocols s); Ok (mkList l (lr_ipv4 s)).
(** [ipv4-list-routing.cc] Ipv4ListRouting::NotifyAddAddress *)
Definition List_NotifyAddAddress (ip : Ipv4) (interface : Z) (address : Ipv4InterfaceAddress) s : res ListRouting :=
  l ← notify_all (NotifyAddAddress ip interface address) (m_routingProtocols s); Ok (mkList l (lr_ipv4 s)).
(** [ipv4-list-routing.cc] Ipv4ListRouting::NotifyRemoveAddress *)
Definition List_NotifyRemoveAddress (ip : Ipv4) (interface : Z) (address : Ipv4InterfaceAddress) s : res ListRouting :=
  l ← notify_all (NotifyRemoveAddress ip interface address) (m_routingProtocols s); Ok (mkList l (lr_ipv4 s)).
(** [ipv4-list-routing.cc] Ipv4ListRouting::SetIpv4 *)
Definition List_SetIpv4 (ip : Ipv4) s : res ListRouting :=
  _ ← ns_assert (negb (lr_ipv4 s));
  l ← notify_all (SetIpv4 ip) (m_routingProtocols s);
  Ok (mkList l true).

(** [ipv4-list-routing.h:83-99] Ipv4ListRouting *)
#[export] Instance List_protocol : RoutingProtocol ListRouting := {
  RouteOutput := List_RouteOutput;
  RouteInput := List_RouteInput;
  NotifyInterfaceUp := List_NotifyInterfaceUp;
  NotifyInterfaceDown := List_NotifyInterfaceDown;
  NotifyAddAddress := List_NotifyAddAddress;
  NotifyRemoveAddress := List_NotifyRemoveAddress;
  SetIpv4 := List_SetIpv4
}.

(** ** The order of the protocols *)

(** Descending priorities. *)
Definition by_priority (a b : Z * P) : Prop := b.1 ≤ a.1.

#[export] Instance by_priority_trans : Transitive by_priority.
Proof. intros x y z. unfold by_priority. lia. Qed.

Definition in_order s : Prop := StronglySorted by_priority (m_routingProtocols s).

(** Inserting keeps the order, and puts an entry behind those of the same priority. *)
Lemma insert_in_order x l : StronglySorted by_priority l →
  ∃ l1 l2, l = l1 ++ l2 ∧ insert_before Compare x l = l1 ++ x :: l2 ∧ StronglySorted by_priority (l1 ++ x :: l2) ∧
    Forall (λ y, x.1 ≤ y.1) l1 ∧ Forall (λ y, y.1 < x.1) l2.
Proof using.
  induction l as [|y l IH]; intros Hs.
  - exists [], []. conj; try done. repeat constructor.
  - cbn [insert_before]. unfold Compare at 1. destruct (Z.ltb_spec y.1 x.1) as [Hlt|Hge].
    + exists [], (y :: l). cbn [app]. apply StronglySorted_inv in Hs as Hs'. destruct Hs' as [_ Hall]. rewrite Forall_forall in Hall.
      assert (Forall (λ z, z.1 < x.1) (y :: l)) as Hl.
      { constructor; [lia|]. apply Forall_forall. intros z Hz. specialize (Hall z Hz). unfold by_priority in Hall. cbn in *. lia. }
      conj; try done. constructor; [done|]. eapply Forall_impl; [exact Hl|]. intros z Hz. unfold by_priority. cbn in *. lia.
    + apply StronglySorted_inv in Hs as [Hs Hall]. destruct (IH Hs) as (l1 & l2 & -> & -> & Hs' & H1 & H2). exists (y :: l1), l2.
      conj; try done; [|by constructor]. cbn [app]. constructor; [done|]. rewrite Forall_app in *. destruct Hall as [Ha1 Ha2].
      split; [done|]. by constructor.
Qed.

Lemma sort_in_order l x : StronglySorted by_priority l → sort (l ++ [x]) = insert_before Compare x l.
Proof using.
  intros Hs. unfold sort. rewrite foldl_app. cbn [foldl]. f_equal. induction l as [|y l IH] using rev_ind; [done|].
  apply StronglySorted_app in Hs as (Hyl & Hs & _). rewrite foldl_app. cbn [foldl]. rewrite (IH Hs). clear IH.
  destruct (insert_in_order y l Hs) as (l1 & l2 & -> & -> & _ & _ & H2). destruct l2 as [|z l2]; [by rewrite app_nil_r|]. exfalso.
  apply Forall_cons in H2 as [Hz _]. specialize (Hyl z y ltac:(set_solver) ltac:(set_solver)). unfold by_priority in Hyl. lia.
Qed.

(** A protocol is put behind those of the same priority and before those of a smaller one. *)
Lemma AddRoutingProtocol_ok ip p priority s s' :
  in_order s → AddRoutingProtocol ip p priority s = Ok s' →
  in_order s' ∧ ∃ p' l1 l2, (if lr_ipv4 s then SetIpv4 ip p = Ok p' else p' = p) ∧ m_routingProtocols s = l1 ++ l2 ∧
    m_routingProtocols s' = l1 ++ (priority, p') :: l2 ∧ Forall (λ y, priority ≤ y.1) l1 ∧ Forall (λ y, y.1 < priority) l2.
Proof using.
  intros Ho E. unfold AddRoutingProtocol in E. res_inv. subst s'. unfold in_order. cbn [m_routingProtocols]. rewrite sort_in_order by done.
  match goal with H : (if _ then _ else _) = Ok ?q |- _ => destruct (insert_in_order (priority, q) _ Ho) as (l1 & l2 & El & -> & Hs & H1 & H2); split; [done|]; exists q, l1, l2; conj; try done; by destruct (lr_ipv4 s); [|injection H] end.
Qed.

(** ** The calls *)

Lemma locals_app l l' : locals (l ++ l') = locals l ++ locals l'.
Proof using. apply filter_app. Qed.

Lemma List_RouteInput_loop_ok `{!RoutingLaws P} ip p h d lcb l found calls l' :
  List_RouteInput_loop ip p h d lcb l = Ok (found, calls, l') → calls_ok (IsMulticast (m_destination h)) lcb found calls.
Proof using.
  revert found calls l'. induction l as [|[priority i] l IH]; intros found calls l' E; cbn [List_RouteInput_loop] in E.
  { simplify_eq. apply calls_ok_nil. }
  res_inv. match goal with H : RouteInput _ _ _ _ _ _ = Ok ?x |- _ => destruct x as [[f c] i'] eqn:Ex; rename H into Hi end. apply law_RouteInput in Hi.
  destruct f; [by simplify_eq|]. rewrite (co_none _ _ _ _ Hi) in * by done. res_inv. cbn [app] in *.
  match goal with H : List_RouteInput_loop _ _ _ _ _ _ = Ok ?x |- _ => destruct x as [[f' c'] l''] end. simplify_eq. by eapply IH.
Qed.

(** The list keeps the laws: in particular a packet is delivered at most once, whatever the protocols do. *)
#[export] Instance List_laws `{!RoutingLaws P} : RoutingLaws ListRouting.
Proof using.
  intros ip p h d lcb s found calls s' E. cbn in E. unfold List_RouteInput in E. res_inv.
  match goal with H : IsDestinationAddress _ _ _ = Ok ?b |- _ => destruct b eqn:Eb end; cbn [andb orb negb] in *.
  - destruct lcb; cbn [negb] in *; [|done]. destruct (IsMulticast (m_destination h)) eqn:Em; cbn [negb] in *.
    + res_inv. match goal with H : IsForwarding _ _ = Ok ?b |- _ => destruct b end; cbn [negb] in *; [|simplify_eq; by constructor].
      res_inv. match goal with H : List_RouteInput_loop _ _ _ _ _ _ = Ok ?x |- _ => destruct x as [[f c] l]; apply List_RouteInput_loop_ok in H; rename H into Hl end.
      simplify_eq. rewrite orb_true_r. destruct Hl as [_ Hn _ _]. specialize (Hn eq_refl). constructor; [done|done| |congruence].
      change (length (Lcb (GetInterfaceForDevice d ip) :: locals c) ≤ 1)%nat. rewrite Hn. cbn. lia.
    + simplify_eq. by apply calls_ok_one.
  - res_inv. match goal with H : IsForwarding _ _ = Ok ?b |- _ => destruct b end; cbn [negb] in *; [|simplify_eq; by apply calls_ok_one].
    res_inv. match goal with H : List_RouteInput_loop _ _ _ _ _ _ = Ok ?x |- _ => destruct x as [[f c] l]; apply List_RouteInput_loop_ok in H; rename H into Hl end.
    rewrite andb_true_r in Hl. simplify_eq. by rewrite orb_false_r.
Qed.
End routing.
Arguments ListRouting P : clear implicits.
