(* ===== verification/EndPointDemux.v ===== *)
(** * Demultiplexing of IPv4 end points
      (src/src/internet/model/ipv4-end-point.cc, ipv4-end-point-demux.cc)

    The end points of the sockets of a node, by pointer: sockets keep pointers to them and
    change them.  A callback is its number; the calls made are part of the result. *)

From S2P Require Import Prelude Ipv4Address.
Local Open Scope Z_scope.

(** [ipv4-end-point.h:196-236] Ipv4EndPoint *)
Record Ipv4EndPoint := mkEp {
  m_localAddr : Ipv4Address;
  m_localPort : Z;
  m_peerAddr : Ipv4Address;
  m_peerPort : Z;
  m_boundnetdevice : option Z;
  m_rxCallback : option Z;
  m_icmpCallback : option Z;
  m_destroyCallback : option Z;
  m_rxEnabled : bool
}.

(** [ipv4-end-point.cc:31-39] Ipv4EndPoint::Ipv4EndPoint *)
Definition Ipv4EndPoint_new (address : Ipv4Address) (port : Z) : Ipv4EndPoint :=
  mkEp address port GetAny 0 None None None None true.

(** [ipv4-end-point.cc:41-51] Ipv4EndPoint::~Ipv4EndPoint

    The callback that is called. *)
Definition Ipv4EndPoint_destroy (e : Ipv4EndPoint) : option Z := m_destroyCallback e.

(** [ipv4-end-point.cc] Ipv4EndPoint::SetLocalAddress *)
Definition SetLocalAddress (address : Ipv4Address) (e : Ipv4EndPoint) : Ipv4EndPoint :=
  mkEp address (m_localPort e) (m_peerAddr e) (m_peerPort e) (m_boundnetdevice e) (m_rxCallback e)
    (m_icmpCallback e) (m_destroyCallback e) (m_rxEnabled e).

(** [ipv4-end-point.cc] Ipv4EndPoint::SetPeer *)
Definition SetPeer (address : Ipv4Address) (port : Z) (e : Ipv4EndPoint) : Ipv4EndPoint :=
  mkEp (m_localAddr e) (m_localPort e) address port (m_boundnetdevice e) (m_rxCallback e)
    (m_icmpCallback e) (m_destroyCallback e) (m_rxEnabled e).

(** [ipv4-end-point.cc] Ipv4EndPoint::BindToNetDevice *)
Definition BindToNetDevice (netdevice : option Z) (e : Ipv4EndPoint) : Ipv4EndPoint :=
  mkEp (m_localAddr e) (m_localPort e) (m_peerAddr e) (m_peerPort e) netdevice (m_rxCallback e)
    (m_icmpCallback e) (m_destroyCallback e) (m_rxEnabled e).

(** [ipv4-end-point.cc] Ipv4EndPoint::SetRxCallback *)
Definition SetRxCallback (callback : option Z) (e : Ipv4EndPoint) : Ipv4EndPoint :=
  mkEp (m_localAddr e) (m_localPort e) (m_peerAddr e) (m_peerPort e) (m_boundnetdevice e) callback
    (m_icmpCallback e) (m_destroyCallback e) (m_rxEnabled e).

(** [ipv4-end-point.cc] Ipv4EndPoint::SetIcmpCallback *)
Definition SetIcmpCallback (callback : option Z) (e : Ipv4EndPoint) : Ipv4EndPoint :=
  mkEp (m_localAddr e) (m_localPort e) (m_peerAddr e) (m_peerPort e) (m_boundnetdevice e) (m_rxCallback e)
    callback (m_destroyCallback e) (m_rxEnabled e).

(** [ipv4-end-point.cc] Ipv4EndPoint::SetDestroyCallback *)
Definition SetDestroyCallback (callback : option Z) (e : Ipv4EndPoint) : Ipv4EndPoint :=
  mkEp (m_localAddr e) (m_localPort e) (m_peerAddr e) (m_peerPort e) (m_boundnetdevice e) (m_rxCallback e)
    (m_icmpCallback e) callback (m_rxEnabled e).

(** [ipv4-end-point.cc] Ipv4EndPoint::SetRxEnabled *)
Definition SetRxEnabled (enabled : bool) (e : Ipv4EndPoint) : Ipv4EndPoint :=
  mkEp (m_localAddr e) (m_localPort e) (m_peerAddr e) (m_peerPort e) (m_boundnetdevice e) (m_rxCallback e)
    (m_icmpCallback e) (m_destroyCallback e) enabled.

(** [ipv4-end-point.cc] Ipv4EndPoint::ForwardUp

    The callback called with the arguments [args], if any. *)
Definition ForwardUp {A} (args : A) (e : Ipv4EndPoint) : option (Z * A) :=
  match m_rxCallback e with Some c => Some (c, args) | None => None end.

(** [ipv4-end-point.cc] Ipv4EndPoint::ForwardIcmp *)
Definition ForwardIcmp {A} (args : A) (e : Ipv4EndPoint) : option (Z * A) :=
  match m_icmpCallback e with Some c => Some (c, args) | None => None end.

(** ** The demultiplexer *)

Definition ptr : Type := positive.
Definition store : Type := gmap ptr Ipv4EndPoint.

(** [ipv4-end-point-demux.h:183-198] Ipv4EndPointDemux

    With the end points that exist. *)
Record Demux := mkDemux {
  m_ephemeral : Z;
  m_portLast : Z;
  m_portFirst : Z;
  m_endPoints : list ptr;
  eps : store
}.

(** [ipv4-end-point-demux.cc:32-38] Ipv4EndPointDemux::Ipv4EndPointDemux *)
Definition Demux_new (s : store) : Demux := mkDemux 49152 65535 49152 [] s.

(** [ipv4-end-point-demux.cc:40-49] Ipv4EndPointDemux::~Ipv4EndPointDemux

    The callbacks the destructors of the end points call, in order. *)
Definition Demux_destroy (d : Demux) : res (list Z * store) :=
  (fix loop l s :=
     match l with
     | [] => Ok ([], s)
     | i :: l =>
         e ← deref ((s : store) !! i);
         '(called, s) ← loop l (delete i s);
         Ok (option_list (Ipv4EndPoint_destroy e) ++ called, s)
     end) (m_endPoints d) (eps d).

(** A loop that returns true at the first end point that satisfies [P]. *)
Fixpoint find_ep (P : Ipv4EndPoint → bool) (s : store) (l : list ptr) : res bool :=
  match l with
  | [] => Ok false
  | i :: l => e ← deref (s !! i); if P e then Ok true else find_ep P s l
  end.

(** [ipv4-end-point-demux.cc] Ipv4EndPointDemux::LookupPortLocal *)
Definition LookupPortLocal (port : Z) (d : Demux) : res bool :=
  find_ep (λ e, m_localPort e =? port) (eps d) (m_endPoints d).

(** [ipv4-end-point-demux.cc] Ipv4EndPointDemux::LookupLocal *)
Definition LookupLocal (boundNetDevice : option Z) (addr : Ipv4Address) (port : Z) (d : Demux) : res bool :=
  find_ep (λ e, (m_localPort e =? port) && ipv4_eq (m_localAddr e) addr &&
                bool_decide (m_boundnetdevice e = boundNetDevice)) (eps d) (m_endPoints d).

(** [ipv4-end-point-demux.cc:423-427] Ipv4EndPointDemux::AllocateEphemeralPort

    [++port; if (port < m_portFirst || port > m_portLast) port = m_portFirst;] *)
Definition next_port (d : Demux) (port : Z) : Z :=
  let port := u16 (port + 1) in
  if (port <? m_portFirst d) || (m_portLast d <? port) then m_portFirst d else port.

(** [ipv4-end-point-demux.cc:415-428] Ipv4EndPointDemux::AllocateEphemeralPort

    The loop. *)
Fixpoint AllocateEphemeralPort_loop (fuel : nat) (count port : Z) (d : Demux) : res (Z * Demux) :=
  match fuel with
  | O => Err OutOfFuel
  | S fuel =>
      if count <? 0 then Ok (0, d)
      else
        let port := next_port d port in
        used ← LookupPortLocal port d;
        if (used : bool) then AllocateEphemeralPort_loop fuel (count - 1) port d
        else Ok (port, mkDemux port (m_portLast d) (m_portFirst d) (m_endPoints d) (eps d))
  end.

(** One iteration more than there are ports. *)
Definition port_fuel (d : Demux) : nat := Z.to_nat (m_portLast d - m_portFirst d + 2).

(** [ipv4-end-point-demux.cc] Ipv4EndPointDemux::AllocateEphemeralPort *)
Definition AllocateEphemeralPort (d : Demux) : res (Z * Demux) :=
  AllocateEphemeralPort_loop (port_fuel d) (m_portLast d - m_portFirst d) (m_ephemeral d) d.

(** [ipv4-end-point-demux.cc:130-131] Ipv4EndPointDemux::Allocate

    [new Ipv4EndPoint] and [m_endPoints.push_back]. *)
Definition push_ep (e : Ipv4EndPoint) (d : Demux) : ptr * Demux :=
  let p := fresh (dom (eps d)) in
  (p, mkDemux (m_ephemeral d) (m_portLast d) (m_portFirst d) (m_endPoints d ++ [p]) (<[p := e]> (eps d))).

(** [ipv4-end-point-demux.cc:80-94] Ipv4EndPointDemux::Allocate *)
Definition Allocate (d : Demux) : res (option ptr * Demux) :=
  '(port, d) ← AllocateEphemeralPort d;
  if port =? 0 then Ok (None, d)
  else let '(p, d) := push_ep (Ipv4EndPoint_new GetAny port) d in Ok (Some p, d).

(** [ipv4-end-point-demux.cc:96-110] Ipv4EndPointDemux::Allocate *)
Definition Allocate_addr (address : Ipv4Address) (d : Demux) : res (option ptr * Demux) :=
  '(port, d) ← AllocateEphemeralPort d;
  if port =? 0 then Ok (None, d)
  else let '(p, d) := push_ep (Ipv4EndPoint_new address port) d in Ok (Some p, d).

(** [ipv4-end-point-demux.cc:120-133] Ipv4EndPointDemux::Allocate *)
Definition Allocate_local (boundNetDevice : option Z) (address : Ipv4Address) (port : Z) (d : Demux) :
    res (option ptr * Demux) :=
  a ← LookupLocal boundNetDevice address port d;
  b ← (if (a : bool) then Ok true else LookupLocal None address port d);
  if (b : bool) then Ok (None, d)
  else let '(p, d) := push_ep (Ipv4EndPoint_new address port) d in Ok (Some p, d).

(** [ipv4-end-point-demux.cc:112-118] Ipv4EndPointDemux::Allocate *)
Definition Allocate_port (boundNetDevice : option Z) (port : Z) (d : Demux) : res (option ptr * Demux) :=
  Allocate_local boundNetDevice GetAny port d.

(** [ipv4-end-point-demux.cc:135-160] Ipv4EndPointDemux::Allocate *)
Definition Allocate_peer (boundNetDevice : option Z) (localAddress : Ipv4Address) (localPort : Z)
    (peerAddress : Ipv4Address) (peerPort : Z) (d : Demux) : res (option ptr * Demux) :=
  dup ← find_ep (λ e, (m_localPort e =? localPort) && ipv4_eq (m_localAddr e) localAddress &&
          (m_peerPort e =? peerPort) && ipv4_eq (m_peerAddr e) peerAddress &&
          (bool_decide (m_boundnetdevice e = boundNetDevice) || bool_decide (m_boundnetdevice e = None)))
        (eps d) (m_endPoints d);
  if (dup : bool) then Ok (None, d)
  else
    let '(p, d) := push_ep (SetPeer peerAddress peerPort (Ipv4EndPoint_new localAddress localPort)) d in
    Ok (Some p, d).

(** [ipv4-end-point-demux.cc] Ipv4EndPointDemux::DeAllocate

    With the callback the destructor calls. *)
Definition DeAllocate (endPoint : ptr) (d : Demux) : res (option Z * Demux) :=
  match erase_first (λ i, bool_decide (i = endPoint)) (m_endPoints d) with
  | None => Ok (None, d)
  | Some (_, l) =>
      e ← deref (eps d !! endPoint);
      Ok (Ipv4EndPoint_destroy e,
          mkDemux (m_ephemeral d) (m_portLast d) (m_portFirst d) l (delete endPoint (eps d)))
  end.

(** [ipv4-end-point-demux.cc] Ipv4EndPointDemux::GetAllEndPoints *)
Definition GetAllEndPoints (d : Demux) : list ptr := m_endPoints d.

(** What the search uses of the incoming [Ipv4Interface]: its device, and the local
    addresses with their masks. *)
Record Interface := mkIface {
  if_device : Z;
  if_addresses : list (Ipv4Address * Z)
}.

(** [ipv4-end-point-demux.cc:271-289] Ipv4EndPointDemux::Lookup

    Is the end point bound to the network of the destination address? *)
Definition is_subnet_any (e : Ipv4EndPoint) (daddr : Ipv4Address) (itf : Interface) : bool :=
  existsb (λ '(loc, mask),
    let addrNetpart := CombineMask mask loc in
    ipv4_eq (m_localAddr e) addrNetpart && ipv4_eq addrNetpart (CombineMask mask daddr))
    (if_addresses itf).

(** [ipv4-end-point-demux.cc:214-340] Ipv4EndPointDemux::Lookup

    The loop: the lists [retval1] to [retval4]. *)
Fixpoint Lookup_loop (daddr : Ipv4Address) (dport : Z) (saddr : Ipv4Address) (sport : Z) (itf : Interface)
    (s : store) (l r1 r2 r3 r4 : list ptr) : res (list ptr * list ptr * list ptr * list ptr) :=
  match l with
  | [] => Ok (r1, r2, r3, r4)
  | i :: l =>
      e ← deref (s !! i);
      let skip := Lookup_loop daddr dport saddr sport itf s l r1 r2 r3 r4 in
      if negb (m_rxEnabled e) then skip
      else if negb (m_localPort e =? dport) then skip
      else if match m_boundnetdevice e with Some dev => negb (dev =? if_device itf) | None => false end then skip
      else
        let localAddressMatchesExact := ipv4_eq (m_localAddr e) daddr in
        let localAddressIsAny := negb localAddressMatchesExact && ipv4_eq (m_localAddr e) GetAny in
        let localAddressIsSubnetAny :=
          negb localAddressMatchesExact && negb localAddressIsAny && is_subnet_any e daddr itf in
        if negb (localAddressMatchesExact || localAddressIsAny || localAddressIsSubnetAny) then skip
        else
          let remotePortMatchesExact := m_peerPort e =? sport in
          let remotePortMatchesWildCard := m_peerPort e =? 0 in
          let remoteAddressMatchesExact := ipv4_eq (m_peerAddr e) saddr in
          let remoteAddressMatchesWildCard := ipv4_eq (m_peerAddr e) GetAny in
          if negb (remotePortMatchesExact || remotePortMatchesWildCard) then skip
          else if negb (remoteAddressMatchesExact || remoteAddressMatchesWildCard) then skip
          else
            let localAddressMatchesWildCard := localAddressIsAny || localAddressIsSubnetAny in
            let r4 := if localAddressMatchesExact && remoteAddressMatchesExact && remotePortMatchesExact
                      then r4 ++ [i] else r4 in
            let r3 := if localAddressMatchesWildCard && remoteAddressMatchesExact && remotePortMatchesExact
                      then r3 ++ [i] else r3 in
            let r2 := if localAddressMatchesExact && remoteAddressMatchesWildCard && remotePortMatchesWildCard
                      then r2 ++ [i] else r2 in
            let r1 := if localAddressMatchesWildCard && remoteAddressMatchesWildCard && remotePortMatchesWildCard
                      then r1 ++ [i] else r1 in
            Lookup_loop daddr dport saddr sport itf s l r1 r2 r3 r4
  end.

(** [ipv4-end-point-demux.cc] Ipv4EndPointDemux::Lookup *)
Definition Lookup (daddr : Ipv4Address) (dport : Z) (saddr : Ipv4Address) (sport : Z) (itf : Interface)
    (d : Demux) : res (list ptr) :=
  '(r1, r2, r3, r4) ← Lookup_loop daddr dport saddr sport itf (eps d) (m_endPoints d) [] [] [] [];
  let retval := match r4 with
                | _ :: _ => r4
                | [] => match r3 with _ :: _ => r3 | [] => match r2 with _ :: _ => r2 | [] => r1 end end
                end in
  ns_abort_unless (negb (1 <? Z.of_nat (length retval))) ≫= λ _,
  Ok retval.

(** [ipv4-end-point-demux.cc:379-405] Ipv4EndPointDemux::SimpleLookup

    The loop. *)
Fixpoint SimpleLookup_loop (daddr : Ipv4Address) (dport : Z) (saddr : Ipv4Address) (sport : Z)
    (s : store) (l : list ptr) (genericity : Z) (generic : option ptr) : res (option ptr) :=
  match l with
  | [] => Ok generic
  | i :: l =>
      e ← deref (s !! i);
      if negb (m_localPort e =? dport) then SimpleLookup_loop daddr dport saddr sport s l genericity generic
      else if ipv4_eq (m_localAddr e) daddr && (m_peerPort e =? sport) && ipv4_eq (m_peerAddr e) saddr
      then Ok (Some i)
      else
        let tmp := (if ipv4_eq (m_localAddr e) GetAny then 1 else 0) +
                   (if ipv4_eq (m_peerAddr e) GetAny then 1 else 0) in
        if tmp <? genericity then SimpleLookup_loop daddr dport saddr sport s l tmp (Some i)
        else SimpleLookup_loop daddr dport saddr sport s l genericity generic
  end.

(** [ipv4-end-point-demux.cc] Ipv4EndPointDemux::SimpleLookup *)
Definition SimpleLookup (daddr : Ipv4Address) (dport : Z) (saddr : Ipv4Address) (sport : Z) (d : Demux) :
    res (option ptr) :=
  SimpleLookup_loop daddr dport saddr sport (eps d) (m_endPoints d) 3 None.

(** ** Correctness *)

Record demux_ok (d : Demux) : Prop := {
  dm_nodup : NoDup (m_endPoints d);
  dm_valid : ∀ p, p ∈ m_endPoints d → is_Some (eps d !! p);
  dm_ports : 0 < m_portFirst d ≤ m_portLast d ∧ m_portLast d < 2 ^ 16;
  dm_ephemeral : m_portFirst d ≤ m_ephemeral d ≤ m_portLast d
}.

(** The end point [p] of [d] satisfies [P]. *)
Definition has (d : Demux) (P : Ipv4EndPoint → Prop) (p : ptr) : Prop :=
  p ∈ m_endPoints d ∧ ∃ e, eps d !! p = Some e ∧ P e.

Lemma find_ep_ok P s l :
  (∀ p, p ∈ l → is_Some (s !! p)) →
  ∃ b, find_ep P s l = Ok b ∧ (b = true ↔ ∃ p e, p ∈ l ∧ s !! p = Some e ∧ P e = true).
Proof.
  intros Hv. induction l as [|i l IH]; cbn.
  { exists false. split; [done|]. split; [done|]. by intros (p & e & ?%not_elem_of_nil & _). }
  destruct (Hv i) as [e He]; [by left|]. rewrite He. res_simpl. destruct (P e) eqn:HP.
  { exists true. split; [done|]. split; [|done]. intros _. exists i, e. split; [by left|done]. }
  destruct IH as (b & -> & Hb); [intros; apply Hv; by right|]. exists b. split; [done|]. rewrite Hb. split.
  - intros (p & e' & Hp & Hs & HP'). exists p, e'. split; [by right|done].
  - intros (p & e' & [->|Hp]%elem_of_cons & Hs & HP'); [congruence|]. by exists p, e'.
Qed.

Lemma LookupPortLocal_ok d port :
  demux_ok d → ∃ b, LookupPortLocal port d = Ok b ∧ (b = true ↔ ∃ p, has d (λ e, m_localPort e = port) p).
Proof.
  intros W. destruct (find_ep_ok (λ e, m_localPort e =? port) (eps d) (m_endPoints d) (dm_valid _ W)) as (b & Hb & Hiff).
  exists b. split; [done|]. rewrite Hiff. unfold has. setoid_rewrite Z.eqb_eq. naive_solver.
Qed.

Definition port_in_use (d : Demux) (port : Z) : Prop := ∃ p, has d (λ e, m_localPort e = port) p.

(** The port tried after [k] steps. *)
Definition nth_port (d : Demux) (k : Z) : Z :=
  m_portFirst d + (m_ephemeral d - m_portFirst d + k) mod (m_portLast d - m_portFirst d + 1).

Lemma next_nth_port d k : demux_ok d → 0 ≤ k → next_port d (nth_port d k) = nth_port d (k + 1).
Proof.
  intros W Hk. pose proof (dm_ports _ W) as [Hf Hl]. unfold next_port, nth_port.
  set (n := m_portLast d - m_portFirst d + 1) in *. set (x := m_ephemeral d - m_portFirst d + k).
  replace (m_ephemeral d - m_portFirst d + (k + 1)) with (x + 1) by lia.
  pose proof (Z.mod_pos_bound x n ltac:(lia)) as Hb.
  assert ((x + 1) mod n = if x mod n + 1 =? n then 0 else x mod n + 1) as ->.
  { rewrite <- (Z.add_mod_idemp_l x) by lia. destruct (Z.eqb_spec (x mod n + 1) n) as [->|].
    - apply Z.mod_same. lia.
    - apply Z.mod_small. lia. }
  destruct (Z.eqb_spec (x mod n + 1) n) as [E|E].
  - destruct (decide (m_portLast d + 1 = 2 ^ 16)) as [E2|E2].
    + replace (m_portFirst d + x mod n + 1) with (2 ^ 16) by lia. change (u16 (2 ^ 16)) with 0.
      rewrite (proj2 (Z.ltb_lt 0 _)) by lia. cbn [orb]. lia.
    + rewrite wrap_id by (unfold fits; lia).
      rewrite (proj2 (Z.ltb_lt (m_portLast d) _)) by lia. rewrite orb_true_r. lia.
  - rewrite wrap_id by (unfold fits; lia).
    rewrite (proj2 (Z.ltb_ge _ (m_portFirst d))), (proj2 (Z.ltb_ge (m_portLast d) _)) by lia. cbn [orb]. lia.
Qed.

Lemma nth_port_all d q :
  demux_ok d → m_portFirst d ≤ q ≤ m_portLast d →
  ∃ k, 1 ≤ k ≤ m_portLast d - m_portFirst d + 1 ∧ nth_port d k = q.
Proof.
  intros W Hq. pose proof (dm_ephemeral _ W). set (n := m_portLast d - m_portFirst d + 1).
  unfold nth_port. fold n. destruct (Z.lt_ge_cases (m_ephemeral d) q).
  - exists (q - m_ephemeral d). split; [lia|].
    replace (m_ephemeral d - m_portFirst d + (q - m_ephemeral d)) with (q - m_portFirst d) by lia.
    rewrite Z.mod_small; lia.
  - exists (q - m_ephemeral d + n). split; [lia|].
    replace (m_ephemeral d - m_portFirst d + (q - m_ephemeral d + n)) with (q - m_portFirst d + 1 * n) by lia.
    rewrite Z.mod_add, Z.mod_small; lia.
Qed.

Lemma ephemeral_loop_ok d fuel k :
  demux_ok d → 0 ≤ k ≤ m_portLast d - m_portFirst d + 1 →
  m_portLast d - m_portFirst d + 1 - k < Z.of_nat fuel →
  (∀ j, 1 ≤ j ≤ k → port_in_use d (nth_port d j)) →
  (AllocateEphemeralPort_loop fuel (m_portLast d - m_portFirst d - k) (nth_port d k) d = Ok (0, d) ∧
     ∀ j, 1 ≤ j ≤ m_portLast d - m_portFirst d + 1 → port_in_use d (nth_port d j)) ∨
  ∃ i, k < i ≤ m_portLast d - m_portFirst d + 1 ∧
    AllocateEphemeralPort_loop fuel (m_portLast d - m_portFirst d - k) (nth_port d k) d =
      Ok (nth_port d i, mkDemux (nth_port d i) (m_portLast d) (m_portFirst d) (m_endPoints d) (eps d)) ∧
    ¬ port_in_use d (nth_port d i) ∧ ∀ j, 1 ≤ j < i → port_in_use d (nth_port d j).
Proof.
  intros W. revert k. induction fuel as [|fuel IH]; intros k Hk Hfuel Hused; [lia|].
  cbn [AllocateEphemeralPort_loop]. destruct (Z.ltb_spec (m_portLast d - m_portFirst d - k) 0).
  { left. split; [done|]. intros j Hj. apply Hused. lia. }
  rewrite next_nth_port by (done || lia).
  destruct (LookupPortLocal_ok d (nth_port d (k + 1)) W) as (b & -> & Hb). res_simpl. destruct b.
  - replace (m_portLast d - m_portFirst d - k - 1) with (m_portLast d - m_portFirst d - (k + 1)) by lia.
    destruct (IH (k + 1)) as [?|(i & Hi & ?)]; [lia|lia| |by left|right; exists i; split; [lia|done]].
    intros j Hj. destruct (decide (j = k + 1)) as [->|]; [by apply Hb|apply Hused; lia].
  - right. exists (k + 1). split; [lia|]. split; [done|]. split.
    + intros Hu. apply Hb in Hu. done.
    + intros j Hj. apply Hused. lia.
Qed.

(** [AllocateEphemeralPort] ends: it gives 0 and changes nothing exactly when every port
    of the range is in use; otherwise a port of the range that no end point uses, the first
    one behind the last port given, cyclically, and remembers it. *)
Theorem AllocateEphemeralPort_correct d :
  demux_ok d →
  let n := m_portLast d - m_portFirst d + 1 in
  let nth k := m_portFirst d + (m_ephemeral d - m_portFirst d + k) mod n in
  ∃ port d', AllocateEphemeralPort d = Ok (port, d') ∧ demux_ok d' ∧
    (port = 0 ↔ ∀ q, m_portFirst d ≤ q ≤ m_portLast d → port_in_use d q) ∧
    (port = 0 → d' = d) ∧
    (port ≠ 0 → m_portFirst d ≤ port ≤ m_portLast d ∧ ¬ port_in_use d port ∧
      (∃ k, 1 ≤ k ≤ n ∧ port = nth k ∧ ∀ j, 1 ≤ j < k → port_in_use d (nth j)) ∧
      d' = mkDemux port (m_portLast d) (m_portFirst d) (m_endPoints d) (eps d)).
Proof.
  intros W n nth. pose proof (dm_ports _ W) as [Hf Hl]. pose proof (dm_ephemeral _ W) as He.
  assert (∀ k, m_portFirst d ≤ nth k ≤ m_portLast d) as Hr.
  { intros k. unfold nth. pose proof (Z.mod_pos_bound (m_ephemeral d - m_portFirst d + k) n ltac:(lia)). lia. }
  assert (nth_port d 0 = m_ephemeral d) as H0 by (unfold nth_port; rewrite Z.mod_small; lia).
  destruct (ephemeral_loop_ok d (port_fuel d) 0 W) as [[Hloop Hall]|(i & Hi & Hloop & Hfree & Hused)];
    [lia|unfold port_fuel; lia|intros; lia| |]; rewrite H0, Z.sub_0_r in Hloop; fold (AllocateEphemeralPort d) in Hloop.
  - exists 0, d. split; [exact Hloop|]. split; [done|]. split; [split; [|done]|done]. intros _ q Hq.
    destruct (nth_port_all d q W Hq) as (k & Hk & <-). by apply Hall.
  - change (nth_port d i) with (nth i) in *. pose proof (Hr i) as Hri. eexists _, _. split; [exact Hloop|]. conj.
    + destruct W. by constructor.
    + split; [lia|]. intros Hq. destruct Hfree. by apply Hq.
    + lia.
    + intros _. split; [lia|]. split; [done|]. split; [exists i; split; [lia|done]|done].
Qed.

(** A demultiplexer with one end point, on port 49153, asked for a port after 49152. *)
Definition demux_one : Demux :=
  mkDemux 49152 65535 49152 [1%positive] {[1%positive := Ipv4EndPoint_new GetAny 49153]}.

Lemma demux_one_ok : demux_ok demux_one.
Proof.
  constructor; cbn.
  - apply NoDup_singleton.
  - intros p ->%list_elem_of_singleton. by eexists.
  - lia.
  - lia.
Qed.

Lemma AllocateEphemeralPort_correct_witness :
  ∃ port d', AllocateEphemeralPort demux_one = Ok (port, d') ∧ port = 49154 ∧ demux_ok d'.
Proof.
  destruct (AllocateEphemeralPort_correct demux_one demux_one_ok) as (port & d' & H & W & _).
  exists port, d'. split; [exact H|]. split; [|exact W]. vm_compute in H. congruence.
Defined.

(** *** Lookup, declaratively *)

(** May the end point receive a packet for the port [dport] that came in on [itf]? *)
Definition receives (dport : Z) (itf : Interface) (e : Ipv4EndPoint) : Prop :=
  m_rxEnabled e = true ∧ m_localPort e = dport ∧
  (m_boundnetdevice e = None ∨ m_boundnetdevice e = Some (if_device itf)).

(** The network of an address of the interface that holds both the local address of the
    end point, as its network address, and [daddr]. *)
Definition on_subnet (daddr : Ipv4Address) (itf : Interface) (e : Ipv4EndPoint) : Prop :=
  ∃ loc mask, (loc, mask) ∈ if_addresses itf ∧
    m_address (m_localAddr e) = m_address (CombineMask mask loc) ∧
    m_address (CombineMask mask loc) = m_address (CombineMask mask daddr).

(** The four classes of matches: 4 is a full match; 3 all but the local address; 2 the local
    address and port only; 1 the local port only. *)
Definition in_class (daddr : Ipv4Address) (dport : Z) (saddr : Ipv4Address) (sport : Z) (itf : Interface)
    (k : Z) (e : Ipv4EndPoint) : Prop :=
  let local_exact := m_address (m_localAddr e) = m_address daddr in
  let local_wild := m_address (m_localAddr e) ≠ m_address daddr ∧
                    (m_address (m_localAddr e) = 0 ∨ on_subnet daddr itf e) in
  let remote_exact := m_address (m_peerAddr e) = m_address saddr ∧ m_peerPort e = sport in
  let remote_wild := m_address (m_peerAddr e) = 0 ∧ m_peerPort e = 0 in
  receives dport itf e ∧
  ((k = 4 ∧ local_exact ∧ remote_exact) ∨ (k = 3 ∧ local_wild ∧ remote_exact) ∨
   (k = 2 ∧ local_exact ∧ remote_wild) ∨ (k = 1 ∧ local_wild ∧ remote_wild)).

#[export] Instance in_class_dec daddr dport saddr sport itf k e :
  Decision (in_class daddr dport saddr sport itf k e).
Proof.
  assert (Decision (on_subnet daddr itf e)).
  { refine (cast_if (decide (Exists (λ x, m_address (m_localAddr e) = m_address (CombineMask (snd x) (fst x)) ∧
      m_address (CombineMask (snd x) (fst x)) = m_address (CombineMask (snd x) daddr)) (if_addresses itf))));
      rewrite Exists_exists in *; unfold on_subnet.
    - match goal with H : ∃ x, _ |- _ => destruct H as ([loc mask] & ? & ?) end. by exists loc, mask.
    - intros (loc & mask & ? & ?). match goal with H : ¬ _ |- _ => apply H end. by exists (loc, mask). }
  unfold in_class, receives. apply _.
Defined.

(** The end points of [l] that satisfy [P], in order. *)
Definition class_of (s : store) (P : Ipv4EndPoint → Prop) `{∀ e, Decision (P e)} (l : list ptr) : list ptr :=
  filter (λ p, match s !! p with Some e => bool_decide (P e) | None => false end = true) l.

Lemma elem_of_class_of d P `{∀ e, Decision (P e)} p : p ∈ class_of (eps d) P (m_endPoints d) ↔ has d P p.
Proof.
  unfold class_of, has. rewrite list_elem_of_filter. destruct (eps d !! p) as [e|]; [|naive_solver].
  rewrite bool_decide_eq_true. naive_solver.
Qed.

Lemma is_subnet_any_ok e daddr itf : is_subnet_any e daddr itf = true ↔ on_subnet daddr itf e.
Proof.
  unfold is_subnet_any, on_subnet. rewrite existsb_exists. split.
  - intros ([loc mask] & Hin & [H1 H2]%andb_true_iff). exists loc, mask.
    apply Z.eqb_eq in H1, H2. by apply list_elem_of_In in Hin.
  - intros (loc & mask & Hin & H1 & H2). exists (loc, mask). split; [by apply list_elem_of_In|].
    unfold ipv4_eq. by rewrite H1, H2, !Z.eqb_refl.
Qed.

Section lookup.
Context (daddr : Ipv4Address) (dport : Z) (saddr : Ipv4Address) (sport : Z) (itf : Interface).
Local Abbreviation cls k := (in_class daddr dport saddr sport itf k).

(** The conditions of the code, as booleans. *)
Local Abbreviation recv_b e :=
  (m_rxEnabled e && (m_localPort e =? dport) &&
   negb match m_boundnetdevice e with Some dev => negb (dev =? if_device itf) | None => false end).
Local Abbreviation lexact_b e := (ipv4_eq (m_localAddr e) daddr).
Local Abbreviation lwild_b e :=
  (negb (lexact_b e) && (ipv4_eq (m_localAddr e) GetAny || is_subnet_any e daddr itf)).
Local Abbreviation rexact_b e := (ipv4_eq (m_peerAddr e) saddr && (m_peerPort e =? sport)).
Local Abbreviation rwild_b e := (ipv4_eq (m_peerAddr e) GetAny && (m_peerPort e =? 0)).

Lemma receives_b e : receives dport itf e ↔ recv_b e = true.
Proof.
  unfold receives. destruct (m_rxEnabled e), (Z.eqb_spec (m_localPort e) dport), (m_boundnetdevice e) as [dev|];
    cbn; try (destruct (Z.eqb_spec dev (if_device itf))); naive_solver.
Qed.

Lemma in_class_b k e (b : bool) :
  b = recv_b e && (if k =? 4 then lexact_b e && rexact_b e else if k =? 3 then lwild_b e && rexact_b e
                   else if k =? 2 then lexact_b e && rwild_b e else lwild_b e && rwild_b e) →
  1 ≤ k ≤ 4 → ∀ A (x y : A), (if decide (cls k e) then x else y) = if b then x else y.
Proof.
  intros Hb Hk A x y. assert (cls k e ↔ b = true) as Hiff; [|by destruct b, (decide (cls k e)); naive_solver].
  subst b. rewrite andb_true_iff, <- receives_b. unfold in_class. apply and_iff_compat_l.
  rewrite <- is_subnet_any_ok. unfold ipv4_eq. change (m_address GetAny) with 0.
  assert (k = 1 ∨ k = 2 ∨ k = 3 ∨ k = 4) as [->|[->|[->| ->]]] by lia; cbn;
    rewrite ?andb_true_iff, ?orb_true_iff, ?negb_true_iff, ?Z.eqb_eq, ?Z.eqb_neq; intuition congruence.
Qed.

Lemma Lookup_loop_ok s l r1 r2 r3 r4 :
  (∀ p, p ∈ l → is_Some (s !! p)) →
  Lookup_loop daddr dport saddr sport itf s l r1 r2 r3 r4 =
  Ok (r1 ++ class_of s (cls 1) l, r2 ++ class_of s (cls 2) l,
      r3 ++ class_of s (cls 3) l, r4 ++ class_of s (cls 4) l).
Proof.
  revert r1 r2 r3 r4. induction l as [|i l IH]; intros r1 r2 r3 r4 Hv.
  { cbn. by rewrite !app_nil_r. }
  destruct (Hv i) as [e He]; [by left|].
  assert (∀ k, class_of s (cls k) (i :: l) =
               (if decide (cls k e) then [i] else []) ++ class_of s (cls k) l) as Hc.
  { intros k. unfold class_of. rewrite filter_cons, He. by repeat case_decide; repeat case_bool_decide. }
  assert (∀ p, p ∈ l → is_Some (s !! p)) as Hv' by (intros; apply Hv; by right).
  rewrite !Hc, !(in_class_b _ e _ eq_refl) by lia. cbn [Lookup_loop Z.eqb Pos.eqb]. rewrite He. res_simpl.
  destruct (m_rxEnabled e); cbn [negb andb]; [|by apply IH].
  destruct (m_localPort e =? dport); cbn [negb andb]; [|by apply IH].
  destruct (match m_boundnetdevice e with Some dev => _ | None => _ end); cbn [negb andb]; [by apply IH|].
  destruct (ipv4_eq (m_localAddr e) daddr), (ipv4_eq (m_localAddr e) GetAny), (is_subnet_any e daddr itf);
    cbn [negb andb orb]; try (by apply IH);
    destruct (ipv4_eq (m_peerAddr e) saddr), (ipv4_eq (m_peerAddr e) GetAny),
      (m_peerPort e =? sport), (m_peerPort e =? 0); cbn [negb andb orb app]; rewrite IH by done;
    by rewrite <- ?(app_assoc _ [i]).
Qed.

(** [Lookup] goes through the classes from the best one down, stops at the first that is
    not empty and must find one end point there only. *)
Lemma Lookup_ok d :
  demux_ok d →
  let c k := class_of (eps d) (cls k) (m_endPoints d) in
  let best := match c 4 with _ :: _ => c 4 | [] =>
              match c 3 with _ :: _ => c 3 | [] => match c 2 with _ :: _ => c 2 | [] => c 1 end end end in
  Lookup daddr dport saddr sport itf d = if decide (length best ≤ 1)%nat then Ok best else Err NsFatal.
Proof.
  intros W c best. unfold Lookup. rewrite Lookup_loop_ok by apply W. res_simpl. cbn [app].
  fold (c 1) (c 2) (c 3) (c 4). fold best. unfold ns_abort_unless.
  destruct (Z.ltb_spec 1 (Z.of_nat (length best))); cbn [negb]; case_decide; try lia; done.
Qed.
End lookup.

(** What is returned of a class that is not empty. *)
Lemma one_or_abort (l : list ptr) (M : ptr → Prop) :
  NoDup l → l ≠ [] → (∀ p, p ∈ l ↔ M p) →
  let r := if decide (length l ≤ 1)%nat then Ok l else Err NsFatal in
  (∃ p, r = Ok [p] ∧ ∀ q, M q ↔ q = p) ∨ (∃ p q, r = Err NsFatal ∧ p ≠ q ∧ M p ∧ M q).
Proof.
  intros Hnd Hne HM r. destruct l as [|p [|q l]]; [done| |].
  - left. exists p. split; [done|]. intros q. by rewrite <- HM, list_elem_of_singleton.
  - right. exists p, q. rewrite <- !HM. apply NoDup_cons in Hnd as [Hpq _]. conj.
    + done.
    + intros ->. apply Hpq. by left.
    + by left.
    + by right; left.
Qed.

(** C32 [Lookup] returns the single end point of the best class of matches that is not
    empty - full match, all but the local address, local address and port, local port -
    among the end points that may receive from the interface; nothing when no end point
    matches; and aborts when the best class has two of them. *)
Theorem Lookup_correct daddr dport saddr sport itf d :
  demux_ok d →
  let matching k p := has d (in_class daddr dport saddr sport itf k) p in
  (Lookup daddr dport saddr sport itf d = Ok [] ∧ ∀ k p, ¬ matching k p) ∨
  ∃ k, (∀ j p, k < j → ¬ matching j p) ∧
    ((∃ p, Lookup daddr dport saddr sport itf d = Ok [p] ∧ ∀ q, matching k q ↔ q = p) ∨
     (∃ p q, Lookup daddr dport saddr sport itf d = Err NsFatal ∧ p ≠ q ∧ matching k p ∧ matching k q)).
Proof.
  intros W matching. pose proof (Lookup_ok daddr dport saddr sport itf d W) as HL. cbv zeta in HL.
  set (c k := class_of (eps d) (in_class daddr dport saddr sport itf k) (m_endPoints d)) in *.
  fold (c 1) (c 2) (c 3) (c 4) in HL. rewrite HL. clear HL.
  assert (∀ k p, p ∈ c k ↔ matching k p) as Hc by (intros; apply elem_of_class_of).
  assert (∀ k p, matching k p → k = 1 ∨ k = 2 ∨ k = 3 ∨ k = 4) as Hk.
  { intros k p (_ & e & _ & _ & H). naive_solver. }
  assert (∀ k, c k = [] → ∀ p, ¬ matching k p) as Hnil.
  { intros k E p. rewrite <- Hc, E. apply not_elem_of_nil. }
  assert (∀ k, NoDup (c k)) as Hnd by (intros; apply NoDup_filter, W).
  assert (∀ k, c k ≠ [] → _) as Hgo by (intros k Hne; apply (one_or_abort (c k) (matching k) (Hnd k) Hne (Hc k))).
  destruct (c 4) eqn:E4; [destruct (c 3) eqn:E3; [destruct (c 2) eqn:E2; [destruct (c 1) eqn:E1|]|]|].
  { left. split; [by rewrite decide_True by (cbn; lia)|]. intros k p Hm. destruct (Hk k p Hm) as [->|[->|[->| ->]]]; by revert Hm; apply Hnil. }
  all: right.
  - exists 1. split; [|rewrite <- E1; apply Hgo; congruence].
    intros j q Hj Hm. destruct (Hk j q Hm) as [->|[->|[->| ->]]]; first [lia|by revert Hm; apply Hnil].
  - exists 2. split; [|rewrite <- E2; apply Hgo; congruence].
    intros j q Hj Hm. destruct (Hk j q Hm) as [->|[->|[->| ->]]]; first [lia|by revert Hm; apply Hnil].
  - exists 3. split; [|rewrite <- E3; apply Hgo; congruence].
    intros j q Hj Hm. destruct (Hk j q Hm) as [->|[->|[->| ->]]]; first [lia|by revert Hm; apply Hnil].
  - exists 4. split; [|rewrite <- E4; apply Hgo; congruence].
    intros j q Hj Hm. destruct (Hk j q Hm) as [->|[->|[->| ->]]]; first [lia|by revert Hm; apply Hnil].
Qed.

(** A server on port 80 of every address, a connection of it, and a disabled socket. *)
Definition demux_web : Demux :=
  let server := Ipv4EndPoint_new GetAny 80 in
  let conn := SetPeer (Ipv4Address_of 0x0a000002) 5000 (Ipv4EndPoint_new (Ipv4Address_of 0x0a000001) 80) in
  mkDemux 49152 65535 49152 [1%positive; 2%positive; 3%positive]
    (<[1%positive := server]> (<[2%positive := conn]> {[3%positive := SetRxEnabled false conn]})).

Definition web_interface : Interface := mkIface 0 [(Ipv4Address_of 0x0a000001, 0xffffff00)].

Lemma demux_web_ok : demux_ok demux_web.
Proof.
  constructor; cbn; [|intros p Hp|lia|lia].
  - by apply (bool_decide_unpack _).
  - repeat (apply elem_of_cons in Hp as [->|Hp]; [by eexists|]). by apply not_elem_of_nil in Hp.
Qed.

Lemma Lookup_correct_witness :
  demux_ok demux_web ∧
  Lookup (Ipv4Address_of 0x0a000001) 80 (Ipv4Address_of 0x0a000002) 5000 web_interface demux_web = Ok [2%positive].
Proof.
  split; [exact demux_web_ok|].
  destruct (Lookup_correct (Ipv4Address_of 0x0a000001) 80 (Ipv4Address_of 0x0a000002) 5000 web_interface
              demux_web demux_web_ok) as [[H _]|(k & _ & [(p & H & _)|(p & q & H & _)])].
  - by vm_compute in H.
  - by vm_compute.
  - by vm_compute in H.
Defined.

(** *** Allocation *)

Lemma push_ep_ok e d p d' :
  demux_ok d → push_ep e d = (p, d') →
  demux_ok d' ∧ eps d !! p = None ∧ m_endPoints d' = m_endPoints d ++ [p] ∧ eps d' = <[p := e]> (eps d).
Proof.
  intros W E. unfold push_ep in E. set (q := fresh (dom (eps d))) in *. injection E as <- <-.
  assert (eps d !! q = None) as Hq by apply not_elem_of_dom, is_fresh. split; [|done].
  assert (∀ p, p ∈ m_endPoints d → p ≠ q) as Hne.
  { intros p Hp ->. destruct (dm_valid _ W q Hp) as [x Hx]. congruence. }
  constructor; cbn; try apply W.
  - apply NoDup_app. split; [apply W|]. split; [|apply NoDup_singleton].
    intros p Hp ->%list_elem_of_singleton. by apply (Hne q).
  - intros p [Hp| ->%list_elem_of_singleton]%elem_of_app; [|by rewrite (lookup_insert_eq (eps d)); eexists].
    rewrite (lookup_insert_ne (eps d)) by (intros <-; by eapply Hne). by apply W.
Qed.

(** The conflict [Allocate] looks for: same address and port, on the same device or on none. *)
Definition conflicts (dev : option Z) (addr : Ipv4Address) (port : Z) (e : Ipv4EndPoint) : Prop :=
  m_localPort e = port ∧ m_address (m_localAddr e) = m_address addr ∧
  (m_boundnetdevice e = dev ∨ m_boundnetdevice e = None).

Lemma LookupLocal_ok dev addr port d :
  demux_ok d → ∃ b, LookupLocal dev addr port d = Ok b ∧
    (b = true ↔ ∃ p, has d (λ e, m_localPort e = port ∧ m_address (m_localAddr e) = m_address addr ∧
                                 m_boundnetdevice e = dev) p).
Proof.
  intros W. unfold LookupLocal.
  edestruct (find_ep_ok (λ e, (m_localPort e =? port) && ipv4_eq (m_localAddr e) addr &&
    bool_decide (m_boundnetdevice e = dev)) (eps d) (m_endPoints d) (dm_valid _ W)) as (b & Hb & Hiff).
  exists b. split; [exact Hb|]. rewrite Hiff. unfold has, ipv4_eq.
  setoid_rewrite andb_true_iff. setoid_rewrite andb_true_iff. setoid_rewrite Z.eqb_eq.
  setoid_rewrite bool_decide_eq_true. naive_solver.
Qed.

(** [Allocate] of an address and port gives no end point, and changes nothing, exactly
    when an end point that is bound to the device or to none has them already; otherwise a
    new end point, not bound, that receives from any peer, behind the others, which do not
    change.  [DeAllocate] of it gives the demultiplexer back. *)
Theorem Allocate_correct dev addr port d :
  demux_ok d →
  ∃ r d', Allocate_local dev addr port d = Ok (r, d') ∧ demux_ok d' ∧
    match r with
    | None => d' = d ∧ ∃ p, has d (conflicts dev addr port) p
    | Some p =>
        (∀ q, ¬ has d (conflicts dev addr port) q) ∧ p ∉ m_endPoints d ∧
        m_endPoints d' = m_endPoints d ++ [p] ∧
        eps d' = <[p := Ipv4EndPoint_new addr port]> (eps d) ∧
        DeAllocate p d' = Ok (None, d)
    end.
Proof.
  intros W. unfold Allocate_local.
  destruct (LookupLocal_ok dev addr port d W) as (a & -> & Ha). res_simpl.
  destruct (LookupLocal_ok None addr port d W) as (b & Eb & Hb).
  assert ((if a then Ok true else LookupLocal None addr port d) = Ok (a || b)) as -> by (destruct a; [done|by rewrite Eb]).
  res_simpl.
  assert (a || b = true ↔ ∃ p, has d (conflicts dev addr port) p) as Hab.
  { rewrite orb_true_iff, Ha, Hb. unfold has, conflicts. naive_solver. }
  destruct (a || b). { exists None, d. split; [done|]. split; [done|]. split; [done|]. by apply Hab. }
  destruct (push_ep _ d) as [p d'] eqn:E. destruct (push_ep_ok _ _ _ _ W E) as (W' & Hfresh & Hl & Hs).
  assert (p ∉ m_endPoints d) as Hp. { intros Hp. destruct (dm_valid _ W p Hp) as [x Hx]. congruence. }
  exists (Some p), d'. split; [done|]. split; [done|].
  split; [intros q Hq; assert (false = true) by (apply Hab; by exists q); done|]. do 3 (split; [done|]).
  unfold DeAllocate. rewrite Hl, Hs.
  assert (erase_first (λ i, bool_decide (i = p)) (m_endPoints d ++ [p]) = Some (p, m_endPoints d)) as ->.
  { clear - Hp. induction (m_endPoints d) as [|i l IH]; cbn.
    - by rewrite bool_decide_true.
    - apply not_elem_of_cons in Hp as [? Hp]. rewrite bool_decide_false by done. by rewrite IH. }
  rewrite (lookup_insert_eq (eps d)). res_simpl. rewrite (delete_insert_id (eps d)) by done. unfold push_ep in E.
  injection E as _ <-. cbn. by destruct d.
Qed.

Lemma Allocate_correct_witness :
  demux_ok demux_one ∧
  (∃ p d', Allocate_local None GetAny 80 demux_one = Ok (Some p, d') ∧ DeAllocate p d' = Ok (None, demux_one)) ∧
  Allocate_local (Some 3) GetAny 49153 demux_one = Ok (None, demux_one).
Proof.
  split; [exact demux_one_ok|]. split.
  - destruct (Allocate_correct None GetAny 80 demux_one demux_one_ok) as ([p|] & d' & E & _ & H).
    + exists p, d'. split; [exact E|]. apply H.
    + vm_compute in E. discriminate.
  - by vm_compute.
Defined.

(** *** SimpleLookup

    The connection of another peer, with the local address of another interface. *)
Definition demux_other : Demux :=
  mkDemux 49152 65535 49152 [1%positive]
    {[1%positive := SetPeer (Ipv4Address_of 0x0a000002) 5000 (Ipv4EndPoint_new (Ipv4Address_of 0x0a000001) 80)]}.

(** [SimpleLookup] counts wildcards but does not test that the addresses and the peer
    match where they are not wildcards: for a packet to 192.168.0.1 from 192.168.0.2:6000 it
    returns the connection of 10.0.0.1 with 10.0.0.2:5000, where [Lookup] returns nothing. *)
Theorem SimpleLookup_wrong_connection :
  let daddr := Ipv4Address_of 0xc0a80001 in
  let saddr := Ipv4Address_of 0xc0a80002 in
  SimpleLookup daddr 80 saddr 6000 demux_other = Ok (Some 1%positive) ∧
  Lookup daddr 80 saddr 6000 (mkIface 0 [(daddr, 0xffffff00)]) demux_other = Ok [].
Proof. by vm_compute. Qed.
