(* ===== verification/SequenceNumber.v ===== *)
(** * Sequence numbers (src/src/network/utils/sequence-number.h)

    Unsigned numbers of [w] bits that wrap around, with the comparison and the
    difference of serial number arithmetic.  The theorem ties them to the unbounded
    positions they stand for: as long as two positions are less than half the number
    space apart, the operators decide and measure their real order and distance. *)

From S2P Require Import Prelude.
Local Open Scope Z_scope.

Section sequence_number.
(** The number of bits of NUMERIC_TYPE. *)
Context (w : Z).

(** [std::numeric_limits<NUMERIC_TYPE>::max()]. *)
Definition maxValue : Z := 2 ^ w - 1.
Definition halfMaxValue : Z := maxValue / 2.

(** [sequence-number.h:196-200] operator+ *)
Definition seq_add (a b : Z) : Z := wrap w (a + b).

(** [sequence-number.h:207-210] operator+ *)
Definition seq_add_delta (a delta : Z) : Z := wrap w (a + delta).

(** [sequence-number.h:217-220] operator- *)
Definition seq_sub_delta (a delta : Z) : Z := wrap w (a - delta).

(** [sequence-number.h:131-146] operator++ *)
Definition seq_incr (a : Z) : Z := wrap w (a + 1).

(** [sequence-number.h:152-167] operator-- *)
Definition seq_decr (a : Z) : Z := wrap w (a - 1).

(** [- static_cast<SIGNED_TYPE>(x)]; the negation of the least [int] is undefined. *)
Definition neg_signed (x : Z) : res Z :=
  if (32 <=? w) && (sint w x =? - 2 ^ (w - 1)) then Err Undefined else Ok (sint w (- sint w x)).

(** [sequence-number.h:227-267] operator- *)
Definition seq_sub (a b : Z) : res Z :=
  if b <? a then
    let diff := wrap w (a - b) in
    if diff <? halfMaxValue then Ok (sint w diff)
    else neg_signed (maxValue - a + 1 + b)
  else
    let diff := wrap w (b - a) in
    if diff <? halfMaxValue then neg_signed diff
    else Ok (sint w (maxValue - b + 1 + a)).

(** [sequence-number.h:281-287] operator> *)
Definition seq_gt (a b : Z) : bool :=
  ((b <? a) && (a - b <=? halfMaxValue)) || ((a <? b) && (halfMaxValue <? b - a)).

(** [sequence-number.h:294-297] operator== *)
Definition seq_eq (a b : Z) : bool := a =? b.

(** [sequence-number.h:304-307] operator!= *)
Definition seq_ne (a b : Z) : bool := negb (a =? b).

(** [sequence-number.h:314-317] operator<= *)
Definition seq_le (a b : Z) : bool := negb (seq_gt a b).

(** [sequence-number.h:324-327] operator>= *)
Definition seq_ge (a b : Z) : bool := seq_gt a b || seq_eq a b.

(** [sequence-number.h:334-337] operator< *)
Definition seq_lt (a b : Z) : bool := negb (seq_gt a b) && negb (a =? b).
End sequence_number.

(** ** Positions *)

Section positions.
Context (w : Z) (Hw : 1 < w).

Lemma half_max : halfMaxValue w = 2 ^ (w - 1) - 1 ∧ 2 ^ w = 2 * 2 ^ (w - 1) ∧ 2 ≤ 2 ^ (w - 1).
Proof using Hw.
  assert (2 ^ w = 2 * 2 ^ (w - 1)) as E.
  { replace w with (Z.succ (w - 1)) at 1 by lia. apply Z.pow_succ_r. lia. }
  assert (2 ≤ 2 ^ (w - 1)) as H2 by (change 2 with (2 ^ 1) at 1; apply Z.pow_le_mono_r; lia).
  conj; [|done|done]. unfold halfMaxValue, maxValue. rewrite E.
  symmetry. apply Z.div_unique with 1; lia.
Qed.

(** Two positions less than [2^w] apart, wrapped. *)
Lemma wrap_close a b :
  a - b < 2 ^ w → b - a < 2 ^ w →
  wrap w a - wrap w b = a - b ∨ wrap w a - wrap w b = a - b - 2 ^ w ∨
  wrap w a - wrap w b = a - b + 2 ^ w.
Proof using Hw.
  intros H1 H2. unfold wrap. assert (0 < 2 ^ w) as Hp by (apply Z.pow_pos_nonneg; lia).
  pose proof (Z.div_mod a (2 ^ w) ltac:(lia)). pose proof (Z.div_mod b (2 ^ w) ltac:(lia)).
  pose proof (Z.mod_pos_bound a (2 ^ w) Hp). pose proof (Z.mod_pos_bound b (2 ^ w) Hp).
  assert (a / 2 ^ w - b / 2 ^ w = 0 ∨ a / 2 ^ w - b / 2 ^ w = 1 ∨ a / 2 ^ w - b / 2 ^ w = -1) by nia.
  nia.
Qed.

Lemma seq_gt_spec a b :
  a - b < 2 ^ (w - 1) → b - a < 2 ^ (w - 1) → seq_gt w (wrap w a) (wrap w b) = (b <? a).
Proof using Hw.
  intros H1 H2. destruct half_max as (Hh & E & Hp). unfold seq_gt. rewrite Hh.
  pose proof (wrap_fits w ltac:(lia) a) as Ha. pose proof (wrap_fits w ltac:(lia) b) as Hb.
  unfold fits in *. apply Bool.eq_iff_eq_true.
  rewrite orb_true_iff, !andb_true_iff, Z.leb_le, !Z.ltb_lt.
  destruct (wrap_close a b) as [H|[H|H]]; lia.
Qed.

Lemma seq_eq_spec a b :
  a - b < 2 ^ (w - 1) → b - a < 2 ^ (w - 1) → (wrap w a =? wrap w b) = (a =? b).
Proof using Hw.
  intros H1 H2. destruct half_max as (_ & E & Hp).
  pose proof (wrap_fits w ltac:(lia) a) as Ha. pose proof (wrap_fits w ltac:(lia) b) as Hb.
  unfold fits in *. apply Bool.eq_iff_eq_true. rewrite !Z.eqb_eq.
  destruct (wrap_close a b) as [H|[H|H]]; lia.
Qed.

Lemma seq_le_spec a b :
  a - b < 2 ^ (w - 1) → b - a < 2 ^ (w - 1) → seq_le w (wrap w a) (wrap w b) = (a <=? b).
Proof using Hw. intros. unfold seq_le. rewrite seq_gt_spec by done. symmetry. apply Z.leb_antisym. Qed.

Lemma seq_lt_spec a b :
  a - b < 2 ^ (w - 1) → b - a < 2 ^ (w - 1) → seq_lt w (wrap w a) (wrap w b) = (a <? b).
Proof using Hw.
  intros. unfold seq_lt. rewrite seq_gt_spec, seq_eq_spec by done.
  apply Bool.eq_iff_eq_true. rewrite andb_true_iff, !negb_true_iff, Z.ltb_ge, Z.eqb_neq, Z.ltb_lt. lia.
Qed.

Lemma seq_ge_spec a b :
  a - b < 2 ^ (w - 1) → b - a < 2 ^ (w - 1) → seq_ge w (wrap w a) (wrap w b) = (b <=? a).
Proof using Hw.
  intros. unfold seq_ge, seq_eq. rewrite seq_gt_spec, seq_eq_spec by done.
  apply Bool.eq_iff_eq_true. rewrite orb_true_iff, Z.ltb_lt, Z.eqb_eq, Z.leb_le. lia.
Qed.

Lemma sint_wrap z : - 2 ^ (w - 1) ≤ z < 2 ^ (w - 1) → sint w z = z.
Proof using Hw.
  intros Hz. destruct half_max as (_ & E & Hp). unfold sint. destruct (Z.lt_ge_cases z 0).
  - assert (wrap w z = z + 2 ^ w) as ->.
    { unfold wrap. rewrite <- (Z.mod_add z 1) by lia. rewrite Z.mod_small; lia. }
    case_match eqn:Hc; [apply Z.ltb_lt in Hc|]; lia.
  - rewrite wrap_id by (unfold fits; lia). case_match eqn:Hc; [done|apply Z.ltb_ge in Hc; lia].
Qed.

Lemma neg_signed_spec z :
  - 2 ^ (w - 1) < z < 2 ^ (w - 1) → neg_signed w z = Ok (- z).
Proof using Hw.
  intros Hz. unfold neg_signed. rewrite sint_wrap by lia. rewrite sint_wrap by lia.
  case_match eqn:Hc; [|done]. apply andb_true_iff in Hc as [_ Hc%Z.eqb_eq]. lia.
Qed.

Lemma sint_add_mod z k : sint w (z + k * 2 ^ w) = sint w z.
Proof using Hw.
  unfold sint, wrap. destruct half_max as (_ & E & Hp). by rewrite Z.mod_add by lia.
Qed.

Lemma seq_sub_spec a b :
  a - b < 2 ^ (w - 1) → b - a < 2 ^ (w - 1) → seq_sub w (wrap w a) (wrap w b) = Ok (a - b).
Proof using Hw.
  intros H1 H2. destruct half_max as (Hh & E & Hp). unfold seq_sub.
  pose proof (wrap_fits w ltac:(lia) a) as Ha. pose proof (wrap_fits w ltac:(lia) b) as Hb.
  unfold fits in *. rewrite Hh. unfold maxValue.
  destruct (Z.ltb_spec (wrap w b) (wrap w a)) as [Hlt|Hge].
  - rewrite (wrap_id w (wrap w a - wrap w b)) by (unfold fits; lia).
    destruct (wrap_close a b) as [H|[H|H]]; [lia|lia| | |].
    + destruct (Z.ltb_spec (wrap w a - wrap w b) (2 ^ (w - 1) - 1)).
      * rewrite sint_wrap by lia. f_equal. lia.
      * assert (a - b = 2 ^ (w - 1) - 1) as Hab by lia. unfold neg_signed.
        replace (2 ^ w - 1 - wrap w a + 1 + wrap w b) with (- (a - b) + 1 * 2 ^ w) by lia.
        rewrite sint_add_mod, sint_wrap by lia. rewrite sint_wrap by lia.
        case_match eqn:Hc; [|f_equal; lia]. apply andb_true_iff in Hc as [_ Hc%Z.eqb_eq]. lia.
    + lia.
    + rewrite (proj2 (Z.ltb_ge _ _)) by lia. rewrite neg_signed_spec by lia. f_equal. lia.
  - rewrite (wrap_id w (wrap w b - wrap w a)) by (unfold fits; lia).
    destruct (wrap_close a b) as [H|[H|H]]; [lia|lia| | |].
    + destruct (Z.ltb_spec (wrap w b - wrap w a) (2 ^ (w - 1) - 1)).
      * rewrite neg_signed_spec by lia. f_equal. lia.
      * replace (2 ^ w - 1 - wrap w b + 1 + wrap w a) with ((a - b) + 1 * 2 ^ w) by lia.
        rewrite sint_add_mod, sint_wrap by lia. done.
    + rewrite (proj2 (Z.ltb_ge _ _)) by lia. rewrite sint_wrap by lia. f_equal. lia.
    + lia.
Qed.
End positions.

(** Serial number arithmetic: for positions less than half the number space apart the
    six comparisons and the difference of their sequence numbers are those of the
    positions, across the wrap-around. *)
Theorem sequence_number_order w a b :
  1 < w → Z.abs (a - b) < 2 ^ (w - 1) →
  seq_gt w (wrap w a) (wrap w b) = (b <? a) ∧ seq_lt w (wrap w a) (wrap w b) = (a <? b) ∧
  seq_le w (wrap w a) (wrap w b) = (a <=? b) ∧ seq_ge w (wrap w a) (wrap w b) = (b <=? a) ∧
  seq_eq (wrap w a) (wrap w b) = (a =? b) ∧ seq_ne (wrap w a) (wrap w b) = negb (a =? b) ∧
  seq_sub w (wrap w a) (wrap w b) = Ok (a - b).
Proof.
  intros Hw Hab. unfold seq_ne, seq_eq.
  rewrite seq_gt_spec, seq_lt_spec, seq_le_spec, seq_ge_spec, seq_eq_spec, seq_sub_spec by lia.
  by conj.
Qed.

Lemma sequence_number_order_witness :
  seq_gt 32 (wrap 32 4294967300) (wrap 32 4294967290) = true ∧
  seq_sub 32 (wrap 32 4294967300) (wrap 32 4294967290) = Ok 10.
Proof.
  destruct (sequence_number_order 32 4294967300 4294967290) as (Hgt & _ & _ & _ & _ & _ & Hsub).
  - lia.
  - vm_compute. reflexivity.
  - split; [exact Hgt|exact Hsub].
Defined.

(** Numbers exactly half the space apart: the smaller one counts as greater, whichever is
    asked, so the order stays antisymmetric there; the difference is undefined for the
    32-bit numbers. *)
Example seq_gt_half : seq_gt 32 0 (2 ^ 31) = true ∧ seq_gt 32 (2 ^ 31) 0 = false ∧
  seq_sub 32 (2 ^ 31) 0 = Err Undefined.
Proof. vm_compute. auto. Qed.
