(* ===== verification/TcpRxBuffer.v ===== *)
(** * The TCP receive buffer (src/src/internet/model/tcp-rx-buffer.cc)

    Reassembly of the segments of a connection: overlapping data is trimmed, data in
    order is counted available, the list of SACK blocks is kept.  A [Packet] is the list
    of its bytes: [CreateFragment] cuts it, [AddAtEnd] concatenates.  A
    [std::map<SequenceNumber32, ...>] is its iteration sequence; a search finds the first
    key that is not less, and takes it when it is not greater either. *)

From S2P Require Import Prelude SequenceNumber.
Local Open Scope Z_scope.

Abbreviation lt32 := (seq_lt 32).
Abbreviation le32 := (seq_le 32).
Abbreviation gt32 := (seq_gt 32).
Abbreviation ge32 := (seq_ge 32).

Definition Packet : Type := list Z.
Definition pkt_size (p : Packet) : Z := Z.of_nat (length p).
Definition fragment (start len : Z) (p : Packet) : Packet :=
  take (Z.to_nat len) (drop (Z.to_nat start) p).

(** [std::map::find] and [operator[] =]. *)
Fixpoint map_find {A} (k : Z) (l : list (Z * A)) : option (Z * A) :=
  match l with
  | [] => None
  | e :: l => if lt32 e.1 k then map_find k l else if lt32 k e.1 then None else Some e
  end.

Fixpoint map_set {A} (k : Z) (v : A) (l : list (Z * A)) : list (Z * A) :=
  match l with
  | [] => [(k, v)]
  | e :: l => if lt32 e.1 k then e :: map_set k v l
              else if lt32 k e.1 then (k, v) :: e :: l else (e.1, v) :: l
  end.

(** [TcpOptionSack::SackBlock]. *)
Definition SackBlock : Type := Z * Z.

(** [tcp-rx-buffer.h:222-233] TcpRxBuffer *)
Record t := mk {
  m_sackList : list SackBlock;
  m_nextRxSeq : Z;
  m_finSeq : Z;
  m_gotFin : bool;
  m_size : Z;
  m_maxBuffer : Z;
  m_availBytes : Z;
  m_data : list (Z * Packet)
}.

(** [tcp-rx-buffer.cc:53-60] TcpRxBuffer::TcpRxBuffer *)
Definition new (n : Z) : t := mk [] n 0 false 0 32768 0 [].

(** [tcp-rx-buffer.cc] TcpRxBuffer::NextRxSequence *)
Definition NextRxSequence (b : t) : Z := m_nextRxSeq b.

(** [tcp-rx-buffer.cc] TcpRxBuffer::SetNextRxSequence *)
Definition SetNextRxSequence (s : Z) (b : t) : t :=
  mk (m_sackList b) s (m_finSeq b) (m_gotFin b) (m_size b) (m_maxBuffer b) (m_availBytes b) (m_data b).

(** [tcp-rx-buffer.cc] TcpRxBuffer::MaxBufferSize *)
Definition MaxBufferSize (b : t) : Z := m_maxBuffer b.

(** [tcp-rx-buffer.cc] TcpRxBuffer::SetMaxBufferSize *)
Definition SetMaxBufferSize (s : Z) (b : t) : t :=
  mk (m_sackList b) (m_nextRxSeq b) (m_finSeq b) (m_gotFin b) (m_size b) s (m_availBytes b) (m_data b).

(** [tcp-rx-buffer.cc] TcpRxBuffer::Size *)
Definition Size (b : t) : Z := m_size b.

(** [tcp-rx-buffer.cc] TcpRxBuffer::Available *)
Definition Available (b : t) : Z := m_availBytes b.

(** [tcp-rx-buffer.cc] TcpRxBuffer::IncNextRxSequence *)
Definition IncNextRxSequence (b : t) : res t :=
  ns_assert (m_size b =? 0) ≫= λ _, Ok (SetNextRxSequence (seq_incr 32 (m_nextRxSeq b)) b).

(** [tcp-rx-buffer.cc] TcpRxBuffer::MaxRxSequence *)
Definition MaxRxSequence (b : t) : Z :=
  if m_gotFin b then m_finSeq b
  else
    match m_data b with
    | (first, _) :: _ =>
        if gt32 (m_nextRxSeq b) first then seq_add 32 first (m_maxBuffer b)
        else seq_add 32 (m_nextRxSeq b) (m_maxBuffer b)
    | [] => seq_add 32 (m_nextRxSeq b) (m_maxBuffer b)
    end.

(** [tcp-rx-buffer.cc] TcpRxBuffer::SetFinSequence *)
Definition SetFinSequence (s : Z) (b : t) : t :=
  mk (m_sackList b) (if seq_eq (m_nextRxSeq b) s then seq_incr 32 (m_nextRxSeq b) else m_nextRxSeq b)
    s true (m_size b) (m_maxBuffer b) (m_availBytes b) (m_data b).

(** [tcp-rx-buffer.cc] TcpRxBuffer::Finished *)
Definition Finished (b : t) : bool := m_gotFin b && lt32 (m_finSeq b) (m_nextRxSeq b).

(** [tcp-rx-buffer.cc] TcpRxBuffer::GetSackListSize *)
Definition GetSackListSize (b : t) : Z := u32 (Z.of_nat (length (m_sackList b))).

(** [tcp-rx-buffer.cc] TcpRxBuffer::GetSackList *)
Definition GetSackList (b : t) : list SackBlock := m_sackList b.

(** [tcp-rx-buffer.cc:300-336] TcpRxBuffer::UpdateSackList

    The loop: [begin] is the first block, [seen] the examined blocks behind it in reverse,
    [rest] those still to be examined; a merge starts the examination anew. *)
Fixpoint UpdateSackList_loop (fuel : nat) (begin : SackBlock) (seen rest : list SackBlock) :
    res (list SackBlock) :=
  match fuel with
  | O => Err OutOfFuel
  | S fuel =>
      match rest with
      | [] => Ok (begin :: reverse seen)
      | current :: rest =>
          if seq_eq begin.1 current.2 then
            ns_assert (lt32 current.1 begin.2) ≫= λ _,
            UpdateSackList_loop fuel (current.1, begin.2) [] (reverse seen ++ rest)
          else if seq_eq begin.2 current.1 then
            ns_assert (lt32 begin.1 current.2) ≫= λ _,
            UpdateSackList_loop fuel (begin.1, current.2) [] (reverse seen ++ rest)
          else UpdateSackList_loop fuel begin (current :: seen) rest
      end
  end.

(** Enough iterations for a list of [n] blocks: every examination costs one, every merge
    shortens the list and starts anew. *)
Definition sack_fuel (n : nat) : nat := S ((n + 1) * (n + 1)).

(** [tcp-rx-buffer.cc:254-349] TcpRxBuffer::UpdateSackList *)
Definition UpdateSackList (head tail : Z) (nextRxSeq : Z) (sack : list SackBlock) : res (list SackBlock) :=
  ns_assert (gt32 head nextRxSeq) ≫= λ _,
  l ← UpdateSackList_loop (sack_fuel (length sack)) (head, tail) [] sack;
  Ok (if (4 <? length l)%nat then removelast l else l).

(** [tcp-rx-buffer.cc:351-371] TcpRxBuffer::ClearSackList *)
Fixpoint ClearSackList (seq : Z) (sack : list SackBlock) : res (list SackBlock) :=
  match sack with
  | [] => Ok []
  | block :: sack =>
      ns_assert (lt32 block.1 block.2) ≫= λ _,
      l ← ClearSackList seq sack;
      Ok (if le32 block.2 seq then l else block :: l)
  end.

(** [tcp-rx-buffer.cc:157-173] TcpRxBuffer::Add

    The bounds of the new data, trimmed by the window. *)
Definition Add_window (data : list (Z * Packet)) (maxBuffer nextRxSeq headSeq tailSeq : Z) : Z * Z :=
  let headSeq := if lt32 headSeq nextRxSeq then nextRxSeq else headSeq in
  match data with
  | [] => (headSeq, tailSeq)
  | (first, _) :: _ =>
      let maxSeq := seq_add 32 first maxBuffer in
      let tailSeq := if lt32 maxSeq tailSeq then maxSeq else tailSeq in
      (if lt32 tailSeq headSeq then tailSeq else headSeq, tailSeq)
  end.

(** [tcp-rx-buffer.cc:174-197] TcpRxBuffer::Add

    The loop that removes overlapped bytes: the map, the bounds of the new data and the
    size after it. *)
Fixpoint Add_trim (data : list (Z * Packet)) (headSeq tailSeq size : Z) :
    list (Z * Packet) * Z * Z * Z :=
  match data with
  | [] => ([], headSeq, tailSeq, size)
  | (first, p) :: rest =>
      if le32 first tailSeq then
        let lastByteSeq := seq_add 32 first (pkt_size p) in
        if gt32 lastByteSeq headSeq then
          if gt32 first headSeq && lt32 lastByteSeq tailSeq then
            Add_trim rest headSeq tailSeq (u32 (size - pkt_size p))
          else
            let headSeq' := if le32 first headSeq then lastByteSeq else headSeq in
            let tailSeq' := if ge32 lastByteSeq tailSeq then first else tailSeq in
            let '(l, h, tl, s) := Add_trim rest headSeq' tailSeq' size in
            ((first, p) :: l, h, tl, s)
        else
          let '(l, h, tl, s) := Add_trim rest headSeq tailSeq size in
          ((first, p) :: l, h, tl, s)
      else (data, headSeq, tailSeq, size)
  end.

(** [tcp-rx-buffer.cc:224-237] TcpRxBuffer::Add

    The loop that counts the data now in order. *)
Fixpoint Add_advance (data : list (Z * Packet)) (nextRxSeq avail : Z) (sack : list SackBlock) :
    res (Z * Z * list SackBlock) :=
  match data with
  | [] => Ok (nextRxSeq, avail, sack)
  | (first, p) :: rest =>
      if lt32 first nextRxSeq then Add_advance rest nextRxSeq avail sack
      else if gt32 first nextRxSeq then Ok (nextRxSeq, avail, sack)
      else
        let nextRxSeq := seq_add 32 first (pkt_size p) in
        sack ← ClearSackList nextRxSeq sack;
        Add_advance rest nextRxSeq (u32 (avail + pkt_size p)) sack
  end.

(** [tcp-rx-buffer.cc:215-219] TcpRxBuffer::Add

    The SACK list after the segment is stored. *)
Definition Add_sack (head tail next : Z) (sack : list SackBlock) : res (list SackBlock) :=
  if gt32 head next then UpdateSackList head tail next sack else Ok sack.

(** [tcp-rx-buffer.cc:204-243] TcpRxBuffer::Add

    The trimmed packet is stored; [seqno] is [tcph.GetSequenceNumber()]. *)
Definition Add_store (p : Packet) (seqno headSeq tailSeq : Z) (b : t) : res (bool * t) :=
  start ← seq_sub 32 headSeq seqno;
  length ← seq_sub 32 tailSeq headSeq;
  let p := fragment (u32 start) (u32 length) p in
  ns_assert (u32 length =? pkt_size p) ≫= λ _,
  ns_assert (match map_find headSeq (m_data b) with None => true | Some _ => false end) ≫= λ _,
  let data := map_set headSeq p (m_data b) in
  sack ← Add_sack headSeq tailSeq (m_nextRxSeq b) (m_sackList b);
  let size := u32 (m_size b + pkt_size p) in
  '(next, avail, sack) ← Add_advance data (m_nextRxSeq b) (m_availBytes b) sack;
  let next := if m_gotFin b && seq_eq next (m_finSeq b) then seq_incr 32 next else next in
  Ok (true, mk sack next (m_finSeq b) (m_gotFin b) size (m_maxBuffer b) avail data).

(** [tcp-rx-buffer.cc:146-244] TcpRxBuffer::Add *)
Definition Add (p : Packet) (seqno : Z) (b : t) : res (bool * t) :=
  let pktSize := pkt_size p in
  let headSeq := seqno in
  let tailSeq := seq_add 32 headSeq pktSize in
  let '(headSeq, tailSeq) := Add_window (m_data b) (m_maxBuffer b) (m_nextRxSeq b) headSeq tailSeq in
  let '(data, headSeq, tailSeq, size) := Add_trim (m_data b) headSeq tailSeq (m_size b) in
  let b := mk (m_sackList b) (m_nextRxSeq b) (m_finSeq b) (m_gotFin b) size (m_maxBuffer b)
             (m_availBytes b) data in
  if ge32 headSeq tailSeq then Ok (false, b) else Add_store p seqno headSeq tailSeq b.

(** [tcp-rx-buffer.cc:394-418] TcpRxBuffer::Extract

    The loop: what is left of the map and the bytes taken out; the loop ends when
    [extractSize] is used up, and the iterator must be valid until then. *)
Fixpoint Extract_loop (data : list (Z * Packet)) (nextRxSeq extractSize size avail : Z) (out : Packet) :
    res (Packet * list (Z * Packet) * Z * Z) :=
  if extractSize =? 0 then Ok (out, data, size, avail)
  else
    match data with
    | [] => Err Undefined
    | (first, p) :: rest =>
        ns_assert (le32 first nextRxSeq) ≫= λ _,
        let pktSize := pkt_size p in
        if pktSize <=? extractSize then
          Extract_loop rest nextRxSeq (u32 (extractSize - pktSize)) (u32 (size - pktSize))
            (u32 (avail - pktSize)) (out ++ p)
        else
          let out := out ++ fragment 0 extractSize p in
          let data := map_set (seq_add 32 first extractSize)
                        (fragment extractSize (u32 (pktSize - extractSize)) p) data in
          Ok (out, filter (λ e, e.1 ≠ first) data, u32 (size - extractSize), u32 (avail - extractSize))
    end.

(** [tcp-rx-buffer.cc:379-427] TcpRxBuffer::Extract

    [None] is [nullptr]. *)
Definition Extract (maxSize : Z) (b : t) : res (option Packet * t) :=
  let extractSize := Z.min maxSize (m_availBytes b) in
  if extractSize =? 0 then Ok (None, b)
  else
    ns_assert (match m_data b with [] => false | _ => true end) ≫= λ _,
    '(out, data, size, avail) ←
      Extract_loop (m_data b) (m_nextRxSeq b) extractSize (m_size b) (m_availBytes b) [];
    let b := mk (m_sackList b) (m_nextRxSeq b) (m_finSeq b) (m_gotFin b) size (m_maxBuffer b) avail data in
    Ok (if pkt_size out =? 0 then None else Some out, b).
