(* ===== verification/TcpRxCorrect.v ===== *)
(** * TCP reassembly is correct

    The stored segments as intervals of unbounded positions in the byte stream the peer
    sends.  [Add] adds exactly the new bytes of a segment to the set of held positions,
    [Extract] delivers the stream in order, SACK blocks advertise held data only; so
    whatever a session delivers is a prefix of the stream. *)

From S2P Require Import Prelude SequenceNumber TcpRxBuffer.
Local Open Scope Z_scope.

(** ** Intervals *)

Definition seg : Type := Z * Z.

(** Non-empty intervals in increasing order, not overlapping, from [lo] on. *)
Fixpoint ordered (lo : Z) (segs : list seg) : Prop :=
  match segs with
  | [] => True
  | (f, l) :: r => lo ≤ f ∧ f < l ∧ ordered l r
  end.

Definition covered (segs : list seg) (x : Z) : Prop := ∃ f l, (f, l) ∈ segs ∧ f ≤ x < l.

Fixpoint total (segs : list seg) : Z :=
  match segs with [] => 0 | (f, l) :: r => (l - f) + total r end.

Lemma covered_nil x : ¬ covered [] x.
Proof. intros (f & l & H & _). by apply not_elem_of_nil in H. Qed.

Lemma covered_cons f l r x : covered ((f, l) :: r) x ↔ f ≤ x < l ∨ covered r x.
Proof.
  unfold covered. split.
  - intros (f' & l' & [[= -> ->]|H]%elem_of_cons & Hx); [by left|right; eauto].
  - intros [Hx|(f' & l' & H & Hx)]; [exists f, l; split; [by left|done]|].
    exists f', l'. split; [by right|done].
Qed.

Lemma covered_app r1 r2 x : covered (r1 ++ r2) x ↔ covered r1 x ∨ covered r2 x.
Proof.
  unfold covered. setoid_rewrite elem_of_app. split.
  - intros (f & l & [H|H] & Hx); [left|right]; by exists f, l.
  - intros [(f & l & H & Hx)|(f & l & H & Hx)]; exists f, l; auto.
Qed.

Lemma ordered_weaken lo lo' segs : lo' ≤ lo → ordered lo segs → ordered lo' segs.
Proof. destruct segs as [|[f l] r]; cbn; [done|]. intuition lia. Qed.

Lemma ordered_elem lo segs f l : ordered lo segs → (f, l) ∈ segs → lo ≤ f < l.
Proof.
  revert lo. induction segs as [|[f' l'] r IH]; intros lo Ho H; [by apply not_elem_of_nil in H|].
  destruct Ho as (? & ? & Ho). apply elem_of_cons in H as [[= -> ->]|H]; [done|].
  specialize (IH _ Ho H). lia.
Qed.

Lemma ordered_covered lo segs x : ordered lo segs → covered segs x → lo ≤ x.
Proof. intros Ho (f & l & H & Hx). apply (ordered_elem _ _ _ _ Ho) in H. lia. Qed.

Lemma total_nonneg lo segs : ordered lo segs → 0 ≤ total segs.
Proof.
  revert lo. induction segs as [|[f l] r IH]; intros lo; cbn; [lia|].
  intros (? & ? & Ho). specialize (IH _ Ho). lia.
Qed.

Lemma total_bound lo hi segs : ordered lo segs → (∀ f l, (f, l) ∈ segs → l ≤ hi) → lo ≤ hi → total segs ≤ hi - lo.
Proof.
  revert lo. induction segs as [|[f l] r IH]; intros lo Ho Hh Hlo; cbn; [lia|].
  destruct Ho as (? & ? & Ho). assert (l ≤ hi) by (apply (Hh f); by left).
  assert (total r ≤ hi - l); [|lia]. apply IH; [done| |lia].
  intros f' l' H'. apply (Hh f'). by right.
Qed.

(** ** The loops on positions *)

Fixpoint atrim (segs : list seg) (h t : Z) : list seg * Z * Z :=
  match segs with
  | [] => ([], h, t)
  | (f, l) :: r =>
      if f <=? t then
        if h <? l then
          if (h <? f) && (l <? t) then atrim r h t
          else
            let h' := if f <=? h then l else h in
            let t' := if t <=? l then f else t in
            let '(s, h2, t2) := atrim r h' t' in ((f, l) :: s, h2, t2)
        else let '(s, h2, t2) := atrim r h t in ((f, l) :: s, h2, t2)
      else (segs, h, t)
  end.

(** What the trimming loop does to the stored segments and to the new one. *)
Lemma atrim_spec segs lo h t s h' t' :
  atrim segs h t = (s, h', t') → ordered lo segs →
  h ≤ h' ∧ t' ≤ t ∧ ordered lo s ∧
  (∀ f l, (f, l) ∈ s → (f, l) ∈ segs) ∧
  (∀ x, h ≤ x < t → covered s x ∨ h' ≤ x < t') ∧
  (∀ x, covered segs x → covered s x ∨ h' ≤ x < t') ∧
  (h' < t' → ∀ f l, (f, l) ∈ s → l ≤ h' ∨ t' ≤ f) ∧
  (t' ≤ h' → s = segs) ∧ (t ≤ h → t' ≤ h') ∧
  (h' = h ∨ ∃ f, (f, h') ∈ segs) ∧ (t' = t ∨ ∃ l, (t', l) ∈ segs).
Proof.
  revert lo h t s h' t'. induction segs as [|[f l] r IH]; intros lo h t s h' t' He Ho; cbn in He.
  { injection He as <- <- <-. conj; try done; try lia; try (by left).
    intros _ f l H. by apply not_elem_of_nil in H. }
  destruct Ho as (Hlo & Hfl & Ho).
  destruct (Z.leb_spec f t) as [Hft|Hft].
  2: { injection He as <- <- <-. conj; try done; try lia; try (by left).
       intros _ f' l' [[= -> ->]|H]%elem_of_cons; [lia|].
       apply (ordered_elem _ _ _ _ Ho) in H. lia. }
  destruct (Z.ltb_spec h l) as [Hhl|Hhl].
  2: { destruct (atrim r h t) as [[s2 h2] t2] eqn:E. injection He as <- <- <-.
       destruct (IH _ _ _ _ _ _ E Ho) as (H1 & H2 & H3 & H4 & H5 & H6 & H7 & H8 & H9 & H10 & H11).
       conj; try done; try lia.
       - intros f' l' [E'|H]%elem_of_cons; [rewrite E'; by left|right; auto].
       - intros x Hx. rewrite covered_cons. destruct (H5 x Hx); tauto.
       - intros x. rewrite !covered_cons. intros [Hx|Hx]; [tauto|]. destruct (H6 x Hx); tauto.
       - intros Hlt f' l' [[= -> ->]|H]%elem_of_cons; [lia|eauto].
       - intros Hle. by rewrite H8.
       - destruct H10 as [|[f' ?]]; [by left|right; exists f'; by right].
       - destruct H11 as [|[l' ?]]; [by left|right; exists l'; by right]. }
  destruct ((h <? f) && (l <? t)) eqn:Hemb.
  { apply andb_true_iff in Hemb as [Hhf%Z.ltb_lt Hlt%Z.ltb_lt].
    destruct (IH _ _ _ _ _ _ He Ho) as (H1 & H2 & H3 & H4 & H5 & H6 & H7 & H8 & H9 & H10 & H11).
    assert (h' = h) as ->.
    { destruct (H5 h) as [(f2 & l2 & Hin & Hx)|Hc]; [lia| |lia].
      apply H4 in Hin. apply (ordered_elem _ _ _ _ Ho) in Hin. lia. }
    assert (l ≤ t') as Hlt'.
    { destruct H11 as [->|[l2 Hl2]]; [lia|]. apply (ordered_elem _ _ _ _ Ho) in Hl2. lia. }
    conj; try done; try lia.
    - eapply ordered_weaken; [|exact H3]. lia.
    - intros f' l' H. right. auto.
    - intros x. rewrite covered_cons. intros [Hx|Hx]; [right; lia|auto].
    - destruct H11 as [|[l2 ?]]; [by left|right; exists l2; by right]. }
  destruct (atrim r _ _) as [[s2 h2] t2] eqn:E. injection He as <- <- <-.
  destruct (IH _ _ _ _ _ _ E Ho) as (H1 & H2 & H3 & H4 & H5 & H6 & H7 & H8 & H9 & H10 & H11).
  apply andb_false_iff in Hemb. rewrite !Z.ltb_ge in Hemb.
  destruct (Z.leb_spec f h), (Z.leb_spec t l); try lia.
  - (* both overlap: nothing is new *)
    conj; try done; try lia.
    + intros f' l' [E'|H']%elem_of_cons; [rewrite E'; by left|right; auto].
    + intros x Hx. rewrite covered_cons. left. left. lia.
    + intros x. rewrite !covered_cons. intros [Hx|Hx]; [tauto|]. destruct (H6 x Hx); tauto.
    + intros Hle. by rewrite H8.
    + right. destruct H10 as [->|[f' ?]]; [exists f; by left|exists f'; by right].
    + right. destruct H11 as [->|[l' ?]]; [exists l; by left|exists l'; by right].
  - (* the head overlaps *)
    conj; try done; try lia.
    + intros f' l' [E'|H']%elem_of_cons; [rewrite E'; by left|right; auto].
    + intros x Hx. rewrite covered_cons. destruct (Z.lt_ge_cases x l); [left; left; lia|].
      destruct (H5 x); [lia|tauto|tauto].
    + intros x. rewrite !covered_cons. intros [Hx|Hx]; [tauto|]. destruct (H6 x Hx); tauto.
    + intros Hlt f' l' [[= -> ->]|H']%elem_of_cons; [lia|eauto].
    + intros Hle. by rewrite H8.
    + right. destruct H10 as [->|[f' ?]]; [exists f; by left|exists f'; by right].
    + destruct H11 as [|[l' ?]]; [by left|right; exists l'; by right].
  - (* the tail overlaps *)
    conj; try done; try lia.
    + intros f' l' [E'|H']%elem_of_cons; [rewrite E'; by left|right; auto].
    + intros x Hx. rewrite covered_cons. destruct (Z.lt_ge_cases x f); [|left; left; lia].
      destruct (H5 x); [lia|tauto|tauto].
    + intros x. rewrite !covered_cons. intros [Hx|Hx]; [tauto|]. destruct (H6 x Hx); tauto.
    + intros Hlt f' l' [[= -> ->]|H']%elem_of_cons; [lia|eauto].
    + intros Hle. by rewrite H8.
    + destruct H10 as [|[f' ?]]; [by left|right; exists f'; by right].
    + right. destruct H11 as [->|[l' ?]]; [exists l; by left|exists l'; by right].
Qed.

Fixpoint ainsert (h t : Z) (segs : list seg) : list seg :=
  match segs with
  | [] => [(h, t)]
  | (f, l) :: r => if f <? h then (f, l) :: ainsert h t r else (h, t) :: (f, l) :: r
  end.

Lemma ainsert_perm h t segs : ainsert h t segs ≡ₚ (h, t) :: segs.
Proof.
  induction segs as [|[f l] r IH]; cbn; [done|]. case_match; [|done].
  rewrite IH. apply Permutation_swap.
Qed.

Lemma ainsert_ordered lo h t segs :
  ordered lo segs → lo ≤ h < t → (∀ f l, (f, l) ∈ segs → l ≤ h ∨ t ≤ f) →
  ordered lo (ainsert h t segs).
Proof.
  revert lo. induction segs as [|[f l] r IH]; intros lo Ho Hh Hd; cbn; [lia|].
  destruct Ho as (? & ? & Ho). destruct (Hd f l) as [Hl|Hf]; [by left| |].
  - rewrite (proj2 (Z.ltb_lt f h)) by lia. cbn. conj; [done|done|].
    apply IH; [done|lia|]. intros f' l' H'. apply Hd. by right.
  - rewrite (proj2 (Z.ltb_ge f h)) by lia. cbn. conj; try done; lia.
Qed.

Lemma covered_ainsert h t segs x : covered (ainsert h t segs) x ↔ h ≤ x < t ∨ covered segs x.
Proof.
  rewrite <- covered_cons. unfold covered. by setoid_rewrite (ainsert_perm h t segs).
Qed.

Lemma total_ainsert h t segs : total (ainsert h t segs) = (t - h) + total segs.
Proof.
  induction segs as [|[f l] r IH]; cbn; [lia|]. case_match; cbn; lia.
Qed.

Fixpoint aadv (segs : list seg) (R : Z) : Z :=
  match segs with
  | [] => R
  | (f, l) :: r => if f <? R then aadv r R else if R <? f then R else aadv r l
  end.

(** The end of the data in order: everything up to it is held, the next byte is not. *)
Lemma aadv_spec segs lo R :
  ordered lo segs → (∀ f l, (f, l) ∈ segs → l ≤ R ∨ R ≤ f) →
  R ≤ aadv segs R ∧ (∀ x, R ≤ x < aadv segs R → covered segs x) ∧
  (∀ f l, (f, l) ∈ segs → l ≤ aadv segs R ∨ aadv segs R < f) ∧
  (aadv segs R = R ∨ ∃ f, (f, aadv segs R) ∈ segs).
Proof.
  revert lo R. induction segs as [|[f l] r IH]; intros lo R Ho Hd; cbn.
  { conj; [lia|intros; lia|intros f l H; by apply not_elem_of_nil in H|by left]. }
  destruct Ho as (Hlo & Hfl & Ho).
  assert (∀ f' l', (f', l') ∈ r → l ≤ f' < l') as Hr by (intros; by eapply ordered_elem).
  destruct (Z.ltb_spec f R); [|destruct (Z.ltb_spec R f)].
  - destruct (IH l R Ho) as (H1 & H2 & H3 & H4); [intros; apply Hd; by right|].
    destruct (Hd f l) as [|]; [by left| |lia]. conj; [done| | |].
    + intros x Hx. rewrite covered_cons. right. auto.
    + intros f' l' [[= -> ->]|H']%elem_of_cons; [lia|auto].
    + destruct H4 as [|[f' ?]]; [by left|right; exists f'; by right].
  - conj; [lia|intros; lia| |by left].
    intros f' l' [[= -> ->]|H']%elem_of_cons; [lia|]. apply Hr in H'. lia.
  - assert (f = R) as -> by lia.
    destruct (IH l l Ho) as (H1 & H2 & H3 & H4); [intros f' l' H'; right; apply Hr in H'; lia|].
    conj; [lia| | |].
    + intros x Hx. rewrite covered_cons. destruct (Z.lt_ge_cases x l); [left; lia|right; apply H2; lia].
    + intros f' l' [[= -> ->]|H']%elem_of_cons; [lia|auto].
    + right. destruct H4 as [->|[f' ?]]; [exists R; by left|exists f'; by right].
Qed.

(** ** From positions to sequence numbers *)

Section conc.
(** The byte at each position of the stream. *)
Context (stream : Z → Z).

Definition bytes (f l : Z) : Packet := stream <$> seqZ f (l - f).
Definition conc (segs : list seg) : list (Z * Packet) := (λ e, (u32 e.1, bytes e.1 e.2)) <$> segs.
Definition wsack (l : list seg) : list SackBlock := (λ e, (u32 e.1, u32 e.2)) <$> l.

Lemma length_wsack l : length (wsack l) = length l.
Proof. apply length_fmap. Qed.

Lemma size_bytes f l : f ≤ l → pkt_size (bytes f l) = l - f.
Proof. intros. unfold pkt_size, bytes. rewrite length_fmap, length_seqZ. lia. Qed.

Lemma fragment_bytes f l start len :
  0 ≤ start → 0 ≤ len → f + start + len ≤ l →
  fragment start len (bytes f l) = bytes (f + start) (f + start + len).
Proof.
  intros. unfold fragment, bytes. rewrite <- fmap_drop, <- fmap_take. f_equal.
  apply list_eq. intros i. destruct (decide (Z.of_nat i < len)).
  - rewrite lookup_take_lt, lookup_drop by lia. rewrite !lookup_seqZ_lt by lia. f_equal. lia.
  - rewrite lookup_take_ge by lia. symmetry. apply lookup_seqZ_ge. lia.
Qed.

Lemma bytes_app f m l : f ≤ m ≤ l → bytes f m ++ bytes m l = bytes f l.
Proof.
  intros. unfold bytes. rewrite <- fmap_app. f_equal.
  replace (l - f) with ((m - f) + (l - m)) by lia. rewrite seqZ_app by lia. do 2 f_equal. lia.
Qed.

(** Positions whose sequence numbers compare as they do. *)
Definition close (B x : Z) : Prop := B - 2 ^ 29 ≤ x < B + 3 * 2 ^ 29.

Definition segs_close (B : Z) (segs : list seg) : Prop := ∀ f l, (f, l) ∈ segs → close B f ∧ close B l.

Lemma segs_close_cons B f l r : segs_close B ((f, l) :: r) → close B f ∧ close B l ∧ segs_close B r.
Proof.
  intros H. destruct (H f l) as [? ?]; [by left|]. conj; try done. intros f' l' H'. apply H. by right.
Qed.

Lemma close_lt B x y : close B x → close B y → lt32 (u32 x) (u32 y) = (x <? y).
Proof. unfold close. intros. apply (seq_lt_spec 32); lia. Qed.
Lemma close_gt B x y : close B x → close B y → gt32 (u32 x) (u32 y) = (y <? x).
Proof. unfold close. intros. apply (seq_gt_spec 32); lia. Qed.
Lemma close_le B x y : close B x → close B y → le32 (u32 x) (u32 y) = (x <=? y).
Proof. unfold close. intros. apply (seq_le_spec 32); lia. Qed.
Lemma close_ge B x y : close B x → close B y → ge32 (u32 x) (u32 y) = (y <=? x).
Proof. unfold close. intros. apply (seq_ge_spec 32); lia. Qed.
Lemma close_eq B x y : close B x → close B y → seq_eq (u32 x) (u32 y) = (x =? y).
Proof. unfold close. intros. apply (seq_eq_spec 32); lia. Qed.

Lemma seq_add_u32 x n : seq_add 32 (u32 x) n = u32 (x + n).
Proof. unfold seq_add. apply wrap_add_l. lia. Qed.

Lemma Add_trim_conc B segs lo h t size :
  ordered lo segs → segs_close B segs → close B h → close B t →
  Add_trim (conc segs) (u32 h) (u32 t) (u32 size) =
    let '(s, h', t') := atrim segs h t in
    (conc s, u32 h', u32 t', u32 (size - (total segs - total s))).
Proof.
  revert lo h t size. induction segs as [|[f l] r IH]; intros lo h t size Ho Hc Hh Ht; cbn -[wrap].
  { do 2 f_equal. lia. }
  destruct Ho as (Hlo & Hfl & Ho). apply segs_close_cons in Hc as (Hf & Hl & Hr).
  rewrite (close_le B), size_bytes, seq_add_u32 by (done || lia).
  replace (f + (l - f)) with l by lia. rewrite (close_gt B l h) by done.
  destruct (f <=? t).
  2: { cbn -[wrap]. do 2 f_equal. lia. }
  destruct (h <? l).
  2: { rewrite (IH l) by done. destruct (atrim r h t) as [[s h'] t'].
       cbn -[wrap]. do 2 f_equal. lia. }
  rewrite (close_gt B f h), (close_lt B l t) by done. destruct ((h <? f) && (l <? t)).
  - rewrite wrap_sub_l. rewrite (IH l) by done. destruct (atrim r h t) as [[s h'] t']. do 2 f_equal. lia.
  - rewrite (close_le B f h), (close_ge B l t) by done.
    assert (∀ c : bool, (if c then u32 l else u32 h) = u32 (if c then l else h)) as -> by by intros [].
    assert (∀ c : bool, (if c then u32 f else u32 t) = u32 (if c then f else t)) as -> by by intros [].
    rewrite (IH l) by (done || by case_match). destruct (atrim r _ _) as [[s h'] t'].
    cbn -[wrap]. do 2 f_equal. lia.
Qed.

Lemma map_find_conc B segs lo h t :
  ordered lo segs → segs_close B segs → close B h → h < t →
  (∀ f l, (f, l) ∈ segs → l ≤ h ∨ t ≤ f) → map_find (u32 h) (conc segs) = None.
Proof.
  revert lo. induction segs as [|[f l] r IH]; intros lo Ho Hc Hh Hht Hd; cbn -[wrap]; [done|].
  destruct Ho as (Hlo & Hfl & Ho). apply segs_close_cons in Hc as (Hf & Hl & Hr).
  rewrite (close_lt B f h), (close_lt B h f) by done.
  destruct (Hd f l) as [|]; [by left| |].
  - rewrite (proj2 (Z.ltb_lt f h)) by lia. apply (IH l); try done. intros f' l' H'. apply Hd. by right.
  - rewrite (proj2 (Z.ltb_ge f h)), (proj2 (Z.ltb_lt h f)) by lia. done.
Qed.

Lemma map_set_conc B segs lo h t :
  ordered lo segs → segs_close B segs → close B h → h < t →
  (∀ f l, (f, l) ∈ segs → l ≤ h ∨ t ≤ f) →
  map_set (u32 h) (bytes h t) (conc segs) = conc (ainsert h t segs).
Proof.
  revert lo. induction segs as [|[f l] r IH]; intros lo Ho Hc Hh Hht Hd; cbn -[wrap]; [done|].
  destruct Ho as (Hlo & Hfl & Ho). apply segs_close_cons in Hc as (Hf & Hl & Hr).
  rewrite (close_lt B f h), (close_lt B h f) by done.
  destruct (Hd f l) as [|]; [by left| |].
  - rewrite (proj2 (Z.ltb_lt f h)) by lia. cbn -[wrap]. f_equal.
    apply (IH l); try done. intros f' l' H'. apply Hd. by right.
  - rewrite (proj2 (Z.ltb_ge f h)), (proj2 (Z.ltb_lt h f)) by lia. done.
Qed.

(** ** SACK blocks *)

(** A non-empty block of held positions, past [lo]. *)
Definition block_ok (B lo : Z) (cov : Z → Prop) (e : seg) : Prop :=
  lo < e.1 < e.2 ∧ close B e.1 ∧ close B e.2 ∧ ∀ x, e.1 ≤ x < e.2 → cov x.

Lemma ClearSackList_conc B c sacks :
  Forall (λ e, e.1 < e.2 ∧ close B e.1 ∧ close B e.2) sacks → close B c →
  ClearSackList (u32 c) (wsack sacks) = Ok (wsack (filter (λ e, c < e.2) sacks)).
Proof.
  intros Hf Hc. induction Hf as [|[f s] r (H1 & H2 & H3) Hf IH]; [done|]. cbn in H1, H2, H3.
  change (wsack ((f, s) :: r)) with ((u32 f, u32 s) :: wsack r). cbn [ClearSackList fst snd].
  rewrite IH, (close_lt B f s), (close_le B s c), (proj2 (Z.ltb_lt f s)) by done. res_simpl. f_equal.
  destruct (Z.leb_spec s c).
  - rewrite filter_cons_False; [done|cbn; lia].
  - rewrite filter_cons_True; [done|cbn; lia].
Qed.

Lemma UpdateSackList_loop_conc B lo cov N fuel begin seen rest :
  block_ok B lo cov begin → Forall (block_ok B lo cov) seen → Forall (block_ok B lo cov) rest →
  (length seen + length rest ≤ N)%nat →
  ((length seen + length rest) * (N + 1) + length rest < fuel)%nat →
  ∃ first l, UpdateSackList_loop fuel (u32 begin.1, u32 begin.2) (wsack seen) (wsack rest) =
      Ok (wsack (first :: l)) ∧
    Forall (block_ok B lo cov) (first :: l) ∧ first.1 ≤ begin.1 ∧ begin.2 ≤ first.2 ∧
    (length l ≤ length seen + length rest)%nat.
Proof.
  revert begin seen rest. induction fuel as [|fuel IH]; intros begin seen rest Hb Hs Hr HN Hfuel; [lia|].
  destruct rest as [|[cf cs] rest]; cbn -[wrap] in *.
  { exists begin, (reverse seen). conj; [|constructor; [done|by apply Forall_reverse]|lia|lia|].
    - unfold wsack. by rewrite <- fmap_reverse.
    - rewrite length_reverse. lia. }
  apply Forall_cons in Hr as [Hcur Hr]. pose proof Hb as (Hb1 & Hb2 & Hb3 & Hb4).
  pose proof Hcur as (Hc1 & Hc2 & Hc3 & Hc4). cbn in Hc1, Hc2, Hc3, Hc4.
  rewrite (close_eq B begin.1 cs) by done. destruct (Z.eqb_spec begin.1 cs) as [E1|E1].
  { rewrite (close_lt B cf begin.2), (proj2 (Z.ltb_lt _ _)) by (done || lia). res_simpl.
    destruct (IH (cf, begin.2) [] (reverse seen ++ rest)) as (first & l & He & Hl & H1 & H2 & H3).
    - split; cbn; [lia|]. conj; try done. intros x Hx.
      destruct (Z.lt_ge_cases x cs); [apply Hc4; lia|apply Hb4; lia].
    - constructor.
    - apply Forall_app. split; [by apply Forall_reverse|done].
    - cbn. rewrite length_app, length_reverse. lia.
    - cbn. rewrite length_app, length_reverse. nia.
    - unfold wsack in He. rewrite fmap_app, fmap_reverse in He. exists first, l.
      cbn in H1, H2, H3. rewrite length_app, length_reverse in H3. conj; [exact He|done|lia|lia|lia]. }
  rewrite (close_eq B begin.2 cf) by done. destruct (Z.eqb_spec begin.2 cf) as [E2|E2].
  { rewrite (close_lt B begin.1 cs), (proj2 (Z.ltb_lt _ _)) by (done || lia). res_simpl.
    destruct (IH (begin.1, cs) [] (reverse seen ++ rest)) as (first & l & He & Hl & H1 & H2 & H3).
    - split; cbn; [lia|]. conj; try done. intros x Hx.
      destruct (Z.lt_ge_cases x begin.2); [apply Hb4; lia|apply Hc4; lia].
    - constructor.
    - apply Forall_app. split; [by apply Forall_reverse|done].
    - cbn. rewrite length_app, length_reverse. lia.
    - cbn. rewrite length_app, length_reverse. nia.
    - unfold wsack in He. rewrite fmap_app, fmap_reverse in He. exists first, l.
      cbn in H1, H2, H3. rewrite length_app, length_reverse in H3. conj; [exact He|done|lia|lia|lia]. }
  destruct (IH begin ((cf, cs) :: seen) rest) as (first & l & He & Hl & H1 & H2 & H3);
    [done|by constructor|done|cbn; lia|cbn; lia|].
  exists first, l. conj; [exact He|done|done|done|cbn in H3; lia].
Qed.

Lemma UpdateSackList_conc B lo cov h t sacks :
  Forall (block_ok B lo cov) sacks → block_ok B lo cov (h, t) → close B lo →
  (length sacks ≤ 4)%nat →
  ∃ first l, UpdateSackList (u32 h) (u32 t) (u32 lo) (wsack sacks) = Ok (wsack (first :: l)) ∧
    Forall (block_ok B lo cov) (first :: l) ∧ first.1 ≤ h ∧ t ≤ first.2 ∧ (length l ≤ 3)%nat.
Proof.
  intros Hs Hb Hlo Hlen. pose proof Hb as (H1 & H2 & H3 & _). cbn in H1, H2, H3.
  unfold UpdateSackList. rewrite (close_gt B h lo), (proj2 (Z.ltb_lt lo h)) by (done || lia). res_simpl.
  destruct (UpdateSackList_loop_conc B lo cov (length sacks) (sack_fuel (length (wsack sacks)))
    (h, t) [] sacks) as (first & l & He & Hl & Hf1 & Hf2 & Hlen2); [done|constructor|done|cbn; lia| |].
  { unfold sack_fuel. rewrite length_wsack. cbn [length]. nia. }
  change (wsack []) with (@nil SackBlock) in He. cbn [fst snd] in He. rewrite He. res_simpl.
  destruct (Nat.ltb_spec 4 (length (wsack (first :: l)))) as [H4|H4].
  - rewrite length_wsack in H4. cbn in H4, Hlen2.
    destruct l as [|e l] using rev_ind; [cbn in H4; lia|]. clear IHl.
    rewrite length_app in H4, Hlen2. cbn in H4, Hlen2.
    exists first, l. conj; [|by rewrite app_comm_cons in Hl; apply Forall_app in Hl as []|done|done|lia].
    f_equal. unfold wsack. rewrite app_comm_cons, fmap_app. apply removelast_last.
  - exists first, l. conj; try done. rewrite length_wsack in H4. cbn in H4. lia.
Qed.

Lemma Add_advance_conc B segs lo R avail sacks :
  ordered lo segs → segs_close B segs → close B R →
  Forall (λ e, R < e.2 ∧ e.1 < e.2 ∧ close B e.1 ∧ close B e.2) sacks →
  Add_advance (conc segs) (u32 R) (u32 avail) (wsack sacks) =
    Ok (u32 (aadv segs R), u32 (avail + (aadv segs R - R)),
        wsack (filter (λ e, aadv segs R < e.2) sacks)).
Proof.
  assert (∀ R' (l : list seg), Forall (λ e, R' < e.2 ∧ e.1 < e.2 ∧ close B e.1 ∧ close B e.2) l →
    filter (λ e : seg, R' < e.2) l = l) as Hid.
  { intros R' l. induction 1 as [|e l He _ IH]; [done|].
    rewrite filter_cons_True by tauto. by rewrite IH. }
  revert lo R avail sacks. induction segs as [|[f l] r IH]; intros lo R avail sacks Ho Hc HR Hs.
  { cbn -[wrap filter]. rewrite Hid by done. cbn [aadv]. by replace (avail + (R - R)) with avail by lia. }
  destruct Ho as (Hlo & Hfl & Ho). apply segs_close_cons in Hc as (Hf & Hl & Hr).
  change (conc ((f, l) :: r)) with ((u32 f, bytes f l) :: conc r). cbn [Add_advance aadv].
  rewrite (close_lt B f R), (close_gt B f R) by done.
  destruct (Z.ltb_spec f R); [by apply (IH l)|]. destruct (Z.ltb_spec R f).
  { rewrite Hid by done. by replace (avail + (R - R)) with avail by lia. }
  rewrite size_bytes, seq_add_u32 by lia. replace (f + (l - f)) with l by lia.
  rewrite (ClearSackList_conc B) by (done || (eapply Forall_impl; [exact Hs|naive_solver])).
  res_simpl. rewrite wrap_add_l by lia.
  assert (l ≤ aadv r l) as Hmono.
  { apply (aadv_spec r l l Ho). intros f' l' H'. apply (ordered_elem _ _ _ _ Ho) in H'. lia. }
  rewrite (IH l) by (done || (apply Forall_forall; intros e [He Hin]%list_elem_of_filter;
    rewrite Forall_forall in Hs; specialize (Hs e Hin); tauto)).
  rewrite list_filter_filter_l by (intros; lia).
  by replace (avail + (l - f) + (aadv r l - l)) with (avail + (aadv r l - R)) by lia.
Qed.
End conc.
