(* ===== verification/TcpRxTheorems.v ===== *)
(** * The receive buffer of a connection: the invariant and the theorems

    A buffer that holds a set of positions of the peer's stream, and what [Add] and
    [Extract] do to that set; then the runs of a connection. *)

From S2P Require Import Prelude SequenceNumber TcpRxBuffer TcpRxCorrect.
Local Open Scope Z_scope.

(** What a buffer holds: the bytes from [base] to [cont] in order, the stored segments,
    the SACK blocks and the position of the FIN. *)
Record held := Held {
  base : Z;
  cont : Z;
  segs : list seg;
  sacks : list seg;
  fin : option Z
}.

(** The position of the acknowledgment number: one past the FIN when all is received. *)
Definition next_pos (a : held) : Z :=
  match fin a with Some F => if F =? cont a then cont a + 1 else cont a | None => cont a end.

Record rx_wf (maxBuffer : Z) (a : held) : Prop := {
  wf_max : 0 ≤ maxBuffer ≤ 2 ^ 29;
  wf_base : base a ≤ cont a;
  wf_ordered : ordered (base a) (segs a);
  wf_cont : ∀ x, base a ≤ x < cont a → covered (segs a) x;
  wf_gap : ∀ f l, (f, l) ∈ segs a → l ≤ cont a ∨ cont a < f;
  wf_end : ∀ f l, (f, l) ∈ segs a → l ≤ base a + 2 ^ 30;
  wf_fin : ∀ F, fin a = Some F → cont a ≤ F ≤ base a + 2 ^ 30 ∧ ∀ f l, (f, l) ∈ segs a → l ≤ F;
  wf_sacks : Forall (block_ok (base a) (cont a) (covered (segs a))) (sacks a);
  wf_sack_len : (length (sacks a) ≤ 4)%nat
}.

(** The concrete buffer of what is held. *)
Definition rx_conc (stream : Z → Z) (maxBuffer finSeq : Z) (a : held) : t :=
  mk (wsack (sacks a)) (u32 (next_pos a)) (match fin a with Some F => u32 F | None => finSeq end)
    (bool_decide (is_Some (fin a))) (total (segs a)) maxBuffer (cont a - base a)
    (conc stream (segs a)).

Definition rx_inv (stream : Z → Z) (b : t) (a : held) : Prop :=
  rx_wf (m_maxBuffer b) a ∧ b = rx_conc stream (m_maxBuffer b) (m_finSeq b) a.

Lemma wf_cont_end m a : rx_wf m a → cont a ≤ base a + 2 ^ 30.
Proof.
  intros W. destruct (Z.eq_dec (base a) (cont a)); [lia|].
  pose proof (wf_base _ _ W). destruct (wf_cont _ _ W (cont a - 1)) as (f & l & Hin & Hx); [lia|].
  apply (wf_end _ _ W) in Hin. lia.
Qed.

Lemma wf_close m a : rx_wf m a → segs_close (base a) (segs a).
Proof.
  intros W f l H. pose proof (ordered_elem _ _ _ _ (wf_ordered _ _ W) H).
  pose proof (wf_end _ _ W _ _ H). unfold close. lia.
Qed.

Lemma wf_total m a : rx_wf m a → 0 ≤ total (segs a) ≤ 2 ^ 30.
Proof.
  intros W. pose proof (wf_ordered _ _ W) as Ho. split; [by eapply total_nonneg|].
  pose proof (total_bound _ (base a + 2 ^ 30) _ Ho (wf_end _ _ W)). lia.
Qed.

Lemma next_pos_range m a : rx_wf m a → cont a ≤ next_pos a ≤ cont a + 1.
Proof. intros _. unfold next_pos. repeat case_match; lia. Qed.

(** Trimming by the window, the first lines of [Add]. *)
Definition window_head (maxBuffer : Z) (a : held) (q e : Z) : Z * Z :=
  let h := Z.max q (next_pos a) in
  match segs a with
  | [] => (h, e)
  | (f, _) :: _ => (Z.min h (Z.min e (f + maxBuffer)), Z.min e (f + maxBuffer))
  end.

Lemma Add_window_conc stream m a q e :
  rx_wf m a → close (base a) q → q ≤ e ≤ base a + 2 ^ 30 →
  Add_window (conc stream (segs a)) m (u32 (next_pos a)) (u32 q) (u32 e) =
    let '(h, t) := window_head m a q e in (u32 h, u32 t).
Proof.
  intros W Hq He. pose proof (wf_cont_end _ _ W). pose proof (next_pos_range _ _ W).
  pose proof (wf_base _ _ W). pose proof (wf_max _ _ W).
  assert (close (base a) (next_pos a)) as Hn by (unfold close; lia).
  assert (close (base a) e) as He' by (unfold close in *; lia).
  unfold Add_window, window_head. rewrite (close_lt (base a) q) by done.
  assert ((if q <? next_pos a then u32 (next_pos a) else u32 q) = u32 (Z.max q (next_pos a))) as ->.
  { destruct (Z.ltb_spec q (next_pos a)); f_equal; lia. }
  set (h := Z.max q (next_pos a)). assert (close (base a) h) by (unfold h; destruct (Zmax_spec q (next_pos a)) as [[_ ->]|[_ ->]]; done).
  pose proof (wf_close _ _ W) as Hc. pose proof (wf_end _ _ W) as Hl. pose proof (wf_ordered _ _ W) as Ho.
  destruct (segs a) as [|[f l] r]; [done|]. cbn [conc fmap list_fmap fst].
  rewrite seq_add_u32. apply segs_close_cons in Hc as (Hf & _ & _).
  assert (close (base a) (f + m)).
  { specialize (Hl f l ltac:(by left)). destruct Ho as (? & ? & _). unfold close in *. lia. }
  rewrite (close_lt (base a)) by done.
  assert ((if f + m <? e then u32 (f + m) else u32 e) = u32 (Z.min e (f + m))) as ->.
  { destruct (Z.ltb_spec (f + m) e); f_equal; lia. }
  set (t := Z.min e (f + m)). assert (close (base a) t) by (unfold t; destruct (Zmin_spec e (f + m)) as [[_ ->]|[_ ->]]; done).
  rewrite (close_lt (base a)) by done. f_equal. destruct (Z.ltb_spec t h); f_equal; lia.
Qed.

Lemma block_ok_mono B lo (P Q : Z → Prop) e : (∀ x, P x → Q x) → block_ok B lo P e → block_ok B lo Q e.
Proof. unfold block_ok. naive_solver. Qed.

Lemma wf_start_lt m a f l : rx_wf m a → (f, l) ∈ segs a → f < l ∧ base a ≤ f.
Proof. intros W H. pose proof (ordered_elem _ _ _ _ (wf_ordered _ _ W) H). lia. Qed.

(** Storing the trimmed segment keeps what is held well formed. *)
Lemma wf_store m a h0 t0 s h t sk :
  rx_wf m a → atrim (segs a) h0 t0 = (s, h, t) → h < t → cont a ≤ h → t ≤ base a + 2 ^ 30 →
  (∀ F, fin a = Some F → t ≤ F) →
  let segs' := ainsert h t s in
  let c := aadv segs' (cont a) in
  Forall (block_ok (base a) (cont a) (covered segs')) sk → (length sk ≤ 4)%nat →
  rx_wf m (Held (base a) c segs' (filter (λ e, c < e.2) sk) (fin a)).
Proof.
  intros W Ht Hlt Hh Hend Hfin segs' c Hsk Hlen. pose proof (wf_ordered _ _ W) as Ho.
  pose proof (wf_base _ _ W) as Hb.
  destruct (atrim_spec _ _ _ _ _ _ _ Ht Ho) as (_ & _ & Hos & Hsub & _ & Hcov & Hdis & _).
  specialize (Hdis Hlt).
  assert (∀ f l, (f, l) ∈ segs' → (f, l) = (h, t) ∨ (f, l) ∈ segs a) as Hin.
  { intros f l H. unfold segs' in H. rewrite (ainsert_perm h t s) in H.
    apply elem_of_cons in H as [?|?]; auto. }
  assert (ordered (base a) segs') as Ho' by (apply ainsert_ordered; auto; lia).
  assert (∀ x, covered (segs a) x → covered segs' x) as Hc'.
  { intros x Hx. unfold segs'. rewrite covered_ainsert. destruct (Hcov x Hx); auto. }
  destruct (aadv_spec segs' _ (cont a) Ho') as (Hc1 & Hc2 & Hc3 & Hc4).
  { intros f l [[= -> ->]|H]%Hin; [by right|]. destruct (wf_gap _ _ W _ _ H); lia. }
  fold c in Hc1, Hc2, Hc3, Hc4. constructor; cbn; try done; try apply W; try lia.
  - intros x Hx. destruct (Z.lt_ge_cases x (cont a)); [apply Hc', W; lia|apply Hc2; lia].
  - intros f l [[= -> ->]|H]%Hin; [done|by apply (wf_end _ _ W) in H].
  - intros F HF. destruct (wf_fin _ _ W F HF) as [HF1 HF2].
    assert (∀ f l, (f, l) ∈ segs' → l ≤ F) as Hl.
    { intros f l [[= -> ->]|H]%Hin; [by apply Hfin|by apply HF2 in H]. }
    split; [|done]. destruct Hc4 as [->|[f Hf]]; [lia|]. apply Hl in Hf. lia.
  - apply Forall_forall. intros e [He Hein]%list_elem_of_filter. rewrite Forall_forall in Hsk.
    destruct (Hsk e Hein) as (H1 & H2 & H3 & H4). unfold block_ok. conj; try done; try lia.
    destruct (Z.lt_ge_cases c e.1); [done|]. destruct (H4 c) as (f & l & Hfl & Hx); [lia|].
    apply Hc3 in Hfl. lia.
  - etrans; [apply length_filter|done].
Qed.

(** The last step of [Add]: the FIN. *)
Lemma next_pos_conc m a finSeq :
  rx_wf m a →
  (if bool_decide (is_Some (fin a)) && seq_eq (u32 (cont a)) (match fin a with Some F => u32 F | None => finSeq end)
   then seq_incr 32 (u32 (cont a)) else u32 (cont a)) = u32 (next_pos a).
Proof.
  intros W. unfold next_pos. destruct (fin a) as [F|] eqn:HF; [|done].
  destruct (wf_fin _ _ W F HF) as [HF1 _]. pose proof (wf_cont_end _ _ W). pose proof (wf_base _ _ W).
  rewrite bool_decide_true by eauto. cbn [andb].
  rewrite (close_eq (base a)) by (unfold close; lia). rewrite Z.eqb_sym.
  case_match; [|done]. unfold seq_incr. apply wrap_add_l. lia.
Qed.

(** No data in order is gained by a segment past the next expected byte. *)
Lemma aadv_out_of_order m a h t s h0 t0 :
  rx_wf m a → atrim (segs a) h0 t0 = (s, h, t) → cont a < h < t →
  aadv (ainsert h t s) (cont a) = cont a.
Proof.
  intros W Ht Hh. pose proof (wf_ordered _ _ W) as Ho.
  destruct (atrim_spec _ _ _ _ _ _ _ Ht Ho) as (_ & _ & Hos & Hsub & _ & _ & Hdis & _).
  specialize (Hdis ltac:(lia)).
  assert (∀ f l, (f, l) ∈ ainsert h t s → l ≤ cont a ∨ cont a < f) as Hg.
  { intros f l H. rewrite (ainsert_perm h t s) in H.
    apply elem_of_cons in H as [[= -> ->]|H]; [lia|]. by apply Hsub, (wf_gap _ _ W) in H. }
  destruct (aadv_spec (ainsert h t s) (base a) (cont a)) as (H1 & H2 & _ & _).
  - apply ainsert_ordered; auto. pose proof (wf_base _ _ W). lia.
  - intros f l H. apply Hg in H. lia.
  - destruct (Z.eq_dec (aadv (ainsert h t s) (cont a)) (cont a)) as [|Hne]; [done|].
    destruct (H2 (cont a)) as (f & l & Hin & Hx); [lia|]. apply Hg in Hin. lia.
Qed.

Lemma Add_sack_conc m a h0 t0 s h t :
  rx_wf m a → atrim (segs a) h0 t0 = (s, h, t) → cont a ≤ h → h < t → t ≤ base a + 2 ^ 30 →
  let segs' := ainsert h t s in
  ∃ sk, Add_sack (u32 h) (u32 t) (u32 (cont a)) (wsack (sacks a)) = Ok (wsack sk) ∧
    Forall (block_ok (base a) (cont a) (covered segs')) sk ∧ (length sk ≤ 4)%nat ∧
    (t ≤ aadv segs' (cont a) ∨
     ∃ e r, filter (λ e, aadv segs' (cont a) < e.2) sk = e :: r ∧ e.1 ≤ h ∧ t ≤ e.2).
Proof.
  intros W Ht Hc Hlt Hend segs'. pose proof (wf_ordered _ _ W) as Ho. pose proof (wf_base _ _ W) as Hb.
  destruct (atrim_spec _ _ _ _ _ _ _ Ht Ho) as (_ & _ & Hos & Hsub & _ & Hcov & Hdis & _).
  specialize (Hdis Hlt).
  assert (∀ x, covered (segs a) x → covered segs' x) as Hc'.
  { intros x Hx. unfold segs'. rewrite covered_ainsert. destruct (Hcov x Hx); auto. }
  assert (Forall (block_ok (base a) (cont a) (covered segs')) (sacks a)) as Hsk.
  { eapply Forall_impl; [apply (wf_sacks _ _ W)|]. intros e. by apply block_ok_mono. }
  pose proof (wf_cont_end _ _ W) as Hce.
  unfold Add_sack. rewrite (close_gt (base a)) by (unfold close; lia).
  destruct (Z.ltb_spec (cont a) h) as [Hgt|Hle].
  - destruct (UpdateSackList_conc (base a) (cont a) (covered segs') h t (sacks a))
      as (e & l & He & Hl & H1 & H2 & Hlen); [done| | |apply (wf_sack_len _ _ W)|].
    + unfold block_ok; cbn. conj; try lia; try (unfold close; lia).
      intros x Hx. apply covered_ainsert. by left.
    + unfold close; lia.
    + exists (e :: l). conj; [done|done|cbn; lia|]. right.
      unfold segs'. rewrite (aadv_out_of_order m a h t s h0 t0) by (done || lia).
      rewrite filter_cons_True by lia. by eauto.
  - exists (sacks a). conj; [done|done|apply (wf_sack_len _ _ W)|]. left.
    destruct (aadv_spec segs' (base a) (cont a)) as (H1 & _ & H3 & _).
    + apply ainsert_ordered; auto. lia.
    + intros f l H. unfold segs' in H. rewrite (ainsert_perm h t s) in H.
      apply elem_of_cons in H as [[= -> ->]|H]; [lia|].
      apply Hsub, (wf_gap _ _ W) in H. lia.
    + destruct (H3 h t); [|done|lia]. unfold segs'. rewrite (ainsert_perm h t s). by left.
Qed.

(** What a buffer holds after the segment [q, e) arrived. *)
Definition Add_held (m : Z) (a : held) (q e : Z) (r : bool) (a' : held) : Prop :=
  let '(h0, t0) := window_head m a q e in
  let '(s, h, t) := atrim (segs a) h0 t0 in
  r = (h <? t) ∧
  if h <? t then
    ∃ sk, a' = Held (base a) (aadv (ainsert h t s) (cont a)) (ainsert h t s) sk (fin a) ∧
      (t ≤ cont a' ∨ ∃ b r, sk = b :: r ∧ b.1 ≤ h ∧ t ≤ b.2)
  else a' = a.

Lemma window_bounds m a q e h0 t0 s h t :
  rx_wf m a → window_head m a q e = (h0, t0) → atrim (segs a) h0 t0 = (s, h, t) → h < t →
  h0 = Z.max q (next_pos a) ∧ t0 ≤ e ∧ h0 < t0 ∧ h0 ≤ h ∧ t ≤ t0.
Proof.
  intros W Hw Ht Hlt.
  destruct (atrim_spec _ _ _ _ _ _ _ Ht (wf_ordered _ _ W)) as (H1 & H2 & _ & _ & _ & _ & _ & _ & H3 & _).
  unfold window_head in Hw. destruct (segs a) as [|[f l] r]; injection Hw as <- <-; lia.
Qed.

Lemma window_close m a q e h0 t0 :
  rx_wf m a → close (base a) q → q ≤ e ≤ base a + 2 ^ 30 →
  window_head m a q e = (h0, t0) → close (base a) h0 ∧ close (base a) t0.
Proof.
  intros W Hq He Hw. pose proof (wf_max _ _ W). pose proof (wf_end _ _ W) as Hle.
  pose proof (wf_ordered _ _ W) as Ho. pose proof (wf_base _ _ W). pose proof (wf_cont_end _ _ W).
  pose proof (next_pos_range _ _ W). unfold window_head in Hw.
  destruct (segs a) as [|[f l] r]; injection Hw as <- <-; [unfold close in *; lia|].
  specialize (Hle f l ltac:(by left)). destruct Ho as (? & ? & _). unfold close in *. lia.
Qed.

Lemma trim_close m a h0 t0 s h t :
  rx_wf m a → close (base a) h0 → close (base a) t0 → atrim (segs a) h0 t0 = (s, h, t) →
  close (base a) h ∧ close (base a) t.
Proof.
  intros W H0 T0 Ht. pose proof (wf_close _ _ W) as Hc.
  destruct (atrim_spec _ _ _ _ _ _ _ Ht (wf_ordered _ _ W)) as (_ & _ & _ & _ & _ & _ & _ & _ & _ & Hh & Htl).
  split.
  - destruct Hh as [->|[f Hin]]; [done|]. by apply Hc in Hin as [_ ?].
  - destruct Htl as [->|[l Hin]]; [done|]. by apply Hc in Hin as [? _].
Qed.

(** The concrete buffer when the overlapped segments are removed: [s] is left. *)
Definition rx_mid (stream : Z → Z) (m finSeq : Z) (a : held) (s : list seg) : t :=
  mk (wsack (sacks a)) (u32 (next_pos a)) (match fin a with Some F => u32 F | None => finSeq end)
    (bool_decide (is_Some (fin a))) (u32 (total s)) m (cont a - base a) (conc stream s).

Lemma rx_mid_conc stream m finSeq a : rx_wf m a → rx_mid stream m finSeq a (segs a) = rx_conc stream m finSeq a.
Proof.
  intros W. unfold rx_mid, rx_conc. pose proof (wf_total _ _ W). rewrite (wrap_id 32 (total _)) by zlia. done.
Qed.

Lemma rx_inv_conc stream m finSeq a : rx_wf m a → rx_inv stream (rx_conc stream m finSeq a) a.
Proof.
  intros W. split; [done|]. unfold rx_conc. cbn -[wrap]. by destruct (fin a).
Qed.

Lemma Add_store_conc stream m fs a q e h0 t0 s h t :
  rx_wf m a → atrim (segs a) h0 t0 = (s, h, t) → next_pos a = cont a → cont a ≤ h → q ≤ h → h < t →
  t ≤ e → e ≤ base a + 2 ^ 30 → close (base a) q → (∀ F, fin a = Some F → e ≤ F) →
  ∃ sk, let a' := Held (base a) (aadv (ainsert h t s) (cont a)) (ainsert h t s) sk (fin a) in
    Add_store (bytes stream q e) (u32 q) (u32 h) (u32 t) (rx_mid stream m fs a s) = 
      Ok (true, rx_conc stream m fs a') ∧
    rx_wf m a' ∧ (t ≤ cont a' ∨ ∃ b r, sk = b :: r ∧ b.1 ≤ h ∧ t ≤ b.2).
Proof.
  intros W Ht Hnext Hc Hqh Hlt Hte He Hq Hfin.
  pose proof (wf_base _ _ W) as Hb. pose proof (wf_ordered _ _ W) as Ho.
  destruct (atrim_spec _ _ _ _ _ _ _ Ht Ho) as (_ & _ & Hos & Hsub & _ & _ & Hdis & _).
  specialize (Hdis Hlt).
  assert (close (base a) h ∧ close (base a) t) as [Hch Hct] by (unfold close; lia).
  assert (segs_close (base a) s) as Hsc by (intros f l H; by apply (wf_close _ _ W), Hsub).
  destruct (Add_sack_conc m a h0 t0 s h t) as (sk & Hsk & Hall & Hlen & Hfirst); try done; [lia|].
  assert (∀ F, fin a = Some F → t ≤ F) as HtF by (intros F HF; specialize (Hfin F HF); lia).
  pose proof (wf_store m a h0 t0 s h t sk W Ht Hlt Hc ltac:(lia) HtF Hall Hlen) as W'.
  cbn zeta in W'. set (segs' := ainsert h t s) in *. set (c := aadv segs' (cont a)) in *.
  exists (filter (λ e, c < e.2) sk). cbn zeta. split; [|done].
  unfold Add_store, rx_mid.
  cbn [m_data m_sackList m_nextRxSeq m_finSeq m_gotFin m_size m_maxBuffer m_availBytes].
  unfold close in Hq, Hch, Hct. rewrite !seq_sub_spec by lia. res_simpl.
  rewrite (wrap_id 32 (h - q)), (wrap_id 32 (t - h)) by zlia.
  rewrite fragment_bytes by lia. replace (q + (h - q)) with h by lia. replace (h + (t - h)) with t by lia.
  rewrite size_bytes, Z.eqb_refl by lia. res_simpl.
  rewrite (map_find_conc stream (base a) s (base a) h t) by (unfold close; done || lia). res_simpl.
  rewrite (map_set_conc stream (base a) s (base a) h t) by (unfold close; done || lia).
  rewrite Hnext, Hsk. res_simpl. fold segs'.
  pose proof (wf_cont_end _ _ W) as Hce.
  assert (cont a - base a = u32 (cont a - base a)) as E by (symmetry; apply wrap_id; zlia).
  rewrite E at 1. rewrite (Add_advance_conc stream (base a) segs' (base a)); [|apply W'|apply (wf_close _ _ W')|unfold close; lia|].
  2: { eapply Forall_impl; [exact Hall|]. intros b (? & ? & ? & _). conj; done || lia. }
  fold c. res_simpl. pose proof (next_pos_conc _ _ fs W') as En. cbn [fin cont] in En. rewrite En.
  pose proof (wf_cont_end _ _ W') as Hce'. pose proof (wf_base _ _ W') as Hb'. pose proof (wf_total _ _ W') as Ht'.
  cbn [base cont segs] in Hce', Hb', Ht'. unfold rx_conc. cbn [base cont segs sacks fin].
  rewrite wrap_add_l, (total_ainsert h t s : total segs' = _) in *.
  2: lia.
  do 3 f_equal; rewrite wrap_id; zlia.
Qed.

Lemma Add_ok stream b a q e :
  rx_inv stream b a → close (base a) q → q ≤ e ≤ base a + 2 ^ 30 →
  (∀ F, fin a = Some F → e ≤ F) →
  ∃ r b' a', Add (bytes stream q e) (u32 q) b = Ok (r, b') ∧ rx_inv stream b' a' ∧
    m_maxBuffer b' = m_maxBuffer b ∧ Add_held (m_maxBuffer b) a q e r a'.
Proof.
  intros [W Hb] Hq He Hfin. set (m := m_maxBuffer b) in *. set (fs := m_finSeq b) in *.
  pose proof (wf_ordered _ _ W) as Ho. pose proof (next_pos_range _ _ W) as Hnp.
  unfold Add_held. rewrite Hb, <- rx_mid_conc by done. unfold Add. rewrite size_bytes, seq_add_u32 by lia.
  replace (q + (e - q)) with e by lia.
  unfold rx_mid at 1 2 3 4 5. cbn [m_data m_maxBuffer m_nextRxSeq m_size].
  rewrite (Add_window_conc stream m a q e) by done.
  destruct (window_head m a q e) as [h0 t0] eqn:Hw.
  destruct (window_close m a q e h0 t0) as [Hh0 Ht0]; try done.
  rewrite (Add_trim_conc stream (base a) _ (base a)) by (done || by eapply wf_close).
  destruct (atrim (segs a) h0 t0) as [[s h] t] eqn:Ht.
  destruct (trim_close m a h0 t0 s h t) as [Hch Hct]; try done.
  replace (total (segs a) - (total (segs a) - total s)) with (total s) by lia.
  rewrite (close_ge (base a)) by done.
  match goal with |- context [mk ?x1 ?x2 ?x3 ?x4 (u32 (total s)) ?x6 ?x7 (conc stream s)] =>
    change (mk x1 x2 x3 x4 (u32 (total s)) x6 x7 (conc stream s)) with (rx_mid stream m fs a s) end.
  destruct (Z.leb_spec t h) as [Hle|Hlt].
  { destruct (atrim_spec _ _ _ _ _ _ _ Ht Ho) as (_ & _ & _ & _ & _ & _ & _ & Hid & _).
    rewrite Hid, rx_mid_conc by done. exists false, (rx_conc stream m fs a), a.
    rewrite (proj2 (Z.ltb_ge h t)) by done. conj; try done. by apply rx_inv_conc. }
  rewrite (proj2 (Z.ltb_lt h t)) by done.
  destruct (window_bounds m a q e h0 t0 s h t) as (Hh0q & Ht0e & _ & Hh & Htl); try done.
  assert (next_pos a = cont a) as Hnext.
  { unfold next_pos in *. destruct (fin a) as [F|]; [|done]. specialize (Hfin _ eq_refl).
    destruct (Z.eqb_spec F (cont a)); lia. }
  destruct (Add_store_conc stream m fs a q e h0 t0 s h t) as (sk & Hadd & W' & Hfst); try done; try lia.
  eexists true, _, _. split; [exact Hadd|]. conj; [by apply rx_inv_conc|done|done|].
  exists sk. split; [done|exact Hfst].
Qed.

(** The end of what the window admits of a segment that ends at [e]. *)
Definition window_end (m : Z) (a : held) (e : Z) : Z :=
  match segs a with [] => e | (f, _) :: _ => Z.min e (f + m) end.

Lemma Add_held_covered m a q e r a' x :
  rx_wf m a → Add_held m a q e r a' →
  covered (segs a') x ↔ covered (segs a) x ∨ (next_pos a ≤ x ∧ q ≤ x < window_end m a e).
Proof.
  intros W Ha. unfold Add_held in Ha. destruct (window_head m a q e) as [h0 t0] eqn:Hw.
  assert (t0 = window_end m a e ∧ (h0 = Z.max q (next_pos a) ∨ h0 = t0 ∧ t0 ≤ Z.max q (next_pos a))) as [-> Hh0].
  { unfold window_head, window_end in *. destruct (segs a) as [|[f l] l']; injection Hw as <- <-; lia. }
  destruct (atrim (segs a) h0 _) as [[s h] t] eqn:Ht.
  destruct (atrim_spec _ _ _ _ _ _ _ Ht (wf_ordered _ _ W)) as (H1 & H2 & _ & Hsub & Hnew & Hcov & _ & Hid & _).
  assert (covered s x → covered (segs a) x) as Hs by (intros (f & l & ? & ?); exists f, l; auto).
  destruct Ha as [_ Ha]. destruct (Z.ltb_spec h t).
  - destruct Ha as (sk & -> & _). cbn [segs]. rewrite covered_ainsert. split.
    + intros [?|?]; [right; lia|auto].
    + intros [Hx|Hx]; [destruct (Hcov x Hx); auto|destruct (Hnew x); [lia|auto|auto]].
  - subst a'. split; [auto|]. intros [?|?]; [done|]. destruct (Hnew x); [lia|auto|lia].
Qed.

Lemma Add_held_sack m a q e r a' x :
  rx_wf m a → Add_held m a q e r a' → covered (segs a') x → ¬ covered (segs a) x →
  x < cont a' ∨ ∃ b l, sacks a' = b :: l ∧ b.1 ≤ x < b.2.
Proof.
  intros W Ha Hx Hn. unfold Add_held in Ha. destruct (window_head m a q e) as [h0 t0].
  destruct (atrim (segs a) h0 t0) as [[s h] t] eqn:Ht.
  destruct (atrim_spec _ _ _ _ _ _ _ Ht (wf_ordered _ _ W)) as (_ & _ & _ & Hsub & _).
  destruct Ha as [_ Ha]. destruct (Z.ltb_spec h t); [|by subst a'].
  destruct Ha as (sk & Ha' & Hfst). subst a'. cbn [segs cont sacks] in *.
  apply covered_ainsert in Hx as [Hx|(f & l & Hin & Hx)].
  - destruct Hfst as [?|(b & l & -> & ? & ?)]; [left; lia|right; exists b, l; split; [done|lia]].
  - destruct Hn. exists f, l. auto.
Qed.

(** ** Extraction *)

Fixpoint aextract (l : list seg) (n : Z) : list seg :=
  match l with
  | [] => []
  | (f, e) :: r => if n =? 0 then l else if e - f <=? n then aextract r (n - (e - f)) else (f + n, e) :: r
  end.

Lemma aextract_spec l lo n :
  ordered lo l → 0 ≤ n → (∀ x, lo ≤ x < lo + n → covered l x) →
  ordered (lo + n) (aextract l n) ∧
  (∀ x, covered (aextract l n) x ↔ lo + n ≤ x ∧ covered l x) ∧
  total (aextract l n) = total l - n ∧
  (∀ f e, (f, e) ∈ aextract l n → (f, e) ∈ l ∨ (f = lo + n ∧ ∃ f', (f', e) ∈ l ∧ f' ≤ f)).
Proof.
  revert lo n. induction l as [|[f e] r IH]; intros lo n Ho Hn Hc; cbn [aextract].
  { assert (n = 0) as -> by (destruct (Z.eq_dec n 0); [done|destruct (Hc lo ltac:(lia)) as (? & ? & Hin & _); by apply not_elem_of_nil in Hin]).
    conj; [done| |cbn; lia|by left]. intros x. pose proof (covered_nil x). tauto. }
  pose proof Ho as (Hlo & Hfe & Hr). destruct (Z.eqb_spec n 0) as [->|Hn0].
  { rewrite Z.add_0_r. conj; [done| |lia|by left]. intros x. split; [|tauto].
    intros Hx. split; [by eapply ordered_covered|done]. }
  assert (f = lo) as ->.
  { pose proof (Hc lo ltac:(lia)) as Hx. apply covered_cons in Hx as [Hx|Hx]; [lia|].
    apply (ordered_covered _ _ _ Hr) in Hx. lia. }
  destruct (Z.leb_spec (e - lo) n).
  - destruct (IH e (n - (e - lo)) Hr) as (H1 & H2 & H3 & H4); [lia| |].
    { intros x Hx. destruct (proj1 (covered_cons lo e r x) (Hc x ltac:(lia))); [lia|done]. }
    replace (e + (n - (e - lo))) with (lo + n) in * by lia. conj; [done| |cbn [total]; lia|].
    + intros x. rewrite H2, covered_cons. split; [tauto|]. intros [Hx [?|?]]; [lia|done].
    + intros f' e' Hin. destruct (H4 f' e' Hin) as [?|[-> (f2 & ? & ?)]]; [left; by right|].
      right. split; [done|]. exists f2. split; [by right|done].
  - conj; [cbn; conj; done || lia| |cbn [total]; lia|].
    + intros x. rewrite !covered_cons. split; [|intros [? [?|?]]; [left; lia|by right]].
      intros [?|Hx]; [split; [lia|left; lia]|]. split; [|by right].
      pose proof (ordered_covered _ _ _ Hr Hx). lia.
    + intros f' e' [[= -> ->]|Hin]%elem_of_cons; [right; split; [done|exists lo; split; [by left|lia]]|left; by right].
Qed.

Lemma filter_conc_out stream B lo f l :
  ordered lo l → segs_close B l → close B f → f < lo →
  filter (λ e : Z * Packet, e.1 ≠ u32 f) (conc stream l) = conc stream l.
Proof.
  revert lo. induction l as [|[f' e'] r IH]; intros lo Ho Hc Hf Hlo; [done|].
  destruct Ho as (? & ? & Ho). apply segs_close_cons in Hc as (Hf' & _ & Hr).
  change (conc stream ((f', e') :: r)) with ((u32 f', bytes stream f' e') :: conc stream r).
  rewrite filter_cons_True; [by rewrite (IH e') by (done || lia)|]. cbn [fst].
  intros He. pose proof (close_eq B f' f Hf' Hf) as Hq. unfold seq_eq in Hq.
  rewrite He, Z.eqb_refl in Hq. symmetry in Hq. apply Z.eqb_eq in Hq. lia.
Qed.

Lemma map_set_conc_head stream B lo k v l :
  ordered lo l → segs_close B l → close B k → k < lo →
  map_set (u32 k) v (conc stream l) = (u32 k, v) :: conc stream l.
Proof.
  destruct l as [|[f e] r]; intros Ho Hc Hk Hlo; [done|].
  destruct Ho as (? & ? & Ho). apply segs_close_cons in Hc as (Hf & _ & _).
  change (conc stream ((f, e) :: r)) with ((u32 f, bytes stream f e) :: conc stream r).
  cbn [map_set fst]. rewrite (close_lt B f k), (close_lt B k f) by done.
  by rewrite (proj2 (Z.ltb_ge f k)), (proj2 (Z.ltb_lt k f)) by lia.
Qed.

Lemma bytes_nil stream f : bytes stream f f = [].
Proof. unfold bytes. by rewrite Z.sub_diag. Qed.

Lemma Extract_loop_conc stream B l lo n size avail out nx :
  ordered lo l → segs_close B l → close B nx → lo + n ≤ nx → 0 ≤ n < 2 ^ 32 →
  (∀ x, lo ≤ x < lo + n → covered l x) →
  Extract_loop (conc stream l) (u32 nx) n (u32 size) (u32 avail) out =
    Ok (out ++ bytes stream lo (lo + n), conc stream (aextract l n), u32 (size - n), u32 (avail - n)).
Proof.
  revert lo n size avail out. induction l as [|[f e] r IH]; intros lo n size avail out Ho Hc Hnx Hle Hn Hcov.
  { assert (n = 0) as -> by (destruct (Z.eq_dec n 0); [done|destruct (Hcov lo ltac:(lia)) as (? & ? & Hin & _); by apply not_elem_of_nil in Hin]).
    cbn -[wrap]. by rewrite Z.add_0_r, bytes_nil, app_nil_r, !Z.sub_0_r. }
  pose proof Ho as (Hlo & Hfe & Hr). apply segs_close_cons in Hc as (Hf & He & Hrc).
  change (conc stream ((f, e) :: r)) with ((u32 f, bytes stream f e) :: conc stream r).
  cbn [Extract_loop aextract]. destruct (Z.eqb_spec n 0) as [->|Hn0].
  { by rewrite Z.add_0_r, bytes_nil, app_nil_r, !Z.sub_0_r. }
  assert (f = lo) as ->.
  { pose proof (Hcov lo ltac:(lia)) as Hx. apply covered_cons in Hx as [Hx|Hx]; [lia|].
    apply (ordered_covered _ _ _ Hr) in Hx. lia. }
  rewrite (close_le B), (proj2 (Z.leb_le lo nx)), size_bytes by (done || lia). res_simpl.
  destruct (Z.leb_spec (e - lo) n).
  - rewrite (wrap_id 32 (n - (e - lo))) by zlia. rewrite !wrap_sub_l.
    assert (∀ x, e ≤ x < e + (n - (e - lo)) → covered r x) as Hcov'.
    { intros x Hx. specialize (Hcov x ltac:(lia)). apply covered_cons in Hcov as [?|?]; [lia|done]. }
    rewrite (IH e) by (done || lia).
    rewrite <- app_assoc. replace (e + (n - (e - lo))) with (lo + n) by lia.
    rewrite bytes_app by lia.
    replace (size - (e - lo) - (n - (e - lo))) with (size - n) by lia.
    by replace (avail - (e - lo) - (n - (e - lo))) with (avail - n) by lia.
  - assert (e - lo < 2 ^ 32) by (unfold close in *; lia).
    rewrite !wrap_sub_l, (wrap_id 32 (e - lo - n)) by zlia. rewrite seq_add_u32.
    rewrite !fragment_bytes by lia. replace (lo + n + (e - lo - n)) with e by lia.
    rewrite Z.add_0_r. cbn [map_set fst].
    assert (close B (lo + n)) by (unfold close in *; lia).
    rewrite (close_lt B lo), (proj2 (Z.ltb_lt lo (lo + n))) by (done || lia).
    rewrite (map_set_conc_head stream B e) by (done || lia).
    rewrite filter_cons_False by (cbn; naive_solver).
    change ((u32 (lo + n), bytes stream (lo + n) e) :: conc stream r) with (conc stream ((lo + n, e) :: r)).
    rewrite (filter_conc_out stream B (lo + n)); [done| | |done|lia].
    + cbn; conj; done || lia.
    + intros f' e' [[= -> ->]|Hin]%elem_of_cons; [done|by apply Hrc].
Qed.

Lemma wf_extract m a n :
  rx_wf m a → 0 ≤ n ≤ cont a - base a →
  rx_wf m (Held (base a + n) (cont a) (aextract (segs a) n) (sacks a) (fin a)).
Proof.
  intros W Hn. pose proof (wf_ordered _ _ W) as Ho. pose proof (wf_base _ _ W) as Hb.
  destruct (aextract_spec (segs a) (base a) n) as (H1 & H2 & H3 & H4); [done|lia|intros; apply W; lia|].
  constructor; cbn; try apply W; try done; try lia.
  - intros x Hx. apply H2. split; [lia|]. apply W. lia.
  - intros f l Hin. destruct (H4 f l Hin) as [?|[-> (f' & Hin' & Hf')]]; [by apply (wf_gap _ _ W)|].
    destruct (wf_gap _ _ W _ _ Hin'); [by left|lia].
  - intros f l Hin. destruct (H4 f l Hin) as [Hin'|[-> (f' & Hin' & _)]]; apply (wf_end _ _ W) in Hin'; lia.
  - intros F HF. destruct (wf_fin _ _ W F HF) as [HF1 HF2]. split; [lia|].
    intros f l Hin. destruct (H4 f l Hin) as [Hin'|[-> (f' & Hin' & _)]]; by apply HF2 in Hin'.
  - eapply Forall_impl; [apply (wf_sacks _ _ W)|]. intros b (B1 & B2 & B3 & B4).
    assert (∀ x, b.1 ≤ x < b.2 → x < base a + 2 ^ 30) as Hlt.
    { intros x Hx. destruct (B4 x Hx) as (f & l & Hin & Hx'). apply (wf_end _ _ W) in Hin. lia. }
    specialize (Hlt (b.2 - 1) ltac:(lia)).
    unfold block_ok, close. conj; try lia. cbn. intros x Hx. apply H2. split; [lia|]. by apply B4.
Qed.

Lemma Extract_ok stream b a maxSize :
  rx_inv stream b a → 0 ≤ maxSize →
  let n := Z.min maxSize (cont a - base a) in
  let a' := Held (base a + n) (cont a) (aextract (segs a) n) (sacks a) (fin a) in
  ∃ b', Extract maxSize b =
      Ok (if n =? 0 then None else Some (bytes stream (base a) (base a + n)), b') ∧
    rx_inv stream b' a' ∧ m_maxBuffer b' = m_maxBuffer b.
Proof.
  intros [W Hb] Hmax n a'. set (m := m_maxBuffer b) in *. set (fs := m_finSeq b) in *.
  pose proof (wf_base _ _ W) as Hb0. pose proof (wf_cont_end _ _ W) as Hce.
  pose proof (next_pos_range _ _ W) as Hnp. pose proof (wf_ordered _ _ W) as Ho.
  assert (rx_wf m a') as W' by (apply wf_extract; [done|lia]).
  pose proof (wf_total _ _ W) as Ht.
  exists (rx_conc stream m fs a'). split; [|split; [by apply rx_inv_conc|done]].
  unfold Extract. assert (m_availBytes b = cont a - base a) as -> by by rewrite Hb. fold n.
  destruct (Z.eqb_spec n 0) as [Hn0|Hn0].
  { rewrite Hb. do 2 f_equal. unfold a'. rewrite Hn0. unfold rx_conc; cbn [segs cont base sacks fin].
    unfold next_pos; cbn [fin cont]. rewrite Z.add_0_r. destruct (segs a) as [|[f l] r]; done. }
  assert (∀ x, base a ≤ x < base a + n → covered (segs a) x) as Hcov by (intros; apply W; lia).
  assert (m_data b = conc stream (segs a)) as Hd by by rewrite Hb.
  assert (m_nextRxSeq b = u32 (next_pos a)) as -> by by rewrite Hb.
  assert (m_size b = u32 (total (segs a))) as -> by (rewrite Hb; cbn [rx_conc m_size]; by rewrite wrap_id by zlia).
  assert ((match m_data b with [] => false | _ :: _ => true end) = true) as ->.
  { rewrite Hd. destruct (segs a) as [|[f l] r]; [|done].
    destruct (Hcov (base a) ltac:(lia)) as (? & ? & Hin & _). by apply not_elem_of_nil in Hin. }
  res_simpl. rewrite Hd.
  assert (cont a - base a = u32 (cont a - base a)) as E by (symmetry; apply wrap_id; zlia).
  rewrite E at 1. rewrite (Extract_loop_conc stream (base a) (segs a) (base a));
    [|done|by eapply wf_close|unfold close; lia|lia|lia|done].
  res_simpl. cbn [app]. rewrite size_bytes by lia. replace (base a + n - base a) with n by lia.
  rewrite (proj2 (Z.eqb_neq n 0)) by done. do 2 f_equal.
  destruct (aextract_spec (segs a) (base a) n Ho ltac:(lia) Hcov) as (_ & _ & Htot & _).
  pose proof (wf_total _ _ W') as Ht'. change (segs a') with (aextract (segs a) n) in Ht'.
  rewrite Htot in Ht'.
  rewrite (wrap_id 32 (total (segs a) - n)), (wrap_id 32 (cont a - base a - n)) by zlia.
  rewrite Hb. unfold rx_conc, next_pos. cbn -[wrap]. rewrite Htot.
  f_equal; lia.
Qed.

(** [Add] leaves the delivered part and the FIN, and only adds to what is in order. *)
Lemma Add_held_same m m' a q e r a' :
  rx_wf m a → rx_wf m' a' → Add_held m a q e r a' → base a' = base a ∧ fin a' = fin a ∧ cont a ≤ cont a'.
Proof.
  intros W W' Ha. pose proof (λ x, proj2 (Add_held_covered _ _ _ _ _ _ x W Ha)) as Hcov.
  unfold Add_held in Ha. destruct (window_head _ a q e). destruct (atrim _ _ _) as [[s h] t].
  destruct Ha as [_ Ha]. destruct (h <? t); [|by subst a'].
  destruct Ha as (sk & -> & _). cbn [base fin cont] in *. conj; try done.
  destruct (Z.lt_ge_cases (aadv (ainsert h t s) (cont a)) (cont a)) as [Hlt|]; [|done].
  set (c := aadv _ _) in *. pose proof (wf_base _ _ W') as Hb. cbn in Hb.
  destruct (Hcov c) as (f & l & Hin & Hx); [left; apply W; lia|].
  apply (wf_gap _ _ W') in Hin. cbn in Hin. lia.
Qed.

(** A segment [q, e) of the peer's stream, not older than the window allows to tell and
    within it, is taken without a failed assertion.  The buffer then holds exactly the
    positions it held and those of the segment that are not acknowledged yet and lie in
    the window; the invariant (segments disjoint and in order, sizes and counts exact,
    acknowledgment number at the first missing byte, SACK blocks held) is kept; and new
    data out of order lies in the first SACK block. *)
Theorem TcpRxBuffer_Add_correct stream b a q e :
  rx_inv stream b a → base a - 2 ^ 29 ≤ q ≤ e → e ≤ base a + 2 ^ 30 →
  (∀ F, fin a = Some F → e ≤ F) →
  ∃ r b' a', Add (bytes stream q e) (u32 q) b = Ok (r, b') ∧ rx_inv stream b' a' ∧
    base a' = base a ∧ fin a' = fin a ∧ cont a ≤ cont a' ∧ m_maxBuffer b' = m_maxBuffer b ∧
    (∀ x, covered (segs a') x ↔
      covered (segs a) x ∨ (next_pos a ≤ x ∧ q ≤ x < window_end (m_maxBuffer b) a e)) ∧
    (∀ x, cont a' ≤ x → covered (segs a') x → ¬ covered (segs a) x →
      ∃ k l, sacks a' = k :: l ∧ k.1 ≤ x < k.2).
Proof.
  intros Hinv Hq He Hfin. destruct (Add_ok stream b a q e) as (r & b' & a' & Hadd & Hinv' & Hm & Ha);
    [done|unfold close; lia|lia|done|].
  destruct Hinv as [W _], Hinv' as [W' Hb']. exists r, b', a'.
  destruct (Add_held_same _ _ _ _ _ _ _ W W' Ha) as (? & ? & ?).
  conj; try done.
  - intros x. by apply (Add_held_covered _ _ _ _ r).
  - intros x Hx Hc Hn. destruct (Add_held_sack _ _ _ _ _ _ x W Ha Hc Hn) as [?|?]; [lia|done].
Qed.

(** [Extract] delivers the next bytes of the peer's stream, as many as were asked for
    and are in order ([nullptr] when there are none); what it leaves is what was held
    past them, and the invariant is kept. *)
Theorem TcpRxBuffer_Extract_correct stream b a maxSize :
  rx_inv stream b a → 0 ≤ maxSize →
  let n := Z.min maxSize (cont a - base a) in
  ∃ b' a', Extract maxSize b =
      Ok (if n =? 0 then None else Some (bytes stream (base a) (base a + n)), b') ∧
    rx_inv stream b' a' ∧ m_maxBuffer b' = m_maxBuffer b ∧
    base a' = base a + n ∧ cont a' = cont a ∧ fin a' = fin a ∧ sacks a' = sacks a ∧
    (∀ x, covered (segs a') x ↔ base a + n ≤ x ∧ covered (segs a) x).
Proof.
  intros Hinv Hmax n. destruct (Extract_ok stream b a maxSize Hinv Hmax) as (b' & He & Hinv' & Hm).
  destruct Hinv as [W _]. eexists b', _. conj; [exact He|exact Hinv'|done|done|done|done|done|].
  pose proof (wf_base _ _ W). apply (aextract_spec (segs a) (base a)); [apply W|lia|].
  intros x Hx. apply W. lia.
Qed.

Lemma new_ok stream start m :
  0 ≤ m ≤ 2 ^ 29 →
  rx_inv stream (SetNextRxSequence (u32 start) (SetMaxBufferSize m (new 0))) (Held start start [] [] None).
Proof.
  intros Hm. split.
  - constructor; cbn; try done; intros; first [lia|exfalso; by eapply not_elem_of_nil|constructor].
  - unfold rx_conc. cbn -[wrap]. by rewrite Z.sub_diag.
Qed.

Lemma SetFin_ok stream b a F :
  rx_inv stream b a → cont a ≤ F ≤ base a + 2 ^ 30 → (∀ f l, (f, l) ∈ segs a → l ≤ F) →
  fin a = None ∨ fin a = Some F →
  rx_inv stream (SetFinSequence (u32 F) b) (Held (base a) (cont a) (segs a) (sacks a) (Some F)).
Proof.
  intros [W Hb] HF Hl Hfin. split.
  { destruct W. constructor; cbn; try done. intros F' [= ->]. done. }
  pose proof (wf_base _ _ W) as Hb0. pose proof (wf_cont_end _ _ W) as Hce.
  rewrite Hb. unfold SetFinSequence, rx_conc. cbn -[wrap seq_eq seq_incr]. f_equal.
  unfold next_pos. cbn [fin cont]. destruct Hfin as [->| ->].
  - rewrite (close_eq (base a)), (Z.eqb_sym F) by (unfold close; lia).
    destruct (cont a =? F); [|done]. apply wrap_add_l. lia.
  - destruct (Z.eqb_spec F (cont a)) as [->|Hne];
      rewrite (close_eq (base a)) by (unfold close; lia); by rewrite (proj2 (Z.eqb_neq _ _)) by lia.
Qed.

Lemma Finished_ok stream b a : rx_inv stream b a → Finished b = bool_decide (fin a = Some (cont a)).
Proof.
  intros [W Hb]. pose proof (wf_base _ _ W) as Hb0. pose proof (wf_cont_end _ _ W) as Hce.
  rewrite Hb. unfold Finished, rx_conc. cbn [m_gotFin m_finSeq m_nextRxSeq]. unfold next_pos.
  destruct (fin a) as [F|] eqn:HF; [|done].
  destruct (wf_fin _ _ W F HF) as [HF1 _]. rewrite bool_decide_true by eauto. cbn [andb].
  rewrite (close_lt (base a)) by (unfold close; repeat case_match; lia).
  destruct (Z.eqb_spec F (cont a)) as [->|Hne].
  - rewrite bool_decide_true by done. apply Z.ltb_lt. lia.
  - rewrite bool_decide_false by congruence. apply Z.ltb_ge. lia.
Qed.

(** ** A connection *)

(** The runs of a connection whose stream starts at position [start]: the buffer, the
    segments received, the position of the FIN if received, the bytes delivered.  The
    peer sends bytes of the stream, and keeps to the window: [2^29] back and [2^30] ahead
    of what is delivered. *)
Inductive session (stream : Z → Z) (start m : Z) : t → list seg → option Z → Packet → Prop :=
  | session_new :
      session stream start m (SetNextRxSequence (u32 start) (SetMaxBufferSize m (new 0))) [] None []
  | session_add b recv F out q e r b' :
      session stream start m b recv F out →
      start + pkt_size out - 2 ^ 29 ≤ q ≤ e → e ≤ start + pkt_size out + 2 ^ 30 →
      (∀ p, F = Some p → e ≤ p) → Add (bytes stream q e) (u32 q) b = Ok (r, b') →
      session stream start m b' ((q, e) :: recv) F out
  | session_fin b recv F out p :
      session stream start m b recv F out →
      start ≤ p ≤ start + pkt_size out + 2 ^ 30 → (∀ f l, (f, l) ∈ recv → l ≤ p) →
      F = None ∨ F = Some p →
      session stream start m (SetFinSequence (u32 p) b) recv (Some p) out
  | session_extract b recv F out n o b' :
      session stream start m b recv F out → 0 ≤ n → Extract n b = Ok (o, b') →
      session stream start m b' recv F (out ++ default [] o).

Lemma session_inv stream start m b recv F out :
  0 ≤ m ≤ 2 ^ 29 → session stream start m b recv F out →
  ∃ a, rx_inv stream b a ∧ base a = start + pkt_size out ∧ fin a = F ∧
    out = bytes stream start (base a) ∧
    (∀ x, covered (segs a) x → covered recv x) ∧ (∀ x, start ≤ x < cont a → covered recv x).
Proof.
  intros Hm. induction 1 as [|b recv F out q e r b' _ (a & Hinv & Hb & HF & Hout & Hs & Hc) Hq He Hfin Hadd
    |b recv F out p _ (a & Hinv & Hb & HF & Hout & Hs & Hc) Hp Hl Hfin
    |b recv F out n o b' _ (a & Hinv & Hb & HF & Hout & Hs & Hc) Hn Hex].
  - exists (Held start start [] [] None). conj; [by apply new_ok|by rewrite Z.add_0_r|done|by rewrite bytes_nil|..].
    + by intros x ?%covered_nil.
    + cbn. lia.
  - destruct (Add_ok stream b a q e) as (r' & b2 & a' & Hadd' & Hinv' & _ & Ha); [done|unfold close; lia|lia|by rewrite HF|].
    rewrite Hadd in Hadd'. injection Hadd' as <- <-. pose proof (proj1 Hinv) as W.
    assert (∀ x, covered (segs a') x → covered ((q, e) :: recv) x) as Hs'.
    { intros x Hx. rewrite covered_cons. apply (Add_held_covered _ _ _ _ _ _ x W Ha) in Hx as [Hx|Hx]; [auto|].
      left. unfold window_end in Hx. case_match; [lia|]. case_match. lia. }
    destruct (Add_held_same _ _ _ _ _ _ _ W (proj1 Hinv') Ha) as (Hb' & HF' & _).
    exists a'. rewrite Hb', HF'. conj; try done. intros x Hx.
    destruct (Z.lt_ge_cases x (base a)).
    + rewrite covered_cons. right. apply Hc. pose proof (wf_base _ _ W). lia.
    + apply Hs', (proj1 Hinv'). lia.
  - pose proof (proj1 Hinv) as W. pose proof (wf_base _ _ W) as Hb0.
    assert (∀ x, covered recv x → x < p) as Hlt by (intros x (f & l & Hin & ?); apply Hl in Hin; lia).
    exists (Held (base a) (cont a) (segs a) (sacks a) (Some p)). conj; try done.
    apply SetFin_ok; [done| | |by rewrite HF].
    + assert (cont a ≤ p); [|lia]. destruct (Z.lt_ge_cases start (cont a)); [|lia].
      specialize (Hlt (cont a - 1) (Hc (cont a - 1) ltac:(lia))). lia.
    + intros f l Hin. pose proof (ordered_elem _ _ _ _ (wf_ordered _ _ W) Hin).
      specialize (Hlt (l - 1)). assert (covered (segs a) (l - 1)) as Hx by (exists f, l; split; [done|lia]).
      specialize (Hlt (Hs _ Hx)). lia.
  - destruct (Extract_ok stream b a n Hinv Hn) as (b2 & Hex' & Hinv' & _).
    rewrite Hex in Hex'. injection Hex' as Ho <-. pose proof (proj1 Hinv) as W.
    pose proof (wf_base _ _ W) as Hb0. set (k := Z.min n (cont a - base a)) in *.
    assert (default [] o = bytes stream (base a) (base a + k)) as ->.
    { rewrite Ho. destruct (Z.eqb_spec k 0) as [E|]; [by rewrite E, Z.add_0_r, bytes_nil|done]. }
    assert (pkt_size (out ++ bytes stream (base a) (base a + k)) = pkt_size out + k) as Hk.
    { pose proof (size_bytes stream (base a) (base a + k) ltac:(lia)) as Hsz.
      unfold pkt_size in *. rewrite length_app. lia. }
    eexists. split; [exact Hinv'|]. rewrite Hk. cbn [base cont segs fin]. conj; try done.
    + lia.
    + rewrite Hout at 1. apply bytes_app. unfold pkt_size in Hb. lia.
    + intros x Hx. apply (aextract_spec (segs a) (base a)) in Hx as [_ Hx]; [auto|apply W|lia|].
      intros y Hy. apply W. lia.
Qed.

(** C13 Whatever the order, overlaps and losses of the segments of a connection: what was
    delivered is the beginning of the peer's stream, and all of it was received; the
    acknowledgment number stands for a position up to which everything was received (one
    more when that is the FIN), [Available] counts what is not delivered yet, [Finished]
    tells whether the FIN is acknowledged; every SACK block covers received bytes only.
    And neither a further segment of the stream nor an extraction fails an assertion. *)
Theorem TcpRxBuffer_session stream start m b recv F out :
  0 ≤ m ≤ 2 ^ 29 → session stream start m b recv F out →
  out = bytes stream start (start + pkt_size out) ∧
  (∃ c, (∀ x, start ≤ x < c → covered recv x) ∧
    NextRxSequence b = u32 (if decide (F = Some c) then c + 1 else c) ∧
    Available b = c - (start + pkt_size out) ∧ 0 ≤ Available b ∧
    Finished b = bool_decide (F = Some c)) ∧
  (∀ e, e ∈ GetSackList b → ∃ f l, e = (u32 f, u32 l) ∧ f < l ∧ ∀ x, f ≤ x < l → covered recv x) ∧
  (∀ q e, start + pkt_size out - 2 ^ 29 ≤ q ≤ e → e ≤ start + pkt_size out + 2 ^ 30 →
    (∀ p, F = Some p → e ≤ p) → is_ok (Add (bytes stream q e) (u32 q) b) = true) ∧
  (∀ n, 0 ≤ n → is_ok (Extract n b) = true).
Proof.
  intros Hm Hs. destruct (session_inv _ _ _ _ _ _ _ Hm Hs) as (a & Hinv & Hb & HF & Hout & Hc & Hcont).
  pose proof (proj1 Hinv) as W. rewrite <- Hb. conj; [done| | | |].
  - exists (cont a). pose proof (proj2 Hinv) as Eb. pose proof (wf_base _ _ W).
    conj; [done| | | |by rewrite (Finished_ok stream b a Hinv), HF].
    + rewrite Eb. unfold NextRxSequence, rx_conc, next_pos. cbn [m_nextRxSeq]. rewrite HF.
      destruct F as [F|]; [|by rewrite decide_False by done].
      destruct (Z.eqb_spec F (cont a)) as [->|]; [by rewrite decide_True|by rewrite decide_False by congruence].
    + by rewrite Eb.
    + rewrite Eb. cbn. lia.
  - intros e He. rewrite (proj2 Hinv) in He. apply list_elem_of_fmap in He as ([f l] & -> & Hin).
    pose proof (wf_sacks _ _ W) as Hs'. rewrite Forall_forall in Hs'.
    destruct (Hs' _ Hin) as (? & _ & _ & Hx). exists f, l. conj; [done|cbn in *; lia|]. auto.
  - intros q e Hq He HFe. destruct (Add_ok stream b a q e) as (r & b' & a' & -> & _);
      [done|unfold close; lia|lia|by rewrite HF|done].
  - intros n Hn. by destruct (Extract_ok stream b a n Hinv Hn) as (b' & -> & _).
Qed.

(** ** The theorems on concrete input: a stream that starts just below [2^32] *)

Section example.
Let stream (x : Z) : Z := x mod 256.
Let start : Z := 2 ^ 32 - 4.
Let b0 : t := SetNextRxSequence (u32 start) (SetMaxBufferSize 100 (new 0)).

(** The segment at 8 arrives before the one at 0. *)
Let b1 : t := match Add (bytes stream (start + 8) (start + 12)) (u32 (start + 8)) b0 with Ok (_, b) => b | Err _ => b0 end.
Let b2 : t := match Add (bytes stream start (start + 10)) (u32 start) b1 with Ok (_, b) => b | Err _ => b1 end.

Lemma TcpRxBuffer_Add_correct_witness :
  Add (bytes stream (start + 8) (start + 12)) (u32 (start + 8)) b0 = Ok (true, b1) ∧
  m_sackList b1 = [(4, 8)] ∧
  ∃ r b' a', Add (bytes stream (start + 8) (start + 12)) (u32 (start + 8)) b0 = Ok (r, b') ∧
    rx_inv stream b' a' ∧ covered (segs a') (start + 8).
Proof.
  split; [vm_compute; reflexivity|]. split; [vm_compute; reflexivity|].
  destruct (TcpRxBuffer_Add_correct stream b0 (Held start start [] [] None) (start + 8) (start + 12))
    as (r & b' & a' & Hadd & Hinv & _ & _ & _ & _ & Hc & _).
  - apply new_ok. lia.
  - unfold start. cbn [base]. lia.
  - cbn [base]. unfold start. lia.
  - intros F [=].
  - exists r, b', a'. split; [exact Hadd|]. split; [exact Hinv|]. apply Hc. right.
    unfold next_pos, window_end. cbn [fin cont segs]. lia.
Defined.

Lemma TcpRxBuffer_Extract_correct_witness :
  ∃ b' a', Extract 7 b0 = Ok (None, b') ∧ rx_inv stream b' a' ∧ base a' = start.
Proof.
  destruct (TcpRxBuffer_Extract_correct stream b0 (Held start start [] [] None) 7)
    as (b' & a' & He & Hinv & _ & Hb & _).
  - apply new_ok. lia.
  - lia.
  - exists b', a'. split; [exact He|]. split; [exact Hinv|]. rewrite Hb. vm_compute. reflexivity.
Defined.

(** Two segments out of order, then an extraction across the wrap-around. *)
Lemma TcpRxBuffer_session_witness :
  session stream start 100 b2 [(start, start + 10); (start + 8, start + 12)] None [] ∧
  Available b2 = 12 ∧ m_sackList b2 = [] ∧ is_ok (Extract 7 b2) = true.
Proof.
  assert (session stream start 100 b2 [(start, start + 10); (start + 8, start + 12)] None []) as Hs.
  { apply (session_add stream start 100 b1 [(start + 8, start + 12)] None [] start (start + 10) true b2).
    - apply (session_add stream start 100 b0 [] None [] (start + 8) (start + 12) true b1).
      + apply session_new.
      + unfold start, pkt_size. cbn [length]. lia.
      + unfold start, pkt_size. cbn [length]. lia.
      + intros p [=].
      + vm_compute. reflexivity.
    - unfold start, pkt_size. cbn [length]. lia.
    - unfold start, pkt_size. cbn [length]. lia.
    - intros p [=].
    - vm_compute. reflexivity. }
  split; [exact Hs|]. split; [vm_compute; reflexivity|]. split; [vm_compute; reflexivity|].
  destruct (TcpRxBuffer_session stream start 100 b2 _ None [] ltac:(lia) Hs) as (_ & _ & _ & _ & Hex).
  apply Hex. lia.
Defined.
End example.
