(* ===== verification/PacketQueue.v ===== *)
(** * Packet queues
      (src/src/network/utils/queue-size.cc, queue.cc, queue.h, drop-tail-queue.h)

    [QueueBase], the template [Queue<Item>] over [std::list] and [DropTailQueue<Item>].  The
    traces an operation fires are part of its result, in order: queue discs connect their
    statistics to them. *)

From S2P Require Import Prelude.
Local Open Scope Z_scope.

(** [queue-size.h:43-47] QueueSizeUnit *)
Inductive QueueSizeUnit := PACKETS | BYTES.

#[export] Instance QueueSizeUnit_eq_dec : EqDecision QueueSizeUnit.
Proof. solve_decision. Defined.

(** [queue-size.h:199-200] QueueSize *)
Record QueueSize := mkQueueSize {
  m_unit : QueueSizeUnit;
  m_value : Z
}.

(** [queue-size.cc:127-133] QueueSize::operator< *)
Definition size_lt (a b : QueueSize) : res bool :=
  ns_abort_unless (bool_decide (m_unit a = m_unit b)) ≫= λ _, Ok (m_value a <? m_value b).

(** [queue-size.cc:143-149] QueueSize::operator> *)
Definition size_gt (a b : QueueSize) : res bool :=
  ns_abort_unless (bool_decide (m_unit a = m_unit b)) ≫= λ _, Ok (m_value b <? m_value a).

(** [queue-size.cc:159-165] QueueSize::operator== *)
Definition size_eq (a b : QueueSize) : res bool :=
  ns_abort_unless (bool_decide (m_unit a = m_unit b)) ≫= λ _, Ok (m_value a =? m_value b).

(** The trace sources of a queue: [m_traceDrop] is fired before each of the last two. *)
Inductive trace (Item : Type) :=
  | TEnqueue (i : Item)
  | TDequeue (i : Item)
  | TDropBeforeEnqueue (i : Item)
  | TDropAfterDequeue (i : Item).
Arguments TEnqueue {Item}. Arguments TDequeue {Item}.
Arguments TDropBeforeEnqueue {Item}. Arguments TDropAfterDequeue {Item}.

Section queue.
Context {Item : Type} (GetSize : Item → Z).

(** [queue-size.h:269-282] operator+ *)
Definition size_add (lhs : QueueSize) (rhs : Item) : QueueSize :=
  match m_unit lhs with
  | PACKETS => mkQueueSize PACKETS (u32 (m_value lhs + 1))
  | BYTES => mkQueueSize BYTES (u32 (m_value lhs + GetSize rhs))
  end.

(** [queue.h:217-228] QueueBase

    With the container [m_packets] of [Queue<Item>]. *)
Record Queue := mkQueue {
  m_nBytes : Z;
  m_nTotalReceivedBytes : Z;
  m_nPackets : Z;
  m_nTotalReceivedPackets : Z;
  m_nTotalDroppedBytes : Z;
  m_nTotalDroppedBytesBeforeEnqueue : Z;
  m_nTotalDroppedBytesAfterDequeue : Z;
  m_nTotalDroppedPackets : Z;
  m_nTotalDroppedPacketsBeforeEnqueue : Z;
  m_nTotalDroppedPacketsAfterDequeue : Z;
  m_maxSize : QueueSize;
  m_packets : list Item
}.

(** [queue.cc:51-65] QueueBase::QueueBase *)
Definition Queue_new : Queue := mkQueue 0 0 0 0 0 0 0 0 0 0 (mkQueueSize PACKETS UINT32_MAX) [].

(** [queue.cc] QueueBase::IsEmpty *)
Definition IsEmpty (q : Queue) : bool := m_nPackets q =? 0.

(** [queue.cc] QueueBase::GetNPackets *)
Definition GetNPackets (q : Queue) : Z := m_nPackets q.

(** [queue.cc] QueueBase::GetNBytes *)
Definition GetNBytes (q : Queue) : Z := m_nBytes q.

(** [queue.cc] QueueBase::GetCurrentSize *)
Definition GetCurrentSize (q : Queue) : QueueSize :=
  match m_unit (m_maxSize q) with
  | PACKETS => mkQueueSize PACKETS (m_nPackets q)
  | BYTES => mkQueueSize BYTES (m_nBytes q)
  end.

(** [queue.cc] QueueBase::ResetStatistics *)
Definition ResetStatistics (q : Queue) : Queue :=
  mkQueue (m_nBytes q) 0 (m_nPackets q) 0 0 0 0 0 0 0 (m_maxSize q) (m_packets q).

(** [queue.cc] QueueBase::SetMaxSize *)
Definition SetMaxSize (size : QueueSize) (q : Queue) : res Queue :=
  if m_value size =? 0 then Ok q
  else
    let q := mkQueue (m_nBytes q) (m_nTotalReceivedBytes q) (m_nPackets q) (m_nTotalReceivedPackets q)
               (m_nTotalDroppedBytes q) (m_nTotalDroppedBytesBeforeEnqueue q)
               (m_nTotalDroppedBytesAfterDequeue q) (m_nTotalDroppedPackets q)
               (m_nTotalDroppedPacketsBeforeEnqueue q) (m_nTotalDroppedPacketsAfterDequeue q)
               size (m_packets q) in
    lt ← size_lt size (GetCurrentSize q);
    ns_abort_unless (negb lt) ≫= λ _, Ok q.

(** [queue.cc] QueueBase::GetMaxSize *)
Definition GetMaxSize (q : Queue) : QueueSize := m_maxSize q.

(** [queue.cc] QueueBase::WouldOverflow *)
Definition WouldOverflow (nPackets nBytes : Z) (q : Queue) : bool :=
  match m_unit (m_maxSize q) with
  | PACKETS => m_value (m_maxSize q) <? u32 (m_nPackets q + nPackets)
  | BYTES => m_value (m_maxSize q) <? u32 (m_nBytes q + nBytes)
  end.

(** [queue.h:640-654] Queue::DropBeforeEnqueue *)
Definition DropBeforeEnqueue (item : Item) (q : Queue) : list (trace Item) * Queue :=
  ([TDropBeforeEnqueue item],
   mkQueue (m_nBytes q) (m_nTotalReceivedBytes q) (m_nPackets q) (m_nTotalReceivedPackets q)
     (u32 (m_nTotalDroppedBytes q + GetSize item))
     (u32 (m_nTotalDroppedBytesBeforeEnqueue q + GetSize item))
     (m_nTotalDroppedBytesAfterDequeue q)
     (u32 (m_nTotalDroppedPackets q + 1)) (u32 (m_nTotalDroppedPacketsBeforeEnqueue q + 1))
     (m_nTotalDroppedPacketsAfterDequeue q) (m_maxSize q) (m_packets q)).

(** [queue.h:656-670] Queue::DropAfterDequeue *)
Definition DropAfterDequeue (item : Item) (q : Queue) : list (trace Item) * Queue :=
  ([TDropAfterDequeue item],
   mkQueue (m_nBytes q) (m_nTotalReceivedBytes q) (m_nPackets q) (m_nTotalReceivedPackets q)
     (u32 (m_nTotalDroppedBytes q + GetSize item)) (m_nTotalDroppedBytesBeforeEnqueue q)
     (u32 (m_nTotalDroppedBytesAfterDequeue q + GetSize item))
     (u32 (m_nTotalDroppedPackets q + 1)) (m_nTotalDroppedPacketsBeforeEnqueue q)
     (u32 (m_nTotalDroppedPacketsAfterDequeue q + 1)) (m_maxSize q) (m_packets q)).

(** [queue.h:516-542] Queue::DoEnqueue

    [pos] is the position in the list before which the item goes. *)
Definition DoEnqueue (pos : nat) (item : Item) (q : Queue) : res (bool * list (trace Item) * Queue) :=
  full ← size_gt (size_add (GetCurrentSize q) item) (GetMaxSize q);
  if (full : bool) then let '(tr, q) := DropBeforeEnqueue item q in Ok (false, tr, q)
  else
    let size := GetSize item in
    Ok (true, [TEnqueue item],
        mkQueue (u32 (m_nBytes q + size)) (u32 (m_nTotalReceivedBytes q + size))
          (u32 (m_nPackets q + 1)) (u32 (m_nTotalReceivedPackets q + 1)) (m_nTotalDroppedBytes q)
          (m_nTotalDroppedBytesBeforeEnqueue q) (m_nTotalDroppedBytesAfterDequeue q)
          (m_nTotalDroppedPackets q) (m_nTotalDroppedPacketsBeforeEnqueue q)
          (m_nTotalDroppedPacketsAfterDequeue q) (m_maxSize q)
          (take pos (m_packets q) ++ item :: drop pos (m_packets q))).

(** [queue.h:544-571] Queue::DoDequeue *)
Definition DoDequeue (pos : nat) (q : Queue) : res (option Item * list (trace Item) * Queue) :=
  if m_nPackets q =? 0 then Ok (None, [], q)
  else
    item ← deref (m_packets q !! pos);
    ns_assert (GetSize item <=? m_nBytes q) ≫= λ _,
    ns_assert (0 <? m_nPackets q) ≫= λ _,
    Ok (Some item, [TDequeue item],
        mkQueue (u32 (m_nBytes q - GetSize item)) (m_nTotalReceivedBytes q) (u32 (m_nPackets q - 1))
          (m_nTotalReceivedPackets q) (m_nTotalDroppedBytes q)
          (m_nTotalDroppedBytesBeforeEnqueue q) (m_nTotalDroppedBytesAfterDequeue q)
          (m_nTotalDroppedPackets q) (m_nTotalDroppedPacketsBeforeEnqueue q)
          (m_nTotalDroppedPacketsAfterDequeue q) (m_maxSize q) (delete pos (m_packets q))).

(** [queue.h:573-603] Queue::DoRemove *)
Definition DoRemove (pos : nat) (q : Queue) : res (option Item * list (trace Item) * Queue) :=
  '(item, tr, q) ← DoDequeue pos q;
  match item with
  | Some i => let '(tr', q) := DropAfterDequeue i q in Ok (item, tr ++ tr', q)
  | None => Ok (None, tr, q)
  end.

(** [queue.h:625-638] Queue::DoPeek *)
Definition DoPeek (pos : nat) (q : Queue) : res (option Item) :=
  if m_nPackets q =? 0 then Ok None else item ← deref (m_packets q !! pos); Ok (Some item).

(** ** DropTailQueue *)

(** [drop-tail-queue.h:99-106] DropTailQueue::Enqueue *)
Definition Enqueue (item : Item) (q : Queue) : res (bool * list (trace Item) * Queue) :=
  DoEnqueue (length (m_packets q)) item q.

(** [drop-tail-queue.h:108-119] DropTailQueue::Dequeue *)
Definition Dequeue (q : Queue) : res (option Item * list (trace Item) * Queue) := DoDequeue 0 q.

(** [drop-tail-queue.h:121-132] DropTailQueue::Remove *)
Definition Remove (q : Queue) : res (option Item * list (trace Item) * Queue) := DoRemove 0 q.

(** [drop-tail-queue.h:134-141] DropTailQueue::Peek *)
Definition Peek (q : Queue) : res (option Item) := DoPeek 0 q.

(** [queue.h:609-613] Queue::Flush

    One iteration more than there are items. *)
Fixpoint Flush_loop (fuel : nat) (q : Queue) : res (list (trace Item) * Queue) :=
  match fuel with
  | O => Err OutOfFuel
  | S fuel =>
      if IsEmpty q then Ok ([], q)
      else
        '(_, tr, q) ← Remove q;
        '(tr', q) ← Flush_loop fuel q;
        Ok (tr ++ tr', q)
  end.

(** [queue.h:605-614] Queue::Flush *)
Definition Flush (q : Queue) : res (list (trace Item) * Queue) :=
  Flush_loop (S (length (m_packets q))) q.
End queue.

(** ** Correctness *)

Section correctness.
Context {Item : Type} (GetSize : Item → Z).

Definition bytes_of (l : list Item) : Z := foldr (λ i n, GetSize i + n) 0 l.

Lemma bytes_of_app l k : bytes_of (l ++ k) = bytes_of l + bytes_of k.
Proof. induction l as [|i l IH]; cbn; [done|]. fold (bytes_of (l ++ k)) (bytes_of l). lia. Qed.

(** What a queue may hold. *)
Definition fits_queue (max : QueueSize) (l : list Item) : Prop :=
  match m_unit max with
  | PACKETS => Z.of_nat (length l) ≤ m_value max
  | BYTES => bytes_of l ≤ m_value max
  end.

#[export] Instance fits_queue_dec max l : Decision (fits_queue max l).
Proof. unfold fits_queue. destruct (m_unit max); apply _. Defined.

(** Sizes of items from 1 to [M], and a limit with which no counter of the content wraps. *)
Definition size_ok (M : Z) (i : Item) : Prop := 1 ≤ GetSize i ≤ M.

Definition limit_ok (M : Z) (max : QueueSize) : Prop :=
  0 ≤ m_value max ∧ 1 ≤ M ∧
  match m_unit max with PACKETS => (m_value max + 1) * M | BYTES => m_value max + M end < 2 ^ 32.

Record queue_inv (M : Z) (q : Queue (Item := Item)) : Prop := {
  qi_packets : m_nPackets q = Z.of_nat (length (m_packets q));
  qi_bytes : m_nBytes q = bytes_of (m_packets q);
  qi_max : fits_queue (m_maxSize q) (m_packets q);
  qi_sizes : Forall (size_ok M) (m_packets q);
  qi_limit : limit_ok M (m_maxSize q)
}.

(** The operations of a session, and the answers of a bounded first-in first-out queue. *)
Inductive queue_op := OpEnqueue (i : Item) | OpDequeue | OpRemove | OpPeek.

Definition fifo_step (max : QueueSize) (op : queue_op) (l : list Item) : (bool * option Item) * list Item :=
  match op with
  | OpEnqueue i => if decide (fits_queue max (l ++ [i])) then ((true, None), l ++ [i]) else ((false, None), l)
  | OpDequeue | OpRemove => ((true, head l), tail l)
  | OpPeek => ((true, head l), l)
  end.

Definition queue_step (op : queue_op) (q : Queue) : res ((bool * option Item) * Queue) :=
  match op with
  | OpEnqueue i => '(b, _, q) ← Enqueue GetSize i q; Ok ((b, None), q)
  | OpDequeue => '(r, _, q) ← Dequeue GetSize q; Ok ((true, r), q)
  | OpRemove => '(r, _, q) ← Remove GetSize q; Ok ((true, r), q)
  | OpPeek => r ← Peek q; Ok ((true, r), q)
  end.

Fixpoint fifo_run (max : QueueSize) (ops : list queue_op) (l : list Item) : list (bool * option Item) * list Item :=
  match ops with
  | [] => ([], l)
  | op :: ops => let '(a, l) := fifo_step max op l in let '(r, l) := fifo_run max ops l in (a :: r, l)
  end.

Fixpoint queue_run (ops : list queue_op) (q : Queue) : res (list (bool * option Item) * Queue) :=
  match ops with
  | [] => Ok ([], q)
  | op :: ops => '(a, q) ← queue_step op q; '(r, q) ← queue_run ops q; Ok (a :: r, q)
  end.

Definition op_ok (M : Z) (op : queue_op) : Prop :=
  match op with OpEnqueue i => size_ok M i | _ => True end.

Lemma bytes_bounds M l :
  Forall (size_ok M) l → Z.of_nat (length l) ≤ bytes_of l ≤ Z.of_nat (length l) * M.
Proof. induction 1 as [|i l Hi Hl IH]; cbn [length bytes_of foldr]; [lia|]. fold (bytes_of l). unfold size_ok in Hi. nia. Qed.

(** No counter wraps, also not with one more item. *)
Lemma no_wrap M max l :
  limit_ok M max → fits_queue max l → Forall (size_ok M) l →
  0 ≤ bytes_of l ∧ bytes_of l + M < 2 ^ 32 ∧ Z.of_nat (length l) + 1 < 2 ^ 32.
Proof.
  intros (Hmax & HM & Hlim) Hfit Hsz. pose proof (bytes_bounds M l Hsz).
  unfold fits_queue in Hfit. destruct (m_unit max); nia.
Qed.

Lemma fits_queue_tail max i l : 0 ≤ GetSize i → fits_queue max (i :: l) → fits_queue max l.
Proof. unfold fits_queue. destruct (m_unit max); cbn; [lia|]. fold (bytes_of l). lia. Qed.

Lemma enqueue_full M q i :
  queue_inv M q → size_ok M i →
  size_gt (size_add GetSize (GetCurrentSize q) i) (GetMaxSize q) =
  Ok (negb (bool_decide (fits_queue (m_maxSize q) (m_packets q ++ [i])))).
Proof.
  intros [Hp Hb Hm Hs Hl] Hi. pose proof (no_wrap _ _ _ Hl Hm Hs) as (? & ? & ?). unfold size_ok in Hi.
  assert (fits_queue (m_maxSize q) (m_packets q ++ [i]) ↔
          (match m_unit (m_maxSize q) with PACKETS => m_nPackets q + 1 | BYTES => m_nBytes q + GetSize i end)
            ≤ m_value (m_maxSize q)) as Hfit.
  { unfold fits_queue. rewrite length_app, bytes_of_app, Hp, Hb. cbn. destruct (m_unit (m_maxSize q)); lia. }
  rewrite (bool_decide_ext _ _ Hfit). clear Hfit. unfold GetMaxSize, GetCurrentSize, size_gt, size_add.
  destruct (m_maxSize q) as [[] v] eqn:E; cbn [m_unit m_value]; rewrite bool_decide_true by done; res_simpl;
    cbn [ns_abort_unless mbind res_bind]; rewrite ?Hp, ?Hb; rewrite wrap_id by (unfold fits; lia); f_equal;
    match goal with |- (?a <? ?b) = _ => destruct (Z.ltb_spec a b) end; case_bool_decide; cbn; lia || done.
Qed.

Lemma DoDequeue_head M q :
  queue_inv M q →
  ∃ tr q', Dequeue GetSize q = Ok (head (m_packets q), tr, q') ∧ queue_inv M q' ∧
    m_packets q' = tail (m_packets q) ∧ m_maxSize q' = m_maxSize q.
Proof.
  intros [Hp Hb Hm Hs Hl]. pose proof (no_wrap _ _ _ Hl Hm Hs) as (? & ? & ?). unfold Dequeue, DoDequeue. rewrite Hp.
  destruct (m_packets q) as [|i l] eqn:E; cbn [length]. { rewrite Z.eqb_refl. eexists _, q. split; [done|]. rewrite E. split; [|done].
    by constructor; rewrite ?E. }
  rewrite (proj2 (Z.eqb_neq _ 0)) by lia. cbn [lookup list_lookup deref mbind res_bind].
  inversion Hs as [|? ? Hi Hs']; subst. pose proof (bytes_bounds M l Hs'). unfold size_ok in Hi.
  rewrite Hb. cbn [bytes_of foldr] in *. fold (bytes_of l) in *.
  rewrite (proj2 (Z.leb_le (GetSize i) (GetSize i + bytes_of l))), (proj2 (Z.ltb_lt 0 (Z.of_nat (S (length l))))) by lia.
  cbn [ns_assert mbind res_bind]. eexists _, _. split; [done|]. split; [|done].
  constructor; cbn -[wrap]; rewrite ?wrap_id by (unfold fits; lia); try done; try lia.
  - fold (bytes_of l). lia.
  - eapply fits_queue_tail; [|done]. lia.
Qed.

Lemma queue_step_ok M op q :
  queue_inv M q → op_ok M op →
  ∃ q', queue_step op q = Ok ((fifo_step (m_maxSize q) op (m_packets q)).1, q') ∧ queue_inv M q' ∧
    m_packets q' = (fifo_step (m_maxSize q) op (m_packets q)).2 ∧ m_maxSize q' = m_maxSize q.
Proof.
  intros W Hop. pose proof W as [Hp Hb Hm Hs Hl]. pose proof (no_wrap _ _ _ Hl Hm Hs) as (? & ? & ?).
  destruct op as [i| | |]; cbn [queue_step fifo_step].
  - unfold Enqueue, DoEnqueue. rewrite (enqueue_full M) by done. res_simpl. cbn in Hop. unfold size_ok in Hop.
    case_decide; [rewrite bool_decide_true by done|rewrite bool_decide_false by done]; cbn [negb]; res_simpl.
    + eexists. split; [done|]. rewrite take_ge, drop_ge by done. split; [|done].
      constructor; cbn -[wrap]; rewrite ?wrap_id by (unfold fits; lia); try done.
      * rewrite length_app. cbn. lia.
      * rewrite bytes_of_app. cbn. lia.
      * apply Forall_app. split; [done|]. by constructor.
    + eexists. split; [done|]. split; [|done]. by constructor.
  - destruct (DoDequeue_head M q W) as (tr & q' & -> & ?). res_simpl. eauto.
  - unfold Remove, DoRemove. fold (Dequeue GetSize q).
    destruct (DoDequeue_head M q W) as (tr & q' & -> & W' & ? & ?). res_simpl.
    destruct (head (m_packets q)); cbn -[wrap]; eexists; (split; [done|]); [|done].
    split; [|done]. destruct W'. by constructor.
  - unfold Peek, DoPeek. rewrite Hp. destruct (m_packets q) as [|i l] eqn:E; cbn [length].
    + rewrite Z.eqb_refl. res_simpl. exists q. by rewrite E.
    + rewrite (proj2 (Z.eqb_neq _ 0)) by lia. cbn. exists q. by rewrite E.
Qed.

Lemma queue_run_ok M ops q :
  queue_inv M q → Forall (op_ok M) ops →
  ∃ q', queue_run ops q = Ok ((fifo_run (m_maxSize q) ops (m_packets q)).1, q') ∧ queue_inv M q' ∧
    m_packets q' = (fifo_run (m_maxSize q) ops (m_packets q)).2 ∧ m_maxSize q' = m_maxSize q.
Proof.
  intros W Hops. revert q W. induction Hops as [|op ops Hop Hops IH]; intros q W; cbn [queue_run fifo_run]; [by eauto|].
  destruct (queue_step_ok M op q W Hop) as (q1 & -> & W1 & Hl1 & Hm1). res_simpl.
  destruct (IH q1 W1) as (q' & -> & W' & Hl & Hm). res_simpl. rewrite Hm1 in *.
  destruct (fifo_step _ _ _) as [a l]. cbn in Hl1. subst l.
  destruct (fifo_run _ _ _) as [r l]. cbn in *. eauto.
Qed.
End correctness.

(** C36 A [DropTailQueue] is a bounded first-in first-out queue: for items of size 1 to [M]
    and a limit below 2^32 every session of operations ends without a failed assertion and
    answers as the list does; the content never exceeds the limit, and the packet and byte
    counts are those of the content. *)
Theorem DropTailQueue_refines_fifo {Item} (GetSize : Item → Z) M max ops :
  limit_ok M max → 0 < m_value max → Forall (op_ok GetSize M) ops →
  ∃ q q', SetMaxSize max Queue_new = Ok q ∧
    queue_run GetSize ops q = Ok ((fifo_run GetSize max ops []).1, q') ∧
    m_packets q' = (fifo_run GetSize max ops []).2 ∧
    fits_queue GetSize max (m_packets q') ∧
    GetNPackets q' = Z.of_nat (length (m_packets q')) ∧ GetNBytes q' = bytes_of GetSize (m_packets q').
Proof.
  intros Hlim Hpos Hops. set (q := mkQueue 0 0 0 0 0 0 0 0 0 0 max ([] : list Item)). exists q.
  destruct (queue_run_ok GetSize M ops q) as (q' & Hr & [] & Hl & Hm); [|done|].
  { constructor; try done; cbn. unfold fits_queue. destruct (m_unit max); cbn; lia. }
  exists q'. cbn [m_maxSize m_packets q] in *. conj; try done; [|by rewrite <- Hm].
  unfold SetMaxSize. rewrite (proj2 (Z.eqb_neq _ 0)) by lia. unfold size_lt, GetCurrentSize.
  destruct (m_unit max) eqn:E; cbn [m_maxSize m_unit]; rewrite E, bool_decide_true by done;
    cbn -[Z.ltb]; rewrite (proj2 (Z.ltb_ge _ 0)) by lia; done.
Qed.

Lemma DropTailQueue_refines_fifo_witness :
  ∃ q q', SetMaxSize (mkQueueSize PACKETS 1) Queue_new = Ok q ∧
    queue_run (λ i : Z, i) [OpEnqueue 10; OpEnqueue 20; OpPeek; OpDequeue; OpRemove] q =
      Ok ([(true, None); (false, None); (true, Some 10); (true, Some 10); (true, None)], q').
Proof.
  destruct (DropTailQueue_refines_fifo (λ i : Z, i) 1500 (mkQueueSize PACKETS 1)
    [OpEnqueue 10; OpEnqueue 20; OpPeek; OpDequeue; OpRemove]) as (q & q' & Hq & Hr & _).
  - by vm_compute.
  - by vm_compute.
  - repeat constructor; cbn; lia.
  - exists q, q'. split; [exact Hq|exact Hr].
Defined.
