(* ===== verification/QueueDisc.v ===== *)
(** * Queue discs
      (src/src/traffic-control/model/queue-disc.cc)

    What every queue disc inherits: the statistics, the enqueue, dequeue and peek wrappers
    around the virtual methods, and the run loop that hands packets to the device.  The
    virtual methods and the device are interfaces. *)

From stdpp Require Import strings.
From S2P Require Import Prelude.
From S2P Require PacketQueue.
Local Open Scope Z_scope.

(** What the queue discs use of a [QueueDiscItem]: its address, the size of the packet with
    its header, the time stamp, the transmission queue of the device it is for, and the
    value of its [SocketPriorityTag], if it has one. *)
Record Item := mkItem {
  it_ptr : Z;
  it_size : Z;
  it_timeStamp : Z;
  it_txq : Z;
  it_priority : option Z
}.

(** The time of the simulator, and the clock of the device. *)
Record Clock := mkClock {
  c_sim : Z;
  c_dev : Z
}.

(** A number of packets with their bytes. *)
Record Count := mkCount {
  packets : Z;
  bytes : Z
}.

(** One more packet: the packet counters have 32 bits, the byte counters 64. *)
Definition count (i : Item) (c : Count) : Count :=
  mkCount (u32 (packets c + 1)) (u64 (bytes c + it_size i)).

(** The byte counter of the marked packets has 32 bits. *)
Definition count32 (i : Item) (c : Count) : Count :=
  mkCount (u32 (packets c + 1)) (u32 (bytes c + it_size i)).

(** [queue-disc.h:187-236] QueueDisc::Stats

    A packet counter and its byte counter, and the maps of both by reason, are one field. *)
Record Stats := mkStats {
  nTotalReceived : Count;
  nTotalSent : Count;
  nTotalEnqueued : Count;
  nTotalDequeued : Count;
  nTotalDropped : Count;
  nTotalDroppedBeforeEnqueue : Count;
  nDroppedBeforeEnqueue : gmap string Count;
  nTotalDroppedAfterDequeue : Count;
  nDroppedAfterDequeue : gmap string Count;
  nTotalRequeued : Count;
  nTotalMarked : Count;
  nMarked : gmap string Count
}.

(** [queue-disc.cc:88-108] QueueDisc::Stats::Stats *)
Definition Stats_new : Stats :=
  let z := mkCount 0 0 in mkStats z z z z z z ∅ z ∅ z z ∅.

(** [map.find(reason)], then [it->second++], or a new entry. *)
Definition count_reason (i : Item) (reason : string) (m : gmap string Count) : gmap string Count :=
  <[reason := match m !! reason with Some c => count i c | None => mkCount 1 (it_size i) end]> m.

(** [queue-disc.cc:110-129] QueueDisc::Stats::GetNDroppedPackets *)
Definition GetNDroppedPackets (reason : string) (st : Stats) : Z :=
  u32 ((match nDroppedBeforeEnqueue st !! reason with Some c => packets c | None => 0 end) +
       (match nDroppedAfterDequeue st !! reason with Some c => packets c | None => 0 end)).

(** [queue-disc.cc:131-150] QueueDisc::Stats::GetNDroppedBytes *)
Definition GetNDroppedBytes (reason : string) (st : Stats) : Z :=
  u64 ((match nDroppedBeforeEnqueue st !! reason with Some c => bytes c | None => 0 end) +
       (match nDroppedAfterDequeue st !! reason with Some c => bytes c | None => 0 end)).

(** [queue-disc.cc:152-163] QueueDisc::Stats::GetNMarkedPackets *)
Definition GetNMarkedPackets (reason : string) (st : Stats) : Z :=
  match nMarked st !! reason with Some c => packets c | None => 0 end.

(** [queue-disc.cc:165-176] QueueDisc::Stats::GetNMarkedBytes *)
Definition GetNMarkedBytes (reason : string) (st : Stats) : Z :=
  match nMarked st !! reason with Some c => bytes c | None => 0 end.

(** [queue-disc.h:694-705] QueueDisc

    Without the callbacks and the queues, classes and filters, which are fields of the
    queue discs themselves. *)
Record base := mkBase {
  m_nPackets : Z;
  m_nBytes : Z;
  m_maxSize : PacketQueue.QueueSize;
  m_stats : Stats;
  m_quota : Z;
  m_running : bool;
  m_requeued : option Item;
  m_peeked : bool
}.

(** [queue-disc.cc:321-330] QueueDisc::QueueDisc

    With the attributes of the maximal size and of the quota. *)
Definition base_new (maxSize : PacketQueue.QueueSize) (quota : Z) : base :=
  mkBase 0 0 maxSize Stats_new quota false None false.

Definition set_stats (st : Stats) (b : base) : base :=
  mkBase (m_nPackets b) (m_nBytes b) (m_maxSize b) st (m_quota b) (m_running b) (m_requeued b) (m_peeked b).
Definition set_requeued (r : option Item) (p : bool) (b : base) : base :=
  mkBase (m_nPackets b) (m_nBytes b) (m_maxSize b) (m_stats b) (m_quota b) (m_running b) r p.
Definition set_running (r : bool) (b : base) : base :=
  mkBase (m_nPackets b) (m_nBytes b) (m_maxSize b) (m_stats b) (m_quota b) r (m_requeued b) (m_peeked b).

(** The trace sources of a queue disc; [m_traceDrop] is fired with each of the last two. *)
Inductive trace :=
  | QEnqueue (i : Item)
  | QDequeue (i : Item)
  | QDropBeforeEnqueue (i : Item) (reason : string)
  | QDropAfterDequeue (i : Item) (reason : string).

(** [queue-disc.cc] QueueDisc::PacketEnqueued *)
Definition PacketEnqueued (i : Item) (b : base) : list trace * base :=
  let st := m_stats b in
  ([QEnqueue i],
   mkBase (u32 (m_nPackets b + 1)) (u32 (m_nBytes b + it_size i)) (m_maxSize b)
     (mkStats (nTotalReceived st) (nTotalSent st) (count i (nTotalEnqueued st)) (nTotalDequeued st)
        (nTotalDropped st) (nTotalDroppedBeforeEnqueue st) (nDroppedBeforeEnqueue st)
        (nTotalDroppedAfterDequeue st) (nDroppedAfterDequeue st) (nTotalRequeued st) (nTotalMarked st) (nMarked st))
     (m_quota b) (m_running b) (m_requeued b) (m_peeked b)).

(** [queue-disc.cc] QueueDisc::PacketDequeued *)
Definition PacketDequeued (i : Item) (b : base) : list trace * base :=
  if m_peeked b then ([], b)
  else
    let st := m_stats b in
    ([QDequeue i],
     mkBase (u32 (m_nPackets b - 1)) (u32 (m_nBytes b - it_size i)) (m_maxSize b)
       (mkStats (nTotalReceived st) (nTotalSent st) (nTotalEnqueued st) (count i (nTotalDequeued st))
          (nTotalDropped st) (nTotalDroppedBeforeEnqueue st) (nDroppedBeforeEnqueue st)
          (nTotalDroppedAfterDequeue st) (nDroppedAfterDequeue st) (nTotalRequeued st) (nTotalMarked st) (nMarked st))
       (m_quota b) (m_running b) (m_requeued b) (m_peeked b)).

(** [queue-disc.cc] QueueDisc::DropBeforeEnqueue *)
Definition DropBeforeEnqueue (i : Item) (reason : string) (b : base) : list trace * base :=
  let st := m_stats b in
  ([QDropBeforeEnqueue i reason],
   set_stats (mkStats (nTotalReceived st) (nTotalSent st) (nTotalEnqueued st) (nTotalDequeued st)
       (count i (nTotalDropped st)) (count i (nTotalDroppedBeforeEnqueue st))
       (count_reason i reason (nDroppedBeforeEnqueue st))
       (nTotalDroppedAfterDequeue st) (nDroppedAfterDequeue st) (nTotalRequeued st) (nTotalMarked st) (nMarked st)) b).

(** [queue-disc.cc] QueueDisc::DropAfterDequeue *)
Definition DropAfterDequeue (i : Item) (reason : string) (b : base) : list trace * base :=
  let st := m_stats b in
  let b := set_stats (mkStats (nTotalReceived st) (nTotalSent st) (nTotalEnqueued st) (nTotalDequeued st)
       (count i (nTotalDropped st)) (nTotalDroppedBeforeEnqueue st) (nDroppedBeforeEnqueue st)
       (count i (nTotalDroppedAfterDequeue st)) (count_reason i reason (nDroppedAfterDequeue st))
       (nTotalRequeued st) (nTotalMarked st) (nMarked st)) b in
  let '(tr, b) := (if m_peeked b then
                     let '(tr, b) := PacketDequeued i (set_requeued (m_requeued b) false b) in
                     (tr, set_requeued (m_requeued b) true b)
                   else ([], b)) in
  (tr ++ [QDropAfterDequeue i reason], b).

(** [queue-disc.cc] QueueDisc::Mark

    [marked] is what [item->Mark()] returned. *)
Definition Mark (marked : bool) (i : Item) (reason : string) (b : base) : bool * base :=
  if negb marked then (false, b)
  else
    let st := m_stats b in
    (true,
     set_stats (mkStats (nTotalReceived st) (nTotalSent st) (nTotalEnqueued st) (nTotalDequeued st)
       (nTotalDropped st) (nTotalDroppedBeforeEnqueue st) (nDroppedBeforeEnqueue st)
       (nTotalDroppedAfterDequeue st) (nDroppedAfterDequeue st) (nTotalRequeued st)
       (count32 i (nTotalMarked st)) (count_reason i reason (nMarked st))) b).

Definition INTERNAL_QUEUE_DROP : string := "Dropped by internal queue".
Definition CHILD_QUEUE_DISC_DROP : string := "(Dropped by child queue disc) ".

(** [queue-disc.cc:576-592] QueueDisc::AddInternalQueue

    What the callbacks it connects do when a trace source of an internal queue fires. *)
Definition on_internal (t : PacketQueue.trace Item) (b : base) : list trace * base :=
  match t with
  | PacketQueue.TEnqueue i => PacketEnqueued i b
  | PacketQueue.TDequeue i => PacketDequeued i b
  | PacketQueue.TDropBeforeEnqueue i => DropBeforeEnqueue i INTERNAL_QUEUE_DROP b
  | PacketQueue.TDropAfterDequeue i => DropAfterDequeue i INTERNAL_QUEUE_DROP b
  end.

(** [queue-disc.cc:627-655] QueueDisc::AddQueueDiscClass

    The same for a child queue disc. *)
Definition on_child (t : trace) (b : base) : list trace * base :=
  match t with
  | QEnqueue i => PacketEnqueued i b
  | QDequeue i => PacketDequeued i b
  | QDropBeforeEnqueue i r => DropBeforeEnqueue i (CHILD_QUEUE_DISC_DROP +:+ r) b
  | QDropAfterDequeue i r => DropAfterDequeue i (CHILD_QUEUE_DISC_DROP +:+ r) b
  end.

(** The traces of an operation, one after the other. *)
Fixpoint notify {T} (on : T → base → list trace * base) (l : list T) (b : base) : list trace * base :=
  match l with
  | [] => ([], b)
  | t :: l => let '(tr, b) := on t b in let '(tr', b) := notify on l b in (tr ++ tr', b)
  end.

(** [queue-disc.cc:415-433] QueueDisc::GetStats *)
Definition GetStats (b : base) : res base :=
  let st := m_stats b in
  ns_assert (packets (nTotalDropped st) =?
    u32 (packets (nTotalDroppedBeforeEnqueue st) + packets (nTotalDroppedAfterDequeue st))) ≫= λ _,
  ns_assert (bytes (nTotalDropped st) =?
    u64 (bytes (nTotalDroppedBeforeEnqueue st) + bytes (nTotalDroppedAfterDequeue st))) ≫= λ _,
  let sent := mkCount
    (u32 (packets (nTotalDequeued st) - (match m_requeued b with Some _ => 1 | None => 0 end) -
          packets (nTotalDroppedAfterDequeue st)))
    (u64 (bytes (nTotalDequeued st) - (match m_requeued b with Some i => it_size i | None => 0 end) -
          bytes (nTotalDroppedAfterDequeue st))) in
  Ok (set_stats (mkStats (nTotalReceived st) sent (nTotalEnqueued st) (nTotalDequeued st)
       (nTotalDropped st) (nTotalDroppedBeforeEnqueue st) (nDroppedBeforeEnqueue st)
       (nTotalDroppedAfterDequeue st) (nDroppedAfterDequeue st) (nTotalRequeued st)
       (nTotalMarked st) (nMarked st)) b).

(** [queue-disc.cc] QueueDisc::Classify

    The filters, each a function that classifies an item; -1 is [PacketFilter::PF_NO_MATCH]. *)
Fixpoint Classify (m_filters : list (Item → Z)) (item : Item) : Z :=
  match m_filters with
  | [] => -1
  | f :: m_filters => if f item =? -1 then Classify m_filters item else f item
  end.

(** The virtual methods of a queue disc with state [S], and its base.  [q_SetTimeStamp] is
    the effect of [item->SetTimeStamp] on the items the queue disc holds, by address. *)
Class QueueDiscImpl (S : Type) := {
  q_base : S → base;
  q_set_base : base → S → S;
  q_SetTimeStamp : Z → Z → S → S;
  q_DoEnqueue : Clock → Item → S → res (bool * list trace * S);
  q_DoDequeue : Clock → S → res (option Item * list trace * S);
  q_DoPeek : Clock → S → res (option Item * list trace * S)
}.

Section disc.
Context {S : Type} `{!QueueDiscImpl S}.
Implicit Types s : S.

Definition upd_base (f : base → list trace * base) s : list trace * S :=
  let '(tr, b) := f (q_base s) in (tr, q_set_base b s).

(** [queue-disc.cc] QueueDisc::Enqueue *)
Definition Enqueue (clk : Clock) (i : Item) s : res (bool * list trace * S) :=
  let b := q_base s in
  let st := m_stats b in
  let s := q_set_base (set_stats (mkStats (count i (nTotalReceived st)) (nTotalSent st) (nTotalEnqueued st)
       (nTotalDequeued st) (nTotalDropped st) (nTotalDroppedBeforeEnqueue st) (nDroppedBeforeEnqueue st)
       (nTotalDroppedAfterDequeue st) (nDroppedAfterDequeue st) (nTotalRequeued st)
       (nTotalMarked st) (nMarked st)) b) s in
  '(retval, tr, s) ← q_DoEnqueue clk i s;
  let s := if (retval : bool) then q_SetTimeStamp (it_ptr i) (c_sim clk) s else s in
  let st := m_stats (q_base s) in
  ns_assert (packets (nTotalReceived st) =?
    u32 (packets (nTotalDroppedBeforeEnqueue st) + packets (nTotalEnqueued st))) ≫= λ _,
  ns_assert (bytes (nTotalReceived st) =?
    u64 (bytes (nTotalDroppedBeforeEnqueue st) + bytes (nTotalEnqueued st))) ≫= λ _,
  Ok (retval, tr, s).

(** The assertions at the end of [Dequeue]. *)
Definition check_content s : res unit :=
  let b := q_base s in
  let st := m_stats b in
  ns_assert (m_nPackets b =? u32 (packets (nTotalEnqueued st) - packets (nTotalDequeued st))) ≫= λ _,
  ns_assert (m_nBytes b =? u64 (bytes (nTotalEnqueued st) - bytes (nTotalDequeued st))).

(** [queue-disc.cc] QueueDisc::Dequeue *)
Definition Dequeue (clk : Clock) s : res (option Item * list trace * S) :=
  let b := q_base s in
  '(item, tr, s) ← (match m_requeued b with
                    | Some i =>
                        let '(tr, b) := (if m_peeked b then PacketDequeued i (set_requeued None false b)
                                         else ([], set_requeued None false b)) in
                        Ok (Some i, tr, q_set_base b s)
                    | None => q_DoDequeue clk s
                    end);
  check_content s ≫= λ _,
  Ok (item, tr, s).

(** [queue-disc.cc] QueueDisc::Peek *)
Definition Peek (clk : Clock) s : res (option Item * list trace * S) := q_DoPeek clk s.

(** [queue-disc.cc:934-950] QueueDisc::DoPeek

    What [DoPeek] is where a queue disc does not override it. *)
Definition DoPeek_default (clk : Clock) s : res (option Item * list trace * S) :=
  match m_requeued (q_base s) with
  | Some i => Ok (Some i, [], s)
  | None =>
      let s := q_set_base (set_requeued (m_requeued (q_base s)) true (q_base s)) s in
      '(item, tr, s) ← Dequeue clk s;
      let s := q_set_base (set_requeued item (match item with Some _ => m_peeked (q_base s) | None => false end)
                             (q_base s)) s in
      Ok (item, tr, s)
  end.

(** ** Handing packets to the device *)

Section run.
Context {D : Type}.
(** The queue interface of the device, if it has one: the number of its queues, and which
    of them are stopped; and the callback that sends a packet. *)
Variable n_tx_queues : D → option Z.
Variable IsStopped : D → Z → bool.
Variable m_send : Clock → Item → D → res D.

Definition stopped (txq : Z) (d : D) : bool :=
  match n_tx_queues d with Some _ => IsStopped d txq | None => false end.

(** [queue-disc.cc] QueueDisc::Requeue *)
Definition Requeue (i : Item) s : S :=
  let b := set_requeued (Some i) (m_peeked (q_base s)) (q_base s) in
  let st := m_stats b in
  q_set_base (set_stats (mkStats (nTotalReceived st) (nTotalSent st) (nTotalEnqueued st)
       (nTotalDequeued st) (nTotalDropped st) (nTotalDroppedBeforeEnqueue st) (nDroppedBeforeEnqueue st)
       (nTotalDroppedAfterDequeue st) (nDroppedAfterDequeue st) (count i (nTotalRequeued st))
       (nTotalMarked st) (nMarked st)) b) s.

(** [queue-disc.cc] QueueDisc::DequeuePacket

    [item->AddHeader()] adds to the packet the header its size counts already. *)
Definition DequeuePacket (clk : Clock) (d : D) s : res (option Item * list trace * S) :=
  match m_requeued (q_base s) with
  | Some i =>
      if negb (stopped (it_txq i) d) then
        let b := q_base s in
        let '(tr, b) := (if m_peeked b then PacketDequeued i (set_requeued None false b)
                         else ([], set_requeued None false b)) in
        Ok (Some i, tr, q_set_base b s)
      else Ok (None, [], s)
  | None =>
      if match n_tx_queues d with None => true | Some n => (1 <? n) || negb (IsStopped d 0) end
      then Dequeue clk s
      else Ok (None, [], s)
  end.

(** [queue-disc.cc] QueueDisc::Transmit *)
Definition Transmit (clk : Clock) (i : Item) s (d : D) : res (bool * S * D) :=
  if stopped (it_txq i) d then Ok (false, Requeue i s, d)
  else
    let i := match n_tx_queues d with
             | None => mkItem (it_ptr i) (it_size i) (it_timeStamp i) (it_txq i) None
             | Some n => if n =? 1 then mkItem (it_ptr i) (it_size i) (it_timeStamp i) (it_txq i) None else i
             end in
    d ← m_send clk i d;
    Ok (negb ((m_nPackets (q_base s) =? 0) || stopped (it_txq i) d), s, d).

(** [queue-disc.cc] QueueDisc::Restart *)
Definition Restart (clk : Clock) s (d : D) : res (bool * list trace * S * D) :=
  '(item, tr, s) ← DequeuePacket clk d s;
  match item with
  | None => Ok (false, tr, s, d)
  | Some i => '(b, s, d) ← Transmit clk i s d; Ok (b, tr, s, d)
  end.

(** [queue-disc.cc:959-967] QueueDisc::Run

    The loop: [quota] is unsigned. *)
Fixpoint Run_loop (fuel : nat) (clk : Clock) (quota : Z) s (d : D) : res (list trace * S * D) :=
  match fuel with
  | O => Err OutOfFuel
  | Datatypes.S fuel =>
      '(more, tr, s, d) ← Restart clk s d;
      if (more : bool) then
        let quota := u32 (quota - 1) in
        if quota <=? 0 then Ok (tr, s, d)
        else '(tr', s, d) ← Run_loop fuel clk quota s d; Ok (tr ++ tr', s, d)
      else Ok (tr, s, d)
  end.

(** [queue-disc.cc:952-991] QueueDisc::Run

    With [RunBegin] and [RunEnd]. *)
Definition Run (clk : Clock) s (d : D) : res (list trace * S * D) :=
  let b := q_base s in
  if m_running b then Ok ([], s, d)
  else
    let s := q_set_base (set_running true b) s in
    '(tr, s, d) ← Run_loop (Z.to_nat (u32 (m_quota b - 1)) + 2) clk (m_quota b) s d;
    Ok (tr, q_set_base (set_running false (q_base s)) s, d).
End run.
End disc.
