(* ===== verification/Int64x64.v ===== *)
(** * Q64.64 fixed-point numbers
      (src/src/core/model/int64x64-128.cc, int64x64-128.h, the implementation for
      compilers with 128-bit integers)

    A number is its signed 128-bit representation [_v], a [Z].  Signed overflow is
    undefined; conversions of unsigned to signed values wrap. *)

From S2P Require Import Prelude.
Local Open Scope Z_scope.

Abbreviation u128 := (wrap 128).

(** The result of a signed 128-bit operation. *)
Definition int128 (z : Z) : res Z :=
  if (- 2 ^ 127 <=? z) && (z <? 2 ^ 127) then Ok z else Err Undefined.

Definition HP_MASK_LO : Z := 0xffffffffffffffff.

(** [int64x64-128.h:187-191] int64x64_t::int64x64_t

    From an integer: all the constructors from integer types are the same. *)
Definition of_int (v : Z) : res Z := int128 (v * 2 ^ 64).

(** [int64x64-128.h:206-210] int64x64_t::int64x64_t *)
Definition of_parts (hi lo : Z) : Z := Z.lor (Z.shiftl hi 64) lo.

(** [int64x64-128.h:262-266] int64x64_t::GetHigh *)
Definition GetHigh (v : Z) : Z := sint 64 (Z.shiftr v 64).

(** [int64x64-128.h:273-277] int64x64_t::GetLow *)
Definition GetLow (v : Z) : Z := u64 (Z.land (u128 v) HP_MASK_LO).

(** [-x] on [int128_t]. *)
Definition neg128 (x : Z) : res Z := int128 (- x).

(** [-x] on [int64_t]. *)
Definition neg64 (x : Z) : res Z :=
  if (- 2 ^ 63 <=? - x) && (- x <? 2 ^ 63) then Ok (- x) else Err Undefined.

(** [int64x64-128.h:284-291] int64x64_t::GetInt *)
Definition GetInt (v : Z) : res Z :=
  let negative := v <? 0 in
  value ← (if negative then neg128 v else Ok v);
  let retval := sint 64 (Z.shiftr (u128 value) 64) in
  if negative then neg64 retval else Ok retval.

(** [int64x64-128.h:299-308] int64x64_t::Round *)
Definition Round (v : Z) : res Z :=
  let negative := v <? 0 in
  value ← (if negative then neg128 v else Ok v);
  value ← int128 (value + of_parts 0 (2 ^ 63));
  let retval := GetHigh value in
  if negative then neg64 retval else Ok retval.

(** [int64x64-128.h:363-367] operator+= *)
Definition add (lhs rhs : Z) : res Z := int128 (lhs + rhs).

(** [int64x64-128.h:369-373] operator-= *)
Definition sub (lhs rhs : Z) : res Z := int128 (lhs - rhs).

(** [int64x64-128.cc:50-58] output_sign

    The sign of the result and the magnitudes of the operands. *)
Definition output_sign (sa sb : Z) : res (bool * Z * Z) :=
  let negA := sa <? 0 in
  let negB := sb <? 0 in
  ua ← (if negA then neg128 sa else Ok sa);
  ub ← (if negB then neg128 sb else Ok sb);
  Ok (xorb negA negB, u128 ua, u128 ub).

(** [int64x64-128.cc:70-111] int64x64_t::Umul *)
Definition Umul (a b : Z) : res Z :=
  let aL := Z.land a HP_MASK_LO in
  let bL := Z.land b HP_MASK_LO in
  let aH := Z.land (Z.shiftr a 64) HP_MASK_LO in
  let bH := Z.land (Z.shiftr b 64) HP_MASK_LO in
  let loPart := u128 (aL * bL) in
  let midPart := u128 (u128 (aL * bH) + u128 (aH * bL)) in
  let hiPart := u128 (aH * bH) in
  ns_abort_unless (Z.shiftr hiPart 64 =? 0) ≫= λ _,
  let res1 := Z.shiftr loPart 64 in
  let res2 := Z.land midPart HP_MASK_LO in
  let result := u128 (res1 + res2) in
  let res1 := Z.shiftr midPart 64 in
  let res2 := Z.land hiPart HP_MASK_LO in
  let res1 := u128 (res1 + res2) in
  let res1 := u128 (Z.shiftl res1 64) in
  Ok (u128 (result + res1)).

(** [int64x64-128.cc:60-68] int64x64_t::Mul *)
Definition Mul (v o : Z) : res Z :=
  '(negative, a, b) ← output_sign v o;
  result ← Umul a b;
  Ok (sint 128 (if (negative : bool) then u128 (- result) else result)).

(** [int64x64-128.cc:142-146] int64x64_t::Udiv

    The loop over the trailing zeros of the divisor; [n] is [DIGITS - shift]. *)
Fixpoint skip_zeros (n : nat) (shift den : Z) : Z * Z :=
  match n with
  | O => (shift, den)
  | S n => if Z.land den 1 =? 0 then skip_zeros n (shift + 1) (Z.shiftr den 1) else (shift, den)
  end.

(** [int64x64-128.cc:151-155] int64x64_t::Udiv

    The loop over the leading zeros of the remainder; [n] is [DIGITS - (digis + shift)]. *)
Fixpoint skip_leading (n : nat) (shift rem : Z) : Z * Z :=
  match n with
  | O => (shift, rem)
  | S n => if negb (Z.testbit rem 127) then skip_leading n (shift + 1) (u128 (Z.shiftl rem 1)) else (shift, rem)
  end.

(** [int64x64-128.cc:161-165] int64x64_t::Udiv

    The loop that casts off bits of the denominator. *)
Fixpoint cast_off (n : nat) (shift den rem : Z) : Z * Z :=
  match n with
  | O => (shift, den)
  | S n =>
      if (Z.land den 1 =? 0) || (rem <? den) then cast_off n (shift + 1) (Z.shiftr den 1) rem
      else (shift, den)
  end.

(** [rem / den] and [rem % den]. *)
Definition udivmod (rem den : Z) : res (Z * Z) :=
  if den =? 0 then Err Undefined else Ok (rem / den, rem mod den).

(** [int64x64-128.cc:148-177] int64x64_t::Udiv

    The main loop: the result and the digits it has. *)
Fixpoint Udiv_loop (fuel : nat) (digis shift rem den result : Z) : res (Z * Z) :=
  match fuel with
  | O => Err OutOfFuel
  | S fuel =>
      if (digis <? 64) && negb (rem =? 0) then
        let '(shift, rem) := skip_leading (Z.to_nat (64 - (digis + shift))) shift rem in
        let '(shift, den) := cast_off (Z.to_nat (64 - (digis + shift))) shift den rem in
        '(quo, rem) ← udivmod rem den;
        let result := u128 (u128 (Z.shiftl result shift) + quo) in
        Udiv_loop fuel (u64 (digis + shift)) 0 rem den result
      else Ok (result, digis)
  end.

(** [int64x64-128.cc:123-186] int64x64_t::Udiv

    Every iteration of the main loop yields a digit. *)
Definition Udiv (a b : Z) : res Z :=
  '(result, rem) ← udivmod a b;
  ns_assert (rem <? b) ≫= λ _,
  let '(shift, den) := skip_zeros 64 0 b in
  '(result, digis) ← Udiv_loop 65 0 shift rem den result;
  Ok (if digis <? 64 then u128 (Z.shiftl result (64 - digis)) else result).

(** [int64x64-128.cc:113-121] int64x64_t::Div *)
Definition Div (v o : Z) : res Z :=
  '(negative, a, b) ← output_sign v o;
  result ← Udiv a b;
  let result := sint 128 result in
  if (negative : bool) then neg128 result else Ok result.

(** [int64x64-128.cc:198-217] int64x64_t::UmulByInvert *)
Definition UmulByInvert (a b : Z) : Z :=
  let ah := Z.shiftr a 64 in
  let bh := Z.shiftr b 64 in
  let al := Z.land a HP_MASK_LO in
  let bl := Z.land b HP_MASK_LO in
  let hi := u128 (ah * bh) in
  let mid := u128 (u128 (ah * bl) + u128 (al * bh)) in
  let mid := Z.shiftr mid 64 in
  u128 (hi + mid).

(** [int64x64-128.cc:188-196] int64x64_t::MulByInvert *)
Definition MulByInvert (v o : Z) : res Z :=
  let negResult := v <? 0 in
  a ← (if negResult then neg128 v else Ok v);
  let result := UmulByInvert (u128 a) (u128 o) in
  Ok (sint 128 (if negResult then u128 (- result) else result)).

(** [int64x64-128.cc:219-235] int64x64_t::Invert *)
Definition Invert (v : Z) : res Z :=
  ns_assert (1 <? v) ≫= λ _,
  let a := Z.shiftl 1 64 in
  result ← Udiv a v;
  let result := sint 128 result in
  tmp ← MulByInvert (of_parts (sint 64 v) 0) result;
  if negb (GetHigh tmp =? 1) then int128 (result + 1) else Ok result.

(** ** Correctness *)

Lemma land_lo x : Z.land x HP_MASK_LO = x mod 2 ^ 64.
Proof. change HP_MASK_LO with (Z.ones 64). by rewrite Z.land_ones. Qed.

Lemma int128_ok z : - 2 ^ 127 ≤ z < 2 ^ 127 → int128 z = Ok z.
Proof. intros H. unfold int128. by rewrite (proj2 (Z.leb_le _ _)), (proj2 (Z.ltb_lt z _)) by lia. Qed.

Lemma neg64_ok x : - 2 ^ 63 < x ≤ 2 ^ 63 → neg64 x = Ok (- x).
Proof. intros H. unfold neg64. by rewrite (proj2 (Z.leb_le _ _)), (proj2 (Z.ltb_lt (- x) _)) by lia. Qed.

Lemma sint_id w z : 0 < w → - 2 ^ (w - 1) ≤ z < 2 ^ (w - 1) → sint w z = z.
Proof.
  intros Hw Hz. assert (2 ^ w = 2 * 2 ^ (w - 1)) as E by (rewrite <- Z.pow_succ_r by lia; f_equal; lia).
  unfold sint, wrap. destruct (Z.lt_ge_cases z 0).
  - assert (z mod 2 ^ w = z + 2 ^ w) as -> by (rewrite <- (Z.mod_add z 1), Z.mul_1_l by lia; apply Z.mod_small; lia).
    rewrite (proj2 (Z.ltb_ge _ _)) by lia. lia.
  - rewrite Z.mod_small by lia. by rewrite (proj2 (Z.ltb_lt _ _)) by lia.
Qed.

Lemma output_sign_ok a b :
  Z.abs a < 2 ^ 127 → Z.abs b < 2 ^ 127 →
  output_sign a b = Ok (xorb (a <? 0) (b <? 0), Z.abs a, Z.abs b).
Proof.
  intros Ha Hb. unfold output_sign, neg128.
  destruct (Z.ltb_spec a 0), (Z.ltb_spec b 0); rewrite ?int128_ok by lia; res_simpl;
    rewrite !wrap_id by (unfold fits; lia); repeat f_equal; lia.
Qed.

Lemma sint_of_wrap w z : 0 ≤ w → sint w (wrap w z) = sint w z.
Proof. intros. unfold sint. by rewrite wrap_idemp. Qed.

(** The signed quotient by the sign of the operands. *)
Lemma quot_abs a b : b ≠ 0 → Z.quot a b = (if xorb (a <? 0) (b <? 0) then - (Z.abs a / Z.abs b) else Z.abs a / Z.abs b).
Proof.
  intros Hb. rewrite Z.quot_div by done.
  destruct (Z.ltb_spec a 0), (Z.ltb_spec b 0); cbn [xorb];
    rewrite ?(Z.sgn_neg a), ?(Z.sgn_neg b), ?(Z.sgn_pos b) by lia; try lia;
    destruct (decide (a = 0)) as [->|]; rewrite ?Zdiv_0_l, ?(Z.sgn_pos a) by lia; try lia;
    change (Z.abs 0) with 0; rewrite ?Zdiv_0_l; lia.
Qed.

(** The sum of the partial products, without their carries lost. *)
Lemma partial_products lo m1 m2 hi :
  0 ≤ lo < 2 ^ 128 → 0 ≤ m1 < 2 ^ 127 → 0 ≤ m2 < 2 ^ 127 → 0 ≤ hi →
  hi * 2 ^ 128 + (m1 + m2) * 2 ^ 64 + lo < 2 ^ 191 →
  u128 (u128 (lo / 2 ^ 64 + (m1 + m2) mod 2 ^ 64) + u128 (u128 ((m1 + m2) / 2 ^ 64 + hi) * 2 ^ 64)) =
  (hi * 2 ^ 128 + (m1 + m2) * 2 ^ 64 + lo) / 2 ^ 64.
Proof.
  intros Hlo Hm1 Hm2 Hhi Hab.
  assert (0 ≤ (m1 + m2) mod 2 ^ 64 < 2 ^ 64) by (apply Z.mod_pos_bound; lia).
  assert (0 ≤ lo / 2 ^ 64 < 2 ^ 64) by div_lia. assert (0 ≤ (m1 + m2) / 2 ^ 64 < 2 ^ 64) by div_lia.
  pose proof (Z.div_mod (m1 + m2) (2 ^ 64) ltac:(lia)).
  replace (hi * 2 ^ 128 + (m1 + m2) * 2 ^ 64 + lo) with (lo + (hi * 2 ^ 64 + (m1 + m2)) * 2 ^ 64) by ring.
  rewrite Z.div_add by lia. assert ((m1 + m2) / 2 ^ 64 + hi < 2 ^ 63) by lia.
  rewrite (wrap_id 128 ((m1 + m2) / 2 ^ 64 + hi)) by zlia.
  rewrite (wrap_id 128 (lo / 2 ^ 64 + _)) by zlia.
  rewrite (wrap_id 128 (_ * 2 ^ 64)) by zlia.
  rewrite wrap_id; zlia.
Qed.

Lemma Umul_ok a b : 0 ≤ a < 2 ^ 127 → 0 ≤ b < 2 ^ 127 → a * b < 2 ^ 191 → Umul a b = Ok (a * b / 2 ^ 64).
Proof.
  intros Ha Hb Hab. unfold Umul. rewrite !land_lo, !shiftr_div, !Z.shiftl_mul_pow2 by lia.
  pose proof (Z.div_mod a (2 ^ 64) ltac:(lia)) as Ea. pose proof (Z.div_mod b (2 ^ 64) ltac:(lia)) as Eb.
  assert (0 ≤ a / 2 ^ 64 < 2 ^ 63) by div_lia. assert (0 ≤ b / 2 ^ 64 < 2 ^ 63) by div_lia.
  rewrite (Z.mod_small (a / 2 ^ 64)), (Z.mod_small (b / 2 ^ 64)) by lia.
  pose proof (Z.mod_pos_bound a (2 ^ 64) ltac:(lia)). pose proof (Z.mod_pos_bound b (2 ^ 64) ltac:(lia)).
  set (aH := a / 2 ^ 64) in *. set (aL := a mod 2 ^ 64) in *. set (bH := b / 2 ^ 64) in *. set (bL := b mod 2 ^ 64) in *.
  assert (0 ≤ aL * bL < 2 ^ 128) by nia. assert (0 ≤ aL * bH < 2 ^ 127) by nia. assert (0 ≤ aH * bL < 2 ^ 127) by nia.
  assert (0 ≤ aH * bH) by nia.
  assert (a * b = (aH * bH) * 2 ^ 128 + (aL * bH + aH * bL) * 2 ^ 64 + aL * bL) as E by (rewrite Ea, Eb; ring).
  assert (aH * bH < 2 ^ 63) by lia.
  rewrite (wrap_id 128 (aH * bH)), (wrap_id 128 (aL * bL)), (wrap_id 128 (aL * bH)), (wrap_id 128 (aH * bL)),
    (wrap_id 128 (aL * bH + aH * bL)) by zlia.
  rewrite (Z.div_small (aH * bH)) by lia. cbn [Z.eqb ns_abort_unless mbind res_bind].
  rewrite (Z.mod_small (aH * bH)) by lia. f_equal. rewrite E. apply partial_products; lia.
Qed.

Lemma Mul_ok a b :
  Z.abs a < 2 ^ 127 → Z.abs b < 2 ^ 127 → Z.abs (a * b) < 2 ^ 191 → Mul a b = Ok (Z.quot (a * b) (2 ^ 64)).
Proof.
  intros Ha Hb Hab. rewrite Z.abs_mul in Hab. unfold Mul. rewrite output_sign_ok by done. res_simpl.
  rewrite Umul_ok by lia. res_simpl. f_equal. rewrite quot_abs by lia. rewrite Z.abs_mul.
  change (Z.abs (2 ^ 64)) with (2 ^ 64). change (2 ^ 64 <? 0) with false. rewrite xorb_false_r.
  assert (0 ≤ Z.abs a * Z.abs b / 2 ^ 64 < 2 ^ 127) as Hq.
  { split; [apply Z.div_pos; lia|]. apply Z.div_lt_upper_bound; lia. }
  assert (Z.abs a * Z.abs b / 2 ^ 64 = 0 ∨ xorb (a <? 0) (b <? 0) = (a * b <? 0)) as Hs.
  { destruct (Z.ltb_spec a 0), (Z.ltb_spec b 0), (Z.ltb_spec (a * b) 0); cbn; try (right; reflexivity); try nia. 
    all: left; assert (a = 0 ∨ b = 0) as [->| ->] by nia; rewrite ?Z.mul_0_r; reflexivity. }
  destruct Hs as [->| ->].
  - by destruct (xorb _ _), (a * b <? 0).
  - destruct (a * b <? 0); [rewrite sint_of_wrap by lia|]; by rewrite sint_id by lia.
Qed.

(** A divisor with [n] trailing zeros loses them all. *)
Lemma skip_zeros_all n shift k : skip_zeros n shift (k * 2 ^ Z.of_nat n) = (shift + Z.of_nat n, k).
Proof.
  revert shift. induction n as [|n IH]; intros shift; cbn [skip_zeros]; [f_equal; lia|].
  assert (k * 2 ^ Z.of_nat (S n) = k * 2 ^ Z.of_nat n * 2) as -> by (rewrite Nat2Z.inj_succ, Z.pow_succ_r; lia).
  change 1 with (Z.ones 1) at 1. rewrite Z.land_ones, Z_mod_mult by lia. cbn [Z.eqb].
  rewrite Z.shiftr_div_pow2, Z.div_mul by lia. rewrite IH. f_equal. lia.
Qed.

(** In general the zeros it loses are as many as the shift says. *)
Lemma skip_zeros_spec n shift den :
  0 < den → ∃ k den', skip_zeros n shift den = (shift + k, den') ∧ 0 ≤ k ≤ Z.of_nat n ∧ 0 < den' ∧ den = den' * 2 ^ k.
Proof.
  revert shift den. induction n as [|n IH]; intros shift den Hden; cbn [skip_zeros].
  { exists 0, den. conj; f_equal; lia. }
  change 1 with (Z.ones 1) at 1. rewrite Z.land_ones by lia. destruct (Z.eqb_spec (den mod 2 ^ 1) 0) as [E|E].
  - rewrite Z.shiftr_div_pow2 by lia. destruct (IH (shift + 1) (den / 2 ^ 1)) as (k & den' & -> & Hk & Hd & Heq); [div_lia|].
    exists (k + 1), den'. conj; [f_equal; lia|lia|lia|lia|]. rewrite Z.pow_add_r by lia.
    replace (den' * (2 ^ k * 2 ^ 1)) with (2 * (den' * 2 ^ k)) by ring. rewrite <- Heq. div_lia.
  - exists 0, den. conj; f_equal; lia.
Qed.

Lemma skip_leading_all n shift rem :
  0 ≤ rem → rem * 2 ^ Z.of_nat n < 2 ^ 128 → skip_leading n shift rem = (shift + Z.of_nat n, rem * 2 ^ Z.of_nat n).
Proof.
  revert shift rem. induction n as [|n IH]; intros shift rem Hrem Hlt; cbn [skip_leading]; [f_equal; lia|].
  rewrite Nat2Z.inj_succ, Z.pow_succ_r in * by lia. assert (1 ≤ 2 ^ Z.of_nat n) by (pose proof (Z.pow_pos_nonneg 2 (Z.of_nat n)); lia).
  assert (rem < 2 ^ 127) by nia.
  assert (Z.testbit rem 127 = false) as ->.
  { destruct (decide (rem = 0)) as [->|]; [apply Z.bits_0|].
    apply Z.bits_above_log2; [lia|]. apply Z.log2_lt_pow2; lia. }
  cbn [negb]. rewrite Z.shiftl_mul_pow2, wrap_id by zlia. rewrite IH by lia. f_equal; lia.
Qed.

(** One iteration is enough when the remainder takes all the digits still missing. *)
Lemma Udiv_loop_once fuel s rem den result :
  0 ≤ s ≤ 64 → 0 < rem → rem * 2 ^ (64 - s) < 2 ^ 128 → 0 < den → 0 ≤ result →
  result * 2 ^ 64 + rem * 2 ^ (64 - s) / den < 2 ^ 128 →
  Udiv_loop (S (S fuel)) 0 s rem den result = Ok (result * 2 ^ 64 + rem * 2 ^ (64 - s) / den, 64).
Proof.
  intros Hs Hr Hr2 Hd Hres Hlt. assert (0 ≤ rem * 2 ^ (64 - s) / den) by (apply Z.div_pos; lia).
  remember (S fuel) as n eqn:En. cbn [Udiv_loop]. change (0 <? 64) with true.
  rewrite (proj2 (Z.eqb_neq rem 0)) by lia. cbn [negb andb].
  rewrite skip_leading_all by (rewrite ?Z2Nat.id by lia; replace (64 - (0 + s)) with (64 - s) by lia; lia).
  rewrite Z2Nat.id by lia. replace (64 - (0 + s)) with (64 - s) by lia. replace (s + (64 - s)) with 64 by lia.
  change (Z.to_nat (64 - (0 + 64))) with 0%nat. cbn [cast_off]. unfold udivmod.
  rewrite (proj2 (Z.eqb_neq den 0)) by lia. cbn [mbind res_bind].
  rewrite Z.shiftl_mul_pow2, (wrap_id 128 (result * 2 ^ 64)) by zlia. rewrite (wrap_id 128 (_ + _)) by zlia.
  subst n. cbn [Udiv_loop]. change (u64 (0 + 64) <? 64) with false. by cbn [andb].
Qed.

Lemma Udiv_loop_zero fuel shift den result : Udiv_loop (S fuel) 0 shift 0 den result = Ok (result, 0).
Proof. done. Qed.

(** The division is exact for the divisors that are integers and for those that are not
    above 1: the result is the quotient rounded down to 64 fractional bits. *)
Lemma Udiv_ok a b :
  0 ≤ a → 0 < b < 2 ^ 128 → (∃ k, b = k * 2 ^ 64) ∨ b ≤ 2 ^ 64 → a * 2 ^ 64 / b < 2 ^ 128 →
  Udiv a b = Ok (a * 2 ^ 64 / b).
Proof.
  intros Ha Hb Hcase Hlt. unfold Udiv, udivmod. rewrite (proj2 (Z.eqb_neq b 0)) by lia. cbn [mbind res_bind].
  pose proof (Z.mod_pos_bound a b ltac:(lia)) as Hr. pose proof (Z.div_mod a b ltac:(lia)) as E.
  assert (0 ≤ a / b) by (apply Z.div_pos; lia).
  rewrite (proj2 (Z.ltb_lt _ _)) by lia. cbn [ns_assert mbind res_bind].
  assert (a * 2 ^ 64 / b = a / b * 2 ^ 64 + a mod b * 2 ^ 64 / b) as Eq.
  { rewrite E at 1. replace ((b * (a / b) + a mod b) * 2 ^ 64) with (a mod b * 2 ^ 64 + (a / b * 2 ^ 64) * b) by ring.
    rewrite Z.div_add by lia. lia. }
  assert (0 ≤ a mod b * 2 ^ 64 / b) by (apply Z.div_pos; lia).
  assert (∃ s den, skip_zeros 64 0 b = (s, den) ∧ 0 ≤ s ≤ 64 ∧ 0 < den ∧ b = den * 2 ^ s ∧
    a mod b * 2 ^ (64 - s) < 2 ^ 128) as (s & den & -> & Hs & Hden & Hbd & Hfit).
  { destruct Hcase as [[k ->]|Hsmall].
    - exists 64, k. rewrite (skip_zeros_all 64 0 k : skip_zeros 64 0 (k * 2 ^ 64) = _). split; [done|]. change (2 ^ (64 - 64)) with 1. lia.
    - destruct (skip_zeros_spec 64 0 b ltac:(lia)) as (s & den & -> & Hs & Hd & Hbd). exists (0 + s), den.
      pose proof (Z.pow_le_mono_r 2 (64 - (0 + s)) 64 ltac:(lia) ltac:(lia)).
      pose proof (Z.pow_pos_nonneg 2 (64 - (0 + s)) ltac:(lia) ltac:(lia)).
      split; [done|]. split; [lia|]. split; [done|]. split; [done|]. nia. }
  assert (a mod b * 2 ^ 64 / b = a mod b * 2 ^ (64 - s) / den) as Eq2.
  { rewrite Hbd at 2. replace 64 with ((64 - s) + s) at 1 by lia. rewrite Z.pow_add_r, Z.mul_assoc by lia.
    apply Z.div_mul_cancel_r; lia. }
  rewrite Eq, Eq2 in *. destruct (decide (a mod b = 0)) as [->|Hne].
  - rewrite Udiv_loop_zero, Z.mul_0_l, Zdiv_0_l, Z.add_0_r in *. cbn [mbind res_bind]. change (0 <? 64) with true.
    change (64 - 0) with 64. by rewrite Z.shiftl_mul_pow2, wrap_id by zlia.
  - rewrite (Udiv_loop_once 63) by lia. cbn [mbind res_bind]. done.
Qed.

Lemma Div_ok a b :
  Z.abs a < 2 ^ 127 → 0 < Z.abs b < 2 ^ 127 → (∃ k, b = k * 2 ^ 64) ∨ Z.abs b ≤ 2 ^ 64 →
  Z.abs a * 2 ^ 64 < Z.abs b * 2 ^ 127 → Div a b = Ok (Z.quot (a * 2 ^ 64) b).
Proof.
  intros Ha Hb Hcase Hlt. unfold Div. rewrite output_sign_ok by lia. res_simpl.
  assert (0 ≤ Z.abs a * 2 ^ 64 / Z.abs b < 2 ^ 127) as Hq.
  { split; [apply Z.div_pos; lia|]. apply Z.div_lt_upper_bound; lia. }
  rewrite Udiv_ok; [| lia | lia | | lia].
  2: { destruct Hcase as [[k ->]|]; [left; exists (Z.abs k); by rewrite Z.abs_mul|by right]. }
  res_simpl. rewrite sint_id by lia. rewrite quot_abs, Z.abs_mul by lia. change (Z.abs (2 ^ 64)) with (2 ^ 64).
  replace (a * 2 ^ 64 <? 0) with (a <? 0) by (destruct (Z.ltb_spec a 0), (Z.ltb_spec (a * 2 ^ 64) 0); lia).
  destruct (xorb _ _); [|done]. unfold neg128. by rewrite int128_ok by lia.
Qed.

Lemma UmulByInvert_int n inv :
  0 ≤ n < 2 ^ 63 → 0 ≤ inv < 2 ^ 127 → UmulByInvert (n * 2 ^ 64) inv = n * inv / 2 ^ 64.
Proof.
  intros Hn Hi. unfold UmulByInvert. rewrite !land_lo, !shiftr_div by lia. rewrite Z_mod_mult, Z.div_mul by lia.
  pose proof (Z.div_mod inv (2 ^ 64) ltac:(lia)) as E. pose proof (Z.mod_pos_bound inv (2 ^ 64) ltac:(lia)).
  assert (0 ≤ inv / 2 ^ 64 < 2 ^ 63) by div_lia. set (h := inv / 2 ^ 64) in *. set (l := inv mod 2 ^ 64) in *.
  assert (0 ≤ n * h < 2 ^ 126) by nia. assert (0 ≤ n * l < 2 ^ 127) by nia.
  rewrite Z.mul_0_l. change (u128 0) with 0. rewrite Z.add_0_r.
  rewrite (wrap_id 128 (n * h)), (wrap_id 128 (n * l)), (wrap_id 128 (n * l)) by zlia.
  assert (0 ≤ n * l / 2 ^ 64 < 2 ^ 63) by div_lia. rewrite wrap_id by zlia.
  replace (n * inv) with (n * l + n * h * 2 ^ 64) by (rewrite E; ring). rewrite Z.div_add by lia. lia.
Qed.

Lemma MulByInvert_int n inv :
  Z.abs n < 2 ^ 63 → 0 ≤ inv < 2 ^ 127 → Z.abs n * inv < 2 ^ 191 →
  MulByInvert (n * 2 ^ 64) inv = Ok (Z.quot (n * inv) (2 ^ 64)).
Proof.
  intros Hn Hi Hp. unfold MulByInvert. rewrite quot_abs, Z.abs_mul by lia. rewrite (Z.abs_eq inv), (wrap_id 128 inv) by zlia.
  change (2 ^ 64 <? 0) with false. change (Z.abs (2 ^ 64)) with (2 ^ 64). rewrite xorb_false_r.
  assert (0 ≤ Z.abs n * inv / 2 ^ 64 < 2 ^ 127) as Hq.
  { split; [apply Z.div_pos; nia|]. apply Z.div_lt_upper_bound; lia. }
  destruct (Z.ltb_spec (n * 2 ^ 64) 0).
  - unfold neg128. rewrite int128_ok by lia. res_simpl.
    replace (- (n * 2 ^ 64)) with (Z.abs n * 2 ^ 64) by lia. rewrite (wrap_id 128 (_ * _)) by zlia.
    rewrite UmulByInvert_int by lia. rewrite sint_of_wrap, sint_id by lia.
    destruct (Z.ltb_spec (n * inv) 0); [done|]. assert (inv = 0) as -> by nia. by rewrite Z.mul_0_r.
  - res_simpl. replace n with (Z.abs n) at 1 by lia. rewrite (wrap_id 128 (_ * _)) by zlia.
    rewrite UmulByInvert_int by lia. rewrite sint_id by lia.
    destruct (Z.ltb_spec (n * inv) 0); [nia|done].
Qed.

(** [Invert v] is the inverse of [v] in 128 fractional bits, rounded up (that of 2 does not
    fit the signed representation). *)
Lemma Invert_ok v : 2 < v < 2 ^ 63 → Invert v = Ok ((2 ^ 128 + v - 1) / v).
Proof.
  intros Hv. unfold Invert. rewrite (proj2 (Z.ltb_lt _ _)) by lia. cbn [ns_assert mbind res_bind].
  change (Z.shiftl 1 64) with (2 ^ 64).
  assert (2 ^ 64 * 2 ^ 64 / v ≤ 2 ^ 127 - 1) as Hle.
  { apply Z.le_trans with (2 ^ 64 * 2 ^ 64 / 3); [apply Z.div_le_compat_l; lia|]. by vm_compute. }
  rewrite Udiv_ok by (lia || (right; lia)). res_simpl. assert (0 ≤ 2 ^ 64 * 2 ^ 64 / v) by (apply Z.div_pos; lia).
  rewrite (sint_id 128) by lia. rewrite (sint_id 64 v) by lia.
  change (of_parts v 0) with (Z.lor (Z.shiftl v 64) 0). rewrite Z.lor_0_r, Z.shiftl_mul_pow2 by lia.
  change (2 ^ 64 * 2 ^ 64) with (2 ^ 128) in *. pose proof (Z.div_mod (2 ^ 128) v ltac:(lia)) as E.
  pose proof (Z.mod_pos_bound (2 ^ 128) v ltac:(lia)) as Hm. set (q := 2 ^ 128 / v) in *. set (r := 2 ^ 128 mod v) in *.
  rewrite MulByInvert_int by nia. res_simpl. rewrite Z.quot_div_nonneg by nia.
  unfold GetHigh. rewrite shiftr_div, Z.div_div by lia. change (2 ^ 64 * 2 ^ 64) with (2 ^ 128).
  replace (2 ^ 128 + v - 1) with (r + v - 1 + q * v) by lia. rewrite Z.div_add by lia.
  destruct (decide (r = 0)) as [Hr|Hr].
  - replace (v * q) with (2 ^ 128) by lia. rewrite Z.div_same, Hr by lia. change (sint 64 1 =? 1) with true. cbn [negb].
    rewrite (Z.div_small (0 + v - 1)) by lia. done.
  - rewrite (Z.div_small (v * q)) by nia. change (sint 64 0 =? 1) with false. cbn [negb]. rewrite int128_ok by lia.
    f_equal. replace (r + v - 1) with (r - 1 + 1 * v) by ring. rewrite Z.div_add, (Z.div_small (r - 1)) by lia. lia.
Qed.
