(* ===== verification/NsTime.v ===== *)
(** * Simulation times and data rates
      (src/src/core/model/nstime.h, time.cc, src/src/network/utils/data-rate.cc)

    A [Time] is its [m_data], a 64-bit number of units of the resolution.  The computations
    of [SetResolution] in [double] have integer operands and results that a [double] holds
    exactly and are modelled with integers. *)

From S2P Require Import Prelude Int64x64.
Local Open Scope Z_scope.

(** [nstime.h:110-124] Time::Unit *)
Inductive Unit := Y | D | H | MIN | S_ | MS | US | NS | PS | FS.

(** [time.cc:50-50] UNIT_POWER *)
Definition UNIT_POWER (u : Unit) : Z :=
  match u with Y | D | H => 17 | MIN => 16 | S_ => 15 | MS => 12 | US => 9 | NS => 6 | PS => 3 | FS => 0 end.

(** [time.cc:52-52] UNIT_COEFF *)
Definition UNIT_COEFF (u : Unit) : Z :=
  match u with Y => 315360 | D => 864 | H => 36 | MIN => 6 | _ => 1 end.

(** [nstime.h:632-640] Time::Information *)
Record Information := mkInfo {
  toMul : bool;
  fromMul : bool;
  factor : Z;
  timeTo : Z;
  timeFrom : Z;
  isValid : bool
}.

(** [time.cc:231-290] Time::SetResolution

    The conversions of the unit [i] where [unit] is the resolution; of a unit that is not
    valid only that is known. *)
Definition information (unit i : Unit) : res Information :=
  let shift := UNIT_POWER i - UNIT_POWER unit in
  quotient ← (if UNIT_COEFF unit <? UNIT_COEFF i then
                let quotient := UNIT_COEFF i / UNIT_COEFF unit in
                ns_assert (quotient * UNIT_COEFF unit =? UNIT_COEFF i) ≫= λ _, Ok quotient
              else if UNIT_COEFF i <? UNIT_COEFF unit then
                let quotient := UNIT_COEFF unit / UNIT_COEFF i in
                ns_assert (quotient * UNIT_COEFF i =? UNIT_COEFF unit) ≫= λ _, Ok quotient
              else Ok 1);
  let factor := 10 ^ Z.abs shift * quotient in
  if 2 ^ 63 <? factor then Ok (mkInfo false false 0 0 0 false)
  else
    (* realFactor = num / den *)
    let num := 10 ^ Z.max shift 0 * UNIT_COEFF i in
    let den := 10 ^ Z.max (- shift) 0 * UNIT_COEFF unit in
    one ← of_int 1;
    if (shift =? 0) && (quotient =? 1) then Ok (mkInfo true true factor one one true)
    else
      f ← of_int factor;
      inv ← Invert factor;
      if den <? num then Ok (mkInfo false true factor inv f true)
      else ns_assert (num <? den) ≫= λ _, Ok (mkInfo true false factor f inv true).

(** Arithmetic on [int64_t]. *)
Definition int64 (z : Z) : res Z :=
  if (- 2 ^ 63 <=? z) && (z <? 2 ^ 63) then Ok z else Err Undefined.

Section resolution.
(** The resolution of the simulation. *)
Variable resolution : Unit.

(** [nstime.h:498-513] Time::FromInteger *)
Definition FromInteger (value : Z) (unit : Unit) : res Z :=
  info ← information resolution unit;
  ns_assert (isValid info) ≫= λ _,
  Ok (sint 64 (if fromMul info then u64 (value * factor info) else value / factor info)).

(** [nstime.h:520-538] Time::From *)
Definition From_ (value : Z) (unit : Unit) : res Z :=
  info ← information resolution unit;
  ns_assert (isValid info) ≫= λ _,
  retval ← (if fromMul info then Mul value (timeFrom info) else MulByInvert value (timeFrom info));
  Round retval.

(** [nstime.h:554-570] Time::ToInteger *)
Definition ToInteger (m_data : Z) (unit : Unit) : res Z :=
  info ← information resolution unit;
  ns_assert (isValid info) ≫= λ _,
  if toMul info then int64 (m_data * factor info) else Ok (Z.quot m_data (factor info)).

(** [nstime.h:577-593] Time::To *)
Definition To (m_data : Z) (unit : Unit) : res Z :=
  info ← information resolution unit;
  ns_assert (isValid info) ≫= λ _,
  retval ← of_int m_data;
  if toMul info then Mul retval (timeTo info) else MulByInvert retval (timeTo info).

(** [nstime.h:603-606] Time::RoundTo *)
Definition RoundTo (m_data : Z) (unit : Unit) : res Z :=
  v ← To m_data unit;
  n ← Round v;
  v ← of_int n;
  From_ v unit.

(** [nstime.h:1330-1334] Seconds *)
Definition Seconds (value : Z) : res Z := From_ value S_.

(** [nstime.h:1384-1388] FemtoSeconds *)
Definition FemtoSeconds (value : Z) : res Z := FromInteger value FS.

(** [nstime.h:427-430] Time::GetFemtoSeconds *)
Definition GetFemtoSeconds (m_data : Z) : res Z := ToInteger m_data FS.

(** ** DataRate *)

(** [data-rate.cc] DataRate::CalculateBitsTxTime

    [m_bps] is the rate. *)
Definition CalculateBitsTxTime (m_bps bits : Z) : res Z :=
  a ← of_int bits;
  b ← of_int m_bps;
  r ← (if m_bps =? 0 then Err Undefined else Div a b);
  Seconds r.

(** [data-rate.cc] DataRate::CalculateBytesTxTime *)
Definition CalculateBytesTxTime (m_bps bytes : Z) : res Z := CalculateBitsTxTime m_bps (u32 (bytes * 8)).
End resolution.

(** ** Correctness *)

(** The length of a unit, in femtoseconds. *)
Definition val (u : Unit) : Z := UNIT_COEFF u * 10 ^ UNIT_POWER u.

Definition units : list Unit := [Y; D; H; MIN; S_; MS; US; NS; PS; FS].

(** What the table of conversions has to say. *)
Definition info_ok (r u : Unit) (info : Information) : bool :=
  negb (isValid info) ||
  (if val r <=? val u
   then fromMul info && (factor info * val r =? val u) && (timeFrom info =? factor info * 2 ^ 64) &&
        (1 <=? factor info) && (factor info <? 2 ^ 63) && (negb (toMul info) || (factor info =? 1))
   else negb (fromMul info) && toMul info && (factor info * val u =? val r) && (2 <=? factor info)).

Lemma information_table :
  Forall (λ r, Forall (λ u, match information r u with Ok i => info_ok r u i | Err _ => false end = true) units) units.
Proof. by apply (bool_decide_unpack _); vm_compute. Qed.

Lemma information_ok r u : ∃ info, information r u = Ok info ∧ info_ok r u info = true.
Proof.
  pose proof information_table as T.
  assert (∀ x, x ∈ units) as Hall by (intros []; repeat constructor).
  rewrite Forall_forall in T. specialize (T r (Hall r)). rewrite Forall_forall in T. specialize (T u (Hall u)).
  cbn in T. destruct (information r u) as [info|]; [by exists info|done].
Qed.

(** Is the unit usable with the resolution? *)
Definition usable (r u : Unit) : bool :=
  match information r u with Ok info => isValid info | Err _ => false end.

Lemma int64_ok z : - 2 ^ 63 ≤ z < 2 ^ 63 → int64 z = Ok z.
Proof. intros H. unfold int64. by rewrite (proj2 (Z.leb_le _ _)), (proj2 (Z.ltb_lt z _)) by lia. Qed.

Lemma GetHigh_ok z : - 2 ^ 127 ≤ z < 2 ^ 127 → GetHigh z = z / 2 ^ 64.
Proof. intros H. unfold GetHigh. rewrite shiftr_div by lia. apply sint_id; [lia|]. div_lia. Qed.

Lemma Round_ok z : 0 ≤ z → z + 2 ^ 63 < 2 ^ 127 → Round z = Ok ((z + 2 ^ 63) / 2 ^ 64).
Proof.
  intros H H2. unfold Round. rewrite (proj2 (Z.ltb_ge z 0)) by lia. res_simpl.
  change (of_parts 0 (2 ^ 63)) with (2 ^ 63). rewrite int128_ok by lia. res_simpl. by rewrite GetHigh_ok by lia.
Qed.

(** Multiplication by a whole number. *)
Lemma Mul_int a n : 0 ≤ a → 0 ≤ n < 2 ^ 63 → a * n < 2 ^ 127 → a < 2 ^ 127 → Mul a (n * 2 ^ 64) = Ok (a * n).
Proof.
  intros Ha Hn Hp Ha2. assert (0 ≤ a * n) by nia.
  rewrite Mul_ok by (rewrite ?Z.mul_assoc; lia). f_equal. rewrite Z.quot_div_nonneg by nia.
  rewrite Z.mul_assoc. by rewrite Z.div_mul.
Qed.

(** Conversion of times: with the units the resolution allows, a number of a coarser unit
    is stored without loss, by the integer and by the fixed-point conversion, and read back;
    a time read in a finer unit is exact and converted back - unless its value does not fit
    64 bits, which is signed overflow. *)
Theorem Time_conversions r u n :
  usable r u = true → 0 ≤ n →
  (val r ≤ val u → ∃ k, val u = k * val r ∧
     (n * k < 2 ^ 63 → FromInteger r n u = Ok (n * k) ∧ From_ r (n * 2 ^ 64) u = Ok (n * k) ∧
                       ToInteger r (n * k) u = Ok n)) ∧
  (val u < val r → ∃ k, val r = k * val u ∧
     (n * k < 2 ^ 63 → ToInteger r n u = Ok (n * k) ∧ FromInteger r (n * k) u = Ok n) ∧
     (2 ^ 63 ≤ n * k → ToInteger r n u = Err Undefined)).
Proof.
  intros Hu Hn. unfold usable in Hu. unfold FromInteger, From_, ToInteger.
  destruct (information_ok r u) as (info & Hi & Hok). rewrite Hi in *. res_simpl. rewrite Hu in *. cbn [ns_assert].
  unfold info_ok in Hok. rewrite Hu in Hok. cbn [negb orb] in Hok. split; intros Hval.
  - rewrite (proj2 (Z.leb_le _ _) Hval) in Hok.
    apply andb_true_iff in Hok as [[[[[Hfm Hf%Z.eqb_eq]%andb_true_iff Ht%Z.eqb_eq]%andb_true_iff Hf1%Z.leb_le]%andb_true_iff Hf3%Z.ltb_lt]%andb_true_iff Htm].
    exists (factor info). split; [lia|]. intros Hk. rewrite Hfm, Ht. assert (n ≤ n * factor info) by nia.
    rewrite (wrap_id 64) by zlia. rewrite sint_id by lia. split; [done|]. split.
    + rewrite Mul_int by nia. res_simpl. rewrite Round_ok by nia. f_equal.
      replace (n * 2 ^ 64 * factor info + 2 ^ 63) with (2 ^ 63 + (n * factor info) * 2 ^ 64) by ring.
      rewrite Z.div_add by lia. by rewrite Z.div_small.
    + destruct (toMul info); cbn [negb orb] in Htm.
      * apply Z.eqb_eq in Htm. rewrite Htm, !Z.mul_1_r. apply int64_ok. lia.
      * by rewrite Z.quot_mul by lia.
  - rewrite (proj2 (Z.leb_gt _ _) Hval) in Hok.
    apply andb_true_iff in Hok as [[[Hfm%negb_true_iff Htm]%andb_true_iff Hf%Z.eqb_eq]%andb_true_iff Hf2%Z.leb_le].
    exists (factor info). rewrite Hfm, Htm. split; [lia|]. split.
    + intros Hk. rewrite int64_ok by nia. split; [done|]. rewrite Z.div_mul, sint_id by nia. done.
    + intros Hk. unfold int64. by rewrite (proj2 (Z.ltb_ge _ _)), andb_false_r by lia.
Qed.

Lemma Time_conversions_witness :
  usable NS S_ = true ∧ usable NS FS = true ∧ ToInteger NS 9223 FS = Ok 9223000000 ∧
  FromInteger NS 7 S_ = Ok 7000000000.
Proof.
  split; [by vm_compute|]. split; [by vm_compute|].
  destruct (Time_conversions NS FS 9223 ltac:(by vm_compute) ltac:(lia)) as [_ Hf].
  destruct (Time_conversions NS S_ 7 ltac:(by vm_compute) ltac:(lia)) as [Hc _].
  destruct Hf as (k & Hk & Hf & _); [by vm_compute|]. destruct Hc as (k' & Hk' & Hc); [by vm_compute|].
  assert (k = 1000000) as -> by (unfold val, UNIT_COEFF, UNIT_POWER in Hk; lia).
  assert (k' = 1000000000) as -> by (unfold val, UNIT_COEFF, UNIT_POWER in Hk'; lia).
  split; [apply Hf; lia|apply Hc; lia].
Defined.

(** The fixed-point quotient times a billion, rounded. *)
Lemma tx_time_bound B R :
  0 ≤ B → 0 < R →
  let t := (B * 2 ^ 64 / R * 1000000000 + 2 ^ 63) / 2 ^ 64 in
  2 * (t * R) ≤ 2 * (B * 1000000000) + R ∧
  (2 * (B * 1000000000)) * 2 ^ 33 ≤ (2 * (t * R) + R) * 2 ^ 33 + R.
Proof.
  intros HB HR t. pose proof (Z.div_mod (B * 2 ^ 64) R ltac:(lia)) as E.
  pose proof (Z.mod_pos_bound (B * 2 ^ 64) R HR) as Hm. set (q := B * 2 ^ 64 / R) in *. set (m := (B * 2 ^ 64) mod R) in *.
  pose proof (Z.div_mod (q * 1000000000 + 2 ^ 63) (2 ^ 64) ltac:(lia)) as E2.
  pose proof (Z.mod_pos_bound (q * 1000000000 + 2 ^ 63) (2 ^ 64) ltac:(lia)) as Hm2.
  set (e := (q * 1000000000 + 2 ^ 63) mod 2 ^ 64) in *. fold t in E2.
  assert (t * R * 2 ^ 64 = q * R * 1000000000 + R * 2 ^ 63 - R * e) as E3 by nia.
  assert (0 ≤ R * e ≤ R * 2 ^ 64) by nia. assert (q * R = B * 2 ^ 64 - m) as E4 by lia. nia.
Qed.

(** The computation of a transmission time, its result and the rounding. *)
Lemma CalculateBytesTxTime_spec R n :
  0 < R < 2 ^ 63 → 0 ≤ n < 2 ^ 29 →
  ∃ t, CalculateBytesTxTime NS R n = Ok t ∧ 0 ≤ t ∧
    2 * (t * R) ≤ 2 * (8 * n * 10 ^ 9) + R ∧
    (2 * (8 * n * 10 ^ 9)) * 2 ^ 33 ≤ (2 * (t * R) + R) * 2 ^ 33 + R ∧
    (∀ k, 8 * n * 10 ^ 9 = k * R → t = k).
Proof.
  intros HR Hn. unfold CalculateBytesTxTime, CalculateBitsTxTime. rewrite (wrap_id 32 (n * 8)) by zlia.
  set (B := n * 8). unfold of_int. rewrite !int128_ok by lia. res_simpl. rewrite (proj2 (Z.eqb_neq R 0)) by lia.
  rewrite Div_ok; [|lia|lia|left; by exists R|nia]. res_simpl.
  rewrite Z.quot_mul_cancel_r, Z.quot_div_nonneg by lia.
  assert (0 ≤ B * 2 ^ 64 / R ≤ B * 2 ^ 64) as Hq.
  { split; [apply Z.div_pos; lia|]. apply Z.div_le_upper_bound; nia. }
  unfold Seconds, From_. replace (information NS S_) with (Ok (mkInfo false true 1000000000
    ((2 ^ 128 + 1000000000 - 1) / 1000000000) (1000000000 * 2 ^ 64) true)) by (by vm_compute).
  cbn [mbind res_bind isValid ns_assert fromMul timeFrom]. rewrite Mul_int by lia. res_simpl. rewrite Round_ok by lia.
  eexists. split; [done|]. pose proof (tx_time_bound B R ltac:(lia) ltac:(lia)) as [H1 H2].
  set (t := (B * 2 ^ 64 / R * 1000000000 + 2 ^ 63) / 2 ^ 64) in *.
  assert (0 ≤ t) by (apply Z.div_pos; lia). change (10 ^ 9) with 1000000000. split; [done|]. split; [lia|]. split; [lia|].
  intros k Hk. nia.
Qed.

(** The transmission time where it is defined. *)
Definition txtime (R n : Z) : Z := match CalculateBytesTxTime NS R n with Ok t => t | Err _ => 0 end.

Lemma txtime_ok R n :
  0 < R < 2 ^ 63 → 0 ≤ n < 2 ^ 29 → CalculateBytesTxTime NS R n = Ok (txtime R n) ∧ 0 ≤ txtime R n ≤ 8 * n * 10 ^ 9 + 1.
Proof.
  intros HR Hn. destruct (CalculateBytesTxTime_spec R n HR Hn) as (t & E & H0 & H1 & _).
  unfold txtime. rewrite E. split; [done|]. nia.
Qed.

(** C40 The transmission time of [n] bytes at [R] bits a second, in nanoseconds, is the exact
    time rounded to the nearest nanosecond, up to a part in 2^33 of one, and the exact time
    where that is whole: the 128-bit intermediate results do not overflow for any packet of
    less than 2^29 bytes. *)
Theorem CalculateBytesTxTime_exact R n :
  0 < R < 2 ^ 63 → 0 ≤ n < 2 ^ 29 →
  ∃ t, CalculateBytesTxTime NS R n = Ok t ∧ 0 ≤ t ∧
    2 * (t * R) ≤ 2 * (8 * n * 10 ^ 9) + R ∧
    (2 * (8 * n * 10 ^ 9)) * 2 ^ 33 ≤ (2 * (t * R) + R) * 2 ^ 33 + R ∧
    (∀ k, 8 * n * 10 ^ 9 = k * R → t = k).
Proof. apply CalculateBytesTxTime_spec. Qed.

(** 1500 bytes at 1.5 Mb/s take 8 milliseconds. *)
Lemma CalculateBytesTxTime_exact_witness : CalculateBytesTxTime NS 1500000 1500 = Ok 8000000.
Proof.
  destruct (CalculateBytesTxTime_exact 1500000 1500 ltac:(lia) ltac:(lia)) as (t & -> & _ & _ & _ & H).
  f_equal. by apply (H 8000000).
Defined.
