(* ===== verification/GateList.v ===== *)
(** * Gate control lists of a device
      (src/contrib/tsn/model/net-device-list-config.h, net-device-list-config.cc)

    For each of the eight queues the windows in which its gate is open, in times relative to
    the start of the cycle.  A [Time] is its 64-bit count; overflow of it is undefined. *)

From S2P Require Import Prelude NsTime.
Local Open Scope Z_scope.

(** [net-device-list-config.h:44-44] PandingStatus *)
Inductive PandingStatus := PANDING | ACTIVE | TERMINATED.

#[export] Instance PandingStatus_eq_dec : EqDecision PandingStatus.
Proof. solve_decision. Defined.

(** [net-device-list-config.h:112-115] GateListConfig *)
Record GateListConfig := mkGates {
  m_openingTimes : list Z;
  m_closingTimes : list Z;
  m_openOffset : list Z;
  m_closeOffset : list Z
}.

(** [net-device-list-config.h:104-110] GateListConfig::Clear *)
Definition Gates_Clear : GateListConfig := mkGates [] [] [] [].

(** [vector.at(i)], which throws for an index out of range. *)
Definition at_ {A} (l : list A) (i : nat) : res A := match l !! i with Some x => Ok x | None => Err NsFatal end.

(** [vector.at(i) = x]. *)
Definition set_at {A} (l : list A) (i : nat) (x : A) : res (list A) :=
  match l !! i with Some _ => Ok (<[i := x]> l) | None => Err NsFatal end.

(** [net-device-list-config.h:69-78] GateListConfig::Add

    A window that does not continue the last one. *)
Definition Gates_push (opens closesTime openOffset closeOffset : Z) (g : GateListConfig) : res GateListConfig :=
  openTime ← int64 (opens + openOffset);
  ns_abort_unless (negb (closesTime <? openTime)) ≫= λ _,
  Ok (mkGates (m_openingTimes g ++ [openTime]) (m_closingTimes g ++ [closesTime])
        (m_openOffset g ++ [openOffset]) (m_closeOffset g ++ [closeOffset])).

(** [net-device-list-config.h:50-79] GateListConfig::Add *)
Definition Gates_Add (opens closes openOffset closeOffset : Z) (g : GateListConfig) : res GateListConfig :=
  closesTime ← int64 (closes - closeOffset);
  match length (m_closingTimes g) with
  | O => Gates_push opens closesTime openOffset closeOffset g
  | S vectorSize =>
      c ← at_ (m_closingTimes g) vectorSize;
      o ← at_ (m_closeOffset g) vectorSize;
      nominal ← int64 (c + o);
      if nominal =? opens then
        openTime ← at_ (m_openingTimes g) vectorSize;
        ns_abort_unless (negb (closesTime <? openTime)) ≫= λ _,
        closing ← set_at (m_closingTimes g) vectorSize closesTime;
        offsets ← set_at (m_closeOffset g) vectorSize closeOffset;
        Ok (mkGates (m_openingTimes g) closing (m_openOffset g) offsets)
      else Gates_push opens closesTime openOffset closeOffset g
  end.

(** [net-device-list-config.h:80-89] GateListConfig::Remove *)
Definition Gates_Remove (index : nat) (g : GateListConfig) : GateListConfig :=
  if ((index <? length (m_openingTimes g)) && (index <? length (m_closingTimes g)))%nat then
    mkGates (delete index (m_openingTimes g)) (delete index (m_closingTimes g))
      (delete index (m_openOffset g)) (delete index (m_closeOffset g))
  else g.

(** [net-device-list-config.h:100-102] GateListConfig::Copy

    The loop, from index [i] on; the four iterators must be valid. *)
Fixpoint Gates_Copy_loop (n i : nat) (src : GateListConfig) (g : GateListConfig) : res GateListConfig :=
  match n with
  | O => Ok g
  | S n =>
      o ← deref (m_openingTimes src !! i);
      c ← deref (m_closingTimes src !! i);
      oo ← deref (m_openOffset src !! i);
      co ← deref (m_closeOffset src !! i);
      g ← Gates_Add o c oo co g;
      Gates_Copy_loop n (S i) src g
  end.

(** [net-device-list-config.h:90-103] GateListConfig::Copy *)
Definition Gates_Copy (src : GateListConfig) : res GateListConfig :=
  Gates_Copy_loop (length (m_openingTimes src)) 0 src Gates_Clear.

(** [net-device-list-config.h:143-147] NetDeviceListConfig *)
Record NetDeviceListConfig := mkConfig {
  m_pandingStatus : PandingStatus;
  m_configChangeTime : Z;
  m_length : Z;
  m_epoch : Z;
  m_netDeviceListConfig : list GateListConfig
}.

(** [net-device-list-config.cc] NetDeviceListConfig::NetDeviceListConfig *)
Definition Config_new : NetDeviceListConfig := mkConfig PANDING 0 0 0 (replicate 8 Gates_Clear).

(** [net-device-list-config.cc] NetDeviceListConfig::SetPandingStatus *)
Definition SetPandingStatus (status : PandingStatus) (c : NetDeviceListConfig) : NetDeviceListConfig :=
  mkConfig status (m_configChangeTime c) (m_length c) (m_epoch c) (m_netDeviceListConfig c).

(** [net-device-list-config.cc] NetDeviceListConfig::SetConfigChangeTime *)
Definition SetConfigChangeTime (offset : Z) (c : NetDeviceListConfig) : NetDeviceListConfig :=
  mkConfig (m_pandingStatus c) offset (m_length c) (m_epoch c) (m_netDeviceListConfig c).

(** [net-device-list-config.cc] NetDeviceListConfig::SetLength *)
Definition SetLength (length : Z) (c : NetDeviceListConfig) : NetDeviceListConfig :=
  mkConfig (m_pandingStatus c) (m_configChangeTime c) length (m_epoch c) (m_netDeviceListConfig c).

(** [net-device-list-config.cc] NetDeviceListConfig::SetEpoch *)
Definition SetEpoch (epoch : Z) (c : NetDeviceListConfig) : NetDeviceListConfig :=
  mkConfig (m_pandingStatus c) (m_configChangeTime c) (m_length c) epoch (m_netDeviceListConfig c).

(** [net-device-list-config.cc] NetDeviceListConfig::SetGateListConfig *)
Definition SetGateListConfig (config : GateListConfig) (queueIndex : nat) (c : NetDeviceListConfig) :
    res NetDeviceListConfig :=
  g ← Gates_Copy config;
  l ← set_at (m_netDeviceListConfig c) queueIndex g;
  Ok (mkConfig (m_pandingStatus c) (m_configChangeTime c) (m_length c) (m_epoch c) l).

(** [net-device-list-config.cc] NetDeviceListConfig::GetGateListConfig *)
Definition GetGateListConfig (queueIndex : nat) (c : NetDeviceListConfig) : res GateListConfig :=
  at_ (m_netDeviceListConfig c) queueIndex.

(** [net-device-list-config.cc:55-58] NetDeviceListConfig::Copy

    The loop over the eight lists. *)
Fixpoint Config_Copy_loop (n i : nat) (src : NetDeviceListConfig) (l : list GateListConfig) :
    res (list GateListConfig) :=
  match n with
  | O => Ok l
  | S n =>
      g ← GetGateListConfig i src;
      g ← Gates_Copy g;
      l ← set_at l i g;
      Config_Copy_loop n (S i) src l
  end.

(** [net-device-list-config.cc:50-59] NetDeviceListConfig::Copy *)
Definition Config_Copy (src c : NetDeviceListConfig) : res NetDeviceListConfig :=
  l ← Config_Copy_loop 8 0 src (m_netDeviceListConfig c);
  Ok (mkConfig (m_pandingStatus src) (m_configChangeTime src) (m_length src) (m_epoch c) l).

(** [net-device-list-config.cc:60-69] NetDeviceListConfig::Clear *)
Definition Config_Clear (c : NetDeviceListConfig) : NetDeviceListConfig :=
  mkConfig PANDING 0 0 (m_epoch c) ((λ _, Gates_Clear) <$> m_netDeviceListConfig c).

(** [net-device-list-config.cc:120-125] NetDeviceListConfig::Add

    The loop over the queues. *)
Fixpoint Config_Add_loop (n i : nat) (opens closes : Z) (gateStateMap : list bool) (startOffset stopOffset : Z)
    (l : list GateListConfig) : res (list GateListConfig) :=
  match n with
  | O => Ok l
  | S n =>
      b ← at_ gateStateMap i;
      l ← (if (b : bool) then
             g ← at_ l i;
             g ← Gates_Add opens closes startOffset stopOffset g;
             set_at l i g
           else Ok l);
      Config_Add_loop n (S i) opens closes gateStateMap startOffset stopOffset l
  end.

(** [net-device-list-config.cc:117-127] NetDeviceListConfig::Add *)
Definition Config_Add (duration : Z) (gateStateMap : list bool) (startOffset stopOffset : Z)
    (c : NetDeviceListConfig) : res NetDeviceListConfig :=
  closes ← int64 (m_length c + duration);
  l ← Config_Add_loop 8 0 (m_length c) closes gateStateMap startOffset stopOffset (m_netDeviceListConfig c);
  Ok (mkConfig (m_pandingStatus c) (m_configChangeTime c) closes (m_epoch c) l).

(** ** Correctness *)

(** The windows of a queue, and the times they hold. *)
Definition windows (g : GateListConfig) : list (Z * Z) := zip (m_openingTimes g) (m_closingTimes g).

Definition open_in (ws : list (Z * Z)) (t : Z) : Prop := ∃ o c, (o, c) ∈ ws ∧ o ≤ t < c.

(** Windows in order, none empty and none touching the next, from [lo] on, up to [hi]. *)
Fixpoint windows_ok (lo : Z) (ws : list (Z * Z)) (hi : Z) : Prop :=
  match ws with
  | [] => lo ≤ hi
  | (o, c) :: ws => lo ≤ o ∧ o < c ∧ c ≤ hi ∧ match ws with [] => True | (o', _) :: _ => c < o' end ∧ windows_ok c ws hi
  end.

(** The lists of a queue without offsets. *)
Record gates_ok (len : Z) (g : GateListConfig) : Prop := {
  go_closing : length (m_closingTimes g) = length (m_openingTimes g);
  go_open0 : m_openOffset g = replicate (length (m_openingTimes g)) 0;
  go_close0 : m_closeOffset g = replicate (length (m_openingTimes g)) 0;
  go_windows : windows_ok 0 (windows g) len
}.

Lemma windows_ok_lo lo ws hi : windows_ok lo ws hi → lo ≤ hi.
Proof. destruct ws as [|[o c] ws]; cbn; lia. Qed.

Lemma windows_ok_mono lo ws hi hi' : windows_ok lo ws hi → hi ≤ hi' → windows_ok lo ws hi'.
Proof. revert lo. induction ws as [|[o c] ws IH]; cbn; intros lo H Hle; [lia|]. naive_solver lia. Qed.

Lemma windows_ok_bounds lo ws hi o c : windows_ok lo ws hi → (o, c) ∈ ws → lo ≤ o ∧ o < c ∧ c ≤ hi.
Proof.
  revert lo. induction ws as [|[o' c'] ws IH]; cbn; intros lo H Hin; [by apply not_elem_of_nil in Hin|].
  destruct H as (? & ? & ? & _ & H). apply elem_of_cons in Hin as [[= -> ->]|Hin]; [lia|].
  destruct (IH c' H Hin). lia.
Qed.

(** A window behind the others: it continues the last one or not. *)
Lemma windows_ok_snoc lo ws hi hi' :
  windows_ok lo ws hi → hi < hi' →
  (∀ o c, last ws = Some (o, c) → c < hi) → windows_ok lo (ws ++ [(hi, hi')]) hi'.
Proof.
  revert lo. induction ws as [|[o c] ws IH]; cbn [windows_ok app]; intros lo H Hlt Hlast; [lia|].
  destruct H as (? & ? & ? & Hn & H). conj; try lia.
  - destruct ws as [|[o' c'] ws]; cbn; [|done]. apply (Hlast o). done.
  - apply IH; [done|done|]. intros o' c' Hl. apply (Hlast o'). destruct ws; done.
Qed.

Lemma windows_ok_extend lo ws hi hi' o :
  windows_ok lo (ws ++ [(o, hi)]) hi → hi < hi' → windows_ok lo (ws ++ [(o, hi')]) hi'.
Proof.
  revert lo. induction ws as [|[o' c'] ws IH]; cbn [windows_ok app]; intros lo H Hlt; [lia|].
  destruct H as (? & ? & ? & Hn & H). conj; try lia; [|by apply IH]. by destruct ws as [|[] ws].
Qed.

Lemma open_in_app ws ws' t : open_in (ws ++ ws') t ↔ open_in ws t ∨ open_in ws' t.
Proof. unfold open_in. setoid_rewrite elem_of_app. naive_solver. Qed.

Lemma open_in_single o c t : open_in [(o, c)] t ↔ o ≤ t < c.
Proof. unfold open_in. setoid_rewrite list_elem_of_singleton. naive_solver. Qed.

Lemma gates_nil len : 0 ≤ len → gates_ok len Gates_Clear.
Proof. by constructor. Qed.

Lemma gates_mono len len' g : gates_ok len g → len ≤ len' → gates_ok len' g.
Proof. intros [] ?. constructor; try done. by eapply windows_ok_mono. Qed.

Lemma windows_last g len :
  gates_ok len g → length (m_closingTimes g) ≠ 0%nat →
  ∃ op o cl c, m_openingTimes g = op ++ [o] ∧ m_closingTimes g = cl ++ [c] ∧ length op = length cl ∧
    windows g = zip op cl ++ [(o, c)].
Proof.
  intros [Hl _ _ _] Hne. unfold windows.
  destruct (m_openingTimes g) as [|o op _] using rev_ind; [by rewrite Hl in Hne|].
  destruct (m_closingTimes g) as [|c cl _] using rev_ind; [done|].
  rewrite !length_app in Hl. cbn in Hl. exists op, o, cl, c. conj; [done|done|lia|].
  rewrite zip_with_app by lia. done.
Qed.

(** Adding a slot: the gate is open in the new slot too. *)
Lemma Gates_Add_ok len dur g :
  gates_ok len g → 0 ≤ len → 0 < dur → len + dur < 2 ^ 63 →
  ∃ g', Gates_Add len (len + dur) 0 0 g = Ok g' ∧ gates_ok (len + dur) g' ∧
    ∀ t, open_in (windows g') t ↔ open_in (windows g) t ∨ len ≤ t < len + dur.
Proof.
  intros W Hlen Hdur Hmax. pose proof W as [Hl Ho Hc Hw]. unfold Gates_Add. rewrite Z.sub_0_r, int64_ok by lia. res_simpl.
  assert ((∀ o c, last (windows g) = Some (o, c) → c < len) → ∃ g',
    Gates_push len (len + dur) 0 0 g = Ok g' ∧ gates_ok (len + dur) g' ∧
    ∀ t, open_in (windows g') t ↔ open_in (windows g) t ∨ len ≤ t < len + dur) as Hpush.
  { intros Hlast. unfold Gates_push. rewrite Z.add_0_r, int64_ok by lia. res_simpl.
    rewrite (proj2 (Z.ltb_ge _ _)) by lia. cbn [negb ns_abort_unless mbind res_bind]. eexists. split; [done|].
    assert (windows (mkGates (m_openingTimes g ++ [len]) (m_closingTimes g ++ [len + dur]) (m_openOffset g ++ [0])
      (m_closeOffset g ++ [0])) = windows g ++ [(len, len + dur)]) as Hws.
    { unfold windows. cbn. rewrite zip_with_app by done. done. }
    split; [|intros t; by rewrite Hws, open_in_app, open_in_single].
    constructor; [cbn; by rewrite !length_app, Hl|cbn; by rewrite Ho, length_app, replicate_add|
                  cbn; by rewrite Hc, length_app, replicate_add|].
    rewrite Hws. apply windows_ok_snoc; [done|lia|done]. }
  destruct (length (m_closingTimes g)) as [|n] eqn:En.
  { apply Hpush. intros o c Hlast. unfold windows in Hlast. destruct (m_closingTimes g); [|done].
    by rewrite zip_with_nil_r in Hlast. }
  destruct (windows_last g len W ltac:(by rewrite En)) as (op & o & cl & c & Eo & Ec & Elen & Ews).
  assert (n = length cl) as -> by (rewrite Ec, length_app in En; cbn in En; lia). unfold at_, set_at.
  assert (m_closingTimes g !! length cl = Some c) as -> by (rewrite Ec; by apply list_lookup_middle).
  assert (m_closeOffset g !! length cl = Some 0) as ->.
  { rewrite Hc. apply lookup_replicate_2. rewrite Eo, length_app. cbn. lia. }
  res_simpl. pose proof (windows_ok_bounds 0 (windows g) len o c Hw) as Hb. rewrite Ews in Hb.
  destruct Hb as (? & ? & ?); [apply elem_of_app; right; by left|].
  rewrite Z.add_0_r, int64_ok by lia. res_simpl. destruct (Z.eqb_spec c len) as [->|Hne].
  2: { apply Hpush. intros o' c' Hlast. rewrite Ews, last_snoc in Hlast. simplify_eq. lia. }
  assert (m_openingTimes g !! length cl = Some o) as -> by (rewrite Eo, <- Elen; by apply list_lookup_middle).
  res_simpl. rewrite (proj2 (Z.ltb_ge _ _)) by lia. cbn [negb ns_abort_unless mbind res_bind]. eexists. split; [done|].
  rewrite Ec, <- (Nat.add_0_r (length cl)), insert_app_r. cbn [list_insert insert].
  assert (windows (mkGates (m_openingTimes g) (cl ++ [len + dur]) (m_openOffset g)
    (<[(length cl + 0)%nat := 0]> (m_closeOffset g))) = zip op cl ++ [(o, len + dur)]) as Hws.
  { unfold windows. cbn. rewrite Eo, zip_with_app by done. done. }
  rewrite Ews in Hw. split.
  - constructor; [|done| |].
    + cbn. rewrite Eo, !length_app. cbn. lia.
    + cbn. rewrite list_insert_id; [done|]. rewrite Hc. apply lookup_replicate_2. rewrite Eo, length_app. cbn. lia.
    + rewrite Hws. apply windows_ok_extend with len; [done|lia].
  - intros t. rewrite Hws, Ews, !open_in_app, !open_in_single. intuition lia.
Qed.

(** *** Copies *)

(** The lists of windows without offsets. *)
Definition gates (ws : list (Z * Z)) : GateListConfig :=
  mkGates ws.*1 ws.*2 (replicate (length ws) 0) (replicate (length ws) 0).

Lemma gates_of g len : gates_ok len g → g = gates (windows g).
Proof.
  intros [Hl Ho Hc _]. destruct g as [op cl oo co]. unfold gates, windows. cbn in *.
  rewrite fst_zip, snd_zip, length_zip by lia. subst. do 2 f_equal; lia.
Qed.

Lemma gates_lookup pre o c ws :
  let g := gates (pre ++ (o, c) :: ws) in
  m_openingTimes g !! length pre = Some o ∧ m_closingTimes g !! length pre = Some c ∧
  m_openOffset g !! length pre = Some 0 ∧ m_closeOffset g !! length pre = Some 0.
Proof.
  cbn. rewrite !fmap_app, length_app. cbn [length fmap list_fmap].
  rewrite !list_lookup_middle by (by rewrite length_fmap). rewrite !lookup_replicate_2 by lia. done.
Qed.

Lemma Gates_Copy_loop_ok n lo hi pre ws :
  windows_ok lo (pre ++ ws) hi → - 2 ^ 63 ≤ lo → hi < 2 ^ 63 → n = length ws →
  Gates_Copy_loop n (length pre) (gates (pre ++ ws)) (gates pre) = Ok (gates (pre ++ ws)).
Proof.
  revert pre ws. induction n as [|n IH]; intros pre [|[o c] ws] Hw Hlo Hhi Hn; try done; cbn [Gates_Copy_loop].
  { by rewrite app_nil_r. }
  pose proof (windows_ok_bounds lo _ hi o c Hw) as Hb. destruct Hb as (? & ? & ?); [apply elem_of_app; right; by left|].
  destruct (gates_lookup pre o c ws) as (-> & -> & -> & ->). res_simpl.
  assert (Gates_Add o c 0 0 (gates pre) = Ok (gates (pre ++ [(o, c)]))) as ->.
  { unfold Gates_Add. rewrite Z.sub_0_r, int64_ok by lia. res_simpl.
    assert (Gates_push o c 0 0 (gates pre) = Ok (gates (pre ++ [(o, c)]))) as Hpush.
    { unfold Gates_push. rewrite Z.add_0_r, int64_ok by lia. res_simpl. rewrite (proj2 (Z.ltb_ge _ _)) by lia.
      cbn [negb ns_abort_unless mbind res_bind]. unfold gates. cbn.
      by rewrite !fmap_app, length_app, replicate_add. }
    destruct pre as [|[o' c'] pre _] using rev_ind; [done|].
    replace (length (m_closingTimes (gates (pre ++ [(o', c')])))) with (S (length pre))
      by (cbn; rewrite length_fmap, length_app; cbn; lia).
    destruct (gates_lookup pre o' c' []) as (_ & E1 & _ & E2). unfold at_. rewrite E1, E2. res_simpl.
    rewrite <- app_assoc in Hw.
    pose proof (windows_ok_bounds lo _ hi o' c' Hw) as Hb. destruct Hb as (? & ? & ?); [apply elem_of_app; right; by left|].
    rewrite Z.add_0_r, int64_ok by lia. res_simpl.
    assert (c' < o) as Hsep.
    { clear - Hw. revert lo Hw. induction pre as [|[a b] pre IH]; cbn; intros lo Hw; [lia|].
      destruct Hw as (_ & _ & _ & _ & Hw). by eapply IH. }
    rewrite (proj2 (Z.eqb_neq _ _)) by lia. exact Hpush. }
  res_simpl. replace (S (length pre)) with (length (pre ++ [(o, c)])) by (rewrite length_app; cbn; lia).
  replace (pre ++ (o, c) :: ws) with ((pre ++ [(o, c)]) ++ ws) by (by rewrite <- app_assoc).
  apply IH; [by rewrite <- app_assoc|done|done|]. cbn in Hn. lia.
Qed.

(** Copying lists without offsets changes nothing. *)
Lemma Gates_Copy_ok len g : gates_ok len g → len < 2 ^ 63 → Gates_Copy g = Ok g.
Proof.
  intros W Hlen. pose proof (go_windows _ _ W) as Hw. pose proof (gates_of g len W) as E.
  pose proof (Gates_Copy_loop_ok (length (windows g)) 0 len [] (windows g) Hw ltac:(lia) Hlen eq_refl) as Hc.
  cbn [app length] in Hc. rewrite <- E in Hc. unfold Gates_Copy.
  replace (length (m_openingTimes g)) with (length (windows g)); [done|].
  unfold windows. rewrite length_zip, (go_closing _ _ W). lia.
Qed.

(** *** Schedules *)

(** The entries of a gate control list: how long, and which gates are open. *)
Definition entry : Type := Z * list bool.

Definition cycle (es : list entry) : Z := foldr (λ e n, e.1 + n) 0 es.

(** Whether the list opens the gate [i] at the time [t] of the cycle. *)
Fixpoint opens (i : nat) (es : list entry) (t : Z) : bool :=
  match es with
  | [] => false
  | (d, m) :: es => if t <? d then (0 <=? t) && default false (m !! i) else opens i es (t - d)
  end.

Fixpoint add_all (es : list entry) (c : NetDeviceListConfig) : res NetDeviceListConfig :=
  match es with
  | [] => Ok c
  | (d, m) :: es => c ← Config_Add d m 0 0 c; add_all es c
  end.

Definition entry_ok (e : entry) : Prop := 0 < e.1 ∧ length e.2 = 8%nat.

(** The lists of a device without offsets. *)
Record config_ok (c : NetDeviceListConfig) : Prop := {
  co_length : 0 ≤ m_length c < 2 ^ 63;
  co_queues : length (m_netDeviceListConfig c) = 8%nat;
  co_gates : Forall (gates_ok (m_length c)) (m_netDeviceListConfig c)
}.

Definition gate_open (c : NetDeviceListConfig) (i : nat) (t : Z) : Prop :=
  ∃ g, m_netDeviceListConfig c !! i = Some g ∧ open_in (windows g) t.

Lemma set_at_ok {A} (l : list A) i x : (i < length l)%nat → set_at l i x = Ok (<[i := x]> l).
Proof. unfold set_at. intros [y ->]%lookup_lt_is_Some. done. Qed.

(** The loop of [Add]: the queues from [i] on get the new slot, or not. *)
Lemma Config_Add_loop_ok n i len d m l :
  0 ≤ len → 0 < d → len + d < 2 ^ 63 → length m = 8%nat → length l = 8%nat → (i + n = 8)%nat →
  (∀ j g, l !! j = Some g → gates_ok (if decide (j < i)%nat then len + d else len) g) →
  ∃ l', Config_Add_loop n i len (len + d) m 0 0 l = Ok l' ∧ length l' = 8%nat ∧
    Forall (gates_ok (len + d)) l' ∧
    ∀ j g g', l !! j = Some g → l' !! j = Some g' →
      ∀ t, open_in (windows g') t ↔
           open_in (windows g) t ∨ ((i ≤ j)%nat ∧ len ≤ t < len + d ∧ m !! j = Some true).
Proof.
  intros Hlen Hd Hmax Hm. revert i l. induction n as [|n IH]; intros i l Hl Hi Hg; cbn [Config_Add_loop].
  { exists l. conj; [done|done| |].
    - apply Forall_lookup. intros j g Hj. specialize (Hg j g Hj). apply lookup_lt_Some in Hj.
      rewrite decide_True in Hg by lia. done.
    - intros j g g' Hj Hj' t. simplify_eq. apply lookup_lt_Some in Hj. intuition lia. }
  destruct (lookup_lt_is_Some_2 m i) as [b Hb]; [lia|]. destruct (lookup_lt_is_Some_2 l i) as [g Hgi]; [lia|].
  assert (at_ m i = Ok b) as -> by (unfold at_; by rewrite Hb). res_simpl.
  assert (gates_ok len g) as Wg by (specialize (Hg i g Hgi); by rewrite decide_False in Hg by lia).
  assert (∃ g', (if b then g0 ← at_ l i; g0 ← Gates_Add len (len + d) 0 0 g0; set_at l i g0 else Ok l) =
      Ok (<[i := g']> l) ∧ gates_ok (len + d) g' ∧
      ∀ t, open_in (windows g') t ↔ open_in (windows g) t ∨ (len ≤ t < len + d ∧ b = true)) as (g' & -> & Wg' & Hg').
  { destruct b.
    - destruct (Gates_Add_ok len d g Wg Hlen Hd Hmax) as (g' & E & Wg' & Hg'). exists g'.
      assert (at_ l i = Ok g) as -> by (unfold at_; by rewrite Hgi). res_simpl. rewrite E. res_simpl. rewrite set_at_ok by lia.
      split; [done|]. split; [done|]. intros t. rewrite Hg'. naive_solver.
    - exists g. rewrite list_insert_id by done. split; [done|]. split; [eapply gates_mono; [done|lia]|].
      intros t. naive_solver. }
  res_simpl. destruct (IH (S i) (<[i := g']> l)) as (l' & -> & Hl' & Hok & Hw); [by rewrite length_insert|lia| |].
  { intros j gj Hj. destruct (decide (j = i)) as [->|Hne].
    - rewrite list_lookup_insert_eq in Hj by lia. simplify_eq. by rewrite decide_True by lia.
    - rewrite list_lookup_insert_ne in Hj by done. specialize (Hg j gj Hj).
      destruct (decide (j < i)%nat); [rewrite decide_True by lia|rewrite decide_False by lia]; done. }
  exists l'. conj; [done|done|done|]. intros j gj gj' Hj Hj' t. destruct (decide (j = i)) as [->|Hne].
  - simplify_eq. rewrite (Hw i g' gj'); [|by rewrite list_lookup_insert_eq by lia|done]. rewrite Hg'.
    naive_solver lia.
  - rewrite (Hw j gj gj'); [|by rewrite list_lookup_insert_ne by done|done]. intuition lia.
Qed.

Lemma Config_Add_ok d m c :
  config_ok c → entry_ok (d, m) → m_length c + d < 2 ^ 63 →
  ∃ c', Config_Add d m 0 0 c = Ok c' ∧ config_ok c' ∧ m_length c' = m_length c + d ∧
    m_configChangeTime c' = m_configChangeTime c ∧ m_epoch c' = m_epoch c ∧
    ∀ i t, gate_open c' i t ↔ gate_open c i t ∨ ((i < 8)%nat ∧ m_length c ≤ t < m_length c + d ∧ m !! i = Some true).
Proof.
  intros [Hl Hq Hg] [Hd Hm] Hmax. cbn in Hd, Hm. unfold Config_Add. rewrite int64_ok by lia. res_simpl.
  destruct (Config_Add_loop_ok 8 0 (m_length c) d m (m_netDeviceListConfig c)) as (l' & -> & Hl' & Hok & Hw);
    try done; [lia|..].
  { intros j g Hj. rewrite decide_False by lia. rewrite Forall_lookup in Hg. by eapply Hg. }
  res_simpl. eexists. split; [done|]. cbn. conj; try done; [constructor; cbn; [lia|done|done]|].
  intros i t. unfold gate_open. cbn. split.
  - intros (g' & Hi & Ho). pose proof (lookup_lt_Some _ _ _ Hi).
    destruct (lookup_lt_is_Some_2 (m_netDeviceListConfig c) i) as [g Hgi]; [lia|].
    apply (Hw i g g' Hgi Hi) in Ho as [Ho|Ho]; [left; by exists g|right]. split; [lia|]. naive_solver.
  - intros Ho. assert (i < 8)%nat as Hi.
    { destruct Ho as [(g & Hi & _)|[Hi _]]; [apply lookup_lt_Some in Hi|]; lia. }
    destruct (lookup_lt_is_Some_2 (m_netDeviceListConfig c) i) as [g Hgi]; [lia|].
    destruct (lookup_lt_is_Some_2 l' i) as [g' Hgi']; [lia|]. exists g'. split; [done|].
    apply (Hw i g g' Hgi Hgi'). destruct Ho as [(g0 & ? & Ho)|(_ & Ho)]; [simplify_eq; by left|].
    right. split; [lia|]. naive_solver.
Qed.

Lemma cycle_pos es : Forall entry_ok es → 0 ≤ cycle es.
Proof. induction 1 as [|[d m] es [Hd _] _ IH]; cbn in *; [lia|]. fold (cycle es). lia. Qed.

Lemma opens_range i es t : Forall entry_ok es → opens i es t = true → 0 ≤ t < cycle es.
Proof.
  intros Hes. revert t. induction Hes as [|[d m] es [Hd _] Hes IH]; cbn; intros t Ht; [done|].
  fold (cycle es). cbn in Hd. pose proof (cycle_pos es Hes). destruct (Z.ltb_spec t d).
  - apply andb_true_iff in Ht as [?%Z.leb_le _]. lia.
  - apply IH in Ht. lia.
Qed.

Lemma add_all_ok es c :
  Forall entry_ok es → config_ok c → m_length c + cycle es < 2 ^ 63 →
  ∃ c', add_all es c = Ok c' ∧ config_ok c' ∧ m_length c' = m_length c + cycle es ∧
    m_configChangeTime c' = m_configChangeTime c ∧ m_epoch c' = m_epoch c ∧
    ∀ i t, (i < 8)%nat → gate_open c' i t ↔ gate_open c i t ∨ opens i es (t - m_length c) = true.
Proof.
  intros Hes. revert c. induction Hes as [|[d m] es He Hes IH]; intros c W Hmax; cbn [add_all].
  { exists c. cbn. conj; try done; [lia|]. naive_solver. }
  pose proof (cycle_pos es Hes). cbn in Hmax. fold (cycle es) in Hmax.
  destruct (Config_Add_ok d m c W He) as (c1 & -> & W1 & Hl1 & Ht1 & He1 & Hg1); [lia|]. res_simpl.
  destruct (IH c1 W1) as (c' & -> & W' & Hl' & Ht' & He' & Hg'); [lia|].
  exists c'. cbn. fold (cycle es). conj; [done|done|lia|congruence|congruence|].
  intros i t Hi. rewrite Hg', Hg1, Hl1 by done. destruct He as [Hd Hm]. cbn in Hd, Hm.
  destruct (lookup_lt_is_Some_2 m i) as [b Hb]; [lia|]. rewrite Hb. cbn.
  replace (t - (m_length c + d)) with (t - m_length c - d) by lia. destruct (Z.ltb_spec (t - m_length c) d).
  - destruct (opens i es (t - m_length c - d)) eqn:Eo.
    { apply opens_range in Eo; [lia|done]. }
    destruct b, (Z.leb_spec 0 (t - m_length c)); cbn; naive_solver lia.
  - naive_solver lia.
Qed.

Lemma Config_Copy_ok src c :
  config_ok src → length (m_netDeviceListConfig c) = 8%nat →
  Config_Copy src c = Ok (mkConfig (m_pandingStatus src) (m_configChangeTime src) (m_length src) (m_epoch c)
                            (m_netDeviceListConfig src)).
Proof.
  intros [Hl Hq Hg] Hc. unfold Config_Copy. destruct src as [ps ct len ep l]. destruct c as [ps' ct' len' ep' l']. cbn in *.
  do 8 (destruct l as [|? l]; [done|]). destruct l; [|done].
  do 8 (destruct l' as [|? l']; [done|]). destruct l'; [|done].
  repeat match goal with H : Forall _ (_ :: _) |- _ => apply Forall_cons in H as [? H] end.
  cbn [Config_Copy_loop].
  repeat (unfold GetGateListConfig at 1, at_ at 1; cbn [m_netDeviceListConfig lookup list_lookup mbind res_bind];
    rewrite (Gates_Copy_ok len) by (done || lia); unfold set_at at 1;
    cbn [lookup list_lookup mbind res_bind insert list_insert]).
  done.
Qed.

Lemma Config_new_ok : config_ok Config_new.
Proof. constructor; [done|done|]. repeat (constructor; [by apply gates_nil|]). constructor. Qed.

Lemma Config_new_closed i t : ¬ gate_open Config_new i t.
Proof.
  intros (g & Hg & Ho). apply lookup_replicate in Hg as [-> _]. destruct Ho as (o & c & Hin & _).
  by apply not_elem_of_nil in Hin.
Qed.

(** C35 The schedule of a device: adding the entries of a gate control list, each a duration
    and the set of open gates, to a new configuration, and copying the configuration, as a
    queue disc does that is given it, yields for every queue a list of windows, in order, none
    empty and no two touching, that holds exactly the times of the cycle at which the entry
    in force opens the gate of the queue; the length is the sum of the durations. *)
Theorem Config_Add_schedule es :
  Forall entry_ok es → cycle es < 2 ^ 63 →
  ∃ c c', add_all es Config_new = Ok c ∧ Config_Copy c Config_new = Ok c' ∧
    m_length c' = cycle es ∧ config_ok c' ∧
    ∀ i t, (i < 8)%nat → gate_open c' i t ↔ opens i es t = true.
Proof.
  intros Hes Hmax. destruct (add_all_ok es Config_new Hes Config_new_ok) as (c & Hc & W & Hl & _ & _ & Hg); [done|].
  exists c. eexists. split; [done|]. split; [by apply Config_Copy_ok|]. cbn. conj; [done|by destruct W|].
  intros i t Hi. transitivity (gate_open c i t); [done|]. rewrite Hg by done. cbn. rewrite Z.sub_0_r.
  pose proof (Config_new_closed i t). naive_solver.
Qed.

Lemma Config_Add_schedule_witness :
  let es := [(10, [true; false; false; false; false; false; false; false]);
             (20, [true; true; false; false; false; false; false; false])] in
  ∃ c c', add_all es Config_new = Ok c ∧ Config_Copy c Config_new = Ok c' ∧ m_length c' = 30 ∧
    gate_open c' 1 15 ∧ ¬ gate_open c' 1 5.
Proof.
  intros es. destruct (Config_Add_schedule es) as (c & c' & H1 & H2 & H3 & _ & Hg).
  - repeat constructor.
  - by vm_compute.
  - exists c, c'. split; [exact H1|]. split; [exact H2|]. split; [exact H3|]. split.
    + apply Hg; [lia|]. by vm_compute.
    + intros H. apply Hg in H; [|lia]. by vm_compute in H.
Defined.

(** With offsets a copy of a queue's list is another list: the window [[a, d - b)] that
    [Add] makes of the slot [[0, d)] with the offsets [a] and [b] becomes [[2a, d - 2b)] in
    the copy, since copying adds the offsets to the times once more.  And a copy of a
    configuration keeps the epoch of the configuration that is overwritten, so that what
    [SetEpoch] set is lost. *)
Theorem Copy_reapplies_offsets a b d src e c :
  0 ≤ a → 0 ≤ b → 2 * a ≤ d - 2 * b → d < 2 ^ 62 →
  config_ok src → length (m_netDeviceListConfig c) = 8%nat →
  (∃ g g', Gates_Add 0 d a b Gates_Clear = Ok g ∧ windows g = [(a, d - b)] ∧
     Gates_Copy g = Ok g' ∧ windows g' = [(2 * a, d - 2 * b)]) ∧
  (∃ c', Config_Copy (SetEpoch e src) c = Ok c' ∧ m_epoch c' = m_epoch c).
Proof.
  intros Ha Hb Hd Hmax W Hc. split.
  - eexists _, _. unfold Gates_Copy, Gates_Add at 1. rewrite int64_ok by lia. res_simpl. cbn [length Gates_Clear m_closingTimes].
    unfold Gates_push. rewrite int64_ok by lia. res_simpl. rewrite (proj2 (Z.ltb_ge _ _)) by lia.
    cbn [negb ns_abort_unless mbind res_bind]. split; [done|]. split; [done|]. cbn -[int64 Z.ltb Z.mul].
    unfold Gates_Add. rewrite int64_ok by lia. res_simpl. cbn [length Gates_Clear m_closingTimes].
    unfold Gates_push. rewrite int64_ok by lia. res_simpl. rewrite (proj2 (Z.ltb_ge _ _)) by lia.
    cbn [negb ns_abort_unless mbind res_bind]. split; [done|]. cbn -[Z.mul]. f_equal. apply pair_equal_spec. lia.
  - eexists. split; [|].
    + apply Config_Copy_ok; [|done]. by destruct W.
    + done.
Qed.

Lemma Copy_reapplies_offsets_witness :
  ∃ g g', Gates_Add 0 100 5 3 Gates_Clear = Ok g ∧ windows g = [(5, 97)] ∧
    Gates_Copy g = Ok g' ∧ windows g' = [(10, 94)].
Proof.
  destruct (Copy_reapplies_offsets 5 3 100 Config_new 7 Config_new) as ((g & g' & H) & _);
    [lia|lia|lia|lia|apply Config_new_ok|done|]. exists g, g'. exact H.
Defined.
