(* ===== verification/TransmissionGate.v ===== *)
(** * Transmission gates
      (src/contrib/tsn/model/transmisson-gate-qdisc.h, transmisson-gate-qdisc.cc)

    The child queue disc of a time aware shaper: a queue behind a gate that is open or closed
    until a given time. *)

From stdpp Require Import strings.
From S2P Require Import Prelude NsTime QueueDisc.
From S2P Require PacketQueue.
Local Open Scope Z_scope.

(** [transmisson-gate-qdisc.h:45-57] GateState

    Whether the gate is open, and the time of the device at which that may change; [-1] is
    no time. *)
Record GateState := mkGateState {
  state : bool;
  interval : Z
}.

(** [transmisson-gate-qdisc.h:48-51] GateState::GateState *)
Definition GateState_new : GateState := mkGateState true (-1).

#[export] Instance GateState_eq_dec : EqDecision GateState.
Proof. solve_decision. Defined.

(** [transmisson-gate-qdisc.h:96-99] TransmissonGateQdisc

    With what it inherits and its two internal queues.  [g_getNow] is whether [m_getNow] is
    set, the clock of the device. *)
Record Gate := mkGate {
  g_base : base;
  g_queue : PacketQueue.Queue (Item := Item);
  g_queue1 : PacketQueue.Queue (Item := Item);
  m_linkBandwidth : Z;
  m_gateState : GateState;
  g_getNow : bool;
  m_keepAliveTime : Z
}.

Definition set_base (b : base) (g : Gate) : Gate :=
  mkGate b (g_queue g) (g_queue1 g) (m_linkBandwidth g) (m_gateState g) (g_getNow g) (m_keepAliveTime g).

Definition LIMIT_EXCEEDED_DROP : string := "Queue disc limit exceeded".
Definition PAKET_LIVE_EXCEEDED_DROP : string := "Paket live time exceeded".

(** The queue after an operation on it, and its traces, which the queue disc hears. *)
Definition upd_queue (qtr : list (PacketQueue.trace Item)) (q : PacketQueue.Queue) (g : Gate) : list trace * Gate :=
  let '(tr, b) := notify on_internal qtr (g_base g) in
  (tr, mkGate b q (g_queue1 g) (m_linkBandwidth g) (m_gateState g) (g_getNow g) (m_keepAliveTime g)).

(** [transmisson-gate-qdisc.cc] TransmissonGateQdisc::SetGateState *)
Definition SetGateState (newState : GateState) (g : Gate) : Gate :=
  mkGate (g_base g) (g_queue g) (g_queue1 g) (m_linkBandwidth g) (mkGateState (state newState) (interval newState))
    (g_getNow g) (m_keepAliveTime g).

(** [transmisson-gate-qdisc.cc] TransmissonGateQdisc::GetGateState *)
Definition GetGateState (g : Gate) : GateState := m_gateState g.

(** [transmisson-gate-qdisc.cc] TransmissonGateQdisc::GetDeviceTime *)
Definition GetDeviceTime (clk : Clock) (g : Gate) : Z := if g_getNow g then c_dev clk else c_sim clk.

(** [transmisson-gate-qdisc.cc:242-248] TransmissonGateQdisc::CheckConfig

    The internal queues, on a queue disc without classes and queues. *)
Definition internal_queues (maxSize : PacketQueue.QueueSize) :
    res (PacketQueue.Queue (Item := Item) * PacketQueue.Queue (Item := Item)) :=
  q ← PacketQueue.SetMaxSize maxSize PacketQueue.Queue_new;
  q1 ← PacketQueue.SetMaxSize (PacketQueue.mkQueueSize PacketQueue.PACKETS 1) PacketQueue.Queue_new;
  Ok (q, q1).

(** [transmisson-gate-qdisc.cc:252-258] TransmissonGateQdisc::InitializeParams *)
Definition InitializeParams (g : Gate) : Gate := SetGateState (mkGateState true (-1)) g.

Section gate.
(** The resolution of the simulation. *)
Variable resolution : Unit.

(** [transmisson-gate-qdisc.cc] TransmissonGateQdisc::GetTransmissionDuration *)
Definition GetTransmissionDuration (paketref : Item) (g : Gate) : res Z :=
  CalculateBytesTxTime resolution (m_linkBandwidth g) (it_size paketref).

(** [transmisson-gate-qdisc.cc:214-224] TransmissonGateQdisc::CheckLiveTimes

    The loop: it drops a packet in every round but the last. *)
Fixpoint CheckLiveTimes_loop (fuel : nat) (now : Z) (g : Gate) : res (list trace * Gate) :=
  match fuel with
  | O => Err OutOfFuel
  | S fuel =>
      paketref ← PacketQueue.Peek (g_queue g);
      expired ← (if 0 <? m_keepAliveTime g then
                   match paketref with
                   | Some i => t ← int64 (now - m_keepAliveTime g); Ok (it_timeStamp i <? t)
                   | None => Ok false
                   end
                 else Ok false);
      if (expired : bool) then
        '(item, qtr, q) ← PacketQueue.Dequeue it_size (g_queue g);
        let '(tr, g) := upd_queue qtr q g in
        i ← deref item;
        let '(tr', b) := DropAfterDequeue i PAKET_LIVE_EXCEEDED_DROP (g_base g) in
        '(tr'', g) ← CheckLiveTimes_loop fuel now (set_base b g);
        Ok (tr ++ tr' ++ tr'', g)
      else Ok ([], g)
  end.

(** [transmisson-gate-qdisc.cc:206-226] TransmissonGateQdisc::CheckLiveTimes *)
Definition CheckLiveTimes (clk : Clock) (g : Gate) : res (list trace * Gate) :=
  CheckLiveTimes_loop (S (length (PacketQueue.m_packets (g_queue g)))) (GetDeviceTime clk g) g.

(** [transmisson-gate-qdisc.cc] TransmissonGateQdisc::DoPeek *)
Definition DoPeek (clk : Clock) (g : Gate) : res (option Item * list trace * Gate) :=
  item ← PacketQueue.Peek (g_queue g);
  Ok (item, [], g).

(** [transmisson-gate-qdisc.cc] TransmissonGateQdisc::DoEnqueue *)
Definition DoEnqueue (clk : Clock) (item : Item) (g : Gate) : res (bool * list trace * Gate) :=
  '(tr, g) ← CheckLiveTimes clk g;
  full ← PacketQueue.size_eq (PacketQueue.GetMaxSize (g_queue g))
           (PacketQueue.mkQueueSize PacketQueue.PACKETS (PacketQueue.GetNPackets (g_queue g)));
  if (full : bool) then
    let '(tr', b) := DropBeforeEnqueue item LIMIT_EXCEEDED_DROP (g_base g) in
    Ok (false, tr ++ tr', set_base b g)
  else
    '(retval, qtr, q) ← PacketQueue.Enqueue it_size item (g_queue g);
    let '(tr', g) := upd_queue qtr q g in
    Ok (retval, tr ++ tr', g).

(** [transmisson-gate-qdisc.cc] TransmissonGateQdisc::DoDequeue *)
Definition DoDequeue (clk : Clock) (g : Gate) : res (option Item * list trace * Gate) :=
  '(tr, g) ← CheckLiveTimes clk g;
  paketref ← PacketQueue.Peek (g_queue g);
  match paketref with
  | None => Ok (None, tr, g)
  | Some i =>
      if state (m_gateState g) then
        let dequeue :=
          '(item, qtr, q) ← PacketQueue.Dequeue it_size (g_queue g);
          let '(tr', g) := upd_queue qtr q g in
          Ok (item, tr ++ tr', g) in
        if 0 <? interval (m_gateState g) then
          transmissionDuration ← GetTransmissionDuration i g;
          window ← int64 (interval (m_gateState g) - GetDeviceTime clk g);
          if window <? transmissionDuration then Ok (None, tr, g) else dequeue
        else dequeue
      else Ok (None, tr, g)
  end.

(** The new time stamp of an item, where it is held. *)
Definition stamp (ptr t : Z) (i : Item) : Item :=
  if it_ptr i =? ptr then mkItem (it_ptr i) (it_size i) t (it_txq i) (it_priority i) else i.

Definition stamp_queue (ptr t : Z) (q : PacketQueue.Queue (Item := Item)) : PacketQueue.Queue :=
  PacketQueue.mkQueue (PacketQueue.m_nBytes q) (PacketQueue.m_nTotalReceivedBytes q) (PacketQueue.m_nPackets q)
    (PacketQueue.m_nTotalReceivedPackets q) (PacketQueue.m_nTotalDroppedBytes q)
    (PacketQueue.m_nTotalDroppedBytesBeforeEnqueue q) (PacketQueue.m_nTotalDroppedBytesAfterDequeue q)
    (PacketQueue.m_nTotalDroppedPackets q) (PacketQueue.m_nTotalDroppedPacketsBeforeEnqueue q)
    (PacketQueue.m_nTotalDroppedPacketsAfterDequeue q) (PacketQueue.m_maxSize q)
    (stamp ptr t <$> PacketQueue.m_packets q).

(** [item->SetTimeStamp] on an item this queue disc may hold. *)
Definition SetTimeStamp (ptr t : Z) (g : Gate) : Gate :=
  mkGate (set_requeued (stamp ptr t <$> m_requeued (g_base g)) (m_peeked (g_base g)) (g_base g))
    (stamp_queue ptr t (g_queue g)) (g_queue1 g) (m_linkBandwidth g) (m_gateState g) (g_getNow g)
    (m_keepAliveTime g).

Definition Gate_impl : QueueDiscImpl Gate := {|
  q_base := g_base;
  q_set_base := set_base;
  q_SetTimeStamp := SetTimeStamp;
  q_DoEnqueue := DoEnqueue;
  q_DoDequeue := DoDequeue;
  q_DoPeek := DoPeek
|}.
End gate.
