(* ===== verification/TasQueueDisc.v ===== *)
(** * The time aware shaper
      (src/contrib/tsn/model/tas-queue-disc.h, tas-queue-disc.cc)

    A queue disc with eight transmission gates, one per class of traffic, that opens and
    closes them by the gate control list of the device.

    The state holds the events the queue disc has scheduled and that have neither run nor
    been cancelled: [Simulator::Schedule] and [EventId] are what SimulatorCorrect proves of
    them.  An [EventId] is the identifier of its event, or nothing when it was never set. *)

From stdpp Require Import strings.
From S2P Require Import Prelude NsTime QueueDisc GateList TransmissionGate.
From S2P Require PacketQueue.
Local Open Scope Z_scope.

(** The methods the queue disc gives to [Simulator::Schedule]. *)
Inductive Ev := EvRun | EvStopAllQueues | EvUpdateNetDeviceListConfig.

Definition EventId : Type := option nat.

(** The pending events, each with the time of the simulator at which it runs. *)
Record Sim := mkSim {
  s_uid : nat;
  s_pending : gmap nat (Z * Ev)
}.

(** [tas-queue-disc.h:88-126] TasQueueDisc::GateListEntry

    Without [lastExecutIndex], which nothing reads. *)
Record GateListEntry := mkEntry {
  reRunEvent : EventId;
  reRunEventTimeStamp : Z;
  e_gateState : GateState
}.

(** [tas-queue-disc.h:92-98] GateListEntry::GateListEntry *)
Definition GateListEntry_new : GateListEntry := mkEntry None (-1) (mkGateState true (-1)).

(** [tas-queue-disc.h:112-115] GateListEntry::GetGateState *)
Definition e_GetGateState (e : GateListEntry) : bool := state (e_gateState e).

(** [tas-queue-disc.h:120-123] GateListEntry::GetNextEvent *)
Definition e_GetNextEvent (e : GateListEntry) : Z := interval (e_gateState e).

(** [csma-channel.h:74-79] WireState

    What the queue disc sees of its [CsmaChannel]: whether a device is using the wire. *)
Inductive WireState := IDLE | TRANSMITTING | PROPAGATING.

(** [csma-channel.cc] CsmaChannel::IsBusy *)
Definition IsBusy (st : WireState) : bool := match st with IDLE => false | _ => true end.

(** [tas-queue-disc.h:203-219] TasQueueDisc

    With what it inherits, the child queue discs and whether it is initialized.
    [t_getNow] is whether [m_getNow] is set. *)
Record Tas := mkTas {
  t_base : base;
  t_classes : list Gate;
  t_initialized : bool;
  m_gateListConfig : list GateListEntry;
  m_prioMap : list nat;
  m_StoppAllQueues : bool;
  t_linkBandwidth : Z;
  m_Mtu : Z;
  m_propagetiondelay : Z;
  t_keepAliveTime : Z;
  m_pandingConfig : NetDeviceListConfig;
  m_currentConfig : NetDeviceListConfig;
  m_stopAllQEvent : EventId;
  m_updateNDLCEvent : EventId;
  t_getNow : bool;
  m_transmitting : EventId;
  m_channel : option WireState;
  t_sim : Sim
}.

(** Assignments to a field. *)
Definition set_t_base (x : base) (s : Tas) : Tas :=
  mkTas x (t_classes s) (t_initialized s) (m_gateListConfig s) (m_prioMap s) (m_StoppAllQueues s)
    (t_linkBandwidth s) (m_Mtu s) (m_propagetiondelay s) (t_keepAliveTime s) (m_pandingConfig s)
    (m_currentConfig s) (m_stopAllQEvent s) (m_updateNDLCEvent s) (t_getNow s) (m_transmitting s)
    (m_channel s) (t_sim s).
Definition set_t_classes (x : list Gate) (s : Tas) : Tas :=
  mkTas (t_base s) x (t_initialized s) (m_gateListConfig s) (m_prioMap s) (m_StoppAllQueues s)
    (t_linkBandwidth s) (m_Mtu s) (m_propagetiondelay s) (t_keepAliveTime s) (m_pandingConfig s)
    (m_currentConfig s) (m_stopAllQEvent s) (m_updateNDLCEvent s) (t_getNow s) (m_transmitting s)
    (m_channel s) (t_sim s).
Definition set_t_initialized (x : bool) (s : Tas) : Tas :=
  mkTas (t_base s) (t_classes s) x (m_gateListConfig s) (m_prioMap s) (m_StoppAllQueues s) (t_linkBandwidth s)
    (m_Mtu s) (m_propagetiondelay s) (t_keepAliveTime s) (m_pandingConfig s) (m_currentConfig s)
    (m_stopAllQEvent s) (m_updateNDLCEvent s) (t_getNow s) (m_transmitting s) (m_channel s) (t_sim s).
Definition set_m_gateListConfig (x : list GateListEntry) (s : Tas) : Tas :=
  mkTas (t_base s) (t_classes s) (t_initialized s) x (m_prioMap s) (m_StoppAllQueues s) (t_linkBandwidth s)
    (m_Mtu s) (m_propagetiondelay s) (t_keepAliveTime s) (m_pandingConfig s) (m_currentConfig s)
    (m_stopAllQEvent s) (m_updateNDLCEvent s) (t_getNow s) (m_transmitting s) (m_channel s) (t_sim s).
Definition set_m_prioMap (x : list nat) (s : Tas) : Tas :=
  mkTas (t_base s) (t_classes s) (t_initialized s) (m_gateListConfig s) x (m_StoppAllQueues s)
    (t_linkBandwidth s) (m_Mtu s) (m_propagetiondelay s) (t_keepAliveTime s) (m_pandingConfig s)
    (m_currentConfig s) (m_stopAllQEvent s) (m_updateNDLCEvent s) (t_getNow s) (m_transmitting s)
    (m_channel s) (t_sim s).
Definition set_m_StoppAllQueues (x : bool) (s : Tas) : Tas :=
  mkTas (t_base s) (t_classes s) (t_initialized s) (m_gateListConfig s) (m_prioMap s) x (t_linkBandwidth s)
    (m_Mtu s) (m_propagetiondelay s) (t_keepAliveTime s) (m_pandingConfig s) (m_currentConfig s)
    (m_stopAllQEvent s) (m_updateNDLCEvent s) (t_getNow s) (m_transmitting s) (m_channel s) (t_sim s).
Definition set_t_linkBandwidth (x : Z) (s : Tas) : Tas :=
  mkTas (t_base s) (t_classes s) (t_initialized s) (m_gateListConfig s) (m_prioMap s) (m_StoppAllQueues s) x
    (m_Mtu s) (m_propagetiondelay s) (t_keepAliveTime s) (m_pandingConfig s) (m_currentConfig s)
    (m_stopAllQEvent s) (m_updateNDLCEvent s) (t_getNow s) (m_transmitting s) (m_channel s) (t_sim s).
Definition set_m_pandingConfig (x : NetDeviceListConfig) (s : Tas) : Tas :=
  mkTas (t_base s) (t_classes s) (t_initialized s) (m_gateListConfig s) (m_prioMap s) (m_StoppAllQueues s)
    (t_linkBandwidth s) (m_Mtu s) (m_propagetiondelay s) (t_keepAliveTime s) x (m_currentConfig s)
    (m_stopAllQEvent s) (m_updateNDLCEvent s) (t_getNow s) (m_transmitting s) (m_channel s) (t_sim s).
Definition set_m_currentConfig (x : NetDeviceListConfig) (s : Tas) : Tas :=
  mkTas (t_base s) (t_classes s) (t_initialized s) (m_gateListConfig s) (m_prioMap s) (m_StoppAllQueues s)
    (t_linkBandwidth s) (m_Mtu s) (m_propagetiondelay s) (t_keepAliveTime s) (m_pandingConfig s) x
    (m_stopAllQEvent s) (m_updateNDLCEvent s) (t_getNow s) (m_transmitting s) (m_channel s) (t_sim s).
Definition set_m_stopAllQEvent (x : EventId) (s : Tas) : Tas :=
  mkTas (t_base s) (t_classes s) (t_initialized s) (m_gateListConfig s) (m_prioMap s) (m_StoppAllQueues s)
    (t_linkBandwidth s) (m_Mtu s) (m_propagetiondelay s) (t_keepAliveTime s) (m_pandingConfig s)
    (m_currentConfig s) x (m_updateNDLCEvent s) (t_getNow s) (m_transmitting s) (m_channel s) (t_sim s).
Definition set_m_updateNDLCEvent (x : EventId) (s : Tas) : Tas :=
  mkTas (t_base s) (t_classes s) (t_initialized s) (m_gateListConfig s) (m_prioMap s) (m_StoppAllQueues s)
    (t_linkBandwidth s) (m_Mtu s) (m_propagetiondelay s) (t_keepAliveTime s) (m_pandingConfig s)
    (m_currentConfig s) (m_stopAllQEvent s) x (t_getNow s) (m_transmitting s) (m_channel s) (t_sim s).
Definition set_t_getNow (x : bool) (s : Tas) : Tas :=
  mkTas (t_base s) (t_classes s) (t_initialized s) (m_gateListConfig s) (m_prioMap s) (m_StoppAllQueues s)
    (t_linkBandwidth s) (m_Mtu s) (m_propagetiondelay s) (t_keepAliveTime s) (m_pandingConfig s)
    (m_currentConfig s) (m_stopAllQEvent s) (m_updateNDLCEvent s) x (m_transmitting s) (m_channel s) (t_sim s).
Definition set_m_transmitting (x : EventId) (s : Tas) : Tas :=
  mkTas (t_base s) (t_classes s) (t_initialized s) (m_gateListConfig s) (m_prioMap s) (m_StoppAllQueues s)
    (t_linkBandwidth s) (m_Mtu s) (m_propagetiondelay s) (t_keepAliveTime s) (m_pandingConfig s)
    (m_currentConfig s) (m_stopAllQEvent s) (m_updateNDLCEvent s) (t_getNow s) x (m_channel s) (t_sim s).
Definition set_m_channel (x : option WireState) (s : Tas) : Tas :=
  mkTas (t_base s) (t_classes s) (t_initialized s) (m_gateListConfig s) (m_prioMap s) (m_StoppAllQueues s)
    (t_linkBandwidth s) (m_Mtu s) (m_propagetiondelay s) (t_keepAliveTime s) (m_pandingConfig s) (m_currentConfig s)
    (m_stopAllQEvent s) (m_updateNDLCEvent s) (t_getNow s) (m_transmitting s) x (t_sim s).
Definition set_t_sim (x : Sim) (s : Tas) : Tas :=
  mkTas (t_base s) (t_classes s) (t_initialized s) (m_gateListConfig s) (m_prioMap s) (m_StoppAllQueues s)
    (t_linkBandwidth s) (m_Mtu s) (m_propagetiondelay s) (t_keepAliveTime s) (m_pandingConfig s)
    (m_currentConfig s) (m_stopAllQEvent s) (m_updateNDLCEvent s) (t_getNow s) (m_transmitting s)
    (m_channel s) x.

(** [m_gateListConfig.at(i) = e]. *)
Definition put_entry (i : nat) (e : GateListEntry) (s : Tas) : res Tas :=
  l ← set_at (m_gateListConfig s) i e; Ok (set_m_gateListConfig l s).

(** [queue-disc.cc] QueueDisc::GetQueueDiscClass *)
Definition GetQueueDiscClass (i : nat) (s : Tas) : res Gate :=
  match t_classes s !! i with Some g => Ok g | None => Err NsAssert end.

(** The child queue disc of a class after an operation on it that fired [ctr], which the
    queue disc hears. *)
Definition put_class (i : nat) (ctr : list trace) (g : Gate) (s : Tas) : list trace * Tas :=
  let '(tr, b) := notify on_child ctr (t_base s) in
  (tr, set_t_base b (set_t_classes (<[i := g]> (t_classes s)) s)).

(** ** The events of the queue disc *)

(** [EventId::IsExpired]. *)
Definition IsExpired (id : EventId) (s : Tas) : bool :=
  match id with
  | Some u => match s_pending (t_sim s) !! u with Some _ => false | None => true end
  | None => true
  end.

(** [EventId::IsRunning]. *)
Definition IsRunning (id : EventId) (s : Tas) : bool := negb (IsExpired id s).

(** [EventId::Cancel]. *)
Definition Cancel (id : EventId) (s : Tas) : Tas :=
  match id with
  | Some u => set_t_sim (mkSim (s_uid (t_sim s)) (delete u (s_pending (t_sim s)))) s
  | None => s
  end.

(** [Simulator::Schedule]. *)
Definition Schedule (clk : Clock) (delay : Z) (ev : Ev) (s : Tas) : res (EventId * Tas) :=
  ns_assert (0 <=? delay) ≫= λ _,
  t ← int64 (c_sim clk + delay);
  let u := s_uid (t_sim s) in
  Ok (Some u, set_t_sim (mkSim (S u) (<[u := (t, ev)]> (s_pending (t_sim s)))) s).

(** [tas-queue-disc.h:99-107] GateListEntry::Copy *)
Definition e_Copy (i : nat) (newEntry : GateListEntry) (s : Tas) : res Tas :=
  e ← at_ (m_gateListConfig s) i;
  let s := Cancel (reRunEvent e) s in
  put_entry i (mkEntry (reRunEvent newEntry) (reRunEventTimeStamp newEntry)
                 (mkGateState (e_GetGateState newEntry) (e_GetNextEvent newEntry))) s.

(** [tas-queue-disc.cc] TasQueueDisc::GetDeviceTime *)
Definition GetDeviceTime (clk : Clock) (s : Tas) : Z := if t_getNow s then c_dev clk else c_sim clk.

(** ** Running the queue disc when a gate changes *)

(** [tas-queue-disc.cc:599-613] TasQueueDisc::CancelRun

    The loop; [rerunby] is -1 until an entry has the new event. *)
Fixpoint CancelRun_loop (clk : Clock) (n i : nat) (queue : nat) (rerunby : option nat) (s : Tas) : res Tas :=
  match n with
  | O => Ok s
  | S n =>
      eq ← at_ (m_gateListConfig s) queue;
      ei ← at_ (m_gateListConfig s) i;
      if bool_decide (queue ≠ i) && bool_decide (reRunEvent eq = reRunEvent ei) then
        match rerunby with
        | None =>
            delay ← int64 (e_GetNextEvent ei - GetDeviceTime clk s);
            '(id, s) ← Schedule clk delay EvRun s;
            s ← put_entry i (mkEntry id (reRunEventTimeStamp ei) (e_gateState ei)) s;
            CancelRun_loop clk n (S i) queue (Some i) s
        | Some j =>
            ej ← at_ (m_gateListConfig s) j;
            s ← put_entry i (mkEntry (reRunEvent ej) (reRunEventTimeStamp ei) (e_gateState ei)) s;
            CancelRun_loop clk n (S i) queue rerunby s
        end
      else CancelRun_loop clk n (S i) queue rerunby s
  end.

(** [tas-queue-disc.cc] TasQueueDisc::CancelRun *)
Definition CancelRun (clk : Clock) (queue : nat) (s : Tas) : res Tas :=
  e ← at_ (m_gateListConfig s) queue;
  if IsRunning (reRunEvent e) s then
    s ← CancelRun_loop clk 8 0 queue None s;
    e ← at_ (m_gateListConfig s) queue;
    Ok (Cancel (reRunEvent e) s)
  else Ok s.

(** [tas-queue-disc.cc:487-495] TasQueueDisc::ScheduleRun

    The loop: an entry with an event at the time, from [i] on. *)
Fixpoint find_run (n i : nat) (timePoint : Z) (s : Tas) : res (option GateListEntry) :=
  match n with
  | O => Ok None
  | S n =>
      e ← at_ (m_gateListConfig s) i;
      if IsRunning (reRunEvent e) s && (reRunEventTimeStamp e =? timePoint) then Ok (Some e)
      else find_run n (S i) timePoint s
  end.

(** [tas-queue-disc.cc:487-498] TasQueueDisc::ScheduleRun

    The part after the checks. *)
Definition ScheduleRun_new (clk : Clock) (queue : nat) (timePoint : Z) (s : Tas) : res Tas :=
  o ← find_run 8 0 timePoint s;
  e ← at_ (m_gateListConfig s) queue;
  match o with
  | Some e' => put_entry queue (mkEntry (reRunEvent e') (reRunEventTimeStamp e') (e_gateState e)) s
  | None =>
      delay ← int64 (timePoint - GetDeviceTime clk s);
      '(id, s) ← Schedule clk delay EvRun s;
      put_entry queue (mkEntry id timePoint (e_gateState e)) s
  end.

(** [tas-queue-disc.cc] TasQueueDisc::ScheduleRun *)
Definition ScheduleRun (clk : Clock) (queue : nat) (s : Tas) : res Tas :=
  e ← at_ (m_gateListConfig s) queue;
  let timePoint := e_GetNextEvent e in
  if IsRunning (reRunEvent e) s && (negb (reRunEventTimeStamp e =? timePoint) || (timePoint <? 0)) then
    s ← CancelRun clk queue s;
    if timePoint <? 0 then Ok s else ScheduleRun_new clk queue timePoint s
  else if IsRunning (reRunEvent e) s then Ok s
  else ScheduleRun_new clk queue timePoint s.

(** ** The gates *)

(** [tas-queue-disc.cc:331-344] TasQueueDisc::UpdateTransmisionGate

    The update of the entry and the gate. *)
Definition UpdateGate (index : nat) (gateState : bool) (nextEvent : Z) (s : Tas) : res Tas :=
  e ← at_ (m_gateListConfig s) index;
  if negb (bool_decide (e_GetGateState e = gateState)) || negb (e_GetNextEvent e =? nextEvent) then
    let newState := mkGateState gateState nextEvent in
    s ← put_entry index (mkEntry (reRunEvent e) (reRunEventTimeStamp e) newState) s;
    ptr ← GetQueueDiscClass index s;
    Ok (set_t_classes (<[index := SetGateState newState ptr]> (t_classes s)) s)
  else Ok s.

(** [tas-queue-disc.cc] TasQueueDisc::UpdateTransmisionGate *)
Definition UpdateTransmisionGate (clk : Clock) (index : nat) (gateState : bool) (nextEvent : Z) (s : Tas) :
    res Tas :=
  if (index <? length (t_classes s))%nat then
    s ← UpdateGate index gateState nextEvent s;
    ptr ← GetQueueDiscClass index s;
    if (0 <? nextEvent) && (0 <? QueueDisc.m_nPackets (g_base ptr)) then ScheduleRun clk index s
    else
      e ← at_ (m_gateListConfig s) index;
      if IsRunning (reRunEvent e) s then CancelRun clk index s else Ok s
  else Ok s.

(** [tas-queue-disc.cc:443-453] TasQueueDisc::GetNextBiggerEntry

    The loop, from index [i] on. *)
Fixpoint GetNextBiggerEntry_loop (i : Z) (vector : list Z) (data : Z) : Z :=
  match vector with
  | [] => 0
  | x :: vector => if data <? x then i else GetNextBiggerEntry_loop (i + 1) vector data
  end.

(** [tas-queue-disc.cc:433-454] TasQueueDisc::GetNextBiggerEntry *)
Definition GetNextBiggerEntry (vector : list Z) (data : Z) : Z :=
  match vector with
  | [] => -1
  | _ => GetNextBiggerEntry_loop 0 vector data
  end.

(** [tas-queue-disc.cc:393-427] TasQueueDisc::ListExecute

    The state of a gate at a time of the cycle, and when it may change: in times of the
    cycle, and not before [relativeNow]. *)
Definition gate_at (config : GateListConfig) (len relativeNow : Z) : res (option (bool * Z)) :=
  let nextBiggerIndex := GetNextBiggerEntry (m_closingTimes config) relativeNow in
  if nextBiggerIndex <? 0 then Ok None
  else
    open ← at_ (m_openingTimes config) (Z.to_nat nextBiggerIndex);
    close ← at_ (m_closingTimes config) (Z.to_nat nextBiggerIndex);
    '(newgateState, nextEvent) ←
      (if (open <=? relativeNow) && (relativeNow <? close) then
         nextEvent ← (if close =? len then
                        o ← at_ (m_openingTimes config) 0;
                        oo ← at_ (m_openOffset config) 0;
                        z ← int64 (o - oo);
                        if z =? 0 then at_ (m_closingTimes config) 0 else Ok close
                      else Ok close);
         Ok (true, nextEvent)
       else Ok (false, open));
    nextEvent ← (if nextEvent <? relativeNow then int64 (nextEvent + len) else Ok nextEvent);
    Ok (Some (newgateState, nextEvent)).

(** [tas-queue-disc.cc:390-430] TasQueueDisc::ListExecute

    The loop over the gates. *)
Fixpoint ListExecute_loop (clk : Clock) (n i : nat) (deviceTime relativeNow : Z) (s : Tas) : res Tas :=
  match n with
  | O => Ok s
  | S n =>
      config ← GetGateListConfig i (m_currentConfig s);
      r ← gate_at config (m_length (m_currentConfig s)) relativeNow;
      s ← match r with
          | None => UpdateTransmisionGate clk i false 0 s
          | Some (newgateState, nextEvent) =>
              t ← int64 (deviceTime - relativeNow);
              t ← int64 (t + nextEvent);
              UpdateTransmisionGate clk i newgateState t s
          end;
      ListExecute_loop clk n (S i) deviceTime relativeNow s
  end.

Section tas.
(** The resolution of the simulation, and the packet filters of the queue disc. *)
Variable resolution : Unit.
Variable m_filters : list (Item → Z).

(** [tas-queue-disc.cc] TasQueueDisc::ListExecute *)
Definition ListExecute (clk : Clock) (s : Tas) : res Tas :=
  let deviceTime := GetDeviceTime clk s in
  if m_StoppAllQueues s then Ok s
  else
    d ← int64 (deviceTime - m_configChangeTime (m_currentConfig s));
    relativeDeviceTime ← int64 (d - m_epoch (m_currentConfig s));
    if relativeDeviceTime <? 0 then Ok s
    else
      lengthInFemto ← GetFemtoSeconds resolution (m_length (m_currentConfig s));
      if lengthInFemto =? 0 then Ok s
      else
        f ← GetFemtoSeconds resolution relativeDeviceTime;
        relativeNow ← FemtoSeconds resolution (Z.rem f lengthInFemto);
        ListExecute_loop clk 8 0 deviceTime relativeNow s.

(** [tas-queue-disc.cc:137-140] TasQueueDisc::DoPeek

    The condition under which the gates are updated. *)
Definition peek_refresh (clk : Clock) (now : Z) (prio : nat) (s : Tas) : res Tas :=
  e ← at_ (m_gateListConfig s) prio;
  if (0 <=? e_GetNextEvent e) && negb (e_GetNextEvent e <? now) then ListExecute clk s else Ok s.

(** [tas-queue-disc.cc:133-149] TasQueueDisc::DoPeek

    The loop, from class [n - 1] down. *)
Fixpoint DoPeek_loop (clk : Clock) (now : Z) (n : nat) (s : Tas) : res (option Item * list trace * Tas) :=
  match n with
  | O => Ok (None, [], s)
  | S prio =>
      s ← peek_refresh clk now prio s;
      e ← at_ (m_gateListConfig s) prio;
      if e_GetGateState e then
        g ← GetQueueDiscClass prio s;
        '(item, ctr, g) ← QueueDisc.Peek (QueueDiscImpl0 := Gate_impl resolution) clk g;
        let '(tr, s) := put_class prio ctr g s in
        match item with
        | Some i => Ok (Some i, tr, s)
        | None => '(item, tr', s) ← DoPeek_loop clk now prio s; Ok (item, tr ++ tr', s)
        end
      else DoPeek_loop clk now prio s
  end.

(** [tas-queue-disc.cc] TasQueueDisc::DoPeek *)
Definition DoPeek (clk : Clock) (s : Tas) : res (option Item * list trace * Tas) :=
  DoPeek_loop clk (GetDeviceTime clk s) (length (t_classes s)) s.

Definition PAKET_SIZE_EXCEEDED_DROP : string := "Paket size exceeded".

(** [tas-queue-disc.cc:165-183] TasQueueDisc::DoEnqueue

    The class of a packet. *)
Definition childclass (item : Item) : Z :=
  match it_priority item with
  | Some prio => Z.land prio 7
  | None =>
      let childclass := QueueDisc.Classify m_filters item in
      if childclass =? -1 then 0 else Z.land childclass 7
  end.

(** [tas-queue-disc.cc] TasQueueDisc::DoEnqueue

    Removing a tag reads it: the tag that is added again has the priority it had. *)
Definition DoEnqueue (clk : Clock) (item : Item) (s : Tas) : res (bool * list trace * Tas) :=
  if m_Mtu s <? it_size item then
    let '(tr, b) := DropBeforeEnqueue item PAKET_SIZE_EXCEEDED_DROP (t_base s) in
    Ok (false, tr, set_t_base b s)
  else
    let class := childclass item in
    let item := mkItem (it_ptr item) (it_size item) (it_timeStamp item) (it_txq item)
                  (Some (match it_priority item with Some prio => prio | None => u8 class end)) in
    queue ← at_ (m_prioMap s) (Z.to_nat class);
    g ← GetQueueDiscClass queue s;
    '(retval, ctr, g) ← QueueDisc.Enqueue (QueueDiscImpl0 := Gate_impl resolution) clk item g;
    let '(tr, s) := put_class queue ctr g s in
    e ← at_ (m_gateListConfig s) queue;
    if (retval : bool) && negb (e_GetGateState e) && IsExpired (reRunEvent e) s then
      s ← ListExecute clk s;
      Ok (retval, tr, s)
    else Ok (retval, tr, s).

(** [tas-queue-disc.cc] TasQueueDisc::GetTransmissionDuration *)
Definition GetTransmissionDuration (paketref : Item) (s : Tas) : res Z :=
  CalculateBytesTxTime resolution (t_linkBandwidth s) (it_size paketref).

(** [tas-queue-disc.cc] TasQueueDisc::SetTransmitting *)
Definition SetTransmitting (clk : Clock) (item : Item) (s : Tas) : res Tas :=
  sleepTime ← GetTransmissionDuration item s;
  sleepTime ← (if 0 <? m_propagetiondelay s then int64 (sleepTime + m_propagetiondelay s) else Ok sleepTime);
  '(id, s) ← Schedule clk sleepTime EvRun s;
  Ok (set_m_transmitting id s).

(** [tas-queue-disc.cc:220-223] TasQueueDisc::DoDequeue

    The condition under which the gates are updated. *)
Definition dequeue_refresh (clk : Clock) (now : Z) (prio : nat) (s : Tas) : res Tas :=
  e ← at_ (m_gateListConfig s) prio;
  if (0 <=? e_GetNextEvent e) && negb (now <? e_GetNextEvent e) then ListExecute clk s else Ok s.

(** [tas-queue-disc.cc:217-235] TasQueueDisc::DoDequeue

    The loop, from class [n - 1] down. *)
Fixpoint DoDequeue_loop (clk : Clock) (now : Z) (n : nat) (s : Tas) : res (option Item * list trace * Tas) :=
  match n with
  | O => Ok (None, [], s)
  | S prio =>
      s ← dequeue_refresh clk now prio s;
      g ← GetQueueDiscClass prio s;
      '(returnVal, ctr, g) ← QueueDisc.Dequeue (QueueDiscImpl0 := Gate_impl resolution) clk g;
      let '(tr, s) := put_class prio ctr g s in
      match returnVal with
      | Some i => s ← SetTransmitting clk i s; Ok (Some i, tr, s)
      | None => '(item, tr', s) ← DoDequeue_loop clk now prio s; Ok (item, tr ++ tr', s)
      end
  end.

(** [tas-queue-disc.cc] TasQueueDisc::DoDequeue *)
Definition DoDequeue (clk : Clock) (s : Tas) : res (option Item * list trace * Tas) :=
  if IsExpired (m_transmitting s) s then
    if match m_channel s with Some st => IsBusy st | None => false end then
      delay ← CalculateBytesTxTime resolution (t_linkBandwidth s) (m_Mtu s / 2);
      '(id, s) ← Schedule clk delay EvRun s;
      Ok (None, [], set_m_transmitting id s)
    else DoDequeue_loop clk (GetDeviceTime clk s) (length (t_classes s)) s
  else Ok (None, [], s).

(** [item->SetTimeStamp] on an item the queue disc may hold. *)
Definition SetTimeStamp (ptr t : Z) (s : Tas) : Tas :=
  set_t_base (set_requeued (stamp ptr t <$> m_requeued (t_base s)) (m_peeked (t_base s)) (t_base s))
    (set_t_classes (TransmissionGate.SetTimeStamp ptr t <$> t_classes s) s).

#[export] Instance Tas_impl : QueueDiscImpl Tas := {|
  q_base := t_base;
  q_set_base := set_t_base;
  q_SetTimeStamp := SetTimeStamp;
  q_DoEnqueue := DoEnqueue;
  q_DoDequeue := DoDequeue;
  q_DoPeek := DoPeek
|}.

(** [tas-queue-disc.cc:266-271] TasQueueDisc::StopAllQueues

    The loop. *)
Fixpoint StopAllQueues_loop (clk : Clock) (n i : nat) (s : Tas) : res Tas :=
  match n with
  | O => Ok s
  | S n =>
      s ← UpdateTransmisionGate clk i false 0 s;
      e ← at_ (m_gateListConfig s) i;
      let s := Cancel (reRunEvent e) s in
      s ← put_entry i (mkEntry (reRunEvent e) (-1) (e_gateState e)) s;
      StopAllQueues_loop clk n (S i) s
  end.

(** [tas-queue-disc.cc] TasQueueDisc::StopAllQueues *)
Definition StopAllQueues (clk : Clock) (s : Tas) : res Tas :=
  if t_initialized s then
    s ← StopAllQueues_loop clk 8 0 s;
    Ok (set_m_StoppAllQueues true s)
  else Ok s.

(** [tas-queue-disc.cc] TasQueueDisc::SetDatarate *)
Definition SetDatarate (newDataRate : Z) (s : Tas) : Tas :=
  set_t_classes ((λ g, mkGate (g_base g) (g_queue g) (g_queue1 g) newDataRate (m_gateState g) (g_getNow g)
                         (m_keepAliveTime g)) <$> t_classes s)
    (set_t_linkBandwidth newDataRate s).

(** [tas-queue-disc.cc] TasQueueDisc::SetTimeSource

    [set] is whether the callback is not null. *)
Definition SetTimeSource (set : bool) (s : Tas) : Tas :=
  set_t_classes ((λ g, mkGate (g_base g) (g_queue g) (g_queue1 g) (m_linkBandwidth g) (m_gateState g) set
                         (m_keepAliveTime g)) <$> t_classes s)
    (set_t_getNow set s).

(** [tas-queue-disc.cc:551-556] TasQueueDisc::ResetGateStateList

    The loop, from class [n - 1] down. *)
Fixpoint ResetGateStateList_loop (clk : Clock) (n : nat) (s : Tas) : res Tas :=
  match n with
  | O => Ok s
  | S i =>
      s ← e_Copy i GateListEntry_new s;
      s ← UpdateTransmisionGate clk i (e_GetGateState GateListEntry_new) (e_GetNextEvent GateListEntry_new) s;
      ResetGateStateList_loop clk i (set_m_StoppAllQueues false s)
  end.

(** [tas-queue-disc.cc] TasQueueDisc::ResetGateStateList *)
Definition ResetGateStateList (clk : Clock) (s : Tas) : res Tas :=
  ResetGateStateList_loop clk (length (t_classes s)) s.

(** [tas-queue-disc.cc:510-526] TasQueueDisc::CheckConfig

    The child queue disc of an entry; that it is initialized opens its gate. *)
Definition new_class (s : Tas) (e : GateListEntry) : res Gate :=
  let maxSize := PacketQueue.mkQueueSize PacketQueue.PACKETS 800 in
  '(q, q1) ← internal_queues maxSize;
  Ok (TransmissionGate.InitializeParams
        (mkGate (base_new maxSize 64) q q1 (t_linkBandwidth s)
           (mkGateState (e_GetGateState e) (e_GetNextEvent e)) (t_getNow s) (t_keepAliveTime s))).

(** [tas-queue-disc.cc:519-530] TasQueueDisc::CheckConfig

    The loop over the entries. *)
Fixpoint new_classes (n i : nat) (s : Tas) : res (list Gate) :=
  match n with
  | O => Ok []
  | S n =>
      e ← at_ (m_gateListConfig s) i;
      g ← new_class s e;
      l ← new_classes n (S i) s;
      Ok (g :: l)
  end.

(** [tas-queue-disc.cc] TasQueueDisc::CheckConfig

    No internal queues were added. *)
Definition CheckConfig (s : Tas) : res (bool * Tas) :=
  match length (t_classes s) with
  | O => l ← new_classes 8 0 s; Ok (true, set_t_classes l s)
  | n => Ok ((n <=? 8)%nat, s)
  end.

(** [tas-queue-disc.cc:581-590] TasQueueDisc::InitializeParams

    The map from the priorities to the classes. *)
Definition prio_map (n : nat) (s : Tas) : list nat :=
  match n with
  | 1 => [0; 0; 0; 0; 0; 0; 0; 0]
  | 2 => [0; 0; 0; 0; 1; 1; 1; 1]
  | 3 => [0; 0; 0; 0; 1; 1; 2; 2]
  | 4 => [0; 0; 1; 1; 2; 2; 3; 3]
  | 5 => [0; 0; 1; 1; 2; 2; 3; 4]
  | 6 => [1; 0; 2; 2; 3; 3; 4; 5]
  | 7 => [1; 0; 2; 3; 4; 4; 5; 6]
  | 8 => [0; 1; 2; 3; 4; 5; 6; 7]
  | _ => m_prioMap s
  end%nat.

(** [tas-queue-disc.cc] TasQueueDisc::InitializeParams *)
Definition InitializeParams (clk : Clock) (s : Tas) : res Tas :=
  s ← ListExecute clk s;
  Ok (set_m_StoppAllQueues false (set_m_prioMap (prio_map (length (t_classes s)) s) s)).

(** [queue-disc.cc] QueueDisc::DoInitialize

    The child queue discs are initialized already. *)
Definition Initialize (clk : Clock) (s : Tas) : res Tas :=
  '(ok, s) ← CheckConfig s;
  ns_assert ok ≫= λ _,
  s ← InitializeParams clk s;
  Ok (set_t_initialized true s).

(** ** A new gate control list *)

Section device.
Context {D : Type}.
Variable n_tx_queues : D → option Z.
Variable IsStopped : D → Z → bool.
Variable m_send : Clock → Item → D → res D.

(** [QueueDisc::Run] of this queue disc. *)
Definition Run (clk : Clock) (s : Tas) (d : D) : res (list trace * Tas * D) :=
  QueueDisc.Run n_tx_queues IsStopped m_send clk s d.

(** [tas-queue-disc.cc:248-252] TasQueueDisc::UpdateNetDeviceListConfig

    The exchange of the configurations. *)
Definition activate (s : Tas) : res Tas :=
  current ← Config_Copy (m_pandingConfig s) (m_currentConfig s);
  Ok (set_m_StoppAllQueues false
       (set_m_pandingConfig (SetPandingStatus ACTIVE (Config_Clear (m_pandingConfig s)))
         (set_m_currentConfig (SetPandingStatus ACTIVE current) s))).

(** [tas-queue-disc.cc] TasQueueDisc::UpdateNetDeviceListConfig *)
Definition UpdateNetDeviceListConfig (clk : Clock) (s : Tas) (d : D) : res (list trace * Tas * D) :=
  s ← activate s;
  if t_initialized s then s ← ListExecute clk s; Run clk s d else Ok ([], s, d).

(** [tas-queue-disc.cc] TasQueueDisc::SetNetDeviceListConfig *)
Definition SetNetDeviceListConfig (clk : Clock) (pandingConfig : NetDeviceListConfig) (s : Tas) (d : D) :
    res (list trace * Tas * D) :=
  c ← Config_Copy pandingConfig (m_pandingConfig s);
  let s := set_m_pandingConfig (SetPandingStatus PANDING c) s in
  let s := Cancel (m_updateNDLCEvent s) (Cancel (m_stopAllQEvent s) s) in
  delta ← int64 (m_configChangeTime (m_pandingConfig s) - GetDeviceTime clk s);
  transmissionTime ← CalculateBytesTxTime resolution (t_linkBandwidth s) (m_Mtu s);
  delta ← int64 (delta - transmissionTime);
  if delta <=? 0 then
    s ← StopAllQueues clk s;
    if bool_decide (m_pandingStatus (m_currentConfig s) = PANDING) || (m_length (m_currentConfig s) =? 0) then
      UpdateNetDeviceListConfig clk s d
    else
      '(id, s) ← Schedule clk transmissionTime EvUpdateNetDeviceListConfig s;
      Ok ([], set_m_updateNDLCEvent id s, d)
  else
    '(id, s) ← Schedule clk delta EvStopAllQueues s;
    let s := set_m_stopAllQEvent id s in
    delta ← int64 (delta + transmissionTime);
    '(id, s) ← Schedule clk delta EvUpdateNetDeviceListConfig s;
    Ok ([], set_m_updateNDLCEvent id s, d).

(** An event of the simulator: it is no longer pending when its method runs. *)
Definition fire (clk : Clock) (u : nat) (s : Tas) (d : D) : res (list trace * Tas * D) :=
  '(_, ev) ← deref (s_pending (t_sim s) !! u);
  let s := Cancel (Some u) s in
  match ev with
  | EvRun => Run clk s d
  | EvStopAllQueues => s ← StopAllQueues clk s; Ok ([], s, d)
  | EvUpdateNetDeviceListConfig => UpdateNetDeviceListConfig clk s d
  end.
End device.
End tas.
