(* ===== verification/QueueDiscCorrect.v ===== *)
(** * Accounting of queue discs

    The counters of a queue disc and what they are counters of: whatever a queue disc does
    inside, its packet and byte counts, the statistics and the assertions the wrappers make
    about them are a function of the traces it has heard. *)

From stdpp Require Import strings.
From S2P Require Import Prelude QueueDisc.
From S2P Require PacketQueue.
Local Open Scope Z_scope.

(** What a trace adds to the content of a queue disc, in packets, and to the packets it has
    received and has to account for. *)
Definition d_content (t : trace) (w : Item → Z) : Z :=
  match t with QEnqueue i => w i | QDequeue i => - w i | _ => 0 end.
Definition d_seen (t : trace) (w : Item → Z) : Z :=
  match t with QEnqueue i | QDropBeforeEnqueue i _ => w i | _ => 0 end.

Definition one (i : Item) : Z := 1.

Definition content (l : list trace) (w : Item → Z) : Z := foldr (λ t n, d_content t w + n) 0 l.
Definition seen (l : list trace) (w : Item → Z) : Z := foldr (λ t n, d_seen t w + n) 0 l.

Lemma content_app l k w : content (l ++ k) w = content l w + content k w.
Proof. induction l as [|t l IH]; cbn; [done|]. fold (content (l ++ k) w) (content l w). lia. Qed.

Lemma seen_app l k w : seen (l ++ k) w = seen l w + seen k w.
Proof. induction l as [|t l IH]; cbn; [done|]. fold (seen (l ++ k) w) (seen l w). lia. Qed.

(** The counters of a queue disc that holds [n] packets with [m] bytes and has yet to
    account for [dn] packets, [dm] bytes, of those it has received. *)
Record acct (b : base) (n m dn dm : Z) : Prop := {
  ac_packets : m_nPackets b = u32 n;
  ac_bytes : m_nBytes b = u32 m;
  ac_content : u32 (packets (nTotalEnqueued (m_stats b)) - packets (nTotalDequeued (m_stats b))) = u32 n;
  ac_contentb : u64 (bytes (nTotalEnqueued (m_stats b)) - bytes (nTotalDequeued (m_stats b))) = u64 m;
  ac_seen : packets (nTotalReceived (m_stats b)) =
            u32 (packets (nTotalDroppedBeforeEnqueue (m_stats b)) + packets (nTotalEnqueued (m_stats b)) + dn);
  ac_seenb : bytes (nTotalReceived (m_stats b)) =
            u64 (bytes (nTotalDroppedBeforeEnqueue (m_stats b)) + bytes (nTotalEnqueued (m_stats b)) + dm);
  ac_dropped : packets (nTotalDropped (m_stats b)) =
            u32 (packets (nTotalDroppedBeforeEnqueue (m_stats b)) + packets (nTotalDroppedAfterDequeue (m_stats b)));
  ac_droppedb : bytes (nTotalDropped (m_stats b)) =
            u64 (bytes (nTotalDroppedBeforeEnqueue (m_stats b)) + bytes (nTotalDroppedAfterDequeue (m_stats b)))
}.

Lemma acct_new maxSize quota : acct (base_new maxSize quota) 0 0 0 0.
Proof. by constructor. Qed.

(** Equations between wrapped sums. *)
Ltac wrap_lia := unfold wrap in *; Z.to_euclidean_division_equations; lia.

Ltac acct_tac :=
  let H1 := fresh in let H2 := fresh in let H3 := fresh in let H4 := fresh in
  let H5 := fresh in let H6 := fresh in let H7 := fresh in let H8 := fresh in
  match goal with H : acct _ _ _ _ _ |- _ => destruct H as [H1 H2 H3 H4 H5 H6 H7 H8] end;
  constructor; cbn -[wrap]; rewrite ?H1, ?H2, ?H5, ?H6, ?H7, ?H8; try done;
  match goal with
  | H : ?x = u32 ?n |- u32 _ = u32 ?n' => match n' with context[n] => clear -H; wrap_lia end
  | H : ?x = u64 ?n |- u64 _ = u64 ?n' => match n' with context[n] => clear -H; wrap_lia end
  | |- _ => clear; wrap_lia
  end.

Lemma acct_PacketEnqueued b n m dn dm i :
  acct b n m dn dm → acct (PacketEnqueued i b).2 (n + 1) (m + it_size i) (dn - 1) (dm - it_size i).
Proof. intros H. acct_tac. Qed.

Lemma acct_PacketDequeued b n m dn dm i :
  m_peeked b = false →
  acct b n m dn dm → acct (PacketDequeued i b).2 (n - 1) (m - it_size i) dn dm.
Proof. intros Hp H. unfold PacketDequeued. rewrite Hp. acct_tac. Qed.

Lemma acct_DropBeforeEnqueue b n m dn dm i r :
  acct b n m dn dm → acct (DropBeforeEnqueue i r b).2 n m (dn - 1) (dm - it_size i).
Proof. intros H. acct_tac. Qed.

Lemma acct_DropAfterDequeue b n m dn dm i r :
  m_peeked b = false →
  acct b n m dn dm → acct (DropAfterDequeue i r b).2 n m dn dm.
Proof. intros Hp H. unfold DropAfterDequeue. cbn. rewrite Hp. cbn. acct_tac. Qed.

Lemma acct_received b n m dn dm i st :
  acct b n m dn dm →
  st = mkStats (count i (nTotalReceived (m_stats b))) (nTotalSent (m_stats b)) (nTotalEnqueued (m_stats b))
       (nTotalDequeued (m_stats b)) (nTotalDropped (m_stats b)) (nTotalDroppedBeforeEnqueue (m_stats b))
       (nDroppedBeforeEnqueue (m_stats b)) (nTotalDroppedAfterDequeue (m_stats b))
       (nDroppedAfterDequeue (m_stats b)) (nTotalRequeued (m_stats b)) (nTotalMarked (m_stats b))
       (nMarked (m_stats b)) →
  acct (set_stats st b) n m (dn + 1) (dm + it_size i).
Proof. intros H ->. acct_tac. Qed.

(** What a trace does to the counters of the queue disc that hears it. *)
Lemma acct_on_child t b n m dn dm :
  m_peeked b = false → acct b n m dn dm →
  acct (on_child t b).2 (n + d_content t one) (m + d_content t it_size) (dn - d_seen t one) (dm - d_seen t it_size) ∧
  m_peeked (on_child t b).2 = false ∧ m_requeued (on_child t b).2 = m_requeued b ∧
  m_maxSize (on_child t b).2 = m_maxSize b ∧ m_running (on_child t b).2 = m_running b ∧
  m_quota (on_child t b).2 = m_quota b.
Proof.
  intros Hp H. destruct t as [i|i|i r|i r]; cbn [on_child d_content d_seen one]; rewrite ?Z.add_0_r, ?Z.sub_0_r.
  - split; [by apply acct_PacketEnqueued|done].
  - split; [by apply acct_PacketDequeued|]. unfold PacketDequeued. by rewrite Hp.
  - split; [by apply acct_DropBeforeEnqueue|done].
  - split; [by apply acct_DropAfterDequeue|]. unfold DropAfterDequeue. cbn. by rewrite Hp.
Qed.

Lemma acct_notify_child l b n m dn dm :
  m_peeked b = false → acct b n m dn dm →
  let b' := (notify on_child l b).2 in
  acct b' (n + content l one) (m + content l it_size) (dn - seen l one) (dm - seen l it_size) ∧
  m_peeked b' = false ∧ m_requeued b' = m_requeued b ∧ m_maxSize b' = m_maxSize b ∧ m_running b' = m_running b ∧
  m_quota b' = m_quota b.
Proof.
  revert b n m dn dm. induction l as [|t l IH]; intros b n m dn dm Hp H; cbn [notify content seen foldr].
  { rewrite !Z.add_0_r, !Z.sub_0_r. done. }
  fold (content l one) (content l it_size) (seen l one) (seen l it_size).
  destruct (acct_on_child t b n m dn dm Hp H) as (Ha & Hp' & Hr & Hm & Hrun & Hq).
  destruct (on_child t b) as [tr b1]. cbn [fst snd] in *. specialize (IH b1 _ _ _ _ Hp' Ha).
  destruct (notify on_child l b1) as [tr' b2]. cbn [fst snd] in *. rewrite <- !Z.add_assoc, <- !Z.sub_add_distr in IH.
  destruct IH as (IH & -> & -> & -> & -> & ->). done.
Qed.

(** An internal queue is heard the same way. *)
Definition of_internal (t : PacketQueue.trace Item) : trace :=
  match t with
  | PacketQueue.TEnqueue i => QEnqueue i
  | PacketQueue.TDequeue i => QDequeue i
  | PacketQueue.TDropBeforeEnqueue i => QDropBeforeEnqueue i INTERNAL_QUEUE_DROP
  | PacketQueue.TDropAfterDequeue i => QDropAfterDequeue i INTERNAL_QUEUE_DROP
  end.

Lemma acct_notify_internal l b n m dn dm :
  m_peeked b = false → acct b n m dn dm →
  let b' := (notify on_internal l b).2 in
  let tr := of_internal <$> l in
  (notify on_internal l b).1 = tr ∧
  acct b' (n + content tr one) (m + content tr it_size) (dn - seen tr one) (dm - seen tr it_size) ∧
  m_peeked b' = false ∧ m_requeued b' = m_requeued b ∧ m_maxSize b' = m_maxSize b ∧ m_running b' = m_running b ∧
  m_quota b' = m_quota b.
Proof.
  revert b n m dn dm. induction l as [|t l IH]; intros b n m dn dm Hp H; cbn [notify content seen foldr fmap list_fmap].
  { rewrite !Z.add_0_r, !Z.sub_0_r. done. }
  fold (content (of_internal <$> l) one) (content (of_internal <$> l) it_size)
    (seen (of_internal <$> l) one) (seen (of_internal <$> l) it_size).
  assert (∃ b1, on_internal t b = ([of_internal t], b1) ∧
    acct b1 (n + d_content (of_internal t) one) (m + d_content (of_internal t) it_size)
      (dn - d_seen (of_internal t) one) (dm - d_seen (of_internal t) it_size) ∧
    m_peeked b1 = false ∧ m_requeued b1 = m_requeued b ∧ m_maxSize b1 = m_maxSize b ∧ m_running b1 = m_running b ∧
    m_quota b1 = m_quota b) as (b1 & -> & Ha & Hp' & Hr & Hm & Hrun & Hq).
  { exists (on_internal t b).2. destruct t as [i|i|i|i]; cbn [on_internal of_internal d_content d_seen one];
      rewrite ?Z.add_0_r, ?Z.sub_0_r.
    - split; [done|]. split; [by apply acct_PacketEnqueued|done].
    - split; [unfold PacketDequeued; by rewrite Hp|]. split; [by apply acct_PacketDequeued|].
      unfold PacketDequeued. by rewrite Hp.
    - split; [done|]. split; [by apply acct_DropBeforeEnqueue|done].
    - split; [unfold DropAfterDequeue; cbn; by rewrite Hp|]. split; [by apply acct_DropAfterDequeue|].
      unfold DropAfterDequeue. cbn. by rewrite Hp. }
  specialize (IH b1 _ _ _ _ Hp' Ha). destruct (notify on_internal l b1) as [tr' b2]. cbn [fst snd] in *.
  rewrite <- !Z.add_assoc, <- !Z.sub_add_distr in IH. destruct IH as (-> & IH & -> & -> & -> & -> & ->). done.
Qed.

Section wrappers.
Context {S : Type} `{!QueueDiscImpl S}.
Implicit Types s : S.

Lemma check_content_ok s n m dn dm :
  acct (q_base s) n m dn dm → 0 ≤ m < 2 ^ 32 → check_content s = Ok tt.
Proof.
  intros H Hm. destruct H. unfold check_content. rewrite ac_packets0, ac_content0, Z.eqb_refl. cbn [ns_assert mbind res_bind].
  rewrite ac_bytes0, ac_contentb0, !wrap_id, Z.eqb_refl by zlia. done.
Qed.

(** Reception of an item: the counters before [DoEnqueue]. *)
Definition received (i : Item) (b : base) : base :=
  let st := m_stats b in
  set_stats (mkStats (count i (nTotalReceived st)) (nTotalSent st) (nTotalEnqueued st)
       (nTotalDequeued st) (nTotalDropped st) (nTotalDroppedBeforeEnqueue st) (nDroppedBeforeEnqueue st)
       (nTotalDroppedAfterDequeue st) (nDroppedAfterDequeue st) (nTotalRequeued st)
       (nTotalMarked st) (nMarked st)) b.

Lemma Enqueue_ok clk i s r tr s' n m :
  (∀ p t s, m_stats (q_base (q_SetTimeStamp p t s)) = m_stats (q_base s)) →
  q_DoEnqueue clk i (q_set_base (received i (q_base s)) s) = Ok (r, tr, s') →
  acct (q_base s') n m 0 0 →
  Enqueue clk i s = Ok (r, tr, if r then q_SetTimeStamp (it_ptr i) (c_sim clk) s' else s').
Proof.
  intros Hst Hdo Ha. unfold Enqueue. fold (received i (q_base s)). rewrite Hdo. res_simpl.
  assert (m_stats (q_base (if r then q_SetTimeStamp (it_ptr i) (c_sim clk) s' else s')) = m_stats (q_base s')) as ->
    by (destruct r; [apply Hst|done]).
  destruct Ha. rewrite ac_seen0, ac_seenb0, !Z.add_0_r, !Z.eqb_refl. done.
Qed.

Lemma Dequeue_ok clk s r tr s' n m :
  m_requeued (q_base s) = None →
  q_DoDequeue clk s = Ok (r, tr, s') →
  acct (q_base s') n m 0 0 → 0 ≤ m < 2 ^ 32 →
  Dequeue clk s = Ok (r, tr, s').
Proof.
  intros Hr Hdo Ha Hm. unfold Dequeue. rewrite Hr, Hdo. res_simpl. by rewrite (check_content_ok s' n m 0 0).
Qed.
End wrappers.
