(* ===== verification/GateCorrect.v ===== *)
(** * Transmission gates: correctness

    What a gate does to the packets it holds, as operations on the list of them, with times in
    nanoseconds, and that no assertion of the queue discs fails. *)

From stdpp Require Import strings.
From S2P Require Import Prelude NsTime QueueDisc TransmissionGate QueueDiscCorrect.
From S2P Require PacketQueue.
Local Open Scope Z_scope.

Abbreviation bytes_of := (PacketQueue.bytes_of it_size).
Abbreviation held g := (PacketQueue.m_packets (g_queue g)).

(** The invariant of a gate that was given packets of at most [M] bytes and has yet to
    account for [dn] packets, [dm] bytes. *)
Record gate_st (M dn dm : Z) (g : Gate) : Prop := {
  gi_queue : PacketQueue.queue_inv it_size M (g_queue g);
  gi_unit : PacketQueue.m_unit (PacketQueue.m_maxSize (g_queue g)) = PacketQueue.PACKETS;
  gi_acct : acct (g_base g) (Z.of_nat (length (held g))) (bytes_of (held g)) dn dm;
  gi_peeked : m_peeked (g_base g) = false;
  gi_requeued : m_requeued (g_base g) = None
}.

Abbreviation gate_inv M := (gate_st M 0 0).

(** The fields that only [SetAttribute] changes. *)
Definition same_attributes (g g' : Gate) : Prop :=
  m_linkBandwidth g' = m_linkBandwidth g ∧ m_gateState g' = m_gateState g ∧ g_getNow g' = g_getNow g ∧
  m_keepAliveTime g' = m_keepAliveTime g ∧
  PacketQueue.m_maxSize (g_queue g') = PacketQueue.m_maxSize (g_queue g).

#[export] Instance same_attributes_preorder : PreOrder same_attributes.
Proof. split; [done|]. intros g1 g2 g3 (?&?&?&?&?) (?&?&?&?&?). unfold same_attributes. naive_solver congruence. Qed.

(** What the traces of an operation say of the packets held before and after it, when [n]
    packets of [m] bytes in all were offered. *)
Definition told (l l' : list Item) (tr : list trace) (n m : Z) : Prop :=
  content tr one = Z.of_nat (length l') - Z.of_nat (length l) ∧
  content tr it_size = bytes_of l' - bytes_of l ∧
  seen tr one = n ∧ seen tr it_size = m.

Lemma told_nil l : told l l [] 0 0.
Proof. unfold told. cbn. lia. Qed.

Lemma told_app l l' l'' tr tr' n n' m m' :
  told l l' tr n m → told l' l'' tr' n' m' → told l l'' (tr ++ tr') (n + n') (m + m').
Proof. intros (?&?&?&?) (?&?&?&?). unfold told. rewrite !content_app, !seen_app. lia. Qed.

(** The trace of a queue is determined by the answer. *)
Lemma queue_Dequeue_trace q r tr q' :
  PacketQueue.Dequeue it_size q = Ok (r, tr, q') →
  tr = match r with Some i => [PacketQueue.TDequeue i] | None => [] end.
Proof.
  unfold PacketQueue.Dequeue, PacketQueue.DoDequeue. intros H. case_match; [by simplify_eq|].
  res_inv. by simplify_eq.
Qed.

Lemma queue_Enqueue_trace i q r tr q' :
  PacketQueue.Enqueue it_size i q = Ok (r, tr, q') →
  tr = if r then [PacketQueue.TEnqueue i] else [PacketQueue.TDropBeforeEnqueue i].
Proof.
  unfold PacketQueue.Enqueue, PacketQueue.DoEnqueue. intros H. res_inv. case_match; [cbn in *|]; by simplify_eq.
Qed.

Section gate.
Context (M : Z).

(** The gate after an operation of its queue. *)
Lemma upd_queue_ok dn dm g qtr q n m :
  gate_st M dn dm g → PacketQueue.queue_inv it_size M q →
  PacketQueue.m_maxSize q = PacketQueue.m_maxSize (g_queue g) →
  told (held g) (PacketQueue.m_packets q) (of_internal <$> qtr) n m →
  ∃ g', upd_queue qtr q g = (of_internal <$> qtr, g') ∧ g_queue g' = q ∧ same_attributes g g' ∧
    gate_st M (dn - n) (dm - m) g'.
Proof.
  intros [] Hq Hmax (Hc & Hcb & Hs & Hsb). unfold upd_queue.
  destruct (acct_notify_internal qtr (g_base g) _ _ _ _ gi_peeked0 gi_acct0) as (Ht & Ha' & Hp & Hr & _).
  destruct (notify on_internal qtr (g_base g)) as [tr b]. cbn [fst snd] in *. subst tr.
  eexists. split; [done|]. cbn. split; [done|]. split; [by repeat split|].
  constructor; cbn; try done; [congruence| |congruence]. rewrite Hc, Hcb, Hs, Hsb in Ha'.
  by rewrite !Z.add_sub_assoc, !Z.add_simpl_l in Ha'.
Qed.

Lemma dequeue_head dn dm g i l :
  gate_st M dn dm g → held g = i :: l →
  ∃ q g', PacketQueue.Dequeue it_size (g_queue g) = Ok (Some i, [PacketQueue.TDequeue i], q) ∧
    upd_queue [PacketQueue.TDequeue i] q g = ([QDequeue i], g') ∧ g_queue g' = q ∧ same_attributes g g' ∧
    gate_st M dn dm g' ∧ held g' = l ∧ told (held g) l [QDequeue i] 0 0.
Proof.
  intros W Hl. destruct (PacketQueue.DoDequeue_head it_size M (g_queue g) (gi_queue _ _ _ _ W)) as (tr & q & E & Hq & Hp & Hm).
  rewrite Hl in E, Hp. cbn in E, Hp. pose proof (queue_Dequeue_trace _ _ _ _ E) as ->.
  assert (told (held g) l [QDequeue i] 0 0) as Ht.
  { unfold told. rewrite Hl. cbn. fold (bytes_of l). unfold one. lia. }
  destruct (upd_queue_ok dn dm g [PacketQueue.TDequeue i] q 0 0 W Hq Hm) as (g' & Hu & Hg & Hs & W').
  { by rewrite Hp. }
  rewrite !Z.sub_0_r in W'. exists q, g'. conj; try done. by rewrite Hg.
Qed.

Lemma peek_head dn dm g : gate_st M dn dm g → PacketQueue.Peek (g_queue g) = Ok (head (held g)).
Proof.
  intros [[Hp _ _ _ _] _ _ _ _]. unfold PacketQueue.Peek, PacketQueue.DoPeek. rewrite Hp.
  destruct (held g) as [|i l]; cbn [length]; [done|]. by rewrite (proj2 (Z.eqb_neq _ 0)) by lia.
Qed.

(** *** Packets that are too old *)

(** The packets that are left when those with a stamp before the limit are dropped. *)
Fixpoint live (now keep : Z) (l : list Item) : list Item :=
  match l with
  | i :: l' => if (0 <? keep) && (it_timeStamp i <? now - keep) then live now keep l' else l
  | [] => []
  end.

Definition time_ok (t : Z) : Prop := - 2 ^ 61 ≤ t < 2 ^ 61.

Lemma CheckLiveTimes_loop_ok fuel dn dm now g :
  gate_st M dn dm g → time_ok now → time_ok (m_keepAliveTime g) → (length (held g) < fuel)%nat →
  ∃ tr g', CheckLiveTimes_loop fuel now g = Ok (tr, g') ∧ gate_st M dn dm g' ∧ same_attributes g g' ∧
    held g' = live now (m_keepAliveTime g) (held g) ∧ told (held g) (held g') tr 0 0.
Proof.
  intros W Hnow Hka. revert g W Hka. induction fuel as [|fuel IH]; intros g W Hka Hf; [lia|]. cbn [CheckLiveTimes_loop].
  rewrite (peek_head dn dm g W). res_simpl. set (keep := m_keepAliveTime g) in *. unfold time_ok in *.
  destruct (held g) as [|i l] eqn:El; cbn [head live].
  { exists [], g. rewrite El. assert (∀ A (x : A), (if 0 <? keep then x else x) = x) as -> by (intros; by destruct (0 <? keep)).
    conj; try done; apply told_nil. }
  destruct (0 <? keep); cbn [andb]; [|exists [], g; rewrite El; conj; try done; apply told_nil].
  rewrite int64_ok by lia. res_simpl. destruct (it_timeStamp i <? now - keep);
    [|exists [], g; rewrite El; conj; try done; apply told_nil].
  destruct (dequeue_head dn dm g i l W El) as (q & g1 & -> & Hu & _ & Hs & W1 & Hl1 & Ht). res_simpl. rewrite Hu. res_simpl.
  destruct (DropAfterDequeue i PAKET_LIVE_EXCEEDED_DROP (g_base g1)) as [tr' b] eqn:Ed.
  pose proof (acct_DropAfterDequeue _ _ _ _ _ i PAKET_LIVE_EXCEEDED_DROP (gi_peeked _ _ _ _ W1) (gi_acct _ _ _ _ W1)) as Ha.
  rewrite Ed in Ha. cbn [snd] in Ha.
  assert (gate_st M dn dm (set_base b g1) ∧ tr' = [QDropAfterDequeue i PAKET_LIVE_EXCEEDED_DROP]) as [W2 ->].
  { destruct W1. unfold DropAfterDequeue in Ed. cbn in Ed. rewrite gi_peeked0 in Ed. simplify_eq.
    split; [|done]. by constructor. }
  destruct (IH (set_base b g1) W2) as (tr2 & g2 & -> & W3 & Hs3 & Hl3 & Ht3).
  - cbn. by replace (m_keepAliveTime g1) with keep by (subst keep; by destruct Hs as (?&?&?&?&?)).
  - cbn. rewrite Hl1. cbn in Hf. lia.
  - res_simpl. eexists _, g2. split; [done|]. cbn [set_base g_queue] in Hl3, Ht3. rewrite Hl1 in Hl3, Ht3. conj; try done.
    + etrans; [exact Hs|]. exact Hs3.
    + cbn [m_keepAliveTime set_base] in Hl3. rewrite Hl3. f_equal. by destruct Hs as (?&?&?&?&?).
    + rewrite El in Ht. change ([QDequeue i] ++ [QDropAfterDequeue i PAKET_LIVE_EXCEEDED_DROP] ++ tr2)
        with ([QDequeue i] ++ ([QDropAfterDequeue i PAKET_LIVE_EXCEEDED_DROP] ++ tr2)).
      eapply (told_app _ _ _ _ _ 0 0 0 0); [exact Ht|]. eapply (told_app _ _ _ _ _ 0 0 0 0); [|exact Ht3].
      unfold told. cbn. lia.
Qed.

Lemma CheckLiveTimes_ok clk dn dm g :
  gate_st M dn dm g → time_ok (GetDeviceTime clk g) → time_ok (m_keepAliveTime g) →
  ∃ tr g', CheckLiveTimes clk g = Ok (tr, g') ∧ gate_st M dn dm g' ∧ same_attributes g g' ∧
    held g' = live (GetDeviceTime clk g) (m_keepAliveTime g) (held g) ∧ told (held g) (held g') tr 0 0.
Proof. intros W H1 H2. apply CheckLiveTimes_loop_ok; try done. lia. Qed.

Lemma live_suffix now keep l : ∃ k, l = k ++ live now keep l.
Proof.
  induction l as [|i l [k IH]]; cbn; [by exists []|]. case_match; [|by exists []].
  exists (i :: k). cbn. by rewrite <- IH.
Qed.

Lemma held_bytes dn dm g : gate_st M dn dm g → 0 ≤ bytes_of (held g) < 2 ^ 32.
Proof.
  intros [[_ _ Hm Hs Hl] _ _ _ _]. pose proof (PacketQueue.no_wrap it_size M _ _ Hl Hm Hs) as (? & ? & _).
  destruct Hl as (_ & ? & _). lia.
Qed.

(** Whether a gate lets a packet go that takes [dur] to transmit. *)
Definition releases (gs : GateState) (now dur : Z) : bool :=
  state gs && ((interval gs <=? 0) || (dur <=? interval gs - now)).

(** The packet a gate hands out. *)
Definition released (clk : Clock) (g : Gate) : option Item :=
  match live (GetDeviceTime clk g) (m_keepAliveTime g) (held g) with
  | i :: _ => if releases (m_gateState g) (GetDeviceTime clk g) (txtime (m_linkBandwidth g) (it_size i))
              then Some i else None
  | [] => None
  end.

(** The times and sizes with which no computation of a gate overflows. *)
Record gate_times (clk : Clock) (g : Gate) : Prop := {
  gt_now : time_ok (GetDeviceTime clk g);
  gt_keep : time_ok (m_keepAliveTime g);
  gt_interval : time_ok (interval (m_gateState g));
  gt_rate : 0 < m_linkBandwidth g < 2 ^ 63;
  gt_size : M < 2 ^ 29
}.

Lemma DoDequeue_ok clk g :
  gate_inv M g → gate_times clk g →
  ∃ tr g', DoDequeue NS clk g = Ok (released clk g, tr, g') ∧ gate_inv M g' ∧ same_attributes g g' ∧
    held g' = (let l := live (GetDeviceTime clk g) (m_keepAliveTime g) (held g) in
               match released clk g with Some _ => tail l | None => l end) ∧
    told (held g) (held g') tr 0 0.
Proof.
  intros W [Hnow Hkeep Hint Hrate Hsize]. unfold DoDequeue.
  destruct (CheckLiveTimes_ok clk 0 0 g W Hnow Hkeep) as (tr & g1 & -> & W1 & Hs & Hl & Ht). res_simpl.
  rewrite (peek_head 0 0 g1 W1). res_simpl. rewrite <- Hl. unfold released. rewrite <- Hl.
  assert (GetDeviceTime clk g1 = GetDeviceTime clk g) as Hn by (unfold GetDeviceTime; by destruct Hs as (_ & _ & -> & _)).
  destruct (held g1) as [|i l] eqn:El; cbn [head].
  { exists tr, g1. rewrite El. by conj. }
  pose proof Hs as (Hs1 & Hs2 & Hs3 & Hs4 & Hs5). rewrite Hs2. unfold releases.
  destruct (state (m_gateState g)); cbn [andb]; [|exists tr, g1; rewrite El; by conj].
  destruct (dequeue_head 0 0 g1 i l W1 El) as (q & g2 & Hd & Hu & _ & Hs' & W2 & Hl2 & Ht2).
  assert (∃ tr0 g', (('(item, qtr, q) ← PacketQueue.Dequeue it_size (g_queue g1);
      let '(tr', g) := upd_queue qtr q g1 in Ok (item, tr ++ tr', g)) : res (option Item * list trace * Gate)) = Ok (Some i, tr0, g') ∧
    gate_inv M g' ∧ same_attributes g g' ∧ held g' = l ∧ told (held g) (held g') tr0 0 0) as Hdeq.
  { rewrite Hd. res_simpl. rewrite Hu. eexists _, g2. split; [done|]. conj; [done|etrans; [exact Hs|exact Hs']|done|].
    rewrite Hl2. rewrite El in Ht2. eapply (told_app _ _ _ _ _ 0 0 0 0); [exact Ht|exact Ht2]. }
  destruct (Z.ltb_spec 0 (interval (m_gateState g))); cycle 1.
  { rewrite (proj2 (Z.leb_le _ _)) by lia. cbn [orb]. destruct Hdeq as (tr' & g' & E & ?). exists tr', g'. by rewrite E. }
  rewrite (proj2 (Z.leb_gt _ _)) by lia. cbn [orb]. unfold GetTransmissionDuration. rewrite Hs1.
  pose proof (gi_queue _ _ _ _ W1) as [_ _ _ Hsz _]. rewrite El in Hsz. inversion Hsz as [|? ? Hi _]; subst.
  unfold PacketQueue.size_ok in Hi. destruct (txtime_ok (m_linkBandwidth g) (it_size i)) as [-> ?]; [done|lia|]. res_simpl.
  rewrite Hn. unfold time_ok in *. rewrite int64_ok by lia. res_simpl.
  destruct (Z.ltb_spec (interval (m_gateState g) - GetDeviceTime clk g) (txtime (m_linkBandwidth g) (it_size i))).
  - rewrite (proj2 (Z.leb_gt _ _)) by lia. exists tr, g1. rewrite El. by conj.
  - rewrite (proj2 (Z.leb_le _ _)) by lia. destruct Hdeq as (tr' & g' & E & ?). exists tr', g'. by rewrite E.
Qed.

#[local] Existing Instance Gate_impl.

(** [QueueDisc::Dequeue] on a gate. *)
Lemma gate_Dequeue_ok clk g :
  gate_inv M g → gate_times clk g →
  ∃ tr g', QueueDisc.Dequeue (QueueDiscImpl0 := Gate_impl NS) clk g = Ok (released clk g, tr, g') ∧
    gate_inv M g' ∧ same_attributes g g' ∧
    held g' = (let l := live (GetDeviceTime clk g) (m_keepAliveTime g) (held g) in
               match released clk g with Some _ => tail l | None => l end) ∧
    told (held g) (held g') tr 0 0.
Proof.
  intros W T. destruct (DoDequeue_ok clk g W T) as (tr & g' & E & W' & H). exists tr, g'. split; [|done].
  eapply Dequeue_ok; [apply W|exact E|apply W'|by eapply held_bytes].
Qed.

(** *** Enqueueing *)

Lemma stamp_size p t i : it_size (stamp p t i) = it_size i.
Proof. unfold stamp. by case_match. Qed.

Lemma stamps_bytes p t l : bytes_of (stamp p t <$> l) = bytes_of l.
Proof. induction l as [|i l IH]; cbn; [done|]. fold (bytes_of l) (bytes_of (stamp p t <$> l)). by rewrite IH, stamp_size. Qed.

Lemma stamps_fit max p t l :
  PacketQueue.fits_queue it_size max l → PacketQueue.fits_queue it_size max (stamp p t <$> l).
Proof. unfold PacketQueue.fits_queue. by rewrite length_fmap, stamps_bytes. Qed.

Lemma SetTimeStamp_ok dn dm g p t :
  gate_st M dn dm g →
  gate_st M dn dm (SetTimeStamp p t g) ∧ same_attributes g (SetTimeStamp p t g) ∧
  held (SetTimeStamp p t g) = stamp p t <$> held g.
Proof.
  intros [[Hp Hb Hm Hs Hl] Hu Ha Hpk Hr]. split; [|done]. constructor; cbn -[PacketQueue.bytes_of]; [|done| |done|by rewrite Hr].
  - constructor; cbn -[PacketQueue.bytes_of]; [by rewrite length_fmap|by rewrite stamps_bytes|by apply stamps_fit|apply Forall_fmap|done].
    eapply Forall_impl; [exact Hs|]. intros i. unfold PacketQueue.size_ok. cbn. by rewrite stamp_size.
  - rewrite length_fmap, stamps_bytes. destruct Ha. by constructor.
Qed.

Lemma enqueue_queue dn dm g i :
  gate_st M dn dm g → PacketQueue.size_ok it_size M i →
  Z.of_nat (length (held g)) ≠ PacketQueue.m_value (PacketQueue.m_maxSize (g_queue g)) →
  ∃ q g', PacketQueue.Enqueue it_size i (g_queue g) = Ok (true, [PacketQueue.TEnqueue i], q) ∧
    upd_queue [PacketQueue.TEnqueue i] q g = ([QEnqueue i], g') ∧ same_attributes g g' ∧
    gate_st M (dn - 1) (dm - it_size i) g' ∧ held g' = held g ++ [i] ∧
    told (held g) (held g ++ [i]) [QEnqueue i] 1 (it_size i).
Proof.
  intros W Hi Hne. destruct (PacketQueue.queue_step_ok it_size M (PacketQueue.OpEnqueue i) (g_queue g) (gi_queue _ _ _ _ W) Hi)
    as (q & E & Hq & Hp & Hm). cbn [PacketQueue.queue_step PacketQueue.fifo_step] in *.
  rewrite decide_True in E, Hp.
  2,3: pose proof (PacketQueue.qi_max _ _ _ (gi_queue _ _ _ _ W)) as Hf; unfold PacketQueue.fits_queue in *;
    rewrite (gi_unit _ _ _ _ W) in *; rewrite length_app; cbn; lia.
  cbn [fst snd] in *. destruct (PacketQueue.Enqueue it_size i (g_queue g)) as [[[b tr] q']|] eqn:Ee; [|done]. cbn in E. simplify_eq.
  pose proof (queue_Enqueue_trace _ _ _ _ _ Ee) as ->.
  assert (told (held g) (held g ++ [i]) [QEnqueue i] 1 (it_size i)) as Ht.
  { unfold told. rewrite length_app, PacketQueue.bytes_of_app. cbn. unfold one. lia. }
  destruct (upd_queue_ok dn dm g [PacketQueue.TEnqueue i] q 1 (it_size i) W Hq Hm) as (g' & Hu & Hg & Hs & W').
  { by rewrite Hp. }
  exists q, g'. conj; try done. by rewrite Hg.
Qed.

(** [QueueDisc::Enqueue] on a gate: the packet is accepted unless the queue is full. *)
Lemma gate_Enqueue_ok clk i g :
  gate_inv M g → gate_times clk g → PacketQueue.size_ok it_size M i →
  let l := live (GetDeviceTime clk g) (m_keepAliveTime g) (held g) in
  let r := negb (Z.of_nat (length l) =? PacketQueue.m_value (PacketQueue.m_maxSize (g_queue g))) in
  ∃ tr g', QueueDisc.Enqueue (QueueDiscImpl0 := Gate_impl NS) clk i g = Ok (r, tr, g') ∧
    gate_inv M g' ∧ same_attributes g g' ∧
    held g' = (if r then stamp (it_ptr i) (c_sim clk) <$> (l ++ [i]) else l) ∧
    told (held g) (held g') tr 1 (it_size i).
Proof.
  intros W [Hnow Hkeep Hint Hrate Hsize] Hi l r.
  set (g0 := set_base (received i (g_base g)) g).
  assert (gate_st M 1 (it_size i) g0) as W0.
  { destruct W. constructor; cbn; try done. by apply (acct_received _ _ _ 0 0 i). }
  destruct (CheckLiveTimes_ok clk _ _ g0 W0 Hnow Hkeep) as (tr & g1 & E & W1 & Hs & Hl & Ht).
  change (held g0) with (held g) in *. change (GetDeviceTime clk g0) with (GetDeviceTime clk g) in Hl.
  change (m_keepAliveTime g0) with (m_keepAliveTime g) in Hl. fold l in Hl.
  assert (∃ tr' g', DoEnqueue clk i g0 = Ok (r, tr', g') ∧ gate_inv M g' ∧ same_attributes g g' ∧
    held g' = (if r then l ++ [i] else l) ∧ told (held g) (held g') tr' 1 (it_size i)) as (tr' & g' & E' & W' & Hs' & Hl' & Ht').
  { unfold DoEnqueue. rewrite E. res_simpl. unfold PacketQueue.size_eq, PacketQueue.GetMaxSize, PacketQueue.GetNPackets.
    rewrite (gi_unit _ _ _ _ W1). cbn [PacketQueue.m_unit]. rewrite bool_decide_true by done.
    cbn [ns_abort_unless mbind res_bind PacketQueue.m_value].
    rewrite (PacketQueue.qi_packets _ _ _ (gi_queue _ _ _ _ W1)), Hl. pose proof Hs as (_ & _ & _ & _ & Hm).
    rewrite Hm. change (g_queue g0) with (g_queue g). rewrite Z.eqb_sym. subst r.
    destruct (Z.eqb_spec (Z.of_nat (length l)) (PacketQueue.m_value (PacketQueue.m_maxSize (g_queue g)))) as [Hfull|Hroom];
      cbn [negb].
    - destruct (DropBeforeEnqueue i LIMIT_EXCEEDED_DROP (g_base g1)) as [tr' b] eqn:Ed.
      pose proof (acct_DropBeforeEnqueue _ _ _ _ _ i LIMIT_EXCEEDED_DROP (gi_acct _ _ _ _ W1)) as Ha.
      rewrite Ed, !Z.sub_diag in Ha. cbn [snd] in Ha. unfold DropBeforeEnqueue in Ed. simplify_eq.
      eexists _, _. split; [done|]. split; [destruct W1; by constructor|]. split; [done|]. split; [done|].
      cbn [set_base g_queue]. eapply (told_app _ _ _ _ _ 0 1 0 (it_size i)); [exact Ht|].
      unfold told. cbn. unfold one. lia.
    - destruct (enqueue_queue _ _ g1 i W1 Hi) as (q & g' & -> & Hu & Hs' & W' & Hl' & Ht'); [by rewrite Hl, Hm|].
      res_simpl. rewrite Hu. eexists _, _. split; [done|]. rewrite !Z.sub_diag in W'. conj; [done|by etrans|by rewrite Hl', Hl|].
      eapply (told_app _ _ _ _ _ 0 1 0 (it_size i)); [exact Ht|by rewrite Hl']. }
  eexists tr', _. split.
  { eapply Enqueue_ok; [done|exact E'|apply W']. }
  cbn [q_SetTimeStamp Gate_impl]. destruct r; [|by conj].
  destruct (SetTimeStamp_ok 0 0 g' (it_ptr i) (c_sim clk) W') as (W2 & Hs2 & Hl2). rewrite Hl2, Hl'.
  conj; [done|by etrans|done|]. rewrite <- Hl'. unfold told in *. rewrite length_fmap, stamps_bytes. done.
Qed.
End gate.
