(* ===== verification/TasSchedule.v ===== *)
(** * The time aware shaper: what [ListExecute] computes

    The state of a gate at a time and the time of its next change, against the windows of the
    schedule of its queue. *)

From stdpp Require Import strings.
From S2P Require Import Prelude NsTime QueueDisc GateList TransmissionGate TasQueueDisc.
Local Open Scope Z_scope.

(** The windows before and behind one of a list. *)
Lemma windows_split lo pre o c post hi :
  windows_ok lo (pre ++ (o, c) :: post) hi →
  (∀ a b, (a, b) ∈ pre → lo ≤ a < b ∧ b < o) ∧ lo ≤ o < c ∧ c ≤ hi ∧ (∀ a b, (a, b) ∈ post → c < a < b ∧ b ≤ hi).
Proof.
  revert lo. induction pre as [|[a b] pre IH]; cbn [app windows_ok]; intros lo H.
  - destruct H as (? & ? & ? & Hn & H). split; [by intros ? ? ?%not_elem_of_nil|]. split; [lia|]. split; [lia|].
    intros a b Hin. destruct post as [|[o' c'] post]; [by apply not_elem_of_nil in Hin|].
    pose proof H as H'. cbn in H'. pose proof (windows_ok_bounds _ _ _ a b H Hin).
    apply elem_of_cons in Hin as [[= -> ->]|Hin]; [lia|].
    destruct H' as (? & ? & ? & _ & H'). pose proof (windows_ok_bounds _ _ _ a b H' Hin). lia.
  - destruct H as (? & ? & ? & Hn & H). destruct (IH b H) as (Hpre & ? & ? & Hpost). conj; try lia; try done.
    assert (b < o).
    { destruct pre as [|[a' b'] pre]; cbn in Hn; [lia|]. destruct (Hpre a' b'); [by left|]. lia. }
    intros a' b' Hin. apply elem_of_cons in Hin as [[= -> ->]|Hin]; [lia|]. specialize (Hpre a' b' Hin). lia.
Qed.

(** The search: the first window that is not over, or the first of all. *)
Lemma GetNextBiggerEntry_loop_spec k (ws : list (Z * Z)) t :
  (∃ pre o c post, ws = pre ++ (o, c) :: post ∧ (∀ a b, (a, b) ∈ pre → b ≤ t) ∧ t < c ∧
     GetNextBiggerEntry_loop k ws.*2 t = k + Z.of_nat (length pre)) ∨
  ((∀ a b, (a, b) ∈ ws → b ≤ t) ∧ GetNextBiggerEntry_loop k ws.*2 t = 0).
Proof.
  revert k. induction ws as [|[o c] ws IH]; intros k; cbn [fmap list_fmap GetNextBiggerEntry_loop snd].
  { right. split; [by intros ? ? ?%not_elem_of_nil|done]. }
  destruct (Z.ltb_spec t c).
  { left. exists [], o, c, ws. split; [done|]. split; [by intros ? ? ?%not_elem_of_nil|]. cbn. split; [done|]. lia. }
  destruct (IH (k + 1)) as [(pre & o' & c' & post & -> & Hpre & Hc & ->)|[Hall ->]]; [left|right].
  - exists ((o, c) :: pre), o', c', post. split; [done|]. split; [|split; [done|cbn; lia]].
    intros a b Hin. apply elem_of_cons in Hin as [[= -> ->]|Hin]; [lia|by eapply Hpre].
  - split; [|done]. intros a b Hin. apply elem_of_cons in Hin as [[= -> ->]|Hin]; [lia|by eapply Hall].
Qed.

Lemma gates_at pre o c post :
  let g := gates (pre ++ (o, c) :: post) in
  at_ (m_openingTimes g) (length pre) = Ok o ∧ at_ (m_closingTimes g) (length pre) = Ok c ∧
  at_ (m_openOffset g) (length pre) = Ok 0.
Proof. intros g. destruct (gates_lookup pre o c post) as (E1 & E2 & E3 & _). unfold at_. subst g. by rewrite E1, E2, E3. Qed.

(** The state of a gate and the time of its next change: what they must be for the windows
    [ws] of a cycle of length [len], at the time [t] of the cycle. *)
Record change_ok (ws : list (Z * Z)) (len t : Z) (st : bool) (nx : Z) : Prop := {
  ch_later : t < nx ≤ t + len;
  ch_state : st = true ↔ open_in ws t;
  ch_until : ∀ u, t ≤ u < nx → (open_in ws (u mod len) ↔ st = true);
  ch_flip : ws ≠ [(0, len)] → (open_in ws (nx mod len) ↔ st = false)
}.

Section split.
Context (len : Z) (pre : list (Z * Z)) (o c : Z) (post : list (Z * Z)).
Context (Hw : windows_ok 0 (pre ++ (o, c) :: post) len).

(** Whether the gate is open from the end of the windows before on to the beginning of the
    windows behind. *)
Lemma open_here u :
  (∀ a b, (a, b) ∈ pre → b ≤ u) → (∀ a b, (a, b) ∈ post → u < a) →
  open_in (pre ++ (o, c) :: post) u ↔ o ≤ u < c.
Proof.
  intros Hpre Hpost. split.
  - intros (a & b & Hin & Hu). apply elem_of_app in Hin as [Hin|Hin]; [specialize (Hpre a b Hin); lia|].
    apply elem_of_cons in Hin as [[= -> ->]|Hin]; [done|]. specialize (Hpost a b Hin). lia.
  - intros Hu. exists o, c. split; [|done]. apply elem_of_app. right. by left.
Qed.
End split.

Lemma closed_after ws u : (∀ a b, (a, b) ∈ ws → b ≤ u) → ¬ open_in ws u.
Proof. intros H (a & b & Hin & Hu). specialize (H a b Hin). lia. Qed.

(** [mod] at a time of this cycle or the next one. *)
Lemma mod_this u len : 0 ≤ u < len → u mod len = u.
Proof. apply Z.mod_small. Qed.

Lemma mod_next u len : len ≤ u < 2 * len → u mod len = u - len.
Proof. intros. rewrite (Z.mod_eq u len) by lia. assert (u / len = 1) as ->; [|lia]. symmetry. apply Z.div_unique with (u - len); lia. Qed.

Section changes.
Context (len t : Z) (Ht : 0 ≤ t < len).

(** Closed until the next window. *)
Lemma change_closed pre o c post :
  windows_ok 0 (pre ++ (o, c) :: post) len → (∀ a b, (a, b) ∈ pre → b ≤ t) → t < o →
  change_ok (pre ++ (o, c) :: post) len t false o.
Proof.
  intros Hw Hpre Ho. destruct (windows_split _ _ _ _ _ _ Hw) as (_ & ? & ? & Hpost).
  assert (∀ u, t ≤ u ≤ o → open_in (pre ++ (o, c) :: post) u ↔ o ≤ u < c) as HA.
  { intros u Hu. apply open_here; intros a b Hin; [specialize (Hpre a b Hin)|specialize (Hpost a b Hin)]; lia. }
  constructor; [lia|rewrite HA by lia; naive_solver lia| |].
  - intros u Hu. rewrite mod_this, HA by lia. naive_solver lia.
  - intros _. rewrite mod_this, HA by lia. naive_solver lia.
Qed.

(** Closed until the first window of the next cycle. *)
Lemma change_over o c post :
  windows_ok 0 ((o, c) :: post) len → (∀ a b, (a, b) ∈ (o, c) :: post → b ≤ t) →
  change_ok ((o, c) :: post) len t false (o + len).
Proof.
  intros Hw Hall. destruct (windows_split _ [] _ _ _ _ Hw) as (_ & ? & ? & Hpost).
  assert (c ≤ t) by (apply (Hall o); by left).
  assert (∀ u, 0 ≤ u ≤ o → open_in ((o, c) :: post) u ↔ o ≤ u < c) as HA.
  { intros u Hu. apply (open_here []); intros a b Hin; [by apply not_elem_of_nil in Hin|specialize (Hpost a b Hin); lia]. }
  assert (∀ u, t ≤ u → ¬ open_in ((o, c) :: post) u) as HB.
  { intros u Hu. apply closed_after. intros a b Hin. specialize (Hall a b Hin). lia. }
  constructor; [lia|specialize (HB t); naive_solver lia| |].
  - intros u Hu. destruct (Z.lt_ge_cases u len).
    + rewrite mod_this by lia. specialize (HB u). naive_solver lia.
    + rewrite mod_next, HA by lia. naive_solver lia.
  - intros _. rewrite mod_next, HA by lia. naive_solver lia.
Qed.

(** Open until the end of the window, which the next cycle does not continue. *)
Lemma change_close pre o c post :
  windows_ok 0 (pre ++ (o, c) :: post) len → (∀ a b, (a, b) ∈ pre → b ≤ t) → o ≤ t < c →
  (c = len → ∀ o' c' ws, pre ++ (o, c) :: post = (o', c') :: ws → o' ≠ 0) →
  change_ok (pre ++ (o, c) :: post) len t true c.
Proof.
  intros Hw Hpre Ho Hfirst. destruct (windows_split _ _ _ _ _ _ Hw) as (_ & ? & ? & Hpost).
  assert (∀ u, t ≤ u ≤ c → open_in (pre ++ (o, c) :: post) u ↔ o ≤ u < c) as HA.
  { intros u Hu. apply open_here; intros a b Hin; [specialize (Hpre a b Hin)|specialize (Hpost a b Hin)]; lia. }
  constructor; [lia|rewrite HA by lia; naive_solver lia| |].
  - intros u Hu. rewrite mod_this, HA by lia. naive_solver lia.
  - intros _. split; [|done]. intros Hop. exfalso. destruct (Z.eq_dec c len) as [->|].
    + rewrite Z_mod_same_full in Hop. destruct (pre ++ (o, len) :: post) as [|[o' c'] ws] eqn:E; [by destruct pre|].
      specialize (Hfirst eq_refl o' c' ws eq_refl). destruct (windows_split _ [] _ _ _ _ Hw) as (_ & ? & ? & Hpost').
      destruct Hop as (a & b & Hin & Hu). apply elem_of_cons in Hin as [[= -> ->]|Hin]; [lia|].
      specialize (Hpost' a b Hin). lia.
    + rewrite mod_this, HA in Hop by lia. lia.
Qed.

(** Always open. *)
Lemma change_full : change_ok [(0, len)] len t true len.
Proof.
  constructor; [lia|rewrite open_in_single; naive_solver lia| |done].
  intros u Hu. rewrite mod_this, open_in_single by lia. naive_solver lia.
Qed.

(** Open until the end of the first window of the next cycle. *)
Lemma change_joined b pre o :
  windows_ok 0 (((0, b) :: pre) ++ [(o, len)]) len → o ≤ t →
  change_ok (((0, b) :: pre) ++ [(o, len)]) len t true (b + len).
Proof.
  intros Hw Ho. destruct (windows_split _ _ _ _ _ _ Hw) as (Hpre & ? & _ & _).
  destruct (Hpre 0 b) as [? ?]; [by left|]. destruct (windows_split _ [] _ _ _ _ Hw) as (_ & _ & _ & Hpost).
  assert (∀ u, t ≤ u < len → open_in (((0, b) :: pre) ++ [(o, len)]) u) as HA.
  { intros u Hu. exists o, len. split; [apply elem_of_app; right; by left|lia]. }
  assert (∀ u, 0 ≤ u ≤ b → open_in (((0, b) :: pre) ++ [(o, len)]) u ↔ 0 ≤ u < b) as HB.
  { intros u Hu. apply (open_here []); intros a' b' Hin; [by apply not_elem_of_nil in Hin|].
    specialize (Hpost a' b' Hin). lia. }
  constructor; [lia|specialize (HA t); naive_solver lia| |].
  - intros u Hu. destruct (Z.lt_ge_cases u len).
    + rewrite mod_this by lia. specialize (HA u). naive_solver lia.
    + rewrite mod_next, HB by lia. naive_solver lia.
  - intros _. rewrite mod_next, HB by lia. naive_solver lia.
Qed.
End changes.

Lemma gate_at_windows len ws t :
  windows_ok 0 ws len → 0 ≤ t < len → len < 2 ^ 62 →
  match ws with
  | [] => gate_at (gates ws) len t = Ok None
  | _ => ∃ st nx, gate_at (gates ws) len t = Ok (Some (st, nx)) ∧ change_ok ws len t st nx
  end.
Proof.
  intros Hw Ht Hlen. unfold gate_at.
  destruct ws as [|[o1 c1] ws'] eqn:Ews; [done|]. rewrite <- Ews in *.
  assert (GetNextBiggerEntry (m_closingTimes (gates ws)) t = GetNextBiggerEntry_loop 0 ws.*2 t) as -> by (by rewrite Ews).
  destruct (GetNextBiggerEntry_loop_spec 0 ws t) as [(pre & o & c & post & E & Hpre & Hc & ->)|[Hall ->]].
  - rewrite E in *. rewrite (proj2 (Z.ltb_ge _ 0)) by lia. rewrite Z.add_0_l, Nat2Z.id.
    destruct (gates_at pre o c post) as (-> & -> & _). res_simpl.
    destruct (windows_split _ _ _ _ _ _ Hw) as (Hpre' & ? & ? & Hpost). destruct (Z.leb_spec o t); cbn [andb]; cycle 1.
    { res_simpl. rewrite (proj2 (Z.ltb_ge o t)) by lia. eexists _, _. split; [done|]. by apply change_closed. }
    rewrite (proj2 (Z.ltb_lt t c)) by lia. destruct (Z.eqb_spec c len) as [->|Hne]; res_simpl; cycle 1.
    { rewrite (proj2 (Z.ltb_ge c t)) by lia. eexists _, _. split; [done|]. apply change_close; try done; lia. }
    destruct post as [|[a b] post]; [|specialize (Hpost a b ltac:(by left)); lia].
    assert (gates (pre ++ [(o, len)]) = gates ([] ++ (o1, c1) :: ws')) as -> by (cbn [app]; by rewrite <- Ews).
    destruct (gates_at [] o1 c1 ws') as (E1 & E2 & E3). cbn [length] in E1, E2, E3. rewrite E1. res_simpl. rewrite E3.
    res_simpl. assert (0 ≤ o1 < c1 ∧ c1 ≤ len) as [? ?].
    { rewrite Ews in Hw. by destruct (windows_split _ [] _ _ _ _ Hw) as (_ & ? & ? & _). }
    rewrite Z.sub_0_r, int64_ok by lia. res_simpl.
    destruct (Z.eqb_spec o1 0) as [->|Ho1]; cycle 1; res_simpl.
    { rewrite (proj2 (Z.ltb_ge len t)) by lia. eexists _, _. split; [done|]. apply change_close; try done.
      intros _ o' c' ws0 E'. rewrite Ews in E'. by simplify_eq. }
    rewrite E2. res_simpl. destruct pre as [|[a b] pre]; cbn [app] in Ews; simplify_eq.
    + rewrite (proj2 (Z.ltb_ge c1 t)) by lia. eexists _, _. split; [done|]. by apply change_full.
    + destruct (Hpre' 0 c1) as [? ?]; [by left|]. rewrite (proj2 (Z.ltb_lt c1 t)) by lia.
      rewrite int64_ok by lia. eexists _, _. split; [done|]. apply change_joined; done || lia.
  - rewrite Ews in *. cbn [Z.ltb]. change (Z.to_nat 0) with (length ([] : list (Z * Z))).
    destruct (gates_at [] o1 c1 ws') as (E1 & E2 & E3). cbn [app] in E1, E2, E3. change (0 <? 0) with false. cbn match.
    rewrite E1, E2. res_simpl. destruct (windows_split _ [] _ _ _ _ Hw) as (_ & ? & ? & _).
    assert (c1 ≤ t) by (apply (Hall o1); by left). rewrite (proj2 (Z.ltb_ge t c1)), andb_false_r by lia. res_simpl.
    rewrite (proj2 (Z.ltb_lt o1 t)), int64_ok by lia. eexists _, _. split; [done|]. by apply change_over.
Qed.

(** [GetNextBiggerEntry] and what is made of it, for the list of a queue. *)
Lemma gate_at_ok len g t :
  gates_ok len g → 0 ≤ t < len → len < 2 ^ 62 →
  (windows g = [] ∧ gate_at g len t = Ok None) ∨
  ∃ st nx, gate_at g len t = Ok (Some (st, nx)) ∧ change_ok (windows g) len t st nx.
Proof.
  intros W Ht Hlen. pose proof (gate_at_windows len (windows g) t (go_windows _ _ W) Ht Hlen) as H.
  rewrite <- (gates_of g len W) in H. destruct (windows g); [by left|by right].
Qed.
