(* ===== verification/TasEvents.v ===== *)
(** * The time aware shaper: its events

    Every entry whose run is scheduled shares an event with the entries that change at the
    same time.  [ScheduleRun] and [CancelRun] keep that, and no delay is negative, as long as
    the clock of the device runs at the speed of the simulator. *)

From stdpp Require Import strings.
From S2P Require Import Prelude NsTime QueueDisc GateList TransmissionGate TasQueueDisc.
Local Open Scope Z_scope.

Section events.
(** The offset of the clock of the device. *)
Context (off : Z).

Definition dev_off (s : Tas) : Z := if t_getNow s then off else 0.

(** The fields the events do not touch. *)
Definition core (s : Tas) : Tas := set_t_sim (mkSim 0 ∅) (set_m_gateListConfig [] s).

(** Only runs were scheduled or cancelled. *)
Record others (s s' : Tas) : Prop := {
  ot_uid : (s_uid (t_sim s) ≤ s_uid (t_sim s'))%nat;
  ot_old : ∀ u tv, s_pending (t_sim s') !! u = Some tv →
             s_pending (t_sim s) !! u = Some tv ∨ ((s_uid (t_sim s) ≤ u)%nat ∧ tv.2 = EvRun);
  ot_kept : ∀ u t ev, ev ≠ EvRun → s_pending (t_sim s) !! u = Some (t, ev) → s_pending (t_sim s') !! u = Some (t, ev)
}.

#[export] Instance others_preorder : PreOrder others.
Proof.
  split; [split; [done|by left|done]|]. intros s1 s2 s3 [H1 H2 H4] [H5 H6 H8]. split; [lia| |by auto].
  intros u tv Hp. destruct (H6 u tv Hp) as [Hp'|[? ?]]; [by apply H2|]. right. split; [lia|done].
Qed.

Lemma others_ext s s' s'' : t_sim s'' = t_sim s' → others s s' → others s s''.
Proof. intros E []. by split; rewrite E. Qed.

(** Only runs have changed. *)
Definition events_only (s s' : Tas) : Prop :=
  core s' = core s ∧ e_gateState <$> m_gateListConfig s' = e_gateState <$> m_gateListConfig s ∧ others s s'.

#[export] Instance events_only_preorder : PreOrder events_only.
Proof.
  split; [done|]. intros s1 s2 s3 (?&?&?) (?&?&?). unfold events_only. split; [congruence|]. split; [congruence|]. by etrans.
Qed.

(** The event of an entry that is running is an [EvRun] at the time of its stamp. *)
Definition stamp_ok (s : Tas) (e : GateListEntry) : Prop :=
  ∀ u tv, reRunEvent e = Some u → s_pending (t_sim s) !! u = Some tv →
    tv = (reRunEventTimeStamp e - dev_off s, EvRun).

(** And that is the time at which the gate changes. *)
Definition run_ok (s : Tas) (e : GateListEntry) : Prop :=
  IsRunning (reRunEvent e) s = true → reRunEventTimeStamp e = e_GetNextEvent e.

(** The pending events are not in the past, and their identifiers have been given out. *)
Record sim_ok (now : Z) (s : Tas) : Prop := {
  so_time : ∀ u t ev, s_pending (t_sim s) !! u = Some (t, ev) → now ≤ t < 2 ^ 62;
  so_uid : ∀ u tv, s_pending (t_sim s) !! u = Some tv → (u < s_uid (t_sim s))%nat
}.

(** The entries, of which that of [q] may have an event at another time than its change. *)
Record entries_ok (q : nat) (s : Tas) : Prop := {
  eo_length : length (m_gateListConfig s) = 8%nat;
  eo_stamp : ∀ i e, m_gateListConfig s !! i = Some e → stamp_ok s e;
  eo_run : ∀ i e, m_gateListConfig s !! i = Some e → i ≠ q → run_ok s e;
  eo_known : ∀ i e u, m_gateListConfig s !! i = Some e → reRunEvent e = Some u → (u < s_uid (t_sim s))%nat
}.

Lemma IsRunning_spec id s : IsRunning id s = true ↔ ∃ u, id = Some u ∧ is_Some (s_pending (t_sim s) !! u).
Proof.
  unfold IsRunning, IsExpired. destruct id as [u|]; [|naive_solver]. destruct (s_pending (t_sim s) !! u) eqn:E.
  - split; [|done]. intros _. exists u. by rewrite E.
  - split; [done|]. intros (u' & [= <-] & [? E']). congruence.
Qed.

Lemma at_ok {A} (l : list A) i x : l !! i = Some x → at_ l i = Ok x.
Proof. unfold at_. by intros ->. Qed.

Lemma put_entry_ok i e e' s :
  m_gateListConfig s !! i = Some e → put_entry i e' s = Ok (set_m_gateListConfig (<[i := e']> (m_gateListConfig s)) s).
Proof. intros H. unfold put_entry, set_at. by rewrite H. Qed.

(** A new event: the others stay as they are. *)
Lemma tas_Schedule_ok now clk delay ev s :
  c_sim clk = now → 0 ≤ delay → 0 ≤ now → now + delay < 2 ^ 62 → sim_ok now s →
  let s' := set_t_sim (mkSim (S (s_uid (t_sim s))) (<[s_uid (t_sim s) := (now + delay, ev)]> (s_pending (t_sim s)))) s in
  Schedule clk delay ev s = Ok (Some (s_uid (t_sim s)), s') ∧ sim_ok now s' ∧ (ev = EvRun → events_only s s').
Proof.
  intros Hc Hd Hn Hmax [Ht Hu] s'. unfold Schedule. rewrite (proj2 (Z.leb_le _ _) Hd), Hc. cbn [ns_assert mbind res_bind].
  rewrite int64_ok by lia. res_simpl. split; [done|]. split; cycle 1.
  { intros ->. split; [done|]. split; [done|]. split; cbn; [lia| |].
    - intros u tv H. apply lookup_insert_Some in H as [[<- <-]|[_ H]]; [by right|by left].
    - intros u t ev' Hev H. rewrite lookup_insert_ne; [done|]. specialize (Hu _ _ H). lia. }
  constructor; cbn; intros u.
  - intros t ev' H. apply lookup_insert_Some in H as [[_ [= <- <-]]|[_ H]]; [lia|by eapply Ht].
  - intros tv H. apply lookup_insert_Some in H as [[<- _]|[_ H]]; [lia|]. specialize (Hu u tv H). lia.
Qed.

Lemma sim_ok_cancel now id s : sim_ok now s → sim_ok now (Cancel id s).
Proof.
  intros [Ht Hu]. destruct id as [u|]; [|by constructor]. constructor; cbn; intros u' *; rewrite lookup_delete_Some; naive_solver.
Qed.

Lemma Cancel_events_only id s :
  (∀ u tv, id = Some u → s_pending (t_sim s) !! u = Some tv → tv.2 = EvRun) → events_only s (Cancel id s).
Proof.
  intros Hrun. destruct id as [u|]; [|done]. split; [done|]. split; [done|]. split; cbn; [done| |].
  - intros u' tv H. apply lookup_delete_Some in H as [_ H]. by left.
  - intros u' t ev Hev H. apply lookup_delete_Some. split; [|done]. intros <-. by specialize (Hrun _ _ eq_refl H).
Qed.

(** Changing one entry, and adding and removing an event. *)
Lemma entries_ok_put q i e' s :
  entries_ok q s → stamp_ok s e' → (i ≠ q → run_ok s e') →
  (∀ u, reRunEvent e' = Some u → (u < s_uid (t_sim s))%nat) →
  entries_ok q (set_m_gateListConfig (<[i := e']> (m_gateListConfig s)) s).
Proof.
  intros [Hl Hs Hr Hk] H1 H2 H3. constructor; cbn.
  - by rewrite length_insert.
  - intros j e Hj. apply list_lookup_insert_Some in Hj as [(<- & -> & _)|[_ Hj]]; [done|]. by eapply Hs.
  - intros j e Hj Hq. apply list_lookup_insert_Some in Hj as [(<- & -> & _)|[_ Hj]]; [by apply H2|]. by eapply Hr.
  - intros j e u Hj. apply list_lookup_insert_Some in Hj as [(<- & -> & _)|[_ Hj]]; [by apply H3|]. by eapply Hk.
Qed.

Lemma entries_ok_schedule q tv s :
  entries_ok q s →
  entries_ok q (set_t_sim (mkSim (S (s_uid (t_sim s))) (<[s_uid (t_sim s) := tv]> (s_pending (t_sim s)))) s).
Proof.
  intros [Hl Hs Hr Hk]. constructor; cbn; [done| | |].
  - intros j e Hj u tv' Hu H. pose proof (Hk j e u Hj Hu). cbn in H. rewrite lookup_insert_ne in H by lia.
    by eapply Hs.
  - intros j e Hj Hq H. apply IsRunning_spec in H as (u & Hu & Hp). pose proof (Hk j e u Hj Hu). cbn in Hp.
    rewrite lookup_insert_ne in Hp by lia. apply (Hr j e Hj Hq). apply IsRunning_spec. by exists u.
  - intros j e u Hj Hu. specialize (Hk j e u Hj Hu). lia.
Qed.

Lemma entries_ok_cancel q id s : entries_ok q s → entries_ok q (Cancel id s).
Proof.
  intros [Hl Hs Hr Hk]. destruct id as [u0|]; [|by constructor]. constructor; cbn; [done| | |done].
  - intros j e Hj u tv Hu H. cbn in H. apply lookup_delete_Some in H as [_ H]. by eapply Hs.
  - intros j e Hj Hq H. apply IsRunning_spec in H as (u & Hu & [tv H]). cbn in H. apply lookup_delete_Some in H as [_ H].
    apply (Hr j e Hj Hq). apply IsRunning_spec. by exists u.
Qed.

(** No entry stops running. *)
Definition keeps_running (q : nat) (s s' : Tas) : Prop :=
  ∀ j e e', j ≠ q → m_gateListConfig s !! j = Some e → m_gateListConfig s' !! j = Some e' →
    IsRunning (reRunEvent e) s = true → IsRunning (reRunEvent e') s' = true.

(** The invariant of the loop of [CancelRun], when the entries below [i] have left the event
    [u0] of [q]. *)
Record cancel_inv (now : Z) (q u0 : nat) (t0 : Z) (i : nat) (rerunby : option nat) (s0 s : Tas) : Prop := {
  ci_only : events_only s0 s;
  ci_sim : sim_ok now s;
  ci_entries : entries_ok q s;
  ci_q : ∃ e, m_gateListConfig s !! q = Some e ∧ m_gateListConfig s0 !! q = Some e ∧ reRunEvent e = Some u0;
  ci_u0 : s_pending (t_sim s) !! u0 = Some (t0, EvRun);
  ci_left : ∀ j e, (j < i)%nat → j ≠ q → m_gateListConfig s !! j = Some e → reRunEvent e ≠ Some u0;
  ci_by : ∀ k, rerunby = Some k → k ≠ q ∧ ∃ e u, m_gateListConfig s !! k = Some e ∧ reRunEvent e = Some u ∧ u ≠ u0 ∧
            s_pending (t_sim s) !! u = Some (t0, EvRun);
  ci_running : keeps_running q s0 s
}.

Lemma core_eq s s' : core s' = core s →
  t_base s' = t_base s ∧ t_classes s' = t_classes s ∧ t_initialized s' = t_initialized s ∧ m_prioMap s' = m_prioMap s ∧
  m_StoppAllQueues s' = m_StoppAllQueues s ∧ t_linkBandwidth s' = t_linkBandwidth s ∧ m_Mtu s' = m_Mtu s ∧
  m_propagetiondelay s' = m_propagetiondelay s ∧ t_keepAliveTime s' = t_keepAliveTime s ∧
  m_pandingConfig s' = m_pandingConfig s ∧ m_currentConfig s' = m_currentConfig s ∧
  m_stopAllQEvent s' = m_stopAllQEvent s ∧ m_updateNDLCEvent s' = m_updateNDLCEvent s ∧ t_getNow s' = t_getNow s ∧
  m_transmitting s' = m_transmitting s ∧ m_channel s' = m_channel s.
Proof. destruct s, s'. unfold core, set_t_sim, set_m_gateListConfig. cbn. intros H. injection H. intros. subst. by conj. Qed.

Lemma dev_off_core s s' : core s' = core s → dev_off s' = dev_off s.
Proof. intros H. apply core_eq in H. unfold dev_off. destruct H as (_&_&_&_&_&_&_&_&_&_&_&_&_&-> & _). done. Qed.

(** Giving the event [u], at the time of the old one, to the entry [i] that shares [u0]. *)
Lemma cancel_inv_put now q u0 t0 i rb rb' s0 s e u :
  cancel_inv now q u0 t0 i rb s0 s → i ≠ q → m_gateListConfig s !! i = Some e → reRunEvent e = Some u0 →
  s_pending (t_sim s) !! u = Some (t0, EvRun) → u ≠ u0 → (rb' = rb ∨ rb' = Some i) →
  cancel_inv now q u0 t0 (S i) rb' s0
    (set_m_gateListConfig (<[i := mkEntry (Some u) (reRunEventTimeStamp e) (e_gateState e)]> (m_gateListConfig s)) s).
Proof.
  intros [(Hc & Hg & Ho) Hsim He (eq & Hq & Hq0 & Hqu) Hu0 Hleft Hby Hrun] Hiq Hi Hei Hu Hne Hrb.
  pose proof (eo_stamp _ _ He i e Hi u0 _ Hei Hu0) as Hst. pose proof (eo_run _ _ He i e Hi Hiq) as Hro.
  pose proof (lookup_lt_Some _ _ _ Hi) as Hlt. constructor.
  - split; [done|]. split; [|by apply (others_ext s0 s)]. cbn. rewrite list_fmap_insert. cbn. rewrite <- Hg. apply list_insert_id.
    by rewrite list_lookup_fmap, Hi.
  - by destruct Hsim.
  - apply entries_ok_put; [done| | |].
    + intros u' tv [= <-] H. cbn. congruence.
    + intros _ _. cbn. apply Hro. apply IsRunning_spec. exists u0. split; [done|]. by rewrite Hu0.
    + intros u' [= <-]. by eapply so_uid.
  - exists eq. cbn. by rewrite list_lookup_insert_ne by done.
  - done.
  - intros j ej Hj Hjq Hl. cbn in Hl. apply list_lookup_insert_Some in Hl as [(<- & <- & _)|[Hne' Hl]]; [cbn; congruence|].
    eapply Hleft; [|done|done]. lia.
  - intros k Hk. destruct Hrb as [->| ->].
    + destruct (Hby k Hk) as (Hkq & ek & uk & Hek & Huk & ? & ?). split; [done|]. cbn. destruct (decide (k = i)) as [->|Hki].
      * eexists _, u. rewrite list_lookup_insert_eq by done. by conj.
      * exists ek, uk. by rewrite list_lookup_insert_ne by done.
    + simplify_eq. split; [done|]. cbn. eexists _, u. rewrite list_lookup_insert_eq by done. by conj.
  - intros j e1 e2 Hjq H1 H2 Hr. cbn in H2. apply list_lookup_insert_Some in H2 as [(<- & <- & _)|[Hne' H2]].
    + cbn. apply IsRunning_spec. exists u. split; [done|]. cbn. by rewrite Hu.
    + cbn. by apply (Hrun j e1 e2).
Qed.

(** All the entries have an event at the time of their change, or none. *)
Abbreviation all_ok := (entries_ok 8).

Lemma entries_ok_all q s :
  entries_ok q s → (∀ e, m_gateListConfig s !! q = Some e → run_ok s e) → all_ok s.
Proof.
  intros [Hl Hs Hr Hk] Hq. constructor; try done. intros i e Hi _. destruct (decide (i = q)) as [->|]; [by apply Hq|].
  by eapply Hr.
Qed.

Lemma entries_ok_any q s : all_ok s → entries_ok q s.
Proof.
  intros [Hl Hs Hr Hk]. constructor; try done. intros i e Hi _. apply (Hr i e Hi). apply lookup_lt_Some in Hi. lia.
Qed.

Lemma keeps_running_refl q s : keeps_running q s s.
Proof. intros j e e' _ H1 H2. by simplify_eq. Qed.

Lemma keeps_running_trans q s1 s2 s3 :
  length (m_gateListConfig s2) = 8%nat → length (m_gateListConfig s1) = 8%nat →
  keeps_running q s1 s2 → keeps_running q s2 s3 → keeps_running q s1 s3.
Proof.
  intros Hl2 Hl1 H1 H2 j e e' Hj He He' Hr. pose proof (lookup_lt_Some _ _ _ He).
  destruct (lookup_lt_is_Some_2 (m_gateListConfig s2) j) as [e2 He2]; [lia|].
  apply (H2 j e2 e' Hj He2 He'). by apply (H1 j e e2).
Qed.

Section clock.
Context (clk : Clock) (Hclk : c_dev clk = c_sim clk + off) (Hnow : 0 ≤ c_sim clk < 2 ^ 61).
Context (Hoff : - 2 ^ 61 ≤ off ≤ 2 ^ 61).

Lemma dev_time s : GetDeviceTime clk s = c_sim clk + dev_off s.
Proof using Hclk. unfold GetDeviceTime, dev_off. destruct (t_getNow s); lia. Qed.

Lemma CancelRun_loop_ok n i q u0 t0 rb s0 s :
  (i + n = 8)%nat → cancel_inv (c_sim clk) q u0 t0 i rb s0 s →
  ∃ rb' s', CancelRun_loop clk n i q rb s = Ok s' ∧ cancel_inv (c_sim clk) q u0 t0 8 rb' s0 s'.
Proof using Hclk Hnow Hoff.
  intros Hn. revert i rb s Hn. induction n as [|n IH]; intros i rb s Hn C.
  { cbn. exists rb, s. replace i with 8%nat in C by lia. done. }
  pose proof C as [Hev Hsim He (eq & Hq & Hq0 & Hqu) Hu0 Hleft Hby Hrun]. cbn [CancelRun_loop].
  destruct (lookup_lt_is_Some_2 (m_gateListConfig s) i) as [ei Hi]; [rewrite (eo_length _ _ He); lia|].
  rewrite (at_ok _ q eq Hq), (at_ok _ i ei Hi). res_simpl. rewrite Hqu.
  case_bool_decide as Hqi; case_bool_decide as Hsh; cbn [andb]; cycle 1.
  1-3: apply IH; [lia|]; destruct C; constructor; try done; intros j e Hj Hjq Hl;
    (destruct (decide (j = i)) as [->|]; [simplify_eq; try done; congruence|eapply ci_left0; [|done|done]; lia]).
  pose proof (eo_stamp _ _ He i ei Hi u0 _ (eq_sym Hsh) Hu0) as Hst. injection Hst as Ht0.
  assert (reRunEventTimeStamp ei = e_GetNextEvent ei) as Hro.
  { apply (eo_run _ _ He i ei Hi); [done|]. apply IsRunning_spec. exists u0. by rewrite Hu0. }
  pose proof (so_time _ _ Hsim _ _ _ Hu0) as Hb. destruct rb as [k|].
  - destruct (Hby k eq_refl) as (Hkq & ek & uk & Hk & Huk & Hne & Hpk). rewrite (at_ok _ k ek Hk). res_simpl.
    rewrite (put_entry_ok i ei) by done. res_simpl. rewrite Huk. apply IH; [lia|].
    eapply cancel_inv_put; try done; [by left].
  - rewrite dev_time. assert (c_sim clk + (e_GetNextEvent ei - (c_sim clk + dev_off s)) = t0) as Hd by lia.
    assert (- 2 ^ 61 ≤ dev_off s ≤ 2 ^ 61) by (unfold dev_off; destruct (t_getNow s); lia).
    rewrite int64_ok by lia. res_simpl.
    destruct (tas_Schedule_ok (c_sim clk) clk (e_GetNextEvent ei - (c_sim clk + dev_off s)) EvRun s) as (E & Hsim' & Hev');
      [done|lia|lia|lia|done|]. specialize (Hev' eq_refl). rewrite E. res_simpl. clear E. rewrite Hd in Hsim', Hev' |- *.
    rewrite (put_entry_ok i ei) by done. res_simpl. apply IH; [lia|].
    assert (u0 < s_uid (t_sim s))%nat as Hlt by (by eapply so_uid).
    eapply (cancel_inv_put _ _ _ _ _ None); try done; cbn.
    + constructor; cbn; try done.
      * etrans; [exact Hev|exact Hev'].
      * exact (entries_ok_schedule q (t0, EvRun) s He).
      * by exists eq.
      * by rewrite lookup_insert_ne by lia.
      * intros j e1 e2 Hj H1 H2 Hr. specialize (Hrun j e1 e2 Hj H1 H2 Hr). apply IsRunning_spec in Hrun as (u & Hu & Hp).
        apply IsRunning_spec. exists u. split; [done|]. cbn. pose proof (eo_known _ _ He j e2 u H2 Hu).
        by rewrite lookup_insert_ne by lia.
    + by rewrite lookup_insert_eq.
    + lia.
    + by right.
Qed.

Lemma CancelRun_ok q e s :
  entries_ok q s → sim_ok (c_sim clk) s → m_gateListConfig s !! q = Some e →
  ∃ s', CancelRun clk q s = Ok s' ∧ events_only s s' ∧ sim_ok (c_sim clk) s' ∧ entries_ok q s' ∧
    keeps_running q s s' ∧ ∃ e', m_gateListConfig s' !! q = Some e' ∧ IsRunning (reRunEvent e') s' = false.
Proof using Hclk Hnow Hoff.
  intros He Hsim Hq. unfold CancelRun. rewrite (at_ok _ q e Hq). res_simpl.
  destruct (IsRunning (reRunEvent e) s) eqn:Hr; cycle 1.
  { exists s. conj; try done; [apply keeps_running_refl|by exists e]. }
  apply IsRunning_spec in Hr as (u0 & Hu & [tv Hp]). pose proof (eo_stamp _ _ He q e Hq u0 tv Hu Hp) as ->.
  set (t0 := reRunEventTimeStamp e - dev_off s) in *.
  destruct (CancelRun_loop_ok 8 0 q u0 t0 None s s) as (rb & s1 & -> & [Hev Hsim1 He1 (eq & Hq1 & _ & Hequ) Hu0 Hleft _ Hrun]);
    [done| |].
  { constructor; try done; [by exists e|lia|apply keeps_running_refl]. }
  res_simpl. rewrite (at_ok _ q eq Hq1). res_simpl. rewrite Hequ. eexists. split; [done|].
  split.
  { etrans; [exact Hev|apply Cancel_events_only]. intros u tv [= <-] H. rewrite Hu0 in H. by simplify_eq. }
  split; [by apply sim_ok_cancel|]. split; [by apply entries_ok_cancel|]. split.
  - intros j e1 e2 Hj H1 H2 Hr. cbn in H2. specialize (Hrun j e1 e2 Hj H1 H2 Hr). apply IsRunning_spec in Hrun as (u & Hu' & Hp').
    apply IsRunning_spec. exists u. split; [done|]. cbn. rewrite lookup_delete_ne; [done|]. intros ->.
    apply (Hleft j e2); try done. apply lookup_lt_Some in H2. rewrite (eo_length _ _ He1) in H2. done.
  - exists eq. split; [done|]. rewrite Hequ. unfold IsRunning, IsExpired. cbn. by rewrite lookup_delete_eq.
Qed.

Lemma find_run_ok n i tp s :
  (i + n = 8)%nat → length (m_gateListConfig s) = 8%nat →
  ∃ o, find_run n i tp s = Ok o ∧
    match o with
    | Some e => (∃ j, m_gateListConfig s !! j = Some e) ∧ IsRunning (reRunEvent e) s = true ∧ reRunEventTimeStamp e = tp
    | None => True
    end.
Proof.
  intros Hn Hl. revert i Hn. induction n as [|n IH]; intros i Hn; cbn [find_run]; [by exists None|].
  destruct (lookup_lt_is_Some_2 (m_gateListConfig s) i) as [e Hi]; [lia|]. rewrite (at_ok _ i e Hi). res_simpl.
  destruct (IsRunning (reRunEvent e) s) eqn:Hr; cbn [andb]; [|apply IH; lia].
  destruct (Z.eqb_spec (reRunEventTimeStamp e) tp); [|apply IH; lia]. exists (Some e). split; [done|]. split; [by exists i|done].
Qed.

(** What scheduling the run of [q] comes to. *)
Definition scheduled (q : nat) (s s' : Tas) : Prop :=
  events_only s s' ∧ sim_ok (c_sim clk) s' ∧ all_ok s' ∧ keeps_running q s s' ∧
  ∃ e', m_gateListConfig s' !! q = Some e' ∧ IsRunning (reRunEvent e') s' = true.

Lemma ScheduleRun_new_ok q e s :
  entries_ok q s → sim_ok (c_sim clk) s → m_gateListConfig s !! q = Some e →
  IsRunning (reRunEvent e) s = false →
  GetDeviceTime clk s ≤ e_GetNextEvent e < 2 ^ 61 →
  ∃ s', ScheduleRun_new clk q (e_GetNextEvent e) s = Ok s' ∧ scheduled q s s'.
Proof using Hclk Hnow Hoff.
  intros He Hsim Hq Hnr Htp. unfold ScheduleRun_new. rewrite dev_time in *. pose proof (lookup_lt_Some _ _ _ Hq) as Hlt.
  destruct (find_run_ok 8 0 (e_GetNextEvent e) s eq_refl (eo_length _ _ He)) as (o & -> & Ho). res_simpl.
  rewrite (at_ok _ q e Hq). res_simpl.
  assert (∀ e', reRunEvent e' ≠ None → e_gateState e' = e_gateState e → events_only s
    (set_m_gateListConfig (<[q := e']> (m_gateListConfig s)) s)) as Hev.
  { intros e' _ Hg. split; [done|]. split; [|by apply (others_ext s s)]. cbn. rewrite list_fmap_insert, Hg. apply list_insert_id.
    by rewrite list_lookup_fmap, Hq. }
  destruct o as [e'|].
  - destruct Ho as ([j Hj] & Hr & Hts). rewrite (put_entry_ok q e) by done. eexists. split; [done|].
    pose proof Hr as Hr'. apply IsRunning_spec in Hr' as (u & Hu & [tv Hp]).
    split; [apply Hev; [by rewrite Hu|done]|]. split; [by destruct Hsim|]. split; [|split].
    + eapply entries_ok_all; [apply entries_ok_put; [exact He|..]|].
      * intros u' tv' [= Hu'] H. exact (eo_stamp _ _ He j e' Hj u' tv' Hu' H).
      * done.
      * intros u' Hu'. exact (eo_known _ _ He j e' u' Hj Hu').
      * intros e2 H2. cbn in H2. rewrite list_lookup_insert_eq in H2 by done. simplify_eq. intros _. done.
    + intros k e1 e2 Hk H1 H2. cbn in H2. rewrite list_lookup_insert_ne in H2 by done. by simplify_eq.
    + eexists. cbn. rewrite list_lookup_insert_eq by done. done.
  - assert (- 2 ^ 61 ≤ dev_off s ≤ 2 ^ 61) by (unfold dev_off; destruct (t_getNow s); lia).
    rewrite int64_ok by lia. res_simpl.
    destruct (tas_Schedule_ok (c_sim clk) clk (e_GetNextEvent e - (c_sim clk + dev_off s)) EvRun s) as (E & Hsim' & Hev');
      [done|lia|lia|lia|done|]. specialize (Hev' eq_refl). rewrite E. res_simpl. clear E.
    rewrite (put_entry_ok q e) by done. eexists. split; [done|].
    replace (c_sim clk + (e_GetNextEvent e - (c_sim clk + dev_off s))) with (e_GetNextEvent e - dev_off s) in * by lia.
    set (s1 := set_t_sim _ s) in *.
    assert (entries_ok q s1) as He1 by (by apply entries_ok_schedule).
    assert (s_pending (t_sim s1) !! s_uid (t_sim s) = Some (e_GetNextEvent e - dev_off s, EvRun)) as Hp
      by (cbn; by rewrite lookup_insert_eq).
    split.
    { split; [done|]. split; [|by apply (others_ext s s1); [|apply Hev']]. cbn. rewrite list_fmap_insert. cbn. apply list_insert_id.
      by rewrite list_lookup_fmap, Hq. }
    split; [by destruct Hsim'|]. split; [|split].
    + eapply entries_ok_all; [apply entries_ok_put; [exact He1|..]|].
      * intros u' tv' [= <-] H0'. cbn [reRunEventTimeStamp]. change (dev_off s1) with (dev_off s). congruence.
      * done.
      * intros u' [= <-]. cbn. lia.
      * intros e2 H2. cbn in H2. rewrite list_lookup_insert_eq in H2 by done. simplify_eq. intros _. done.
    + intros k e1 e2 Hk H1 H2 Hr. cbn in H2. rewrite list_lookup_insert_ne in H2 by done. simplify_eq.
      apply IsRunning_spec in Hr as (u & Hu & Hp'). apply IsRunning_spec. exists u. split; [done|]. cbn.
      pose proof (eo_known _ _ He k _ u H1 Hu). by rewrite lookup_insert_ne by lia.
    + eexists. cbn. rewrite list_lookup_insert_eq by done. split; [done|]. apply IsRunning_spec. eexists. split; [done|].
      cbn. by rewrite lookup_insert_eq.
Qed.

Lemma ScheduleRun_ok q e s :
  entries_ok q s → sim_ok (c_sim clk) s → m_gateListConfig s !! q = Some e →
  GetDeviceTime clk s ≤ e_GetNextEvent e < 2 ^ 61 → 0 < e_GetNextEvent e →
  ∃ s', ScheduleRun clk q s = Ok s' ∧ scheduled q s s'.
Proof using Hclk Hnow Hoff.
  intros He Hsim Hq Htp Hpos. unfold ScheduleRun. rewrite (at_ok _ q e Hq). res_simpl.
  rewrite (proj2 (Z.ltb_ge _ 0)), orb_false_r by lia.
  destruct (IsRunning (reRunEvent e) s) eqn:Hr; cbn [andb]; [|by apply ScheduleRun_new_ok].
  destruct (Z.eqb_spec (reRunEventTimeStamp e) (e_GetNextEvent e)) as [Hts|Hts]; cbn [negb].
  - exists s. split; [done|]. split; [done|]. split; [done|]. split; [|split; [apply keeps_running_refl|by exists e]].
    eapply entries_ok_all; [done|]. intros e' He'. simplify_eq. by intros _.
  - destruct (CancelRun_ok q e s He Hsim Hq) as (s1 & -> & Hev & Hsim1 & He1 & Hrun & e1 & Hq1 & Hnr). res_simpl.
    assert (e_gateState e1 = e_gateState e) as Hg.
    { destruct Hev as (_ & Hg & _). assert ((e_gateState <$> m_gateListConfig s1) !! q = (e_gateState <$> m_gateListConfig s) !! q)
        as Hgq by (by rewrite Hg). rewrite !list_lookup_fmap, Hq1, Hq in Hgq. cbn in Hgq. congruence. }
    assert (e_GetNextEvent e1 = e_GetNextEvent e) as Hnx by (unfold e_GetNextEvent; by rewrite Hg).
    rewrite <- Hnx. destruct (ScheduleRun_new_ok q e1 s1) as (s2 & -> & Hev2 & Hsim2 & He2 & Hrun2 & Hq2); try done.
    { rewrite Hnx. rewrite dev_time in *. by rewrite (dev_off_core _ _ (proj1 Hev)). }
    exists s2. split; [done|]. split; [by etrans|]. split; [done|]. split; [done|]. split; [|done].
    eapply keeps_running_trans; [apply (eo_length _ _ He1)|apply (eo_length _ _ He)|done|done].
Qed.
End clock.
End events.
