(* ===== verification/TasGates.v ===== *)
(** * The time aware shaper: its gates

    [UpdateTransmisionGate], [ListExecute] and [StopAllQueues]: the entries and the gates
    always agree, and their states are those of the schedule. *)

From stdpp Require Import strings.
From S2P Require Import Prelude Int64x64 NsTime QueueDisc GateList TransmissionGate TasQueueDisc TasSchedule TasEvents.
Local Open Scope Z_scope.

(** The states of the gates in the entries, and in the gates. *)
Definition entry_states (s : Tas) : list GateState := e_gateState <$> m_gateListConfig s.
Definition gate_states (s : Tas) : list GateState := m_gateState <$> t_classes s.

(** All but the states of the gates and the events. *)
Definition frame (s : Tas) : Tas :=
  set_t_classes (TransmissionGate.InitializeParams <$> t_classes s) (core s).

Lemma frame_eq s s' : frame s' = frame s →
  t_base s' = t_base s ∧ TransmissionGate.InitializeParams <$> t_classes s' = TransmissionGate.InitializeParams <$> t_classes s ∧
  t_initialized s' = t_initialized s ∧ m_prioMap s' = m_prioMap s ∧
  m_StoppAllQueues s' = m_StoppAllQueues s ∧ t_linkBandwidth s' = t_linkBandwidth s ∧ m_Mtu s' = m_Mtu s ∧
  m_propagetiondelay s' = m_propagetiondelay s ∧ t_keepAliveTime s' = t_keepAliveTime s ∧
  m_pandingConfig s' = m_pandingConfig s ∧ m_currentConfig s' = m_currentConfig s ∧
  m_stopAllQEvent s' = m_stopAllQEvent s ∧ m_updateNDLCEvent s' = m_updateNDLCEvent s ∧ t_getNow s' = t_getNow s ∧
  m_transmitting s' = m_transmitting s ∧ m_channel s' = m_channel s.
Proof.
  destruct s, s'. unfold frame, core, set_t_classes, set_t_sim, set_m_gateListConfig. cbn. intros H. injection H. intros.
  subst. by conj.
Qed.

Lemma frame_core s s' : core s' = core s → frame s' = frame s.
Proof. intros H. unfold frame. rewrite H. by destruct (core_eq _ _ H) as (_ & -> & _). Qed.

(** The states of the gates agree, and there are eight of them. *)
Record synced (s : Tas) : Prop := {
  sy_classes : length (t_classes s) = 8%nat;
  sy_states : gate_states s = entry_states s
}.

Section gates.
Context (off : Z) (clk : Clock) (Hclk : c_dev clk = c_sim clk + off) (Hnow : 0 ≤ c_sim clk < 2 ^ 61).
Context (Hoff : - 2 ^ 61 ≤ off ≤ 2 ^ 61).

(** What holds of the events and the gates between the operations. *)
Record ready (s : Tas) : Prop := {
  re_entries : entries_ok off 8 s;
  re_sim : sim_ok (c_sim clk) s;
  re_synced : synced s
}.

(** The gate [i] has got a new state, and nothing else has changed. *)
Record updated (i : nat) (gs : GateState) (s s' : Tas) : Prop := {
  up_ready : ready s';
  up_frame : frame s' = frame s;
  up_states : entry_states s' = <[i := gs]> (entry_states s);
  up_others : others s s';
  up_running : keeps_running i s s';
  up_run : ∀ e g, m_gateListConfig s' !! i = Some e → t_classes s' !! i = Some g →
    0 < interval gs → 0 < QueueDisc.m_nPackets (g_base g) → IsRunning (reRunEvent e) s' = true
}.

Lemma states_lookup s i e : m_gateListConfig s !! i = Some e → entry_states s !! i = Some (e_gateState e).
Proof. intros H. unfold entry_states. by rewrite list_lookup_fmap, H. Qed.

Lemma UpdateGate_ok i st nx s :
  ready s → (i < 8)%nat →
  ∃ s', UpdateGate i st nx s = Ok s' ∧ t_sim s' = t_sim s ∧ frame s' = frame s ∧ synced s' ∧ t_getNow s' = t_getNow s ∧
    entry_states s' = <[i := mkGateState st nx]> (entry_states s) ∧
    entries_ok off i s' ∧ keeps_running i s s'.
Proof.
  intros [He Hsim [Hc Hsy]] Hi. unfold UpdateGate. pose proof (eo_length _ _ _ He) as Hl.
  destruct (lookup_lt_is_Some_2 (m_gateListConfig s) i) as [e Hei]; [lia|]. rewrite (at_ok _ i e Hei). res_simpl.
  destruct (lookup_lt_is_Some_2 (t_classes s) i) as [g Hgi]; [lia|].
  assert (m_gateState g = e_gateState e) as Hge.
  { assert (gate_states s !! i = entry_states s !! i) as H by (by rewrite Hsy). unfold gate_states, entry_states in H.
    rewrite !list_lookup_fmap, Hgi, Hei in H. cbn in H. congruence. }
  destruct (negb (bool_decide (e_GetGateState e = st)) || negb (e_GetNextEvent e =? nx)) eqn:Echg; cycle 1.
  { apply orb_false_iff in Echg as [E1%negb_false_iff E2%negb_false_iff]. apply bool_decide_eq_true in E1.
    apply Z.eqb_eq in E2. exists s. conj; try done; [|by apply entries_ok_any|apply keeps_running_refl].
    symmetry. apply list_insert_id. rewrite (states_lookup s i e Hei). f_equal. destruct (e_gateState e) eqn:E.
    unfold e_GetGateState, e_GetNextEvent in *. rewrite E in *. cbn in *. congruence. }
  rewrite (put_entry_ok i e) by done. res_simpl. unfold GetQueueDiscClass. cbn [set_m_gateListConfig t_classes]. rewrite Hgi. res_simpl.
  eexists. split; [done|]. set (gs := mkGateState st nx).
  assert (∀ l, entry_states (set_t_classes l (set_m_gateListConfig (<[i:=mkEntry (reRunEvent e) (reRunEventTimeStamp e) gs]>
    (m_gateListConfig s)) s)) = <[i := gs]> (entry_states s)) as Hes.
  { intros l. unfold entry_states. cbn. by rewrite list_fmap_insert. }
  split; [done|]. split; [|split; [|split; [done|split; [by rewrite Hes|split]]]].
  - unfold frame. cbn. unfold core, set_t_sim, set_m_gateListConfig, set_t_classes. cbn. f_equal.
    rewrite list_fmap_insert. apply list_insert_id. by rewrite list_lookup_fmap, Hgi.
  - constructor; [cbn; by rewrite length_insert|]. rewrite Hes. unfold gate_states. cbn. by rewrite list_fmap_insert, <- Hsy.
  - pose proof (entries_ok_put off i i (mkEntry (reRunEvent e) (reRunEventTimeStamp e) gs) s
      (entries_ok_any off i s He)) as H.
    destruct H as [H1 H2 H3 H4]; [|done|intros u Hu; exact (eo_known _ _ _ He i e u Hei Hu)|by constructor].
    intros u tv Hu Hp. exact (eo_stamp _ _ _ He i e Hei u tv Hu Hp).
  - intros j e1 e2 Hj H1 H2. cbn in H2. rewrite list_lookup_insert_ne in H2 by done. by simplify_eq.
Qed.

(** A change of events only keeps what holds of the gates. *)
Lemma events_only_gates s s' :
  events_only s s' → synced s → synced s' ∧ frame s' = frame s ∧ entry_states s' = entry_states s ∧ t_classes s' = t_classes s.
Proof.
  intros (Hc & Hg & _) [Hl Hs]. destruct (core_eq _ _ Hc) as (_ & Hcl & _). split; [|split; [by apply frame_core|done]].
  constructor; [by rewrite Hcl|]. unfold gate_states, entry_states in *. by rewrite Hcl, Hg.
Qed.

Lemma time_eq s s' : t_getNow s' = t_getNow s → GetDeviceTime clk s' = GetDeviceTime clk s.
Proof. unfold GetDeviceTime. by intros ->. Qed.

Lemma UpdateTransmisionGate_ok i st nx s :
  ready s → (i < 8)%nat → (nx ≤ 0 ∨ GetDeviceTime clk s ≤ nx < 2 ^ 61) →
  ∃ s', UpdateTransmisionGate clk i st nx s = Ok s' ∧ updated i (mkGateState st nx) s s'.
Proof using Hclk Hnow Hoff.
  intros R Hi Hnx. pose proof R as [He Hsim Hsy]. unfold UpdateTransmisionGate.
  rewrite (proj2 (Nat.ltb_lt _ _)) by (by rewrite (sy_classes _ Hsy)).
  destruct (UpdateGate_ok i st nx s R Hi) as (s1 & -> & Et & Ef & Hsy1 & Eg & Es & He1 & Hk1). res_simpl.
  destruct (lookup_lt_is_Some_2 (t_classes s1) i) as [g Hg]; [by rewrite (sy_classes _ Hsy1)|].
  unfold GetQueueDiscClass. rewrite Hg. res_simpl. pose proof (eo_length _ _ _ He1) as Hl1.
  assert (sim_ok (c_sim clk) s1) as Hsim1 by (destruct Hsim; constructor; by rewrite Et).
  destruct (lookup_lt_is_Some_2 (m_gateListConfig s1) i) as [e Hei]; [lia|].
  assert (e_gateState e = mkGateState st nx) as Hge.
  { pose proof (states_lookup s1 i e Hei) as H. rewrite Es, list_lookup_insert_eq in H; [congruence|].
    unfold entry_states. rewrite length_fmap, (eo_length _ _ _ He). done. }
  assert (e_GetNextEvent e = nx) as Hnx1 by (unfold e_GetNextEvent; by rewrite Hge).
  assert ((0 < nx → QueueDisc.m_nPackets (g_base g) ≤ 0) →
    ∃ s', (e ← at_ (m_gateListConfig s1) i; if IsRunning (reRunEvent e) s1 then CancelRun clk i s1 else Ok s1) = Ok s' ∧
      updated i (mkGateState st nx) s s') as Hcancel.
  { intros Hno. rewrite (at_ok _ i e Hei). res_simpl.
    assert (∃ s', (if IsRunning (reRunEvent e) s1 then CancelRun clk i s1 else Ok s1) = Ok s' ∧ events_only s1 s' ∧
        sim_ok (c_sim clk) s' ∧ entries_ok off i s' ∧ keeps_running i s1 s' ∧
        ∃ e', m_gateListConfig s' !! i = Some e' ∧ IsRunning (reRunEvent e') s' = false)
        as (s' & -> & Hev & Hsim' & He' & Hk' & e' & Hei' & Hnr).
    { destruct (IsRunning (reRunEvent e) s1) eqn:Er; [by apply (CancelRun_ok off clk Hclk Hnow Hoff i e)|].
      exists s1. conj; try done; [apply keeps_running_refl|by exists e]. }
    destruct (events_only_gates s1 s' Hev Hsy1) as (Hsy' & Ef' & Es' & Ec'). exists s'. split; [done|]. constructor.
    + constructor; [|done|done]. eapply entries_ok_all; [done|]. intros e2 H2. simplify_eq. unfold run_ok. by rewrite Hnr.
    + by rewrite Ef', Ef.
    + by rewrite Es', Es.
    + destruct Hev as (_ & _ & []). rewrite Et in *. by split.
    + eapply keeps_running_trans; [done|apply (eo_length _ _ _ He)|done|done].
    + intros e2 g2 _ H2 Hpos Hp2. rewrite Ec' in H2. simplify_eq. cbn in Hpos. lia. }
  destruct (Z.ltb_spec 0 nx) as [Hpos|Hneg]; cbn [andb]; [|by apply Hcancel; lia].
  destruct (Z.ltb_spec 0 (QueueDisc.m_nPackets (g_base g))) as [Hp|Hp]; [|by apply Hcancel; lia].
  destruct (ScheduleRun_ok off clk Hclk Hnow Hoff i e s1) as (s' & -> & Hev & Hsim' & He' & Hk' & e' & Hei' & Hr); try done.
  { rewrite Hnx1. rewrite (time_eq s s1) by done. lia. }
  { by rewrite Hnx1. }
  destruct (events_only_gates s1 s' Hev Hsy1) as (Hsy' & Ef' & Es' & Ec'). exists s'. split; [done|]. constructor.
  - by constructor.
  - by rewrite Ef', Ef.
  - by rewrite Es', Es.
  - destruct Hev as (_ & _ & []). rewrite Et in *. by split.
  - eapply keeps_running_trans; [done|apply (eo_length _ _ _ He)|done|done].
  - intros e2 g2 H1 _ _ _. by simplify_eq.
Qed.

(** ** The schedule *)

(** Whether the list of the configuration opens the gate [i] at the time [t] of the device. *)
Definition sched_open (c : NetDeviceListConfig) (i : nat) (t : Z) : Prop :=
  let rel := t - m_configChangeTime c - m_epoch c in
  0 ≤ rel ∧ gate_open c i (rel mod m_length c).

(** The state of a gate and the time of its next change, at [now]: a gate without windows is
    closed for good; another one has the state of the schedule until the time of the change,
    and then the other one, unless it is always open. *)
Record state_ok (c : NetDeviceListConfig) (i : nat) (now : Z) (gs : GateState) : Prop := {
  st_next : now < interval gs ≤ now + m_length c;
  st_now : state gs = true ↔ sched_open c i now;
  st_until : ∀ u, now ≤ u < interval gs → (sched_open c i u ↔ state gs = true);
  st_flip : (∀ g, m_netDeviceListConfig c !! i = Some g → windows g ≠ [(0, m_length c)]) →
            (sched_open c i (interval gs) ↔ state gs = false)
}.

Definition next_ok (c : NetDeviceListConfig) (i : nat) (now : Z) (gs : GateState) : Prop :=
  (gs = mkGateState false 0 ∧ ∀ t, ¬ sched_open c i t) ∨ state_ok c i now gs.

(** A configuration whose times do not overflow. *)
Record config_times (c : NetDeviceListConfig) (now : Z) : Prop := {
  ct_ok : config_ok c;
  ct_length : 0 < m_length c;
  ct_max : m_length c * 10 ^ 6 < 2 ^ 61;
  ct_start : 0 ≤ now - m_configChangeTime c - m_epoch c;
  ct_sub : - 2 ^ 62 ≤ now - m_configChangeTime c;
  ct_sub' : now - m_configChangeTime c < 2 ^ 62;
  ct_rel : (now - m_configChangeTime c - m_epoch c) * 10 ^ 6 < 2 ^ 61;
  ct_now : - 2 ^ 60 ≤ now < 2 ^ 60
}.

Lemma femto x : 0 ≤ x → x * 10 ^ 6 < 2 ^ 62 → GetFemtoSeconds NS x = Ok (x * 10 ^ 6) ∧ FemtoSeconds NS (x * 10 ^ 6) = Ok x.
Proof.
  intros H0 H. change (10 ^ 6) with 1000000 in *. unfold GetFemtoSeconds, ToInteger, FemtoSeconds, FromInteger.
  replace (information NS FS) with (Ok (mkInfo true false 1000000 18446744073709551616000000
    340282366920938463463374607431769 true)) by (by vm_compute).
  cbn [mbind res_bind isValid ns_assert toMul fromMul factor]. rewrite int64_ok by lia. split; [done|].
  rewrite Z.div_mul, sint_id by lia. done.
Qed.

(** The time of the cycle. *)
Lemma relative_now rel len :
  0 ≤ rel → 0 < len → len * 10 ^ 6 < 2 ^ 61 → rel * 10 ^ 6 < 2 ^ 61 →
  GetFemtoSeconds NS len = Ok (len * 10 ^ 6) ∧ GetFemtoSeconds NS rel = Ok (rel * 10 ^ 6) ∧
  FemtoSeconds NS (Z.rem (rel * 10 ^ 6) (len * 10 ^ 6)) = Ok (rel mod len).
Proof.
  intros Hr Hl H1 H2. destruct (femto len) as [-> _]; [lia|lia|]. destruct (femto rel) as [-> _]; [lia|lia|].
  split; [done|]. split; [done|]. rewrite Z.rem_mod_nonneg by lia. rewrite Z.mul_mod_distr_r by lia.
  pose proof (Z.mod_pos_bound rel len Hl). destruct (femto (rel mod len)) as [_ ->]; [lia| |done].
  assert (rel mod len ≤ rel) by (apply Z.mod_le; lia). lia.
Qed.

(** The change of a gate, in times of the device. *)
Lemma change_state c i g now st nx :
  config_times c now → m_netDeviceListConfig c !! i = Some g →
  let r := (now - m_configChangeTime c - m_epoch c) mod m_length c in
  change_ok (windows g) (m_length c) r st nx →
  state_ok c i now (mkGateState st (now - r + nx)).
Proof.
  intros [] Hg r [Hlater Hst Huntil Hflip]. set (len := m_length c) in *.
  assert (∀ t, open_in (windows g) t ↔ gate_open c i t) as Hopen.
  { intros t. unfold gate_open. split; [by exists g|]. intros (g' & Hg' & Ho). by simplify_eq. }
  assert (∀ u, now ≤ u → sched_open c i u ↔ open_in (windows g) ((r + (u - now)) mod len)) as Hs.
  { intros u Hu. unfold sched_open. rewrite Hopen. fold len. subst r. rewrite Z.add_mod_idemp_l by lia.
    replace (now - m_configChangeTime c - m_epoch c + (u - now)) with (u - m_configChangeTime c - m_epoch c) by lia.
    split; [by intros [_ ?]|]. intros ?. split; [lia|done]. }
  assert (0 ≤ r < len) as Hr by (apply Z.mod_pos_bound; lia).
  constructor; cbn [state interval].
  - fold len. lia.
  - rewrite Hs by lia. rewrite Z.sub_diag, Z.add_0_r, Z.mod_small by done. done.
  - intros u Hu. rewrite Hs by lia. apply Huntil. lia.
  - intros Hne. rewrite Hs by lia. replace (r + (now - r + nx - now)) with nx by lia. apply Hflip. by apply Hne.
Qed.

(** The runs that are needed: a gate with packets whose state will change has an event. *)
Definition runs (i : nat) (s : Tas) : Prop :=
  ∀ e g, m_gateListConfig s !! i = Some e → t_classes s !! i = Some g →
    0 < e_GetNextEvent e → 0 < QueueDisc.m_nPackets (g_base g) → IsRunning (reRunEvent e) s = true.

(** The gates from [i] on have got the states of the schedule. *)
Record executed (c : NetDeviceListConfig) (now : Z) (i : nat) (s s' : Tas) : Prop := {
  ex_ready : ready s';
  ex_frame : frame s' = frame s;
  ex_others : others s s';
  ex_states : ∀ j gs, (j < 8)%nat → entry_states s' !! j = Some gs →
                if decide (j < i)%nat then entry_states s !! j = Some gs else next_ok c j now gs;
  ex_runs : ∀ j, (i ≤ j < 8)%nat → runs j s';
  ex_kept : ∀ j, (j < i)%nat → runs j s → runs j s'
}.

Lemma frame_packets s s' j g g' :
  frame s' = frame s → t_classes s !! j = Some g → t_classes s' !! j = Some g' →
  m_nPackets (g_base g') = m_nPackets (g_base g).
Proof.
  intros Hf Hg Hg'. destruct (frame_eq _ _ Hf) as (_ & Hc & _).
  assert ((TransmissionGate.InitializeParams <$> t_classes s') !! j = (TransmissionGate.InitializeParams <$> t_classes s) !! j) as H
    by (by rewrite Hc).
  rewrite !list_lookup_fmap, Hg, Hg' in H. cbn in H. unfold TransmissionGate.InitializeParams, SetGateState in H.
  injection H. intros. by f_equal.
Qed.

(** An update of another gate keeps the runs. *)
Lemma runs_updated i j gs s s' :
  updated i gs s s' → synced s → length (m_gateListConfig s) = 8%nat → i ≠ j → runs j s → runs j s'.
Proof.
  intros [[He _ Hsy'] Hf Hst _ Hk _] Hsy Hl Hij Hr e' g' He' Hg' Hpos Hp.
  pose proof (lookup_lt_Some _ _ _ He') as Hj. rewrite (eo_length _ _ _ He) in Hj.
  destruct (lookup_lt_is_Some_2 (m_gateListConfig s) j) as [e Hej]; [lia|].
  destruct (lookup_lt_is_Some_2 (t_classes s) j) as [g Hgj]; [by rewrite (sy_classes _ Hsy)|].
  assert (e_gateState e' = e_gateState e) as Heq.
  { pose proof (states_lookup s' j e' He') as H. rewrite Hst, list_lookup_insert_ne, (states_lookup s j e Hej) in H by done.
    congruence. }
  apply (Hk j e e'); try done. apply (Hr e g); try done.
  - unfold e_GetNextEvent in *. by rewrite <- Heq.
  - by rewrite <- (frame_packets s s' j g g').
Qed.

Lemma runs_updated_self i gs s s' :
  updated i gs s s' → (i < 8)%nat → length (m_gateListConfig s) = 8%nat → runs i s'.
Proof.
  intros [[He _ _] _ Hst _ _ Hr] Hi Hl e g Hei Hg Hpos Hp. apply (Hr e g); try done.
  pose proof (states_lookup s' i e Hei) as H. rewrite Hst, list_lookup_insert_eq in H;
    [|unfold entry_states; rewrite length_fmap; lia]. unfold e_GetNextEvent in Hpos. by simplify_eq.
Qed.

(** The rest of the loop after an update. *)
Lemma executed_step c now i gs s s1 s' :
  (i < 8)%nat → ready s → updated i gs s s1 → next_ok c i now gs → executed c now (S i) s1 s' → executed c now i s s'.
Proof.
  intros Hi R U Hn [Hr Hf Ho Hst Hru Hk]. pose proof R as [He _ Hsy]. pose proof (eo_length _ _ _ He) as Hl. constructor; [done| | | | |].
  - rewrite Hf. apply (up_frame _ _ _ _ U).
  - etrans; [apply (up_others _ _ _ _ U)|exact Ho].
  - intros j gs' Hj Hl'. specialize (Hst j gs' Hj Hl'). rewrite (up_states _ _ _ _ U) in Hst.
    assert (i < length (entry_states s))%nat by (unfold entry_states; rewrite length_fmap; lia).
    destruct (decide (j < i)%nat), (decide (j < S i)%nat); try lia; try done.
    + by rewrite list_lookup_insert_ne in Hst by lia.
    + assert (j = i) as -> by lia. rewrite list_lookup_insert_eq in Hst by done. by simplify_eq.
  - intros j Hj. destruct (decide (j = i)) as [->|]; [|apply Hru; lia]. apply Hk; [lia|].
    by apply (runs_updated_self i gs s).
  - intros j Hj Hrj. apply Hk; [lia|]. eapply runs_updated; [done|done|done|lia|done].
Qed.

Lemma ListExecute_loop_ok n i now s :
  (i + n = 8)%nat → ready s → config_times (m_currentConfig s) now → GetDeviceTime clk s = now →
  ∃ s', ListExecute_loop clk n i now
          ((now - m_configChangeTime (m_currentConfig s) - m_epoch (m_currentConfig s)) mod m_length (m_currentConfig s)) s = Ok s' ∧
    executed (m_currentConfig s) now i s s'.
Proof using Hclk Hnow Hoff.
  revert i s. induction n as [|n IH]; intros i s Hi R T Htime; cbn [ListExecute_loop].
  { exists s. split; [done|]. constructor; try done; [intros j gs Hj Hl; by rewrite decide_True by lia|intros j Hj; lia]. }
  pose proof T as [[Hlen Hq Hg] Hl1 Hl2 Hs1 Hs2 Hs2' Hs3 Hnow'].
  set (c := m_currentConfig s) in *. set (r := (now - m_configChangeTime c - m_epoch c) mod m_length c) in *.
  assert (0 ≤ r < m_length c) as Hr by (apply Z.mod_pos_bound; lia).
  assert (r ≤ now - m_configChangeTime c - m_epoch c) by (apply Z.mod_le; lia).
  destruct (lookup_lt_is_Some_2 (m_netDeviceListConfig c) i) as [g Hgi]; [lia|].
  unfold GetGateListConfig. rewrite (at_ok _ i g Hgi). res_simpl.
  assert (gates_ok (m_length c) g) as Wg by (rewrite Forall_lookup in Hg; by eapply Hg).
  assert (∃ gs s1, (r0 ← gate_at g (m_length c) r;
      match r0 with
      | None => UpdateTransmisionGate clk i false 0 s
      | Some (newgateState, nextEvent) =>
          t ← int64 (now - r); t ← int64 (t + nextEvent); UpdateTransmisionGate clk i newgateState t s
      end) = Ok s1 ∧ updated i gs s s1 ∧ next_ok c i now gs) as (gs & s1 & E & U & Hn).
  { destruct (gate_at_ok (m_length c) g r Wg Hr ltac:(lia)) as [[Hw ->]|(st & nx & -> & Hch)]; res_simpl.
    - destruct (UpdateTransmisionGate_ok i false 0 s R) as (s1 & E & U); [lia|by left|].
      exists (mkGateState false 0), s1. split; [done|]. split; [done|]. left. split; [done|]. intros t (_ & g' & Hg' & Ho).
      simplify_eq. rewrite Hw in Ho. destruct Ho as (? & ? & Hin & _). by apply not_elem_of_nil in Hin.
    - pose proof (ch_later _ _ _ _ _ Hch). rewrite int64_ok by lia. res_simpl. rewrite int64_ok by lia. res_simpl.
      destruct (UpdateTransmisionGate_ok i st (now - r + nx) s R) as (s1 & E & U); [lia|right; lia|].
      exists (mkGateState st (now - r + nx)), s1. split; [done|]. split; [done|]. right. by eapply change_state. }
  destruct (gate_at g (m_length c) r) as [o|]; [|done]. cbn [mbind res_bind] in E |- *. rewrite E. res_simpl.
  pose proof (up_frame _ _ _ _ U) as Hf. destruct (frame_eq _ _ Hf) as (_&_&_&_&_&_&_&_&_&_&Hc&_&_&Hgn&_).
  destruct (IH (S i) s1) as (s' & E' & X); [lia|apply U|by rewrite Hc|by rewrite (time_eq s s1)|].
  rewrite Hc in E', X. fold c in E', X. fold r in E'. exists s'. split; [exact E'|]. eapply executed_step; try done; lia.
Qed.

(** [ListExecute] gives every gate the state of the schedule. *)
Lemma ListExecute_ok now s :
  ready s → config_times (m_currentConfig s) now → GetDeviceTime clk s = now → m_StoppAllQueues s = false →
  ∃ s', ListExecute NS clk s = Ok s' ∧ executed (m_currentConfig s) now 0 s s'.
Proof using Hclk Hnow Hoff.
  intros R T Htime Hstop. unfold ListExecute. rewrite Hstop, Htime. pose proof T as [[Hlen Hq Hg] Hl1 Hl2 Hs1 Hs2 Hs2' Hs3 Hnow'].
  rewrite int64_ok by lia. res_simpl. rewrite int64_ok by lia. res_simpl. rewrite (proj2 (Z.ltb_ge _ 0)) by lia.
  destruct (relative_now (now - m_configChangeTime (m_currentConfig s) - m_epoch (m_currentConfig s)) (m_length (m_currentConfig s)))
    as (E1 & E2 & E3); [lia|lia|lia|lia|].
  rewrite E1. res_simpl. rewrite (proj2 (Z.eqb_neq _ 0)) by lia. rewrite E2. res_simpl. rewrite E3. res_simpl.
  by apply ListExecute_loop_ok.
Qed.

(** ** Closing all gates *)

Lemma stop_entry i e s :
  ready s → m_gateListConfig s !! i = Some e →
  let s1 := Cancel (reRunEvent e) s in
  ∃ s', put_entry i (mkEntry (reRunEvent e) (-1) (e_gateState e)) s1 = Ok s' ∧
    ready s' ∧ frame s' = frame s ∧ entry_states s' = entry_states s ∧ others s s'.
Proof.
  intros [He Hsim Hsy] Hi s1. pose proof (Cancel_events_only (reRunEvent e) s) as Hev. fold s1 in Hev.
  specialize (Hev ltac:(intros u tv Hu Hp; by rewrite (eo_stamp _ _ _ He i e Hi u tv Hu Hp))).
  assert (m_gateListConfig s1 = m_gateListConfig s) as Hl by (subst s1; by destruct (reRunEvent e)).
  rewrite (put_entry_ok i e) by (by rewrite Hl). eexists. split; [done|].
  destruct (events_only_gates s s1 Hev Hsy) as (Hsy1 & Hf1 & Hs1 & _).
  assert (entry_states (set_m_gateListConfig (<[i:=mkEntry (reRunEvent e) (-1) (e_gateState e)]> (m_gateListConfig s1)) s1) =
    entry_states s) as Hes.
  { unfold entry_states. cbn. rewrite list_fmap_insert, Hl. cbn. apply list_insert_id. by rewrite list_lookup_fmap, Hi. }
  split; [|split; [exact Hf1|split; [exact Hes|by apply (others_ext s s1); [|apply Hev]]]].
  assert (∀ u, reRunEvent e = Some u → s_pending (t_sim s1) !! u = None) as Hgone.
  { intros u Hu. subst s1. rewrite Hu. cbn. apply lookup_delete_eq. }
  constructor.
  - apply entries_ok_put; [by apply entries_ok_cancel| | |].
    + intros u tv Hu Hp. cbn in Hu. rewrite (Hgone u Hu) in Hp. done.
    + intros _ Hr. apply IsRunning_spec in Hr as (u & Hu & [tv Hp]). cbn in Hu. rewrite (Hgone u Hu) in Hp. done.
    + intros u Hu. cbn in Hu. subst s1. rewrite Hu. cbn. exact (eo_known _ _ _ He i e u Hi Hu).
  - pose proof (sim_ok_cancel (c_sim clk) (reRunEvent e) s Hsim) as []. by constructor.
  - constructor; [apply (sy_classes _ Hsy1)|]. etrans; [|symmetry; exact Hes]. rewrite <- Hs1. apply (sy_states _ Hsy1).
Qed.

Lemma StopAllQueues_loop_ok n i s :
  (i + n = 8)%nat → ready s →
  ∃ s', StopAllQueues_loop clk n i s = Ok s' ∧ ready s' ∧ frame s' = frame s ∧ others s s' ∧
    ∀ j gs, entry_states s' !! j = Some gs →
      if decide (j < i)%nat then entry_states s !! j = Some gs else gs = mkGateState false 0.
Proof using Hclk Hnow Hoff.
  revert i s. induction n as [|n IH]; intros i s Hi R; cbn [StopAllQueues_loop].
  { exists s. conj; try done. intros j gs Hj. destruct (decide (j < i)%nat); [done|]. apply lookup_lt_Some in Hj.
    unfold entry_states in Hj. rewrite length_fmap, (eo_length _ _ _ (re_entries _ R)) in Hj. lia. }
  destruct (UpdateTransmisionGate_ok i false 0 s R) as (s1 & -> & U); [lia|by left|]. res_simpl.
  pose proof (up_ready _ _ _ _ U) as R1. pose proof (eo_length _ _ _ (re_entries _ R1)) as Hl1.
  destruct (lookup_lt_is_Some_2 (m_gateListConfig s1) i) as [e Hei]; [lia|]. rewrite (at_ok _ i e Hei). res_simpl.
  destruct (stop_entry i e s1 R1 Hei) as (s2 & -> & R2 & Hf2 & Hs2 & Ho2). res_simpl.
  destruct (IH (S i) s2) as (s' & -> & R' & Hf' & Ho' & Hs'); [lia|done|]. exists s'. conj; try done.
  { by rewrite Hf', Hf2, (up_frame _ _ _ _ U). }
  { etrans; [apply (up_others _ _ _ _ U)|]. by etrans. }
  intros j gs Hj. specialize (Hs' j gs Hj). rewrite Hs2, (up_states _ _ _ _ U) in Hs'.
  assert (i < length (entry_states s))%nat.
  { unfold entry_states. rewrite length_fmap, (eo_length _ _ _ (re_entries _ R)). lia. }
  destruct (decide (j < i)%nat), (decide (j < S i)%nat); try lia; try done.
  - by rewrite list_lookup_insert_ne in Hs' by lia.
  - assert (j = i) as -> by lia. rewrite list_lookup_insert_eq in Hs' by done. by simplify_eq.
Qed.
End gates.
