(* ===== verification/TasCorrect.v ===== *)
(** * The time aware shaper: its operations

    The invariant of the queue disc and that every operation keeps it: no assertion fails and
    no computation overflows, and what is handed out is sent within a window. *)

From stdpp Require Import strings.
From S2P Require Import Prelude NsTime QueueDisc GateList TransmissionGate QueueDiscCorrect GateCorrect.
From S2P Require Import TasQueueDisc TasSchedule TasEvents TasGates.
From S2P Require PacketQueue.
Local Open Scope Z_scope.

Definition sum_over {A} (f : A → Z) (l : list A) : Z := foldr (λ x n, f x + n) 0 l.

Lemma sum_over_insert {A} (f : A → Z) l i x y :
  l !! i = Some x → sum_over f (<[i := y]> l) = sum_over f l - f x + f y.
Proof.
  revert i. induction l as [|z l IH]; intros [|i] H; [done|done|cbn in *; simplify_eq; lia|].
  change (f z + sum_over f (<[i := y]> l) = f z + sum_over f l - f x + f y). rewrite (IH i) by done. lia.
Qed.

Lemma sum_over_bound {A} (f : A → Z) B l : Forall (λ x, 0 ≤ f x ≤ B) l → 0 ≤ sum_over f l ≤ Z.of_nat (length l) * B.
Proof. induction 1 as [|x l Hx _ IH]; cbn [sum_over foldr length]; [lia|]. fold (sum_over f l). lia. Qed.

Lemma sum_over_ext {A} (f : A → Z) l l' : f <$> l = f <$> l' → sum_over f l = sum_over f l'.
Proof.
  revert l'. induction l as [|x l IH]; intros [|y l'] H; try done. cbn in H. injection H as H1 H2. cbn.
  fold (sum_over f l) (sum_over f l'). by rewrite H1, (IH l' H2).
Qed.

Definition n_held (g : Gate) : Z := Z.of_nat (length (held g)).
Definition b_held (g : Gate) : Z := bytes_of (held g).

(** What no operation on packets changes. *)
Definition rest (s : Tas) : Tas :=
  set_m_transmitting None (set_t_base (base_new (PacketQueue.mkQueueSize PacketQueue.PACKETS 0) 0) (set_t_classes [] (core s))).

Definition kept (s s' : Tas) : Prop :=
  rest s' = rest s ∧ others s s' ∧ (m_requeued (t_base s') = None ↔ m_requeued (t_base s) = None) ∧
  m_running (t_base s') = m_running (t_base s) ∧ m_quota (t_base s') = m_quota (t_base s).

#[export] Instance kept_preorder : PreOrder kept.
Proof.
  split; [intros s; unfold kept; by conj|]. intros s1 s2 s3 (?&?&?&?&?) (?&?&?&?&?). unfold kept.
  split; [congruence|]. split; [by etrans|]. split; [tauto|]. split; congruence.
Qed.

Lemma kept_set s s' :
  rest s' = rest s → t_sim s' = t_sim s → (m_requeued (t_base s') = None ↔ m_requeued (t_base s) = None) →
  m_running (t_base s') = m_running (t_base s) → m_quota (t_base s') = m_quota (t_base s) → kept s s'.
Proof. intros ? ? ? ? ?. unfold kept. conj; try done. by apply (others_ext s s). Qed.

Lemma rest_eq s s' : rest s' = rest s →
  t_initialized s' = t_initialized s ∧ m_prioMap s' = m_prioMap s ∧
  m_StoppAllQueues s' = m_StoppAllQueues s ∧ t_linkBandwidth s' = t_linkBandwidth s ∧ m_Mtu s' = m_Mtu s ∧
  m_propagetiondelay s' = m_propagetiondelay s ∧ t_keepAliveTime s' = t_keepAliveTime s ∧
  m_pandingConfig s' = m_pandingConfig s ∧ m_currentConfig s' = m_currentConfig s ∧
  m_stopAllQEvent s' = m_stopAllQEvent s ∧ m_updateNDLCEvent s' = m_updateNDLCEvent s ∧ t_getNow s' = t_getNow s ∧
  m_channel s' = m_channel s.
Proof.
  destruct s, s'. unfold rest, core, set_t_classes, set_t_base, set_m_transmitting, set_t_sim, set_m_gateListConfig. cbn.
  intros H. injection H. intros. subst. by conj.
Qed.

Lemma kept_frame s s' : frame s' = frame s → others s s' → kept s s'.
Proof.
  intros Hf Ho. destruct (frame_eq _ _ Hf) as (Eb & _ & ? & ? & ? & ? & ? & ? & ? & ? & ? & ? & ? & ? & _ & ?).
  unfold kept. rewrite Eb. conj; try done.
  unfold rest, core, set_t_classes, set_t_base, set_m_transmitting, set_t_sim, set_m_gateListConfig. cbn. by f_equal.
Qed.

Section tas.
Context (off M : Z).

(** The clock of the device is that of the simulator and a constant, and it is early enough
    for the computations in femtoseconds. *)
Record clk_ok (clk : Clock) : Prop := {
  ck_dev : c_dev clk = c_sim clk + off;
  ck_sim : 0 ≤ c_sim clk;
  ck_off : 0 ≤ off;
  ck_max : (c_sim clk + off) * 10 ^ 6 < 2 ^ 60
}.

(** A configuration for the device: its windows, and times that do not overflow. *)
Record conf_ok (c : NetDeviceListConfig) : Prop := {
  cf_ok : config_ok c;
  cf_epoch : m_epoch c = 0;
  cf_length : m_length c * 10 ^ 6 < 2 ^ 61;
  cf_start : 0 ≤ m_configChangeTime c < 2 ^ 59
}.

(** What the state of a gate says of the schedule from [now] on: nothing before the first
    schedule has taken effect; that the gate is closed; or its state until the next change. *)
Inductive status (c : NetDeviceListConfig) (i : nat) (now : Z) (gs : GateState) : Prop :=
  | status_unscheduled : gs = mkGateState true (-1) → status c i now gs
  | status_closed : gs = mkGateState false 0 → status c i now gs
  | status_until :
      0 < m_length c → m_configChangeTime c ≤ now → 0 < interval gs < 2 ^ 60 →
      (∀ u, now ≤ u < interval gs → (sched_open c i u ↔ state gs = true)) →
      (state gs = false → sched_open c i (interval gs)) →
      status c i now gs.

Lemma status_later c i now now' gs : status c i now gs → now ≤ now' → status c i now' gs.
Proof. intros [| |? ? ? H ?] ?; [by apply status_unscheduled|by apply status_closed|apply status_until; try done; [lia|]]. intros u Hu. apply H. lia. Qed.

(** A gate of the queue disc. *)
Record gate_of (s : Tas) (g : Gate) : Prop := {
  go_inv : gate_inv M g;
  go_now : g_getNow g = t_getNow s;
  go_rate : m_linkBandwidth g = t_linkBandwidth s;
  go_keep : m_keepAliveTime g = t_keepAliveTime s;
  go_max : PacketQueue.m_maxSize (g_queue g) = PacketQueue.mkQueueSize PacketQueue.PACKETS 800
}.

(** The invariant: the queue disc has yet to account for [dn] packets, [dm] bytes. *)
Record tas_st (clk : Clock) (dn dm : Z) (s : Tas) : Prop := {
  ts_ready : ready off clk s;
  ts_mtu : 0 ≤ m_Mtu s ≤ M;
  ts_M : 1 ≤ M < 2 ^ 16;
  ts_rate : 0 < t_linkBandwidth s < 2 ^ 63;
  ts_keep : time_ok (t_keepAliveTime s);
  ts_delay : m_propagetiondelay s < 2 ^ 60;
  ts_gates : Forall (gate_of s) (t_classes s);
  ts_acct : acct (t_base s) (sum_over n_held (t_classes s)) (sum_over b_held (t_classes s)) dn dm;
  ts_peeked : m_peeked (t_base s) = false;
  ts_status : ∀ i gs, entry_states s !! i = Some gs → status (m_currentConfig s) i (GetDeviceTime clk s) gs;
  ts_current : conf_ok (m_currentConfig s);
  ts_panding : conf_ok (m_pandingConfig s)
}.

Abbreviation tas_inv clk := (tas_st clk 0 0).

Section now.
Context (clk : Clock) (Hclk : clk_ok clk).

Lemma clk_time s : GetDeviceTime clk s = c_sim clk ∨ GetDeviceTime clk s = c_sim clk + off.
Proof using Hclk. destruct Hclk. unfold GetDeviceTime. destruct (t_getNow s); lia. Qed.

Lemma clk_bounds s : 0 ≤ GetDeviceTime clk s ∧ GetDeviceTime clk s * 10 ^ 6 < 2 ^ 60.
Proof using Hclk. destruct (clk_time s) as [-> | ->]; destruct Hclk; lia. Qed.

Lemma gate_of_times dn dm s i g :
  tas_st clk dn dm s → t_classes s !! i = Some g → gate_of s g ∧ gate_times M clk g ∧
  status (m_currentConfig s) i (GetDeviceTime clk s) (m_gateState g) ∧ TransmissionGate.GetDeviceTime clk g = GetDeviceTime clk s.
Proof using Hclk.
  intros W Hi. assert (gate_of s g) as G by (pose proof (ts_gates _ _ _ _ W) as HF; rewrite Forall_lookup in HF; by eapply HF).
  assert (status (m_currentConfig s) i (GetDeviceTime clk s) (m_gateState g)) as Hst.
  { apply (ts_status _ _ _ _ W). rewrite <- (sy_states _ (re_synced _ _ _ (ts_ready _ _ _ _ W))).
    unfold gate_states. by rewrite list_lookup_fmap, Hi. }
  assert (TransmissionGate.GetDeviceTime clk g = GetDeviceTime clk s) as Ht.
  { unfold TransmissionGate.GetDeviceTime, GetDeviceTime. by rewrite (go_now _ _ G). }
  conj; try done. pose proof (clk_bounds s). constructor.
  - rewrite Ht. unfold time_ok. lia.
  - rewrite (go_keep _ _ G). apply W.
  - destruct Hst as [-> | -> |_ _ ? _ _]; unfold time_ok; cbn; lia.
  - rewrite (go_rate _ _ G). apply W.
  - pose proof (ts_M _ _ _ _ W). lia.
Qed.

(** The counts do not exceed what a counter holds. *)
Lemma totals dn dm s : tas_st clk dn dm s → 0 ≤ sum_over b_held (t_classes s) < 2 ^ 32.
Proof.
  intros W. pose proof (ts_M _ _ _ _ W) as HM.
  pose proof (sum_over_bound b_held (800 * 2 ^ 16) (t_classes s)) as H. rewrite (sy_classes _ (re_synced _ _ _ (ts_ready _ _ _ _ W))) in H.
  assert (0 ≤ sum_over b_held (t_classes s) ≤ Z.of_nat 8 * (800 * 2 ^ 16)); [|lia]. apply H.
  eapply Forall_impl; [apply (ts_gates _ _ _ _ W)|]. intros g G. unfold b_held. pose proof (go_inv _ _ G) as [[_ _ Hm Hs _] _ _ _ _].
  pose proof (PacketQueue.bytes_bounds it_size M _ Hs). unfold PacketQueue.fits_queue in Hm. rewrite (go_max _ _ G) in Hm. cbn in Hm. nia.
Qed.

(** ** Updating the gates *)

(** A change of the states of the gates and of events. *)
Lemma tas_gates dn dm s s' :
  tas_st clk dn dm s → ready off clk s' → frame s' = frame s →
  (∀ i gs, entry_states s' !! i = Some gs → status (m_currentConfig s) i (GetDeviceTime clk s) gs) →
  tas_st clk dn dm s'.
Proof.
  intros W R Hf Hst.
  destruct (frame_eq _ _ Hf) as (Eb & Ec & Ei & Em & Ess & Er & Emt & Ep & Ek & Epa & Ecu & _ & _ & Eg & _ & _).
  assert (∀ {A} (f : Gate → A), (∀ g, f (TransmissionGate.InitializeParams g) = f g) → f <$> t_classes s' = f <$> t_classes s) as Hmap.
  { intros A f Hfi. transitivity (f <$> (TransmissionGate.InitializeParams <$> t_classes s')).
    - rewrite <- list_fmap_compose. apply list_fmap_ext. intros ? g _. cbn. by rewrite Hfi.
    - rewrite Ec, <- list_fmap_compose. apply list_fmap_ext. intros ? g _. cbn. by rewrite Hfi. }
  destruct W. constructor; rewrite ?Eb, ?Em, ?Emt, ?Er, ?Ep, ?Ek, ?Epa, ?Ecu; try done.
  - apply Forall_lookup. intros i g' Hi. rewrite Forall_lookup in ts_gates0.
    pose proof (lookup_lt_Some _ _ _ Hi) as Hlt. assert (length (t_classes s') = length (t_classes s)) as Hl.
    { pose proof (Hmap _ (λ _, ()) ltac:(done)) as H. apply (f_equal length) in H. by rewrite !length_fmap in H. }
    destruct (lookup_lt_is_Some_2 (t_classes s) i) as [g Hg]; [lia|]. specialize (ts_gates0 i g Hg).
    assert (TransmissionGate.InitializeParams g' = TransmissionGate.InitializeParams g) as E.
    { assert ((TransmissionGate.InitializeParams <$> t_classes s') !! i = (TransmissionGate.InitializeParams <$> t_classes s) !! i) as H
        by (by rewrite Ec). rewrite !list_lookup_fmap, Hi, Hg in H. cbn in H. congruence. }
    unfold TransmissionGate.InitializeParams, SetGateState in E. destruct g, g'. cbn in E. simplify_eq.
    destruct ts_gates0 as [[] ? ? ? ?]. constructor; [constructor; try done| | | |]; cbn in *; congruence.
  - rewrite (sum_over_ext n_held _ _ (Hmap _ n_held (λ _, eq_refl))).
    rewrite (sum_over_ext b_held _ _ (Hmap _ b_held (λ _, eq_refl))). done.
  - intros i gs Hi. specialize (Hst i gs Hi). by rewrite (time_eq clk s s').
Qed.

(** Whether the state of a gate needs no update at [now]. *)
Definition fresh (now : Z) (gs : GateState) : Prop :=
  gs = mkGateState true (-1) ∨ gs = mkGateState false 0 ∨ now < interval gs.

Lemma conf_times c now :
  conf_ok c → 0 < m_length c → m_configChangeTime c ≤ now → 0 ≤ now → now * 10 ^ 6 < 2 ^ 60 → config_times c now.
Proof.
  intros [Hc He Hl Hs] Hl0 Hst Hn Hn2. constructor; rewrite ?He; try done; try lia.
Qed.

Lemma ListExecute_inv dn dm s :
  tas_st clk dn dm s →
  ∃ s', ListExecute NS clk s = Ok s' ∧ tas_st clk dn dm s' ∧ frame s' = frame s ∧ others s s' ∧
    (m_StoppAllQueues s = false → 0 < m_length (m_currentConfig s) →
     m_configChangeTime (m_currentConfig s) ≤ GetDeviceTime clk s →
     executed off clk (m_currentConfig s) (GetDeviceTime clk s) 0 s s') ∧
    (m_StoppAllQueues s = true ∨ m_length (m_currentConfig s) = 0 ∨
     GetDeviceTime clk s < m_configChangeTime (m_currentConfig s) → s' = s).
Proof using Hclk.
  intros W. pose proof (clk_bounds s) as [Hn0 Hn1]. pose proof (ts_current _ _ _ _ W) as C. pose proof C as [[Hl _ _] He Hlm Hst].
  destruct (m_StoppAllQueues s) eqn:Es.
  { exists s. unfold ListExecute. rewrite Es. conj; try done. }
  set (now := GetDeviceTime clk s) in *. set (c := m_currentConfig s) in *.
  destruct (Z.lt_ge_cases now (m_configChangeTime c)).
  { exists s. unfold ListExecute. rewrite Es. fold now c. rewrite He. rewrite int64_ok by lia. res_simpl.
    rewrite int64_ok by lia. res_simpl. rewrite (proj2 (Z.ltb_lt _ 0)) by lia. conj; try done; lia. }
  destruct (Z.eq_dec (m_length c) 0) as [Hz|Hz].
  { exists s. unfold ListExecute. rewrite Es. fold now c. rewrite He. rewrite int64_ok by lia. res_simpl.
    rewrite int64_ok by lia. res_simpl. rewrite (proj2 (Z.ltb_ge _ 0)) by lia. rewrite Hz.
    destruct (femto 0) as [-> _]; [lia|lia|]. res_simpl. conj; try done; lia. }
  assert (0 ≤ c_sim clk < 2 ^ 61) by (destruct Hclk; lia). assert (- 2 ^ 61 ≤ off ≤ 2 ^ 61) by (destruct Hclk; lia).
  assert (config_times c now) as T by (apply conf_times; done || lia).
  destruct (ListExecute_ok off clk ltac:(apply Hclk) ltac:(done) ltac:(done) now s) as (s' & E & X); [apply W|done|done|done|].
  exists s'. fold c in X. split; [done|]. pose proof X as [R Hf Ho Hs' _ _]. split; [|split; [done|split; [done|split; [done|]]]]; cycle 1.
  { intros [?|[?|?]]; [done|lia|lia]. }
  apply (tas_gates dn dm s); try done. intros i gs Hi. fold now c.
  assert (i < 8)%nat as Hi8.
  { apply lookup_lt_Some in Hi. unfold entry_states in Hi. rewrite length_fmap, (eo_length _ _ _ (re_entries _ _ _ R)) in Hi. done. }
  specialize (Hs' i gs Hi8 Hi). rewrite decide_False in Hs' by lia.
  destruct Hs' as [[-> _]|[Hnx Hstate Huntil Hflip]]; [by apply status_closed|]. apply status_until; try done; try lia.
  intros Hcl. apply Hflip; [|done]. intros g Hg Hfull. assert (sched_open c i now) as Ho'; [|apply Hstate in Ho'; congruence].
  split; [lia|]. exists g. split; [done|]. rewrite Hfull. apply open_in_single. apply Z.mod_pos_bound. lia.
Qed.

Lemma executed_fresh c now s s' i gs :
  executed off clk c now 0 s s' → entry_states s' !! i = Some gs → fresh now gs.
Proof.
  intros [R _ _ Hs _ _] Hi. assert (i < 8)%nat as Hi8.
  { apply lookup_lt_Some in Hi. unfold entry_states in Hi. rewrite length_fmap, (eo_length _ _ _ (re_entries _ _ _ R)) in Hi. done. }
  specialize (Hs i gs Hi8 Hi). rewrite decide_False in Hs by lia.
  destruct Hs as [[-> _]|[Hnx _ _ _]]; [right; by left|right; right; lia].
Qed.

(** While all gates are closed, they are. *)
Definition stopped_ok (s : Tas) : Prop :=
  m_StoppAllQueues s = true → ∀ i gs, entry_states s !! i = Some gs → gs = mkGateState false 0.

(** A class with packets whose gate is closed and will open has a run scheduled: with the
    time of the gate, by [eo_run] and [eo_stamp]. *)
Definition wake (s : Tas) : Prop :=
  ∀ j e g, m_gateListConfig s !! j = Some e → t_classes s !! j = Some g →
    e_GetGateState e = false → GetDeviceTime clk s < e_GetNextEvent e → 0 < QueueDisc.m_nPackets (g_base g) →
    IsRunning (reRunEvent e) s = true.

Record steady (s : Tas) : Prop := {
  sd_stopped : stopped_ok s;
  sd_wake : wake s
}.

Lemma executed_wake c now s s' :
  executed off clk c now 0 s s' → 0 ≤ now → GetDeviceTime clk s = now → t_getNow s' = t_getNow s → wake s'.
Proof.
  intros [R _ _ _ Hr _] Hn Ht Hg j e g He Hc _ Hnx Hp. rewrite (time_eq clk s s' Hg) in Hnx.
  pose proof (lookup_lt_Some _ _ _ He) as Hj. rewrite (eo_length _ _ _ (re_entries _ _ _ R)) in Hj.
  apply (Hr j ltac:(lia) e g); try done. lia.
Qed.

(** Where the gates are not updated there is none that will open. *)
Lemma executed_or_not dn dm s s' :
  tas_st clk dn dm s → stopped_ok s →
  (m_StoppAllQueues s = false → 0 < m_length (m_currentConfig s) →
     m_configChangeTime (m_currentConfig s) ≤ GetDeviceTime clk s →
     executed off clk (m_currentConfig s) (GetDeviceTime clk s) 0 s s') →
  (∃ e j, m_gateListConfig s !! j = Some e ∧ 0 < e_GetNextEvent e) →
  executed off clk (m_currentConfig s) (GetDeviceTime clk s) 0 s s'.
Proof.
  intros W Hstop Hex (e & j & He & Hpos). pose proof (states_lookup s j e He) as Hst.
  apply Hex; [destruct (m_StoppAllQueues s) eqn:Es; [|done]| |].
  1: { specialize (Hstop Es j _ Hst). unfold e_GetNextEvent in Hpos. rewrite Hstop in Hpos. cbn in Hpos. lia. }
  all: unfold e_GetNextEvent in Hpos; destruct (ts_status _ _ _ _ W j _ Hst) as [E|E|? ? ? ? ?]; try done; rewrite E in Hpos; cbn in Hpos; lia.
Qed.

(** The gate was never given a state by a list. *)
Definition unscheduled (s : Tas) (j : nat) : Prop := entry_states s !! j = Some (mkGateState true (-1)).

Lemma executed_scheduled c now s s' j :
  executed off clk c now 0 s s' → 0 ≤ now → ¬ unscheduled s' j.
Proof.
  intros [R _ _ Hs _ _] Hn Hu. assert (j < 8)%nat as Hj.
  { apply lookup_lt_Some in Hu. unfold entry_states in Hu. rewrite length_fmap, (eo_length _ _ _ (re_entries _ _ _ R)) in Hu. done. }
  specialize (Hs j _ Hj Hu). rewrite decide_False in Hs by lia. destruct Hs as [[[=] _]|[Hnx _ _ _]]. cbn in Hnx. lia.
Qed.

(** [DoDequeue] looks at a gate: its state is up to date then. *)
Lemma dequeue_refresh_ok dn dm s prio :
  tas_st clk dn dm s → steady s → (prio < 8)%nat →
  ∃ s', dequeue_refresh NS clk (GetDeviceTime clk s) prio s = Ok s' ∧ tas_st clk dn dm s' ∧ frame s' = frame s ∧ others s s' ∧
    (∀ gs, entry_states s' !! prio = Some gs → fresh (GetDeviceTime clk s) gs) ∧ steady s' ∧
    (∀ j, unscheduled s' j → unscheduled s j).
Proof using Hclk.
  intros W [Hstop Hwake] Hp. unfold dequeue_refresh. pose proof (re_entries _ _ _ (ts_ready _ _ _ _ W)) as He.
  destruct (lookup_lt_is_Some_2 (m_gateListConfig s) prio) as [e Hei]; [by rewrite (eo_length _ _ _ He)|].
  rewrite (at_ok _ prio e Hei). res_simpl. pose proof (states_lookup s prio e Hei) as Hst.
  pose proof (ts_status _ _ _ _ W prio _ Hst) as Hs.
  set (now := GetDeviceTime clk s) in *. unfold e_GetNextEvent.
  destruct (Z.leb_spec 0 (interval (e_gateState e))), (Z.ltb_spec now (interval (e_gateState e))); cbn [andb negb]; cycle 1.
  - destruct (ListExecute_inv dn dm s W) as (s' & -> & W' & Hf & Ho & Hex & Hsame). fold now in Hex, Hsame. exists s'.
    assert (steady s') as Hsteady.
    { destruct (m_StoppAllQueues s) eqn:Es; [by rewrite (Hsame (or_introl eq_refl))|].
      destruct (frame_eq _ _ Hf) as (_&_&_&_&Ess&_&_&_&_&_&_&_&_&Eg&_). split; [intros Hss; by rewrite Ess, Es in Hss|].
      destruct (Z.eq_dec (m_length (m_currentConfig s)) 0) as [Hz|Hz]; [by rewrite (Hsame (or_intror (or_introl Hz)))|].
      destruct (Z.lt_ge_cases now (m_configChangeTime (m_currentConfig s))) as [Hlt|Hge];
        [by rewrite (Hsame (or_intror (or_intror Hlt)))|].
      pose proof (ts_current _ _ _ _ W) as [[? _ _] _ _ _]. pose proof (clk_bounds s).
      eapply executed_wake; [apply Hex; [done|lia|done]|lia|done|done]. }
    pose proof (ts_current _ _ _ _ W) as [[Hl _ _] _ _ _]. pose proof (clk_bounds s).
    conj; try done; cycle 1.
    { intros j Hj. destruct (m_StoppAllQueues s) eqn:Es; [by rewrite (Hsame (or_introl eq_refl)) in Hj|].
      destruct (Z.eq_dec (m_length (m_currentConfig s)) 0) as [Hz|Hz]; [by rewrite (Hsame (or_intror (or_introl Hz))) in Hj|].
      destruct (Z.lt_ge_cases now (m_configChangeTime (m_currentConfig s))) as [Hlt|Hge];
        [by rewrite (Hsame (or_intror (or_intror Hlt))) in Hj|].
      exfalso. eapply executed_scheduled; [apply Hex; [done|lia|done]|lia|done]. }
    intros gs Hgs. destruct (m_StoppAllQueues s) eqn:Es.
    { rewrite (Hsame (or_introl eq_refl)) in Hgs. right. left. by eapply Hstop. }
    destruct (Z.eq_dec (m_length (m_currentConfig s)) 0) as [Hz|Hz].
    { rewrite (Hsame (or_intror (or_introl Hz))) in Hgs. rewrite Hst in Hgs. injection Hgs as <-.
      destruct Hs as [-> | -> |? ? ? ? ?]; [by left|right; by left|lia]. }
    destruct (Z.lt_ge_cases now (m_configChangeTime (m_currentConfig s))) as [Hlt|Hge].
    { rewrite (Hsame (or_intror (or_intror Hlt))) in Hgs. rewrite Hst in Hgs. injection Hgs as <-.
      destruct Hs as [-> | -> |? ? ? ? ?]; [by left|right; by left|lia]. }
    eapply executed_fresh; [apply Hex; [done|lia|done]|done].
  - exists s. conj; try done. intros gs Hgs. rewrite Hst in Hgs. injection Hgs as <-. by right; right.
  - exists s. conj; try done. intros gs Hgs. rewrite Hst in Hgs. injection Hgs as <-.
    destruct Hs as [-> | -> |? ? ? ? ?]; [by left|right; by left|lia].
  - exists s. conj; try done. intros gs Hgs. rewrite Hst in Hgs. injection Hgs as <-. by right; right.
Qed.

(** ** Packets *)

(** A child queue disc after an operation. *)
Lemma put_class_ok dn dm s i g g' ctr n m :
  tas_st clk dn dm s → t_classes s !! i = Some g → gate_inv M g' → same_attributes g g' →
  told (held g) (held g') ctr n m →
  ∃ tr s', put_class i ctr g' s = (tr, s') ∧ tas_st clk (dn - n) (dm - m) s' ∧ kept s s' ∧
    t_classes s' = <[i := g']> (t_classes s) ∧ t_sim s' = t_sim s ∧ m_gateListConfig s' = m_gateListConfig s ∧
    m_transmitting s' = m_transmitting s.
Proof.
  intros W Hi Wg' (Es1 & Es2 & Es3 & Es4 & Es5) (Hc & Hcb & Hs & Hsb). unfold put_class.
  destruct (acct_notify_child ctr (t_base s) _ _ _ _ (ts_peeked _ _ _ _ W) (ts_acct _ _ _ _ W)) as (Ha & Hp & Hr & Hm & Hrun & Hq).
  destruct (notify on_child ctr (t_base s)) as [tr b]. cbn [fst snd] in *. eexists tr, _. split; [done|].
  destruct (gate_of_times _ _ s i g W Hi) as (G & _). split; [|split; [|done]]; cycle 1.
  { apply kept_set; cbn; try done. by rewrite Hr. }
  destruct W. constructor; cbn -[sum_over insert]; try done.
  - destruct ts_ready0 as [He Hsim [Hl Hst]]. constructor; [by destruct He|by destruct Hsim|]. constructor; [cbn; by rewrite length_insert|].
    etrans; [|exact Hst]. unfold gate_states. cbn. rewrite list_fmap_insert, Es2. apply list_insert_id. by rewrite list_lookup_fmap, Hi.
  - apply Forall_insert.
    + eapply Forall_impl; [done|]. intros g0 []. by constructor.
    + destruct G. constructor; [done|..]; cbn; congruence.
  - rewrite !(sum_over_insert _ _ _ _ _ Hi). unfold n_held at 2 3, b_held at 2 3. rewrite Hc, Hcb, Hs, Hsb in Ha.
    replace (sum_over n_held (t_classes s) - Z.of_nat (length (held g)) + Z.of_nat (length (held g'))) with
      (sum_over n_held (t_classes s) + (Z.of_nat (length (held g')) - Z.of_nat (length (held g)))) by lia.
    replace (sum_over b_held (t_classes s) - bytes_of (held g) + bytes_of (held g')) with
      (sum_over b_held (t_classes s) + (bytes_of (held g') - bytes_of (held g))) by lia. done.
Qed.

Lemma gates_ext s s' :
  t_getNow s' = t_getNow s → t_linkBandwidth s' = t_linkBandwidth s → t_keepAliveTime s' = t_keepAliveTime s →
  t_classes s' = t_classes s → Forall (gate_of s) (t_classes s) → Forall (gate_of s') (t_classes s').
Proof.
  intros E1 E2 E3 -> H. eapply Forall_impl; [exact H|]. intros g []. constructor; congruence.
Qed.

Lemma steady_ext s s' :
  steady s → m_gateListConfig s' = m_gateListConfig s → t_classes s' = t_classes s →
  m_StoppAllQueues s' = m_StoppAllQueues s → t_getNow s' = t_getNow s →
  (∀ u tv, s_pending (t_sim s) !! u = Some tv → tv.2 = EvRun → s_pending (t_sim s') !! u = Some tv) →
  (∀ i e, m_gateListConfig s !! i = Some e → stamp_ok off s e) →
  steady s'.
Proof.
  intros [Hst Hw] He Hc Hs Hg Hrun Hstamp. split; [intros Hss i gs; unfold entry_states; rewrite He; apply Hst; by rewrite <- Hs|].
  intros j e g Hej Hgj Hcl Hnx Hp. rewrite He in Hej. rewrite Hc in Hgj. rewrite (time_eq clk s s' Hg) in Hnx.
  specialize (Hw j e g Hej Hgj Hcl Hnx Hp). apply IsRunning_spec in Hw as (u & Hu & [tv Hu']). apply IsRunning_spec.
  exists u. split; [done|]. rewrite (Hrun u tv Hu'); [done|]. by rewrite (Hstamp j e Hej u tv Hu Hu').
Qed.

(** Scheduling an event of the queue disc itself. *)
Lemma tas_schedule dn dm delay ev s :
  tas_st clk dn dm s → 0 ≤ delay < 2 ^ 61 →
  let s' := set_t_sim (mkSim (S (s_uid (t_sim s))) (<[s_uid (t_sim s) := (c_sim clk + delay, ev)]> (s_pending (t_sim s)))) s in
  Schedule clk delay ev s = Ok (Some (s_uid (t_sim s)), s') ∧ tas_st clk dn dm s' ∧ (ev = EvRun → kept s s') ∧
  (steady s → steady s').
Proof using Hclk.
  intros W Hd s'. destruct (tas_Schedule_ok (c_sim clk) clk delay ev s) as (E & Hsim & Hev); [done|lia|apply Hclk|destruct Hclk; lia|apply W|].
  split; [exact E|]. split; [|split]; cycle 2.
  { intros Hsd. eapply steady_ext; try done; [|apply W]. intros u tv Hu _. cbn. rewrite lookup_insert_ne; [done|].
    pose proof (so_uid _ _ (re_sim _ _ _ (ts_ready _ _ _ _ W)) u tv Hu). lia. }
  - destruct W. constructor; try done; [|by apply (gates_ext s)]. destruct ts_ready0 as [He _ Hsy].
    constructor; [by apply entries_ok_schedule|done|by destruct Hsy].
  - intros Hr. unfold kept. conj; try done. by destruct (Hev Hr) as (_ & _ & Ho).
Qed.

Lemma SetTransmitting_ok dn dm i s :
  tas_st clk dn dm s → PacketQueue.size_ok it_size M i →
  ∃ s', SetTransmitting NS clk i s = Ok s' ∧ tas_st clk dn dm s' ∧ kept s s' ∧ t_classes s' = t_classes s ∧
    (steady s → steady s').
Proof using Hclk.
  intros W Hi. unfold SetTransmitting, GetTransmissionDuration. unfold PacketQueue.size_ok in Hi. pose proof (ts_M _ _ _ _ W).
  destruct (txtime_ok (t_linkBandwidth s) (it_size i)) as [-> Ht]; [apply W|lia|]. res_simpl.
  pose proof (ts_delay _ _ _ _ W). change (10 ^ 9) with 1000000000 in Ht. change (2 ^ 16) with 65536 in *.
  assert (∃ t, (if 0 <? m_propagetiondelay s then int64 (txtime (t_linkBandwidth s) (it_size i) + m_propagetiondelay s)
    else Ok (txtime (t_linkBandwidth s) (it_size i))) = Ok t ∧ 0 ≤ t < 2 ^ 61) as (t & -> & Hb).
  { destruct (Z.ltb_spec 0 (m_propagetiondelay s)); eexists; [rewrite int64_ok by lia|]; (split; [done|lia]). }
  res_simpl. destruct (tas_schedule dn dm t EvRun s W Hb) as (-> & W' & Hk & Hsd). specialize (Hk eq_refl). res_simpl.
  eexists. split; [done|]. split; [|split; [|split; [done|]]].
  - destruct W'. constructor; try done; [|by eapply (gates_ext (set_t_sim _ s))]. destruct ts_ready0 as [[] [] []]. constructor; by constructor.
  - etrans; [exact Hk|]. by apply kept_set.
  - intros Hs. destruct (Hsd Hs). by constructor.
Qed.

(** The packets of each class, oldest first. *)
Definition helds (s : Tas) : list (list Item) := (λ g, held g) <$> t_classes s.

(** The state of the gate of class [j], up to date, and its answer to a packet. *)
Definition answers (s : Tas) (now : Z) (j : nat) (i : Item) (answer : bool) : Prop :=
  ∃ gs, status (m_currentConfig s) j now gs ∧ fresh now gs ∧
    releases gs now (txtime (t_linkBandwidth s) (it_size i)) = answer ∧
    (gs = mkGateState true (-1) → unscheduled s j).

(** A class of whose packets the oldest one left, if there is one, is not let go. *)
Definition held_back (s s' : Tas) (now : Z) (j : nat) : Prop :=
  ∀ i l, helds s' !! j = Some (i :: l) → answers s now j i false.

(** A packet is handed out: the oldest one that is left of those of class [k]. *)
Definition handed_out (s s' : Tas) (now : Z) (k : nat) (i : Item) : Prop :=
  ∃ h h', helds s !! k = Some h ∧ helds s' !! k = Some h' ∧ live now (t_keepAliveTime s) h = i :: h' ∧
    answers s now k i true.

Lemma helds_frame s s' : frame s' = frame s → helds s' = helds s.
Proof.
  intros Hf. destruct (frame_eq _ _ Hf) as (_ & Ec & _).
  assert (∀ l : list Gate, (λ g, held g) <$> l = (λ g, held g) <$> (TransmissionGate.InitializeParams <$> l)) as H.
  { intros l. rewrite <- list_fmap_compose. by apply list_fmap_ext. }
  unfold helds. by rewrite (H (t_classes s')), Ec, <- H.
Qed.

Lemma answers_kept s s' now j i b :
  rest s' = rest s → (unscheduled s' j → unscheduled s j) → answers s' now j i b → answers s now j i b.
Proof.
  intros Hr Hun. destruct (rest_eq _ _ Hr) as (_&_&_&Eb&_&_&_&_&Ec&_). unfold answers. rewrite Eb, Ec. naive_solver.
Qed.

Lemma kept_time s s' : kept s s' → GetDeviceTime clk s' = GetDeviceTime clk s.
Proof. intros [Hr _]. destruct (rest_eq _ _ Hr) as (_&_&_&_&_&_&_&_&_&_&_&Eg&_). by apply time_eq. Qed.

Lemma helds_class s i g : t_classes s !! i = Some g → helds s !! i = Some (held g).
Proof. intros H. unfold helds. by rewrite list_lookup_fmap, H. Qed.

(** How many packets the counter of a gate shows. *)
Lemma gate_count dn dm s i g : tas_st clk dn dm s → t_classes s !! i = Some g → m_nPackets (g_base g) = Z.of_nat (length (held g)).
Proof using Hclk.
  intros W Hi. destruct (gate_of_times _ _ s i g W Hi) as (G & _). rewrite (ac_packets _ _ _ _ _ (gi_acct _ _ _ _ (go_inv _ _ G))).
  apply wrap_id. pose proof (PacketQueue.qi_max _ _ _ (gi_queue _ _ _ _ (go_inv _ _ G))) as Hm.
  unfold PacketQueue.fits_queue in Hm. rewrite (go_max _ _ G) in Hm. cbn in Hm. zlia.
Qed.

(** A class that has not got more packets, or whose gate is open or has a run. *)
Lemma steady_put s s' prio g g' :
  steady s → m_gateListConfig s' = m_gateListConfig s → t_sim s' = t_sim s → rest s' = rest s →
  t_classes s !! prio = Some g → t_classes s' = <[prio := g']> (t_classes s) →
  (0 < m_nPackets (g_base g') → 0 < m_nPackets (g_base g) ∨
     ∀ e, m_gateListConfig s !! prio = Some e → e_GetGateState e = false → GetDeviceTime clk s < e_GetNextEvent e →
       IsRunning (reRunEvent e) s = true) →
  steady s'.
Proof.
  intros [Hst Hw] He Hsim Hr Hg Hc Hp. destruct (rest_eq _ _ Hr) as (_&_&Ess&_&_&_&_&_&_&_&_&Eg&_).
  assert (∀ id, IsRunning id s' = IsRunning id s) as Hrun by (intros id; unfold IsRunning, IsExpired; by rewrite Hsim).
  split.
  - intros Hs i gs. unfold entry_states. rewrite He. apply Hst. by rewrite <- Ess.
  - intros j e gj Hej Hgj Hcl Hnx Hpk. rewrite Hrun. rewrite He in Hej. rewrite (time_eq clk s s' Eg) in Hnx. rewrite Hc in Hgj.
    apply list_lookup_insert_Some in Hgj as [(<- & <- & _)|[Hne Hgj]]; [|by apply (Hw j e gj)].
    destruct (Hp Hpk) as [Hp'|Hp']; [by apply (Hw prio e g)|by apply Hp'].
Qed.

(** One class is polled. *)
Lemma poll_ok s prio :
  tas_inv clk s → steady s → (prio < 8)%nat →
  let now := GetDeviceTime clk s in
  ∃ s1 g r ctr g' tr s2, dequeue_refresh NS clk now prio s = Ok s1 ∧ GetQueueDiscClass prio s1 = Ok g ∧
    QueueDisc.Dequeue (QueueDiscImpl0 := Gate_impl NS) clk g = Ok (r, ctr, g') ∧
    put_class prio ctr g' s1 = (tr, s2) ∧ tas_inv clk s2 ∧ steady s2 ∧ kept s s2 ∧
    (∀ j, j ≠ prio → helds s2 !! j = helds s !! j) ∧
    (∀ j, unscheduled s2 j → unscheduled s j) ∧
    match r with
    | Some i => handed_out s s2 now prio i ∧ PacketQueue.size_ok it_size M i
    | None => held_back s s2 now prio
    end.
Proof using Hclk.
  intros W Hsd Hp now. destruct (dequeue_refresh_ok 0 0 s prio W Hsd Hp) as (s1 & E1 & W1 & Hf1 & Ho1 & Hfr & Hsd1 & Hun1).
  fold now in E1, Hfr. pose proof (kept_frame s s1 Hf1 Ho1) as K1. pose proof (helds_frame s s1 Hf1) as H1.
  destruct (lookup_lt_is_Some_2 (t_classes s1) prio) as [g Hg]; [by rewrite (sy_classes _ (re_synced _ _ _ (ts_ready _ _ _ _ W1)))|].
  destruct (gate_of_times 0 0 s1 prio g W1 Hg) as (G & T & Hstat & Htime). rewrite (kept_time s s1 K1) in Hstat, Htime. fold now in Hstat, Htime.
  assert (entry_states s1 !! prio = Some (m_gateState g)) as Hes.
  { rewrite <- (sy_states _ (re_synced _ _ _ (ts_ready _ _ _ _ W1))). unfold gate_states. by rewrite list_lookup_fmap, Hg. }
  pose proof (Hfr _ Hes) as Hfresh.
  assert (m_gateState g = mkGateState true (-1) → unscheduled s prio) as Hun.
  { intros E. apply Hun1. unfold unscheduled. by rewrite Hes, E. }
  destruct (gate_Dequeue_ok M clk g (go_inv _ _ G) T) as (ctr & g' & Ed & Wg' & Hs & Hl & Ht).
  destruct (put_class_ok 0 0 s1 prio g g' ctr 0 0 W1 Hg Wg' Hs Ht) as (tr & s2 & Ep & W2 & K2 & Hc2 & Hsim2 & He2 & _).
  exists s1, g, (released clk g), ctr, g', tr, s2. split; [done|]. split; [unfold GetQueueDiscClass; by rewrite Hg|].
  split; [done|]. split; [done|]. split; [done|].
  pose proof K2 as (Hr2 & _). destruct (rest_eq _ _ Hr2) as (_&_&Ess2&Ebw2&_&_&Ek2&_&Ec2&_).
  pose proof K1 as (Hr1 & _). destruct (rest_eq _ _ Hr1) as (_&_&Ess1&Ebw1&_&_&Ek1&_&Ec1&_).
  split; [|split; [by etrans|]].
  { eapply steady_put; try done. intros Hp'. left. rewrite (gate_count 0 0 s1 prio g W1 Hg).
    rewrite (gate_count 0 0 s2 prio g' W2) in Hp' by (rewrite Hc2; apply list_lookup_insert_eq; by eapply lookup_lt_Some).
    rewrite Hl in Hp'. destruct (live_suffix (TransmissionGate.GetDeviceTime clk g) (m_keepAliveTime g) (held g)) as [k Ek].
    rewrite Ek, length_app. destruct (released clk g), (live _ _ _); cbn in Hp' |- *; lia. }
  pose proof (lookup_lt_Some _ _ _ Hg) as Hlt. assert (helds s2 = <[prio := held g']> (helds s1)) as Hh2.
  { unfold helds. by rewrite Hc2, list_fmap_insert. }
  split. { intros j Hj. by rewrite Hh2, list_lookup_insert_ne, H1 by done. }
  split. { intros j Hj. apply Hun1. unfold unscheduled, entry_states in *. by rewrite He2 in Hj. }
  assert (helds s2 !! prio = Some (held g')) as Hh' by (rewrite Hh2; apply list_lookup_insert_eq; unfold helds; by rewrite length_fmap).
  unfold released in Hl |- *. rewrite Htime, (go_keep _ _ G), Ek1 in Hl |- *. rewrite (go_rate _ _ G) in Hl |- *.
  destruct (live now (t_keepAliveTime s) (held g)) as [|i l] eqn:El.
  { intros i l Hil. rewrite Hh' in Hil. congruence. }
  destruct (releases (m_gateState g) now (txtime (t_linkBandwidth s1) (it_size i))) eqn:Er.
  - split.
    + exists (held g), (held g'). conj; [rewrite <- H1; by apply helds_class|done|by rewrite El, Hl|].
      exists (m_gateState g). rewrite <- Ec1, <- Ebw1. by conj.
    + destruct (live_suffix now (t_keepAliveTime s) (held g)) as [k Ek]. rewrite El in Ek.
      pose proof (PacketQueue.qi_sizes _ _ _ (gi_queue _ _ _ _ (go_inv _ _ G))) as Hsz. rewrite Ek in Hsz.
      apply Forall_app in Hsz as [_ Hsz]. by inversion Hsz.
  - intros i' l' Hil. rewrite Hh', Hl in Hil. simplify_eq. exists (m_gateState g). rewrite <- Ec1, <- Ebw1. by conj.
Qed.

(** The result of polling the classes below [n]: the highest one whose gate lets its oldest
    packet go hands it out. *)
Definition polled (s s' : Tas) (now : Z) (n : nat) (r : option Item) : Prop :=
  match r with
  | Some i => ∃ k, (k < n)%nat ∧ handed_out s s' now k i ∧ ∀ j, (k < j < n)%nat → held_back s s' now j
  | None => ∀ j, (j < n)%nat → held_back s s' now j
  end.

Lemma DoDequeue_loop_ok n s :
  (n ≤ 8)%nat → tas_inv clk s → steady s →
  ∃ r tr s', DoDequeue_loop NS clk (GetDeviceTime clk s) n s = Ok (r, tr, s') ∧ tas_inv clk s' ∧ steady s' ∧ kept s s' ∧
    (∀ j, (n ≤ j)%nat → helds s' !! j = helds s !! j) ∧ polled s s' (GetDeviceTime clk s) n r.
Proof using Hclk.
  revert s. induction n as [|prio IH]; intros s Hn W Hstop; cbn [DoDequeue_loop].
  { exists None, [], s. conj; try done. intros j Hj. lia. }
  destruct (poll_ok s prio W Hstop) as (s1 & g & r & ctr & g' & tr & s2 & -> & E2 & E3 & E4 & W2 & Hstop2 & K2 & Hh2 & Hun2 & Hr);
    [lia|]. res_simpl. rewrite E2. res_simpl. rewrite E3. res_simpl. rewrite E4.
  set (now := GetDeviceTime clk s) in *. destruct r as [i|].
  - destruct Hr as [Hout Hsz]. destruct (SetTransmitting_ok 0 0 i s2 W2 Hsz) as (s3 & -> & W3 & K3 & Hc3 & Hsd3). res_simpl.
    assert (helds s3 = helds s2) as Hh3 by (unfold helds; by rewrite Hc3).
    exists (Some i), tr, s3. conj; try done; [by apply Hsd3|by etrans| |].
    + intros j Hj. rewrite Hh3. apply Hh2. lia.
    + exists prio. split; [lia|]. split; [|intros j Hj; lia]. destruct Hout as (h & h' & Hh & Hh' & Hl & Ha).
      exists h, h'. by rewrite Hh3.
  - destruct (IH s2) as (r & tr' & s' & E & W' & Hstop' & K' & Hh' & Hp); [lia|done|done|].
    rewrite (kept_time s s2 K2) in E, Hp. fold now in E, Hp. rewrite E. res_simpl. exists r, (tr ++ tr'), s'. conj; try done; [by etrans| |].
    { intros j Hj. rewrite Hh' by lia. apply Hh2. lia. }
    assert (held_back s s' now prio) as Hb.
    { intros i l Hil. rewrite Hh' in Hil by lia. by eapply Hr. }
    destruct r as [i|]; cbn [polled] in *.
    + destruct Hp as (k & Hk & (h & h' & Hhk & Hhk' & Hl & Ha) & Hrest). exists k. split; [lia|]. split.
      * destruct K2 as [Hr2 _]. pose proof (rest_eq _ _ Hr2) as (_&_&_&_&_&_&Ek&_). exists h, h'. conj; [|done|by rewrite <- Ek|].
        -- rewrite <- Hh2 by lia. done.
        -- eapply answers_kept; [done|apply Hun2|exact Ha].
      * intros j Hj. destruct (decide (j = prio)) as [->|]; [done|]. intros i' l' Hil.
        eapply answers_kept; [apply K2|apply Hun2|]. eapply Hrest; [lia|done].
    + intros j Hj. destruct (decide (j = prio)) as [->|]; [done|]. intros i' l' Hil.
      eapply answers_kept; [apply K2|apply Hun2|]. eapply Hp; [lia|done].
Qed.

(** ** [QueueDisc::Dequeue] on the queue disc *)

Definition busy (s : Tas) : bool :=
  IsRunning (m_transmitting s) s || match m_channel s with Some st => IsBusy st | None => false end.

Lemma tas_DoDequeue_ok s :
  tas_inv clk s → steady s →
  ∃ r tr s', DoDequeue NS clk s = Ok (r, tr, s') ∧ tas_inv clk s' ∧ steady s' ∧ kept s s' ∧
    if busy s then r = None ∧ helds s' = helds s else polled s s' (GetDeviceTime clk s) 8 r.
Proof using Hclk.
  intros W Hstop. unfold DoDequeue, busy, IsRunning. pose proof (ts_M _ _ _ _ W) as HM. change (2 ^ 16) with 65536 in HM.
  pose proof (ts_mtu _ _ _ _ W) as Hmtu.
  destruct (IsExpired (m_transmitting s) s); cbn [negb orb]; cycle 1.
  { exists None, [], s. conj; try done. }
  destruct (match m_channel s with Some st => IsBusy st | None => false end).
  - assert (0 ≤ m_Mtu s / 2 < 2 ^ 16) as Hm by (change (2 ^ 16) with 65536; Z.to_euclidean_division_equations; lia).
    destruct (txtime_ok (t_linkBandwidth s) (m_Mtu s / 2)) as [-> Ht]; [apply W|lia|]. res_simpl.
    change (10 ^ 9) with 1000000000 in Ht. change (2 ^ 16) with 65536 in Hm.
    destruct (tas_schedule 0 0 (txtime (t_linkBandwidth s) (m_Mtu s / 2)) EvRun s W) as (-> & W' & K & Hsd); [lia|].
    specialize (K eq_refl). res_simpl. eexists None, [], _.
    conj; try done; [|destruct (Hsd Hstop); by constructor|etrans; [exact K|by apply kept_set]].
    destruct W'. constructor; try done; [|by eapply (gates_ext (set_t_sim _ s))]. destruct ts_ready0 as [[] [] []].
    constructor; by constructor.
  - destruct (DoDequeue_loop_ok 8 s) as (r & tr & s' & E & W' & Hs' & K & _ & Hp); [lia|done|done|].
    rewrite (sy_classes _ (re_synced _ _ _ (ts_ready _ _ _ _ W))). exists r, tr, s'. by conj.
Qed.

#[local] Existing Instance Tas_impl.

(** The invariant between the operations of the user. *)
Lemma Dequeue_inv m_filters s :
  tas_inv clk s → steady s → m_requeued (t_base s) = None →
  ∃ r tr s', QueueDisc.Dequeue (QueueDiscImpl0 := Tas_impl NS m_filters) clk s = Ok (r, tr, s') ∧
    tas_inv clk s' ∧ steady s' ∧ kept s s' ∧
    if busy s then r = None ∧ helds s' = helds s else polled s s' (GetDeviceTime clk s) 8 r.
Proof using Hclk.
  intros W Hstop Hr. destruct (tas_DoDequeue_ok s W Hstop) as (r & tr & s' & E & W' & H). exists r, tr, s'. split; [|by split].
  eapply (Dequeue_ok (QueueDiscImpl0 := Tas_impl NS m_filters)); [exact Hr|exact E|apply W'|by eapply totals].
Qed.

(** ** [QueueDisc::Enqueue] on the queue disc *)

Context (m_filters : list (Item → Z)).

Lemma childclass_range i : 0 ≤ childclass m_filters i < 8.
Proof.
  assert (∀ z, 0 ≤ Z.land z 7 < 8) as H.
  { intros z. change 7 with (Z.ones 3). rewrite Z.land_ones by lia. apply Z.mod_pos_bound. lia. }
  unfold childclass. destruct (it_priority i); [apply H|]. case_match; [lia|apply H].
Qed.

(** The packet with the tag of its class. *)
Definition tagged (i : Item) : Item :=
  mkItem (it_ptr i) (it_size i) (it_timeStamp i) (it_txq i)
    (Some (match it_priority i with Some prio => prio | None => u8 (childclass m_filters i) end)).

(** What enqueueing does to the packets of the class: the expired ones go, the new one comes
    last unless there are 800 packets. *)
Definition accepted (s s' : Tas) (i : Item) (r : bool) (restamp : Item → Item) : Prop :=
  let k := Z.to_nat (childclass m_filters i) in
  if m_Mtu s <? it_size i then r = false ∧ helds s' = helds s
  else ∃ h, helds s !! k = Some h ∧
    let l := live (GetDeviceTime clk s) (t_keepAliveTime s) h in
    r = negb (Z.of_nat (length l) =? 800) ∧
    helds s' = <[k := if r then restamp <$> (l ++ [tagged i]) else l]> (helds s).

Lemma DoEnqueue_ok i s :
  tas_st clk 1 (it_size i) s → steady s → m_prioMap s = [0; 1; 2; 3; 4; 5; 6; 7]%nat → 1 ≤ it_size i →
  ∃ r tr s', DoEnqueue NS m_filters clk i s = Ok (r, tr, s') ∧ tas_inv clk s' ∧ steady s' ∧ kept s s' ∧
    accepted s s' i r (stamp (it_ptr i) (c_sim clk)).
Proof using Hclk.
  intros W Hsd Hmap Hi1. unfold DoEnqueue, accepted. set (k := Z.to_nat (childclass m_filters i)). pose proof (childclass_range i) as Hk.
  destruct (Z.ltb_spec (m_Mtu s) (it_size i)).
  { destruct (DropBeforeEnqueue i PAKET_SIZE_EXCEEDED_DROP (t_base s)) as [tr b] eqn:Ed.
    pose proof (acct_DropBeforeEnqueue _ _ _ _ _ i PAKET_SIZE_EXCEEDED_DROP (ts_acct _ _ _ _ W)) as Ha.
    rewrite Ed, !Z.sub_diag in Ha. cbn [snd] in Ha. unfold DropBeforeEnqueue in Ed. simplify_eq.
    eexists false, _, _. split; [done|]. split; [|split; [|split; [by apply kept_set|done]]].
    - destruct W. constructor; try done; [|by eapply (gates_ext s)]. destruct ts_ready0 as [[] [] []]. constructor; by constructor.
    - eapply steady_ext; try done. apply W. }
  assert (at_ (m_prioMap s) k = Ok k) as ->.
  { rewrite Hmap. assert (k < 8)%nat as Hk8 by lia. clearbody k. do 8 (destruct k as [|k]; [done|]). lia. }
  res_simpl. destruct (lookup_lt_is_Some_2 (t_classes s) k) as [g Hg];
    [rewrite (sy_classes _ (re_synced _ _ _ (ts_ready _ _ _ _ W))); lia|].
  unfold GetQueueDiscClass. rewrite Hg. res_simpl.
  destruct (gate_of_times _ _ s k g W Hg) as (G & T & Hstat & Htime). pose proof (ts_mtu _ _ _ _ W).
  destruct (gate_Enqueue_ok M clk (tagged i) g (go_inv _ _ G) T) as (ctr & g' & Ee & Wg' & Hs & Hl & Ht); [by split; cbn; lia|].
  unfold tagged in Ee at 1. rewrite Ee. res_simpl. cbn [tagged it_ptr it_size] in Hl, Ht.
  destruct (put_class_ok _ _ s k g g' ctr 1 (it_size i) W Hg Wg' Hs Ht) as (tr & s2 & Ep & W2 & K2 & Hc2 & Hsim2 & He2 & _).
  rewrite !Z.sub_diag in W2. rewrite Ep. pose proof K2 as [Hr2 _].
  rewrite Htime, (go_keep _ _ G), (go_max _ _ G) in Hl |- *. cbn [PacketQueue.m_value] in Hl |- *.
  set (l := live (GetDeviceTime clk s) (t_keepAliveTime s) (held g)) in *. set (r := negb (Z.of_nat (length l) =? 800)) in *.
  assert (helds s2 = <[k := if r then stamp (it_ptr i) (c_sim clk) <$> (l ++ [tagged i]) else l]> (helds s)) as Hh2.
  { unfold helds. rewrite Hc2, list_fmap_insert. by rewrite Hl. }
  destruct (lookup_lt_is_Some_2 (m_gateListConfig s2) k) as [e Hek].
  { rewrite (eo_length _ _ _ (re_entries _ _ _ (ts_ready _ _ _ _ W2))). lia. }
  rewrite (at_ok _ k e Hek). res_simpl.
  (* steady, unless the gate is closed and nothing is scheduled *)
  assert (negb (r && negb (e_GetGateState e) && IsExpired (reRunEvent e) s2) → steady s2) as Hsteady.
  { intros Hno. eapply steady_put; try done. intros Hp. destruct r eqn:Er; cbn [andb negb] in Hno.
    - right. intros e0 He0 Hcl _. rewrite <- He2, Hek in He0. injection He0 as <-. rewrite Hcl in Hno. cbn in Hno.
      unfold IsRunning. assert (IsExpired (reRunEvent e) s = IsExpired (reRunEvent e) s2) as -> by (unfold IsExpired; by rewrite Hsim2).
      by destruct (IsExpired (reRunEvent e) s2).
    - left. rewrite (gate_count _ _ s k g W Hg).
      rewrite (gate_count 0 0 s2 k g' W2) in Hp by (rewrite Hc2; apply list_lookup_insert_eq; by eapply lookup_lt_Some).
      rewrite Hl in Hp. destruct (live_suffix (GetDeviceTime clk s) (t_keepAliveTime s) (held g)) as [k' Ek].
      fold l in Ek. rewrite Ek, length_app. lia. }
  destruct (r && negb (e_GetGateState e) && IsExpired (reRunEvent e) s2) eqn:Eupd; cycle 1.
  { exists r, tr, s2. conj; try done; [by apply Hsteady|]. exists (held g). split; [by apply helds_class|]. by split. }
  destruct (ListExecute_inv 0 0 s2 W2) as (s3 & -> & W3 & Hf3 & Ho3 & Hex & Hsame). res_simpl.
  exists r, tr, s3. conj; try done; cycle 1.
  { etrans; [exact K2|]. by apply kept_frame. }
  { exists (held g). split; [by apply helds_class|]. split; [done|]. by rewrite (helds_frame s2 s3). }
  (* the update schedules a run, unless no gate will open *)
  pose proof (ts_current _ _ _ _ W2) as [[Hlen _ _] _ _ _].
  destruct (decide (m_StoppAllQueues s2 = false ∧ 0 < m_length (m_currentConfig s2) ∧
    m_configChangeTime (m_currentConfig s2) ≤ GetDeviceTime clk s2)) as [(Hs2 & Hl2 & Ht2)|Hno].
  - destruct (frame_eq _ _ Hf3) as (_&_&_&_&Ess&_&_&_&_&_&_&_&_&Eg&_). pose proof (clk_bounds s2).
    split; [intros Hss; by rewrite Ess, Hs2 in Hss|]. eapply executed_wake; [by apply Hex|lia|done|done].
  - assert (s3 = s2) as ->.
    { apply Hsame. destruct (m_StoppAllQueues s2); [by left|]. destruct (Z.eq_dec (m_length (m_currentConfig s2)) 0); [tauto|].
      right. right. apply Z.nle_gt. intros Hle. apply Hno. split; [done|]. split; [lia|done]. }
    eapply steady_put; try done. intros _. right. intros e0 He0 _ Hnx. exfalso. apply Hno. pose proof (clk_bounds s).
    pose proof (ts_status _ _ _ _ W k _ (states_lookup s k e0 He0)) as Hst0. unfold e_GetNextEvent in Hnx.
    destruct (rest_eq _ _ Hr2) as (_&_&Ess&_&_&_&_&_&Ec&_). rewrite Ess, Ec, (kept_time s s2 K2).
    destruct Hst0 as [E|E|? ? ? ? ?]; [rewrite E in Hnx; cbn in Hnx; lia|rewrite E in Hnx; cbn in Hnx; lia|].
    split; [|done]. destruct (m_StoppAllQueues s) eqn:Es; [|done].
    pose proof (sd_stopped _ Hsd Es k _ (states_lookup s k e0 He0)) as E. rewrite E in Hnx. cbn in Hnx. lia.
Qed.

(** The time stamp of a packet, wherever it is held. *)
Definition stamps (p t : Z) (hs : list (list Item)) : list (list Item) := (λ l : list Item, stamp p t <$> l) <$> hs.

Lemma SetTimeStamp_inv p t s :
  tas_inv clk s → tas_inv clk (SetTimeStamp p t s) ∧ (steady s → steady (SetTimeStamp p t s)) ∧
  kept s (SetTimeStamp p t s) ∧ helds (SetTimeStamp p t s) = stamps p t (helds s).
Proof.
  intros W. assert (∀ {A} (f : Gate → A), (∀ g, f (TransmissionGate.SetTimeStamp p t g) = f g) →
    f <$> t_classes (SetTimeStamp p t s) = f <$> t_classes s) as Hmap.
  { intros A f Hf. cbn. rewrite <- list_fmap_compose. apply list_fmap_ext; intros ? g _; apply Hf. }
  split; [|split; [|split]].
  - destruct W. constructor; try done.
    + destruct ts_ready0 as [[] [] [Hl Hs]]. constructor; [by constructor|by constructor|]. constructor; [cbn; by rewrite length_fmap|].
      etrans; [|exact Hs]. by apply (Hmap _ m_gateState).
    + cbn. apply Forall_fmap. eapply Forall_impl; [exact ts_gates0|]. intros g [Hi Hn Hr Hk Hm].
      destruct (SetTimeStamp_ok M 0 0 g p t Hi) as (Hi' & _ & _). by constructor.
    + rewrite (sum_over_ext n_held _ _ (Hmap _ n_held ltac:(intros g; unfold n_held; cbn; by rewrite length_fmap))).
      rewrite (sum_over_ext b_held _ _ (Hmap _ b_held ltac:(intros g; apply stamps_bytes))).
      destruct ts_acct0. by constructor.
  - intros [Hst Hw]. split; [exact Hst|]. intros j e g Hej Hgj Hcl Hnx Hp. cbn in Hgj. apply list_lookup_fmap_Some in Hgj as (g0 & -> & Hgj).
    by apply (Hw j e g0).
  - apply kept_set; cbn; try done. by destruct (m_requeued (t_base s)).
  - unfold helds, stamps. cbn. rewrite <- !list_fmap_compose. by apply list_fmap_ext.
Qed.

Lemma stamp_idemp p t i : stamp p t (stamp p t i) = stamp p t i.
Proof. unfold stamp. destruct (it_ptr i =? p) eqn:E; cbn; by rewrite E. Qed.

(** What [Enqueue] does to the packets of the class of the new one: the expired ones go, and
    the new one comes last, unless it is too large or there are 800 packets. *)
Definition enqueued (s s' : Tas) (i : Item) (r : bool) : Prop :=
  let k := Z.to_nat (childclass m_filters i) in
  if m_Mtu s <? it_size i then r = false ∧ helds s' = helds s
  else ∃ h, helds s !! k = Some h ∧
    let l := live (GetDeviceTime clk s) (t_keepAliveTime s) h in
    r = negb (Z.of_nat (length l) =? 800) ∧
    helds s' = if r then stamps (it_ptr i) (c_sim clk) (<[k := l ++ [tagged i]]> (helds s)) else <[k := l]> (helds s).

Lemma Enqueue_inv i s :
  tas_inv clk s → steady s → m_prioMap s = [0; 1; 2; 3; 4; 5; 6; 7]%nat → 1 ≤ it_size i →
  ∃ r tr s', QueueDisc.Enqueue (QueueDiscImpl0 := Tas_impl NS m_filters) clk i s = Ok (r, tr, s') ∧
    tas_inv clk s' ∧ steady s' ∧ kept s s' ∧ enqueued s s' i r.
Proof using Hclk.
  intros W Hsd Hmap Hi. set (s0 := set_t_base (received i (t_base s)) s).
  assert (tas_st clk 1 (it_size i) s0) as W0.
  { destruct W. constructor; try done.
    - destruct ts_ready0 as [[] [] []]. constructor; by constructor.
    - by apply (gates_ext s).
    - by apply (acct_received _ _ _ 0 0 i). }
  assert (steady s0) as Hsd0 by (eapply steady_ext; try done; apply W).
  destruct (DoEnqueue_ok i s0 W0 Hsd0 Hmap Hi) as (r & tr & s1 & E & W1 & Hsd1 & K1 & Ha).
  assert (kept s s1) as K by (etrans; [|exact K1]; by apply kept_set).
  destruct (SetTimeStamp_inv (it_ptr i) (c_sim clk) s1 W1) as (W2 & Hsd2 & K2 & Hh2).
  eexists r, tr, _. split.
  { eapply (Enqueue_ok (QueueDiscImpl0 := Tas_impl NS m_filters)); [done|exact E|apply W1]. }
  cbn [q_SetTimeStamp Tas_impl]. unfold accepted in Ha. unfold enqueued. change (m_Mtu s0) with (m_Mtu s) in Ha.
  change (helds s0) with (helds s) in Ha. change (GetDeviceTime clk s0) with (GetDeviceTime clk s) in Ha.
  change (t_keepAliveTime s0) with (t_keepAliveTime s) in Ha. destruct (m_Mtu s <? it_size i).
  { destruct Ha as [-> Ha]. by conj. }
  destruct Ha as (h & Hh & Hr & Ha). destruct r.
  - split; [done|]. split; [by apply Hsd2|]. split; [by etrans|]. exists h. split; [done|]. split; [done|].
    rewrite Hh2, Ha. unfold stamps. rewrite !list_fmap_insert. f_equal. rewrite <- list_fmap_compose.
    apply list_fmap_ext. intros. apply stamp_idemp.
  - split; [done|]. split; [done|]. split; [done|]. exists h. by conj.
Qed.
End now.
End tas.
