(* ===== verification/TasSession.v ===== *)
(** * The time aware shaper: sessions

    The queue disc from its initialization on, under every sequence of packets, runs, new gate
    control lists and events of the simulator, in the order of time. *)

From stdpp Require Import strings.
From S2P Require Import Prelude NsTime QueueDisc GateList TransmissionGate QueueDiscCorrect GateCorrect.
From S2P Require Import TasQueueDisc TasSchedule TasEvents TasGates TasCorrect.
From S2P Require PacketQueue.
Local Open Scope Z_scope.

Section session.
Context (off M : Z) (m_filters : list (Item → Z)).

(** The invariant between the events: that of the queue disc, and that the gates are closed
    before the configuration is exchanged - they are, or there is an earlier event for it, or
    [stopping]. *)
Record sess (stopping : Prop) (clk : Clock) (s : Tas) : Prop := {
  se_inv : tas_st off M clk 0 0 s;
  se_steady : steady clk s;
  se_initialized : t_initialized s = true;
  se_map : m_prioMap s = [0; 1; 2; 3; 4; 5; 6; 7]%nat;
  se_quota : fits 32 (m_quota (t_base s));
  se_known : ∀ u, m_stopAllQEvent s = Some u ∨ m_updateNDLCEvent s = Some u → (u < s_uid (t_sim s))%nat;
  se_stop : ∀ u t ev, m_stopAllQEvent s = Some u → s_pending (t_sim s) !! u = Some (t, ev) → ev = EvStopAllQueues;
  se_update : ∀ u t ev, m_updateNDLCEvent s = Some u → s_pending (t_sim s) !! u = Some (t, ev) → ev = EvUpdateNetDeviceListConfig;
  se_only_stop : ∀ u t, s_pending (t_sim s) !! u = Some (t, EvStopAllQueues) → m_stopAllQEvent s = Some u;
  se_only_update : ∀ u t, s_pending (t_sim s) !! u = Some (t, EvUpdateNetDeviceListConfig) →
    m_updateNDLCEvent s = Some u ∧
    (stopping ∨ m_StoppAllQueues s = true ∨
     ∃ v t', s_pending (t_sim s) !! v = Some (t', EvStopAllQueues) ∧ (t' < t ∨ (t' = t ∧ v < u)%nat))
}.

Abbreviation session := (sess False).

(** An operation that changes none of it. *)
Lemma session_kept clk s s' :
  session clk s → tas_st off M clk 0 0 s' → steady clk s' → rest s' = rest s → others s s' →
  m_quota (t_base s') = m_quota (t_base s) → session clk s'.
Proof.
  intros [] W Hsd Hr [Hu Hold Hkept] Hqu. destruct (rest_eq _ _ Hr) as (Ei&Em&Es&_&_&_&_&_&_&E1&E2&_).
  constructor; rewrite ?Ei, ?Em, ?Es, ?E1, ?E2, ?Hqu; try done.
  - intros u H. specialize (se_known0 u H). lia.
  - intros u t ev H Hp. destruct (Hold u _ Hp) as [Hp'|[Hlt _]]; [by apply (se_stop0 u t)|].
    specialize (se_known0 u (or_introl H)). lia.
  - intros u t ev H Hp. destruct (Hold u _ Hp) as [Hp'|[Hlt _]]; [by apply (se_update0 u t)|].
    specialize (se_known0 u (or_intror H)). lia.
  - intros u t Hp. destruct (Hold u _ Hp) as [Hp'|[_ ?]]; [by eapply se_only_stop0|done].
  - intros u t Hp. destruct (Hold u _ Hp) as [Hp'|[_ ?]]; [|done].
    destruct (se_only_update0 u t Hp') as [H1 [H2|[H2|(v & t' & H2 & H3)]]]; (split; [done|]); [done|by right; left|].
    right. right. exists v, t'. split; [by apply Hkept|done].
Qed.

(** Time passes, up to the next event. *)
Lemma session_later clk clk' s :
  clk_ok off clk → clk_ok off clk' → c_sim clk ≤ c_sim clk' →
  (∀ u t ev, s_pending (t_sim s) !! u = Some (t, ev) → c_sim clk' ≤ t) →
  session clk s → session clk' s.
Proof.
  intros [] [] Hle Hev []. assert (GetDeviceTime clk s ≤ GetDeviceTime clk' s) as Hd by (unfold GetDeviceTime; destruct (t_getNow s); lia).
  constructor; try done.
  - destruct se_inv0. constructor; try done.
    + destruct ts_ready as [He [Ht Hu] Hsy]. constructor; [done| |done]. constructor; [|done].
      intros u t ev H. specialize (Ht u t ev H). specialize (Hev u t ev H). lia.
    + intros i gs Hi. by eapply status_later; [apply ts_status|].
  - destruct se_steady0 as [Hs Hw]. split; [done|]. intros j e g He Hg Hc Hnx Hp. apply (Hw j e g); try done. lia.
Qed.

Section now.
Context (clk : Clock) (Hclk : clk_ok off clk).

Lemma session_base s b :
  session clk s → (∀ n m, acct (t_base s) n m 0 0 → acct b n m 0 0) → m_peeked b = false →
  m_quota b = m_quota (t_base s) → session clk (set_t_base b s).
Proof.
  intros S Ha Hp Hq. eapply session_kept; [exact S| | |done|by apply (others_ext s s)|done].
  - destruct S as [W _ _ _ _ _ _ _ _ _]. destruct W. constructor; try done; [|by apply (gates_ext M s)|by apply Ha].
    destruct ts_ready as [[] [] []]. constructor; by constructor.
  - apply (steady_ext off clk s); try done; [apply (se_steady _ _ _ S)|].
    apply (eo_stamp _ _ _ (re_entries _ _ _ (ts_ready _ _ _ _ _ _ (se_inv _ _ _ S)))).
Qed.

(** ** Runs *)

Section device.
Context {D : Type} (n_tx_queues : D → option Z) (IsStopped : D → Z → bool) (m_send : Clock → Item → D → res D).
Context (Hsend : ∀ i d, ∃ d', m_send clk i d = Ok d').

Abbreviation impl := (Tas_impl NS m_filters).

Lemma DequeuePacket_ok s d :
  session clk s →
  ∃ r tr s', QueueDisc.DequeuePacket (QueueDiscImpl0 := impl) n_tx_queues IsStopped clk d s = Ok (r, tr, s') ∧ session clk s'.
Proof using Hclk.
  intros S. unfold QueueDisc.DequeuePacket. cbn [q_base q_set_base Tas_impl].
  destruct (m_requeued (t_base s)) as [i|] eqn:Er.
  - destruct (negb _); [|by exists None, [], s]. rewrite (ts_peeked _ _ _ _ _ _ (se_inv _ _ _ S)).
    eexists (Some i), [], _. split; [done|]. apply session_base; [done| |done|done]. intros n m []. by constructor.
  - destruct (match n_tx_queues d with Some _ => _ | None => _ end); [|by exists None, [], s].
    destruct (Dequeue_inv off M clk Hclk m_filters s (se_inv _ _ _ S) (se_steady _ _ _ S) Er) as (r & tr & s' & E & W' & Hsd & (Hr & Ho & _ & _ & Hq) & _).
    exists r, tr, s'. split; [exact E|]. by eapply session_kept.
Qed.

Lemma Transmit_ok s i d :
  session clk s →
  ∃ b s' d', QueueDisc.Transmit (QueueDiscImpl0 := impl) n_tx_queues IsStopped m_send clk i s d = Ok (b, s', d') ∧ session clk s'.
Proof using Hsend.
  intros S. unfold QueueDisc.Transmit. destruct (stopped _ _ _ _).
  - eexists false, _, d. split; [done|]. unfold Requeue. cbn [q_base q_set_base Tas_impl]. apply session_base; [done| | |done].
    + intros n m []. by constructor.
    + apply (ts_peeked _ _ _ _ _ _ (se_inv _ _ _ S)).
  - match goal with |- context[m_send clk ?x d] => destruct (Hsend x d) as [d' ->] end. res_simpl. by eexists _, s, d'.
Qed.

Lemma Restart_ok s d :
  session clk s →
  ∃ b tr s' d', QueueDisc.Restart (QueueDiscImpl0 := impl) n_tx_queues IsStopped m_send clk s d = Ok (b, tr, s', d') ∧ session clk s'.
Proof using Hclk Hsend.
  intros S. unfold QueueDisc.Restart. destruct (DequeuePacket_ok s d S) as (r & tr & s1 & -> & S1). res_simpl.
  destruct r as [i|]; [|by exists false, tr, s1, d]. destruct (Transmit_ok s1 i d S1) as (b & s2 & d' & -> & S2). res_simpl.
  by exists b, tr, s2, d'.
Qed.

(** The loop makes at most as many rounds as the quota, or 2^32. *)
Lemma tas_Run_loop_ok fuel quota s d :
  fits 32 quota → u32 (quota - 1) + 1 < Z.of_nat fuel → session clk s →
  ∃ tr s' d', QueueDisc.Run_loop (QueueDiscImpl0 := impl) n_tx_queues IsStopped m_send fuel clk quota s d = Ok (tr, s', d') ∧
    session clk s'.
Proof using Hclk Hsend.
  revert quota s d. induction fuel as [|fuel IH]; intros quota s d Hq Hf S.
  { pose proof (wrap_fits 32 ltac:(lia) (quota - 1)) as []. lia. }
  cbn [QueueDisc.Run_loop]. destruct (Restart_ok s d S) as (b & tr & s1 & d1 & -> & S1). res_simpl.
  destruct b; [|by exists tr, s1, d1]. pose proof (wrap_fits 32 ltac:(lia) (quota - 1)) as Hw.
  destruct (Z.leb_spec (u32 (quota - 1)) 0); [by exists tr, s1, d1|].
  destruct (IH (u32 (quota - 1)) s1 d1) as (tr' & s' & d' & -> & S'); [done| |done|].
  - rewrite (wrap_id 32 (u32 (quota - 1) - 1)) by (unfold fits in *; lia). lia.
  - res_simpl. by eexists _, s', d'.
Qed.

Lemma Run_ok s d :
  session clk s →
  ∃ tr s' d', Run NS m_filters n_tx_queues IsStopped m_send clk s d = Ok (tr, s', d') ∧ session clk s'.
Proof using Hclk Hsend.
  intros S. pose proof (se_quota _ _ _ S) as Hq. unfold Run, QueueDisc.Run. cbn [q_base q_set_base Tas_impl]. destruct (m_running (t_base s)); [by exists [], s, d|].
  destruct (tas_Run_loop_ok (Z.to_nat (u32 (m_quota (t_base s) - 1)) + 2) (m_quota (t_base s)) (set_t_base (set_running true (t_base s)) s) d)
    as (tr & s1 & d1 & -> & S1); [done| | |].
  - pose proof (wrap_fits 32 ltac:(lia) (m_quota (t_base s) - 1)) as []. lia.
  - apply session_base; [done| |apply (ts_peeked _ _ _ _ _ _ (se_inv _ _ _ S))|done]. intros n m []. by constructor.
  - res_simpl. eexists tr, _, d1. split; [done|].
    apply session_base; [done| |apply (ts_peeked _ _ _ _ _ _ (se_inv _ _ _ S1))|done]. intros n m []. by constructor.
Qed.
End device.

(** ** New gate control lists *)

Lemma StopAllQueues_ok stopping s :
  sess stopping clk s →
  ∃ s', StopAllQueues clk s = Ok s' ∧ session clk s' ∧ m_StoppAllQueues s' = true ∧
    (∀ i gs, entry_states s' !! i = Some gs → gs = mkGateState false 0) ∧
    m_currentConfig s' = m_currentConfig s ∧ m_pandingConfig s' = m_pandingConfig s ∧
    t_getNow s' = t_getNow s ∧ t_linkBandwidth s' = t_linkBandwidth s ∧ m_Mtu s' = m_Mtu s ∧
    m_stopAllQEvent s' = m_stopAllQEvent s ∧ m_updateNDLCEvent s' = m_updateNDLCEvent s ∧ others s s'.
Proof using Hclk.
  intros S. pose proof (se_inv _ _ _ S) as W. unfold StopAllQueues. rewrite (se_initialized _ _ _ S).
  assert (0 ≤ c_sim clk < 2 ^ 61) by (destruct Hclk; lia). assert (- 2 ^ 61 ≤ off ≤ 2 ^ 61) by (destruct Hclk; lia).
  destruct (StopAllQueues_loop_ok off clk ltac:(apply Hclk) ltac:(done) ltac:(done) 8 0 s) as (s1 & -> & R & Hf & Ho & Hcl); [done|apply W|].
  res_simpl. destruct (frame_eq _ _ Hf) as (Eb&_&Ei&Emp&_&Er&Em&_&_&Ep&Ec&E1&E2&Eg&_).
  assert (∀ i gs, entry_states s1 !! i = Some gs → gs = mkGateState false 0) as Hclosed.
  { intros i gs Hi. specialize (Hcl i gs Hi). by rewrite decide_False in Hcl by lia. }
  assert (tas_st off M clk 0 0 s1) as W1.
  { apply (tas_gates off M clk 0 0 s); try done. intros i gs Hi. apply status_closed. by eapply Hclosed. }
  eexists. split; [done|]. split; [|cbn; rewrite Ep, Ec, Eg, Er, Em, E1, E2; conj; try done; by apply (others_ext s s1)].
  assert (tas_st off M clk 0 0 (set_m_StoppAllQueues true s1)) as W2.
  { destruct W1. constructor; try done; [|by apply (gates_ext M s1)]. destruct ts_ready as [[] [] []]. constructor; by constructor. }
  destruct S as [_ _ Hin Hmp Hqu Hk Hs Hu Hos Hou], Ho as [Hle Hold Hkept]. constructor; cbn; rewrite ?Ei, ?Emp, ?E1, ?E2, ?Eb; try done.
  - split; [intros _; exact Hclosed|]. intros j e g He _ _ Hnx _. exfalso. pose proof (clk_bounds off clk Hclk s1).
    pose proof (Hclosed j _ (states_lookup s1 j e He)) as E. unfold e_GetNextEvent in Hnx. rewrite E in Hnx. cbn in Hnx.
    unfold GetDeviceTime in *. cbn in Hnx. lia.
  - intros u Hu'. specialize (Hk u Hu'). lia.
  - intros u t ev H1 H2. destruct (Hold u _ H2) as [H3|[Hlt _]]; [by apply (Hs u t)|]. specialize (Hk u (or_introl H1)). lia.
  - intros u t ev H1 H2. destruct (Hold u _ H2) as [H3|[Hlt _]]; [by apply (Hu u t)|]. specialize (Hk u (or_intror H1)). lia.
  - intros u t H1. destruct (Hold u _ H1) as [H2|[_ ?]]; [by eapply Hos|done].
  - intros u t H1. destruct (Hold u _ H1) as [H2|[_ ?]]; [|done]. split; [by apply (Hou u t)|by right; left].
Qed.

(** A copied configuration takes over all but the epoch. *)
Lemma copy_conf src c st :
  config_ok src → m_length src * 10 ^ 6 < 2 ^ 61 → 0 ≤ m_configChangeTime src < 2 ^ 59 → conf_ok c →
  ∃ c', Config_Copy src c = Ok c' ∧ conf_ok (SetPandingStatus st c') ∧ m_length c' = m_length src ∧
    m_configChangeTime c' = m_configChangeTime src ∧ m_netDeviceListConfig c' = m_netDeviceListConfig src.
Proof.
  intros Hok Hl Hs [[_ Hq _] He _ _]. eexists. split; [by apply Config_Copy_ok|]. split; [|done]. destruct Hok.
  by constructor.
Qed.

Lemma cleared_conf c st : conf_ok c → conf_ok (SetPandingStatus st (Config_Clear c)).
Proof.
  intros [[_ Hq _] He _ _]. constructor; cbn; try done. constructor; cbn; [lia|by rewrite length_fmap|].
  apply Forall_fmap. apply Forall_true. intros. by apply gates_nil.
Qed.

Lemma activate_ok s :
  session clk s → (∀ i gs, entry_states s !! i = Some gs → gs = mkGateState false 0) →
  (∀ u t, s_pending (t_sim s) !! u ≠ Some (t, EvUpdateNetDeviceListConfig)) →
  ∃ s', activate s = Ok s' ∧ session clk s' ∧ t_initialized s' = true ∧
    m_length (m_currentConfig s') = m_length (m_pandingConfig s) ∧
    m_configChangeTime (m_currentConfig s') = m_configChangeTime (m_pandingConfig s) ∧
    m_netDeviceListConfig (m_currentConfig s') = m_netDeviceListConfig (m_pandingConfig s).
Proof using Hclk.
  intros S Hclosed Hno. pose proof (se_inv _ _ _ S) as W. unfold activate. pose proof (ts_panding _ _ _ _ _ _ W) as [Hp _ Hpl Hps].
  destruct (copy_conf (m_pandingConfig s) (m_currentConfig s) ACTIVE Hp Hpl Hps (ts_current _ _ _ _ _ _ W)) as (c' & -> & Hc' & E1 & E2 & E3).
  res_simpl. eexists. split; [done|]. split; [|by destruct S].
  destruct S as [_ _ Hin Hmp Hqu Hk Hs Hu Hos Hou]. constructor; cbn; try done.
  - destruct W. constructor; try done; first [by apply (gates_ext M s)|by apply cleared_conf|idtac].
    + destruct ts_ready as [[] [] []]. constructor; by constructor.
    + intros i gs Hi. apply status_closed. by eapply Hclosed.
  - split; [done|]. intros j e g He _ _ Hnx _. exfalso. pose proof (clk_bounds off clk Hclk s).
    pose proof (Hclosed j _ (states_lookup s j e He)) as E. unfold e_GetNextEvent in Hnx. rewrite E in Hnx. cbn in Hnx.
    unfold GetDeviceTime in *. cbn in Hnx. lia.
  - intros u t Hu'. by apply Hno in Hu'.
Qed.

(** [ListExecute] in a session. *)
Lemma session_ListExecute s :
  session clk s → ∃ s', ListExecute NS clk s = Ok s' ∧ session clk s'.
Proof using Hclk.
  intros S. destruct (ListExecute_inv off M clk Hclk 0 0 s (se_inv _ _ _ S)) as (s' & -> & W' & Hf & Ho & Hex & Hsame).
  exists s'. split; [done|]. destruct (kept_frame _ _ Hf Ho) as (Hr & _ & _ & _ & Hq).
  eapply session_kept; try done.
  pose proof (ts_current _ _ _ _ _ _ (se_inv _ _ _ S)) as [[Hlen _ _] _ _ _].
  destruct (decide (m_StoppAllQueues s = false ∧ 0 < m_length (m_currentConfig s) ∧
    m_configChangeTime (m_currentConfig s) ≤ GetDeviceTime clk s)) as [(Hs2 & Hl2 & Ht2)|Hno].
  - destruct (frame_eq _ _ Hf) as (_&_&_&_&Ess&_&_&_&_&_&_&_&_&Eg&_). pose proof (clk_bounds off clk Hclk s).
    split; [intros Hss; by rewrite Ess, Hs2 in Hss|]. eapply executed_wake; [by apply Hex|lia|done|done].
  - rewrite Hsame; [apply (se_steady _ _ _ S)|]. destruct (m_StoppAllQueues s); [by left|].
    destruct (Z.eq_dec (m_length (m_currentConfig s)) 0); [tauto|].
    right. right. apply Z.nle_gt. intros Hle. apply Hno. split; [done|]. split; [lia|done].
Qed.

(** *** The events of a new list *)

Definition no_stop (s : Tas) : Prop := ∀ u t, s_pending (t_sim s) !! u ≠ Some (t, EvStopAllQueues).
Definition no_update (s : Tas) : Prop := ∀ u t, s_pending (t_sim s) !! u ≠ Some (t, EvUpdateNetDeviceListConfig).

(** Fields no part of the invariant of the queue disc is about. *)
Lemma tas_same s s' :
  tas_st off M clk 0 0 s → core s' = core (set_m_updateNDLCEvent (m_updateNDLCEvent s') (set_m_stopAllQEvent (m_stopAllQEvent s')
    (set_m_pandingConfig (m_pandingConfig s') s))) →
  m_gateListConfig s' = m_gateListConfig s → t_sim s' = t_sim s → conf_ok (m_pandingConfig s') →
  tas_st off M clk 0 0 s' ∧ (steady clk s → steady clk s').
Proof.
  intros W Hc He Hs Hp. apply core_eq in Hc. cbn in Hc.
  destruct Hc as (E1&E2&E3&E4&E5&E6&E7&E8&E9&_&E11&_&_&E14&_). destruct W.
  destruct s', s. cbn in *. subst. split.
  - constructor; try done; [|by eapply Forall_impl; [exact ts_gates|intros g []; by constructor]].
    destruct ts_ready as [[] [] []]. constructor; by constructor.
  - intros []. by constructor.
Qed.

Lemma tas_cancel id s : tas_st off M clk 0 0 s → tas_st off M clk 0 0 (Cancel id s).
Proof.
  intros W. destruct id as [u|]; [|done]. destruct W.
  constructor; try done; [|by eapply Forall_impl; [exact ts_gates|intros g []; by constructor]].
  destruct ts_ready as [R1 R2 []]. constructor; [|by apply (sim_ok_cancel _ (Some _))|by constructor].
  by apply (entries_ok_cancel _ _ (Some _)).
Qed.

Lemma session_cancel s :
  session clk s →
  let s' := Cancel (m_updateNDLCEvent s) (Cancel (m_stopAllQEvent s) s) in
  session clk s' ∧ no_stop s' ∧ no_update s'.
Proof.
  intros S s'. pose proof S as [W Hsd Hin Hmp Hqu Hk Hs Hu Hos Hou].
  assert (rest s' = rest s ∧ m_gateListConfig s' = m_gateListConfig s ∧ t_classes s' = t_classes s ∧ t_base s' = t_base s ∧
    s_uid (t_sim s') = s_uid (t_sim s)) as (Hr & He & Hc & Hb & Huid).
  { subst s'. by destruct (m_updateNDLCEvent s), (m_stopAllQEvent s). }
  assert (∀ u tv, s_pending (t_sim s') !! u = Some tv ↔
    s_pending (t_sim s) !! u = Some tv ∧ m_stopAllQEvent s ≠ Some u ∧ m_updateNDLCEvent s ≠ Some u) as Hp.
  { intros u tv. subst s'. destruct (m_updateNDLCEvent s) as [u1|], (m_stopAllQEvent s) as [u2|]; cbn;
      rewrite ?lookup_delete_Some; naive_solver. }
  assert (no_stop s') as Hno1 by (intros u t (H & H1 & _)%Hp; by apply Hos in H).
  assert (no_update s') as Hno2 by (intros u t (H & _ & H1)%Hp; by apply Hou in H as [H _]).
  split; [|by split]. destruct (rest_eq _ _ Hr) as (Ei&Em&Es&_&_&_&_&_&_&E1&E2&_).
  constructor; rewrite ?Ei, ?Em, ?E1, ?E2, ?Hb, ?Huid; try done.
  - by apply tas_cancel, tas_cancel.
  - apply (steady_ext off clk s); try done; [by destruct (rest_eq _ _ Hr) as (_&_&_&_&_&_&_&_&_&_&_&Eg&_)| |].
    + intros u [t ev] H Hev. cbn in Hev. subst ev. apply Hp. split; [done|]. split; intros Hid; [by specialize (Hs u t _ Hid H)|by specialize (Hu u t _ Hid H)].
    + apply (eo_stamp _ _ _ (re_entries _ _ _ (ts_ready _ _ _ _ _ _ W))).
  - intros u t ev H1 (H2 & _)%Hp. by apply (Hs u t).
  - intros u t ev H1 (H2 & _)%Hp. by apply (Hu u t).
  - intros u t H. by apply Hno1 in H.
  - intros u t H. by apply Hno2 in H.
Qed.

Lemma session_schedule_stop s delay :
  session clk s → no_stop s → no_update s → 0 ≤ delay < 2 ^ 61 →
  ∃ u s', Schedule clk delay EvStopAllQueues s = Ok (Some u, s') ∧ session clk (set_m_stopAllQEvent (Some u) s') ∧
    no_update s' ∧ s_pending (t_sim s') !! u = Some (c_sim clk + delay, EvStopAllQueues) ∧ rest s' = rest s.
Proof using Hclk.
  intros [W Hsd Hin Hmp Hqu Hk Hs Hu Hos Hou] Hn1 Hn2 Hd.
  destruct (tas_schedule off M clk Hclk 0 0 delay EvStopAllQueues s W Hd) as (E & W' & _ & Hsd'). eexists _, _. split; [exact E|].
  split; [|split; [|split; [cbn; by rewrite lookup_insert_eq|done]]]; cycle 1.
  { intros u t H. cbn in H. apply lookup_insert_Some in H as [[_ ?]|[_ H]]; [done|]. by apply Hn2 in H. }
  match goal with |- session clk (set_m_stopAllQEvent ?x ?s1) =>
    destruct (tas_same s1 (set_m_stopAllQEvent x s1) W' eq_refl eq_refl eq_refl (ts_panding _ _ _ _ _ _ W)) as [W2 Hsd2] end.
  constructor; cbn; try done.
  - by apply Hsd2, Hsd'.
  - intros u [[= <-]|H]; [lia|]. specialize (Hk u (or_intror H)). lia.
  - intros u t ev [= <-] H. rewrite lookup_insert_eq in H. by simplify_eq.
  - intros u t ev H1 H2. specialize (Hk u (or_intror H1)). rewrite lookup_insert_ne in H2 by lia. by apply (Hu u t).
  - intros u t H. apply lookup_insert_Some in H as [[-> _]|[_ H]]; [done|]. by apply Hn1 in H.
  - intros u t H. apply lookup_insert_Some in H as [[_ ?]|[_ H]]; [done|]. by apply Hn2 in H.
Qed.

Lemma session_schedule_update s delay :
  session clk s → no_update s → 0 ≤ delay < 2 ^ 61 →
  (m_StoppAllQueues s = true ∨ ∃ v t', s_pending (t_sim s) !! v = Some (t', EvStopAllQueues) ∧ t' ≤ c_sim clk + delay) →
  ∃ u s', Schedule clk delay EvUpdateNetDeviceListConfig s = Ok (Some u, s') ∧ session clk (set_m_updateNDLCEvent (Some u) s').
Proof using Hclk.
  intros [W Hsd Hin Hmp Hqu Hk Hs Hu Hos Hou] Hn2 Hd Hstop.
  destruct (tas_schedule off M clk Hclk 0 0 delay EvUpdateNetDeviceListConfig s W Hd) as (E & W' & _ & Hsd'). eexists _, _. split; [exact E|].
  match goal with |- session clk (set_m_updateNDLCEvent ?x ?s1) =>
    destruct (tas_same s1 (set_m_updateNDLCEvent x s1) W' eq_refl eq_refl eq_refl (ts_panding _ _ _ _ _ _ W)) as [W2 Hsd2] end.
  pose proof (so_uid _ _ (re_sim _ _ _ (ts_ready _ _ _ _ _ _ W))) as Huid. constructor; cbn; try done.
  - by apply Hsd2, Hsd'.
  - intros u [H|[= <-]]; [|lia]. specialize (Hk u (or_introl H)). lia.
  - intros u t ev H1 H2. specialize (Hk u (or_introl H1)). rewrite lookup_insert_ne in H2 by lia. by apply (Hs u t).
  - intros u t ev [= <-] H. rewrite lookup_insert_eq in H. by simplify_eq.
  - intros u t H. apply lookup_insert_Some in H as [[_ ?]|[_ H]]; [done|]. by eapply Hos.
  - intros u t H. apply lookup_insert_Some in H as [[<- [= <-]]|[_ H]]; [|by apply Hn2 in H]. split; [done|].
    destruct Hstop as [?|(v & t' & Hv & Hle)]; [by right; left|right; right]. specialize (Huid v _ Hv). exists v, t'.
    rewrite lookup_insert_ne by lia. split; [done|]. destruct (Z.eq_dec t' (c_sim clk + delay)); [right|left]; lia.
Qed.

Section lists.
Context {D : Type} (n_tx_queues : D → option Z) (IsStopped : D → Z → bool) (m_send : Clock → Item → D → res D).
Context (Hsend : ∀ i d, ∃ d', m_send clk i d = Ok d').

Lemma UpdateNetDeviceListConfig_ok s d :
  session clk s → (∀ i gs, entry_states s !! i = Some gs → gs = mkGateState false 0) → no_update s →
  ∃ tr s' d', UpdateNetDeviceListConfig NS m_filters n_tx_queues IsStopped m_send clk s d = Ok (tr, s', d') ∧ session clk s'.
Proof using Hclk Hsend.
  intros S Hcl Hno. unfold UpdateNetDeviceListConfig. destruct (activate_ok s S Hcl Hno) as (s1 & -> & S1 & Hin & _). res_simpl. rewrite Hin.
  destruct (session_ListExecute s1 S1) as (s2 & -> & S2). res_simpl. by apply Run_ok.
Qed.

Lemma others_no_update s s' : others s s' → no_update s → no_update s'.
Proof. intros [_ Hold _] Hno u t H. destruct (Hold u _ H) as [H'|[_ ?]]; [by apply Hno in H'|done]. Qed.

Lemma SetNetDeviceListConfig_ok c s d :
  session clk s → config_ok c → m_length c * 10 ^ 6 < 2 ^ 61 → 0 ≤ m_configChangeTime c < 2 ^ 59 →
  ∃ tr s' d', SetNetDeviceListConfig NS m_filters n_tx_queues IsStopped m_send clk c s d = Ok (tr, s', d') ∧ session clk s'.
Proof using Hclk Hsend.
  intros S Hc Hl Hs. pose proof (se_inv _ _ _ S) as W. unfold SetNetDeviceListConfig.
  destruct (copy_conf c (m_pandingConfig s) PANDING Hc Hl Hs (ts_panding _ _ _ _ _ _ W)) as (c' & -> & Hc' & _ & E2 & _). res_simpl.
  set (s1 := set_m_pandingConfig (SetPandingStatus PANDING c') s).
  assert (session clk s1) as S1.
  { destruct (tas_same s s1 W eq_refl eq_refl eq_refl Hc') as [W1 Hsd1]. destruct S. constructor; try done. by apply Hsd1. }
  destruct (session_cancel s1 S1) as (S2 & Hn1 & Hn2). set (s2 := Cancel (m_updateNDLCEvent s1) (Cancel (m_stopAllQEvent s1) s1)) in *.
  assert (rest s2 = rest s1) as Hr2 by (subst s2; by destruct (m_updateNDLCEvent s1), (m_stopAllQEvent s1)).
  destruct (rest_eq _ _ Hr2) as (_&_&_&Ebw&Emt&_&_&Epc&_). change (m_updateNDLCEvent s2) with (m_updateNDLCEvent s2).
  replace (m_updateNDLCEvent (Cancel (m_stopAllQEvent s1) s1)) with (m_updateNDLCEvent s1) by (by destruct (m_stopAllQEvent s1)).
  fold s2. rewrite Epc, Ebw, Emt. cbn [s1 set_m_pandingConfig m_pandingConfig m_configChangeTime SetPandingStatus t_linkBandwidth m_Mtu].
  rewrite E2. pose proof (clk_bounds off clk Hclk s2) as [Hn0 Hnb]. pose proof (ts_M _ _ _ _ _ _ W). pose proof (ts_mtu _ _ _ _ _ _ W).
  change (2 ^ 16) with 65536 in *. rewrite int64_ok by lia. res_simpl.
  destruct (txtime_ok (t_linkBandwidth s) (m_Mtu s)) as [-> Ht]; [apply W|lia|]. res_simpl. change (10 ^ 9) with 1000000000 in Ht.
  set (tx := txtime (t_linkBandwidth s) (m_Mtu s)) in *. rewrite int64_ok by lia. res_simpl.
  destruct (Z.leb_spec (m_configChangeTime c - GetDeviceTime clk s2 - tx) 0).
  - destruct (StopAllQueues_ok False s2 S2) as (s3 & -> & S3 & Hst3 & Hcl3 & Ec3 & Ep3 & _ & _ & _ & _ & _ & Ho3). res_simpl.
    pose proof (others_no_update _ _ Ho3 Hn2) as Hn3.
    destruct (_ || _); [by apply UpdateNetDeviceListConfig_ok|].
    destruct (session_schedule_update s3 tx S3 Hn3) as (u & s4 & -> & S4); [lia|by left|]. res_simpl. by eexists _, _, d.
  - destruct (session_schedule_stop s2 (m_configChangeTime c - GetDeviceTime clk s2 - tx) S2 Hn1 Hn2)
      as (u & s3 & -> & S3 & Hn3 & Hp3 & _); [lia|]. res_simpl. rewrite int64_ok by lia. res_simpl.
    destruct (session_schedule_update (set_m_stopAllQEvent (Some u) s3) (m_configChangeTime c - GetDeviceTime clk s2 - tx + tx) S3 Hn3)
      as (u' & s4 & -> & S4); [lia|right; exists u; eexists; split; [exact Hp3|lia]|]. res_simpl. by eexists _, _, d.
Qed.

(** The next event: none is earlier, or at the same time and older. *)
Definition next_event (s : Tas) (u : nat) : Prop :=
  ∃ t ev, s_pending (t_sim s) !! u = Some (t, ev) ∧ t = c_sim clk ∧
    ∀ v t' ev', s_pending (t_sim s) !! v = Some (t', ev') → t < t' ∨ (t' = t ∧ (u ≤ v)%nat).

(** The event is taken from the pending ones. *)
Lemma session_fired s u t ev :
  session clk s → s_pending (t_sim s) !! u = Some (t, ev) → t = c_sim clk →
  (∀ v t' ev', s_pending (t_sim s) !! v = Some (t', ev') → t < t' ∨ (t' = t ∧ (u ≤ v)%nat)) →
  let s' := Cancel (Some u) s in
  sess (ev = EvStopAllQueues) clk s' ∧ (ev = EvUpdateNetDeviceListConfig → no_update s' ∧ m_StoppAllQueues s' = true).
Proof using Hclk.
  intros S Hu Ht Hmin s'. pose proof S as [W Hsd Hin Hmp Hqu Hk Hs Hup Hos Hou].
  assert (∀ v tv, s_pending (t_sim s') !! v = Some tv ↔ v ≠ u ∧ s_pending (t_sim s) !! v = Some tv) as Hp.
  { intros v tv. cbn. rewrite lookup_delete_Some. naive_solver. }
  split.
  - constructor; try done.
    + by apply (tas_cancel (Some u)).
    + destruct Hsd as [Hst Hw]. split; [exact Hst|]. intros j e g He Hg Hcl Hnx Hpk.
      specialize (Hw j e g He Hg Hcl Hnx Hpk). pose proof Hw as Hrun. apply IsRunning_spec in Hw as (v & Hv & [tv Hpv]).
      apply IsRunning_spec. exists v. split; [done|]. exists tv. apply Hp. split; [|done]. intros ->.
      pose proof (ts_ready _ _ _ _ _ _ W) as [R _ _]. pose proof (eo_stamp _ _ _ R j e He u tv Hv Hpv) as ->.
      assert (j ≠ 8)%nat as Hj by (apply lookup_lt_Some in He; cbn in He; pose proof (eo_length _ _ _ R); cbn in *; lia).
      pose proof (eo_run _ _ _ R j e He Hj Hrun) as Hts. rewrite Hu in Hpv. injection Hpv as Ht' _.
      change (GetDeviceTime clk s') with (GetDeviceTime clk s) in Hnx. rewrite (dev_time off clk) in Hnx by apply Hclk. lia.
    + intros v t' ev' H1 (_ & H2)%Hp. by apply (Hs v t').
    + intros v t' ev' H1 (_ & H2)%Hp. by apply (Hup v t').
    + intros v t' (_ & H)%Hp. by eapply Hos.
    + intros v t' (Hne & H)%Hp. destruct (Hou v t' H) as [H1 [[]|[H2|(v' & t'' & H2 & H3)]]]; (split; [done|]); [by right; left|].
      destruct (decide (v' = u)) as [->|Hne']; [left; by simplify_eq|right; right; exists v', t''; split; [by apply Hp|done]].
  - intros ->. destruct (Hou u t Hu) as [H1 [[]|[H2|(v & t' & H2 & H3)]]]; cycle 1.
    { destruct (Hmin v t' _ H2); lia. }
    split; [|exact H2]. intros v t' (Hne & H)%Hp. destruct (Hou v t' H) as [H1' _]. congruence.
Qed.

Lemma tas_fire_ok s u d :
  session clk s → next_event s u →
  ∃ tr s' d', fire NS m_filters n_tx_queues IsStopped m_send clk u s d = Ok (tr, s', d') ∧ session clk s'.
Proof using Hclk Hsend.
  intros S (t & ev & Hu & Ht & Hmin). unfold fire. rewrite Hu. cbn [deref mbind res_bind].
  destruct (session_fired s u t ev S Hu Ht Hmin) as (S1 & Hup). set (s1 := Cancel (Some u) s) in *. destruct ev.
  - apply (Run_ok n_tx_queues IsStopped m_send Hsend). destruct S1. constructor; try done. intros v t' H.
    destruct (se_only_update0 v t' H) as [H1 [?|H2]]; [done|]. split; [done|]. by right.
  - destruct (StopAllQueues_ok _ s1 S1) as (s2 & -> & S2 & _). res_simpl. by eexists _, s2, d.
  - destruct (Hup eq_refl) as [Hno Hst]. apply UpdateNetDeviceListConfig_ok; [| |done].
    + destruct S1. constructor; try done. intros v t' H. by apply Hno in H.
    + intros i gs Hi. by eapply (sd_stopped _ _ (se_steady _ _ _ S1) Hst).
Qed.
End lists.

(** ** Initialization *)

(** A queue disc that was constructed with the attributes and given a list, and is not
    initialized yet. *)
Record constructed (s : Tas) : Prop := {
  cs_classes : t_classes s = [];
  cs_entries : m_gateListConfig s = replicate 8 GateListEntry_new;
  cs_sim : s_pending (t_sim s) = ∅;
  cs_stop : m_StoppAllQueues s = false;
  cs_events : m_stopAllQEvent s = None ∧ m_updateNDLCEvent s = None;
  cs_base : ∃ maxSize quota, t_base s = base_new maxSize quota ∧ fits 32 quota;
  cs_mtu : 0 ≤ m_Mtu s ≤ M;
  cs_M : 1 ≤ M < 2 ^ 16;
  cs_rate : 0 < t_linkBandwidth s < 2 ^ 63;
  cs_keep : time_ok (t_keepAliveTime s);
  cs_delay : m_propagetiondelay s < 2 ^ 60;
  cs_current : conf_ok (m_currentConfig s);
  cs_panding : conf_ok (m_pandingConfig s)
}.

(** The child queue disc it creates. *)
Lemma new_class_ok s :
  1 ≤ M < 2 ^ 16 →
  ∃ g, new_class s GateListEntry_new = Ok g ∧ gate_of M s g ∧ held g = [] ∧ m_gateState g = mkGateState true (-1).
Proof.
  intros HM. unfold new_class, internal_queues. eexists. split; [reflexivity|]. split; [|done].
  constructor; cbn; try done. constructor; cbn; try done. constructor; cbn; try done. unfold PacketQueue.limit_ok. cbn. lia.
Qed.

Lemma new_classes_ok n i s :
  1 ≤ M < 2 ^ 16 → m_gateListConfig s = replicate 8 GateListEntry_new → (i + n = 8)%nat →
  ∃ l, new_classes n i s = Ok l ∧ length l = n ∧
    Forall (λ g, gate_of M s g ∧ held g = [] ∧ m_gateState g = mkGateState true (-1)) l.
Proof.
  intros HM He. revert i. induction n as [|n IH]; intros i Hi; cbn [new_classes]; [by exists []|].
  assert (at_ (m_gateListConfig s) i = Ok GateListEntry_new) as ->.
  { apply at_ok. rewrite He. apply lookup_replicate_2. lia. }
  res_simpl. destruct (new_class_ok s HM) as (g & -> & Hg). res_simpl. destruct (IH (S i)) as (l & -> & Hl & Hall); [lia|].
  res_simpl. exists (g :: l). cbn. split; [done|]. split; [lia|]. by constructor.
Qed.

Lemma tas_Initialize_ok s :
  constructed s →
  ∃ s', Initialize NS clk s = Ok s' ∧ session clk s' ∧ m_currentConfig s' = m_currentConfig s ∧
    helds s' = replicate 8 [] ∧ m_requeued (t_base s') = None ∧
    (0 < m_length (m_currentConfig s) → m_configChangeTime (m_currentConfig s) ≤ GetDeviceTime clk s →
     ∀ i gs, entry_states s' !! i = Some gs → 0 ≤ interval gs).
Proof using Hclk.
  intros [Hc He Hs Hst [Hv1 Hv2] (maxSize & quota & Hb & Hqu) Hmtu HM Hr Hk Hd Hcu Hpa].
  unfold Initialize, CheckConfig. rewrite Hc. cbn [length]. destruct (new_classes_ok 8 0 s HM He eq_refl) as (l & -> & Hl & Hall).
  res_simpl. cbn [ns_assert]. set (s1 := set_t_classes l s).
  assert (∀ f : Gate → Z, (∀ g, held g = [] → f g = 0) → sum_over f l = 0) as Hsum.
  { intros f Hf. clear -Hf Hall. induction Hall as [|g l (_ & Hg & _) _ IH]; cbn; [done|]. fold (sum_over f l). by rewrite Hf, IH. }
  assert (tas_st off M clk 0 0 s1) as W1.
  { constructor; try done.
    - constructor.
      + constructor; cbn; rewrite He; [done| | |].
        * intros i e Hi u tv Hu. apply lookup_replicate in Hi as [-> _]. done.
        * intros i e Hi _ Hrun. apply lookup_replicate in Hi as [-> _]. done.
        * intros i e u Hi Hu. apply lookup_replicate in Hi as [-> _]. done.
      + constructor; cbn; rewrite Hs; intros u *; by rewrite lookup_empty.
      + constructor; [done|]. unfold gate_states, entry_states. cbn. rewrite He. cbn.
        do 8 (destruct l as [|? l]; [done|]). destruct l; [|done]. repeat match goal with H : Forall _ (_ :: _) |- _ => apply Forall_cons in H as [(_ & _ & ?) H] end.
        cbn. by repeat match goal with H : m_gateState _ = _ |- _ => rewrite H; clear H end.
    - cbn. eapply Forall_impl; [exact Hall|]. intros g [[] _]. by constructor.
    - change (acct (t_base s) (sum_over n_held l) (sum_over b_held l) 0 0). rewrite !Hsum, Hb; [apply acct_new| |]; intros g Hg; unfold n_held, b_held; by rewrite Hg.
    - cbn. by rewrite Hb.
    - intros i gs Hi. unfold entry_states in Hi. cbn in Hi. rewrite He, fmap_replicate in Hi. apply lookup_replicate in Hi as [-> _].
      by apply status_unscheduled. }
  unfold TasQueueDisc.InitializeParams.
  destruct (ListExecute_inv off M clk Hclk 0 0 s1 W1) as (s2 & -> & W2 & Hf & Ho & Hex & Hsame). res_simpl.
  destruct (frame_eq _ _ Hf) as (Eb&_&Ei&Emp&Ess&Er&Em&_&_&Ep&Ec&E1&E2&Eg&_).
  change (t_base s1) with (t_base s) in Eb. change (m_stopAllQEvent s1) with (m_stopAllQEvent s) in E1.
  change (m_updateNDLCEvent s1) with (m_updateNDLCEvent s) in E2. change (m_currentConfig s1) with (m_currentConfig s) in Ec.
  assert (length (t_classes s2) = 8%nat) as -> by (apply (sy_classes _ (re_synced _ _ _ (ts_ready _ _ _ _ _ _ W2)))).
  cbn [prio_map]. eexists. split; [done|].
  assert (m_StoppAllQueues s2 = false) as Hs2 by (by rewrite Ess).
  assert (helds s2 = replicate 8 []) as Hh2.
  { rewrite (helds_frame s1 s2) by done. unfold helds. cbn. do 8 (destruct l as [|? l]; [done|]). destruct l; [|done].
    repeat match goal with H : Forall _ (_ :: _) |- _ => apply Forall_cons in H as [(_ & ? & _) H] end. cbn. by repeat f_equal. }
  split; [|split; [done|split; [done|split; [cbn; by rewrite Eb, Hb|]]]]; cycle 1.
  { intros Hlen Hstart i gs Hi. change (entry_states _) with (entry_states s2) in Hi.
    pose proof (executed_fresh off clk _ _ s1 s2 i gs (Hex Hst Hlen Hstart) Hi) as Hfr. pose proof (clk_bounds off clk Hclk s1).
    assert (i < 8)%nat as Hi8.
    { apply lookup_lt_Some in Hi. unfold entry_states in Hi. rewrite length_fmap, (eo_length _ _ _ (re_entries _ _ _ (ts_ready _ _ _ _ _ _ W2))) in Hi. done. }
    destruct (Hex Hst Hlen Hstart) as [_ _ _ Hstates _ _]. specialize (Hstates i gs Hi8 Hi). rewrite decide_False in Hstates by lia.
    destruct Hstates as [[-> _]|[? _ _ _]]; [done|lia]. }
  constructor; cbn; rewrite ?E1, ?E2, ?Eb, ?Hv1, ?Hv2; try done.
  - destruct W2. constructor; try done; [|by eapply Forall_impl; [exact ts_gates|intros g []; by constructor]].
    destruct ts_ready as [[] [] []]. constructor; by constructor.
  - split; [done|]. intros j e g Hj Hg Hcl Hnx Hp. exfalso. cbn in Hg. change (m_gateListConfig _) with (m_gateListConfig s2) in Hj.
    rewrite (gate_count off M clk Hclk 0 0 s2 j g W2 Hg) in Hp. pose proof (helds_class s2 j g Hg) as Hh. rewrite Hh2 in Hh.
    apply lookup_replicate in Hh as [Hh _]. rewrite Hh in Hp. cbn in Hp. lia.
  - cbn. by rewrite Hb.
  - intros u [?|?]; done.
  - intros u t Hp. destruct (ot_old _ _ Ho u _ Hp) as [Hp'|[_ ?]]; [|done]. cbn in Hp'. rewrite Hs in Hp'. by rewrite lookup_empty in Hp'.
  - intros u t Hp. destruct (ot_old _ _ Ho u _ Hp) as [Hp'|[_ ?]]; [|done]. cbn in Hp'. rewrite Hs in Hp'. by rewrite lookup_empty in Hp'.
Qed.
End now.
End session.
