(* ===== verification/TasTheorems.v ===== *)
(** * The time aware shaper: theorems

    What the shaper promises, in every state it can be in after its initialization. *)

From stdpp Require Import strings.
From S2P Require Import Prelude NsTime QueueDisc GateList TransmissionGate QueueDiscCorrect GateCorrect.
From S2P Require Import TasQueueDisc TasSchedule TasEvents TasGates TasCorrect TasSession.
From S2P Require PacketQueue.
Local Open Scope Z_scope.

Section reachable.
Context (off M : Z) (m_filters : list (Item → Z)).
Context {D : Type} (n_tx_queues : D → option Z) (IsStopped : D → Z → bool) (m_send : Clock → Item → D → res D).

(** A list for the device: its times do not overflow. *)
Definition list_ok (c : NetDeviceListConfig) : Prop :=
  config_ok c ∧ m_length c * 10 ^ 6 < 2 ^ 61 ∧ 0 ≤ m_configChangeTime c < 2 ^ 59.

(** What can happen to an initialized queue disc: time passes, up to the next event; a packet
    is enqueued; it is run; it is given a list; an event runs; the channel changes. *)
Inductive step : Clock * Tas * D → Clock * Tas * D → Prop :=
  | step_time clk clk' s d :
      clk_ok off clk' → c_sim clk ≤ c_sim clk' →
      (∀ u t ev, s_pending (t_sim s) !! u = Some (t, ev) → c_sim clk' ≤ t) →
      step (clk, s, d) (clk', s, d)
  | step_enqueue clk s d i r tr s' :
      1 ≤ it_size i → QueueDisc.Enqueue (QueueDiscImpl0 := Tas_impl NS m_filters) clk i s = Ok (r, tr, s') →
      step (clk, s, d) (clk, s', d)
  | step_run clk s d tr s' d' :
      Run NS m_filters n_tx_queues IsStopped m_send clk s d = Ok (tr, s', d') → step (clk, s, d) (clk, s', d')
  | step_list clk s d c tr s' d' :
      list_ok c →
      SetNetDeviceListConfig NS m_filters n_tx_queues IsStopped m_send clk c s d = Ok (tr, s', d') →
      step (clk, s, d) (clk, s', d')
  | step_fire clk s d u tr s' d' :
      next_event clk s u → fire NS m_filters n_tx_queues IsStopped m_send clk u s d = Ok (tr, s', d') →
      step (clk, s, d) (clk, s', d')
  | step_channel clk s d st : step (clk, s, d) (clk, set_m_channel st s, d).

(** The states after the initialization. *)
Inductive reachable : Clock → Tas → D → Prop :=
  | reach_init clk s0 s d :
      clk_ok off clk → constructed M s0 → Initialize NS clk s0 = Ok s → reachable clk s d
  | reach_step clk s d clk' s' d' :
      reachable clk s d → step (clk, s, d) (clk', s', d') → reachable clk' s' d'.

Context (Hsend : ∀ clk i d, ∃ d', m_send clk i d = Ok d').

Lemma session_channel clk s st : sess off M False clk s → sess off M False clk (set_m_channel st s).
Proof.
  intros [W Hsd ? ? ? ? ? ? ? ?]. constructor; try done.
  - destruct W. constructor; try done; first [by eapply Forall_impl; [exact ts_gates|intros g []; by constructor]|idtac].
    destruct ts_ready as [[] [] []]. constructor; by constructor.
  - destruct Hsd. by constructor.
Qed.

Definition good (p : Clock * Tas * D) : Prop :=
  let '(clk, s, _) := p in clk_ok off clk ∧ sess off M False clk s.

Lemma step_good p p' : good p → step p p' → good p'.
Proof using Hsend.
  intros G Hstep.
  destruct Hstep as [clk clk' s d|clk s d i r tr s' Hi E0|clk s d tr s' d' E0|clk s d c tr s' d' (? & ? & ?) E0|clk s d u tr s' d' Hu E0|clk s d st];
    destruct G as [Hclk S]; (split; [done|]).
  - by apply (session_later off M clk).
  - destruct (Enqueue_inv off M clk Hclk m_filters i s (se_inv _ _ _ _ _ S) (se_steady _ _ _ _ _ S) (se_map _ _ _ _ _ S))
      as (r' & tr' & s1 & E & W & Hsd & (Hr & Ho & _ & _ & Hq) & _); [done|].
    rewrite E0 in E. injection E as <- <- <-. apply (session_kept off M clk s); done.
  - destruct (Run_ok off M m_filters clk Hclk n_tx_queues IsStopped m_send (Hsend clk) s d S) as (tr' & s1 & d1 & E & S1).
    rewrite E0 in E. by injection E as <- <- <-.
  - destruct (SetNetDeviceListConfig_ok off M m_filters clk Hclk n_tx_queues IsStopped m_send (Hsend clk) c s d S)
      as (tr' & s1 & d1 & E & S1); try done. rewrite E0 in E. by injection E as <- <- <-.
  - destruct (tas_fire_ok off M m_filters clk Hclk n_tx_queues IsStopped m_send (Hsend clk) s u d S Hu) as (tr' & s1 & d1 & E & S1).
    rewrite E0 in E. by injection E as <- <- <-.
  - by apply session_channel.
Qed.

(** The invariant holds in every reachable state. *)
Lemma reachable_session clk s d : reachable clk s d → clk_ok off clk ∧ sess off M False clk s.
Proof using Hsend.
  induction 1 as [clk s0 s d Hclk Hc Hi|clk s d clk' s' d' _ IH Hstep]; [|exact (step_good (clk, s, d) (clk', s', d') IH Hstep)].
  split; [done|]. destruct (tas_Initialize_ok off M clk Hclk s0 Hc) as (s' & E & S & _). congruence.
Qed.

(** A gate that lets a packet go is open until it has been sent. *)
Lemma answers_window clk s j i :
  clk_ok off clk → answers s (GetDeviceTime clk s) j i true → ¬ unscheduled s j →
  let now := GetDeviceTime clk s in
  ∀ u, now ≤ u < now + txtime (t_linkBandwidth s) (it_size i) → sched_open (m_currentConfig s) j u.
Proof.
  intros Hclk (gs & Hst & Hfr & Hrel & Hun) Hs now u Hu. unfold releases in Hrel.
  pose proof (clk_bounds off clk Hclk s) as [Hn _]. fold now in Hn, Hst, Hfr, Hrel.
  apply andb_true_iff in Hrel as [Hopen Hrel]. destruct Hst as [E|E|? ? ? Huntil _]; [by destruct (Hs (Hun E))|by subst gs|].
  destruct Hfr as [->|[->|Hlt]]; [cbn in *; lia|cbn in *; lia|].
  apply Huntil; [|done]. apply orb_true_iff in Hrel as [?%Z.leb_le|?%Z.leb_le]; lia.
Qed.
End reachable.



(** C3 The guard band and the priorities: in every state the shaper can be in (before 2^60 fs, about 1152 s), while it is not
    transmitting and holds no requeued packet, dequeueing returns; a packet it hands out is the oldest of its class that has
    not expired, and from now until it has been sent completely the gate of the class is open
    by the list in force (a class no list was in force for yet has no such limit); of no higher
    class is there a packet its gate would let go, and none is handed out only if that holds of
    all classes. *)
Theorem tas_guard_band off M m_filters {D} (n_tx_queues : D → option Z) IsStopped m_send clk s d :
  (∀ clk i d, ∃ d', m_send clk i d = Ok d') →
  reachable off M m_filters n_tx_queues IsStopped m_send clk s d →
  m_requeued (t_base s) = None → busy s = false →
  let now := GetDeviceTime clk s in
  ∃ r tr s', QueueDisc.Dequeue (QueueDiscImpl0 := Tas_impl NS m_filters) clk s = Ok (r, tr, s') ∧
    match r with
    | Some i => ∃ k h h', (k < 8)%nat ∧ helds s !! k = Some h ∧ helds s' !! k = Some h' ∧
        live now (t_keepAliveTime s) h = i :: h' ∧
        (¬ unscheduled s k → ∀ u, now ≤ u < now + txtime (t_linkBandwidth s) (it_size i) →
           sched_open (m_currentConfig s) k u) ∧
        ∀ j, (k < j < 8)%nat → held_back s s' now j
    | None => ∀ j, (j < 8)%nat → held_back s s' now j
    end.
Proof.
  intros Hsend Hr Hreq Hbusy now. destruct (reachable_session _ _ _ _ _ _ Hsend _ _ _ Hr) as [Hclk S].
  destruct (Dequeue_inv off M clk Hclk m_filters s (se_inv _ _ _ _ _ S) (se_steady _ _ _ _ _ S) Hreq)
    as (r & tr & s' & E & _ & _ & _ & Hp).
  rewrite Hbusy in Hp. exists r, tr, s'. split; [done|]. destruct r as [i|]; [|exact Hp].
  destruct Hp as (k & Hk & (h & h' & H1 & H2 & H3 & Ha) & Hrest). exists k, h, h'. conj; try done.
  intros Hun. by apply (answers_window off).
Qed.


(** ** A device with two entries: for 10 ms gates 0 and 1 are open, for 5 ms gates 0 and 3 *)

Definition ok_or {A} (d : A) (r : res A) : A := match r with Ok a => a | _ => d end.
Definition ex_list : list entry :=
  [(10000000, [true; true; false; false; false; false; false; false]);
   (5000000, [true; false; false; true; false; false; false; false])].
Definition ex_config (es : list entry) : NetDeviceListConfig := ok_or Config_new (add_all es Config_new).
Definition ex_new (c : NetDeviceListConfig) : Tas :=
  mkTas (base_new (PacketQueue.mkQueueSize PacketQueue.PACKETS 800) 64) [] false (replicate 8 GateListEntry_new)
    (replicate 8 0%nat) false 1500000000 1500 0 10000000000 Config_new c None None true None None (mkSim 0 ∅).
Definition ex_clk (t : Z) : Clock := mkClock t t.
Definition ex_init (c : NetDeviceListConfig) : Tas := ok_or (ex_new c) (Initialize NS (ex_clk 0) (ex_new c)).
Definition ex_item (ptr prio : Z) : Item := mkItem ptr 1500 0 0 (Some prio).
Definition ex_enqueue (t : Z) (i : Item) (s : Tas) : bool * list trace * Tas :=
  ok_or (false, [], s) (QueueDisc.Enqueue (QueueDiscImpl0 := Tas_impl NS []) (ex_clk t) i s).
Definition ex_dequeue (t : Z) (s : Tas) : option Item * list trace * Tas :=
  ok_or (None, [], s) (QueueDisc.Dequeue (QueueDiscImpl0 := Tas_impl NS []) (ex_clk t) s).
Definition ex_send (clk : Clock) (i : Item) (d : unit) : res unit := Ok d.
(** A packet of class 1, which may leave, and one of class 3, which has to wait. *)
Definition ex_s1 : Tas := (ex_enqueue 0 (ex_item 1 1) (ex_init (ex_config ex_list))).2.
Definition ex_s : Tas := (ex_enqueue 0 (ex_item 2 3) ex_s1).2.

Lemma ex_clk_ok : clk_ok 0 (ex_clk 0).
Proof. by constructor. Qed.

Lemma ex_config_ok es : Forall entry_ok es → cycle es * 10 ^ 6 < 2 ^ 61 → conf_ok (ex_config es) ∧ conf_ok Config_new.
Proof.
  intros He Hc. pose proof (cycle_pos es He).
  destruct (add_all_ok es Config_new He Config_new_ok) as (c & E & W & Hl & Ht & Hep & _); [cbn; lia|].
  unfold ex_config. rewrite E. cbn [ok_or]. split; constructor; try done; first [rewrite Hl; cbn; lia|rewrite Ht; done|apply Config_new_ok].
Qed.

Lemma ex_constructed : constructed 1500 (ex_new (ex_config ex_list)).
Proof.
  destruct (ex_config_ok ex_list) as [H1 H2]; [repeat constructor|by vm_compute|].
  constructor; try done; first [by eexists _, _|by vm_compute|idtac].
Qed.

Lemma ex_reachable :
  reachable 0 1500 [] (λ _, Some 1) (λ _ _, false) ex_send (ex_clk 0) ex_s tt.
Proof.
  apply (reach_step 0 1500 [] (λ _ : unit, Some 1) (λ _ _, false) ex_send (ex_clk 0) ex_s1 tt).
  - apply (reach_step 0 1500 [] (λ _ : unit, Some 1) (λ _ _, false) ex_send (ex_clk 0) (ex_init (ex_config ex_list)) tt).
    + eapply (reach_init _ _ _ _ _ _ _ (ex_new (ex_config ex_list))); [exact ex_clk_ok|exact ex_constructed|].
      by vm_compute.
    + eapply (step_enqueue _ _ _ _ _ (ex_clk 0) (ex_init (ex_config ex_list)) tt (ex_item 1 1)); [done|by vm_compute].
  - eapply (step_enqueue _ _ _ _ _ (ex_clk 0) ex_s1 tt (ex_item 2 3)); [done|by vm_compute].
Qed.


Lemma ex_scheduled j : ¬ unscheduled ex_s j.
Proof. intros H. do 8 (destruct j as [|j]; [by vm_compute in H|]). by vm_compute in H. Qed.

Lemma tas_guard_band_witness :
  (ex_dequeue 0 ex_s).1.1 = Some (ex_item 1 1) ∧ ∀ u, 0 ≤ u < 8000 → ∃ k, sched_open (ex_config ex_list) k u.
Proof.
  destruct (tas_guard_band 0 1500 [] (λ _ : unit, Some 1) (λ _ _, false) ex_send (ex_clk 0) ex_s tt) as (r & tr & s' & E & H);
    [by eexists|exact ex_reachable|by vm_compute|by vm_compute|].
  assert ((ex_dequeue 0 ex_s).1.1 = r) as Hr. { unfold ex_dequeue. by rewrite E. }
  assert ((ex_dequeue 0 ex_s).1.1 = Some (ex_item 1 1)) as Hr2 by by vm_compute.
  split; [exact Hr2|]. rewrite Hr2 in Hr. subst r.
  destruct H as (k & h & h' & _ & _ & _ & _ & Ho & _). intros u Hu. exists k. apply Ho; [apply ex_scheduled|].
  assert (GetDeviceTime (ex_clk 0) ex_s = 0) as -> by by vm_compute.
  assert (txtime (t_linkBandwidth ex_s) (it_size (ex_item 1 1)) = 8000) as -> by by vm_compute. lia.
Defined.


(** A list all of whose gates open again, and one that starts at 5 us. *)
Definition ex_list2 : list entry :=
  [(10000000, replicate 8 true); (5000000, [true; false; false; false; false; false; false; false])].
Definition ex_late : NetDeviceListConfig := SetConfigChangeTime 5000 (ex_config ex_list2).
(** The list is given to the queue disc before its initialization, at 0. *)
Definition ex_s2 : Tas := ok_or (ex_new Config_new)
  ('(_, s, _) ← SetNetDeviceListConfig NS [] (λ _ : unit, Some 1) (λ _ _, false) ex_send (ex_clk 0) ex_late (ex_new Config_new) tt;
   Initialize NS (ex_clk 0) s).
Definition ex_peek (t : Z) (s : Tas) : option Item * list trace * Tas :=
  ok_or (None, [], s) (QueueDisc.Peek (QueueDiscImpl0 := Tas_impl NS []) (ex_clk t) s).

(** The windows of a gate, computed. *)
Lemma sched_open_iff c i t o cl :
  windows (default Gates_Clear (m_netDeviceListConfig c !! i)) = [(o, cl)] →
  sched_open c i t ↔
    0 ≤ t - m_configChangeTime c - m_epoch c ∧ o ≤ (t - m_configChangeTime c - m_epoch c) mod m_length c < cl.
Proof.
  unfold sched_open, gate_open. destruct (m_netDeviceListConfig c !! i) as [g|]; cbn; [intros Hw|done].
  split; intros [? H]; (split; [done|]).
  - destruct H as (? & [= <-] & H). rewrite Hw in H. by apply open_in_single.
  - exists g. split; [done|]. rewrite Hw. by apply open_in_single.
Qed.

(** Three things the shaper does not do.  Peeking updates the gates only when the next
    change is still to come, so that 12 ms after the start of the list it shows a packet of
    class 1, whose gate closed at 10 ms.  A packet that arrives in an empty class too late to
    be sent before its gate closes stays there with no run scheduled for it, also after a run
    of the queue disc, although the gate opens again at 15 ms.  When a list is given before the initialization and its
    change time is less than the transmission time of a largest packet away, the gates are
    still all open at 12 ms, whatever the list says, and a packet of class 1 is handed out. *)
Theorem tas_gaps :
  ((ex_peek 12000000 ex_s).1.1 = Some (ex_item 1 1) ∧ ¬ sched_open (m_currentConfig ex_s) 1 12000000) ∧
  (let s := (ex_enqueue 9999000 (ex_item 1 1) (ex_init (ex_config ex_list2))).2 in
   let '(r, _, s') := ex_dequeue 9999000 s in
   r = None ∧ helds s' !! 1%nat = Some [mkItem 1 1500 9999000 0 (Some 1)] ∧
   s_pending (t_sim s') = ∅ ∧ sched_open (m_currentConfig s') 1 15000000) ∧
  (let s := (ex_enqueue 12000000 (ex_item 1 1) ex_s2).2 in
   (ex_dequeue 12000000 s).1.1 = Some (mkItem 1 1500 12000000 0 (Some 1)) ∧
   s_pending (t_sim s) = ∅ ∧ t_initialized s = true ∧ m_currentConfig s = SetPandingStatus ACTIVE ex_late ∧
   ¬ sched_open (m_currentConfig s) 1 12000000).
Proof.
  split; [split|split].
  - by vm_compute.
  - rewrite (sched_open_iff _ _ _ 0 10000000) by by vm_compute. vm_compute. intuition congruence.
  - cbv zeta. rewrite (surjective_pairing (ex_dequeue _ _)), (surjective_pairing (ex_dequeue _ _).1).
    split; [by vm_compute|]. split; [by vm_compute|]. split; [by vm_compute|].
    rewrite (sched_open_iff _ _ _ 0 10000000) by by vm_compute. vm_compute. intuition congruence.
  - cbv zeta. split; [by vm_compute|]. split; [by vm_compute|]. split; [by vm_compute|]. split; [by vm_compute|].
    rewrite (sched_open_iff _ _ _ 0 10000000) by by vm_compute. vm_compute. intuition congruence.
Qed.
