(* ===== verification/IpFragments.v ===== *)
(** * Fragmentation and reassembly of IPv4 packets
      (src/src/internet/model/ipv4-l3-protocol.cc, ipv4-l3-protocol.h)

    [DoFragmentation], the buffers of received fragments and their timeouts.  A packet is its
    bytes: that [Buffer] keeps the content of packets through [CreateFragment] and [AddAtEnd]
    is what BufferTheorems shows; tags and metadata are left out. *)

From S2P Require Import Prelude Buffer BufferCorrect Ipv4Address Ipv4Header NsTime.
Local Open Scope Z_scope.

Definition Packet : Type := list Z.

Definition psize (p : Packet) : Z := Z.of_nat (length p).

(** [packet.cc:237-253] Packet::CreateFragment

    The buffer is cut at the start, which may be all of it, and at the end. *)
Definition Packet_CreateFragment (start length : Z) (p : Packet) : res Packet :=
  ns_assert (u32 (start + length) <=? psize p) ≫= λ _,
  let tmp := drop (Z.to_nat start) p in
  let end_ := u32 (psize p - u32 (start + length)) in
  Ok (take (Z.to_nat (psize tmp - end_)) tmp).

(** [packet.cc:353-364] Packet::AddAtEnd *)
Definition Packet_AddAtEnd (packet p : Packet) : Packet := p ++ packet.

(** ** Fragmentation *)

(** [ipv4-l3-protocol.cc:1509-1559] Ipv4L3Protocol::DoFragmentation

    The loop, with the fragments that are added to the list. *)
Fixpoint DoFragmentation_loop (fuel : nat) (checksumEnabled : bool) (p : Packet) (ipv4Header : Ipv4Header)
    (fragmentSize originalOffset : Z) (isLastFragment : bool) (offset : Z) : res (list (Packet * Ipv4Header)) :=
  match fuel with
  | O => Err OutOfFuel
  | S fuel =>
      let '(moreFragment, currentFragmentablePartSize, fragmentHeader) :=
        if u32 (offset + fragmentSize) <? psize p then (true, fragmentSize, SetMoreFragments ipv4Header)
        else (false, u32 (psize p - offset),
              if negb isLastFragment then SetMoreFragments ipv4Header else SetLastFragment ipv4Header) in
      fragment ← Packet_CreateFragment offset currentFragmentablePartSize p;
      fragmentHeader ← SetFragmentOffset (u16 (offset + originalOffset)) fragmentHeader;
      let fragmentHeader := SetPayloadSize (u16 currentFragmentablePartSize) fragmentHeader in
      let fragmentHeader := if checksumEnabled then EnableChecksum fragmentHeader else fragmentHeader in
      listFragments ← (if moreFragment then
                         DoFragmentation_loop fuel checksumEnabled p ipv4Header fragmentSize originalOffset
                           isLastFragment (u16 (offset + currentFragmentablePartSize))
                       else Ok []);
      Ok ((fragment, fragmentHeader) :: listFragments)
  end.

(** [ipv4-l3-protocol.cc] Ipv4L3Protocol::DoFragmentation *)
Definition DoFragmentation (fuel : nat) (checksumEnabled : bool) (packet : Packet) (ipv4Header : Ipv4Header)
    (outIfaceMtu : Z) : res (list (Packet * Ipv4Header)) :=
  ns_assert (Ipv4Header.GetSerializedSize ipv4Header =? 5 * 4) ≫= λ _,
  let fragmentSize := Z.land (u32 (outIfaceMtu - Ipv4Header.GetSerializedSize ipv4Header)) (u32 (Z.lnot 0x7)) in
  DoFragmentation_loop fuel checksumEnabled packet ipv4Header fragmentSize (GetFragmentOffset ipv4Header)
    (IsLastFragment ipv4Header) 0.

(** Enough iterations: every fragment but the last has at least eight bytes. *)
Definition fragmentation_fuel (packet : Packet) : nat := S (length packet).

(** [ipv4-l3-protocol.cc:1018-1036] Ipv4L3Protocol::SendRealOut

    What is given to the interface. *)
Definition SendRealOut_frames (checksumEnabled : bool) (mtu : Z) (packet : Packet) (ipHeader : Ipv4Header) :
    res (list (Packet * Ipv4Header)) :=
  if mtu <? u32 (psize packet + Ipv4Header.GetSerializedSize ipHeader) then
    DoFragmentation (fragmentation_fuel packet) checksumEnabled packet ipHeader mtu
  else Ok [(packet, ipHeader)].

(** ** The buffer of a fragmented packet *)

(** [ipv4-l3-protocol.h:540-601] Ipv4L3Protocol::Fragments

    The iterator is the identity of an entry of the list of timeouts. *)
Record Fragments := mkFragments {
  m_moreFragment : bool;
  f_fragments : list (Packet * Z);
  m_timeoutIter : nat
}.

(** [ipv4-l3-protocol.cc] Ipv4L3Protocol::Fragments::Fragments

    With the iterator [SetTimeoutIter] gives it. *)
Definition Fragments_new (iter : nat) : Fragments := mkFragments false [] iter.

(** [ipv4-l3-protocol.cc] Ipv4L3Protocol::Fragments::AddFragment *)
Definition AddFragment (fragment : Packet) (fragmentOffset : Z) (moreFragment : bool) (f : Fragments) : Fragments :=
  let at_end := forallb (λ x : Packet * Z, negb (fragmentOffset <? x.2)) (f_fragments f) in
  mkFragments (if at_end then moreFragment else m_moreFragment f)
    (insert_before (λ new i : Packet * Z, new.2 <? i.2) (fragment, fragmentOffset) (f_fragments f)) (m_timeoutIter f).

(** [ipv4-l3-protocol.cc:1651-1668] Ipv4L3Protocol::Fragments::IsEntire

    The loop. *)
Fixpoint IsEntire_loop (lastEndOffset : Z) (l : list (Packet * Z)) : bool :=
  match l with
  | [] => true
  | (p, offset) :: l =>
      if lastEndOffset <? offset then false
      else
        let fragmentEnd := u16 (psize p + offset) in
        IsEntire_loop (Z.max lastEndOffset fragmentEnd) l
  end.

(** [ipv4-l3-protocol.cc] Ipv4L3Protocol::Fragments::IsEntire *)
Definition IsEntire (f : Fragments) : bool :=
  if negb (m_moreFragment f) && negb (bool_decide (f_fragments f = [])) then IsEntire_loop 0 (f_fragments f)
  else false.

(** [ipv4-l3-protocol.cc:1683-1705] Ipv4L3Protocol::Fragments::GetPacket

    The loop. *)
Fixpoint GetPacket_loop (p : Packet) (lastEndOffset : Z) (l : list (Packet * Z)) : res Packet :=
  match l with
  | [] => Ok p
  | (q, offset) :: l =>
      p ← (if offset <? lastEndOffset then
             let newStart := lastEndOffset - offset in
             if newStart <? psize q then
               let newSize := psize q - newStart in
               tempFragment ← Packet_CreateFragment newStart newSize q;
               Ok (Packet_AddAtEnd tempFragment p)
             else Ok p
           else Ok (Packet_AddAtEnd q p));
      GetPacket_loop p (u16 (psize p)) l
  end.

(** [ipv4-l3-protocol.cc] Ipv4L3Protocol::Fragments::GetPacket *)
Definition GetPacket (f : Fragments) : res Packet :=
  match f_fragments f with
  | [] => Err Undefined
  | (p, _) :: l => GetPacket_loop p (u16 (psize p)) l
  end.

(** [ipv4-l3-protocol.cc:1727-1742] Ipv4L3Protocol::Fragments::GetPartialPacket

    The loop. *)
Fixpoint GetPartialPacket_loop (p : Packet) (lastEndOffset : Z) (l : list (Packet * Z)) : res Packet :=
  match l with
  | [] => Ok p
  | (q, offset) :: l =>
      p ← (if offset <? lastEndOffset then
             let newStart := lastEndOffset - offset in
             let newSize := u32 (psize q - newStart) in
             tempFragment ← Packet_CreateFragment newStart newSize q;
             Ok (Packet_AddAtEnd tempFragment p)
           else if lastEndOffset =? offset then Ok (Packet_AddAtEnd q p)
           else Ok p);
      GetPartialPacket_loop p (u16 (psize p)) l
  end.

(** [ipv4-l3-protocol.cc] Ipv4L3Protocol::Fragments::GetPartialPacket *)
Definition GetPartialPacket (f : Fragments) : res Packet :=
  match f_fragments f with
  | [] => Err Undefined
  | (_, first) :: _ => if 0 <? first then Ok [] else GetPartialPacket_loop [] 0 (f_fragments f)
  end.

(** ** The buffers of a node and their timeouts *)

(** [ipv4-l3-protocol.h:501-502] FragmentKey_t *)
Definition FragmentKey_t : Type := Z * Z.

(** [ipv4-l3-protocol.h:504-506] FragmentsTimeoutsList_t

    An entry of the list with its identity. *)
Record TimeoutEntry := mkTimeout {
  to_iter : nat;
  to_time : Z;
  to_key : FragmentKey_t;
  to_header : Ipv4Header;
  to_iif : Z
}.

(** [ipv4-l3-protocol.h:606-607] Ipv4L3Protocol::m_fragments

    The members reassembly uses.  [m_timeoutEvents] are the times of the calls of
    [HandleTimeout] that are pending: a new one does not cancel the one before. *)
Record Reassembly := mkReassembly {
  m_fragments : gmap FragmentKey_t Fragments;
  m_fragmentExpirationTimeout : Z;
  m_timeoutEventList : list TimeoutEntry;
  m_timeoutEvents : list Z;
  next_iter : nat
}.

(** What a timeout shows to the outside: the drop of a packet and a message to its sender. *)
Inductive Notice :=
  | Dropped (header : Ipv4Header) (packet : Packet) (iif : Z)
  | SentTimeExceededTtl (header : Ipv4Header) (packet : Packet).

(** [ipv4-l3-protocol.cc:1566-1575] Ipv4L3Protocol::ProcessFragment

    The key of a packet. *)
Definition fragment_key (h : Ipv4Header) : FragmentKey_t :=
  (Z.lor (Z.shiftl (m_address (m_source h)) 32) (m_address (m_destination h)),
   Z.lor (u32 (Z.shiftl (m_identification h) 16)) (m_protocol h)).

(** [ipv4-l3-protocol.cc] Ipv4L3Protocol::SetTimeout *)
Definition SetTimeout (now : Z) (key : FragmentKey_t) (ipHeader : Ipv4Header) (iif : Z) (s : Reassembly) :
    res (nat * Reassembly) :=
  t ← int64 (now + m_fragmentExpirationTimeout s);
  let events := if bool_decide (m_timeoutEventList s = []) then
                  m_timeoutEvents s ++ [now + m_fragmentExpirationTimeout s] else m_timeoutEvents s in
  Ok (next_iter s,
      mkReassembly (m_fragments s) (m_fragmentExpirationTimeout s)
        (m_timeoutEventList s ++ [mkTimeout (next_iter s) t key ipHeader iif]) events (S (next_iter s))).

(** [m_timeoutEventList.erase(iter)]. *)
Definition erase_timeout (iter : nat) (s : Reassembly) : res Reassembly :=
  '(_, l) ← deref (erase_first (λ e, (to_iter e =? iter)%nat) (m_timeoutEventList s));
  Ok (mkReassembly (m_fragments s) (m_fragmentExpirationTimeout s) l (m_timeoutEvents s) (next_iter s)).

Definition put_fragments (m : gmap FragmentKey_t Fragments) (s : Reassembly) : Reassembly :=
  mkReassembly m (m_fragmentExpirationTimeout s) (m_timeoutEventList s) (m_timeoutEvents s) (next_iter s).

(** [ipv4-l3-protocol.cc] Ipv4L3Protocol::ProcessFragment

    The packet when it is complete. *)
Definition ProcessFragment (now : Z) (packet : Packet) (ipHeader : Ipv4Header) (iif : Z) (s : Reassembly) :
    res (option Packet * Reassembly) :=
  let key := fragment_key ipHeader in
  '(fragments, s) ←
    match m_fragments s !! key with
    | None =>
        '(iter, s) ← SetTimeout now key ipHeader iif s;
        Ok (Fragments_new iter, s)
    | Some fragments => Ok (fragments, s)
    end;
  let fragments := AddFragment packet (GetFragmentOffset ipHeader) (negb (IsLastFragment ipHeader)) fragments in
  let s := put_fragments (<[key := fragments]> (m_fragments s)) s in
  if IsEntire fragments then
    packet ← GetPacket fragments;
    s ← erase_timeout (m_timeoutIter fragments) s;
    Ok (Some packet, put_fragments (delete key (m_fragments s)) s)
  else Ok (None, s).

(** [ipv4-l3-protocol.cc:1116-1134] Ipv4L3Protocol::LocalDeliver

    What goes up the stack: a packet that is no fragment, or the complete one with its header. *)
Definition LocalDeliver_reassemble (now : Z) (packet : Packet) (ip : Ipv4Header) (iif : Z) (s : Reassembly) :
    res (option (Packet * Ipv4Header) * Reassembly) :=
  if negb (IsLastFragment ip) || negb (GetFragmentOffset ip =? 0) then
    '(complete, s) ← ProcessFragment now packet ip iif s;
    match complete with
    | None => Ok (None, s)
    | Some p =>
        ipHeader ← SetFragmentOffset 0 ip;
        Ok (Some (p, SetPayloadSize (u16 (psize p)) ipHeader), s)
    end
  else Ok (Some (packet, ip), s).

(** [ipv4-l3-protocol.cc] Ipv4L3Protocol::HandleFragmentsTimeout *)
Definition HandleFragmentsTimeout (key : FragmentKey_t) (ipHeader : Ipv4Header) (iif : Z) (s : Reassembly) :
    res (list Notice * Reassembly) :=
  fragments ← deref (m_fragments s !! key);
  packet ← GetPartialPacket fragments;
  let icmp := if 8 <? psize packet then [SentTimeExceededTtl ipHeader packet] else [] in
  Ok (icmp ++ [Dropped ipHeader packet iif], put_fragments (delete key (m_fragments s)) s).

(** [ipv4-l3-protocol.cc:1907-1913] Ipv4L3Protocol::HandleTimeout

    The loop, over the list as it is. *)
Fixpoint HandleTimeout_loop (now : Z) (l : list TimeoutEntry) (s : Reassembly) : res (list Notice * Reassembly) :=
  match l with
  | [] => Ok ([], mkReassembly (m_fragments s) (m_fragmentExpirationTimeout s) [] (m_timeoutEvents s) (next_iter s))
  | e :: l' =>
      if to_time e =? now then
        '(n, s) ← HandleFragmentsTimeout (to_key e) (to_header e) (to_iif e) s;
        '(n', s) ← HandleTimeout_loop now l' s;
        Ok (n ++ n', s)
      else Ok ([], mkReassembly (m_fragments s) (m_fragmentExpirationTimeout s) l (m_timeoutEvents s) (next_iter s))
  end.

(** [ipv4-l3-protocol.cc] Ipv4L3Protocol::HandleTimeout

    Scheduling with a negative delay is an error of the simulator. *)
Definition HandleTimeout (now : Z) (s : Reassembly) : res (list Notice * Reassembly) :=
  '(n, s) ← HandleTimeout_loop now (m_timeoutEventList s) s;
  match m_timeoutEventList s with
  | [] => Ok (n, s)
  | e :: _ =>
      difference ← int64 (to_time e - now);
      ns_assert (0 <=? difference) ≫= λ _,
      Ok (n, mkReassembly (m_fragments s) (m_fragmentExpirationTimeout s) (m_timeoutEventList s)
               (m_timeoutEvents s ++ [now + difference]) (next_iter s))
  end.

(** The simulator runs a pending call of [HandleTimeout]. *)
Definition fire (t : Z) (s : Reassembly) : res (list Notice * Reassembly) :=
  '(_, events) ← deref (erase_first (Z.eqb t) (m_timeoutEvents s));
  HandleTimeout t (mkReassembly (m_fragments s) (m_fragmentExpirationTimeout s) (m_timeoutEventList s) events (next_iter s)).

(** ** Correctness of fragmentation *)

Lemma psize_app (p q : Packet) : psize (p ++ q) = psize p + psize q.
Proof. unfold psize. rewrite length_app. lia. Qed.

Lemma psize_nil : psize [] = 0.
Proof. done. Qed.

Lemma psize_nonneg (p : Packet) : 0 ≤ psize p.
Proof. unfold psize. lia. Qed.

Lemma psize_pos (p : Packet) : p ≠ [] ↔ 0 < psize p.
Proof. unfold psize. destruct p; cbn; [naive_solver lia|]. split; [lia|done]. Qed.

Lemma psize_slice a n (p : Packet) : 0 ≤ a → 0 ≤ n → a + n ≤ psize p → psize (slice a n p) = n.
Proof. intros. unfold psize in *. rewrite length_slice by lia. lia. Qed.

Lemma Packet_CreateFragment_ok a n p :
  0 ≤ a → 0 ≤ n → a + n ≤ psize p → psize p < 2 ^ 32 → Packet_CreateFragment a n p = Ok (slice a n p).
Proof.
  intros Ha Hn Hl Hp. unfold Packet_CreateFragment. rewrite (wrap_id 32 (a + n)) by zlia.
  rewrite (proj2 (Z.leb_le _ _)) by lia. res_simpl. rewrite wrap_id by zlia. f_equal. unfold slice. f_equal.
  unfold psize in *. rewrite length_drop. lia.
Qed.

(** [n] rounded down to a multiple of eight. *)
Lemma land_not_7 n : fits 32 n → Z.land n (u32 (Z.lnot 0x7)) = n - n mod 8.
Proof.
  intros Hn. change (u32 (Z.lnot 0x7)) with (Z.shiftl (Z.ones 29) (32 - 29)).
  rewrite land_mask by (done || lia). change (2 ^ (32 - 29)) with 8. pose proof (Z.div_mod n 8). lia.
Qed.

(** What a fragment keeps of the header of the packet. *)
Record same_datagram (h h' : Ipv4Header) : Prop := {
  sd_id : m_identification h' = m_identification h;
  sd_protocol : m_protocol h' = m_protocol h;
  sd_source : m_source h' = m_source h;
  sd_destination : m_destination h' = m_destination h;
  sd_tos : m_tos h' = m_tos h;
  sd_ttl : m_ttl h' = m_ttl h;
  sd_size : m_headerSize h' = m_headerSize h;
  sd_df : IsDontFragment h' = IsDontFragment h;
  sd_flags : 0 ≤ m_flags h < 4 → 0 ≤ m_flags h' < 4;
  sd_offset : GetFragmentOffset h mod 8 = 0 → GetFragmentOffset h' mod 8 = 0;
  sd_checksum : m_calcChecksum h = true → m_calcChecksum h' = true
}.

(** The fragments [l] cut the packet [p], that begins at [o] of the datagram, into consecutive
    pieces, none empty; only the last may be the end of the datagram, and is if [last]. *)
Fixpoint cuts (o : Z) (last : bool) (p : Packet) (l : list (Packet * Ipv4Header)) : Prop :=
  match l with
  | [] => False
  | [(q, h)] => p = q ∧ q ≠ [] ∧ GetFragmentOffset h = o ∧ IsLastFragment h = last
  | (q, h) :: l =>
      q ≠ [] ∧ GetFragmentOffset h = o ∧ IsLastFragment h = false ∧
      ∃ p', p = q ++ p' ∧ cuts (o + psize q) last p' l
  end.

(** The fragments of a packet: all but the last have [size] bytes. *)
Fixpoint sized (size : Z) (l : list (Packet * Ipv4Header)) : Prop :=
  match l with
  | [] => True
  | [(q, h)] => psize q ≤ size ∧ m_payloadSize h = psize q
  | (q, h) :: l => psize q = size ∧ m_payloadSize h = psize q ∧ sized size l
  end.

Lemma IsLastFragment_flags h f :
  0 ≤ m_flags h < 4 → f = Z.lor (m_flags h) MORE_FRAGMENTS ∨ f = Z.land (m_flags h) (Z.lnot MORE_FRAGMENTS) →
  (Z.land (wrap 3 f) DONT_FRAGMENT =? 0) = (Z.land (m_flags h) DONT_FRAGMENT =? 0) ∧
  (f = Z.lor (m_flags h) MORE_FRAGMENTS → (Z.land (wrap 3 f) MORE_FRAGMENTS =? 0) = false) ∧
  (f = Z.land (m_flags h) (Z.lnot MORE_FRAGMENTS) → (Z.land (wrap 3 f) MORE_FRAGMENTS =? 0) = true) ∧
  0 ≤ wrap 3 f < 4.
Proof.
  intros Hf. assert (m_flags h = 0 ∨ m_flags h = 1 ∨ m_flags h = 2 ∨ m_flags h = 3) as E by lia.
  destruct E as [E|[E|[E|E]]]; rewrite E; intros [->| ->]; vm_compute; intuition congruence.
Qed.

(** The header of a fragment. *)
Lemma fragment_header_ok (c last : bool) h h1 o n :
  0 ≤ m_flags h < 4 → (h1 = if last then SetLastFragment h else SetMoreFragments h) →
  0 ≤ o → o mod 8 = 0 →
  ∃ h2, SetFragmentOffset o h1 = Ok h2 ∧
    let h3 := SetPayloadSize n h2 in let h4 := if c : bool then EnableChecksum h3 else h3 in
    same_datagram h h4 ∧ GetFragmentOffset h4 = o ∧ IsLastFragment h4 = last ∧ m_payloadSize h4 = n.
Proof.
  intros Hf E Ho Hm. unfold SetFragmentOffset. change 0x7 with (Z.ones 3). rewrite Z.land_ones by lia. change (2 ^ 3) with 8.
  rewrite Hm. cbn [Z.eqb ns_abort_unless mbind res_bind]. eexists. split; [done|].
  pose proof (IsLastFragment_flags h (if last then Z.land (m_flags h) (Z.lnot MORE_FRAGMENTS) else Z.lor (m_flags h) MORE_FRAGMENTS) Hf)
    as (Hd & Hl1 & Hl2 & Hr); [destruct last; auto|].
  destruct last, c; subst h1; cbn zeta; (split; [constructor; try done; exact (f_equal negb Hd)|]);
    (split; [done|]); (split; [|done]); by first [apply Hl1|apply Hl2].
Qed.

Section loop.
Context (c : bool) (p : Packet) (h : Ipv4Header) (size orig : Z) (last : bool).
Context (Hflags : 0 ≤ m_flags h < 4) (Hsize : 8 ≤ size) (Hal : size mod 8 = 0) (Hs32 : size < 2 ^ 31).
Context (Horig : 0 ≤ orig) (Hal2 : orig mod 8 = 0) (Hmax : orig + psize p < 2 ^ 16).

Lemma DoFragmentation_loop_ok fuel off :
  0 ≤ off < psize p → off mod 8 = 0 → (Z.to_nat (psize p - off) ≤ fuel)%nat →
  ∃ l, DoFragmentation_loop fuel c p h size orig last off = Ok l ∧
    cuts (orig + off) last (drop (Z.to_nat off) p) l ∧ sized size l ∧ Forall (λ x, same_datagram h x.2) l.
Proof using All.
  revert off. induction fuel as [|fuel IH]; intros off Hoff Hm Hf; [lia|]. cbn [DoFragmentation_loop].
  rewrite (wrap_id 32 (off + size)) by zlia.
  assert (∀ n, 0 ≤ n → off + n ≤ psize p → slice off n p ++ drop (Z.to_nat (off + n)) p = drop (Z.to_nat off) p) as Hcut.
  { intros n Hn Hl. unfold slice. rewrite <- (take_drop (Z.to_nat n) (drop (Z.to_nat off) p)) at 2.
    rewrite drop_drop. do 2 f_equal. lia. }
  destruct (Z.ltb_spec (off + size) (psize p)) as [Hlt|Hge].
  - rewrite Packet_CreateFragment_ok by lia. res_simpl. rewrite (wrap_id 16 (off + orig)) by zlia.
    destruct (fragment_header_ok c false h (SetMoreFragments h) (off + orig) (u16 size)) as (h2 & -> & Hs & Ho & Hl & Hp);
      [done|done|lia|by rewrite Z.add_mod, Hm, Hal2 by lia|]. res_simpl.
    rewrite (wrap_id 16 (off + size)) by zlia.
    destruct (IH (off + size)) as (l & -> & Hc & Hz & Hall); [lia|by rewrite Z.add_mod, Hm, Hal by lia|lia|].
    res_simpl. eexists. split; [done|]. pose proof (psize_slice off size p) as Hps.
    rewrite (wrap_id 16 size) in * by zlia.
    destruct l as [|x l]; [done|]. split; [|split; [|by constructor]].
    + cbn [cuts]. split; [apply psize_pos; lia|]. split; [lia|]. split; [done|]. eexists. split; [symmetry; apply Hcut; lia|].
      rewrite Hps by lia. by rewrite Z.add_assoc in Hc.
    + cbn [sized]. conj; [lia|lia|done].
  - rewrite (wrap_id 32 (psize p - off)) by zlia. rewrite Packet_CreateFragment_ok by lia. res_simpl.
    rewrite (wrap_id 16 (off + orig)), (wrap_id 16 (psize p - off)) by zlia.
    destruct (fragment_header_ok c last h (if negb last then SetMoreFragments h else SetLastFragment h) (off + orig) (psize p - off))
      as (h2 & -> & Hs & Ho & Hl & Hp); [done|by destruct last|lia|by rewrite Z.add_mod, Hm, Hal2 by lia|]. res_simpl.
    eexists. split; [done|]. pose proof (psize_slice off (psize p - off) p) as Hps.
    split; [|split; [|by constructor]].
    + cbn [cuts]. conj; [|apply psize_pos; lia|lia|done].
      rewrite <- (Hcut (psize p - off)) by lia. rewrite (drop_ge p (Z.to_nat (off + (psize p - off)))) by (unfold psize; lia).
      by rewrite app_nil_r.
    + cbn [sized]. lia.
Qed.
End loop.

(** A packet that can be sent: the header has no options and the datagram fits 65535 bytes. *)
Record sendable (p : Packet) (h : Ipv4Header) : Prop := {
  sn_size : m_headerSize h = 20;
  sn_flags : 0 ≤ m_flags h < 4;
  sn_offset : 0 ≤ GetFragmentOffset h ∧ GetFragmentOffset h mod 8 = 0;
  sn_nonempty : p ≠ [];
  sn_max : GetFragmentOffset h + psize p < 2 ^ 16
}.

(** The bytes of a fragment that is not the last. *)
Definition fragment_size (mtu : Z) : Z := (mtu - 20) - (mtu - 20) mod 8.

Lemma DoFragmentation_ok c p h mtu :
  sendable p h → 28 ≤ mtu < 2 ^ 16 →
  ∃ l, DoFragmentation (fragmentation_fuel p) c p h mtu = Ok l ∧
    cuts (GetFragmentOffset h) (IsLastFragment h) p l ∧ sized (fragment_size mtu) l ∧ Forall (λ x, same_datagram h x.2) l.
Proof.
  intros [Hsz Hfl [Ho Ho8] Hne Hmax] Hmtu. unfold DoFragmentation, Ipv4Header.GetSerializedSize. rewrite Hsz.
  change (20 =? 5 * 4) with true. cbn [ns_assert mbind res_bind].
  rewrite (wrap_id 32) by zlia. rewrite land_not_7 by zlia. apply psize_pos in Hne.
  destruct (DoFragmentation_loop_ok c p h (fragment_size mtu) (GetFragmentOffset h) (IsLastFragment h)) with
    (fuel := fragmentation_fuel p) (off := 0) as (l & E & Hc & Hz & Ha);
    try (done || lia || (unfold fragment_size; div_lia)).
  { unfold fragmentation_fuel, psize in *. lia. }
  exists l. rewrite Z.add_0_r, drop_0 in Hc. done.
Qed.

Lemma sized_all size l : 0 ≤ size → sized size l → Forall (λ x, psize x.1 ≤ size ∧ m_payloadSize x.2 = psize x.1) l.
Proof.
  intros Hs. induction l as [|[q h] l IH]; [constructor|]. destruct l as [|y l].
  - intros [??]. by constructor.
  - intros (? & ? & H). constructor; [cbn; lia|by apply IH].
Qed.

(** What is sent on a link cuts the packet into pieces that fit. *)
Lemma SendRealOut_frames_ok c p h mtu :
  sendable p h → m_payloadSize h = psize p → 28 ≤ mtu < 2 ^ 16 →
  ∃ l, SendRealOut_frames c mtu p h = Ok l ∧
    cuts (GetFragmentOffset h) (IsLastFragment h) p l ∧
    Forall (λ x, same_datagram h x.2 ∧ m_payloadSize x.2 = psize x.1 ∧ psize x.1 + 20 ≤ mtu) l ∧
    (if mtu <? psize p + 20 then sized (fragment_size mtu) l else l = [(p, h)]).
Proof.
  intros S Hpay Hmtu. pose proof S as [Hsz _ [Ho _] Hne Hmax]. unfold SendRealOut_frames, Ipv4Header.GetSerializedSize. rewrite Hsz.
  rewrite wrap_id by (pose proof (psize_nonneg p); zlia). destruct (Z.ltb_spec mtu (psize p + 20)) as [Hlt|Hge].
  - destruct (DoFragmentation_ok c p h mtu S Hmtu) as (l & E & Hc & Hz & Ha). exists l. conj; try done.
    pose proof Hz as Hz2. apply sized_all in Hz2; [|unfold fragment_size; div_lia]. apply Forall_forall. intros x Hx.
    rewrite Forall_forall in Hz2, Ha. specialize (Hz2 x Hx). specialize (Ha x Hx). conj; [done|lia|].
    assert (fragment_size mtu ≤ mtu - 20) by (unfold fragment_size; div_lia). lia.
  - exists [(p, h)]. conj; try done. constructor; [|constructor]. conj; [by constructor|done|cbn; lia].
Qed.

(** C30 What goes out on a link, for every datagram without options, first hop or fragment of
    one, and every MTU that leaves room for eight bytes: the loop ends, and the packets sent cut the packet
    into consecutive pieces in order, none empty, each with the header of the packet but for
    the offset and size of its piece and the more-fragments flag, which only the last may not
    have and has if the packet had it; each fits the MTU; and unless the packet fits itself,
    all but the last have the greatest size there is. *)
Theorem SendRealOut_fragments c p h mtu :
  sendable p h → m_payloadSize h = psize p → 28 ≤ mtu < 2 ^ 16 →
  ∃ l, SendRealOut_frames c mtu p h = Ok l ∧
    cuts (GetFragmentOffset h) (IsLastFragment h) p l ∧
    Forall (λ x, same_datagram h x.2 ∧ m_payloadSize x.2 = psize x.1 ∧ psize x.1 + 20 ≤ mtu) l ∧
    (if mtu <? psize p + 20 then sized (fragment_size mtu) l ∧ (2 ≤ length l)%nat else l = [(p, h)]).
Proof.
  intros S Hpay Hmtu. destruct (SendRealOut_frames_ok c p h mtu S Hpay Hmtu) as (l & E & Hc & Ha & Hz). exists l. conj; try done.
  destruct (Z.ltb_spec mtu (psize p + 20)) as [Hlt|Hge]; [|done]. split; [done|].
  destruct l as [|[q hq] [|y l]]; [done| |cbn; lia]. exfalso. destruct Hc as (-> & _). destruct Hz as [Hz _].
  assert (fragment_size mtu ≤ mtu - 20) by (unfold fragment_size; div_lia). lia.
Qed.

Definition demo_header : Ipv4Header :=
  mkIp false 40 7 0 64 17 0 0 (mkIpv4 0x0a000001 true) (mkIpv4 0x0a000002 true) 0 true 20.
Definition demo_packet : Packet := seqZ 0 40.

Lemma SendRealOut_fragments_witness :
  ∃ l, SendRealOut_frames false 40 demo_packet demo_header = Ok l ∧ (2 ≤ length l)%nat ∧
    ((λ x : Packet * Ipv4Header, (psize x.1, GetFragmentOffset x.2, IsLastFragment x.2)) <$> l =
       [(16, 0, false); (16, 16, false); (8, 32, true)]).
Proof.
  destruct (SendRealOut_fragments false demo_packet demo_header 40) as (l & E & _ & _ & H); [by constructor|done|lia|].
  change (40 <? psize demo_packet + 20) with true in H. destruct H as [_ H]. exists l. split; [exact E|]. split; [exact H|].
  vm_compute in E. injection E as <-. reflexivity.
Defined.

(** With an MTU that leaves room for less than eight bytes the loop adds empty fragments for ever. *)
Lemma DoFragmentation_diverges fuel c p h mtu :
  sendable p h → 20 ≤ mtu < 28 → DoFragmentation fuel c p h mtu = Err OutOfFuel.
Proof.
  intros [Hsz Hfl [Ho Ho8] Hne Hmax] Hmtu. unfold DoFragmentation, Ipv4Header.GetSerializedSize. rewrite Hsz.
  change (20 =? 5 * 4) with true. cbn [ns_assert mbind res_bind].
  rewrite (wrap_id 32) by zlia. rewrite land_not_7 by zlia.
  replace (mtu - 20 - (mtu - 20) mod 8) with 0 by div_lia. apply psize_pos in Hne.
  induction fuel as [|fuel IH]; [done|]. cbn [DoFragmentation_loop]. change (u32 (0 + 0)) with 0.
  rewrite (proj2 (Z.ltb_lt _ _)) by done. rewrite Packet_CreateFragment_ok by lia. res_simpl. rewrite (wrap_id 16 (0 + GetFragmentOffset h)) by zlia.
  destruct (fragment_header_ok c false h (SetMoreFragments h) (0 + GetFragmentOffset h) (u16 0)) as (h2 & -> & _); try done.
  res_simpl. change (u16 (0 + 0)) with 0. by rewrite IH.
Qed.
