(* ===== verification/IpReassembly.v ===== *)
(** * Reassembly of IPv4 packets: correctness

    The buffer of one packet, then the buffers of a node with their timeouts. *)

From S2P Require Import Prelude Buffer BufferCorrect Ipv4Address Ipv4Header NsTime IpFragments.
Local Open Scope Z_scope.

(** ** The buffer of one packet *)

(** The offset after a fragment. *)
Definition fend (x : Packet * Z) : Z := x.2 + psize x.1.

(** A fragment with the bytes of the datagram [D] at its offset. *)
Record piece (D : Packet) (x : Packet * Z) : Prop := {
  pc_start : 0 ≤ x.2;
  pc_end : fend x ≤ psize D;
  pc_bytes : x.1 = slice x.2 (psize x.1) D
}.

Definition before (x y : Packet * Z) : Prop := x.2 ≤ y.2.

#[export] Instance before_trans : Transitive before.
Proof. intros x y z. unfold before. lia. Qed.

(** A buffer with fragments of [D] only. *)
Record buf_ok (D : Packet) (f : Fragments) : Prop := {
  bf_sorted : StronglySorted before (f_fragments f);
  bf_pieces : Forall (piece D) (f_fragments f);
  bf_last : m_moreFragment f = false → ∀ l x, f_fragments f = l ++ [x] → fend x = psize D
}.

Lemma Fragments_new_ok D iter : buf_ok D (Fragments_new iter).
Proof. constructor; cbn; [constructor|constructor|]. by intros _ [] x. Qed.

Lemma AddFragment_app q o mf f :
  ∃ l1 l2, f_fragments f = l1 ++ l2 ∧ f_fragments (AddFragment q o mf f) = l1 ++ (q, o) :: l2 ∧
    Forall (λ x, x.2 ≤ o) l1 ∧
    m_moreFragment (AddFragment q o mf f) = match l2 with [] => mf | _ => m_moreFragment f end.
Proof.
  destruct (insert_before_app (λ new i : Packet * Z, new.2 <? i.2) (q, o) (f_fragments f)) as (l1 & l2 & E & E2 & Hf & Hh).
  exists l1, l2. cbn [AddFragment f_fragments m_moreFragment]. conj; [done|done| |].
  - eapply Forall_impl; [exact Hf|]. cbn. intros x ?%Z.ltb_ge. done.
  - rewrite E, forallb_app. assert (forallb (λ x : Packet * Z, negb (o <? x.2)) l1 = true) as ->.
    { apply Is_true_eq_true, forallb_True. eapply Forall_impl; [exact Hf|]. intros x Hx. cbn in Hx. by rewrite Hx. }
    destruct l2 as [|y l2]; [done|]. specialize (Hh y eq_refl). cbn in Hh. cbn. by rewrite Hh.
Qed.

Lemma AddFragment_perm q o mf f : f_fragments (AddFragment q o mf f) ≡ₚ (q, o) :: f_fragments f.
Proof. cbn. apply insert_before_perm. Qed.

Lemma AddFragment_ok D q o mf f :
  buf_ok D f → piece D (q, o) → (mf = false → fend (q, o) = psize D) → buf_ok D (AddFragment q o mf f).
Proof.
  intros [Hs Hp Hl] Hpc Hmf. constructor.
  - cbn. apply insert_before_sorted; [apply _| | |done]; intros x; unfold before; cbn; lia.
  - rewrite AddFragment_perm. by constructor.
  - destruct (AddFragment_app q o mf f) as (l1 & l2 & E & -> & _ & ->). intros Hm l x Hx.
    destruct l2 as [|y l2 _] using rev_ind.
    + apply app_inj_tail in Hx as [_ <-]. by apply Hmf.
    + rewrite app_comm_cons, app_assoc in Hx. apply app_inj_tail in Hx as [_ <-].
      apply (Hl (ltac:(by destruct l2)) (l1 ++ l2)). by rewrite E, app_assoc.
Qed.

(** ** When a packet is complete *)

Section loops.
Context (D : Packet) (HD : psize D < 2 ^ 16).

Lemma IsEntire_step e x l :
  piece D x → IsEntire_loop e (x :: l) = (x.2 <=? e) && IsEntire_loop (Z.max e (fend x)) l.
Proof using HD.
  intros [H0 H1 _]. destruct x as [q o]. unfold fend in *. cbn in *. rewrite wrap_id by (pose proof (psize_nonneg q); zlia).
  rewrite (Z.add_comm (psize q)), Z.leb_antisym. by destruct (e <? o).
Qed.

Lemma GetPacket_loop_ok l e :
  Forall (piece D) l → 0 ≤ e ≤ psize D → IsEntire_loop e l = true →
  ∃ e', e ≤ e' ≤ psize D ∧ (∀ x, x ∈ l → fend x ≤ e') ∧ GetPacket_loop (slice 0 e D) e l = Ok (slice 0 e' D).
Proof using HD.
  intros Hl. revert e. induction Hl as [|x l Hx Hl IH]; intros e He Hent.
  { exists e. conj; [lia|lia| |done]. by intros x ?%not_elem_of_nil. }
  rewrite IsEntire_step in Hent by done. apply andb_true_iff in Hent as [Ho%Z.leb_le Hent]. pose proof Hx as [H0 H1 Hb].
  destruct (IH (Z.max e (fend x))) as (e' & He' & Hin & Hg); [lia|done|].
  exists e'. conj; [lia|lia| |].
  { intros y [->|Hy]%elem_of_cons; [lia|by apply Hin]. }
  destruct x as [q o]. unfold fend in *. cbn [fst snd] in *. pose proof (psize_nonneg q). cbn [GetPacket_loop].
  assert (∀ p, p = slice 0 (Z.max e (o + psize q)) D → GetPacket_loop p (u16 (psize p)) l = Ok (slice 0 e' D)) as Hnext.
  { intros p ->. rewrite psize_slice, wrap_id by zlia. exact Hg. }
  assert (∀ n, e + n ≤ psize D → 0 ≤ n → slice 0 e D ++ slice e n D = slice 0 (e + n) D) as Happ.
  { intros n Hn Hn0. by rewrite (slice_app 0 e n) by lia. }
  destruct (Z.ltb_spec o e) as [Hlt|Hge].
  - destruct (Z.ltb_spec (e - o) (psize q)) as [Hn|Hn].
    + rewrite Packet_CreateFragment_ok by lia. res_simpl. apply Hnext. unfold Packet_AddAtEnd.
      rewrite Hb at 2. rewrite slice_slice by lia. replace (o + (e - o)) with e by lia. rewrite Happ by lia. f_equal. lia.
    + res_simpl. apply Hnext. by rewrite Z.max_l by lia.
  - assert (o = e) as -> by lia. res_simpl. apply Hnext. unfold Packet_AddAtEnd. rewrite Hb at 1. rewrite Happ by lia. f_equal. lia.
Qed.

(** The bytes up to the last end are there. *)
Lemma IsEntire_covers l e t y :
  Forall (piece D) l → IsEntire_loop e l = true → y ∈ l → e ≤ t < fend y → ∃ z, z ∈ l ∧ z.2 ≤ t < fend z.
Proof using HD.
  intros Hl. revert e. induction Hl as [|x l Hx Hl IH]; intros e Hent Hy Ht; [by apply not_elem_of_nil in Hy|].
  rewrite IsEntire_step in Hent by done. apply andb_true_iff in Hent as [Ho%Z.leb_le Hent].
  destruct (Z.lt_ge_cases t (fend x)) as [Hlt|Hge]; [exists x; split; [by left|lia]|].
  apply elem_of_cons in Hy as [->|Hy]; [lia|]. destruct (IH (Z.max e (fend x))) as (z & Hz & ?); [done|done|lia|].
  exists z. split; [by right|done].
Qed.

Lemma IsEntire_complete l e :
  Forall (piece D) l → StronglySorted before l → 0 ≤ e ≤ psize D →
  (∀ t, e ≤ t < psize D → ∃ z, z ∈ l ∧ z.2 ≤ t < fend z) → IsEntire_loop e l = true.
Proof using HD.
  intros Hl Hs. revert e. induction Hl as [|x l Hx Hl IH]; intros e He Hcov; [done|].
  rewrite IsEntire_step by done. apply StronglySorted_cons in Hs as [Hall Hs]. rewrite Forall_forall in Hall. pose proof Hx as [H0 H1 _].
  assert (x.2 ≤ e) as Ho.
  { destruct (Z.eq_dec e (psize D)) as [->|]; [pose proof (psize_nonneg x.1); unfold fend in *; lia|].
    destruct (Hcov e) as (z & [->|Hz]%elem_of_cons & ?); [lia|lia|]. specialize (Hall z Hz). unfold before in Hall. lia. }
  rewrite (proj2 (Z.leb_le _ _) Ho). cbn [andb]. apply IH; [done|lia|].
  intros t Ht. destruct (Hcov t) as (z & [->|Hz]%elem_of_cons & ?); [lia|lia|]. by exists z.
Qed.
End loops.

(** A complete packet is the datagram. *)
Lemma GetPacket_ok D f :
  psize D < 2 ^ 16 → buf_ok D f → IsEntire f = true → GetPacket f = Ok D.
Proof.
  intros HD [Hs Hp Hl] Hent. unfold IsEntire in Hent. destruct (m_moreFragment f) eqn:Em; [done|].
  destruct (f_fragments f) as [|x l] eqn:E; [done|]. cbn [negb andb bool_decide decide_rel] in Hent.
  rewrite bool_decide_false in Hent by done. cbn [negb andb] in Hent. unfold GetPacket. rewrite E.
  apply Forall_cons in Hp as [Hx Hp]. rewrite (IsEntire_step D) in Hent by done.
  apply andb_true_iff in Hent as [Ho%Z.leb_le Hent]. pose proof Hx as [H0 H1 Hb]. destruct x as [q o]. unfold fend in *. cbn [fst snd] in *.
  assert (o = 0) as -> by lia. pose proof (psize_nonneg q). rewrite Z.max_r in Hent by lia. cbn [Z.add] in *.
  destruct (GetPacket_loop_ok D HD l (psize q)) as (e' & He' & Hin & Hg); [done|lia|done|].
  rewrite wrap_id by zlia. rewrite <- Hb in Hg. rewrite Hg. f_equal.
  assert (e' = psize D) as ->; [|apply slice_all].
  destruct l as [|y l _] using rev_ind.
  - specialize (Hl eq_refl [] _ eq_refl). unfold fend in Hl. cbn [fst snd] in Hl. lia.
  - specialize (Hl eq_refl ((q, 0) :: l) y eq_refl). specialize (Hin y ltac:(set_solver)). unfold fend in *. lia.
Qed.

(** ** The fragments of one fragmentation *)

(** A fragment as the buffer keeps it. *)
Definition view (x : Packet * Ipv4Header) : Packet * Z := (x.1, GetFragmentOffset x.2).

Definition at_offset (l : list (Packet * Ipv4Header)) (t : Z) (x : Packet * Ipv4Header) : Prop :=
  x ∈ l ∧ GetFragmentOffset x.2 ≤ t < fend (view x).

Lemma cuts_cons o last p q h l :
  cuts o last p ((q, h) :: l) →
  q ≠ [] ∧ GetFragmentOffset h = o ∧ ∃ p', p = q ++ p' ∧ IsLastFragment h = match l with [] => last | _ => false end ∧
    match l with [] => p' = [] | _ => cuts (o + psize q) last p' l end.
Proof.
  destruct l as [|y l].
  - intros (-> & ? & ? & ?). conj; try done. exists []. by rewrite app_nil_r.
  - intros (? & ? & ? & p' & ? & ?). conj; try done. by exists p'.
Qed.

(** The pieces are within the packet, cover it and are disjoint; only the last one ends it. *)
Lemma cuts_ok o last p l :
  cuts o last p l →
  (∀ x, x ∈ l → 0 < psize x.1 ∧ o ≤ GetFragmentOffset x.2 ∧ fend (view x) ≤ o + psize p ∧
     x.1 = slice (GetFragmentOffset x.2 - o) (psize x.1) p ∧
     (fend (view x) = o + psize p → IsLastFragment x.2 = last) ∧
     (fend (view x) < o + psize p → IsLastFragment x.2 = false)) ∧
  (∀ t, o ≤ t < o + psize p → ∃ x, at_offset l t x) ∧
  (∀ t x y, at_offset l t x → at_offset l t y → x = y).
Proof.
  revert o p. induction l as [|[q h] l IH]; intros o p; [done|].
  intros (Hq & Ho & p' & -> & Hlast & Hl)%cuts_cons. apply psize_pos in Hq. rewrite psize_app.
  unfold at_offset, fend, view in *. cbn [fst snd] in *.
  assert (slice 0 (psize q) (q ++ p') = q) as Hhead by (unfold slice, psize; rewrite Nat2Z.id; apply take_app_length).
  destruct l as [|y l].
  - subst p'. rewrite psize_nil. conj.
    + intros x ->%list_elem_of_singleton. cbn [fst snd]. rewrite Ho, Z.sub_diag. conj; try (done || lia).
    + intros t Ht. exists (q, h). cbn [fst snd]. split; [by left|lia].
    + intros t x z [->%list_elem_of_singleton _] [->%list_elem_of_singleton _]. done.
  - destruct (IH _ _ Hl) as (Hpc & Hcov & Hdis). conj.
    + intros x [->|Hx]%elem_of_cons.
      * cbn [fst snd]. rewrite Ho, Z.sub_diag. pose proof (Hcov (o + psize q)) as Hc. pose proof (psize_nonneg p').
        assert (0 < psize p'). { destruct (Hpc y ltac:(left)) as (? & ? & ? & _). lia. }
        conj; try (done || lia).
      * destruct (Hpc x Hx) as (? & ? & ? & E & H1 & H2). conj; try lia.
        -- rewrite E at 1. unfold slice. f_equal.
           replace (Z.to_nat (GetFragmentOffset x.2 - o)) with (length q + Z.to_nat (GetFragmentOffset x.2 - (o + psize q)))%nat
             by (unfold psize in *; lia).
           by rewrite drop_app_add'.
        -- intros He. apply H1. lia.
        -- intros He. apply H2. lia.
    + intros t Ht. destruct (Z.lt_ge_cases t (o + psize q)) as [Hlt|Hge].
      * exists (q, h). cbn [fst snd]. split; [by left|lia].
      * destruct (Hcov t) as (x & Hx & ?); [lia|]. exists x. split; [by right|done].
    + intros t x z [Hx Htx] [Hz Htz].
      apply elem_of_cons in Hx as [->|Hx]; apply elem_of_cons in Hz as [->|Hz]; cbn [fst snd] in *; [done| | |by apply (Hdis t)].
      * destruct (Hpc z Hz) as (_ & ? & _). lia.
      * destruct (Hpc x Hx) as (_ & ? & _). lia.
Qed.

(** ** Collecting the fragments *)

Section collect.
Context (D : Packet) (HD : 0 < psize D < 2 ^ 16) (l : list (Packet * Ipv4Header)) (Hcuts : cuts 0 true D l).

(** The buffer holds the fragments [R], in whatever order they came and with repetitions. *)
Record collects (R : list (Packet * Ipv4Header)) (f : Fragments) : Prop := {
  cl_buf : buf_ok D f;
  cl_from : ∀ x, x ∈ R → x ∈ l;
  cl_all : f_fragments f ≡ₚ view <$> R;
  cl_more : ∀ l' y, f_fragments f = l' ++ [y] → ∃ x, x ∈ R ∧ view x = y ∧ m_moreFragment f = negb (IsLastFragment x.2)
}.

Lemma fragment_piece x : x ∈ l → piece D (view x) ∧ (IsLastFragment x.2 = true ↔ fend (view x) = psize D).
Proof using Hcuts.
  intros Hx. destruct (cuts_ok _ _ _ _ Hcuts) as (Hpc & _). destruct (Hpc x Hx) as (? & ? & ? & E & H1 & H2).
  rewrite Z.sub_0_r in E. split; [by constructor|]. split; [|intros E2; apply H1; lia].
  intros Hl. destruct (Z.lt_ge_cases (fend (view x)) (0 + psize D)) as [Hlt|]; [|lia]. rewrite H2 in Hl by done. done.
Qed.

Lemma collects_new iter : collects [] (Fragments_new iter).
Proof using. constructor; [apply Fragments_new_ok|by intros x ?%not_elem_of_nil|done|]. by intros [] y. Qed.

Lemma collects_add R f x :
  collects R f → x ∈ l →
  collects (x :: R) (AddFragment x.1 (GetFragmentOffset x.2) (negb (IsLastFragment x.2)) f).
Proof using Hcuts.
  intros [Hb Hf Ha Hm] Hx. destruct (fragment_piece x Hx) as [Hp Hl]. constructor.
  - apply AddFragment_ok; [done|done|]. intros E%negb_false_iff. by apply Hl.
  - intros y [->|Hy]%elem_of_cons; [done|by apply Hf].
  - rewrite AddFragment_perm, Ha. done.
  - destruct (AddFragment_app x.1 (GetFragmentOffset x.2) (negb (IsLastFragment x.2)) f) as (l1 & l2 & E & -> & _ & ->).
    intros l' y Hy. destruct l2 as [|z l2 _] using rev_ind.
    + apply app_inj_tail in Hy as [_ <-]. exists x. split; [by left|done].
    + rewrite app_comm_cons, app_assoc in Hy. apply app_inj_tail in Hy as [_ <-].
      destruct (Hm (l1 ++ l2) z) as (w & Hw & Hv & Em); [by rewrite E, app_assoc|].
      exists w. split; [by right|]. split; [done|]. destruct (l2 ++ [z]) eqn:E2; [by destruct l2|done].
Qed.

(** The buffer is complete exactly when all fragments are there. *)
Lemma collects_entire R f : collects R f → (IsEntire f = true ↔ ∀ x, x ∈ l → x ∈ R).
Proof using HD Hcuts.
  intros [[Hs Hp Hl] Hf Ha Hm]. destruct (cuts_ok _ _ _ _ Hcuts) as (Hpc & Hcov & Hdis).
  assert (∀ z, z ∈ f_fragments f ↔ ∃ x, x ∈ R ∧ z = view x) as Hin.
  { intros z. rewrite Ha. rewrite list_elem_of_fmap. naive_solver. }
  unfold IsEntire. split.
  - intros Hent x Hx. destruct (m_moreFragment f) eqn:Em; [done|]. cbn [negb andb] in Hent.
    destruct (bool_decide (f_fragments f = [])) eqn:En; [done|]. apply bool_decide_eq_false in En. cbn [negb andb] in Hent.
    destruct (f_fragments f) as [|y l' _] eqn:E using rev_ind; [done|]. specialize (Hl eq_refl l' y eq_refl).
    destruct (Hpc x Hx) as (? & ? & ? & _). unfold view, fend in *. cbn [fst snd] in *.
    destruct (IsEntire_covers D (proj2 HD) (l' ++ [y]) 0 (GetFragmentOffset x.2) y) as (z & Hz & Hzt); [done|done|set_solver|unfold fend; lia|].
    apply Hin in Hz as (w & Hw & ->). assert (x = w) as ->; [|done].
    apply (Hdis (GetFragmentOffset x.2)); (split; [by (done || apply Hf)|unfold fend, view in *; cbn [fst snd] in *; lia]).
  - intros Hall. assert (∀ t, 0 ≤ t < psize D → ∃ z, z ∈ f_fragments f ∧ z.2 ≤ t < fend z) as Hc.
    { intros t Ht. destruct (Hcov t) as (x & Hx & Hxt); [lia|]. exists (view x). split; [apply Hin; exists x; by split; [apply Hall|]|done]. }
    destruct (Hc (psize D - 1)) as (z & Hz & Hzt); [lia|].
    assert (f_fragments f ≠ []) as Hne by (intros E; rewrite E in Hz; by apply not_elem_of_nil in Hz).
    rewrite (bool_decide_false _ Hne).
    assert (m_moreFragment f = false) as ->.
    { destruct (f_fragments f) as [|y l' _] eqn:E using rev_ind; [done|]. destruct (Hm l' y eq_refl) as (w & Hw & <- & ->).
      apply negb_false_iff. destruct (fragment_piece w (Hf w Hw)) as [_ Hiff]. apply Hiff.
      apply Hin in Hz as (x & Hx & ->). destruct (Hpc w (Hf w Hw)) as (? & ? & ? & _). pose proof (Hpc x (Hf x Hx)) as (? & ? & ? & _).
      apply StronglySorted_app in Hs as (Hs & _ & _).
      assert (GetFragmentOffset x.2 ≤ GetFragmentOffset w.2) as Hle.
      { assert (view x ∈ l' ++ [view w]) as [Hxl|Hxl%list_elem_of_singleton]%elem_of_app by (apply Hin; eauto).
        - specialize (Hs _ _ Hxl ltac:(by left)). done.
        - apply (f_equal snd) in Hxl. cbn [view snd] in Hxl. lia. }
      assert (x = w) as ->; [|unfold fend, view in *; cbn [fst snd] in *; lia].
      apply (Hdis (GetFragmentOffset w.2)); (split; [by apply Hf|unfold fend, view in *; cbn [fst snd] in *; lia]). }
    cbn [negb andb]. apply (IsEntire_complete D); [lia|done|done|lia|done].
Qed.
End collect.
