(* ===== verification/IpTimeouts.v ===== *)
(** * The buffers of a node: invariant and theorems

    Fragments of many packets arrive interleaved, buffers time out. *)

From S2P Require Import Prelude Buffer BufferCorrect Ipv4Address Ipv4Header NsTime IpFragments IpReassembly.
Local Open Scope Z_scope.

(** A buffer that is not empty, of packets with sizes of 32 bits. *)
Definition filled (f : Fragments) : Prop := f_fragments f ≠ [] ∧ Forall (λ x : Packet * Z, psize x.1 < 2 ^ 32) (f_fragments f).

Definition by_time (a b : TimeoutEntry) : Prop := to_time a ≤ to_time b.

#[export] Instance by_time_trans : Transitive by_time.
Proof. intros x y z. unfold by_time. lia. Qed.

(** The list of timeouts, in the order of time, at [now]. *)
Record timeouts_ok (now : Z) (s : Reassembly) : Prop := {
  to_sorted : StronglySorted by_time (m_timeoutEventList s);
  to_times : Forall (λ e, now ≤ to_time e ≤ now + m_fragmentExpirationTimeout s) (m_timeoutEventList s);
  to_keys : NoDup (to_key <$> m_timeoutEventList s);
  to_iters : NoDup (to_iter <$> m_timeoutEventList s);
  to_next : Forall (λ e, (to_iter e < next_iter s)%nat) (m_timeoutEventList s);
  to_events : Forall (Z.le now) (m_timeoutEvents s);
  to_event : ∀ e l, m_timeoutEventList s = e :: l → ∃ t, t ∈ m_timeoutEvents s ∧ t ≤ to_time e
}.

(** The buffers are those of the list. *)
Record buffers_ok (s : Reassembly) : Prop := {
  bu_key : ∀ e, e ∈ m_timeoutEventList s → ∃ f, m_fragments s !! to_key e = Some f ∧ m_timeoutIter f = to_iter e;
  bu_entry : ∀ key f, m_fragments s !! key = Some f →
    filled f ∧ ∃ e, e ∈ m_timeoutEventList s ∧ to_key e = key
}.

Record inv (now : Z) (s : Reassembly) : Prop := {
  iv_timeouts : timeouts_ok now s;
  iv_buffers : buffers_ok s;
  iv_delay : 0 ≤ m_fragmentExpirationTimeout s;
  iv_now : 0 ≤ now ∧ now + m_fragmentExpirationTimeout s < 2 ^ 63
}.

(** ** The pieces never fail *)

Lemma CreateFragment_total start n p :
  psize p < 2 ^ 32 → u32 (start + n) = psize p → ∃ q, Packet_CreateFragment start n p = Ok q.
Proof.
  intros Hp E. unfold Packet_CreateFragment. rewrite E. rewrite (proj2 (Z.leb_le _ _)) by lia. by eexists.
Qed.

Lemma GetPacket_loop_total l p e : Forall (λ x : Packet * Z, psize x.1 < 2 ^ 32) l → is_ok (GetPacket_loop p e l).
Proof.
  intros Hl. revert p e. induction Hl as [|[q o] l Hq Hl IH]; intros p e; [done|]. cbn [GetPacket_loop fst] in *.
  destruct (Z.ltb_spec o e); [|apply IH]. destruct (Z.ltb_spec (e - o) (psize q)); [|apply IH].
  destruct (CreateFragment_total (e - o) (psize q - (e - o)) q) as [r ->]; [done| |apply IH].
  rewrite wrap_id by (pose proof (psize_nonneg q); zlia). lia.
Qed.

Lemma GetPartialPacket_loop_total l p e :
  Forall (λ x : Packet * Z, psize x.1 < 2 ^ 32) l → is_ok (GetPartialPacket_loop p e l).
Proof.
  intros Hl. revert p e. induction Hl as [|[q o] l Hq Hl IH]; intros p e; [done|]. cbn [GetPartialPacket_loop fst] in *.
  destruct (Z.ltb_spec o e); [|destruct (Z.eqb_spec e o); apply IH].
  destruct (CreateFragment_total (e - o) (u32 (psize q - (e - o))) q) as [r ->]; [done| |apply IH].
  rewrite wrap_add_r by done. replace (e - o + (psize q - (e - o))) with (psize q) by lia.
  apply wrap_id. pose proof (psize_nonneg q). zlia.
Qed.

Lemma is_ok_spec {A} (r : res A) : is_ok r → ∃ a, r = Ok a.
Proof. destruct r; [by eexists|done]. Qed.

Lemma GetPacket_total f : filled f → ∃ p, GetPacket f = Ok p.
Proof.
  intros [Hne Hl]. unfold GetPacket. destruct (f_fragments f) as [|[q o] l]; [done|].
  apply Forall_cons in Hl as [_ Hl]. by apply is_ok_spec, GetPacket_loop_total.
Qed.

Lemma GetPartialPacket_total f : filled f → ∃ p, GetPartialPacket f = Ok p.
Proof.
  intros [Hne Hl]. unfold GetPartialPacket. destruct (f_fragments f) as [|[q o] l] eqn:E; [done|].
  destruct (0 <? o); [by eexists|]. by apply is_ok_spec, GetPartialPacket_loop_total.
Qed.

Lemma AddFragment_filled p o mf f :
  psize p < 2 ^ 32 → Forall (λ x : Packet * Z, psize x.1 < 2 ^ 32) (f_fragments f) → filled (AddFragment p o mf f).
Proof.
  intros Hp Hf. pose proof (AddFragment_perm p o mf f) as Hperm. split.
  - intros E. rewrite E in Hperm. by apply Permutation_nil_cons in Hperm.
  - rewrite Hperm. by constructor.
Qed.

(** ** A fragment arrives *)

(** The first fragment of a packet. *)
Lemma SetTimeout_ok now key h iif s :
  inv now s → m_fragments s !! key = None →
  let s' := mkReassembly (m_fragments s) (m_fragmentExpirationTimeout s)
              (m_timeoutEventList s ++ [mkTimeout (next_iter s) (now + m_fragmentExpirationTimeout s) key h iif])
              (m_timeoutEvents s ++ if bool_decide (m_timeoutEventList s = []) then [now + m_fragmentExpirationTimeout s] else [])
              (S (next_iter s)) in
  SetTimeout now key h iif s = Ok (next_iter s, s') ∧ timeouts_ok now s'.
Proof.
  intros [[Hs Ht Hk Hi Hn He Hev] [Hbk Hbe] HT [Hn0 Hnow]] Hnone s'. split.
  - unfold SetTimeout, int64. rewrite (proj2 (Z.leb_le _ _)), (proj2 (Z.ltb_lt _ _)) by lia. res_simpl. unfold s'.
    destruct (bool_decide _); [done|]. by rewrite app_nil_r.
  - constructor; cbn [s' m_timeoutEventList m_timeoutEvents m_fragmentExpirationTimeout next_iter].
    + apply StronglySorted_app_2; [|done|repeat constructor]. intros x y Hx ->%list_elem_of_singleton.
      rewrite Forall_forall in Ht. specialize (Ht x Hx). unfold by_time. cbn. lia.
    + apply Forall_app. split; [done|]. constructor; [cbn; lia|done].
    + rewrite fmap_app. apply NoDup_app. conj; [done| |by apply NoDup_singleton].
      intros k (e & -> & Hin)%list_elem_of_fmap Heq%list_elem_of_singleton. destruct (Hbk e Hin) as (f & Hf & _). cbn in Heq. congruence.
    + rewrite fmap_app. apply NoDup_app. conj; [done| |by apply NoDup_singleton].
      intros k (e & -> & Hin)%list_elem_of_fmap Heq%list_elem_of_singleton. rewrite Forall_forall in Hn. specialize (Hn e Hin). cbn in Heq. lia.
    + apply Forall_app. split; [|by constructor; [cbn; lia|]]. eapply Forall_impl; [exact Hn|]. cbn. lia.
    + apply Forall_app. split; [done|]. case_bool_decide; [|done]. constructor; [lia|done].
    + intros e l E. destruct (m_timeoutEventList s) as [|e0 l0] eqn:El.
      * injection E as <- _. cbn. exists (now + m_fragmentExpirationTimeout s). split; [|lia].
        apply elem_of_app. right. cbn; by left.
      * injection E as <- _. destruct (Hev e0 l0 eq_refl) as (t & Ht2 & Hle). exists t. split; [|done]. apply elem_of_app. by left.
Qed.

(** A complete packet takes its timeout with it. *)
Lemma erase_timeout_ok now s e :
  timeouts_ok now s → e ∈ m_timeoutEventList s →
  ∃ l1 l2, m_timeoutEventList s = l1 ++ e :: l2 ∧
    let s' := mkReassembly (m_fragments s) (m_fragmentExpirationTimeout s) (l1 ++ l2) (m_timeoutEvents s) (next_iter s) in
    erase_timeout (to_iter e) s = Ok s' ∧ timeouts_ok now s'.
Proof.
  intros [Hs Ht Hk Hi Hn He Hev] Hin. unfold erase_timeout.
  destruct (erase_first_is_Some (λ e', (to_iter e' =? to_iter e)%nat) (m_timeoutEventList s) e Hin) as [[e' l'] E]; [by apply Nat.eqb_refl|].
  rewrite E. destruct (erase_first_Some _ _ _ _ E) as (l1 & l2 & El & -> & Heq%Nat.eqb_eq & _).
  assert (e' = e) as ->.
  { rewrite El in Hi, Hin. rewrite fmap_app, fmap_cons in Hi. apply NoDup_app in Hi as (_ & Hd & [Hnin _]%NoDup_cons).
    apply elem_of_app in Hin as [Hin|[->|Hin]%elem_of_cons]; [|done|].
    - exfalso. apply (Hd (to_iter e)); [by apply list_elem_of_fmap_2|]. rewrite Heq. by left.
    - exfalso. apply Hnin. rewrite Heq. by apply list_elem_of_fmap_2. }
  exists l1, l2. split; [done|]. cbn zeta. split; [done|]. rewrite El in *.
  assert (∀ P, Forall P (l1 ++ e :: l2) → Forall P (l1 ++ l2)) as Hsub.
  { intros P. rewrite !Forall_app, Forall_cons. naive_solver. }
  constructor; cbn; try by (done || apply Hsub).
  - by apply StronglySorted_delete_mid in Hs.
  - rewrite fmap_app in *. rewrite fmap_cons in Hk. apply NoDup_app in Hk as (? & Hd & [? ?]%NoDup_cons).
    apply NoDup_app. conj; [done| |done]. intros x Hx Hx2. apply (Hd x Hx). by right.
  - rewrite fmap_app in *. rewrite fmap_cons in Hi. apply NoDup_app in Hi as (? & Hd & [? ?]%NoDup_cons).
    apply NoDup_app. conj; [done| |done]. intros x Hx Hx2. apply (Hd x Hx). by right.
  - intros e0 l E0. destruct l1 as [|x l1].
    + cbn in E0. subst l2. destruct (Hev e (e0 :: l) eq_refl) as (t & ? & ?). exists t. split; [done|].
      apply StronglySorted_cons in Hs as [Hall _]. apply Forall_cons in Hall as [Hle _]. unfold by_time in Hle. lia.
    + cbn in E0. injection E0 as <- <-. by apply (Hev x (l1 ++ e :: l2)).
Qed.

Lemma NoDup_fmap_eq {A B} (f : A → B) l x y : NoDup (f <$> l) → x ∈ l → y ∈ l → f x = f y → x = y.
Proof.
  intros Hn [i Hi]%list_elem_of_lookup [j Hj]%list_elem_of_lookup E.
  assert (i = j) as ->; [|congruence]. apply (NoDup_lookup _ _ _ (f x) Hn); rewrite list_lookup_fmap; [by rewrite Hi|by rewrite Hj, E].
Qed.

(** An entry of [s'] that is not one of [s] is for the first fragment of a packet. *)
Definition first_entry (now : Z) (key : FragmentKey_t) (s : Reassembly) (e : TimeoutEntry) : Prop :=
  to_key e = key ∧ m_fragments s !! key = None ∧ to_time e = now + m_fragmentExpirationTimeout s.

(** The buffer a fragment goes to. *)
Definition open_buffer (now : Z) (key : FragmentKey_t) (h : Ipv4Header) (iif : Z) (s : Reassembly) : res (Fragments * Reassembly) :=
  match m_fragments s !! key with
  | None =>
      '(iter, s) ← SetTimeout now key h iif s;
      Ok (Fragments_new iter, s)
  | Some fragments => Ok (fragments, s)
  end.

Lemma open_buffer_ok now key h iif s :
  inv now s →
  ∃ s', open_buffer now key h iif s = Ok (default (Fragments_new (next_iter s)) (m_fragments s !! key), s') ∧
    timeouts_ok now s' ∧ m_fragments s' = m_fragments s ∧ m_fragmentExpirationTimeout s' = m_fragmentExpirationTimeout s ∧
    (∃ e, e ∈ m_timeoutEventList s' ∧ to_key e = key ∧
       to_iter e = m_timeoutIter (default (Fragments_new (next_iter s)) (m_fragments s !! key))) ∧
    (∀ e, e ∈ m_timeoutEventList s' → e ∈ m_timeoutEventList s ∨ first_entry now key s e) ∧
    (∀ e, e ∈ m_timeoutEventList s → e ∈ m_timeoutEventList s') ∧
    Forall (λ x : Packet * Z, psize x.1 < 2 ^ 32) (f_fragments (default (Fragments_new (next_iter s)) (m_fragments s !! key))).
Proof.
  intros I. pose proof I as [Ht [Hbk Hbe] _ _]. unfold open_buffer. destruct (m_fragments s !! key) as [f|] eqn:Ef; cbn [default].
  - destruct (Hbe key f Ef) as [[_ Hf] (e & He & Hk)]. exists s. conj; try done; [|naive_solver].
    exists e. conj; [done|done|]. destruct (Hbk e He) as (f' & Hf' & <-). rewrite Hk, Ef in Hf'. by injection Hf' as ->.
  - destruct (SetTimeout_ok now key h iif s I Ef) as [E Hs']. rewrite E. res_simpl. eexists. split; [done|].
    split; [exact Hs'|]. cbn [m_fragments m_fragmentExpirationTimeout m_timeoutEventList]. conj; try done.
    + eexists. conj; [apply elem_of_app; right; by left|done|done].
    + intros e [He| ->%list_elem_of_singleton]%elem_of_app; [by left|]. by right.
    + intros e He. apply elem_of_app. by left.
Qed.

Lemma ProcessFragment_ok now p h iif s :
  inv now s → psize p < 2 ^ 32 →
  let key := fragment_key h in
  let f := AddFragment p (GetFragmentOffset h) (negb (IsLastFragment h))
             (default (Fragments_new (next_iter s)) (m_fragments s !! key)) in
  ∃ r s', ProcessFragment now p h iif s = Ok (r, s') ∧ inv now s' ∧
    m_fragmentExpirationTimeout s' = m_fragmentExpirationTimeout s ∧
    (∀ k, k ≠ key → m_fragments s' !! k = m_fragments s !! k) ∧
    (∀ e, e ∈ m_timeoutEventList s' → e ∈ m_timeoutEventList s ∨ first_entry now key s e) ∧
    if IsEntire f then (∃ q, GetPacket f = Ok q ∧ r = Some q) ∧ m_fragments s' !! key = None
    else r = None ∧ m_fragments s' !! key = Some f.
Proof.
  intros I Hp key f. pose proof I as [_ [Hbk Hbe] HT Hnow].
  destruct (open_buffer_ok now key h iif s I) as (s1 & E & Ht1 & Hm & HT1 & (e0 & He0 & Hk0 & Hi0) & Hnew & Hold & Hsz).
  unfold ProcessFragment. fold key. change (match m_fragments s !! key with Some _ => _ | None => _ end) with (open_buffer now key h iif s).
  rewrite E. res_simpl. fold f. assert (filled f) as Hf by by apply AddFragment_filled.
  set (s2 := put_fragments (<[key := f]> (m_fragments s1)) s1).
  assert (inv now s2) as I2.
  { constructor; [by destruct Ht1|constructor|cbn; lia|cbn; lia]; cbn [s2 put_fragments m_fragments m_timeoutEventList].
    - intros e He. destruct (decide (to_key e = key)) as [Hk|Hk].
      + rewrite Hk, lookup_insert_eq. exists f. split; [done|]. cbn. rewrite <- Hi0. f_equal.
        apply (NoDup_fmap_eq to_key (m_timeoutEventList s1)); [by destruct Ht1|done|done|congruence].
      + rewrite lookup_insert_ne by done. rewrite Hm. destruct (Hnew e He) as [He'|[? _]]; [by apply Hbk|done].
    - intros k f' Hk. destruct (decide (k = key)) as [->|Hne].
      + rewrite lookup_insert_eq in Hk. injection Hk as <-. split; [done|]. by exists e0.
      + rewrite lookup_insert_ne in Hk by done. rewrite Hm in Hk. destruct (Hbe k f' Hk) as [? (e & He & ?)].
        split; [done|]. exists e. split; [by apply Hold|done]. }
  destruct (IsEntire f) eqn:Hent.
  - destruct (GetPacket_total f Hf) as [q Hq]. rewrite Hq. res_simpl.
    replace (m_timeoutIter f) with (to_iter e0) by done.
    destruct (erase_timeout_ok now s2 e0) as (l1 & l2 & El & -> & Ht3); [by destruct I2|done|]. res_simpl.
    cbn [s2 put_fragments m_fragments m_fragmentExpirationTimeout m_timeoutEventList] in El, Ht3 |- *. eexists _, _. split; [done|].
    assert (∀ e, e ∈ l1 ++ l2 → e ∈ m_timeoutEventList s1 ∧ to_key e ≠ key) as Hrest.
    { intros e He. pose proof (to_keys _ _ Ht1) as Hnd. rewrite El in *. rewrite fmap_app, fmap_cons in Hnd.
      apply NoDup_app in Hnd as (_ & Hd & [Hnin _]%NoDup_cons). rewrite <- Hk0. split; [set_solver|]. intros Hk.
      apply elem_of_app in He as [He|He].
      - apply (Hd (to_key e)); [by apply list_elem_of_fmap_2|]. rewrite Hk. by left.
      - apply Hnin. rewrite <- Hk. by apply list_elem_of_fmap_2. }
    split; [|split; [|split; [|split; [|split; [by exists q|]]]]]; cbn.
    + destruct I2 as [_ [Hbk2 Hbe2] _ _]. constructor; [by destruct Ht3|constructor|cbn; lia|cbn; lia]; cbn.
      * intros e He. destruct (Hrest e He) as [He1 Hk]. rewrite delete_insert_eq, lookup_delete_ne, Hm by done.
        destruct (Hnew e He1) as [He'|[? _]]; [by apply Hbk|done].
      * intros k f'. rewrite delete_insert_eq, Hm. intros Hk. destruct (decide (k = key)) as [->|Hne]; [by rewrite lookup_delete_eq in Hk|].
        rewrite lookup_delete_ne in Hk by done. destruct (Hbe k f' Hk) as [? (e & He & ?)]. split; [done|]. exists e. split; [|done].
        apply Hold in He. rewrite El in He. apply elem_of_app in He as [He|[->|He]%elem_of_cons]; [set_solver|congruence|set_solver].
    + done.
    + intros k Hk. by rewrite delete_insert_eq, lookup_delete_ne, Hm.
    + intros e He. apply Hnew. by apply Hrest.
    + by rewrite lookup_delete_eq.
  - eexists _, _. split; [done|]. split; [done|]. cbn. conj; try done.
    + intros k Hk. by rewrite lookup_insert_ne, Hm.
    + by rewrite lookup_insert_eq.
Qed.

(** ** A timeout *)

(** The packets a timeout drops, by header and interface. *)
Definition drops (n : list Notice) : list (Ipv4Header * Z) :=
  omap (λ x, match x with Dropped h _ iif => Some (h, iif) | SentTimeExceededTtl _ _ => None end) n.

Lemma HandleTimeout_loop_ok now l s :
  NoDup (to_key <$> l) → (∀ e, e ∈ l → ∃ f, m_fragments s !! to_key e = Some f ∧ filled f) →
  ∃ n s' l1 l2, HandleTimeout_loop now l s = Ok (n, s') ∧ l = l1 ++ l2 ∧
    Forall (λ e, to_time e = now) l1 ∧ (∀ e l', l2 = e :: l' → to_time e ≠ now) ∧
    drops n = (λ e, (to_header e, to_iif e)) <$> l1 ∧
    s' = mkReassembly (m_fragments s') (m_fragmentExpirationTimeout s) l2 (m_timeoutEvents s) (next_iter s) ∧
    (∀ k, k ∈ to_key <$> l1 → m_fragments s' !! k = None) ∧
    (∀ k, k ∉ to_key <$> l1 → m_fragments s' !! k = m_fragments s !! k).
Proof.
  revert s. induction l as [|e l IH]; intros s Hnd Hbuf; cbn [HandleTimeout_loop].
  - eexists [], _, [], []. split; [done|]. conj; try done. by intros k ?%not_elem_of_nil.
  - destruct (Z.eqb_spec (to_time e) now) as [Heq|Hne].
    + rewrite fmap_cons in Hnd. apply NoDup_cons in Hnd as [Hnin Hnd].
      destruct (Hbuf e ltac:(left)) as (f & Hf & Hfill). unfold HandleFragmentsTimeout. rewrite Hf. cbn [deref mbind res_bind].
      destruct (GetPartialPacket_total f Hfill) as [q ->]. res_simpl.
      set (s1 := put_fragments (delete (to_key e) (m_fragments s)) s).
      destruct (IH s1) as (n & s' & l1 & l2 & -> & -> & Hl1 & Hl2 & Hd & Es & Hin & Hout); [done| |].
      { intros e' He'. cbn. rewrite lookup_delete_ne by (intros E; apply Hnin; rewrite E; by apply list_elem_of_fmap_2).
        apply Hbuf. by right. }
      res_simpl. eexists _, s', (e :: l1), l2. split; [done|]. conj; [done|by constructor|done| |done| |].
      * unfold drops in *. rewrite !omap_app, Hd. cbn. by destruct (8 <? psize q).
      * intros k. cbn. intros [->|Hk]%elem_of_cons; [|by apply Hin].
        destruct (decide (to_key e ∈ to_key <$> l1)); [by apply Hin|]. rewrite Hout by done. cbn. by rewrite lookup_delete_eq.
      * intros k. cbn. intros [Hk1 Hk2]%not_elem_of_cons. rewrite Hout by done. cbn. by rewrite lookup_delete_ne.
    + eexists [], _, [], (e :: l). split; [done|]. conj; try done; [by intros e' l' [= -> ->]|by intros k ?%not_elem_of_nil].
Qed.

(** The call of [HandleTimeout] that is pending for now. *)
Lemma fire_ok now s :
  inv now s → now ∈ m_timeoutEvents s →
  ∃ n s' l1 l2, IpFragments.fire now s = Ok (n, s') ∧ inv now s' ∧ m_fragmentExpirationTimeout s' = m_fragmentExpirationTimeout s ∧
    m_timeoutEventList s = l1 ++ l2 ∧ m_timeoutEventList s' = l2 ∧
    Forall (λ e, to_time e = now) l1 ∧ Forall (λ e, now < to_time e) l2 ∧
    drops n = (λ e, (to_header e, to_iif e)) <$> l1 ∧
    (∀ k, m_fragments s' !! k = if bool_decide (k ∈ to_key <$> l1) then None else m_fragments s !! k).
Proof.
  intros I Hev. pose proof I as [[Hs Ht Hk Hi Hn He Hev2] [Hbk Hbe] HT [Hn0 Hnow]]. unfold IpFragments.fire.
  destruct (erase_first_is_Some (Z.eqb now) (m_timeoutEvents s) now Hev) as [[t ev] E]; [by apply Z.eqb_refl|].
  rewrite E. cbn [deref mbind res_bind].
  destruct (erase_first_Some _ _ _ _ E) as (e1 & e2 & Eev & -> & _ & _).
  assert (Forall (Z.le now) (e1 ++ e2)) as He2 by (rewrite Eev in He; rewrite Forall_app, Forall_cons in He; rewrite Forall_app; naive_solver).
  unfold HandleTimeout. cbn [m_timeoutEventList m_fragments m_fragmentExpirationTimeout next_iter].
  destruct (HandleTimeout_loop_ok now (m_timeoutEventList s)
    (mkReassembly (m_fragments s) (m_fragmentExpirationTimeout s) (m_timeoutEventList s) (e1 ++ e2) (next_iter s))) as (n & s' & l1 & l2 & Eh & El & Hl1 & Hl2 & Hd & Es & Hin & Hout);
    [done| |].
  { intros e Hein. destruct (Hbk e Hein) as (f & Hf & _). exists f. split; [exact Hf|]. by apply (Hbe (to_key e)). }
  rewrite Eh. cbn [mbind res_bind]. cbn [m_fragmentExpirationTimeout m_timeoutEvents next_iter] in Es. cbn [m_fragments] in Hout.
  assert (∀ e, e ∈ l2 → e ∈ m_timeoutEventList s) as Hsub by (rewrite El; set_solver).
  rewrite Forall_forall in Ht. rewrite El in Hs, Hk, Hi, Hn.
  assert (Forall (λ e, now < to_time e) l2) as Hgt.
  { apply StronglySorted_app in Hs as (_ & _ & Hs2). destruct l2 as [|e l']; [constructor|]. apply StronglySorted_cons in Hs2 as [Hall _].
    specialize (Hl2 e l' eq_refl). pose proof (Ht e (Hsub e ltac:(left))).
    constructor; [lia|]. eapply Forall_impl; [exact Hall|]. unfold by_time. cbn. lia. }
  assert (∀ ev', (∀ e l, l2 = e :: l → ∃ t, t ∈ ev' ∧ t ≤ to_time e) → Forall (Z.le now) ev' →
    inv now (mkReassembly (m_fragments s') (m_fragmentExpirationTimeout s) l2 ev' (next_iter s))) as Hinv.
  { intros ev' Hfirst Hev'. constructor; [constructor|constructor|cbn; lia|cbn; lia]; cbn [m_timeoutEventList m_timeoutEvents m_fragments m_fragmentExpirationTimeout next_iter].
    - by apply StronglySorted_app in Hs as (_ & _ & ?).
    - apply Forall_forall. intros e Hein. by apply Ht, Hsub.
    - rewrite fmap_app in Hk. by apply NoDup_app in Hk as (_ & _ & ?).
    - rewrite fmap_app in Hi. by apply NoDup_app in Hi as (_ & _ & ?).
    - by apply Forall_app in Hn as [_ ?].
    - done.
    - done.
    - intros e Hein. rewrite Hout; [by apply Hbk, Hsub|]. intros Hin1. rewrite fmap_app in Hk. apply NoDup_app in Hk as (_ & Hdis & _).
      apply (Hdis _ Hin1). by apply list_elem_of_fmap_2.
    - intros k f Hkf. destruct (decide (k ∈ to_key <$> l1)) as [Hk1|Hk1]; [by rewrite Hin in Hkf|]. rewrite Hout in Hkf by done.
      destruct (Hbe k f Hkf) as [? (e & Hein & Hke)]. split; [done|]. exists e. split; [|done].
      rewrite El in Hein. apply elem_of_app in Hein as [Hein|?]; [|done]. exfalso. apply Hk1. rewrite <- Hke. by apply list_elem_of_fmap_2. }
  assert (∀ k, m_fragments s' !! k = if bool_decide (k ∈ to_key <$> l1) then None else m_fragments s !! k) as Hmap.
  { intros k. case_bool_decide; [by apply Hin|by apply Hout]. }
  assert (m_timeoutEventList s' = l2) as Hl by by rewrite Es. rewrite Hl. destruct l2 as [|e l'].
  - exists n, s', l1, []. conj; try done; [|by rewrite Es]. rewrite Es. by apply Hinv.
  - pose proof (Ht e (Hsub e ltac:(left))) as Hte. apply Forall_cons in Hgt as Hgt2. destruct Hgt2 as [Hlt _].
    unfold int64. rewrite (proj2 (Z.leb_le (- 2 ^ 63) _)), (proj2 (Z.ltb_lt _ (2 ^ 63))) by lia. cbn [andb mbind res_bind].
    rewrite (proj2 (Z.leb_le 0 _)) by lia. cbn [ns_assert mbind res_bind]. rewrite Es. cbn [m_timeoutEvents m_fragmentExpirationTimeout m_fragments next_iter].
    eexists n, _, l1, (e :: l'). split; [done|]. conj; try done. apply Hinv.
    + intros e0 l0 [= <- <-]. exists (now + (to_time e - now)). split; [set_solver|lia].
    + apply Forall_app. split; [done|]. constructor; [lia|constructor].
Qed.

(** Time passes, up to the next pending call. *)
Lemma inv_later now now' s :
  inv now s → now ≤ now' → Forall (Z.le now') (m_timeoutEvents s) → now' + m_fragmentExpirationTimeout s < 2 ^ 63 → inv now' s.
Proof.
  intros [[Hs Ht Hk Hi Hn He Hev] Hb HT [Hn0 Hnow]] Hle Hev' Hmax. constructor; [|done|done|lia].
  constructor; try done. destruct (m_timeoutEventList s) as [|e l]; [done|]. destruct (Hev e l eq_refl) as (t & Ht1 & Ht2).
  rewrite Forall_forall in Hev'. specialize (Hev' t Ht1). apply StronglySorted_cons in Hs as [Hall _].
  apply Forall_cons in Ht as [Hte Ht]. constructor; [lia|]. apply Forall_forall. intros e' He'.
  rewrite Forall_forall in Hall, Ht. specialize (Hall e' He'). specialize (Ht e' He'). unfold by_time in Hall. cbn in Ht. lia.
Qed.
