(* ===== verification/IpTheorems.v ===== *)
(** * Fragmentation and reassembly: theorems

    What a node does with the fragments it receives, of any number of packets at a time. *)

From S2P Require Import Prelude Buffer BufferCorrect Ipv4Address Ipv4Header NsTime IpFragments IpReassembly IpTimeouts.
Local Open Scope Z_scope.

(** What happens at a node: time passes, up to the next pending call; a fragment is processed,
    which may complete a packet; a pending call of [HandleTimeout] runs. *)
Inductive label :=
  | LTime
  | LRecv (packet : Packet) (header : Ipv4Header) (iif : Z) (complete : option Packet)
  | LFire (notices : list Notice).

Inductive step : Z * Reassembly → label → Z * Reassembly → Prop :=
  | step_time now now' s :
      now ≤ now' → Forall (Z.le now') (m_timeoutEvents s) → now' + m_fragmentExpirationTimeout s < 2 ^ 63 →
      step (now, s) LTime (now', s)
  | step_recv now s p h iif r s' :
      psize p < 2 ^ 32 → ProcessFragment now p h iif s = Ok (r, s') → step (now, s) (LRecv p h iif r) (now, s')
  | step_fire now s n s' :
      now ∈ m_timeoutEvents s → IpFragments.fire now s = Ok (n, s') → step (now, s) (LFire n) (now, s').

(** The latest label comes first. *)
Inductive runs (c : Z * Reassembly) : list label → Z * Reassembly → Prop :=
  | runs_nil : runs c [] c
  | runs_cons labs c' lab c'' : runs c labs c' → step c' lab c'' → runs c (lab :: labs) c''.

(** The states of a node with the expiration timeout [T]. *)
Definition reachable (T now : Z) (s : Reassembly) : Prop :=
  ∃ now0 labs, 0 ≤ T ∧ 0 ≤ now0 ∧ now0 + T < 2 ^ 63 ∧ runs (now0, mkReassembly ∅ T [] [] 0) labs (now, s).

Lemma step_inv now s lab now' s' :
  inv now s → step (now, s) lab (now', s') →
  inv now' s' ∧ now ≤ now' ∧ m_fragmentExpirationTimeout s' = m_fragmentExpirationTimeout s.
Proof.
  intros I Hs. inversion Hs as [? ? ? Hle Hev Hmax|? ? p h iif ? ? Hp E|? ? ? ? Hin E]; subst.
  - split; [by apply (inv_later now)|done].
  - destruct (ProcessFragment_ok now' p h iif s I Hp) as (r' & s1 & E1 & I1 & HT & _).
    rewrite E in E1. injection E1 as -> ->. split; [done|]. split; [lia|done].
  - destruct (fire_ok now' s I Hin) as (n' & s1 & l1 & l2 & E1 & I1 & HT & _).
    rewrite E in E1. injection E1 as -> ->. split; [done|]. split; [lia|done].
Qed.

Lemma runs_inv c labs c' :
  runs c labs c' → inv c.1 c.2 →
  inv c'.1 c'.2 ∧ c.1 ≤ c'.1 ∧ m_fragmentExpirationTimeout c'.2 = m_fragmentExpirationTimeout c.2.
Proof.
  induction 1 as [|labs [now s] lab [now' s'] _ IH Hs]; intros I; [by split; [|split; [lia|]]|].
  destruct (IH I) as (I1 & Hle & HT). destruct (step_inv _ _ _ _ _ I1 Hs) as (I2 & ? & ?). cbn in *. split; [done|]. split; [lia|congruence].
Qed.

Lemma inv_init T now : 0 ≤ T → 0 ≤ now → now + T < 2 ^ 63 → inv now (mkReassembly ∅ T [] [] 0).
Proof.
  intros HT Hn Hmax. constructor; [constructor|constructor|done|done]; cbn; try by constructor.
  - by intros e l [=].
  - by intros e ?%not_elem_of_nil.
Qed.

Lemma reachable_inv T now s : reachable T now s → inv now s ∧ m_fragmentExpirationTimeout s = T.
Proof.
  intros (now0 & labs & HT & Hn & Hmax & Hr). destruct (runs_inv _ _ _ Hr) as (I & _ & E); [by apply inv_init|]. done.
Qed.

(** C31 Timeouts of reassembly: in every state a node can get into, with fragments of any
    offset, size below 2^32 and order, duplicated, overlapping or with gaps: processing a fragment and
    handling a timeout return; every incomplete packet has exactly one entry in the list of
    timeouts, that its first fragment made for [T] later and that no other fragment changes;
    a timeout drops the packets whose time has come and no other, each with the header and
    interface of its first fragment; and once the pending calls of this moment have run no
    packet is past its time. *)
Theorem reassembly_timeouts T now s :
  reachable T now s →
  (∀ p h iif, psize p < 2 ^ 32 → ∃ r s', ProcessFragment now p h iif s = Ok (r, s') ∧
     ∀ e, e ∈ m_timeoutEventList s' → e ∈ m_timeoutEventList s ∨
       (to_key e = fragment_key h ∧ m_fragments s !! fragment_key h = None ∧ to_time e = now + T)) ∧
  (∀ key, is_Some (m_fragments s !! key) ↔ ∃ e, e ∈ m_timeoutEventList s ∧ to_key e = key) ∧
  NoDup (to_key <$> m_timeoutEventList s) ∧
  (now ∈ m_timeoutEvents s → ∃ n s' l1 l2, IpFragments.fire now s = Ok (n, s') ∧
     m_timeoutEventList s = l1 ++ l2 ∧ m_timeoutEventList s' = l2 ∧
     Forall (λ e, to_time e = now) l1 ∧ Forall (λ e, now < to_time e) l2 ∧
     drops n = (λ e, (to_header e, to_iif e)) <$> l1 ∧
     (∀ k, m_fragments s' !! k = if bool_decide (k ∈ to_key <$> l1) then None else m_fragments s !! k)) ∧
  (Forall (Z.lt now) (m_timeoutEvents s) → Forall (λ e, now < to_time e ≤ now + T) (m_timeoutEventList s)).
Proof.
  intros Hr. destruct (reachable_inv _ _ _ Hr) as [I HT]. pose proof I as [[Hs Ht Hk Hi Hn He Hev] [Hbk Hbe] _ _]. conj.
  - intros p h iif Hp. destruct (ProcessFragment_ok now p h iif s I Hp) as (r & s' & E & _ & _ & _ & Hent & _).
    exists r, s'. split; [done|]. intros e [Hein|(? & ? & ?)]%Hent; [by left|right]. by rewrite <- HT.
  - intros key. split.
    + intros [f Hf]. by apply (Hbe key f).
    + intros (e & Hein & <-). destruct (Hbk e Hein) as (f & Hf & _). by exists f.
  - done.
  - intros Hin. destruct (fire_ok now s I Hin) as (n & s' & l1 & l2 & E & _ & _ & ?). by exists n, s', l1, l2.
  - intros Hlt. destruct (m_timeoutEventList s) as [|e l]; [constructor|]. destruct (Hev e l eq_refl) as (t & Htin & Hle).
    rewrite Forall_forall in Hlt. rewrite Forall_forall in Ht. specialize (Hlt t Htin). apply StronglySorted_cons in Hs as [Hall _].
    apply Forall_forall. intros e' He'. pose proof (Ht e' He'). split; [|lia]. rewrite Forall_forall in Hall.
    apply elem_of_cons in He' as [->|He']; [lia|]. specialize (Hall e' He'). unfold by_time in Hall. lia.
Qed.

(** ** One packet is reassembled *)

(** The fragments with the key [key] that have arrived, the latest first. *)
Definition received (key : FragmentKey_t) (labs : list label) : list (Packet * Ipv4Header) :=
  omap (λ lab, match lab with
               | LRecv p h _ _ => if bool_decide (fragment_key h = key) then Some (p, h) else None
               | _ => None
               end) labs.

Lemma received_cons key lab labs :
  received key (lab :: labs) = received key labs ∨ ∃ x, received key (lab :: labs) = x :: received key labs.
Proof. unfold received. cbn. destruct lab; auto. case_bool_decide; eauto. Qed.

Section packet.
Context (D : Packet) (HD : 0 < psize D < 2 ^ 16) (l : list (Packet * Ipv4Header)) (Hcuts : cuts 0 true D l).
Context (key : FragmentKey_t) (T start : Z).

(** The node holds the fragments [R] of the packet, and not for longer than [T] from [start]. *)
Definition holding (R : list (Packet * Ipv4Header)) (s : Reassembly) : Prop :=
  match m_fragments s !! key with
  | None => R = []
  | Some f => collects D l R f ∧ ∀ e, e ∈ m_timeoutEventList s → to_key e = key → start + T ≤ to_time e
  end.

(** A fragment of the packet arrives. *)
Lemma holding_recv R now s p h iif :
  inv now s → m_fragmentExpirationTimeout s = T → start ≤ now → holding R s → (p, h) ∈ l → fragment_key h = key →
  ∃ r s', ProcessFragment now p h iif s = Ok (r, s') ∧
    (((∀ x, x ∈ l → x ∈ (p, h) :: R) ∧ r = Some D ∧ m_fragments s' !! key = None) ∨
     (¬ (∀ x, x ∈ l → x ∈ (p, h) :: R) ∧ r = None ∧ holding ((p, h) :: R) s')).
Proof using HD Hcuts.
  intros I HT Hstart Hh Hin Hk. destruct (fragment_piece D l Hcuts (p, h) Hin) as [[H0 H1 _] _].
  unfold view, fend in *. cbn [fst snd] in *.
  destruct (ProcessFragment_ok now p h iif s I) as (r & s' & E & I' & HT' & _ & Hent & Hres); [lia|]. rewrite Hk in *.
  exists r, s'. split; [done|]. set (f := default (Fragments_new (next_iter s)) (m_fragments s !! key)) in *.
  assert (collects D l R f) as Hc.
  { unfold f, holding in *. destruct (m_fragments s !! key); [by destruct Hh|]. rewrite Hh. apply collects_new. }
  apply (collects_add D l Hcuts R f (p, h)) in Hc; [|done]. cbn [fst snd] in Hc. fold f in Hres.
  pose proof (collects_entire D HD l Hcuts _ _ Hc) as Hiff. destruct (IsEntire _) eqn:Ent.
  - left. destruct Hres as [(q & Hq & ->) Hnone]. split; [by apply Hiff|]. split; [|done].
    destruct Hc as [Hb _ _ _]. rewrite (GetPacket_ok D) in Hq by (done || lia). by injection Hq as <-.
  - right. destruct Hres as [-> Hs]. split; [intros Hall; by apply Hiff in Hall|]. split; [done|]. unfold holding. rewrite Hs.
    split; [done|]. intros e He Hke. destruct (Hent e He) as [He2|(_ & _ & ->)]; [|lia].
    unfold holding in Hh. destruct (m_fragments s !! key) as [f0|] eqn:Ef; [by apply Hh|]. exfalso.
    destruct I as [_ [Hbk _] _ _]. destruct (Hbk e He2) as (f0 & Hf0 & _). rewrite Hke in Hf0. congruence.
Qed.

(** Anything else happens, before the time is over. *)
Lemma holding_other R now s lab now' s' :
  inv now s → m_fragmentExpirationTimeout s = T → now' < start + T → holding R s → step (now, s) lab (now', s') →
  (∀ p h iif r, lab = LRecv p h iif r → fragment_key h ≠ key) → holding R s'.
Proof using HD Hcuts.
  intros I HT Hnow Hh Hs Hlab. inversion Hs as [? ? ? Hle Hev Hmax|? ? p h iif r ? Hp E|? ? ? ? Hin E]; subst; [done| |].
  - destruct (ProcessFragment_ok now' p h iif s I Hp) as (r' & s1 & E1 & _ & _ & Hother & Hent & _).
    rewrite E in E1. injection E1 as -> ->. unfold holding. rewrite Hother by (intros ->; by eapply Hlab).
    unfold holding in Hh. destruct (m_fragments s !! key); [|done]. destruct Hh as [Hc Ht]. split; [done|].
    intros e He Hke. destruct (Hent e He) as [He2|(Hke2 & _)]; [by apply Ht|]. exfalso. eapply Hlab; [done|]. congruence.
  - destruct (fire_ok now' s I Hin) as (n' & s1 & l1 & l2 & E1 & _ & _ & El & El2 & Hl1 & _ & _ & Hmap).
    rewrite E in E1. injection E1 as -> ->. unfold holding. rewrite Hmap. unfold holding in Hh.
    destruct (m_fragments s !! key) as [f|] eqn:Ef; [|by case_bool_decide].
    destruct Hh as [Hc Ht]. rewrite bool_decide_false.
    + split; [done|]. intros e He. apply Ht. rewrite El, <- El2. set_solver.
    + intros (e & -> & He)%list_elem_of_fmap. rewrite Forall_forall in Hl1. specialize (Hl1 e He).
      specialize (Ht e ltac:(rewrite El; set_solver) eq_refl). lia.
Qed.

Lemma holding_runs s0 labs now s :
  runs (start, s0) labs (now, s) → inv start s0 → m_fragmentExpirationTimeout s0 = T → m_fragments s0 !! key = None →
  now < start + T → (∀ x, x ∈ received key labs → x ∈ l) → ¬ (∀ x, x ∈ l → x ∈ received key labs) →
  inv now s ∧ start ≤ now ∧ m_fragmentExpirationTimeout s = T ∧ holding (received key labs) s ∧
  ∀ p h iif r, LRecv p h iif r ∈ labs → fragment_key h = key → r = None.
Proof using HD Hcuts.
  intros Hr I0 HT0 Hnone. remember (now, s) as c eqn:Ec. revert now s Ec.
  induction Hr as [|labs [now1 s1] lab c' Hr IH Hs]; intros now s Ec Hnow Hfrom Hnot.
  - injection Ec as <- <-. conj; try done; [by unfold holding; rewrite Hnone|]. by intros p h iif r ?%not_elem_of_nil.
  - subst c'. assert (∀ x, x ∈ received key labs → x ∈ received key (lab :: labs)) as Hsub.
    { intros x Hx. destruct (received_cons key lab labs) as [->|[y ->]]; [done|by right]. }
    destruct (runs_inv _ _ _ Hr I0) as (I1 & Hle1 & HT1). cbn in I1, Hle1, HT1.
    destruct (step_inv _ _ _ _ _ I1 Hs) as (I2 & Hle2 & HT2).
    destruct (IH now1 s1 eq_refl) as (_ & _ & _ & Hh & Hres); [lia|by intros x Hx; apply Hfrom, Hsub|by intros Hall; apply Hnot; intros x Hx; apply Hsub, Hall|].
    split; [done|]. split; [lia|]. split; [congruence|].
    destruct lab as [|p h iif r|n].
    + split; [|by intros p h iif r [[=]|?]%elem_of_cons; eauto].
      apply (holding_other (received key labs) now1 s1 LTime now); [done|congruence|done|done|done|by intros].
    + destruct (decide (fragment_key h = key)) as [Hk|Hk].
      * assert (received key (LRecv p h iif r :: labs) = (p, h) :: received key labs) as Er.
        { unfold received. cbn. by rewrite bool_decide_true. }
        rewrite Er in *. inversion Hs as [|? ? ? ? ? ? ? Hp E|]; subst.
        destruct (holding_recv (received key labs) now s1 p h iif) as (r' & s' & E' & Hcase); try done; [congruence|apply Hfrom; by left|].
        rewrite E in E'. injection E' as <- <-. destruct Hcase as [[Hall _]|(_ & -> & Hh2)]; [done|]. split; [done|].
        intros p' h' iif' r' [[= -> -> -> ->]|Hin]%elem_of_cons Hk'; [done|by eapply Hres].
      * assert (received key (LRecv p h iif r :: labs) = received key labs) as Er.
        { unfold received. cbn. by rewrite bool_decide_false. }
        rewrite Er in *. split.
        -- apply (holding_other (received key labs) now1 s1 (LRecv p h iif r) now); [done|congruence|done|done|done|by intros ? ? ? ? [= -> -> -> ->]].
        -- intros p' h' iif' r' [[= -> -> -> ->]|Hin]%elem_of_cons Hk'; [done|by eapply Hres].
    + split; [|by intros p h iif r [[=]|?]%elem_of_cons; eauto].
      apply (holding_other (received key labs) now1 s1 (LFire n) now); [done|congruence|done|done|done|by intros].
Qed.
End packet.

Lemma is_fragment_of_two D l x :
  cuts 0 true D l → (2 ≤ length l)%nat → x ∈ l →
  negb (IsLastFragment x.2) || negb (GetFragmentOffset x.2 =? 0) = true ∧ GetFragmentOffset x.2 < psize D.
Proof.
  intros Hc Hlen Hx. destruct (cuts_ok _ _ _ _ Hc) as (Hpc & _ & Hdis). destruct (Hpc x Hx) as (H0 & H1 & H2 & _ & H3 & H4).
  unfold view, fend in *. cbn [fst snd] in *. split; [|lia].
  destruct (IsLastFragment x.2) eqn:El; [|done]. destruct (Z.eqb_spec (GetFragmentOffset x.2) 0) as [Ho|]; [|done].
  assert (GetFragmentOffset x.2 + psize x.1 = psize D) as He.
  { destruct (Z.lt_ge_cases (GetFragmentOffset x.2 + psize x.1) (0 + psize D)) as [Hlt|]; [|lia]. by specialize (H4 Hlt). }
  exfalso. destruct l as [|a [|b l]]; cbn in Hlen; try lia.
  assert (∀ y, y ∈ a :: b :: l → y = x) as Hall.
  { intros y Hy. destruct (Hpc y Hy) as (? & ? & ? & _). unfold view, fend in *. cbn [fst snd] in *.
    apply (Hdis (GetFragmentOffset y.2)); (split; [done|]); unfold view, fend; cbn [fst snd]; lia. }
  pose proof (Hall a ltac:(left)) as ->. pose proof (Hall b ltac:(right; left)) as ->.
  destruct x as [q h]. apply cuts_cons in Hc as (_ & _ & p' & -> & _ & Hl2). cbn in He, Ho.
  destruct (cuts_ok _ _ _ _ Hl2) as (Hpc2 & _). destruct (Hpc2 (q, h) ltac:(left)) as (_ & ? & _). cbn in *. lia.
Qed.

(** C9 Reassembly: the fragments of a datagram, cut once or several times on the way, arrive
    in any order and any number of times, between fragments of other packets, time passing
    and timeouts of other packets, from a state without a buffer for the packet and within
    [T] of it.  As long as one has not arrived nothing is delivered for them; when the last
    missing one arrives the datagram is delivered, byte for byte, with a header of offset 0
    and its size, and its buffer is gone. *)
Theorem reassembly_roundtrip D l key T start s0 labs now s :
  0 < psize D < 2 ^ 16 → cuts 0 true D l → (2 ≤ length l)%nat → Forall (λ x, fragment_key x.2 = key) l →
  reachable T start s0 → m_fragments s0 !! key = None →
  runs (start, s0) labs (now, s) → now < start + T →
  (∀ x, x ∈ received key labs → x ∈ l) → ¬ (∀ x, x ∈ l → x ∈ received key labs) →
  (∀ p h iif r, LRecv p h iif r ∈ labs → fragment_key h = key → r = None) ∧
  ∀ p h iif, (p, h) ∈ l → (∀ x, x ∈ l → x = (p, h) ∨ x ∈ received key labs) →
    ∃ h' s', LocalDeliver_reassemble now p h iif s = Ok (Some (D, h'), s') ∧
      same_datagram h h' ∧ GetFragmentOffset h' = 0 ∧ m_payloadSize h' = psize D ∧
      m_fragments s' !! key = None.
Proof.
  intros HD Hc Hlen Hkeys Hr Hnone Hruns Hnow Hfrom Hnot. destruct (reachable_inv _ _ _ Hr) as [I0 HT0].
  destruct (holding_runs D HD l Hc key T start s0 labs now s) as (I & Hle & HT & Hh & Hres); try done.
  split; [exact Hres|]. intros p h iif Hin Hall. rewrite Forall_forall in Hkeys. pose proof (Hkeys _ Hin) as Hk. cbn in Hk.
  destruct (holding_recv D HD l Hc key T start (received key labs) now s p h iif) as (r & s' & E & Hcase); try done.
  assert (∀ x, x ∈ l → x ∈ (p, h) :: received key labs) as Hall2.
  { intros x Hx. destruct (Hall x Hx) as [->|?]; [by left|by right]. }
  destruct Hcase as [(_ & -> & Hs')|[Hno _]]; [|done].
  destruct (is_fragment_of_two D l (p, h) Hc Hlen Hin) as [Hfrag _]. cbn [snd] in Hfrag.
  unfold LocalDeliver_reassemble. rewrite Hfrag, E. res_simpl. unfold SetFragmentOffset.
  cbn [Z.land Z.eqb ns_abort_unless mbind res_bind]. eexists _, s'. split; [done|]. cbn -[wrap].
  rewrite wrap_id by zlia. conj; try done.
Qed.

(** The middle fragment arrives first, then the last, twice, then the first. *)
Definition demo_fragments : list (Packet * Ipv4Header) :=
  match SendRealOut_frames false 40 demo_packet demo_header with Ok l => l | Err _ => [] end.
Definition demo_fragment (i : nat) : Packet * Ipv4Header := default ([], Ipv4Header_new) (demo_fragments !! i).
Definition demo_recv (i : nat) (s : Reassembly) : Reassembly :=
  match ProcessFragment 5 (demo_fragment i).1 (demo_fragment i).2 1 s with Ok (_, s') => s' | Err _ => s end.
Definition demo_start : Reassembly := mkReassembly ∅ 30 [] [] 0.
Definition demo_state : Reassembly := demo_recv 2 (demo_recv 2 (demo_recv 1 demo_start)).

Lemma demo_fragments_eq : demo_fragments = [demo_fragment 0; demo_fragment 1; demo_fragment 2].
Proof. by vm_compute. Qed.

Lemma demo_fragment_neq i j :
  (GetFragmentOffset (demo_fragment i).2 =? GetFragmentOffset (demo_fragment j).2) = false → demo_fragment i ≠ demo_fragment j.
Proof. intros H E. rewrite E, Z.eqb_refl in H. done. Qed.

Definition demo_label (i : nat) : label := LRecv (demo_fragment i).1 (demo_fragment i).2 1 None.
Definition demo_labels : list label := [demo_label 2; demo_label 2; demo_label 1].

Lemma demo_runs : runs (5, demo_start) demo_labels (5, demo_state).
Proof.
  apply (runs_cons _ _ (5, demo_recv 2 (demo_recv 1 demo_start)));
    [apply (runs_cons _ _ (5, demo_recv 1 demo_start)); [apply (runs_cons _ _ (5, demo_start)); [constructor|]|]|];
    apply step_recv; (apply Z.ltb_lt || idtac); vm_compute; reflexivity.
Qed.

Lemma reassembly_roundtrip_witness :
  ∃ h' s', LocalDeliver_reassemble 5 (demo_fragment 0).1 (demo_fragment 0).2 1 demo_state = Ok (Some (demo_packet, h'), s') ∧
    m_payloadSize h' = 40.
Proof.
  assert (received (fragment_key demo_header) demo_labels = [demo_fragment 2; demo_fragment 2; demo_fragment 1]) as Hrec by by vm_compute.
  destruct (reassembly_roundtrip demo_packet demo_fragments (fragment_key demo_header) 30 5 demo_start
    demo_labels 5 demo_state) as [_ H].
  - by vm_compute.
  - vm_compute. conj; try done. eexists. conj; try done. eexists. conj; done.
  - vm_compute. lia.
  - repeat constructor.
  - exists 5, []. conj; try lia. constructor.
  - done.
  - exact demo_runs.
  - lia.
  - intros x. rewrite Hrec, demo_fragments_eq, !elem_of_cons. tauto.
  - intros Hall. specialize (Hall (demo_fragment 0)). rewrite Hrec, demo_fragments_eq, !elem_of_cons, elem_of_nil in Hall.
    destruct (Hall (or_introl eq_refl)) as [E|[E|[E|[]]]]; revert E; apply demo_fragment_neq; by vm_compute.
  - destruct (H (demo_fragment 0).1 (demo_fragment 0).2 1) as (h' & s' & E & _ & _ & Hp & _).
    + rewrite demo_fragments_eq. destruct (demo_fragment 0). by left.
    + intros x. rewrite Hrec, demo_fragments_eq, !elem_of_cons. destruct (demo_fragment 0). tauto.
    + exists h', s'. split; [exact E|]. rewrite Hp. by vm_compute.
Defined.

(** The timeout of the packet of which the first fragment is missing. *)
Lemma reassembly_timeouts_witness :
  ∃ n s', IpFragments.fire 35 demo_state = Ok (n, s') ∧ drops n = [((demo_fragment 1).2, 1)] ∧
    m_fragments s' !! fragment_key demo_header = None.
Proof.
  assert (reachable 30 35 demo_state) as Hr.
  { exists 5, (LTime :: demo_labels). conj; try lia. apply (runs_cons _ _ (5, demo_state)); [exact demo_runs|].
    apply step_time; [lia| |by vm_compute]. by repeat constructor. }
  destruct (reassembly_timeouts 30 35 demo_state Hr) as (_ & _ & _ & Hfire & _).
  destruct Hfire as (n & s' & l1 & l2 & E & El & _ & Hl1 & Hl2 & Hd & Hm); [by left|].
  exists n, s'. split; [exact E|]. destruct l1 as [|e [|]]; [exfalso| |discriminate].
  - cbn in El. rewrite <- El in Hl2. apply Forall_cons in Hl2 as [Hlt _]. vm_compute in Hlt. done.
  - injection El as <- <-. split; [by rewrite Hd|]. rewrite Hm. by vm_compute.
Defined.

(** A datagram of 24 bytes cut in two ways: bytes 8 to 24 arrive as a last fragment, then bytes
    8 to 16 of it as a fragment of another cut, and the first 8 bytes.  All bytes are there and
    the last fragment as well, but the packet is not complete: the fragment with the same
    offset, that came later, is the one whose flag counts. *)
Lemma equal_offset_never_complete :
  let D := seqZ 0 24 in
  let f := AddFragment (slice 0 8 D) 0 true (AddFragment (slice 8 8 D) 8 true
             (AddFragment (slice 8 16 D) 8 false (Fragments_new 0))) in
  IsEntire f = false ∧ IsEntire_loop 0 (f_fragments f) = true ∧ GetPacket f = Ok D.
Proof. by vm_compute. Qed.
