(* ===== verification/Ipv4L3.v ===== *)
(** * Sending, receiving and forwarding (internet/model/ipv4-l3-protocol.cc, ipv4-interface.cc)

    [Ipv4L3Protocol] over any routing protocol: [Send], [Receive], [IpForward], [LocalDeliver], the
    protocols above it and the detection of duplicates.  A function lists what it does to the
    outside as [Event]s in order.  A packet is its bytes; of its tags those that IP reads (time to live,
    type of service) and writes (priority) are arguments and parts of events. *)

From S2P Require Import Prelude Buffer BufferCorrect Address Ipv4Address ByteIter BufferIter Ipv4Header NsTime IpFragments IpInterfaces.
Local Open Scope Z_scope.

(** ** Headers in packets *)

(** [packet.cc] Packet::AddHeader

    On bytes, for a header that writes as much as it says. *)
Definition AddHeader (header : Ipv4Header) (p : Packet) : res Packet :=
  let size := GetSerializedSize header in
  Serialize (H := flat_iter (size + psize p)) header 0 (replicate (Z.to_nat size) 0 ++ p).

(** [packet.cc:293-302] Packet::RemoveHeader *)
Definition RemoveHeader (header : Ipv4Header) (p : Packet) : res (Ipv4Header * Packet) :=
  '(deserialized, header) ← Deserialize (H := flat_iter (psize p)) header 0 p;
  Ok (header, drop (Z.to_nat deserialized) p).

(** [packet.cc] Packet::RemoveAtEnd *)
Definition Packet_RemoveAtEnd (size : Z) (p : Packet) : Packet := take (Z.to_nat (psize p - size)) p.

(** ** What happens outside *)

(** [ipv4-l3-protocol.h:93-102] Ipv4L3Protocol::DropReason *)
Inductive DropReason := DROP_TTL_EXPIRED | DROP_NO_ROUTE | DROP_BAD_CHECKSUM | DROP_INTERFACE_DOWN | DROP_ROUTE_ERROR | DROP_FRAGMENT_TIMEOUT | DROP_DUPLICATE.

(** The hardware address of a frame: broadcast, that of a multicast group, or the one that ARP finds
    for an IP address (when and whether it does is up to [ArpL3Protocol]). *)
Inductive Hardware := HwBroadcast | HwMulticast (group : Ipv4Address) | HwLookup (dest : Ipv4Address).

(** [TcSend]: [m_tc->Send], the header is added when the packet leaves its queue.  [TcReceive]:
    [m_tc->Receive], back to this node.  [Loopback]: to the loopback device. *)
Inductive Event :=
  | TcSend (dev : Z) (hardware : Hardware) (p : Packet) (hdr : Ipv4Header) (priority : option Z)
  | TcReceive (dev : Z) (frame : Packet)
  | Loopback (dev : Z) (frame : Packet)
  | Drop (hdr : Ipv4Header) (p : Packet) (reason : DropReason) (interface : Z)
  | TimeExceededTtl (hdr : Ipv4Header) (p : Packet)
  | DestUnreachPort (hdr : Ipv4Header) (p : Packet)
  | ForwardUp (socket : Z) (p : Packet) (hdr : Ipv4Header) (interface : Z)
  | ToProtocol (protocol : Z) (p : Packet) (hdr : Ipv4Header) (interface : Z).

(** ** State *)

(** [ipv4-l3-protocol.h:628-632] Ipv4L3Protocol

    The members of the detection of duplicates.  [m_cleanDpd]: when the cleanup runs, if it is
    scheduled. *)
Record Dpd := mkDpd { m_enableDpd : bool; m_dups : gmap (Z * Z * Z * Z) Z; m_expire : Z; m_purge : Z; m_cleanDpd : option Z }.

(** [ipv4-l3-protocol.h:497-499] Ipv4L3Protocol

    Protocols and raw sockets are numbers. *)
Record Ipv4L3 (P : Type) := mkL3 {
  l3_ip : Ipv4;
  m_protocols : gmap (Z * Z) Z;
  m_routingProtocol : option P;
  m_sockets : list Z;
  l3_reassembly : Reassembly;
  l3_dpd : Dpd
}.
Arguments mkL3 {P} _ _ _ _ _ _.
Arguments l3_ip {P} _.
Arguments m_protocols {P} _.
Arguments m_routingProtocol {P} _.
Arguments m_sockets {P} _.
Arguments l3_reassembly {P} _.
Arguments l3_dpd {P} _.

(** [ip-l4-protocol.h:57-63] IpL4Protocol::RxStatus *)
Inductive RxStatus := RX_OK | RX_CSUM_FAILED | RX_ENDPOINT_CLOSED | RX_ENDPOINT_UNREACH.

(** [socket.cc] Socket::IpTos2Priority *)
Definition IpTos2Priority (ipTos : Z) : Z :=
  let k := Z.shiftr (Z.land ipTos 0x1e) 1 in
  if k <? 4 then 0 (* NS3_PRIO_BESTEFFORT *) else if k <? 8 then 2 (* NS3_PRIO_BULK *)
  else if k <? 12 then 6 (* NS3_PRIO_INTERACTIVE *) else 4 (* NS3_PRIO_INTERACTIVE_BULK *).

(** The key of a source and destination. *)
Definition srcDst (source destination : Ipv4Address) : Z := Z.lor (m_address destination) (Z.shiftl (m_address source) 32).

(** ** Identifications *)

Definition set_identification (m : gmap (Z * Z) Z) (ip : Ipv4) : Ipv4 :=
  mkIpv4L3 (m_ipForward ip) (m_weakEsModel ip) (m_interfaces ip) (m_reverseInterfaces ip) (m_defaultTtl ip) m.
Definition identification (source destination : Ipv4Address) (protocol : Z) (ip : Ipv4) : Z :=
  default 0 (IpInterfaces.m_identification ip !! (srcDst source destination, protocol)).

(** [ipv4-l3-protocol.cc] Ipv4L3Protocol::DecreaseIdentification *)
Definition DecreaseIdentification (source destination : Ipv4Address) (protocol : Z) (ip : Ipv4) : Ipv4 :=
  set_identification (<[(srcDst source destination, protocol) := u16 (identification source destination protocol ip - 1)]> (IpInterfaces.m_identification ip)) ip.

Section protocol.
Context {P : Type} `{RoutingProtocol P}.
(** What devices say of themselves, whether checksums are computed, what the protocols above
    return for a packet, and the hash of the duplicate detection (core/model/hash.cc). *)
Context (GetMtu : Z → Z) (IsLoopback NeedsArp SupportsMulticast : Z → bool) (checksumEnabled : bool).
Context (L4Receive : Z → Packet → Ipv4Header → Z → RxStatus) (Hash32 : list Z → Z).

Definition with_ip (ip : Ipv4) (s : Ipv4L3 P) : Ipv4L3 P := mkL3 ip (m_protocols s) (m_routingProtocol s) (m_sockets s) (l3_reassembly s) (l3_dpd s).
Definition with_protocols (m : gmap (Z * Z) Z) (s : Ipv4L3 P) : Ipv4L3 P := mkL3 (l3_ip s) m (m_routingProtocol s) (m_sockets s) (l3_reassembly s) (l3_dpd s).
Definition with_routing (rp : option P) (s : Ipv4L3 P) : Ipv4L3 P := mkL3 (l3_ip s) (m_protocols s) rp (m_sockets s) (l3_reassembly s) (l3_dpd s).
Definition with_reassembly (r : Reassembly) (s : Ipv4L3 P) : Ipv4L3 P := mkL3 (l3_ip s) (m_protocols s) (m_routingProtocol s) (m_sockets s) r (l3_dpd s).
Definition with_dpd (d : Dpd) (s : Ipv4L3 P) : Ipv4L3 P := mkL3 (l3_ip s) (m_protocols s) (m_routingProtocol s) (m_sockets s) (l3_reassembly s) d.

(** [ipv4-l3-protocol.cc:938-983] Ipv4L3Protocol::BuildHeader *)
Definition BuildHeader (source destination : Ipv4Address) (protocol payloadSize ttl tos : Z) (mayFragment : bool) (ip : Ipv4) : Ipv4Header * Ipv4 :=
  let ipHeader := SetTos tos (SetTtl ttl (SetPayloadSize payloadSize (SetProtocol protocol (SetDestination destination (SetSource source Ipv4Header_new))))) in
  let key := (srcDst source destination, protocol) in
  let ipHeader := SetIdentification (identification source destination protocol ip) (if mayFragment then SetMayFragment ipHeader else SetDontFragment ipHeader) in
  let ip := set_identification (<[key := u16 (identification source destination protocol ip + 1)]> (IpInterfaces.m_identification ip)) ip in
  (if checksumEnabled then EnableChecksum ipHeader else ipHeader, ip).

(** ** Protocols *)

(** [ipv4-l3-protocol.cc:147-157] Ipv4L3Protocol::Insert *)
Definition Insert (number protocol : Z) (s : Ipv4L3 P) : Ipv4L3 P := with_protocols (<[(number, -1) := protocol]> (m_protocols s)) s.
(** [ipv4-l3-protocol.cc:159-171] Ipv4L3Protocol::Insert *)
Definition Insert_interface (number protocol interfaceIndex : Z) (s : Ipv4L3 P) : Ipv4L3 P := with_protocols (<[(number, interfaceIndex) := protocol]> (m_protocols s)) s.
(** [ipv4-l3-protocol.cc:173-189] Ipv4L3Protocol::Remove *)
Definition Remove (number : Z) (s : Ipv4L3 P) : Ipv4L3 P := with_protocols (delete (number, -1) (m_protocols s)) s.
(** [ipv4-l3-protocol.cc:191-208] Ipv4L3Protocol::Remove *)
Definition Remove_interface (number interfaceIndex : Z) (s : Ipv4L3 P) : Ipv4L3 P := with_protocols (delete (number, interfaceIndex) (m_protocols s)) s.
(** [ipv4-l3-protocol.cc:218-244] Ipv4L3Protocol::GetProtocol *)
Definition GetProtocol (protocolNumber interfaceIndex : Z) (s : Ipv4L3 P) : option Z :=
  match (if 0 <=? interfaceIndex then m_protocols s !! (protocolNumber, interfaceIndex) else None) with
  | Some protocol => Some protocol
  | None => m_protocols s !! (protocolNumber, -1)
  end.

(** [ipv4-l3-protocol.cc] Ipv4L3Protocol::GetIcmp

    Its result is always dereferenced. *)
Definition GetIcmp (s : Ipv4L3 P) : res Z := deref (GetProtocol 1 (-1) s).

(** ** Output *)

(** [ipv4-interface.cc:249-289] Ipv4Interface::Send

    The hardware address for an IP address. *)
Definition hardware_destination (i : Ipv4Interface) (dest : Ipv4Address) : res Hardware :=
  if NeedsArp (m_device i) then
    if IsBroadcast dest then Ok HwBroadcast
    else if IsMulticast dest then _ ← ns_assert (SupportsMulticast (m_device i)); Ok (HwMulticast dest)
    else if existsb (λ a, IsSubnetDirectedBroadcast (a_mask a) dest) (m_ifaddrs i) then Ok HwBroadcast
    else Ok (HwLookup dest)
  else Ok HwBroadcast.

(** [ipv4-interface.cc] Ipv4Interface::Send *)
Definition Interface_Send (i : Ipv4Interface) (p : Packet) (priority : option Z) (hdr : Ipv4Header) (dest : Ipv4Address) : res (list Event) :=
  let device := m_device i in
  if negb (m_ifup i) then Ok []
  else if IsLoopback device then frame ← AddHeader hdr p; Ok [Loopback device frame]
  else if existsb (λ a, ipv4_eq dest (a_local a)) (m_ifaddrs i) then frame ← AddHeader hdr p; Ok [TcReceive device frame]
  else hardwareDestination ← hardware_destination i dest; Ok [TcSend device hardwareDestination p hdr priority].

Fixpoint send_all (i : Ipv4Interface) (priority : option Z) (target : Ipv4Address) (l : list (Packet * Ipv4Header)) : res (list Event) :=
  match l with
  | [] => Ok []
  | (p, hdr) :: l => e ← Interface_Send i p priority hdr target; es ← send_all i priority target l; Ok (e ++ es)
  end.

(** [ipv4-l3-protocol.cc] Ipv4L3Protocol::SendRealOut *)
Definition SendRealOut (route : option Ipv4Route) (packet : Packet) (priority : option Z) (ipHeader : Ipv4Header) (ip : Ipv4) : res (list Event) :=
  match route with
  | None => Ok [Drop ipHeader packet DROP_NO_ROUTE 0]
  | Some route =>
      let interface := GetInterfaceForDevice (r_device route) ip in
      _ ← ns_assert (0 <=? interface);
      outInterface ← GetInterface interface ip;
      let target := if IsAny (r_gateway route) then m_destination ipHeader else r_gateway route in
      if m_ifup outInterface then
        frames ← SendRealOut_frames checksumEnabled (GetMtu (m_device outInterface)) packet ipHeader;
        send_all outInterface priority target frames
      else Ok []
  end.

(** [ipv4-l3-protocol.cc] Ipv4L3Protocol::SendWithHeader *)
Definition SendWithHeader (packet : Packet) (priority : option Z) (ipHeader : Ipv4Header) (route : option Ipv4Route) (ip : Ipv4) : res (list Event) :=
  SendRealOut route packet priority (if checksumEnabled then EnableChecksum ipHeader else ipHeader) ip.

(** [ipv4-l3-protocol.cc:1047-1074] Ipv4L3Protocol::IpMulticastForward

    The loop over the map of interfaces, in the order of their numbers. *)
Fixpoint IpMulticastForward_loop (l : list Z) (p : Packet) (priority : option Z) (header : Ipv4Header) (ip : Ipv4) : res (list Event) :=
  match l with
  | [] => Ok []
  | interface :: l =>
      let ipHeader := SetTtl (u8 (m_ttl header - 1)) header in
      if m_ttl ipHeader =? 0 then Ok [Drop header p DROP_TTL_EXPIRED interface]
      else
        dev ← GetNetDevice interface ip;
        es ← SendRealOut (Some (mkRoute (m_destination ipHeader) (m_source ipHeader) GetZero dev)) p priority ipHeader ip;
        es' ← IpMulticastForward_loop l p priority header ip;
        Ok (es ++ es')
  end.

(** [ipv4-l3-protocol.cc] Ipv4L3Protocol::IpMulticastForward *)
Definition IpMulticastForward (mrtentry : Ipv4MulticastRoute) (p : Packet) (priority : option Z) (header : Ipv4Header) (ip : Ipv4) : res (list Event) :=
  IpMulticastForward_loop (merge_sort Z.le (map_to_list (m_ttls mrtentry)).*1) p priority header ip.

(** [ipv4-l3-protocol.cc] Ipv4L3Protocol::IpForward

    The priority of the packet is replaced or removed. *)
Definition IpForward (rtentry : Ipv4Route) (p : Packet) (header : Ipv4Header) (s : Ipv4L3 P) : res (list Event) :=
  let interface := GetInterfaceForDevice (r_device rtentry) (l3_ip s) in
  let ipHeader := SetTtl (u8 (m_ttl header - 1)) header in
  if m_ttl ipHeader =? 0 then
    icmp ← (if negb (IsBroadcast (m_destination ipHeader)) && negb (IsMulticast (m_destination ipHeader)) then _ ← GetIcmp s; Ok [TimeExceededTtl ipHeader p] else Ok []);
    Ok (icmp ++ [Drop header p DROP_TTL_EXPIRED (u32 interface)])
  else
    let priority := IpTos2Priority (m_tos ipHeader) in
    SendRealOut (Some rtentry) p (if priority =? 0 then None else Some priority) ipHeader (l3_ip s).

(** ** Duplicates *)

Definition zero_out (k : nat) (bytes : list Z) : list Z := <[k := 0]> bytes.

(** [ipv4-l3-protocol.cc:1790-1825] Ipv4L3Protocol::UpdateDuplicate

    The identification and the offset, or the hash of the packet without the mutable fields of the header. *)
Definition duplicate_hash (p : Packet) (header : Ipv4Header) : res Z :=
  let hash := u64 (Z.shiftl (Ipv4Header.m_identification header) 32) in
  if negb (GetFragmentOffset header =? 0) || negb (IsLastFragment header) then Ok (Z.lor hash (GetFragmentOffset header))
  else
    bytes ← AddHeader header p;
    _ ← ns_assert (20 <=? psize bytes);
    let bytes := zero_out 11 (zero_out 10 (zero_out 8 (zero_out 7 (zero_out 6 (zero_out 1 bytes))))) in
    let size := Z.to_nat (GetSerializedSize header) in
    let bytes := if 20 <? GetSerializedSize header then take 20 bytes ++ replicate (size - 20) 0 ++ drop size bytes else bytes in
    Ok (Z.lor hash (Hash32 bytes)).

(** [ipv4-l3-protocol.cc] Ipv4L3Protocol::UpdateDuplicate *)
Definition UpdateDuplicate (now : Z) (p : Packet) (header : Ipv4Header) (d : Dpd) : res (bool * Dpd) :=
  hash ← duplicate_hash p header;
  t ← int64 (now + m_expire d);
  let clean := match m_cleanDpd d with None => if 0 <? m_purge d then Some (now + m_expire d) else None | Some c => Some c end in
  let key := (hash, m_protocol header, m_address (m_source header), m_address (m_destination header)) in
  let isDup := match m_dups d !! key with Some expires => now <? expires | None => false end in
  Ok (isDup, mkDpd (m_enableDpd d) (<[key := now + m_expire d]> (m_dups d)) (m_expire d) (m_purge d) clean).

(** [ipv4-l3-protocol.cc] Ipv4L3Protocol::RemoveDuplicates

    Run by the simulator when it is due. *)
Definition RemoveDuplicates (now : Z) (d : Dpd) : res Dpd :=
  let dups := filter (λ x, negb (x.2 <? now) = true) (m_dups d) in
  if negb (bool_decide (dups = ∅)) && (0 <? m_purge d) then
    t ← int64 (now + m_purge d); Ok (mkDpd (m_enableDpd d) dups (m_expire d) (m_purge d) (Some (now + m_purge d)))
  else Ok (mkDpd (m_enableDpd d) dups (m_expire d) (m_purge d) None).

(** ** Input *)

(** [ipv4-l3-protocol.cc] Ipv4L3Protocol::RouteInputError *)
Definition RouteInputError (p : Packet) (ipHeader : Ipv4Header) (sockErrno : SocketErrno) : list Event := [Drop ipHeader p DROP_ROUTE_ERROR 0].

Definition subnet_directed (destination : Ipv4Address) (addr : Ipv4InterfaceAddress) : bool :=
  ipv4_eq (CombineMask (a_mask addr) (a_local addr)) (CombineMask (a_mask addr) destination) && IsSubnetDirectedBroadcast (a_mask addr) destination.

(** [ipv4-l3-protocol.cc] Ipv4L3Protocol::LocalDeliver *)
Definition LocalDeliver (now : Z) (packet : Packet) (ip : Ipv4Header) (iif : Z) (s : Ipv4L3 P) : res (list Event * Ipv4L3 P) :=
  '(complete, r) ← LocalDeliver_reassemble now packet ip iif (l3_reassembly s);
  let s := with_reassembly r s in
  match complete with
  | None => Ok ([], s)
  | Some (p, ipHeader) =>
      match GetProtocol (m_protocol ipHeader) iif s with
      | None => Ok ([], s)
      | Some protocol =>
          x ← GetInterface iif (l3_ip s);
          let up := ToProtocol protocol p ipHeader iif in
          match L4Receive protocol p ipHeader iif with
          | RX_ENDPOINT_UNREACH =>
              if IsBroadcast (m_destination ipHeader) || IsMulticast (m_destination ipHeader) || existsb (subnet_directed (m_destination ipHeader)) (m_ifaddrs x) then Ok ([up], s)
              else _ ← GetIcmp s; Ok ([up; DestUnreachPort ipHeader p], s)
          | _ => Ok ([up], s)
          end
      end
  end.

(** A call of [RouteInput] to one of the protocol's callbacks. *)
Definition callback (now : Z) (p : Packet) (priority : option Z) (header : Ipv4Header) (c : Callback) (s : Ipv4L3 P) : res (list Event * Ipv4L3 P) :=
  match c with
  | Ucb r => es ← IpForward r p header s; Ok (es, s)
  | Mcb r => es ← IpMulticastForward r p priority header (l3_ip s); Ok (es, s)
  | Lcb iif => LocalDeliver now p header iif s
  | Ecb e => Ok (RouteInputError p header e, s)
  end.

Fixpoint callbacks (now : Z) (p : Packet) (priority : option Z) (header : Ipv4Header) (l : list Callback) (s : Ipv4L3 P) : res (list Event * Ipv4L3 P) :=
  match l with
  | [] => Ok ([], s)
  | c :: l => '(es, s) ← callback now p priority header c s; '(es', s) ← callbacks now p priority header l s; Ok (es ++ es', s)
  end.

(** [ipv4-l3-protocol.cc:671-683] Ipv4L3Protocol::Receive

    From the detection of duplicates on. *)
Definition Receive_route (now device : Z) (packet : Packet) (priority : option Z) (ipHeader : Ipv4Header) (interface : Z) (s : Ipv4L3 P) : res (list Event * Ipv4L3 P) :=
  '(duplicate, d) ← (if m_enableDpd (l3_dpd s) && IsMulticast (m_destination ipHeader) then UpdateDuplicate now packet ipHeader (l3_dpd s) else Ok (false, l3_dpd s));
  let s := with_dpd d s in
  if duplicate : bool then Ok ([Drop ipHeader packet DROP_DUPLICATE interface], s)
  else
    match m_routingProtocol s with
    | None => Err NsAssert
    | Some rp =>
        '(found, calls, rp) ← RouteInput (l3_ip s) packet ipHeader device true rp;
        '(es, s) ← callbacks now packet priority ipHeader calls (with_routing (Some rp) s);
        Ok (es ++ (if found : bool then [] else [Drop ipHeader packet DROP_NO_ROUTE interface]), s)
    end.

(** [ipv4-l3-protocol.cc] Ipv4L3Protocol::Receive

    Without the update of the ARP cache. *)
Definition Receive (now device : Z) (p : Packet) (priority : option Z) (s : Ipv4L3 P) : res (list Event * Ipv4L3 P) :=
  let interface := GetInterfaceForDevice device (l3_ip s) in
  _ ← ns_assert (negb (interface =? -1));
  ipv4Interface ← GetInterface interface (l3_ip s);
  if negb (m_ifup ipv4Interface) then
    '(ipHeader, packet) ← RemoveHeader Ipv4Header_new p;
    Ok ([Drop ipHeader packet DROP_INTERFACE_DOWN interface], s)
  else
    '(ipHeader, packet) ← RemoveHeader (if checksumEnabled then EnableChecksum Ipv4Header_new else Ipv4Header_new) p;
    let packet := if m_payloadSize ipHeader <? psize packet then Packet_RemoveAtEnd (psize packet - m_payloadSize ipHeader) packet else packet in
    if negb (IsChecksumOk ipHeader) then Ok ([Drop ipHeader packet DROP_BAD_CHECKSUM interface], s)
    else
      '(es, s) ← Receive_route now device packet priority ipHeader interface s;
      Ok (((λ socket, ForwardUp socket packet ipHeader interface) <$> m_sockets s) ++ es, s).

(** ** Send *)

(** [ipv4-l3-protocol.cc:806-830] Ipv4L3Protocol::Send

    With a route.  The tags are those of the packet: time to live, type of service, priority. *)
Definition Send_route (now : Z) (packet : Packet) (ttlTag tosTag priority : option Z) (source destination : Ipv4Address) (protocol : Z) (route : Ipv4Route) (s : Ipv4L3 P) :
    res (list Event * Ipv4L3 P) :=
  let '(ipHeader, ip) := BuildHeader source destination protocol (u16 (psize packet)) (default (m_defaultTtl (l3_ip s)) ttlTag) (default 0 tosTag) true (l3_ip s) in
  let s := with_ip ip s in
  if negb (m_initialized (r_gateway route)) then Err NsFatal
  else
    '(_, d) ← (if m_enableDpd (l3_dpd s) && IsMulticast (m_destination ipHeader) then UpdateDuplicate now packet ipHeader (l3_dpd s) else Ok (false, l3_dpd s));
    es ← SendRealOut (Some route) packet priority ipHeader (l3_ip s);
    Ok (es, with_dpd d s).

(** Whether an interface sends a broadcast of this source. *)
Definition sends_for (source : Ipv4Address) (x : Ipv4Interface) : bool := IsAny source || existsb (λ a, ipv4_eq (a_local a) source) (m_ifaddrs x).

(** [ipv4-l3-protocol.cc:836-865] Ipv4L3Protocol::Send

    To all interfaces: the loop.  All calls are given the same packet, from which the first one takes the tags. *)
Fixpoint Send_broadcast (now : Z) (packet : Packet) (ttlTag tosTag priority : option Z) (source destination : Ipv4Address) (protocol : Z) (l : list Ipv4Interface) (s : Ipv4L3 P) :
    res (list Event * Ipv4L3 P) :=
  match l with
  | [] => Ok ([], s)
  | outInterface :: l =>
      if sends_for source outInterface then
        let s := with_ip (DecreaseIdentification source destination protocol (l3_ip s)) s in
        '(es, s) ← Send_route now packet ttlTag tosTag priority source destination protocol (mkRoute destination source GetZero (m_device outInterface)) s;
        '(es', s) ← Send_broadcast now packet None None priority source destination protocol l s;
        Ok (es ++ es', s)
      else Send_broadcast now packet ttlTag tosTag priority source destination protocol l s
  end.

(** [ipv4-l3-protocol.cc:869-897] Ipv4L3Protocol::Send

    The device for a destination that is the broadcast address of a network of an interface. *)
Fixpoint find_subnet (destination : Ipv4Address) (ip : Ipv4) (l : list Ipv4Interface) : res (option Z) :=
  match l with
  | [] => Ok None
  | outInterface :: l =>
      x ← GetInterface (GetInterfaceForDevice (m_device outInterface) ip) ip;
      if existsb (subnet_directed destination) (m_ifaddrs x) then Ok (Some (m_device outInterface)) else find_subnet destination ip l
  end.

(** [ipv4-l3-protocol.cc] Ipv4L3Protocol::Send *)
Definition Send (now : Z) (packet : Packet) (ttlTag tosTag priority : option Z) (source destination : Ipv4Address) (protocol : Z) (route : option Ipv4Route) (s : Ipv4L3 P) :
    res (list Event * Ipv4L3 P) :=
  match route with
  | Some route => Send_route now packet ttlTag tosTag priority source destination protocol route s
  | None =>
      let '(ipHeader, ip) := BuildHeader source destination protocol (u16 (psize packet)) (default (m_defaultTtl (l3_ip s)) ttlTag) (default 0 tosTag) true (l3_ip s) in
      let s := with_ip ip s in
      if IsBroadcast destination || IsLocalMulticast destination then Send_broadcast now packet ttlTag tosTag priority source destination protocol (m_interfaces ip) s
      else
        subnet ← find_subnet destination ip (m_interfaces ip);
        match subnet with
        | Some device =>
            let s := with_ip (DecreaseIdentification source destination protocol ip) s in
            Send_route now packet ttlTag tosTag priority source destination protocol (mkRoute destination source GetZero device) s
        | None =>
            '(newRoute, rp) ← (match m_routingProtocol s with
                               | None => Ok (None, None)
                               | Some rp => '(newRoute, _, rp) ← RouteOutput ip packet ipHeader 0 rp; Ok (newRoute, Some rp)
                               end);
            let s := with_routing rp (with_ip (DecreaseIdentification source destination protocol ip) s) in
            match newRoute with
            | Some newRoute => Send_route now packet ttlTag tosTag priority source destination protocol newRoute s
            | None => Ok ([Drop ipHeader packet DROP_NO_ROUTE 0], s)
            end
        end
  end.
End protocol.
