(* ===== verification/IpForwarding.v ===== *)
(** * What a node does with a datagram (Ipv4L3)

    Frames as bytes; sending on a link; receiving: what is forwarded, what is delivered.  Then nodes with
    links between them, and the time to live. *)

From S2P Require Import Prelude Buffer BufferCorrect Address Ipv4Address ByteIter BufferIter Ipv4Header NsTime IpFragments IpReassembly IpInterfaces Ipv4L3.
From S2P Require IpTheorems.
Local Open Scope Z_scope.

(** ** Cutting a piece again *)

Lemma cuts_head o last p l : cuts o last p l → p ≠ [] ∧ l ≠ [].
Proof. destruct l as [|[q h] l]; [done|]. intros (Hq & _ & p' & -> & _)%cuts_cons. split; [by destruct q|done]. Qed.

Lemma cuts_app o last p q l l' : cuts o false p l → cuts (o + psize p) last q l' → cuts o last (p ++ q) (l ++ l').
Proof.
  revert o p. induction l as [|[a h] l IH]; intros o p Hl Hl'; [done|]. destruct (cuts_head _ _ _ _ Hl') as [_ Hne].
  destruct l as [|b l].
  - destruct Hl as (-> & Ha & Ho & Hf). destruct l' as [|c l']; [done|]. split; [done|]. split; [done|]. split; [done|]. by exists q.
  - destruct Hl as (Ha & Ho & Hf & p' & -> & Hl). split; [done|]. split; [done|]. split; [done|]. exists (p' ++ q). split; [by rewrite app_assoc|].
    apply IH; [done|]. by rewrite psize_app, Z.add_assoc in Hl'.
Qed.

(** A piece may be replaced by pieces of it. *)
Lemma cuts_replace o last p l1 q h l2 l' :
  cuts o last p (l1 ++ (q, h) :: l2) → cuts (GetFragmentOffset h) (IsLastFragment h) q l' → cuts o last p (l1 ++ l' ++ l2).
Proof.
  revert o p. induction l1 as [|[a ha] l1 IH]; intros o p Hl Hl'; cbn [app] in *.
  - apply cuts_cons in Hl as (Hq & Ho & p' & -> & Hlast & Hl). rewrite Ho, Hlast in Hl'. destruct l2 as [|b l2].
    + subst p'. by rewrite !app_nil_r.
    + by apply cuts_app.
  - apply cuts_cons in Hl as (Hq & Ho & p' & -> & Hlast & Hl). destruct (l1 ++ (q, h) :: l2) as [|b m] eqn:E; [by destruct l1|]. specialize (IH _ _ Hl Hl').
    destruct (l1 ++ l' ++ l2) as [|c n] eqn:E2; [done|]. split; [done|]. split; [done|]. split; [done|]. by exists p'.
Qed.

(** The pieces of a datagram are all different. *)
Lemma cuts_NoDup o last p l : cuts o last p l → NoDup l.
Proof.
  revert o p. induction l as [|[q h] l IH]; intros o p Hl; [constructor|]. apply cuts_cons in Hl as (Hq & Ho & p' & -> & _ & Hl).
  destruct l as [|b l]; [repeat constructor; by intros ?%not_elem_of_nil|]. constructor; [|by eapply IH].
  intros Hin. destruct (cuts_ok _ _ _ _ Hl) as (Hpc & _). destruct (Hpc _ Hin) as (_ & Hge & _). cbn [snd] in Hge. apply psize_pos in Hq. lia.
Qed.

Section forwarding.
Context {P : Type} `{RoutingProtocol P}.
Context (GetMtu : Z → Z) (IsLoopback NeedsArp SupportsMulticast : Z → bool) (checksumEnabled : bool).
Context (L4Receive : Z → Packet → Ipv4Header → Z → RxStatus) (Hash32 : list Z → Z).

Abbreviation SendRealOut := (SendRealOut GetMtu IsLoopback NeedsArp SupportsMulticast checksumEnabled).
Abbreviation IpForward := (IpForward GetMtu IsLoopback NeedsArp SupportsMulticast checksumEnabled).
Abbreviation Receive_route := (Receive_route GetMtu IsLoopback NeedsArp SupportsMulticast checksumEnabled L4Receive Hash32).
Abbreviation Receive := (Receive GetMtu IsLoopback NeedsArp SupportsMulticast checksumEnabled L4Receive Hash32).
Implicit Types s : Ipv4L3 P.

(** ** Packets and frames *)

(** A packet with its header, as it is between nodes: no options, the size of the header's field, bytes,
    a checksum if the simulation computes them. *)
Record packet_ok (x : Packet * Ipv4Header) : Prop := {
  pk_header : ip_ok x.2;
  pk_size : m_payloadSize x.2 = psize x.1;
  pk_nonempty : x.1 ≠ [];
  pk_bytes : Forall (fits 8) x.1;
  pk_checksum : checksumEnabled = true → m_calcChecksum x.2 = true;
  pk_end : GetFragmentOffset x.2 + psize x.1 < 2 ^ 16
}.

Definition frame (x : Packet * Ipv4Header) : list Z := ip_wire x.2 ++ x.1.

(** The header that a node reads with. *)
Definition blank : Ipv4Header := if checksumEnabled then EnableChecksum Ipv4Header_new else Ipv4Header_new.
Definition read (h : Ipv4Header) : Ipv4Header := ip_received blank h.

Lemma packet_small x : packet_ok x → 0 < psize x.1 ∧ psize x.1 + 20 < 2 ^ 16.
Proof using. intros [Hh Hs Hne _ _ _]. pose proof (ip_payload _ Hh). apply psize_pos in Hne. lia. Qed.

Lemma AddHeader_ok x : packet_ok x → AddHeader x.2 x.1 = Ok (frame x).
Proof using.
  intros Hx. pose proof (packet_small x Hx) as Hsm. destruct Hx as [Hh Hs Hne Hb _ _]. unfold AddHeader, GetSerializedSize. rewrite (ip_size _ Hh).
  pose proof (ip_Serialize_ok (H0 := flat_laws (20 + psize x.1)) (replicate (Z.to_nat 20) 0 ++ x.1) (replicate (Z.to_nat 20) 0) x.1 (λ p, p) x.2) as Hw.
  specialize (Hw (conj Hh Hb) eq_refl). destruct (Serialize x.2 0 _) as [m|f]; cbn in Hw.
  - destruct Hw as [-> _]; [|done]. unfold flat_holds. rewrite length_app, length_replicate. unfold psize in *. repeat split; try done; lia.
  - exfalso. apply Hw. unfold flat_holds. rewrite length_app, length_replicate. unfold psize in *. repeat split; try done; lia.
Qed.

Lemma length_ip_wire h : length (ip_wire h) = 20%nat.
Proof using. reflexivity. Qed.

Lemma RemoveHeader_ok x h0 : packet_ok x → RemoveHeader h0 (frame x) = Ok (ip_received h0 x.2, x.1).
Proof using.
  intros Hx. pose proof (packet_small x Hx) as Hsm. destruct Hx as [Hh Hs Hne Hb _ _]. unfold RemoveHeader.
  rewrite (ip_Deserialize_ok (H0 := flat_laws (psize (frame x))) (frame x) x.1 20 (λ p, p) h0 x.2).
  - res_simpl. unfold frame. change (Z.to_nat 20) with (length (ip_wire x.2)). by rewrite drop_app_length.
  - done.
  - unfold holds, flat_laws, flat_holds, frame, psize in *. rewrite length_app, length_ip_wire. repeat split; try done; lia.
Qed.

Lemma read_packet_ok x : packet_ok x → packet_ok (x.1, read x.2).
Proof using.
  intros [Hh Hs Hne Hb Hc He]. constructor; cbn [fst snd]; try done.
  - destruct Hh as [? ? ? ? ? ? ?]. constructor; try done.
  - unfold read, blank. by destruct checksumEnabled.
Qed.

Lemma read_good x : packet_ok x → IsChecksumOk (read x.2) = true.
Proof using.
  intros [Hh Hs Hne Hb Hc He]. unfold IsChecksumOk, read, blank, ip_received. destruct checksumEnabled; [|done].
  cbn [m_goodChecksum m_calcChecksum EnableChecksum]. by rewrite ip_wire_good by auto.
Qed.

Lemma fragment_packet_ok h x mtu :
  ip_ok h → (checksumEnabled = true → m_calcChecksum h = true) → same_datagram h x.2 → m_payloadSize x.2 = psize x.1 → psize x.1 + 20 ≤ mtu → mtu < 2 ^ 16 →
  x.1 ≠ [] → Forall (fits 8) x.1 → 0 ≤ GetFragmentOffset x.2 → GetFragmentOffset x.2 + psize x.1 < 2 ^ 16 → packet_ok x.
Proof using.
  intros Hh Hc [? ? Hsrc Hdst Htos Httl Hsz _ Hfl Hoff Hck] Hs Hmtu Hmax Hne Hb Hge He.
  destruct Hh as [? ? ? (? & ? & ?) ? [? ?] [? ?]]. pose proof (psize_nonneg x.1).
  constructor; try done; [|by auto]. constructor; [congruence|lia|congruence|split_and!; congruence|by apply Hfl| |split; congruence].
  split; [unfold fits, GetFragmentOffset in *; lia|by apply Hoff].
Qed.

(** ** Sending on a link *)

Lemma frames_ok x mtu :
  packet_ok x → 28 ≤ mtu < 2 ^ 16 →
  ∃ l, SendRealOut_frames checksumEnabled mtu x.1 x.2 = Ok l ∧
    cuts (GetFragmentOffset x.2) (IsLastFragment x.2) x.1 l ∧ Forall (λ y, same_datagram x.2 y.2 ∧ packet_ok y) l.
Proof using.
  intros Hx Hmtu. pose proof Hx as [Hh Hsz Hne Hb Hc He]. pose proof (ip_offset _ Hh) as [Ho Ho8]. unfold fits in Ho.
  destruct (SendRealOut_frames_ok checksumEnabled x.1 x.2 mtu) as (l & E & Hcuts & Hall & _); [|done|done|].
  { constructor; [by apply ip_size|by apply ip_flags|unfold GetFragmentOffset; split; [lia|done]|done|done]. }
  exists l. split; [done|]. split; [done|].
  destruct (cuts_ok _ _ _ _ Hcuts) as (Hpc & _). rewrite Forall_forall in Hall |- *. intros y Hy. destruct (Hall y Hy) as (Hsd & Hp & Hm). split; [done|].
  destruct (Hpc y Hy) as (Hpos & Hoy & Hend & Heq & _). unfold fend, IpReassembly.view in Hend. cbn [fst snd] in Hend.
  apply (fragment_packet_ok x.2 y mtu); try done; [lia|by apply psize_pos| |unfold GetFragmentOffset in *; lia|lia].
  rewrite Heq. unfold slice. by apply Forall_take, Forall_drop.
Qed.

(** The interface is up and sends packets for [target] to a hardware address. *)
Record sends_to (i : Ipv4Interface) (target : Ipv4Address) (hw : Hardware) : Prop := {
  st_up : m_ifup i = true;
  st_loopback : IsLoopback (m_device i) = false;
  st_own : existsb (λ a, ipv4_eq target (a_local a)) (m_ifaddrs i) = false;
  st_hardware : hardware_destination NeedsArp SupportsMulticast i target = Ok hw;
  st_mtu : 28 ≤ GetMtu (m_device i) < 2 ^ 16
}.

Definition sent (dev : Z) (hw : Hardware) (priority : option Z) (x : Packet * Ipv4Header) : Event := TcSend dev hw x.1 x.2 priority.

Lemma send_all_ok i priority target hw l :
  sends_to i target hw → send_all IsLoopback NeedsArp SupportsMulticast i priority target l = Ok (sent (m_device i) hw priority <$> l).
Proof using.
  intros [Hup Hlo Hown Hhw _]. induction l as [|[p h] l IH]; [done|]. cbn [send_all]. unfold Interface_Send. rewrite Hup, Hlo, Hown, Hhw. res_simpl. by rewrite IH.
Qed.

(** Where a route leads. *)
Definition target_of (r : Ipv4Route) (h : Ipv4Header) : Ipv4Address := if IsAny (r_gateway r) then m_destination h else r_gateway r.

Definition leads (ip : Ipv4) (r : Ipv4Route) (h : Ipv4Header) (dev : Z) (hw : Hardware) : Prop :=
  ∃ i, 0 ≤ GetInterfaceForDevice (r_device r) ip ∧ GetInterface (GetInterfaceForDevice (r_device r) ip) ip = Ok i ∧ m_device i = dev ∧ sends_to i (target_of r h) hw.

Lemma SendRealOut_ok ip r x priority dev hw :
  packet_ok x → leads ip r x.2 dev hw →
  ∃ l, SendRealOut (Some r) x.1 priority x.2 ip = Ok (sent dev hw priority <$> l) ∧
    cuts (GetFragmentOffset x.2) (IsLastFragment x.2) x.1 l ∧ Forall (λ y, same_datagram x.2 y.2 ∧ packet_ok y) l.
Proof using.
  intros Hx (i & Hge & Hi & Hdev & Hs). destruct (frames_ok x (GetMtu (m_device i)) Hx (st_mtu _ _ _ Hs)) as (l & E & Hcuts & Hall). exists l. split; [|done].
  unfold Ipv4L3.SendRealOut. rewrite (proj2 (Z.leb_le _ _) Hge). res_simpl. rewrite Hi. res_simpl. rewrite (st_up _ _ _ Hs), E. res_simpl.
  unfold target_of in Hs. by rewrite (send_all_ok i priority _ hw l Hs), Hdev.
Qed.

(** ** Receiving *)

(** A frame arrives on an interface that is up: what is handled is the packet with its header as read. *)
Lemma Receive_ok now d x priority s i :
  packet_ok x → GetInterfaceForDevice d (l3_ip s) ≠ -1 → GetInterface (GetInterfaceForDevice d (l3_ip s)) (l3_ip s) = Ok i → m_ifup i = true →
  Receive now d (frame x) priority s =
    ('(es, s') ← Receive_route now d x.1 priority (read x.2) (GetInterfaceForDevice d (l3_ip s)) s;
     Ok (((λ socket, ForwardUp socket x.1 (read x.2) (GetInterfaceForDevice d (l3_ip s))) <$> m_sockets s') ++ es, s')).
Proof using.
  intros Hx Hne Hi Hup. unfold Ipv4L3.Receive. rewrite (proj2 (Z.eqb_neq _ _) Hne). res_simpl. rewrite Hi. res_simpl. rewrite Hup. cbn [negb].
  fold blank. rewrite (RemoveHeader_ok x blank Hx). res_simpl. fold (read x.2). change (m_payloadSize (read x.2)) with (m_payloadSize x.2).
  rewrite (pk_size _ Hx), Z.ltb_irrefl, (read_good x Hx). cbn [negb]. done.
Qed.

(** The packet with one hop less to go. *)
Definition hop_header (h : Ipv4Header) : Ipv4Header := SetTtl (u8 (m_ttl (read h) - 1)) (read h).

Lemma hop_packet_ok x : packet_ok x → packet_ok (x.1, hop_header x.2).
Proof using.
  intros Hx%read_packet_ok. destruct Hx as [[? ? ? (? & ? & ?) ? ? ?] ? ? ? ? ?]. constructor; cbn [fst snd] in *; try done.
  constructor; try done. split_and!; try done. by apply wrap_fits.
Qed.

Lemma hop_ttl h : fits 8 (m_ttl h) → m_ttl (hop_header h) = if m_ttl h =? 0 then 255 else m_ttl h - 1.
Proof using.
  intros Ht. unfold hop_header. cbn [m_ttl SetTtl read ip_received]. unfold fits in Ht. destruct (Z.eqb_spec (m_ttl h) 0) as [->|]; [done|]. apply wrap_id. zlia.
Qed.

(** Forwarding sends the packet on, cut to the link, with its time to live reduced. *)
Lemma IpForward_ok r x s dev hw :
  packet_ok x → m_ttl (hop_header x.2) ≠ 0 → leads (l3_ip s) r (hop_header x.2) dev hw →
  ∃ l priority, IpForward r x.1 (read x.2) s = Ok (sent dev hw priority <$> l) ∧
    cuts (GetFragmentOffset x.2) (IsLastFragment x.2) x.1 l ∧ Forall (λ y, same_datagram (hop_header x.2) y.2 ∧ packet_ok y) l.
Proof using.
  intros Hx Ht Hl. unfold Ipv4L3.IpForward. cbv zeta. fold (hop_header x.2). rewrite (proj2 (Z.eqb_neq _ _) Ht).
  set (pr := if IpTos2Priority _ =? 0 then None else _). destruct (SendRealOut_ok (l3_ip s) r (x.1, hop_header x.2) pr dev hw (hop_packet_ok x Hx) Hl) as (l & E & Hc & Ha).
  exists l, pr. done.
Qed.

(** ** The callbacks for a unicast packet *)

Lemma Receive_route_unicast now d p priority h i s rp found calls rp' :
  IsMulticast (m_destination h) = false → m_routingProtocol s = Some rp → RouteInput (l3_ip s) p h d true rp = Ok (found, calls, rp') →
  Receive_route now d p priority h i s =
    ('(es, s') ← callbacks GetMtu IsLoopback NeedsArp SupportsMulticast checksumEnabled L4Receive now p priority h calls (with_routing (Some rp') (with_dpd (l3_dpd s) s));
     Ok (es ++ (if found : bool then [] else [Drop h p DROP_NO_ROUTE i]), s')).
Proof using. intros Hm Hrp HR. unfold Ipv4L3.Receive_route. rewrite Hm, andb_false_r. res_simpl. cbn [with_dpd m_routingProtocol l3_ip]. by rewrite Hrp, HR. Qed.

Lemma with_same s rp : m_routingProtocol s = Some rp → with_routing (Some rp) (with_dpd (l3_dpd s) s) = s.
Proof using. destruct s. cbn. by intros ->. Qed.

Definition receiving (d : Z) s : Prop :=
  GetInterfaceForDevice d (l3_ip s) ≠ -1 ∧ ∃ i, GetInterface (GetInterfaceForDevice d (l3_ip s)) (l3_ip s) = Ok i ∧ m_ifup i = true.

(** The raw sockets see the packet, then what [es] says happens. *)
Definition seen (d : Z) (x : Packet * Ipv4Header) s : list Event :=
  (λ socket, ForwardUp socket x.1 (read x.2) (GetInterfaceForDevice d (l3_ip s))) <$> m_sockets s.

(** A frame is forwarded. *)
Lemma Receive_forward now d x priority s rp r dev hw :
  packet_ok x → receiving d s → IsMulticast (m_destination (read x.2)) = false → m_routingProtocol s = Some rp →
  RouteInput (l3_ip s) x.1 (read x.2) d true rp = Ok (true, [Ucb r], rp) →
  m_ttl (hop_header x.2) ≠ 0 → leads (l3_ip s) r (hop_header x.2) dev hw →
  ∃ l pr, Receive now d (frame x) priority s = Ok (seen d x s ++ (sent dev hw pr <$> l), s) ∧
    cuts (GetFragmentOffset x.2) (IsLastFragment x.2) x.1 l ∧ Forall (λ y, same_datagram (hop_header x.2) y.2 ∧ packet_ok y) l.
Proof using.
  intros Hx (Hne & i & Hi & Hup) Hm Hrp HR Ht Hl. destruct (IpForward_ok r x s dev hw Hx Ht Hl) as (l & pr & E & Hc & Ha). exists l, pr. split; [|done].
  rewrite (Receive_ok now d x priority s i Hx Hne Hi Hup), (Receive_route_unicast now d _ _ _ _ _ _ _ _ _ Hm Hrp HR), (with_same _ _ Hrp).
  cbn [callbacks callback]. rewrite E. res_simpl. by rewrite !app_nil_r.
Qed.

(** A frame is for this node. *)
Lemma Receive_local now d x priority s rp es s' :
  packet_ok x → receiving d s → IsMulticast (m_destination (read x.2)) = false → m_routingProtocol s = Some rp →
  RouteInput (l3_ip s) x.1 (read x.2) d true rp = Ok (true, [Lcb (GetInterfaceForDevice d (l3_ip s))], rp) →
  LocalDeliver L4Receive now x.1 (read x.2) (GetInterfaceForDevice d (l3_ip s)) s = Ok (es, s') → m_sockets s' = m_sockets s →
  Receive now d (frame x) priority s = Ok (seen d x s ++ es, s').
Proof using.
  intros Hx (Hne & i & Hi & Hup) Hm Hrp HR E Hs.
  rewrite (Receive_ok now d x priority s i Hx Hne Hi Hup), (Receive_route_unicast now d _ _ _ _ _ _ _ _ _ Hm Hrp HR), (with_same _ _ Hrp).
  cbn [callbacks callback]. rewrite E. res_simpl. by rewrite !app_nil_r, Hs.
Qed.

(** ** Delivery *)

Lemma LocalDeliver_part now p h iif s r :
  LocalDeliver_reassemble now p h iif (l3_reassembly s) = Ok (None, r) → LocalDeliver L4Receive now p h iif s = Ok ([], with_reassembly r s).
Proof using. intros E. unfold Ipv4L3.LocalDeliver. by rewrite E. Qed.

(** The node can hand packets of a protocol that arrive on an interface to [q], and send ICMP messages. *)
Definition serves (s : Ipv4L3 P) (protocol iif q : Z) : Prop :=
  GetProtocol protocol iif s = Some q ∧ is_ok (GetInterface iif (l3_ip s)) ∧ is_ok (GetIcmp s).

Lemma LocalDeliver_up now p h iif s r p' h' q :
  LocalDeliver_reassemble now p h iif (l3_reassembly s) = Ok (Some (p', h'), r) → serves s (m_protocol h') iif q →
  ∃ rest, LocalDeliver L4Receive now p h iif s = Ok (ToProtocol q p' h' iif :: rest, with_reassembly r s) ∧ (rest = [] ∨ rest = [DestUnreachPort h' p']).
Proof using.
  intros E (Hq & Hi & Hicmp). unfold Ipv4L3.LocalDeliver. rewrite E. res_simpl.
  change (GetProtocol (m_protocol h') iif (with_reassembly r s)) with (GetProtocol (m_protocol h') iif s).
  change (l3_ip (with_reassembly r s)) with (l3_ip s). change (GetIcmp (with_reassembly r s)) with (GetIcmp s). rewrite Hq.
  destruct (GetInterface iif (l3_ip s)) as [x|]; [|done]. res_simpl. destruct (L4Receive q p' h' iif); try (by exists []; auto).
  destruct (_ || _); [by exists []; auto|]. destruct (GetIcmp s); [|done]. res_simpl. exists [DestUnreachPort h' p']. auto.
Qed.
End forwarding.

(** * Nodes with links between them

    Frames travel from device to device; each node runs [Ipv4L3].  [ttl_ends_loops]: however the
    tables are set, a datagram is handled a bounded number of times. *)


Section network.
Context {N : Type} `{EqDecision N} {P : Type} `{RoutingProtocol P}.
Context (GetMtu : N → Z → Z) (IsLoopback NeedsArp SupportsMulticast : N → Z → bool) (checksumEnabled : bool).
Context (L4Receive : N → Z → Packet → Ipv4Header → Z → RxStatus) (Hash32 : list Z → Z).
(** The device that a frame reaches: the other end of a link, or the device with the hardware address. *)
Context (wire : N → Z → Hardware → option (N * Z)).

(** Frames under way: the node and device where they will arrive, and their bytes. *)
Definition Frame : Type := N * Z * list Z.

(** [net_log]: what happened at the nodes, in order. *)
Record Net := mkNet { net_now : Z; net_node : N → Ipv4L3 P; net_frames : list Frame; net_log : list (N * Event) }.
Implicit Types c : Net.

Definition update (n : N) (s : Ipv4L3 P) (m : N → Ipv4L3 P) : N → Ipv4L3 P := λ n', if decide (n' = n) then s else m n'.

(** The frames that an event sends.  Priorities stay in the node. *)
Definition emit (n : N) (e : Event) : res (list Frame) :=
  match e with
  | TcSend dev hw p h _ => match wire n dev hw with Some (n', d') => f ← AddHeader h p; Ok [(n', d', f)] | None => Ok [] end
  | TcReceive dev f | Loopback dev f => Ok [(n, dev, f)]
  | _ => Ok []
  end.

Fixpoint emit_all (n : N) (es : list Event) : res (list Frame) :=
  match es with [] => Ok [] | e :: es => fs ← emit n e; fs' ← emit_all n es; Ok (fs ++ fs') end.

(** What a node does with a frame. *)
Definition node_Receive (n : N) (now d : Z) (f : list Z) (s : Ipv4L3 P) : res (list Event * Ipv4L3 P) :=
  Receive (GetMtu n) (IsLoopback n) (NeedsArp n) (SupportsMulticast n) checksumEnabled (L4Receive n) Hash32 now d f None s.

Definition reassembly c (n : N) : Reassembly := l3_reassembly (net_node c n).

(** A frame is received; time passes, up to the next pending call; a fragment of something else is put
    into a buffer; a pending call of [HandleTimeout] runs. *)
Inductive net_label := NReceive (f : Frame) | NTime | NOther (n : N) (p : Packet) (h : Ipv4Header) | NFire (n : N).

Inductive net_step c : net_label → Net → Prop :=
  | ns_receive n d f rest es s fs :
      net_frames c ≡ₚ (n, d, f) :: rest → node_Receive n (net_now c) d f (net_node c n) = Ok (es, s) → emit_all n es = Ok fs →
      net_step c (NReceive (n, d, f)) (mkNet (net_now c) (update n s (net_node c)) (rest ++ fs) (net_log c ++ ((n,.) <$> es)))
  | ns_time now' :
      net_now c ≤ now' → (∀ n, Forall (Z.le now') (m_timeoutEvents (reassembly c n)) ∧ now' + m_fragmentExpirationTimeout (reassembly c n) < 2 ^ 63) →
      net_step c NTime (mkNet now' (net_node c) (net_frames c) (net_log c))
  | ns_other n p h iif r s' :
      psize p < 2 ^ 32 → ProcessFragment (net_now c) p h iif (reassembly c n) = Ok (r, s') →
      net_step c (NOther n p h) (mkNet (net_now c) (update n (with_reassembly s' (net_node c n)) (net_node c)) (net_frames c) (net_log c))
  | ns_fire n ns s' :
      net_now c ∈ m_timeoutEvents (reassembly c n) → fire (net_now c) (reassembly c n) = Ok (ns, s') →
      net_step c (NFire n) (mkNet (net_now c) (update n (with_reassembly s' (net_node c n)) (net_node c)) (net_frames c) (net_log c)).

(** The latest label comes first. *)
Inductive net_runs c : list net_label → Net → Prop :=
  | nr_nil : net_runs c [] c
  | nr_cons labs c' lab c'' : net_runs c labs c' → net_step c' lab c'' → net_runs c (lab :: labs) c''.

Definition is_receive (l : net_label) : bool := match l with NReceive _ => true | _ => false end.
Definition receptions (labs : list net_label) : nat := length (filter (λ l, is_receive l = true) labs).

(** ** Time to live *)

Abbreviation packet_ok := (packet_ok checksumEnabled).

(** A frame with the packet it carries, for a unicast destination. *)
Definition Flight : Type := (N * Z) * (Packet * Ipv4Header).
Definition to_frame (y : Flight) : Frame := (y.1.1, y.1.2, frame y.2).
Definition unicast (y : Flight) : Prop := packet_ok y.2 ∧ IsMulticast (m_destination y.2.2) = false.

(** A time to live of 0 is worth 256. *)
Definition hops (h : Ipv4Header) : Z := if m_ttl h =? 0 then 256 else m_ttl h.
Definition weight (y : Flight) : Z := psize y.2.1 * hops y.2.2.
Definition total (ys : list Flight) : Z := foldr (λ y t, weight y + t) 0 ys.

Lemma total_app ys zs : total (ys ++ zs) = total ys + total zs.
Proof using. induction ys as [|y ys IH]; cbn [app total foldr]; [done|]. unfold total in *. lia. Qed.

Lemma total_perm ys zs : ys ≡ₚ zs → total ys = total zs.
Proof using. induction 1; unfold total in *; cbn [foldr] in *; lia. Qed.

Lemma hops_pos h : ip_ok h → 1 ≤ hops h.
Proof using. intros Hh. destruct (ip_bytes _ Hh) as (_ & Ht & _). unfold hops, fits in *. destruct (Z.eqb_spec (m_ttl h) 0); lia. Qed.

(** The pieces of a packet: together not longer than it. *)
Definition bytes (l : list (Packet * Ipv4Header)) : Z := foldr (λ x t, psize x.1 + t) 0 l.

Lemma cuts_bytes o last p l : cuts o last p l → bytes l = psize p.
Proof using.
  revert o p. induction l as [|[q h] l IH]; intros o p Hl; [done|]. apply cuts_cons in Hl as (_ & _ & p' & -> & _ & Hl).
  rewrite psize_app. cbn [bytes foldr fst]. destruct l as [|y l]; [subst p'; by rewrite psize_nil|]. fold (bytes (y :: l)). by rewrite (IH _ _ Hl).
Qed.

Lemma emit_all_app n e1 e2 fs : emit_all n (e1 ++ e2) = Ok fs → ∃ f1 f2, emit_all n e1 = Ok f1 ∧ emit_all n e2 = Ok f2 ∧ fs = f1 ++ f2.
Proof using.
  revert fs. induction e1 as [|e e1 IH]; intros fs Ef; [by exists [], fs|]. cbn [app emit_all] in Ef |- *. res_inv.
  match goal with H : emit_all _ (_ ++ _) = Ok _ |- _ => destruct (IH _ H) as (f1 & f2 & -> & -> & ->) end. subst fs.
  match goal with H : emit _ _ = Ok ?a |- _ => rewrite H; exists (a ++ f1), f2 end. by rewrite <- app_assoc.
Qed.

Lemma emit_all_ok n e1 e2 f1 f2 : emit_all n e1 = Ok f1 → emit_all n e2 = Ok f2 → emit_all n (e1 ++ e2) = Ok (f1 ++ f2).
Proof using.
  revert f1. induction e1 as [|e e1 IH]; intros f1 E1 E2; cbn [app emit_all] in *; [by simplify_eq|]. res_inv. subst f1.
  match goal with H : emit _ _ = Ok _, H' : emit_all _ _ = Ok ?a |- _ => rewrite H; res_simpl; rewrite (IH _ H' E2) end. by rewrite <- app_assoc.
Qed.

(** Packets sent to one place. *)
Lemma emit_sent n dev hw pr y l : wire n dev hw = Some y → Forall packet_ok l → emit_all n (sent dev hw pr <$> l) = Ok (to_frame <$> ((y,.) <$> l)).
Proof using.
  intros Hw. induction 1 as [|x l Hx _ IH]; [done|]. cbn [fmap list_fmap emit_all emit sent]. rewrite Hw. destruct y as [n' d']. rewrite (AddHeader_ok _ _ Hx). res_simpl. by rewrite IH.
Qed.

(** What is sent on a link is at most the pieces, each as a frame to one place. *)
Lemma emit_pieces n i priority target l es fs :
  Forall packet_ok l → send_all (IsLoopback n) (NeedsArp n) (SupportsMulticast n) i priority target l = Ok es → emit_all n es = Ok fs →
  ∃ ys, fs = to_frame <$> ys ∧ Forall (λ y, y.2 ∈ l) ys ∧ (∀ b, (∀ x, x ∈ l → hops x.2 ≤ b) → 0 ≤ b → total ys ≤ bytes l * b).
Proof using.
  revert es fs. induction l as [|[p h] l IH]; intros es fs Hl E Ef.
  { cbn in E. simplify_eq. cbn in Ef. simplify_eq. exists []. split; [done|]. split; [done|]. intros b _ Hb. cbn. lia. }
  cbn [send_all] in E. res_inv. apply Forall_cons in Hl as [Hp Hl]. subst es.
  match goal with H1 : Interface_Send _ _ _ _ _ _ _ _ = Ok ?a, H2 : send_all _ _ _ _ _ _ _ = Ok ?b |- _ => rename a into e1; rename b into e2; rename H1 into E1; rename H2 into E2 end.
  assert (∃ f1 f2, emit_all n e1 = Ok f1 ∧ emit_all n e2 = Ok f2 ∧ fs = f1 ++ f2) as (f1 & f2 & Ef1 & Ef2 & ->) by (by apply emit_all_app).
  destruct (IH _ _ Hl E2 Ef2) as (ys & -> & Hys & Ht).
  assert (f1 = [] ∨ ∃ at_, f1 = [to_frame (at_, (p, h))]) as Hf1.
  { pose proof (AddHeader_ok _ _ Hp) as Hadd. cbn [fst snd] in Hadd. unfold Interface_Send in E1. rewrite Hadd in E1. res_simpl.
    destruct (negb (m_ifup i)); [simplify_eq; cbn in Ef1; simplify_eq; by left|]. destruct (IsLoopback n (m_device i)).
    { cbn in E1. simplify_eq. cbn in Ef1. simplify_eq. right. by exists (n, m_device i). }
    destruct (existsb _ _). { cbn in E1. simplify_eq. cbn in Ef1. simplify_eq. right. by exists (n, m_device i). }
    res_inv. subst e1. cbn [emit_all emit] in Ef1. destruct (wire n (m_device i) _) as [[n' d']|]; [|cbn in Ef1; simplify_eq; by left].
    rewrite Hadd in Ef1. cbn in Ef1. simplify_eq. right. by exists (n', d'). }
  assert (Forall (λ y : Flight, y.2 ∈ (p, h) :: l) ys) as Hys2 by (eapply Forall_impl; [exact Hys|]; intros y Hy; by right).
  destruct Hf1 as [->|[at_ ->]].
  - exists ys. split; [done|]. split; [done|]. intros b Hb H0b. specialize (Ht b ltac:(intros x Hx; apply Hb; by right) H0b). cbn [bytes foldr fst]. fold (bytes l). pose proof (psize_nonneg p). nia.
  - exists ((at_, (p, h)) :: ys). split; [done|]. split; [constructor; [by left|done]|]. intros b Hb H0b. specialize (Ht b ltac:(intros x Hx; apply Hb; by right) H0b).
    cbn [total foldr bytes fst]. fold (total ys) (bytes l). unfold weight at 1. cbn [fst snd]. pose proof (psize_nonneg p). pose proof (Hb (p, h) ltac:(by left)). cbn in *. nia.
Qed.

(** Events that send nothing. *)
Definition quiet (n : N) (e : Event) : Prop := emit n e = Ok [].

Lemma emit_quiet n es : Forall (quiet n) es → emit_all n es = Ok [].
Proof using. induction 1 as [|e es He _ IH]; [done|]. cbn [emit_all]. unfold quiet in He. rewrite He. res_simpl. by rewrite IH. Qed.

Context (Hmtu : ∀ n d, 28 ≤ GetMtu n d < 2 ^ 16) (laws : RoutingLaws P).

Lemma Send_total n r x priority ip es fs :
  packet_ok x → IsMulticast (m_destination x.2) = false →
  SendRealOut (GetMtu n) (IsLoopback n) (NeedsArp n) (SupportsMulticast n) checksumEnabled (Some r) x.1 priority x.2 ip = Ok es → emit_all n es = Ok fs →
  ∃ ys, fs = to_frame <$> ys ∧ Forall unicast ys ∧ total ys ≤ psize x.1 * hops x.2.
Proof using Hmtu.
  intros Hx Hm E Ef. unfold SendRealOut in E. res_inv.
  match goal with H : (if ?b then _ else _) = Ok _ |- _ => destruct b end.
  2: { simplify_eq. cbn in Ef. simplify_eq. exists []. split; [done|]. split; [constructor|]. cbn. pose proof (psize_nonneg x.1). pose proof (hops_pos _ (pk_header _ _ Hx)). nia. }
  match goal with H : GetInterface _ _ = Ok ?i |- _ => destruct (frames_ok checksumEnabled x (GetMtu n (m_device i)) Hx (Hmtu _ _)) as (l & El & Hc & Hall) end.
  match goal with H : SendRealOut_frames _ _ _ _ ≫= _ = Ok es |- _ => rewrite El in H; cbn [mbind res_bind] in H end. match goal with H : send_all _ _ _ _ _ _ _ = Ok _ |- _ => rename H into Es end.
  assert (Forall packet_ok l) as Hl by (eapply Forall_impl; [exact Hall|]; by intros y [_ ?]).
  destruct (emit_pieces n _ _ _ l es fs Hl Es Ef) as (ys & -> & Hys & Ht).
  exists ys. split; [done|]. rewrite Forall_forall in Hall. split.
  - eapply Forall_impl; [exact Hys|]. intros y Hy. destruct (Hall _ Hy) as [Hsd Hok]. split; [done|]. by rewrite (sd_destination _ _ Hsd).
  - rewrite <- (cuts_bytes _ _ _ _ Hc). pose proof (hops_pos _ (pk_header _ _ Hx)). apply Ht; [|lia]. intros y Hy. destruct (Hall _ Hy) as [Hsd _]. unfold hops. by rewrite (sd_ttl _ _ Hsd).
Qed.

Lemma hop_weight x : packet_ok x → m_ttl (hop_header checksumEnabled x.2) ≠ 0 → psize x.1 * hops (hop_header checksumEnabled x.2) < psize x.1 * hops x.2.
Proof using.
  intros Hx Ht. pose proof (packet_small _ _ Hx). pose proof (ip_bytes _ (pk_header _ _ Hx)) as (_ & Hf & _). unfold hops. rewrite (proj2 (Z.eqb_neq _ _) Ht). rewrite (hop_ttl _ _ Hf) in *.
  unfold fits in Hf. destruct (Z.eqb_spec (m_ttl x.2) 0); nia.
Qed.

(** What the callbacks for a unicast packet send. *)
Lemma callback_total n now x (c : Callback) (s : Ipv4L3 P) es s' fs :
  packet_ok x → IsMulticast (m_destination x.2) = false → is_mcast c = false →
  callback (GetMtu n) (IsLoopback n) (NeedsArp n) (SupportsMulticast n) checksumEnabled (L4Receive n) now x.1 None (read checksumEnabled x.2) c s = Ok (es, s') →
  emit_all n es = Ok fs → ∃ ys, fs = to_frame <$> ys ∧ Forall unicast ys ∧ total ys < psize x.1 * hops x.2.
Proof using Hmtu.
  intros Hx Hm Hc E Ef. pose proof (packet_small _ _ Hx) as [Hpos _]. pose proof (hops_pos _ (pk_header _ _ Hx)) as Hh.
  assert (∀ es', Forall (quiet n) es' → es = es' → ∃ ys, fs = to_frame <$> ys ∧ Forall unicast ys ∧ total ys < psize x.1 * hops x.2) as Hquiet.
  { intros es' Hq ->. rewrite emit_quiet in Ef by done. simplify_eq. exists []. split; [done|]. split; [constructor|]. cbn. nia. }
  destruct c as [r|r|iif|e]; [|done| |]; cbn [callback] in E.
  - res_inv. match goal with H : IpForward _ _ _ _ _ _ _ _ _ = Ok _ |- _ => rename H into Ei end. simplify_eq. unfold IpForward in Ei. cbv zeta in Ei. fold (hop_header checksumEnabled x.2) in Ei.
    destruct (Z.eqb_spec (m_ttl (hop_header checksumEnabled x.2)) 0) as [_|Ht].
    + res_inv. eapply Hquiet; [|done]. subst. apply Forall_app. split; [|by repeat constructor]. destruct (_ && _); res_inv; subst; by repeat constructor.
    + match goal with H : SendRealOut _ _ _ _ _ _ _ ?pr _ _ = Ok _ |- _ => destruct (Send_total n r (x.1, hop_header checksumEnabled x.2) pr (l3_ip s') es fs) as (ys & -> & Hu & Htot); try done; [by apply hop_packet_ok|] end.
      exists ys. split; [done|]. split; [done|]. pose proof (hop_weight x Hx Ht). cbn [fst snd] in *. lia.
  - eapply Hquiet; [|done]. unfold LocalDeliver in E. res_inv. match goal with H : LocalDeliver_reassemble _ _ _ _ _ = Ok ?x |- _ => destruct x as [[[p' h']|] r'] end; [|simplify_eq; constructor].
    destruct (GetProtocol _ _ _); [|simplify_eq; constructor]. res_inv. destruct (L4Receive n _ _ _ _); try (simplify_eq; by repeat constructor).
    destruct (_ || _); res_inv; simplify_eq; by repeat constructor.
  - simplify_eq. eapply Hquiet; [|done]. by repeat constructor.
Qed.

(** A node that handles a unicast packet sends less than it got. *)
Lemma Receive_total n now d x s es s' fs :
  packet_ok x → IsMulticast (m_destination x.2) = false → node_Receive n now d (frame x) s = Ok (es, s') → emit_all n es = Ok fs →
  ∃ ys, fs = to_frame <$> ys ∧ Forall unicast ys ∧ total ys < psize x.1 * hops x.2.
Proof using Hmtu laws.
  intros Hx Hm E Ef. pose proof (packet_small _ _ Hx) as [Hpos _]. pose proof (hops_pos _ (pk_header _ _ Hx)) as Hh.
  assert (∀ es', Forall (quiet n) es' → es = es' → ∃ ys, fs = to_frame <$> ys ∧ Forall unicast ys ∧ total ys < psize x.1 * hops x.2) as Hquiet.
  { intros es' Hq ->. rewrite emit_quiet in Ef by done. simplify_eq. exists []. split; [done|]. split; [constructor|]. cbn. nia. }
  unfold node_Receive in E. pose proof E as E0. unfold Receive in E0. res_inv. match goal with H : GetInterface _ _ = Ok ?i |- _ => rename i into i'; rename H into Hi end.
  match goal with H : negb (_ =? -1) = true |- _ => apply negb_true_iff, Z.eqb_neq in H; rename H into Hne end.
  match goal with H : (if negb (m_ifup _) then _ else _) = Ok _ |- _ => rename H into E0 end. destruct (m_ifup i') eqn:Hup.
  2: { cbn [negb] in E0. rewrite (RemoveHeader_ok checksumEnabled x _ Hx) in E0. cbn in E0. simplify_eq. eapply Hquiet; [|done]. by repeat constructor. }
  clear E0. rewrite (Receive_ok _ _ _ _ _ _ _ now d x None s i' Hx Hne Hi Hup) in E. res_inv.
  match goal with H : Receive_route _ _ _ _ _ _ _ _ _ _ _ _ _ _ = Ok ?y |- _ => destruct y as [e1 s1]; rename H into E1 end. simplify_eq.
  apply emit_all_app in Ef as (f1 & f2 & Ef1 & Ef2 & ->).
  rewrite emit_quiet in Ef1 by (apply Forall_fmap, Forall_true; done). simplify_eq. cbn [app]. clear Hquiet.
  assert (∀ es', Forall (quiet n) es' → e1 = es' → ∃ ys, f2 = to_frame <$> ys ∧ Forall unicast ys ∧ total ys < psize x.1 * hops x.2) as Hquiet.
  { intros es' Hq ->. rewrite emit_quiet in Ef2 by done. simplify_eq. exists []. split; [done|]. split; [constructor|]. cbn. nia. }
  unfold Receive_route in E1. assert (IsMulticast (m_destination (read checksumEnabled x.2)) = false) as Hm' by done. rewrite Hm', andb_false_r in E1. cbn [mbind res_bind] in E1.
  destruct (m_routingProtocol (with_dpd (l3_dpd s) s)) as [rp|]; [|done]. res_inv.
  match goal with H : RouteInput _ _ _ _ _ _ = Ok ?y |- _ => destruct y as [[found calls] rp']; apply law_RouteInput in H; rename H into HR end. rewrite Hm' in HR. res_inv.
  match goal with H : callbacks _ _ _ _ _ _ _ _ _ _ _ _ = Ok ?y |- _ => destruct y as [e2 s2]; rename H into Ec end. simplify_eq.
  apply emit_all_app in Ef2 as (f3 & f4 & Ef3 & Ef4 & ->). rewrite emit_quiet in Ef4 by (destruct found; by repeat constructor). simplify_eq. rewrite app_nil_r.
  destruct (co_unicast _ _ _ _ HR eq_refl) as [Hlen Hall]. destruct calls as [|c [|]]; [| |cbn in Hlen; lia].
  - cbn in Ec. simplify_eq. cbn in Ef3. simplify_eq. exists []. split; [done|]. split; [constructor|]. cbn. nia.
  - cbn [callbacks] in Ec. res_inv. match goal with H : callback _ _ _ _ _ _ _ _ _ _ _ _ = Ok ?y |- _ => destruct y as [e3 s3]; rename H into Ecb end. res_inv. simplify_eq.
    rewrite app_nil_r in Ef3. apply Forall_cons in Hall as [Hc _]. by eapply callback_total.
Qed.

(** The frames under way are those of [ys], in some order. *)
Definition carries c (ys : list Flight) : Prop := net_frames c ≡ₚ to_frame <$> ys.

Lemma carries_head c ys n d f rest : carries c ys → net_frames c ≡ₚ (n, d, f) :: rest →
  ∃ x ys', ys ≡ₚ ((n, d), x) :: ys' ∧ f = frame x ∧ rest ≡ₚ to_frame <$> ys'.
Proof using.
  unfold carries. intros Hc Hp. rewrite Hp in Hc. apply Permutation_map_inv in Hc as ([|[[n' d'] x] ys'] & E & Hys); [done|].
  injection E as -> -> -> ->. by exists x, ys'.
Qed.

(** C10 Time to live ends every loop.  In a network of nodes that run IP over links with MTUs
    of at least 28, with any lawful routing protocols and whatever tables - also ones that send packets
    in circles - unicast packets under way are handled by nodes, and cut to fragments, forwarded, dropped or
    delivered, at most as often as the sum over them of bytes times time to live; a time to live of
    0 counts as 256, since it is lowered to 255 and not dropped. *)
Theorem ttl_ends_loops c ys labs c' :
  carries c ys → Forall unicast ys → net_runs c labs c' →
  ∃ ys', carries c' ys' ∧ Forall unicast ys' ∧ Z.of_nat (receptions labs) + total ys' ≤ total ys.
Proof using Hmtu laws.
  intros Hc Hu Hr. induction Hr as [|labs c' lab c'' Hr IH Hs]; [exists ys; split; [done|]; split; [done|]; cbn; lia|].
  destruct IH as (ys' & Hc' & Hu' & Ht). unfold receptions in *. rewrite filter_cons.
  destruct Hs as [n d f rest es s fs Hp HR He|now' _ _|n p h iif r s' _ _|n ns s' _ _]; cbn [is_receive];
    [rewrite decide_True by done|rewrite decide_False by done; by exists ys'..].
  destruct (carries_head _ _ _ _ _ _ Hc' Hp) as (x & zs & Hys & -> & Hrest). rewrite Hys in Hu'. apply Forall_cons in Hu' as [[Hx Hm] Hzs]. cbn [fst snd] in Hx, Hm.
  destruct (Receive_total n _ d x _ es s fs Hx Hm HR He) as (ws & -> & Hws & Hlt). exists (zs ++ ws). split; [|split].
  - unfold carries. cbn [net_frames]. by rewrite fmap_app, Hrest.
  - by apply Forall_app.
  - rewrite (total_perm _ _ Hys) in Ht. cbn [total foldr] in Ht. fold (total zs) in Ht. unfold weight in Ht. cbn [fst snd] in Ht. rewrite total_app. cbn [length]. lia.
Qed.
End network.
