(* ===== verification/IpDelivery.v ===== *)
(** * A datagram on its way through the network

    [datagram_delivered]: along a path of nodes whose tables lead to the destination, whatever is cut and
    however the fragments overtake each other, the protocol above gets the bytes that were sent, once. *)

From S2P Require Import Prelude Buffer BufferCorrect Address Ipv4Address ByteIter BufferIter Ipv4Header NsTime IpFragments IpReassembly IpTimeouts IpTheorems IpInterfaces Ipv4L3 IpForwarding StaticRouting ListRouting.
Local Open Scope Z_scope.

Section delivery.
Context {N : Type} `{EqDecision N} {P : Type} `{RoutingProtocol P}.
Context (GetMtu : N → Z → Z) (IsLoopback NeedsArp SupportsMulticast : N → Z → bool) (checksumEnabled : bool).
Context (L4Receive : N → Z → Packet → Ipv4Header → Z → RxStatus) (Hash32 : list Z → Z) (wire : N → Z → Hardware → option (N * Z)).

Abbreviation Net := (Net (N := N) (P := P)).
Abbreviation net_step := (net_step GetMtu IsLoopback NeedsArp SupportsMulticast checksumEnabled L4Receive Hash32 wire).
Abbreviation net_runs := (net_runs GetMtu IsLoopback NeedsArp SupportsMulticast checksumEnabled L4Receive Hash32 wire).
Abbreviation node_Receive := (node_Receive GetMtu IsLoopback NeedsArp SupportsMulticast checksumEnabled L4Receive Hash32).
Abbreviation emit_all := (emit_all wire).
Abbreviation packet_ok := (packet_ok checksumEnabled).
Abbreviation read := (read checksumEnabled).
Abbreviation hop_header := (hop_header checksumEnabled).
Abbreviation Flight := (Flight (N := N)).
Implicit Types (s : Ipv4L3 P) (c : Net) (ys : list Flight) (h : Ipv4Header).

(** The nodes, but for what they reassemble; the destination, a protocol, and [q], which handles it at [z]. *)
Context (nodes : N → Ipv4L3 P) (dst : Ipv4Address) (protocol q : Z) (z : N * Z).

(** At [x] datagrams to [dst] are forwarded to [y]. *)
Definition forwards (x y : N * Z) : Prop :=
  ∃ rp r dev hw, receiving x.2 (nodes x.1) ∧ m_routingProtocol (nodes x.1) = Some rp ∧
    (∀ p h, m_destination h = dst → RouteInput (l3_ip (nodes x.1)) p h x.2 true rp = Ok (true, [Ucb r], rp)) ∧
    (∀ h, m_destination h = dst → leads (GetMtu x.1) (IsLoopback x.1) (NeedsArp x.1) (SupportsMulticast x.1) (l3_ip (nodes x.1)) r h dev hw) ∧
    wire x.1 dev hw = Some y.

Definition iif (x : N * Z) : Z := GetInterfaceForDevice x.2 (l3_ip (nodes x.1)).

(** At [x] they are delivered. *)
Definition accepts (x : N * Z) : Prop :=
  ∃ rp, receiving x.2 (nodes x.1) ∧ m_routingProtocol (nodes x.1) = Some rp ∧
    (∀ p h, m_destination h = dst → RouteInput (l3_ip (nodes x.1)) p h x.2 true rp = Ok (true, [Lcb (iif x)], rp)) ∧
    serves (nodes x.1) protocol (iif x) q.

(** [k] nodes forward on the way. *)
Inductive path : N * Z → nat → Prop :=
  | path_end : path z 0
  | path_hop x y k : forwards x y → path y k → path x (S k).

Context (Hmulti : IsMulticast dst = false) (Hinit : dst = Ipv4Address_of (m_address dst)) (Haccepts : accepts z).

(** The datagram, its header, what is left of its time to live at the end. *)
Context (D : Packet) (HD : 0 < psize D < 2 ^ 16) (h0 : Ipv4Header) (tf : Z) (Htf : 0 < tf).

Record of_datagram h : Prop := {
  od_id : Ipv4Header.m_identification h = Ipv4Header.m_identification h0;
  od_protocol : m_protocol h = m_protocol h0;
  od_tos : m_tos h = m_tos h0;
  od_source : m_address (m_source h) = m_address (m_source h0);
  od_destination : m_address (m_destination h) = m_address (m_destination h0)
}.

Definition key : FragmentKey_t := fragment_key h0.

Lemma of_key h : of_datagram h → fragment_key h = key.
Proof using. intros [Hi Hp _ Hs Hd]. unfold key, fragment_key. congruence. Qed.

Lemma of_read h : of_datagram h → of_datagram (read h).
Proof using. intros [? ? ? ? ?]. by constructor. Qed.

Lemma of_hop h : of_datagram h → of_datagram (hop_header h).
Proof using. intros [? ? ? ? ?]. by constructor. Qed.

Lemma of_same h h' : of_datagram h → same_datagram h h' → of_datagram h'.
Proof using. intros [? ? ? ? ?] [? ? Hs Hd ? ? ? ? ? ? ?]. constructor; congruence. Qed.

Context (Hproto : m_protocol h0 = protocol) (Hdst : m_address (m_destination h0) = m_address dst).

Lemma of_destination h : of_datagram h → m_destination (read h) = dst.
Proof using Hdst Hinit. intros [_ _ _ _ Hd]. rewrite Hinit, <- Hdst, <- Hd. done. Qed.

(** A frame of the datagram under way. *)
Record flight_ok (y : Flight) : Prop := {
  fl_packet : packet_ok y.2;
  fl_of : of_datagram y.2.2;
  fl_path : ∃ k, path y.1 k ∧ m_ttl y.2.2 = Z.of_nat k + tf
}.

(** What the protocols above got, and what was lost. *)
Definition handed (log : list (N * Event)) : list (N * Event) := filter (λ e, match e.2 with ToProtocol _ _ _ _ => true | _ => false end = true) log.
Definition lost (e : Event) : bool := match e with Drop _ _ _ _ | TimeExceededTtl _ _ => true | _ => false end.
Definition no_loss (log : list (N * Event)) : Prop := Forall (λ e, lost e.2 = false) log.

Definition delivered (log : list (N * Event)) : Prop :=
  ∃ h', handed log = [(z.1, ToProtocol q D h' (iif z))] ∧ of_datagram h' ∧ m_ttl h' = tf ∧ m_payloadSize h' = psize D ∧ GetFragmentOffset h' = 0.

Context (T start : Z) (r0 : Reassembly).

(** The nodes are those of the beginning, but for what they reassemble. *)
Definition same_nodes c : Prop := ∀ n, net_node c n = with_reassembly (reassembly c n) (nodes n).

Record flying c ys labs l : Prop := {
  fy_nodes : same_nodes c;
  fy_carries : carries c ys;
  fy_ok : Forall flight_ok ys;
  fy_some : ys ≠ [];
  fy_runs : runs (start, r0) labs (net_now c, reassembly c z.1);
  fy_cuts : cuts 0 true D l;
  fy_all : l ≡ₚ ys.*2 ++ received key labs;
  fy_received : Forall (λ x, of_datagram x.2 ∧ m_ttl x.2 = tf) (received key labs);
  fy_log : handed (net_log c) = [] ∧ no_loss (net_log c)
}.

Record arrived c : Prop := {
  av_nodes : same_nodes c;
  av_carries : net_frames c = [];
  av_log : delivered (net_log c) ∧ no_loss (net_log c)
}.

Definition phase c : Prop := (∃ ys labs l, flying c ys labs l) ∨ arrived c.

(** ** Steps of the datagram *)

Lemma replace_piece l (x : Packet * Ipv4Header) rest pieces :
  cuts 0 true D l → l ≡ₚ x :: rest → cuts (GetFragmentOffset x.2) (IsLastFragment x.2) x.1 pieces → ∃ l', cuts 0 true D l' ∧ l' ≡ₚ pieces ++ rest.
Proof using.
  intros Hl Hp Hc. assert (x ∈ l) as Hx by (rewrite Hp; by left). apply list_elem_of_split in Hx as (l1 & l2 & ->).
  exists (l1 ++ pieces ++ l2). destruct x as [p h]. split; [by eapply cuts_replace|]. rewrite <- Permutation_middle in Hp. apply Permutation_cons_inv in Hp.
  rewrite <- Hp. rewrite !app_assoc. by rewrite (Permutation_app_comm l1 pieces).
Qed.

Lemma handed_app l l' : handed (l ++ l') = handed l ++ handed l'.
Proof using. apply filter_app. Qed.

Lemma update_self (n : N) (m : N → Ipv4L3 P) n' : update n (m n) m n' = m n'.
Proof using. unfold update. by destruct (decide (n' = n)) as [->|]. Qed.

(** What raw sockets see and what is sent is neither handed up nor lost. *)
Lemma log_sent (n : N) d x s es : handed es = [] → no_loss es → handed (((n,.) <$> seen checksumEnabled d x s) ++ es) = [] ∧ no_loss (((n,.) <$> seen checksumEnabled d x s) ++ es).
Proof using.
  intros He Hn. rewrite handed_app, He, app_nil_r. split.
  - unfold seen. induction (m_sockets s) as [|a l IH]; [done|exact IH].
  - apply Forall_app. split; [|done]. unfold seen. induction (m_sockets s) as [|a l IH]; [constructor|constructor; [done|exact IH]].
Qed.

Lemma quiet_sent (n : N) dev hw pr l : handed ((n,.) <$> (sent dev hw pr <$> l)) = [] ∧ no_loss ((n,.) <$> (sent dev hw pr <$> l)).
Proof using. induction l as [|x l [IH1 IH2]]; [by repeat constructor|]. split; [exact IH1|constructor; [done|exact IH2]]. Qed.

Lemma emit_seen n d x s es fs : emit_all n es = Ok fs → emit_all n (seen checksumEnabled d x s ++ es) = Ok fs.
Proof using.
  intros He. apply (emit_all_ok wire n _ _ [] fs); [|done]. apply emit_quiet. unfold seen. apply Forall_fmap, Forall_true. by intros.
Qed.

Lemma snds (y : N * Z) (l : list (Packet * Ipv4Header)) : ((y,.) <$> l).*2 = l.
Proof using. induction l as [|x l IH]; [done|]. cbn. by f_equal. Qed.

Lemma forward_step c n d x ys labs l :
  flying c (((n, d), x) :: ys) labs l → flight_ok ((n, d), x) → (n, d) ≠ z →
  ∃ es fs s l' ys', node_Receive n (net_now c) d (frame x) (net_node c n) = Ok (es, s) ∧ emit_all n es = Ok fs ∧
    ∀ rest, rest ≡ₚ to_frame <$> ys → flying (mkNet (net_now c) (update n s (net_node c)) (rest ++ fs) (net_log c ++ ((n,.) <$> es))) ys' labs l'.
Proof using Hmulti Hdst Hinit Htf.
  intros [Hn Hc Hok Hsome Hr Hcuts Hall Hrec [Hlog Hloss]] [Hx Hof (k & Hpath & Httl)] Hz. cbn [fst snd] in *.
  inversion Hpath as [Hend|? y k' (rp & r & dev & hw & Hrcv & Hrp & HR & Hl & Hw) Hpath']; subst; [done|]. cbn [fst snd] in *.
  pose proof (of_destination _ Hof) as Hd. assert (fits 8 (m_ttl x.2)) as Hf by (by apply (ip_bytes _ (pk_header _ _ Hx))).
  assert (m_ttl (hop_header x.2) = Z.of_nat k' + tf) as Ht by (rewrite hop_ttl by done; rewrite (proj2 (Z.eqb_neq _ _)) by lia; lia).
  destruct (Receive_forward (GetMtu n) (IsLoopback n) (NeedsArp n) (SupportsMulticast n) checksumEnabled (L4Receive n) Hash32 (net_now c) d x None (net_node c n) rp r dev hw)
    as (l' & pr & E & Hcut & Hl'); [done|by rewrite Hn|by rewrite Hd|by rewrite Hn|rewrite Hn; by apply HR|lia|rewrite Hn; by apply Hl|].
  assert (Forall packet_ok l') as Hpk by (eapply Forall_impl; [exact Hl'|]; by intros ? [_ ?]).
  destruct (replace_piece l x (ys.*2 ++ received key labs) l' Hcuts Hall Hcut) as (l2 & Hcuts2 & Hall2).
  eexists _, _, _, l2, (ys ++ ((y,.) <$> l')). split; [exact E|]. split; [apply emit_seen; by eapply emit_sent|].
  intros rest Hrest. constructor; cbn [net_now net_node net_frames net_log]; try done.
  - intros n'. unfold reassembly. cbn [net_node]. rewrite update_self. apply Hn.
  - unfold carries. cbn [net_frames]. by rewrite fmap_app, Hrest.
  - apply Forall_cons in Hok as [_ Hok]. apply Forall_app. split; [done|]. apply Forall_fmap. eapply Forall_impl; [exact Hl'|]. intros v [Hsd Hv]. constructor; cbn; [done| |].
    + eapply of_same; [|exact Hsd]. by apply of_hop.
    + exists k'. split; [done|]. by rewrite (sd_ttl _ _ Hsd).
  - destruct (cuts_head _ _ _ _ Hcut) as [_ Hne]. destruct ys; [by destruct l'|done].
  - unfold reassembly. cbn [net_node]. by rewrite update_self.
  - rewrite Hall2, fmap_app, snds, app_assoc. by rewrite (Permutation_app_comm l').
  - rewrite fmap_app. destruct (quiet_sent n dev hw pr l') as [Q1 Q2]. destruct (log_sent n d x (net_node c n) _ Q1 Q2) as [L1 L2].
    rewrite handed_app, Hlog, L1. split; [done|]. by apply Forall_app.
Qed.

Context (Hinv : inv start r0) (HT0 : m_fragmentExpirationTimeout r0 = T) (Hnone : m_fragments r0 !! key = None).

(** At the destination no route leads on. *)
Lemma path_from_z k h : of_datagram h → path z k → k = 0%nat.
Proof using checksumEnabled Haccepts Hdst Hinit.
  intros Ho Hp. inversion Hp as [|? y k' (rp & r & dev & hw & _ & Hrp & HR & _) _]; [done|]. destruct Haccepts as (rp' & _ & Hrp' & HR' & _).
  rewrite Hrp in Hrp'. injection Hrp' as <-. specialize (HR [] (read h) (of_destination _ Ho)). specialize (HR' [] (read h) (of_destination _ Ho)). congruence.
Qed.

Lemma received_of labs p h i r : received key (LRecv p h i r :: labs) = if bool_decide (fragment_key h = key) then (p, h) :: received key labs else received key labs.
Proof using. unfold received. cbn [omap list_omap]. by destruct (bool_decide _). Qed.

(** What reassembly makes of a frame of the datagram: the datagram if it is the last one under way. *)
Lemma reassemble_step c x ys labs l :
  flying c ((z, x) :: ys) labs l → flight_ok (z, x) → net_now c < start + T →
  ∃ out r', LocalDeliver_reassemble (net_now c) x.1 (read x.2) (iif z) (reassembly c z.1) = Ok (out, r') ∧
    match out with
    | Some (p, h') => ys = [] ∧ p = D ∧ of_datagram h' ∧ m_ttl h' = tf ∧ m_payloadSize h' = psize D ∧ GetFragmentOffset h' = 0
    | None => ys ≠ [] ∧ ∃ labs' l', runs (start, r0) labs' (net_now c, r') ∧ cuts 0 true D l' ∧ l' ≡ₚ ys.*2 ++ received key labs' ∧
        Forall (λ x, of_datagram x.2 ∧ m_ttl x.2 = tf) (received key labs')
    end.
Proof using Haccepts Hdst Hinit HD Hinv HT0 Hnone.
  intros [_ _ _ _ Hr Hcuts Hall Hrec _] [Hx Hof (k & Hpath & Httl)] Hnow. cbn [fst snd] in *. rewrite (path_from_z _ _ Hof Hpath) in Httl.
  set (rh := read x.2). assert (of_datagram rh) as Hrh by (by apply of_read). assert (m_ttl rh = tf) as Htr by (change (m_ttl rh) with (m_ttl x.2); lia).
  destruct (replace_piece l x (ys.*2 ++ received key labs) [(x.1, rh)] Hcuts Hall) as (l' & Hc' & Hl'). { split_and!; [done|by apply (pk_nonempty _ _ Hx)|done|done]. }
  cbn [app] in Hl'. pose proof (cuts_NoDup _ _ _ _ Hc') as Hnd. rewrite Hl' in Hnd. apply NoDup_cons in Hnd as [Hnotin Hnd].
  assert ((x.1, rh) ∈ l') as Hin by (rewrite Hl'; by left).
  destruct (decide (2 ≤ length l')%nat) as [Hlen|Hlen].
  - destruct (is_fragment_of_two D l' (x.1, rh) Hc' Hlen Hin) as [Hfrag _]. cbn [snd] in Hfrag.
    destruct (holding_runs D HD l' Hc' key T start r0 labs (net_now c) (reassembly c z.1)) as (I & Hle & HT & Hh & _); try done.
    { intros y Hy. rewrite Hl'. right. apply elem_of_app. by right. } { intros Hno. apply Hnotin, elem_of_app. right. by apply Hno. }
    destruct (holding_recv D HD l' Hc' key T start (received key labs) (net_now c) (reassembly c z.1) x.1 rh (iif z)) as (r & s' & E & Hcase); try done; [by apply of_key|].
    unfold LocalDeliver_reassemble. rewrite Hfrag, E. res_simpl. destruct Hcase as [(Hcomplete & -> & Hs')|(Hnot & -> & Hh')].
    + unfold SetFragmentOffset. cbn [Z.land Z.eqb ns_abort_unless mbind res_bind]. eexists _, s'. split; [done|]. split.
      { destruct ys as [|y ys]; [done|]. exfalso. assert (y.2 ∈ (x.1, rh) :: received key labs) as [Hy|Hy]%elem_of_cons.
        - apply Hcomplete. rewrite Hl'. right. apply elem_of_app. left. by left.
        - apply Hnotin, elem_of_app. left. cbn. rewrite Hy. by left.
        - apply NoDup_app in Hnd as (_ & Hdis & _). by apply (Hdis y.2); [cbn; left|]. }
      destruct Hrh. split_and!; try done. cbn -[wrap]. apply wrap_id. unfold fits. lia.
    + eexists None, s'. split; [done|]. split.
      { intros ->. apply Hnot. intros y Hy. by rewrite Hl' in Hy. }
      exists (LRecv x.1 rh (iif z) None :: labs), l'. split; [|split; [done|]].
      * eapply runs_cons; [exact Hr|]. constructor; [|done]. pose proof (packet_small _ _ Hx). lia.
      * rewrite received_of, bool_decide_true by (by apply of_key). split; [|by constructor]. by rewrite Hl', Permutation_middle.
  - destruct l' as [|w [|]]; [by apply not_elem_of_nil in Hin| |cbn in Hlen; lia]. apply Permutation_length_1_inv in Hl'. injection Hl' as Hw Hrest. subst w.
    apply app_nil in Hrest as [Hys _]. assert (ys = []) as -> by (by destruct ys). destruct Hc' as (-> & _ & Ho & Hlast).
    unfold LocalDeliver_reassemble. rewrite Hlast, Ho. cbn [negb orb Z.eqb]. eexists (Some (x.1, rh)), _. split; [done|]. split_and!; try done.
    change (m_payloadSize rh) with (m_payloadSize x.2). by apply (pk_size _ _ Hx).
Qed.

Lemma same_nodes_update c n r fs log : same_nodes c → same_nodes (mkNet (net_now c) (update n (with_reassembly r (net_node c n)) (net_node c)) fs log).
Proof using.
  intros Hn n'. unfold reassembly. cbn [net_node]. unfold update. destruct (decide (n' = n)) as [->|]; [|apply Hn]. cbn [with_reassembly l3_reassembly]. by rewrite Hn.
Qed.

Lemma reassembly_update c n s fs log : reassembly (mkNet (net_now c) (update n s (net_node c)) fs log) n = l3_reassembly s.
Proof using. unfold reassembly, update. cbn [net_node]. by rewrite decide_True. Qed.

Lemma reassembly_other c n s n' fs log : n' ≠ n → reassembly (mkNet (net_now c) (update n s (net_node c)) fs log) n' = reassembly c n'.
Proof using. intros Hne. unfold reassembly, update. cbn [net_node]. by rewrite decide_False. Qed.

(** A frame arrives at the destination. *)
Lemma arrive_step c x ys labs l :
  flying c ((z, x) :: ys) labs l → flight_ok (z, x) → net_now c < start + T →
  ∃ es s, node_Receive z.1 (net_now c) z.2 (frame x) (net_node c z.1) = Ok (es, s) ∧ emit_all z.1 es = Ok [] ∧
    ∀ rest, rest ≡ₚ to_frame <$> ys → phase (mkNet (net_now c) (update z.1 s (net_node c)) (rest ++ []) (net_log c ++ ((z.1,.) <$> es))).
Proof using Hmulti Haccepts Hdst Hinit HD Hinv HT0 Hnone Hproto.
  intros Hfly Hfl Hnow. destruct (reassemble_step c x ys labs l Hfly Hfl Hnow) as (out & r' & E & Hout). destruct Hfly as [Hn Hc Hok _ Hr Hcuts Hall Hrec [Hlog Hloss]].
  destruct Hfl as [Hx Hof _]. cbn [fst snd] in *. pose proof (of_destination _ Hof) as Hd. pose proof Haccepts as (rp & Hrcv & Hrp & HR & Hserve).
  assert (∀ es s, LocalDeliver (L4Receive z.1) (net_now c) x.1 (read x.2) (iif z) (net_node c z.1) = Ok (es, s) → m_sockets s = m_sockets (net_node c z.1) →
    node_Receive z.1 (net_now c) z.2 (frame x) (net_node c z.1) = Ok (seen checksumEnabled z.2 x (net_node c z.1) ++ es, s)) as Hloc.
  { intros es s Hes Hs. assert (iif z = GetInterfaceForDevice z.2 (l3_ip (net_node c z.1))) as Ei by (by rewrite Hn). rewrite Ei in Hes.
    eapply (Receive_local (GetMtu z.1) (IsLoopback z.1) (NeedsArp z.1) (SupportsMulticast z.1) checksumEnabled (L4Receive z.1) Hash32 (net_now c) z.2 x None (net_node c z.1) rp es s);
      [done|by rewrite Hn|by rewrite Hd|by rewrite Hn|rewrite Hn; by apply HR|exact Hes|done]. }
  destruct out as [[p h']|].
  - destruct Hout as (-> & -> & Hof' & Ht' & Hpay & Hoff).
    destruct (LocalDeliver_up (L4Receive z.1) (net_now c) x.1 (read x.2) (iif z) (net_node c z.1) r' D h' q E) as (more & El & Hmore).
    { rewrite (od_protocol _ Hof'), Hproto, Hn. exact Hserve. }
    eexists _, _. split; [by apply Hloc|]. split.
    { apply emit_seen. apply emit_quiet. destruct Hmore as [->| ->]; by repeat constructor. }
    intros rest Hrest. apply Permutation_nil_r in Hrest as ->. right.
    assert (handed ((z.1,.) <$> more) = [] ∧ no_loss ((z.1,.) <$> more)) as [M1 M2] by (destruct Hmore as [->| ->]; by repeat constructor).
    constructor; cbn [net_frames net_log]; [by apply same_nodes_update|done|].
    rewrite fmap_app. destruct (log_sent z.1 z.2 x (net_node c z.1) [] eq_refl ltac:(constructor)) as [L1 L2]. rewrite app_nil_r in L1, L2. split.
    + exists h'. rewrite !handed_app, Hlog, L1. split_and!; try done. cbn [app fmap list_fmap]. change (handed ((z.1, ToProtocol q D h' (iif z)) :: ((z.1,.) <$> more))) with ((z.1, ToProtocol q D h' (iif z)) :: handed ((z.1,.) <$> more)). by rewrite M1.
    + repeat (apply Forall_app; split); try done. constructor; [done|exact M2].
  - destruct Hout as (Hys & labs' & l' & Hr' & Hc' & Hl' & Hrec').
    pose proof (LocalDeliver_part (L4Receive z.1) (net_now c) x.1 (read x.2) (iif z) (net_node c z.1) r' E) as El.
    eexists _, _. split; [by apply Hloc|]. split; [by apply (emit_seen z.1 z.2 x (net_node c z.1) [] [])|].
    intros rest Hrest. left. exists ys, labs', l'. apply Forall_cons in Hok as [_ Hok]. constructor; cbn [net_now net_frames net_log]; try done.
    + by apply same_nodes_update.
    + unfold carries. cbn [net_frames]. by rewrite app_nil_r.
    + by rewrite reassembly_update.
    + rewrite fmap_app. destruct (log_sent z.1 z.2 x (net_node c z.1) [] eq_refl ltac:(constructor)) as [L1 L2]. rewrite app_nil_r in L1, L2.
      rewrite !handed_app, Hlog, L1. split; [done|]. repeat (apply Forall_app; split); done.
Qed.

Lemma flying_perm c ys ys' labs l : ys ≡ₚ ys' → flying c ys labs l → flying c ys' labs l.
Proof using.
  intros Hp [Hn Hc Hok Hsome Hr Hcuts Hall Hrec Hlog]. constructor; try done; [unfold carries in *; by rewrite <- Hp|by rewrite <- Hp| |by rewrite <- Hp].
  intros ->. by apply Permutation_nil_r in Hp.
Qed.

(** Every frame under way can be received, and the way goes on. *)
Lemma receive_step c n d f rest :
  phase c → net_now c < start + T → net_frames c ≡ₚ (n, d, f) :: rest →
  ∃ es s fs, node_Receive n (net_now c) d f (net_node c n) = Ok (es, s) ∧ emit_all n es = Ok fs ∧
    phase (mkNet (net_now c) (update n s (net_node c)) (rest ++ fs) (net_log c ++ ((n,.) <$> es))).
Proof using Hmulti Haccepts Hdst Hinit HD Hinv HT0 Hnone Hproto Htf.
  intros [(ys & labs & l & Hfly)|[_ Hnil _]] Hnow Hp; [|rewrite Hnil in Hp; by apply Permutation_nil_cons in Hp].
  destruct (carries_head c ys n d f rest (fy_carries _ _ _ _ Hfly) Hp) as (x & ys' & Hys & -> & Hrest). apply (flying_perm _ _ _ _ _ Hys) in Hfly.
  pose proof (fy_ok _ _ _ _ Hfly) as Hok. apply Forall_cons in Hok as [Hx _]. destruct (decide ((n, d) = z)) as [E|Hne].
  - rewrite E in Hfly, Hx. destruct (arrive_step c x ys' labs l Hfly Hx Hnow) as (es & s & HR & He & Hph). rewrite <- E in HR, He, Hph. cbn [fst snd] in *.
    exists es, s, []. split; [done|]. split; [done|]. by apply Hph.
  - destruct (forward_step c n d x ys' labs l Hfly Hx Hne) as (es & fs & s & l' & ys2 & HR & He & Hph). exists es, s, fs. split; [done|]. split; [done|]. left. exists ys2, labs, l'. by apply Hph.
Qed.

(** ** Runs *)

(** Nothing else of the network puts fragments with the datagram's key into the buffers of the destination. *)
Definition allowed (lab : net_label (N := N)) : Prop := match lab with NOther n _ h => n = z.1 → fragment_key h ≠ key | _ => True end.

Lemma net_step_now c lab c' : net_step c lab c' → net_now c ≤ net_now c'.
Proof using. destruct 1; cbn [net_now]; lia. Qed.

(** A step of reassembly at the destination that is not about the datagram, and any at other nodes. *)
Lemma phase_reassembly c n lab r :
  phase c → step (net_now c, reassembly c n) lab (net_now c, r) → (n = z.1 → ∀ labs, received key (lab :: labs) = received key labs) →
  phase (mkNet (net_now c) (update n (with_reassembly r (net_node c n)) (net_node c)) (net_frames c) (net_log c)).
Proof using.
  intros [(ys & labs & l & [Hn Hc Hok Hsome Hr Hcuts Hall Hrec Hlog])|[Hn Hc Hlog]] Hs Hk; [left|right; constructor; [by apply same_nodes_update|done|done]].
  destruct (decide (z.1 = n)) as [<-|Hne].
  - specialize (Hk eq_refl labs). exists ys, (lab :: labs), l. constructor; rewrite ?Hk; cbn [net_now net_log]; try done; [by apply same_nodes_update|]. rewrite reassembly_update. by eapply runs_cons.
  - exists ys, labs, l. constructor; cbn [net_now net_log]; try done; [by apply same_nodes_update|]. by rewrite reassembly_other.
Qed.

Lemma phase_step c lab c' : phase c → net_step c lab c' → allowed lab → net_now c' < start + T → phase c'.
Proof using Hmulti Haccepts Hdst Hinit HD Hinv HT0 Hnone Hproto Htf.
  intros Hph Hs Ha Hnow. destruct Hs as [n d f rest es s fs Hp HR He|now' Hle Hev|n p h i r s' Hp E|n ns s' Hin E]; cbn [net_now] in Hnow.
  - destruct (receive_step c n d f rest Hph Hnow Hp) as (es' & s2 & fs' & HR' & He' & Hph'). rewrite HR in HR'. injection HR' as <- <-. rewrite He in He'. by injection He' as <-.
  - destruct Hph as [(ys & labs & l & [Hn Hc Hok Hsome Hr Hcuts Hall Hrec Hlog])|[Hn Hc Hlog]]; [left|by right].
    exists ys, (LTime :: labs), l. constructor; try done. eapply runs_cons; [exact Hr|]. destruct (Hev z.1). by constructor.
  - apply (phase_reassembly c n (LRecv p h i r)); [done|by constructor|]. intros En labs. rewrite received_of, bool_decide_false; [done|by apply Ha].
  - apply (phase_reassembly c n (LFire ns)); [done|by constructor|done].
Qed.

Lemma phase_runs c labs c' : phase c → net_runs c labs c' → Forall allowed labs → net_now c' < start + T → phase c'.
Proof using Hmulti Haccepts Hdst Hinit HD Hinv HT0 Hnone Hproto Htf.
  intros Hph Hr. induction Hr as [|labs c' lab c'' Hr IH Hs]; [done|]. intros [Ha Hall]%Forall_cons Hnow. pose proof (net_step_now _ _ _ Hs).
  apply (phase_step c' lab c''); try done. apply IH; [done|lia].
Qed.

(** What a phase says to the outside. *)
Lemma phase_result c :
  phase c → net_now c < start + T →
  (∀ f, f ∈ net_frames c → ∃ c', net_step c (NReceive f) c') ∧ no_loss (net_log c) ∧
  (if decide (net_frames c = []) then delivered (net_log c) else handed (net_log c) = []).
Proof using Hmulti Haccepts Hdst Hinit HD Hinv HT0 Hnone Hproto Htf.
  intros Hph Hnow. split.
  - intros [[n d] f] Hf. apply elem_of_Permutation in Hf as [rest Hp]. destruct (receive_step c n d f rest Hph Hnow Hp) as (es & s & fs & HR & He & _). eexists. by econstructor.
  - destruct Hph as [(ys & labs & l & [_ Hc _ Hsome _ _ _ _ [Hlog Hloss]])|[_ Hc [Hlog Hloss]]]; (split; [done|]).
    + rewrite decide_False; [done|]. intros E. unfold carries in Hc. rewrite E in Hc. apply Permutation_nil_l in Hc. by destruct ys.
    + by rewrite decide_True.
Qed.
End delivery.

(** * From [Send] to the protocol above, through static tables

    [datagram_delivered] over any routing protocol; the conditions of its path for static tables and lists
    of protocols; an example of three nodes. *)

(** A payload and the fields of its header are in their ranges. *)
Record datagram_fits (D : Packet) (ttl tos protocol : Z) (source destination : Ipv4Address) (id : Z) : Prop := {
  df_size : 0 < psize D ∧ psize D + 20 < 2 ^ 16;
  df_bytes : Forall (fits 8) D;
  df_fields : fits 8 tos ∧ fits 8 ttl ∧ fits 8 protocol;
  df_addresses : fits 32 (m_address source) ∧ fits 32 (m_address destination);
  df_id : fits 16 id
}.

Section delivery.
Context {N : Type} `{EqDecision N} {P : Type} `{RoutingProtocol P}.
Context (GetMtu : N → Z → Z) (IsLoopback NeedsArp SupportsMulticast : N → Z → bool) (checksumEnabled : bool).
Context (L4Receive : N → Z → Packet → Ipv4Header → Z → RxStatus) (Hash32 : list Z → Z) (wire : N → Z → Hardware → option (N * Z)).

Abbreviation net_step := (net_step GetMtu IsLoopback NeedsArp SupportsMulticast checksumEnabled L4Receive Hash32 wire).
Abbreviation net_runs := (net_runs GetMtu IsLoopback NeedsArp SupportsMulticast checksumEnabled L4Receive Hash32 wire).
Abbreviation Send n := (Send (GetMtu n) (IsLoopback n) (NeedsArp n) (SupportsMulticast n) checksumEnabled Hash32).
Abbreviation leads n := (leads (GetMtu n) (IsLoopback n) (NeedsArp n) (SupportsMulticast n)).
Abbreviation path := (path GetMtu IsLoopback NeedsArp SupportsMulticast wire).
Abbreviation build := (BuildHeader checksumEnabled).
Implicit Types (s : Ipv4L3 P) (ip : Ipv4).

Lemma BuildHeader_ok D source destination protocol ttl tos ip h ip' :
  datagram_fits D ttl tos protocol source destination (identification source destination protocol ip) →
  build source destination protocol (u16 (psize D)) ttl tos true ip = (h, ip') →
  packet_ok checksumEnabled (D, h) ∧ GetFragmentOffset h = 0 ∧ IsLastFragment h = true ∧ m_destination h = destination ∧ m_protocol h = protocol ∧ m_ttl h = ttl.
Proof using.
  intros [[Hpos Hmax] Hb Hf Ha Hid] E. unfold BuildHeader in E. injection E as <- <-. rewrite (wrap_id 16 (psize D)) by (unfold fits; lia).
  assert (0 ≤ 0 < 4) as H04 by lia. split.
  - constructor; cbn [fst snd]; [|by destruct checksumEnabled|by apply psize_pos|done|by intros ->|destruct checksumEnabled; cbn; lia].
    destruct checksumEnabled; constructor; try done; cbn; lia.
  - by destruct checksumEnabled.
Qed.

Lemma with_ip_dpd ip s : with_dpd (l3_dpd (with_ip ip s)) (with_ip ip s) = with_ip ip s.
Proof using. by destruct s. Qed.

(** A datagram is cut to the link of its route. *)
Lemma Send_ok n now D ttlTag tosTag priority source destination protocol route s h ip' dev hw :
  datagram_fits D (default (m_defaultTtl (l3_ip s)) ttlTag) (default 0 tosTag) protocol source destination (identification source destination protocol (l3_ip s)) →
  build source destination protocol (u16 (psize D)) (default (m_defaultTtl (l3_ip s)) ttlTag) (default 0 tosTag) true (l3_ip s) = (h, ip') →
  IsMulticast destination = false → m_initialized (r_gateway route) = true → leads n ip' route h dev hw →
  ∃ l, Send n now D ttlTag tosTag priority source destination protocol (Some route) s = Ok (sent dev hw priority <$> l, with_ip ip' s) ∧
    cuts 0 true D l ∧ Forall (λ y, same_datagram h y.2 ∧ packet_ok checksumEnabled y) l.
Proof using.
  intros Hfit E Hm Hgw Hl. destruct (BuildHeader_ok _ _ _ _ _ _ _ _ _ Hfit E) as (Hx & Ho & Hlast & Hd & _).
  destruct (SendRealOut_ok (GetMtu n) (IsLoopback n) (NeedsArp n) (SupportsMulticast n) checksumEnabled ip' route (D, h) priority dev hw Hx Hl) as (l & El & Hc & Ha).
  cbn [fst snd] in *. rewrite Ho, Hlast in Hc. exists l. split; [|done]. unfold Ipv4L3.Send, Send_route. rewrite E, Hgw. cbn [negb]. rewrite Hd, Hm, andb_false_r. res_simpl.
  cbn [with_ip l3_ip]. fold (with_ip ip' s). rewrite El. res_simpl. by rewrite <- (with_ip_dpd ip' s) at 2.
Qed.

(** C4 A datagram sent into a network of nodes.  The sender's route leads to [x], from where the
    tables of [k] nodes, fewer than the time to live, lead to a node that accepts it; MTUs are 28 to 65535.  The payload
    has 1 to 65515 bytes.  Then [Send] succeeds, and whatever order frames arrive in, whatever other
    datagrams the nodes reassemble meanwhile, and however often routers have to cut the pieces again: every frame
    under way can be received without an error; nothing is dropped; the protocol at the destination is handed nothing while a
    piece is still under way, and when none is, it has been handed the payload that was sent, byte
    for byte, exactly once, with the header that was sent and [k] less time to live. *)
Theorem datagram_delivered (nodes : N → Ipv4L3 P) n0 s D source destination protocol q ttlTag tosTag priority route h ip' dev hw x k z start T :
  let ttl := default (m_defaultTtl (l3_ip s)) ttlTag in
  datagram_fits D ttl (default 0 tosTag) protocol source destination (identification source destination protocol (l3_ip s)) →
  build source destination protocol (u16 (psize D)) ttl (default 0 tosTag) true (l3_ip s) = (h, ip') →
  IsMulticast destination = false → destination = Ipv4Address_of (m_address destination) →
  m_initialized (r_gateway route) = true → leads n0 ip' route h dev hw → wire n0 dev hw = Some x →
  nodes n0 = with_ip ip' s → path nodes destination z x k → Z.of_nat k < ttl → accepts nodes destination protocol q z →
  reachable T start (l3_reassembly (nodes z.1)) → m_fragments (l3_reassembly (nodes z.1)) !! fragment_key h = None →
  ∃ es fs, Send n0 start D ttlTag tosTag priority source destination protocol (Some route) s = Ok (es, nodes n0) ∧ emit_all wire n0 es = Ok fs ∧
    ∀ labs c, net_runs (mkNet start nodes fs []) labs c → Forall (allowed z h) labs → net_now c < start + T →
      (∀ f, f ∈ net_frames c → ∃ c', net_step c (NReceive f) c') ∧ no_loss (net_log c) ∧
      (if decide (net_frames c = []) then delivered nodes q z D h (ttl - Z.of_nat k) (net_log c) else handed (net_log c) = []).
Proof using.
  intros ttl Hfit E Hm Hinit Hgw Hl Hw Hn0 Hpath Hk Hacc Hreach Hnone. destruct (reachable_inv _ _ _ Hreach) as [Hinv HT].
  destruct (Send_ok n0 start D ttlTag tosTag priority source destination protocol route s h ip' dev hw Hfit E Hm Hgw Hl) as (l & ES & Hc & Ha).
  destruct (BuildHeader_ok _ _ _ _ _ _ _ _ _ Hfit E) as (Hx & _ & _ & Hd & Hp & Ht).
  assert (Forall (packet_ok checksumEnabled) l) as Hpk by (eapply Forall_impl; [exact Ha|]; by intros ? [_ ?]).
  eexists _, _. split; [by rewrite Hn0|]. split; [by eapply emit_sent|]. intros labs c Hr Hall Hnow.
  assert (0 < psize D < 2 ^ 16) as HD by (destruct (df_size _ _ _ _ _ _ _ Hfit); lia). assert (0 < ttl - Z.of_nat k) as Htf by lia.
  assert (m_address (m_destination h) = m_address destination) as Hda by (by rewrite Hd).
  eapply (phase_result GetMtu IsLoopback NeedsArp SupportsMulticast checksumEnabled L4Receive Hash32 wire nodes destination protocol q z Hm Hinit Hacc D HD h (ttl - Z.of_nat k) Htf Hp Hda T start _ Hinv HT Hnone); [|done].
  eapply (phase_runs GetMtu IsLoopback NeedsArp SupportsMulticast checksumEnabled L4Receive Hash32 wire nodes destination protocol q z Hm Hinit Hacc D HD h (ttl - Z.of_nat k) Htf Hp Hda T start _ Hinv HT Hnone); [|exact Hr|done|done].
  left. exists ((x,.) <$> l), [], l. constructor; cbn [net_now net_frames net_log]; try done.
  - intros n. unfold reassembly. cbn [net_node]. by destruct (nodes n).
  - by unfold carries.
  - apply Forall_fmap. eapply Forall_impl; [exact Ha|]. intros y [Hsd Hy]. constructor; cbn [compose fst snd]; [done| |].
    + eapply of_same; [|exact Hsd]. by constructor.
    + exists k. split; [done|]. rewrite (sd_ttl _ _ Hsd), Ht. lia.
  - destruct (cuts_head _ _ _ _ Hc) as [_ Hne]. by destruct l.
  - constructor.
  - by rewrite app_nil_r, snds.
  - by split; [|constructor].
Qed.
End delivery.
