(* ===== verification/IpExample.v ===== *)
(** * Three nodes in a row, and two that send in circles

    Nodes set up by the operations of the program, with a static protocol in a list.  Their
    frames are run one after another by [exec]. *)

From S2P Require Import Prelude Buffer BufferCorrect Address Ipv4Address ByteIter BufferIter Ipv4Header NsTime IpFragments IpReassembly IpTimeouts IpTheorems IpInterfaces StaticRouting ListRouting Ipv4L3 IpForwarding IpDelivery.
Local Open Scope Z_scope.

(** ** Static tables as a path *)

(** What the static protocol does with a datagram for another node. *)
Lemma static_forwards ip p h d lcb s r :
  m_ipv4 s = true → 0 ≤ GetInterfaceForDevice d ip → IsMulticast (m_destination h) = false →
  IsDestinationAddress (m_destination h) (GetInterfaceForDevice d ip) ip = Ok false → IsForwarding (GetInterfaceForDevice d ip) ip = Ok true →
  LookupStatic ip (m_destination h) 0 s = Ok (Some r) → RouteInput ip p h d lcb s = Ok (true, [Ucb r], s).
Proof.
  intros Hip Hi Hm Hown Hf Hl. cbn. unfold Static_RouteInput. rewrite Hip, (proj2 (Z.leb_le _ _) Hi), Hm, Hown. res_simpl. rewrite Hf. res_simpl. by rewrite Hl.
Qed.

(** In a list it answers first if it has the highest priority. *)
Lemma list_forwards {P} `{RoutingProtocol P} ip p h d lcb priority i l r :
  0 ≤ GetInterfaceForDevice d ip → IsDestinationAddress (m_destination h) (GetInterfaceForDevice d ip) ip = Ok false → IsForwarding (GetInterfaceForDevice d ip) ip = Ok true →
  (∀ b, RouteInput ip p h d b i = Ok (true, [Ucb r], i)) → RouteInput ip p h d lcb (mkList ((priority, i) :: l) true) = Ok (true, [Ucb r], mkList ((priority, i) :: l) true).
Proof.
  intros Hi Hown Hf HR. cbn. unfold List_RouteInput. rewrite (proj2 (Z.leb_le _ _) Hi), Hown. cbn [lr_ipv4]. res_simpl. cbn [andb]. res_simpl. rewrite Hf. res_simpl. cbn [m_routingProtocols List_RouteInput_loop negb].
  by rewrite HR.
Qed.

(** ** Running a network *)

Section exec.
Context {N : Type} `{EqDecision N} {P : Type} `{RoutingProtocol P}.
Context (GetMtu : N → Z → Z) (IsLoopback NeedsArp SupportsMulticast : N → Z → bool) (checksumEnabled : bool).
Context (L4Receive : N → Z → Packet → Ipv4Header → Z → RxStatus) (Hash32 : list Z → Z) (wire : N → Z → Hardware → option (N * Z)).
Abbreviation net_runs := (net_runs GetMtu IsLoopback NeedsArp SupportsMulticast checksumEnabled L4Receive Hash32 wire).

Fixpoint exec (fuel : nat) (c : Net (N := N) (P := P)) : res Net :=
  match fuel, net_frames c with
  | S fuel, (n, d, f) :: rest =>
      '(es, s) ← node_Receive GetMtu IsLoopback NeedsArp SupportsMulticast checksumEnabled L4Receive Hash32 n (net_now c) d f (net_node c n);
      fs ← emit_all wire n es;
      exec fuel (mkNet (net_now c) (update n s (net_node c)) (rest ++ fs) (net_log c ++ ((n,.) <$> es)))
  | _, _ => Ok c
  end.

Lemma exec_runs fuel c labs c' c'' :
  net_runs c labs c' → Forall (λ l, is_receive l = true) labs → exec fuel c' = Ok c'' →
  ∃ labs', net_runs c labs' c'' ∧ Forall (λ l, is_receive l = true) labs' ∧ net_now c'' = net_now c'.
Proof using.
  revert labs c'. induction fuel as [|fuel IH]; intros labs c' Hr Hl E; cbn [exec] in E; [simplify_eq; by exists labs|].
  destruct (net_frames c') as [|[[n d] f] rest] eqn:Ef; [simplify_eq; by exists labs|]. res_inv.
  match goal with H : node_Receive _ _ _ _ _ _ _ _ _ _ _ _ = Ok ?x |- _ => destruct x as [es s]; rename H into HR end. res_inv.
  match goal with H : emit_all _ _ _ = Ok ?fs |- _ => destruct (IH (NReceive (n, d, f) :: labs) (mkNet (net_now c') (update n s (net_node c')) (rest ++ fs) (net_log c' ++ ((n,.) <$> es)))) as (labs' & Hr' & Hl' & Hn') end; [|by constructor|done|by exists labs'].
  eapply nr_cons; [exact Hr|]. eapply ns_receive; [by rewrite Ef|done|done].
Qed.
End exec.

(** ** Set-up *)

Abbreviation Protocols := (ListRouting StaticRouting).
Abbreviation Node := (Ipv4L3 Protocols).

Definition empty_ip : Ipv4 := mkIpv4L3 true true [] ∅ 64 ∅.
(** All devices that are set up have MTUs of at least 68. *)
Definition mtu_of : Z → Z := λ _, 1500.

(** An interface with an address of 24 bits prefix, brought up. *)
Definition interface (dev : Z) (a : Ipv4Address) (x : Ipv4 * option Protocols) : res (Ipv4 * option Protocols) :=
  let '(ip, rp) := x in
  let '(i, ip) := AddInterface dev ip in
  '(ip, rp) ← AddAddress i (Ipv4InterfaceAddress_new a 0xffffff00) ip rp;
  SetUp mtu_of i ip rp.

Definition default_route (gateway : Ipv4Address) (x : Ipv4 * option Protocols) : Ipv4 * option Protocols :=
  (x.1, (λ l, mkList (prod_map id (SetDefaultRoute gateway 0 0) <$> m_routingProtocols l) (lr_ipv4 l)) <$> x.2).

Definition start_node : res (Ipv4 * option Protocols) :=
  l ← SetIpv4 empty_ip Ipv4ListRouting_new;
  l ← AddRoutingProtocol empty_ip Ipv4StaticRouting_new 0 l;
  Ok (empty_ip, Some l).

(** Protocols 17 (UDP, as 7) and 1 (ICMP, as 1). *)
Definition node_of (r : res (Ipv4 * option Protocols)) : Node :=
  let '(ip, rp) := match r with Ok x => x | Err _ => (empty_ip, None) end in
  mkL3 ip (<[(17, -1) := 7]> (<[(1, -1) := 1]> ∅)) rp [] (mkReassembly ∅ 30 [] [] 0) (mkDpd true ∅ 1 1 None).

(** A: 10.0.1.1, router: 10.0.1.2 and 10.0.2.2, B: 10.0.2.1. *)
Definition host_A : Node := node_of (x ← start_node; x ← interface 1 (addr 10 0 1 1) x; Ok (default_route (addr 10 0 1 2) x)).
Definition router : Node := node_of (x ← start_node; x ← interface 1 (addr 10 0 1 2) x; interface 2 (addr 10 0 2 2) x).
Definition host_B : Node := node_of (x ← start_node; x ← interface 1 (addr 10 0 2 1) x; Ok (default_route (addr 10 0 2 2) x)).

(** The link of A has an MTU of 100, that of B one of 68. *)
Definition mtu (n : nat) (d : Z) : Z := match n with 0%nat => 100 | 1%nat => if d =? 1 then 100 else 68 | _ => 68 end.
Definition never {A B} (_ : A) (_ : B) : bool := false.
Definition receives (_ : nat) (_ : Z) (_ : Packet) (_ : Ipv4Header) (_ : Z) : RxStatus := RX_OK.
Definition hash (_ : list Z) : Z := 0.
Definition cable (n : nat) (d : Z) (_ : Hardware) : option (nat * Z) :=
  match n with 0%nat => Some (1%nat, 1) | 1%nat => if d =? 1 then Some (0%nat, 1) else Some (2%nat, 1) | _ => Some (1%nat, 2) end.

Definition payload : Packet := seqZ 0 200.
Definition to_B : Ipv4Address := addr 10 0 2 1.
Definition from_A : Ipv4Address := addr 10 0 1 1.
Definition route_A : Ipv4Route := mkRoute GetZero from_A (addr 10 0 1 2) 1.
Definition sent_header : Ipv4Header := (BuildHeader true from_A to_B 17 200 64 0 true (l3_ip host_A)).1.
Definition ip_A : Ipv4 := (BuildHeader true from_A to_B 17 200 64 0 true (l3_ip host_A)).2.
Definition row (n : nat) : Node := match n with 0%nat => with_ip ip_A host_A | 1%nat => router | _ => host_B end.

(** The route is the one that A's tables give. *)
Example route_of_A :
  (rp ← deref (m_routingProtocol host_A); '(r, e, _) ← RouteOutput (l3_ip host_A) payload sent_header 0 rp; Ok (r, e)) = Ok (Some route_A, ERROR_NOTERROR).
Proof. vm_compute. reflexivity. Qed.

Abbreviation run_row := (exec mtu never never never true receives hash cable).

Definition first_frames : list (Frame (N := nat)) :=
  match ('(es, _) ← Send (mtu 0%nat) (never 0%nat) (never 0%nat) (never 0%nat) true hash 5 payload None None None from_A to_B 17 (Some route_A) host_A; emit_all cable 0%nat es) with
  | Ok fs => fs
  | Err _ => []
  end.
Definition row_start : Net := mkNet 5 row first_frames [].
Definition row_end : Net := default row_start (match run_row 20 row_start with Ok c => Some c | Err _ => None end).

Definition is_tcsend (e : nat * Event) : bool := match e.2 with TcSend _ _ _ _ _ => true | _ => false end.
Definition handed_bytes (e : nat * Event) : option (nat * Z * Packet * Z) := match e.2 with ToProtocol q p h _ => Some (e.1, q, p, m_ttl h) | _ => None end.

(** A sends three pieces, the router cuts the first two again; B's UDP gets the payload when the fifth
    has arrived, with a time to live of 63. *)
Example row_runs :
  (length first_frames, net_frames row_end, length (filter (λ e, is_tcsend e = true) (net_log row_end)), omap handed_bytes (net_log row_end)) =
  (3%nat, [], 5%nat, [(2%nat, 7, payload, 63)]).
Proof. vm_compute. reflexivity. Qed.

Lemma row_sends n d h : m_destination h = to_B → leads (mtu n) (never n) (never n) (never n) (l3_ip (row n)) (mkRoute (addr 10 0 2 0) (addr 10 0 2 2) GetZero d) h d HwBroadcast ↔
  leads (mtu n) (never n) (never n) (never n) (l3_ip (row n)) (mkRoute (addr 10 0 2 0) (addr 10 0 2 2) GetZero d) (SetDestination to_B Ipv4Header_new) d HwBroadcast.
Proof. intros Hh. unfold leads, target_of. by rewrite Hh. Qed.

Lemma row_forwards : forwards mtu never never never cable row to_B (1%nat, 1) (2%nat, 1).
Proof.
  eexists _, (mkRoute (addr 10 0 2 0) (addr 10 0 2 2) GetZero 2), 2, HwBroadcast. split_and!.
  - split; [vm_compute; congruence|]. eexists. split; vm_compute; reflexivity.
  - vm_compute. reflexivity.
  - intros p h Hd. apply list_forwards; [vm_compute; congruence|by rewrite Hd|done|]. intros b. apply static_forwards; by rewrite ?Hd.
  - intros h Hd. apply row_sends; [done|]. eexists. split; [vm_compute; congruence|]. split; [vm_compute; reflexivity|]. split; [vm_compute; reflexivity|]. by constructor.
  - done.
Qed.

Lemma row_accepts : accepts row to_B 17 7 (2%nat, 1).
Proof.
  eexists. split_and!.
  - split; [vm_compute; congruence|]. eexists. split; vm_compute; reflexivity.
  - vm_compute. reflexivity.
  - intros p h Hd. cbn -[to_B row]. unfold List_RouteInput. rewrite Hd. vm_compute. reflexivity.
  - by split_and!.
Qed.

Lemma row_end_runs : ∃ labs, net_runs mtu never never never true receives hash cable row_start labs row_end ∧ Forall (allowed (2%nat, 1) sent_header) labs ∧ net_now row_end = 5.
Proof.
  destruct (run_row 20 row_start) as [c|f] eqn:E; [|vm_compute in E; discriminate].
  assert (row_end = c) as -> by (unfold row_end; by rewrite E).
  destruct (exec_runs mtu never never never true receives hash cable 20 row_start [] row_start c) as (labs & Hr & Hl & Hn); [constructor|constructor|done|].
  exists labs. split; [done|]. split; [|done]. eapply Forall_impl; [exact Hl|]. by intros [].
Qed.

Lemma datagram_delivered_witness :
  net_frames row_end = [] ∧ delivered row 7 (2%nat, 1) payload sent_header 63 (net_log row_end).
Proof.
  split; [vm_compute; reflexivity|].
  destruct (datagram_delivered mtu never never never true receives hash cable row 0%nat host_A payload from_A to_B 17 7 None None None route_A sent_header ip_A 1 HwBroadcast (1%nat, 1) 1%nat (2%nat, 1) 5 30)
    as (es & fs & ES & Ef & Hall).
  - constructor; [vm_compute; split; reflexivity|apply (bool_decide_unpack _); vm_compute; exact I|vm_compute; intuition congruence|vm_compute; intuition congruence|vm_compute; intuition congruence].
  - vm_compute. reflexivity.
  - reflexivity.
  - reflexivity.
  - reflexivity.
  - eexists. split; [vm_compute; congruence|]. split; [vm_compute; reflexivity|]. split; [vm_compute; reflexivity|]. constructor; vm_compute; intuition congruence.
  - reflexivity.
  - reflexivity.
  - eapply path_hop; [apply row_forwards|apply path_end].
  - vm_compute. reflexivity.
  - apply row_accepts.
  - exists 5, []. split; [vm_compute; congruence|]. split; [vm_compute; congruence|]. split; [vm_compute; reflexivity|constructor].
  - reflexivity.
  - destruct row_end_runs as (labs & Hr & Hl & Hn).
    assert (fs = first_frames) as -> by (unfold first_frames; rewrite ES; cbn [mbind res_bind]; by rewrite Ef).
    destruct (Hall labs row_end Hr Hl) as (_ & _ & Hend); [rewrite Hn; lia|]. rewrite decide_True in Hend by (vm_compute; reflexivity). exact Hend.
Defined.

(** ** Two nodes that send in circles *)

Definition circle (n : nat) : Node :=
  match n with
  | 0%nat => node_of (x ← start_node; x ← interface 1 (addr 10 0 1 1) x; Ok (default_route (addr 10 0 1 2) x))
  | _ => node_of (x ← start_node; x ← interface 1 (addr 10 0 1 2) x; Ok (default_route (addr 10 0 1 1) x))
  end.
Definition mtu_1500 (_ : nat) (_ : Z) : Z := 1500.
Definition crossed (n : nat) (_ : Z) (_ : Hardware) : option (nat * Z) := Some (match n with 0%nat => 1%nat | _ => 0%nat end, 1).

(** A packet of 40 bytes to an address that neither has. *)
Definition stray (ttl : Z) : Packet * Ipv4Header :=
  (seqZ 0 40, SetPayloadSize 40 (SetTtl ttl (SetProtocol 17 (SetSource from_A (SetDestination (addr 10 9 9 9) (EnableChecksum Ipv4Header_new)))))).
Definition circle_start (ttl : Z) : Net := mkNet 5 circle [(1%nat, 1, frame (stray ttl))] [].
Abbreviation run_circle := (exec mtu_1500 never never never true receives hash crossed).

(** How often the packet is sent on, whether it is lost in the end. *)
Definition sent_on (r : res (Net (N := nat) (P := Protocols))) : option (nat * bool * bool) :=
  match r with Ok c => Some (length (filter (λ e, is_tcsend e = true) (net_log c)), existsb (λ e, lost e.2) (net_log c), bool_decide (net_frames c = [])) | Err _ => None end.

(** With 5 it is sent on 4 times and dropped; with 0 it is not dropped at once but sent on 255 times. *)
Example circle_5 : sent_on (run_circle 300 (circle_start 5)) = Some (4%nat, true, true).
Proof. vm_compute. reflexivity. Qed.
Example circle_0 : sent_on (run_circle 300 (circle_start 0)) = Some (255%nat, true, true).
Proof. vm_compute. reflexivity. Qed.

Lemma stray_ok : packet_ok true (stray 5).
Proof.
  constructor; [|done|done|apply (bool_decide_unpack _); vm_compute; exact I|done|vm_compute; reflexivity].
  constructor; vm_compute; intuition congruence.
Qed.

Lemma stray_carries ttl : carries (circle_start ttl) [((1%nat, 1), stray ttl)].
Proof. unfold carries, circle_start. cbn [net_frames fmap list_fmap]. unfold to_frame. cbn [fst snd]. reflexivity. Qed.

Lemma stray_unicast : Forall (unicast true) [((1%nat, 1), stray 5)].
Proof. constructor; [|constructor]. split; [exact stray_ok|]. vm_compute. reflexivity. Qed.

Lemma mtu_1500_ok (n : nat) (d : Z) : 28 ≤ mtu_1500 n d < 2 ^ 16.
Proof. unfold mtu_1500. lia. Qed.

Lemma ttl_ends_loops_witness :
  ∃ labs c, net_runs mtu_1500 never never never true receives hash crossed (circle_start 5) labs c ∧ net_frames c = [] ∧ Z.of_nat (receptions labs) ≤ 200.
Proof.
  destruct (run_circle 300 (circle_start 5)) as [c|f] eqn:E; [|vm_compute in E; discriminate].
  destruct (exec_runs mtu_1500 never never never true receives hash crossed 300 (circle_start 5) [] (circle_start 5) c) as (labs & Hr & _ & _); [constructor|constructor|done|].
  exists labs, c. split; [exact Hr|]. split; [vm_compute in E; injection E as <-; reflexivity|].
  destruct (ttl_ends_loops (P := Protocols) mtu_1500 never never never true receives hash crossed mtu_1500_ok _ (circle_start 5) [((1%nat, 1), stray 5)] labs c (stray_carries 5) stray_unicast Hr) as (ys' & _ & Hu & Hle).
  assert (0 ≤ total ys') as H0.
  { clear -Hu. induction Hu as [|y ys [Hy _] _ IH]; [done|]. cbn [total foldr]. fold (total ys). unfold weight.
    pose proof (packet_small _ _ Hy). pose proof (hops_pos _ (pk_header _ _ Hy)). nia. }
  change (total [(1%nat, 1, stray 5)]) with 200 in Hle. lia.
Defined.

(** ** Where the code does not do what it means to *)

(** A broadcast over two interfaces of a packet with a time to live of its own: all calls are given the same
    packet, the first one takes the tag, and the second interface sends with the default. *)
Definition sent_ttl (e : Event) : option (Z * Z) := match e with TcSend d _ _ h _ => Some (d, m_ttl h) | _ => None end.
Example broadcast_loses_ttl :
  ('(es, _) ← Send mtu_of (λ _, false) (λ _, false) (λ _, true) true hash 5 payload (Some 3) None None GetZero (Ipv4Address_of 0xffffffff) 17 None router;
   Ok (omap sent_ttl es : list (Z * Z))) = Ok [(1, 3); (2, 64)].
Proof. vm_compute. reflexivity. Qed.

(** An interface with a second address 192.168.1.1/24 broadcasts what it sends to its neighbour 10.0.3.255, of the network
    10.0.0.0/16 of the first address, in which that is not the broadcast address. *)
Definition two_networks : Ipv4Interface :=
  mkInterface true true [Ipv4InterfaceAddress_new (addr 10 0 0 1) 0xffff0000; Ipv4InterfaceAddress_new (addr 192 168 1 1) 0xffffff00] 1.
Example neighbour_broadcast :
  hardware_destination (λ _, true) (λ _, true) two_networks (addr 10 0 3 255) = Ok HwBroadcast ∧
  IsSubnetDirectedBroadcast 0xffff0000 (addr 10 0 3 255) = false ∧ IsInSameSubnet (addr 10 0 3 255) (Ipv4InterfaceAddress_new (addr 192 168 1 1) 0xffffff00) = false.
Proof. vm_compute. auto. Qed.

(** A multicast packet on an interface that does not forward is delivered, and then reported as an error of routing. *)
Example multicast_also_dropped :
  (ip ← SetForwarding 0 false (l3_ip host_A); rp ← deref (m_routingProtocol host_A);
   '(found, calls, _) ← RouteInput ip payload (SetDestination (addr 224 1 1 1) Ipv4Header_new) 1 true rp; Ok (found, calls)) =
  Ok (true, [Lcb 0; Ecb ERROR_NOROUTETOHOST]).
Proof. vm_compute. reflexivity. Qed.

(** One static protocol and one interface; a lookup after changes of addresses. *)
Definition single : res (Ipv4 * option StaticRouting) :=
  s ← SetIpv4 empty_ip Ipv4StaticRouting_new; let '(i, ip) := AddInterface 1 empty_ip in SetUp mtu_of i ip (Some s).
Definition finds (dest : Ipv4Address) (x : Ipv4 * option StaticRouting) : res bool :=
  s ← deref x.2; r ← LookupStatic x.1 dest 0 s; Ok (match r with Some _ => true | None => false end).

(** Two addresses of one network share its route: without the second one the network cannot be reached. *)
Example removal_takes_shared_route :
  (x ← single; x ← AddAddress 0 (Ipv4InterfaceAddress_new (addr 10 0 1 1) 0xffffff00) x.1 x.2; x ← AddAddress 0 (Ipv4InterfaceAddress_new (addr 10 0 1 2) 0xffffff00) x.1 x.2;
   before ← finds (addr 10 0 1 7) x; '(_, ip, rp) ← RemoveAddress 0 (addr 10 0 1 2) x.1 x.2; n ← GetNAddresses 0 ip; after ← finds (addr 10 0 1 7) (ip, rp); Ok (before, n, after)) =
  Ok (true, 1, false).
Proof. vm_compute. reflexivity. Qed.

(** The host route that an address with a prefix of 32 bits adds stays when the address is removed; the lookup, which
    wants a source address, then stops the program. *)
Example host_address_leaves_route :
  (x ← single; x ← AddAddress 0 (Ipv4InterfaceAddress_new (addr 10 0 1 1) 0xffffffff) x.1 x.2; '(_, ip, rp) ← RemoveAddress 0 (addr 10 0 1 1) x.1 x.2;
   s ← deref rp; n ← GetNAddresses 0 ip; Ok (n, GetNRoutes s, finds (addr 10 0 1 1) (ip, rp))) = Ok (0, 1, Err NsFatal).
Proof. vm_compute. reflexivity. Qed.
