(* ===== verification/TcpTxBuffer.v ===== *)
(** * The TCP transmission buffer (src/src/internet/model/tcp-tx-buffer.cc, tcp-tx-item.h)

    The data of a connection that is not acknowledged yet, as a list of items sent and a list
    of items to send, with the scoreboard of the items: sacked, lost, retransmitted.  An item
    is a node of its list: [it_node] is its identity, by which the iterator [m_highestSack]
    refers to it ([None] is the end).  A packet is its bytes.  [ConsistencyCheck] is disabled
    in the code.  [FindHighestSacked], [BytesInFlightRFC] and [IsLostRFC] are not called and
    are left out, the rate information of items is not touched by the buffer. *)

From S2P Require Import Prelude SequenceNumber.
Local Open Scope Z_scope.

Abbreviation slt := (seq_lt 32).
Abbreviation sle := (seq_le 32).
Abbreviation sgt := (seq_gt 32).
Abbreviation sge := (seq_ge 32).
Abbreviation splus := (seq_add 32).

Definition Packet : Type := list Z.
Definition tsize (p : Packet) : Z := Z.of_nat (length p).

(** [tcp-tx-item.h:104-119] TcpTxItem *)
Record TcpTxItem := mkItem {
  it_node : nat;
  m_startSeq : Z;
  m_packet : Packet;
  m_lost : bool;
  m_lastSent : Z;
  m_sacked : bool;
  m_retrans : bool
}.

(** [Time::Max()]. *)
Definition Time_Max : Z := 2 ^ 63 - 1.

Definition TcpTxItem_new (node : nat) (p : Packet) : TcpTxItem := mkItem node 0 p false Time_Max false false.

Definition isize (i : TcpTxItem) : Z := tsize (m_packet i).

Definition set_startSeq (x : Z) (i : TcpTxItem) : TcpTxItem :=
  mkItem (it_node i) x (m_packet i) (m_lost i) (m_lastSent i) (m_sacked i) (m_retrans i).
Definition set_packet (x : Packet) (i : TcpTxItem) : TcpTxItem :=
  mkItem (it_node i) (m_startSeq i) x (m_lost i) (m_lastSent i) (m_sacked i) (m_retrans i).
Definition set_lastSent (x : Z) (i : TcpTxItem) : TcpTxItem :=
  mkItem (it_node i) (m_startSeq i) (m_packet i) (m_lost i) x (m_sacked i) (m_retrans i).
Definition set_flags (lost sacked retrans : bool) (i : TcpTxItem) : TcpTxItem :=
  mkItem (it_node i) (m_startSeq i) (m_packet i) lost (m_lastSent i) sacked retrans.

(** [tcp-tx-buffer.h:604-622] TcpTxBuffer

    With the next identity of a node. *)
Record TcpTxBuffer := mkTx {
  m_appList : list TcpTxItem;
  m_sentList : list TcpTxItem;
  m_maxBuffer : Z;
  m_size : Z;
  m_sentSize : Z;
  m_firstByteSeq : Z;
  m_highestSack : option nat * Z;
  m_lostOut : Z;
  m_sackedOut : Z;
  m_retransOut : Z;
  m_dupAckThresh : Z;
  m_segmentSize : Z;
  m_renoSack : bool;
  m_sackEnabled : bool;
  next_node : nat
}.

(** Assignments to members. *)
Definition set_lists (app sent : list TcpTxItem) (node : nat) (b : TcpTxBuffer) : TcpTxBuffer :=
  mkTx app sent (m_maxBuffer b) (m_size b) (m_sentSize b) (m_firstByteSeq b) (m_highestSack b) (m_lostOut b)
    (m_sackedOut b) (m_retransOut b) (m_dupAckThresh b) (m_segmentSize b) (m_renoSack b) (m_sackEnabled b) node.
Definition set_sizes (size sentSize firstByteSeq : Z) (b : TcpTxBuffer) : TcpTxBuffer :=
  mkTx (m_appList b) (m_sentList b) (m_maxBuffer b) size sentSize firstByteSeq (m_highestSack b) (m_lostOut b)
    (m_sackedOut b) (m_retransOut b) (m_dupAckThresh b) (m_segmentSize b) (m_renoSack b) (m_sackEnabled b) (next_node b).
Definition set_highestSack (x : option nat * Z) (b : TcpTxBuffer) : TcpTxBuffer :=
  mkTx (m_appList b) (m_sentList b) (m_maxBuffer b) (m_size b) (m_sentSize b) (m_firstByteSeq b) x (m_lostOut b)
    (m_sackedOut b) (m_retransOut b) (m_dupAckThresh b) (m_segmentSize b) (m_renoSack b) (m_sackEnabled b) (next_node b).
Definition set_counts (lost sacked retrans : Z) (b : TcpTxBuffer) : TcpTxBuffer :=
  mkTx (m_appList b) (m_sentList b) (m_maxBuffer b) (m_size b) (m_sentSize b) (m_firstByteSeq b) (m_highestSack b) lost
    sacked retrans (m_dupAckThresh b) (m_segmentSize b) (m_renoSack b) (m_sackEnabled b) (next_node b).
Definition set_params (maxBuffer dupAckThresh segmentSize : Z) (renoSack sackEnabled : bool) (b : TcpTxBuffer) : TcpTxBuffer :=
  mkTx (m_appList b) (m_sentList b) maxBuffer (m_size b) (m_sentSize b) (m_firstByteSeq b) (m_highestSack b) (m_lostOut b)
    (m_sackedOut b) (m_retransOut b) dupAckThresh segmentSize renoSack sackEnabled (next_node b).
Definition set_sentList (sent : list TcpTxItem) (b : TcpTxBuffer) : TcpTxBuffer :=
  set_lists (m_appList b) sent (next_node b) b.

(** The iterator of no item. *)
Definition no_sack : option nat * Z := (None, 0).

(** [tcp-tx-buffer.cc:60-67] TcpTxBuffer::TcpTxBuffer

    The code leaves the iterator of [m_highestSack] unset until [SetHeadSequence] makes it the end;
    here it is the end from the beginning. *)
Definition TcpTxBuffer_new (n : Z) : TcpTxBuffer := mkTx [] [] 32768 0 0 n no_sack 0 0 0 0 0 false true 0.

(** [tcp-tx-buffer.cc] TcpTxBuffer::HeadSequence *)
Definition HeadSequence (b : TcpTxBuffer) : Z := m_firstByteSeq b.

(** [tcp-tx-buffer.cc] TcpTxBuffer::TailSequence *)
Definition TailSequence (b : TcpTxBuffer) : Z := splus (m_firstByteSeq b) (m_size b).

(** [tcp-tx-buffer.cc] TcpTxBuffer::Size *)
Definition Size (b : TcpTxBuffer) : Z := m_size b.

(** [tcp-tx-buffer.cc] TcpTxBuffer::SetMaxBufferSize *)
Definition SetMaxBufferSize (n : Z) (b : TcpTxBuffer) : TcpTxBuffer :=
  set_params n (m_dupAckThresh b) (m_segmentSize b) (m_renoSack b) (m_sackEnabled b) b.

(** [tcp-tx-buffer.cc] TcpTxBuffer::SetSackEnabled *)
Definition SetSackEnabled (enabled : bool) (b : TcpTxBuffer) : TcpTxBuffer :=
  set_params (m_maxBuffer b) (m_dupAckThresh b) (m_segmentSize b) (m_renoSack b) enabled b.

(** [tcp-tx-buffer.cc] TcpTxBuffer::SetDupAckThresh *)
Definition SetDupAckThresh (dupAckThresh : Z) (b : TcpTxBuffer) : TcpTxBuffer :=
  set_params (m_maxBuffer b) dupAckThresh (m_segmentSize b) (m_renoSack b) (m_sackEnabled b) b.

(** [tcp-tx-buffer.cc] TcpTxBuffer::SetSegmentSize *)
Definition SetSegmentSize (segmentSize : Z) (b : TcpTxBuffer) : TcpTxBuffer :=
  set_params (m_maxBuffer b) (m_dupAckThresh b) segmentSize (m_renoSack b) (m_sackEnabled b) b.

(** [tcp-tx-buffer.cc] TcpTxBuffer::Available *)
Definition Available (b : TcpTxBuffer) : Z := u32 (m_maxBuffer b - m_size b).

(** [tcp-tx-buffer.cc] TcpTxBuffer::SetHeadSequence *)
Definition SetHeadSequence (seq : Z) (b : TcpTxBuffer) : res TcpTxBuffer :=
  let b := set_sizes (m_size b) (m_sentSize b) seq b in
  let b := match m_sentList b with
           | [] => b
           | i :: l => set_sentList (set_startSeq seq i :: l) b
           end in
  ns_assert (bool_decide (m_sentList b = [])) ≫= λ _,
  Ok (set_highestSack no_sack b).

(** [tcp-tx-buffer.cc] TcpTxBuffer::Add *)
Definition Add (p : Packet) (b : TcpTxBuffer) : bool * TcpTxBuffer :=
  if tsize p <=? Available b then
    if 0 <? tsize p then
      let b := set_lists (m_appList b ++ [TcpTxItem_new (next_node b) p]) (m_sentList b) (S (next_node b)) b in
      (true, set_sizes (u32 (m_size b + tsize p)) (m_sentSize b) (m_firstByteSeq b) b)
    else (true, b)
  else (false, b).

(** [tcp-tx-buffer.cc] TcpTxBuffer::SizeFromSequence *)
Definition SizeFromSequence (seq : Z) (b : TcpTxBuffer) : res Z :=
  let lastSeq := TailSequence b in
  if sge lastSeq seq then
    d ← seq_sub 32 lastSeq seq;
    Ok (u32 d)
  else Ok 0.

(** ** Items cut and joined *)

(** [tcp-tx-buffer.cc] TcpTxBuffer::SplitItems

    The first [size] bytes of [t2] in the new item, and what is left of [t2]. *)
Definition SplitItems (node : nat) (t2 : TcpTxItem) (size : Z) : res (TcpTxItem * TcpTxItem) :=
  ns_assert (size <=? isize t2) ≫= λ _,
  let t1 := mkItem node (m_startSeq t2) (take (Z.to_nat size) (m_packet t2)) (m_lost t2) (m_lastSent t2) (m_sacked t2)
              (m_retrans t2) in
  Ok (t1, set_startSeq (splus (m_startSeq t2) size) (set_packet (drop (Z.to_nat size) (m_packet t2)) t2)).

(** [tcp-tx-buffer.cc] TcpTxBuffer::MergeItems

    With the count of retransmitted bytes. *)
Definition MergeItems (t1 t2 : TcpTxItem) (retransOut : Z) : res (TcpTxItem * Z) :=
  ns_assert (Bool.eqb (m_sacked t1) (m_sacked t2)) ≫= λ _,
  ns_assert (Bool.eqb (m_lost t1) (m_lost t2)) ≫= λ _,
  let '(retrans, retransOut) :=
    if Bool.eqb (m_retrans t1) (m_retrans t2) then (m_retrans t1, retransOut)
    else if m_retrans t1 then (false, u32 (retransOut - isize t1))
    else (m_retrans t1, u32 (retransOut - isize t2)) in
  let lastSent := if m_lastSent t1 <? m_lastSent t2 then m_lastSent t2 else m_lastSent t1 in
  Ok (mkItem (it_node t1) (m_startSeq t1) (m_packet t1 ++ m_packet t2) (m_lost t1) lastSent (m_sacked t1) retrans, retransOut).

(** The result of a walk over a list: the item found, or that the walk starts again; the list,
    the count of retransmitted bytes and the next identity. *)
Record walk := mkWalk {
  w_found : option TcpTxItem;
  w_list : list TcpTxItem;
  w_retransOut : Z;
  w_node : nat
}.

(** [tcp-tx-buffer.cc:437-586] TcpTxBuffer::GetPacketFromList

    One walk, from the item that begins at [beginOfCurrentPacket] on.  [outItem] is the
    current item where it is set, so that no previous item is merged with the current one. *)
Fixpoint GetPacketFromList_walk (sent : bool) (firstByteSeq numBytes seq retransOut : Z) (node : nat)
    (beginOfCurrentPacket : Z) (list : list TcpTxItem) : res walk :=
  match list with
  | [] => Err NsFatal
  | currentItem :: rest =>
      ns_assert (negb sent || sge (m_startSeq currentItem) firstByteSeq) ≫= λ _,
      let endOfCurrentPacket := splus beginOfCurrentPacket (isize currentItem) in
      if slt seq endOfCurrentPacket then
        if seq_eq seq beginOfCurrentPacket then
          if sle (splus seq numBytes) endOfCurrentPacket then
            if numBytes =? isize currentItem then Ok (mkWalk (Some currentItem) (currentItem :: rest) retransOut node)
            else if numBytes <? isize currentItem then
              '(firstPart, currentItem) ← SplitItems node currentItem numBytes;
              Ok (mkWalk (Some firstPart) (firstPart :: currentItem :: rest) retransOut (S node))
            else Err OutOfFuel
          else
            match rest with
            | [] => Ok (mkWalk (Some currentItem) (currentItem :: rest) retransOut node)
            | next :: rest =>
                '(currentItem, retransOut) ← MergeItems currentItem next retransOut;
                Ok (mkWalk None (currentItem :: rest) retransOut node)
            end
        else if sgt seq beginOfCurrentPacket then
          d ← seq_sub 32 seq beginOfCurrentPacket;
          '(firstPart, currentItem) ← SplitItems node currentItem (u32 d);
          Ok (mkWalk None (firstPart :: currentItem :: rest) retransOut (S node))
        else Err NsFatal
      else
        w ← GetPacketFromList_walk sent firstByteSeq numBytes seq retransOut node endOfCurrentPacket rest;
        Ok (mkWalk (w_found w) (currentItem :: w_list w) (w_retransOut w) (w_node w))
  end.

(** [tcp-tx-buffer.cc] TcpTxBuffer::GetPacketFromList

    Starting again while a walk edited the list. *)
Fixpoint GetPacketFromList (fuel : nat) (sent : bool) (firstByteSeq listStartFrom numBytes seq retransOut : Z) (node : nat)
    (list : list TcpTxItem) : res (TcpTxItem * walk) :=
  match fuel with
  | O => Err OutOfFuel
  | S fuel =>
      w ← GetPacketFromList_walk sent firstByteSeq numBytes seq retransOut node listStartFrom list;
      match w_found w with
      | Some i => Ok (i, w)
      | None => GetPacketFromList fuel sent firstByteSeq listStartFrom numBytes seq (w_retransOut w) (w_node w) (w_list w)
      end
  end.

(** Enough walks: one may split an item, the others merge two. *)
Definition walk_fuel (list : list TcpTxItem) : nat := S (S (S (length list))).

(** The item of a node is assigned. *)
Definition update_item (i : TcpTxItem) (l : list TcpTxItem) : list TcpTxItem :=
  (λ x, if (it_node x =? it_node i)%nat then i else x) <$> l.

(** [tcp-tx-buffer.cc] TcpTxBuffer::GetNewSegment *)
Definition GetNewSegment (numBytes : Z) (b : TcpTxBuffer) : res (TcpTxItem * TcpTxBuffer) :=
  let startOfAppList := splus (m_firstByteSeq b) (m_sentSize b) in
  '(item, w) ← GetPacketFromList (walk_fuel (m_appList b)) false (m_firstByteSeq b) startOfAppList numBytes startOfAppList
                 (m_retransOut b) (next_node b) (m_appList b);
  let item := set_startSeq startOfAppList item in
  match erase_first (λ x, (it_node x =? it_node item)%nat) (w_list w) with
  | None => Err NsAssert
  | Some (_, appList) =>
      let b := set_lists appList (m_sentList b ++ [item]) (w_node w) (set_counts (m_lostOut b) (m_sackedOut b) (w_retransOut w) b) in
      Ok (item, set_sizes (m_size b) (u32 (m_sentSize b + isize item)) (m_firstByteSeq b) b)
  end.

(** [tcp-tx-buffer.cc:318-346] TcpTxBuffer::GetTransmittedSegment

    How many bytes may be sent without joining items with different flags. *)
Fixpoint retransmit_size (s seq : Z) (l : list TcpTxItem) : Z :=
  match l with
  | [] => s
  | it :: l =>
      if seq_eq (m_startSeq it) seq then
        match l with
        | next :: _ =>
            if negb (m_sacked next) && Bool.eqb (m_lost it) (m_lost next) then Z.min s (u32 (isize it + isize next))
            else Z.min s (isize it)
        | [] => Z.min s (isize it)
        end
      else retransmit_size s seq l
  end.

(** [tcp-tx-buffer.cc] TcpTxBuffer::GetTransmittedSegment *)
Definition GetTransmittedSegment (numBytes seq : Z) (b : TcpTxBuffer) : res (TcpTxItem * TcpTxBuffer) :=
  ns_assert (sge seq (m_firstByteSeq b)) ≫= λ _,
  ns_assert (numBytes <=? m_sentSize b) ≫= λ _,
  ns_assert (negb (bool_decide (m_sentList b = []))) ≫= λ _,
  let s := retransmit_size numBytes seq (m_sentList b) in
  '(item, w) ← GetPacketFromList (walk_fuel (m_sentList b)) true (m_firstByteSeq b) (m_firstByteSeq b) s seq
                 (m_retransOut b) (next_node b) (m_sentList b);
  let '(item, retransOut) :=
    if negb (m_retrans item) then (set_flags (m_lost item) (m_sacked item) true item, u32 (w_retransOut w + isize item))
    else (item, w_retransOut w) in
  Ok (item, set_lists (m_appList b) (update_item item (w_list w)) (w_node w) (set_counts (m_lostOut b) (m_sackedOut b) retransOut b)).

(** [tcp-tx-buffer.cc:223-280] TcpTxBuffer::CopyFromSequence

    The result is no item when there is no data. *)
Fixpoint CopyFromSequence (fuel : nat) (now numBytes seq : Z) (b : TcpTxBuffer) : res (option TcpTxItem * TcpTxBuffer) :=
  match fuel with
  | O => Err OutOfFuel
  | S fuel =>
      ns_abort_unless (negb (sgt (m_firstByteSeq b) seq)) ≫= λ _,
      n ← SizeFromSequence seq b;
      let s := Z.min numBytes n in
      if s =? 0 then Ok (None, b)
      else
        let sentEnd := splus (m_firstByteSeq b) (m_sentSize b) in
        let return_item (x : TcpTxItem * TcpTxBuffer) :=
          let outItem := set_lastSent now x.1 in
          ns_assert (sge (m_startSeq outItem) (m_firstByteSeq x.2)) ≫= λ _,
          Ok (Some outItem, set_sentList (update_item outItem (m_sentList x.2)) x.2) in
        if sge sentEnd (splus seq s) then
          x ← GetTransmittedSegment s seq b;
          ns_assert (negb (m_sacked x.1)) ≫= λ _,
          return_item x
        else if sle sentEnd seq then
          ns_abort_unless (seq_eq sentEnd seq) ≫= λ _,
          x ← GetNewSegment s b;
          ns_assert (negb (m_retrans x.1)) ≫= λ _,
          return_item x
        else if (seq <? u32 (m_firstByteSeq b + m_sentSize b)) && (u32 (m_firstByteSeq b + m_sentSize b) <? u32 (seq + s)) then
          CopyFromSequence fuel now (u32 (u32 (m_firstByteSeq b + m_sentSize b) - seq)) seq b
        else Err Undefined
  end.

(** A request for data that is partly sent is made again for the part that is. *)
Definition copy_fuel : nat := 2.

(** ** The scoreboard *)

(** [tcp-tx-buffer.cc] TcpTxBuffer::RemoveFromCounts *)
Definition RemoveFromCounts (item : TcpTxItem) (size : Z) (b : TcpTxBuffer) : res TcpTxBuffer :=
  ns_assert (negb (m_sacked item) || (size <=? m_sackedOut b)) ≫= λ _,
  ns_assert (negb (m_retrans item) || (size <=? m_retransOut b)) ≫= λ _,
  ns_assert (negb (m_lost item) || (size <=? m_lostOut b)) ≫= λ _,
  Ok (set_counts (if m_lost item then m_lostOut b - size else m_lostOut b)
        (if m_sacked item then m_sackedOut b - size else m_sackedOut b)
        (if m_retrans item then m_retransOut b - size else m_retransOut b) b).

(** [tcp-tx-buffer.cc] TcpTxBuffer::IsRetransmittedDataAcked *)
Definition IsRetransmittedDataAcked (ack : Z) (b : TcpTxBuffer) : bool :=
  existsb (λ item, seq_eq (splus (m_startSeq item) (isize item)) ack && negb (m_sacked item) && m_retrans item) (m_sentList b).

(** [tcp-tx-buffer.cc] TcpTxBuffer::MarkHeadAsLost *)
Definition MarkHeadAsLost (b : TcpTxBuffer) : TcpTxBuffer :=
  match m_sentList b with
  | [] => b
  | head :: l =>
      set_sentList (set_flags true false false head :: l)
        (set_counts (if m_lost head then m_lostOut b else u32 (m_lostOut b + isize head))
           (if m_sacked head then u32 (m_sackedOut b - isize head) else m_sackedOut b)
           (if m_retrans head then u32 (m_retransOut b - isize head) else m_retransOut b) b)
  end.

(** [tcp-tx-buffer.cc:1402-1417] TcpTxBuffer::AddRenoSack

    The first item that is not sacked is. *)
Fixpoint AddRenoSack_find (l : list TcpTxItem) : option (TcpTxItem * list TcpTxItem) :=
  match l with
  | [] => None
  | it :: l =>
      if m_sacked it then
        '(x, l) ← AddRenoSack_find l;
        Some (x, it :: l)
      else
        let x := set_flags (m_lost it) true (m_retrans it) it in Some (x, x :: l)
  end.

(** [tcp-tx-buffer.cc] TcpTxBuffer::AddRenoSack *)
Definition AddRenoSack (b : TcpTxBuffer) : res TcpTxBuffer :=
  ns_assert (if m_sackEnabled b then (1 <? length (m_sentList b))%nat else negb (bool_decide (m_sentList b = []))) ≫= λ _,
  let b := set_params (m_maxBuffer b) (m_dupAckThresh b) (m_segmentSize b) true (m_sackEnabled b) b in
  match m_sentList b with
  | [] => Err Undefined
  | head :: l =>
      match AddRenoSack_find l with
      | Some (it, l) =>
          Ok (set_highestSack (Some (it_node it), m_startSeq it)
                (set_sentList (head :: l) (set_counts (m_lostOut b) (u32 (m_sackedOut b + isize it)) (m_retransOut b) b)))
      | None => Ok b
      end
  end.

(** [tcp-tx-buffer.cc:681-742] TcpTxBuffer::DiscardUpTo

    The loop: the bytes still to remove, and the items given to the callback. *)
Fixpoint DiscardUpTo_loop (fuel : nat) (now offset : Z) (b : TcpTxBuffer) : res (list TcpTxItem * TcpTxBuffer) :=
  match fuel with
  | O => Err OutOfFuel
  | S fuel =>
      if (0 <? m_size b) && (0 <? offset) then
        b ← (if bool_decide (m_sentList b = []) then
               '(p, b) ← CopyFromSequence copy_fuel now offset (m_firstByteSeq b) b;
               _ ← deref p;
               ns_assert (negb (bool_decide (m_sentList b = []))) ≫= λ _, Ok b
             else Ok b);
        match m_sentList b with
        | [] => Err Undefined
        | item :: l =>
            let pktSize := isize item in
            ns_assert (seq_eq (m_startSeq item) (m_firstByteSeq b)) ≫= λ _,
            if pktSize <=? offset then
              let b := set_sizes (u32 (m_size b - pktSize)) (u32 (m_sentSize b - pktSize)) (splus (m_firstByteSeq b) pktSize) b in
              b ← RemoveFromCounts item pktSize b;
              '(removed, b) ← DiscardUpTo_loop fuel now (offset - pktSize) (set_sentList l b);
              Ok (item :: removed, b)
            else
              let item := set_startSeq (splus (m_startSeq item) offset) (set_packet (drop (Z.to_nat offset) (m_packet item)) item) in
              let b := set_sizes (u32 (m_size b - offset)) (u32 (m_sentSize b - offset)) (splus (m_firstByteSeq b) offset) b in
              b ← RemoveFromCounts item offset b;
              Ok ([], set_sentList (item :: l) b)
        end
      else Ok ([], b)
  end.

(** Enough iterations: each removes an item of the sent list, or all there is to remove. *)
Definition discard_fuel (b : TcpTxBuffer) : nat := S (S (length (m_sentList b))).

(** [tcp-tx-buffer.cc:749-768] TcpTxBuffer::DiscardUpTo

    What is left begins with an item that is not sacked. *)
Definition DiscardUpTo_head (seq : Z) (b : TcpTxBuffer) : res TcpTxBuffer :=
  match m_sentList b with
  | [] => Ok b
  | head :: l =>
      b ← (if m_sacked head then
             ns_assert (negb (m_lost head)) ≫= λ _,
             let b := set_sentList (set_flags (m_lost head) false (m_retrans head) head :: l)
                        (set_counts (m_lostOut b) (u32 (m_sackedOut b - isize head)) (m_retransOut b) b) in
             b ← AddRenoSack b;
             Ok (MarkHeadAsLost b)
           else Ok b);
      ns_assert (seq_eq (m_startSeq head) seq) ≫= λ _,
      Ok b
  end.

(** [tcp-tx-buffer.cc] TcpTxBuffer::DiscardUpTo *)
Definition DiscardUpTo (now seq : Z) (b : TcpTxBuffer) : res (list TcpTxItem * TcpTxBuffer) :=
  if sge (m_firstByteSeq b) seq then Ok ([], b)
  else
    d ← seq_sub 32 seq (m_firstByteSeq b);
    '(removed, b) ← DiscardUpTo_loop (discard_fuel b) now (u32 d) b;
    let b := if m_size b =? 0 then set_sizes (m_size b) (m_sentSize b) seq b else b in
    b ← DiscardUpTo_head seq b;
    let b := if sle (snd (m_highestSack b)) (m_firstByteSeq b) then set_highestSack no_sack b else b in
    ns_assert (sge (m_firstByteSeq b) seq) ≫= λ _,
    ns_assert (u32 (m_sackedOut b + m_lostOut b) <=? m_sentSize b) ≫= λ _,
    Ok (removed, b).

(** ** Selective acknowledgments *)

(** [tcp-option-sack.h:59-59] SackBlock *)
Definition SackBlock : Type := Z * Z.

(** What the walk of [Update] over the items changes. *)
Record sacking := mkSacking {
  s_lostOut : Z;
  s_sackedOut : Z;
  s_bytesSacked : Z;
  s_highestSack : option nat * Z;
  s_called : list TcpTxItem
}.

(** [tcp-tx-buffer.cc:802-860] TcpTxBuffer::Update

    The loop over the items for one block of the option. *)
Fixpoint Update_block (block : SackBlock) (beginOfCurrentPacket : Z) (items : list TcpTxItem) (s : sacking) :
    res (list TcpTxItem * sacking) :=
  match items with
  | [] => Ok ([], s)
  | item :: items =>
      let pktSize := isize item in
      let endOfCurrentPacket := splus beginOfCurrentPacket pktSize in
      if sge beginOfCurrentPacket block.1 && sle endOfCurrentPacket block.2 then
        '(item, s) ← (if m_sacked item then ns_assert (negb (m_lost item)) ≫= λ _, Ok (item, s)
                     else
                       let item' := set_flags false true (m_retrans item) item in
                       let highest := if bool_decide (fst (s_highestSack s) = None) || sle (snd (s_highestSack s)) endOfCurrentPacket
                                      then (Some (it_node item), beginOfCurrentPacket) else s_highestSack s in
                       Ok (item', mkSacking (if m_lost item then u32 (s_lostOut s - pktSize) else s_lostOut s)
                                    (u32 (s_sackedOut s + pktSize)) (u32 (s_bytesSacked s + pktSize)) highest
                                    (s_called s ++ [item'])));
        '(items, s) ← Update_block block endOfCurrentPacket items s;
        Ok (item :: items, s)
      else if sgt endOfCurrentPacket block.2 then Ok (item :: items, s)
      else
        '(items, s) ← Update_block block endOfCurrentPacket items s;
        Ok (item :: items, s)
  end.

(** [tcp-tx-buffer.cc:791-861] TcpTxBuffer::Update

    The loop over the blocks; [false] is its early return. *)
Fixpoint Update_blocks (blocks : list SackBlock) (firstByteSeq sentSize : Z) (items : list TcpTxItem) (s : sacking) :
    res (bool * list TcpTxItem * sacking) :=
  match blocks with
  | [] => Ok (true, items, s)
  | block :: blocks =>
      if slt (splus firstByteSeq sentSize) block.1 then Ok (false, items, s)
      else
        '(items, s) ← Update_block block firstByteSeq items s;
        Update_blocks blocks firstByteSeq sentSize items s
  end.

(** [tcp-tx-buffer.cc:894-911] TcpTxBuffer::UpdateLostCount

    The loop, over the items from the highest sacked one down to the second. *)
Fixpoint UpdateLostCount_loop (sacked dupAckThresh lostOut : Z) (items : list TcpTxItem) : Z * Z * list TcpTxItem :=
  match items with
  | [] => (sacked, lostOut, [])
  | item :: items =>
      let sacked := if m_sacked item then sacked + 1 else sacked in
      let '(lostOut, item) :=
        if (dupAckThresh <=? sacked) && negb (m_sacked item) && negb (m_lost item)
        then (u32 (lostOut + isize item), set_flags true (m_sacked item) (m_retrans item) item) else (lostOut, item) in
      let '(sacked, lostOut, items) := UpdateLostCount_loop sacked dupAckThresh lostOut items in
      (sacked, lostOut, item :: items)
  end.

(** The list up to and with the item of a node, and what follows. *)
Fixpoint split_node (n : nat) (l : list TcpTxItem) : option (list TcpTxItem * list TcpTxItem) :=
  match l with
  | [] => None
  | i :: l =>
      if (it_node i =? n)%nat then Some ([i], l)
      else '(l1, l2) ← split_node n l; Some (i :: l1, l2)
  end.

(** [tcp-tx-buffer.cc] TcpTxBuffer::UpdateLostCount *)
Definition UpdateLostCount (b : TcpTxBuffer) : res TcpTxBuffer :=
  n ← deref (fst (m_highestSack b));
  '(l1, l2) ← deref (split_node n (m_sentList b));
  match l1 with
  | [] => Err Undefined
  | head :: l1 =>
      let '(sacked, lostOut, l1) := UpdateLostCount_loop 0 (m_dupAckThresh b) (m_lostOut b) (reverse l1) in
      let '(lostOut, head) :=
        if (m_dupAckThresh b <=? sacked) && negb (m_lost head)
        then (u32 (lostOut + isize head), set_flags true (m_sacked head) (m_retrans head) head) else (lostOut, head) in
      Ok (set_sentList (head :: reverse l1 ++ l2) (set_counts lostOut (m_sackedOut b) (m_retransOut b) b))
  end.

(** [tcp-tx-buffer.cc] TcpTxBuffer::Update

    The bytes sacked, and the items given to the callback. *)
Definition Update (blocks : list SackBlock) (b : TcpTxBuffer) : res (Z * list TcpTxItem * TcpTxBuffer) :=
  '(ended, items, s) ← Update_blocks blocks (m_firstByteSeq b) (m_sentSize b) (m_sentList b)
                        (mkSacking (m_lostOut b) (m_sackedOut b) 0 (m_highestSack b) []);
  let b := set_highestSack (s_highestSack s) (set_sentList items (set_counts (s_lostOut s) (s_sackedOut s) (m_retransOut b) b)) in
  if negb (ended : bool) then Ok (s_bytesSacked s, s_called s, b)
  else
    b ← (if 0 <? s_bytesSacked s then
           ns_assert (bool_decide (is_Some (fst (m_highestSack b)))) ≫= λ _, UpdateLostCount b
         else Ok b);
    head ← deref (head (m_sentList b));
    ns_assert (negb (m_sacked head)) ≫= λ _,
    ns_assert (u32 (m_sackedOut b + m_lostOut b) <=? m_sentSize b) ≫= λ _,
    Ok (s_bytesSacked s, s_called s, b).

(** [tcp-tx-buffer.cc:941-960] TcpTxBuffer::IsLost

    The loop. *)
Fixpoint IsLost_loop (seq beginOfCurrentPacket : Z) (items : list TcpTxItem) : bool :=
  match items with
  | [] => false
  | it :: items =>
      if sge beginOfCurrentPacket seq && m_lost it then true
      else if sge beginOfCurrentPacket seq && m_sacked it then false
      else IsLost_loop seq (splus beginOfCurrentPacket (isize it)) items
  end.

(** [tcp-tx-buffer.cc] TcpTxBuffer::IsLost *)
Definition IsLost (seq : Z) (b : TcpTxBuffer) : bool :=
  if sge seq (snd (m_highestSack b)) then false else IsLost_loop seq (m_firstByteSeq b) (m_sentList b).

(** [tcp-tx-buffer.cc:989-1013] TcpTxBuffer::NextSeg

    The loop: the segment of rule 1, or the first sequence number for rule 3; a sequence number
    0 counts as none. *)
Fixpoint NextSeg_loop (isRecovery : bool) (beginOfCurrentPkt : Z) (seqPerRule3 : Z) (isSeqPerRule3Valid : bool)
    (items : list TcpTxItem) : option Z * option Z :=
  match items with
  | [] => (None, if isSeqPerRule3Valid then Some seqPerRule3 else None)
  | item :: items =>
      let next := splus beginOfCurrentPkt (isize item) in
      if negb (m_retrans item) && negb (m_sacked item) then
        if m_lost item then (Some beginOfCurrentPkt, None)
        else if (seqPerRule3 =? 0) && isRecovery then NextSeg_loop isRecovery next beginOfCurrentPkt true items
        else NextSeg_loop isRecovery next seqPerRule3 isSeqPerRule3Valid items
      else NextSeg_loop isRecovery next seqPerRule3 isSeqPerRule3Valid items
  end.

(** [tcp-tx-buffer.cc] TcpTxBuffer::NextSeg

    [rWnd] is what the callback returns; the result is [*seq] and [*seqHigh]. *)
Definition NextSeg (rWnd : Z) (isRecovery : bool) (b : TcpTxBuffer) : res (option (Z * Z)) :=
  match NextSeg_loop isRecovery (m_firstByteSeq b) 0 false (m_sentList b) with
  | (Some seq, _) => Ok (Some (seq, splus seq (m_segmentSize b)))
  | (None, rule3) =>
      n ← SizeFromSequence (splus (m_firstByteSeq b) (m_sentSize b)) b;
      if 0 <? n then
        if m_sentSize b <=? rWnd then
          let seq := splus (m_firstByteSeq b) (m_sentSize b) in
          Ok (Some (seq, splus seq (Z.min (m_segmentSize b) (u32 (rWnd - m_sentSize b)))))
        else Ok None
      else
        match rule3 with
        | Some seq => Ok (Some (seq, splus seq (m_segmentSize b)))
        | None => Ok None
        end
  end.

(** [tcp-tx-buffer.cc] TcpTxBuffer::BytesInFlight *)
Definition BytesInFlight (b : TcpTxBuffer) : res Z :=
  ns_assert (u32 (m_sackedOut b + m_lostOut b) <=? m_sentSize b) ≫= λ _,
  let leftOut := u32 (m_sackedOut b + m_lostOut b) in
  Ok (u32 (m_sentSize b - leftOut + m_retransOut b)).

(** ** Resets *)

(** [tcp-tx-buffer.cc] TcpTxBuffer::ResetRenoSack *)
Definition ResetRenoSack (b : TcpTxBuffer) : TcpTxBuffer :=
  set_highestSack no_sack
    (set_sentList ((λ i, set_flags (m_lost i) false (m_retrans i) i) <$> m_sentList b)
       (set_counts (m_lostOut b) 0 (m_retransOut b) b)).

(** [tcp-tx-buffer.cc] TcpTxBuffer::ResetSentList *)
Definition ResetSentList (b : TcpTxBuffer) : TcpTxBuffer :=
  set_highestSack no_sack
    (set_counts 0 0 0
       (set_sizes (m_size b) 0 (m_firstByteSeq b)
          (set_lists ((set_flags false false false <$> m_sentList b) ++ m_appList b) [] (next_node b) b))).

(** [tcp-tx-buffer.cc] TcpTxBuffer::ResetLastSegmentSent

    The node of the sent list is gone, and an iterator to it with it; the item gets a node of the
    application's list. *)
Definition ResetLastSegmentSent (b : TcpTxBuffer) : TcpTxBuffer :=
  match last (m_sentList b) with
  | None => b
  | Some item =>
      let item := mkItem (next_node b) (m_startSeq item) (m_packet item) (m_lost item) (m_lastSent item) (m_sacked item) (m_retrans item) in
      let b := set_lists (item :: m_appList b) (removelast (m_sentList b)) (S (next_node b)) b in
      set_counts (m_lostOut b) (m_sackedOut b)
        (if m_retrans item then u32 (m_retransOut b - isize item) else m_retransOut b)
        (set_sizes (m_size b) (u32 (m_sentSize b - isize item)) (m_firstByteSeq b) b)
  end.

(** [tcp-tx-buffer.cc:1296-1319] TcpTxBuffer::SetSentListLost

    The loop: the count of lost bytes and the items. *)
Fixpoint SetSentListLost_loop (resetSack : bool) (lostOut : Z) (items : list TcpTxItem) : Z * list TcpTxItem :=
  match items with
  | [] => (lostOut, [])
  | it :: items =>
      let '(lostOut, it) :=
        if resetSack then (lostOut, set_flags true false false it)
        else if m_lost it then (u32 (lostOut + isize it), set_flags true (m_sacked it) false it)
        else if negb (m_sacked it) then (u32 (lostOut + isize it), set_flags true (m_sacked it) false it)
        else (lostOut, set_flags (m_lost it) (m_sacked it) false it) in
      let '(lostOut, items) := SetSentListLost_loop resetSack lostOut items in
      (lostOut, it :: items)
  end.

(** [tcp-tx-buffer.cc] TcpTxBuffer::SetSentListLost *)
Definition SetSentListLost (resetSack : bool) (b : TcpTxBuffer) : res TcpTxBuffer :=
  let b := if resetSack then set_highestSack no_sack (set_counts (m_sentSize b) 0 0 b)
           else set_counts 0 (m_sackedOut b) 0 b in
  let '(lostOut, items) := SetSentListLost_loop resetSack (m_lostOut b) (m_sentList b) in
  let b := set_sentList items (set_counts lostOut (m_sackedOut b) (m_retransOut b) b) in
  ns_assert (u32 (m_sackedOut b + m_lostOut b) <=? m_sentSize b) ≫= λ _,
  Ok b.

(** [tcp-tx-buffer.cc] TcpTxBuffer::IsHeadRetransmitted *)
Definition IsHeadRetransmitted (b : TcpTxBuffer) : res bool :=
  if m_sentSize b =? 0 then Ok false
  else
    head ← deref (head (m_sentList b));
    Ok (m_retrans head).

(** [tcp-tx-buffer.cc] TcpTxBuffer::DeleteRetransmittedFlagFromHead *)
Definition DeleteRetransmittedFlagFromHead (b : TcpTxBuffer) : res TcpTxBuffer :=
  if m_sentSize b =? 0 then Ok b
  else
    match m_sentList b with
    | [] => Err Undefined
    | head :: l =>
        if m_retrans head then
          Ok (set_sentList (set_flags (m_lost head) (m_sacked head) false head :: l)
                (set_counts (m_lostOut b) (m_sackedOut b) (u32 (m_retransOut b - isize head)) b))
        else Ok b
    end.
