(* ===== verification/TcpTxCorrect.v ===== *)
(** * The transmission buffer: layout and invariant

    The items of the buffer lie one after the other in the stream of bytes the application
    writes; positions in the stream are unbounded, the sequence numbers are what is left of
    them.  Cutting and joining items ([recut]) changes neither the bytes nor the scoreboard. *)

From stdpp Require Import list_tactics.
From S2P Require Import Prelude SequenceNumber TcpTxBuffer TcpRxCorrect.
Local Open Scope Z_scope.

(** ** Sums over items *)

Section sums.
Implicit Types (l : list TcpTxItem) (f : TcpTxItem → bool).

(** The bytes of the items with a flag. *)
Fixpoint tot f l : Z :=
  match l with [] => 0 | i :: l => (if f i then isize i else 0) + tot f l end.

Definition size_of l : Z := tot (λ _, true) l.

Lemma isize_nonneg i : 0 ≤ isize i.
Proof. unfold isize, tsize. lia. Qed.

Lemma tot_app f l1 l2 : tot f (l1 ++ l2) = tot f l1 + tot f l2.
Proof. induction l1 as [|i l1 IH]; cbn; [done|]. rewrite IH. lia. Qed.

Lemma size_app l1 l2 : size_of (l1 ++ l2) = size_of l1 + size_of l2.
Proof. apply tot_app. Qed.

Lemma size_cons i l : size_of (i :: l) = isize i + size_of l.
Proof. done. Qed.

Lemma tot_cons f i l : tot f (i :: l) = (if f i then isize i else 0) + tot f l.
Proof. done. Qed.

Lemma tot_nonneg f l : 0 ≤ tot f l.
Proof. induction l as [|i l IH]; cbn; [done|]. pose proof (isize_nonneg i). case_match; lia. Qed.

Lemma tot_le_size f l : tot f l ≤ size_of l.
Proof.
  unfold size_of. induction l as [|i l IH]; cbn; [done|]. pose proof (isize_nonneg i). case_match; lia.
Qed.

Lemma size_nonneg l : 0 ≤ size_of l.
Proof. apply tot_nonneg. Qed.

Lemma tot_add f g l : Forall (λ i, f i && g i = false) l → tot f l + tot g l ≤ size_of l.
Proof.
  unfold size_of. induction 1 as [|i l Hi _ IH]; cbn; [done|].
  pose proof (isize_nonneg i). destruct (f i), (g i); try done; lia.
Qed.

Lemma tot_none f l : Forall (λ i, f i = false) l → tot f l = 0.
Proof. induction 1 as [|i l Hi _ IH]; cbn; [done|]. by rewrite Hi, IH. Qed.

Lemma tot_fmap f g (h : TcpTxItem → TcpTxItem) l :
  (∀ i, f (h i) = g i ∧ isize (h i) = isize i) → tot f (h <$> l) = tot g l.
Proof. intros H. induction l as [|i l IH]; [done|]. rewrite fmap_cons. cbn. destruct (H i) as [-> ->]. by rewrite IH. Qed.
End sums.

#[export] Hint Resolve size_nonneg isize_nonneg tot_nonneg : netsim.

(** Rewrites sums of concatenations into sums. *)
Ltac sums :=
  repeat first [rewrite tot_app in * | rewrite size_app in * | rewrite size_cons in * | rewrite tot_cons in *
               | rewrite app_nil_r in *].

(** ** Layout *)

Section layout.
Context (stream : Z → Z).
Implicit Types l : list TcpTxItem.

(** Items from position [p] on, none empty; items that were sent carry their number. *)
Fixpoint laid (sent : bool) (p : Z) l : Prop :=
  match l with
  | [] => True
  | i :: l =>
      (0 < isize i ∧ m_packet i = bytes stream p (p + isize i) ∧ (sent = true → m_startSeq i = u32 p)) ∧
      laid sent (p + isize i) l
  end.

Lemma laid_app sent p l1 l2 : laid sent p (l1 ++ l2) ↔ laid sent p l1 ∧ laid sent (p + size_of l1) l2.
Proof.
  revert p. induction l1 as [|i l1 IH]; intros p; cbn [laid app].
  - unfold size_of. cbn. rewrite Z.add_0_r. tauto.
  - rewrite IH, size_cons, Z.add_assoc. tauto.
Qed.

Lemma laid_pos sent p l : laid sent p l → l = [] ∨ 0 < size_of l.
Proof. destruct l as [|i l]; [by left|]. intros [[? _] _]. right. pose proof (size_nonneg l). sums. lia. Qed.

(** [laid] looks at bytes and sequence numbers only. *)
Lemma laid_fmap sent p (h : TcpTxItem → TcpTxItem) l :
  (∀ i, m_packet (h i) = m_packet i ∧ m_startSeq (h i) = m_startSeq i) → laid sent p (h <$> l) ↔ laid sent p l.
Proof.
  intros H. revert p. induction l as [|i l IH]; intros p; [done|]. rewrite fmap_cons. cbn [laid].
  assert (isize (h i) = isize i) as E by (unfold isize; by destruct (H i) as [-> _]).
  rewrite E, IH. destruct (H i) as [-> ->]. done.
Qed.

Lemma laid_weaken p l : laid true p l → laid false p l.
Proof. revert p. induction l as [|i l IH]; intros p; [done|]. cbn [laid]. intros [(? & ? & ?) ?]. split; [done|auto]. Qed.

Lemma tsize_bytes p q : p ≤ q → tsize (bytes stream p q) = q - p.
Proof. intros. by apply (size_bytes stream). Qed.

Lemma take_bytes p q k : 0 ≤ k ≤ q - p → take (Z.to_nat k) (bytes stream p q) = bytes stream p (p + k).
Proof.
  intros. pose proof (fragment_bytes stream p q 0 k ltac:(lia) ltac:(lia) ltac:(lia)) as H'.
  unfold TcpRxBuffer.fragment in H'. rewrite Z.add_0_r in H'. by rewrite drop_0 in H'.
Qed.

Lemma drop_bytes p q k : 0 ≤ k ≤ q - p → drop (Z.to_nat k) (bytes stream p q) = bytes stream (p + k) q.
Proof.
  intros. rewrite <- (bytes_app stream p (p + k) q) by lia. apply drop_app_length'.
  pose proof (tsize_bytes p (p + k) ltac:(lia)). unfold tsize in *. lia.
Qed.

(** ** Cutting and joining items *)

(** Distinct nodes, all handed out. *)
Definition fresh (n : nat) (ns : list nat) : Prop := NoDup ns ∧ Forall (λ x, (x < n)%nat) ns.

Lemma fresh_perm n ns ns' : ns ≡ₚ ns' → fresh n ns → fresh n ns'.
Proof. intros HP [H1 H2]. split; by rewrite <- HP. Qed.

Definition nodes (l : list TcpTxItem) : list nat := it_node <$> l.

(** The flags that are the same in all items that are joined. *)
Definition flagged (sacked lost : bool) (i : TcpTxItem) : Prop := m_sacked i = sacked ∧ m_lost i = lost.

(** [l] was cut anew into [l'], [r] being the count of retransmitted bytes. *)
Record recut (sent : bool) (p : Z) (sk lo : bool) (l l' : list TcpTxItem) (r r' : Z) (n n' : nat) : Prop := {
  rc_laid : laid sent p l → laid sent p l';
  rc_size : size_of l' = size_of l;
  rc_flags : Forall (flagged sk lo) l → Forall (flagged sk lo) l';
  rc_retrans : ∀ R, 0 ≤ R → R + size_of l ≤ 2 ^ 30 → r = R + tot m_retrans l → r' = R + tot m_retrans l';
  rc_new : Forall (λ i, m_retrans i = false) l → Forall (λ i, m_retrans i = false) l';
  rc_nodes : ∀ K, fresh n (nodes l ++ K) → fresh n' (nodes l' ++ K);
  rc_le : (n ≤ n')%nat
}.

Lemma recut_refl sent p sk lo l r n : recut sent p sk lo l l r r n n.
Proof. by constructor. Qed.

Lemma recut_trans sent p sk lo l1 l2 l3 r1 r2 r3 n1 n2 n3 :
  recut sent p sk lo l1 l2 r1 r2 n1 n2 → recut sent p sk lo l2 l3 r2 r3 n2 n3 → recut sent p sk lo l1 l3 r1 r3 n1 n3.
Proof.
  intros H1 H2. constructor; try (intros; apply H2; by apply H1).
  - by rewrite (rc_size _ _ _ _ _ _ _ _ _ _ H2), (rc_size _ _ _ _ _ _ _ _ _ _ H1).
  - intros R HR Hs Hr. apply H2; [done| |by apply H1]. by rewrite (rc_size _ _ _ _ _ _ _ _ _ _ H1).
  - pose proof (rc_le _ _ _ _ _ _ _ _ _ _ H1). pose proof (rc_le _ _ _ _ _ _ _ _ _ _ H2). lia.
Qed.

(** Items that come before do not matter. *)
Lemma recut_frame sent p sk lo a l l' r r' n n' :
  recut sent (p + size_of a) sk lo l l' r r' n n' → recut sent p sk lo (a ++ l) (a ++ l') r r' n n'.
Proof.
  intros []. constructor; try done.
  - rewrite !laid_app. intros []. auto.
  - sums. by rewrite rc_size0.
  - rewrite !Forall_app. intros []. auto.
  - intros R HR Hs Hr. sums. pose proof (tot_nonneg m_retrans a). pose proof (tot_le_size m_retrans a).
    rewrite (rc_retrans0 (R + tot m_retrans a)); lia.
  - rewrite !Forall_app. intros []. auto.
  - intros K Hfr. unfold nodes in *. rewrite fmap_app in *.
    eapply fresh_perm; [|apply (rc_nodes0 ((it_node <$> a) ++ K)); eapply fresh_perm; [|exact Hfr]]; solve_Permutation.
Qed.

Lemma recut_laid sent p0 sk lo pre mid mid' post r r' n n' :
  laid sent p0 (pre ++ mid ++ post) → recut sent (p0 + size_of pre) sk lo mid mid' r r' n n' →
  laid sent p0 (pre ++ mid' ++ post).
Proof. rewrite !laid_app. intros (? & ? & ?) Hrc. rewrite (rc_size _ _ _ _ _ _ _ _ _ _ Hrc). conj; [done| |done]. by apply Hrc. Qed.

(** The two parts of an item that is cut. *)
Definition cut_front (node : nat) (k : Z) (i : TcpTxItem) : TcpTxItem :=
  mkItem node (m_startSeq i) (take (Z.to_nat k) (m_packet i)) (m_lost i) (m_lastSent i) (m_sacked i) (m_retrans i).
Definition cut_back (k : Z) (i : TcpTxItem) : TcpTxItem :=
  set_startSeq (splus (m_startSeq i) k) (set_packet (drop (Z.to_nat k) (m_packet i)) i).

Lemma SplitItems_ok node i k : k ≤ isize i → SplitItems node i k = Ok (cut_front node k i, cut_back k i).
Proof. intros. unfold SplitItems. by rewrite (proj2 (Z.leb_le _ _)). Qed.

Lemma isize_front node k i : 0 ≤ k ≤ isize i → isize (cut_front node k i) = k.
Proof. unfold isize, tsize. cbn. intros. rewrite length_take. lia. Qed.
Lemma isize_back k i : 0 ≤ k ≤ isize i → isize (cut_back k i) = isize i - k.
Proof. unfold isize, tsize. cbn. intros. rewrite length_drop. lia. Qed.

Lemma laid_cut_back sent p i k :
  laid sent p [i] → 0 ≤ k < isize i → laid sent (p + k) [cut_back k i].
Proof.
  intros [(Hp & Hb & Hs) _] Hk. cbn [laid]. rewrite isize_back by lia. conj; [lia| | |done].
  - cbn [cut_back m_packet set_startSeq set_packet]. rewrite Hb, drop_bytes by lia. f_equal. lia.
  - intros Hsent. cbn [cut_back m_startSeq set_startSeq]. rewrite (Hs Hsent). apply seq_add_u32.
Qed.

Lemma recut_split sent p sk lo a i b k r n :
  0 < k < isize i →
  recut sent p sk lo (a ++ i :: b) (a ++ cut_front n k i :: cut_back k i :: b) r r n (S n).
Proof.
  intros Hk. pose proof (isize_front n k i ltac:(lia)) as Hf. pose proof (isize_back k i ltac:(lia)) as Hb.
  constructor.
  - rewrite !laid_app. intros [Ha Hi]. split; [done|]. change (i :: b) with ([i] ++ b) in Hi.
    apply laid_app in Hi as [Hi Hb']. split; [|].
    + rewrite Hf. destruct Hi as [(_ & Hbytes & Hseq) _]. conj; [lia| |exact Hseq].
      cbn [cut_front m_packet]. rewrite Hbytes. apply take_bytes. lia.
    + rewrite Hf. change (cut_back k i :: b) with ([cut_back k i] ++ b). apply laid_app. split.
      * apply laid_cut_back; [done|lia].
      * sums. rewrite Hb. replace (size_of []) with 0 in * by done. by replace (_ + _ + _ + _) with (p + size_of a + (isize i + 0)) by lia.
  - sums. lia.
  - rewrite !Forall_app, !Forall_cons. intros (? & ? & ?). by conj.
  - intros R HR Hs ->. sums. rewrite Hf, Hb. cbn [cut_front cut_back m_retrans set_startSeq set_packet].
    destruct (m_retrans i); lia.
  - rewrite !Forall_app, !Forall_cons. intros (? & ? & ?). by conj.
  - intros K [Hnd Hlt]. unfold nodes in *. rewrite fmap_app, !fmap_cons in *. cbn [it_node cut_front cut_back set_startSeq set_packet] in *.
    apply (fresh_perm _ (n :: ((it_node <$> a) ++ it_node i :: (it_node <$> b)) ++ K)); [solve_Permutation|].
    split.
    + constructor; [|done]. intros Hin. rewrite Forall_forall in Hlt. specialize (Hlt _ Hin). lia.
    + constructor; [lia|]. eapply Forall_impl; [exact Hlt|]. cbn. lia.
  - lia.
Qed.

(** Two items joined; retransmitted if both are. *)
Definition joined (i j : TcpTxItem) : TcpTxItem :=
  mkItem (it_node i) (m_startSeq i) (m_packet i ++ m_packet j) (m_lost i) (Z.max (m_lastSent i) (m_lastSent j)) (m_sacked i)
    (m_retrans i && m_retrans j).

Lemma MergeItems_joined i j r k r' : MergeItems i j r = Ok (k, r') → k = joined i j.
Proof.
  unfold MergeItems. intros E. res_inv. unfold joined. replace (Z.max _ _) with (if m_lastSent i <? m_lastSent j then m_lastSent j else m_lastSent i).
  2: { destruct (Z.ltb_spec (m_lastSent i) (m_lastSent j)); lia. }
  destruct (m_retrans i), (m_retrans j); cbn [Bool.eqb andb] in *; by simplify_eq.
Qed.

(** The first [n] bytes from the item [i] on as an item of their own: the items are joined until
    there are enough, and the last one is cut; [node] is the identity of a new item. *)
Fixpoint gather (n : Z) (node : nat) (i : TcpTxItem) l : list TcpTxItem :=
  if n =? isize i then i :: l
  else if n <? isize i then cut_front node n i :: cut_back n i :: l
  else match l with [] => [i] | j :: l => gather n node (joined i j) l end.

Lemma gather_app n node i l l' : 0 < n ≤ size_of (i :: l) → gather n node i (l ++ l') = gather n node i l ++ l'.
Proof.
  revert i. induction l as [|j l IH]; intros i Hn.
  - assert (size_of [i] = isize i) as E by (unfold size_of; cbn; lia). rewrite E in Hn. cbn [app].
    destruct l'; cbn [gather]; destruct (Z.eqb_spec n (isize i)), (Z.ltb_spec n (isize i)); try done; lia.
  - cbn [app gather]. case_match; [done|]. case_match; [done|]. apply IH. sums.
    assert (isize (joined i j) = isize i + isize j) as -> by (unfold isize, tsize; cbn [joined m_packet]; rewrite length_app; lia). lia.
Qed.

Lemma MergeItems_ok i j r : m_sacked i = m_sacked j → m_lost i = m_lost j → ∃ k r', MergeItems i j r = Ok (k, r') ∧
  it_node k = it_node i ∧ m_startSeq k = m_startSeq i ∧ m_packet k = m_packet i ++ m_packet j ∧
  m_sacked k = m_sacked i ∧ m_lost k = m_lost i ∧ m_retrans k = m_retrans i && m_retrans j ∧
  r' = (if Bool.eqb (m_retrans i) (m_retrans j) then r else if m_retrans i then u32 (r - isize i) else u32 (r - isize j)).
Proof.
  intros Hs Hl. unfold MergeItems. rewrite Hs, Hl, !Bool.eqb_reflx. res_simpl.
  destruct (m_retrans i), (m_retrans j); cbn [Bool.eqb]; eexists _, _; conj; done.
Qed.

Lemma recut_merge sent p sk lo a i j b k r r' n :
  0 < isize i → 0 < isize j → m_sacked i = m_sacked j → m_lost i = m_lost j → MergeItems i j r = Ok (k, r') →
  isize k = isize i + isize j ∧ recut sent p sk lo (a ++ i :: j :: b) (a ++ k :: b) r r' n n.
Proof.
  intros Hi Hj Hs Hl Hm. destruct (MergeItems_ok i j r Hs Hl) as (k' & r2 & Hm' & Hn & Hq & Hp & Hks & Hkl & Hkr & Hr).
  rewrite Hm in Hm'. injection Hm' as <- <-.
  assert (isize k = isize i + isize j) as Hk by (unfold isize, tsize; rewrite Hp, length_app; lia).
  split; [done|]. constructor.
  - rewrite !laid_app. cbn [laid]. intros (Ha & (_ & Hbi & Hsi) & (_ & Hbj & _) & Hb).
    split; [done|]. rewrite Hk. split.
    + conj; [lia| |by rewrite Hq]. rewrite Hp, Hbi, Hbj, bytes_app by lia. f_equal. lia.
    + by rewrite Z.add_assoc.
  - sums. lia.
  - rewrite !Forall_app, !Forall_cons. intros (? & [? ?] & ? & ?). unfold flagged. rewrite Hks, Hkl. by conj.
  - intros R HR Hbound ->. sums. rewrite Hk, Hkr, Hr. pose proof (tot_nonneg m_retrans a). pose proof (tot_nonneg m_retrans b).
    pose proof (tot_le_size m_retrans a). pose proof (tot_le_size m_retrans b).
    destruct (m_retrans i), (m_retrans j); cbn [Bool.eqb andb]; try rewrite wrap_id by zlia; lia.
  - rewrite !Forall_app, !Forall_cons. intros (? & Hri & ? & ?). rewrite Hkr, Hri. by conj.
  - intros K [Hnd Hlt]. unfold nodes in *. rewrite fmap_app, !fmap_cons in *. rewrite Hn.
    apply (fresh_perm _ (((it_node <$> a) ++ it_node i :: (it_node <$> b)) ++ K)); [done|].
    assert (((it_node <$> a) ++ it_node i :: it_node j :: (it_node <$> b)) ++ K ≡ₚ
            it_node j :: ((it_node <$> a) ++ it_node i :: (it_node <$> b)) ++ K) as HP by solve_Permutation.
    rewrite HP in Hnd. rewrite HP in Hlt. apply NoDup_cons in Hnd as [_ ?]. apply Forall_cons in Hlt as [_ ?]. done.
  - lia.
Qed.

(** ** The walk over a list *)

(** The items before the requested position are passed. *)
Lemma walk_skip sent una n q r node p l1 l2 :
  una ≤ p → laid sent p l1 → p + size_of l1 ≤ q → q ≤ una + 2 ^ 30 →
  GetPacketFromList_walk sent (u32 una) n (u32 q) r node (u32 p) (l1 ++ l2) =
  (w ← GetPacketFromList_walk sent (u32 una) n (u32 q) r node (u32 (p + size_of l1)) l2;
   Ok (mkWalk (w_found w) (l1 ++ w_list w) (w_retransOut w) (w_node w))).
Proof.
  revert p. induction l1 as [|i l1 IH]; intros p Hp Hl Hq Hu.
  - cbn [app]. replace (p + size_of []) with p by (unfold size_of; cbn; lia).
    by destruct (GetPacketFromList_walk _ _ _ _ _ _ _ l2) as [[]|].
  - cbn [laid] in Hl. destruct Hl as [(Hi & _ & Hs) Hl]. pose proof (size_nonneg l1). sums. cbn [app GetPacketFromList_walk].
    assert (negb sent || sge (m_startSeq i) (u32 una) = true) as ->.
    { destruct sent; [|done]. rewrite (Hs eq_refl), (close_ge una) by (unfold close; lia). apply Z.leb_le. lia. }
    res_simpl. rewrite seq_add_u32, (close_lt una) by (unfold close; lia). rewrite (proj2 (Z.ltb_ge _ _)) by lia.
    rewrite IH by (done || lia). rewrite Z.add_assoc.
    by destruct (GetPacketFromList_walk _ _ _ _ _ _ _ l2) as [[]|].
Qed.

(** The item that begins at the requested position. *)
Lemma walk_at sent una n q r node i l :
  una ≤ q → laid sent q (i :: l) → 0 < n → q + n ≤ una + 2 ^ 30 → isize i ≤ 2 ^ 30 →
  GetPacketFromList_walk sent (u32 una) n (u32 q) r node (u32 q) (i :: l) =
  if n =? isize i then Ok (mkWalk (Some i) (i :: l) r node)
  else if n <? isize i then Ok (mkWalk (Some (cut_front node n i)) (cut_front node n i :: cut_back n i :: l) r (S node))
  else match l with
       | [] => Ok (mkWalk (Some i) [i] r node)
       | j :: l => '(k, r) ← MergeItems i j r; Ok (mkWalk None (k :: l) r node)
       end.
Proof.
  intros Hu Hl Hn Hq Hmax. cbn [laid] in Hl. destruct Hl as [(Hi & _ & Hs) _]. cbn [GetPacketFromList_walk].
  assert (negb sent || sge (m_startSeq i) (u32 una) = true) as ->.
  { destruct sent; [|done]. rewrite (Hs eq_refl), (close_ge una) by (unfold close; lia). apply Z.leb_le. lia. }
  res_simpl. rewrite !seq_add_u32. rewrite (seq_lt_spec 32) by lia. rewrite (proj2 (Z.ltb_lt _ _)) by lia.
  unfold seq_eq. rewrite Z.eqb_refl. rewrite (seq_le_spec 32) by lia.
  destruct (Z.leb_spec (q + n) (q + isize i)); destruct (Z.eqb_spec n (isize i)); try lia; [done| |].
  - rewrite (proj2 (Z.ltb_lt _ _)) by lia. by rewrite SplitItems_ok by lia.
  - rewrite (proj2 (Z.ltb_ge _ _)) by lia. by destruct l.
Qed.

(** The item that holds the requested position in its middle. *)
Lemma walk_inside sent una n p q r node i l :
  una ≤ p < q → laid sent p (i :: l) → q < p + isize i → p + isize i ≤ una + 2 ^ 30 →
  GetPacketFromList_walk sent (u32 una) n (u32 q) r node (u32 p) (i :: l) =
  Ok (mkWalk None (cut_front node (q - p) i :: cut_back (q - p) i :: l) r (S node)).
Proof.
  intros Hu Hl Hq Hmax. cbn [laid] in Hl. destruct Hl as [(Hi & _ & Hs) _]. cbn [GetPacketFromList_walk].
  assert (negb sent || sge (m_startSeq i) (u32 una) = true) as ->.
  { destruct sent; [|done]. rewrite (Hs eq_refl), (close_ge una) by (unfold close; lia). apply Z.leb_le. lia. }
  res_simpl. rewrite !seq_add_u32. rewrite (close_lt una), (close_eq una), (close_gt una) by (unfold close; lia).
  rewrite (proj2 (Z.ltb_lt _ _)), (proj2 (Z.eqb_neq _ _)), (proj2 (Z.ltb_lt p q)) by lia.
  rewrite (seq_sub_spec 32) by lia. res_simpl. rewrite (wrap_id 32) by zlia. by rewrite SplitItems_ok by lia.
Qed.

(** An item that begins where it is requested is found, and cut or joined to the length. *)
Lemma found_at sent una n q p0 r node pre i rest post sk lo fuel :
  una ≤ p0 → laid sent p0 (pre ++ (i :: rest) ++ post) → q = p0 + size_of pre →
  Forall (flagged sk lo) (i :: rest) → 0 < n ≤ size_of (i :: rest) → q + size_of (i :: rest) ≤ una + 2 ^ 30 →
  (length rest < fuel)%nat →
  ∃ x rest' r' node',
    GetPacketFromList fuel sent (u32 una) (u32 p0) n (u32 q) r node (pre ++ (i :: rest) ++ post) =
      Ok (x, mkWalk (Some x) (pre ++ (x :: rest') ++ post) r' node') ∧
    isize x = n ∧ recut sent q sk lo (i :: rest) (x :: rest') r r' node node' ∧ gather n node i rest = x :: rest'.
Proof.
  intros Hu Hl -> Hf Hn Hmax. revert i rest r Hl Hf Hn Hmax.
  induction fuel as [|fuel IH]; intros i rest r Hl Hf Hn Hmax Hfuel; [lia|]. cbn [GetPacketFromList].
  pose proof Hl as Hl'. apply laid_app in Hl' as [Hpre Hi]. pose proof (size_nonneg pre). pose proof (size_nonneg rest).
  pose proof (proj1 (laid_app _ _ (i :: rest) post) Hi) as [Hir Hpost].
  assert (0 < isize i) as Hpos by apply Hir. sums.
  rewrite (walk_skip sent una n) by (done || lia).
  rewrite <- app_comm_cons. rewrite walk_at by (done || lia).
  destruct (Z.eqb_spec n (isize i)) as [->|Hne].
  { exists i, rest, r, node. conj; [done|done|apply recut_refl|]. destruct rest; cbn [gather]; by rewrite Z.eqb_refl. }
  destruct (Z.ltb_spec n (isize i)) as [Hlt|Hge].
  { exists (cut_front node n i), (cut_back n i :: rest), r, (S node). conj; [done|apply isize_front; lia| |].
    - apply (recut_split _ _ _ _ [] i rest n). lia.
    - destruct rest; cbn [gather]; by rewrite (proj2 (Z.eqb_neq _ _)), (proj2 (Z.ltb_lt _ _)) by lia. }
  destruct rest as [|j rest]; [sums; unfold size_of in *; cbn in *; lia|].
  cbn [app]. apply Forall_cons in Hf as [[Hi1 Hi2] Hf]. apply Forall_cons in Hf as [[Hj1 Hj2] Hf].
  cbn [laid] in Hir. destruct Hir as (_ & (Hj & _) & _).
  destruct (MergeItems_ok i j r) as (k & r' & Hm & _); [congruence..|]. rewrite Hm. res_simpl.
  destruct (recut_merge sent (p0 + size_of pre) sk lo [] i j rest k r r' node) as [Hk Hrc]; [lia..|congruence|congruence|done|].
  cbn [w_found w_retransOut w_node w_list]. cbn [app] in Hrc.
  destruct (IH k rest r') as (x & rest' & r2 & node' & Hget & Hx & Hrc' & Hga).
  - apply laid_app. split; [done|]. apply laid_app. split.
    + apply Hrc. exact (proj1 (proj1 (laid_app _ _ (i :: j :: rest) post) Hi)).
    + rewrite (rc_size _ _ _ _ _ _ _ _ _ _ Hrc). exact Hpost.
  - apply Hrc. constructor; [done|]. by constructor.
  - sums. lia.
  - sums. lia.
  - cbn in Hfuel. lia.
  - exists x, rest', r2, node'. conj; [exact Hget|done|by eapply recut_trans|]. cbn [gather].
    rewrite (proj2 (Z.eqb_neq _ _)), (proj2 (Z.ltb_ge _ _)) by lia. by rewrite <- (MergeItems_joined _ _ _ _ _ Hm).
Qed.

(** The item that holds a position. *)
Lemma item_at l p q :
  p ≤ q < p + size_of l → ∃ a i b, l = a ++ i :: b ∧ p + size_of a ≤ q < p + size_of a + isize i.
Proof.
  revert p. induction l as [|i l IH]; intros p Hq; [unfold size_of in Hq; cbn in Hq; lia|]. sums.
  destruct (Z.lt_ge_cases q (p + isize i)).
  - exists [], i, l. unfold size_of. cbn. split; [done|lia].
  - destruct (IH (p + isize i)) as (a & j & b & -> & ?); [lia|]. exists (i :: a), j, b. sums. split; [done|lia].
Qed.

(** A requested range within items of equal flags becomes an item of its own. *)
Lemma GetPacketFromList_ok sent una n q p0 r node pre mid post sk lo :
  una ≤ p0 → laid sent p0 (pre ++ mid ++ post) → Forall (flagged sk lo) mid →
  p0 + size_of pre ≤ q → 0 < n → q + n ≤ p0 + size_of pre + size_of mid ≤ una + 2 ^ 30 →
  ∃ x m1 m2 r' node',
    GetPacketFromList (walk_fuel (pre ++ mid ++ post)) sent (u32 una) (u32 p0) n (u32 q) r node (pre ++ mid ++ post) =
      Ok (x, mkWalk (Some x) (pre ++ (m1 ++ x :: m2) ++ post) r' node') ∧
    isize x = n ∧ p0 + size_of pre + size_of m1 = q ∧
    recut sent (p0 + size_of pre) sk lo mid (m1 ++ x :: m2) r r' node node'.
Proof.
  intros Hu Hl Hf Hq Hn Hmax.
  destruct (item_at mid (p0 + size_of pre) q) as (a & i & b & -> & Hq'); [lia|].
  apply Forall_app in Hf as [Hfa Hfi].
  pose proof (size_nonneg pre). pose proof (size_nonneg a). pose proof (size_nonneg b).
  set (fuel := walk_fuel (pre ++ (a ++ i :: b) ++ post)).
  assert (length b + 2 < fuel)%nat as Hfuel by (unfold fuel, walk_fuel; rewrite !length_app; cbn; lia).
  destruct (Z.eq_dec q (p0 + size_of pre + size_of a)) as [Heq|Hne].
  - assert (∀ j l, pre ++ (a ++ j :: l) ++ post = (pre ++ a) ++ (j :: l) ++ post) as E
      by (intros; by rewrite <- !app_assoc).
    rewrite E in Hl |- *. sums.
    destruct (found_at sent una n q p0 r node (pre ++ a) i b post sk lo fuel)
      as (x & m2 & r' & node' & Hget & Hx & Hrc & _); try done; sums; try lia.
    exists x, a, m2, r', node'. rewrite E. conj; [exact Hget|done|lia|].
    apply recut_frame. by replace (p0 + size_of pre + size_of a) with q by lia.
  - sums. set (k := q - (p0 + size_of pre + size_of a)).
    pose proof (recut_split sent (p0 + size_of pre) sk lo a i b k r node ltac:(lia)) as Hsplit.
    pose proof (isize_front node k i ltac:(lia)) as Hfr. pose proof (isize_back k i ltac:(lia)) as Hbk.
    pose proof (recut_laid _ _ _ _ _ _ _ _ _ _ _ _ Hl Hsplit) as Hl2.
    assert (pre ++ (a ++ i :: b) ++ post = (pre ++ a) ++ i :: (b ++ post)) as E1 by (by rewrite <- !app_assoc).
    assert (∀ j l, pre ++ (a ++ cut_front node k i :: j :: l) ++ post = (pre ++ a ++ [cut_front node k i]) ++ (j :: l) ++ post) as E2
      by (intros; by rewrite <- !app_assoc).
    rewrite E1 in Hl |- *. rewrite E2 in Hl2. apply laid_app in Hl as [Hpa Hib].
    destruct fuel as [|fuel']; [lia|]. cbn [GetPacketFromList].
    rewrite (walk_skip sent una n) by (done || sums; lia).
    rewrite (walk_inside sent una n) by (done || sums; lia). sums. res_simpl. cbn [w_found w_retransOut w_node w_list].
    replace (q - (p0 + (size_of pre + size_of a))) with k by lia.
    destruct (found_at sent una n q p0 r (S node) (pre ++ a ++ [cut_front node k i]) (cut_back k i) b post sk lo fuel')
      as (x & m2 & r' & node' & Hget & Hx & Hrc & _); try done; sums; try lia.
    + assert (size_of [] = 0) as Hnil by done. lia.
    + apply Forall_cons in Hfi as [Hi' Hb']. constructor; [exact Hi'|exact Hb'].
    + exists x, (a ++ [cut_front node k i]), m2, r', node'.
      assert (pre ++ ((a ++ [cut_front node k i]) ++ x :: m2) ++ post = (pre ++ a ++ [cut_front node k i]) ++ (x :: m2) ++ post) as E3
        by (by rewrite <- !app_assoc).
      assert (size_of [] = 0) as Hnil by done.
      rewrite E3. conj; [|done|sums; lia|].
      * rewrite <- Hget. f_equal. by rewrite <- !app_assoc.
      * eapply recut_trans; [exact Hsplit|]. change (a ++ cut_front node k i :: cut_back k i :: b) with (a ++ [cut_front node k i] ++ cut_back k i :: b).
        rewrite app_assoc. apply recut_frame. sums. by replace (p0 + size_of pre + (size_of a + (isize (cut_front node k i) + size_of []))) with q by lia.
Qed.
End layout.
