(* ===== verification/TcpTxInvariant.v ===== *)
(** * The transmission buffer: the invariant and the operations on the data

    What the buffer holds of the stream, with exact counts on the scoreboard, and what [Add]
    and [CopyFromSequence] do to it. *)

From S2P Require Import Prelude SequenceNumber TcpTxBuffer TcpRxCorrect TcpTxCorrect.
Local Open Scope Z_scope.

(** Reduces projections of updated buffers. *)
Ltac txs :=
  cbn [m_appList m_sentList m_maxBuffer m_size m_sentSize m_firstByteSeq m_highestSack m_lostOut m_sackedOut m_retransOut
       m_dupAckThresh m_segmentSize m_renoSack m_sackEnabled next_node set_lists set_sizes set_highestSack set_counts
       set_params set_sentList fst snd w_found w_list w_retransOut w_node] in *.

(** The iterator to the highest sacked item, with the position of the item. *)
Definition sack_ok (una : Z) (l : list TcpTxItem) (h : option nat * Z) : Prop :=
  h = no_sack ∨
  ∃ l1 i l2, l = l1 ++ i :: l2 ∧ m_sacked i = true ∧ h = (Some (it_node i), u32 (una + size_of l1)).

(** The positions of sacked bytes. *)
Fixpoint sacked_byte (p : Z) (l : list TcpTxItem) (x : Z) : Prop :=
  match l with
  | [] => False
  | i :: l => (m_sacked i = true ∧ p ≤ x < p + isize i) ∨ sacked_byte (p + isize i) l x
  end.

Lemma sacked_byte_app p l1 l2 x : sacked_byte p (l1 ++ l2) x ↔ sacked_byte p l1 x ∨ sacked_byte (p + size_of l1) l2 x.
Proof.
  revert p. induction l1 as [|i l1 IH]; intros p; cbn [app sacked_byte].
  - unfold size_of. cbn. rewrite Z.add_0_r. tauto.
  - rewrite IH. sums. rewrite Z.add_assoc. tauto.
Qed.

Lemma sacked_byte_none p l x : Forall (λ i, m_sacked i = false) l → ¬ sacked_byte p l x.
Proof.
  intros H. revert p. induction H as [|i l Hi _ IH]; intros p; [by intros []|]. cbn [sacked_byte]. intros [[? _]|?]; [congruence|by eapply IH].
Qed.

Definition fewer_sacks (i j : TcpTxItem) : Prop := isize j = isize i ∧ (m_sacked j = true → m_sacked i = true).

Lemma sacked_byte_mono p l l' x : Forall2 fewer_sacks l l' → sacked_byte p l' x → sacked_byte p l x.
Proof.
  intros H. revert p. induction H as [|i j l l' [Hs Hk] _ IH]; intros p; [done|]. cbn [sacked_byte]. rewrite Hs.
  intros [[? ?]|?]; [left; auto|right; auto].
Qed.

Lemma fewer_sacks_refl l : Forall2 fewer_sacks l l.
Proof. induction l; by constructor. Qed.

(** The buffer holds the bytes of the stream from [una] on, and counts what it holds. *)
Record tx_core (stream : Z → Z) (una : Z) (b : TcpTxBuffer) : Prop := {
  ti_una : m_firstByteSeq b = u32 una;
  ti_sent : laid stream true una (m_sentList b);
  ti_app : laid stream false (una + m_sentSize b) (m_appList b);
  ti_sentSize : m_sentSize b = size_of (m_sentList b);
  ti_size : m_size b = m_sentSize b + size_of (m_appList b);
  ti_max : m_size b ≤ m_maxBuffer b ≤ 2 ^ 30;
  ti_sacked : m_sackedOut b = tot m_sacked (m_sentList b);
  ti_lost : m_lostOut b = tot m_lost (m_sentList b);
  ti_retrans : m_retransOut b = tot m_retrans (m_sentList b);
  ti_disjoint : Forall (λ i, m_sacked i && m_lost i = false) (m_sentList b);
  ti_appflags : Forall (λ i, flagged false false i ∧ m_retrans i = false) (m_appList b);
  ti_nodes : fresh (next_node b) (nodes (m_sentList b) ++ nodes (m_appList b))
}.

(** Between operations, the first item is not sacked. *)
Record tx_inv (stream : Z → Z) (una : Z) (b : TcpTxBuffer) : Prop := {
  ti_core :> tx_core stream una b;
  ti_head : ∀ i, head (m_sentList b) = Some i → m_sacked i = false;
  ti_highest : sack_ok una (m_sentList b) (m_highestSack b)
}.

Section invariant.
Context (stream : Z → Z).
Implicit Types b : TcpTxBuffer.

Lemma ti_bounds una b : tx_core stream una b → 0 ≤ m_sentSize b ≤ m_size b ∧ m_size b ≤ 2 ^ 30.
Proof.
  intros []. pose proof (size_nonneg (m_sentList b)). pose proof (size_nonneg (m_appList b)). lia.
Qed.

(** Sacked and lost bytes are counted once each. *)
Lemma ti_leftout una b : tx_core stream una b → 0 ≤ m_sackedOut b + m_lostOut b ≤ m_sentSize b.
Proof.
  intros I. pose proof (tot_nonneg m_sacked (m_sentList b)). pose proof (tot_nonneg m_lost (m_sentList b)).
  pose proof (tot_add _ _ _ (ti_disjoint _ _ _ I)). destruct I. lia.
Qed.

Lemma TailSequence_ok una b : tx_core stream una b → TailSequence b = u32 (una + m_size b).
Proof. intros I. unfold TailSequence. rewrite (ti_una _ _ _ I). apply seq_add_u32. Qed.

(** How much data there is from a position on. *)
Lemma SizeFromSequence_ok una b q :
  tx_core stream una b → una - 2 ^ 29 ≤ q ≤ una + 2 ^ 30 → SizeFromSequence (u32 q) b = Ok (Z.max 0 (una + m_size b - q)).
Proof.
  intros I Hq. pose proof (ti_bounds _ _ I). unfold SizeFromSequence. rewrite (TailSequence_ok _ _ I).
  rewrite (close_ge una) by (unfold close; lia). destruct (Z.leb_spec q (una + m_size b)).
  - rewrite (seq_sub_spec 32) by lia. res_simpl. rewrite (wrap_id 32) by zlia. f_equal. lia.
  - f_equal. lia.
Qed.

Lemma TcpTxBuffer_new_ok una max :
  0 ≤ max ≤ 2 ^ 30 → tx_inv stream una (SetMaxBufferSize max (TcpTxBuffer_new (u32 una))).
Proof.
  intros. split; [|done|by left]. constructor; cbn -[wrap]; try done. by split; constructor.
Qed.

(** ** Adding data *)

Lemma tx_Add_ok una b k :
  tx_inv stream una b → 0 ≤ k < 2 ^ 32 →
  let e := una + m_size b in
  ∃ b', Add (bytes stream e (e + k)) b = (bool_decide (m_size b + k ≤ m_maxBuffer b), b') ∧
    tx_inv stream una b' ∧ m_sentList b' = m_sentList b ∧ m_sentSize b' = m_sentSize b ∧
    m_size b' = (if decide (m_size b + k ≤ m_maxBuffer b) then m_size b + k else m_size b) ∧ m_maxBuffer b' = m_maxBuffer b ∧
    m_sackEnabled b' = m_sackEnabled b.
Proof.
  intros I Hk e. pose proof (ti_bounds _ _ I). pose proof (ti_max _ _ _ I).
  unfold Add, Available. rewrite tsize_bytes by lia. replace (e + k - e) with k by lia. rewrite (wrap_id 32) by zlia.
  destruct (Z.leb_spec k (m_maxBuffer b - m_size b)).
  2: { exists b. rewrite bool_decide_false, decide_False by lia. by conj. }
  rewrite bool_decide_true, decide_True by lia. destruct (Z.ltb_spec 0 k).
  2: { exists b. assert (k = 0) as -> by lia. rewrite Z.add_0_r. by conj. }
  eexists. split; [done|]. assert (isize (TcpTxItem_new (next_node b) (bytes stream e (e + k))) = k) as Hi.
  { unfold isize. cbn [m_packet TcpTxItem_new]. rewrite tsize_bytes by lia. lia. }
  txs. rewrite (wrap_id 32) by zlia. conj; try done. destruct I as [I ? ?]. split; [|done|done].
  destruct I. constructor; txs; try done; sums; try rewrite Hi.
  - apply laid_app. split; [done|]. cbn [laid]. rewrite Hi. conj; [done| |done|done].
    replace (una + m_sentSize b + size_of (m_appList b)) with e by lia. done.
  - replace (size_of []) with 0 by done. lia.
  - lia.
  - apply Forall_app. split; [done|]. by repeat constructor.
  - unfold nodes. rewrite fmap_app, app_assoc. cbn [fmap list_fmap it_node TcpTxItem_new].
    apply (fresh_perm _ (next_node b :: nodes (m_sentList b) ++ nodes (m_appList b))); [apply Permutation_cons_append|].
    destruct ti_nodes0 as [Hnd Hlt]. split.
    + constructor; [|done]. rewrite Forall_forall in Hlt. intros Hin. specialize (Hlt _ Hin). lia.
    + constructor; [lia|]. eapply Forall_impl; [exact Hlt|]. cbn. lia.
Qed.

(** ** Copying data that was not sent *)

Lemma update_item_at x y l1 l2 :
  NoDup (nodes (l1 ++ x :: l2)) → it_node y = it_node x → update_item y (l1 ++ x :: l2) = l1 ++ y :: l2.
Proof.
  unfold update_item, nodes. intros Hnd Hy. rewrite fmap_app, fmap_cons in Hnd. rewrite fmap_app, fmap_cons.
  apply NoDup_app in Hnd as (_ & Hd & Hnd). apply NoDup_cons in Hnd as [Hx _].
  assert (∀ l : list TcpTxItem, it_node x ∉ it_node <$> l → (λ z, if (it_node z =? it_node y)%nat then y else z) <$> l = l) as Hid.
  { clear -Hy. intros l Hx. induction l as [|z l IH]; [done|]. apply not_elem_of_cons in Hx as [Hz Hx]. rewrite fmap_cons.
    rewrite IH by done. destruct (Nat.eqb_spec (it_node z) (it_node y)); [congruence|done]. }
  rewrite !Hid; [|done|].
  - rewrite Hy, Nat.eqb_refl. done.
  - intros Hin. apply (Hd _ Hin). by left.
Qed.

(** The highest sacked item stays where the items keep identity, size and selective
    acknowledgment. *)
Definition same_place (i j : TcpTxItem) : Prop :=
  it_node j = it_node i ∧ isize j = isize i ∧ (m_sacked i = true → m_sacked j = true).

Lemma size_same_place l l' : Forall2 same_place l l' → size_of l' = size_of l.
Proof. induction 1 as [|i j l l' (_ & Hs & _) _ IH]; sums; [done|lia]. Qed.

Lemma sack_ok_mono una l l' h : Forall2 same_place l l' → sack_ok una l h → sack_ok una l' h.
Proof.
  intros HF [->|(l1 & i & l2 & -> & Hs & ->)]; [by left|]. right.
  apply Forall2_app_inv_l in HF as (l1' & r & H1 & Hr & ->). apply Forall2_cons_inv_l in Hr as (j & l2' & (Hn & Hz & Hk) & H2 & ->).
  exists l1', j, l2'. rewrite Hn, (size_same_place _ _ H1). by auto.
Qed.

Lemma same_place_refl l : Forall2 same_place l l.
Proof. induction l; constructor; done. Qed.

(** Assigning to an item what is not on the scoreboard. *)
Lemma tx_core_lastSent una b l1 x l2 now :
  tx_core stream una b → m_sentList b = l1 ++ x :: l2 →
  tx_core stream una (set_sentList (l1 ++ set_lastSent now x :: l2) b).
Proof.
  intros [] E. rewrite E in *. assert (isize (set_lastSent now x) = isize x) as Hi by done.
  constructor; txs; try done; sums; rewrite ?Hi; try done.
  - apply laid_app in ti_sent0 as [? ?]. by apply laid_app.
  - rewrite Forall_app, Forall_cons in *. done.
  - unfold nodes in *. rewrite fmap_app, fmap_cons in *. done.
Qed.

Lemma laid_size_0 sent p l : laid stream sent p l → size_of l = 0 → l = [].
Proof. intros Hl Hs. by destruct (laid_pos _ _ _ _ Hl); [|lia]. Qed.

Lemma sack_ok_app una l l' h : sack_ok una l h → sack_ok una (l ++ l') h.
Proof.
  intros [?|(l1 & i & l2 & -> & Hs & ->)]; [by left|]. right. exists l1, i, (l2 ++ l'). by rewrite <- app_assoc.
Qed.

(** What is the same in a buffer whose data was copied. *)
Definition same_params (b b' : TcpTxBuffer) : Prop :=
  m_maxBuffer b' = m_maxBuffer b ∧ m_dupAckThresh b' = m_dupAckThresh b ∧ m_segmentSize b' = m_segmentSize b ∧
  m_renoSack b' = m_renoSack b ∧ m_sackEnabled b' = m_sackEnabled b ∧ m_size b' = m_size b ∧
  m_sackedOut b' = m_sackedOut b ∧ m_lostOut b' = m_lostOut b ∧ m_highestSack b' = m_highestSack b.

Lemma GetNewSegment_ok una b n :
  tx_core stream una b → 0 < n ≤ m_size b - m_sentSize b →
  let q := una + m_sentSize b in
  ∃ x b', GetNewSegment n b = Ok (x, b') ∧ tx_core stream una b' ∧ m_sentList b' = m_sentList b ++ [x] ∧
    m_packet x = bytes stream q (q + n) ∧ m_startSeq x = u32 q ∧ flagged false false x ∧ m_retrans x = false ∧
    m_sentSize b' = m_sentSize b + n ∧ same_params b b'.
Proof.
  intros I Hn q. pose proof (ti_bounds _ _ I). pose proof (ti_size _ _ _ I) as Hsize.
  unfold GetNewSegment. rewrite (ti_una _ _ _ I), !seq_add_u32. fold q.
  assert (Forall (flagged false false) (m_appList b)) as Hflags
    by (eapply Forall_impl; [apply I|]; by intros i [? _]).
  assert (Forall (λ i, m_retrans i = false) (m_appList b)) as Hold
    by (eapply Forall_impl; [apply I|]; by intros i [_ ?]).
  pose proof (size_nonneg []) as _. assert (size_of [] = 0) as Hnil by done.
  destruct (GetPacketFromList_ok stream false una n q q (m_retransOut b) (next_node b) [] (m_appList b) [] false false)
    as (x & m1 & m2 & r' & node' & Hget & Hx & Hm1 & Hrc); try (rewrite ?Hnil; lia); try done.
  { cbn [app]. rewrite app_nil_r. apply I. }
  cbn [app] in Hget. rewrite !app_nil_r in Hget. rewrite Hnil, Z.add_0_r in Hm1, Hrc. rewrite Hget. res_simpl. txs.
  pose proof (rc_laid _ _ _ _ _ _ _ _ _ _ _ Hrc (ti_app _ _ _ I)) as Hlaid.
  assert (m1 = []) as ->. { apply laid_app in Hlaid as [Hlaid _]. eapply laid_size_0; [exact Hlaid|lia]. }
  cbn [app] in *. cbn [erase_first it_node set_startSeq]. rewrite Nat.eqb_refl. cbn [laid] in Hlaid.
  destruct Hlaid as [(_ & Hpkt & _) Hlaid]. rewrite Hx in Hpkt, Hlaid.
  pose proof (rc_size _ _ _ _ _ _ _ _ _ _ _ Hrc) as Hsz. sums.
  pose proof (rc_flags _ _ _ _ _ _ _ _ _ _ _ Hrc Hflags) as Hfl. apply Forall_cons in Hfl as [[Hfx1 Hfx2] Hfl].
  pose proof (rc_new _ _ _ _ _ _ _ _ _ _ _ Hrc Hold) as Hnew. apply Forall_cons in Hnew as [Hrx Hnew].
  assert (r' = m_retransOut b) as ->.
  { pose proof (rc_retrans _ _ _ _ _ _ _ _ _ _ _ Hrc (m_retransOut b)) as Hr. rewrite (tot_none m_retrans) in Hr by done.
    rewrite (tot_cons m_retrans), Hrx, (tot_none m_retrans m2) in Hr by done.
    pose proof (tot_nonneg m_retrans (m_sentList b)). pose proof (tot_le_size m_retrans (m_sentList b)).
    pose proof (ti_retrans _ _ _ I). pose proof (ti_sentSize _ _ _ I). lia. }
  set (x' := set_startSeq (u32 q) x) in *. assert (isize x' = n) as Hx' by exact Hx.
  rewrite Hx', (wrap_id 32) by zlia. eexists x', _. conj; [done| |done|exact Hpkt|done|done|done|done|done].
  destruct I. constructor; txs; try done; sums; rewrite ?Hx', ?Hnil; try lia.
  - apply laid_app. split; [done|]. cbn [laid]. rewrite Hx'. rewrite <- ti_sentSize0. split; [conj; [lia|exact Hpkt|done]|done].
  - by rewrite Z.add_assoc.
  - cbn [x' m_sacked set_startSeq]. rewrite Hfx1. cbn. lia.
  - cbn [x' m_lost set_startSeq]. rewrite Hfx2. cbn. lia.
  - cbn [x' m_retrans set_startSeq]. rewrite Hrx. cbn. lia.
  - apply Forall_app. split; [done|]. constructor; [|done]. cbn [x' m_sacked set_startSeq]. by rewrite Hfx1.
  - apply Forall_forall. intros i Hi. rewrite Forall_forall in Hfl, Hnew. split; auto.
  - eapply fresh_perm; [|apply (rc_nodes _ _ _ _ _ _ _ _ _ _ _ Hrc (nodes (m_sentList b))); eapply fresh_perm; [|exact ti_nodes0]].
    + unfold nodes. rewrite fmap_app. cbn. solve_Permutation.
    + solve_Permutation.
Qed.

(** ** Copying data that was sent *)

(** A retransmission takes at most the item and the next one, where their flags agree. *)
Definition retransmit_limit (i : TcpTxItem) (post : list TcpTxItem) : Z :=
  match post with
  | j :: _ => if negb (m_sacked j) && Bool.eqb (m_lost i) (m_lost j) then isize i + isize j else isize i
  | [] => isize i
  end.

Lemma retransmit_size_ok una p n pre i post :
  laid stream true p (pre ++ i :: post) → una ≤ p → p + size_of (pre ++ i :: post) ≤ una + 2 ^ 30 →
  retransmit_size n (u32 (p + size_of pre)) (pre ++ i :: post) = Z.min n (retransmit_limit i post).
Proof.
  revert p. induction pre as [|h pre IH]; intros p Hl Hp Hmax; cbn [app] in *; cbn [laid] in Hl; cbn [retransmit_size].
  - destruct Hl as [(Hi & _ & Hs) Hl]. assert (size_of [] = 0) as -> by done. rewrite Z.add_0_r, (Hs eq_refl).
    unfold seq_eq. rewrite Z.eqb_refl. destruct post as [|j post]; [done|]. cbn [laid] in Hl. destruct Hl as [(Hj & _) Hl].
    pose proof (size_nonneg post). sums. cbn [retransmit_limit]. case_match; [|done]. by rewrite (wrap_id 32) by zlia.
  - destruct Hl as [(Hh & _ & Hs) Hl]. pose proof (size_nonneg pre). pose proof (size_nonneg (i :: post)). sums.
    rewrite (Hs eq_refl), (close_eq una) by (unfold close; lia). rewrite (proj2 (Z.eqb_neq _ _)) by lia.
    rewrite Z.add_assoc. apply IH; [done|lia|sums; lia].
Qed.

(** The items a retransmission may join. *)
Lemma retransmit_items i post :
  m_sacked i = false →
  ∃ mid post', post = mid ++ post' ∧ Forall (flagged false (m_lost i)) (i :: mid) ∧ size_of (i :: mid) = retransmit_limit i post.
Proof.
  intros Hi. destruct post as [|j post]; cbn [retransmit_limit].
  { exists [], []. unfold size_of. cbn. conj; [done|by repeat constructor|lia]. }
  destruct (negb (m_sacked j) && Bool.eqb (m_lost i) (m_lost j)) eqn:Hj.
  - apply andb_true_iff in Hj as [Hj1%negb_true_iff Hj2%Bool.eqb_prop].
    exists [j], post. unfold size_of. cbn. conj; [done| |lia]. unfold flagged. by repeat constructor.
  - exists [], (j :: post). unfold size_of. cbn. conj; [done|by repeat constructor|lia].
Qed.

(** An item of a list that is cut elsewhere. *)
Lemma sack_ok_recut una pre mid mid' post h :
  size_of mid' = size_of mid → Forall (λ i, m_sacked i = false) mid →
  sack_ok una (pre ++ mid ++ post) h → sack_ok una (pre ++ mid' ++ post) h.
Proof.
  intros Hs Hm [?|(l1 & i & l2 & Hl & Hi & ->)]; [by left|]. right.
  apply app_eq_app in Hl as (k & [[-> Hk]|[-> Hk]]).
  - destruct k as [|i' k].
    + cbn in Hk. destruct mid as [|m mid]; cbn in Hk.
      * exists (l1 ++ mid'), i, l2. rewrite app_nil_r, <- app_assoc, size_app, Hs. cbn in *. rewrite <- Hk.
        by rewrite Z.add_0_r.
      * apply Forall_cons in Hm as [Hm _]. congruence.
    + cbn in Hk. injection Hk as <- ->. exists l1, i, (k ++ mid' ++ post). by rewrite <- app_assoc.
  - apply app_eq_app in Hk as (k' & [[-> Hk]|[-> Hk]]).
    + destruct k' as [|i' k'].
      * cbn in Hk. exists (pre ++ mid'), i, l2. rewrite app_nil_r in *. sums. subst post. rewrite <- app_assoc, Hs. done.
      * cbn in Hk. injection Hk as <- ->. exfalso. rewrite Forall_app, Forall_cons in Hm. destruct Hm as (_ & Hm & _). congruence.
    + exists (pre ++ mid' ++ k'), i, l2. rewrite <- !app_assoc. subst post. sums. rewrite Hs. done.
Qed.

(** A sum over items whose flags are all the same does not see how they are cut. *)
Lemma tot_flagged sk lo (f : TcpTxItem → bool) l l' :
  (∀ i j, m_sacked i = m_sacked j → m_lost i = m_lost j → f i = f j) →
  Forall (flagged sk lo) l → Forall (flagged sk lo) l' → size_of l' = size_of l → tot f l' = tot f l.
Proof.
  intros Hf Hl Hl' Hs. destruct l as [|i l].
  { pose proof (tot_le_size f l'). pose proof (tot_nonneg f l'). unfold size_of in *. cbn in *. lia. }
  pose proof Hl as [Hi _]%Forall_cons.
  assert (∀ k, Forall (flagged sk lo) k → tot f k = if f i then size_of k else 0) as Hall.
  { clear -Hf Hi. destruct Hi as [Hi1 Hi2]. induction 1 as [|j k [Hj1 Hj2] _ IH]; [by destruct (f i)|].
    sums. rewrite IH, (Hf j i) by congruence. by destruct (f i). }
  rewrite !Hall by done. by rewrite Hs.
Qed.

(** The items of a retransmission are replaced by new cuts of them, of which the first is
    marked retransmitted. *)
Definition retransmitted (x : TcpTxItem) : TcpTxItem := set_flags (m_lost x) (m_sacked x) true x.

Section retransmit.
Context (una : Z) (b : TcpTxBuffer) (pre mid post m2 : list TcpTxItem) (x : TcpTxItem) (lo : bool) (r' : Z) (node' : nat)
  (I : tx_inv stream una b) (El : m_sentList b = pre ++ mid ++ post) (Hmid : Forall (flagged false lo) mid)
  (Hrc : recut stream true (una + size_of pre) false lo mid (x :: m2) (m_retransOut b) r' (next_node b) node').

Lemma retransmit_fresh : fresh node' (nodes (pre ++ (x :: m2) ++ post) ++ nodes (m_appList b)).
Proof using I El Hrc.
  eapply fresh_perm; [|apply (rc_nodes _ _ _ _ _ _ _ _ _ _ _ Hrc (nodes pre ++ nodes post ++ nodes (m_appList b)));
    eapply fresh_perm; [|exact (ti_nodes _ _ _ I)]]; rewrite ?El; unfold nodes; rewrite ?fmap_app; solve_Permutation.
Qed.

Lemma retransmit_count :
  (if negb (m_retrans x) then (retransmitted x, u32 (r' + isize x)) else (x, r')) =
  (retransmitted x, tot m_retrans (pre ++ (retransmitted x :: m2) ++ post)).
Proof using I El Hrc.
  pose proof (ti_bounds _ _ I). pose proof (ti_sentSize _ _ _ I) as Hsz. rewrite El in Hsz. sums.
  pose proof (rc_size _ _ _ _ _ _ _ _ _ _ _ Hrc) as Hs. sums.
  pose proof (tot_nonneg m_retrans m2). pose proof (tot_nonneg m_retrans pre). pose proof (tot_nonneg m_retrans post).
  pose proof (tot_le_size m_retrans m2). pose proof (tot_le_size m_retrans pre). pose proof (tot_le_size m_retrans post).
  pose proof (isize_nonneg x).
  assert (r' = tot m_retrans pre + tot m_retrans post + tot m_retrans (x :: m2)) as Hr.
  { apply (rc_retrans _ _ _ _ _ _ _ _ _ _ _ Hrc); [lia|sums; lia|]. rewrite (ti_retrans _ _ _ I), El. sums. lia. }
  sums. change (isize (retransmitted x)) with (isize x). cbn [retransmitted m_retrans set_flags].
  destruct (m_retrans x) eqn:Hrx; cbn [negb].
  - f_equal; [|lia]. unfold retransmitted. destruct x; cbn in *. by subst.
  - f_equal. rewrite (wrap_id 32) by zlia. lia.
Qed.

Lemma retransmit_inv :
  let l := pre ++ (retransmitted x :: m2) ++ post in
  let b' := set_lists (m_appList b) l node' (set_counts (m_lostOut b) (m_sackedOut b) (tot m_retrans l) b) in
  tx_inv stream una b' ∧ (∀ y, sacked_byte una l y → sacked_byte una (m_sentList b) y).
Proof using I El Hmid Hrc.
  intros l b'. set (x' := retransmitted x) in *.
  pose proof (rc_size _ _ _ _ _ _ _ _ _ _ _ Hrc) as Hsize. pose proof (rc_flags _ _ _ _ _ _ _ _ _ _ _ Hrc Hmid) as Hfl.
  assert (Forall (flagged false lo) (x' :: m2)) as Hfl' by (apply Forall_cons in Hfl as [? ?]; by constructor).
  assert (size_of (x' :: m2) = size_of mid) as Hsize' by done.
  assert (Forall (λ i, m_sacked i = false) mid) as Hns by (eapply Forall_impl; [exact Hmid|]; by intros j [? _]).
  assert (Forall (λ i, m_sacked i = false) (x' :: m2)) as Hns' by (eapply Forall_impl; [exact Hfl'|]; by intros j [? _]).
  pose proof (ti_sent _ _ _ I) as Hlaid. rewrite El in Hlaid. pose proof (recut_laid _ _ _ _ _ _ _ _ _ _ _ _ _ Hlaid Hrc) as Hlaid2.
  split.
  2: { intros y. unfold l. rewrite El, !sacked_byte_app, Hsize'. intros [?|[Hy|?]]; [by left| |by right; right].
       by apply sacked_byte_none in Hy. }
  pose proof I as I'. destruct I' as [[] Hhd Hhi]. unfold b', l. split; [constructor|..]; txs; try done.
  - apply laid_app in Hlaid2 as [Ha Hb]. apply laid_app. split; [done|exact Hb].
  - rewrite ti_sentSize0, El. rewrite !size_app, Hsize'. done.
  - rewrite ti_sacked0, El. rewrite !tot_app, (tot_flagged false lo m_sacked mid (x' :: m2)) by auto. done.
  - rewrite ti_lost0, El. rewrite !tot_app, (tot_flagged false lo m_lost mid (x' :: m2)) by auto. done.
  - rewrite El in ti_disjoint0. apply Forall_app in ti_disjoint0 as [? Hd]. apply Forall_app in Hd as [_ ?].
    apply Forall_app. split; [done|]. apply (Forall_app _ (x' :: m2)). split; [|done].
    eapply Forall_impl; [exact Hns'|]. by intros j ->.
  - pose proof retransmit_fresh as Hf. unfold nodes in *. rewrite !fmap_app, !fmap_cons in *. exact Hf.
  - rewrite El in Hhd. intros j Hj. destruct pre; [|exact (Hhd j Hj)]. injection Hj as <-. by apply Forall_cons in Hns' as [? _].
  - rewrite El in Hhi. by apply (sack_ok_recut una pre mid (x' :: m2) post).
Qed.
End retransmit.

Lemma retransmit_limit_le i post : 0 < isize i → isize i ≤ retransmit_limit i post ≤ size_of (i :: post).
Proof.
  intros Hi. sums. destruct post as [|j post]; cbn [retransmit_limit]; sums; [unfold size_of; cbn; lia|].
  pose proof (isize_nonneg j). pose proof (size_nonneg post). case_match; lia.
Qed.

Lemma GetTransmittedSegment_ok una b n pre i post :
  tx_inv stream una b → m_sentList b = pre ++ i :: post → m_sacked i = false → 0 < n ≤ size_of (i :: post) →
  let q := una + size_of pre in
  let k := Z.min n (retransmit_limit i post) in
  ∃ y rest b', let x := retransmitted y in GetTransmittedSegment n (u32 q) b = Ok (x, b') ∧ tx_inv stream una b' ∧ m_sentList b' = pre ++ x :: rest ∧
    gather k (next_node b) i post = y :: rest ∧ isize x = k ∧ flagged false (m_lost i) x ∧ m_retrans x = true ∧
    m_sentSize b' = m_sentSize b ∧ m_appList b' = m_appList b ∧ same_params b b' ∧
    (∀ y, sacked_byte una (m_sentList b') y → sacked_byte una (m_sentList b) y).
Proof.
  intros I El Hi Hn q k. pose proof (ti_bounds _ _ I). pose proof (ti_sentSize _ _ _ I) as Hsz. rewrite El in Hsz.
  pose proof (ti_sent _ _ _ I) as Hlaid. rewrite El in Hlaid.
  assert (0 < isize i) as Hpos by (apply laid_app in Hlaid as [_ [[? _] _]]; done).
  pose proof (retransmit_limit_le i post Hpos). pose proof (size_nonneg pre). pose proof (size_nonneg post). rewrite size_app in Hsz.
  unfold GetTransmittedSegment. rewrite (ti_una _ _ _ I), (close_ge una) by (unfold close; lia).
  rewrite (proj2 (Z.leb_le una q)), (proj2 (Z.leb_le n _)) by lia. rewrite El. rewrite bool_decide_false by (by destruct pre).
  cbn [negb]. res_simpl. pose proof (retransmit_size_ok una una n pre i post Hlaid) as Hrs. fold q in Hrs.
  rewrite Hrs by (first [done | lia | rewrite size_app; lia]). clear Hrs. fold k.
  destruct (retransmit_items i post Hi) as (mid & post' & -> & Hmid & Hlim).
  assert (size_of (i :: mid ++ post') = size_of (i :: mid) + size_of post') as Hsz' by apply (size_app (i :: mid)).
  pose proof (size_nonneg post'). change (i :: mid ++ post') with ((i :: mid) ++ post') in El, Hlaid |- *.
  destruct (found_at stream true una k q una (m_retransOut b) (next_node b) pre i mid post' false (m_lost i) (walk_fuel (pre ++ (i :: mid) ++ post')))
    as (x & m2 & r' & node' & Hget & Hx & Hrc & Hga); try done; try lia.
  { unfold walk_fuel. rewrite !length_app. cbn. lia. }
  rewrite Hget. res_simpl. txs. fold (retransmitted x).
  rewrite (retransmit_count una b pre (i :: mid) post' m2 x (m_lost i) r' node' I El Hrc).
  pose proof (retransmit_fresh una b pre (i :: mid) post' m2 x (m_lost i) r' node' I El Hrc) as [[Hnd _]%NoDup_app _].
  change ((x :: m2) ++ post') with (x :: m2 ++ post') in Hnd |- *. rewrite (update_item_at x (retransmitted x)) by done.
  destruct (retransmit_inv una b pre (i :: mid) post' m2 x (m_lost i) r' node' I El Hmid Hrc) as [I' Hsb].
  pose proof (rc_flags _ _ _ _ _ _ _ _ _ _ _ Hrc Hmid) as [Hfx _]%Forall_cons.
  eexists x, (m2 ++ post'), _. conj; [done|exact I'|done| |exact Hx|exact Hfx|done|done|done|done|].
  - rewrite gather_app, Hga by lia. done.
  - rewrite <- El. exact Hsb.
Qed.

(** ** [CopyFromSequence] *)

(** The last steps: the time of the item is set. *)
Lemma return_item_ok una b l1 x l2 now :
  tx_core stream una b → m_sentList b = l1 ++ x :: l2 →
  let x' := set_lastSent now x in
  sge (m_startSeq x') (m_firstByteSeq b) = true ∧ update_item x' (m_sentList b) = l1 ++ x' :: l2 ∧
  m_startSeq x = u32 (una + size_of l1) ∧
  m_packet x = bytes stream (una + size_of l1) (una + size_of l1 + isize x) ∧
  tx_core stream una (set_sentList (l1 ++ x' :: l2) b).
Proof.
  intros I E x'. pose proof (ti_sent _ _ _ I) as Hl. rewrite E in Hl. apply laid_app in Hl as [_ [(Hx & Hb & Hs) _]].
  pose proof (ti_bounds _ _ I). pose proof (ti_sentSize _ _ _ I) as Hsz. rewrite E in Hsz.
  pose proof (size_nonneg l1). pose proof (size_nonneg l2). sums.
  change (m_startSeq x') with (m_startSeq x). rewrite (Hs eq_refl), (ti_una _ _ _ I), (close_ge una) by (unfold close; lia).
  conj; [apply Z.leb_le; lia| |done|done|by apply tx_core_lastSent].
  rewrite E. apply update_item_at; [|done]. pose proof (ti_nodes _ _ _ I) as [Hnd _]. rewrite E in Hnd.
  by apply NoDup_app in Hnd as [? _].
Qed.

(** What a copy returns and leaves. *)
Record copied (una q now k : Z) (lost retrans : bool) (pre : list TcpTxItem) (b b' : TcpTxBuffer) (x : TcpTxItem) : Prop := {
  co_inv : tx_core stream una b';
  co_bytes : m_packet x = bytes stream q (q + k);
  co_seq : m_startSeq x = u32 q;
  co_flags : flagged false lost x ∧ m_retrans x = retrans ∧ m_lastSent x = now;
  co_sent : ∃ rest, m_sentList b' = pre ++ x :: rest;
  co_params : same_params b b'
}.

Lemma Copy_new_core una b n now fuel :
  tx_core stream una b → 0 ≤ n →
  let q := una + m_sentSize b in
  let s := Z.min n (m_size b - m_sentSize b) in
  if decide (s = 0) then CopyFromSequence (S fuel) now n (u32 q) b = Ok (None, b)
  else ∃ x b', CopyFromSequence (S fuel) now n (u32 q) b = Ok (Some x, b') ∧
    copied una q now s false false (m_sentList b) b b' x ∧ m_sentList b' = m_sentList b ++ [x] ∧
    m_sentSize b' = m_sentSize b + s.
Proof.
  intros I Hn q s. pose proof (ti_bounds _ _ I). cbn [CopyFromSequence].
  rewrite (ti_una _ _ _ I), (close_gt una) by (unfold close; lia). rewrite (proj2 (Z.ltb_ge q una)) by lia. res_simpl.
  rewrite (SizeFromSequence_ok una b q I) by lia. res_simpl.
  replace (Z.min n (Z.max 0 (una + m_size b - q))) with s by lia.
  case_decide as Hs0; [by rewrite Hs0|]. rewrite (proj2 (Z.eqb_neq _ _)) by done.
  rewrite !seq_add_u32. fold q. rewrite (close_ge una), (close_le una), (close_eq una) by (unfold close; lia).
  rewrite (proj2 (Z.leb_gt _ _)), Z.leb_refl, Z.eqb_refl by lia. res_simpl.
  destruct (GetNewSegment_ok una b s I) as (x & b' & -> & I' & Hsent & Hpkt & Hseq & Hfl & Hr & Hsz & Hpar); [lia|].
  res_simpl. cbn [fst snd]. rewrite Hr. cbn [negb]. res_simpl.
  destruct (return_item_ok una b' (m_sentList b) x [] now I' Hsent) as (-> & -> & _ & _ & I2). res_simpl.
  eexists _, _. conj; [done| |done|done]. constructor; [exact I2|exact Hpkt|exact Hseq|by destruct Hfl|by exists []|exact Hpar].
Qed.

(** With the invariant between operations. *)
Lemma Copy_new_ok una b n now fuel :
  tx_inv stream una b → 0 ≤ n →
  let q := una + m_sentSize b in
  let s := Z.min n (m_size b - m_sentSize b) in
  if decide (s = 0) then CopyFromSequence (S fuel) now n (u32 q) b = Ok (None, b)
  else ∃ x b', CopyFromSequence (S fuel) now n (u32 q) b = Ok (Some x, b') ∧ tx_inv stream una b' ∧
    copied una q now s false false (m_sentList b) b b' x ∧ m_sentList b' = m_sentList b ++ [x] ∧
    m_sentSize b' = m_sentSize b + s.
Proof.
  intros I Hn q s. pose proof (Copy_new_core una b n now fuel I Hn) as H. cbv zeta in H. fold q s in H. destruct (decide (s = 0)); [done|].
  destruct H as (x & b' & Hc & Hco & Hl & Hs). exists x, b'. conj; try done. split; [apply Hco| |].
  - intros i Hi. rewrite Hl in Hi. destruct (m_sentList b) as [|y l] eqn:El.
    + injection Hi as <-. apply (co_flags _ _ _ _ _ _ _ _ _ _ Hco).
    + eapply ti_head; [exact I|]. rewrite El. done.
  - rewrite Hl. destruct (co_params _ _ _ _ _ _ _ _ _ _ Hco) as (_ & _ & _ & _ & _ & _ & _ & _ & ->).
    apply sack_ok_app, I.
Qed.

(** The items sent after the [k] bytes from [i] on were sent again as the item [x]. *)
Definition resent (now k : Z) (pre : list TcpTxItem) (i : TcpTxItem) (post : list TcpTxItem) (b b' : TcpTxBuffer) (x : TcpTxItem) : Prop :=
  ∃ y rest, gather k (next_node b) i post = y :: rest ∧ x = set_lastSent now (retransmitted y) ∧ m_sentList b' = pre ++ x :: rest.

Lemma Copy_sent_ok una b n now fuel pre i post :
  tx_inv stream una b → m_sentList b = pre ++ i :: post → m_sacked i = false → 0 < n →
  let q := una + size_of pre in
  let s := Z.min n (m_size b - size_of pre) in
  s ≤ size_of (i :: post) →
  ∃ x b', CopyFromSequence (S fuel) now n (u32 q) b = Ok (Some x, b') ∧
    tx_inv stream una b' ∧
    copied una q now (Z.min s (retransmit_limit i post)) (m_lost i) true pre b b' x ∧ m_sentSize b' = m_sentSize b ∧
    m_appList b' = m_appList b ∧ (∀ y, sacked_byte una (m_sentList b') y → sacked_byte una (m_sentList b) y) ∧
    resent now (Z.min s (retransmit_limit i post)) pre i post b b' x.
Proof.
  intros I El Hi Hn q s Hs. pose proof (ti_bounds _ _ I). pose proof (ti_sentSize _ _ _ I) as Hsz. rewrite El in Hsz.
  assert (0 < isize i) as Hpos.
  { pose proof (ti_sent _ _ _ I) as Hl. rewrite El in Hl. by apply laid_app in Hl as [_ [[? _] _]]. }
  pose proof (size_nonneg pre). pose proof (size_nonneg post). sums. cbn [CopyFromSequence].
  rewrite (ti_una _ _ _ I), (close_gt una) by (unfold close; lia). rewrite (proj2 (Z.ltb_ge q una)) by lia. res_simpl.
  rewrite (SizeFromSequence_ok una b q I) by lia. res_simpl.
  replace (Z.min n (Z.max 0 (una + m_size b - q))) with s by lia.
  rewrite (proj2 (Z.eqb_neq _ _)) by lia. rewrite !seq_add_u32. rewrite (close_ge una) by (unfold close; lia).
  rewrite (proj2 (Z.leb_le _ _)) by lia.
  destruct (GetTransmittedSegment_ok una b s pre i post I El Hi ltac:(sums; lia))
    as (y & rest & b' & Hget & I' & Hsent & Hga & Hx & [Hfx1 Hfx2] & Hr & Hsz' & Happ & Hpar & Hsb).
  fold q in Hget. set (x := retransmitted y) in *. rewrite Hget. res_simpl. cbn [fst snd]. rewrite Hfx1. cbn [negb]. res_simpl.
  destruct (return_item_ok una b' pre x rest now I' Hsent) as (-> & -> & Hseq & Hb & I2). res_simpl.
  eexists _, _. conj; [done| | |done|done| |by exists y, rest].
  3: { txs. intros p Hy. apply Hsb. rewrite Hsent. eapply sacked_byte_mono; [|exact Hy].
    apply Forall2_app; [apply fewer_sacks_refl|]. constructor; [done|apply fewer_sacks_refl]. }
  { split; [done|..]; txs; destruct I' as [_ Hh Hk]; rewrite Hsent in *.
    - intros j Hj. destruct pre; [injection Hj as <-; exact Hfx1|exact (Hh j Hj)].
    - eapply sack_ok_mono; [|done]. apply Forall2_app; [apply same_place_refl|]. constructor; [done|apply same_place_refl]. }
  constructor; [exact I2|by rewrite <- Hx|exact Hseq|done|by exists rest|exact Hpar].
Qed.

(** A request past the data that was sent: the raw sequence numbers are compared. *)
Lemma Copy_partial_eq una b n now fuel pre i post :
  tx_inv stream una b → m_sentList b = pre ++ i :: post →
  let q := una + size_of pre in
  let s := Z.min n (m_size b - size_of pre) in
  let e := q + size_of (i :: post) in
  size_of (i :: post) < s →
  CopyFromSequence (S fuel) now n (u32 q) b =
  if (u32 q <? u32 e) && (u32 e <? u32 (u32 q + s)) then CopyFromSequence fuel now (u32 (u32 e - u32 q)) (u32 q) b
  else Err Undefined.
Proof.
  intros I El q s e Hs. pose proof (ti_bounds _ _ I). pose proof (ti_sentSize _ _ _ I) as Hsz. rewrite El in Hsz.
  assert (0 < isize i) as Hpos.
  { pose proof (ti_sent _ _ _ I) as Hl. rewrite El in Hl. by apply laid_app in Hl as [_ [[? _] _]]. }
  assert (size_of (i :: post) = isize i + size_of post) as Hcons by done.
  pose proof (size_nonneg pre). pose proof (size_nonneg post). rewrite size_app in Hsz. cbn [CopyFromSequence].
  assert (una + m_sentSize b = e) as He by lia.
  rewrite (ti_una _ _ _ I), (close_gt una) by (unfold close; lia). rewrite (proj2 (Z.ltb_ge q una)) by lia. res_simpl.
  rewrite (SizeFromSequence_ok una b q I) by lia. res_simpl.
  replace (Z.min n (Z.max 0 (una + m_size b - q))) with s by lia.
  rewrite (proj2 (Z.eqb_neq _ _)) by lia. rewrite !seq_add_u32. rewrite wrap_add_l by lia. rewrite He.
  rewrite (close_ge una), (close_le una) by (unfold close; lia). by rewrite !(proj2 (Z.leb_gt _ _)) by lia.
Qed.

(** [a + d] as a 32-bit number, for [a] one and a small [d]. *)
Lemma u32_add_cases a d :
  0 ≤ d < 2 ^ 32 → u32 (a + d) = u32 a + d ∧ u32 a + d < 2 ^ 32 ∨ u32 (a + d) = u32 a + d - 2 ^ 32 ∧ 2 ^ 32 ≤ u32 a + d.
Proof.
  intros Hd. pose proof (wrap_fits 32 ltac:(lia) a). rewrite <- (wrap_add_l 32 ltac:(lia) a d).
  destruct (Z.lt_ge_cases (u32 a + d) (2 ^ 32)); [left|right]; (split; [|done]).
  - apply wrap_id. zlia.
  - unfold wrap at 1. rewrite <- (Z.mod_add _ (-1)) by lia. rewrite Z.mod_small by zlia. lia.
Qed.

(** It is cut to what was sent, except where the sequence numbers wrap around in between. *)
Lemma Copy_partial_ok una b n now fuel pre i post :
  tx_inv stream una b → m_sentList b = pre ++ i :: post →
  let q := una + size_of pre in
  let s := Z.min n (m_size b - size_of pre) in
  size_of (i :: post) < s →
  CopyFromSequence (S fuel) now n (u32 q) b =
  if u32 q + s <? 2 ^ 32 then CopyFromSequence fuel now (size_of (i :: post)) (u32 q) b else Err Undefined.
Proof.
  intros I El q s Hs. pose proof (ti_bounds _ _ I). pose proof (size_nonneg pre).
  assert (0 < size_of (i :: post)) as Hpos.
  { pose proof (ti_sent _ _ _ I) as Hl. rewrite El in Hl. apply laid_app in Hl as [_ [[? _] _]]. sums.
    pose proof (size_nonneg post). lia. }
  pose proof (Copy_partial_eq una b n now fuel pre i post I El Hs) as Hp. cbv zeta in Hp. fold q in Hp. fold s in Hp.
  rewrite Hp, wrap_add_l by lia. clear Hp.
  destruct (u32_add_cases q (size_of (i :: post))) as [[He He']|[He He']], (u32_add_cases q s) as [[Hq Hq']|[Hq Hq']]; try lia; rewrite He, Hq.
  - rewrite !(proj2 (Z.ltb_lt _ _)) by lia. cbn [andb]. f_equal. rewrite wrap_id by zlia. lia.
  - rewrite (proj2 (Z.ltb_ge (u32 q + size_of (i :: post)) _)), andb_false_r, (proj2 (Z.ltb_ge (u32 q + s) _)) by lia. done.
  - rewrite (proj2 (Z.ltb_ge (u32 q) _)), (proj2 (Z.ltb_ge (u32 q + s) _)) by lia. done.
Qed.
End invariant.
