(* ===== verification/TcpTxDiscard.v ===== *)
(** * The transmission buffer: acknowledged data

    Changes of the scoreboard that leave the data alone, and [DiscardUpTo]: what is left is the
    data past the acknowledgment, with the counts of its items. *)

From S2P Require Import Prelude SequenceNumber TcpTxBuffer TcpRxCorrect TcpTxCorrect TcpTxInvariant.
Local Open Scope Z_scope.

(** ** Flags *)

(** The same item of data. *)
Definition same_data (i j : TcpTxItem) : Prop :=
  it_node j = it_node i ∧ m_packet j = m_packet i ∧ m_startSeq j = m_startSeq i.

Lemma same_data_refl l : Forall2 same_data l l.
Proof. induction l; by constructor. Qed.

(** New flags, with the counts they have. *)
Definition recount (l : list TcpTxItem) (b : TcpTxBuffer) : TcpTxBuffer :=
  set_sentList l (set_counts (tot m_lost l) (tot m_sacked l) (tot m_retrans l) b).

(** The operations that keep a buffer's parameters. *)
Definition same_config (b b' : TcpTxBuffer) : Prop :=
  m_maxBuffer b' = m_maxBuffer b ∧ m_dupAckThresh b' = m_dupAckThresh b ∧ m_segmentSize b' = m_segmentSize b ∧
  m_sackEnabled b' = m_sackEnabled b.

Lemma size_same_data l l' : Forall2 same_data l l' → size_of l' = size_of l.
Proof.
  induction 1 as [|i j l l' (_ & Hp & _) _ IH]; sums; [done|]. unfold isize. rewrite Hp. lia.
Qed.

Section discard.
Context (stream : Z → Z).
Implicit Types b : TcpTxBuffer.

Lemma laid_same_data sent p l l' : Forall2 same_data l l' → laid stream sent p l → laid stream sent p l'.
Proof.
  intros HF. revert p. induction HF as [|i j l l' (_ & Hp & Hs) _ IH]; intros p; [done|].
  cbn [laid]. assert (isize j = isize i) as -> by (unfold isize; by rewrite Hp). rewrite Hp, Hs.
  intros [? ?]. split; [done|]. by apply IH.
Qed.

Lemma nodes_same_data l l' : Forall2 same_data l l' → nodes l' = nodes l.
Proof. unfold nodes. induction 1 as [|i j l l' (Hn & _) _ IH]; [done|]. by rewrite !fmap_cons, Hn, IH. Qed.

Lemma tx_core_recount una b l' :
  tx_core stream una b → Forall2 same_data (m_sentList b) l' → Forall (λ i, m_sacked i && m_lost i = false) l' →
  tx_core stream una (recount l' b).
Proof.
  intros [] HF Hd. pose proof (size_same_data _ _ HF). constructor; unfold recount; txs; try done.
  - by eapply laid_same_data.
  - lia.
  - by rewrite (nodes_same_data _ _ HF).
Qed.

Lemma tx_core_highest una b h : tx_core stream una b ↔ tx_core stream una (set_highestSack h b).
Proof. split; intros []; constructor; txs; done. Qed.

Lemma tx_core_params una b mx d s r e :
  m_size b ≤ mx ≤ 2 ^ 30 → tx_core stream una b → tx_core stream una (set_params mx d s r e b).
Proof. intros ? []. constructor; txs; done. Qed.

Lemma tx_core_small una b i l1 l2 :
  tx_core stream una b → m_sentList b = l1 ++ i :: l2 → 0 < isize i ∧ size_of l1 + isize i + size_of l2 = m_sentSize b.
Proof.
  intros I El. pose proof (ti_sent _ _ _ I) as Hl. rewrite El in Hl. apply laid_app in Hl as [_ [[? _] _]].
  split; [done|]. rewrite (ti_sentSize _ _ _ I), El. sums. lia.
Qed.

(** A sum that wraps nowhere. *)
Lemma tot_u32 una b f l : tx_core stream una b → size_of l ≤ m_sentSize b → u32 (tot f l) = tot f l.
Proof.
  intros I Hl. pose proof (ti_bounds _ _ _ I). pose proof (tot_nonneg f l). pose proof (tot_le_size f l).
  apply wrap_id. zlia.
Qed.

(** ** [MarkHeadAsLost], [AddRenoSack] *)

Lemma MarkHeadAsLost_ok una b :
  tx_core stream una b →
  MarkHeadAsLost b = match m_sentList b with [] => b | h :: l => recount (set_flags true false false h :: l) b end.
Proof.
  intros I. unfold MarkHeadAsLost. destruct (m_sentList b) as [|h l] eqn:El; [done|].
  destruct (tx_core_small una b h [] l I El) as [Hh Hsz]. pose proof (size_nonneg l).
  replace (size_of []) with 0 in Hsz by done.
  assert (∀ f, u32 (tot f (h :: l)) = tot f (h :: l)) as Hw by (intros; eapply tot_u32; [done|]; sums; lia).
  assert (∀ f, u32 (tot f l) = tot f l) as Hw' by (intros; eapply tot_u32; [done|]; lia).
  pose proof (tot_le_size m_lost l). pose proof (tot_nonneg m_lost l). pose proof (ti_bounds _ _ _ I).
  unfold recount. rewrite !tot_cons. cbn [m_lost m_sacked m_retrans set_flags].
  change (isize (set_flags true false false h)) with (isize h).
  rewrite (ti_lost _ _ _ I), (ti_sacked _ _ _ I), (ti_retrans _ _ _ I), El. sums.
  f_equal. f_equal.
  - destruct (m_lost h); [done|]. rewrite (wrap_id 32) by zlia. lia.
  - destruct (m_sacked h); [|done]. replace (isize h + tot m_sacked l - isize h) with (tot m_sacked l) by lia. by rewrite Hw'.
  - destruct (m_retrans h); [|done]. replace (isize h + tot m_retrans l - isize h) with (tot m_retrans l) by lia. by rewrite Hw'.
Qed.

Definition sack_item (i : TcpTxItem) : TcpTxItem := set_flags (m_lost i) true (m_retrans i) i.

Lemma AddRenoSack_find_ok l1 it l2 :
  Forall (λ i, m_sacked i = true) l1 → m_sacked it = false →
  AddRenoSack_find (l1 ++ it :: l2) = Some (sack_item it, l1 ++ sack_item it :: l2).
Proof.
  intros Hl1 Hit. induction Hl1 as [|i l1 Hi _ IH]; cbn [app AddRenoSack_find]; [by rewrite Hit|]. by rewrite Hi, IH.
Qed.

Lemma AddRenoSack_find_none l : Forall (λ i, m_sacked i = true) l → AddRenoSack_find l = None.
Proof. induction 1 as [|i l Hi _ IH]; [done|]. cbn [AddRenoSack_find]. by rewrite Hi, IH. Qed.

(** All items are sacked, or there is a first one that is not. *)
Lemma first_unsacked (l : list TcpTxItem) :
  Forall (λ i, m_sacked i = true) l ∨
  ∃ l1 it l2, l = l1 ++ it :: l2 ∧ Forall (λ i, m_sacked i = true) l1 ∧ m_sacked it = false.
Proof.
  induction l as [|i l IH]; [by left|]. destruct (m_sacked i) eqn:Hi.
  - destruct IH as [IH|(l1 & it & l2 & -> & Hl1 & Hit)]; [left; by constructor|right].
    exists (i :: l1), it, l2. conj; [done|by constructor|done].
  - right. by exists [], i, l.
Qed.

Definition set_reno (b : TcpTxBuffer) : TcpTxBuffer :=
  set_params (m_maxBuffer b) (m_dupAckThresh b) (m_segmentSize b) true (m_sackEnabled b) b.

(** The head is left, the next item that is not sacked is. *)
Lemma AddRenoSack_ok una b head l :
  tx_core stream una b → m_sentList b = head :: l → (m_sackEnabled b = true → l ≠ []) →
  (Forall (λ i, m_sacked i = true) l ∧ AddRenoSack b = Ok (set_reno b)) ∨
  ∃ l1 it l2, l = l1 ++ it :: l2 ∧ Forall (λ i, m_sacked i = true) l1 ∧ m_sacked it = false ∧
    AddRenoSack b = Ok (set_highestSack (Some (it_node it), u32 (una + isize head + size_of l1))
                          (recount (head :: l1 ++ sack_item it :: l2) (set_reno b))).
Proof.
  intros I El Hen. unfold AddRenoSack.
  assert (ns_assert (if m_sackEnabled b then (1 <? length (m_sentList b))%nat else negb (bool_decide (m_sentList b = []))) = Ok tt) as ->.
  { apply ns_assert_ok. rewrite El. destruct (m_sackEnabled b); [|by rewrite bool_decide_false by done].
    specialize (Hen eq_refl). destruct l; [done|]. by apply Nat.ltb_lt; cbn; lia. }
  res_simpl. fold (set_reno b). change (m_sentList (set_reno b)) with (m_sentList b). rewrite El.
  destruct (first_unsacked l) as [Hall|(l1 & it & l2 & -> & Hl1 & Hit)].
  { left. by rewrite AddRenoSack_find_none. }
  right. exists l1, it, l2. conj; try done. rewrite AddRenoSack_find_ok by done.
  change (head :: l1 ++ it :: l2) with ((head :: l1) ++ it :: l2) in El.
  destruct (tx_core_small una b it (head :: l1) l2 I El) as [Hpos Hsz]. pose proof (size_nonneg l1). pose proof (size_nonneg l2).
  pose proof (isize_nonneg head). pose proof (ti_bounds _ _ _ I).
  pose proof (ti_sent _ _ _ I) as Hl. rewrite El in Hl. apply laid_app in Hl as [_ [(_ & _ & Hseq) _]]. specialize (Hseq eq_refl).
  change (m_startSeq (sack_item it)) with (m_startSeq it). change (it_node (sack_item it)) with (it_node it).
  change (isize (sack_item it)) with (isize it). rewrite Hseq. sums. rewrite Z.add_assoc.
  do 2 f_equal. unfold recount. f_equal. change (m_lostOut (set_reno b)) with (m_lostOut b).
  change (m_sackedOut (set_reno b)) with (m_sackedOut b). change (m_retransOut (set_reno b)) with (m_retransOut b). f_equal.
  - rewrite (ti_lost _ _ _ I), El. sums. change (m_lost (sack_item it)) with (m_lost it). change (isize (sack_item it)) with (isize it). lia.
  - rewrite (ti_sacked _ _ _ I), El. sums. change (isize (sack_item it)) with (isize it). cbn [m_sacked sack_item set_flags]. rewrite Hit.
    pose proof (tot_le_size m_sacked (head :: l1)). pose proof (tot_le_size m_sacked l2).
    pose proof (tot_nonneg m_sacked (head :: l1)). pose proof (tot_nonneg m_sacked l2). sums. rewrite (wrap_id 32) by zlia. lia.
  - rewrite (ti_retrans _ _ _ I), El. sums. change (m_retrans (sack_item it)) with (m_retrans it). change (isize (sack_item it)) with (isize it). lia.
Qed.

(** ** The loop of [DiscardUpTo] *)

(** What is left of items without their first [k] bytes. *)
Fixpoint drop_items (k : Z) (l : list TcpTxItem) : list TcpTxItem :=
  match l with
  | [] => []
  | i :: l' => if isize i <=? k then drop_items (k - isize i) l' else (if k =? 0 then i else cut_back k i) :: l'
  end.

(** The items that lie in the first [k] bytes. *)
Fixpoint take_items (k : Z) (l : list TcpTxItem) : list TcpTxItem :=
  match l with [] => [] | i :: l => if isize i <=? k then i :: take_items (k - isize i) l else [] end.

(** An item with the bytes from [p] to [q], sent for the first time. *)
Definition first_sent (now p q : Z) (x : TcpTxItem) : Prop :=
  m_packet x = bytes stream p q ∧ m_startSeq x = u32 p ∧ m_lastSent x = now ∧ flagged false false x ∧ m_retrans x = false.

Lemma take_items_all l k : size_of l ≤ k → take_items k l = l.
Proof.
  revert k. induction l as [|i l IH]; intros k Hk; [done|]. pose proof (isize_nonneg i). pose proof (size_nonneg l). sums.
  cbn [take_items]. rewrite (proj2 (Z.leb_le _ _)) by lia. f_equal. apply IH. lia.
Qed.

Lemma take_items_prefix l k : 0 ≤ k → take_items k l `prefix_of` l ∧ size_of (take_items k l) ≤ k.
Proof.
  revert k. induction l as [|i l IH]; intros k Hk; [by split; [exists []|]|]. cbn [take_items].
  destruct (Z.leb_spec (isize i) k); [|split; [apply prefix_nil|done]].
  destruct (IH (k - isize i)) as [? ?]; [lia|]. split; [by apply prefix_cons|]. sums. lia.
Qed.

Lemma drop_items_all l k : size_of l ≤ k → drop_items k l = [].
Proof.
  revert k. induction l as [|i l IH]; intros k Hk; [done|]. pose proof (isize_nonneg i). pose proof (size_nonneg l). sums.
  cbn [drop_items]. rewrite (proj2 (Z.leb_le _ _)) by lia. apply IH. lia.
Qed.

Lemma RemoveFromCounts_ok una b i l k b0 :
  tx_core stream una b → m_sentList b = i :: l → 0 ≤ k ≤ isize i →
  m_sackedOut b0 = m_sackedOut b → m_lostOut b0 = m_lostOut b → m_retransOut b0 = m_retransOut b →
  RemoveFromCounts i k b0 =
    Ok (set_counts (m_lostOut b - if m_lost i then k else 0) (m_sackedOut b - if m_sacked i then k else 0)
          (m_retransOut b - if m_retrans i then k else 0) b0).
Proof.
  intros I El Hk E1 E2 E3. unfold RemoveFromCounts. rewrite E1, E2, E3.
  rewrite (ti_sacked _ _ _ I), (ti_lost _ _ _ I), (ti_retrans _ _ _ I), El. sums.
  pose proof (tot_nonneg m_sacked l). pose proof (tot_nonneg m_lost l). pose proof (tot_nonneg m_retrans l).
  assert (∀ f, negb (f i) || (k <=? (if f i then isize i else 0) + tot f l) = true) as Hle.
  { intros f. destruct (f i); [|done]. pose proof (tot_nonneg f l). apply Z.leb_le. lia. }
  rewrite !Hle. res_simpl. do 2 f_equal; case_match; lia.
Qed.

(** The first item is taken out. *)
Lemma remove_item_ok una b i l :
  tx_core stream una b → m_sentList b = i :: l →
  ∃ b2, RemoveFromCounts i (isize i) (set_sizes (u32 (m_size b - isize i)) (u32 (m_sentSize b - isize i))
          (splus (m_firstByteSeq b) (isize i)) b) = Ok b2 ∧
    let b' := set_sentList l b2 in
    tx_core stream (una + isize i) b' ∧ m_sentList b' = l ∧ m_appList b' = m_appList b ∧ m_size b' = m_size b - isize i ∧
    m_sentSize b' = m_sentSize b - isize i ∧ m_highestSack b' = m_highestSack b ∧ same_config b b'.
Proof.
  intros I El. destruct (tx_core_small una b i [] l I El) as [Hi Hsz]. pose proof (ti_bounds _ _ _ I). pose proof (size_nonneg l).
  replace (size_of []) with 0 in Hsz by done.
  eexists. split; [apply (RemoveFromCounts_ok una b i l (isize i)); try done; lia|]. cbv zeta. txs.
  rewrite !(wrap_id 32) by zlia. conj; try done.
  destruct I. rewrite El in *. apply Forall_cons in ti_disjoint as [_ ?]. constructor; txs; try done; sums; try lia.
  - rewrite ti_una. apply seq_add_u32.
  - by destruct ti_sent.
  - replace (una + isize i + (m_sentSize b - isize i)) with (una + m_sentSize b) by lia. done.
  - destruct ti_nodes as [Hnd Hlt]. unfold nodes in *. rewrite fmap_cons in *. cbn [app] in *.
    apply NoDup_cons in Hnd as [_ ?]. apply Forall_cons in Hlt as [_ ?]. done.
Qed.

(** The first item is cut. *)
Lemma cut_item_ok una b i l k :
  tx_core stream una b → m_sentList b = i :: l → 0 < k < isize i →
  ∃ b2, RemoveFromCounts (cut_back k i) k (set_sizes (u32 (m_size b - k)) (u32 (m_sentSize b - k)) (splus (m_firstByteSeq b) k) b) = Ok b2 ∧
    let b' := set_sentList (cut_back k i :: l) b2 in
    tx_core stream (una + k) b' ∧ m_sentList b' = cut_back k i :: l ∧ m_appList b' = m_appList b ∧ m_size b' = m_size b - k ∧
    m_sentSize b' = m_sentSize b - k ∧ m_highestSack b' = m_highestSack b ∧ same_config b b'.
Proof.
  intros I El Hk. destruct (tx_core_small una b i [] l I El) as [Hi Hsz]. pose proof (ti_bounds _ _ _ I). pose proof (size_nonneg l).
  replace (size_of []) with 0 in Hsz by done.
  assert (∀ b0, RemoveFromCounts (cut_back k i) k b0 = RemoveFromCounts i k b0) as -> by done.
  eexists. split; [apply (RemoveFromCounts_ok una b i l k); try done; lia|]. cbv zeta. txs.
  rewrite !(wrap_id 32) by zlia. conj; try done. pose proof (isize_back k i ltac:(lia)) as Hbk.
  destruct I. rewrite El in *. apply Forall_cons in ti_disjoint as [? ?].
  constructor; txs; try done; sums; rewrite ?Hbk; try lia.
  - rewrite ti_una. apply seq_add_u32.
  - change (cut_back k i :: l) with ([cut_back k i] ++ l). change (i :: l) with ([i] ++ l) in ti_sent.
    apply laid_app in ti_sent as [Hs1 Hs2]. apply laid_app. split; [apply laid_cut_back; [done|lia]|].
    sums. replace (size_of []) with 0 in * by done. rewrite Hbk. replace (una + k + (isize i - k + 0)) with (una + (isize i + 0)) by lia. done.
  - replace (una + k + (m_sentSize b - k)) with (una + m_sentSize b) by lia. done.
  - rewrite ti_sacked. sums. change (m_sacked (cut_back k i)) with (m_sacked i). destruct (m_sacked i); lia.
  - rewrite ti_lost. sums. change (m_lost (cut_back k i)) with (m_lost i). destruct (m_lost i); lia.
  - rewrite ti_retrans. sums. change (m_retrans (cut_back k i)) with (m_retrans i). destruct (m_retrans i); lia.
  - by constructor.
Qed.

Lemma loop_exit fuel now off b : m_size b = 0 ∨ off = 0 → DiscardUpTo_loop (S fuel) now off b = Ok ([], b).
Proof.
  intros [H|H]; cbn [DiscardUpTo_loop].
  - by rewrite H.
  - subst. by rewrite andb_false_r.
Qed.

(** What the loop does when there are items sent. *)
Lemma loop_items fuel now off una b :
  tx_core stream una b → 0 ≤ off → (length (m_sentList b) < fuel)%nat → off ≤ m_sentSize b →
  ∃ removed b', DiscardUpTo_loop fuel now off b = Ok (removed, b') ∧ tx_core stream (una + off) b' ∧
    m_sentList b' = drop_items off (m_sentList b) ∧ m_appList b' = m_appList b ∧ m_size b' = m_size b - off ∧
    m_sentSize b' = m_sentSize b - off ∧ m_highestSack b' = m_highestSack b ∧ same_config b b' ∧
    removed = take_items off (m_sentList b).
Proof.
  revert off una b. induction fuel as [|fuel IH]; intros off una b I Hoff Hfuel Hle; [lia|].
  pose proof (ti_bounds _ _ _ I). pose proof (ti_sentSize _ _ _ I) as Hsz.
  destruct (Z.eq_dec off 0) as [->|Hne].
  { exists [], b. rewrite loop_exit by auto. rewrite !Z.sub_0_r, Z.add_0_r. conj; try done.
    all: pose proof (ti_sent _ _ _ I) as Hl; destruct (m_sentList b) as [|i l]; [done|]; cbn [drop_items take_items].
    all: destruct Hl as [[? _] _]; by rewrite (proj2 (Z.leb_gt _ _)) by lia. }
  cbn [DiscardUpTo_loop]. rewrite (proj2 (Z.ltb_lt 0 (m_size b))), (proj2 (Z.ltb_lt 0 off)) by lia. cbn [andb].
  destruct (m_sentList b) as [|i l] eqn:El; [unfold size_of in Hsz; cbn in Hsz; lia|].
  rewrite bool_decide_false by done. res_simpl. rewrite El.
  pose proof (ti_sent _ _ _ I) as Hl. rewrite El in Hl. destruct Hl as [(Hi & Hb & Hs) Hl].
  assert (seq_eq (m_startSeq i) (m_firstByteSeq b) = true) as -> by (rewrite (Hs eq_refl), (ti_una _ _ _ I); apply Z.eqb_refl).
  res_simpl. cbn [drop_items take_items]. sums.
  destruct (Z.leb_spec (isize i) off).
  - destruct (remove_item_ok una b i l I El) as (b2 & Hrm & I' & El' & Ha & Hs1 & Hs2 & Hh & Hc).
    rewrite Hrm. res_simpl.
    destruct (IH (off - isize i) _ _ I') as (removed & b' & -> & I2 & El2 & Ha2 & Hs3 & Hs4 & Hh2 & Hc2 & Hr);
      [lia|rewrite El'; cbn in Hfuel; lia|lia|]. res_simpl.
    exists (i :: removed), b'. rewrite El2, Hr, El', Ha2, Ha, Hh2, Hh.
    replace (una + off) with (una + isize i + (off - isize i)) by lia. unfold same_config in *.
    conj; try done; try lia; etrans; [apply Hc2|apply Hc].
  - rewrite (proj2 (Z.eqb_neq _ _)) by done. fold (cut_back off i).
    destruct (cut_item_ok una b i l off I El) as (b2 & Hrm & I' & El' & Ha & Hs1 & Hs2 & Hh & Hc); [lia|].
    rewrite Hrm. res_simpl.
    exists [], (set_sentList (cut_back off i :: l) b2). conj; try done.
Qed.

(** Past what was sent: data is moved from the application's list to be discarded. *)
Lemma loop_past fuel now off una b :
  tx_core stream una b → m_sentSize b < off → (S (length (m_sentList b)) < fuel)%nat →
  let k := Z.min off (m_size b) in
  ∃ removed b', DiscardUpTo_loop fuel now off b = Ok (removed, b') ∧ tx_core stream (una + k) b' ∧
    m_sentList b' = [] ∧ m_size b' = m_size b - k ∧ m_highestSack b' = m_highestSack b ∧ same_config b b' ∧
    (if decide (m_size b = m_sentSize b) then removed = m_sentList b
     else ∃ x, removed = m_sentList b ++ [x] ∧ first_sent now (una + m_sentSize b) (una + k) x).
Proof.
  revert off una b. induction fuel as [|fuel IH]; intros off una b I Hoff Hfuel k; [lia|].
  pose proof (ti_bounds _ _ _ I). pose proof (ti_sentSize _ _ _ I) as Hsz.
  destruct (Z.eq_dec (m_size b) 0) as [H0|Hne].
  { exists [], b. rewrite loop_exit by auto. replace k with 0 by lia. rewrite Z.sub_0_r, Z.add_0_r. conj; try done.
    - eapply laid_size_0; [apply I|lia].
    - rewrite decide_True by lia. symmetry. eapply laid_size_0; [apply I|lia]. }
  cbn [DiscardUpTo_loop]. rewrite (proj2 (Z.ltb_lt 0 (m_size b))), (proj2 (Z.ltb_lt 0 off)) by lia. cbn [andb].
  destruct (m_sentList b) as [|i l] eqn:El.
  - rewrite bool_decide_true by done. replace (size_of []) with 0 in Hsz by done.
    pose proof (Copy_new_core stream una b off now 1 I ltac:(lia)) as Hcopy. cbv zeta in Hcopy.
    rewrite Hsz, Z.sub_0_r, Z.add_0_r, <- (ti_una _ _ _ I) in Hcopy. fold k in Hcopy.
    rewrite decide_False in Hcopy by lia. destruct Hcopy as (x & b1 & Hcopy & Hco & El1 & Hs1).
    unfold copy_fuel. rewrite Hcopy. res_simpl. rewrite El in El1. cbn [app] in El1. rewrite El1.
    rewrite bool_decide_false by done. cbn [negb]. res_simpl. rewrite El1.
    pose proof (co_inv _ _ _ _ _ _ _ _ _ _ _ Hco) as I1.
    destruct (co_params _ _ _ _ _ _ _ _ _ _ _ Hco) as (Hp1 & Hp2 & Hp3 & Hp4 & Hp5 & Hp6 & _ & _ & Hp7).
    assert (isize x = k) as Hx.
    { pose proof (ti_sentSize _ _ _ I1) as H1. rewrite El1 in H1. unfold size_of in H1. cbn in H1. lia. }
    pose proof (ti_sent _ _ _ I1) as Hl. rewrite El1 in Hl. destruct Hl as [(Hi & Hb & Hs) _].
    assert (seq_eq (m_startSeq x) (m_firstByteSeq b1) = true) as -> by (rewrite (Hs eq_refl), (ti_una _ _ _ I1); apply Z.eqb_refl).
    res_simpl. rewrite (proj2 (Z.leb_le (isize x) off)) by lia.
    destruct (remove_item_ok una b1 x [] I1 El1) as (b2 & Hrm & I' & El' & _ & Hs2 & _ & Hh & Hc).
    rewrite Hrm. res_simpl. destruct fuel as [|fuel]; [cbn in Hfuel; lia|].
    rewrite loop_exit by (rewrite Hs2, Hp6; lia). res_simpl. rewrite Hx in *.
    eexists _, _. conj; [done|exact I'|done|lia|congruence| |].
    + unfold same_config in *. rewrite <- Hp1, <- Hp2, <- Hp3, <- Hp5. done.
    + rewrite decide_False by lia. exists x. split; [done|]. rewrite Hsz, Z.add_0_r.
      destruct (co_flags _ _ _ _ _ _ _ _ _ _ _ Hco) as (? & ? & ?). unfold first_sent. conj; [apply Hco|apply Hco|done..].
  - rewrite bool_decide_false by done. res_simpl. rewrite El.
    pose proof (ti_sent _ _ _ I) as Hl. rewrite El in Hl. destruct Hl as [(Hi & Hb & Hs) Hl].
    assert (seq_eq (m_startSeq i) (m_firstByteSeq b) = true) as -> by (rewrite (Hs eq_refl), (ti_una _ _ _ I); apply Z.eqb_refl).
    res_simpl. pose proof (size_nonneg l). sums. rewrite (proj2 (Z.leb_le (isize i) off)) by lia.
    destruct (remove_item_ok una b i l I El) as (b2 & Hrm & I' & El' & Ha & Hs1 & Hs2 & Hh & Hc).
    rewrite Hrm. res_simpl.
    destruct (IH (off - isize i) _ _ I') as (removed & b' & -> & I2 & El2 & Hs3 & Hh2 & Hc2 & Hr);
      [lia|rewrite El'; cbn in Hfuel; lia|]. res_simpl. rewrite Hs1, ?Hs2, El' in *.
    replace (una + isize i + Z.min (off - isize i) (m_size b - isize i)) with (una + k) in * by lia.
    exists (i :: removed), b'. rewrite Hh2, Hh. unfold same_config in *.
    conj; try done; try lia; try (etrans; [apply Hc2|apply Hc]).
    destruct (decide (m_size b = m_sentSize b)).
    + rewrite decide_True in Hr by lia. by rewrite Hr.
    + rewrite decide_False in Hr by lia. destruct Hr as (x & -> & Hx). exists x. split; [done|].
      by replace (una + isize i + (m_sentSize b - isize i)) with (una + m_sentSize b) in Hx by lia.
Qed.

(** ** The head of what is left *)

Lemma drop_items_split l p k :
  laid stream true p l → 0 ≤ k < size_of l →
  ∃ l1 i l2 c, l = l1 ++ i :: l2 ∧ size_of l1 + c = k ∧ 0 ≤ c < isize i ∧
    drop_items k l = (if c =? 0 then i else cut_back c i) :: l2.
Proof.
  revert p k. induction l as [|i l IH]; intros p k Hl Hk; [unfold size_of in Hk; cbn in Hk; lia|]. sums.
  destruct Hl as [[Hi _] Hl]. cbn [drop_items]. destruct (Z.leb_spec (isize i) k).
  - destruct (IH _ (k - isize i) Hl) as (l1 & j & l2 & c & -> & Hc & Hj & ->); [lia|].
    exists (i :: l1), j, l2, c. sums. conj; [done|lia|lia|lia|done].
  - exists [], i, l, k. conj; [done|unfold size_of; cbn; lia|lia|lia|done].
Qed.

(** The iterator of the highest sacked item after the data before [a] is gone. *)
Definition discard_highest (a : Z) (h : option nat * Z) : option nat * Z :=
  if sle (snd h) (u32 a) then no_sack else h.

Lemma highest_after una l1 i l2 c h y :
  sack_ok una (l1 ++ i :: l2) h → isize y = isize i - c → 0 ≤ c < isize i → size_of (l1 ++ i :: l2) ≤ 2 ^ 30 →
  sack_ok (una + size_of l1 + c) (y :: l2) (discard_highest (una + size_of l1 + c) h).
Proof.
  intros [->|(m1 & j & m2 & El & Hj & ->)] Hy Hc Hmax; unfold discard_highest; cbn [snd].
  { left. by case_match. }
  pose proof Hmax as Hmax'. rewrite El in Hmax. pose proof (size_nonneg l1). pose proof (size_nonneg l2). pose proof (size_nonneg m1).
  pose proof (size_nonneg m2). pose proof (isize_nonneg j). sums.
  rewrite (close_le una) by (unfold close; lia). destruct (Z.leb_spec (una + size_of m1) (una + size_of l1 + c)); [by left|right].
  apply app_eq_app in El as (k & [[-> Hk]|[-> Hk]]).
  { sums. pose proof (size_nonneg k). lia. }
  destruct k as [|i' k]; cbn in Hk; [injection Hk as <- <-; sums; unfold size_of in *; cbn in *; lia|].
  injection Hk as <- ->. exists (y :: k), j, m2. sums. conj; [done|done|]. do 2 f_equal. lia.
Qed.

Lemma highest_none una l a h :
  sack_ok una l h → laid stream true una l → una + size_of l ≤ a ≤ una + 2 ^ 30 + 1 → discard_highest a h = no_sack.
Proof.
  intros [->|(m1 & j & m2 & -> & Hj & ->)] Hl Ha; unfold discard_highest; cbn [snd]; [by case_match|].
  pose proof (size_nonneg m1). pose proof (size_nonneg m2). pose proof (isize_nonneg j). sums.
  rewrite (close_le una) by (unfold close; lia). by rewrite (proj2 (Z.leb_le _ _)) by lia.
Qed.

Definition unsack_item (i : TcpTxItem) : TcpTxItem := set_flags (m_lost i) false (m_retrans i) i.

Lemma unsack_head una b h l :
  tx_core stream una b → m_sentList b = h :: l → m_sacked h = true →
  set_sentList (unsack_item h :: l) (set_counts (m_lostOut b) (u32 (m_sackedOut b - isize h)) (m_retransOut b) b) =
  recount (unsack_item h :: l) b.
Proof.
  intros I El Hh. unfold recount. sums. change (isize (unsack_item h)) with (isize h).
  cbn [unsack_item m_lost m_sacked m_retrans set_flags].
  rewrite (ti_lost _ _ _ I), (ti_sacked _ _ _ I), (ti_retrans _ _ _ I), El. sums. rewrite Hh. do 2 f_equal.
  replace (isize h + tot m_sacked l - isize h) with (tot m_sacked l) by lia.
  destruct (tx_core_small una b h [] l I El) as [? Hsz]. replace (size_of []) with 0 in Hsz by done.
  eapply tot_u32; [done|lia].
Qed.

(** What a step leaves alone. *)
Definition same_sizes (b b' : TcpTxBuffer) : Prop :=
  m_size b' = m_size b ∧ m_sentSize b' = m_sentSize b ∧ m_appList b' = m_appList b ∧ same_config b b'.

(** Same data, and what was sacked is. *)
Definition same_sacks (i j : TcpTxItem) : Prop := same_data i j ∧ (m_sacked i = true → m_sacked j = true).

Lemma same_sacks_refl l : Forall2 same_sacks l l.
Proof. induction l; by constructor. Qed.

Lemma same_sacks_data l l' : Forall2 same_sacks l l' → Forall2 same_data l l'.
Proof. intros H. eapply Forall2_impl; [exact H|]. by intros i j [? _]. Qed.

Lemma same_sacks_place l l' : Forall2 same_sacks l l' → Forall2 same_place l l'.
Proof.
  intros H. eapply Forall2_impl; [exact H|]. intros i j [(Hn & Hp & _) Hs]. unfold same_place, isize. by rewrite Hp.
Qed.

Lemma DiscardUpTo_head_ok una b y l :
  tx_core stream una b → m_sentList b = y :: l →
  m_sacked y = false ∨ (m_sackEnabled b = false ∧ Forall (λ i, m_lost i = false) l) →
  ∃ b' y' l', DiscardUpTo_head (u32 una) b = Ok b' ∧ tx_core stream una b' ∧ m_sentList b' = y' :: l' ∧ same_sizes b b' ∧
    same_data y y' ∧ Forall2 same_sacks l l' ∧ m_sacked y' = false ∧
    (m_highestSack b' = m_highestSack b ∨ sack_ok una (m_sentList b') (m_highestSack b')) ∧
    (m_sacked y = false → b' = b).
Proof.
  intros I El Hcase. unfold DiscardUpTo_head. rewrite El.
  pose proof (ti_sent _ _ _ I) as Hl. rewrite El in Hl. destruct Hl as [(Hi & Hb & Hs) Hl].
  assert (seq_eq (m_startSeq y) (u32 una) = true) as Hseq by (rewrite (Hs eq_refl); apply Z.eqb_refl).
  destruct (m_sacked y) eqn:Hy.
  2: { res_simpl. rewrite Hseq. res_simpl. exists b, y, l. conj; try done; [apply same_sacks_refl|by left]. }
  destruct Hcase as [?|[Hen Hlost]]; [done|].
  pose proof (ti_disjoint _ _ _ I) as Hd. rewrite El in Hd. apply Forall_cons in Hd as [Hyl Hd]. rewrite Hy in Hyl. cbn in Hyl.
  assert (ns_assert (negb (m_lost y)) = Ok tt) as -> by (by rewrite Hyl). res_simpl. fold (unsack_item y). rewrite (unsack_head una b y l I El Hy).
  set (b1 := recount (unsack_item y :: l) b).
  assert (tx_core stream una b1) as I1.
  { apply tx_core_recount; [done| |by constructor]. rewrite El. constructor; [done|apply same_data_refl]. }
  assert (same_data y (set_flags true false false (unsack_item y))) as Hsame by done.
  assert (∀ b2 l2, tx_core stream una b2 → m_sentList b2 = unsack_item y :: l2 → same_sizes b b2 → Forall2 same_sacks l l2 →
    (m_highestSack b2 = m_highestSack b ∨ sack_ok una (set_flags true false false (unsack_item y) :: l2) (m_highestSack b2)) →
    Forall (λ i, m_sacked i && m_lost i = false) l2 →
    ∃ b' y' l', (b ← Ok (MarkHeadAsLost b2); ns_assert (seq_eq (m_startSeq y) (u32 una)) ≫= λ _, Ok b) = Ok b' ∧
      tx_core stream una b' ∧ m_sentList b' = y' :: l' ∧ same_sizes b b' ∧
      same_data y y' ∧ Forall2 same_sacks l l' ∧ m_sacked y' = false ∧
      (m_highestSack b' = m_highestSack b ∨ sack_ok una (m_sentList b') (m_highestSack b')) ∧ (true = false → b' = b)) as Hfin.
  { intros b2 l2 I2 El2 Hc Hl2 Hh Hd2. res_simpl. rewrite Hseq. res_simpl. rewrite (MarkHeadAsLost_ok una b2 I2), El2.
    eexists _, _, l2. conj; [done| |done|exact Hc|done|done|done|exact Hh|done].
    apply tx_core_recount; [done| |by constructor]. rewrite El2. constructor; [done|apply same_data_refl]. }
  destruct (AddRenoSack_ok una b1 (unsack_item y) l I1 eq_refl) as [[_ ->]|(l1 & it & l2 & -> & Hl1 & Hit & ->)].
  { cbn [b1]. change (m_sackEnabled b1) with (m_sackEnabled b). congruence. }
  - res_simpl. apply (Hfin _ l); try done; [by destruct I1; constructor|apply same_sacks_refl|by left].
  - res_simpl. apply (Hfin _ (l1 ++ sack_item it :: l2)); try done.
    + apply tx_core_highest, tx_core_recount.
      * by destruct I1; constructor.
      * change (m_sentList (set_reno b1)) with (unsack_item y :: l1 ++ it :: l2).
        constructor; [done|]. apply Forall2_app; [apply same_data_refl|]. constructor; [done|apply same_data_refl].
      * constructor; [done|]. rewrite !Forall_app, !Forall_cons in *. destruct Hd as (? & ? & ?). conj; try done.
        cbn [sack_item m_lost set_flags]. by destruct Hlost as (_ & -> & _).
    + apply Forall2_app; [apply same_sacks_refl|]. constructor; [done|apply same_sacks_refl].
    + right. right. exists (set_flags true false false (unsack_item y) :: l1), (sack_item it), l2. conj; [done|done|].
      cbn [m_highestSack set_highestSack]. sums. by rewrite Z.add_assoc.
    + rewrite !Forall_app, !Forall_cons in *. destruct Hd as (? & ? & ?). conj; try done.
      cbn [sack_item m_lost set_flags]. by destruct Hlost as (_ & -> & _).
Qed.

(** ** [DiscardUpTo] *)

(** The acknowledgment is not of the middle of a sacked item, unless the items were sacked by
    guessing: then SACK is off, and no item past it is lost. *)
Definition ack_ok (una a : Z) (b : TcpTxBuffer) : Prop :=
  ∀ pre i post, m_sentList b = pre ++ i :: post → m_sacked i = true →
    una + size_of pre ≤ a < una + size_of pre + isize i →
    m_sackEnabled b = false ∧ Forall (λ j, m_lost j = false) post.

(** The last steps, once the head is what it should be. *)
Lemma discard_end una b :
  tx_core stream una b → (∀ i, head (m_sentList b) = Some i → m_sacked i = false) →
  sack_ok una (m_sentList b) (discard_highest una (m_highestSack b)) →
  let b' := if sle (snd (m_highestSack b)) (m_firstByteSeq b) then set_highestSack no_sack b else b in
  tx_inv stream una b' ∧ sge (m_firstByteSeq b') (u32 una) = true ∧
  (u32 (m_sackedOut b' + m_lostOut b') <=? m_sentSize b') = true ∧ same_sizes b b' ∧ m_sentList b' = m_sentList b.
Proof.
  intros I Hh Hk b'. pose proof (ti_leftout _ _ _ I). pose proof (ti_bounds _ _ _ I).
  assert (b' = set_highestSack (discard_highest una (m_highestSack b)) b) as ->.
  { unfold b', discard_highest. rewrite (ti_una _ _ _ I). case_match; [done|]. by destruct b. }
  conj; try done.
  - split; [by apply (tx_core_highest una b)|done|done].
  - txs. rewrite (ti_una _ _ _ I). unfold sge, seq_ge. unfold seq_eq. by rewrite Z.eqb_refl, orb_true_r.
  - txs. apply Z.leb_le. rewrite (wrap_id 32) by zlia. lia.
Qed.

(** What an acknowledgment up to [a] makes of [b]. *)
Definition discarded now una a b (removed : list TcpTxItem) b' : Prop :=
  tx_inv stream a b' ∧ m_size b' = Z.max 0 (una + m_size b - a) ∧ m_sentSize b' = Z.max 0 (una + m_sentSize b - a) ∧ same_config b b' ∧
  Forall2 same_data (drop_items (a - una) (m_sentList b)) (m_sentList b') ∧
  ((∀ i, head (drop_items (a - una) (m_sentList b)) = Some i → m_sacked i = false) →
    m_sentList b' = drop_items (a - una) (m_sentList b)) ∧
  (if decide (a ≤ una + m_sentSize b ∨ m_size b = m_sentSize b) then removed = take_items (a - una) (m_sentList b)
   else ∃ x, removed = m_sentList b ++ [x] ∧ first_sent now (una + m_sentSize b) (Z.min a (una + m_size b)) x).

Lemma DiscardUpTo_sent una b now a :
  tx_inv stream una b → una < a ≤ una + m_sentSize b → ack_ok una a b →
  ∃ removed b', DiscardUpTo now (u32 a) b = Ok (removed, b') ∧ discarded now una a b removed b'.
Proof.
  intros I Ha Hack. pose proof (ti_bounds _ _ _ I). pose proof (ti_sentSize _ _ _ I) as Hsz. unfold DiscardUpTo, discarded.
  rewrite (ti_una _ _ _ I), (close_ge una), (proj2 (Z.leb_gt a una)) by (unfold close; lia). rewrite (seq_sub_spec 32) by lia. res_simpl. rewrite (wrap_id 32 (a - una)) by zlia.
  set (off := a - una). assert (off ≤ m_sentSize b) as Hoff by lia.
  destruct (loop_items (discard_fuel b) now off una b I) as (removed & b1 & -> & I1 & El1 & Happ & Hs1 & Hs2 & Hh1 & Hc1 & Hr1);
    [lia|unfold discard_fuel; lia|done|]. res_simpl. replace (una + off) with a in I1 by lia.
  assert ((if m_size b1 =? 0 then set_sizes (m_size b1) (m_sentSize b1) (u32 a) b1 else b1) = b1) as ->.
  { case_match; [|done]. rewrite <- (ti_una _ _ _ I1). by destruct b1. }
  destruct (decide (a ≤ una + m_sentSize b ∨ _)) as [_|[]]; [|left; lia]. pose proof (ti_sent _ _ _ I) as Hl.
  destruct (Z.eq_dec off (m_sentSize b)) as [Heq|Hne].
  + assert (m_sentList b1 = []) as El1' by (eapply laid_size_0; [apply I1|rewrite <- (ti_sentSize _ _ _ I1); lia]).
    assert (DiscardUpTo_head (u32 a) b1 = Ok b1) as -> by (unfold DiscardUpTo_head; by rewrite El1'). res_simpl.
    destruct (discard_end a b1 I1) as (I2 & -> & -> & (Hs3 & Hs4 & Ha4 & Hc4) & El2).
    { by rewrite El1'. }
    { rewrite Hh1, (highest_none una (m_sentList b)); [by left|apply I|done|lia]. }
    res_simpl. rewrite <- El1, El1' in *. eexists _, _. conj; [done|exact I2|lia|lia| |by rewrite El2|by rewrite El2|done].
    unfold same_config in *. conj; (etrans; [apply Hc4|apply Hc1]).
  + destruct (drop_items_split (m_sentList b) una off Hl) as (l1 & i & l2 & c & El & Hc & Hi & Hd); [lia|].
    rewrite Hd in *. set (y := if c =? 0 then i else cut_back c i) in *.
    assert (isize y = isize i - c ∧ m_sacked y = m_sacked i) as [Hy1 Hy2].
    { unfold y. destruct (Z.eqb_spec c 0); [split; [lia|done]|]. split; [apply isize_back; lia|done]. }
    destruct (DiscardUpTo_head_ok a b1 y l2 I1 El1) as (b2 & y' & l2' & -> & I2 & El2 & (Hs3 & Hs4 & Ha4 & Hc4) & Hyd & Hld & Hy' & Hh2 & Hsame).
    { destruct (m_sacked i) eqn:Hsi; [right|by left]. destruct (Hack l1 i l2 El Hsi); [lia|]. split; [|done].
      destruct Hc1 as (_ & _ & _ & ->). done. }
    res_simpl. destruct (discard_end a b2 I2) as (I3 & -> & -> & (Hs5 & Hs6 & Ha6 & Hc6) & El3).
    { rewrite El2. by intros j [= <-]. }
    { destruct Hh2 as [Hh2|Hh2]; [|unfold discard_highest; case_match; [by left|done]].
      rewrite Hh2, Hh1, El2. apply (sack_ok_mono a (y' :: l2)).
      - constructor; [done|by apply same_sacks_place].
      - replace a with (una + size_of l1 + c) by lia. apply (highest_after una l1 i l2); [rewrite <- El; apply I| |done|].
        + rewrite <- Hy1. unfold isize. by destruct Hyd as (_ & -> & _).
        + rewrite <- El. lia. }
    res_simpl. eexists _, _. conj; [done|exact I3|lia|lia| | | |done].
    * unfold same_config in *. conj; (etrans; [apply Hc6|etrans; [apply Hc4|apply Hc1]]).
    * rewrite El3, El2. constructor; [done|by apply same_sacks_data].
    * intros Hhead. rewrite El3, (Hsame (Hhead y eq_refl)), El1. done.
Qed.

Lemma DiscardUpTo_past una b now a :
  tx_inv stream una b → una + m_sentSize b < a ≤ una + m_size b + 1 →
  ∃ removed b', DiscardUpTo now (u32 a) b = Ok (removed, b') ∧ discarded now una a b removed b'.
Proof.
  intros I Ha. pose proof (ti_bounds _ _ _ I). pose proof (ti_sentSize _ _ _ I) as Hsz. unfold DiscardUpTo, discarded.
  rewrite (ti_una _ _ _ I), (close_ge una), (proj2 (Z.leb_gt a una)) by (unfold close; lia). rewrite (seq_sub_spec 32) by lia. res_simpl. rewrite (wrap_id 32 (a - una)) by zlia.
  set (off := a - una). assert (m_sentSize b < off) as Hoff by lia.
  destruct (loop_past (discard_fuel b) now off una b I) as (removed & b1 & -> & I1 & El1 & Hs1 & Hh1 & Hc1 & Hr1);
    [lia|unfold discard_fuel; lia|]. res_simpl.
  assert (drop_items off (m_sentList b) = []) as Hd by (apply drop_items_all; lia). rewrite Hd.
  set (b1' := if m_size b1 =? 0 then _ else b1).
  assert (tx_core stream a b1' ∧ m_sentList b1' = [] ∧ m_size b1' = Z.max 0 (una + m_size b - a) ∧ m_highestSack b1' = m_highestSack b ∧
    same_config b b1') as (I1' & El1' & Hs1' & Hh1' & Hc1').
  { pose proof (ti_sentSize _ _ _ I1) as Hs2. rewrite El1 in Hs2. replace (size_of []) with 0 in Hs2 by done.
    destruct (Z.eqb_spec (m_size b1) 0) as [H0|H0]; unfold b1'.
    - conj; txs; try done; [|lia]. pose proof (ti_size _ _ _ I1) as Hs3.
      pose proof (laid_size_0 _ _ _ _ (ti_app _ _ _ I1) ltac:(lia)) as Ha0. destruct I1. constructor; txs; rewrite ?El1, ?Ha0 in *; try done; lia.
    - conj; try done; [|lia]. by replace a with (una + Z.min off (m_size b)) by lia. }
  assert (DiscardUpTo_head (u32 a) b1' = Ok b1') as -> by (unfold DiscardUpTo_head; by rewrite El1'). res_simpl.
  destruct (discard_end a b1' I1') as (I2 & -> & -> & (Hs3 & Hs4 & Ha4 & Hc4) & El2).
  { by rewrite El1'. }
  { rewrite Hh1', (highest_none una (m_sentList b)); [by left|apply I|apply I|lia]. }
  res_simpl. pose proof (ti_sentSize _ _ _ I1') as Hs2. rewrite El1' in Hs2. replace (size_of []) with 0 in Hs2 by done.
  eexists _, _. conj; [done|exact I2|lia|lia| |by rewrite El2, El1'|by rewrite El2, El1'|].
  { unfold same_config in *. conj; (etrans; [apply Hc4|apply Hc1']). }
  destruct (decide (m_size b = m_sentSize b)).
  + rewrite decide_True by auto. rewrite take_items_all by lia. done.
  + rewrite decide_False by lia. by replace (Z.min a (una + m_size b)) with (una + Z.min off (m_size b)) by lia.
Qed.

Lemma DiscardUpTo_ok una b now a :
  tx_inv stream una b → una - 2 ^ 29 ≤ a ≤ una + m_size b + 1 → ack_ok una a b →
  if decide (a ≤ una) then DiscardUpTo now (u32 a) b = Ok ([], b)
  else ∃ removed b', DiscardUpTo now (u32 a) b = Ok (removed, b') ∧ discarded now una a b removed b'.
Proof.
  intros I Ha Hack. pose proof (ti_bounds _ _ _ I). destruct (decide (a ≤ una)) as [Hle|Hgt].
  - unfold DiscardUpTo. rewrite (ti_una _ _ _ I), (close_ge una) by (unfold close; lia). by rewrite (proj2 (Z.leb_le _ _)).
  - destruct (Z.le_gt_cases a (una + m_sentSize b)); [apply DiscardUpTo_sent|apply DiscardUpTo_past]; done || lia.
Qed.
End discard.
