(* ===== verification/TcpTxSack.v ===== *)
(** * The transmission buffer: selective acknowledgments

    [Update] against its specification: the items within a block of the option are sacked, then
    the items with enough sacked ones above them are lost; and the other changes of the
    scoreboard. *)

From S2P Require Import Prelude SequenceNumber TcpTxBuffer TcpRxCorrect TcpTxCorrect TcpTxInvariant TcpTxDiscard.
Local Open Scope Z_scope.

(** ** Marking *)

Definition covers (block : Z * Z) (p : Z) (i : TcpTxItem) : bool := (block.1 <=? p) && (p + isize i <=? block.2).

Definition sacked_by (block : Z * Z) (p : Z) (i : TcpTxItem) : TcpTxItem :=
  if covers block p i && negb (m_sacked i) then set_flags false true (m_retrans i) i else i.

(** The items of a list from position [p] on that lie in a block are sacked. *)
Fixpoint mark (block : Z * Z) (p : Z) (l : list TcpTxItem) : list TcpTxItem :=
  match l with
  | [] => []
  | i :: l => sacked_by block p i :: mark block (p + isize i) l
  end.

Lemma isize_sacked_by block p i : isize (sacked_by block p i) = isize i.
Proof. unfold sacked_by. by case_match. Qed.

Lemma same_sacks_mark block p l : Forall2 same_sacks l (mark block p l).
Proof.
  revert p. induction l as [|i l IH]; intros p; cbn [mark]; constructor; [|apply IH].
  unfold sacked_by. by case_match.
Qed.

Lemma same_sacks_trans l1 l2 l3 : Forall2 same_sacks l1 l2 → Forall2 same_sacks l2 l3 → Forall2 same_sacks l1 l3.
Proof.
  intros H. revert l3. induction H as [|i j l1 l2 [(Hn & Hp & Hs) Hk] _ IH]; intros l3 H'; [by inversion H'|].
  apply Forall2_cons_inv_l in H' as (k & l3' & [(Hn' & Hp' & Hs') Hk'] & HF & ->).
  constructor; [|by apply IH]. unfold same_sacks, same_data. rewrite Hn', Hp', Hs'. auto.
Qed.

Lemma mark_disjoint block p l :
  Forall (λ i, m_sacked i && m_lost i = false) l → Forall (λ i, m_sacked i && m_lost i = false) (mark block p l).
Proof.
  intros H. revert p. induction H as [|i l Hi _ IH]; intros p; cbn [mark]; constructor; [|apply IH].
  unfold sacked_by. by case_match.
Qed.

(** Past the end of the block, nothing is marked. *)
Lemma mark_past block p l : block.2 < p → mark block p l = l.
Proof.
  revert p. induction l as [|i l IH]; intros p Hp; [done|]. cbn [mark]. pose proof (isize_nonneg i).
  rewrite IH by lia. unfold sacked_by, covers. rewrite (proj2 (Z.leb_gt (p + isize i) _)) by lia.
  by rewrite andb_false_r.
Qed.

Lemma tot_mark block p l :
  tot m_sacked l ≤ tot m_sacked (mark block p l) ∧ tot m_lost (mark block p l) ≤ tot m_lost l ∧
  tot m_retrans (mark block p l) = tot m_retrans l.
Proof.
  revert p. induction l as [|i l IH]; intros p; [done|]. cbn [mark]. sums. rewrite isize_sacked_by.
  destruct (IH (p + isize i)) as (? & ? & ->). pose proof (isize_nonneg i). unfold sacked_by.
  destruct (covers block p i && negb (m_sacked i)) eqn:Hc; cbn [m_sacked m_lost m_retrans set_flags]; [|lia].
  destruct (m_sacked i), (m_lost i); lia.
Qed.

(** The items that a block makes sacked, with their positions. *)
Definition new_sack (block : Z * Z) (p : Z) (i : TcpTxItem) : list (Z * TcpTxItem) :=
  if covers block p i && negb (m_sacked i) then [(p, set_flags false true (m_retrans i) i)] else [].

Fixpoint newly (block : Z * Z) (p : Z) (l : list TcpTxItem) : list (Z * TcpTxItem) :=
  match l with [] => [] | i :: l => new_sack block p i ++ newly block (p + isize i) l end.

(** The highest sacked item, as its node and position: a newly sacked item takes the place of one
    that does not begin after its end. *)
Definition raise (h : option (nat * Z)) (x : Z * TcpTxItem) : option (nat * Z) :=
  match h with
  | Some (n, q) => if q <=? x.1 + isize x.2 then Some (it_node x.2, x.1) else h
  | None => Some (it_node x.2, x.1)
  end.

Definition iterator (h : option (nat * Z)) : option nat * Z := match h with Some (n, q) => (Some n, u32 q) | None => no_sack end.
Definition placed (lo hi : Z) (h : option (nat * Z)) : Prop := ∀ n q, h = Some (n, q) → lo ≤ q ≤ hi.

Lemma newly_past block p l : block.2 < p → newly block p l = [].
Proof.
  revert p. induction l as [|i l IH]; intros p Hp; [done|]. cbn [newly]. pose proof (isize_nonneg i).
  rewrite IH by lia. unfold new_sack, covers. rewrite (proj2 (Z.leb_gt (p + isize i) _)) by lia.
  by rewrite andb_false_r.
Qed.

Lemma placed_raise lo hi h x : placed lo hi h → lo ≤ x.1 ≤ hi → placed lo hi (raise h x).
Proof. intros Hh Hx n q. unfold raise. destruct h as [[m o]|]; [case_match|]; [intros [= _ <-]; lia|apply Hh|intros [= _ <-]; lia]. Qed.

Lemma placed_iterator una l h : sack_ok una l h → ∃ h', h = iterator h' ∧ placed una (una + size_of l) h'.
Proof.
  intros [->|(l1 & i & l2 & -> & _ & ->)]; [by exists None|]. exists (Some (it_node i, una + size_of l1)). split; [done|].
  intros n q [= _ <-]. pose proof (size_nonneg l1). pose proof (size_nonneg l2). pose proof (isize_nonneg i). sums. lia.
Qed.

Lemma newly_app block p l1 l2 : newly block p (l1 ++ l2) = newly block p l1 ++ newly block (p + size_of l1) l2.
Proof.
  revert p. induction l1 as [|i l1 IH]; intros p; cbn [newly app]; [f_equal; unfold size_of; cbn; lia|].
  sums. by rewrite IH, Z.add_assoc, app_assoc.
Qed.

Lemma placed_newly lo hi block p l h : placed lo hi h → lo ≤ p → p + size_of l ≤ hi → placed lo hi (foldl raise h (newly block p l)).
Proof.
  revert p h. induction l as [|i l IH]; intros p h Hh Hlo Hhi; [done|]. pose proof (isize_nonneg i). pose proof (size_nonneg l). sums.
  cbn [newly]. rewrite foldl_app. apply IH; [|lia..]. unfold new_sack. case_match; [|done]. apply placed_raise; [done|cbn [fst]; lia].
Qed.

(** No item from position [p] on is sacked, or will be. *)
Definition none_sacked (block : Z * Z) (p : Z) (l : list TcpTxItem) : Prop :=
  ∀ l1 j l2, l = l1 ++ j :: l2 → m_sacked j = false ∧ covers block (p + size_of l1) j = false.

Lemma newly_none block p l : none_sacked block p l → newly block p l = [].
Proof.
  revert p. induction l as [|i l IH]; intros p Hn; [done|]. cbn [newly]. unfold new_sack.
  destruct (Hn [] i l eq_refl) as [_ Hc]. replace (p + size_of []) with p in Hc by (unfold size_of; cbn; lia). rewrite Hc. cbn [andb app]. apply IH.
  intros l1 j l2 ->. destruct (Hn (i :: l1) j l2 eq_refl) as [? Hj]. split; [done|]. sums. by rewrite <- Z.add_assoc.
Qed.

(** When the last sacked item is one that the block makes sacked, it is the highest one. *)
Lemma raise_last una block l pre i post h :
  sack_ok una l (iterator h) → placed una (una + size_of l) h → size_of l ≤ 2 ^ 30 → l = pre ++ i :: post → m_sacked i = false →
  covers block (una + size_of pre) i = true → none_sacked block (una + size_of (pre ++ [i])) post →
  foldl raise h (newly block una l) = Some (it_node i, una + size_of pre).
Proof.
  intros Hk Hh Hmax -> Hi Hc Hpost. pose proof (isize_nonneg i). pose proof (size_nonneg pre). pose proof (size_nonneg post).
  assert (placed una (una + size_of pre) h) as Hh'.
  { destruct h as [[m q]|]; [|done]. intros m' q' [= <- <-]. specialize (Hh m q eq_refl). split; [lia|]. destruct Hk as [?|(l1 & j & l2 & El & Hj & E)]; [done|].
    cbn [iterator] in E. injection E as Em Eq. pose proof (size_nonneg l1).
    assert (size_of l1 + isize j + size_of l2 = size_of (pre ++ i :: post)) as Es by (rewrite El; sums; lia).
    pose proof (isize_nonneg j). pose proof (size_nonneg l2).
    assert (q = una + size_of l1) as ->.
    { sums. apply Z.eqb_eq. rewrite <- (close_eq una) by (unfold close; lia). unfold seq_eq. by apply Z.eqb_eq. }
    apply app_eq_app in El as (k & [[-> Hk]|[-> Hk]]); [sums; pose proof (size_nonneg k); lia|].
    destruct k as [|i' k]; cbn in Hk; [injection Hk as <- <-; congruence|]. injection Hk as <- ->.
    destruct (Hpost k j l2 eq_refl) as [? _]. congruence. }
  change (pre ++ i :: post) with (pre ++ [i] ++ post). rewrite app_assoc, !newly_app, (newly_none _ _ post) by done. rewrite app_nil_r, foldl_app.
  cbn [newly]. unfold new_sack. rewrite Hc, Hi. cbn [andb negb app foldl].
  pose proof (placed_newly una (una + size_of pre) block una pre h Hh' ltac:(lia) ltac:(lia)) as Hp.
  unfold raise at 1. destruct (foldl raise h (newly block una pre)) as [[m q]|]; [|done]. specialize (Hp m q eq_refl). cbn [fst snd].
  change (isize (set_flags false true (m_retrans i) i)) with (isize i). by rewrite (proj2 (Z.leb_le _ _)) by lia.
Qed.

Section sack.
Context (stream : Z → Z).
Implicit Types b : TcpTxBuffer.

(** The walk over the items for one block. *)
Lemma Update_block_ok una f l p items s :
  close una f → close una l → una ≤ p → laid stream true p items → p + size_of items ≤ una + 2 ^ 30 →
  Forall (λ i, m_sacked i && m_lost i = false) items →
  tot m_lost items ≤ s_lostOut s ≤ 2 ^ 30 → 0 ≤ s_bytesSacked s ≤ s_sackedOut s → s_sackedOut s + size_of items - tot m_sacked items ≤ 2 ^ 30 →
  ∃ s', Update_block (u32 f, u32 l) (u32 p) items s = Ok (mark (f, l) p items, s') ∧
    let n := tot m_sacked (mark (f, l) p items) - tot m_sacked items in
    s_lostOut s' = s_lostOut s - (tot m_lost items - tot m_lost (mark (f, l) p items)) ∧
    s_sackedOut s' = s_sackedOut s + n ∧ s_bytesSacked s' = s_bytesSacked s + n ∧
    (s_highestSack s' = s_highestSack s ∨
     ∃ l1 i l2, mark (f, l) p items = l1 ++ i :: l2 ∧ m_sacked i = true ∧ s_highestSack s' = (Some (it_node i), u32 (p + size_of l1))) ∧
    (0 < n → is_Some (fst (s_highestSack s'))) ∧
    s_called s' = s_called s ++ (newly (f, l) p items).*2 ∧
    (∀ h, s_highestSack s = iterator h → placed una (una + 2 ^ 30) h →
       s_highestSack s' = iterator (foldl raise h (newly (f, l) p items)) ∧ placed una (una + 2 ^ 30) (foldl raise h (newly (f, l) p items))).
Proof.
  intros Hf Hl. revert p s. induction items as [|i items IH]; intros p s Hp Hlaid Hmax Hd Hlo Hby Hsk.
  { exists s. unfold mark. rewrite !Z.sub_diag, !Z.add_0_r, Z.sub_0_r. conj; try done; first [by left|cbn; by rewrite app_nil_r|cbn; lia]. }
  cbn [laid] in Hlaid. destruct Hlaid as [(Hi & _) Hlaid]. apply Forall_cons in Hd as [Hdi Hd].
  pose proof (size_nonneg items). pose proof (tot_nonneg m_lost items). pose proof (tot_le_size m_sacked items). sums.
  cbn [Update_block mark newly fst snd]. rewrite seq_add_u32.
  rewrite (close_ge una), (close_le una), (close_gt una) by (done || unfold close in *; lia).
  fold (covers (f, l) p i). change ((f <=? p) && (p + isize i <=? l)) with (covers (f, l) p i).
  destruct (covers (f, l) p i) eqn:Hcov.
  2: { unfold sacked_by at 1. unfold new_sack. rewrite Hcov. cbn [andb app]. destruct (Z.ltb_spec l (p + isize i)).
    - exists s. rewrite mark_past, newly_past by (cbn; lia). unfold sacked_by. rewrite Hcov. cbn [andb]. rewrite !Z.sub_diag, !Z.add_0_r, Z.sub_0_r.
      conj; try done; first [by left|cbn; by rewrite app_nil_r|lia].
    - destruct (IH (p + isize i) s) as (s' & -> & G1 & G2 & G3 & G4 & G5 & G6 & G7); try done; try lia.
      { destruct (m_lost i); lia. } { destruct (m_sacked i); lia. }
      exists s'. res_simpl. unfold sacked_by. rewrite Hcov. cbn [andb]. sums. conj; [done|lia|lia|lia| |intros; apply G5; lia|done|done].
      destruct G4 as [?|(l1 & j & l2 & -> & Hj & ->)]; [by left|right]. exists (i :: l1), j, l2. sums. by rewrite Z.add_assoc. }
  unfold sacked_by, new_sack. rewrite Hcov. cbn [andb]. destruct (m_sacked i) eqn:Hsi; cbn [negb].
  { cbn in Hdi. rewrite Hdi. cbn [negb app]. res_simpl.
    destruct (IH (p + isize i) s) as (s' & -> & G1 & G2 & G3 & G4 & G5 & G6 & G7); try done; try (rewrite ?Hsi, ?Hdi in *; lia).
    exists s'. res_simpl. sums. rewrite Hsi, Hdi. conj; [done|lia|lia|lia| |intros; apply G5; lia|done|done].
    destruct G4 as [?|(l1 & j & l2 & -> & Hj & ->)]; [by left|right]. exists (i :: l1), j, l2. sums. by rewrite Z.add_assoc. }
  res_simpl. set (hs := if bool_decide _ || _ then _ else _).
  set (s1 := mkSacking _ _ _ _ _).
  assert (s_lostOut s1 = s_lostOut s - (if m_lost i then isize i else 0) ∧ s_sackedOut s1 = s_sackedOut s + isize i ∧
    s_bytesSacked s1 = s_bytesSacked s + isize i) as (E1 & E2 & E3).
  { unfold s1. cbn [s_lostOut s_sackedOut s_bytesSacked]. rewrite (wrap_id 32 (s_sackedOut s + _)), (wrap_id 32 (s_bytesSacked s + _)) by zlia.
    conj; try done.
    destruct (m_lost i); [|lia]. rewrite (wrap_id 32) by zlia. lia. }
  destruct (IH (p + isize i) s1) as (s' & -> & G1 & G2 & G3 & G4 & G5 & G6 & G7); try done; try lia.
  { rewrite E1. destruct (m_lost i); lia. }
  exists s'. res_simpl. sums. change (isize (set_flags false true (m_retrans i) i)) with (isize i).
  cbn [m_sacked m_lost set_flags]. rewrite G1, G2, G3, E1, E2, E3.
  assert (is_Some (fst hs)) as Hhs.
  { unfold hs. destruct (bool_decide _) eqn:Hb; [by eexists|]. apply bool_decide_eq_false in Hb.
    cbn [orb]. destruct (sle _ _); [by eexists|]. destruct (fst (s_highestSack s)); [by eexists|done]. }
  assert (hs = s_highestSack s ∨ hs = (Some (it_node i), u32 p)) as Hhs' by (unfold hs; destruct (_ || _); auto).
  conj; [done|lia|lia|lia| | |rewrite G6; unfold s1; cbn [s_called app]; rewrite fmap_cons; by rewrite <- app_assoc|].
  3: { intros h Eh Hh. set (y := set_flags false true (m_retrans i) i). change (newly _ _ _) with (newly (f, l) (p + isize i) items).
    cbn [app foldl]. apply G7; [|apply placed_raise; [done|cbn [fst]; lia]]. change (s_highestSack s1) with hs. unfold hs. rewrite Eh.
    destruct h as [[m o]|]; [|done]. specialize (Hh m o eq_refl). cbn [iterator fst snd raise]. rewrite bool_decide_false by done. cbn [orb].
    rewrite (close_le una) by (done || unfold close; lia). change (isize y) with (isize i). 
    destruct (Z.leb_spec o (p + isize i)); done. }
  - destruct G4 as [G4|(l1 & j & l2 & -> & Hj & ->)].
    + rewrite G4. change (s_highestSack s1) with hs. destruct Hhs' as [?| ->]; [by left|right].
      exists [], (set_flags false true (m_retrans i) i), (mark (f, l) (p + isize i) items). conj; [done|done|].
      do 2 f_equal. unfold size_of. cbn. lia.
    + right. exists (set_flags false true (m_retrans i) i :: l1), j, l2. sums. change (isize (set_flags false true (m_retrans i) i)) with (isize i).
      by rewrite Z.add_assoc.
  - intros _. destruct G4 as [G4|(l1 & j & l2 & _ & _ & G4)]; rewrite G4; [exact Hhs|by eexists].
Qed.

(** ** The blocks of an option *)

(** The blocks are taken in order, up to one past the data that was sent. *)
Fixpoint mark_all (una sentEnd : Z) (blocks : list (Z * Z)) (l : list TcpTxItem) : list TcpTxItem :=
  match blocks with
  | [] => l
  | block :: blocks => if sentEnd <? block.1 then l else mark_all una sentEnd blocks (mark block una l)
  end.

(** What they make sacked, in that order. *)
Fixpoint news (una sentEnd : Z) (blocks : list (Z * Z)) (l : list TcpTxItem) : list (Z * TcpTxItem) :=
  match blocks with
  | [] => []
  | block :: blocks => if sentEnd <? block.1 then [] else newly block una l ++ news una sentEnd blocks (mark block una l)
  end.

Definition all_taken (sentEnd : Z) (blocks : list (Z * Z)) : bool := forallb (λ block, block.1 <=? sentEnd) blocks.

Lemma same_sacks_mark_all una e blocks l : Forall2 same_sacks l (mark_all una e blocks l).
Proof.
  revert l. induction blocks as [|block blocks IH]; intros l; cbn [mark_all]; [apply same_sacks_refl|].
  case_match; [apply same_sacks_refl|]. eapply same_sacks_trans; [apply same_sacks_mark|apply IH].
Qed.

Lemma mark_all_disjoint una e blocks l :
  Forall (λ i, m_sacked i && m_lost i = false) l → Forall (λ i, m_sacked i && m_lost i = false) (mark_all una e blocks l).
Proof.
  revert l. induction blocks as [|block blocks IH]; intros l Hl; cbn [mark_all]; [done|].
  case_match; [done|]. by apply IH, mark_disjoint.
Qed.

Lemma tot_mark_all una e blocks l : tot m_retrans (mark_all una e blocks l) = tot m_retrans l.
Proof.
  revert l. induction blocks as [|block blocks IH]; intros l; cbn [mark_all]; [done|]. case_match; [done|].
  rewrite IH. apply tot_mark.
Qed.

(** The blocks that are looked at. *)
Fixpoint taken (sentEnd : Z) (blocks : list (Z * Z)) : list (Z * Z) :=
  match blocks with
  | [] => []
  | block :: blocks => if sentEnd <? block.1 then [] else block :: taken sentEnd blocks
  end.

Lemma mark_app block p l1 l2 : mark block p (l1 ++ l2) = mark block p l1 ++ mark block (p + size_of l1) l2.
Proof.
  revert p. induction l1 as [|i l1 IH]; intros p; cbn [mark app]; [f_equal; unfold size_of; cbn; lia|].
  sums. by rewrite IH, Z.add_assoc.
Qed.

(** An item ends up sacked when it was, or when a block that is looked at covers it. *)
Lemma mark_all_item una e blocks pre i post :
  ∃ pre' i' post', mark_all una e blocks (pre ++ i :: post) = pre' ++ i' :: post' ∧
    Forall2 same_sacks pre pre' ∧ Forall2 same_sacks post post' ∧
    i' = if negb (m_sacked i) && existsb (λ block, covers block (una + size_of pre) i) (taken e blocks)
         then set_flags false true (m_retrans i) i else i.
Proof.
  revert pre i post. induction blocks as [|block blocks IH]; intros pre i post; cbn [mark_all taken].
  { exists pre, i, post. cbn. rewrite andb_false_r. conj; try done; apply same_sacks_refl. }
  case_match.
  { exists pre, i, post. cbn. rewrite andb_false_r. conj; try done; apply same_sacks_refl. }
  rewrite mark_app. cbn [mark existsb].
  destruct (IH (mark block una pre) (sacked_by block (una + size_of pre) i) (mark block (una + size_of pre + isize i) post))
    as (pre' & i' & post' & E & H1 & H3 & H4).
  pose proof (same_sacks_mark block una pre) as Hpre.
  exists pre', i', post'. conj; [done|by eapply same_sacks_trans|by eapply same_sacks_trans; [apply same_sacks_mark|]|].
  rewrite H4, (size_same_data _ _ (same_sacks_data _ _ Hpre)).
  assert (∀ o, covers o (una + size_of pre) (sacked_by block (una + size_of pre) i) = covers o (una + size_of pre) i) as Hcov.
  { intros o. unfold covers. by rewrite isize_sacked_by. }
  assert (∀ bs, existsb (λ o, covers o (una + size_of pre) (sacked_by block (una + size_of pre) i)) bs = existsb (λ o, covers o (una + size_of pre) i) bs) as ->.
  { intros bs. induction bs as [|o bs IHo]; [done|]. cbn [existsb]. by rewrite Hcov, IHo. }
  unfold sacked_by. destruct (covers block (una + size_of pre) i), (m_sacked i) eqn:Hs; cbn [andb orb negb m_sacked set_flags]; rewrite ?Hs; done.
Qed.

(** The counts that go with the items. *)
Record counted (una : Z) (l : list TcpTxItem) (s : sacking) : Prop := {
  cs_lost : s_lostOut s = tot m_lost l;
  cs_sacked : s_sackedOut s = tot m_sacked l;
  cs_bytes : 0 ≤ s_bytesSacked s ≤ s_sackedOut s;
  cs_highest : sack_ok una l (s_highestSack s);
  cs_some : 0 < s_bytesSacked s → is_Some (fst (s_highestSack s))
}.

Lemma Update_blocks_ok una size blocks items s :
  laid stream true una items → size = size_of items → size ≤ 2 ^ 30 →
  Forall (λ i, m_sacked i && m_lost i = false) items →
  Forall (λ e, close una e.1 ∧ close una e.2) blocks → counted una items s →
  let items' := mark_all una (una + size) blocks items in
  ∃ s', Update_blocks (wsack blocks) (u32 una) size items s = Ok (all_taken (una + size) blocks, items', s') ∧
    counted una items' s' ∧
    s_bytesSacked s' = s_bytesSacked s + (tot m_sacked items' - tot m_sacked items) ∧
    s_called s' = s_called s ++ (news una (una + size) blocks items).*2 ∧
    (∀ h, s_highestSack s = iterator h → placed una (una + 2 ^ 30) h →
       s_highestSack s' = iterator (foldl raise h (news una (una + size) blocks items))).
Proof.
  intros Hl Hsz Hmax Hd Hb Hc. revert items s Hl Hsz Hd Hc.
  induction Hb as [|[f l] blocks [Hf Hl2] _ IH]; intros items s Hl Hsz Hd Hc items'.
  { exists s. conj; [done|done| |by rewrite app_nil_r|done]. unfold items'. cbn. lia. }
  unfold items'. cbn [wsack fmap list_fmap Update_blocks mark_all news all_taken forallb fst snd] in *.
  rewrite seq_add_u32. pose proof (size_nonneg items). rewrite (close_lt una) by (done || unfold close; lia).
  destruct (Z.ltb_spec (una + size) f) as [Hlt|Hle].
  { exists s. rewrite (proj2 (Z.leb_gt f _)) by lia. cbn [andb]. conj; [done|done|lia|by rewrite app_nil_r|done]. }
  rewrite (proj2 (Z.leb_le f _)) by lia. cbn [andb].
  destruct Hc as [Hc1 Hc2 Hc3 Hc4 Hc5].
  pose proof (tot_le_size m_lost items). pose proof (tot_le_size m_sacked items). pose proof (tot_nonneg m_lost items).
  destruct (Update_block_ok una f l una items s) as (s1 & -> & G1 & G2 & G3 & G4 & G5 & G6 & G7); try done; try lia. res_simpl.
  destruct (tot_mark (f, l) una items) as (T1 & T2 & _). set (it1 := mark (f, l) una items) in *.
  destruct (IH it1 s1) as (s2 & Hu & Hc' & Hby & Hcl & Hhi).
  - eapply laid_same_data; [apply same_sacks_data, same_sacks_mark|done].
  - unfold it1. by rewrite (size_same_data _ _ (same_sacks_data _ _ (same_sacks_mark _ _ _))).
  - by apply mark_disjoint.
  - constructor; [lia|lia|lia| |].
    + destruct G4 as [->|(l1 & i & l2 & Hi & Hs & ->)].
      * eapply sack_ok_mono; [|done]. apply same_sacks_place, same_sacks_mark.
      * right. by exists l1, i, l2.
    + intros Hpos. destruct (Z.lt_ge_cases 0 (tot m_sacked it1 - tot m_sacked items)); [by apply G5|].
      destruct G4 as [->|(? & ? & ? & _ & _ & ->)]; [|by eexists]. apply Hc5. lia.
  - exists s2. conj; [exact Hu|done|lia| |].
    + change (list_fmap _ _ _) with (wsack blocks). by rewrite Hcl, G6, <- app_assoc, fmap_app.
    + intros h Eh Hh. destruct (G7 h Eh Hh) as [E1 P1]. rewrite foldl_app. by apply Hhi.
Qed.

(** ** [UpdateLostCount] *)

(** How many items are sacked. *)
Fixpoint nsacked (l : list TcpTxItem) : Z :=
  match l with [] => 0 | i :: l => (if m_sacked i then 1 else 0) + nsacked l end.

(** The items with [th] sacked ones from them on are lost. *)
Fixpoint lost_below (th : Z) (l : list TcpTxItem) : list TcpTxItem :=
  match l with
  | [] => []
  | i :: l' =>
      (if (th <=? nsacked l) && negb (m_sacked i) && negb (m_lost i) then set_flags true (m_sacked i) (m_retrans i) i else i)
      :: lost_below th l'
  end.

Lemma same_sacks_lost_below th l : Forall2 same_sacks l (lost_below th l).
Proof. induction l as [|i l IH]; cbn [lost_below]; constructor; [|done]. by case_match. Qed.

Lemma lost_below_disjoint th l :
  Forall (λ i, m_sacked i && m_lost i = false) l → Forall (λ i, m_sacked i && m_lost i = false) (lost_below th l).
Proof.
  induction 1 as [|i l Hi _ IH]; cbn [lost_below]; constructor; [|done].
  destruct (_ && negb (m_sacked i) && _) eqn:Hc; [|done]. cbn. apply andb_true_iff in Hc as [[_ Hc]%andb_true_iff _].
  apply negb_true_iff in Hc. by rewrite Hc.
Qed.

Lemma tot_lost_below th l :
  tot m_lost l ≤ tot m_lost (lost_below th l) ∧ tot m_sacked (lost_below th l) = tot m_sacked l ∧
  tot m_retrans (lost_below th l) = tot m_retrans l.
Proof.
  induction l as [|i l (? & IH1 & IH2)]; [done|]. cbn [lost_below]. sums. rewrite IH1, IH2. pose proof (isize_nonneg i).
  destruct (_ && negb (m_lost i)) eqn:Hc; [|lia]. change (isize (set_flags true (m_sacked i) (m_retrans i) i)) with (isize i).
  cbn [m_sacked m_lost m_retrans set_flags]. apply andb_true_iff in Hc as [_ Hc%negb_true_iff]. rewrite Hc. lia.
Qed.

Lemma UpdateLostCount_loop_app s th L l1 l2 :
  UpdateLostCount_loop s th L (l1 ++ l2) =
  let '(s, L, l1) := UpdateLostCount_loop s th L l1 in
  let '(s, L, l2) := UpdateLostCount_loop s th L l2 in (s, L, l1 ++ l2).
Proof.
  revert s L. induction l1 as [|i l1 IH]; intros s L; cbn [app UpdateLostCount_loop].
  { by destruct (UpdateLostCount_loop s th L l2) as [[? ?] ?]. }
  destruct (if (_ : bool) then _ else _ : Z * TcpTxItem) as [L' i'] eqn:E. rewrite IH.
  destruct (UpdateLostCount_loop _ th L' l1) as [[s1 L1] l1']. by destruct (UpdateLostCount_loop s1 th L1 l2) as [[? ?] ?].
Qed.

Lemma UpdateLostCount_loop_gen th L l :
  0 ≤ L - tot m_lost l → L - tot m_lost l + size_of l ≤ 2 ^ 30 →
  UpdateLostCount_loop 0 th L (reverse l) = (nsacked l, L + (tot m_lost (lost_below th l) - tot m_lost l), reverse (lost_below th l)).
Proof.
  intros HL. revert L HL. induction l as [|i l IH]; intros L HL Hmax; [cbn in *; f_equal; f_equal; lia|]. sums. pose proof (isize_nonneg i).
  destruct (tot_lost_below th l) as (? & _ & _). pose proof (tot_le_size m_lost (lost_below th l)) as Hle.
  rewrite (size_same_data _ _ (same_sacks_data _ _ (same_sacks_lost_below th l))) in Hle. pose proof (tot_nonneg m_lost l).
  rewrite reverse_cons, UpdateLostCount_loop_app, IH by (destruct (m_lost i); lia). cbn [UpdateLostCount_loop lost_below nsacked].
  replace (if m_sacked i then nsacked l + 1 else nsacked l) with ((if m_sacked i then 1 else 0) + nsacked l) by (destruct (m_sacked i); lia).
  destruct (_ && negb (m_lost i)) eqn:Hc; rewrite reverse_cons; sums; f_equal; f_equal; [|lia].
  change (isize (set_flags true (m_sacked i) (m_retrans i) i)) with (isize i). cbn [m_lost set_flags].
  apply andb_true_iff in Hc as [_ Hc%negb_true_iff]. rewrite Hc in *. rewrite (wrap_id 32) by zlia. lia.
Qed.

Lemma split_node_ok l1 i l2 : NoDup (nodes (l1 ++ i :: l2)) → split_node (it_node i) (l1 ++ i :: l2) = Some (l1 ++ [i], l2).
Proof.
  unfold nodes. induction l1 as [|j l1 IH]; intros Hnd; cbn [app split_node].
  - by rewrite Nat.eqb_refl.
  - cbn [app] in Hnd. rewrite fmap_cons in Hnd. apply NoDup_cons in Hnd as [Hj Hnd].
    destruct (Nat.eqb_spec (it_node j) (it_node i)) as [E|_]; [|by rewrite IH].
    exfalso. apply Hj. rewrite E, fmap_app. apply elem_of_app. right. by left.
Qed.

Lemma UpdateLostCount_ok una b l1 i l2 p :
  tx_core stream una b → m_sentList b = l1 ++ i :: l2 → m_sacked i = true →
  (∀ j, head (m_sentList b) = Some j → m_sacked j = false) → m_highestSack b = (Some (it_node i), p) →
  UpdateLostCount b = Ok (recount (lost_below (m_dupAckThresh b) (l1 ++ [i]) ++ l2) b).
Proof.
  intros I El Hi Hhd Hh. unfold UpdateLostCount. rewrite Hh. cbn [fst]. res_simpl. rewrite El.
  rewrite split_node_ok by (rewrite <- El; by destruct (ti_nodes _ _ _ I) as [[? _]%NoDup_app _]). res_simpl.
  destruct l1 as [|h l1]; [specialize (Hhd i); rewrite El in Hhd; specialize (Hhd eq_refl); congruence|].
  assert (m_sacked h = false) as Hsh by (apply Hhd; by rewrite El).
  pose proof (ti_sentSize _ _ _ I) as Hsz. pose proof (ti_bounds _ _ _ I).
  set (th := m_dupAckThresh b). set (l := l1 ++ [i]).
  assert (m_sentList b = h :: l ++ l2) as El' by (unfold l; rewrite El; cbn; by rewrite <- app_assoc).
  rewrite El' in Hsz. pose proof (size_nonneg l). pose proof (size_nonneg l2). pose proof (isize_nonneg h). sums.
  pose proof (ti_lost _ _ _ I) as HL. rewrite El' in HL. sums.
  pose proof (tot_le_size m_lost l). pose proof (tot_le_size m_lost l2). pose proof (tot_nonneg m_lost l). pose proof (tot_nonneg m_lost l2).
  destruct (tot_lost_below th l) as (T1 & T2 & T3). pose proof (tot_le_size m_lost (lost_below th l)) as T4.
  rewrite (size_same_data _ _ (same_sacks_data _ _ (same_sacks_lost_below th l))) in T4.
  assert (0 ≤ m_lostOut b - tot m_lost l) by (destruct (m_lost h); lia).
  assert (m_lostOut b - tot m_lost l ≤ isize h + tot m_lost l2) by (destruct (m_lost h); lia).
  change ((h :: l1) ++ [i]) with (h :: l). cbn [mbind]. fold th.
  assert (UpdateLostCount_loop 0 th (m_lostOut b) (reverse l) =
    (nsacked l, m_lostOut b + (tot m_lost (lost_below th l) - tot m_lost l), reverse (lost_below th l))) as ->.
  { apply UpdateLostCount_loop_gen; lia. }
  rewrite reverse_involutive. cbn [lost_below nsacked].
  rewrite Hsh. cbn [negb]. rewrite andb_true_r, Z.add_0_l. unfold recount. sums.
  rewrite (ti_sacked _ _ _ I), (ti_retrans _ _ _ I), El'. sums. rewrite T2, T3.
  destruct ((th <=? nsacked l) && negb (m_lost h)) eqn:Hc; cbn [m_lost m_sacked m_retrans set_flags]; rewrite Hsh.
  - apply andb_true_iff in Hc as [_ Hc%negb_true_iff]. rewrite Hc in HL.
    change (isize (set_flags true false (m_retrans h) h)) with (isize h). f_equal. f_equal. f_equal; [|lia].
    rewrite (wrap_id 32) by zlia. lia.
  - f_equal. f_equal. f_equal; lia.
Qed.

(** ** [Update] *)

(** A block that does not hold the first byte: it is past it, or of an option that is late. *)
Definition block_past (una : Z) (e : Z * Z) : Prop := (una < e.1 ∨ e.2 ≤ una) ∧ close una e.1 ∧ close una e.2.

Lemma mark_all_head una e blocks l :
  Forall (block_past una) blocks → (∀ i, head l = Some i → 0 < isize i) → head (mark_all una e blocks l) = head l.
Proof.
  intros Hb. revert l. induction Hb as [|block blocks [Hlt _] _ IH]; intros l Hpos; [done|]. cbn [mark_all]. case_match; [done|].
  assert (head (mark block una l) = head l) as Hm; [|rewrite IH; [done|by rewrite Hm]].
  destruct l as [|i l]; [done|]. specialize (Hpos i eq_refl). cbn [mark head]. unfold sacked_by, covers.
  destruct Hlt; [by rewrite (proj2 (Z.leb_gt block.1 _)) by lia|].
  rewrite (proj2 (Z.leb_gt (una + _) _)) by lia. by rewrite andb_false_r.
Qed.

Lemma head_mark_sacks l l' : Forall2 same_sacks l l' → l ≠ [] → l' ≠ [].
Proof. by intros [] ?. Qed.

(** The flags that say what is sacked. *)
Definition sacks (l : list TcpTxItem) : list bool := m_sacked <$> l.

Lemma tot_sacks l l' : Forall2 same_sacks l l' → sacks l' = sacks l → tot m_sacked l' = tot m_sacked l.
Proof.
  unfold sacks. induction 1 as [|i j l l' [(_ & Hp & _) _] _ IH]; [done|]. rewrite !fmap_cons. intros [= Hs Hl].
  sums. rewrite (IH Hl), Hs. unfold isize. by rewrite Hp.
Qed.

Lemma sacks_lost_below th l : sacks (lost_below th l) = sacks l.
Proof.
  unfold sacks. induction l as [|i l IH]; [done|]. cbn [lost_below]. rewrite !fmap_cons, IH. f_equal. by case_match.
Qed.

(** The checks at the end. *)
Lemma Update_end una b (n : Z) (called : list TcpTxItem) :
  tx_inv stream una b → m_sentList b ≠ [] →
  (head ← deref (head (m_sentList b));
   ns_assert (negb (m_sacked head)) ≫= λ _,
   ns_assert (u32 (m_sackedOut b + m_lostOut b) <=? m_sentSize b) ≫= λ _, Ok (n, called, b)) = Ok (n, called, b).
Proof.
  intros I Hne. pose proof (ti_head _ _ _ I) as Hh. pose proof (ti_leftout _ _ _ I). pose proof (ti_bounds _ _ _ I).
  destruct (m_sentList b) as [|y l]; [done|]. cbn [head] in *. res_simpl. rewrite (Hh y eq_refl). cbn [negb]. res_simpl.
  rewrite (wrap_id 32) by zlia. by rewrite (proj2 (Z.leb_le _ _)) by lia.
Qed.

(** Marking items lost below the highest sacked one. *)
Lemma lost_inv una b l1 i l2 :
  tx_inv stream una b → m_sentList b = l1 ++ i :: l2 → m_sacked i = true → m_highestSack b = (Some (it_node i), u32 (una + size_of l1)) →
  tx_inv stream una (recount (lost_below (m_dupAckThresh b) (l1 ++ [i]) ++ l2) b).
Proof.
  intros I El Hsi Hhs. pose proof (ti_head _ _ _ I) as Hhead. assert (Forall (λ i, m_sacked i && m_lost i = false) (m_sentList b)) as Hd by apply I.
  assert (Forall2 same_sacks (m_sentList b) (lost_below (m_dupAckThresh b) (l1 ++ [i]) ++ l2)) as Hss.
  { rewrite El, cons_middle, app_assoc. apply Forall2_app; [apply same_sacks_lost_below|apply same_sacks_refl]. }
  rewrite El in Hhead. split.
  - apply tx_core_recount; [apply I|by apply same_sacks_data|]. rewrite El, cons_middle, app_assoc in Hd. apply Forall_app in Hd as [? ?].
    apply Forall_app. split; [by apply lost_below_disjoint|done].
  - intros j Hj. unfold recount in Hj. txs. destruct l1 as [|h l1]; [specialize (Hhead i eq_refl); congruence|].
    cbn [app lost_below head] in Hj. injection Hj as <-. specialize (Hhead h eq_refl). case_match; [exact Hhead|done].
  - unfold recount. txs. eapply sack_ok_mono; [apply same_sacks_place; exact Hss|]. right. by exists l1, i, l2.
Qed.

Lemma Update_ok una b ps :
  tx_inv stream una b → m_sentList b ≠ [] → Forall (block_past una) ps →
  let items := mark_all una (una + m_sentSize b) ps (m_sentList b) in
  let n := tot m_sacked items - tot m_sacked (m_sentList b) in
  ∃ b', Update (wsack ps) b = Ok (n, (news una (una + m_sentSize b) ps (m_sentList b)).*2, b') ∧ tx_inv stream una b' ∧ same_sizes b b' ∧
    (∃ h, m_highestSack b = iterator h ∧ placed una (una + m_sentSize b) h ∧
       m_highestSack b' = iterator (foldl raise h (news una (una + m_sentSize b) ps (m_sentList b)))) ∧
    Forall2 same_sacks items (m_sentList b') ∧ sacks (m_sentList b') = sacks items ∧
    (if all_taken (una + m_sentSize b) ps && (0 <? n) then
       ∃ l1 i l2, items = l1 ++ i :: l2 ∧ m_sacked i = true ∧ m_highestSack b' = (Some (it_node i), u32 (una + size_of l1)) ∧
         m_sentList b' = lost_below (m_dupAckThresh b) (l1 ++ [i]) ++ l2
     else m_sentList b' = items).
Proof.
  intros I Hne Hps items n. pose proof (ti_bounds _ _ _ I). pose proof (ti_sentSize _ _ _ I) as Hsz.
  assert (Forall (λ e, close una e.1 ∧ close una e.2) ps) as Hclose by (eapply Forall_impl; [exact Hps|]; by intros e (_ & ? & ?)).
  unfold Update. rewrite (ti_una _ _ _ I).
  destruct (Update_blocks_ok una (m_sentSize b) ps (m_sentList b) (mkSacking (m_lostOut b) (m_sackedOut b) 0 (m_highestSack b) []))
    as (s & Hu & [Hc1 Hc2 Hc3 Hc4 Hc5] & Hby & Hcl & Hhi); try apply I; [lia|done| |].
  { constructor; cbn [s_lostOut s_sackedOut s_bytesSacked s_highestSack]; try apply I; [|lia].
    rewrite (ti_sacked _ _ _ I). pose proof (tot_nonneg m_sacked (m_sentList b)). lia. }
  cbn [s_called app] in Hcl.
  assert (∃ h, m_highestSack b = iterator h ∧ placed una (una + m_sentSize b) h ∧
    s_highestSack s = iterator (foldl raise h (news una (una + m_sentSize b) ps (m_sentList b)))) as Hhigh.
  { destruct (placed_iterator una _ _ (ti_highest _ _ _ I)) as (h & Eh & Hh). rewrite <- Hsz in Hh. exists h. conj; [done..|].
    apply Hhi; [done|]. intros m q E. specialize (Hh m q E). lia. }
  rewrite Hu. res_simpl. rewrite <- Hcl. fold items in Hc1, Hc2, Hc4, Hby. fold n in Hby. cbn [s_bytesSacked] in Hby. rewrite Z.add_0_l in Hby.
  pose proof (same_sacks_mark_all una (una + m_sentSize b) ps (m_sentList b)) as Hsame. fold items in Hsame.
  assert (tot m_retrans items = m_retransOut b) as Hretr.
  { unfold items. rewrite tot_mark_all. symmetry. apply I. }
  set (b1 := set_highestSack _ _).
  assert (b1 = set_highestSack (s_highestSack s) (recount items b)) as Eb1 by (unfold b1, recount; by rewrite Hc1, Hc2, Hretr).
  assert (Forall (λ i, m_sacked i && m_lost i = false) items) as Hd by (apply mark_all_disjoint, I).
  assert (tx_core stream una b1) as I1.
  { rewrite Eb1. apply tx_core_highest, tx_core_recount; [apply I|by apply same_sacks_data|done]. }
  assert (head items = head (m_sentList b)) as Hhead.
  { apply mark_all_head; [done|]. intros i Hi. pose proof (ti_sent _ _ _ I) as Hl. destruct (m_sentList b) as [|j r]; [done|].
    injection Hi as ->. by destruct Hl as [[? _] _]. }
  assert (∀ j, head items = Some j → m_sacked j = false) as Hhead' by (rewrite Hhead; apply I).
  assert (tx_inv stream una b1) as I1' by (rewrite Eb1 in *; by split).
  assert (same_sizes b b1) as Hs1 by (by rewrite Eb1).
  rewrite Hby. destruct (all_taken (una + m_sentSize b) ps) eqn:Hall; cbn [negb andb].
  2: { exists b1. conj; [done|exact I1'|exact Hs1|by rewrite Eb1| |..]; rewrite Eb1; try done. apply same_sacks_refl. }
  assert (items ≠ []) as Hne' by (by eapply head_mark_sacks).
  destruct (Z.ltb_spec 0 n) as [Hpos|Hpos].
  - pose proof (Hc5 ltac:(lia)) as Hsome. destruct Hc4 as [Hno|(l1 & i & l2 & Hi & Hsi & Hhs)]; [by rewrite Hno in Hsome; destruct Hsome|].
    rewrite bool_decide_true by (by rewrite Eb1). res_simpl.
    assert (m_sentList b1 = l1 ++ i :: l2) as El1 by (rewrite Eb1; exact Hi).
    rewrite (UpdateLostCount_ok una b1 l1 i l2 (u32 (una + size_of l1)) I1 El1 Hsi); [|by rewrite Eb1|by rewrite Eb1].
    res_simpl. change (m_dupAckThresh b1) with (m_dupAckThresh b).
    set (items' := lost_below (m_dupAckThresh b) (l1 ++ [i]) ++ l2).
    assert (Forall2 same_sacks items items') as Hss.
    { rewrite Hi. change (l1 ++ i :: l2) with (l1 ++ [i] ++ l2). rewrite app_assoc. apply Forall2_app; [apply same_sacks_lost_below|apply same_sacks_refl]. }
    pose proof (lost_inv una b1 l1 i l2 I1' El1 Hsi ltac:(by rewrite Eb1)) as I2. change (m_dupAckThresh b1) with (m_dupAckThresh b) in I2. fold items' in I2.
    rewrite (Update_end una (recount items' b1) _ _ I2) by (by eapply head_mark_sacks).
    exists (recount items' b1). conj; [done|exact I2|exact Hs1|by unfold recount; rewrite Eb1|exact Hss| |].
    + unfold recount. txs. unfold items'. rewrite Hi. unfold sacks. rewrite fmap_app. fold (sacks (lost_below (m_dupAckThresh b) (l1 ++ [i]))).
      rewrite sacks_lost_below. unfold sacks. rewrite <- fmap_app. by rewrite <- app_assoc.
    + exists l1, i, l2. conj; [done|done| |done]. unfold recount. txs. by rewrite Eb1.
  - res_simpl. rewrite (Update_end una b1 _ _ I1') by (by rewrite Eb1).
    exists b1. rewrite Eb1 in *. conj; try done. apply same_sacks_refl.
Qed.
End sack.
