(* ===== verification/TcpTxTheorems.v ===== *)
(** * The transmission buffer: the theorems

    The runs of a buffer keep the invariant and an exact scoreboard; what copying, acknowledging,
    selective acknowledgments and the choice of the next segment do. *)

From S2P Require Import Prelude SequenceNumber TcpTxBuffer TcpRxCorrect TcpTxCorrect TcpTxInvariant TcpTxDiscard TcpTxSack.
Local Open Scope Z_scope.

Section operations.
Context (stream : Z → Z).
Implicit Types b : TcpTxBuffer.

(** ** Operations on the scoreboard *)

Lemma head_recount (l : list TcpTxItem) b : m_sentList (recount l b) = l.
Proof. done. Qed.

Lemma tx_inv_params una b mx d s r e :
  m_size b ≤ mx ≤ 2 ^ 30 → tx_inv stream una b → tx_inv stream una (set_params mx d s r e b).
Proof. intros ? []. split; [by apply tx_core_params|done|done]. Qed.

(** The invariant after new flags, given to all items. *)
Lemma tx_inv_recount una b l' :
  tx_inv stream una b → Forall2 same_data (m_sentList b) l' → Forall (λ i, m_sacked i && m_lost i = false) l' →
  (∀ i, head l' = Some i → m_sacked i = false) → sack_ok una l' (m_highestSack b) → tx_inv stream una (recount l' b).
Proof. intros I HF Hd Hh Hk. split; [apply tx_core_recount; [apply I|done|done]|done|done]. Qed.

Lemma tx_inv_no_sack una b : tx_inv stream una b → tx_inv stream una (set_highestSack no_sack b).
Proof. intros [I Hh Hk]. split; [by apply (tx_core_highest stream una b)|done|by left]. Qed.

Lemma same_place_flags_head i j l : it_node j = it_node i → isize j = isize i → m_sacked i = false → Forall2 same_place (i :: l) (j :: l).
Proof. intros. constructor; [|apply same_place_refl]. unfold same_place. conj; try done. congruence. Qed.

Lemma MarkHeadAsLost_inv una b : tx_inv stream una b → tx_inv stream una (MarkHeadAsLost b) ∧ same_sizes b (MarkHeadAsLost b).
Proof.
  intros I. rewrite (MarkHeadAsLost_ok stream una b I). destruct (m_sentList b) as [|h l] eqn:El; [done|].
  split; [|done]. pose proof (ti_disjoint _ _ _ I) as Hd. rewrite El in Hd. apply Forall_cons in Hd as [_ Hd].
  apply tx_inv_recount; [done| |by constructor|by intros i [= <-]|].
  - rewrite El. constructor; [done|apply same_data_refl].
  - eapply sack_ok_mono; [|apply I]. rewrite El. apply same_place_flags_head; [done|done|]. apply (ti_head _ _ _ I). by rewrite El.
Qed.

(** Dup-acks are guessed to be of the next segment: SACK is off, and it is not lost. *)
Definition reno_ok (b : TcpTxBuffer) : Prop :=
  m_sentList b ≠ [] ∧ (m_sackEnabled b = true → 1 < Z.of_nat (length (m_sentList b))) ∧
  ∀ l1 it l2, tail (m_sentList b) = l1 ++ it :: l2 → Forall (λ i, m_sacked i = true) l1 → m_sacked it = false → m_lost it = false.

Lemma AddRenoSack_inv una b :
  tx_inv stream una b → reno_ok b → ∃ b', AddRenoSack b = Ok b' ∧ tx_inv stream una b' ∧ same_sizes b b'.
Proof.
  intros I (Hne & Hen & Hnl). destruct (m_sentList b) as [|h l] eqn:El; [done|].
  destruct (AddRenoSack_ok stream una b h l I El) as [[_ ->]|(l1 & it & l2 & -> & Hl1 & Hit & ->)].
  - intros He. specialize (Hen He). by destruct l.
  - eexists. conj; [done| |done]. apply tx_inv_params; [apply I|done].
  - eexists. conj; [done| |done]. specialize (Hnl l1 it l2 eq_refl Hl1 Hit).
    pose proof (ti_disjoint _ _ _ I) as Hd. rewrite El in Hd. apply Forall_cons in Hd as [Hdh Hd]. apply Forall_app in Hd as [Hd1 Hd2].
    apply Forall_cons in Hd2 as [_ Hd2].
    assert (tx_core stream una (set_reno b)) as I1 by (apply tx_core_params; apply I).
    split.
    + apply tx_core_highest, tx_core_recount; [done| |].
      * change (m_sentList (set_reno b)) with (m_sentList b). rewrite El. constructor; [done|].
        apply Forall2_app; [apply same_data_refl|]. constructor; [done|apply same_data_refl].
      * constructor; [done|]. apply Forall_app. split; [done|]. constructor; [|done]. cbn. by rewrite Hnl.
    + txs. unfold recount. txs. intros i [= <-]. apply (ti_head _ _ _ I). by rewrite El.
    + txs. unfold recount. txs. right. exists (h :: l1), (sack_item it), l2. sums. rewrite Z.add_assoc. done.
Qed.

Lemma ResetRenoSack_inv una b : tx_inv stream una b → tx_inv stream una (ResetRenoSack b) ∧ same_sizes b (ResetRenoSack b).
Proof.
  intros I. unfold ResetRenoSack. set (g := λ i : TcpTxItem, set_flags (m_lost i) false (m_retrans i) i).
  assert (set_sentList (g <$> m_sentList b) (set_counts (m_lostOut b) 0 (m_retransOut b) b) = recount (g <$> m_sentList b) b) as ->.
  { unfold recount. rewrite (ti_lost _ _ _ I), (ti_retrans _ _ _ I).
    rewrite (tot_fmap m_lost m_lost g), (tot_fmap m_retrans m_retrans g), (tot_fmap m_sacked (λ _, false) g) by done.
    by rewrite (tot_none (λ _, false)) by (by apply Forall_true). }
  split; [|done]. split.
  - apply tx_core_highest, tx_core_recount; [apply I| |].
    + apply Forall2_fmap_r, Forall_Forall2_diag, Forall_true. done.
    + apply Forall_fmap, Forall_true. done.
  - txs. unfold recount. txs. intros i Hi. destruct (m_sentList b); [done|]. by injection Hi as <-.
  - by left.
Qed.

Lemma ResetSentList_inv una b :
  tx_inv stream una b →
  tx_inv stream una (ResetSentList b) ∧ m_sentList (ResetSentList b) = [] ∧ m_size (ResetSentList b) = m_size b.
Proof.
  intros I. split; [|done]. pose proof (ti_appflags _ _ _ I) as Hfl. pose proof (ti_app _ _ _ I) as Happ.
  pose proof (ti_sentSize _ _ _ I) as Hsz.
  set (g := set_flags false false false).
  assert (size_of (g <$> m_sentList b) = size_of (m_sentList b)) as Hg by (by apply tot_fmap).
  split; [|done|by left]. pose proof I as [[] _ _]. constructor; unfold ResetSentList; txs; try done; fold g.
  - rewrite Z.add_0_r. apply laid_app. split.
    + apply laid_fmap; [done|]. by apply laid_weaken.
    + by rewrite Hg, <- Hsz.
  - sums. rewrite Hg. lia.
  - apply Forall_app. split; [|done]. apply Forall_fmap, Forall_true. done.
  - unfold nodes in *. rewrite fmap_nil, app_nil_l, fmap_app, <- list_fmap_compose. done.
Qed.

(** All that is not sacked is lost, and with [resetSack] all. *)
Definition lose (resetSack : bool) (i : TcpTxItem) : TcpTxItem :=
  if resetSack then set_flags true false false i else set_flags (negb (m_sacked i)) (m_sacked i) false i.

Lemma SetSentListLost_loop_ok resetSack L l :
  Forall (λ i, m_sacked i && m_lost i = false) l → (resetSack = false → 0 ≤ L ∧ L + size_of l ≤ 2 ^ 30) →
  SetSentListLost_loop resetSack L l = (if resetSack then L else L + tot m_lost (lose resetSack <$> l), lose resetSack <$> l).
Proof.
  intros Hd. revert L. induction Hd as [|i l Hi Hd IH]; intros L Hmax; cbn [SetSentListLost_loop].
  { destruct resetSack; [done|]. cbn. by rewrite Z.add_0_r. }
  pose proof (isize_nonneg i). pose proof (size_nonneg l). sums. rewrite fmap_cons. sums.
  destruct resetSack; [by rewrite IH|]. destruct (Hmax eq_refl). cbn [lose].
  change (isize (set_flags (negb (m_sacked i)) (m_sacked i) false i)) with (isize i).
  cbn [m_lost set_flags]. destruct (m_sacked i), (m_lost i); try done; cbn [negb];
    try rewrite (wrap_id 32 (L + isize i)) by zlia; rewrite IH by lia; f_equal; lia.
Qed.

Lemma lose_data resetSack l : Forall2 same_data l (lose resetSack <$> l).
Proof. apply Forall2_fmap_r, Forall_Forall2_diag, Forall_true. by destruct resetSack. Qed.

Lemma SetSentListLost_inv una b resetSack :
  tx_inv stream una b →
  ∃ b', SetSentListLost resetSack b = Ok b' ∧ tx_inv stream una b' ∧ same_sizes b b' ∧ m_sentList b' = lose resetSack <$> m_sentList b.
Proof.
  intros I. pose proof (ti_bounds _ _ _ I). pose proof (ti_sentSize _ _ _ I) as Hsz.
  set (l := lose resetSack <$> m_sentList b).
  pose proof (lose_data resetSack (m_sentList b)) as Hdata. fold l in Hdata.
  set (b1 := if resetSack then set_highestSack no_sack b else b).
  assert (tx_inv stream una b1) as I1 by (unfold b1; destruct resetSack; [by apply tx_inv_no_sack|done]).
  assert (m_sentList b1 = m_sentList b) as El1 by (unfold b1; by destruct resetSack).
  assert (tx_inv stream una (recount l b1)) as I2.
  { apply tx_inv_recount; [done|by rewrite El1| | |].
    - apply Forall_fmap, Forall_true. intros i. cbn. unfold lose. destruct resetSack; [done|]. cbn. by destruct (m_sacked i).
    - unfold l. intros i Hi. pose proof (ti_head _ _ _ I) as Hh. destruct (m_sentList b) as [|y r]; [done|].
      injection Hi as <-. unfold lose. destruct resetSack; [done|]. cbn. by apply Hh.
    - unfold b1, l. destruct resetSack; [by left|]. eapply sack_ok_mono; [|apply I].
      apply Forall2_fmap_r, Forall_Forall2_diag, Forall_true. done. }
  assert (SetSentListLost resetSack b = Ok (recount l b1)) as E.
  { unfold SetSentListLost. set (b0 := if resetSack then _ else _).
    assert (m_sentList b0 = m_sentList b) as -> by (unfold b0; by destruct resetSack).
    rewrite SetSentListLost_loop_ok; [|apply I|intros ->; unfold b0; txs; lia]. fold l.
    assert (set_sentList l (set_counts (if resetSack then m_lostOut b0 else m_lostOut b0 + tot m_lost l)
      (m_sackedOut b0) (m_retransOut b0) b0) = recount l b1) as ->.
    { unfold recount, b0, b1, l. destruct resetSack; txs.
      - rewrite (tot_fmap m_lost (λ _, true)), (tot_fmap m_sacked (λ _, false)), (tot_fmap m_retrans (λ _, false)) by done.
        rewrite !(tot_none (λ _, false)) by (by apply Forall_true). fold (size_of (m_sentList b)). by rewrite <- Hsz.
      - rewrite (tot_fmap m_sacked m_sacked), (tot_fmap m_retrans (λ _, false)) by done.
        rewrite !(tot_none (λ _, false)) by (by apply Forall_true). by rewrite (ti_sacked _ _ _ I). }
    pose proof (ti_leftout _ _ _ I2). pose proof (ti_bounds _ _ _ I2).
    rewrite (wrap_id 32) by zlia. by rewrite (proj2 (Z.leb_le _ _)) by lia. }
  exists (recount l b1). conj; try done. unfold b1. by destruct resetSack.
Qed.

Lemma DeleteRetransmittedFlagFromHead_inv una b :
  tx_inv stream una b → ∃ b', DeleteRetransmittedFlagFromHead b = Ok b' ∧ tx_inv stream una b' ∧ same_sizes b b' ∧
    (∀ h, head (m_sentList b') = Some h → m_retrans h = false).
Proof.
  intros I. unfold DeleteRetransmittedFlagFromHead. pose proof (ti_sentSize _ _ _ I) as Hsz.
  destruct (Z.eqb_spec (m_sentSize b) 0).
  { exists b. conj; try done. intros h Hh. pose proof (laid_size_0 stream _ _ _ (ti_sent _ _ _ I) ltac:(lia)) as El. by rewrite El in Hh. }
  destruct (m_sentList b) as [|h l] eqn:El; [unfold size_of in Hsz; cbn in Hsz; lia|].
  destruct (m_retrans h) eqn:Hr.
  2: { exists b. conj; try done. rewrite El. by intros ? [= <-]. }
  set (h' := set_flags (m_lost h) (m_sacked h) false h).
  assert (set_sentList (h' :: l) (set_counts (m_lostOut b) (m_sackedOut b) (u32 (m_retransOut b - isize h)) b) = recount (h' :: l) b) as ->.
  { unfold recount. rewrite (ti_lost _ _ _ I), (ti_sacked _ _ _ I), (ti_retrans _ _ _ I), El. sums. rewrite Hr.
    change (isize h') with (isize h). cbn [h' m_lost m_sacked m_retrans set_flags]. do 2 f_equal.
    replace (isize h + tot m_retrans l - isize h) with (tot m_retrans l) by lia. apply (tot_u32 stream una b); [apply I|].
    sums. pose proof (isize_nonneg h). lia. }
  eexists. conj; [done| |done|by intros ? [= <-]].
  pose proof (ti_disjoint _ _ _ I) as Hd. rewrite El in Hd. apply Forall_cons in Hd as [Hdh Hd].
  apply tx_inv_recount; [done| |by constructor|intros i [= <-]; exact (ti_head _ _ _ I h ltac:(by rewrite El))|].
  - rewrite El. constructor; [done|apply same_data_refl].
  - eapply sack_ok_mono; [|apply I]. rewrite El. apply same_place_flags_head; [done|done|]. apply (ti_head _ _ _ I). by rewrite El.
Qed.

(** A segment that was just sent for the first time is taken back. *)
Lemma ResetLastSegmentSent_inv una b l x :
  tx_inv stream una b → m_sentList b = l ++ [x] → flagged false false x → m_retrans x = false →
  tx_inv stream una (ResetLastSegmentSent b) ∧ m_sentList (ResetLastSegmentSent b) = l ∧
  m_size (ResetLastSegmentSent b) = m_size b ∧ m_sentSize (ResetLastSegmentSent b) = m_sentSize b - isize x.
Proof.
  intros I El [Hx1 Hx2] Hx3. pose proof (ti_bounds _ _ _ I). unfold ResetLastSegmentSent. rewrite El, last_snoc. rewrite Hx3.
  rewrite removelast_last. destruct (tx_core_small stream una b x l [] I El) as [Hx Hsz]. pose proof (size_nonneg l).
  replace (size_of []) with 0 in Hsz by done. txs. set (y := mkItem (next_node b) _ _ _ _ _ _).
  assert (isize y = isize x) as Hy by done. rewrite Hy, (wrap_id 32 (m_sentSize b - isize x)) by zlia. conj; try done.
  destruct I as [I Hh Hk]. split; txs.
  - pose proof I as I0. destruct I0. rewrite El in *. constructor; txs; try done.
    + by apply laid_app in ti_sent as [? _].
    + apply laid_app in ti_sent as [_ Hlx]. apply laid_weaken in Hlx. sums.
      replace (una + (m_sentSize b - isize x)) with (una + size_of l) by lia. change (y :: m_appList b) with ([y] ++ m_appList b).
      apply laid_app. split; [exact Hlx|]. sums. rewrite Hy. replace (size_of []) with 0 by done.
      by replace (una + size_of l + (isize x + 0)) with (una + m_sentSize b) by lia.
    + lia.
    + sums. rewrite Hy. lia.
    + rewrite ti_sacked. sums. rewrite Hx1. cbn. lia.
    + rewrite ti_lost. sums. rewrite Hx2. cbn. lia.
    + rewrite ti_retrans. sums. rewrite Hx3. cbn. lia.
    + by apply Forall_app in ti_disjoint as [? _].
    + by constructor.
    + destruct ti_nodes as [Hnd Hlt]. unfold nodes in *. rewrite fmap_app in Hnd, Hlt. rewrite fmap_cons. cbn [y it_node].
      rewrite <- app_assoc in Hnd, Hlt. assert (sublist ((it_node <$> l) ++ (it_node <$> m_appList b)) ((it_node <$> l) ++ (it_node <$> [x]) ++ (it_node <$> m_appList b))) as Hsub
        by (apply sublist_app; [done|by apply sublist_inserts_l]).
      assert (∀ z, z ∈ (it_node <$> l) ++ (it_node <$> m_appList b) → z ∈ (it_node <$> l) ++ (it_node <$> [x]) ++ (it_node <$> m_appList b)) as Hsubset
        by (intros z; rewrite !elem_of_app; tauto).
      apply (fresh_perm _ (next_node b :: (it_node <$> l) ++ (it_node <$> m_appList b))); [apply Permutation_middle|]. split.
      * constructor; [|by eapply sublist_NoDup]. intros Hin. apply (Hsubset _) in Hin. rewrite Forall_forall in Hlt. specialize (Hlt _ Hin). lia.
      * constructor; [lia|]. apply Forall_forall. intros z Hz. rewrite Forall_forall in Hlt. specialize (Hlt _ (Hsubset _ Hz)). cbn in Hlt. lia.
  - intros i Hi. apply Hh. rewrite El. by destruct l.
  - destruct Hk as [?|(l1 & i & l2 & Hl & Hi & ?)]; [by left|right].
    rewrite El in Hl. destruct l2 as [|z l2 _] using rev_ind.
    + apply app_inj_tail in Hl as [_ <-]. congruence.
    + rewrite app_comm_cons, app_assoc in Hl. apply app_inj_tail in Hl as [-> _]. by exists l1, i, l2.
Qed.
End operations.

(** ** The runs of a buffer *)

(** A request from the item [i] on asks for data that was sent, or the sequence numbers of what
    it asks for do not wrap around. *)
Definition copy_ok (una n : Z) (pre : list TcpTxItem) (i : TcpTxItem) (post : list TcpTxItem) (b : TcpTxBuffer) : Prop :=
  let s := Z.min n (m_size b - size_of pre) in
  0 < n ∧ m_sacked i = false ∧ (s ≤ size_of (i :: post) ∨ u32 (una + size_of pre) + s < 2 ^ 32).

(** The operations that neither send nor take in what the peer says. *)
Inductive local_op (stream : Z → Z) (una : Z) (b : TcpTxBuffer) : res TcpTxBuffer → Prop :=
  | op_add k :
      0 ≤ k < 2 ^ 32 → local_op stream una b (Ok (snd (Add (bytes stream (una + m_size b) (una + m_size b + k)) b)))
  | op_head_lost : local_op stream una b (Ok (MarkHeadAsLost b))
  | op_all_lost resetSack : local_op stream una b (SetSentListLost resetSack b)
  | op_reset_reno : local_op stream una b (Ok (ResetRenoSack b))
  | op_reset_sent : local_op stream una b (Ok (ResetSentList b))
  | op_delete_retrans : local_op stream una b (DeleteRetransmittedFlagFromHead b)
  | op_unsend l x :
      m_sentList b = l ++ [x] → flagged false false x → m_retrans x = false →
      local_op stream una b (Ok (ResetLastSegmentSent b)).

(** A request for data: for [n] bytes from position [q] on. *)
Inductive request (una n : Z) (b : TcpTxBuffer) : Z → Prop :=
  | request_new : 0 ≤ n → request una n b (una + m_sentSize b)
  | request_sent pre i post :
      m_sentList b = pre ++ i :: post → copy_ok una n pre i post b → request una n b (una + size_of pre).

(** An operation on a buffer whose first byte is at position [una], where it is then, and the
    outcome. *)
Inductive tx_op (stream : Z → Z) (una : Z) (b : TcpTxBuffer) : Z → res TcpTxBuffer → Prop :=
  | op_local r : local_op stream una b r → tx_op stream una b una r
  | op_copy now n q :
      request una n b q → tx_op stream una b una (snd <$> CopyFromSequence copy_fuel now n (u32 q) b)
  | op_discard now a :
      una - 2 ^ 29 ≤ a ≤ una + m_size b + 1 → ack_ok una a b →
      tx_op stream una b (Z.max una a) (snd <$> DiscardUpTo now (u32 a) b)
  | op_update ps :
      m_sentList b ≠ [] → Forall (block_past una) ps → tx_op stream una b una (snd <$> Update (wsack ps) b)
  | op_reno : reno_ok b → tx_op stream una b una (AddRenoSack b).

(** A buffer that was created for the position [una], with its parameters set. *)
Definition tx_start (una max dup seg : Z) (sack : bool) : TcpTxBuffer :=
  SetSackEnabled sack (SetSegmentSize seg (SetDupAckThresh dup (SetMaxBufferSize max (TcpTxBuffer_new (u32 una))))).

Inductive tx_run (stream : Z → Z) (start max dup seg : Z) (sack : bool) : Z → TcpTxBuffer → Prop :=
  | run_start : tx_run stream start max dup seg sack start (tx_start start max dup seg sack)
  | run_op una b una' b' :
      tx_run stream start max dup seg sack una b → tx_op stream una b una' (Ok b') →
      tx_run stream start max dup seg sack una' b'.

Lemma op_copy_sent_ok stream una b now n pre i post :
  tx_inv stream una b → m_sentList b = pre ++ i :: post → copy_ok una n pre i post b →
  let q := una + size_of pre in
  let k := Z.min (Z.min n (m_size b - size_of pre)) (retransmit_limit i post) in
  ∃ x b', CopyFromSequence copy_fuel now n (u32 q) b = Ok (Some x, b') ∧ tx_inv stream una b' ∧
    copied stream una q now k (m_lost i) true pre b b' x ∧ m_sentSize b' = m_sentSize b ∧ m_appList b' = m_appList b ∧
    (∀ y, sacked_byte una (m_sentList b') y → sacked_byte una (m_sentList b) y) ∧ resent now k pre i post b b' x.
Proof.
  intros I El (Hn & Hi & Hw) q k. set (s := Z.min n (m_size b - size_of pre)) in *.
  destruct (tx_core_small stream una b i pre post I El) as [Hpos Hsz]. pose proof (ti_bounds _ _ _ I).
  pose proof (size_nonneg pre). pose proof (size_nonneg post). pose proof (retransmit_limit_le i post Hpos).
  unfold copy_fuel. destruct (Z.le_gt_cases s (size_of (i :: post))) as [Hle|Hgt].
  - by destruct (Copy_sent_ok stream una b n now 1 pre i post I El Hi Hn Hle) as (x & b' & Hc & I' & Hco & Hs & Ha & Hsb & Hre); exists x, b'.
  - destruct Hw as [Hw|Hw]; [lia|]. pose proof (Copy_partial_ok stream una b n now 1 pre i post I El Hgt) as Hp.
    fold q s in Hp. rewrite Hp, (proj2 (Z.ltb_lt _ _)) by exact Hw. sums.
    destruct (Copy_sent_ok stream una b (size_of (i :: post)) now 0 pre i post I El Hi ltac:(sums; lia) ltac:(lia))
      as (x & b' & Hc & I' & Hco & Hs & Ha & Hsb & Hre). sums.
    replace (Z.min (Z.min (isize i + size_of post) (m_size b - size_of pre)) (retransmit_limit i post)) with k in * by lia. by exists x, b'.
Qed.

(** Every operation succeeds and keeps the invariant. *)
Lemma local_op_ok stream una b r :
  tx_inv stream una b → local_op stream una b r → ∃ b', r = Ok b' ∧ tx_inv stream una b' ∧ m_size b ≤ m_size b'.
Proof.
  intros I Hop. destruct Hop as [k| |resetSack| | | |l x El Hx Hr].
  - destruct (tx_Add_ok stream una b k I) as (b' & -> & I' & _ & _ & Hs & _); [done|]. exists b'. conj; try done.
    rewrite Hs. case_decide; lia.
  - destruct (MarkHeadAsLost_inv stream una b I) as [I' (Hs & _)]. eexists. conj; [done|done|lia].
  - destruct (SetSentListLost_inv stream una b resetSack I) as (b' & -> & I' & (Hs & _) & _). eexists. conj; [done|done|lia].
  - destruct (ResetRenoSack_inv stream una b I) as [I' (Hs & _)]. eexists. conj; [done|done|lia].
  - destruct (ResetSentList_inv stream una b I) as (I' & _ & Hs). eexists. conj; [done|done|lia].
  - destruct (DeleteRetransmittedFlagFromHead_inv stream una b I) as (b' & -> & I' & (Hs & _) & _). eexists. conj; [done|done|lia].
  - destruct (ResetLastSegmentSent_inv stream una b l x I El Hx Hr) as (I' & _ & Hs & _). eexists. conj; [done|done|lia].
Qed.

Lemma request_ok stream una b now n q :
  tx_inv stream una b → request una n b q →
  ∃ o b', CopyFromSequence copy_fuel now n (u32 q) b = Ok (o, b') ∧ tx_inv stream una b' ∧ m_size b' = m_size b ∧
    (∀ y, sacked_byte una (m_sentList b') y → sacked_byte una (m_sentList b) y) ∧
    (∀ x, o = Some x → m_startSeq x = u32 q ∧ ∃ k, 0 < k ∧ q + k ≤ una + m_size b ∧ m_packet x = bytes stream q (q + k)).
Proof.
  intros I Hreq. pose proof (ti_bounds _ _ _ I). destruct Hreq as [Hn|pre i post El Hok].
  - pose proof (Copy_new_ok stream una b n now 1 I Hn) as Hc. cbv zeta in Hc. unfold copy_fuel.
    destruct (decide _) as [|Hne]; [by exists None, b|]. destruct Hc as (x & b' & -> & I' & Hco & Hl & _).
    exists (Some x), b'. conj; [done|done|apply (co_params _ _ _ _ _ _ _ _ _ _ _ Hco)| |].
    { intros y. rewrite Hl, sacked_byte_app. intros [?|Hy]; [done|]. exfalso. revert Hy. apply sacked_byte_none.
      constructor; [|done]. apply (co_flags _ _ _ _ _ _ _ _ _ _ _ Hco). }
    intros y [= <-]. split; [apply Hco|]. eexists. conj; [| |apply Hco]; lia.
  - destruct (tx_core_small stream una b i pre post I El) as [Hpos Hsz]. pose proof (retransmit_limit_le i post Hpos).
    pose proof (size_nonneg post). destruct (op_copy_sent_ok stream una b now n pre i post I El Hok) as (x & b' & -> & I' & Hco & _ & _ & Hsb & _).
    exists (Some x), b'. conj; [done|done|apply (co_params _ _ _ _ _ _ _ _ _ _ _ Hco)|done|].
    destruct Hok as (? & _). intros y [= <-]. split; [apply Hco|]. eexists. conj; [| |apply Hco]; lia.
Qed.

Lemma tx_op_ok stream una b una' r :
  tx_inv stream una b → tx_op stream una b una' r → ∃ b', r = Ok b' ∧ tx_inv stream una' b'.
Proof.
  intros I Hop. destruct Hop as [r Hop|now n q Hreq|now a Ha Hack|ps Hne Hps|Hreno].
  - destruct (local_op_ok _ _ _ _ I Hop) as (b' & -> & I' & _). by eexists.
  - destruct (request_ok _ _ _ now _ _ I Hreq) as (o & b' & -> & I' & _). by eexists.
  - pose proof (DiscardUpTo_ok stream una b now a I ltac:(done) ltac:(done)) as Hd. destruct (decide (a ≤ una)).
    + rewrite Hd. rewrite Z.max_l by lia. by eexists.
    + destruct Hd as (rm & b' & -> & I' & _). rewrite Z.max_r by lia. by eexists.
  - destruct (Update_ok stream una b ps) as (b' & -> & I' & _); try done. by eexists.
  - destruct (AddRenoSack_inv stream una b) as (b' & -> & I' & _); try done. by eexists.
Qed.

Lemma tx_run_inv stream start max dup seg sack una b :
  0 ≤ max ≤ 2 ^ 30 → tx_run stream start max dup seg sack una b → tx_inv stream una b.
Proof.
  intros Hm. induction 1 as [|una b una' b' _ IH Hop].
  - unfold tx_start, SetSackEnabled, SetSegmentSize, SetDupAckThresh.
    repeat (apply tx_inv_params; [cbn; lia|]). by apply TcpTxBuffer_new_ok.
  - destruct (tx_op_ok _ _ _ _ _ IH Hop) as (b2 & [= <-] & ?). done.
Qed.

(** ** What the operations ask for *)

(** A dup-ack counted for an item that is lost makes it sacked as well. *)
Lemma AddRenoSack_not_ok stream una b :
  tx_inv stream una b → ¬ reno_ok b →
  match AddRenoSack b with Ok b' => Exists (λ i, m_sacked i && m_lost i = true) (m_sentList b') | Err e => e = NsAssert end.
Proof.
  intros I Hno. destruct (m_sentList b) as [|h l] eqn:El.
  { unfold AddRenoSack. rewrite El. by destruct (m_sackEnabled b). }
  destruct (decide (m_sackEnabled b = true ∧ l = [])) as [[He ->]|Hen].
  { unfold AddRenoSack. by rewrite El, He. }
  destruct (AddRenoSack_ok stream una b h l I El) as [[Hall ->]|(l1 & it & l2 & -> & Hl1 & Hit & ->)].
  { intros He ->. by apply Hen. }
  - exfalso. apply Hno. split; [by rewrite El|]. rewrite El. split.
    + intros He. destruct l; [by destruct Hen|]. cbn. lia.
    + cbn [tail]. intros l1 it l2 -> _ Hit. apply Forall_app in Hall as [_ [? _]%Forall_cons]. congruence.
  - change (m_sentList _) with (h :: l1 ++ sack_item it :: l2). destruct (m_lost it) eqn:Hlo.
    { apply Exists_cons_tl, Exists_app. right. left. cbn. by rewrite Hlo. }
    exfalso. apply Hno. split; [by rewrite El|]. rewrite El. split.
    + intros _. cbn. rewrite length_app. cbn. lia.
    + cbn [tail]. intros k1 jt k2 E Hk1 Hjt. apply app_eq_app in E as (k & [[-> E]|[-> E]]); (destruct k as [|j k]; cbn in E; [by simplify_eq|]).
      * injection E as -> _. apply Forall_app in Hl1 as [_ [? _]%Forall_cons]. congruence.
      * injection E as <- _. apply Forall_app in Hk1 as [_ [? _]%Forall_cons]. congruence.
Qed.

(** A segment that is taken back although it is marked: the counts are wrong, or it cannot be sent. *)
Lemma ResetLastSegmentSent_not_ok stream una b now l x :
  tx_inv stream una b → m_sentList b = l ++ [x] → ¬ (flagged false false x ∧ m_retrans x = false) →
  let b' := ResetLastSegmentSent b in
  m_sackedOut b' ≠ tot m_sacked (m_sentList b') ∨ m_lostOut b' ≠ tot m_lost (m_sentList b') ∨
  CopyFromSequence copy_fuel now (isize x) (u32 (una + m_sentSize b')) b' = Err NsAssert.
Proof.
  intros I El Hno b'. pose proof (ti_bounds _ _ _ I). destruct (tx_core_small stream una b x l [] I El) as [Hx Hsz].
  pose proof (size_nonneg l). replace (size_of []) with 0 in Hsz by done.
  unfold b', ResetLastSegmentSent. rewrite El, last_snoc, removelast_last. set (y := mkItem (next_node b) _ _ _ _ _ _). txs.
  change (isize y) with (isize x). rewrite (wrap_id 32 (m_sentSize b - isize x)) by zlia.
  rewrite (ti_sacked _ _ _ I), (ti_lost _ _ _ I), El. sums. cbn [tot].
  destruct (m_sacked x) eqn:H1; [left; lia|]. destruct (m_lost x) eqn:H2; [right; left; lia|]. right. right.
  assert (m_retrans x = true) as H3 by (destruct (m_retrans x); [done|by destruct Hno]).
  unfold copy_fuel. cbn [CopyFromSequence]. txs. set (q := una + (m_sentSize b - isize x)).
  rewrite (ti_una _ _ _ I), (close_gt una), (proj2 (Z.ltb_ge q una)) by (unfold close; lia). cbn [negb]. unfold ns_abort_unless. res_simpl.
  unfold SizeFromSequence, TailSequence. txs. rewrite !seq_add_u32. fold q. rewrite (close_ge una), (proj2 (Z.leb_le _ _)) by (unfold close; lia).
  rewrite (seq_sub_spec 32) by lia. res_simpl. rewrite (wrap_id 32 (una + m_size b - q)) by zlia.
  rewrite (Z.min_l (isize x)), (proj2 (Z.eqb_neq (isize x) 0)) by lia. rewrite !seq_add_u32. fold q.
  rewrite (close_ge una), (proj2 (Z.leb_gt _ _)), (close_le una), (proj2 (Z.leb_le _ _)) by (unfold close; lia).
  unfold seq_eq at 1. rewrite Z.eqb_refl. res_simpl. unfold GetNewSegment. txs. rewrite seq_add_u32. fold q.
  unfold walk_fuel. cbn [length GetPacketFromList GetPacketFromList_walk]. change (isize y) with (isize x). rewrite seq_add_u32.
  cbn [negb orb]. res_simpl. rewrite (close_lt una), (proj2 (Z.ltb_lt _ _)) by (unfold close; lia).
  unfold seq_eq at 1. rewrite Z.eqb_refl, (close_le una), Z.leb_refl, Z.eqb_refl by (unfold close; lia). res_simpl. txs.
  res_simpl. txs. cbn [erase_first it_node set_startSeq]. rewrite Nat.eqb_refl. res_simpl. cbn [m_retrans y set_startSeq fst snd]. by rewrite H3.
Qed.

(** ** The theorems *)

(** The data of a buffer. *)
Definition tx_data (b : TcpTxBuffer) : Packet := mjoin (m_packet <$> (m_sentList b ++ m_appList b)).

Lemma laid_data stream sent p l : laid stream sent p l → mjoin (m_packet <$> l) = bytes stream p (p + size_of l).
Proof.
  revert p. induction l as [|i l IH]; intros p.
  - intros _. unfold size_of, bytes. cbn. by rewrite Z.add_0_r, Z.sub_diag.
  - cbn [laid]. intros [(Hi & Hb & _) Hl]. rewrite fmap_cons.
    change (mjoin (m_packet i :: (m_packet <$> l))) with (m_packet i ++ mjoin (m_packet <$> l)). rewrite (IH _ Hl), Hb. sums.
    pose proof (size_nonneg l). rewrite bytes_app by lia. f_equal. lia.
Qed.

Lemma tx_data_ok stream una b : tx_core stream una b → tx_data b = bytes stream una (una + m_size b).
Proof.
  intros I. unfold tx_data. rewrite (laid_data stream false una).
  - rewrite (ti_size _ _ _ I), (ti_sentSize _ _ _ I). sums. done.
  - apply laid_app. split; [apply laid_weaken, I|]. rewrite <- (ti_sentSize _ _ _ I). apply I.
Qed.

(** C12 The transmission buffer through any sequence of calls that [tx_op] admits: [Add], the marking
    and resetting operations, requests for data, acknowledgments up to one past the data and no more than 2^29 before it,
    blocks of selective acknowledgments that do not hold the first byte, dup-acks.  It holds exactly the bytes of the stream that are not
    acknowledged, in items in order that carry their sequence numbers; the counts of sacked,
    lost and retransmitted bytes are those of the items, no item is both sacked and lost, and
    [BytesInFlight] counts what is neither and what was retransmitted.  No assertion fails, in
    these calls or in the next one.  [tx_op] asks for four things of the state, the first three because the code goes wrong otherwise, as
    the last parts of the theorem say.  A dup-ack is counted only if the item it is counted for is not lost
    ([reno_ok]): otherwise the item is sacked and lost.  A request that reaches past the data sent does not cross
    2^32 ([copy_ok]): otherwise the null item is used.  The last segment is
    taken back only if it is not marked: otherwise counts are wrong, or sending it
    again fails an assertion.  And no acknowledgment falls inside a sacked item, unless SACK is off and nothing after it is lost ([ack_ok]). *)
Theorem TcpTxBuffer_scoreboard stream start max dup seg sack una b :
  0 ≤ max ≤ 2 ^ 30 → tx_run stream start max dup seg sack una b →
  let l := m_sentList b in
  m_firstByteSeq b = u32 una ∧ tx_data b = bytes stream una (una + m_size b) ∧ laid stream true una l ∧
  m_sentSize b = size_of l ∧ m_size b = size_of (l ++ m_appList b) ∧
  m_sackedOut b = tot m_sacked l ∧ m_lostOut b = tot m_lost l ∧ m_retransOut b = tot m_retrans l ∧
  Forall (λ i, m_sacked i && m_lost i = false) l ∧
  BytesInFlight b = Ok (tot (λ i, negb (m_sacked i) && negb (m_lost i)) l + tot m_retrans l) ∧
  (∀ una' r, tx_op stream una b una' r → is_ok r = true) ∧
  (¬ reno_ok b →
    match AddRenoSack b with Ok b' => Exists (λ i, m_sacked i && m_lost i = true) (m_sentList b') | Err e => e = NsAssert end) ∧
  (∀ now n pre i post, l = pre ++ i :: post → 0 < n → m_sacked i = false → ¬ copy_ok una n pre i post b →
    CopyFromSequence copy_fuel now n (u32 (una + size_of pre)) b = Err Undefined) ∧
  (∀ now l' x, l = l' ++ [x] → ¬ (flagged false false x ∧ m_retrans x = false) →
    let b' := ResetLastSegmentSent b in
    m_sackedOut b' ≠ tot m_sacked (m_sentList b') ∨ m_lostOut b' ≠ tot m_lost (m_sentList b') ∨
    CopyFromSequence copy_fuel now (isize x) (u32 (una + m_sentSize b')) b' = Err NsAssert).
Proof.
  intros Hm Hr l. pose proof (tx_run_inv _ _ _ _ _ _ _ _ Hm Hr) as I. pose proof (ti_bounds _ _ _ I). pose proof (ti_leftout _ _ _ I).
  conj; try apply I; [exact (tx_data_ok _ _ _ I)| | | | | |].
  - sums. rewrite (ti_size _ _ _ I), (ti_sentSize _ _ _ I). done.
  - unfold BytesInFlight. rewrite (wrap_id 32 (m_sackedOut b + m_lostOut b)) by zlia. rewrite (proj2 (Z.leb_le _ _)) by lia. res_simpl.
    unfold l. pose proof (tot_le_size m_retrans (m_sentList b)). pose proof (tot_nonneg m_retrans (m_sentList b)).
    pose proof (ti_sentSize _ _ _ I). pose proof (ti_retrans _ _ _ I) as ->. rewrite (wrap_id 32) by zlia. f_equal.
    assert (∀ l, Forall (λ i, m_sacked i && m_lost i = false) l →
      size_of l - (tot m_sacked l + tot m_lost l) = tot (λ i, negb (m_sacked i) && negb (m_lost i)) l) as Hs.
    { clear. induction 1 as [|i l Hi _ IH]; [done|]. sums. destruct (m_sacked i), (m_lost i); try done; cbn [negb andb]; lia. }
    rewrite <- Hs by apply I. rewrite (ti_sacked _ _ _ I), (ti_lost _ _ _ I). lia.
  - intros una' r Hop. by destruct (tx_op_ok _ _ _ _ _ I Hop) as (b' & -> & _).
  - by apply (AddRenoSack_not_ok stream una).
  - intros now n pre i post El Hn Hi Hno. destruct (Z.le_gt_cases (Z.min n (m_size b - size_of pre)) (size_of (i :: post))) as [Hle|Hgt].
    { destruct Hno. split; [done|]. split; [done|by left]. }
    unfold copy_fuel. rewrite (Copy_partial_ok stream una b n now 1 pre i post I El Hgt), (proj2 (Z.ltb_ge _ _)); [done|].
    apply Z.nlt_ge. intros Hlt. destruct Hno. split; [done|]. split; [done|by right].
  - intros now l' x El Hx. by apply (ResetLastSegmentSent_not_ok stream una b now l').
Qed.

(** C25 [CopyFromSequence] returns the bytes of the stream at the position asked for, with their
    sequence number.  At the end of what was sent: as many as were asked for and are there, and
    they become the last item sent; none when there are none.  At an item that is not sacked: at
    most that item and the next one, where their flags agree.  Then the list sent has the new cut
    of those items ([gather]: joined, or cut where the bytes end) with the first one marked
    retransmitted and sent now, and all other items as they were.  The data, the counts of sacked and
    lost bytes, the highest sacked item and the parameters do not change, and by the invariant the
    count of retransmitted bytes is that of the new items. *)
Theorem CopyFromSequence_correct stream una b now n :
  tx_inv stream una b → 0 ≤ n →
  (let q := una + m_sentSize b in
   let s := Z.min n (m_size b - m_sentSize b) in
   if decide (s = 0) then CopyFromSequence copy_fuel now n (u32 q) b = Ok (None, b)
   else ∃ x b', CopyFromSequence copy_fuel now n (u32 q) b = Ok (Some x, b') ∧ tx_inv stream una b' ∧
     copied stream una q now s false false (m_sentList b) b b' x ∧ m_sentList b' = m_sentList b ++ [x] ∧
     m_retransOut b' = m_retransOut b ∧ tx_data b' = tx_data b) ∧
  (∀ pre i post, m_sentList b = pre ++ i :: post → copy_ok una n pre i post b →
   let q := una + size_of pre in
   let k := Z.min (Z.min n (m_size b - size_of pre)) (retransmit_limit i post) in
   ∃ x b', CopyFromSequence copy_fuel now n (u32 q) b = Ok (Some x, b') ∧ tx_inv stream una b' ∧ 0 < k ∧
     copied stream una q now k (m_lost i) true pre b b' x ∧ resent now k pre i post b b' x ∧
     m_retransOut b' = tot m_retrans (m_sentList b') ∧ m_appList b' = m_appList b ∧ m_sentSize b' = m_sentSize b ∧ tx_data b' = tx_data b).
Proof.
  intros I Hn. split.
  - pose proof (Copy_new_ok stream una b n now 1 I Hn) as Hc. cbv zeta in *. unfold copy_fuel. destruct (decide _); [done|].
    destruct Hc as (x & b' & Hc & I' & Hco & Hl & Hs). exists x, b'. conj; try done.
    + rewrite (ti_retrans _ _ _ I'), (ti_retrans _ _ _ I), Hl. sums. destruct (co_flags _ _ _ _ _ _ _ _ _ _ _ Hco) as (_ & -> & _). cbn. lia.
    + rewrite (tx_data_ok _ _ _ I'), (tx_data_ok _ _ _ I). by destruct (co_params _ _ _ _ _ _ _ _ _ _ _ Hco) as (_ & _ & _ & _ & _ & -> & _).
  - intros pre i post El Hok q k. destruct (op_copy_sent_ok stream una b now n pre i post I El Hok) as (x & b' & Hc & I' & Hco & Hs & Ha & _ & Hre).
    destruct (tx_core_small stream una b i pre post I El) as [Hpos Hsz]. pose proof (retransmit_limit_le i post Hpos).
    pose proof (ti_bounds _ _ _ I). pose proof (size_nonneg post). destruct Hok as (? & _).
    exists x, b'. conj; try done; [lia|apply I'|].
    rewrite (tx_data_ok _ _ _ I'), (tx_data_ok _ _ _ I). by destruct (co_params _ _ _ _ _ _ _ _ _ _ _ Hco) as (_ & _ & _ & _ & _ & -> & _).
Qed.

(** A request that reaches past the data that was sent: the part that was sent is
    retransmitted, provided the sequence numbers of the request stay below [2^32].  Otherwise
    the raw numbers are compared past their wrap-around, none of the three cases is taken, and
    the null item is dereferenced. *)
Theorem CopyFromSequence_past_sent stream una b now n pre i post :
  tx_inv stream una b → m_sentList b = pre ++ i :: post → m_sacked i = false →
  let q := una + size_of pre in
  let s := Z.min n (m_size b - size_of pre) in
  size_of (i :: post) < s →
  if u32 q + s <? 2 ^ 32 then
    ∃ x b', CopyFromSequence copy_fuel now n (u32 q) b = Ok (Some x, b') ∧ tx_inv stream una b' ∧
      m_packet x = bytes stream q (q + retransmit_limit i post) ∧ m_startSeq x = u32 q
  else CopyFromSequence copy_fuel now n (u32 q) b = Err Undefined.
Proof.
  intros I El Hi q s Hs. destruct (tx_core_small stream una b i pre post I El) as [Hpos Hsz].
  pose proof (retransmit_limit_le i post Hpos). destruct (Z.ltb_spec (u32 q + s) (2 ^ 32)) as [Hw|Hw].
  - destruct (op_copy_sent_ok stream una b now n pre i post I El) as (x & b' & Hc & I' & Hco & _).
    { split; [lia|split; [done|by right]]. }
    exists x, b'. conj; [exact Hc|done| |apply Hco]. rewrite (co_bytes _ _ _ _ _ _ _ _ _ _ _ Hco). f_equal. fold q. fold s. lia.
  - pose proof (Copy_partial_ok stream una b n now 1 pre i post I El Hs) as Hp. fold q s in Hp. unfold copy_fuel.
    rewrite Hp. by rewrite (proj2 (Z.ltb_ge _ _)) by lia.
Qed.

(** C24 [DiscardUpTo] takes exactly the acknowledged bytes out, whether they were sent or not, a
    FIN past the data included: the first byte is the acknowledged one, what is left of the
    data sent keeps its items (the first one cut), and their flags unless the first one is sacked.
    The items given to the callback are those of the data sent that are acknowledged completely, in
    order, and after them, if unsent data is acknowledged, one new item with all of that.
    Old acknowledgments change nothing. *)
Theorem DiscardUpTo_correct stream una b now a :
  tx_inv stream una b → una - 2 ^ 29 ≤ a ≤ una + m_size b + 1 → ack_ok una a b →
  if decide (a ≤ una) then DiscardUpTo now (u32 a) b = Ok ([], b)
  else
    ∃ removed b', DiscardUpTo now (u32 a) b = Ok (removed, b') ∧ tx_inv stream a b' ∧
      m_firstByteSeq b' = u32 a ∧ tx_data b' = drop (Z.to_nat (a - una)) (tx_data b) ∧
      m_sentSize b' = Z.max 0 (una + m_sentSize b - a) ∧
      Forall2 same_data (drop_items (a - una) (m_sentList b)) (m_sentList b') ∧
      ((∀ i, head (drop_items (a - una) (m_sentList b)) = Some i → m_sacked i = false) →
        m_sentList b' = drop_items (a - una) (m_sentList b)) ∧
      (if decide (a ≤ una + m_sentSize b ∨ m_size b = m_sentSize b) then removed = take_items (a - una) (m_sentList b)
       else ∃ x, removed = m_sentList b ++ [x] ∧ first_sent stream now (una + m_sentSize b) (Z.min a (una + m_size b)) x).
Proof.
  intros I Ha Hack. pose proof (DiscardUpTo_ok stream una b now a I Ha Hack) as Hd. pose proof (ti_bounds _ _ _ I).
  destruct (decide (a ≤ una)); [done|]. destruct Hd as (removed & b' & Hd & I' & Hs1 & Hs2 & Hc & Hdata & Hflags & Hr).
  exists removed, b'. rewrite (tx_data_ok _ _ _ I), (tx_data_ok _ _ _ I').
  conj; try done; [apply I'|]. destruct (Z.le_gt_cases (a - una) (m_size b)).
  - rewrite drop_bytes by lia. f_equal; lia.
  - unfold bytes. rewrite Hs1, drop_ge; [by replace (a + Z.max 0 (una + m_size b - a) - a) with 0 by lia|].
    rewrite length_fmap, length_seqZ. lia.
Qed.

(** C23 [Update] with the blocks of an option, none of which holds the first byte: the items
    that a block covers entirely are sacked and not lost, no other is, up to the first block that
    begins past the data sent; [n] is how many bytes that makes, and the callback gets these items in
    the order the blocks name them.  [m_highestSack] is what [raise] makes of these items in that
    order: each takes the place of one that does not begin after its end.  With one block, that
    is the last sacked item of all if it is newly sacked; an item that touches the highest one
    from below takes its place too ([Update_order_dependent]).  When bytes were sacked and all blocks were looked at, an item up to
    [m_highestSack] that is not sacked is lost if [m_dupAckThresh] items from it on up to
    [m_highestSack] are sacked, and nothing else changes. *)
Theorem Update_correct stream una b ps :
  tx_inv stream una b → m_sentList b ≠ [] → Forall (block_past una) ps →
  let e := una + m_sentSize b in
  let fresh := news una e ps (m_sentList b) in
  ∃ n b' items h, Update (wsack ps) b = Ok (n, fresh.*2, b') ∧ tx_inv stream una b' ∧ same_sizes b b' ∧
    n = m_sackedOut b' - m_sackedOut b ∧ sacks (m_sentList b') = sacks items ∧ length items = length (m_sentList b) ∧
    (∀ pre i post, m_sentList b = pre ++ i :: post →
      items !! length pre = Some (if negb (m_sacked i) && existsb (λ block, covers block (una + size_of pre) i) (taken e ps)
                                  then set_flags false true (m_retrans i) i else i)) ∧
    m_highestSack b = iterator h ∧ placed una e h ∧ m_highestSack b' = iterator (foldl raise h fresh) ∧
    (∀ block pre i post, ps = [block] → m_sentList b = pre ++ i :: post → m_sacked i = false → covers block (una + size_of pre) i = true →
       none_sacked block (una + size_of (pre ++ [i])) post → m_highestSack b' = (Some (it_node i), u32 (una + size_of pre))) ∧
    (if all_taken e ps && (0 <? n) then
       ∃ l1 i l2, items = l1 ++ i :: l2 ∧ m_sacked i = true ∧ m_highestSack b' = (Some (it_node i), u32 (una + size_of l1)) ∧
         m_sentList b' = lost_below (m_dupAckThresh b) (l1 ++ [i]) ++ l2
     else m_sentList b' = items).
Proof.
  intros I Hne Hps e fresh. destruct (Update_ok stream una b ps I Hne Hps) as (b' & Hu & I' & Hs & (h & Eh & Hh & Eh') & HF & Hk & Hl).
  pose proof (ti_bounds _ _ _ I). pose proof (ti_sentSize _ _ _ I) as Hsz.
  fold e in Hu, HF, Hk, Hl, Hh, Eh'. fold fresh in Hu, Eh'. set (items := mark_all una e ps (m_sentList b)) in *.
  set (n := tot m_sacked items - tot m_sacked (m_sentList b)) in *.
  exists n, b', items, h. conj; try done.
  - unfold n. rewrite (ti_sacked _ _ _ I), (ti_sacked _ _ _ I'). f_equal. symmetry. by apply tot_sacks.
  - symmetry. eapply Forall2_length, same_sacks_mark_all.
  - intros pre i post El. unfold items. rewrite El.
    destruct (mark_all_item una e ps pre i post) as (pre' & i' & post' & -> & H1 & _ & ->).
    apply Forall2_length in H1. rewrite H1. by apply list_lookup_middle.
  - intros block pre i post -> El Hi Hc Hpost. rewrite Eh'. unfold fresh. cbn [news].
    destruct (Z.ltb_spec e block.1) as [Hlt|_].
    + unfold covers in Hc. apply andb_true_iff in Hc as [Hc%Z.leb_le _].
      rewrite El in Hsz. sums. pose proof (size_nonneg pre). pose proof (size_nonneg post). pose proof (isize_nonneg i). lia.
    + rewrite app_nil_r. rewrite (raise_last una block (m_sentList b) pre i post h); [done| |by rewrite <- Hsz|lia|done..].
      rewrite <- Eh. apply I.
Qed.

(** ** The next segment *)












(** ** Examples *)

(** Forty bytes at the positions just below [2^32], sent as four segments of ten. *)
Definition ex_stream (x : Z) : Z := x mod 256.
Definition ex_una : Z := 2 ^ 32 - 15.
Definition ex_empty : TcpTxBuffer := tx_start ex_una 100 3 10 true.
Definition ex_added : TcpTxBuffer := snd (Add (bytes ex_stream ex_una (ex_una + 40)) ex_empty).
Definition res_buffer {A} (r : res (A * TcpTxBuffer)) : TcpTxBuffer := match r with Ok (_, b) => b | Err _ => ex_empty end.
Definition ex_send (k : Z) (b : TcpTxBuffer) : TcpTxBuffer := res_buffer (CopyFromSequence copy_fuel 0 10 (u32 (ex_una + k)) b).
Definition ex_sent : TcpTxBuffer := ex_send 30 (ex_send 20 (ex_send 10 (ex_send 0 ex_added))).
Definition ex_update (f l : Z) (b : TcpTxBuffer) : TcpTxBuffer :=
  res_buffer (Update (wsack [(ex_una + f, ex_una + l)]) b).

(** Three segments above the first one are sacked, with [m_dupAckThresh] 3.  Reported from the
    lowest one up, the first segment is lost.  Reported from the highest one down, each block
    ends where the highest sacked item begins, which moves [m_highestSack] down to the new item;
    fewer than three are counted below it, and the first segment is not lost, although the
    same segments are sacked. *)
Theorem Update_order_dependent :
  let up := ex_update 10 40 (ex_update 10 30 (ex_update 10 20 ex_sent)) in
  let down := ex_update 10 40 (ex_update 20 40 (ex_update 30 40 ex_sent)) in
  sacks (m_sentList up) = [false; true; true; true] ∧ sacks (m_sentList down) = [false; true; true; true] ∧
  snd (m_highestSack up) = u32 (ex_una + 30) ∧ snd (m_highestSack down) = u32 (ex_una + 10) ∧
  m_lostOut up = 10 ∧ m_lostOut down = 0.
Proof. vm_compute. auto 10. Qed.

Lemma ex_run_sent : tx_run ex_stream ex_una 100 3 10 true ex_una ex_sent.
Proof.
  assert (tx_run ex_stream ex_una 100 3 10 true ex_una ex_added) as H0.
  { assert (ex_added = snd (Add (bytes ex_stream (ex_una + m_size ex_empty) (ex_una + m_size ex_empty + 40)) ex_empty)) as ->
      by (vm_compute; reflexivity).
    eapply run_op; [apply run_start|]. apply op_local, op_add. lia. }
  assert (∀ k b, tx_run ex_stream ex_una 100 3 10 true ex_una b → m_sentSize b = k →
    is_ok (CopyFromSequence copy_fuel 0 10 (u32 (ex_una + k)) b) = true → tx_run ex_stream ex_una 100 3 10 true ex_una (ex_send k b)) as Hs.
  { intros k b Hb <- Hok. eapply run_op; [exact Hb|]. unfold ex_send.
    pose proof (op_copy ex_stream ex_una b 0 10 _ (request_new ex_una 10 b ltac:(lia))) as Hop.
    destruct (CopyFromSequence _ _ _ _ b) as [[o b']|]; [exact Hop|done]. }
  unfold ex_sent. repeat (apply Hs; [|vm_compute; reflexivity|vm_compute; reflexivity]). exact H0.
Qed.

Lemma ex_inv : tx_inv ex_stream ex_una ex_sent.
Proof. eapply tx_run_inv; [|exact ex_run_sent]. lia. Qed.

Lemma TcpTxBuffer_scoreboard_witness :
  tx_run ex_stream ex_una 100 3 10 true ex_una ex_sent ∧ BytesInFlight ex_sent = Ok 40 ∧ m_firstByteSeq ex_sent = u32 ex_una ∧
  is_ok (AddRenoSack ex_sent) = true.
Proof.
  assert (0 ≤ 100 ≤ 2 ^ 30) as Hm by lia.
  pose proof (TcpTxBuffer_scoreboard ex_stream ex_una 100 3 10 true ex_una ex_sent Hm ex_run_sent) as H.
  destruct H as (Hseq & _ & _ & _ & _ & _ & _ & _ & _ & Hin & Hop & _).
  split; [exact ex_run_sent|]. split; [rewrite Hin; vm_compute; reflexivity|]. split; [exact Hseq|].
  apply (Hop ex_una). apply op_reno. split; [by vm_compute|]. split; [intros _; vm_compute; reflexivity|].
  assert (Forall (λ i, m_lost i = false) (tail (m_sentList ex_sent))) as Hl by (vm_compute; repeat constructor).
  intros l1 it l2 E _ _. rewrite E in Hl. by apply Forall_app in Hl as [_ [? _]%Forall_cons].
Defined.

Lemma CopyFromSequence_correct_witness :
  ∃ x b', CopyFromSequence copy_fuel 7 10 (u32 (ex_una + 10)) ex_sent = Ok (Some x, b') ∧
    m_packet x = bytes ex_stream (ex_una + 10) (ex_una + 20) ∧ m_startSeq x = u32 (ex_una + 10) ∧ m_retransOut b' = 10.
Proof.
  destruct (CopyFromSequence_correct ex_stream ex_una ex_sent 7 10 ex_inv ltac:(lia)) as [_ Hc].
  destruct (m_sentList ex_sent) as [|i0 [|i1 post]] eqn:El; [vm_compute in El; discriminate..|].
  assert (size_of [i0] = 10 ∧ m_sacked i1 = false ∧ retransmit_limit i1 post = 20 ∧ size_of (i1 :: post) = 30) as (H0 & H1 & H2 & H3).
  { vm_compute in El. injection El as <- <- <-. vm_compute. auto. }
  destruct (Hc [i0] i1 post eq_refl) as (x & b' & Hcopy & I' & _ & Hco & _).
  - split; [lia|]. split; [exact H1|]. left. rewrite H3. lia.
  - rewrite H0, H2 in *. replace (Z.min (Z.min 10 (m_size ex_sent - 10)) 20) with 10 in Hco by (vm_compute; reflexivity).
    exists x, b'. split; [exact Hcopy|]. split; [rewrite (co_bytes _ _ _ _ _ _ _ _ _ _ _ Hco); f_equal; lia|].
    split; [exact (co_seq _ _ _ _ _ _ _ _ _ _ _ Hco)|].
    assert (CopyFromSequence copy_fuel 7 10 (u32 (ex_una + 10)) ex_sent = Ok (Some x, b')) as E by exact Hcopy.
    vm_compute in E. injection E as _ <-. reflexivity.
Defined.

(** Ten bytes are sent; a request for thirty from the first one on crosses [2^32]. *)
Lemma CopyFromSequence_past_sent_witness :
  CopyFromSequence copy_fuel 7 30 (u32 ex_una) (ex_send 0 ex_added) = Err Undefined.
Proof.
  assert (tx_inv ex_stream ex_una (ex_send 0 ex_added)) as I.
  { pose proof (Copy_new_ok ex_stream ex_una ex_added 10 0 1) as Hc.
    destruct (tx_Add_ok ex_stream ex_una ex_empty 40) as (b' & Hadd & I & _).
    - apply (tx_run_inv ex_stream ex_una 100 3 10 true); [lia|apply run_start].
    - lia.
    - assert (b' = ex_added) as -> by (vm_compute in Hadd; injection Hadd as <-; vm_compute; reflexivity).
      specialize (Hc I ltac:(lia)). vm_compute (decide _) in Hc. destruct Hc as (x & b1 & Hc & I1 & _).
      assert (ex_send 0 ex_added = b1) as ->; [|exact I1]. unfold ex_send.
      replace (u32 (ex_una + 0)) with (u32 (ex_una + m_sentSize ex_added)) by (vm_compute; reflexivity).
      unfold copy_fuel. by rewrite Hc. }
  destruct (m_sentList (ex_send 0 ex_added)) as [|i post] eqn:El; [vm_compute in El; discriminate|].
  assert (m_sacked i = false ∧ size_of (i :: post) = 10 ∧ m_size (ex_send 0 ex_added) = 40) as (H1 & H2 & H3).
  { vm_compute in El. injection El as <- <-. vm_compute. auto. }
  pose proof (CopyFromSequence_past_sent ex_stream ex_una (ex_send 0 ex_added) 7 30 [] i post I El H1) as H.
  replace (size_of []) with 0 in H by reflexivity. rewrite H2, H3, Z.add_0_r in H. exact (H ltac:(lia)).
Defined.

Lemma DiscardUpTo_correct_witness :
  ∃ removed b', DiscardUpTo 7 (u32 (ex_una + 15)) ex_sent = Ok (removed, b') ∧ m_firstByteSeq b' = 0 ∧ m_sentSize b' = 25 ∧
    tx_data b' = drop 15 (tx_data ex_sent).
Proof.
  pose proof (DiscardUpTo_correct ex_stream ex_una ex_sent 7 (ex_una + 15) ex_inv) as H.
  assert (m_size ex_sent = 40 ∧ m_sentSize ex_sent = 40) as [E1 E2] by (vm_compute; auto). rewrite E1, E2 in H.
  specialize (H ltac:(lia)). assert (ack_ok ex_una (ex_una + 15) ex_sent) as Hack.
  { assert (Forall (λ i, m_sacked i = false) (m_sentList ex_sent)) as Hs by (vm_compute; repeat constructor).
    intros pre i post El Hi. rewrite El in Hs. apply Forall_app in Hs as [_ [Hs _]%Forall_cons]. congruence. }
  specialize (H Hack). rewrite decide_False in H by lia.
  destruct H as (removed & b' & Hd & _ & Hseq & Hdata & Hsz & _).
  exists removed, b'. split; [exact Hd|]. split; [rewrite Hseq; vm_compute; reflexivity|]. split; [rewrite Hsz; lia|].
  rewrite Hdata. f_equal.
Defined.

Lemma Update_correct_witness :
  ∃ n called b', Update (wsack [(ex_una + 10, ex_una + 40)]) ex_sent = Ok (n, called, b') ∧ n = 30 ∧ m_lostOut b' = 10 ∧
    tx_inv ex_stream ex_una b'.
Proof.
  destruct (Update_correct ex_stream ex_una ex_sent [(ex_una + 10, ex_una + 40)] ex_inv) as (n & b' & items & h & Hu & I' & _).
  - by vm_compute.
  - repeat constructor; unfold close; cbn [fst snd]; first [left; lia|lia].
  - eexists n, _, b'. split; [exact Hu|].
    assert (match Update (wsack [(ex_una + 10, ex_una + 40)]) ex_sent with Ok (n, _, b) => n = 30 ∧ m_lostOut b = 10 | Err _ => False end) as H
      by (vm_compute; split; reflexivity).
    rewrite Hu in H. destruct H as [Hn Hlo]. split; [exact Hn|]. split; [exact Hlo|exact I'].
Defined.

