(* ===== verification/TcpTransfer.v ===== *)
(** * A TCP transfer, from buffer to buffer

    The sender's transmission buffer and the receiver's reassembly buffer, with a network in
    between that loses, repeats and reorders segments and acknowledgments.  What the receiver
    delivers is what the application wrote; and the sender lets go of a byte only when the
    receiver has it. *)

From S2P Require Import Prelude SequenceNumber TcpRxBuffer TcpTxBuffer TcpRxCorrect TcpRxTheorems TcpTxCorrect TcpTxInvariant TcpTxDiscard TcpTxSack TcpTxTheorems.
Local Open Scope Z_scope.

(** ** Where the sacked bytes are *)

Lemma same_sacks_fewer l l' : Forall2 same_sacks l l' → sacks l' = sacks l → Forall2 fewer_sacks l l'.
Proof.
  unfold sacks. induction 1 as [|i j l l' [(_ & Hp & _) _] _ IH]; [by constructor|]. rewrite !fmap_cons. intros [= Hs Hl].
  constructor; [|auto]. unfold fewer_sacks, isize. rewrite Hp, Hs. done.
Qed.

Lemma sacked_byte_mark block p l y : sacked_byte p (mark block p l) y → sacked_byte p l y ∨ block.1 ≤ y < block.2.
Proof.
  revert p. induction l as [|i l IH]; intros p; [by intros []|]. cbn [mark sacked_byte]. rewrite isize_sacked_by.
  intros [[Hs Hy]|Hy]; [|destruct (IH _ Hy); [left; by right|by right]].
  unfold sacked_by, covers in Hs. destruct (((block.1 <=? p) && (p + isize i <=? block.2)) && negb (m_sacked i)) eqn:Hc; [|left; by left].
  apply andb_true_iff in Hc as [[?%Z.leb_le ?%Z.leb_le]%andb_true_iff _]. right. lia.
Qed.

Lemma sacked_byte_mark_all una e ps l y :
  sacked_byte una (mark_all una e ps l) y → sacked_byte una l y ∨ ∃ block, block ∈ ps ∧ block.1 ≤ y < block.2.
Proof.
  revert l. induction ps as [|block ps IH]; intros l; cbn [mark_all]; [by left|]. case_match; [by left|].
  intros Hy. destruct (IH _ Hy) as [Hy'|(k & Hk & ?)]; [|right; exists k; split; [by right|done]].
  destruct (sacked_byte_mark _ _ _ _ Hy'); [by left|right]. exists block. split; [by left|done].
Qed.

Section sacked.
Context (stream : Z → Z).

Lemma sacked_byte_drop p k l y :
  laid stream true p l → 0 ≤ k → sacked_byte (p + k) (drop_items k l) y → sacked_byte p l y.
Proof.
  intros Hl Hk. destruct (Z.lt_ge_cases k (size_of l)).
  2: { rewrite drop_items_all by lia. by intros []. }
  destruct (drop_items_split stream l p k Hl) as (l1 & i & l2 & c & -> & Hc & Hi & ->); [lia|].
  rewrite sacked_byte_app. cbn [sacked_byte]. intros Hs. right.
  assert (isize (if c =? 0 then i else cut_back c i) = isize i - c ∧ m_sacked (if c =? 0 then i else cut_back c i) = m_sacked i) as [E1 E2].
  { destruct (Z.eqb_spec c 0); [split; [lia|done]|]. split; [apply isize_back; lia|done]. }
  rewrite E1, E2 in Hs. destruct Hs as [[? ?]|Hy]; [left; split; [done|lia]|right].
  by replace (p + k + (isize i - c)) with (p + size_of l1 + isize i) in Hy by lia.
Qed.

(** An acknowledgment of a byte that is not sacked. *)
Lemma not_sacked_ack una a b :
  ¬ sacked_byte una (m_sentList b) a → ack_ok una a b.
Proof.
  intros Hn pre i post El Hi Ha. destruct Hn. rewrite El, sacked_byte_app. right. left. auto.
Qed.

Lemma not_sacked_head una k l i :
  laid stream true una l → 0 ≤ k → ¬ sacked_byte una l (una + k) → head (drop_items k l) = Some i → m_sacked i = false.
Proof.
  intros Hl Hk Hn. destruct (Z.lt_ge_cases k (size_of l)).
  2: { by rewrite drop_items_all by lia. }
  destruct (drop_items_split stream l una k Hl) as (l1 & j & l2 & c & -> & Hc & Hj & ->); [lia|]. intros [= <-].
  apply not_true_is_false. intros Hs. apply Hn. rewrite sacked_byte_app. right. left. split; [|lia].
  by destruct (Z.eqb_spec c 0).
Qed.

Lemma local_op_sacks una b b' y :
  tx_inv stream una b → local_op stream una b (Ok b') → sacked_byte una (m_sentList b') y → sacked_byte una (m_sentList b) y.
Proof.
  intros I Hop. remember (Ok b') as r eqn:Er. destruct Hop as [k| |resetSack| | | |l x El Hx Hr].
  - injection Er as <-. destruct (tx_Add_ok stream una b k I) as (b1 & Ha & _ & Es & _); [done|]. rewrite Ha. cbn [snd]. by rewrite Es.
  - injection Er as <-. rewrite (MarkHeadAsLost_ok stream una b I). destruct (m_sentList b) as [|h l] eqn:El; [by rewrite El|].
    apply sacked_byte_mono. constructor; [done|apply fewer_sacks_refl].
  - destruct (SetSentListLost_inv stream una b resetSack I) as (b1 & Hs & _ & _ & El). rewrite Hs in Er. injection Er as <-. rewrite El.
    apply sacked_byte_mono, Forall2_fmap_r, Forall_Forall2_diag, Forall_true. by destruct resetSack.
  - injection Er as <-. cbn. apply sacked_byte_mono, Forall2_fmap_r, Forall_Forall2_diag, Forall_true. done.
  - injection Er as <-. by intros [].
  - unfold DeleteRetransmittedFlagFromHead in Er. case_match; [by injection Er as <-|].
    destruct (m_sentList b) as [|h l] eqn:El; [done|]. destruct (m_retrans h); injection Er as <-; [|by rewrite El].
    apply sacked_byte_mono. constructor; [done|apply fewer_sacks_refl].
  - injection Er as <-. unfold ResetLastSegmentSent. rewrite El, last_snoc, removelast_last.
    cbn [m_sentList set_counts set_sizes set_lists]. rewrite sacked_byte_app. by left.
Qed.
End sacked.

(** ** The connection *)

(** A segment on its way: its position, its sequence number and its bytes. *)
Record segment := Segment { s_pos : Z; s_seq : Z; s_data : Packet }.

(** An acknowledgment on its way: the position it stands for, its number and the option. *)
Record ack := Ack { a_pos : Z; a_seq : Z; a_sacks : list SackBlock }.

Definition delivered (out : Packet) : Z := Z.of_nat (length out).

(** The runs of a connection whose stream begins at position [start]: the position of the first
    byte the sender holds, the two buffers, the segments and acknowledgments that were sent,
    the bytes delivered.  What was sent may arrive any number of times, in any order; but a
    segment arrives within the receiver's window, and a segment or an acknowledgment that
    arrives is at most [2^29] bytes old. *)
Inductive transfer (stream : Z → Z) (start max dup seg m : Z) :
    Z → TcpTxBuffer → TcpRxBuffer.t → list segment → list ack → Packet → Prop :=
  | tr_start :
      transfer stream start max dup seg m start (tx_start start max dup seg true)
        (TcpRxBuffer.SetNextRxSequence (u32 start) (TcpRxBuffer.SetMaxBufferSize m (TcpRxBuffer.new 0))) [] [] []
  | tr_local una tx rx sg ak out tx' :
      transfer stream start max dup seg m una tx rx sg ak out → local_op stream una tx (Ok tx') →
      transfer stream start max dup seg m una tx' rx sg ak out
  | tr_send una tx rx sg ak out now n q x tx' :
      transfer stream start max dup seg m una tx rx sg ak out → request una n tx q →
      CopyFromSequence copy_fuel now n (u32 q) tx = Ok (Some x, tx') →
      transfer stream start max dup seg m una tx' rx (Segment q (m_startSeq x) (m_packet x) :: sg) ak out
  | tr_deliver una tx rx sg ak out s r rx' :
      transfer stream start max dup seg m una tx rx sg ak out → s ∈ sg →
      start + delivered out - 2 ^ 29 ≤ s_pos s → s_pos s + tsize (s_data s) ≤ start + delivered out + 2 ^ 30 →
      TcpRxBuffer.Add (s_data s) (s_seq s) rx = Ok (r, rx') →
      transfer stream start max dup seg m una tx rx' sg ak out
  | tr_extract una tx rx sg ak out n o rx' :
      transfer stream start max dup seg m una tx rx sg ak out → 0 ≤ n → TcpRxBuffer.Extract n rx = Ok (o, rx') →
      transfer stream start max dup seg m una tx rx' sg ak (out ++ default [] o)
  | tr_acknowledge una tx rx sg ak out :
      transfer stream start max dup seg m una tx rx sg ak out →
      transfer stream start max dup seg m una tx rx sg
        (Ack (start + delivered out + TcpRxBuffer.Available rx) (TcpRxBuffer.NextRxSequence rx) (TcpRxBuffer.GetSackList rx) :: ak) out
  | tr_sack una tx rx sg ak out a n called tx' :
      transfer stream start max dup seg m una tx rx sg ak out → a ∈ ak → una - 2 ^ 29 ≤ a_pos a → m_sentList tx ≠ [] →
      Update (a_sacks a) tx = Ok (n, called, tx') →
      transfer stream start max dup seg m una tx' rx sg ak out
  | tr_ack una tx rx sg ak out a now removed tx' :
      transfer stream start max dup seg m una tx rx sg ak out → a ∈ ak → una - 2 ^ 29 ≤ a_pos a →
      DiscardUpTo now (a_seq a) tx = Ok (removed, tx') →
      transfer stream start max dup seg m (Z.max una (a_pos a)) tx' rx sg ak out.

(** The receiver has a byte: it was delivered or is stored. *)
Definition has (h : held) (x : Z) : Prop := x < base h ∨ covered (segs h) x.

(** The acknowledgments that were sent, with the positions of their blocks. *)
Definition history : Type := list (Z * list (Z * Z)).
Definition to_ack (r : Z * list (Z * Z)) : ack := Ack r.1 (u32 r.1) (wsack r.2).

(** A block is of bytes the receiver had when it acknowledged an earlier one; no position that
    was or will be acknowledged lies in it. *)
Record reported (h : held) (una w : Z) (hs : history) (c : Z) (e : Z * Z) : Prop := {
  rp_past : c < e.1 < e.2;
  rp_end : e.2 ≤ w;
  rp_has : ∀ x, e.1 ≤ x < e.2 → has h x;
  rp_una : una < e.1 ∨ e.2 ≤ una;
  rp_acks : ∀ r, r ∈ hs → r.1 < e.1 ∨ e.2 ≤ r.1
}.

Record transfer_inv (stream : Z → Z) (start una : Z) (tx : TcpTxBuffer) (rx : TcpRxBuffer.t) (sg : list segment)
    (ak : list ack) (out : Packet) (h : held) (hs : history) : Prop := {
  tv_rx : rx_inv stream rx h;
  tv_tx : tx_inv stream una tx;
  tv_base : base h = start + delivered out;
  tv_fin : fin h = None;
  tv_out : out = bytes stream start (base h);
  tv_una : una ≤ cont h;
  tv_cont : cont h ≤ una + m_size tx;
  tv_held : ∀ x, covered (segs h) x → x < una + m_size tx;
  tv_segments : ∀ s, s ∈ sg → s_seq s = u32 (s_pos s) ∧ s_pos s + tsize (s_data s) ≤ una + m_size tx ∧
    s_data s = bytes stream (s_pos s) (s_pos s + tsize (s_data s));
  tv_history : ak = to_ack <$> hs;
  tv_acks : ∀ r, r ∈ hs → r.1 ≤ cont h ∧ Forall (reported h una (una + m_size tx) hs r.1) r.2;
  tv_sacked : ∀ x, sacked_byte una (m_sentList tx) x → ∃ r e, r ∈ hs ∧ e ∈ r.2 ∧ e.1 ≤ x < e.2
}.

(** What the receiver does not have is what it acknowledges next. *)
Lemma cont_not_has m h : rx_wf m h → ¬ has h (cont h).
Proof.
  intros W [Hx|(f & l & Hin & Hx)]; [pose proof (wf_base _ _ W); lia|].
  destruct (wf_gap _ _ W _ _ Hin); lia.
Qed.

Lemma reported_mono h h' una w w' hs c e :
  (∀ x, has h x → has h' x) → w ≤ w' → reported h una w hs c e → reported h' una w' hs c e.
Proof. intros Hh Hw []. constructor; try done; [lia|auto]. Qed.

Section transfer.
Context (stream : Z → Z) (start : Z).
Abbreviation INV := (transfer_inv stream start).

(** No acknowledged position is sacked. *)
Lemma ack_not_sacked una tx rx sg ak out h hs r :
  INV una tx rx sg ak out h hs → r ∈ hs → ¬ sacked_byte una (m_sentList tx) r.1.
Proof.
  intros V Hr Hs. destruct (tv_sacked _ _ _ _ _ _ _ _ _ _ V _ Hs) as (r' & e & Hr' & He & Hx).
  destruct (tv_acks _ _ _ _ _ _ _ _ _ _ V _ Hr') as [_ Hf]. rewrite Forall_forall in Hf.
  destruct (rp_acks _ _ _ _ _ _ (Hf e He) r Hr); lia.
Qed.

(** A step of the sender that takes in nothing. *)
Lemma transfer_tx una tx tx' rx sg ak out h hs :
  INV una tx rx sg ak out h hs → tx_inv stream una tx' → m_size tx ≤ m_size tx' →
  (∀ y, sacked_byte una (m_sentList tx') y → sacked_byte una (m_sentList tx) y) → INV una tx' rx sg ak out h hs.
Proof.
  intros [] I Hs Hsb. constructor; try done; try lia.
  - intros x Hx. specialize (tv_held0 x Hx). lia.
  - intros s Hin. destruct (tv_segments0 s Hin) as (? & ? & ?). conj; try done. lia.
  - intros r Hr. destruct (tv_acks0 r Hr) as [? Hf]. split; [done|]. eapply Forall_impl; [exact Hf|]. intros e.
    apply reported_mono; [done|lia].
  - auto.
Qed.

(** A step of the receiver. *)
Lemma transfer_rx una tx rx rx' sg ak out out' h h' hs :
  INV una tx rx sg ak out h hs → rx_inv stream rx' h' → base h' = start + delivered out' → out' = bytes stream start (base h') →
  fin h' = None → cont h ≤ cont h' → (∀ x, has h x → has h' x) → (∀ x, covered (segs h') x → x < una + m_size tx) →
  cont h' ≤ una + m_size tx → INV una tx rx' sg ak out' h' hs.
Proof.
  intros [] I Hb Ho Hf Hc Hh Hx Hw. constructor; try done; try lia.
  intros r Hr. destruct (tv_acks0 r Hr) as [? HF]. split; [lia|]. eapply Forall_impl; [exact HF|]. intros e.
  by apply reported_mono.
Qed.

Lemma deliver_inv una tx rx sg ak out h hs s :
  INV una tx rx sg ak out h hs → s ∈ sg → start + delivered out - 2 ^ 29 ≤ s_pos s →
  s_pos s + tsize (s_data s) ≤ start + delivered out + 2 ^ 30 →
  ∃ r rx' h', TcpRxBuffer.Add (s_data s) (s_seq s) rx = Ok (r, rx') ∧ INV una tx rx' sg ak out h' hs.
Proof.
  intros V Hin Hq He. destruct (tv_segments _ _ _ _ _ _ _ _ _ _ V s Hin) as (Hseq & Hw & Hdata).
  pose proof (tv_base _ _ _ _ _ _ _ _ _ _ V) as Hb. assert (0 ≤ tsize (s_data s)) by (unfold tsize; lia).
  destruct (Add_ok stream rx h (s_pos s) (s_pos s + tsize (s_data s)) (tv_rx _ _ _ _ _ _ _ _ _ _ V))
    as (r & rx' & h' & Hadd & I' & _ & Hheld); [unfold close; lia|lia|by rewrite (tv_fin _ _ _ _ _ _ _ _ _ _ V)|].
  rewrite Hseq, Hdata. exists r, rx', h'. split; [exact Hadd|].
  pose proof (proj1 (tv_rx _ _ _ _ _ _ _ _ _ _ V)) as W. pose proof (proj1 I') as W'.
  destruct (Add_held_same _ _ _ _ _ _ _ W W' Hheld) as (Eb & Ef & Hc).
  assert (∀ x, covered (segs h') x → x < una + m_size tx) as Hx.
  { intros x Hx. apply (Add_held_covered _ _ _ _ _ _ x W Hheld) in Hx as [Hx|Hx].
    - by apply (tv_held _ _ _ _ _ _ _ _ _ _ V).
    - unfold window_end in Hx. repeat case_match; lia. }
  apply (transfer_rx una tx rx rx' sg ak out out h h' hs V I'); try done.
  - by rewrite Eb.
  - rewrite Eb. apply V.
  - rewrite Ef. apply V.
  - intros x [Hx'|Hx']; [left; lia|right]. apply (Add_held_covered _ _ _ _ _ _ x W Hheld). by left.
  - destruct (Z.le_gt_cases (cont h') (base h')) as [Hle|Hgt].
    + pose proof (tv_cont _ _ _ _ _ _ _ _ _ _ V). pose proof (wf_base _ _ W). lia.
    + specialize (Hx (cont h' - 1)). assert (covered (segs h') (cont h' - 1)) by (apply W'; lia). specialize (Hx ltac:(done)). lia.
Qed.

Lemma extract_inv una tx rx sg ak out h hs n :
  INV una tx rx sg ak out h hs → 0 ≤ n →
  ∃ o rx' h', TcpRxBuffer.Extract n rx = Ok (o, rx') ∧ INV una tx rx' sg ak (out ++ default [] o) h' hs.
Proof.
  intros V Hn. pose proof (proj1 (tv_rx _ _ _ _ _ _ _ _ _ _ V)) as W. pose proof (wf_base _ _ W).
  pose proof (Extract_ok stream rx h n (tv_rx _ _ _ _ _ _ _ _ _ _ V) Hn) as HE. cbv zeta in HE.
  set (k := Z.min n (cont h - base h)) in *. destruct HE as (rx' & Hex & I' & _). eexists _, rx', _. split; [exact Hex|].
  pose proof (tv_base _ _ _ _ _ _ _ _ _ _ V) as Hb. pose proof (tv_out _ _ _ _ _ _ _ _ _ _ V) as Hout.
  set (o := if k =? 0 then None else _) in *.
  assert (default [] o = bytes stream (base h) (base h + k)) as Ho.
  { unfold o. destruct (Z.eqb_spec k 0) as [->|]; [|done]. by rewrite Z.add_0_r, bytes_nil. }
  assert (delivered out = base h - start) as Hd by lia. unfold delivered in *.
  destruct (aextract_spec (segs h) (base h) k) as (_ & Hcov & _); [apply W|lia|intros x Hx; apply W; lia|].
  apply (transfer_rx una tx rx rx' sg ak out _ h _ hs V I'); cbn [base fin cont segs].
  - unfold delivered. rewrite Ho, length_app. pose proof (tsize_bytes stream (base h) (base h + k) ltac:(lia)) as Hs. unfold tsize, delivered in *. lia.
  - rewrite Ho, Hout at 1. apply bytes_app. lia.
  - apply V.
  - done.
  - intros x [Hx|Hx]; [left; cbn; lia|]. destruct (Z.lt_ge_cases x (base h + k)); [by left|right]. by apply Hcov.
  - intros x Hx. apply Hcov in Hx as [_ Hx]. by apply (tv_held _ _ _ _ _ _ _ _ _ _ V).
  - exact (tv_cont _ _ _ _ _ _ _ _ _ _ V).
Qed.

(** The receiver acknowledges what it has in order, and reports what it has past it. *)
Lemma acknowledge_inv una tx rx sg ak out h hs :
  INV una tx rx sg ak out h hs →
  INV una tx rx sg
    (Ack (start + delivered out + TcpRxBuffer.Available rx) (TcpRxBuffer.NextRxSequence rx) (TcpRxBuffer.GetSackList rx) :: ak)
    out h ((cont h, TcpRxTheorems.sacks h) :: hs).
Proof.
  intros V. pose proof (tv_rx _ _ _ _ _ _ _ _ _ _ V) as [W Hrx]. pose proof (cont_not_has _ _ W) as Hc.
  pose proof (tv_base _ _ _ _ _ _ _ _ _ _ V) as Hb. pose proof (tv_una _ _ _ _ _ _ _ _ _ _ V) as Hu.
  assert (∀ r e, r ∈ hs → e ∈ r.2 → reported h una (una + m_size tx) hs r.1 e) as Hold.
  { intros r e Hr He. destruct (tv_acks _ _ _ _ _ _ _ _ _ _ V r Hr) as [_ Hf]. rewrite Forall_forall in Hf. auto. }
  pose proof V as V'. destruct V'. constructor; try done.
  - rewrite fmap_cons, <- tv_history0. f_equal. unfold to_ack. cbn [fst snd]. rewrite Hrx.
    unfold TcpRxBuffer.Available, TcpRxBuffer.NextRxSequence, TcpRxBuffer.GetSackList, rx_conc, next_pos. cbn. rewrite tv_fin0.
    f_equal. lia.
  - intros r [->|Hr]%elem_of_cons; cbn [fst snd].
    + split; [done|]. apply Forall_forall. intros e He. pose proof (wf_sacks _ _ W) as Hs. rewrite Forall_forall in Hs.
      destruct (Hs e He) as (H1 & _ & _ & H2). constructor; [lia| |intros x Hx; right; auto|left; lia|].
      * specialize (tv_held0 (e.2 - 1) (H2 (e.2 - 1) ltac:(lia))). lia.
      * intros r [->|Hr]%elem_of_cons; cbn [fst]; [left; lia|]. destruct (tv_acks0 r Hr) as [? _]. left. lia.
    + destruct (tv_acks0 r Hr) as [? _]. split; [done|]. apply Forall_forall. intros e He. destruct (Hold r e Hr He).
      constructor; try done. intros r' [->|Hr']%elem_of_cons; [|auto]. cbn [fst].
      destruct (Z.lt_ge_cases (cont h) e.1); [by left|]. destruct (Z.le_gt_cases e.2 (cont h)); [by right|].
      destruct Hc. apply rp_has0. lia.
  - intros x Hx. destruct (tv_sacked0 x Hx) as (r & e & Hr & He & Hxe). exists r, e. conj; [by right|done|lia|lia].
Qed.

(** The sender takes in a report. *)
Lemma sack_inv una tx rx sg ak out h hs a :
  INV una tx rx sg ak out h hs → a ∈ ak → una - 2 ^ 29 ≤ a_pos a → m_sentList tx ≠ [] →
  ∃ n called tx', Update (a_sacks a) tx = Ok (n, called, tx') ∧ INV una tx' rx sg ak out h hs.
Proof.
  intros V Ha Hpos Hne. pose proof (tv_history _ _ _ _ _ _ _ _ _ _ V) as Hh. rewrite Hh in Ha.
  apply list_elem_of_fmap in Ha as (r & -> & Hr). cbn [to_ack a_pos a_sacks] in *.
  destruct (tv_acks _ _ _ _ _ _ _ _ _ _ V r Hr) as [Hc Hf]. pose proof (tv_tx _ _ _ _ _ _ _ _ _ _ V) as I.
  pose proof (ti_bounds _ _ _ I).
  assert (Forall (block_past una) r.2) as Hps.
  { eapply Forall_impl; [exact Hf|]. intros e []. unfold block_past, close. conj; try done; lia. }
  destruct (Update_ok stream una tx r.2 I Hne Hps) as (tx' & Hu & I' & (Hs & _) & _ & HF & Hk & _).
  eexists _, _, tx'. split; [exact Hu|].
  assert (∀ y, sacked_byte una (m_sentList tx') y → sacked_byte una (m_sentList tx) y ∨ ∃ e, e ∈ r.2 ∧ e.1 ≤ y < e.2) as Hsb.
  { intros y Hy. eapply sacked_byte_mono in Hy; [|by apply same_sacks_fewer]. by apply sacked_byte_mark_all in Hy. }
  pose proof V as V'. destruct V'. constructor; rewrite ?Hs; try done.
  intros x Hx. destruct (Hsb x Hx) as [?|(e & He & ?)]; [auto|]. by exists r, e.
Qed.

(** The sender takes in an acknowledgment. *)
Lemma ack_inv una tx rx sg ak out h hs a now :
  INV una tx rx sg ak out h hs → a ∈ ak → una - 2 ^ 29 ≤ a_pos a →
  ∃ removed tx', DiscardUpTo now (a_seq a) tx = Ok (removed, tx') ∧ INV (Z.max una (a_pos a)) tx' rx sg ak out h hs.
Proof.
  intros V Ha Hpos. pose proof (tv_history _ _ _ _ _ _ _ _ _ _ V) as Hh. rewrite Hh in Ha.
  apply list_elem_of_fmap in Ha as (r & -> & Hr). cbn [to_ack a_pos a_seq] in *.
  destruct (tv_acks _ _ _ _ _ _ _ _ _ _ V r Hr) as [Hc Hf]. pose proof (tv_tx _ _ _ _ _ _ _ _ _ _ V) as I.
  pose proof (tv_cont _ _ _ _ _ _ _ _ _ _ V) as Hcont. pose proof (tv_una _ _ _ _ _ _ _ _ _ _ V) as Huna.
  pose proof (ack_not_sacked _ _ _ _ _ _ _ _ _ V Hr) as Hns.
  pose proof (DiscardUpTo_ok stream una tx now r.1 I ltac:(lia) (not_sacked_ack _ _ _ Hns)) as Hd.
  destruct (decide (r.1 ≤ una)) as [Hle|Hgt].
  { exists [], tx. rewrite Z.max_l by lia. done. }
  destruct Hd as (removed & tx' & Hd & I' & Hs1 & _ & _ & _ & Hl & _). exists removed, tx'. split; [exact Hd|].
  rewrite Z.max_r by lia. assert (m_sentList tx' = drop_items (r.1 - una) (m_sentList tx)) as El.
  { apply Hl. intros i. apply (not_sacked_head stream una); [apply I|lia|]. by replace (una + (r.1 - una)) with r.1 by lia. }
  assert (r.1 + m_size tx' = una + m_size tx) as Hw by lia.
  pose proof V as V'. destruct V'. constructor; rewrite ?Hw; try done.
  - intros r' Hr'. destruct (tv_acks0 r' Hr') as [? Hf']. split; [done|]. eapply Forall_impl; [exact Hf'|].
    intros e []. constructor; try done. by apply rp_acks0.
  - intros x Hx. apply tv_sacked0. apply (sacked_byte_drop stream una (r.1 - una)); [apply I|lia|].
    rewrite <- El. by replace (una + (r.1 - una)) with r.1 by lia.
Qed.

(** ** The invariant of the connection *)

Lemma transfer_inv_ok max dup seg m una tx rx sg ak out :
  0 ≤ max ≤ 2 ^ 30 → 0 ≤ m ≤ 2 ^ 29 → transfer stream start max dup seg m una tx rx sg ak out →
  ∃ h hs, INV una tx rx sg ak out h hs.
Proof.
  intros Hmax Hm. induction 1 as [|una tx rx sg ak out tx' _ (h & hs & V) Hop|una tx rx sg ak out now n q x tx' _ (h & hs & V) Hreq Hc
    |una tx rx sg ak out s r rx' _ (h & hs & V) Hin Hq He Hadd|una tx rx sg ak out n o rx' _ (h & hs & V) Hn Hex
    |una tx rx sg ak out _ (h & hs & V)|una tx rx sg ak out a n called tx' _ (h & hs & V) Ha Hpos Hne Hu
    |una tx rx sg ak out a now removed tx' _ (h & hs & V) Ha Hpos Hd].
  - exists (Held start start [] [] None), []. constructor; try done.
    + by apply new_ok.
    + apply (tx_run_inv stream start max dup seg true); [done|apply run_start].
    + unfold delivered. cbn. lia.
    + cbn. by rewrite bytes_nil.
    + cbn. lia.
    + by intros x ?%covered_nil.
    + by intros s ?%not_elem_of_nil.
    + by intros r ?%not_elem_of_nil.
  - pose proof (tv_tx _ _ _ _ _ _ _ _ _ _ V) as I. exists h, hs. destruct (local_op_ok _ _ _ _ I Hop) as (b' & [= <-] & I' & Hs).
    apply (transfer_tx una tx); try done. intros y. by apply (local_op_sacks stream).
  - pose proof (tv_tx _ _ _ _ _ _ _ _ _ _ V) as I. exists h, hs.
    destruct (request_ok stream una tx now n q I Hreq) as (o & b' & Hc' & I' & Hs & Hsb & Hx). rewrite Hc in Hc'.
    injection Hc' as <- <-. destruct (Hx x eq_refl) as (Hseq & k & Hk & Hw & Hb).
    pose proof (transfer_tx una tx tx' rx sg ak out h hs V I' ltac:(lia) Hsb) as V'. destruct V'. constructor; try done.
    intros s [->|Hin]%elem_of_cons; [|auto]. cbn [s_seq s_pos s_data].
    assert (tsize (m_packet x) = k) as -> by (rewrite Hb, tsize_bytes by lia; lia). conj; [done|lia|done].
  - destruct (deliver_inv _ _ _ _ _ _ _ _ s V Hin Hq He) as (r' & rx2 & h' & Hadd' & V'). rewrite Hadd in Hadd'.
    injection Hadd' as _ <-. by exists h', hs.
  - destruct (extract_inv _ _ _ _ _ _ _ _ n V Hn) as (o' & rx2 & h' & Hex' & V'). rewrite Hex in Hex'.
    injection Hex' as <- <-. by exists h', hs.
  - eexists h, _. by apply acknowledge_inv.
  - destruct (sack_inv _ _ _ _ _ _ _ _ a V Ha Hpos Hne) as (n' & c' & tx2 & Hu' & V'). rewrite Hu in Hu'.
    injection Hu' as _ _ <-. by exists h, hs.
  - destruct (ack_inv _ _ _ _ _ _ _ _ a now V Ha Hpos) as (rm & tx2 & Hd' & V'). rewrite Hd in Hd'.
    injection Hd' as _ <-. by exists h, hs.
Qed.
End transfer.

(** C5 A transfer from the sender's buffer to the receiver's, over a network that loses, repeats
    and reorders: what is delivered is the beginning of what was written, in order, each byte
    once; the sender keeps every byte that the receiver does not have in order yet; and the
    receiver never has more than was written.  No step fails: an arrival within the window, an
    extraction (which delivers the next bytes in order, as many as are asked for and there), an
    acknowledgment or the report of selective acknowledgments that comes with it, old or new, and
    whatever the sender does next on its own. *)
Theorem tcp_transfer stream start max dup seg m una tx rx sg ak out :
  0 ≤ max ≤ 2 ^ 30 → 0 ≤ m ≤ 2 ^ 29 → transfer stream start max dup seg m una tx rx sg ak out →
  let d := start + delivered out in
  out = bytes stream start d ∧
  una ≤ d + TcpRxBuffer.Available rx ≤ una + m_size tx ∧
  tx_data tx = bytes stream una (una + m_size tx) ∧
  (∀ s, s ∈ sg → d - 2 ^ 29 ≤ s_pos s → s_pos s + tsize (s_data s) ≤ d + 2 ^ 30 →
    is_ok (TcpRxBuffer.Add (s_data s) (s_seq s) rx) = true) ∧
  (∀ n, 0 ≤ n → ∃ o rx', TcpRxBuffer.Extract n rx = Ok (o, rx') ∧
    default [] o = bytes stream d (d + Z.min n (TcpRxBuffer.Available rx))) ∧
  (∀ a now, a ∈ ak → una - 2 ^ 29 ≤ a_pos a →
    is_ok (DiscardUpTo now (a_seq a) tx) = true ∧ (m_sentList tx ≠ [] → is_ok (Update (a_sacks a) tx) = true)) ∧
  (∀ r, local_op stream una tx r → is_ok r = true) ∧
  (∀ now n q, request una n tx q → is_ok (CopyFromSequence copy_fuel now n (u32 q) tx) = true).
Proof.
  intros Hmax Hm Ht d. destruct (transfer_inv_ok stream start _ _ _ _ _ _ _ _ _ _ Hmax Hm Ht) as (h & hs & V).
  pose proof (tv_rx _ _ _ _ _ _ _ _ _ _ V) as I. pose proof (tv_tx _ _ _ _ _ _ _ _ _ _ V) as I2.
  pose proof (tv_base _ _ _ _ _ _ _ _ _ _ V) as Hb. fold d in Hb.
  pose proof (tv_una _ _ _ _ _ _ _ _ _ _ V). pose proof (tv_cont _ _ _ _ _ _ _ _ _ _ V).
  assert (TcpRxBuffer.Available rx = cont h - base h) as Hav by (by rewrite (proj2 I)).
  conj; [rewrite <- Hb; apply V|lia|lia|exact (tx_data_ok _ _ _ I2)|..].
  - intros s Hin Hq He. by destruct (deliver_inv _ _ _ _ _ _ _ _ _ _ s V Hin Hq He) as (r & rx' & h' & -> & _).
  - intros n Hn. pose proof (Extract_ok stream rx h n I Hn) as HE. cbv zeta in HE. destruct HE as (rx' & -> & _ & _).
    eexists _, rx'. split; [done|]. rewrite Hav, Hb. set (k := Z.min n _).
    destruct (Z.eqb_spec k 0) as [->|]; [by rewrite Z.add_0_r, bytes_nil|done].
  - intros a now Ha Hpos. split.
    + by destruct (ack_inv _ _ _ _ _ _ _ _ _ _ a now V Ha Hpos) as (rm & tx' & -> & _).
    + intros Hne. by destruct (sack_inv _ _ _ _ _ _ _ _ _ _ a V Ha Hpos Hne) as (n & c & tx' & -> & _).
  - intros r Hop. by destruct (local_op_ok _ _ _ _ I2 Hop) as (b' & -> & _).
  - intros now n q Hreq. by destruct (request_ok _ _ _ now _ _ I2 Hreq) as (o & b' & -> & _).
Qed.

(** ** A transfer of forty bytes *)

Section example.
Let rx0 : TcpRxBuffer.t := TcpRxBuffer.SetNextRxSequence (u32 ex_una) (TcpRxBuffer.SetMaxBufferSize 100 (TcpRxBuffer.new 0)).
Let seg_at (k : Z) : segment := Segment (ex_una + k) (u32 (ex_una + k)) (bytes ex_stream (ex_una + k) (ex_una + k + 10)).
Let rx_of {A} (r : res (A * TcpRxBuffer.t)) : TcpRxBuffer.t := match r with Ok (_, b) => b | Err _ => rx0 end.
Let rx1 : TcpRxBuffer.t := rx_of (TcpRxBuffer.Add (s_data (seg_at 10)) (s_seq (seg_at 10)) rx0).
Let rx2 : TcpRxBuffer.t := rx_of (TcpRxBuffer.Add (s_data (seg_at 0)) (s_seq (seg_at 0)) rx1).
Let rx3 : TcpRxBuffer.t := rx_of (TcpRxBuffer.Extract 15 rx2).
Let sg : list segment := [seg_at 30; seg_at 20; seg_at 10; seg_at 0].
Let ack1 : ack := Ack ex_una (u32 ex_una) [(u32 (ex_una + 10), u32 (ex_una + 20))].
Let ack2 : ack := Ack (ex_una + 20) (u32 (ex_una + 20)) [].
Let tx1 : TcpTxBuffer := res_buffer (Update (a_sacks ack1) ex_sent).
Let tx2 : TcpTxBuffer := res_buffer (DiscardUpTo 9 (a_seq ack2) tx1).

(** The second segment arrives first and is reported, then the first one; both are
    acknowledged, and fifteen bytes are delivered. *)
Lemma tcp_transfer_witness :
  transfer ex_stream ex_una 100 3 10 100 (ex_una + 20) tx2 rx3 sg [ack2; ack1] (bytes ex_stream ex_una (ex_una + 15)) ∧
  TcpRxBuffer.Available rx3 = 5 ∧ m_size tx2 = 20 ∧
  is_ok (TcpRxBuffer.Add (s_data (seg_at 0)) (s_seq (seg_at 0)) rx3) = true.
Proof.
  assert (transfer ex_stream ex_una 100 3 10 100 ex_una ex_added rx0 [] [] []) as T0.
  { assert (ex_added = snd (Add (bytes ex_stream (ex_una + m_size ex_empty) (ex_una + m_size ex_empty + 40)) ex_empty)) as ->
      by (vm_compute; reflexivity).
    eapply tr_local; [apply tr_start|]. apply op_add. lia. }
  assert (∀ k b sg, transfer ex_stream ex_una 100 3 10 100 ex_una b rx0 sg [] [] → m_sentSize b = k →
    match CopyFromSequence copy_fuel 0 10 (u32 (ex_una + k)) b with
    | Ok (Some x, _) => m_startSeq x = s_seq (seg_at k) ∧ m_packet x = s_data (seg_at k)
    | _ => False
    end → transfer ex_stream ex_una 100 3 10 100 ex_una (ex_send k b) rx0 (seg_at k :: sg) [] []) as Hsend.
  { intros k b sg' T <- Hx. unfold ex_send.
    destruct (CopyFromSequence copy_fuel 0 10 (u32 (ex_una + m_sentSize b)) b) as [[[x|] b']|] eqn:Hc; try done.
    destruct Hx as [Hx1 Hx2]. cbn [res_buffer].
    assert (seg_at (m_sentSize b) = Segment (ex_una + m_sentSize b) (m_startSeq x) (m_packet x)) as -> by (by rewrite Hx1, Hx2).
    eapply tr_send; [exact T| |exact Hc]. apply request_new. lia. }
  assert (transfer ex_stream ex_una 100 3 10 100 ex_una ex_sent rx0 sg [] []) as T1.
  { unfold ex_sent, sg. repeat (apply Hsend; [|vm_compute; reflexivity|vm_compute; split; reflexivity]). exact T0. }
  assert (transfer ex_stream ex_una 100 3 10 100 ex_una ex_sent rx1 sg [] []) as T2.
  { eapply (tr_deliver _ _ _ _ _ _ _ _ rx0 _ _ _ (seg_at 10) true rx1 T1).
    - unfold sg. do 2 right. left.
    - unfold seg_at, delivered. cbn [s_pos length]. lia.
    - vm_compute. discriminate.
    - vm_compute. reflexivity. }
  assert (transfer ex_stream ex_una 100 3 10 100 ex_una ex_sent rx1 sg [ack1] []) as T3.
  { assert (ack1 = Ack (ex_una + delivered [] + TcpRxBuffer.Available rx1) (TcpRxBuffer.NextRxSequence rx1) (TcpRxBuffer.GetSackList rx1)) as ->
      by (vm_compute; reflexivity).
    by apply tr_acknowledge. }
  assert (transfer ex_stream ex_una 100 3 10 100 ex_una tx1 rx1 sg [ack1] []) as T4.
  { destruct (Update (a_sacks ack1) ex_sent) as [[[n c] b']|] eqn:E; [|vm_compute in E; discriminate].
    assert (tx1 = b') as -> by reflexivity.
    eapply tr_sack; [exact T3|left| | |exact E]; [|vm_compute; discriminate]. unfold ack1. cbn [a_pos]. lia. }
  assert (transfer ex_stream ex_una 100 3 10 100 ex_una tx1 rx2 sg [ack1] []) as T5.
  { eapply (tr_deliver _ _ _ _ _ _ _ _ rx1 _ _ _ (seg_at 0) true rx2 T4).
    - unfold sg. do 3 right. left.
    - unfold seg_at, delivered. cbn [s_pos length]. lia.
    - vm_compute. discriminate.
    - vm_compute. reflexivity. }
  assert (transfer ex_stream ex_una 100 3 10 100 ex_una tx1 rx2 sg [ack2; ack1] []) as T6.
  { assert (ack2 = Ack (ex_una + delivered [] + TcpRxBuffer.Available rx2) (TcpRxBuffer.NextRxSequence rx2) (TcpRxBuffer.GetSackList rx2)) as ->
      by (vm_compute; reflexivity).
    by apply tr_acknowledge. }
  assert (transfer ex_stream ex_una 100 3 10 100 (ex_una + 20) tx2 rx2 sg [ack2; ack1] []) as T7.
  { replace (ex_una + 20) with (Z.max ex_una (a_pos ack2)) by (vm_compute; reflexivity).
    destruct (DiscardUpTo 9 (a_seq ack2) tx1) as [[rm b']|] eqn:E; [|vm_compute in E; discriminate].
    assert (tx2 = b') as -> by reflexivity.
    eapply tr_ack; [exact T6|left| |exact E]. unfold ack2. cbn [a_pos]. lia. }
  assert (transfer ex_stream ex_una 100 3 10 100 (ex_una + 20) tx2 rx3 sg [ack2; ack1] (bytes ex_stream ex_una (ex_una + 15))) as T8.
  { change (bytes ex_stream ex_una (ex_una + 15)) with ([] ++ default [] (Some (bytes ex_stream ex_una (ex_una + 15)))).
    eapply (tr_extract _ _ _ _ _ _ _ tx2 rx2 sg _ [] 15 _ rx3 T7); [lia|]. vm_compute. reflexivity. }
  split; [exact T8|]. split; [vm_compute; reflexivity|]. split; [vm_compute; reflexivity|].
  destruct (tcp_transfer ex_stream ex_una 100 3 10 100 (ex_una + 20) tx2 rx3 sg [ack2; ack1] _ ltac:(lia) ltac:(lia) T8)
    as (_ & _ & _ & Hadd & _).
  apply Hadd.
  - unfold sg. do 3 right. left.
  - vm_compute. discriminate.
  - vm_compute. discriminate.
Defined.
End example.
