(* ===== verification/RtpsTypes.v ===== *)
(** * RTPS: identifiers and sequence numbers (src/contrib/embeddedrtps, rtps/common/types.h)

    A sequence number is a signed high word and an unsigned low word; it stands for the integer
    [sn_val].  The theorems about writers and readers speak of positions, [SN z]; the lemmas here
    say that the operators on pairs are those of integers. *)

From S2P Require Import Prelude.
Local Open Scope Z_scope.

(** A value of a signed 32-bit type: arithmetic out of its range is undefined. *)
Definition int32 (z : Z) : res Z := if (- 2 ^ 31 <=? z) && (z <? 2 ^ 31) then Ok z else Err Undefined.

(** [types.h:68-73] ChangeKind_t *)
Inductive ChangeKind_t := INVALID | ALIVE | NOT_ALIVE_DISPOSED | NOT_ALIVE_UNREGISTERED.

#[export] Instance ChangeKind_eq_dec : EqDecision ChangeKind_t.
Proof. solve_decision. Defined.

(** [types.h:66-66] TopicKind_t *)
Inductive TopicKind_t := NO_KEY | WITH_KEY.

(** [types.h:87-93] GuidPrefix_t

    Twelve bytes. *)
Definition GuidPrefix_t : Type := list Z.

(** [types.h:95-105] EntityId_t

    Three bytes and the kind, an enumeration over [uint8_t] that any byte is cast to. *)
Record EntityId_t := mkEntityId { entityKey : list Z; entityKind : Z }.

(** [types.h:107-113] Guid_t *)
Record Guid_t := mkGuid { prefix : GuidPrefix_t; entityId : EntityId_t }.

(** [operator==] of these types is equality of the fields. *)
#[export] Instance EntityId_eq_dec : EqDecision EntityId_t.
Proof. solve_decision. Defined.
#[export] Instance GuidPrefix_eq_dec : EqDecision GuidPrefix_t.
Proof. unfold GuidPrefix_t. solve_decision. Defined.
#[export] Instance Guid_eq_dec : EqDecision Guid_t.
Proof. solve_decision. Defined.

(** [types.h:244-244] ENTITYID_UNKNOWN *)
Definition ENTITYID_UNKNOWN : EntityId_t := mkEntityId [0; 0; 0] 0.

(** [types.h:268-268] GUIDPREFIX_UNKNOWN *)
Definition GUIDPREFIX_UNKNOWN : GuidPrefix_t := replicate 12 0.

(** ** Sequence numbers *)

(** [types.h:145-147] SequenceNumber_t

    [int32_t high; uint32_t low]. *)
Record SequenceNumber_t := mkSN { sn_high : Z; sn_low : Z }.

#[export] Instance SequenceNumber_eq_dec : EqDecision SequenceNumber_t.
Proof. solve_decision. Defined.

(** [types.h:149-151] operator== *)
Definition sn_eqb (a b : SequenceNumber_t) : bool := (sn_high a =? sn_high b) && (sn_low a =? sn_low b).

(** [types.h:157-159] operator< *)
Definition sn_ltb (a b : SequenceNumber_t) : bool :=
  (sn_high a <? sn_high b) || ((sn_high a =? sn_high b) && (sn_low a <? sn_low b)).

(** [types.h:161-163] operator> *)
Definition sn_gtb (a b : SequenceNumber_t) : bool :=
  (sn_high b <? sn_high a) || ((sn_high a =? sn_high b) && (sn_low b <? sn_low a)).

(** [types.h:165-167] operator<= *)
Definition sn_leb (a b : SequenceNumber_t) : bool := sn_eqb a b || sn_ltb a b.

(** [types.h:169-181] operator++

    The low word wraps around, the increment of the high word is signed arithmetic. *)
Definition sn_incr (a : SequenceNumber_t) : res SequenceNumber_t :=
  let low := u32 (sn_low a + 1) in
  if low =? 0 then high ← int32 (sn_high a + 1); Ok (mkSN high low) else Ok (mkSN (sn_high a) low).

(** [types.h:275-275] SEQUENCENUMBER_UNKNOWN *)
Definition SEQUENCENUMBER_UNKNOWN : SequenceNumber_t := mkSN (-1) 0.

(** [types.h:184-185] SNS_MAX_NUM_BITS *)
Definition SNS_MAX_NUM_BITS : Z := 32.
Definition SNS_NUM_BYTES : Z := SNS_MAX_NUM_BITS / 8.

(** [types.h:189-198] SequenceNumberSet

    The bitmap has one word. *)
Record SequenceNumberSet := mkSNS { base : SequenceNumber_t; numBits : Z; bitMap : list Z }.

(** [types.h:201-208] SequenceNumberSet::isSet *)
Definition isSet (bit : Z) (s : SequenceNumberSet) : res bool :=
  if SNS_MAX_NUM_BITS <=? bit then Ok true
  else
    let bucket := u8 (bit / 32) in
    let pos := u8 (bit mod 32) in
    w ← deref (bitMap s !! Z.to_nat bucket);
    Ok (negb (Z.land w (Z.shiftl 1 (31 - pos)) =? 0)).

(** [types.h:191-193] SequenceNumberSet::SequenceNumberSet *)
Definition SequenceNumberSet_new (firstMissing : SequenceNumber_t) : SequenceNumberSet := mkSNS firstMissing 0 [0].

(** ** Sequence numbers as integers *)

Definition sn_val (s : SequenceNumber_t) : Z := sn_high s * 2 ^ 32 + sn_low s.

(** The number of a position. *)
Definition SN (z : Z) : SequenceNumber_t := mkSN (z / 2 ^ 32) (z mod 2 ^ 32).

(** The fields are in the range of their types. *)
Definition sn_ok (s : SequenceNumber_t) : Prop := - 2 ^ 31 ≤ sn_high s < 2 ^ 31 ∧ fits 32 (sn_low s).

Lemma sn_val_SN z : sn_val (SN z) = z.
Proof. unfold sn_val, SN. cbn. pose proof (Z.div_mod z (2 ^ 32)). lia. Qed.

Lemma SN_val s : fits 32 (sn_low s) → SN (sn_val s) = s.
Proof.
  intros H. unfold SN, sn_val. destruct s as [h l]. cbn in *. unfold fits in H.
  rewrite Z.div_add_l, Z.div_small, Z.add_0_r by lia. rewrite Z.add_comm, Z_mod_plus_full, Z.mod_small by lia. done.
Qed.

Lemma SN_inj a b : SN a = SN b → a = b.
Proof. intros H. by rewrite <- (sn_val_SN a), H, sn_val_SN. Qed.

Lemma SN_ok z : - 2 ^ 63 ≤ z < 2 ^ 63 → sn_ok (SN z).
Proof. intros. unfold sn_ok, SN, fits. cbn. pose proof (Z.mod_pos_bound z (2 ^ 32)). split; [|lia]. div_lia. Qed.

Lemma sn_eqb_SN a b : sn_eqb (SN a) (SN b) = (a =? b).
Proof.
  apply Bool.eq_iff_eq_true. unfold sn_eqb, SN. cbn. rewrite andb_true_iff, !Z.eqb_eq.
  pose proof (Z.div_mod a (2 ^ 32)). pose proof (Z.div_mod b (2 ^ 32)). split; [lia|intros ->; lia].
Qed.

Lemma sn_ltb_SN a b : sn_ltb (SN a) (SN b) = (a <? b).
Proof.
  apply Bool.eq_iff_eq_true. unfold sn_ltb, SN. cbn. rewrite orb_true_iff, andb_true_iff, Z.eqb_eq, !Z.ltb_lt.
  pose proof (Z.div_mod a (2 ^ 32)). pose proof (Z.div_mod b (2 ^ 32)).
  pose proof (Z.mod_pos_bound a (2 ^ 32)). pose proof (Z.mod_pos_bound b (2 ^ 32)). lia.
Qed.

Lemma sn_gtb_SN a b : sn_gtb (SN a) (SN b) = (b <? a).
Proof.
  rewrite <- sn_ltb_SN. unfold sn_gtb, sn_ltb. cbn. by rewrite (Z.eqb_sym (b / _)).
Qed.

Lemma sn_leb_SN a b : sn_leb (SN a) (SN b) = (a <=? b).
Proof.
  unfold sn_leb. rewrite sn_eqb_SN, sn_ltb_SN. apply Bool.eq_iff_eq_true. rewrite orb_true_iff, Z.eqb_eq, Z.ltb_lt, Z.leb_le. lia.
Qed.

Lemma sn_incr_SN a : - 2 ^ 63 ≤ a < 2 ^ 63 - 1 → sn_incr (SN a) = Ok (SN (a + 1)).
Proof.
  intros Ha. unfold sn_incr, SN, int32, wrap. cbn [sn_high sn_low].
  rewrite Z.add_mod_idemp_l by lia.
  pose proof (Z.div_mod a (2 ^ 32)). pose proof (Z.div_mod (a + 1) (2 ^ 32)).
  pose proof (Z.mod_pos_bound a (2 ^ 32)). pose proof (Z.mod_pos_bound (a + 1) (2 ^ 32)).
  destruct (Z.eqb_spec ((a + 1) mod 2 ^ 32) 0).
  - rewrite (proj2 (Z.leb_le _ _)), (proj2 (Z.ltb_lt _ _)) by lia. cbn. do 2 f_equal; lia.
  - do 2 f_equal; lia.
Qed.

Lemma SEQUENCENUMBER_UNKNOWN_SN : SEQUENCENUMBER_UNKNOWN = SN (- 2 ^ 32).
Proof. reflexivity. Qed.

(** The set a reader asks with: one bit, the first. *)
Lemma isSet_first b : isSet 0 (mkSNS b 1 [2 ^ 31]) = Ok true.
Proof. reflexivity. Qed.
