(* ===== verification/MemoryPool.v ===== *)
(** * RTPS: the pool of proxies (src/contrib/embeddedrtps, rtps/storages/MemoryPool.h)

    An array of [SIZE] elements and a bitmap of the slots in use.  Iterators walk over a copy of
    the bitmap that they took at their creation.  What a pool holds is described by its slots: a
    list of [SIZE] optional elements. *)

From S2P Require Import Prelude.
Local Open Scope Z_scope.

Section pool.
Context {A : Type} (SIZE : Z).

(** [MemoryPool.h:184-186] MemoryPool

    [std::array<uint8_t, SIZE / 8 + 1> m_bitMap], the number of elements and the array. *)
Record MemoryPool := mkPool { m_bitMap : list Z; m_numElements : Z; m_data : list A }.
Implicit Types p : MemoryPool.

(** [MemoryPool.h:95-95] MemoryPool::isFull *)
Definition isFull p : bool := m_numElements p =? SIZE.

(** [MemoryPool.h:97-97] MemoryPool::isEmpty *)
Definition isEmpty p : bool := m_numElements p =? 0.

(** [MemoryPool.h:99-99] MemoryPool::getNumElements *)
Definition getNumElements p : Z := m_numElements p.

(** The loop over the bits of a byte: [byte] is shifted as the code does. *)
Fixpoint add_bits (n : nat) (bit byte : Z) : option Z :=
  match n with
  | O => None
  | S n => if Z.land byte 1 =? 0 then Some bit else add_bits n (bit + 1) (Z.shiftr byte 1)
  end.

(** The loop over the buckets: the bucket and bit of the free slot that is taken. *)
Fixpoint add_buckets (bucket : Z) (bytes : list Z) : option (Z * Z) :=
  match bytes with
  | [] => None
  | byte :: bytes =>
      match (if byte =? 255 then None else add_bits 8 0 byte) with
      | Some bit => Some (bucket, bit)
      | None => add_buckets (bucket + 1) bytes
      end
  end.

(** [MemoryPool.h:101-121] MemoryPool::add *)
Definition add (data : A) p : res (bool * MemoryPool) :=
  if isFull p then Ok (false, p)
  else
    match add_buckets 0 (m_bitMap p) with
    | None => Ok (false, p)
    | Some (bucket, bit) =>
        byte ← deref (m_bitMap p !! Z.to_nat bucket);
        _ ← deref (m_data p !! Z.to_nat (bucket * 8 + bit));
        Ok (true, mkPool (<[Z.to_nat bucket := u8 (Z.lor byte (Z.shiftl 1 bit))]> (m_bitMap p)) (u32 (m_numElements p + 1))
                         (<[Z.to_nat (bucket * 8 + bit) := data]> (m_data p)))
    end.

(** [MemoryPool.h:152-157] MemoryPool::clear *)
Definition clear p : MemoryPool := mkPool (replicate (length (m_bitMap p)) 0) 0 (m_data p).

(** ** Iterators *)

(** [MemoryPool.h:83-86] MemoryPool::MemoryPoolIterator *)
Record iterator := mkIt { it_bitMap : list Z; it_bit : Z }.

(** The loop of the increment: it stops at a bit that is set, or at the end. *)
Fixpoint it_advance (fuel : nat) (bits : list Z) (bit : Z) : res Z :=
  match fuel with
  | O => Err OutOfFuel
  | S fuel =>
      let bit := u32 (bit + 1) in
      byte ← deref (bits !! Z.to_nat (bit / 8));
      if (Z.land byte (Z.shiftl 1 (bit mod 8)) =? 0) && (bit <? SIZE) then it_advance fuel bits bit else Ok bit
  end.

(** [MemoryPool.h:60-72] MemoryPoolIterator::operator++ *)
Definition it_incr p (it : iterator) : res iterator :=
  if m_numElements p =? 0 then Ok (mkIt (it_bitMap it) SIZE)
  else bit ← it_advance (S (Z.to_nat SIZE)) (it_bitMap it) (it_bit it); Ok (mkIt (it_bitMap it) bit).

(** [MemoryPool.h:169-175] MemoryPool::begin *)
Definition begin p : res iterator :=
  let it := mkIt (m_bitMap p) 0 in
  byte ← deref (m_bitMap p !! O);
  if Z.land byte 1 =? 0 then it_incr p it else Ok it.

(** [MemoryPool.h:177-181] MemoryPool::end *)
Definition end_bit : Z := SIZE.

(** [for (auto it = begin(); it != end(); ++it)] over the pool of a state that the body may
    change; the body says whether the loop is left. *)
Fixpoint iterate {St} (pool : St → MemoryPool) (body : Z → St → res (bool * St)) (fuel : nat) (it : iterator) (st : St) :
    res St :=
  if it_bit it =? end_bit then Ok st
  else
    match fuel with
    | O => Err OutOfFuel
    | S fuel =>
        '(stop, st) ← body (it_bit it) st;
        if stop : bool then Ok st
        else it ← it_incr (pool st) it; iterate pool body fuel it st
    end.

Definition for_each {St} (pool : St → MemoryPool) (body : Z → St → res (bool * St)) (st : St) : res St :=
  it ← begin (pool st);
  iterate pool body (Z.to_nat SIZE) it st.

(** [*it] *)
Definition at_bit (m_bit : Z) p : res A := deref (m_data p !! Z.to_nat m_bit).

(** An assignment through the iterator or a pointer it gave. *)
Definition assign (m_bit : Z) (x : A) p : MemoryPool :=
  mkPool (m_bitMap p) (m_numElements p) (<[Z.to_nat m_bit := x]> (m_data p)).

(** The body of the loop of [remove]. *)
Definition remove_body (isCorrectElement : A → bool) (m_bit : Z) (rp : bool * MemoryPool) : res (bool * (bool * MemoryPool)) :=
  let '(retcode, p) := rp in
  x ← at_bit m_bit p;
  if isCorrectElement x then
    let bucket := m_bit / 8 in
    let pos := Z.land m_bit 7 in
    byte ← deref (m_bitMap p !! Z.to_nat bucket);
    Ok (false, (true, mkPool (<[Z.to_nat bucket := u8 (Z.land byte (Z.lnot (Z.shiftl 1 pos)))]> (m_bitMap p))
                             (u32 (m_numElements p - 1)) (m_data p)))
  else Ok (false, (retcode, p)).

(** [MemoryPool.h:134-150] MemoryPool::remove

    The condition, a function with its argument, is a predicate. *)
Definition remove (isCorrectElement : A → bool) p : res (bool * MemoryPool) :=
  for_each snd (remove_body isCorrectElement) (false, p).

(** The body of the loop of [find]. *)
Definition find_body (isCorrectElement : A → bool) (m_bit : Z) (fp : option Z * MemoryPool) : res (bool * (option Z * MemoryPool)) :=
  let '(found, p) := fp in
  x ← at_bit m_bit p;
  if isCorrectElement x then Ok (true, (Some m_bit, p)) else Ok (false, (found, p)).

(** [MemoryPool.h:159-167] MemoryPool::find

    The slot of the element, for a pointer to it. *)
Definition find (isCorrectElement : A → bool) p : res (option Z) :=
  '(found, _) ← for_each snd (find_body isCorrectElement) (None, p);
  Ok found.

(** [for (auto &x : pool)] where the body leaves the bitmap and the count alone: the slots that
    are visited, in order. *)
Definition range p : res (list Z) :=
  '(l, _) ← for_each snd (λ i '(l, p), Ok (false, (l ++ [i], p))) ([], p);
  Ok l.

(** ** What a pool holds *)

Definition bit_of (bits : list Z) (i : Z) : bool := Z.testbit (default 0 (bits !! Z.to_nat (i / 8))) (i mod 8).

Definition slots p : list (option A) :=
  imap (λ i x, if bit_of (m_bitMap p) (Z.of_nat i) then Some x else None) (m_data p).

Definition elements p : list A := omap id (slots p).

Record pool_ok p : Prop := {
  po_data : length (m_data p) = Z.to_nat SIZE;
  po_bitMap : length (m_bitMap p) = S (Z.to_nat (SIZE / 8));
  po_bytes : Forall (fits 8) (m_bitMap p);
  po_unused : ∀ i, SIZE ≤ i → bit_of (m_bitMap p) i = false;
  po_count : m_numElements p = Z.of_nat (length (elements p))
}.
End pool.

(** ** Bits of bytes *)

Lemma testbit_u8 z i : 0 ≤ i < 8 → Z.testbit (u8 z) i = Z.testbit z i.
Proof. intros. apply Z.mod_pow2_bits_low. lia. Qed.

Lemma testbit_set z k i : 0 ≤ k → 0 ≤ i → Z.testbit (Z.lor z (Z.shiftl 1 k)) i = Z.testbit z i || (k =? i).
Proof. intros. rewrite Z.lor_spec, Z.shiftl_1_l, Z.pow2_bits_eqb by lia. done. Qed.

Lemma testbit_clear z k i : 0 ≤ k → 0 ≤ i → Z.testbit (Z.land z (Z.lnot (Z.shiftl 1 k))) i = Z.testbit z i && negb (k =? i).
Proof. intros. rewrite Z.land_spec, Z.lnot_spec, Z.shiftl_1_l, Z.pow2_bits_eqb by lia. done. Qed.

Lemma land_bit z k : 0 ≤ k → (Z.land z (Z.shiftl 1 k) =? 0) = negb (Z.testbit z k).
Proof.
  intros Hk. rewrite Z.shiftl_1_l. destruct (Z.testbit z k) eqn:Hb; cbn [negb].
  - apply Z.eqb_neq. intros H0. assert (Z.testbit (Z.land z (2 ^ k)) k = false) as E by (rewrite H0; apply Z.bits_0).
    by rewrite Z.land_spec, Hb, Z.pow2_bits_true in E by lia.
  - apply Z.eqb_eq, Z.bits_inj'. intros i Hi. rewrite Z.land_spec, Z.bits_0, Z.pow2_bits_eqb by lia.
    destruct (Z.eqb_spec k i) as [<-|]; [by rewrite Hb|apply andb_false_r].
Qed.

(** The first free bit of a byte. *)
Lemma add_bits_ok byte :
  fits 8 byte → byte ≠ 255 →
  ∃ k, add_bits 8 0 byte = Some k ∧ 0 ≤ k < 8 ∧ Z.testbit byte k = false ∧ ∀ j, 0 ≤ j < k → Z.testbit byte j = true.
Proof.
  intros Hf Hne.
  assert (forallb (λ b, match add_bits 8 0 b with
    | Some k => (0 <=? k) && (k <? 8) && negb (Z.testbit b k) && forallb (Z.testbit b) (seqZ 0 k)
    | None => b =? 255 end) (seqZ 0 256) = true) as H by (vm_compute; reflexivity).
  rewrite forallb_forall in H. assert (In byte (seqZ 0 256)) as Hin by (apply list_elem_of_In, elem_of_seqZ; zlia).
  specialize (H byte Hin).
  destruct (add_bits 8 0 byte) as [k|]; [|by apply Z.eqb_eq in H].
  rewrite !andb_true_iff, Z.leb_le, Z.ltb_lt, negb_true_iff, forallb_forall in H. destruct H as [[[??]?] Hj].
  exists k. conj; [done|lia|lia|done|]. intros j ?. apply Hj, list_elem_of_In, elem_of_seqZ. lia.
Qed.

Lemma full_byte j : 0 ≤ j < 8 → Z.testbit 255 j = true.
Proof. intros. change 255 with (Z.ones 8). apply Z.ones_spec_low. lia. Qed.

Lemma bucket_bit i : 0 ≤ i → i = i / 8 * 8 + i mod 8 ∧ 0 ≤ i mod 8 < 8 ∧ 0 ≤ i / 8.
Proof. intros. pose proof (Z.div_mod i 8). pose proof (Z.mod_pos_bound i 8). pose proof (Z.div_pos i 8). lia. Qed.

Lemma bucket_of b k : 0 ≤ k < 8 → (b * 8 + k) / 8 = b ∧ (b * 8 + k) mod 8 = k.
Proof. intros. rewrite Z.div_add_l, Z.div_small by lia. rewrite (Z.add_comm (b * 8)), Z_mod_plus_full, Z.mod_small by lia. lia. Qed.

Lemma bit_of_bucket bits i byte :
  bits !! Z.to_nat (i / 8) = Some byte → bit_of bits i = Z.testbit byte (i mod 8).
Proof. intros H. unfold bit_of. by rewrite H. Qed.

(** A changed bit. *)
Lemma bit_of_change bits i byte z b (j : Z) :
  0 ≤ i → 0 ≤ j → bits !! Z.to_nat (i / 8) = Some byte →
  (∀ k, 0 ≤ k < 8 → Z.testbit z k = if i mod 8 =? k then b else Z.testbit byte k) →
  bit_of (<[Z.to_nat (i / 8) := z]> bits) j = if i =? j then b else bit_of bits j.
Proof.
  intros Hi Hj Hb Hz. pose proof (bucket_bit i Hi). pose proof (bucket_bit j Hj). unfold bit_of.
  destruct (Z.eqb_spec (i / 8) (j / 8)) as [E|E].
  - rewrite <- E, list_lookup_insert_eq by (by eapply lookup_lt_Some). cbn [default]. rewrite Hz by lia. rewrite Hb. cbn [default]. destruct (Z.eqb_spec (i mod 8) (j mod 8)), (Z.eqb_spec i j); try done; lia.
  - rewrite list_lookup_insert_ne by lia. destruct (Z.eqb_spec i j); [by subst|done].
Qed.

(** ** Walking over the slots in use *)

Section walk.
Context {A : Type} (SIZE : Z) (HS : 0 < SIZE < 2 ^ 32 - 1).
Implicit Types p : MemoryPool (A := A).

(** The slots in use from [b] on. *)
Definition used (bits : list Z) (b : Z) : list Z := filter (λ i, bit_of bits i = true) (seqZ b (SIZE - b)).

Lemma used_cons bits b : b < SIZE → used bits b = if bit_of bits b then b :: used bits (b + 1) else used bits (b + 1).
Proof using.
  intros Hb. unfold used. rewrite seqZ_cons by lia. replace (Z.pred (SIZE - b)) with (SIZE - (b + 1)) by lia.
  replace (Z.succ b) with (b + 1) by lia. rewrite filter_cons. destruct (bit_of bits b) eqn:E; [by rewrite decide_True|by rewrite decide_False].
Qed.

Lemma used_end bits b : SIZE ≤ b → used bits b = [].
Proof using. intros. unfold used. by rewrite seqZ_nil by lia. Qed.

Lemma elem_of_used bits b i : i ∈ used bits b ↔ bit_of bits i = true ∧ b ≤ i < SIZE.
Proof using. clear HS. unfold used. rewrite list_elem_of_filter, elem_of_seqZ. naive_solver lia. Qed.

Lemma used_first bits b c l : used bits b = c :: l → used bits c = c :: l.
Proof using.
  remember (Z.to_nat (c - b)) as n eqn:Hn. revert b Hn. induction n as [|n IH]; intros b Hn Hl.
  all: assert (c ∈ used bits b) as [Hc ?]%elem_of_used by (rewrite Hl; left).
  - by replace b with c in Hl by lia.
  - rewrite used_cons in Hl by lia. destruct (bit_of bits b) eqn:E; [injection Hl; lia|]. apply (IH (b + 1)); [lia|done].
Qed.

Lemma used_NoDup bits b : NoDup (used bits b).
Proof using. apply NoDup_filter, NoDup_seqZ. Qed.

Lemma it_advance_ok fuel bits b :
  length bits = S (Z.to_nat (SIZE / 8)) → 0 ≤ b < SIZE → (Z.to_nat (SIZE - b) ≤ fuel)%nat →
  it_advance SIZE fuel bits b = Ok (default SIZE (head (used bits (b + 1)))).
Proof using HS.
  intros Hl. revert b. induction fuel as [|fuel IH]; intros b Hb Hf; [lia|]. cbn [it_advance].
  rewrite (wrap_id 32) by zlia. pose proof (bucket_bit (b + 1) ltac:(lia)) as (? & ? & ?).
  destruct (lookup_lt_is_Some_2 bits (Z.to_nat ((b + 1) / 8))) as [byte Hbyte].
  { rewrite Hl. pose proof (Z.div_le_mono (b + 1) SIZE 8). lia. }
  rewrite Hbyte. res_simpl. rewrite land_bit, <- (bit_of_bucket _ _ _ Hbyte) by lia.
  destruct (Z.ltb_spec (b + 1) SIZE).
  - rewrite (used_cons bits (b + 1)), andb_true_r by lia. destruct (bit_of bits (b + 1)); cbn [negb]; [done|]. apply IH; lia.
  - rewrite used_end, andb_false_r by lia. cbn. f_equal. lia.
Qed.

Context {St : Type} (pool : St → MemoryPool (A := A)) (body : Z → St → res (bool * St)).

(** The body at each of the slots in turn. *)
Fixpoint visit (l : list Z) (st : St) : res St :=
  match l with
  | [] => Ok st
  | i :: l => '(stop, st) ← body i st; if stop : bool then Ok st else visit l st
  end.

(** While slots are left to visit the pool does not become empty. *)
Context (J : list Z → St → Prop)
  (HJ : ∀ i l st st', J (i :: l) st → body i st = Ok (false, st') → J l st' ∧ (l ≠ [] → m_numElements (pool st') ≠ 0)).

Lemma iterate_visit fuel bits b l st :
  length bits = S (Z.to_nat (SIZE / 8)) → 0 ≤ b → b :: l = used bits b → J (b :: l) st → (Z.to_nat (SIZE - b) ≤ fuel)%nat →
  iterate SIZE pool body fuel (mkIt bits b) st = visit (b :: l) st.
Proof using HS HJ.
  intros Hlen. revert b l st. induction fuel as [|fuel IH]; intros b l st Hb Hl HJ0 Hf.
  { assert (b ∈ used bits b) as [_ ?]%elem_of_used by (rewrite <- Hl; left). lia. }
  assert (b ∈ used bits b) as [Hbit ?]%elem_of_used by (rewrite <- Hl; left).
  cbn [iterate visit it_bit it_bitMap]. unfold end_bit. rewrite (proj2 (Z.eqb_neq _ _)) by lia.
  destruct (body b st) as [[stop st']|] eqn:Hbody; [|done]. res_simpl. destruct stop; [done|].
  destruct (HJ _ _ _ _ HJ0 Hbody) as [HJ' Hne]. unfold it_incr. cbn [it_bitMap it_bit].
  rewrite (used_cons bits b), Hbit in Hl by lia. injection Hl as Hl.
  assert (∀ fuel st', iterate SIZE pool body fuel (mkIt bits SIZE) st' = Ok st') as Hend.
  { intros f s. destruct f; cbn; unfold end_bit; by rewrite Z.eqb_refl. }
  destruct l as [|c l].
  - destruct (m_numElements (pool st') =? 0); res_simpl; [apply Hend|].
    rewrite it_advance_ok by (done || lia). rewrite <- Hl. res_simpl. apply Hend.
  - rewrite (proj2 (Z.eqb_neq _ _)) by by apply Hne. rewrite it_advance_ok by (done || lia). rewrite <- Hl. cbn [head default]. res_simpl.
    assert (c ∈ used bits (b + 1)) as [Hc ?]%elem_of_used by (rewrite <- Hl; left).
    apply IH; [lia|symmetry; by apply (used_first bits (b + 1))|done|lia].
Qed.

Lemma for_each_visit st :
  let bits := m_bitMap (pool st) in
  pool_ok SIZE (pool st) → J (used bits 0) st → (used bits 0 ≠ [] → m_numElements (pool st) ≠ 0) →
  for_each SIZE pool body st = visit (used bits 0) st.
Proof using HS HJ.
  intros bits Hok HJ0 Hne. unfold for_each, begin. fold bits. pose proof (po_bitMap _ _ Hok) as Hlen. fold bits in Hlen.
  assert (is_Some (bits !! O)) as [byte Hbyte] by (apply lookup_lt_is_Some; lia). rewrite Hbyte. res_simpl.
  change 1 with (Z.shiftl 1 0). rewrite land_bit by done. replace (Z.testbit byte 0) with (bit_of bits 0) by (by apply bit_of_bucket).
  assert (∀ fuel st', iterate SIZE pool body fuel (mkIt bits SIZE) st' = Ok st') as Hend.
  { intros f s. destruct f; cbn; unfold end_bit; by rewrite Z.eqb_refl. }
  destruct (used bits 0) as [|c l] eqn:Hu.
  - rewrite used_cons in Hu by lia. destruct (bit_of bits 0); [done|]. cbn [negb]. unfold it_incr. cbn [it_bitMap it_bit].
    destruct (m_numElements (pool st) =? 0); res_simpl; [apply Hend|].
    rewrite it_advance_ok by (done || lia). rewrite Hu. res_simpl. apply Hend.
  - assert (c ∈ used bits 0) as [Hc ?]%elem_of_used by (rewrite Hu; left).
    pose proof (used_first bits 0 c l Hu) as Hcl. symmetry in Hcl.
    destruct (bit_of bits 0) eqn:E0; cbn [negb].
    + assert (c = 0) as -> by (rewrite used_cons, E0 in Hu by lia; by injection Hu). res_simpl. apply iterate_visit; try done; lia.
    + unfold it_incr. cbn [it_bitMap it_bit]. rewrite (proj2 (Z.eqb_neq _ _)) by by apply Hne. rewrite it_advance_ok by (done || lia).
      rewrite used_cons, E0 in Hu by lia. rewrite Hu. cbn [head default]. res_simpl. apply iterate_visit; try done; lia.
Qed.
End walk.

(** ** The operations *)

Lemma existsb_ext_in {A} (f g : A → bool) l : (∀ x, x ∈ l → f x = g x) → existsb f l = existsb g l.
Proof.
  induction l as [|x l IH]; intros H; [done|]. cbn. rewrite (H x), IH; [done| |by left]. intros y Hy. apply H. by right.
Qed.

Section lists.
Context {A : Type}.
Implicit Types l : list (option A).

Lemma omap_id_length l : (length (omap id l) ≤ length l)%nat.
Proof. induction l as [|[x|] l IH]; cbn; lia. Qed.

Lemma omap_id_free l : (length (omap id l) < length l)%nat → ∃ i, l !! i = Some None.
Proof.
  induction l as [|[x|] l IH]; cbn; [lia| |by exists O]. intros H. destruct IH as [i Hi]; [lia|]. by exists (S i).
Qed.

Lemma omap_id_full l : length (omap id l) = length l → ∀ i, l !! i ≠ Some None.
Proof.
  induction l as [|[x|] l IH]; cbn; [done| |].
  - intros H [|i]; [done|]. apply IH. lia.
  - intros H. pose proof (omap_id_length l). lia.
Qed.

Lemma omap_id_insert l i x : l !! i = Some None → length (omap id (<[i := Some x]> l)) = S (length (omap id l)).
Proof.
  intros H. rewrite <- (take_drop_middle l i None H) at 2. rewrite insert_take_drop by (by eapply lookup_lt_Some).
  rewrite !omap_app, !length_app. cbn. lia.
Qed.

Lemma omap_id_remove l i x : l !! i = Some (Some x) → S (length (omap id (<[i := None]> l))) = length (omap id l).
Proof.
  intros H. rewrite <- (take_drop_middle l i _ H) at 2. rewrite insert_take_drop by (by eapply lookup_lt_Some).
  rewrite !omap_app, !length_app. cbn. lia.
Qed.

Lemma omap_id_replace l i x y : l !! i = Some (Some x) → length (omap id l) = length (omap id (<[i := Some y]> l)).
Proof.
  revert i. induction l as [|o l IH]; intros [|i] Hi; [done..| |].
  - injection Hi as ->. done.
  - destruct o; cbn; rewrite (IH i Hi); done.
Qed.
End lists.

Section ops.
Context {A : Type} (SIZE : Z) (HS : 0 < SIZE < 2 ^ 32 - 1).
Implicit Types p : MemoryPool (A := A).

Lemma slots_lookup p i :
  slots p !! i = (λ x, if bit_of (m_bitMap p) (Z.of_nat i) then Some x else None) <$> m_data p !! i.
Proof using. apply list_lookup_imap. Qed.

Lemma slots_length p : length (slots p) = length (m_data p).
Proof using. apply length_imap. Qed.

Lemma slots_Some p (i : Z) x : slots p !! Z.to_nat i = Some (Some x) → 0 ≤ i → m_data p !! Z.to_nat i = Some x ∧ bit_of (m_bitMap p) i = true.
Proof using.
  rewrite slots_lookup. intros H Hi. destruct (m_data p !! Z.to_nat i) eqn:E; [|done]. cbn in H.
  rewrite Z2Nat.id in H by done. by destruct (bit_of _ _); [injection H as ->|].
Qed.

Lemma add_buckets_ok bytes b0 :
  Forall (fits 8) bytes →
  match add_buckets b0 bytes with
  | Some (q, k) => ∃ i byte, q = b0 + Z.of_nat i ∧ 0 ≤ k < 8 ∧ bytes !! i = Some byte ∧ Z.testbit byte k = false ∧
      (∀ j, 0 ≤ j < k → Z.testbit byte j = true) ∧ (∀ i', (i' < i)%nat → bytes !! i' = Some 255)
  | None => Forall (λ b, b = 255) bytes
  end.
Proof using.
  intros H. revert b0. induction H as [|byte bytes Hb _ IH]; intros b0; cbn [add_buckets]; [constructor|].
  destruct (Z.eqb_spec byte 255) as [->|Hne].
  - specialize (IH (b0 + 1)). destruct (add_buckets (b0 + 1) bytes) as [[q k]|]; [|by constructor].
    destruct IH as (i & b & -> & ? & ? & ? & ? & Hi). exists (S i), b. conj; try (done || lia).
    intros [|i'] ?; [done|]. apply Hi. lia.
  - destruct (add_bits_ok byte Hb Hne) as (k & -> & ? & ? & ?). exists O, byte. conj; try (done || lia).
Qed.

Lemma pool_room p : pool_ok SIZE p → m_numElements p ≠ SIZE → ∃ i, 0 ≤ i < SIZE ∧ bit_of (m_bitMap p) i = false.
Proof using HS.
  intros [Hd _ _ _ Hc] Hn. destruct (omap_id_free (slots p)) as [i Hi].
  { rewrite slots_length, Hd. pose proof (omap_id_length (slots p)). rewrite slots_length in *. unfold elements in Hc. lia. }
  exists (Z.of_nat i). rewrite slots_lookup in Hi. destruct (m_data p !! i) eqn:E; [|done].
  pose proof (lookup_lt_Some _ _ _ E). split; [lia|]. cbn in Hi. by destruct (bit_of _ _).
Qed.

Lemma slots_change p i x byte z num (b : bool) :
  pool_ok SIZE p → 0 ≤ i < SIZE → m_bitMap p !! Z.to_nat (i / 8) = Some byte →
  (∀ k, 0 ≤ k < 8 → Z.testbit z k = if i mod 8 =? k then b else Z.testbit byte k) →
  fits 8 z → (b = false → m_data p !! Z.to_nat i = Some x) →
  let p' := mkPool (<[Z.to_nat (i / 8) := z]> (m_bitMap p)) num (if b then <[Z.to_nat i := x]> (m_data p) else m_data p) in
  slots p' = <[Z.to_nat i := if b then Some x else None]> (slots p) ∧
  (num = Z.of_nat (length (elements p')) → pool_ok SIZE p').
Proof using HS.
  intros Hok Hi Hbyte Hz Hfz Hx p'. destruct Hok as [Hd Hl Hby Hu Hc].
  assert (∀ j, 0 ≤ j → bit_of (m_bitMap p') j = if i =? j then b else bit_of (m_bitMap p) j) as Hbits.
  { intros j Hj. apply (bit_of_change _ _ byte); try done. lia. }
  split.
  - apply list_eq. intros j. rewrite slots_lookup, Hbits by lia.
    destruct (decide (j = Z.to_nat i)) as [->|Hne].
    + rewrite Z2Nat.id, Z.eqb_refl by lia. rewrite list_lookup_insert_eq by (rewrite slots_length; lia).
      unfold p'. cbn [m_data]. destruct b; [by rewrite list_lookup_insert_eq by lia|by rewrite Hx].
    + rewrite (proj2 (Z.eqb_neq i (Z.of_nat j))) by lia. rewrite list_lookup_insert_ne by done. rewrite slots_lookup.
      unfold p'. cbn [m_data]. destruct b; [by rewrite list_lookup_insert_ne by done|done].
  - intros Hn. constructor; unfold p'; cbn [m_data m_bitMap m_numElements].
    + destruct b; [by rewrite length_insert|done].
    + by rewrite length_insert.
    + by apply Forall_insert.
    + intros j Hj. specialize (Hbits j). unfold p' in Hbits. cbn [m_bitMap] in Hbits. rewrite Hbits by lia.
      rewrite (proj2 (Z.eqb_neq i j)) by lia. by apply Hu.
    + exact Hn.
Qed.

Lemma add_ok p x :
  pool_ok SIZE p →
  if decide (length (elements p) = Z.to_nat SIZE) then add SIZE x p = Ok (false, p)
  else ∃ i p', add SIZE x p = Ok (true, p') ∧ pool_ok SIZE p' ∧ slots p !! i = Some None ∧
    (∀ j, (j < i)%nat → slots p !! j ≠ Some None) ∧ slots p' = <[i := Some x]> (slots p).
Proof using HS.
  intros Hok. pose proof Hok as [Hd Hl Hby Hu Hc]. unfold add, isFull. case_decide as Hfull.
  { rewrite (proj2 (Z.eqb_eq _ _)) by lia. done. }
  rewrite (proj2 (Z.eqb_neq _ _)) by lia. destruct (pool_room p Hok) as (f & Hf & Hfree); [lia|].
  pose proof (add_buckets_ok (m_bitMap p) 0 Hby) as Hadd. destruct (add_buckets 0 (m_bitMap p)) as [[q k]|].
  2: { exfalso. rewrite Forall_lookup in Hadd. pose proof (bucket_bit f ltac:(lia)) as (? & ? & ?).
       destruct (lookup_lt_is_Some_2 (m_bitMap p) (Z.to_nat (f / 8))) as [byte Hbyte].
       { rewrite Hl. pose proof (Z.div_le_mono f SIZE 8). lia. }
       rewrite (bit_of_bucket _ _ _ Hbyte), (Hadd _ _ Hbyte), full_byte in Hfree by lia. done. }
  destruct Hadd as (n & byte & -> & Hk & Hbyte & Hbit & Hlow & Hbelow). rewrite Z.add_0_l. set (i := Z.of_nat n * 8 + k).
  destruct (bucket_of (Z.of_nat n) k Hk) as [Hi1 Hi2]. fold i in Hi1, Hi2.
  rewrite Nat2Z.id, Hbyte. res_simpl. rewrite <- (Nat2Z.id n), <- Hi1 in Hbyte |- *.
  assert (∀ j, 0 ≤ j < i → bit_of (m_bitMap p) j = true) as Hall.
  { intros j Hj. pose proof (bucket_bit j ltac:(lia)) as (? & ? & ?). destruct (Z.eq_dec (j / 8) (i / 8)) as [E|E].
    - rewrite (bit_of_bucket _ _ byte) by by rewrite E. apply Hlow. lia.
    - rewrite (bit_of_bucket _ _ 255) by (apply Hbelow; lia). apply full_byte. lia. }
  assert (bit_of (m_bitMap p) i = false) as Hiu by (by rewrite (bit_of_bucket _ _ _ Hbyte), Hi2).
  assert (0 ≤ i < SIZE) as Hir.
  { split; [lia|]. destruct (Z.lt_ge_cases i SIZE); [done|]. rewrite Hall in Hfree by lia. done. }
  destruct (lookup_lt_is_Some_2 (m_data p) (Z.to_nat i)) as [old Hold]; [lia|]. rewrite Hold. res_simpl.
  assert (slots p !! Z.to_nat i = Some None) as Hfs by (rewrite slots_lookup, Hold, Z2Nat.id by lia; cbn; by rewrite Hiu).
  assert (fits 8 byte) as Hfb by (by eapply Forall_lookup_1 in Hby).
  destruct (slots_change p i x byte (u8 (Z.lor byte (Z.shiftl 1 k))) (u32 (m_numElements p + 1)) true) as [Hsl Hok']; try done.
  { intros j Hj. rewrite testbit_u8, testbit_set, Hi2 by lia. destruct (k =? j); [apply orb_true_r|apply orb_false_r]. }
  { apply wrap_fits. lia. }
  exists (Z.to_nat i), (mkPool (<[Z.to_nat (i / 8) := u8 (Z.lor byte (Z.shiftl 1 k))]> (m_bitMap p)) (u32 (m_numElements p + 1))
    (<[Z.to_nat i := x]> (m_data p))).
  conj; [done| |done| |exact Hsl].
  - apply Hok'. unfold elements. rewrite Hsl, omap_id_insert by done. fold (elements p).
    pose proof (omap_id_length (slots p)). rewrite slots_length in *. unfold elements in *. rewrite (wrap_id 32) by zlia. lia.
  - intros j Hj. rewrite slots_lookup, Hall by lia. by destruct (m_data p !! j).
Qed.

(** The slots of [l] are in use. *)
Definition all_used p (l : list Z) : Prop := NoDup l ∧ ∀ i, i ∈ l → 0 ≤ i < SIZE ∧ bit_of (m_bitMap p) i = true.

Lemma used_all_used p : all_used p (used SIZE (m_bitMap p) 0).
Proof using. split; [by apply used_NoDup|]. intros i [? ?]%elem_of_used. split; [lia|done]. Qed.

Lemma all_used_data p i : pool_ok SIZE p → 0 ≤ i < SIZE → ∃ x, m_data p !! Z.to_nat i = Some x.
Proof using HS. intros [Hd _ _ _ _] Hi. apply lookup_lt_is_Some. lia. Qed.

Lemma slots_used p i x : m_data p !! Z.to_nat i = Some x → 0 ≤ i → bit_of (m_bitMap p) i = true → slots p !! Z.to_nat i = Some (Some x).
Proof using. intros Hx Hi Hb. rewrite slots_lookup, Hx, Z2Nat.id by done. cbn. by rewrite Hb. Qed.

Lemma used_nonempty p l : pool_ok SIZE p → all_used p l → l ≠ [] → m_numElements p ≠ 0.
Proof using HS.
  intros Hok [_ Hl] Hne. destruct l as [|i l]; [done|]. destruct (Hl i) as [Hi Hb]; [by left|].
  destruct (all_used_data p i Hok Hi) as [x Hx]. pose proof (slots_used p i x Hx ltac:(lia) Hb) as Hs.
  rewrite (po_count _ _ Hok). assert (x ∈ elements p) as Hin; [|destruct (elements p); [by apply not_elem_of_nil in Hin|done]].
  unfold elements. apply list_elem_of_omap. exists (Some x). split; [by apply list_elem_of_lookup_2 in Hs|done].
Qed.

Section remove.
Context (f : A → bool).

(** A slot after the removal. *)
Definition kept (o : option A) : option A := match o with Some x => if f x then None else Some x | None => None end.

Lemma remove_body_ok p i l rc :
  pool_ok SIZE p → all_used p (i :: l) →
  ∃ x p', remove_body f i (rc, p) = Ok (false, (rc || f x, p')) ∧ pool_ok SIZE p' ∧ all_used p' l ∧
    slots p !! Z.to_nat i = Some (Some x) ∧ slots p' = <[Z.to_nat i := kept (Some x)]> (slots p).
Proof using HS.
  intros Hok [[Hni Hnd]%NoDup_cons Hl]. destruct (Hl i) as [Hi Hb]; [by left|].
  destruct (all_used_data p i Hok Hi) as [x Hx]. pose proof (slots_used p i x Hx ltac:(lia) Hb) as Hs.
  exists x. unfold remove_body, at_bit. rewrite Hx. res_simpl. cbn [kept]. destruct (f x).
  2: { exists p. rewrite orb_false_r, list_insert_id by done. conj; try done. split; [done|]. intros j Hj. apply Hl. by right. }
  pose proof (bucket_bit i ltac:(lia)) as (? & ? & ?). pose proof Hok as [Hd Hlen Hby Hu Hc].
  destruct (lookup_lt_is_Some_2 (m_bitMap p) (Z.to_nat (i / 8))) as [byte Hbyte].
  { rewrite Hlen. pose proof (Z.div_le_mono i SIZE 8). lia. }
  rewrite Hbyte. res_simpl. change 7 with (Z.ones 3). rewrite Z.land_ones by done. change (2 ^ 3) with 8.
  destruct (slots_change p i x byte (u8 (Z.land byte (Z.lnot (Z.shiftl 1 (i mod 8))))) (u32 (m_numElements p - 1)) false)
    as [Hsl Hok']; try done.
  { intros j Hj. rewrite testbit_u8, testbit_clear by lia. destruct (i mod 8 =? j); [apply andb_false_r|apply andb_true_r]. }
  { apply wrap_fits. lia. }
  eexists. rewrite orb_true_r. conj; [done| | |done|exact Hsl].
  - apply Hok'. unfold elements. rewrite Hsl. pose proof (omap_id_remove (slots p) _ _ Hs). fold (elements p) in *.
    pose proof (omap_id_length (slots p)). rewrite slots_length in *. unfold elements in *. rewrite (wrap_id 32) by zlia. lia.
  - split; [done|]. intros j Hj. destruct (Hl j) as [Hjr Hbj]; [by right|]. split; [done|]. cbn [m_bitMap].
    rewrite (bit_of_change _ _ byte _ false); try done; try lia.
    + rewrite (proj2 (Z.eqb_neq i j)); [done|]. by intros ->.
    + intros k Hk. rewrite testbit_u8, testbit_clear by lia. destruct (i mod 8 =? k); [apply andb_false_r|apply andb_true_r].
Qed.

Lemma visit_remove l p rc :
  pool_ok SIZE p → all_used p l →
  ∃ p', visit (remove_body f) l (rc, p) = Ok (rc || existsb (λ i, match slots p !! Z.to_nat i with Some (Some x) => f x | _ => false end) l, p') ∧
    pool_ok SIZE p' ∧ ∀ j : nat, slots p' !! j = if decide (Z.of_nat j ∈ l) then kept <$> slots p !! j else slots p !! j.
Proof using HS.
  revert p rc. induction l as [|i l IH]; intros p rc Hok Hl; cbn [visit existsb].
  { exists p. rewrite orb_false_r. conj; [done..|]. intros j. rewrite decide_False by apply not_elem_of_nil. done. }
  pose proof Hl as [[Hni _]%NoDup_cons Hr]. destruct (Hr i) as [Hi _]; [by left|].
  destruct (remove_body_ok p i l rc Hok Hl) as (x & p1 & -> & Hok1 & Hl1 & Hx & Hs1). res_simpl.
  destruct (IH p1 (rc || f x) Hok1 Hl1) as (p2 & -> & Hok2 & Hs2). exists p2. rewrite Hx. conj; [|done|].
  - do 2 f_equal. rewrite <- orb_assoc. do 2 f_equal. apply existsb_ext_in. intros k Hk.
    destruct (Hr k) as [Hk1 _]; [by right|]. rewrite Hs1, list_lookup_insert_ne; [done|]. intros E. apply Z2Nat.inj in E; [|lia..]. by subst.
  - intros j. rewrite Hs2, Hs1. destruct (decide (Z.of_nat j = i)) as [E|E].
    + assert (j = Z.to_nat i) as -> by lia. rewrite E. rewrite (decide_False (P := i ∈ l)) by done.
      rewrite decide_True by by left. rewrite Hx, list_lookup_insert_eq; [done|]. by eapply lookup_lt_Some.
    + rewrite list_lookup_insert_ne by lia. rewrite (decide_ext (Z.of_nat j ∈ i :: l) (Z.of_nat j ∈ l)); [done|].
      rewrite elem_of_cons. naive_solver.
Qed.
End remove.

Lemma elem_of_elements p x : x ∈ elements p ↔ ∃ j, slots p !! j = Some (Some x).
Proof using.
  unfold elements. rewrite list_elem_of_omap. split.
  - intros (o & Ho & [= ->]). by apply list_elem_of_lookup_1 in Ho.
  - intros [j Hj]. exists (Some x). by split; [eapply list_elem_of_lookup_2|].
Qed.

Lemma slots_in_range p j x : pool_ok SIZE p → slots p !! j = Some (Some x) → Z.of_nat j ∈ used SIZE (m_bitMap p) 0.
Proof using HS.
  intros [Hd _ _ _ _] Hj. pose proof (lookup_lt_Some _ _ _ Hj). rewrite slots_length, Hd in *.
  rewrite <- (Nat2Z.id j) in Hj. apply slots_Some in Hj as [_ Hb]; [|lia]. apply elem_of_used. split; [done|lia].
Qed.

Lemma used_slot p i : pool_ok SIZE p → i ∈ used SIZE (m_bitMap p) 0 → ∃ x, slots p !! Z.to_nat i = Some (Some x).
Proof using HS.
  intros Hok [Hb Hi]%elem_of_used. destruct (all_used_data p i Hok Hi) as [x Hx]. exists x. apply slots_used; [done|lia|done].
Qed.

Lemma remove_ok f p :
  pool_ok SIZE p →
  ∃ p', remove SIZE f p = Ok (existsb f (elements p), p') ∧ pool_ok SIZE p' ∧ slots p' = kept f <$> slots p.
Proof using HS.
  intros Hok. unfold remove.
  rewrite (for_each_visit SIZE HS snd (remove_body f) (λ l rp, pool_ok SIZE rp.2 ∧ all_used rp.2 l)); [|..].
  - destruct (visit_remove f (used SIZE (m_bitMap p) 0) p false Hok (used_all_used p)) as (p' & Hv & Hok' & Hs).
    exists p'. cbn [snd]. rewrite Hv. cbn [orb]. conj; [|done|].
    + do 2 f_equal. apply Bool.eq_iff_eq_true. rewrite !existsb_exists. split.
      * intros (i & Hi%list_elem_of_In & Hf). destruct (used_slot p i Hok Hi) as [x Hx]. rewrite Hx in Hf.
        exists x. split; [|done]. apply list_elem_of_In, elem_of_elements. by eexists.
      * intros (x & Hx%list_elem_of_In & Hf). apply elem_of_elements in Hx as [j Hj]. exists (Z.of_nat j).
        split; [by eapply list_elem_of_In, slots_in_range|]. by rewrite Nat2Z.id, Hj.
    + apply list_eq. intros j. rewrite Hs, list_lookup_fmap. case_decide as Hj; [done|].
      destruct (slots p !! j) as [[x|]|] eqn:E; [|done..]. destruct Hj. by eapply slots_in_range.
  - intros i l [rc q] [rc' q'] [Hq Hl] Hb. destruct (remove_body_ok f q i l rc Hq Hl) as (x & q2 & Hb' & Hq2 & Hl2 & _).
    rewrite Hb' in Hb. injection Hb as _ ->. cbn. split; [done|]. by apply (used_nonempty q' l).
  - done.
  - split; [done|apply used_all_used].
  - intros Hne. by apply (used_nonempty p _ Hok (used_all_used p)).
Qed.

Lemma used_sorted bits b : StronglySorted Z.lt (used SIZE bits b).
Proof using.
  clear HS. remember (Z.to_nat (SIZE - b)) as n eqn:Hn. revert b Hn. induction n as [|n IH]; intros b Hn.
  { rewrite used_end by lia. constructor. }
  rewrite used_cons by lia. destruct (bit_of bits b); [|apply IH; lia]. constructor; [apply IH; lia|].
  apply Forall_forall. intros i Hi%elem_of_used. lia.
Qed.

(** Loops whose body leaves the pool alone. *)
Lemma for_each_const {St} (pool : St → MemoryPool (A := A)) body (st : St) :
  pool_ok SIZE (pool st) →
  (∀ i st st', pool_ok SIZE (pool st) → i ∈ used SIZE (m_bitMap (pool st)) 0 → body i st = Ok (false, st') →
    pool_ok SIZE (pool st') ∧ m_bitMap (pool st') = m_bitMap (pool st)) →
  for_each SIZE pool body st = visit body (used SIZE (m_bitMap (pool st)) 0) st.
Proof using HS.
  intros Hok Hb.
  apply (for_each_visit SIZE HS pool body (λ l s, pool_ok SIZE (pool s) ∧ all_used (pool s) l)); [|done| |].
  - intros i l s s' [Hs Hl] Hbody. pose proof Hl as [[_ Hnd]%NoDup_cons Hr]. destruct (Hr i) as [Hi Hbi]; [by left|].
    destruct (Hb i s s' Hs) as [Hs' E]; [by apply elem_of_used|done|].
    assert (all_used (pool s') l) as Hl' by (split; [done|]; intros j Hj; rewrite E; apply Hr; by right).
    split; [done|]. by apply (used_nonempty (pool s') l).
  - split; [done|apply used_all_used].
  - intros Hne. by apply (used_nonempty (pool st) _ Hok (used_all_used (pool st))).
Qed.

Lemma range_ok p : pool_ok SIZE p → range SIZE p = Ok (used SIZE (m_bitMap p) 0).
Proof using HS.
  intros Hok. unfold range. rewrite for_each_const; [|done|].
  - cbn [snd]. generalize (used SIZE (m_bitMap p) 0). intros l.
    assert (∀ a, ('(l, _) ← visit (λ i '(l, p), Ok (false, (l ++ [i], p))) l (a, p); Ok l) = Ok (a ++ l)) as H; [|apply H].
    induction l as [|i l IH]; intros a; cbn [visit]; res_simpl; [by rewrite app_nil_r|]. rewrite IH. by rewrite <- app_assoc.
  - intros i [a q] st' Hq _ [= <-]. done.
Qed.

Lemma find_ok f p :
  pool_ok SIZE p →
  ∃ o, find SIZE f p = Ok o ∧
    match o with
    | Some i => 0 ≤ i < SIZE ∧ (∃ x, slots p !! Z.to_nat i = Some (Some x) ∧ m_data p !! Z.to_nat i = Some x ∧ f x = true) ∧
        ∀ j x, Z.of_nat j < i → slots p !! j = Some (Some x) → f x = false
    | None => Forall (λ x, f x = false) (elements p)
    end.
Proof using HS.
  intros Hok. unfold find. rewrite for_each_const; [|done|].
  2: { intros i [a q] st' Hq _ Hb. unfold find_body in Hb. destruct (at_bit i q) as [x|]; [|done]. cbn in Hb.
       destruct (f x); [done|]. by injection Hb as <-. }
  cbn [snd]. pose proof (used_sorted (m_bitMap p) 0) as Hsort.
  assert (∀ i, i ∈ used SIZE (m_bitMap p) 0 → ∃ x, slots p !! Z.to_nat i = Some (Some x) ∧ m_data p !! Z.to_nat i = Some x ∧ 0 ≤ i < SIZE) as Hu.
  { intros i Hi. pose proof Hi as [_ ?]%elem_of_used. destruct (used_slot p i Hok Hi) as [x Hx]. exists x. conj; [done| |lia|lia].
    by apply slots_Some in Hx as [? _]; [|lia]. }
  assert (∀ j x, slots p !! j = Some (Some x) → Z.of_nat j ∈ used SIZE (m_bitMap p) 0) as Hin by (intros; by eapply slots_in_range).
  assert (∀ l1 l2, used SIZE (m_bitMap p) 0 = l1 ++ l2 → (∀ j x, Z.of_nat j ∈ l1 → slots p !! j = Some (Some x) → f x = false) →
    ∃ o, ('(found, _) ← visit (find_body f) l2 (None, p); Ok found) = Ok o ∧
    match o with
    | Some i => 0 ≤ i < SIZE ∧ (∃ x, slots p !! Z.to_nat i = Some (Some x) ∧ m_data p !! Z.to_nat i = Some x ∧ f x = true) ∧
        ∀ j x, Z.of_nat j < i → slots p !! j = Some (Some x) → f x = false
    | None => Forall (λ x, f x = false) (elements p)
    end) as Hgen; [|by apply (Hgen [] _ eq_refl); intros ? ? ?%not_elem_of_nil].
  intros l1 l2. revert l1. induction l2 as [|i l2 IH]; intros l1 E Hl1; cbn [visit].
  - exists None. split; [done|]. rewrite app_nil_r in E. apply Forall_forall. intros x [j Hj]%elem_of_elements.
    apply (Hl1 j); [|done]. rewrite <- E. by eapply Hin.
  - destruct (Hu i) as (x & Hx & Hd & Hi). { rewrite E. set_solver. }
    assert (find_body f i (None, p) = if f x then Ok (true, (Some i, p)) else Ok (false, (None, p))) as ->.
    { unfold find_body, at_bit. by rewrite Hd. }
    destruct (f x) eqn:Hf; res_simpl.
    + exists (Some i). split; [done|]. split; [done|]. split; [by exists x|]. intros j y Hj Hy. apply (Hl1 j); [|done].
      assert (Z.of_nat j ∈ l1 ++ i :: l2) as [?|Hc]%elem_of_app by (rewrite <- E; by eapply Hin); [done|].
      rewrite E in Hsort. exfalso. clear -Hsort Hj Hc. induction l1 as [|k l1 IH]; cbn in Hsort; inversion Hsort; subst; [|auto].
      apply elem_of_cons in Hc as [?|Hc]; [lia|]. rewrite Forall_forall in H2. specialize (H2 _ Hc). lia.
    + apply (IH (l1 ++ [i])); [by rewrite <- app_assoc|]. intros j y [Hj|Hj]%elem_of_app Hy; [by apply (Hl1 j)|].
      apply list_elem_of_singleton in Hj. subst. rewrite Nat2Z.id, Hy in Hx. by injection Hx as ->.
Qed.

(** The elements are what the slots visited hold. *)
Lemma used_elements p :
  pool_ok SIZE p → Forall2 (λ i x, slots p !! Z.to_nat i = Some (Some x)) (used SIZE (m_bitMap p) 0) (elements p).
Proof using HS.
  intros Hok. pose proof (po_data _ _ Hok) as Hd. unfold elements.
  assert (∀ n b, 0 ≤ b → Z.to_nat (SIZE - b) = n →
    Forall2 (λ i x, slots p !! Z.to_nat i = Some (Some x)) (used SIZE (m_bitMap p) b) (omap id (drop (Z.to_nat b) (slots p)))) as H.
  2: { apply (H _ 0 ltac:(lia) eq_refl). }
  induction n as [|n IH]; intros b Hb Hn.
  - rewrite used_end, drop_ge by (rewrite ?slots_length; lia). constructor.
  - rewrite used_cons by lia. destruct (all_used_data p b Hok ltac:(lia)) as [x Hx].
    assert (slots p !! Z.to_nat b = Some (if bit_of (m_bitMap p) b then Some x else None)) as Hs.
    { rewrite slots_lookup, Hx, Z2Nat.id by lia. done. }
    rewrite (drop_S _ _ _ Hs). replace (S (Z.to_nat b)) with (Z.to_nat (b + 1)) by lia. specialize (IH (b + 1) ltac:(lia) ltac:(lia)).
    destruct (bit_of (m_bitMap p) b); [by constructor|done].
Qed.

Lemma clear_ok p : pool_ok SIZE p → pool_ok SIZE (clear p) ∧ elements (clear p) = [].
Proof using.
  intros [Hd Hl Hb Hu Hc].
  assert (∀ i, bit_of (m_bitMap (clear p)) i = false) as H0.
  { intros i. unfold bit_of, clear. cbn [m_bitMap]. destruct (decide (Z.to_nat (i / 8) < length (m_bitMap p))%nat).
    - rewrite lookup_replicate_2 by done. apply Z.testbit_0_l.
    - rewrite lookup_ge_None_2 by (rewrite length_replicate; lia). apply Z.testbit_0_l. }
  assert (elements (clear p) = []) as He.
  { destruct (elements (clear p)) as [|x l] eqn:E; [done|]. assert (x ∈ elements (clear p)) as [j Hj]%elem_of_elements by (rewrite E; left).
    rewrite slots_lookup, H0 in Hj. by destruct (m_data (clear p) !! j). }
  split; [|done]. constructor; [done| | | |].
  - unfold clear. cbn [m_bitMap]. by rewrite length_replicate.
  - unfold clear. cbn [m_bitMap]. apply Forall_replicate. by unfold fits.
  - intros i _. apply H0.
  - rewrite He. done.
Qed.

(** An assignment to an element in use. *)
Lemma pool_assign_ok p i x y :
  pool_ok SIZE p → 0 ≤ i → slots p !! Z.to_nat i = Some (Some x) →
  pool_ok SIZE (assign i y p) ∧ slots (assign i y p) = <[Z.to_nat i := Some y]> (slots p).
Proof using HS.
  intros Hok Hi Hx. pose proof (slots_Some p i x Hx Hi) as [Hd Hb]. pose proof (lookup_lt_Some _ _ _ Hd) as Hlt.
  assert (slots (assign i y p) = <[Z.to_nat i := Some y]> (slots p)) as Hs.
  { apply list_eq. intros j. rewrite slots_lookup. cbn [assign m_bitMap m_data]. destruct (decide (j = Z.to_nat i)) as [->|Hne].
    - rewrite !list_lookup_insert_eq by (rewrite ?slots_length; done). cbn. by rewrite Z2Nat.id, Hb by done.
    - rewrite !list_lookup_insert_ne by done. by rewrite slots_lookup. }
  split; [|done]. destruct Hok as [Hd' Hl Hby Hu Hc]. constructor; [|done..|].
  - cbn [assign m_data]. by rewrite length_insert.
  - cbn [assign m_numElements]. rewrite Hc. unfold elements. rewrite Hs. f_equal.
    by apply (omap_id_replace _ _ x).
Qed.

(** A pool with one element. *)
Record only p (i : Z) (x : A) : Prop := {
  on_ok : pool_ok SIZE p;
  on_used : used SIZE (m_bitMap p) 0 = [i];
  on_data : m_data p !! Z.to_nat i = Some x
}.

Lemma only_slot p i x : only p i x → 0 ≤ i ∧ slots p !! Z.to_nat i = Some (Some x).
Proof using HS.
  intros [Hok Hu Hd]. assert (i ∈ used SIZE (m_bitMap p) 0) as [Hb Hi]%elem_of_used by (rewrite Hu; left). split; [lia|].
  apply slots_used; [done|lia|done].
Qed.

Lemma only_range p i x : only p i x → range SIZE p = Ok [i].
Proof using HS. intros [Hok Hu _]. by rewrite range_ok, Hu. Qed.

Lemma only_at p i x : only p i x → at_bit i p = Ok x.
Proof using. intros [_ _ Hd]. unfold at_bit. by rewrite Hd. Qed.

Lemma only_assign p i x y : only p i x → only (assign i y p) i y.
Proof using HS.
  intros Ho. pose proof (only_slot _ _ _ Ho) as [Hi Hs]. destruct Ho as [Hok Hu Hd]. constructor; [by apply (pool_assign_ok p i x y)|done|].
  cbn [assign m_data]. apply list_lookup_insert_eq. by eapply lookup_lt_Some.
Qed.

Lemma only_elements p i x : only p i x → elements p = [x].
Proof using HS.
  intros Ho. pose proof (only_slot _ _ _ Ho) as [_ Hs]. destruct Ho as [Hok Hu Hd]. pose proof (used_elements p Hok) as H. rewrite Hu in H.
  inversion H as [|? y ? ? Hy Hrest]; subst. inversion Hrest; subst. rewrite Hs in Hy. by injection Hy as ->.
Qed.

Lemma only_isEmpty p i x : only p i x → isEmpty p = false.
Proof using HS. intros Ho. unfold isEmpty. rewrite (po_count _ _ (on_ok _ _ _ Ho)), (only_elements _ _ _ Ho). done. Qed.

Lemma only_find f p i x : only p i x → find SIZE f p = Ok (if f x then Some i else None).
Proof using HS.
  intros Ho. pose proof (only_slot _ _ _ Ho) as [Hi Hs]. destruct (find_ok f p (on_ok _ _ _ Ho)) as (o & -> & Hf). destruct o as [j|].
  - destruct Hf as (Hj & (y & Hy & _ & Hfy) & _). assert (Z.of_nat (Z.to_nat j) ∈ used SIZE (m_bitMap p) 0) as Hin by (eapply slots_in_range; [apply Ho|done]).
    rewrite (on_used _ _ _ Ho), list_elem_of_singleton, Z2Nat.id in Hin by lia. subst j. rewrite Hs in Hy. injection Hy as <-. by rewrite Hfy.
  - rewrite (only_elements _ _ _ Ho) in Hf. apply Forall_cons in Hf as [Hf _]. cbn in Hf. by rewrite Hf.
Qed.
End ops.

(** C21 The pool of proxies holds up to [SIZE] elements in its slots, at any size: [add] takes the
    lowest free slot and refuses exactly when all are in use; [remove] frees exactly the slots
    whose elements satisfy the condition and says whether there were any; [find] gives the lowest
    such slot; a loop over the pool visits the elements in the order of their slots; the count and
    the bitmap agree after each operation. *)
Theorem MemoryPool_correct {A} SIZE (p : MemoryPool (A := A)) (x : A) (f : A → bool) :
  0 < SIZE < 2 ^ 32 - 1 → pool_ok SIZE p →
  (if decide (length (elements p) = Z.to_nat SIZE) then add SIZE x p = Ok (false, p)
   else ∃ i p', add SIZE x p = Ok (true, p') ∧ pool_ok SIZE p' ∧ slots p !! i = Some None ∧
     (∀ j, (j < i)%nat → slots p !! j ≠ Some None) ∧ slots p' = <[i := Some x]> (slots p)) ∧
  (∃ p', remove SIZE f p = Ok (existsb f (elements p), p') ∧ pool_ok SIZE p' ∧
     slots p' = (λ o, y ← o; if f y then None else Some y) <$> slots p) ∧
  (∃ o, find SIZE f p = Ok o ∧
     match o with
     | Some i => (∃ y, slots p !! Z.to_nat i = Some (Some y) ∧ f y = true) ∧
                 ∀ j y, Z.of_nat j < i → slots p !! j = Some (Some y) → f y = false
     | None => Forall (λ y, f y = false) (elements p)
     end) ∧
  (∃ l, range SIZE p = Ok l ∧ StronglySorted Z.lt l ∧ Forall2 (λ i y, slots p !! Z.to_nat i = Some (Some y)) l (elements p)) ∧
  pool_ok SIZE (clear p) ∧ elements (clear p) = [].
Proof.
  intros HS Hok. destruct (clear_ok SIZE p Hok) as [? ?]. conj; try done.
  - by apply add_ok.
  - destruct (remove_ok SIZE HS f p Hok) as (p' & ? & ? & Hs). exists p'. conj; [done..|]. rewrite Hs.
    apply list_fmap_ext. by intros _ [y|] _.
  - destruct (find_ok SIZE HS f p Hok) as (o & ? & Ho). exists o. split; [done|]. destruct o; [|done].
    destruct Ho as (_ & (y & ? & _ & ?) & ?). eauto.
  - exists (used SIZE (m_bitMap p) 0). conj; [by apply range_ok|by apply used_sorted|by apply used_elements].
Qed.

(** Three of ten slots in use. *)
Definition ex_pool : MemoryPool := mkPool [13; 0] 3 [5; 6; 7; 8; 0; 0; 0; 0; 0; 0].

Lemma MemoryPool_correct_witness :
  (∃ p', add 10 9 ex_pool = Ok (true, p') ∧ slots p' !! 1%nat = Some (Some 9)) ∧
  (∃ p', remove 10 (λ x, 6 <? x) ex_pool = Ok (true, p') ∧ elements p' = [5]) ∧
  find 10 (λ x, 6 <? x) ex_pool = Ok (Some 2).
Proof.
  assert (pool_ok 10 ex_pool) as Hok.
  { constructor; [done|done|repeat constructor; unfold fits; lia| |done]. intros i Hi. unfold bit_of, ex_pool. cbn [m_bitMap].
    destruct (Z.lt_ge_cases (i / 8) 2) as [Hi8|Hi8].
    - assert (i / 8 = 1) as -> by div_lia. apply Z.testbit_0_l.
    - rewrite lookup_ge_None_2 by (cbn; lia). apply Z.testbit_0_l. }
  pose proof (MemoryPool_correct 10 ex_pool 9 (λ x, 6 <? x) ltac:(lia) Hok) as (Ha & Hr & Hf & _).
  change (elements ex_pool) with [5; 7; 8] in Ha, Hr, Hf. cbn [length] in Ha. destruct (decide _) as [E|_] in Ha; [discriminate|].
  split; [|split].
  - destruct Ha as (i & p' & Hadd & _ & Hi & _ & Hs). exists p'. split; [done|]. vm_compute in Hadd. injection Hadd as <-. reflexivity.
  - destruct Hr as (p' & Hrem & _ & Hs). exists p'. split; [done|]. unfold elements. rewrite Hs. reflexivity.
  - destruct Hf as (o & Hfind & _). rewrite Hfind. vm_compute in Hfind. by injection Hfind as <-.
Defined.
