(* ===== verification/RtpsBuffer.v ===== *)
(** * RTPS: message buffers (src/contrib/embeddedrtps, rtps/storages/PBufWrapper)

    The functions that build messages are templates over the buffer they write to; what they
    need of it is the class [MessageBuffer], what they rely on is [MessageBufferLaws].  The
    buffer of the program, [PBufWrapper], owns a chain of lwIP's buffers, of which the last
    [m_freeSpace] bytes are reserved but not used.

    A chain is the list of its bytes (up to 65535, as lwIP counts them in 16 bits); the
    allocation, which may fail, is a parameter.  Chains are shared by reference, between the
    history of a writer and the packets made from it, and only read once they are shared. *)

From S2P Require Import Prelude.
Local Open Scope Z_scope.

(** ** The interface *)

Class MessageBuffer (B : Type) := {
  mb_empty : B;
  mb_reserve : Z → B → bool * B;
  mb_append : list Z → B → bool * B;
  mb_append_buffer : B → B → B;
  mb_spaceUsed : B → Z;
  mb_isValid : B → bool;
  mb_bytes : B → list Z  (* what is sent of it *)
}.

(** What users rely on: [mb_ok b content free], a buffer that holds [content] and has room for
    [free] more bytes. *)
Class MessageBufferLaws (B : Type) `{MessageBuffer B} := {
  mb_ok : B → list Z → Z → Prop;
  mb_ok_free b c f : mb_ok b c f → 0 ≤ f ∧ zlen c + f < 2 ^ 16;
  mb_ok_empty : mb_ok mb_empty [] 0;
  mb_ok_reserve b c f n : mb_ok b c f → 0 < n → zlen c + Z.max f n < 2 ^ 16 →
    ∃ b', mb_reserve n b = (true, b') ∧ mb_ok b' c (Z.max f n);
  mb_ok_append b c f l : mb_ok b c f → 0 < zlen l ≤ f → ∃ b', mb_append l b = (true, b') ∧ mb_ok b' (c ++ l) (f - zlen l);
  mb_ok_cat b c o d g : mb_ok b c 0 → c ≠ [] → mb_ok o d g → d ≠ [] → zlen c + zlen d + g < 2 ^ 16 →
    mb_ok (mb_append_buffer o b) (c ++ d) g;
  mb_ok_used b c f : mb_ok b c f → mb_spaceUsed b = zlen c;
  mb_ok_valid b c f : mb_ok b c f → c ≠ [] → mb_isValid b = true;
  mb_ok_bytes b c : mb_ok b c 0 → mb_bytes b = c
}.

(** ** lwIP's chains *)

(** A copy to a position of a chain; it fails when there is no room. *)
Definition pbuf_take_at (p : option (list Z)) (l : list Z) (offset : Z) : option (list Z) :=
  match p with
  | Some p =>
      if (offset <? zlen p) && (offset + zlen l <=? zlen p)
      then Some (take (Z.to_nat offset) p ++ l ++ drop (Z.to_nat (offset + zlen l)) p) else None
  | None => None
  end.

Section wrapper.
(** [pbuf_alloc] for the pool: the new bytes, whatever they are, or nothing. *)
Context (pbuf_alloc : Z → option (list Z)).

(** [PBufWrapper.h:35-37] PBufWrapper *)
Record PBufWrapper := mkPBuf { firstElement : option (list Z); m_freeSpace : Z (* uint16_t *) }.
Implicit Types w : PBufWrapper.

Definition PBufWrapper_new : PBufWrapper := mkPBuf None 0.


(** [PBufWrapper.cpp] PBufWrapper::isValid *)
Definition isValid w : bool := bool_decide (is_Some (firstElement w)).

(** [PBufWrapper.cpp] PBufWrapper::spaceUsed *)
Definition spaceUsed w : Z :=
  match firstElement w with None => 0 | Some p => u16 (zlen p - m_freeSpace w) end.

(** [PBufWrapper.cpp] PBufWrapper::spaceLeft *)
Definition spaceLeft w : Z := m_freeSpace w.

(** [PBufWrapper.cpp:126-137] PBufWrapper::append *)
Definition append_data (data : list Z) w : bool * PBufWrapper :=
  match pbuf_take_at (firstElement w) data (spaceUsed w) with
  | None => (false, w)
  | Some p => (true, mkPBuf (Some p) (u16 (m_freeSpace w - zlen data)))
  end.

(** [PBufWrapper.cpp:139-153] PBufWrapper::append *)
Definition append_wrapper (other w : PBufWrapper) : PBufWrapper :=
  match firstElement w with
  | None => other
  | Some p =>
      mkPBuf (Some (match firstElement other with Some q => p ++ q | None => p end)) (m_freeSpace other)
  end.

(** [PBufWrapper.cpp] PBufWrapper::increaseSizeBy *)
Definition increaseSizeBy (length : Z) w : bool * PBufWrapper :=
  match pbuf_alloc length with
  | None => (false, w)
  | Some allocation =>
      (true, mkPBuf (Some (match firstElement w with Some p => p ++ allocation | None => allocation end))
                    (u16 (m_freeSpace w + length)))
  end.

(** [PBufWrapper.cpp] PBufWrapper::reserve *)
Definition reserve (length : Z) w : bool * PBufWrapper :=
  let additionalAllocation := length - m_freeSpace w in
  if additionalAllocation <=? 0 then (true, w) else increaseSizeBy (u16 additionalAllocation) w.

(** [PBufWrapper.cpp] PBufWrapper::reset *)
Definition reset w : PBufWrapper :=
  match firstElement w with Some p => mkPBuf (Some p) (zlen p) | None => w end.

(** [rtps-udpdriver.cc:231-243] UdpDriver::sendPacket

    The whole chain is sent. *)
Definition sent_bytes w : list Z := default [] (firstElement w).

#[export] Instance PBufWrapper_buffer : MessageBuffer PBufWrapper := {
  mb_empty := PBufWrapper_new;
  mb_reserve := reserve;
  mb_append := append_data;
  mb_append_buffer := append_wrapper;
  mb_spaceUsed := spaceUsed;
  mb_isValid := isValid;
  mb_bytes := sent_bytes
}.

(** ** The wrapper keeps the laws as long as the pool has memory *)

Context (pbuf_alloc_ok : ∀ n, 0 < n < 2 ^ 16 → ∃ p, pbuf_alloc n = Some p ∧ zlen p = n).

Definition wrapper_ok w (c : list Z) (f : Z) : Prop :=
  m_freeSpace w = f ∧ 0 ≤ f ∧ zlen c + f < 2 ^ 16 ∧
  match firstElement w with
  | None => c = [] ∧ f = 0
  | Some p => ∃ rest, p = c ++ rest ∧ zlen rest = f ∧ p ≠ []
  end.

Lemma wrapper_used w c f : wrapper_ok w c f → spaceUsed w = zlen c.
Proof using.
  intros (Hf & H0 & Hb & Hw). unfold spaceUsed. destruct (firstElement w) as [p|].
  - destruct Hw as (rest & -> & Hr & _). rewrite zlen_app, Hf, Hr. pose proof (zlen_nonneg c). rewrite (wrap_id 16) by zlia. lia.
  - by destruct Hw as [-> _].
Qed.

Lemma wrapper_reserve w c f n :
  wrapper_ok w c f → 0 < n → zlen c + Z.max f n < 2 ^ 16 → ∃ w', reserve n w = (true, w') ∧ wrapper_ok w' c (Z.max f n).
Proof using pbuf_alloc_ok.
  intros (Hf & H0 & Hb & Hw) Hn Hlim. unfold reserve, increaseSizeBy. rewrite Hf. pose proof (zlen_nonneg c).
  destruct (Z.leb_spec (n - f) 0).
  - exists w. split; [done|]. rewrite Z.max_l by lia. by split.
  - rewrite (wrap_id 16) by zlia. destruct (pbuf_alloc_ok (n - f)) as (p & -> & Hp); [lia|]. eexists. split; [done|].
    rewrite Z.max_r by lia. unfold wrapper_ok. cbn [m_freeSpace firstElement]. rewrite (wrap_id 16) by zlia.
    conj; [lia|lia|lia|]. destruct (firstElement w) as [q|].
    + destruct Hw as (rest & -> & Hr & ?). exists (rest ++ p). rewrite app_assoc, zlen_app. conj; [done|lia|]. by destruct c, rest.
    + destruct Hw as [-> ->]. exists p. conj; [done|lia|]. intros ->. rewrite zlen_nil in Hp. lia.
Qed.

Lemma wrapper_append w c f l :
  wrapper_ok w c f → 0 < zlen l ≤ f → ∃ w', append_data l w = (true, w') ∧ wrapper_ok w' (c ++ l) (f - zlen l).
Proof using.
  intros Hok Hl. pose proof (wrapper_used _ _ _ Hok) as Hu. destruct Hok as (Hf & H0 & Hb & Hw). unfold append_data.
  destruct (firstElement w) as [p|]; [|by destruct Hw; lia]. destruct Hw as (rest & -> & Hr & ?).
  pose proof (zlen_nonneg c). unfold pbuf_take_at. rewrite Hu, zlen_app.
  rewrite (proj2 (Z.ltb_lt _ _)), (proj2 (Z.leb_le _ _)) by lia. cbn [andb]. eexists. split; [done|].
  unfold wrapper_ok. cbn [m_freeSpace firstElement]. rewrite Hf, (wrap_id 16), zlen_app by zlia. conj; [done|lia|lia|].
  exists (drop (length l) rest). unfold zlen in *. rewrite <- Nat2Z.inj_add, !Nat2Z.id. conj.
  - rewrite take_app_length, <- app_assoc. do 2 f_equal. rewrite drop_app_ge by lia. f_equal. lia.
  - rewrite length_drop. lia.
  - destruct c; [|done]. destruct l; [cbn in *; lia|done].
Qed.

Lemma wrapper_cat w c o d g :
  wrapper_ok w c 0 → c ≠ [] → wrapper_ok o d g → d ≠ [] → zlen c + zlen d + g < 2 ^ 16 → wrapper_ok (append_wrapper o w) (c ++ d) g.
Proof using.
  intros (Hf & _ & _ & Hw) Hc (Hg & H0 & _ & Ho) Hd Hlim. unfold append_wrapper.
  destruct (firstElement w) as [p|]; [|by destruct Hw]. destruct Hw as (rest & -> & Hr & _).
  assert (rest = []) as -> by (destruct rest; [done|rewrite zlen_cons in Hr; pose proof (zlen_nonneg rest); lia]).
  destruct (firstElement o) as [q|]; [|by destruct Ho]. destruct Ho as (ro & -> & Hro & _).
  unfold wrapper_ok. cbn [m_freeSpace firstElement]. rewrite zlen_app. conj; [done..|lia|].
  exists ro. rewrite app_nil_r, app_assoc. conj; [done..|]. by destruct c.
Qed.

#[export] Instance PBufWrapper_laws : MessageBufferLaws PBufWrapper.
Proof using pbuf_alloc_ok.
  refine {| mb_ok := wrapper_ok |}.
  - intros b c f (? & ? & ? & _). lia.
  - by repeat split.
  - exact wrapper_reserve.
  - exact wrapper_append.
  - exact wrapper_cat.
  - exact wrapper_used.
  - intros b c f (_ & _ & _ & Hw) Hc. cbn. unfold isValid. apply bool_decide_eq_true_2. destruct (firstElement b); [by eexists|by destruct Hw].
  - intros b c (_ & _ & _ & Hw). cbn. unfold sent_bytes. destruct (firstElement b) as [p|]; cbn.
    + destruct Hw as (rest & -> & Hr & _). destruct rest; [by rewrite app_nil_r|]. rewrite zlen_cons in Hr. pose proof (zlen_nonneg rest). lia.
    + by destruct Hw.
Defined.
End wrapper.
