(* ===== verification/HistoryCache.v ===== *)
(** * RTPS: the history of a writer (src/contrib/embeddedrtps, rtps/storages)

    A ring of changes between [m_tail] and [m_head], the last one bearing the sequence number
    [m_lastUsedSequenceNumber]; when it is full a new change takes the place of the oldest.
    [SimpleHistoryCache] holds consecutive numbers and computes the place of a change;
    [HistoryCacheWithDeletion] can lose changes in the middle and searches.  The two classes have
    the same text but for the functions in the two modules below. *)

From S2P Require Import Prelude RtpsTypes RtpsBuffer.
Local Open Scope Z_scope.

Section history.
Context {B : Type} `{MessageBuffer B}.

(** [CacheChange.h:32-40] CacheChange *)
Record CacheChange := mkChange {
  kind : ChangeKind_t;
  inLineQoS : bool;
  diposeAfterWrite : bool;
  sequenceNumber : SequenceNumber_t;
  data : B
}.

Definition CacheChange_new : CacheChange := mkChange INVALID false false SEQUENCENUMBER_UNKNOWN mb_empty.

(** [CacheChange.h:43-48] CacheChange::reset *)
Definition reset (c : CacheChange) : CacheChange := mkChange INVALID false false SEQUENCENUMBER_UNKNOWN (data c).

(** [SimpleHistoryCache.h:140-146] SimpleHistoryCache

    [std::array<CacheChange, SIZE + 1>] and two indices of type [uint16_t]. *)
Record HistoryCache := mkHistory {
  m_buffer : list CacheChange;
  m_head : Z;
  m_tail : Z;
  m_lastUsedSequenceNumber : SequenceNumber_t
}.
Implicit Types h : HistoryCache.

Definition HistoryCache_new (SIZE : nat) : HistoryCache := mkHistory (replicate (S SIZE) CacheChange_new) 0 0 (mkSN 0 0).

Definition set_buffer (b : list CacheChange) h := mkHistory b (m_head h) (m_tail h) (m_lastUsedSequenceNumber h).
Definition set_ends (head tail : Z) h := mkHistory (m_buffer h) head tail (m_lastUsedSequenceNumber h).
Definition set_last (sn : SequenceNumber_t) h := mkHistory (m_buffer h) (m_head h) (m_tail h) sn.

(** [m_buffer[i]] *)
Definition change_at (i : Z) h : res CacheChange := deref (m_buffer h !! Z.to_nat i).

(** An assignment to [m_buffer[i]]. *)
Definition put_at (i : Z) (c : CacheChange) h : res HistoryCache :=
  _ ← change_at i h;
  Ok (set_buffer (<[Z.to_nat i := c]> (m_buffer h)) h).

(** [SimpleHistoryCache.h:156-161] SimpleHistoryCache::incrementIterator *)
Definition incrementIterator (iterator : Z) h : Z :=
  let iterator := u16 (iterator + 1) in
  if zlen (m_buffer h) <=? iterator then 0 else iterator.

(** [SimpleHistoryCache.h:44-48] SimpleHistoryCache::isFull *)
Definition isFull h : bool := incrementIterator (m_head h) h =? m_tail h.

(** [SimpleHistoryCache.h:148-154] SimpleHistoryCache::incrementHead *)
Definition incrementHead h : HistoryCache :=
  let head := incrementIterator (m_head h) h in
  set_ends head (if head =? m_tail h then incrementIterator (m_tail h) h else m_tail h) h.

(** [SimpleHistoryCache.h:50-65] SimpleHistoryCache::addChange

    The place of the new change, for a pointer to it. *)
Definition addChange (bytes : list Z) (inLineQoS disposeAfterWrite : bool) h : res (Z * HistoryCache) :=
  let data := snd (mb_append bytes (snd (mb_reserve (zlen bytes) mb_empty))) in
  sn ← sn_incr (m_lastUsedSequenceNumber h);
  let change := mkChange ALIVE inLineQoS disposeAfterWrite sn data in
  let place := m_head h in
  h ← put_at place change (incrementHead (set_last sn h));
  Ok (place, h).

(** [SimpleHistoryCache.h:117-123] SimpleHistoryCache::getSeqNumMin *)
Definition getSeqNumMin h : res SequenceNumber_t :=
  if m_head h =? m_tail h then Ok SEQUENCENUMBER_UNKNOWN else c ← change_at (m_tail h) h; Ok (sequenceNumber c).

(** [SimpleHistoryCache.h:125-131] SimpleHistoryCache::getSeqNumMax *)
Definition getSeqNumMax h : SequenceNumber_t :=
  if m_head h =? m_tail h then SEQUENCENUMBER_UNKNOWN else m_lastUsedSequenceNumber h.

(** [SimpleHistoryCache.h:133-137] SimpleHistoryCache::clear *)
Definition clear h : HistoryCache := mkHistory (m_buffer h) 0 0 (mkSN 0 0).
End history.
Arguments CacheChange B : clear implicits.
Arguments HistoryCache B : clear implicits.

(** ** The cache of stateless writers *)

Module Simple.
Section simple.
Context {B : Type} `{MessageBuffer B}.
Implicit Types h : HistoryCache B.

(** [SimpleHistoryCache.h:163-167] SimpleHistoryCache::incrementTail *)
Definition incrementTail h : HistoryCache B :=
  if m_head h =? m_tail h then h else set_ends (m_head h) (incrementIterator (m_tail h) h) h.

Fixpoint removeUntilIncl_loop (fuel : nat) (sn : SequenceNumber_t) h : res (HistoryCache B) :=
  match fuel with
  | O => Err OutOfFuel
  | S fuel =>
      c ← change_at (m_tail h) h;
      if sn_leb (sequenceNumber c) sn then removeUntilIncl_loop fuel sn (incrementTail h) else Ok h
  end.

(** [SimpleHistoryCache.h:71-84] SimpleHistoryCache::removeUntilIncl *)
Definition removeUntilIncl (fuel : nat) (sn : SequenceNumber_t) h : res (HistoryCache B) :=
  if m_head h =? m_tail h then Ok h
  else if sn_leb (getSeqNumMax h) sn then Ok (set_ends (m_tail h) (m_tail h) h)
  else removeUntilIncl_loop fuel sn h.

(** [SimpleHistoryCache.h:86-86] SimpleHistoryCache::dropOldest *)
Definition dropOldest (fuel : nat) h : res (HistoryCache B) :=
  sn ← getSeqNumMin h;
  removeUntilIncl fuel sn h.

(** [SimpleHistoryCache.h:98-115] SimpleHistoryCache::getChangeBySN

    The place of the change. *)
Definition getChangeBySN (sn : SequenceNumber_t) h : res (option Z) :=
  minSN ← getSeqNumMin h;
  if sn_ltb sn minSN || sn_ltb (getSeqNumMax h) sn then Ok None
  else
    let pos := u16 (m_tail h + u16 (u32 (sn_low sn - sn_low minSN))) in
    Ok (Some (if zlen (m_buffer h) <=? pos then u16 (pos - zlen (m_buffer h)) else pos)).

(** [SimpleHistoryCache.h:88-96] SimpleHistoryCache::setCacheChangeKind *)
Definition setCacheChangeKind (sn : SequenceNumber_t) (kind : ChangeKind_t) h : res (bool * HistoryCache B) :=
  change ← getChangeBySN sn h;
  match change with
  | None => Ok (false, h)
  | Some i =>
      c ← change_at i h;
      h ← put_at i (mkChange kind (inLineQoS c) (diposeAfterWrite c) (sequenceNumber c) (data c)) h;
      Ok (true, h)
  end.
End simple.
End Simple.

(** ** The cache of stateful writers *)

Module WithDeletion.
Section with_deletion.
Context {B : Type} `{MessageBuffer B}.
Implicit Types h : HistoryCache B.

(** [HistoryCacheWithDeletion.h:249-254] HistoryCacheWithDeletion::incrementTail *)
Definition incrementTail h : res (HistoryCache B) :=
  if m_head h =? m_tail h then Ok h
  else
    c ← change_at (m_tail h) h;
    h ← put_at (m_tail h) (reset c) h;
    Ok (set_ends (m_head h) (incrementIterator (m_tail h) h) h).

Fixpoint removeUntilIncl_loop (fuel : nat) (sn : SequenceNumber_t) h : res (HistoryCache B) :=
  match fuel with
  | O => Err OutOfFuel
  | S fuel =>
      c ← change_at (m_tail h) h;
      if sn_leb (sequenceNumber c) sn then h ← incrementTail h; removeUntilIncl_loop fuel sn h else Ok h
  end.

(** [HistoryCacheWithDeletion.h:70-83] HistoryCacheWithDeletion::removeUntilIncl *)
Definition removeUntilIncl (fuel : nat) (sn : SequenceNumber_t) h : res (HistoryCache B) :=
  if m_head h =? m_tail h then Ok h
  else if sn_leb (getSeqNumMax h) sn then Ok (set_ends (m_tail h) (m_tail h) h)
  else removeUntilIncl_loop fuel sn h.

(** [HistoryCacheWithDeletion.h:85-85] HistoryCacheWithDeletion::dropOldest *)
Definition dropOldest (fuel : nat) h : res (HistoryCache B) :=
  sn ← getSeqNumMin h;
  removeUntilIncl fuel sn h.

(** [HistoryCacheWithDeletion.h:185-191] HistoryCacheWithDeletion::isSNInRange *)
Definition isSNInRange (sn : SequenceNumber_t) h : res bool :=
  minSN ← getSeqNumMin h;
  Ok (negb (sn_ltb sn minSN || sn_ltb (getSeqNumMax h) sn)).

Fixpoint getChangeBySN_loop (fuel : nat) (sn : SequenceNumber_t) (cur_idx : Z) h : res (option Z) :=
  if cur_idx =? m_head h then Ok None
  else
    match fuel with
    | O => Err OutOfFuel
    | S fuel =>
        c ← change_at cur_idx h;
        if sn_eqb (sequenceNumber c) sn then Ok (Some cur_idx)
        else if sn_gtb (sequenceNumber c) sn then Ok None
        else
          let cur_idx := cur_idx + 1 in
          getChangeBySN_loop fuel sn (if zlen (m_buffer h) <=? cur_idx then cur_idx - zlen (m_buffer h) else cur_idx) h
    end.

(** [HistoryCacheWithDeletion.h:202-232] HistoryCacheWithDeletion::getChangeBySN

    The place of the change; the two functions of this name are one. *)
Definition getChangeBySN (sn : SequenceNumber_t) h : res (option Z) :=
  inRange ← isSNInRange sn h;
  if inRange : bool then getChangeBySN_loop (length (m_buffer h)) sn (m_tail h) h else Ok None.

(** The loop that moves the changes before the dropped one up by a place. *)
Fixpoint dropChange_loop (fuel : nat) (idx_to_clear : Z) h : res (HistoryCache B) :=
  match fuel with
  | O => Err OutOfFuel
  | S fuel =>
      let prev := u16 (idx_to_clear - 1) in
      let prev := if zlen (m_buffer h) <=? prev then u16 (zlen (m_buffer h) - 1) else prev in
      c ← change_at prev h;
      h ← put_at idx_to_clear c h;
      if prev =? m_tail h then Ok h else dropChange_loop fuel prev h
  end.

(** [HistoryCacheWithDeletion.h:87-116] HistoryCacheWithDeletion::dropChange *)
Definition dropChange (sn : SequenceNumber_t) h : res (bool * HistoryCache B) :=
  found ← getChangeBySN sn h;
  match found with
  | None => Ok (false, h)
  | Some idx_to_clear =>
      if idx_to_clear =? m_tail h then
        c ← change_at (m_tail h) h;
        h ← put_at (m_tail h) (reset c) h;
        h ← incrementTail h;
        Ok (true, h)
      else
        h ← dropChange_loop (length (m_buffer h)) idx_to_clear h;
        h ← incrementTail h;
        Ok (true, h)
  end.

(** [HistoryCacheWithDeletion.h:118-126] HistoryCacheWithDeletion::setCacheChangeKind *)
Definition setCacheChangeKind (sn : SequenceNumber_t) (kind : ChangeKind_t) h : res (bool * HistoryCache B) :=
  change ← getChangeBySN sn h;
  match change with
  | None => Ok (false, h)
  | Some i =>
      c ← change_at i h;
      h ← put_at i (mkChange kind (inLineQoS c) (diposeAfterWrite c) (sequenceNumber c) (data c)) h;
      Ok (true, h)
  end.
End with_deletion.
End WithDeletion.
