(* ===== verification/HistoryCorrect.v ===== *)
(** * RTPS: what a history holds

    [ring h l]: between the ends of [h] lie the changes [l], the oldest first.  Each operation
    is described by what it does to [l]. *)

From S2P Require Import Prelude RtpsTypes RtpsBuffer HistoryCache.
Local Open Scope Z_scope.

Section ring.
Context {B : Type} `{MessageBuffer B}.
Implicit Types (h : HistoryCache B) (l : list (CacheChange B)) (c : CacheChange B).

(** The size of the array. *)
Definition width h : Z := zlen (m_buffer h).

(** The place of the [k]-th change. *)
Definition pos h (k : Z) : Z := if width h <=? m_tail h + k then m_tail h + k - width h else m_tail h + k.

(** What is there; also beyond the last change. *)
Definition slot h (k : Z) : option (CacheChange B) := m_buffer h !! Z.to_nat (pos h k).

(** The array goes a place on: the place that becomes free is reset. *)
Definition shifted h l h' : Prop := (∀ k, zlen l ≤ k < width h - 1 → slot h' k = slot h (k + 1)) ∧ ∃ c, slot h' (width h - 1) = Some (reset c).

Record ring h l : Prop := {
  rg_width : 1 < width h ≤ 2 ^ 16;
  rg_tail : 0 ≤ m_tail h < width h;
  rg_length : zlen l < width h;
  rg_head : m_head h = pos h (zlen l);
  rg_items k c : l !! k = Some c → m_buffer h !! Z.to_nat (pos h (Z.of_nat k)) = Some c
}.

Lemma incrementIterator_ok i h :
  1 < width h ≤ 2 ^ 16 → 0 ≤ i < width h → incrementIterator i h = if i + 1 =? width h then 0 else i + 1.
Proof.
  intros Hw Hi. unfold incrementIterator. fold (width h). destruct (Z.eq_dec (i + 1) (2 ^ 16)) as [E|E].
  - rewrite E. change (u16 (2 ^ 16)) with 0. rewrite (proj2 (Z.leb_gt _ _)), (proj2 (Z.eqb_eq _ _)) by lia. done.
  - rewrite (wrap_id 16) by zlia. destruct (Z.leb_spec (width h) (i + 1)), (Z.eqb_spec (i + 1) (width h)); lia.
Qed.

Lemma pos_range h k : 0 ≤ m_tail h < width h → 0 ≤ k < width h → 0 ≤ pos h k < width h.
Proof. unfold pos. intros. destruct (Z.leb_spec (width h) (m_tail h + k)); lia. Qed.

Lemma pos_inj h j k : 0 ≤ j < width h → 0 ≤ k < width h → pos h j = pos h k → j = k.
Proof. unfold pos. intros. destruct (Z.leb_spec (width h) (m_tail h + j)), (Z.leb_spec (width h) (m_tail h + k)); lia. Qed.

Lemma pos_0 h : 0 ≤ m_tail h < width h → pos h 0 = m_tail h.
Proof. unfold pos. intros. rewrite Z.add_0_r, (proj2 (Z.leb_gt _ _)) by lia. done. Qed.

Lemma pos_succ h k :
  1 < width h ≤ 2 ^ 16 → 0 ≤ m_tail h < width h → 0 ≤ k < width h - 1 → incrementIterator (pos h k) h = pos h (k + 1).
Proof.
  intros Hw Ht Hk. rewrite incrementIterator_ok by (done || by apply pos_range; lia). unfold pos.
  destruct (Z.leb_spec (width h) (m_tail h + k)), (Z.leb_spec (width h) (m_tail h + (k + 1))).
  all: destruct (Z.eqb_spec (m_tail h + k - width h + 1) (width h)), (Z.eqb_spec (m_tail h + k + 1) (width h)); lia.
Qed.

(** One place on. *)
Lemma pos_tail h head k :
  0 ≤ m_tail h < width h → 1 < width h ≤ 2 ^ 16 → 0 ≤ k < width h - 1 →
  pos (set_ends head (incrementIterator (m_tail h) h) h) k = pos h (k + 1).
Proof.
  intros Ht Hw Hk. rewrite incrementIterator_ok by done. unfold pos, width, set_ends. cbn [m_buffer m_tail]. fold (width h).
  destruct (Z.eqb_spec (m_tail h + 1) (width h)).
  - rewrite (proj2 (Z.leb_gt _ _)), (proj2 (Z.leb_le _ _)) by lia. lia.
  - destruct (Z.leb_spec (width h) (m_tail h + 1 + k)), (Z.leb_spec (width h) (m_tail h + (k + 1))); lia.
Qed.

Lemma ring_empty h l : ring h l → (m_head h =? m_tail h) = bool_decide (l = []).
Proof.
  intros [Hw Ht Hl Hh _]. rewrite Hh. pose proof (zlen_nonneg l). destruct l as [|c l].
  - rewrite zlen_nil, pos_0, Z.eqb_refl by done. done.
  - rewrite bool_decide_false by done. apply Z.eqb_neq. intros E. rewrite <- (pos_0 h) in E by done.
    apply pos_inj in E; [|lia..]. rewrite zlen_cons in E. pose proof (zlen_nonneg l). lia.
Qed.

Lemma zlen_lookup {A} (l : list A) k x : l !! k = Some x → 0 ≤ Z.of_nat k < zlen l.
Proof. intros Hk%lookup_lt_Some. unfold zlen. lia. Qed.

Lemma ring_at h l k c : ring h l → l !! k = Some c → change_at (pos h (Z.of_nat k)) h = Ok c.
Proof. intros R Hk. unfold change_at. by rewrite (rg_items _ _ R _ _ Hk). Qed.

Lemma ring_first h c l : ring h (c :: l) → change_at (m_tail h) h = Ok c.
Proof. intros R. rewrite <- (pos_0 h) by apply R. by apply (ring_at h (c :: l) 0). Qed.

Lemma ring_isFull h l : ring h l → isFull h = (zlen l =? width h - 1).
Proof.
  intros [Hw Ht Hl Hh _]. pose proof (zlen_nonneg l). unfold isFull. rewrite Hh.
  destruct (Z.eqb_spec (zlen l) (width h - 1)) as [E|E].
  - rewrite incrementIterator_ok by (done || by apply pos_range; lia). unfold pos.
    destruct (Z.leb_spec (width h) (m_tail h + zlen l)).
    all: destruct (Z.eqb_spec (m_tail h + zlen l - width h + 1) (width h)), (Z.eqb_spec (m_tail h + zlen l + 1) (width h)); lia.
  - rewrite pos_succ by lia. apply Z.eqb_neq. intros Hp. rewrite <- (pos_0 h) in Hp by done. apply pos_inj in Hp; lia.
Qed.

Lemma ring_clear h l : ring h l → ring (clear h) [].
Proof.
  intros R. pose proof (rg_width _ _ R). assert (0 ≤ m_tail (clear h) < width (clear h)) as Ht by (change (0 ≤ 0 < width h); lia).
  constructor; try done; try (change (0 < width h); lia). by rewrite pos_0.
Qed.

(** The oldest change goes. *)
Lemma ring_pop h c l head :
  ring h (c :: l) → head = m_head h → ring (set_ends head (incrementIterator (m_tail h) h) h) l.
Proof.
  intros [Hw Ht Hl Hh Hi] ->. rewrite zlen_cons in Hl, Hh. pose proof (zlen_nonneg l).
  constructor.
  - done.
  - change (width _) with (width h). cbn [set_ends m_tail]. rewrite incrementIterator_ok by done. destruct (Z.eqb_spec (m_tail h + 1) (width h)); lia.
  - change (width _) with (width h). lia.
  - rewrite pos_tail by lia. cbn [set_ends m_head]. rewrite Hh. f_equal. lia.
  - intros k x Hk. pose proof (zlen_lookup _ _ _ Hk). rewrite pos_tail by lia. cbn [set_ends m_buffer].
    replace (Z.of_nat k + 1) with (Z.of_nat (S k)) by lia. by apply Hi.
Qed.

(** A change is replaced. *)
Lemma ring_put h l k c c' :
  ring h l → l !! k = Some c →
  ∃ h', put_at (pos h (Z.of_nat k)) c' h = Ok h' ∧ ring h' (<[k := c']> l) ∧ width h' = width h ∧ m_tail h' = m_tail h ∧
    m_head h' = m_head h ∧ m_lastUsedSequenceNumber h' = m_lastUsedSequenceNumber h ∧
    slot h' (Z.of_nat k) = Some c' ∧ ∀ j, 0 ≤ j < width h → j ≠ Z.of_nat k → slot h' j = slot h j.
Proof.
  intros R Hk. pose proof (ring_at h l k c R Hk) as Hat. pose proof (zlen_lookup _ _ _ Hk). unfold put_at. rewrite Hat. res_simpl.
  destruct R as [Hw Ht Hl Hh Hi]. eexists. split; [done|]. set (h' := set_buffer _ h).
  assert (width h' = width h) as Hw' by (unfold width, zlen; cbn; by rewrite length_insert).
  assert (∀ j, pos h' j = pos h j) as Hp by (intros j; unfold pos; by rewrite Hw').
  assert (slot h' (Z.of_nat k) = Some c') as Hsk.
  { unfold slot. rewrite Hp. cbn [h' set_buffer m_buffer]. rewrite list_lookup_insert_eq; [done|]. pose proof (pos_range h (Z.of_nat k) Ht). unfold width, zlen in *. lia. }
  assert (∀ j, 0 ≤ j < width h → j ≠ Z.of_nat k → slot h' j = slot h j) as Hsj.
  { intros j Hj Hne. unfold slot. rewrite Hp. cbn [h' set_buffer m_buffer]. rewrite list_lookup_insert_ne; [done|].
    intros E. apply Z2Nat.inj in E; [|by apply pos_range; lia..]. apply pos_inj in E; lia. }
  conj; try done. constructor; rewrite ?Hw', ?Hp; try done.
  - unfold zlen in *. by rewrite length_insert.
  - unfold zlen in *. by rewrite length_insert.
  - intros j x Hj. rewrite Hp. cbn [h' set_buffer m_buffer]. destruct (decide (j = k)) as [->|Hne].
    + rewrite list_lookup_insert_eq in Hj by (by eapply lookup_lt_Some). injection Hj as <-. rewrite list_lookup_insert_eq; [done|].
      pose proof (pos_range h (Z.of_nat k) Ht). unfold width, zlen in *. lia.
    + rewrite list_lookup_insert_ne in Hj by done. pose proof (zlen_lookup _ _ _ Hj). rewrite list_lookup_insert_ne; [by apply Hi|].
      intros E. apply Z2Nat.inj in E; [|by apply pos_range; lia..]. apply pos_inj in E; lia.
Qed.

(** The next change: in a full ring it takes the place of the oldest. *)
Lemma ring_add h l c :
  ring h l →
  let l' := (if zlen l =? width h - 1 then drop 1 l else l) ++ [c] in
  ∃ h', put_at (m_head h) c (incrementHead h) = Ok h' ∧ ring h' l' ∧ width h' = width h ∧
    m_lastUsedSequenceNumber h' = m_lastUsedSequenceNumber h ∧ change_at (m_head h) h' = Ok c.
Proof.
  intros R l'. pose proof (ring_isFull _ _ R) as Hfull. unfold isFull in Hfull. pose proof R as [Hw Ht Hl Hh Hi]. pose proof (zlen_nonneg l).
  assert (0 ≤ m_head h < width h) as Hhr by (rewrite Hh; apply pos_range; lia).
  set (l0 := if zlen l =? width h - 1 then drop 1 l else l) in *. set (h1 := incrementHead h).
  assert (m_tail h1 = pos h (zlen l - zlen l0) ∧ width h1 = width h ∧ m_buffer h1 = m_buffer h ∧ zlen l0 < width h - 1 ∧
    (0 ≤ zlen l - zlen l0) ∧ ∀ k x, l0 !! k = Some x → l !! (k + Z.to_nat (zlen l - zlen l0))%nat = Some x) as (Ht1 & Hw1 & Hb1 & Hl0 & Hd & Hl0l).
  { unfold h1, incrementHead, l0. rewrite Hfull. destruct (Z.eqb_spec (zlen l) (width h - 1)) as [E|E]; cbn [m_tail].
    - destruct l as [|c0 l1]; [rewrite zlen_nil in E; lia|]. change (drop 1 (c0 :: l1)) with l1. rewrite zlen_cons in *.
      replace (1 + zlen l1 - zlen l1) with (0 + 1) by lia. conj; try done; try lia.
      + rewrite <- pos_succ, pos_0 by lia. done.
      + intros k x Hk. replace (k + Z.to_nat (0 + 1))%nat with (S k) by lia. done.
    - rewrite Z.sub_diag, pos_0 by done. conj; try done; try lia. intros k x Hk. by rewrite Nat.add_0_r. }
  assert (0 ≤ m_tail h1 < width h1) as Ht1r by (rewrite Ht1, Hw1; apply pos_range; pose proof (zlen_nonneg l0); lia).
  assert (∀ k, 0 ≤ k < width h - (zlen l - zlen l0) → pos h1 k = pos h (zlen l - zlen l0 + k)) as Hp.
  { intros k Hk. clear -Ht1 Hw1 Ht Hk Hd. unfold pos in *. rewrite Hw1, Ht1.
    destruct (Z.leb_spec (width h) (m_tail h + (zlen l - zlen l0))).
    - rewrite (proj2 (Z.leb_le (width h) (m_tail h + (zlen l - zlen l0 + k)))) by lia.
      rewrite (proj2 (Z.leb_gt _ _)) by lia. lia.
    - destruct (Z.leb_spec (width h) (m_tail h + (zlen l - zlen l0) + k)), (Z.leb_spec (width h) (m_tail h + (zlen l - zlen l0 + k))); lia. }
  assert (m_head h = pos h1 (zlen l0)) as Hhp by (rewrite Hh, Hp by (pose proof (zlen_nonneg l0); lia); f_equal; lia).
  assert (m_head h1 = pos h1 (zlen l0 + 1)) as Hh1.
  { rewrite <- pos_succ by (rewrite ?Hw1; pose proof (zlen_nonneg l0); lia). rewrite <- Hhp. unfold incrementIterator. by rewrite Hb1. }
  unfold put_at, change_at at 1. rewrite Hb1.
  destruct (lookup_lt_is_Some_2 (m_buffer h) (Z.to_nat (m_head h))) as [old Hold]; [unfold width, zlen in *; lia|].
  rewrite Hold. res_simpl. eexists. split; [done|]. set (h2 := set_buffer _ h1).
  assert (width h2 = width h) as Hw2 by (unfold width, zlen in *; cbn; by rewrite length_insert).
  assert (∀ k, pos h2 k = pos h1 k) as Hp2 by (intros k; unfold pos; by rewrite Hw2, Hw1).
  assert (m_buffer h2 !! Z.to_nat (m_head h) = Some c) as Hc by (cbn; apply list_lookup_insert_eq; by eapply lookup_lt_Some).
  conj; [|done|done|by unfold change_at; rewrite Hc]. constructor; rewrite ?Hw2, ?Hp2; try done.
  - unfold l'. rewrite zlen_app, zlen_cons, zlen_nil. lia.
  - unfold l'. rewrite zlen_app, zlen_cons, zlen_nil. exact Hh1.
  - intros k x Hk. rewrite Hp2. unfold l' in Hk. apply lookup_app_Some in Hk as [Hk|[Hge Hk]].
    + pose proof (zlen_lookup _ _ _ Hk). pose proof (Hl0l _ _ Hk) as Hk'. pose proof (zlen_lookup _ _ _ Hk').
      cbn [set_buffer h2 m_buffer]. rewrite list_lookup_insert_ne.
      * rewrite Hp by lia. replace (zlen l - zlen l0 + Z.of_nat k) with (Z.of_nat (k + Z.to_nat (zlen l - zlen l0))) by lia. by apply Hi.
      * rewrite Hhp. intros E. apply Z2Nat.inj in E; [|by apply pos_range; lia..]. apply pos_inj in E; lia.
    + destruct (k - length l0)%nat eqn:E; [|done]. injection Hk as <-. replace (Z.of_nat k) with (zlen l0) by (unfold zlen; lia).
      by rewrite <- Hhp.
Qed.
End ring.

Lemma filter_everything {A} (P : A → Prop) `{∀ x, Decision (P x)} (l : list A) : Forall P l → filter P l = l.
Proof. induction 1 as [|x l Hx _ IH]; [done|]. rewrite filter_cons, decide_True by done. by f_equal. Qed.

Lemma filter_nothing {A} (P : A → Prop) `{∀ x, Decision (P x)} (l : list A) : Forall (λ x, ¬ P x) l → filter P l = [].
Proof. induction 1 as [|x l Hx _ IH]; [done|]. by rewrite filter_cons, decide_False by done. Qed.

(** ** The numbers of the changes *)

Section numbers.
Context {B : Type} `{MessageBuffer B}.
Implicit Types (h : HistoryCache B) (l : list (CacheChange B)) (c : CacheChange B).

Definition num c : Z := sn_val (sequenceNumber c).

(** [h] holds the changes [l]; [last] is the number given out last. *)
Record holds h l (last : Z) : Prop := {
  ho_ring : ring h l;
  ho_last : m_lastUsedSequenceNumber h = SN last;
  ho_range : 0 ≤ last < 2 ^ 62;
  ho_items : Forall (λ c, sequenceNumber c = SN (num c) ∧ 0 < num c ≤ last) l;
  ho_sorted : StronglySorted (λ a b, num a < num b) l
}.

(** The least and the greatest number that the history speaks of. *)
Definition first_num l : Z := match l with [] => - 2 ^ 32 | c :: _ => num c end.
Definition last_num l (last : Z) : Z := match l with [] => - 2 ^ 32 | _ :: _ => last end.

Lemma getSeqNumMin_ok h l last : holds h l last → getSeqNumMin h = Ok (SN (first_num l)).
Proof.
  intros [R _ _ Hi _]. unfold getSeqNumMin. rewrite (ring_empty _ _ R). destruct l as [|c l]; [done|].
  rewrite bool_decide_false by done. rewrite (ring_first _ _ _ R). res_simpl. apply Forall_cons in Hi as [[E _] _]. by rewrite E.
Qed.

Lemma getSeqNumMax_ok h l last : holds h l last → getSeqNumMax h = SN (last_num l last).
Proof.
  intros [R Hl _ _ _]. unfold getSeqNumMax. rewrite (ring_empty _ _ R). destruct l as [|c l]; [done|].
  by rewrite bool_decide_false.
Qed.

Lemma holds_clear h l last : holds h l last → holds (clear h) [] 0.
Proof. intros [R _ _ _ _]. constructor; [by eapply ring_clear|done|lia|constructor..]. Qed.

Lemma sorted_app l1 l2 :
  StronglySorted (λ a b : CacheChange B, num a < num b) (l1 ++ l2) ↔
  StronglySorted (λ a b, num a < num b) l1 ∧ StronglySorted (λ a b, num a < num b) l2 ∧ ∀ a b, a ∈ l1 → b ∈ l2 → num a < num b.
Proof.
  induction l1 as [|c l1 IH]; cbn.
  - split; [|by intros (_ & ? & _)]. intros. conj; [constructor|done|]. by intros a b ?%not_elem_of_nil.
  - split.
    + inversion 1 as [|? ? Hs HF]; subst. apply IH in Hs as (? & ? & Hlt). apply Forall_app in HF as [? HF]. conj; [by constructor|done|].
      intros a b [->|Ha]%elem_of_cons Hb; [|auto]. rewrite Forall_forall in HF. auto.
    + intros (Hs & ? & Hlt). inversion Hs; subst. constructor.
      * apply IH. conj; [done..|]. intros a b Ha. apply Hlt. by right.
      * apply Forall_app. split; [done|]. apply Forall_forall. intros b Hb. apply Hlt; [by left|done].
Qed.

(** All changes go at once. *)
Lemma holds_all_gone h l last z :
  holds h l last → last ≤ z → filter (λ c, z < num c) l = [] ∧ holds (set_ends (m_tail h) (m_tail h) h) [] last.
Proof.
  intros [R Hl Hr Hi Hs] Hle. split.
  - clear -Hi Hle. induction Hi as [|x l' Hx _ IH]; [done|]. rewrite filter_cons, decide_False by lia. done.
  - destruct R as [Hw Ht Hlen Hh Hit]. constructor; [|done|done|constructor..]. constructor; try done.
    + change (zlen (@nil (CacheChange B)) < width h). rewrite zlen_nil. lia.
    + rewrite zlen_nil, pos_0 by done. done.
Qed.

(** The data of a new change. *)
Definition new_data (bytes : list Z) : B := snd (mb_append bytes (snd (mb_reserve (zlen bytes) mb_empty))).

(** The oldest change is dropped for a new one when the history is full. *)
Definition make_room h l : list (CacheChange B) := if zlen l =? width h - 1 then drop 1 l else l.

Lemma drop_1_in l c : c ∈ drop 1 l → c ∈ l.
Proof. destruct l; [done|]. cbn. rewrite drop_0. by right. Qed.

Lemma addChange_ok h l last bytes q d :
  holds h l last → last + 1 < 2 ^ 62 →
  let c := mkChange ALIVE q d (SN (last + 1)) (new_data bytes) in
  ∃ place h', addChange bytes q d h = Ok (place, h') ∧ holds h' (make_room h l ++ [c]) (last + 1) ∧ width h' = width h ∧
    change_at place h' = Ok c.
Proof.
  intros [R Hl Hr Hi Hs] Hlast c. unfold addChange. rewrite Hl, sn_incr_SN by lia. res_simpl. fold (new_data bytes). fold c.
  change (m_head h) with (m_head (set_last (SN (last + 1)) h)).
  assert (ring (set_last (SN (last + 1)) h) l) as R' by (destruct R; by constructor).
  destruct (ring_add _ _ c R') as (h' & -> & R2 & Hw & Hl2 & Hat). res_simpl. eexists _, h'. split; [done|].
  change (width (set_last _ h)) with (width h) in *. fold (make_room h l) in R2.
  assert (num c = last + 1) as Hc by apply sn_val_SN. conj; [|done|done].
  assert (∀ x, x ∈ make_room h l → x ∈ l) as Hin.
  { unfold make_room. case_match; [intros x; apply drop_1_in|done]. }
  rewrite Forall_forall in Hi. constructor; [done|done|lia| |].
  - apply Forall_app. split; [|constructor; [|constructor]; rewrite Hc; split; [done|lia]].
    apply Forall_forall. intros x Hx. destruct (Hi x (Hin x Hx)). split; [done|lia].
  - apply sorted_app. conj.
    + unfold make_room. case_match; [|done]. destruct l; [done|]. cbn. rewrite drop_0. by inversion Hs.
    + repeat constructor.
    + intros a b Ha ->%list_elem_of_singleton. rewrite Hc. destruct (Hi a (Hin a Ha)). lia.
Qed.
End numbers.

(** ** Searching and deleting *)

Section with_deletion.
Context {B : Type} `{MessageBuffer B}.
Implicit Types (h : HistoryCache B) (l : list (CacheChange B)) (c : CacheChange B).
Import WithDeletion.

Lemma isSNInRange_ok h l last z :
  holds h l last → isSNInRange (SN z) h = Ok ((first_num l <=? z) && (z <=? last_num l last)).
Proof.
  intros Ho. unfold isSNInRange. rewrite (getSeqNumMin_ok _ _ _ Ho), (getSeqNumMax_ok _ _ _ Ho). res_simpl.
  rewrite !sn_ltb_SN. f_equal. apply Bool.eq_iff_eq_true. rewrite negb_true_iff, orb_false_iff, andb_true_iff, !Z.ltb_ge, !Z.leb_le. done.
Qed.

Lemma getChangeBySN_loop_ok h l last z (k fuel : nat) :
  holds h l last → (k ≤ length l)%nat → (length l < k + fuel)%nat →
  getChangeBySN_loop fuel (SN z) (pos h (Z.of_nat k)) h =
  Ok ((λ x : nat * _, pos h (Z.of_nat (k + x.1))) <$> list_find (λ c, num c = z) (drop k l)).
Proof.
  intros Ho. pose proof Ho as [R _ _ Hi Hs]. pose proof R as [Hw Ht Hl Hh _]. revert k.
  induction fuel as [|fuel IH]; intros k Hk Hf; [lia|]. cbn [getChangeBySN_loop]. rewrite Hh.
  destruct (decide (k = length l)) as [->|Hne].
  { rewrite drop_all, Z.eqb_refl. done. }
  destruct (lookup_lt_is_Some_2 l k) as [c Hc]; [lia|]. pose proof (zlen_lookup _ _ _ Hc).
  rewrite (proj2 (Z.eqb_neq _ _)) by (intros E; apply pos_inj in E; unfold zlen in *; lia).
  rewrite (ring_at _ _ _ _ R Hc). res_simpl. rewrite (drop_S _ _ _ Hc). cbn [list_find].
  pose proof (Forall_lookup_1 _ _ _ _ Hi Hc) as [Hsn _]. rewrite Hsn, sn_eqb_SN, sn_gtb_SN. destruct (Z.eqb_spec (num c) z) as [E|E].
  { rewrite decide_True by done. cbn. by rewrite Nat.add_0_r. }
  rewrite decide_False by done. destruct (Z.ltb_spec z (num c)) as [Hlt|Hge].
  - assert (list_find (λ c, num c = z) (drop (S k) l) = None) as ->; [|done].
    apply list_find_None. apply Forall_forall. intros x [j Hx]%list_elem_of_lookup_1. rewrite lookup_drop in Hx.
    rewrite <- (take_drop_middle l k c Hc) in Hs. apply sorted_app in Hs as (_ & Hs & _). inversion Hs as [|? ? _ HF]; subst.
    rewrite Forall_forall in HF. specialize (HF x). rewrite <- lookup_drop in Hx. apply list_elem_of_lookup_2 in Hx. specialize (HF Hx). lia.
  - fold (width h). assert (pos h (Z.of_nat k) + 1 <= width h) by (pose proof (pos_range h (Z.of_nat k) Ht); lia).
    assert ((if width h <=? pos h (Z.of_nat k) + 1 then pos h (Z.of_nat k) + 1 - width h else pos h (Z.of_nat k) + 1) =
      pos h (Z.of_nat (S k))) as ->.
    { replace (Z.of_nat (S k)) with (Z.of_nat k + 1) by lia. rewrite <- pos_succ by lia. rewrite incrementIterator_ok by (done || by apply pos_range; lia).
      destruct (Z.leb_spec (width h) (pos h (Z.of_nat k) + 1)), (Z.eqb_spec (pos h (Z.of_nat k) + 1) (width h)); lia. }
    rewrite IH by lia. f_equal. destruct (list_find _ (drop (S k) l)) as [[j x]|]; [|done]. cbn. do 2 f_equal. lia.
Qed.

(** The place of the change with a number. *)
Lemma getChangeBySN_ok h l last z :
  holds h l last → getChangeBySN (SN z) h = Ok ((λ x : nat * _, pos h (Z.of_nat x.1)) <$> list_find (λ c, num c = z) l).
Proof.
  intros Ho. unfold getChangeBySN. rewrite (isSNInRange_ok _ _ _ _ Ho). res_simpl. pose proof Ho as [R _ _ Hi Hs].
  destruct ((first_num l <=? z) && (z <=? last_num l last)) eqn:E.
  - rewrite <- (pos_0 h) by apply R. change 0 with (Z.of_nat 0).
    rewrite (getChangeBySN_loop_ok h l last) by (done || (pose proof (rg_length _ _ R); unfold width, zlen in *; lia)). done.
  - destruct (list_find _ l) as [[k c]|] eqn:Hf; [|done]. exfalso. apply list_find_Some in Hf as (Hc & <- & _).
    pose proof (Forall_lookup_1 _ _ _ _ Hi Hc) as [_ Hn]. apply andb_false_iff in E as [E%Z.leb_gt|E%Z.leb_gt].
    + destruct l as [|c0 l]; [done|]. cbn in E. destruct k; [injection Hc as ->; lia|]. cbn in Hc. inversion Hs as [|? ? _ HF]; subst.
      rewrite Forall_forall in HF. specialize (HF c). apply list_elem_of_lookup_2 in Hc. specialize (HF Hc). lia.
    + destruct l; [done|]. cbn in E. lia.
Qed.

Lemma getChangeBySN_at h l last z i :
  holds h l last → getChangeBySN (SN z) h = Ok (Some i) → ∃ k c, l !! k = Some c ∧ num c = z ∧ i = pos h (Z.of_nat k) ∧ change_at i h = Ok c.
Proof.
  intros Ho Hg. rewrite (getChangeBySN_ok _ _ _ _ Ho) in Hg. destruct (list_find _ l) as [[k c]|] eqn:Hf; [|done]. injection Hg as <-.
  apply list_find_Some in Hf as (Hc & Hn & _). exists k, c. conj; [done..|]. by eapply ring_at; [apply Ho|].
Qed.

Lemma incrementTail_ok h c l : ring h (c :: l) → ∃ h', incrementTail h = Ok h' ∧ ring h' l ∧ width h' = width h ∧
  m_lastUsedSequenceNumber h' = m_lastUsedSequenceNumber h ∧ m_head h' = m_head h ∧ shifted h l h'.
Proof.
  intros R. unfold incrementTail. rewrite (ring_empty _ _ R), bool_decide_false by done. rewrite (ring_first _ _ _ R). res_simpl.
  destruct (ring_put h (c :: l) 0 c (reset c) R eq_refl) as (h' & Hp & R' & Hw & Ht & Hh & Hl & Hs0 & Hsk). cbn [Z.of_nat] in Hp, Hs0.
  rewrite pos_0 in Hp by apply R. rewrite Hp. res_simpl. eexists. conj; [done| |done|done|done|].
  { by apply (ring_pop h' (reset c) l). }
  pose proof R' as [Hwd Htr Hln _ _]. split.
  - intros k Hk. pose proof (zlen_nonneg l). rewrite <- Hsk by lia. unfold slot. rewrite pos_tail by lia. done.
  - exists c. rewrite <- Hs0. unfold slot. cbn [set_ends m_buffer]. do 2 f_equal. rewrite pos_0 by done.
    unfold pos. cbn [set_ends m_tail]. change (width (set_ends _ _ h')) with (width h'). rewrite <- Hw. rewrite incrementIterator_ok by done.
    destruct (Z.eqb_spec (m_tail h' + 1) (width h')) as [E|E].
    + rewrite (proj2 (Z.leb_gt _ _)) by lia. lia.
    + rewrite (proj2 (Z.leb_le _ _)) by lia. lia.
Qed.

(** The changes before the dropped one move up by a place. *)
Lemma dropChange_loop_ok (k fuel : nat) h :
  1 < width h ≤ 2 ^ 16 → 0 ≤ m_tail h < width h → (0 < k)%nat → Z.of_nat k < width h → (k ≤ fuel)%nat →
  ∃ h', dropChange_loop fuel (pos h (Z.of_nat k)) h = Ok h' ∧ width h' = width h ∧ m_tail h' = m_tail h ∧ m_head h' = m_head h ∧
    m_lastUsedSequenceNumber h' = m_lastUsedSequenceNumber h ∧
    ∀ j : nat, Z.of_nat j < width h →
      m_buffer h' !! Z.to_nat (pos h (Z.of_nat j)) =
      m_buffer h !! Z.to_nat (pos h (Z.of_nat (if decide (0 < j ≤ k)%nat then pred j else j))).
Proof.
  intros Hw Ht. revert h k Hw Ht. induction fuel as [|fuel IH]; intros h k Hw Ht Hk Hkw Hf; [lia|]. cbn [dropChange_loop].
  assert ((if zlen (m_buffer h) <=? u16 (pos h (Z.of_nat k) - 1) then u16 (zlen (m_buffer h) - 1) else u16 (pos h (Z.of_nat k) - 1)) =
    pos h (Z.of_nat (pred k))) as ->.
  { fold (width h). pose proof (pos_range h (Z.of_nat k) Ht ltac:(lia)). unfold pos.
    destruct (Z.leb_spec (width h) (m_tail h + Z.of_nat k)), (Z.leb_spec (width h) (m_tail h + Z.of_nat (pred k))); try lia.
    - rewrite (wrap_id 16 (_ - 1)) by zlia. rewrite (proj2 (Z.leb_gt _ _)) by lia. lia.
    - assert (m_tail h + Z.of_nat k - width h = 0) as -> by lia. change (u16 (0 - 1)) with 65535.
      destruct (Z.leb_spec (width h) 65535); [rewrite (wrap_id 16) by zlia|]; lia.
    - rewrite (wrap_id 16 (_ - 1)) by zlia. rewrite (proj2 (Z.leb_gt _ _)) by lia. lia. }
  assert (∀ j, 0 ≤ j < width h → ∃ c, m_buffer h !! Z.to_nat (pos h j) = Some c) as Hsome.
  { intros j Hj. apply lookup_lt_is_Some. pose proof (pos_range h j Ht Hj). unfold width, zlen in *. lia. }
  destruct (Hsome (Z.of_nat (pred k))) as [c Hc]; [lia|]. destruct (Hsome (Z.of_nat k)) as [c' Hc']; [lia|].
  unfold put_at, change_at. rewrite Hc. res_simpl. rewrite Hc'. res_simpl.
  set (h1 := set_buffer _ h). assert (width h1 = width h) as Hw1 by (unfold width, zlen; cbn; by rewrite length_insert).
  assert (∀ j, pos h1 j = pos h j) as Hp by (intros j; unfold pos; by rewrite Hw1).
  assert (∀ j : nat, Z.of_nat j < width h → m_buffer h1 !! Z.to_nat (pos h (Z.of_nat j)) =
    if decide (j = k) then Some c else m_buffer h !! Z.to_nat (pos h (Z.of_nat j))) as Hb1.
  { intros j Hj. cbn [h1 set_buffer m_buffer]. case_decide as E.
    - subst j. apply list_lookup_insert_eq. by eapply lookup_lt_Some.
    - apply list_lookup_insert_ne. intros E'. apply Z2Nat.inj in E'; [|by apply pos_range; lia..]. apply pos_inj in E'; lia. }
  pose proof (pos_0 h Ht) as H0. change (m_tail h1) with (m_tail h).
  destruct (Z.eqb_spec (pos h (Z.of_nat (pred k))) (m_tail h)) as [E|E]; rewrite <- H0 in E.
  - apply pos_inj in E; [|lia..]. exists h1. conj; [done..|]. intros j Hj. rewrite Hb1 by done.
    destruct (decide (j = k)) as [->|Hne]; [by rewrite decide_True by lia|]. rewrite decide_False by lia. done.
  - assert (pred k ≠ 0)%nat by (intros E0; apply E; by rewrite E0).
    destruct (IH h1 (pred k)) as (h' & Hd & Hw' & Ht' & Hh' & Hl' & Hb'); rewrite ?Hw1; try done; try lia. rewrite Hp in Hd.
    exists h'. conj; try done; [by rewrite Hw'|]. intros j Hj. specialize (Hb' j). rewrite Hw1, !Hp in Hb'. rewrite Hb' by lia.
    rewrite Hb1 by (destruct (decide _); lia). destruct (decide (0 < j ≤ pred k)%nat).
    + rewrite (decide_False (P := pred j = k)) by lia. by rewrite decide_True by lia.
    + destruct (decide (j = k)) as [->|]; [by rewrite decide_True by lia|]. by rewrite decide_False by lia.
Qed.

Lemma Forall_sublist {A} (P : A → Prop) (l1 l2 : list A) : Forall P l2 → sublist l1 l2 → Forall P l1.
Proof. intros HF. induction 1; apply Forall_cons in HF || done; destruct HF; auto. Qed.

Lemma holds_ring h h' l l' last :
  holds h l last → ring h' l' → m_lastUsedSequenceNumber h' = m_lastUsedSequenceNumber h → sublist l' l → holds h' l' last.
Proof.
  intros [R Hl Hr Hi Hs] R' Hl' Hsub. constructor; [done|by rewrite Hl'|done| |].
  - by eapply Forall_sublist.
  - clear -Hsub Hs. induction Hsub as [|c l1 l2 Hsub IH|c l1 l2 Hsub IH]; [done| |]; inversion Hs as [|? ? Hs' HF]; subst; [|auto].
    constructor; [auto|]. by eapply Forall_sublist.
Qed.

Lemma dropChange_ok h l1 c l2 last :
  holds h (l1 ++ c :: l2) last →
  ∃ h', dropChange (SN (num c)) h = Ok (true, h') ∧ holds h' (l1 ++ l2) last ∧ width h' = width h ∧ shifted h (l1 ++ l2) h'.
Proof.
  intros Ho. pose proof Ho as [R _ _ _ Hs]. pose proof R as [Hw Ht Hl Hh Hi]. unfold dropChange. rewrite (getChangeBySN_ok _ _ _ _ Ho).
  assert (list_find (λ x, num x = num c) (l1 ++ c :: l2) = Some (length l1, c)) as ->.
  { apply list_find_Some. conj; [by apply list_lookup_middle|done|]. intros j y Hy Hj. apply sorted_app in Hs as (_ & _ & Hlt).
    specialize (Hlt y c). rewrite lookup_app_l in Hy by done. apply list_elem_of_lookup_2 in Hy. specialize (Hlt Hy ltac:(by left)). lia. }
  res_simpl. cbn [fmap option_fmap option_map fst]. assert (sublist (l1 ++ l2) (l1 ++ c :: l2)) as Hsub by (apply sublist_app; [done|by apply sublist_cons]).
  destruct l1 as [|c0 l1].
  - cbn [length app] in *. change (Z.of_nat 0) with 0. rewrite pos_0, Z.eqb_refl by done. rewrite (ring_first _ _ _ R). res_simpl.
    destruct (ring_put h (c :: l2) 0 c (reset c) R eq_refl) as (h1 & Hp & R1 & Hw1 & Ht1 & Hh1 & Hl1 & _ & Hs1). cbn [Z.of_nat] in Hp, Hs1.
    rewrite pos_0 in Hp by done. rewrite Hp. res_simpl.
    destruct (incrementTail_ok h1 (reset c) l2 R1) as (h2 & -> & R2 & Hw2 & Hl2 & _ & Hsh & Hsl). res_simpl. exists h2.
    rewrite Hw1 in Hsh, Hsl. conj; [done| |by rewrite Hw2|split; [|done]; intros k Hk; pose proof (zlen_nonneg l2); rewrite Hsh, Hs1 by lia; done]. eapply holds_ring; [exact Ho|done|by rewrite Hl2|done].
  - set (k := length (c0 :: l1)) in *. assert (0 < k)%nat by (cbn; lia).
    assert (Z.of_nat k < width h) as Hkw by (clear -Hl; unfold zlen in Hl; rewrite length_app in Hl; cbn in *; lia).
    rewrite (proj2 (Z.eqb_neq _ _)).
    2: { intros E. rewrite <- (pos_0 h) in E by done. apply pos_inj in E; lia. }
    destruct (dropChange_loop_ok k (length (m_buffer h)) h) as (h1 & -> & Hw1 & Ht1 & Hh1 & Hl1 & Hb1); try done; [unfold width, zlen in Hkw; lia|].
    res_simpl. assert (∀ j, pos h1 j = pos h j) as Hp by (intros j; unfold pos; by rewrite Hw1, Ht1).
    assert (ring h1 (c0 :: (c0 :: l1) ++ l2)) as R1.
    { assert (zlen (c0 :: (c0 :: l1) ++ l2) = zlen ((c0 :: l1) ++ c :: l2)) as El by (unfold zlen; cbn; rewrite !length_app; cbn; lia).
      constructor; rewrite ?Hw1, ?Ht1, ?Hh1, ?Hp, ?El; try done. intros j x Hx. rewrite Hp.
      pose proof (zlen_lookup _ _ _ Hx) as Hj. rewrite El in Hj. rewrite Hb1 by lia. apply Hi.
      destruct (decide (0 < j ≤ k)%nat) as [Hjk|Hjk].
      - destruct j as [|j]; [lia|]. cbn [pred]. change ((c0 :: (c0 :: l1) ++ l2) !! S j) with (((c0 :: l1) ++ l2) !! j) in Hx.
        rewrite lookup_app_l in Hx |- * by (fold k; lia). done.
      - destruct j as [|j]; [done|]. change ((c0 :: (c0 :: l1) ++ l2) !! S j) with (((c0 :: l1) ++ l2) !! j) in Hx.
        rewrite lookup_app_r in Hx |- * by (fold k; lia). fold k in Hx |- *. replace (S j - k)%nat with (S (j - k)) by lia. done. }
    destruct (incrementTail_ok h1 _ _ R1) as (h2 & -> & R2 & Hw2 & Hl2 & _ & Hsh & Hsl). res_simpl. exists h2. rewrite Hw1 in Hsh, Hsl.
    conj; [done| |by rewrite Hw2|split; [|done]].
    2: { intros j Hj. assert (Z.of_nat k ≤ zlen ((c0 :: l1) ++ l2)) by (unfold zlen; rewrite length_app; fold k; lia).
      rewrite Hsh by done. unfold slot. rewrite Hp. specialize (Hb1 (Z.to_nat (j + 1))). rewrite Z2Nat.id in Hb1 by lia. rewrite Hb1 by lia.
      rewrite decide_False by lia. by rewrite Z2Nat.id by lia. }
    eapply holds_ring; [exact Ho|done|by rewrite Hl2|done].
Qed.

Lemma dropChange_absent h l last z :
  holds h l last → Forall (λ c, num c ≠ z) l → dropChange (SN z) h = Ok (false, h).
Proof.
  intros Ho Hn. unfold dropChange. rewrite (getChangeBySN_ok _ _ _ _ Ho). by rewrite (proj2 (list_find_None _ _) Hn).
Qed.

(** [removeUntilIncl] up to a number that a change above it follows. *)
Lemma removeUntilIncl_loop_ok fuel h l last z :
  holds h l last → Exists (λ c, z < num c) l → (length l < fuel)%nat →
  ∃ h', removeUntilIncl_loop fuel (SN z) h = Ok h' ∧ holds h' (filter (λ c, z < num c) l) last ∧ width h' = width h.
Proof.
  revert h l. induction fuel as [|fuel IH]; intros h l Ho Hex Hf; [lia|]. cbn [removeUntilIncl_loop].
  destruct l as [|c l]; [by apply Exists_nil in Hex|]. pose proof Ho as [R _ _ Hi Hs]. rewrite (ring_first _ _ _ R). res_simpl.
  apply Forall_cons in Hi as [[Hsn _] _]. rewrite Hsn, sn_leb_SN. rewrite filter_cons. destruct (Z.leb_spec (num c) z) as [Hle|Hgt].
  - rewrite decide_False by lia. destruct (incrementTail_ok _ _ _ R) as (h1 & -> & R1 & Hw1 & Hl1 & _). res_simpl.
    destruct (IH h1 l) as (h2 & -> & Ho2 & Hw2).
    + eapply holds_ring; [exact Ho|done|done|by apply sublist_cons].
    + apply Exists_cons in Hex as [?|?]; [lia|done].
    + cbn in Hf. lia.
    + exists h2. conj; [done|done|by rewrite Hw2].
  - rewrite decide_True by done. exists h. conj; [done| |done]. replace (filter (λ x, z < num x) l) with l; [done|].
    inversion Hs as [|? ? _ HF]; subst. clear -Hgt HF. induction HF as [|x l Hx _ IH]; [done|]. rewrite filter_cons, decide_True by lia. by f_equal.
Qed.

Lemma setCacheChangeKind_ok h l last k c kd :
  holds h l last → l !! k = Some c →
  ∃ h', setCacheChangeKind (SN (num c)) kd h = Ok (true, h') ∧
    holds h' (<[k := mkChange kd (inLineQoS c) (diposeAfterWrite c) (sequenceNumber c) (data c)]> l) last ∧ width h' = width h ∧
    ∀ j, zlen l ≤ j < width h → slot h' j = slot h j.
Proof.
  intros Ho Hk. unfold setCacheChangeKind. rewrite (getChangeBySN_ok _ _ _ _ Ho). pose proof Ho as [R Hl Hr Hi Hs].
  assert (list_find (λ x, num x = num c) l = Some (k, c)) as ->.
  { apply list_find_Some. conj; [done..|]. intros j y Hy Hj. rewrite <- (take_drop_middle l k c Hk) in Hs. apply sorted_app in Hs as (_ & _ & Hlt).
    specialize (Hlt y c). assert (y ∈ take k l) as Hin by (eapply list_elem_of_lookup_2; by rewrite lookup_take_lt).
    specialize (Hlt Hin ltac:(by left)). lia. }
  res_simpl. cbn [fmap option_fmap option_map fst]. rewrite (ring_at _ _ _ _ R Hk). res_simpl. set (c' := mkChange _ _ _ _ _).
  destruct (ring_put h l k c c' R Hk) as (h' & -> & R' & Hw & _ & _ & Hl' & _ & Hsl). res_simpl. exists h'. conj; [done| |done|].
  2: { intros j Hj. pose proof (zlen_lookup _ _ _ Hk). apply Hsl; lia. }
  constructor; [done|by rewrite Hl'|done| |].
  - apply Forall_insert; [done|]. by apply (Forall_lookup_1 _ _ _ _ Hi Hk).
  - rewrite insert_take_drop by (by eapply lookup_lt_Some). rewrite <- (take_drop_middle l k c Hk) in Hs.
    apply sorted_app in Hs as (H1 & H2 & H3). apply sorted_app. conj; [done| |].
    + inversion H2; subst. by constructor.
    + intros a b Ha [->|Hb]%elem_of_cons; [by apply (H3 a c Ha); left|]. apply H3; [done|by right].
Qed.

(** ** The places beyond the last change *)

(** What the place at the end of the ring holds decides whether the loop of [removeUntilIncl] ends behind the last change. *)
Lemma removeUntilIncl_loop_all z l : ∀ h last c,
  holds h l last → Forall (λ c, num c ≤ z) l → slot h (zlen l) = Some c →
  if sn_leb (sequenceNumber c) (SN z) then ∀ fuel, removeUntilIncl_loop fuel (SN z) h = Err OutOfFuel
  else ∀ fuel, (length l < fuel)%nat → ∃ h', removeUntilIncl_loop fuel (SN z) h = Ok h' ∧ holds h' [] last ∧ width h' = width h.
Proof.
  induction l as [|c0 l IH]; intros h last c Ho Hz Hc; pose proof (ho_ring _ _ _ Ho) as R; pose proof (ring_empty _ _ R) as He.
  - rewrite bool_decide_true in He by done. unfold slot in Hc. rewrite zlen_nil, pos_0 in Hc by apply R.
    assert (change_at (m_tail h) h = Ok c) as Hc' by (unfold change_at; by rewrite Hc). destruct (sn_leb _ _) eqn:Hle.
    + intros fuel. induction fuel as [|fuel IHf]; [done|]. cbn [removeUntilIncl_loop]. rewrite Hc'. res_simpl. rewrite Hle. unfold incrementTail. by rewrite He.
    + intros [|fuel] Hf; [cbn in Hf; lia|]. cbn [removeUntilIncl_loop]. rewrite Hc'. res_simpl. rewrite Hle. by exists h.
  - apply Forall_cons in Hz as [Hz0 Hz]. pose proof (ho_items _ _ _ Ho) as [[Hsn _] _]%Forall_cons.
    destruct (incrementTail_ok _ _ _ R) as (h1 & Hi & R1 & Hw1 & Hl1 & _ & Hsh & _). pose proof (rg_length _ _ R) as Hlen.
    assert (holds h1 l last) as Ho1 by (eapply holds_ring; [exact Ho|done|done|by apply sublist_cons]).
    assert (slot h1 (zlen l) = Some c) as Hc1 by (rewrite zlen_cons in Hc, Hlen; rewrite Hsh by lia; by rewrite Z.add_comm).
    specialize (IH h1 last c Ho1 Hz Hc1).
    assert (∀ fuel, removeUntilIncl_loop (S fuel) (SN z) h = removeUntilIncl_loop fuel (SN z) h1) as Hstep.
    { intros fuel. cbn [removeUntilIncl_loop]. rewrite (ring_first _ _ _ R). res_simpl. rewrite Hsn, sn_leb_SN, (proj2 (Z.leb_le _ _)) by done. by rewrite Hi. }
    destruct (sn_leb (sequenceNumber c) (SN z)); [intros [|fuel]; [done|by rewrite Hstep]|].
    intros [|fuel] Hf; [lia|]. rewrite Hstep. destruct (IH fuel) as (h' & ? & ? & Hw'); [cbn in Hf; lia|]. exists h'. conj; [done..|by rewrite Hw'].
Qed.

Lemma slot_some h l k : ring h l → 0 ≤ k < width h → ∃ c, slot h k = Some c.
Proof. intros R Hk. apply lookup_lt_is_Some. pose proof (pos_range h k (rg_tail _ _ R) Hk). unfold width, zlen in *. lia. Qed.

(** A number below those of the changes [l] and not above the last one given out. *)
Definition behind l (last : Z) c : Prop := sequenceNumber c = SN (num c) ∧ num c ≤ last ∧ Forall (λ x, num c < num x) l.

(** Beyond the last change there are only such numbers, as long as the history is not cleared. *)
Definition stale h l (last : Z) : Prop := ∀ k c, zlen l ≤ k < width h → slot h k = Some c → behind l last c.

Lemma behind_sub l l' last last' c : behind l last c → (∀ x, x ∈ l' → x ∈ l ∨ last < num x) → last ≤ last' → behind l' last' c.
Proof.
  intros (E & Hle & HF) Hin Hl. split; [done|]. split; [lia|]. rewrite Forall_forall in HF. apply Forall_forall. intros x [Hx|Hx]%Hin; [by apply HF|lia].
Qed.

Lemma behind_reset h l last c : holds h l last → behind l last (reset c).
Proof.
  intros [_ _ Hr Hi _]. split; [done|]. assert (num (reset c) = - 2 ^ 32) as -> by done. split; [lia|]. eapply Forall_impl; [exact Hi|]. cbn. lia.
Qed.

Lemma stale_shifted h l h' l' last :
  holds h l last → holds h' l' last → width h' = width h → stale h l last → shifted h l' h' → sublist l' l → zlen l = zlen l' + 1 → stale h' l' last.
Proof.
  intros Ho Ho' Hw Hs [Hsh [x Hx]] Hsub Hlen k c Hk Hc. rewrite Hw in Hk. destruct (decide (k = width h - 1)) as [->|Hne].
  - rewrite Hx in Hc. injection Hc as <-. by eapply behind_reset.
  - rewrite Hsh in Hc by lia. eapply behind_sub; [apply (Hs (k + 1)); [lia|done]| |lia]. intros y Hy. left. revert y Hy. apply Forall_forall. by eapply Forall_sublist; [apply Forall_forall; intros y Hy; exact Hy|].
Qed.

Lemma removeUntilIncl_loop_stale z last : ∀ fuel h l h',
  holds h l last → Exists (λ c, z < num c) l → stale h l last → removeUntilIncl_loop fuel (SN z) h = Ok h' → stale h' (filter (λ c, z < num c) l) last.
Proof.
  induction fuel as [|fuel IH]; intros h l h' Ho Hex Hs; [done|]. cbn [removeUntilIncl_loop].
  destruct l as [|c l]; [by apply Exists_nil in Hex|]. pose proof Ho as [R _ _ Hi Hst]. rewrite (ring_first _ _ _ R). res_simpl.
  apply Forall_cons in Hi as [[Hsn _] _]. rewrite Hsn, sn_leb_SN, filter_cons. destruct (Z.leb_spec (num c) z) as [Hle|Hgt].
  - rewrite decide_False by lia. destruct (incrementTail_ok _ _ _ R) as (h1 & -> & R1 & Hw1 & Hl1 & _ & Hsh). res_simpl.
    assert (sublist l (c :: l)) as Hsub by (by apply sublist_cons). pose proof (holds_ring _ _ _ _ _ Ho R1 Hl1 Hsub) as Ho1.
    apply IH; [done| |]; [by apply Exists_cons in Hex as [?|?]; [lia|]|].
    eapply stale_shifted; [exact Ho|done..|]. rewrite zlen_cons. lia.
  - intros [= <-]. rewrite decide_True by done. rewrite filter_everything; [done|]. inversion Hst as [|? ? _ HF]; subst. eapply Forall_impl; [exact HF|]. cbn. lia.
Qed.
End with_deletion.

(** ** Consecutive numbers *)

Section simple.
Context {B : Type} `{MessageBuffer B}.
Implicit Types (h : HistoryCache B) (l : list (CacheChange B)) (c : CacheChange B).
Import Simple.

(** The changes are the last ones that were added. *)
Definition consecutive l (last : Z) : Prop := ∀ k c, l !! k = Some c → num c = last - zlen l + 1 + Z.of_nat k.

Lemma consecutive_snoc h l last c : consecutive l last → num c = last + 1 → consecutive (make_room h l ++ [c]) (last + 1).
Proof.
  intros Hc Hn. assert (consecutive (make_room h l) last) as Hm.
  { unfold make_room. case_match; [|done]. destruct l as [|c0 l]; [done|]. cbn [drop]. intros k x Hk. rewrite drop_0 in Hk |- *.
    rewrite (Hc (S k) x Hk), zlen_cons. lia. }
  intros k x Hk. rewrite zlen_app, zlen_cons, zlen_nil. apply lookup_app_Some in Hk as [Hk|[Hge Hk]].
  - rewrite (Hm _ _ Hk). lia.
  - destruct (k - length (make_room h l))%nat eqn:E; [|done]. injection Hk as <-. rewrite Hn. unfold zlen. lia.
Qed.

Lemma getChangeBySN_consecutive h l last z :
  holds h l last → consecutive l last → width h ≤ 2 ^ 15 → l ≠ [] →
  getChangeBySN (SN z) h = Ok (if (last - zlen l <? z) && (z <=? last) then Some (pos h (z - (last - zlen l + 1))) else None).
Proof.
  intros Ho Hc Hw Hne. unfold getChangeBySN. rewrite (getSeqNumMin_ok _ _ _ Ho), (getSeqNumMax_ok _ _ _ Ho). res_simpl. rewrite !sn_ltb_SN.
  pose proof Ho as [R _ Hr _ _]. pose proof R as [Hwd Ht Hl _ _].
  assert (first_num l = last - zlen l + 1 ∧ last_num l last = last) as [-> ->].
  { destruct l as [|c l]; [done|]. split; [|done]. cbn [first_num]. rewrite (Hc 0%nat c) by done. lia. }
  destruct (Z.ltb_spec z (last - zlen l + 1)), (Z.ltb_spec (last - zlen l) z), (Z.ltb_spec last z), (Z.leb_spec z last); try lia; try done.
  cbn [orb andb]. set (d := z - (last - zlen l + 1)). assert (u32 (sn_low (SN z) - sn_low (SN (last - zlen l + 1))) = d) as ->.
  { unfold SN, wrap. cbn [sn_low]. rewrite <- Zminus_mod. apply Z.mod_small. lia. }
  rewrite (wrap_id 16 d), (wrap_id 16 (m_tail h + d)) by zlia. unfold pos. fold (width h).
  destruct (Z.leb_spec (width h) (m_tail h + d)); [|done]. by rewrite (wrap_id 16) by zlia.
Qed.

Lemma removeUntilIncl_loop_simple fuel h l last z :
  holds h l last → Exists (λ c, z < num c) l → (length l < fuel)%nat →
  ∃ h', removeUntilIncl_loop fuel (SN z) h = Ok h' ∧ holds h' (filter (λ c, z < num c) l) last ∧ width h' = width h.
Proof.
  revert h l. induction fuel as [|fuel IH]; intros h l Ho Hex Hf; [lia|]. cbn [removeUntilIncl_loop].
  destruct l as [|c l]; [by apply Exists_nil in Hex|]. pose proof Ho as [R _ _ Hi Hs]. rewrite (ring_first _ _ _ R). res_simpl.
  apply Forall_cons in Hi as [[Hsn _] _]. rewrite Hsn, sn_leb_SN. rewrite filter_cons. destruct (Z.leb_spec (num c) z) as [Hle|Hgt].
  - rewrite decide_False by lia. unfold incrementTail. rewrite (ring_empty _ _ R), bool_decide_false by done.
    pose proof (ring_pop h c l (m_head h) R eq_refl) as R1.
    destruct (IH _ l (holds_ring h _ _ _ last Ho R1 eq_refl ltac:(by apply sublist_cons))) as (h2 & -> & Ho2 & Hw2).
    + apply Exists_cons in Hex as [?|?]; [lia|done].
    + cbn in Hf. lia.
    + exists h2. conj; [done|done|by rewrite Hw2].
  - rewrite decide_True by done. exists h. conj; [done| |done]. replace (filter (λ x, z < num x) l) with l; [done|].
    inversion Hs as [|? ? _ HF]; subst. clear -Hgt HF. induction HF as [|x l Hx _ IH]; [done|]. rewrite filter_cons, decide_True by lia. by f_equal.
Qed.

Lemma removeUntilIncl_simple fuel h l last z :
  holds h l last → consecutive l last → (length l < fuel)%nat →
  ∃ h', removeUntilIncl fuel (SN z) h = Ok h' ∧ holds h' (filter (λ c, z < num c) l) last ∧ width h' = width h.
Proof.
  intros Ho Hc Hf. unfold removeUntilIncl. pose proof Ho as [R Hl Hr Hi Hs]. rewrite (ring_empty _ _ R).
  destruct l as [|c0 l].
  { rewrite bool_decide_true by done. by exists h. }
  rewrite bool_decide_false by done. rewrite (getSeqNumMax_ok _ _ _ Ho). cbn [last_num]. rewrite sn_leb_SN. destruct (Z.leb_spec last z) as [Hle|Hgt].
  - destruct (holds_all_gone h (c0 :: l) last z Ho Hle) as [-> Ho']. by eexists.
  - apply removeUntilIncl_loop_simple; [done| |done].
    destruct (exists_last (l := c0 :: l)) as (l' & x & E); [done|]. rewrite E in Hc |- *.
    apply Exists_app. right. constructor. rewrite (Hc (length l') x) by (by apply list_lookup_middle).
    rewrite zlen_app, zlen_cons, zlen_nil. unfold zlen. lia.
Qed.
End simple.
