(* ===== verification/HistoryTheorems.v ===== *)
(** * RTPS: the histories as sequences of changes

    What a user of a history relies on: any sequence of operations on the ring answers like the
    same operations on a list of changes in the order of their numbers - in the history of stateful writers up to the
    removals for which its loop never ends. *)

From S2P Require Import Prelude RtpsTypes RtpsBuffer HistoryCache HistoryCorrect.
Local Open Scope Z_scope.

Section spec.
Context {B : Type} `{MessageBuffer B}.
Implicit Types (h : HistoryCache B) (l : list (CacheChange B)) (c : CacheChange B).

Inductive history_op :=
  | OpAdd (bytes : list Z) (inLineQoS disposeAfterWrite : bool)
  | OpGet (z : Z)
  | OpKind (z : Z) (k : ChangeKind_t)
  | OpDrop (z : Z)
  | OpRemove (z : Z)
  | OpClear.

Inductive answer := Change (o : option (CacheChange B)) | Found (b : bool) | Done.

Definition with_kind (k : ChangeKind_t) c : CacheChange B :=
  mkChange k (inLineQoS c) (diposeAfterWrite c) (sequenceNumber c) (data c).

(** The operations on a list of changes and the last number given out. *)
Definition spec (SIZE : Z) (o : history_op) (s : list (CacheChange B) * Z) : answer * (list (CacheChange B) * Z) :=
  let '(l, last) := s in
  match o with
  | OpAdd bytes q d =>
      let c := mkChange ALIVE q d (SN (last + 1)) (new_data bytes) in
      (Change (Some c), ((if zlen l =? SIZE then drop 1 l else l) ++ [c], last + 1))
  | OpGet z => (Change (snd <$> list_find (λ c, num c = z) l), s)
  | OpKind z k => (Found (bool_decide (Exists (λ c, num c = z) l)), ((λ c, if decide (num c = z) then with_kind k c else c) <$> l, last))
  | OpDrop z => (Found (bool_decide (Exists (λ c, num c = z) l)), (filter (λ c, num c ≠ z) l, last))
  | OpRemove z => (Done, (filter (λ c, z < num c) l, last))
  | OpClear => (Done, ([], 0))
  end.

Fixpoint spec_run (SIZE : Z) (ops : list history_op) (s : list (CacheChange B) * Z) : list answer * (list (CacheChange B) * Z) :=
  match ops with
  | [] => ([], s)
  | o :: ops => let '(a, s) := spec SIZE o s in let '(la, s) := spec_run SIZE ops s in (a :: la, s)
  end.

(** A pointer is followed. *)
Definition follow (i : option Z) h : res (option (CacheChange B)) :=
  match i with Some i => c ← change_at i h; Ok (Some c) | None => Ok None end.

Definition deletion_step (o : history_op) h : res (answer * HistoryCache B) :=
  match o with
  | OpAdd bytes q d => '(i, h) ← addChange bytes q d h; c ← follow (Some i) h; Ok (Change c, h)
  | OpGet z => i ← WithDeletion.getChangeBySN (SN z) h; c ← follow i h; Ok (Change c, h)
  | OpKind z k => '(b, h) ← WithDeletion.setCacheChangeKind (SN z) k h; Ok (Found b, h)
  | OpDrop z => '(b, h) ← WithDeletion.dropChange (SN z) h; Ok (Found b, h)
  | OpRemove z => h ← WithDeletion.removeUntilIncl (length (m_buffer h)) (SN z) h; Ok (Done, h)
  | OpClear => Ok (Done, clear h)
  end.

Fixpoint deletion_run (ops : list history_op) h : res (list answer * HistoryCache B) :=
  match ops with
  | [] => Ok ([], h)
  | o :: ops => '(a, h) ← deletion_step o h; '(la, h) ← deletion_run ops h; Ok (a :: la, h)
  end.

(** ** The lemmas of [HistoryCorrect] in terms of the list *)

Lemma holds_new SIZE : 0 < Z.of_nat SIZE < 2 ^ 16 → holds (HistoryCache_new SIZE) [] 0 ∧ width (HistoryCache_new SIZE) = Z.of_nat SIZE + 1.
Proof.
  intros HS. assert (width (HistoryCache_new SIZE) = Z.of_nat SIZE + 1) as Hw.
  { unfold width, zlen, HistoryCache_new. cbn [m_buffer]. rewrite length_replicate. lia. }
  split; [|done]. assert (0 ≤ m_tail (HistoryCache_new SIZE) < width (HistoryCache_new SIZE)) by (rewrite Hw; cbn; lia).
  constructor; [|done|lia|constructor..]. constructor; rewrite ?Hw; try done.
  - lia.
  - rewrite <- Hw. done.
  - rewrite zlen_nil. lia.
Qed.

Lemma num_unique h l last j k c c' :
  holds h l last → l !! j = Some c → l !! k = Some c' → num c = num c' → j = k.
Proof.
  intros [_ _ _ _ Hs] Hj Hk Hn. revert j k Hj Hk. induction Hs as [|x l _ IH HF]; intros j k Hj Hk; [done|].
  rewrite Forall_forall in HF. destruct j as [|j], k as [|k]; cbn in Hj, Hk; [done| | |f_equal; by apply IH].
  - injection Hj as ->. apply list_elem_of_lookup_2 in Hk. specialize (HF _ Hk). lia.
  - injection Hk as ->. apply list_elem_of_lookup_2 in Hj. specialize (HF _ Hj). lia.
Qed.

Lemma fmap_at h l last k c g :
  holds h l last → l !! k = Some c → (λ x, if decide (num x = num c) then g x else x) <$> l = <[k := g c]> l.
Proof.
  intros Ho Hk. apply list_eq. intros j. rewrite list_lookup_fmap. destruct (decide (j = k)) as [->|Hne].
  - rewrite Hk, list_lookup_insert_eq by (by eapply lookup_lt_Some). cbn. by rewrite decide_True.
  - rewrite list_lookup_insert_ne by done. destruct (l !! j) as [x|] eqn:Hj; [|done]. cbn. rewrite decide_False; [done|].
    intros E. by eapply Hne, num_unique.
Qed.

Lemma filter_at h l1 c l2 last : holds h (l1 ++ c :: l2) last → filter (λ x, num x ≠ num c) (l1 ++ c :: l2) = l1 ++ l2.
Proof.
  intros [_ _ _ _ Hs]. apply sorted_app in Hs as (_ & Hs & Hlt). rewrite filter_app, filter_cons, decide_False by auto.
  f_equal; apply filter_everything.
  - apply Forall_forall. intros x Hx. assert (num x < num c) by (apply Hlt; [done|by left]). lia.
  - inversion Hs as [|? ? _ HF]; subst. eapply Forall_impl; [exact HF|]. intros x ?. cbn in *. lia.
Qed.

Lemma in_list_dec l z : (∃ k c, l !! k = Some c ∧ num c = z ∧ bool_decide (Exists (λ c, num c = z) l) = true) ∨
  (Forall (λ c, num c ≠ z) l ∧ bool_decide (Exists (λ c, num c = z) l) = false).
Proof.
  destruct (decide (Exists (λ c, num c = z) l)) as [E|E].
  - left. pose proof E as (c & Hc & Hn)%Exists_exists. apply list_elem_of_lookup_1 in Hc as [k Hk]. exists k, c.
    rewrite bool_decide_true by done. done.
  - right. rewrite bool_decide_false by done. split; [|done]. by apply not_Exists_Forall in E; [|tc_solve].
Qed.

Lemma fmap_none l z g : Forall (λ c, num c ≠ z) l → (λ x, if decide (num x = z) then g x else x) <$> l = l.
Proof. induction 1 as [|x l Hx _ IH]; [done|]. cbn. rewrite decide_False by done. by f_equal. Qed.

(** Deleting a number, whether it is there or not. *)
Lemma dropChange_any h l last z :
  holds h l last →
  ∃ h', WithDeletion.dropChange (SN z) h = Ok (bool_decide (Exists (λ c, num c = z) l), h') ∧ holds h' (filter (λ c, num c ≠ z) l) last ∧ width h' = width h ∧
    (stale h l last → stale h' (filter (λ c, num c ≠ z) l) last).
Proof.
  intros Ho. destruct (in_list_dec l z) as [(j & c & Hj & <- & ->)|[Hn ->]].
  - rewrite <- (take_drop_middle l j c Hj) in Ho |- *. destruct (dropChange_ok _ _ _ _ _ Ho) as (h' & -> & Ho' & Hw' & Hsh). exists h'. rewrite (filter_at _ _ _ _ _ Ho). conj; [done..|].
    intros Hs. eapply stale_shifted; [exact Ho|done..| |rewrite !zlen_app, zlen_cons; lia]. apply sublist_app; [done|by apply sublist_cons].
  - rewrite (dropChange_absent _ _ _ _ Ho Hn). exists h. rewrite filter_everything by done. by conj.
Qed.

(** ** Histories that are stuck *)

(** The removal up to [z] of all changes of a history whose last ones were deleted: no change is above [z], and the last number
    given out is; and what stands at the end of the ring is not above [z] either. *)
Definition stuck h l (last z : Z) : Prop :=
  l ≠ [] ∧ z < last ∧ Forall (λ c, num c ≤ z) l ∧ ∃ c, change_at (m_head h) h = Ok c ∧ sn_leb (sequenceNumber c) (SN z) = true.

Lemma addChange_stale h l last bytes q d place h' :
  holds h l last → stale h l last → addChange bytes q d h = Ok (place, h') →
  let c := mkChange ALIVE q d (SN (last + 1)) (new_data bytes) in
  holds h' (make_room h l ++ [c]) (last + 1) → width h' = width h → stale h' (make_room h l ++ [c]) (last + 1).
Proof.
  intros Ho Hs E c Ho' Hw k x Hk Hx. pose proof Ho as [R _ _ Hi Hst]. pose proof R as [Hwd Ht Hlen Hh Hit]. pose proof (ring_isFull _ _ R) as Hf. pose proof (zlen_nonneg l).
  pose proof (ho_ring _ _ _ Ho') as R'. rewrite Hw in Hk. unfold addChange in E. res_inv. unfold put_at, incrementHead in *. cbn [m_head m_tail set_last] in *.
  change (incrementIterator ?i (set_last _ h)) with (incrementIterator i h) in *. unfold isFull in Hf. rewrite Hf in *. res_inv. simplify_eq.
  assert (num c = last + 1) as Hc by apply sn_val_SN.
  unfold make_room in *. destruct (Z.eqb_spec (zlen l) (width h - 1)) as [E|E].
  - destruct l as [|c0 l]; [rewrite zlen_nil in E; lia|]. cbn [drop] in *. rewrite drop_0 in *. rewrite zlen_app, !zlen_cons, zlen_nil in *.
    replace k with (zlen (l ++ [c])) in Hx by (rewrite zlen_app, zlen_cons, zlen_nil; lia). unfold slot in Hx. rewrite <- (rg_head _ _ R') in Hx.
    cbn [m_head set_buffer set_ends m_buffer] in Hx. apply Z.eqb_eq in Hf. rewrite Hf, <- (pos_0 h Ht) in Hx.
    rewrite list_lookup_insert_ne in Hx by (rewrite Hh; intros E'; apply Z2Nat.inj in E'; [apply pos_inj in E'|apply pos_range..]; lia).
    change (Z.to_nat (pos h 0)) with (Z.to_nat (pos h (Z.of_nat 0))) in Hx. rewrite (Hit 0%nat c0 eq_refl) in Hx. injection Hx as <-.
    apply Forall_cons in Hi as [[Hsn Hn] Hi]. split; [done|]. split; [lia|]. inversion Hst as [|? ? _ HF]; subst. apply Forall_app. split; [done|]. constructor; [lia|constructor].
  - rewrite zlen_app, zlen_cons, zlen_nil in Hk. apply (behind_sub l _ last); [|intros y [Hy| ->%list_elem_of_singleton]%elem_of_app; [by left|right; lia]|lia].
    apply (Hs k); [lia|]. rewrite <- Hx. unfold slot. cbn [set_buffer set_ends m_buffer]. symmetry.
    match goal with |- context [pos (set_buffer ?b ?h1) k] => assert (pos (set_buffer b h1) k = pos h k) as -> by (unfold pos; by rewrite Hw) end.
    rewrite list_lookup_insert_ne; [done|]. rewrite Hh. intros E'; apply Z2Nat.inj in E'; [apply pos_inj in E'|apply pos_range..]; lia.
Qed.

Lemma removeUntilIncl_ok h l last z :
  holds h l last →
  (∃ h', WithDeletion.removeUntilIncl (length (m_buffer h)) (SN z) h = Ok h' ∧ holds h' (filter (λ c, z < num c) l) last ∧ width h' = width h ∧
    (stale h l last → stale h' (filter (λ c, z < num c) l) last)) ∨
  (stuck h l last z ∧ ∀ fuel, WithDeletion.removeUntilIncl fuel (SN z) h = Err OutOfFuel).
Proof.
  intros Ho. pose proof Ho as [R Hl Hr Hi Hst]. pose proof (zlen_nonneg l). unfold WithDeletion.removeUntilIncl. rewrite (ring_empty _ _ R), (getSeqNumMax_ok _ _ _ Ho).
  destruct (decide (l = [])) as [->|Hne]; [rewrite bool_decide_true by done; left; by exists h|]. rewrite bool_decide_false by done.
  assert (last_num l last = last) as -> by (by destruct l). rewrite sn_leb_SN.
  assert (length l < length (m_buffer h))%nat as Hfuel by (pose proof (rg_length _ _ R); unfold width, zlen in *; lia).
  destruct (Z.leb_spec last z) as [Hle|Hgt].
  { destruct (holds_all_gone h l last z Ho Hle) as [-> Ho']. left. eexists. conj; [done..|]. intros Hs k c Hk Hc. change (slot h k = Some c) in Hc. change (0 ≤ k < width h) in Hk.
    destruct (decide (k < zlen l)) as [Hin|Hout].
    - destruct (lookup_lt_is_Some_2 l (Z.to_nat k)) as [x Hx]; [unfold zlen in *; lia|]. pose proof (rg_items _ _ R _ _ Hx) as Hx'. rewrite Z2Nat.id in Hx' by lia.
      unfold slot in Hc. rewrite Hx' in Hc. injection Hc as <-. pose proof (Forall_lookup_1 _ _ _ _ Hi Hx) as [? ?]. split; [done|]. split; [lia|constructor].
    - eapply behind_sub; [apply (Hs k c); [lia|done]|by intros ? ?%not_elem_of_nil|lia]. }
  destruct (decide (Exists (λ c, z < num c) l)) as [Hex|Hex].
  - left. destruct (removeUntilIncl_loop_ok _ _ _ _ _ Ho Hex Hfuel) as (h' & E & Ho' & Hw'). exists h'. conj; [done..|]. intros Hs.
    by eapply removeUntilIncl_loop_stale.
  - assert (Forall (λ c, num c ≤ z) l) as Hall.
    { apply not_Exists_Forall in Hex; [|tc_solve]. eapply Forall_impl; [exact Hex|]. intros x ?. cbn in *. lia. }
    destruct (slot_some h l (zlen l) R) as [c Hc]; [pose proof (rg_length _ _ R); lia|]. pose proof (removeUntilIncl_loop_all z l h last c Ho Hall Hc) as Hloop.
    destruct (sn_leb (sequenceNumber c) (SN z)) eqn:Hle.
    + right. split; [|done]. split; [done|]. split; [done|]. split; [done|]. exists c. split; [|done]. unfold change_at. rewrite (rg_head _ _ R). unfold slot in Hc. by rewrite Hc.
    + left. destruct (Hloop _ Hfuel) as (h' & E & Ho' & Hw'). exists h'. rewrite filter_nothing by (eapply Forall_impl; [exact Hall|]; intros x ?; cbn in *; lia).
      conj; [done..|]. intros Hs. destruct (Hs (zlen l) c) as (Hsn & Hn & HF); [pose proof (rg_length _ _ R); lia|done|]. exfalso.
      rewrite Hsn, sn_leb_SN in Hle. destruct l as [|x l]; [done|]. apply Forall_cons in HF as [? _], Hall as [? _]. lia.
Qed.

(** A history that was never cleared is stuck whenever its changes allow it. *)
Lemma stale_stuck h l last z : holds h l last → stale h l last → l ≠ [] → z < last → Forall (λ c, num c ≤ z) l → stuck h l last z.
Proof.
  intros Ho Hs Hne Hlt Hall. pose proof (ho_ring _ _ _ Ho) as R. pose proof (rg_length _ _ R). pose proof (zlen_nonneg l). split; [done|]. split; [done|]. split; [done|].
  destruct (slot_some h l (zlen l) R) as [c Hc]; [lia|]. exists c. split; [unfold change_at; rewrite (rg_head _ _ R); unfold slot in Hc; by rewrite Hc|].
  destruct (Hs (zlen l) c) as (-> & Hn & HF); [lia|done|]. rewrite sn_leb_SN. destruct l as [|x l]; [done|]. apply Forall_cons in HF as [? _], Hall as [? _]. lia.
Qed.

Lemma stuck_diverges h l last z fuel : holds h l last → stuck h l last z → WithDeletion.removeUntilIncl fuel (SN z) h = Err OutOfFuel.
Proof.
  intros Ho (Hne & Hlt & Hall & c & Hc & Hle). pose proof Ho as [R _ _ _ _]. unfold WithDeletion.removeUntilIncl.
  rewrite (ring_empty _ _ R), (getSeqNumMax_ok _ _ _ Ho), bool_decide_false by done. assert (last_num l last = last) as -> by (by destruct l).
  rewrite sn_leb_SN, (proj2 (Z.leb_gt _ _)) by done.
  assert (slot h (zlen l) = Some c) as Hs by (unfold change_at in Hc; rewrite (rg_head _ _ R) in Hc; unfold slot; destruct (m_buffer h !! _); simplify_eq/=; done).
  pose proof (removeUntilIncl_loop_all z l h last c Ho Hall Hs) as Hd. by rewrite Hle in Hd.
Qed.

Lemma stale_new SIZE : stale (HistoryCache_new SIZE) [] 0.
Proof.
  intros k c _ Hc. unfold slot, HistoryCache_new in Hc. cbn [m_buffer] in Hc. apply lookup_replicate in Hc as [-> _]. split; [done|]. split; [|constructor]. by vm_compute.
Qed.

(** ** One step *)

Lemma deletion_step_ok SIZE o h l last :
  holds h l last → width h = SIZE + 1 → last + 1 < 2 ^ 62 →
  let '(a, (l', last')) := spec SIZE o (l, last) in
  (∃ h', deletion_step o h = Ok (a, h') ∧ holds h' l' last' ∧ width h' = SIZE + 1 ∧ (stale h l last → o ≠ OpClear → stale h' l' last')) ∨
  (∃ z, o = OpRemove z ∧ stuck h l last z ∧ deletion_step o h = Err OutOfFuel).
Proof.
  intros Ho Hw Hlast. destruct o as [bytes q d|z|z k|z|z|]; cbn [spec deletion_step].
  - left. destruct (addChange_ok h l last bytes q d Ho Hlast) as (i & h' & E & Ho' & Hw' & Hat). rewrite E. res_simpl. cbn [follow]. rewrite Hat. res_simpl.
    replace SIZE with (width h - 1) by lia. fold (make_room h l). exists h'. conj; [done|done|lia|]. intros Hs _. by eapply addChange_stale.
  - left. exists h. conj; [|done..]. destruct (WithDeletion.getChangeBySN (SN z) h) as [[i|]|] eqn:E.
    + destruct (getChangeBySN_at _ _ _ _ _ Ho E) as (k & c & Hk & Hn & -> & Hat). res_simpl. cbn [follow]. rewrite Hat. res_simpl. do 3 f_equal.
      symmetry. apply fmap_Some. exists (k, c). split; [|done]. apply list_find_Some. conj; [done..|]. intros j y Hj Hlt Hy.
      assert (j = k); [|lia]. eapply (num_unique h l last); [done..|by rewrite Hy].
    + res_simpl. cbn [follow]. res_simpl. rewrite (getChangeBySN_ok _ _ _ _ Ho) in E. by destruct (list_find _ l).
    + rewrite (getChangeBySN_ok _ _ _ _ Ho) in E. done.
  - left. destruct (in_list_dec l z) as [(j & c & Hj & <- & ->)|[Hn ->]].
    + destruct (setCacheChangeKind_ok _ _ _ _ _ k Ho Hj) as (h' & -> & Ho' & Hw' & Hsl). res_simpl. exists h'.
      pose proof (fmap_at _ _ _ _ _ (with_kind k) Ho Hj) as Ef. conj; [done|by rewrite Ef|by rewrite Hw'|]. intros Hs _ i x Hi Hx. unfold zlen in Hi. rewrite length_fmap in Hi. fold (zlen l) in Hi.
      rewrite Hsl in Hx by lia. destruct (Hs i x) as (? & ? & HF); [lia|done|]. split; [done|]. split; [done|]. apply Forall_fmap. eapply Forall_impl; [exact HF|]. intros y ?. cbn. by case_decide.
    + unfold WithDeletion.setCacheChangeKind. rewrite (getChangeBySN_ok _ _ _ _ Ho), (proj2 (list_find_None _ _) Hn). res_simpl.
      exists h. by rewrite fmap_none.
  - left. destruct (dropChange_any h l last z Ho) as (h' & -> & Ho' & Hw' & Hs). res_simpl. exists h'. conj; [done..|by rewrite Hw'|auto].
  - destruct (removeUntilIncl_ok h l last z Ho) as [(h' & -> & Ho' & Hw' & Hs)|[Hs E]]; [left|right]; res_simpl.
    + exists h'. conj; [done..|by rewrite Hw'|auto].
    + exists z. by rewrite E.
  - left. exists (clear h). conj; [done| |done|done]. by eapply holds_clear.
Qed.

Lemma spec_last SIZE o l last : (spec SIZE o (l, last)).2.2 ≤ Z.max 0 last + 1.
Proof. destruct o; cbn; lia. Qed.

Lemma deletion_run_ok SIZE ops : ∀ h l last,
  holds h l last → width h = SIZE + 1 → last + Z.of_nat (length ops) < 2 ^ 62 →
  let '(la, (l', last')) := spec_run SIZE ops (l, last) in
  (∃ h', deletion_run ops h = Ok (la, h') ∧ holds h' l' last' ∧ width h' = SIZE + 1 ∧ (stale h l last → Forall (λ o, o ≠ OpClear) ops → stale h' l' last')) ∨
  (deletion_run ops h = Err OutOfFuel ∧ ∃ ops1 z ops2, ops = ops1 ++ OpRemove z :: ops2 ∧
    let '(la1, (l1, last1)) := spec_run SIZE ops1 (l, last) in ∃ h1, deletion_run ops1 h = Ok (la1, h1) ∧ holds h1 l1 last1 ∧ stuck h1 l1 last1 z).
Proof.
  induction ops as [|o ops IH]; intros h l last Ho Hw Hlast; cbn [spec_run deletion_run length] in *; [left; by exists h|].
  pose proof (deletion_step_ok SIZE o h l last Ho Hw ltac:(lia)) as Hstep. pose proof (spec_last SIZE o l last) as Hle. pose proof (ho_range _ _ _ Ho).
  destruct (spec SIZE o (l, last)) as [a [l1 last1]] eqn:Es. cbn [snd] in Hle. destruct (spec_run SIZE ops (l1, last1)) as [la [l2 last2]] eqn:Er.
  destruct Hstep as [(h1 & E1 & Ho1 & Hw1 & Hs1)|(z & -> & Hst & E)].
  2: { right. rewrite E. res_simpl. split; [done|]. exists [], z, ops. split; [done|]. by exists h. }
  rewrite E1. res_simpl. specialize (IH h1 l1 last1 Ho1 Hw1 ltac:(lia)). rewrite Er in IH. destruct IH as [(h2 & E2 & Ho2 & Hw2 & Hs2)|(E2 & ops1 & z & ops2 & -> & Hrun)]; rewrite E2; res_simpl.
  - left. exists h2. conj; [done..|]. intros Hs [? ?]%Forall_cons. auto.
  - right. split; [done|]. exists (o :: ops1), z, ops2. split; [done|]. cbn [spec_run deletion_run]. rewrite Es, E1. res_simpl.
    destruct (spec_run SIZE ops1 (l1, last1)) as [la1 [l3 last3]]. destruct Hrun as (h3 & E3 & ? & ?). exists h3. by rewrite E3.
Qed.

Lemma deletion_run_app ops1 ops2 h :
  deletion_run (ops1 ++ ops2) h = '(la1, h1) ← deletion_run ops1 h; '(la2, h2) ← deletion_run ops2 h1; Ok (la1 ++ la2, h2).
Proof.
  revert h. induction ops1 as [|o ops1 IH]; intros h; cbn [app deletion_run]; [res_simpl; by destruct (deletion_run ops2 h) as [[]|]|].
  destruct (deletion_step o h) as [[a h1]|]; res_simpl; [|done]. rewrite IH. destruct (deletion_run ops1 h1) as [[la1 h2]|]; res_simpl; [|done].
  by destruct (deletion_run ops2 h2) as [[]|].
Qed.

(** ** The cache that computes places *)

(** [SimpleHistoryCache] cannot lose a change in the middle; and it may not be asked for
    [SEQUENCENUMBER_UNKNOWN], see [unknown_found] below. *)
Definition simple_op (o : history_op) : bool :=
  match o with OpDrop _ => false | OpGet z | OpKind z _ => negb (z =? - 2 ^ 32) | _ => true end.

Definition simple_step (o : history_op) h : res (answer * HistoryCache B) :=
  match o with
  | OpAdd bytes q d => '(i, h) ← addChange bytes q d h; c ← follow (Some i) h; Ok (Change c, h)
  | OpGet z => i ← Simple.getChangeBySN (SN z) h; c ← follow i h; Ok (Change c, h)
  | OpKind z k => '(b, h) ← Simple.setCacheChangeKind (SN z) k h; Ok (Found b, h)
  | OpRemove z => h ← Simple.removeUntilIncl (length (m_buffer h)) (SN z) h; Ok (Done, h)
  | OpClear => Ok (Done, clear h)
  | OpDrop _ => Err Undefined
  end.

Fixpoint simple_run (ops : list history_op) h : res (list answer * HistoryCache B) :=
  match ops with
  | [] => Ok ([], h)
  | o :: ops => '(a, h) ← simple_step o h; '(la, h) ← simple_run ops h; Ok (a :: la, h)
  end.

Lemma consecutive_drop l last n : consecutive l last → consecutive (drop n l) last.
Proof.
  intros Hc k c Hk. rewrite lookup_drop in Hk. rewrite (Hc _ _ Hk). apply lookup_lt_Some in Hk. unfold zlen. rewrite length_drop. lia.
Qed.

Lemma filter_drop l z : StronglySorted (λ a b, num a < num b) l → ∃ n, filter (λ c, z < num c) l = drop n l.
Proof.
  induction 1 as [|x l Hs [n IH] HF]; [by exists 0%nat|]. rewrite filter_cons. case_decide as E; [|by exists (S n)].
  exists 0%nat. rewrite filter_everything; [done|]. eapply Forall_impl; [exact HF|]. intros y ?. cbn in *. lia.
Qed.

Lemma consecutive_fmap l last (g : CacheChange B → CacheChange B) : (∀ c, num (g c) = num c) → consecutive l last → consecutive (g <$> l) last.
Proof.
  intros Hg Hc k x Hk. rewrite list_lookup_fmap in Hk. apply fmap_Some in Hk as (c & Hk & ->). rewrite Hg, (Hc _ _ Hk).
  unfold zlen. by rewrite length_fmap.
Qed.

Lemma consecutive_lookup h l last z :
  holds h l last → consecutive l last → l ≠ [] →
  (last - zlen l < z ≤ last ∧ ∃ c, l !! Z.to_nat (z - (last - zlen l + 1)) = Some c ∧ num c = z) ∨
  (¬ (last - zlen l < z ≤ last) ∧ Forall (λ c, num c ≠ z) l).
Proof.
  intros Ho Hc Hne. destruct (decide (last - zlen l < z ≤ last)) as [Hin|Hout].
  - left. split; [done|]. destruct (lookup_lt_is_Some_2 l (Z.to_nat (z - (last - zlen l + 1)))) as [c Hk]; [unfold zlen in *; lia|].
    exists c. split; [done|]. rewrite (Hc _ _ Hk). lia.
  - right. split; [done|]. apply Forall_forall. intros c [k Hk]%list_elem_of_lookup_1. rewrite (Hc _ _ Hk).
    pose proof (zlen_lookup _ _ _ Hk). lia.
Qed.

(** The place of the change with a number, as for the other cache. *)
Lemma getChangeBySN_simple h l last z :
  holds h l last → consecutive l last → width h ≤ 2 ^ 15 → z ≠ - 2 ^ 32 →
  Simple.getChangeBySN (SN z) h = WithDeletion.getChangeBySN (SN z) h.
Proof.
  intros Ho Hc Hw Hz. destruct (decide (l = [])) as [->|Hne].
  { rewrite (getChangeBySN_ok _ _ _ _ Ho). unfold Simple.getChangeBySN. rewrite (getSeqNumMin_ok _ _ _ Ho), (getSeqNumMax_ok _ _ _ Ho).
    res_simpl. cbn [first_num last_num]. rewrite !sn_ltb_SN. by destruct (Z.ltb_spec z (- 2 ^ 32)), (Z.ltb_spec (- 2 ^ 32) z); try lia. }
  rewrite (getChangeBySN_consecutive _ _ _ _ Ho Hc Hw Hne), (getChangeBySN_ok _ _ _ _ Ho). f_equal.
  destruct (consecutive_lookup h l last z Ho Hc Hne) as [[Hin (c & Hk & Hn)]|[Hout Hn]].
  - rewrite (proj2 (Z.ltb_lt _ _)), (proj2 (Z.leb_le _ _)) by lia. cbn [andb].
    destruct (list_find _ l) as [[j x]|] eqn:E.
    + apply list_find_Some in E as (Hj & Hx & _). cbn. do 2 f_equal.
      assert (j = Z.to_nat (z - (last - zlen l + 1))); [|lia]. eapply (num_unique h l last); [done..|]. by rewrite Hx.
    + apply list_find_None in E. apply (Forall_lookup_1 _ _ _ _ E) in Hk. done.
  - rewrite (proj2 (list_find_None _ _) Hn). cbn [fmap option_fmap option_map].
    destruct (Z.ltb_spec (last - zlen l) z), (Z.leb_spec z last); cbn [andb]; try done. lia.
Qed.

Lemma setCacheChangeKind_simple h l last z k :
  holds h l last → consecutive l last → width h ≤ 2 ^ 15 → z ≠ - 2 ^ 32 →
  Simple.setCacheChangeKind (SN z) k h = WithDeletion.setCacheChangeKind (SN z) k h.
Proof. intros. unfold Simple.setCacheChangeKind. by erewrite getChangeBySN_simple. Qed.

Lemma simple_step_ok SIZE o h l last :
  holds h l last → consecutive l last → width h = SIZE + 1 → SIZE < 2 ^ 15 → simple_op o = true → last + 1 < 2 ^ 62 →
  let '(a, (l', last')) := spec SIZE o (l, last) in
  ∃ h', simple_step o h = Ok (a, h') ∧ holds h' l' last' ∧ consecutive l' last' ∧ width h' = SIZE + 1.
Proof.
  intros Ho Hc Hw HS Hop Hlast. pose proof Ho as [_ _ _ _ Hsort]. pose proof (deletion_step_ok SIZE o h l last Ho Hw Hlast) as Hs.
  assert (let '(_, (l', last')) := spec SIZE o (l, last) in consecutive l' last') as Hc'.
  { destruct o as [bytes q d|z|z k|z|z|]; cbn [spec simple_op] in *; try discriminate; try done.
    - replace SIZE with (width h - 1) by lia. apply (consecutive_snoc h); [done|]. apply sn_val_SN.
    - apply consecutive_fmap; [|done]. intros c. by case_decide.
    - destruct (filter_drop l z Hsort) as [n ->]. by apply consecutive_drop. }
  assert (simple_step o h = deletion_step o h ∧ (∀ z, o ≠ OpRemove z) ∨ ∃ z, o = OpRemove z) as [[E Hne]|[z ->]].
  { destruct o as [bytes q d|z|z k|z|z|]; cbn [simple_op simple_step deletion_step] in *; [by left| | |done|by eauto|by left].
    - left. erewrite getChangeBySN_simple; [done..|lia|]. intros ->. discriminate.
    - left. erewrite setCacheChangeKind_simple; [done..|lia|]. intros ->. discriminate. }
  - destruct (spec SIZE o (l, last)) as [a [l' last']]. rewrite E. destruct Hs as [(h' & ? & ? & ? & _)|(z & -> & _)]; [by exists h'|by destruct (Hne z)].
  - cbn [spec simple_step] in *.
    destruct (removeUntilIncl_simple (length (m_buffer h)) h l last z Ho Hc) as (h' & -> & Ho' & Hw').
    { pose proof (rg_length _ _ (ho_ring _ _ _ Ho)). unfold width, zlen in *. lia. }
    res_simpl. exists h'. conj; [done..|by rewrite Hw'].
Qed.

Lemma simple_run_ok SIZE ops : ∀ h l last,
  holds h l last → consecutive l last → width h = SIZE + 1 → SIZE < 2 ^ 15 → Forall (λ o, simple_op o = true) ops → last + Z.of_nat (length ops) < 2 ^ 62 →
  let '(la, (l', last')) := spec_run SIZE ops (l, last) in
  ∃ h', simple_run ops h = Ok (la, h') ∧ holds h' l' last' ∧ consecutive l' last' ∧ width h' = SIZE + 1.
Proof.
  induction ops as [|o ops IH]; intros h l last Ho Hc Hw HS Hops Hlast; cbn [spec_run simple_run length] in *; [by exists h|].
  apply Forall_cons in Hops as [Hop Hops]. pose proof (spec_last SIZE o l last) as Hle. pose proof (ho_range _ _ _ Ho).
  pose proof (simple_step_ok SIZE o h l last Ho Hc Hw HS Hop ltac:(lia)) as Hstep. destruct (spec SIZE o (l, last)) as [a [l1 last1]]. cbn [snd] in Hle.
  destruct Hstep as (h1 & -> & Ho1 & Hc1 & Hw1). res_simpl. specialize (IH h1 l1 last1 Ho1 Hc1 Hw1 HS Hops ltac:(lia)).
  destruct (spec_run SIZE ops (l1, last1)) as [la [l2 last2]]. destruct IH as (h2 & -> & Ho2 & Hc2 & Hw2). res_simpl. by exists h2.
Qed.

(** ** Properties *)

(** C17 The history of stateful writers is a list of changes, up to the removals it cannot do.  For every sequence of fewer than 2^62
    operations on a new ring of any size (additions that replace the oldest change of a full history,
    searches by number, changes of kind, deletions anywhere, removals up to a number, clearing) one of two holds.  Either the ring gives the same answers as
    the list of the changes in the order of their numbers, without fault, and ends up holding that list.
    Or it does so up to a removal for which the history is [stuck]: all changes are to go, changes with greater numbers were added and
    deleted before, and the place at the end of the ring holds no greater number; the loop of this removal never ends, with whatever fuel.  If the history
    is never cleared the third condition always holds, so a run gets stuck exactly if such a removal occurs in it. *)
Theorem HistoryCacheWithDeletion_correct SIZE ops la l last :
  0 < Z.of_nat SIZE < 2 ^ 16 → Z.of_nat (length ops) < 2 ^ 62 →
  spec_run (Z.of_nat SIZE) ops ([], 0) = (la, (l, last)) →
  ((∃ h, deletion_run ops (HistoryCache_new SIZE) = Ok (la, h) ∧ holds h l last) ∨
   (deletion_run ops (HistoryCache_new SIZE) = Err OutOfFuel ∧
    ∃ ops1 z ops2 la1 l1 last1 h, ops = ops1 ++ OpRemove z :: ops2 ∧ spec_run (Z.of_nat SIZE) ops1 ([], 0) = (la1, (l1, last1)) ∧
      deletion_run ops1 (HistoryCache_new SIZE) = Ok (la1, h) ∧ holds h l1 last1 ∧ stuck h l1 last1 z ∧
      ∀ fuel, WithDeletion.removeUntilIncl fuel (SN z) h = Err OutOfFuel)) ∧
  (Forall (λ o, o ≠ OpClear) ops →
    ∀ ops1 z ops2 la1 l1 last1, ops = ops1 ++ OpRemove z :: ops2 → spec_run (Z.of_nat SIZE) ops1 ([], 0) = (la1, (l1, last1)) →
      l1 ≠ [] → z < last1 → Forall (λ c, num c ≤ z) l1 → deletion_run ops (HistoryCache_new SIZE) = Err OutOfFuel).
Proof.
  intros HS Hn Hs. destruct (holds_new SIZE HS) as [Ho Hw]. split.
  - pose proof (deletion_run_ok _ ops _ _ _ Ho Hw ltac:(lia)) as Hrun. rewrite Hs in Hrun.
    destruct Hrun as [(h & ? & ? & _)|(E & ops1 & z & ops2 & -> & Hrun)]; [left; by exists h|right; split; [done|]].
    destruct (spec_run (Z.of_nat SIZE) ops1 ([], 0)) as [la1 [l1 last1]] eqn:E1. destruct Hrun as (h & ? & Ho1 & Hst). exists ops1, z, ops2, la1, l1, last1, h.
    do 5 (split; [done|]). intros fuel. by apply (stuck_diverges h l1 last1).
  - intros Hcl ops1 z ops2 la1 l1 last1 -> E1 Hne Hlt Hall. rewrite length_app in Hn. apply Forall_app in Hcl as [Hcl _].
    pose proof (deletion_run_ok _ ops1 _ _ _ Ho Hw ltac:(lia)) as Hrun. rewrite E1 in Hrun. rewrite deletion_run_app.
    destruct Hrun as [(h & -> & Ho1 & _ & Hst)|(-> & _)]; [|done]. res_simpl. cbn [deletion_run deletion_step].
    by rewrite (stuck_diverges _ _ _ _ _ Ho1 (stale_stuck _ _ _ _ Ho1 (Hst (stale_new _) Hcl) Hne Hlt Hall)).
Qed.

(** The history of stateless writers, which computes the place of a change from its number,
    gives the same answers as the list as well (up to 2^15 - 1 changes), and the numbers it holds
    are always the last consecutive ones. *)
Theorem SimpleHistoryCache_correct SIZE ops la l last :
  0 < Z.of_nat SIZE < 2 ^ 15 → Forall (λ o, simple_op o = true) ops → Z.of_nat (length ops) < 2 ^ 62 →
  spec_run (Z.of_nat SIZE) ops ([], 0) = (la, (l, last)) →
  ∃ h, simple_run ops (HistoryCache_new SIZE) = Ok (la, h) ∧ holds h l last ∧ num <$> l = (λ k, last - zlen l + 1 + Z.of_nat k) <$> seq 0 (length l).
Proof.
  intros HS Hops Hn Hs. destruct (holds_new SIZE ltac:(lia)) as [Ho Hw].
  assert (consecutive (@nil (CacheChange B)) 0) as Hc by done.
  pose proof (simple_run_ok _ ops _ _ _ Ho Hc Hw ltac:(lia) Hops ltac:(lia)) as Hrun. rewrite Hs in Hrun. destruct Hrun as (h & ? & ? & Hc' & _). exists h. conj; [done..|].
  apply list_eq. intros k. rewrite !list_lookup_fmap. destruct (decide (k < length l)%nat) as [Hk|Hk].
  - rewrite lookup_seq_lt by done. destruct (lookup_lt_is_Some_2 l k Hk) as [c Hkc]. rewrite Hkc. cbn. f_equal. by apply Hc'.
  - rewrite (lookup_ge_None_2 (seq 0 (length l))) by (rewrite length_seq; lia). rewrite (lookup_ge_None_2 l) by lia. done.
Qed.

(** C20 When a history of stateful writers can drop its oldest change: after any operations but clearing, [dropOldest] does nothing to an empty history and
    takes the oldest of two or more changes away.  A single change goes if its number is the last one given out; if changes that were added after it
    have been deleted, [removeUntilIncl] finds the last number above the bound and its loop runs on behind the change for ever. *)
Theorem dropOldest_diverges SIZE ops la l last h :
  0 < Z.of_nat SIZE < 2 ^ 16 → Z.of_nat (length ops) < 2 ^ 62 → Forall (λ o, o ≠ OpClear) ops →
  spec_run (Z.of_nat SIZE) ops ([], 0) = (la, (l, last)) → deletion_run ops (HistoryCache_new SIZE) = Ok (la, h) →
  match l with
  | [] => ∀ fuel, WithDeletion.dropOldest fuel h = Ok h
  | [c] => if num c =? last then ∀ fuel, ∃ h', WithDeletion.dropOldest fuel h = Ok h' ∧ holds h' [] last
           else num c < last ∧ ∀ fuel, WithDeletion.dropOldest fuel h = Err OutOfFuel
  | _ :: l' => ∀ fuel, (length l < fuel)%nat → ∃ h', WithDeletion.dropOldest fuel h = Ok h' ∧ holds h' l' last
  end.
Proof.
  intros HS Hn Hcl Hs Hrun. destruct (holds_new SIZE HS) as [Ho0 Hw0]. pose proof (deletion_run_ok _ ops _ _ _ Ho0 Hw0 ltac:(lia)) as Hr. rewrite Hs in Hr.
  destruct Hr as [(h' & E & Ho & _ & Hst)|(E & _)]; rewrite Hrun in E; [injection E as <-|done]. specialize (Hst (stale_new _) Hcl). pose proof Ho as [R _ _ Hi Hsort].
  unfold WithDeletion.dropOldest. rewrite (getSeqNumMin_ok _ _ _ Ho). res_simpl. unfold WithDeletion.removeUntilIncl. rewrite (ring_empty _ _ R), (getSeqNumMax_ok _ _ _ Ho).
  destruct l as [|c [|c2 l]]; cbn [first_num last_num]; [done| |]; rewrite bool_decide_false by done; rewrite sn_leb_SN; apply Forall_cons in Hi as [[Hsn Hnc] Hi].
  - destruct (Z.eqb_spec (num c) last) as [E|E].
    + rewrite (proj2 (Z.leb_le _ _)) by lia. intros _. eexists. split; [done|]. by apply (holds_all_gone h [c] last last Ho).
    + split; [lia|]. intros fuel. assert (stuck h [c] last (num c)) as Hk by (apply stale_stuck; try done; [lia|by constructor]).
      pose proof (stuck_diverges _ _ _ _ fuel Ho Hk) as Hd. unfold WithDeletion.removeUntilIncl in Hd. rewrite (ring_empty _ _ R), (getSeqNumMax_ok _ _ _ Ho) in Hd.
      rewrite bool_decide_false in Hd by done. cbn [last_num] in Hd. by rewrite sn_leb_SN in Hd.
  - inversion Hsort as [|? ? Hsort' HF]; subst. apply Forall_cons in HF as [Hlt HF], Hi as [[_ ?] _]. rewrite (proj2 (Z.leb_gt _ _)) by lia. intros fuel Hf.
    destruct (removeUntilIncl_loop_ok fuel h (c :: c2 :: l) last (num c) Ho) as (h' & E & Ho' & _); [right; by left|done|]. exists h'. split; [done|].
    rewrite filter_cons, decide_False in Ho' by lia. rewrite filter_everything in Ho'; [done|]. by constructor.
Qed.
End spec.

(** ** At a concrete history *)

Section example.
Definition ex_alloc (n : Z) : option (list Z) := Some (replicate (Z.to_nat n) 0).
#[local] Existing Instance PBufWrapper_buffer.
#[local] Instance ex_buffer : MessageBuffer PBufWrapper := PBufWrapper_buffer ex_alloc.

(** Four additions to a history of three, the change in the middle deleted, then all up to 2. *)
Definition ex_ops : list history_op :=
  [OpAdd [1; 1] false false; OpAdd [2; 2] false false; OpAdd [3; 3] false false; OpAdd [4; 4] false true;
   OpDrop 3; OpGet 2; OpGet 3; OpRemove 2; OpGet 4].

Lemma HistoryCacheWithDeletion_correct_witness :
  ∃ la l, spec_run 3 ex_ops ([], 0) = (la, (l, 4)) ∧ num <$> l = [4] ∧
    ∃ h, deletion_run ex_ops (HistoryCache_new 3) = Ok (la, h) ∧ holds h l 4.
Proof.
  destruct (spec_run 3 ex_ops ([], 0)) as [la [l last]] eqn:E.
  assert (last = 4 ∧ num <$> l = [4]) as [-> Hl] by (vm_compute in E; injection E as <- <- <-; by split).
  exists la, l. split; [done|]. split; [done|].
  destruct (HistoryCacheWithDeletion_correct 3 ex_ops la l 4) as [[?|[Hd _]] _]; [lia|cbn; lia|exact E|done|vm_compute in Hd; discriminate].
Defined.

Definition ex_simple_ops : list history_op :=
  [OpAdd [1; 1] false false; OpAdd [2; 2] false false; OpAdd [3; 3] false false; OpAdd [4; 4] false true;
   OpGet 1; OpGet 4; OpRemove 2; OpGet 3].

Lemma SimpleHistoryCache_correct_witness :
  ∃ la l, spec_run 3 ex_simple_ops ([], 0) = (la, (l, 4)) ∧ num <$> l = [3; 4] ∧
    ∃ h, simple_run ex_simple_ops (HistoryCache_new 3) = Ok (la, h) ∧ holds h l 4.
Proof.
  destruct (spec_run 3 ex_simple_ops ([], 0)) as [la [l last]] eqn:E.
  assert (last = 4 ∧ num <$> l = [3; 4]) as [-> Hl] by (vm_compute in E; injection E as <- <- <-; by split).
  exists la, l. split; [done|]. split; [done|].
  destruct (SimpleHistoryCache_correct 3 ex_simple_ops la l 4) as (h & ? & ? & _); [lia|by repeat constructor|cbn; lia|exact E|by exists h].
Defined.

(** Three changes are added and the last two deleted. *)
Definition ex_stuck_ops : list history_op := [OpAdd [1] false false; OpAdd [2] false false; OpAdd [3] false false; OpDrop 3; OpDrop 2].

Lemma dropOldest_diverges_witness :
  ∃ la c h, spec_run 10 ex_stuck_ops ([], 0) = (la, ([c], 3)) ∧ deletion_run ex_stuck_ops (HistoryCache_new 10) = Ok (la, h) ∧
    num c < 3 ∧ ∀ fuel, WithDeletion.dropOldest fuel h = Err OutOfFuel.
Proof.
  destruct (spec_run 10 ex_stuck_ops ([], 0)) as [la [l last]] eqn:Es. destruct (deletion_run ex_stuck_ops (HistoryCache_new 10)) as [[la' h]|] eqn:E; [|vm_compute in E; discriminate].
  assert (la' = la ∧ last = 3 ∧ ∃ c, l = [c] ∧ num c = 1) as (-> & -> & c & -> & Hc).
  { vm_compute in E, Es. injection E as <- <-. injection Es as <- <- <-. split; [done|]. split; [done|]. eexists. by split. }
  exists la, c, h. split; [done|]. split; [done|].
  pose proof (dropOldest_diverges 10 ex_stuck_ops la [c] 3 h ltac:(lia) ltac:(cbn; lia) ltac:(repeat constructor; discriminate) Es E) as Hd. cbv beta iota in Hd. rewrite Hc in Hd |- *. exact Hd.
Defined.

(** A removal for which the history is stuck. *)
Example removal_stuck : deletion_run (ex_stuck_ops ++ [OpRemove 2]) (HistoryCache_new 10) = Err OutOfFuel.
Proof. vm_compute. reflexivity. Qed.

(** In an empty history of a stateless writer there is a change with the number
    [SEQUENCENUMBER_UNKNOWN], the number such a history reports as its least: the search returns
    the place at the end of the ring, which here holds the removed change with number 3. *)
Theorem unknown_found :
  ∃ la h c, simple_run [OpAdd [1] false false; OpAdd [2] false false; OpAdd [3] false false; OpAdd [4] false false; OpAdd [5] false false;
      OpRemove 5] (HistoryCache_new 3) = Ok (la, h) ∧
    getSeqNumMin h = Ok SEQUENCENUMBER_UNKNOWN ∧
    (i ← Simple.getChangeBySN SEQUENCENUMBER_UNKNOWN h; follow i h) = Ok (Some c) ∧ sequenceNumber c = SN 3.
Proof.
  destruct (simple_run _ (HistoryCache_new 3)) as [[la h]|] eqn:E; [|vm_compute in E; discriminate].
  vm_compute in E. injection E as <- <-. eexists _, _, _. split; [done|]. split; [|split]; vm_compute; reflexivity.
Qed.
End example.
