(* ===== verification/RtpsMessages.v ===== *)
(** * RTPS: submessages and their bytes (src/contrib/embeddedrtps, rtps/messages)

    The structures of MessageTypes.h, the templates that write them to a buffer (over the class
    [MessageBuffer]), the functions that read them from received bytes, and MessageFactory.
    Fields are copied as the machine holds them, little endian ([IS_LITTLE_ENDIAN]).

    A received message is its list of bytes; [src], the bytes from a pointer on.  Reading on
    past the last byte of the message is [Undefined], as the code has no buffer beyond it. *)

From S2P Require Import Prelude RtpsTypes RtpsBuffer.
Local Open Scope Z_scope.

(** ** Words in memory *)

(** A word of [n] bytes; [Z_to_little_endian] takes the low bytes of a negative number, too. *)
Definition le (n : Z) (z : Z) : list Z := Z_to_little_endian n 8 z.
Definition le_val (l : list Z) : Z := little_endian_to_Z 8 l.

(** ** Kinds, flags and structures *)

(** [MessageTypes.h:122-136] SubmessageKind

    An enumeration over [uint8_t]; received bytes are cast to it. *)
Definition ACKNACK : Z := 6.
Definition HEARTBEAT : Z := 7.
Definition GAP : Z := 8.
Definition INFO_TS : Z := 9.
Definition INFO_DST : Z := 14.
Definition DATA : Z := 21.

(** [MessageTypes.h:138-148] SubMessageFlag *)
Definition FLAG_LITTLE_ENDIAN : Z := 1.
Definition FLAG_INVALIDATE : Z := 2.
Definition FLAG_INLINE_QOS : Z := 2.
Definition FLAG_DATA_PAYLOAD : Z := 4.
Definition FLAG_FINAL : Z := 2.

(** [types.h:219-222] ProtocolVersion_t *)
Record ProtocolVersion_t := mkVersion { major : Z; minor : Z }.

(** [types.h:273-273] PROTOCOLVERSION *)
Definition PROTOCOLVERSION : ProtocolVersion_t := mkVersion 2 2.

(** [MessageTypes.h:150-150] RTPS_PROTOCOL_NAME *)
Definition RTPS_PROTOCOL_NAME : list Z := [82; 84; 80; 83].

(** [MessageTypes.h:151-160] Header *)
Record Header := mkHeader { protocolName : list Z; protocolVersion : ProtocolVersion_t; vendorId : list Z; guidPrefix : GuidPrefix_t }.

(** [MessageTypes.h:156-159] Header::getRawSize *)
Definition Header_getRawSize : Z := 4 + 2 + 2 + 12.

(** [MessageTypes.h:162-171] SubmessageHeader *)
Record SubmessageHeader := mkSub { submessageId : Z; flags : Z; octetsToNextHeader : Z (* uint16_t *) }.

(** [MessageTypes.h:166-168] SubmessageHeader::getRawSize *)
Definition SubmessageHeader_getRawSize : Z := 1 + 1 + 2.

(** [MessageTypes.h:170-170] SubmessageHeader::finalFlag *)
Definition header_finalFlag (h : SubmessageHeader) : bool := negb (Z.land (flags h) FLAG_FINAL =? 0).

(** [MessageTypes.h:173-185] SubmessageData *)
Record SubmessageData := mkData {
  d_header : SubmessageHeader;
  d_extraFlags : Z;
  d_octetsToInlineQos : Z;
  d_readerId : EntityId_t;
  d_writerId : EntityId_t;
  d_writerSN : SequenceNumber_t
}.

(** [MessageTypes.h:180-184] SubmessageData::getRawSize *)
Definition SubmessageData_getRawSize : Z := SubmessageHeader_getRawSize + 2 + 2 + (2 * 3 + 2 * 1) + 8.

(** [MessageTypes.h:187-198] SubmessageHeartbeat *)
Record SubmessageHeartbeat := mkHeartbeat {
  h_header : SubmessageHeader;
  h_readerId : EntityId_t;
  h_writerId : EntityId_t;
  h_firstSN : SequenceNumber_t;
  h_lastSN : SequenceNumber_t;
  h_count : Z (* int32_t *)
}.

(** [MessageTypes.h:194-197] SubmessageHeartbeat::getRawSize *)
Definition SubmessageHeartbeat_getRawSize : Z := SubmessageHeader_getRawSize + (2 * 3 + 2 * 1) + 2 * 8 + 4.

(** [MessageTypes.h:200-207] SubmessageInfoDST *)
Record SubmessageInfoDST := mkInfoDST { i_header : SubmessageHeader; i_guidPrefix : GuidPrefix_t }.

(** [MessageTypes.h:204-206] SubmessageInfoDST::getRawSize *)
Definition SubmessageInfoDST_getRawSize : Z := SubmessageHeader_getRawSize + 12.

(** [MessageTypes.h:209-226] SubmessageGap *)
Record SubmessageGap := mkGap {
  g_header : SubmessageHeader;
  g_readerId : EntityId_t;
  g_writerId : EntityId_t;
  g_gapStart : SequenceNumber_t;
  g_gapList : SequenceNumberSet
}.

(** [MessageTypes.h:216-219] SubmessageGap::getRawSizeWithoutSNSet *)
Definition SubmessageGap_getRawSizeWithoutSNSet : Z := SubmessageHeader_getRawSize + (2 * (3 + 1) + 8).

(** [MessageTypes.h:228-245] SubmessageAckNack *)
Record SubmessageAckNack := mkAckNack {
  a_header : SubmessageHeader;
  a_readerId : EntityId_t;
  a_writerId : EntityId_t;
  a_readerSNState : SequenceNumberSet;
  a_count : Z (* int32_t *)
}.

(** [MessageTypes.h:242-244] SubmessageAckNack::getRawSizeWithoutSNSet *)
Definition SubmessageAckNack_getRawSizeWithoutSNSet : Z := SubmessageHeader_getRawSize + 2 * (3 + 1) + 4.

(** [MessageTypes.h:234-241] SubmessageAckNack::getRawSize *)
Definition SubmessageAckNack_getRawSize (set : SequenceNumberSet) : Z :=
  let bitMapSize := if numBits set =? 0 then 0 else SNS_NUM_BYTES in
  u16 (SubmessageAckNack_getRawSizeWithoutSNSet + 8 + 4 + bitMapSize).

(** ** Writing *)

Section serialize.
Context {B : Type} `{MessageBuffer B}.
Implicit Types buffer : B.

(** Calls of [append] whose results are not looked at. *)
Definition append_all (l : list (list Z)) (buffer : B) : B := fold_left (λ b x, snd (mb_append x b)) l buffer.

(** The two fields of an [EntityId_t], a [SequenceNumber_t]. *)
Definition id_fields (e : EntityId_t) : list (list Z) := [entityKey e; [entityKind e]].
Definition sn_fields (s : SequenceNumber_t) : list (list Z) := [le 4 (sn_high s); le 4 (sn_low s)].

(** [MessageTypes.h:247-259] serializeMessage *)
Definition serialize_Header (header : Header) buffer : bool * B :=
  let '(b, buffer) := mb_reserve Header_getRawSize buffer in
  if negb b then (false, buffer)
  else
    (true, append_all [protocolName header; [major (protocolVersion header); minor (protocolVersion header)]; vendorId header; guidPrefix header] buffer).

(** [MessageTypes.h:261-274] serializeMessage *)
Definition serialize_SubmessageHeader (header : SubmessageHeader) buffer : bool * B :=
  let '(b, buffer) := mb_reserve Header_getRawSize buffer in
  if negb b then (false, buffer)
  else
    let buffer := snd (mb_reserve SubmessageHeader_getRawSize buffer) in
    (true, append_all [[submessageId header]; [flags header]; le 2 (octetsToNextHeader header)] buffer).

(** [MessageTypes.h:276-288] serializeMessage *)
Definition serialize_InfoDST (msg : SubmessageInfoDST) buffer : bool * B :=
  let '(b, buffer) := mb_reserve SubmessageInfoDST_getRawSize buffer in
  if negb b then (false, buffer)
  else
    let '(ret, buffer) := serialize_SubmessageHeader (i_header msg) buffer in
    if negb ret then (false, buffer) else mb_append (i_guidPrefix msg) buffer.

(** [MessageTypes.h:290-312] serializeMessage *)
Definition serialize_Data (msg : SubmessageData) buffer : bool * B :=
  let '(b, buffer) := mb_reserve SubmessageData_getRawSize buffer in
  if negb b then (false, buffer)
  else
    let buffer := snd (serialize_SubmessageHeader (d_header msg) buffer) in
    (true, append_all ([le 2 (d_extraFlags msg); le 2 (d_octetsToInlineQos msg)] ++ id_fields (d_readerId msg) ++
                       id_fields (d_writerId msg) ++ sn_fields (d_writerSN msg)) buffer).

(** [MessageTypes.h:314-339] serializeMessage *)
Definition serialize_Heartbeat (msg : SubmessageHeartbeat) buffer : bool * B :=
  let '(b, buffer) := mb_reserve SubmessageHeartbeat_getRawSize buffer in
  if negb b then (false, buffer)
  else
    let buffer := snd (serialize_SubmessageHeader (h_header msg) buffer) in
    (true, append_all (id_fields (h_readerId msg) ++ id_fields (h_writerId msg) ++ sn_fields (h_firstSN msg) ++
                       sn_fields (h_lastSN msg) ++ [le 4 (h_count msg)]) buffer).

(** The words of a bitmap in memory; the copy takes [4 * (numBits / 32 + 1)] bytes of it (as
    [DataSize_t]), which the array must have. *)
Definition bitmap_bytes (set : SequenceNumberSet) : res (list Z) :=
  let n := u16 (u32 (4 * (numBits set / 32 + 1))) in
  let l := concat (le 4 <$> bitMap set) in
  if zlen l <? n then Err Undefined else Ok (take (Z.to_nat n) l).

(** [MessageTypes.h:341-368] serializeMessage *)
Definition serialize_AckNack (msg : SubmessageAckNack) buffer : res (bool * B) :=
  let '(b, buffer) := mb_reserve (SubmessageAckNack_getRawSize (a_readerSNState msg)) buffer in
  if negb b then Ok (false, buffer)
  else
    let buffer := snd (serialize_SubmessageHeader (a_header msg) buffer) in
    let buffer := append_all (id_fields (a_readerId msg) ++ id_fields (a_writerId msg) ++ sn_fields (base (a_readerSNState msg)) ++
                              [le 4 (numBits (a_readerSNState msg))]) buffer in
    buffer ← (if numBits (a_readerSNState msg) =? 0 then Ok buffer else l ← bitmap_bytes (a_readerSNState msg); Ok (snd (mb_append l buffer)));
    Ok (true, append_all [le 4 (a_count msg)] buffer).

(** [MessageTypes.h:370-405] serializeMessage *)
Definition serialize_Gap (msg : SubmessageGap) buffer : bool * B :=
  if negb (numBits (g_gapList msg) =? 0) then (false, buffer)
  else
    let '(b, buffer) := mb_reserve 36 buffer in
    if negb b then (false, buffer)
    else
      let buffer := snd (serialize_SubmessageHeader (g_header msg) buffer) in
      (true, append_all (id_fields (g_readerId msg) ++ id_fields (g_writerId msg) ++ sn_fields (g_gapStart msg) ++
                         sn_fields (base (g_gapList msg)) ++ [le 4 (numBits (g_gapList msg)); le 4 (numBits (g_gapList msg))]) buffer).
End serialize.

(** ** Reading *)

(** [MessageTypes.h:407-422] MessageProcessingInfo *)
Record MessageProcessingInfo := mkInfo { data : list Z; size : Z; nextPos : Z (* uint16_t *) }.

(** [MessageTypes.h:421-421] MessageProcessingInfo::getRemainingSize *)
Definition getRemainingSize (info : MessageProcessingInfo) : Z := u16 (size info - nextPos info).

(** [MessageTypes.h:416-418] MessageProcessingInfo::getPointerToCurrentPos

    The bytes from there on. *)
Definition getPointerToCurrentPos (info : MessageProcessingInfo) : list Z := drop (Z.to_nat (nextPos info)) (data info).

(** A pointer moved on; none of the bytes can be read from beyond them. *)
Definition advance (n : Z) (src : list Z) : list Z := if zlen src <? n then [] else drop (Z.to_nat n) src.

(** [MessageTypes.cpp:31-34] doCopyAndMoveOn *)
Definition doCopyAndMoveOn (n : Z) (src : list Z) : res (list Z * list Z) :=
  if zlen src <? n then Err Undefined else Ok (take (Z.to_nat n) src, advance n src).

(** A field of an unsigned or a signed type. *)
Definition read_u (n : Z) (src : list Z) : res (Z * list Z) := '(l, src) ← doCopyAndMoveOn n src; Ok (le_val l, src).
Definition read_s32 (src : list Z) : res (Z * list Z) := '(l, src) ← doCopyAndMoveOn 4 src; Ok (sint 32 (le_val l), src).

(** The two copies of an [EntityId_t], a [SequenceNumber_t]. *)
Definition read_id (src : list Z) : res (EntityId_t * list Z) :=
  '(key, src) ← doCopyAndMoveOn 3 src;
  '(kind, src) ← read_u 1 src;
  Ok (mkEntityId key kind, src).
Definition read_sn (src : list Z) : res (SequenceNumber_t * list Z) :=
  '(high, src) ← read_s32 src;
  '(low, src) ← read_u 4 src;
  Ok (mkSN high low, src).

(** [MessageTypes.cpp:36-52] deserializeMessage *)
Definition deserialize_Header (info : MessageProcessingInfo) : res (option Header) :=
  if getRemainingSize info <? Header_getRawSize then Ok None
  else
    let src := getPointerToCurrentPos info in
    '(name, src) ← doCopyAndMoveOn 4 src;
    '(maj, src) ← read_u 1 src;
    '(min, src) ← read_u 1 src;
    '(vendor, src) ← doCopyAndMoveOn 2 src;
    '(guid, src) ← doCopyAndMoveOn 12 src;
    Ok (Some (mkHeader name (mkVersion maj min) vendor guid)).

(** [MessageTypes.cpp:54-66] deserializeMessage *)
Definition deserialize_SubmessageHeader (info : MessageProcessingInfo) : res (option SubmessageHeader) :=
  if getRemainingSize info <? SubmessageHeader_getRawSize then Ok None
  else
    let src := getPointerToCurrentPos info in
    '(id, src) ← read_u 1 src;
    '(flags, src) ← read_u 1 src;
    '(octets, src) ← read_u 2 src;
    Ok (Some (mkSub id flags octets)).

(** [MessageTypes.cpp:68-101] deserializeMessage *)
Definition deserialize_Data (info : MessageProcessingInfo) : res (option SubmessageData) :=
  if getRemainingSize info <? SubmessageHeader_getRawSize then Ok None
  else
    header ← deserialize_SubmessageHeader info;
    match header with
    | None => Ok None
    | Some header =>
        if getRemainingSize info <? SubmessageHeader_getRawSize + octetsToNextHeader header then Ok None
        else
          let src := advance SubmessageHeader_getRawSize (getPointerToCurrentPos info) in
          '(extra, src) ← read_u 2 src;
          '(qos, src) ← read_u 2 src;
          '(reader, src) ← read_id src;
          '(writer, src) ← read_id src;
          '(sn, src) ← read_sn src;
          Ok (Some (mkData header extra qos reader writer sn))
    end.

(** [MessageTypes.cpp:103-132] deserializeMessage *)
Definition deserialize_Heartbeat (info : MessageProcessingInfo) : res (option SubmessageHeartbeat) :=
  if getRemainingSize info <? SubmessageHeartbeat_getRawSize then Ok None
  else
    header ← deserialize_SubmessageHeader info;
    match header with
    | None => Ok None
    | Some header =>
        let src := advance SubmessageHeader_getRawSize (getPointerToCurrentPos info) in
        '(reader, src) ← read_id src;
        '(writer, src) ← read_id src;
        '(first, src) ← read_sn src;
        '(last, src) ← read_sn src;
        '(count, src) ← read_s32 src;
        Ok (Some (mkHeartbeat header reader writer first last count))
    end.

(** A copy of [size] bytes over the beginning of the bitmap of a new set, all zeros. *)
Definition bitmap_of (l : list Z) : list Z := [le_val l].

(** [MessageTypes.cpp:134-152] deserializeSNS

    [num_bitfields] is of type [size_t]. *)
Definition deserializeSNS (num_bitfields : Z) (src : list Z) : res (SequenceNumberSet * list Z) :=
  '(base, src) ← read_sn src;
  '(numBits, src) ← read_u 4 src;
  if numBits =? 0 then Ok (mkSNS base numBits [0], src)
  else
    let size := if SNS_NUM_BYTES <? num_bitfields then SNS_NUM_BYTES else num_bitfields in
    '(l, src) ← doCopyAndMoveOn size src;
    Ok (mkSNS base numBits (bitmap_of l), advance (num_bitfields - size) src).

(** [MessageTypes.cpp:154-182] deserializeMessage *)
Definition deserialize_AckNack (info : MessageProcessingInfo) : res (option SubmessageAckNack) :=
  if getRemainingSize info <? SubmessageAckNack_getRawSizeWithoutSNSet then Ok None
  else
    header ← deserialize_SubmessageHeader info;
    match header with
    | None => Ok None
    | Some header =>
        let src := advance SubmessageHeader_getRawSize (getPointerToCurrentPos info) in
        '(reader, src) ← read_id src;
        '(writer, src) ← read_id src;
        let num_bitfields := u64 (octetsToNextHeader header - 4 - 4 - 8 - 4 - 4) in
        '(state, src) ← deserializeSNS num_bitfields src;
        '(count, src) ← read_s32 src;
        Ok (Some (mkAckNack header reader writer state count))
    end.

(** [MessageTypes.cpp:184-217] deserializeMessage *)
Definition deserialize_Gap (info : MessageProcessingInfo) : res (option SubmessageGap) :=
  let remainingSizeAtBeginning := getRemainingSize info in
  if remainingSizeAtBeginning <? SubmessageGap_getRawSizeWithoutSNSet then Ok None
  else
    header ← deserialize_SubmessageHeader info;
    match header with
    | None => Ok None
    | Some header =>
        let src := advance SubmessageHeader_getRawSize (getPointerToCurrentPos info) in
        '(reader, src) ← read_id src;
        '(writer, src) ← read_id src;
        '(start, src) ← read_sn src;
        let num_bitfields := u64 (remainingSizeAtBeginning - (zlen (getPointerToCurrentPos info) - zlen src)) in
        '(gaps, src) ← deserializeSNS num_bitfields src;
        Ok (Some (mkGap header reader writer start gaps))
    end.

(** ** MessageFactory *)

Section factory.
Context {B : Type} `{MessageBuffer B}.
Implicit Types buffer : B.

(** [VENDOR_ID] of the configuration. *)
Context (VENDOR_ID : list Z).

(** [sysFunctions.h:32-39] getCurrentTimeStamp

    The milliseconds of the system as a [uint32_t]; the division of the milliseconds of the
    second by 1000 gives zero. *)
Definition getCurrentTimeStamp (nowMs : Z) : Z * Z := (Z.quot (sint 32 nowMs) 1000, (nowMs mod 1000) / 1000).

(** [MessageFactory.h:42-52] addHeader *)
Definition addHeader (guidPrefix : GuidPrefix_t) buffer : B :=
  snd (serialize_Header (mkHeader RTPS_PROTOCOL_NAME PROTOCOLVERSION VENDOR_ID guidPrefix) buffer).

(** [MessageFactory.h:54-69] addSubMessageInfoDST *)
Definition addSubMessageInfoDST (dst : GuidPrefix_t) buffer : bool * B :=
  serialize_InfoDST (mkInfoDST (mkSub INFO_DST FLAG_LITTLE_ENDIAN 12) dst) buffer.

(** [MessageFactory.h:71-99] addSubMessageTimeStamp *)
Definition addSubMessageTimeStamp (nowMs : Z) (setInvalid : bool) buffer : B :=
  let octets := if setInvalid then 0 else 8 in
  let flags := if setInvalid then Z.lor FLAG_LITTLE_ENDIAN FLAG_INVALIDATE else FLAG_LITTLE_ENDIAN in
  let buffer := snd (serialize_SubmessageHeader (mkSub INFO_TS flags octets) buffer) in
  if setInvalid then buffer
  else
    let buffer := snd (mb_reserve octets buffer) in
    let now := getCurrentTimeStamp nowMs in
    append_all [le 4 (fst now); le 4 (snd now)] buffer.

(** [MessageFactory.h:101-139] addSubMessageData *)
Definition addSubMessageData (filledPayload : B) (containsInlineQos : bool) (SN : SequenceNumber_t) (writerID readerID : EntityId_t) buffer : B :=
  let octets := u16 (SubmessageData_getRawSize + mb_spaceUsed filledPayload - 4) in
  let flags := FLAG_LITTLE_ENDIAN in
  let flags := if containsInlineQos then Z.lor flags FLAG_INLINE_QOS else flags in
  let flags := if mb_isValid filledPayload then Z.lor flags FLAG_DATA_PAYLOAD else flags in
  let msg := mkData (mkSub DATA flags octets) 0 (4 + 4 + 8) readerID writerID SN in
  let buffer := snd (serialize_Data msg buffer) in
  if mb_isValid filledPayload then mb_append_buffer filledPayload buffer else buffer.

(** [MessageFactory.h:141-163] addHeartbeat *)
Definition addHeartbeat (writerId readerId : EntityId_t) (firstSN lastSN : SequenceNumber_t) (count : Z) buffer : B :=
  let header := mkSub HEARTBEAT FLAG_LITTLE_ENDIAN (SubmessageHeartbeat_getRawSize - 4) in
  snd (serialize_Heartbeat (mkHeartbeat header readerId writerId firstSN lastSN count) buffer).

(** [MessageFactory.h:165-190] addAckNack *)
Definition addAckNack (writerId readerId : EntityId_t) (readerSNState : SequenceNumberSet) (count : Z) (final_flag : bool) buffer : res B :=
  let flags := if final_flag then Z.lor FLAG_LITTLE_ENDIAN FLAG_FINAL else Z.land FLAG_LITTLE_ENDIAN (Z.lnot FLAG_FINAL) in
  let header := mkSub ACKNACK flags (u16 (SubmessageAckNack_getRawSize readerSNState - 4)) in
  snd <$> serialize_AckNack (mkAckNack header readerId writerId readerSNState count) buffer.

(** [MessageFactory.h:192-211] addSubmessageGap *)
Definition addSubmessageGap (writerId readerId : EntityId_t) (missingSN : SequenceNumber_t) buffer : res B :=
  next ← sn_incr missingSN;
  Ok (snd (serialize_Gap (mkGap (mkSub GAP FLAG_LITTLE_ENDIAN 32) readerId writerId missingSN (mkSNS next 0 [0])) buffer)).
End factory.
