(* ===== verification/RtpsCodec.v ===== *)
(** * RTPS: what is written can be read

    The bytes of each submessage ([wire_...]), that the templates append exactly these to a
    buffer, whatever the buffer, and that the readers find the same fields in them. *)

From S2P Require Import Prelude RtpsTypes RtpsBuffer RtpsMessages.
Local Open Scope Z_scope.

(** ** Fields in range *)

Definition is_byte (b : Z) : Prop := 0 ≤ b < 2 ^ 8.
Definition id_ok (e : EntityId_t) : Prop := length (entityKey e) = 3%nat ∧ Forall is_byte (entityKey e) ∧ is_byte (entityKind e).
Definition prefix_ok (g : GuidPrefix_t) : Prop := length g = 12%nat ∧ Forall is_byte g.
Definition s32 (z : Z) : Prop := - 2 ^ 31 ≤ z < 2 ^ 31.
Definition sub_ok (h : SubmessageHeader) : Prop := is_byte (submessageId h) ∧ is_byte (flags h) ∧ fits 16 (octetsToNextHeader h).
Definition header_ok (h : Header) : Prop :=
  length (protocolName h) = 4%nat ∧ is_byte (major (protocolVersion h)) ∧ is_byte (minor (protocolVersion h)) ∧ length (vendorId h) = 2%nat ∧
  length (guidPrefix h) = 12%nat.
Definition data_ok (m : SubmessageData) : Prop :=
  sub_ok (d_header m) ∧ fits 16 (d_extraFlags m) ∧ fits 16 (d_octetsToInlineQos m) ∧ id_ok (d_readerId m) ∧ id_ok (d_writerId m) ∧ sn_ok (d_writerSN m).
Definition heartbeat_ok (m : SubmessageHeartbeat) : Prop :=
  sub_ok (h_header m) ∧ id_ok (h_readerId m) ∧ id_ok (h_writerId m) ∧ sn_ok (h_firstSN m) ∧ sn_ok (h_lastSN m) ∧ s32 (h_count m).

(** A set that one word holds; no bits, no bitmap. *)
Definition set_ok (s : SequenceNumberSet) : Prop :=
  sn_ok (base s) ∧ 0 ≤ numBits s < 32 ∧ ∃ w, bitMap s = [w] ∧ fits 32 w ∧ (numBits s = 0 → w = 0).
Definition acknack_ok (m : SubmessageAckNack) : Prop :=
  sub_ok (a_header m) ∧ id_ok (a_readerId m) ∧ id_ok (a_writerId m) ∧ set_ok (a_readerSNState m) ∧ s32 (a_count m) ∧
  octetsToNextHeader (a_header m) = SubmessageAckNack_getRawSize (a_readerSNState m) - 4.
Definition gap_ok (m : SubmessageGap) : Prop :=
  sub_ok (g_header m) ∧ id_ok (g_readerId m) ∧ id_ok (g_writerId m) ∧ sn_ok (g_gapStart m) ∧ set_ok (g_gapList m) ∧ numBits (g_gapList m) = 0.

(** ** Bytes *)

Definition wire_id (e : EntityId_t) : list Z := entityKey e ++ [entityKind e].
Definition wire_sn (s : SequenceNumber_t) : list Z := le 4 (sn_high s) ++ le 4 (sn_low s).
Definition wire_sub (h : SubmessageHeader) : list Z := [submessageId h; flags h] ++ le 2 (octetsToNextHeader h).
Definition wire_header (h : Header) : list Z :=
  protocolName h ++ [major (protocolVersion h); minor (protocolVersion h)] ++ vendorId h ++ guidPrefix h.
Definition wire_data (m : SubmessageData) : list Z :=
  wire_sub (d_header m) ++ le 2 (d_extraFlags m) ++ le 2 (d_octetsToInlineQos m) ++ wire_id (d_readerId m) ++ wire_id (d_writerId m) ++
  wire_sn (d_writerSN m).
Definition wire_heartbeat (m : SubmessageHeartbeat) : list Z :=
  wire_sub (h_header m) ++ wire_id (h_readerId m) ++ wire_id (h_writerId m) ++ wire_sn (h_firstSN m) ++ wire_sn (h_lastSN m) ++ le 4 (h_count m).
Definition wire_set (s : SequenceNumberSet) : list Z :=
  wire_sn (base s) ++ le 4 (numBits s) ++ (if numBits s =? 0 then [] else concat (le 4 <$> bitMap s)).
Definition wire_acknack (m : SubmessageAckNack) : list Z :=
  wire_sub (a_header m) ++ wire_id (a_readerId m) ++ wire_id (a_writerId m) ++ wire_set (a_readerSNState m) ++ le 4 (a_count m).
Definition wire_gap (m : SubmessageGap) : list Z :=
  wire_sub (g_header m) ++ wire_id (g_readerId m) ++ wire_id (g_writerId m) ++ wire_sn (g_gapStart m) ++ wire_set (g_gapList m) ++
  le 4 (numBits (g_gapList m)).

Lemma zlen_le n z : 0 ≤ n → zlen (le n z) = n.
Proof. intros. unfold zlen, le. by apply length_Z_to_little_endian. Qed.

Lemma le_val_le n z : 0 ≤ n → le_val (le n z) = z mod 2 ^ (n * 8).
Proof. intros. unfold le_val, le. by apply little_endian_to_Z_to_little_endian. Qed.

Lemma le_not_nil n z : 0 < n → le n z ≠ [].
Proof. intros Hn E. pose proof (zlen_le n z ltac:(lia)) as H. rewrite E, zlen_nil in H. lia. Qed.

Lemma zlen_id e : id_ok e → zlen (wire_id e) = 4.
Proof. intros [Hk _]. unfold wire_id. rewrite zlen_app, zlen_cons, zlen_nil. unfold zlen. lia. Qed.

Lemma zlen_sn s : zlen (wire_sn s) = 8.
Proof. unfold wire_sn. by rewrite zlen_app, !zlen_le. Qed.

Lemma zlen_sub h : zlen (wire_sub h) = 4.
Proof. unfold wire_sub. by rewrite zlen_app, zlen_le. Qed.

Lemma zlen_header h : header_ok h → zlen (wire_header h) = 20.
Proof. intros (Hn & _ & _ & Hv & Hg). unfold wire_header, zlen. rewrite !length_app, Hn, Hv, Hg. done. Qed.

Lemma zlen_set s : set_ok s → zlen (wire_set s) = if numBits s =? 0 then 12 else 16.
Proof.
  intros (_ & _ & w & Hv & _). unfold wire_set. rewrite Hv, !zlen_app, zlen_sn, zlen_le by done. destruct (numBits s =? 0); [done|].
  cbn [fmap list_fmap concat]. rewrite app_nil_r, zlen_le by done. done.
Qed.

Ltac zlen_wire :=
  rewrite ?zlen_app, ?zlen_sub, ?zlen_sn, ?zlen_id, ?zlen_set, ?zlen_le by done.

Lemma length_not_nil {A} (l : list A) n : length l = S n → l ≠ [].
Proof. by destruct l. Qed.

(** The fields that are written are not empty. *)
Ltac nonempty :=
  repeat first [apply Forall_nil; exact I | apply Forall_cons; split];
  first [done | by apply le_not_nil | by eapply length_not_nil].

(** ** Writing *)

Section write.
Context {B : Type} `{MessageBufferLaws B}.
Implicit Types b : B.

Lemma append_all_ok ls b c f :
  mb_ok b c f → Forall (λ l, l ≠ []) ls → zlen (concat ls) ≤ f → mb_ok (append_all ls b) (c ++ concat ls) (f - zlen (concat ls)).
Proof.
  revert b c f. induction ls as [|l ls IH]; intros b c f Hb Hne Hf; cbn [append_all fold_left concat] in *.
  - by rewrite app_nil_r, zlen_nil, Z.sub_0_r.
  - apply Forall_cons in Hne as [Hl Hne]. rewrite zlen_app in Hf. pose proof (zlen_nonneg (concat ls)).
    assert (0 < zlen l) by (destruct l; [done|rewrite zlen_cons; pose proof (zlen_nonneg l); lia]).
    destruct (mb_ok_append b c f l Hb ltac:(lia)) as (b' & -> & Hb'). cbn [snd].
    replace (f - zlen (l ++ concat ls)) with (f - zlen l - zlen (concat ls)) by (rewrite zlen_app; lia).
    rewrite app_assoc. apply (IH b'); [done..|lia].
Qed.

(** The fields of one structure after another. *)
Lemma append_fields_ok ls w b c f :
  mb_ok b c f → Forall (λ l, l ≠ []) ls → concat ls = w → zlen w ≤ f → mb_ok (append_all ls b) (c ++ w) (f - zlen w).
Proof. intros Hb Hne <- Hf. by apply append_all_ok. Qed.

Lemma id_not_nil e : id_ok e → Forall (λ l, l ≠ []) (id_fields e).
Proof. intros [Hk _]. unfold id_fields. nonempty. Qed.

Lemma sn_not_nil s : Forall (λ l, l ≠ []) (sn_fields s).
Proof. unfold sn_fields. nonempty. Qed.

Lemma concat_id e : concat (id_fields e) = wire_id e.
Proof. done. Qed.

Lemma concat_sn s : concat (sn_fields s) = wire_sn s.
Proof. unfold sn_fields, wire_sn. cbn [concat]. by rewrite app_nil_r. Qed.

(** Room for one more structure. *)
Lemma reserve_ok b c f n :
  mb_ok b c f → 0 < n → zlen c + Z.max f n < 2 ^ 16 → ∃ b', mb_reserve n b = (true, b') ∧ mb_ok b' c (Z.max f n).
Proof. apply mb_ok_reserve. Qed.

Lemma serialize_Header_ok h b c f :
  header_ok h → mb_ok b c f → zlen c + Z.max f 20 < 2 ^ 16 →
  ∃ b', serialize_Header h b = (true, b') ∧ mb_ok b' (c ++ wire_header h) (Z.max f 20 - 20).
Proof.
  intros Hh Hb Hlim. unfold serialize_Header. destruct (reserve_ok b c f Header_getRawSize Hb) as (b1 & -> & Hb1); [done..|].
  cbn [negb]. eexists. split; [done|]. rewrite <- (zlen_header h Hh) at 2. apply append_fields_ok; [done| | |rewrite zlen_header by done; change Header_getRawSize with 20; lia].
  - destruct Hh as (Hn & _ & _ & Hv & Hg). nonempty.
  - cbn [concat]. by rewrite app_nil_r.
Qed.

(** The header of a submessage asks for 20 bytes of room, and uses four. *)
Lemma serialize_SubmessageHeader_ok h b c f :
  mb_ok b c f → zlen c + Z.max f 20 < 2 ^ 16 →
  ∃ b', serialize_SubmessageHeader h b = (true, b') ∧ mb_ok b' (c ++ wire_sub h) (Z.max f 20 - 4).
Proof.
  intros Hb Hlim. unfold serialize_SubmessageHeader. destruct (reserve_ok b c f Header_getRawSize Hb) as (b1 & -> & Hb1); [done..|].
  cbn [negb]. destruct (reserve_ok b1 c _ SubmessageHeader_getRawSize Hb1) as (b2 & -> & Hb2); [done|change SubmessageHeader_getRawSize with 4; change Header_getRawSize with 20; lia|].
  cbn [snd]. eexists. split; [done|]. change Header_getRawSize with 20 in Hb2. change SubmessageHeader_getRawSize with 4 in Hb2.
  replace (Z.max f 20 - 4) with (Z.max (Z.max f 20) 4 - zlen (wire_sub h)) by (rewrite zlen_sub; lia).
  apply append_fields_ok; [done| | |rewrite zlen_sub; lia].
  - nonempty.
  - unfold wire_sub. cbn [concat]. by rewrite app_nil_r.
Qed.

Lemma serialize_Data_ok m b c f :
  data_ok m → mb_ok b c f → zlen c + Z.max f 24 < 2 ^ 16 →
  ∃ b', serialize_Data m b = (true, b') ∧ mb_ok b' (c ++ wire_data m) (Z.max f 24 - 24).
Proof.
  intros (_ & _ & _ & Hr & Hw & _) Hb Hlim. unfold serialize_Data. destruct (reserve_ok b c f SubmessageData_getRawSize Hb) as (b1 & -> & Hb1); [done..|].
  cbn [negb]. change SubmessageData_getRawSize with 24 in Hb1.
  destruct (serialize_SubmessageHeader_ok (d_header m) b1 c _ Hb1) as (b2 & -> & Hb2); [lia|]. cbn [snd]. eexists. split; [done|].
  set (w := le 2 (d_extraFlags m) ++ le 2 (d_octetsToInlineQos m) ++ wire_id (d_readerId m) ++ wire_id (d_writerId m) ++ wire_sn (d_writerSN m)).
  assert (zlen w = 20) as Hw20 by (unfold w; by zlen_wire).
  replace (Z.max f 24 - 24) with (Z.max (Z.max f 24) 20 - 4 - zlen w) by lia. unfold wire_data. fold w. rewrite (app_assoc c).
  apply append_fields_ok; [done| | |lia].
  - repeat apply Forall_app_2; [nonempty|by apply id_not_nil..|apply sn_not_nil].
  - rewrite !concat_app, !concat_id, concat_sn. cbn [concat]. by rewrite app_nil_r, <- app_assoc.
Qed.

Lemma serialize_Heartbeat_ok m b c f :
  heartbeat_ok m → mb_ok b c f → zlen c + Z.max f 32 < 2 ^ 16 →
  ∃ b', serialize_Heartbeat m b = (true, b') ∧ mb_ok b' (c ++ wire_heartbeat m) (Z.max f 32 - 32).
Proof.
  intros (_ & Hr & Hw & _) Hb Hlim. unfold serialize_Heartbeat. destruct (reserve_ok b c f SubmessageHeartbeat_getRawSize Hb) as (b1 & -> & Hb1); [done..|].
  cbn [negb]. change SubmessageHeartbeat_getRawSize with 32 in Hb1.
  destruct (serialize_SubmessageHeader_ok (h_header m) b1 c _ Hb1) as (b2 & -> & Hb2); [lia|]. cbn [snd]. eexists. split; [done|].
  set (w := wire_id (h_readerId m) ++ wire_id (h_writerId m) ++ wire_sn (h_firstSN m) ++ wire_sn (h_lastSN m) ++ le 4 (h_count m)).
  assert (zlen w = 28) as Hwl by (unfold w; by zlen_wire).
  replace (Z.max f 32 - 32) with (Z.max (Z.max f 32) 20 - 4 - zlen w) by lia. unfold wire_heartbeat. fold w. rewrite (app_assoc c).
  apply append_fields_ok; [done| | |lia].
  - repeat apply Forall_app_2; [by apply id_not_nil..|apply sn_not_nil|apply sn_not_nil|nonempty].
  - rewrite !concat_app, !concat_id, !concat_sn. cbn [concat]. by rewrite app_nil_r.
Qed.

Lemma serialize_Gap_ok m b c f :
  gap_ok m → mb_ok b c f → zlen c + Z.max f 36 < 2 ^ 16 →
  ∃ b', serialize_Gap m b = (true, b') ∧ mb_ok b' (c ++ wire_gap m) (Z.max f 36 - 36).
Proof.
  intros (_ & Hr & Hw & _ & Hs & Hn) Hb Hlim. assert ((numBits (g_gapList m) =? 0) = true) as Hz by (by rewrite Hn).
  unfold serialize_Gap. rewrite Hz. cbn [negb].
  destruct (reserve_ok b c f 36 Hb) as (b1 & -> & Hb1); [done..|]. cbn [negb].
  destruct (serialize_SubmessageHeader_ok (g_header m) b1 c _ Hb1) as (b2 & -> & Hb2); [lia|]. cbn [snd]. eexists. split; [done|].
  set (w := wire_id (g_readerId m) ++ wire_id (g_writerId m) ++ wire_sn (g_gapStart m) ++ wire_set (g_gapList m) ++ le 4 (numBits (g_gapList m))).
  assert (zlen w = 32) as Hwl by (unfold w; zlen_wire; by rewrite Hz).
  replace (Z.max f 36 - 36) with (Z.max (Z.max f 36) 20 - 4 - zlen w) by lia. unfold wire_gap. fold w. rewrite (app_assoc c).
  apply append_fields_ok; [done| | |lia].
  - repeat apply Forall_app_2; [by apply id_not_nil..|apply sn_not_nil|apply sn_not_nil|nonempty].
  - rewrite !concat_app, !concat_id, !concat_sn. unfold w, wire_set. rewrite Hz. cbn [concat]. by rewrite !app_nil_r, <- !app_assoc.
Qed.

Lemma bitmap_bytes_ok s : set_ok s → numBits s ≠ 0 → bitmap_bytes s = Ok (concat (le 4 <$> bitMap s)).
Proof.
  intros (_ & Hn & w & Hv & _) Hne. unfold bitmap_bytes. rewrite Hv, Z.div_small by lia. change (u16 (u32 (4 * (0 + 1)))) with 4.
  cbn [fmap list_fmap concat]. rewrite app_nil_r, zlen_le by done. cbn [Z.ltb]. by rewrite take_ge by (pose proof (zlen_le 4 w); unfold zlen in *; lia).
Qed.

Lemma serialize_AckNack_ok m b c f n :
  acknack_ok m → mb_ok b c f → n = SubmessageAckNack_getRawSize (a_readerSNState m) → zlen c + Z.max f n < 2 ^ 16 →
  ∃ b', serialize_AckNack m b = Ok (true, b') ∧ mb_ok b' (c ++ wire_acknack m) (Z.max f n - n).
Proof.
  intros (_ & Hr & Hw & Hs & _) Hb -> Hlim. set (n := SubmessageAckNack_getRawSize _) in *.
  assert (n = if numBits (a_readerSNState m) =? 0 then 28 else 32) as Hn by (unfold n, SubmessageAckNack_getRawSize; by destruct (_ =? 0)).
  assert (28 ≤ n) by (rewrite Hn; destruct (_ =? 0); lia).
  unfold serialize_AckNack. fold n. destruct (reserve_ok b c f n Hb) as (b1 & -> & Hb1); [lia|done|]. cbn [negb].
  destruct (serialize_SubmessageHeader_ok (a_header m) b1 c _ Hb1) as (b2 & -> & Hb2); [lia|]. cbn [snd].
  set (ls := id_fields _ ++ _). set (w := wire_id (a_readerId m) ++ wire_id (a_writerId m) ++ wire_sn (base (a_readerSNState m)) ++ le 4 (numBits (a_readerSNState m))).
  assert (zlen w = 20) as Hwl by (unfold w; by zlen_wire).
  assert (mb_ok (append_all ls b2) ((c ++ wire_sub (a_header m)) ++ w) (Z.max f n - 24)) as Hb3.
  { replace (Z.max f n - 24) with (Z.max (Z.max f n) 20 - 4 - zlen w) by lia. apply append_fields_ok; [done| | |lia].
    - unfold ls. repeat apply Forall_app_2; [by apply id_not_nil..|apply sn_not_nil|nonempty].
    - unfold ls. rewrite !concat_app, !concat_id, !concat_sn. cbn [concat]. by rewrite app_nil_r. }
  assert (∀ b4 c4 f4, mb_ok b4 c4 f4 → 4 ≤ f4 → mb_ok (append_all [le 4 (a_count m)] b4) (c4 ++ le 4 (a_count m)) (f4 - 4)) as Hlast.
  { intros b4 c4 f4 Hb4 Hf4. replace (f4 - 4) with (f4 - zlen (le 4 (a_count m))) by (by rewrite zlen_le). apply append_fields_ok; [done|nonempty|apply app_nil_r|].
    rewrite zlen_le by done. lia. }
  unfold wire_acknack, wire_set. destruct (Z.eqb_spec (numBits (a_readerSNState m)) 0) as [E|E].
  - res_simpl. eexists. split; [done|]. replace (Z.max f n - n) with (Z.max f n - 24 - 4) by lia.
    replace (c ++ _) with (((c ++ wire_sub (a_header m)) ++ w) ++ le 4 (a_count m)) by (unfold w; by rewrite app_nil_r, <- !app_assoc).
    apply Hlast; [done|lia].
  - rewrite (bitmap_bytes_ok _ Hs E). res_simpl. destruct Hs as (_ & _ & v & Hv & _). rewrite Hv. cbn [fmap list_fmap concat]. rewrite app_nil_r.
    destruct (mb_ok_append _ _ _ (le 4 v) Hb3) as (b4 & -> & Hb4); [rewrite zlen_le by done; lia|]. cbn [snd]. rewrite zlen_le in Hb4 by done.
    eexists. split; [done|]. replace (Z.max f n - n) with (Z.max f n - 24 - 4 - 4) by lia.
    replace (c ++ _) with ((((c ++ wire_sub (a_header m)) ++ w) ++ le 4 v) ++ le 4 (a_count m)) by (unfold w; by rewrite <- !app_assoc).
    apply Hlast; [done|lia].
Qed.
End write.

(** ** Reading *)

Lemma advance_app n l src : zlen l = n → advance n (l ++ src) = src.
Proof.
  intros <-. unfold advance. rewrite zlen_app, (proj2 (Z.ltb_ge _ _)) by (pose proof (zlen_nonneg src); lia).
  unfold zlen. rewrite Nat2Z.id. by apply drop_app_length.
Qed.

Lemma doCopyAndMoveOn_app n l src : zlen l = n → doCopyAndMoveOn n (l ++ src) = Ok (l, src).
Proof.
  intros Hn. unfold doCopyAndMoveOn. rewrite advance_app by done. rewrite zlen_app, (proj2 (Z.ltb_ge _ _)) by (pose proof (zlen_nonneg src); lia).
  subst n. unfold zlen. by rewrite Nat2Z.id, take_app_length.
Qed.

Lemma read_u_le n z src : 0 ≤ n → 0 ≤ z < 2 ^ (n * 8) → read_u n (le n z ++ src) = Ok (z, src).
Proof. intros Hn Hz. unfold read_u. rewrite doCopyAndMoveOn_app by (by apply zlen_le). res_simpl. by rewrite le_val_le, Z.mod_small by done. Qed.

Lemma read_u_byte b src : is_byte b → read_u 1 (b :: src) = Ok (b, src).
Proof.
  intros Hb. unfold read_u. change (b :: src) with ([b] ++ src). rewrite doCopyAndMoveOn_app by done. res_simpl. unfold le_val. cbn [little_endian_to_Z].
  by rewrite Z.shiftl_0_l, Z.lor_0_r.
Qed.

Lemma sint_s32 z : s32 z → sint 32 (z mod 2 ^ 32) = z.
Proof.
  unfold s32, sint, wrap. intros Hz. rewrite Z.mod_mod by lia. change (32 - 1) with 31. destruct (Z.ltb_spec (z mod 2 ^ 32) (2 ^ 31)); div_lia.
Qed.

Lemma read_s32_le z src : s32 z → read_s32 (le 4 z ++ src) = Ok (z, src).
Proof. intros Hz. unfold read_s32. rewrite doCopyAndMoveOn_app by (by apply zlen_le). res_simpl. rewrite le_val_le by done. by rewrite sint_s32. Qed.

Lemma read_id_ok e src : id_ok e → read_id (wire_id e ++ src) = Ok (e, src).
Proof.
  intros (Hk & _ & Hb). unfold read_id, wire_id. rewrite <- app_assoc, doCopyAndMoveOn_app by (unfold zlen; lia). res_simpl.
  cbn [app]. rewrite read_u_byte by done. res_simpl. by destruct e.
Qed.

Lemma read_sn_ok s src : sn_ok s → read_sn (wire_sn s ++ src) = Ok (s, src).
Proof.
  intros [Hh Hl]. unfold read_sn, wire_sn. rewrite <- app_assoc, read_s32_le by done. res_simpl. rewrite read_u_le by done. res_simpl. by destruct s.
Qed.

(** The words at a place of a message. *)
Definition at_place (info : MessageProcessingInfo) (w rest : list Z) : Prop :=
  0 ≤ nextPos info ∧ drop (Z.to_nat (nextPos info)) (data info) = w ++ rest ∧ size info = zlen (data info) ∧ size info < 2 ^ 16 ∧
  nextPos info ≤ size info.

Lemma at_place_remaining info w rest : at_place info w rest → getRemainingSize info = zlen w + zlen rest.
Proof.
  intros (H0 & Hd & Hs & Hl & Hle). unfold getRemainingSize. assert (zlen (drop (Z.to_nat (nextPos info)) (data info)) = size info - nextPos info) as E.
  { rewrite Hs in *. unfold zlen in *. rewrite length_drop. lia. }
  rewrite Hd, zlen_app in E. pose proof (zlen_nonneg w). pose proof (zlen_nonneg rest). rewrite wrap_id by zlia. lia.
Qed.

Lemma at_place_pointer info w rest : at_place info w rest → getPointerToCurrentPos info = w ++ rest.
Proof. by intros (_ & Hd & _). Qed.

Lemma at_place_split info w1 w2 rest : at_place info ((w1 ++ w2)) rest → at_place info w1 (w2 ++ rest).
Proof. intros (? & Hd & ?). split; [done|]. by rewrite app_assoc. Qed.

Lemma deserialize_Header_ok h info rest : header_ok h → at_place info (wire_header h) rest → deserialize_Header info = Ok (Some h).
Proof.
  intros Hh Hp. unfold deserialize_Header. rewrite (at_place_remaining _ _ _ Hp), (at_place_pointer _ _ _ Hp), zlen_header by done.
  pose proof (zlen_nonneg rest). rewrite (proj2 (Z.ltb_ge _ _)) by (change Header_getRawSize with 20; lia).
  destruct Hh as (Hn & Hma & Hmi & Hv & Hg). unfold wire_header. rewrite <- !app_assoc. rewrite doCopyAndMoveOn_app by (unfold zlen; lia). res_simpl.
  cbn [app]. rewrite read_u_byte by done. res_simpl. rewrite read_u_byte by done. res_simpl.
  rewrite doCopyAndMoveOn_app by (unfold zlen; lia). res_simpl. rewrite doCopyAndMoveOn_app by (unfold zlen; lia). res_simpl.
  by destruct h as [? [? ?] ? ?].
Qed.

Lemma deserialize_SubmessageHeader_ok h info rest : sub_ok h → at_place info (wire_sub h) rest → deserialize_SubmessageHeader info = Ok (Some h).
Proof.
  intros (Hi & Hf & Ho) Hp. unfold deserialize_SubmessageHeader. rewrite (at_place_remaining _ _ _ Hp), (at_place_pointer _ _ _ Hp), zlen_sub.
  pose proof (zlen_nonneg rest). rewrite (proj2 (Z.ltb_ge _ _)) by (change SubmessageHeader_getRawSize with 4; lia).
  unfold wire_sub. rewrite <- !app_assoc. cbn [app]. rewrite read_u_byte by done. res_simpl. rewrite read_u_byte by done. res_simpl.
  rewrite read_u_le by done. res_simpl. by destruct h.
Qed.

(** A reader looks at the size, reads the header again and goes on behind it. *)
Lemma behind_header h w info rest :
  at_place info (wire_sub h ++ w) rest → advance SubmessageHeader_getRawSize (getPointerToCurrentPos info) = w ++ rest.
Proof. intros Hp. rewrite (at_place_pointer _ _ _ Hp), <- app_assoc. apply advance_app. apply zlen_sub. Qed.

Lemma deserialize_Data_ok m info rest :
  data_ok m → at_place info (wire_data m) rest → octetsToNextHeader (d_header m) ≤ 20 + zlen rest → deserialize_Data info = Ok (Some m).
Proof.
  intros (Hh & He & Hq & Hr & Hw & Hs) Hp Ho. unfold deserialize_Data. unfold wire_data in Hp.
  rewrite (at_place_remaining _ _ _ Hp). zlen_wire. pose proof (zlen_nonneg rest).
  rewrite (proj2 (Z.ltb_ge _ _)) by (change SubmessageHeader_getRawSize with 4; lia).
  rewrite (deserialize_SubmessageHeader_ok _ _ _ Hh (at_place_split _ _ _ _ Hp)). res_simpl.
  rewrite (proj2 (Z.ltb_ge _ _)) by (change SubmessageHeader_getRawSize with 4; lia).
  rewrite (behind_header _ _ _ _ Hp). rewrite <- !app_assoc.
  rewrite read_u_le by done. res_simpl. rewrite read_u_le by done. res_simpl. rewrite read_id_ok by done. res_simpl.
  rewrite read_id_ok by done. res_simpl. rewrite read_sn_ok by done. res_simpl. by destruct m.
Qed.

Lemma deserialize_Heartbeat_ok m info rest :
  heartbeat_ok m → at_place info (wire_heartbeat m) rest → deserialize_Heartbeat info = Ok (Some m).
Proof.
  intros (Hh & Hr & Hw & Hf & Hl & Hc) Hp. unfold deserialize_Heartbeat. unfold wire_heartbeat in Hp.
  rewrite (at_place_remaining _ _ _ Hp). zlen_wire. pose proof (zlen_nonneg rest).
  rewrite (proj2 (Z.ltb_ge _ _)) by (change SubmessageHeartbeat_getRawSize with 32; lia).
  rewrite (deserialize_SubmessageHeader_ok _ _ _ Hh (at_place_split _ _ _ _ Hp)). res_simpl.
  rewrite (behind_header _ _ _ _ Hp). rewrite <- !app_assoc. rewrite read_id_ok by done. res_simpl. rewrite read_id_ok by done. res_simpl.
  rewrite read_sn_ok by done. res_simpl. rewrite read_sn_ok by done. res_simpl. rewrite read_s32_le by done. res_simpl. by destruct m.
Qed.

Lemma deserializeSNS_ok s src n :
  set_ok s → (numBits s ≠ 0 → n = 4) → deserializeSNS n (wire_set s ++ src) = Ok (s, src).
Proof.
  intros (Hb & Hn & w & Hv & Hw & H0) Hn4. unfold deserializeSNS, wire_set. rewrite <- !app_assoc. rewrite read_sn_ok by done. res_simpl.
  rewrite read_u_le by lia. res_simpl. destruct (Z.eqb_spec (numBits s) 0) as [E|E].
  - cbn [app]. destruct s as [b nb bm]. cbn in *. subst. by rewrite H0.
  - rewrite (Hn4 E), Hv. change (SNS_NUM_BYTES <? 4) with false. cbn [fmap list_fmap concat]. rewrite app_nil_r.
    rewrite doCopyAndMoveOn_app by (by apply zlen_le). res_simpl. unfold bitmap_of. rewrite le_val_le, Z.mod_small by done.
    rewrite Z.sub_diag. change src with ([] ++ src) at 1. rewrite advance_app by done. destruct s. cbn in *. by rewrite Hv.
Qed.

Lemma deserialize_AckNack_ok m info rest :
  acknack_ok m → at_place info (wire_acknack m) rest → deserialize_AckNack info = Ok (Some m).
Proof.
  intros (Hh & Hr & Hw & Hs & Hc & Ho) Hp. unfold deserialize_AckNack. unfold wire_acknack in Hp.
  rewrite (at_place_remaining _ _ _ Hp). zlen_wire. pose proof (zlen_nonneg rest).
  assert (octetsToNextHeader (a_header m) = if numBits (a_readerSNState m) =? 0 then 24 else 28) as Ho'.
  { rewrite Ho. unfold SubmessageAckNack_getRawSize. by destruct (_ =? 0). }
  rewrite (proj2 (Z.ltb_ge _ _)) by (change SubmessageAckNack_getRawSizeWithoutSNSet with 16; destruct (_ =? 0); lia).
  rewrite (deserialize_SubmessageHeader_ok _ _ _ Hh (at_place_split _ _ _ _ Hp)). res_simpl.
  rewrite (behind_header _ _ _ _ Hp). rewrite <- !app_assoc. rewrite read_id_ok by done. res_simpl. rewrite read_id_ok by done. res_simpl.
  rewrite deserializeSNS_ok; [|done|].
  - res_simpl. rewrite read_s32_le by done. res_simpl. by destruct m.
  - intros E. rewrite Ho'. rewrite (proj2 (Z.eqb_neq _ _)) by done. done.
Qed.

Lemma deserialize_Gap_ok m info rest :
  gap_ok m → at_place info (wire_gap m) rest → deserialize_Gap info = Ok (Some m).
Proof.
  intros (Hh & Hr & Hw & Hg & Hs & Hn) Hp. unfold deserialize_Gap. unfold wire_gap in Hp.
  rewrite (at_place_remaining _ _ _ Hp). zlen_wire. pose proof (zlen_nonneg rest).
  rewrite (proj2 (Z.ltb_ge _ _)) by (change SubmessageGap_getRawSizeWithoutSNSet with 20; destruct (_ =? 0); lia).
  rewrite (deserialize_SubmessageHeader_ok _ _ _ Hh (at_place_split _ _ _ _ Hp)). res_simpl.
  rewrite (behind_header _ _ _ _ Hp). rewrite <- !app_assoc. rewrite read_id_ok by done. res_simpl. rewrite read_id_ok by done. res_simpl.
  rewrite read_sn_ok by done. res_simpl. rewrite deserializeSNS_ok; [|done|done]. res_simpl. by destruct m.
Qed.

Lemma at_place_at c w rest :
  zlen (c ++ w ++ rest) < 2 ^ 16 → at_place (mkInfo (c ++ w ++ rest) (zlen (c ++ w ++ rest)) (zlen c)) w rest.
Proof.
  intros Hl. pose proof (zlen_nonneg c). unfold at_place. cbn [nextPos data size]. rewrite !zlen_app in *. pose proof (zlen_nonneg w). pose proof (zlen_nonneg rest).
  conj; try lia. unfold zlen. by rewrite Nat2Z.id, drop_app_length.
Qed.

(** ** Round trips *)

Section roundtrip.
Context {B : Type} `{MessageBufferLaws B}.

(** What is read at the place where something was written behind [c]. *)
Definition read_back {M} (deserialize : MessageProcessingInfo → res (option M)) (b : B) (c : list Z) : res (option M) :=
  deserialize (mkInfo (mb_bytes b) (zlen (mb_bytes b)) (zlen c)).

Lemma written_at_place b c w :
  mb_ok b (c ++ w) 0 → at_place (mkInfo (mb_bytes b) (zlen (mb_bytes b)) (zlen c)) w [].
Proof.
  intros Hb. rewrite (mb_ok_bytes _ _ Hb). destruct (mb_ok_free _ _ _ Hb) as [_ Hl]. pose proof (at_place_at c w []) as Ha. rewrite app_nil_r in Ha. apply Ha. lia.
Qed.

(** C22 What is written is read again: each kind of submessage, with any fields in range, written
    to a buffer behind any bytes [c] (with some bytes reserved or none), is read at its place with
    the same fields: numbers of 64 bits, sets of up to 31 numbers in an ACKNACK, and the empty
    sets that a GAP of this library has. *)
Theorem codec_roundtrip b c f :
  mb_ok b c f → f ≤ 24 → zlen c < 65000 →
  (∀ m, data_ok m → octetsToNextHeader (d_header m) ≤ 20 → ∃ b', serialize_Data m b = (true, b') ∧ read_back deserialize_Data b' c = Ok (Some m)) ∧
  (∀ m, heartbeat_ok m → ∃ b', serialize_Heartbeat m b = (true, b') ∧ read_back deserialize_Heartbeat b' c = Ok (Some m)) ∧
  (∀ m, gap_ok m → ∃ b', serialize_Gap m b = (true, b') ∧ read_back deserialize_Gap b' c = Ok (Some m)) ∧
  (∀ m, acknack_ok m → ∃ b', serialize_AckNack m b = Ok (true, b') ∧ read_back deserialize_AckNack b' c = Ok (Some m)).
Proof.
  intros Hb Hf Hc. destruct (mb_ok_free _ _ _ Hb) as [Hf0 _]. split; [|split; [|split]]; intros m Hm.
  - intros Ho. destruct (serialize_Data_ok m b c f Hm Hb) as (b' & -> & Hb'); [lia|]. rewrite Z.max_r, Z.sub_diag in Hb' by lia.
    exists b'. split; [done|]. apply (deserialize_Data_ok m _ []); [done|by apply written_at_place|by rewrite zlen_nil, Z.add_0_r].
  - destruct (serialize_Heartbeat_ok m b c f Hm Hb) as (b' & -> & Hb'); [lia|]. rewrite Z.max_r, Z.sub_diag in Hb' by lia.
    exists b'. split; [done|]. apply (deserialize_Heartbeat_ok m _ []); [done|by apply written_at_place].
  - destruct (serialize_Gap_ok m b c f Hm Hb) as (b' & -> & Hb'); [lia|]. rewrite Z.max_r, Z.sub_diag in Hb' by lia.
    exists b'. split; [done|]. apply (deserialize_Gap_ok m _ []); [done|by apply written_at_place].
  - assert (24 ≤ SubmessageAckNack_getRawSize (a_readerSNState m) ≤ 36) by (unfold SubmessageAckNack_getRawSize; by destruct (_ =? 0)).
    destruct (serialize_AckNack_ok m b c f _ Hm Hb eq_refl) as (b' & -> & Hb'); [lia|]. rewrite Z.max_r, Z.sub_diag in Hb' by lia.
    exists b'. split; [done|]. apply (deserialize_AckNack_ok m _ []); [done|by apply written_at_place].
Qed.
End roundtrip.
