(* ===== verification/RtpsReceiver.v ===== *)
(** * RTPS: the message receiver (src/contrib/embeddedrtps, rtps/messages/MessageReceiver)

    Takes a message apart and calls the endpoints it is for.  What the receiver needs of its
    participant is the class [Endpoints]: the endpoints are looked up by id and called, and each
    call may change the participant and have effects (packets sent, calls of the application). *)

From S2P Require Import Prelude RtpsTypes RtpsBuffer RtpsMessages.
Local Open Scope Z_scope.

(** [Reader.h:42-77] ReaderCacheChange

    The pointer is the list of the bytes from it on, [size] of them if there are so many. *)
Record ReaderCacheChange := mkReaderChange {
  rc_data : list Z;
  rc_kind : ChangeKind_t;
  rc_size : Z;
  rc_writerGuid : Guid_t;
  rc_sn : SequenceNumber_t
}.

(** [Reader.h:65-72] ReaderCacheChange::copyInto *)
Definition copyInto (destSize : Z) (c : ReaderCacheChange) : res (option (list Z)) :=
  if destSize <? rc_size c then Ok None else '(l, _) ← doCopyAndMoveOn (rc_size c) (rc_data c); Ok (Some l).

(** ** What the receiver needs of a participant *)

(** Readers and writers are referred to by their places in the participant's arrays. *)
Class Endpoints (P E : Type) := {
  ep_prefix : P → GuidPrefix_t;
  ep_getReader : EntityId_t → P → option nat;
  ep_getReaderByWriterId : Guid_t → P → res (option nat);
  ep_getWriter : EntityId_t → P → option nat;
  ep_newChange : nat → ReaderCacheChange → P → res (P * list E);
  ep_onNewHeartbeat : nat → SubmessageHeartbeat → GuidPrefix_t → P → res (P * list E);
  ep_onNewGapMessage : nat → SubmessageGap → GuidPrefix_t → P → res (P * list E);
  ep_onNewAckNack : nat → SubmessageAckNack → GuidPrefix_t → P → res (P * list E);
  ep_refresh : GuidPrefix_t → P → res P
}.

(** [types.h:281-281] VENDOR_UNKNOWN *)
Definition VENDOR_UNKNOWN : list Z := [0; 0].

(** [MessageReceiver.h:39-46] MessageReceiver *)
Record MessageReceiver := mkReceiver {
  sourceGuidPrefix : GuidPrefix_t;
  sourceVersion : ProtocolVersion_t;
  sourceVendor : list Z;
  haveTimeStamp : bool
}.

Section receiver.
Context {P E : Type} `{Endpoints P E}.
Implicit Types (r : MessageReceiver) (p : P) (info : MessageProcessingInfo).

(** [MessageReceiver.cpp:49-54] MessageReceiver::resetState *)
Definition resetState : MessageReceiver := mkReceiver GUIDPREFIX_UNKNOWN PROTOCOLVERSION VENDOR_UNKNOWN false.

(** [MessageReceiver.cpp:74-96] MessageReceiver::processHeader *)
Definition processHeader p info r : res (bool * MessageProcessingInfo * MessageReceiver) :=
  header ← deserialize_Header info;
  match header with
  | None => Ok (false, info, r)
  | Some header =>
      if bool_decide (guidPrefix header = ep_prefix p) then Ok (false, info, r)
      else if bool_decide (protocolName header ≠ RTPS_PROTOCOL_NAME ∨ major (protocolVersion header) ≠ major PROTOCOLVERSION) then Ok (false, info, r)
      else
        Ok (true, mkInfo (data info) (size info) (u16 (nextPos info + Header_getRawSize)),
            mkReceiver (guidPrefix header) (protocolVersion header) (vendorId header) (haveTimeStamp r))
  end.

(** [MessageReceiver.cpp:137-191] MessageReceiver::processDataSubmessage *)
Definition processDataSubmessage info (submsgHeader : SubmessageHeader) r p : res (bool * P * list E) :=
  dataSubmsg ← deserialize_Data info;
  match dataSubmsg with
  | None => Ok (false, p, [])
  | Some dataSubmsg =>
      let size := u16 (octetsToNextHeader submsgHeader - SubmessageData_getRawSize + SubmessageHeader_getRawSize) in
      let serializedData := take (Z.to_nat size) (advance SubmessageData_getRawSize (getPointerToCurrentPos info)) in
      let writerGuid := mkGuid (sourceGuidPrefix r) (d_writerId dataSubmsg) in
      reader ← (if bool_decide (d_readerId dataSubmsg = ENTITYID_UNKNOWN) then ep_getReaderByWriterId writerGuid p
                else Ok (ep_getReader (d_readerId dataSubmsg) p));
      match reader with
      | Some reader =>
          '(p, ev) ← ep_newChange reader (mkReaderChange serializedData ALIVE size writerGuid (d_writerSN dataSubmsg)) p;
          Ok (true, p, ev)
      | None => Ok (true, p, [])
      end
  end.

(** [MessageReceiver.cpp:193-208] MessageReceiver::processHeartbeatSubmessage *)
Definition processHeartbeatSubmessage info r p : res (bool * P * list E) :=
  submsgHB ← deserialize_Heartbeat info;
  match submsgHB with
  | None => Ok (false, p, [])
  | Some submsgHB =>
      match ep_getReader (h_readerId submsgHB) p with
      | Some reader =>
          '(p, ev) ← ep_onNewHeartbeat reader submsgHB (sourceGuidPrefix r) p;
          p ← ep_refresh (sourceGuidPrefix r) p;
          Ok (true, p, ev)
      | None => Ok (false, p, [])
      end
  end.

(** [MessageReceiver.cpp:210-223] MessageReceiver::processAckNackSubmessage *)
Definition processAckNackSubmessage info r p : res (bool * P * list E) :=
  submsgAckNack ← deserialize_AckNack info;
  match submsgAckNack with
  | None => Ok (false, p, [])
  | Some submsgAckNack =>
      match ep_getWriter (a_writerId submsgAckNack) p with
      | Some writer => '(p, ev) ← ep_onNewAckNack writer submsgAckNack (sourceGuidPrefix r) p; Ok (true, p, ev)
      | None => Ok (false, p, [])
      end
  end.

(** [MessageReceiver.cpp:225-238] MessageReceiver::processGapSubmessage *)
Definition processGapSubmessage info r p : res (bool * P * list E) :=
  submsgGap ← deserialize_Gap info;
  match submsgGap with
  | None => Ok (false, p, [])
  | Some submsgGap =>
      match ep_getReader (g_readerId submsgGap) p with
      | Some reader => '(p, ev) ← ep_onNewGapMessage reader submsgGap (sourceGuidPrefix r) p; Ok (true, p, ev)
      | None => Ok (false, p, [])
      end
  end.

(** [MessageReceiver.cpp:98-135] MessageReceiver::processSubmessage *)
Definition processSubmessage info (submsgHeader : SubmessageHeader) r p : res (bool * MessageProcessingInfo * P * list E) :=
  '(success, p, ev) ← (
    if submessageId submsgHeader =? ACKNACK then processAckNackSubmessage info r p
    else if submessageId submsgHeader =? DATA then processDataSubmessage info submsgHeader r p
    else if submessageId submsgHeader =? HEARTBEAT then processHeartbeatSubmessage info r p
    else if submessageId submsgHeader =? INFO_DST then Ok (true, p, [])
    else if submessageId submsgHeader =? GAP then processGapSubmessage info r p
    else if submessageId submsgHeader =? INFO_TS then Ok (true, p, [])
    else Ok (false, p, []));
  Ok (success, mkInfo (data info) (size info) (u16 (nextPos info + (octetsToNextHeader submsgHeader + SubmessageHeader_getRawSize))), p, ev).

(** The loop of [processMessage]. *)
Fixpoint processMessage_loop (fuel : nat) info r p (ev : list E) : res (bool * P * list E) :=
  if nextPos info <? size info then
    match fuel with
    | O => Err OutOfFuel
    | S fuel =>
        submsgHeader ← deserialize_SubmessageHeader info;
        match submsgHeader with
        | None => Ok (false, p, ev)
        | Some submsgHeader =>
            '(_, info, p, ev') ← processSubmessage info submsgHeader r p;
            processMessage_loop fuel info r p (ev ++ ev')
        end
    end
  else Ok (true, p, ev).

(** [MessageReceiver.cpp:56-72] MessageReceiver::processMessage

    [data], of [size] bytes; the receiver's own fields serve one message only. *)
Definition processMessage (fuel : nat) (data : list Z) p : res (bool * P * list E) :=
  '(b, info, r) ← processHeader p (mkInfo data (zlen data) 0) resetState;
  if negb b then Ok (false, p, []) else processMessage_loop fuel info r p [].
End receiver.
