(* ===== verification/RtpsReceive.v ===== *)
(** * RTPS: a message is the sequence of its submessages

    The receiver, on the bytes of a header and of submessages one after another, calls for each
    submessage in turn what [dispatch] says; and what it does with messages that are not made
    like that. *)

From S2P Require Import Prelude RtpsTypes RtpsBuffer RtpsMessages RtpsCodec RtpsReceiver.
Local Open Scope Z_scope.

(** ** Messages as sequences of submessages *)

Inductive submessage :=
  | SubData (m : SubmessageData) (payload : list Z)
  | SubHeartbeat (m : SubmessageHeartbeat)
  | SubAckNack (m : SubmessageAckNack)
  | SubGap (m : SubmessageGap)
  | SubOther (h : SubmessageHeader) (body : list Z).

Definition sub_header (s : submessage) : SubmessageHeader :=
  match s with
  | SubData m _ => d_header m
  | SubHeartbeat m => h_header m
  | SubAckNack m => a_header m
  | SubGap m => g_header m
  | SubOther h _ => h
  end.

Definition wire (s : submessage) : list Z :=
  match s with
  | SubData m payload => wire_data m ++ payload
  | SubHeartbeat m => wire_heartbeat m
  | SubAckNack m => wire_acknack m
  | SubGap m => wire_gap m
  | SubOther h body => wire_sub h ++ body
  end.

(** The fields are in range, the header announces the kind and the length. *)
Definition submessage_ok (s : submessage) : Prop :=
  match s with
  | SubData m payload => data_ok m ∧ submessageId (d_header m) = DATA
  | SubHeartbeat m => heartbeat_ok m ∧ submessageId (h_header m) = HEARTBEAT
  | SubAckNack m => acknack_ok m ∧ submessageId (a_header m) = ACKNACK
  | SubGap m => gap_ok m ∧ submessageId (g_header m) = GAP
  | SubOther h _ => sub_ok h ∧ submessageId h ∉ [ACKNACK; DATA; HEARTBEAT; GAP]
  end ∧ zlen (wire s) = 4 + octetsToNextHeader (sub_header s).

Definition message_bytes (h : Header) (subs : list submessage) : list Z := wire_header h ++ concat (wire <$> subs).

Section receive.
Context {P E : Type} `{Endpoints P E}.
Implicit Types (r : MessageReceiver) (p : P) (info : MessageProcessingInfo).

(** What a submessage from a participant means to the endpoints. *)
Definition dispatch (from : GuidPrefix_t) (s : submessage) p : res (P * list E) :=
  match s with
  | SubData m payload =>
      let guid := mkGuid from (d_writerId m) in
      reader ← (if bool_decide (d_readerId m = ENTITYID_UNKNOWN) then ep_getReaderByWriterId guid p else Ok (ep_getReader (d_readerId m) p));
      match reader with
      | Some i => ep_newChange i (mkReaderChange payload ALIVE (zlen payload) guid (d_writerSN m)) p
      | None => Ok (p, [])
      end
  | SubHeartbeat m =>
      match ep_getReader (h_readerId m) p with
      | Some i => '(p, ev) ← ep_onNewHeartbeat i m from p; p ← ep_refresh from p; Ok (p, ev)
      | None => Ok (p, [])
      end
  | SubAckNack m => match ep_getWriter (a_writerId m) p with Some i => ep_onNewAckNack i m from p | None => Ok (p, []) end
  | SubGap m => match ep_getReader (g_readerId m) p with Some i => ep_onNewGapMessage i m from p | None => Ok (p, []) end
  | SubOther _ _ => Ok (p, [])
  end.

Fixpoint dispatch_all (from : GuidPrefix_t) (subs : list submessage) p (ev : list E) : res (P * list E) :=
  match subs with
  | [] => Ok (p, ev)
  | s :: subs => '(p, ev') ← dispatch from s p; dispatch_all from subs p (ev ++ ev')
  end.

Lemma wire_sub_prefix s : ∃ w, wire s = wire_sub (sub_header s) ++ w.
Proof. destruct s; cbn [wire sub_header]; [unfold wire_data; rewrite <- !app_assoc|..]; by eexists. Qed.

(** One submessage, and the place of the next. *)
Lemma processSubmessage_ok s info rest r p :
  submessage_ok s → at_place info (wire s) rest →
  ∃ b info', processSubmessage info (sub_header s) r p = ('(p, ev) ← dispatch (sourceGuidPrefix r) s p; Ok (b, info', p, ev)) ∧
    at_place info' [] rest ∧ data info' = data info.
Proof.
  intros [Hok Hl] Hp. pose proof Hp as (H0 & Hd & Hs & Hlt & Hle).
  set (info' := mkInfo (data info) (size info) (u16 (nextPos info + (octetsToNextHeader (sub_header s) + SubmessageHeader_getRawSize)))).
  assert (at_place info' [] rest) as Hp'.
  { assert (zlen (drop (Z.to_nat (nextPos info)) (data info)) = size info - nextPos info) as Hsz by (rewrite Hs in *; unfold zlen in *; rewrite length_drop; lia).
    rewrite Hd, zlen_app, Hl in Hsz. pose proof (zlen_nonneg rest). change SubmessageHeader_getRawSize with 4 in *.
    assert (0 ≤ 4 + octetsToNextHeader (sub_header s)) by (rewrite <- Hl; apply zlen_nonneg).
    unfold at_place, info'. cbn [nextPos data size]. rewrite wrap_id by zlia. conj; try lia.
    replace (nextPos info + (octetsToNextHeader (sub_header s) + 4)) with (nextPos info + zlen (wire s)) by lia.
    unfold zlen. rewrite Z2Nat.inj_add, Nat2Z.id, <- drop_drop, Hd by lia. by rewrite drop_app_length. }
  unfold processSubmessage. fold info'. destruct s as [m payload|m|m|m|h body]; cbn [sub_header wire dispatch] in *.
  - destruct Hok as [Hm ->]. change (DATA =? ACKNACK) with false. change (DATA =? DATA) with true. cbn iota.
    pose proof Hm as Hm'. destruct Hm' as (_ & _ & _ & Hr & Hw & _). assert (zlen (wire_data m) = 24) as Hl24 by (unfold wire_data; by zlen_wire).
    rewrite zlen_app in Hl. unfold processDataSubmessage. rewrite (deserialize_Data_ok m info (payload ++ rest)); [|done|by apply at_place_split|].
    2: { rewrite zlen_app. pose proof (zlen_nonneg rest). lia. }
    res_simpl. rewrite (at_place_pointer _ _ _ Hp), <- app_assoc, advance_app by done.
    assert (u16 (octetsToNextHeader (d_header m) - SubmessageData_getRawSize + SubmessageHeader_getRawSize) = zlen payload) as ->.
    { change SubmessageData_getRawSize with 24. change SubmessageHeader_getRawSize with 4. rewrite wrap_id; [lia|].
      pose proof (zlen_nonneg payload). destruct Hm as ((_ & _ & Ho) & _). unfold fits in *. lia. }
    unfold zlen at 1. rewrite Nat2Z.id, take_app_length.
    destruct (if bool_decide _ then _ else _) as [[i|]|]; res_simpl; [|by exists true, info'|by exists true, info'].
    exists true, info'. split; [|done]. by destruct (ep_newChange _ _ _) as [[? ?]|].
  - destruct Hok as [Hm ->]. change (HEARTBEAT =? ACKNACK) with false. change (HEARTBEAT =? DATA) with false. change (HEARTBEAT =? HEARTBEAT) with true. cbn iota.
    unfold processHeartbeatSubmessage. rewrite (deserialize_Heartbeat_ok m info rest) by done. res_simpl.
    destruct (ep_getReader _ p) as [i|]; [|by exists false, info'].
    exists true, info'. split; [|done]. destruct (ep_onNewHeartbeat _ _ _ _) as [[? ?]|]; [|done]. res_simpl. by destruct (ep_refresh _ _).
  - destruct Hok as [Hm ->]. change (ACKNACK =? ACKNACK) with true. cbn iota.
    unfold processAckNackSubmessage. rewrite (deserialize_AckNack_ok m info rest) by done. res_simpl.
    destruct (ep_getWriter _ p) as [i|]; [|by exists false, info'].
    exists true, info'. split; [|done]. by destruct (ep_onNewAckNack _ _ _ _) as [[? ?]|].
  - destruct Hok as [Hm ->]. change (GAP =? ACKNACK) with false. change (GAP =? DATA) with false. change (GAP =? HEARTBEAT) with false.
    change (GAP =? INFO_DST) with false. change (GAP =? GAP) with true. cbn iota.
    unfold processGapSubmessage. rewrite (deserialize_Gap_ok m info rest) by done. res_simpl.
    destruct (ep_getReader _ p) as [i|]; [|by exists false, info'].
    exists true, info'. split; [|done]. by destruct (ep_onNewGapMessage _ _ _ _) as [[? ?]|].
  - destruct Hok as [Hm Hid]. rewrite !not_elem_of_cons in Hid. destruct Hid as (Ha & Hd' & Hh & Hg & _).
    rewrite (proj2 (Z.eqb_neq _ _) Ha), (proj2 (Z.eqb_neq _ _) Hd'), (proj2 (Z.eqb_neq _ _) Hh), (proj2 (Z.eqb_neq _ _) Hg). res_simpl.
    destruct (submessageId h =? INFO_DST); [by exists true, info'|]. destruct (submessageId h =? INFO_TS); [by exists true, info'|by exists false, info'].
Qed.

Lemma at_place_next info w rest : at_place info [] (w ++ rest) → at_place info w rest.
Proof. intros (? & Hd & ?). by split. Qed.

Lemma processMessage_loop_ok subs info fuel r p ev :
  Forall submessage_ok subs → at_place info [] (concat (wire <$> subs)) → (length subs ≤ fuel)%nat →
  processMessage_loop fuel info r p ev = ('(p, ev) ← dispatch_all (sourceGuidPrefix r) subs p ev; Ok (true, p, ev)).
Proof.
  revert info fuel p ev. induction subs as [|s subs IH]; intros info fuel p ev Hok Hp Hf.
  - pose proof (at_place_remaining _ _ _ Hp) as Hr. pose proof Hp as (H0 & _ & _ & Hlt & Hle). unfold getRemainingSize in Hr.
    cbn [fmap list_fmap concat] in Hr. change (zlen [] + zlen []) with 0 in Hr. rewrite wrap_id in Hr by zlia. destruct fuel; cbn [processMessage_loop dispatch_all]; res_simpl.
    all: by rewrite (proj2 (Z.ltb_ge _ _)) by lia.
  - apply Forall_cons in Hok as [Hs Hok]. cbn [fmap list_fmap concat] in Hp. destruct fuel as [|fuel]; [cbn in Hf; lia|]. cbn [processMessage_loop].
    apply at_place_next in Hp. pose proof (at_place_remaining _ _ _ Hp) as Hr. destruct (wire_sub_prefix s) as [w Hw].
    pose proof Hp as (H0 & _ & _ & Hlt & Hle). unfold getRemainingSize in Hr.
    assert (4 ≤ zlen (wire s)) by (rewrite Hw, zlen_app, zlen_sub; pose proof (zlen_nonneg w); lia).
    pose proof (zlen_nonneg (concat (wire <$> subs))). rewrite wrap_id in Hr by zlia. rewrite (proj2 (Z.ltb_lt _ _)) by lia.
    rewrite (deserialize_SubmessageHeader_ok (sub_header s) info (w ++ concat (wire <$> subs))); [| |rewrite Hw in Hp; by apply at_place_split].
    2: { destruct Hs as [Hs _]. destruct s; cbn [sub_header]; destruct Hs as [Hm ?]; [destruct Hm as [? _]..|]; done. }
    res_simpl. destruct (processSubmessage_ok s info _ r p Hs Hp) as (b & info' & -> & Hp' & _). cbn [dispatch_all].
    destruct (dispatch _ s p) as [[p' ev']|]; [|done]. res_simpl. apply IH; [done..|cbn in Hf; lia].
Qed.

Lemma processHeader_ok h subs p :
  header_ok h → protocolName h = RTPS_PROTOCOL_NAME → major (protocolVersion h) = major PROTOCOLVERSION → guidPrefix h ≠ ep_prefix p →
  zlen (message_bytes h subs) < 2 ^ 16 →
  ∃ info r, processHeader p (mkInfo (message_bytes h subs) (zlen (message_bytes h subs)) 0) resetState = Ok (true, info, r) ∧
    sourceGuidPrefix r = guidPrefix h ∧ at_place info [] (concat (wire <$> subs)).
Proof.
  intros Hh Hn Hm Hg Hl. unfold processHeader. rewrite (deserialize_Header_ok h _ (concat (wire <$> subs)) Hh).
  2: { apply (at_place_at [] (wire_header h)). done. }
  res_simpl. rewrite (bool_decide_false _ Hg), bool_decide_false by (intros [?|?]; done).
  eexists _, _. split; [done|]. split; [done|]. unfold at_place. cbn [nextPos data size]. change (u16 (0 + Header_getRawSize)) with 20.
  unfold message_bytes in *. rewrite zlen_app, zlen_header in * by done. pose proof (zlen_nonneg (concat (wire <$> subs))). conj; try lia.
  replace (Z.to_nat 20) with (length (wire_header h)) by (pose proof (zlen_header h Hh); unfold zlen in *; lia). by rewrite drop_app_length.
Qed.

Lemma processMessage_ok h subs p fuel :
  header_ok h → protocolName h = RTPS_PROTOCOL_NAME → major (protocolVersion h) = major PROTOCOLVERSION → guidPrefix h ≠ ep_prefix p →
  Forall submessage_ok subs → zlen (message_bytes h subs) < 2 ^ 16 → (length subs ≤ fuel)%nat →
  processMessage fuel (message_bytes h subs) p = ('(p, ev) ← dispatch_all (guidPrefix h) subs p []; Ok (true, p, ev)).
Proof.
  intros Hh Hn Hm Hg Hok Hl Hf. unfold processMessage. destruct (processHeader_ok h subs p) as (info & r & -> & <- & Hp); [done..|].
  res_simpl. cbn [negb]. by apply processMessage_loop_ok.
Qed.

(** C18 The receiver takes messages apart correctly: for every message made of a header of the
    protocol from another participant and of submessages with fields in range, as many as fit
    into 65535 bytes, it has the same effect as handling the submessages in their order, each
    with the contents that were written; no other bytes are touched and the loop ends. *)
Theorem processMessage_correct h subs p fuel :
  header_ok h → protocolName h = RTPS_PROTOCOL_NAME → major (protocolVersion h) = major PROTOCOLVERSION → guidPrefix h ≠ ep_prefix p →
  Forall submessage_ok subs → zlen (message_bytes h subs) < 2 ^ 16 → (length subs ≤ fuel)%nat →
  processMessage fuel (message_bytes h subs) p = ('(p, ev) ← dispatch_all (guidPrefix h) subs p []; Ok (true, p, ev)).
Proof. apply processMessage_ok. Qed.

(** ** Messages the receiver cannot take *)

(** C19 A submessage whose announced length makes the 16-bit position come round again is handled
    for ever: 24 bytes from any other participant, a header and four bytes of a padding
    submessage of length 65532, keep the receiver busy without end. *)
Theorem processMessage_diverges h p fuel :
  header_ok h → protocolName h = RTPS_PROTOCOL_NAME → major (protocolVersion h) = major PROTOCOLVERSION → guidPrefix h ≠ ep_prefix p →
  processMessage fuel (wire_header h ++ [1; 1; 252; 255]) p = Err OutOfFuel.
Proof.
  intros Hh Hn Hm Hg. set (s := mkSub 1 1 65532).
  assert (sub_ok s) as Hs by (unfold sub_ok, is_byte, s; cbn [submessageId flags octetsToNextHeader]; unfold fits; lia).
  assert ([1; 1; 252; 255] = wire_sub s) as -> by reflexivity.
  destruct (processHeader_ok h [SubOther s []] p) as (info & r & Hph & _ & Hp); [done..| |].
  { unfold message_bytes. cbn [fmap list_fmap concat wire]. by rewrite !zlen_app, zlen_header, zlen_sub by done. }
  unfold message_bytes in Hph. cbn [fmap list_fmap concat wire] in Hph, Hp. rewrite !app_nil_r in Hph, Hp.
  unfold processMessage. rewrite Hph. res_simpl. cbn [negb]. pose proof (at_place_remaining _ _ _ Hp) as Hr. pose proof Hp as (H0 & _ & _ & Hlt & Hle).
  rewrite zlen_nil, zlen_sub in Hr. unfold getRemainingSize in Hr. rewrite wrap_id in Hr by zlia.
  generalize (@nil E) as ev. induction fuel as [|fuel IH]; intros ev; cbn [processMessage_loop]; rewrite (proj2 (Z.ltb_lt _ _)) by lia; [done|].
  rewrite (deserialize_SubmessageHeader_ok s info []); [|done|by apply at_place_next; rewrite app_nil_r]. res_simpl.
  assert (processSubmessage info s r p = Ok (false, info, p, [])) as ->; [|res_simpl; apply IH].
  unfold processSubmessage. change (octetsToNextHeader s + SubmessageHeader_getRawSize) with (1 * 2 ^ 16).
  unfold wrap. rewrite Z_mod_plus_full, Z.mod_small by lia. by destruct info.
Qed.

(** The receiver reads behind the end of a message: a DATA submessage may announce a length
    below that of its own fields, which are read all the same. *)
Theorem processMessage_overread h p fuel :
  header_ok h → protocolName h = RTPS_PROTOCOL_NAME → major (protocolVersion h) = major PROTOCOLVERSION → guidPrefix h ≠ ep_prefix p →
  processMessage (S fuel) (wire_header h ++ [DATA; 1; 0; 0]) p = Err Undefined.
Proof.
  intros Hh Hn Hm Hg. set (s := mkSub DATA 1 0).
  assert (sub_ok s) as Hs by (unfold sub_ok, is_byte, s; cbn [submessageId flags octetsToNextHeader]; unfold fits, DATA; lia).
  assert ([DATA; 1; 0; 0] = wire_sub s) as -> by reflexivity.
  destruct (processHeader_ok h [SubOther s []] p) as (info & r & Hph & _ & Hp); [done..| |].
  { unfold message_bytes. cbn [fmap list_fmap concat wire]. by rewrite !zlen_app, zlen_header, zlen_sub by done. }
  unfold message_bytes in Hph. cbn [fmap list_fmap concat wire] in Hph, Hp. rewrite !app_nil_r in Hph, Hp.
  unfold processMessage. rewrite Hph. res_simpl. cbn [negb]. pose proof (at_place_remaining _ _ _ Hp) as Hr. pose proof Hp as (H0 & _ & _ & Hlt & Hle).
  rewrite zlen_nil, zlen_sub in Hr. pose proof Hr as Hr'. unfold getRemainingSize in Hr'. rewrite wrap_id in Hr' by zlia.
  cbn [processMessage_loop]. rewrite (proj2 (Z.ltb_lt _ _)) by lia.
  assert (at_place info (wire_sub s) []) as Hp' by (apply at_place_next; by rewrite app_nil_r).
  rewrite (deserialize_SubmessageHeader_ok s info []) by done. res_simpl.
  unfold processSubmessage. change (submessageId s =? ACKNACK) with false. change (submessageId s =? DATA) with true. cbn iota.
  unfold processDataSubmessage, deserialize_Data. rewrite Hr. rewrite (deserialize_SubmessageHeader_ok s info []) by done.
  change (0 + 4 <? SubmessageHeader_getRawSize) with false. cbn iota. res_simpl. change (0 + 4 <? SubmessageHeader_getRawSize + octetsToNextHeader s) with false. cbn iota.
  rewrite (at_place_pointer _ _ _ Hp'), (advance_app SubmessageHeader_getRawSize) by apply zlen_sub. done.
Qed.
End receive.
