(* ===== verification/RtpsPackets.v ===== *)
(** * RTPS: the packets that are sent

    Each packet that readers and writers make is, byte by byte, a header and the submessages it
    is meant to carry, so that the receiver ([RtpsReceive]) takes it for these. *)

From S2P Require Import Prelude RtpsTypes RtpsBuffer RtpsMessages RtpsCodec RtpsReceiver RtpsReceive.
Local Open Scope Z_scope.

Section packets.
Context {B : Type} `{MessageBufferLaws B} (VENDOR_ID : list Z) (HV : length VENDOR_ID = 2%nat).

(** The header of this implementation. *)
Definition rtps_header (g : GuidPrefix_t) : Header := mkHeader RTPS_PROTOCOL_NAME PROTOCOLVERSION VENDOR_ID g.

Lemma rtps_header_ok g : prefix_ok g → header_ok (rtps_header g).
Proof using HV.
  intros [Hg _]. unfold header_ok, rtps_header, is_byte. cbn [protocolName protocolVersion major minor vendorId guidPrefix PROTOCOLVERSION]. conj; done.
Qed.

(** The submessages. *)
Definition timestamp (nowMs : Z) : submessage := SubOther (mkSub INFO_TS 1 8) (le 4 (fst (getCurrentTimeStamp nowMs)) ++ le 4 (snd (getCurrentTimeStamp nowMs))).

Definition data_sub (inlineQos : bool) (sn : SequenceNumber_t) (writer reader : EntityId_t) (payload : list Z) : submessage :=
  SubData (mkData (mkSub DATA (if inlineQos then 7 else 5) (20 + zlen payload)) 0 16 reader writer sn) payload.

Definition heartbeat_sub (writer reader : EntityId_t) (first last : SequenceNumber_t) (count : Z) : submessage :=
  SubHeartbeat (mkHeartbeat (mkSub HEARTBEAT 1 28) reader writer first last count).

Definition acknack_msg (writer reader : EntityId_t) (set : SequenceNumberSet) (count : Z) : SubmessageAckNack :=
  mkAckNack (mkSub ACKNACK 1 (SubmessageAckNack_getRawSize set - 4)) reader writer set count.

Definition gap_sub (writer reader : EntityId_t) (sn next : SequenceNumber_t) : submessage :=
  SubGap (mkGap (mkSub GAP 1 32) reader writer sn (mkSNS next 0 [0])).

Lemma zlen_timestamp now : zlen (wire (timestamp now)) = 12.
Proof using. clear HV. unfold timestamp. cbn [wire]. zlen_wire. done. Qed.

Lemma timestamp_ok now : submessage_ok (timestamp now).
Proof using. clear HV.
  split; [|by rewrite zlen_timestamp]. unfold timestamp. split.
  - unfold sub_ok, is_byte, INFO_TS. cbn [submessageId flags octetsToNextHeader]. unfold fits. lia.
  - cbn [submessageId]. unfold INFO_TS, ACKNACK, DATA, HEARTBEAT, GAP. rewrite !not_elem_of_cons. conj; try lia. apply not_elem_of_nil.
Qed.

Lemma data_sub_ok q sn writer reader payload :
  sn_ok sn → id_ok writer → id_ok reader → zlen payload < 65000 → submessage_ok (data_sub q sn writer reader payload).
Proof using. clear HV.
  intros Hs Hw Hr Hl. pose proof (zlen_nonneg payload). unfold data_sub. split.
  - split; [|done]. unfold data_ok, sub_ok, is_byte, DATA. cbn [d_header d_extraFlags d_octetsToInlineQos d_readerId d_writerId d_writerSN submessageId flags octetsToNextHeader].
    conj; try done; try (unfold fits; lia). all: destruct q; lia.
  - cbn [wire sub_header d_header octetsToNextHeader]. rewrite zlen_app. unfold wire_data. cbn [d_readerId d_writerId]. zlen_wire. lia.
Qed.

Lemma heartbeat_sub_ok writer reader first last count :
  sn_ok first → sn_ok last → id_ok writer → id_ok reader → s32 count → submessage_ok (heartbeat_sub writer reader first last count).
Proof using. clear HV.
  intros Hf Hl Hw Hr Hc. unfold heartbeat_sub. split.
  - split; [|done]. unfold heartbeat_ok, sub_ok, is_byte, HEARTBEAT. cbn [h_header h_readerId h_writerId h_firstSN h_lastSN h_count submessageId flags octetsToNextHeader].
    conj; try done; unfold fits; lia.
  - cbn [wire sub_header h_header octetsToNextHeader]. unfold wire_heartbeat. cbn [h_readerId h_writerId]. zlen_wire. done.
Qed.

Lemma acknack_msg_ok writer reader set count :
  set_ok set → id_ok writer → id_ok reader → s32 count → acknack_ok (acknack_msg writer reader set count).
Proof using. clear HV.
  intros Hs Hw Hr Hc. unfold acknack_ok, acknack_msg, sub_ok, is_byte, ACKNACK. cbn [a_header a_readerId a_writerId a_readerSNState a_count submessageId flags octetsToNextHeader].
  conj; try done. all: unfold SubmessageAckNack_getRawSize; destruct (_ =? 0); done.
Qed.

Lemma acknack_sub_ok writer reader set count :
  set_ok set → id_ok writer → id_ok reader → s32 count → submessage_ok (SubAckNack (acknack_msg writer reader set count)).
Proof using. clear HV.
  intros Hs Hw Hr Hc. split; [split; [by apply acknack_msg_ok|done]|].
  cbn [wire sub_header]. unfold wire_acknack, acknack_msg. cbn [a_header a_readerId a_writerId a_readerSNState a_count octetsToNextHeader]. zlen_wire.
  unfold SubmessageAckNack_getRawSize. by destruct (_ =? 0).
Qed.

Lemma gap_sub_ok writer reader sn next :
  sn_ok sn → sn_ok next → id_ok writer → id_ok reader → submessage_ok (gap_sub writer reader sn next).
Proof using. clear HV.
  intros Hs Hn Hw Hr. unfold gap_sub.
  assert (set_ok (mkSNS next 0 [0])) as Hset by (split; [done|]; cbn; split; [lia|]; exists 0; by unfold fits).
  split.
  - split; [|done]. unfold gap_ok, sub_ok, is_byte, GAP. cbn [g_header g_readerId g_writerId g_gapStart g_gapList submessageId flags octetsToNextHeader]. conj; try done; unfold fits; lia.
  - cbn [wire sub_header g_header octetsToNextHeader]. unfold wire_gap. cbn [g_readerId g_writerId g_gapStart g_gapList]. zlen_wire. done.
Qed.

(** ** What is in the buffers *)

Lemma addHeader_ok g : prefix_ok g → mb_ok (addHeader VENDOR_ID g mb_empty) (wire_header (rtps_header g)) 0.
Proof using HV.
  intros Hg. unfold addHeader. destruct (serialize_Header_ok (rtps_header g) mb_empty [] 0) as (b & E & Hb); [by apply rtps_header_ok|apply mb_ok_empty|done|].
  fold (rtps_header g). rewrite E. exact Hb.
Qed.

(** The header of the time stamp leaves 16 bytes free, of which its time takes eight. *)
Lemma addSubMessageTimeStamp_ok now b c :
  mb_ok b c 0 → zlen c < 65000 → mb_ok (addSubMessageTimeStamp now false b) (c ++ wire (timestamp now)) 8.
Proof using. clear HV.
  intros Hb Hc. unfold addSubMessageTimeStamp. change (Z.lor _ _) with 3.
  destruct (serialize_SubmessageHeader_ok (mkSub INFO_TS FLAG_LITTLE_ENDIAN 8) b c 0 Hb) as (b1 & -> & Hb1); [lia|]. cbn [snd].
  destruct (reserve_ok b1 _ _ 8 Hb1) as (b2 & -> & Hb2); [done|rewrite zlen_app, zlen_sub; lia|]. cbn [snd].
  change (Z.max (Z.max 0 20 - 4) 8) with 16 in Hb2. set (w := le 4 (fst (getCurrentTimeStamp now)) ++ le 4 (snd (getCurrentTimeStamp now))).
  assert (zlen w = 8) as Hw by (unfold w; by zlen_wire). replace 8 with (16 - zlen w) by lia.
  unfold timestamp. cbn [wire]. fold w. rewrite (app_assoc c). apply append_fields_ok; [done|nonempty| |lia].
  unfold w. cbn [concat]. by rewrite app_nil_r.
Qed.

Lemma addSubMessageData_ok b c f d payload q sn writer reader :
  mb_ok b c f → f ≤ 24 → mb_ok d payload 0 → payload ≠ [] → zlen c + zlen payload < 65000 → sn_ok sn → id_ok writer → id_ok reader →
  mb_ok (addSubMessageData d q sn writer reader b) (c ++ wire (data_sub q sn writer reader payload)) 0.
Proof using. clear HV.
  intros Hb Hf Hd Hp Hl Hs Hw Hr. unfold addSubMessageData. pose proof (zlen_nonneg c). pose proof (zlen_nonneg payload).
  rewrite (mb_ok_used _ _ _ Hd), (mb_ok_valid _ _ _ Hd Hp).
  assert (u16 (SubmessageData_getRawSize + zlen payload - 4) = 20 + zlen payload) as ->.
  { change SubmessageData_getRawSize with 24. rewrite wrap_id by zlia. lia. }
  assert (Z.lor (if q then Z.lor FLAG_LITTLE_ENDIAN FLAG_INLINE_QOS else FLAG_LITTLE_ENDIAN) FLAG_DATA_PAYLOAD = if q then 7 else 5) as -> by (by destruct q).
  change (4 + 4 + 8) with 16. set (m := mkData _ _ _ _ _ _).
  destruct (data_sub_ok q sn writer reader payload) as [[Hm _] _]; [done..|lia|].
  destruct (serialize_Data_ok m b c f Hm Hb) as (b1 & -> & Hb1); [lia|]. cbn [snd]. rewrite Z.max_r, Z.sub_diag in Hb1 by lia.
  change (wire (data_sub q sn writer reader payload)) with (wire_data m ++ payload). rewrite app_assoc.
  assert (zlen (wire_data m) = 24) as H24 by (unfold wire_data, m; cbn [d_readerId d_writerId]; by zlen_wire).
  apply (mb_ok_cat b1 (c ++ wire_data m) d payload 0); [done| |done|done|rewrite zlen_app; lia].
  intros E. pose proof (zlen_app c (wire_data m)) as E'. rewrite E, zlen_nil in E'. lia.
Qed.

Lemma addHeartbeat_ok b c writer reader first last count :
  mb_ok b c 0 → zlen c < 65000 → sn_ok first → sn_ok last → id_ok writer → id_ok reader → s32 count →
  mb_ok (addHeartbeat writer reader first last count b) (c ++ wire (heartbeat_sub writer reader first last count)) 0.
Proof using. clear HV.
  intros Hb Hc Hf Hl Hw Hr Hn. unfold addHeartbeat. change (SubmessageHeartbeat_getRawSize - 4) with 28. set (m := mkHeartbeat _ _ _ _ _ _).
  destruct (heartbeat_sub_ok writer reader first last count) as [[Hm _] _]; [done..|].
  destruct (serialize_Heartbeat_ok m b c 0 Hm Hb) as (b1 & -> & Hb1); [lia|]. exact Hb1.
Qed.

Lemma addAckNack_ok b c writer reader set count :
  mb_ok b c 0 → zlen c < 65000 → set_ok set → id_ok writer → id_ok reader → s32 count →
  ∃ b', addAckNack writer reader set count false b = Ok b' ∧ mb_ok b' (c ++ wire (SubAckNack (acknack_msg writer reader set count))) 0.
Proof using. clear HV.
  intros Hb Hc Hs Hw Hr Hn. unfold addAckNack. change (Z.land FLAG_LITTLE_ENDIAN (Z.lnot FLAG_FINAL)) with 1.
  assert (0 < SubmessageAckNack_getRawSize set ≤ 32) as Hsz by (unfold SubmessageAckNack_getRawSize; by destruct (_ =? 0)).
  assert (u16 (SubmessageAckNack_getRawSize set - 4) = SubmessageAckNack_getRawSize set - 4) as ->.
  { unfold SubmessageAckNack_getRawSize. by destruct (_ =? 0). }
  fold (acknack_msg writer reader set count).
  destruct (serialize_AckNack_ok (acknack_msg writer reader set count) b c 0 _ (acknack_msg_ok _ _ _ _ Hs Hw Hr Hn) Hb eq_refl) as (b1 & -> & Hb1).
  { cbn [acknack_msg a_readerSNState]. lia. }
  exists b1. split; [done|]. cbn [acknack_msg a_readerSNState] in Hb1. rewrite Z.max_r, Z.sub_diag in Hb1 by lia. exact Hb1.
Qed.

Lemma addSubmessageGap_ok b c f writer reader z :
  mb_ok b c f → f ≤ 36 → zlen c < 65000 → - 2 ^ 63 ≤ z < 2 ^ 63 - 1 → id_ok writer → id_ok reader →
  ∃ b', addSubmessageGap writer reader (SN z) b = Ok b' ∧ mb_ok b' (c ++ wire (gap_sub writer reader (SN z) (SN (z + 1)))) 0.
Proof using. clear HV.
  intros Hb Hf Hc Hz Hw Hr. unfold addSubmessageGap. rewrite sn_incr_SN by lia. res_simpl. eexists. split; [done|]. set (m := mkGap _ _ _ _ _).
  destruct (gap_sub_ok writer reader (SN z) (SN (z + 1))) as [[Hm _] _]; [apply SN_ok; lia..|done|done|].
  destruct (serialize_Gap_ok m b c f Hm Hb) as (b1 & -> & Hb1); [lia|]. cbn [snd]. rewrite Z.max_r, Z.sub_diag in Hb1 by lia. exact Hb1.
Qed.

(** The bytes of a finished packet. *)
Lemma packet_bytes b h subs : mb_ok b (wire_header h ++ concat (wire <$> subs)) 0 → mb_bytes b = message_bytes h subs.
Proof using. clear HV. intros Hb. by rewrite (mb_ok_bytes _ _ Hb). Qed.

End packets.
