(* ===== verification/RtpsReader.v ===== *)
(** * RTPS: readers (src/contrib/embeddedrtps, rtps/entities/Reader, StatefulReader, StatelessReader)

    A reader knows its writers as proxies in a pool, and calls the application's callbacks for
    the changes that arrive; a stateful one takes them in the order of their numbers only and
    answers heartbeats and gaps.  What it does beyond its own state are [event]s: a packet is
    sent, a callback is called, a writer is queued for work.

    The simulator runs in one thread; locks are left out.  [SIZE] is
    [NUM_WRITER_PROXIES_PER_READER]. *)

From S2P Require Import Prelude RtpsTypes RtpsBuffer RtpsMessages RtpsReceiver MemoryPool.
Local Open Scope Z_scope.

(** ** Locators, packets and events *)

(** [Locator.h:162-176] LocatorIPv4

    [kind] is the value of [LocatorKind_t]: -1 invalid, 1 for UDP over IPv4; four bytes. *)
Record LocatorIPv4 := mkLocator { loc_kind : Z; loc_address : list Z; loc_port : Z (* uint32_t *) }.

Definition LOCATOR_KIND_INVALID : Z := -1.
Definition LOCATOR_KIND_UDPv4 : Z := 1.

(** [udpUtils.h:42-45] transformIP4ToU32

    The number of the address in the order of the network's bytes. *)
Definition transformIP4ToU32 (MSB p2 p1 LSB : Z) : Z := le_val [MSB; p2; p1; LSB].

(** [Locator.h:177-179] LocatorIPv4::getIp4Address *)
Definition getIp4Address (l : LocatorIPv4) : Z :=
  transformIP4ToU32 (nth 0 (loc_address l) 0) (nth 1 (loc_address l) 0) (nth 2 (loc_address l) 0) (nth 3 (loc_address l) 0).

(** [PacketInfo.h:33-43] PacketInfo *)
Record PacketInfo (B : Type) := mkPacket { srcPort : Z; destAddr : Z; destPort : Z; buffer : B }.
Arguments mkPacket {B} _ _ _ _.
Arguments srcPort {B} _.
Arguments destAddr {B} _.
Arguments destPort {B} _.
Arguments buffer {B} _.

(** The fields of the endpoints' attributes ([TopicData]) that reading and writing use. *)
Record Attributes := mkAttributes { endpointGuid : Guid_t; unicastLocator : LocatorIPv4; multicastLocator : LocatorIPv4 }.

Inductive event (B : Type) :=
  | Send (p : PacketInfo B)
  | Called (function arg : Z) (c : ReaderCacheChange)
  | AddWorkload (writer : EntityId_t).
Arguments Send {B} _.
Arguments Called {B} _ _ _.
Arguments AddWorkload {B} _.

(** ** Proxies of writers *)

(** [WriterProxy.h:32-45] WriterProxy *)
Record WriterProxy := mkWriterProxy {
  remoteWriterGuid : Guid_t;
  expectedSN : SequenceNumber_t;
  w_ackNackCount : Z (* int32_t *);
  w_hbCount : Z (* int32_t *);
  w_is_reliable : bool;
  w_remoteLocator : LocatorIPv4
}.

(** [WriterProxy.h:42-45] WriterProxy::WriterProxy *)
Definition WriterProxy_new (guid : Guid_t) (loc : LocatorIPv4) (reliable : bool) : WriterProxy :=
  mkWriterProxy guid (mkSN 0 1) 1 0 reliable loc.

Definition set_expectedSN (s : SequenceNumber_t) (w : WriterProxy) : WriterProxy :=
  mkWriterProxy (remoteWriterGuid w) s (w_ackNackCount w) (w_hbCount w) (w_is_reliable w) (w_remoteLocator w).
Definition set_hbCount (c : Z) (w : WriterProxy) : WriterProxy :=
  mkWriterProxy (remoteWriterGuid w) (expectedSN w) (w_ackNackCount w) c (w_is_reliable w) (w_remoteLocator w).
Definition set_ackNackCount (c : Z) (w : WriterProxy) : WriterProxy :=
  mkWriterProxy (remoteWriterGuid w) (expectedSN w) c (w_hbCount w) (w_is_reliable w) (w_remoteLocator w).

(** [WriterProxy.h:49-62] WriterProxy::getMissing *)
Definition getMissing (firstAvail lastAvail : SequenceNumber_t) (w : WriterProxy) : SequenceNumberSet :=
  if sn_ltb lastAvail (expectedSN w) then mkSNS (expectedSN w) 0 [0] else mkSNS (expectedSN w) 1 [Z.shiftl 1 31].

(** [WriterProxy.h:64-68] WriterProxy::getNextAckNackCount *)
Definition getNextAckNackCount (w : WriterProxy) : res (Z * WriterProxy) :=
  n ← int32 (w_ackNackCount w + 1);
  Ok (w_ackNackCount w, set_ackNackCount n w).

(** ** Readers *)

(** [Reader.h:130-134] callbackElement_t

    Functions and their arguments are named by numbers; [None] is the null pointer. *)
Record callbackElement := mkCallback { cb_function : option Z; cb_arg : Z; cb_identifier : Z (* uint32_t *) }.

(** [Reader.h:120-136] Reader

    With the fields of the two classes below it, whose ports are equal to the attributes'. *)
Record Reader := mkReader {
  m_attributes : Attributes;
  m_is_initialized_ : bool;
  m_proxies : MemoryPool (A := WriterProxy);
  m_callback_identifier : Z (* uint32_t *);
  m_callback_count : Z (* uint8_t *);
  m_callbacks : list callbackElement;
  m_srcPort : Z;
  m_sedp_sequence_number : SequenceNumber_t
}.

Definition set_proxies (p : MemoryPool) (r : Reader) : Reader :=
  mkReader (m_attributes r) (m_is_initialized_ r) p (m_callback_identifier r) (m_callback_count r) (m_callbacks r) (m_srcPort r) (m_sedp_sequence_number r).
Definition set_callbacks (id count : Z) (l : list callbackElement) (r : Reader) : Reader :=
  mkReader (m_attributes r) (m_is_initialized_ r) (m_proxies r) id count l (m_srcPort r) (m_sedp_sequence_number r).

Section reader.
Context (SIZE : Z) {B : Type} `{MessageBuffer B} (VENDOR_ID : list Z).
Implicit Types (r : Reader) (c : ReaderCacheChange).

(** [Reader.cpp:11-18] Reader::executeCallbacks *)
Definition executeCallbacks c r : list (event B) :=
  omap (λ e, f ← cb_function e; Some (Called f (cb_arg e) c)) (m_callbacks r).

(** [Reader.cpp:38-50] Reader::reset

    The identifiers stay. *)
Definition reset r : Reader :=
  mkReader (m_attributes r) false (clear (m_proxies r)) (m_callback_identifier r) 0
    ((λ e, mkCallback None 0 (cb_identifier e)) <$> m_callbacks r) (m_srcPort r) (m_sedp_sequence_number r).

(** The loop of [isProxy] over the slots. *)
Fixpoint isProxy_loop (guid : Guid_t) (l : list Z) r : res bool :=
  match l with
  | [] => Ok false
  | i :: l => proxy ← at_bit i (m_proxies r); if bool_decide (remoteWriterGuid proxy = guid) then Ok true else isProxy_loop guid l r
  end.

(** [Reader.cpp:52-59] Reader::isProxy *)
Definition isProxy (guid : Guid_t) r : res bool := l ← range SIZE (m_proxies r); isProxy_loop guid l r.

(** [Reader.cpp:61-69] Reader::getProxy

    The slot of the proxy. *)
Definition getProxy (guid : Guid_t) r : res (option Z) := find SIZE (λ proxy, bool_decide (remoteWriterGuid proxy = guid)) (m_proxies r).

(** The first free element, if any, takes the callback. *)
Fixpoint registerCallback_loop (cb arg identifier : Z) (l : list callbackElement) : option (list callbackElement) :=
  match l with
  | [] => None
  | e :: l =>
      match cb_function e with
      | None => Some (mkCallback (Some cb) arg identifier :: l)
      | Some _ => cons e <$> registerCallback_loop cb arg identifier l
      end
  end.

(** [Reader.cpp:71-89] Reader::registerCallback

    Refusals return [false], that is 0. *)
Definition registerCallback (cb : option Z) (arg : Z) r : Z * Reader :=
  match cb with
  | None => (0, r)
  | Some cb =>
      if m_callback_count r =? zlen (m_callbacks r) then (0, r)
      else
        match registerCallback_loop cb arg (m_callback_identifier r) (m_callbacks r) with
        | Some l => (m_callback_identifier r, set_callbacks (u32 (m_callback_identifier r + 1)) (u8 (m_callback_count r + 1)) l r)
        | None => (0, r)
        end
  end.

(** The first element with the identifier, if any, is emptied; its identifier stays. *)
Fixpoint removeCallback_loop (identifier : Z) (l : list callbackElement) : option (list callbackElement) :=
  match l with
  | [] => None
  | e :: l => if cb_identifier e =? identifier then Some (mkCallback None 0 (cb_identifier e) :: l) else cons e <$> removeCallback_loop identifier l
  end.

(** [Reader.cpp:93-105] Reader::removeCallback *)
Definition removeCallback (identifier : Z) r : bool * Reader :=
  match removeCallback_loop identifier (m_callbacks r) with
  | Some l => (true, set_callbacks (m_callback_identifier r) (u8 (m_callback_count r - 1)) l r)
  | None => (false, r)
  end.

(** [Reader.cpp:109-119] Reader::removeAllProxiesOfParticipant *)
Definition removeAllProxiesOfParticipant (guidPrefix : GuidPrefix_t) r : res Reader :=
  '(_, p) ← remove SIZE (λ proxy, bool_decide (prefix (remoteWriterGuid proxy) = guidPrefix)) (m_proxies r);
  Ok (set_proxies p r).

(** [Reader.cpp:121-131] Reader::removeProxy *)
Definition removeProxy (guid : Guid_t) r : res (bool * Reader) :=
  '(b, p) ← remove SIZE (λ proxy, bool_decide (remoteWriterGuid proxy = guid)) (m_proxies r);
  Ok (b, set_proxies p r).

(** [Reader.cpp:133-141] Reader::addNewMatchedWriter *)
Definition addNewMatchedWriter (newProxy : WriterProxy) r : res (bool * Reader) :=
  '(b, p) ← add SIZE newProxy (m_proxies r);
  Ok (b, set_proxies p r).

(** [StatefulReader.tpp:49-62] StatefulReaderT::init *)
Definition init (attributes : Attributes) r : Reader :=
  mkReader attributes true (clear (m_proxies r)) (m_callback_identifier r) (m_callback_count r) (m_callbacks r)
    (u16 (loc_port (unicastLocator attributes))) (m_sedp_sequence_number r).

(** ** Stateful readers *)

(** [StatefulReader.tpp:71-79] StatefulReaderT::newChange

    The loop over the slots. *)
Fixpoint newChange_loop c (l : list Z) r : res (Reader * list (event B)) :=
  match l with
  | [] => Ok (r, [])
  | i :: l =>
      proxy ← at_bit i (m_proxies r);
      if bool_decide (remoteWriterGuid proxy = rc_writerGuid c) && sn_eqb (expectedSN proxy) (rc_sn c) then
        let ev := executeCallbacks c r in
        next ← sn_incr (expectedSN proxy);
        Ok (set_proxies (assign i (set_expectedSN next proxy) (m_proxies r)) r, ev)
      else newChange_loop c l r
  end.

(** [StatefulReader.tpp:64-80] StatefulReaderT::newChange *)
Definition newChange c r : res (Reader * list (event B)) :=
  if (m_callback_count r =? 0) || negb (m_is_initialized_ r) then Ok (r, [])
  else l ← range SIZE (m_proxies r); newChange_loop c l r.

(** The first number of the gap's list that is not set, from [sn] at bit [i] on. *)
Fixpoint first_valid_loop (n : nat) (i : Z) (gapList : SequenceNumberSet) (sn : SequenceNumber_t) : res SequenceNumber_t :=
  match n with
  | O => Ok sn
  | S n => b ← isSet i gapList; if negb b then Ok sn else sn ← sn_incr sn; first_valid_loop n (i + 1) gapList sn
  end.

(** The answer to a writer. *)
Definition send_acknack (writer : WriterProxy) (writerId readerId : EntityId_t) (set : SequenceNumberSet) (count : Z) r : res (list (event B)) :=
  buffer ← addAckNack writerId readerId set count false (addHeader VENDOR_ID (prefix (endpointGuid (m_attributes r))) mb_empty);
  Ok [Send (mkPacket (m_srcPort r) (getIp4Address (w_remoteLocator writer)) (u16 (loc_port (w_remoteLocator writer))) buffer)].

(** [StatefulReader.tpp:93-157] StatefulReaderT::onNewGapMessage *)
Definition onNewGapMessage (msg : SubmessageGap) (remotePrefix : GuidPrefix_t) r : res (bool * Reader * list (event B)) :=
  if negb (m_is_initialized_ r) then Ok (false, r, [])
  else
    found ← getProxy (mkGuid remotePrefix (g_writerId msg)) r;
    match found with
    | None => Ok (false, r, [])
    | Some i =>
        writer ← at_bit i (m_proxies r);
        if sn_ltb (expectedSN writer) (g_gapStart msg) then Ok (true, r, [])
        else
          first_valid ← first_valid_loop (Z.to_nat (numBits (g_gapList msg))) 0 (g_gapList msg) (base (g_gapList msg));
          if sn_ltb first_valid (expectedSN writer) then Ok (true, r, [])
          else
            let writer := set_expectedSN first_valid writer in
            let set := mkSNS (expectedSN writer) 1 [Z.shiftl 1 31] in
            '(count, writer) ← getNextAckNackCount writer;
            ev ← send_acknack writer (g_writerId msg) (g_readerId msg) set count r;
            Ok (false, set_proxies (assign i writer (m_proxies r)) r, ev)
    end.

(** [StatefulReader.tpp:159-203] StatefulReaderT::onNewHeartbeat *)
Definition onNewHeartbeat (msg : SubmessageHeartbeat) (sourceGuidPrefix : GuidPrefix_t) r : res (bool * Reader * list (event B)) :=
  if negb (m_is_initialized_ r) then Ok (false, r, [])
  else
    found ← getProxy (mkGuid sourceGuidPrefix (h_writerId msg)) r;
    match found with
    | None => Ok (false, r, [])
    | Some i =>
        writer ← at_bit i (m_proxies r);
        if h_count msg <=? w_hbCount writer then Ok (false, r, [])
        else
          let writer := set_hbCount (h_count msg) writer in
          let set := getMissing (h_firstSN msg) (h_lastSN msg) writer in
          '(count, writer) ← getNextAckNackCount writer;
          ev ← send_acknack writer (h_writerId msg) (h_readerId msg) set count r;
          Ok (true, set_proxies (assign i writer (m_proxies r)) r, ev)
    end.
End reader.

(** ** Stateless readers *)

Module Stateless.
Section stateless.
Context {B : Type}.

(** [StatelessReader.cpp:54-59] StatelessReader::newChange *)
Definition newChange (c : ReaderCacheChange) (r : Reader) : Reader * list (event B) :=
  if negb (m_is_initialized_ r) then (r, []) else (r, executeCallbacks c r).

(** [StatelessReader.cpp:70-74] StatelessReader::onNewHeartbeat *)
Definition onNewHeartbeat (msg : SubmessageHeartbeat) (remotePrefix : GuidPrefix_t) (r : Reader) : bool * Reader * list (event B) := (true, r, []).

(** [StatelessReader.cpp:76-79] StatelessReader::onNewGapMessage *)
Definition onNewGapMessage (msg : SubmessageGap) (remotePrefix : GuidPrefix_t) (r : Reader) : bool * Reader * list (event B) := (true, r, []).
End stateless.
End Stateless.
