(* ===== verification/RtpsWriter.v ===== *)
(** * RTPS: writers (src/contrib/embeddedrtps, rtps/entities/Writer, StatefulWriter, StatelessWriter)

    A writer keeps the changes of the application in its history, the readers it knows as proxies
    in a pool, and the number of the change that is to be sent next.  A stateful writer repeats
    what readers ask for, and announces its history to them with heartbeats.

    [SIZE] is [NUM_READER_PROXIES_PER_WRITER]; [nowMs] is the time at which a packet is made. *)

From S2P Require Import Prelude RtpsTypes RtpsBuffer RtpsMessages RtpsReceiver MemoryPool RtpsReader HistoryCache.
Local Open Scope Z_scope.

(** ** Proxies of readers *)

(** [ReaderProxy.h:32-54] ReaderProxy *)
Record ReaderProxy := mkReaderProxy {
  remoteReaderGuid : Guid_t;
  remoteLocator : LocatorIPv4;
  is_reliable : bool;
  remoteMulticastLocator : LocatorIPv4;
  useMulticast : bool;
  suppressUnicast : bool;
  unknown_eid : bool;
  ackNackCount : Z (* int32_t *);
  finalFlag : bool;
  lastAckNackSequenceNumber : SequenceNumber_t
}.

(** [ReaderProxy.h:47-53] ReaderProxy::ReaderProxy *)
Definition ReaderProxy_new (guid : Guid_t) (loc mcastloc : LocatorIPv4) (reliable : bool) : ReaderProxy :=
  mkReaderProxy guid loc reliable mcastloc false false false 0 false (mkSN 0 1).

Definition set_send_options (multicast suppress eid : bool) (p : ReaderProxy) : ReaderProxy :=
  mkReaderProxy (remoteReaderGuid p) (remoteLocator p) (is_reliable p) (remoteMulticastLocator p) multicast suppress eid (ackNackCount p)
    (finalFlag p) (lastAckNackSequenceNumber p).
Definition set_acknack (count : Z) (final : bool) (last : SequenceNumber_t) (p : ReaderProxy) : ReaderProxy :=
  mkReaderProxy (remoteReaderGuid p) (remoteLocator p) (is_reliable p) (remoteMulticastLocator p) (useMulticast p) (suppressUnicast p)
    (unknown_eid p) count final last.

(** ** Writers *)

Section writer.
Context (SIZE : Z) {B : Type} `{MessageBuffer B} (VENDOR_ID : list Z).

(** [Writer.h:83-103] Writer

    With the fields of the two classes below it; [m_hbCount] is the stateful writer's, and
    [mp_threadPool] says whether there is a pool of threads. *)
Record Writer := mkWriter {
  m_attributes : Attributes;
  m_is_initialized_ : bool;
  mp_threadPool : bool;
  m_srcPort : Z;
  m_enforceUnicast : bool;
  m_nextSequenceNumberToSend : SequenceNumber_t;
  m_proxies : MemoryPool (A := ReaderProxy);
  m_history : HistoryCache B;
  m_hbCount : Z (* int32_t *);
  m_sedp_sequence_number : SequenceNumber_t
}.
Implicit Types (w : Writer) (proxy : ReaderProxy).

Definition set_pool (p : MemoryPool) w : Writer :=
  mkWriter (m_attributes w) (m_is_initialized_ w) (mp_threadPool w) (m_srcPort w) (m_enforceUnicast w) (m_nextSequenceNumberToSend w) p
    (m_history w) (m_hbCount w) (m_sedp_sequence_number w).
Definition set_next (s : SequenceNumber_t) w : Writer :=
  mkWriter (m_attributes w) (m_is_initialized_ w) (mp_threadPool w) (m_srcPort w) (m_enforceUnicast w) s (m_proxies w)
    (m_history w) (m_hbCount w) (m_sedp_sequence_number w).
Definition set_history (h : HistoryCache B) w : Writer :=
  mkWriter (m_attributes w) (m_is_initialized_ w) (mp_threadPool w) (m_srcPort w) (m_enforceUnicast w) (m_nextSequenceNumberToSend w) (m_proxies w)
    h (m_hbCount w) (m_sedp_sequence_number w).
Definition set_heartbeats (c : Z) w : Writer :=
  mkWriter (m_attributes w) (m_is_initialized_ w) (mp_threadPool w) (m_srcPort w) (m_enforceUnicast w) (m_nextSequenceNumberToSend w) (m_proxies w)
    (m_history w) c (m_sedp_sequence_number w).

(** [StatefulWriter.tpp:59-115] StatefulWriterT::init

    The heartbeats that it starts are [sendHeartBeat] below, once and every period. *)
Definition init (attributes : Attributes) (threadPool enfUnicast : bool) w : Writer :=
  mkWriter attributes true threadPool (u16 (loc_port (unicastLocator attributes))) enfUnicast (mkSN 0 1) (MemoryPool.clear (m_proxies w))
    (HistoryCache.clear (m_history w)) 1 (m_sedp_sequence_number w).

(** [Writer.cpp:114-119] Writer::isIrrelevant *)
Definition isIrrelevant (kind : ChangeKind_t) : bool := negb (bool_decide (kind = ALIVE)).

(** ** Who is sent to by multicast *)

(** The inner loop of [manageSendOptions]: [i] is the slot of [proxy], [js] are those of the
    proxies it is compared with. *)
Fixpoint manage_inner (i : Z) (js : list Z) (found : bool) (p : MemoryPool (A := ReaderProxy)) : res (bool * MemoryPool) :=
  match js with
  | [] => Ok (found, p)
  | j :: js =>
      proxy ← at_bit i p;
      avproxy ← at_bit j p;
      if (loc_kind (remoteMulticastLocator avproxy) =? LOCATOR_KIND_UDPv4) &&
         (getIp4Address (remoteMulticastLocator avproxy) =? getIp4Address (remoteMulticastLocator proxy)) &&
         negb (getIp4Address (remoteLocator avproxy) =? getIp4Address (remoteLocator proxy)) then
        if negb (suppressUnicast avproxy) then
          let p := assign j (set_send_options false true (unknown_eid avproxy) avproxy) p in
          proxy ← at_bit i p;
          let eid := unknown_eid proxy || negb (bool_decide (entityId (remoteReaderGuid avproxy) = entityId (remoteReaderGuid proxy))) in
          manage_inner i js true (assign i (set_send_options true true eid proxy) p)
        else manage_inner i js true p
      else manage_inner i js found p
  end.

(** The outer loop. *)
Fixpoint manage_outer (l js : list Z) (p : MemoryPool (A := ReaderProxy)) : res MemoryPool :=
  match l with
  | [] => Ok p
  | i :: l =>
      proxy ← at_bit i p;
      if loc_kind (remoteMulticastLocator proxy) =? LOCATOR_KIND_INVALID then
        manage_outer l js (assign i (set_send_options false false (unknown_eid proxy) proxy) p)
      else
        '(found, p) ← manage_inner i js false p;
        if negb found then proxy ← at_bit i p; manage_outer l js (assign i (set_send_options false false (unknown_eid proxy) proxy) p)
        else manage_outer l js p
  end.

(** [Writer.cpp:61-97] Writer::manageSendOptions *)
Definition manageSendOptions w : res Writer :=
  l ← range SIZE (m_proxies w);
  p ← manage_outer l l (m_proxies w);
  Ok (set_pool p w).

(** The loop of [resetSendOptions]. *)
Fixpoint reset_options (l : list Z) (p : MemoryPool (A := ReaderProxy)) : res MemoryPool :=
  match l with
  | [] => Ok p
  | i :: l => proxy ← at_bit i p; reset_options l (assign i (set_send_options false false false proxy) p)
  end.

(** [Writer.cpp:45-53] Writer::resetSendOptions *)
Definition resetSendOptions w : res Writer :=
  l ← range SIZE (m_proxies w);
  p ← reset_options l (m_proxies w);
  manageSendOptions (set_pool p w).

(** [Writer.cpp:10-23] Writer::addNewMatchedReader *)
Definition addNewMatchedReader (newProxy : ReaderProxy) w : res (bool * Writer) :=
  '(success, p) ← add SIZE newProxy (m_proxies w);
  let w := set_pool p w in
  w ← (if negb (m_enforceUnicast w) then manageSendOptions w else Ok w);
  Ok (success, w).

(** [Writer.cpp:25-38] Writer::removeProxy *)
Definition removeProxy (guid : Guid_t) w : res (bool * Writer) :=
  '(ret, p) ← remove SIZE (λ proxy, bool_decide (remoteReaderGuid proxy = guid)) (m_proxies w);
  w ← resetSendOptions (set_pool p w);
  Ok (ret, w).

(** [Writer.cpp:99-112] Writer::removeAllProxiesOfParticipant *)
Definition removeAllProxiesOfParticipant (guidPrefix : GuidPrefix_t) w : res Writer :=
  '(_, p) ← remove SIZE (λ proxy, bool_decide (prefix (remoteReaderGuid proxy) = guidPrefix)) (m_proxies w);
  resetSendOptions (set_pool p w).

(** ** Packets *)

(** The header and the time stamp that every packet but a heartbeat begins with. *)
Definition packet_head (nowMs : Z) w : B :=
  addSubMessageTimeStamp nowMs false (addHeader VENDOR_ID (prefix (endpointGuid (m_attributes w))) mb_empty).

Definition send_to (loc : LocatorIPv4) (b : B) w : event B := Send (mkPacket (m_srcPort w) (getIp4Address loc) (u16 (loc_port loc)) b).

(** [StatefulWriter.tpp:289-315] StatefulWriterT::sendData *)
Definition sendData (nowMs : Z) proxy (next : CacheChange B) w : event B :=
  send_to (remoteLocator proxy)
    (addSubMessageData (data next) (inLineQoS next) (sequenceNumber next) (entityId (endpointGuid (m_attributes w)))
       (entityId (remoteReaderGuid proxy)) (packet_head nowMs w)) w.

(** [StatefulWriter.tpp:317-341] StatefulWriterT::sendGap *)
Definition sendGap (nowMs : Z) proxy (missingSN : SequenceNumber_t) w : res (event B) :=
  b ← addSubmessageGap (entityId (endpointGuid (m_attributes w))) (entityId (remoteReaderGuid proxy)) missingSN (packet_head nowMs w);
  Ok (send_to (remoteLocator proxy) b w).

(** [StatefulWriter.tpp:343-380] StatefulWriterT::sendDataWRMulticast *)
Definition sendDataWRMulticast (nowMs : Z) proxy (next : CacheChange B) w : list (event B) :=
  if useMulticast proxy || negb (suppressUnicast proxy) then
    let locator := if useMulticast proxy then remoteMulticastLocator proxy else remoteLocator proxy in
    let reid := if useMulticast proxy then ENTITYID_UNKNOWN else entityId (remoteReaderGuid proxy) in
    [send_to locator (addSubMessageData (data next) (inLineQoS next) (sequenceNumber next) (entityId (endpointGuid (m_attributes w))) reid (packet_head nowMs w)) w]
  else [].

(** A writer with a pool of threads is queued for [progress]. *)
Definition workload w : list (event B) := if mp_threadPool w then [AddWorkload (entityId (endpointGuid (m_attributes w)))] else [].

(** The number to be sent next is not below what a full history will hold. *)
Definition skip_dropped w : res Writer :=
  if isFull (m_history w) then
    minSN ← getSeqNumMin (m_history w);
    newMin ← sn_incr minSN;
    Ok (if sn_ltb (m_nextSequenceNumberToSend w) newMin then set_next newMin w else w)
  else Ok w.

(** ** Stateful writers *)

(** [StatefulWriter.tpp:126-160] StatefulWriterT::newChange

    The place of the change in the history, if it is one. *)
Definition newChange (kind : ChangeKind_t) (bytes : list Z) (inLineQoS markDisposedAfterWrite : bool) w : res (option Z * Writer * list (event B)) :=
  if isIrrelevant kind || negb (m_is_initialized_ w) then Ok (None, w, [])
  else
    w ← skip_dropped w;
    '(result, h) ← addChange bytes inLineQoS markDisposedAfterWrite (m_history w);
    let w := set_history h w in
    Ok (Some result, w, workload w).

(** The packets to the proxies in the slots. *)
Fixpoint send_all (nowMs : Z) (next : CacheChange B) (l : list Z) w : res (list (event B)) :=
  match l with
  | [] => Ok []
  | i :: l =>
      proxy ← at_bit i (m_proxies w);
      let ev := if negb (m_enforceUnicast w) then sendDataWRMulticast nowMs proxy next w else [sendData nowMs proxy next w] in
      ev' ← send_all nowMs next l w;
      Ok (ev ++ ev')
  end.

(** [StatefulWriter.tpp:162-192] StatefulWriterT::progress *)
Definition progress (nowMs : Z) w : res (Writer * list (event B)) :=
  found ← WithDeletion.getChangeBySN (m_nextSequenceNumberToSend w) (m_history w);
  '(w, ev) ← (
    match found with
    | Some i =>
        next ← change_at i (m_history w);
        l ← range SIZE (m_proxies w);
        ev ← send_all nowMs next l w;
        if diposeAfterWrite next then '(_, h) ← WithDeletion.dropChange (sequenceNumber next) (m_history w); Ok (set_history h w, ev)
        else Ok (w, ev)
    | None => Ok (w, [])
    end);
  sn ← sn_incr (m_nextSequenceNumberToSend w);
  Ok (set_next sn w, ev).

(** [StatefulWriter.tpp:194-204] StatefulWriterT::setAllChangesToUnsent *)
Definition setAllChangesToUnsent w : res (Writer * list (event B)) :=
  sn ← getSeqNumMin (m_history w);
  Ok (set_next sn w, workload w).

(** The first proxy of the reader. *)
Fixpoint find_reader (guid : Guid_t) (l : list Z) w : res (option Z) :=
  match l with
  | [] => Ok None
  | i :: l => proxy ← at_bit i (m_proxies w); if bool_decide (remoteReaderGuid proxy = guid) then Ok (Some i) else find_reader guid l w
  end.

(** The answer for one number that a reader asks for. *)
Definition answer_requested (nowMs : Z) proxy (sn : SequenceNumber_t) w : res (list (event B)) :=
  cache ← WithDeletion.getChangeBySN sn (m_history w);
  match cache with
  | None =>
      inRange ← WithDeletion.isSNInRange sn (m_history w);
      if inRange : bool then ev ← sendGap nowMs proxy sn w; Ok [ev] else Ok []
  | Some i => next ← change_at i (m_history w); Ok [sendData nowMs proxy next w]
  end.

(** The loop over the bits of the set: [n] more bits from bit [i] on, which stands for [sn]. *)
Fixpoint answer_set (nowMs : Z) proxy (set : SequenceNumberSet) (n : nat) (i : Z) (sn : SequenceNumber_t) w : res (SequenceNumber_t * list (event B)) :=
  match n with
  | O => Ok (sn, [])
  | S n =>
      b ← isSet i set;
      ev ← (if b : bool then answer_requested nowMs proxy sn w else Ok []);
      sn ← sn_incr sn;
      '(sn, ev') ← answer_set nowMs proxy set n (i + 1) sn w;
      Ok (sn, ev ++ ev')
  end.

(** The loop over the numbers after the set. *)
Fixpoint answer_after (fuel : nat) (nowMs : Z) proxy (sn maxSN : SequenceNumber_t) w : res (list (event B)) :=
  if sn_leb sn maxSN then
    match fuel with
    | O => Err OutOfFuel
    | S fuel =>
        cache ← WithDeletion.getChangeBySN sn (m_history w);
        ev ← (match cache with Some i => next ← change_at i (m_history w); Ok [sendData nowMs proxy next w] | None => Ok [] end);
        sn ← sn_incr sn;
        ev' ← answer_after fuel nowMs proxy sn maxSN w;
        Ok (ev ++ ev')
    end
  else Ok [].

(** [StatefulWriter.tpp:206-280] StatefulWriterT::onNewAckNack *)
Definition onNewAckNack (fuel : nat) (nowMs : Z) (msg : SubmessageAckNack) (sourceGuidPrefix : GuidPrefix_t) w : res (Writer * list (event B)) :=
  if negb (m_is_initialized_ w) then Ok (w, [])
  else
    l ← range SIZE (m_proxies w);
    found ← find_reader (mkGuid sourceGuidPrefix (a_readerId msg)) l w;
    match found with
    | None => Ok (w, [])
    | Some i =>
        reader ← at_bit i (m_proxies w);
        if a_count msg <=? ackNackCount reader then Ok (w, [])
        else
          let reader := set_acknack (a_count msg) (header_finalFlag (a_header msg)) (base (a_readerSNState msg)) reader in
          let w := set_pool (assign i reader (m_proxies w)) w in
          '(nextSN, ev) ← answer_set nowMs reader (a_readerSNState msg) (Z.to_nat (numBits (a_readerSNState msg))) 0 (base (a_readerSNState msg)) w;
          ev' ← answer_after fuel nowMs reader nextSN (getSeqNumMax (m_history w)) w;
          Ok (w, ev ++ ev')
    end.

(** [StatefulWriter.tpp:282-287] StatefulWriterT::removeFromHistory *)
Definition removeFromHistory (s : SequenceNumber_t) w : res (bool * Writer) :=
  '(b, h) ← WithDeletion.dropChange s (m_history w);
  Ok (b, set_history h w).

(** The loop of [sendHeartBeat]: whether it came to its end, and the packets. *)
Fixpoint heartbeat_loop (l : list Z) w : res (bool * list (event B)) :=
  match l with
  | [] => Ok (true, [])
  | i :: l =>
      proxy ← at_bit i (m_proxies w);
      let buffer := addHeader VENDOR_ID (prefix (endpointGuid (m_attributes w))) mb_empty in
      firstSN ← getSeqNumMin (m_history w);
      let lastSN := getSeqNumMax (m_history w) in
      if sn_gtb (lastAckNackSequenceNumber proxy) lastSN && finalFlag proxy && (0 <? ackNackCount proxy) then heartbeat_loop l w
      else if sn_eqb firstSN SEQUENCENUMBER_UNKNOWN || sn_eqb lastSN SEQUENCENUMBER_UNKNOWN then Ok (false, [])
      else
        let buffer := addHeartbeat (entityId (endpointGuid (m_attributes w))) (entityId (remoteReaderGuid proxy)) firstSN lastSN (m_hbCount w) buffer in
        '(b, ev) ← heartbeat_loop l w;
        Ok (b, send_to (remoteLocator proxy) buffer w :: ev)
  end.

(** [StatefulWriter.tpp:421-465] StatefulWriterT::sendHeartBeat *)
Definition sendHeartBeat w : res (Writer * list (event B)) :=
  if isEmpty (m_proxies w) || negb (m_is_initialized_ w) then Ok (w, [])
  else
    l ← range SIZE (m_proxies w);
    '(b, ev) ← heartbeat_loop l w;
    if b : bool then count ← int32 (m_hbCount w + 1); Ok (set_heartbeats count w, ev) else Ok (w, ev).
End writer.
Arguments Writer B : clear implicits.

(** ** Stateless writers *)

Module StatelessWriter.
Section stateless.
Context (SIZE : Z) {B : Type} `{MessageBuffer B} (VENDOR_ID : list Z).
Implicit Types (w : Writer B) (proxy : ReaderProxy).

(** [StatelessWriter.tpp:101-129] StatelessWriterT::newChange

    The flags are not kept. *)
Definition newChange (kind : ChangeKind_t) (bytes : list Z) (inLineQoS markDisposedAfterWrite : bool) w : res (option Z * Writer B * list (event B)) :=
  if isIrrelevant kind || negb (m_is_initialized_ w) then Ok (None, w, [])
  else
    w ← skip_dropped w;
    '(result, h) ← addChange bytes false false (m_history w);
    let w := set_history h w in
    Ok (Some result, w, workload w).

(** [StatelessWriter.tpp:138-148] StatelessWriterT::setAllChangesToUnsent *)
Definition setAllChangesToUnsent w : res (Writer B * list (event B)) :=
  sn ← getSeqNumMin (m_history w);
  Ok (set_next sn w, workload w).

(** [StatelessWriter.tpp:131-136] StatelessWriterT::removeFromHistory *)
Definition removeFromHistory (s : SequenceNumber_t) w : bool * Writer B := (false, w).

(** [StatelessWriter.tpp:150-155] StatelessWriterT::onNewAckNack *)
Definition onNewAckNack (msg : SubmessageAckNack) (sourceGuidPrefix : GuidPrefix_t) w : Writer B * list (event B) := (w, []).

(** The loop of [progress]: whether it came to its end, and the packets. *)
Fixpoint progress_loop (nowMs : Z) (l : list Z) w : res (bool * list (event B)) :=
  match l with
  | [] => Ok (true, [])
  | i :: l =>
      proxy ← at_bit i (m_proxies w);
      if useMulticast proxy || negb (suppressUnicast proxy) || m_enforceUnicast w then
        found ← Simple.getChangeBySN (m_nextSequenceNumberToSend w) (m_history w);
        match found with
        | None => Ok (false, [])
        | Some j =>
            next ← change_at j (m_history w);
            let multicast := useMulticast proxy && negb (m_enforceUnicast w) in
            let reid := if multicast && unknown_eid proxy then ENTITYID_UNKNOWN else entityId (remoteReaderGuid proxy) in
            let b := addSubMessageData (data next) false (sequenceNumber next) (entityId (endpointGuid (m_attributes w))) reid (packet_head VENDOR_ID nowMs w) in
            let locator := if multicast then remoteMulticastLocator proxy else remoteLocator proxy in
            '(b', ev) ← progress_loop nowMs l w;
            Ok (b', send_to locator b w :: ev)
        end
      else progress_loop nowMs l w
  end.

(** [StatelessWriter.tpp:157-226] StatelessWriterT::progress *)
Definition progress (nowMs : Z) w : res (Writer B * list (event B)) :=
  l ← range SIZE (m_proxies w);
  '(b, ev) ← progress_loop nowMs l w;
  if b : bool then sn ← sn_incr (m_nextSequenceNumberToSend w); Ok (set_next sn w, ev) else Ok (w, ev).
End stateless.
End StatelessWriter.
