(* ===== verification/RtpsParticipant.v ===== *)
(** * RTPS: participants (src/contrib/embeddedrtps, rtps/entities/Participant)

    A participant holds pointers to its readers and writers in arrays of fixed size, finds them by
    id for the receiver ([Endpoints]), and keeps the remote participants it knows.  The
    participants' discovery (SPDP, SEDP) is not modelled; where its answer matters, it is an
    argument. *)

From S2P Require Import Prelude RtpsTypes RtpsBuffer RtpsMessages RtpsReceiver MemoryPool RtpsReader HistoryCache RtpsWriter.
Local Open Scope Z_scope.

(** The sizes of the configuration. *)
Record Config := mkConfig {
  NUM_WRITER_PROXIES_PER_READER : Z;
  NUM_READER_PROXIES_PER_WRITER : Z;
  SPDP_MAX_NUMBER_FOUND_PARTICIPANTS : Z;
  VENDOR_ID : list Z
}.

(** The subclass of an endpoint. *)
Inductive AnyReader := StatefulReader (r : Reader) | StatelessReader (r : Reader).
Inductive AnyWriter (B : Type) := StatefulWriter (w : Writer B) | StatelessWriter (w : Writer B).
Arguments StatefulWriter {B} _.
Arguments StatelessWriter {B} _.

Definition reader_of (a : AnyReader) : Reader := match a with StatefulReader r | StatelessReader r => r end.
Definition writer_of {B} (a : AnyWriter B) : Writer B := match a with StatefulWriter w | StatelessWriter w => w end.
Definition same_reader (a : AnyReader) (r : Reader) : AnyReader := match a with StatefulReader _ => StatefulReader r | StatelessReader _ => StatelessReader r end.
Definition same_writer {B} (a : AnyWriter B) (w : Writer B) : AnyWriter B := match a with StatefulWriter _ => StatefulWriter w | StatelessWriter _ => StatelessWriter w end.

(** [ParticipantProxyData.h:44-69] ParticipantProxyData

    The identity and the time of the last sign of life (the clock of the machine, in
    milliseconds). *)
Record ParticipantProxyData := mkRemote { m_guid : Guid_t; m_lastLivelinessReceived : Z }.

(** [ParticipantProxyData.h:147-153] ParticipantProxyData::onAliveSignal *)
Definition onAliveSignal (now : Z) (d : ParticipantProxyData) : ParticipantProxyData := mkRemote (m_guid d) now.

Section participant.
Context {B : Type} `{MessageBuffer B} (C : Config).

(** [Participant.h:110-120] Participant *)
Record Participant := mkParticipant {
  m_guidPrefix : GuidPrefix_t;
  m_nextUserEntityId : list Z;
  m_writers : list (option (AnyWriter B));
  m_readers : list (option AnyReader);
  m_remoteParticipants : MemoryPool (A := ParticipantProxyData)
}.
Implicit Types p : Participant.

Definition set_writer (i : nat) (w : option (AnyWriter B)) p : Participant :=
  mkParticipant (m_guidPrefix p) (m_nextUserEntityId p) (<[i := w]> (m_writers p)) (m_readers p) (m_remoteParticipants p).
Definition set_reader (i : nat) (r : option AnyReader) p : Participant :=
  mkParticipant (m_guidPrefix p) (m_nextUserEntityId p) (m_writers p) (<[i := r]> (m_readers p)) (m_remoteParticipants p).
Definition set_remotes (r : MemoryPool) p : Participant := mkParticipant (m_guidPrefix p) (m_nextUserEntityId p) (m_writers p) (m_readers p) r.

(** The ids by which endpoints are found. *)
Definition reader_id (a : AnyReader) : EntityId_t := entityId (endpointGuid (RtpsReader.m_attributes (reader_of a))).
Definition writer_id (a : AnyWriter B) : EntityId_t := entityId (endpointGuid (RtpsWriter.m_attributes (writer_of a))).

(** The first place of an array that satisfies a condition. *)
Definition first_such {A} (f : A → bool) (l : list A) : option nat := fst <$> list_find (λ x, f x = true) l.

(** [Participant.cpp:187-198] Participant::getWriter *)
Definition getWriter (id : EntityId_t) p : option nat :=
  first_such (λ o, match o with Some w => bool_decide (writer_id w = id) | None => false end) (m_writers p).

(** [Participant.cpp:200-211] Participant::getReader *)
Definition getReader (id : EntityId_t) p : option nat :=
  first_such (λ o, match o with Some r => bool_decide (reader_id r = id) | None => false end) (m_readers p).

(** The loop of [getReaderByWriterId], from place [i] on. *)
Fixpoint getReaderByWriterId_loop (guid : Guid_t) (i : nat) (l : list (option AnyReader)) : res (option nat) :=
  match l with
  | [] => Ok None
  | None :: l => getReaderByWriterId_loop guid (S i) l
  | Some r :: l => b ← isProxy (NUM_WRITER_PROXIES_PER_READER C) guid (reader_of r); if b : bool then Ok (Some i) else getReaderByWriterId_loop guid (S i) l
  end.

(** [Participant.cpp:213-224] Participant::getReaderByWriterId *)
Definition getReaderByWriterId (guid : Guid_t) p : res (option nat) := getReaderByWriterId_loop guid 0 (m_readers p).

(** [Participant.cpp:74-85] Participant::getNextUserEntityKey

    Three bytes, the last one counting fastest. *)
Definition getNextUserEntityKey p : list Z * Participant :=
  let a := nth 0 (m_nextUserEntityId p) 0 in
  let b := nth 1 (m_nextUserEntityId p) 0 in
  let c := nth 2 (m_nextUserEntityId p) 0 in
  let c := u8 (c + 1) in
  let b := if c =? 0 then u8 (b + 1) else b in
  let a := if (c =? 0) && (b =? 0) then u8 (a + 1) else a in
  (m_nextUserEntityId p, mkParticipant (m_guidPrefix p) [a; b; c] (m_writers p) (m_readers p) (m_remoteParticipants p)).

(** [Participant.cpp:107-119] Participant::addWriter

    Before the builtin endpoints are there; SEDP is told of the later ones. *)
Definition addWriter (w : AnyWriter B) p : option nat * Participant :=
  match first_such (λ o : option (AnyWriter B), bool_decide (o = None)) (m_writers p) with
  | Some i => (Some i, set_writer i (Some w) p)
  | None => (None, p)
  end.

(** [Participant.cpp:131-144] Participant::addReader *)
Definition addReader (r : AnyReader) p : option nat * Participant :=
  match first_such (λ o : option AnyReader, bool_decide (o = None)) (m_readers p) with
  | Some i => (Some i, set_reader i (Some r) p)
  | None => (None, p)
  end.

(** The loop of [deleteReader]: the null pointer of a free place is followed. [sedp] is the answer
    of the SEDP agent. *)
Fixpoint deleteReader_loop (sedp : AnyReader → bool) (sn : SequenceNumber_t) (i : nat) (l : list (option AnyReader)) : res (option nat) :=
  match l with
  | [] => Ok None
  | o :: l =>
      r ← deref o;
      if sn_eqb (RtpsReader.m_sedp_sequence_number (reader_of r)) sn then
        if sedp r then Ok (Some i) else deleteReader_loop sedp sn (S i) l
      else deleteReader_loop sedp sn (S i) l
  end.

(** [Participant.cpp:146-159] Participant::deleteReader *)
Definition deleteReader (sedp : AnyReader → bool) (reader : AnyReader) p : res (bool * Participant) :=
  o ← deleteReader_loop sedp (RtpsReader.m_sedp_sequence_number (reader_of reader)) 0 (m_readers p);
  Ok (match o with Some i => (true, set_reader i None p) | None => (false, p) end).

(** [Participant.cpp:292-296] Participant::addNewRemoteParticipant *)
Definition addNewRemoteParticipant (remotePart : ParticipantProxyData) p : res (bool * Participant) :=
  '(b, l) ← add (SPDP_MAX_NUMBER_FOUND_PARTICIPANTS C) remotePart (m_remoteParticipants p);
  Ok (b, set_remotes l p).

(** [Participant.cpp:355-365] Participant::findRemoteParticipant *)
Definition findRemoteParticipant (pre : GuidPrefix_t) p : res (option Z) :=
  find (SPDP_MAX_NUMBER_FOUND_PARTICIPANTS C) (λ d, bool_decide (prefix (m_guid d) = pre)) (m_remoteParticipants p).

(** [Participant.cpp:367-381] Participant::refreshRemoteParticipantLiveliness *)
Definition refreshRemoteParticipantLiveliness (now : Z) (pre : GuidPrefix_t) p : res Participant :=
  found ← findRemoteParticipant pre p;
  match found with
  | None => Ok p
  | Some i => d ← at_bit i (m_remoteParticipants p); Ok (set_remotes (assign i (onAliveSignal now d) (m_remoteParticipants p)) p)
  end.

(** The loops over the arrays of [removeAllProxiesOfParticipant]. *)
Definition each_reader (f : Reader → res Reader) (l : list (option AnyReader)) : res (list (option AnyReader)) :=
  foldr (λ o acc, o' ← (match o with Some a => r ← f (reader_of a); Ok (Some (same_reader a r)) | None => Ok None end); l ← acc; Ok (o' :: l)) (Ok []) l.
Definition each_writer (f : Writer B → res (Writer B)) (l : list (option (AnyWriter B))) : res (list (option (AnyWriter B))) :=
  foldr (λ o acc, o' ← (match o with Some a => w ← f (writer_of a); Ok (Some (same_writer a w)) | None => Ok None end); l ← acc; Ok (o' :: l)) (Ok []) l.

(** [Participant.cpp:311-326] Participant::removeAllProxiesOfParticipant *)
Definition removeAllProxiesOfParticipant (pre : GuidPrefix_t) p : res Participant :=
  readers ← each_reader (RtpsReader.removeAllProxiesOfParticipant (NUM_WRITER_PROXIES_PER_READER C) pre) (m_readers p);
  writers ← each_writer (RtpsWriter.removeAllProxiesOfParticipant (NUM_READER_PROXIES_PER_WRITER C) pre) (m_writers p);
  Ok (mkParticipant (m_guidPrefix p) (m_nextUserEntityId p) writers readers (m_remoteParticipants p)).

(** [Participant.cpp:328-353] Participant::removeProxyFromAllEndpoints *)
Definition removeProxyFromAllEndpoints (guid : Guid_t) p : res Participant :=
  writers ← each_writer (λ w, snd <$> RtpsWriter.removeProxy (NUM_READER_PROXIES_PER_WRITER C) guid w) (m_writers p);
  readers ← each_reader (λ r, snd <$> RtpsReader.removeProxy (NUM_WRITER_PROXIES_PER_READER C) guid r) (m_readers p);
  Ok (mkParticipant (m_guidPrefix p) (m_nextUserEntityId p) writers readers (m_remoteParticipants p)).

(** ** The participant behind the receiver *)

(** A call of the reader, of the writer at a place. *)
Definition call_reader (i : nat) (f : AnyReader → res (Reader * list (event B))) p : res (Participant * list (event B)) :=
  o ← deref (m_readers p !! i);
  a ← deref o;
  '(r, ev) ← f a;
  Ok (set_reader i (Some (same_reader a r)) p, ev).
Definition call_writer (i : nat) (f : AnyWriter B → res (Writer B * list (event B))) p : res (Participant * list (event B)) :=
  o ← deref (m_writers p !! i);
  a ← deref o;
  '(w, ev) ← f a;
  Ok (set_writer i (Some (same_writer a w)) p, ev).

(** What a reader was returned is not looked at. *)
Definition drop_result {T S E} (m : res (T * S * list E)) : res (S * list E) := '(_, s, ev) ← m; Ok (s, ev).

(** The virtual functions, at a time; [fuel] bounds the changes that a writer sends again. *)
#[export] Instance participant_endpoints (fuel : nat) (nowMs : Z) : Endpoints Participant (event B) := {
  ep_prefix := m_guidPrefix;
  ep_getReader := getReader;
  ep_getReaderByWriterId := getReaderByWriterId;
  ep_getWriter := getWriter;
  ep_newChange i c p :=
    call_reader i (λ a, match a with
      | StatefulReader r => RtpsReader.newChange (NUM_WRITER_PROXIES_PER_READER C) c r
      | StatelessReader r => Ok (Stateless.newChange c r) end) p;
  ep_onNewHeartbeat i m from p :=
    call_reader i (λ a, match a with
      | StatefulReader r => drop_result (onNewHeartbeat (NUM_WRITER_PROXIES_PER_READER C) (VENDOR_ID C) m from r)
      | StatelessReader r => drop_result (Ok (Stateless.onNewHeartbeat m from r)) end) p;
  ep_onNewGapMessage i m from p :=
    call_reader i (λ a, match a with
      | StatefulReader r => drop_result (onNewGapMessage (NUM_WRITER_PROXIES_PER_READER C) (VENDOR_ID C) m from r)
      | StatelessReader r => drop_result (Ok (Stateless.onNewGapMessage m from r)) end) p;
  ep_onNewAckNack i m from p :=
    call_writer i (λ a, match a with
      | StatefulWriter w => onNewAckNack (NUM_READER_PROXIES_PER_WRITER C) (VENDOR_ID C) fuel nowMs m from w
      | StatelessWriter w => Ok (StatelessWriter.onNewAckNack m from w) end) p;
  ep_refresh := refreshRemoteParticipantLiveliness nowMs
}.

(** [Participant.cpp:511-513] Participant::newMessage

    A message has at most [size / 4] submessages. *)
Definition newMessage (fuel : nat) (nowMs : Z) (data : list Z) p : res (Participant * list (event B)) :=
  drop_result (processMessage (H := participant_endpoints fuel nowMs) (length data) data p).
End participant.
Arguments Participant B : clear implicits.
