(* ===== verification/RtpsSession.v ===== *)
(** * RTPS: a writer and a reader over a network

    Two participants, one with a stateful writer, the other with a stateful reader that know each
    other.  Packets are the bytes that the one sends and the other's [newMessage] is given: the
    network may lose, delay, reorder and duplicate them, that is, any packet ever sent may be
    handed over at any time, or never.  The application writes, removes changes, has all changes
    sent again; threads of the pool make [progress] and heartbeats are sent whenever they like. *)

From S2P Require Import Prelude RtpsTypes RtpsBuffer RtpsMessages RtpsCodec RtpsReceiver RtpsReceive RtpsPackets MemoryPool RtpsReader.
From S2P Require Import HistoryCache HistoryCorrect HistoryTheorems RtpsWriter RtpsParticipant.
Local Open Scope Z_scope.

Section session.
Context {B : Type} `{MessageBufferLaws B} (C : Config).

(** ** Sessions *)

Record session := mkSession {
  s_writer : Participant B;
  s_reader : Participant B;
  s_to_reader : list (list Z);  (* the packets the writer has sent *)
  s_to_writer : list (list Z);  (* the packets the reader has sent *)
  s_written : list (list Z * bool);  (* the changes and whether they are disposed of after sending *)
  s_removed : list Z;  (* the numbers that the application removed *)
  s_calls : list (event B)  (* the calls of the reader's callbacks *)
}.

Inductive action :=
  | Write (bytes : list Z) (inLineQoS dispose : bool)
  | Progress (now : Z)
  | Heartbeat
  | Unsent
  | Remove (z : Z)
  | ToReader (k : nat) (now : Z)
  | ToWriter (k : nat) (now : Z).

Definition packets_of (ev : list (event B)) : list (list Z) :=
  omap (λ e, match e with Send p => Some (mb_bytes (buffer p)) | _ => None end) ev.

Definition is_call (e : event B) : bool := match e with Called _ _ _ => true | _ => false end.
Definition calls_of (ev : list (event B)) : list (event B) := filter is_call ev.

(** A call of the writer by its application. *)
Definition on_writer (f : Writer B → res (Writer B * list (event B))) (p : Participant B) : res (Participant B * list (event B)) :=
  call_writer 0 (λ a, match a with StatefulWriter w => f w | StatelessWriter w => Err Undefined end) p.

Definition after_writer (m : res (Participant B * list (event B))) (written : list (list Z * bool)) (removed : list Z) (s : session) : res session :=
  '(p, ev) ← m;
  Ok (mkSession p (s_reader s) (s_to_reader s ++ packets_of ev) (s_to_writer s) (s_written s ++ written) (s_removed s ++ removed) (s_calls s)).

Definition step (fuel : nat) (a : action) (s : session) : res session :=
  match a with
  | Write bytes q d => after_writer (on_writer (drop_result ∘ newChange ALIVE bytes q d) (s_writer s)) [(bytes, d)] [] s
  | Progress now => after_writer (on_writer (progress (NUM_READER_PROXIES_PER_WRITER C) (VENDOR_ID C) now) (s_writer s)) [] [] s
  | Heartbeat => after_writer (on_writer (sendHeartBeat (NUM_READER_PROXIES_PER_WRITER C) (VENDOR_ID C)) (s_writer s)) [] [] s
  | Unsent => after_writer (on_writer setAllChangesToUnsent (s_writer s)) [] [] s
  | Remove z => after_writer (on_writer (λ w, '(_, w) ← removeFromHistory (SN z) w; Ok (w, [])) (s_writer s)) [] [z] s
  | ToReader k now =>
      match s_to_reader s !! k with
      | None => Ok s
      | Some bytes =>
          '(p, ev) ← newMessage C fuel now bytes (s_reader s);
          Ok (mkSession (s_writer s) p (s_to_reader s) (s_to_writer s ++ packets_of ev) (s_written s) (s_removed s) (s_calls s ++ calls_of ev))
      end
  | ToWriter k now =>
      match s_to_writer s !! k with
      | None => Ok s
      | Some bytes => after_writer (newMessage C fuel now bytes (s_writer s)) [] [] s
      end
  end.

Fixpoint run (fuel : nat) (l : list action) (s : session) : res session :=
  match l with [] => Ok s | a :: l => s ← step fuel a s; run fuel l s end.

Lemma run_app fuel l1 l2 s : run fuel (l1 ++ l2) s = (s ← run fuel l1 s; run fuel l2 s).
Proof. revert s. induction l1 as [|a l1 IH]; intros s; [done|]. cbn [app run]. destruct (step fuel a s); [|done]. apply IH. Qed.

Lemma packets_of_app ev1 ev2 : packets_of (ev1 ++ ev2) = packets_of ev1 ++ packets_of ev2.
Proof. unfold packets_of. apply omap_app. Qed.

(** ** The two endpoints *)

Context (HV : length (VENDOR_ID C) = 2%nat).
Context (HR : 0 < NUM_WRITER_PROXIES_PER_READER C < 2 ^ 32 - 1) (HW : 0 < NUM_READER_PROXIES_PER_WRITER C < 2 ^ 32 - 1).
Context (HP : 0 < SPDP_MAX_NUMBER_FOUND_PARTICIPANTS C < 2 ^ 32 - 1).
Context (gw gr : GuidPrefix_t) (ew er : EntityId_t) (Hgw : prefix_ok gw) (Hgr : prefix_ok gr) (Hew : id_ok ew) (Her : id_ok er) (Hne : gw ≠ gr).
Abbreviation V := (VENDOR_ID C).

(** The reader and what it has received: it expects number [e]. *)
Record reader_is (r : Reader) (i : Z) (x : WriterProxy) (e : Z) : Prop := {
  ri_guid : endpointGuid (RtpsReader.m_attributes r) = mkGuid gr er;
  ri_init : RtpsReader.m_is_initialized_ r = true;
  ri_callbacks : m_callback_count r ≠ 0;
  ri_only : only (NUM_WRITER_PROXIES_PER_READER C) (RtpsReader.m_proxies r) i x;
  ri_writer : remoteWriterGuid x = mkGuid gw ew;
  ri_expected : expectedSN x = SN e
}.

(** The writer. *)
Record writer_is (w : Writer B) (i : Z) (x : ReaderProxy) : Prop := {
  wi_guid : endpointGuid (RtpsWriter.m_attributes w) = mkGuid gw ew;
  wi_init : RtpsWriter.m_is_initialized_ w = true;
  wi_only : only (NUM_READER_PROXIES_PER_WRITER C) (RtpsWriter.m_proxies w) i x;
  wi_reader : remoteReaderGuid x = mkGuid gr er;
  wi_final : finalFlag x = false
}.

(** ** What the reader does *)

(** The bytes of the answer that asks for [e]. *)
Definition acknack_packet (set : SequenceNumberSet) (count : Z) : list Z :=
  message_bytes (rtps_header V gr) [SubAckNack (acknack_msg ew er set count)].

Lemma send_acknack_ok r x set count :
  endpointGuid (RtpsReader.m_attributes r) = mkGuid gr er → set_ok set → s32 count →
  ∃ p, send_acknack V x ew er set count r = Ok [Send p] ∧ mb_bytes (buffer p) = acknack_packet set count.
Proof using All.
  intros Hg Hs Hc. unfold send_acknack. rewrite Hg. cbn [prefix].
  destruct (addAckNack_ok (addHeader V gr mb_empty) (wire_header (rtps_header V gr)) ew er set count) as (b & -> & Hb).
  - by apply addHeader_ok.
  - rewrite zlen_header by (by apply rtps_header_ok). done.
  - done.
  - done.
  - done.
  - done.
  - res_simpl. eexists. split; [done|]. cbn [buffer]. apply packet_bytes. cbn [fmap list_fmap concat]. by rewrite app_nil_r.
Qed.

(** A change is taken if it is the next one. *)
Lemma newChange_is r i x e c :
  reader_is r i x e → 0 ≤ e < 2 ^ 62 → rc_writerGuid c = mkGuid gw ew →
  RtpsReader.newChange (B := B) (NUM_WRITER_PROXIES_PER_READER C) c r =
  Ok (if bool_decide (rc_sn c = SN e) then (RtpsReader.set_proxies (assign i (set_expectedSN (SN (e + 1)) x) (RtpsReader.m_proxies r)) r, executeCallbacks c r)
      else (r, [])).
Proof using All.
  intros [Hg Hi Hc Ho Hw He] Hr Hcg. unfold RtpsReader.newChange. rewrite Hi, (proj2 (Z.eqb_neq _ _) Hc). cbn [negb orb].
  rewrite (only_range _ HR _ _ _ Ho). res_simpl. cbn [newChange_loop]. rewrite (only_at _ _ _ _ Ho). res_simpl.
  rewrite Hw, Hcg, bool_decide_true by done. cbn [andb]. rewrite He. destruct (decide (rc_sn c = SN e)) as [->|Hn].
  - rewrite sn_eqb_SN, Z.eqb_refl, bool_decide_true by done. rewrite sn_incr_SN by lia. done.
  - rewrite bool_decide_false by done. replace (sn_eqb (SN e) (rc_sn c)) with false; [done|].
    symmetry. apply not_true_is_false. intros E. apply Hn. unfold sn_eqb in E. apply andb_true_iff in E as [E1%Z.eqb_eq E2%Z.eqb_eq].
    destruct (rc_sn c). cbn in *. unfold SN in *. cbn in *. congruence.
Qed.

Lemma reader_is_expect r i x e e' :
  reader_is r i x e → reader_is (RtpsReader.set_proxies (assign i (set_expectedSN (SN e') x) (RtpsReader.m_proxies r)) r) i (set_expectedSN (SN e') x) e'.
Proof using All. intros [Hg Hi Hc Ho Hw He]. constructor; try done. by apply (only_assign _ HR _ _ x). Qed.

Lemma reader_is_proxy r i x e x' :
  reader_is r i x e → remoteWriterGuid x' = remoteWriterGuid x → expectedSN x' = expectedSN x →
  reader_is (RtpsReader.set_proxies (assign i x' (RtpsReader.m_proxies r)) r) i x' e.
Proof using All. intros [Hg Hi Hc Ho Hw He] Hx Hx'. constructor; try done; [by apply (only_assign _ HR _ _ x)|by rewrite Hx|by rewrite Hx']. Qed.

Lemma unknown_id_ok : id_ok ENTITYID_UNKNOWN.
Proof using All. unfold id_ok, is_byte. cbn. conj; [done|repeat constructor; lia|lia..]. Qed.

(** The set that asks for number [e], with one bit or none. *)
Definition asks (e : Z) (bit : bool) : SequenceNumberSet := if bit then mkSNS (SN e) 1 [Z.shiftl 1 31] else mkSNS (SN e) 0 [0].

Lemma asks_ok e bit : 0 ≤ e < 2 ^ 62 → set_ok (asks e bit).
Proof using All.
  intros He. destruct bit; (split; [apply SN_ok; cbn; lia|]; cbn; split; [lia|]); eexists; (split; [done|]); split; [done|done|done|done].
Qed.

Lemma onNewHeartbeat_is r i x e m :
  reader_is r i x e → 0 ≤ e < 2 ^ 62 → 0 ≤ w_ackNackCount x < 2 ^ 31 - 1 → h_writerId m = ew → h_readerId m = er →
  (onNewHeartbeat (NUM_WRITER_PROXIES_PER_READER C) V m gw r = Ok (false, r, []) ∧ h_count m ≤ w_hbCount x) ∨
  ∃ x' p, let r' := RtpsReader.set_proxies (assign i x' (RtpsReader.m_proxies r)) r in
    onNewHeartbeat (NUM_WRITER_PROXIES_PER_READER C) V m gw r = Ok (true, r', [Send p]) ∧ w_hbCount x < h_count m ∧
    reader_is r' i x' e ∧ w_ackNackCount x' = w_ackNackCount x + 1 ∧ w_hbCount x' = h_count m ∧
    mb_bytes (buffer p) = acknack_packet (asks e (negb (sn_ltb (h_lastSN m) (SN e)))) (w_ackNackCount x).
Proof using All.
  intros Hr He Hc Hmw Hmr. pose proof Hr as [Hg Hi Hcb Ho Hw Hex]. unfold onNewHeartbeat. rewrite Hi. cbn [negb]. unfold getProxy.
  rewrite (only_find _ HR _ _ _ _ Ho), Hw, Hmw, bool_decide_true by done. res_simpl. rewrite (only_at _ _ _ _ Ho). res_simpl.
  destruct (Z.leb_spec (h_count m) (w_hbCount x)); [by left|]. right.
  assert (getMissing (h_firstSN m) (h_lastSN m) (set_hbCount (h_count m) x) = asks e (negb (sn_ltb (h_lastSN m) (SN e)))) as ->.
  { unfold getMissing, asks. cbn [set_hbCount expectedSN]. rewrite Hex. by destruct (sn_ltb _ _). }
  unfold getNextAckNackCount, int32. cbn [set_hbCount w_ackNackCount].
  rewrite (proj2 (Z.leb_le _ _)), (proj2 (Z.ltb_lt _ _)) by lia. cbn [andb]. res_simpl.
  set (x' := set_ackNackCount _ _). destruct (send_acknack_ok r x' (asks e (negb (sn_ltb (h_lastSN m) (SN e)))) (w_ackNackCount x) Hg) as (p & E & Hp);
    [by apply asks_ok|unfold s32; lia|].
  rewrite Hmr, E. res_simpl. exists x', p. conj; [done|done| |done|done|done]. by apply (reader_is_proxy r i x).
Qed.

(** A gap of one number. *)
Lemma onNewGapMessage_is r i x e z reader :
  reader_is r i x e → 0 ≤ e < 2 ^ 62 → 0 ≤ z < 2 ^ 61 → 0 ≤ w_ackNackCount x < 2 ^ 31 - 1 → reader = er →
  let m := mkGap (mkSub GAP 1 32) reader ew (SN z) (mkSNS (SN (z + 1)) 0 [0]) in
  (onNewGapMessage (NUM_WRITER_PROXIES_PER_READER C) V m gw r = Ok (true, r, []) ∧ (e < z ∨ z + 1 < e)) ∨
  ∃ x' p, let r' := RtpsReader.set_proxies (assign i x' (RtpsReader.m_proxies r)) r in
    onNewGapMessage (NUM_WRITER_PROXIES_PER_READER C) V m gw r = Ok (false, r', [Send p]) ∧ z ≤ e ≤ z + 1 ∧
    reader_is r' i x' (z + 1) ∧ w_ackNackCount x' = w_ackNackCount x + 1 ∧ w_hbCount x' = w_hbCount x ∧
    mb_bytes (buffer p) = acknack_packet (asks (z + 1) true) (w_ackNackCount x).
Proof using All.
  intros Hr He Hz Hc -> m. pose proof Hr as [Hg Hi Hcb Ho Hw Hex]. unfold onNewGapMessage. rewrite Hi. cbn [negb]. unfold getProxy.
  rewrite (only_find _ HR _ _ _ _ Ho), Hw. unfold m. cbn [g_writerId g_readerId g_gapStart g_gapList numBits base]. rewrite bool_decide_true by done. res_simpl.
  rewrite (only_at _ _ _ _ Ho). res_simpl. rewrite Hex, sn_ltb_SN. destruct (Z.ltb_spec e z); [left; split; [done|lia]|].
  change (Z.to_nat 0) with 0%nat. cbn [first_valid_loop]. res_simpl. rewrite sn_ltb_SN. destruct (Z.ltb_spec (z + 1) e); [left; split; [done|lia]|]. right.
  unfold getNextAckNackCount, int32. cbn [set_expectedSN w_ackNackCount expectedSN].
  rewrite (proj2 (Z.leb_le _ _)), (proj2 (Z.ltb_lt _ _)) by lia. cbn [andb]. res_simpl.
  set (x' := set_ackNackCount _ _). change (mkSNS (SN (z + 1)) 1 [Z.shiftl 1 31]) with (asks (z + 1) true).
  destruct (send_acknack_ok r x' (asks (z + 1) true) (w_ackNackCount x) Hg) as (p & E & Hp); [apply asks_ok; lia|unfold s32; lia|].
  rewrite E. res_simpl. exists x', p. conj; [done|lia|lia| |done|done|done].
  constructor; [done|done|done| |done|done]. by apply (only_assign _ HR _ _ x).
Qed.

(** ** What the writer does *)

Definition data_packet (now : Z) (q : bool) (z : Z) (reid : EntityId_t) (p : list Z) : list Z :=
  message_bytes (rtps_header V gw) [timestamp now; data_sub q (SN z) ew reid p].
Definition gap_packet (now z : Z) : list Z := message_bytes (rtps_header V gw) [timestamp now; gap_sub ew er (SN z) (SN (z + 1))].
Definition heartbeat_packet (first last count : Z) : list Z := message_bytes (rtps_header V gw) [heartbeat_sub ew er (SN first) (SN last) count].

(** A change whose data are complete. *)
Definition change_ok (c : CacheChange B) : Prop :=
  mb_ok (data c) (mb_bytes (data c)) 0 ∧ mb_bytes (data c) ≠ [] ∧ zlen (mb_bytes (data c)) < 64000 ∧ sequenceNumber c = SN (num c) ∧ 0 < num c < 2 ^ 61.

Definition packet_of (now : Z) (c : CacheChange B) : list Z := data_packet now (inLineQoS c) (num c) er (mb_bytes (data c)).

Lemma packet_head_ok w now :
  endpointGuid (RtpsWriter.m_attributes w) = mkGuid gw ew →
  mb_ok (packet_head V now w) (wire_header (rtps_header V gw) ++ wire (timestamp now)) 8 ∧
  zlen (wire_header (rtps_header V gw) ++ wire (timestamp now)) = 32.
Proof using All.
  intros Hg. unfold packet_head. rewrite Hg. cbn [prefix]. pose proof (rtps_header_ok V HV gw Hgw) as Hh. split.
  - apply addSubMessageTimeStamp_ok; [by apply addHeader_ok|]. by rewrite zlen_header.
  - by rewrite zlen_app, zlen_header, zlen_timestamp.
Qed.

Lemma data_buffer_ok w now c reid :
  endpointGuid (RtpsWriter.m_attributes w) = mkGuid gw ew → change_ok c → id_ok reid →
  mb_bytes (addSubMessageData (data c) (inLineQoS c) (sequenceNumber c) (entityId (endpointGuid (RtpsWriter.m_attributes w))) reid (packet_head V now w)) =
  data_packet now (inLineQoS c) (num c) reid (mb_bytes (data c)).
Proof using All.
  intros Hg (Hd & Hne' & Hl & Hs & Hn) Hid. destruct (packet_head_ok w now Hg) as [Hh Hz]. rewrite Hg, Hs. cbn [entityId]. apply packet_bytes.
  cbn [fmap list_fmap concat]. rewrite app_nil_r, app_assoc.
  apply (addSubMessageData_ok _ _ 8); [done|done|done|done|rewrite Hz; lia|apply SN_ok; lia|done|done].
Qed.

Lemma sendData_ok w i x now c : writer_is w i x → change_ok c → packets_of [sendData V now x c w] = [packet_of now c].
Proof using All.
  intros [Hg _ _ Hx _] Hc. unfold packets_of, sendData, send_to. cbn [omap list_omap buffer]. rewrite Hx. cbn [entityId]. f_equal.
  by apply data_buffer_ok.
Qed.

Lemma sendGap_ok w i x now z :
  writer_is w i x → 0 ≤ z < 2 ^ 61 → ∃ e, sendGap V now x (SN z) w = Ok e ∧ packets_of [e] = [gap_packet now z].
Proof using All.
  intros [Hg _ _ Hx _] Hz. unfold sendGap. destruct (packet_head_ok w now Hg) as [Hh Hl].
  rewrite Hg, Hx. cbn [entityId]. destruct (addSubmessageGap_ok _ _ 8 ew er z Hh) as (b & -> & Hb); [done|rewrite Hl; done|lia|done|done|].
  res_simpl. eexists. split; [done|]. unfold packets_of, send_to. cbn [omap list_omap buffer]. f_equal. apply packet_bytes.
  cbn [fmap list_fmap concat]. by rewrite app_nil_r, app_assoc.
Qed.

(** The history of the writer. *)
Record history_ok (h : HistoryCache B) (l : list (CacheChange B)) (last : Z) : Prop := {
  hk_holds : holds h l last;
  hk_changes : Forall change_ok l;
  hk_last : last < 2 ^ 60
}.

(** Whether a number is between those of the first and of the last change. *)
Definition in_range (l : list (CacheChange B)) (last z : Z) : bool := (first_num l <=? z) && (z <=? last_num l last).
Definition present (l : list (CacheChange B)) (z : Z) : bool := bool_decide (Exists (λ c, num c = z) l).

(** The changes from a number on: the one with it, if any, and the later ones. *)
Lemma from_split h l last z :
  holds h l last →
  match list_find (λ c, num c = z) l with
  | Some (k, c) => present l z = true ∧ l !! k = Some c ∧ filter (λ c, z ≤ num c) l = c :: filter (λ c, z + 1 ≤ num c) l
  | None => present l z = false ∧ filter (λ c, z ≤ num c) l = filter (λ c, z + 1 ≤ num c) l
  end.
Proof using All.
  intros [_ _ _ _ Hs]. destruct (list_find _ l) as [[k c]|] eqn:E.
  - apply list_find_Some in E as (Hk & Hn & Hfirst). conj; [|done|].
    + unfold present. apply bool_decide_eq_true_2, Exists_exists. exists c. split; [by eapply list_elem_of_lookup_2|done].
    + rewrite <- (take_drop_middle l k c Hk) in Hs |- *. apply sorted_app in Hs as (_ & Hs & Hlt). rewrite !filter_app, !filter_cons, decide_True, decide_False by lia.
      assert (∀ b, z ≤ b → filter (λ x, b ≤ num x) (take k l) = []) as Hnone.
      { intros b Hb. apply filter_nothing. apply Forall_forall. intros y Hy. assert (num y < num c) by (apply Hlt; [done|by left]). lia. }
      rewrite !Hnone by lia. cbn [app]. f_equal. inversion Hs as [|? ? _ HF]; subst. clear -HF. induction HF as [|y l' Hy _ IH]; [done|].
      rewrite !filter_cons, !decide_True by lia. by f_equal.
  - apply list_find_None in E. split.
    + unfold present. apply bool_decide_eq_false_2. intros [c [Hc Hn]]%Exists_exists. rewrite Forall_forall in E. by apply (E c).
    + clear -E. induction E as [|y l' Hy _ IH]; [done|]. rewrite !filter_cons, IH. destruct (decide (z ≤ num y)), (decide (z + 1 ≤ num y)); try done; lia.
Qed.

(** The answer for the first number asked for. *)
Definition requested (now : Z) (l : list (CacheChange B)) (last z : Z) : list (list Z) :=
  if in_range l last z && negb (present l z) then [gap_packet now z] else [].

Lemma getChange_found w (l : list (CacheChange B)) last z :
  holds (m_history w) l last →
  WithDeletion.getChangeBySN (SN z) (m_history w) = Ok (pos (m_history w) ∘ Z.of_nat ∘ fst <$> list_find (λ c, num c = z) l).
Proof using All. intros Hh. rewrite (getChangeBySN_ok _ _ _ _ Hh). by destruct (list_find _ l) as [[? ?]|]. Qed.

Lemma answer_requested_ok w i x l last now z :
  writer_is w i x → history_ok (m_history w) l last → 0 ≤ z < 2 ^ 61 →
  ∃ ev, answer_requested V now x (SN z) w = Ok ev ∧
    packets_of ev ++ (packet_of now <$> filter (λ c, z + 1 ≤ num c) l) = requested now l last z ++ (packet_of now <$> filter (λ c, z ≤ num c) l).
Proof using All.
  intros Hw [Hh Hc _] Hz. unfold answer_requested. rewrite (getChange_found _ _ _ _ Hh). pose proof (from_split _ _ _ z Hh) as Hs. unfold requested.
  destruct (list_find _ l) as [[k c]|]; cbn [fmap option_fmap option_map compose fst]; res_simpl.
  - destruct Hs as (-> & Hk & ->). rewrite (ring_at _ _ _ _ (ho_ring _ _ _ Hh) Hk). res_simpl. eexists. split; [done|].
    rewrite (sendData_ok w i x now c) by (done || by eapply Forall_lookup_1). by rewrite andb_false_r.
  - destruct Hs as (-> & ->). rewrite (isSNInRange_ok _ _ _ _ Hh). res_simpl. fold (in_range l last z). rewrite andb_true_r. destruct (in_range l last z).
    + destruct (sendGap_ok w i x now z Hw Hz) as (e & -> & He). res_simpl. exists [e]. by rewrite He.
    + by exists [].
Qed.

Lemma answer_after_ok w i x l last now fuel z :
  writer_is w i x → history_ok (m_history w) l last → 0 ≤ z < 2 ^ 61 → last - z + 1 < Z.of_nat fuel →
  ∃ ev, answer_after V fuel now x (SN z) (SN (last_num l last)) w = Ok ev ∧ packets_of ev = packet_of now <$> filter (λ c, z ≤ num c) l.
Proof using All.
  intros Hw [Hh Hc Hlast]. revert z. induction fuel as [|fuel IH]; intros z Hz Hf; cbn [answer_after]; rewrite sn_leb_SN.
  all: pose proof Hh as [_ _ Hr Hi _].
  all: assert (last_num l last < z → filter (λ c, z ≤ num c) l = []) as Hnone by
    (intros Hlt; destruct l as [|c0 l0]; [done|]; apply filter_nothing; cbn in Hlt; eapply Forall_impl; [exact Hi|]; intros y [_ ?]; cbn in *; lia).
  all: destruct (Z.leb_spec z (last_num l last)) as [Hle|Hgt]; [|exists []; by rewrite Hnone].
  { exfalso. destruct l; cbn in Hle; lia. }
  assert (last_num l last = last) as El by (destruct l; [cbn in Hle; lia|done]).
  rewrite (getChange_found _ _ _ _ Hh). pose proof (from_split _ _ _ z Hh) as Hs.
  destruct (IH (z + 1)) as (ev & Hev & Hp); [lia|lia|].
  destruct (list_find _ l) as [[k c]|]; cbn [fmap option_fmap option_map compose fst]; res_simpl.
  - destruct Hs as (_ & Hk & ->). rewrite (ring_at _ _ _ _ (ho_ring _ _ _ Hh) Hk). res_simpl. rewrite sn_incr_SN by lia. res_simpl. rewrite Hev. res_simpl.
    eexists. split; [done|]. rewrite packets_of_app, Hp. by rewrite (sendData_ok w i x now c) by (done || by eapply Forall_lookup_1).
  - destruct Hs as (_ & ->). rewrite sn_incr_SN by lia. res_simpl. rewrite Hev. res_simpl. by exists ev.
Qed.

(** What is sent in answer to a reader that expects [e]. *)
Definition answer (now : Z) (l : list (CacheChange B)) (last e : Z) (bit : bool) : list (list Z) :=
  (if bit then requested now l last e else []) ++ (packet_of now <$> filter (λ c, e ≤ num c) l).

Lemma onNewAckNack_is w i x l last now fuel e bit count :
  writer_is w i x → history_ok (m_history w) l last → 0 ≤ e < 2 ^ 60 → last < Z.of_nat fuel - 1 →
  ∃ x' ev, let w' := RtpsWriter.set_pool (assign i x' (RtpsWriter.m_proxies w)) w in
    onNewAckNack (NUM_READER_PROXIES_PER_WRITER C) V fuel now (acknack_msg ew er (asks e bit) count) gr w =
      Ok (if count <=? ackNackCount x then (w, []) else (w', ev)) ∧
    writer_is w' i x' ∧ ackNackCount x' = count ∧ packets_of ev = answer now l last e bit.
Proof using All.
  intros Hw Hh He Hf. pose proof Hw as [Hg Hi Ho Hx Hfin]. unfold onNewAckNack. rewrite Hi. cbn [negb acknack_msg a_readerId a_count a_header a_readerSNState].
  rewrite (only_range _ HW _ _ _ Ho). res_simpl. cbn [find_reader]. rewrite (only_at _ _ _ _ Ho). res_simpl. rewrite Hx, bool_decide_true by done. res_simpl.
  rewrite (only_at _ _ _ _ Ho). res_simpl. set (x' := set_acknack _ _ _ x). exists x'.
  assert (writer_is (RtpsWriter.set_pool (assign i x' (RtpsWriter.m_proxies w)) w) i x') as Hw'.
  { constructor; try done. by apply (only_assign _ HW _ _ x). }
  set (w' := RtpsWriter.set_pool _ w) in *. assert (history_ok (m_history w') l last) as Hh' by done.
  rewrite (getSeqNumMax_ok _ _ _ (hk_holds _ _ _ Hh')).
  assert (∃ ev, ('(nextSN, ev) ← answer_set V now x' (asks e bit) (Z.to_nat (numBits (asks e bit))) 0 (base (asks e bit)) w';
      ev' ← answer_after V fuel now x' nextSN (SN (last_num l last)) w'; Ok (w', ev ++ ev')) = Ok (w', ev) ∧ packets_of ev = answer now l last e bit) as (ev & E & Hp).
  { destruct bit; cbn [asks numBits base].
    - change (Z.to_nat 1) with 1%nat. cbn [answer_set]. rewrite isSet_first. res_simpl.
      destruct (answer_requested_ok w' i x' l last now e Hw' Hh') as (ev1 & -> & Hp1); [lia|]. res_simpl. rewrite sn_incr_SN by lia. res_simpl.
      destruct (answer_after_ok w' i x' l last now fuel (e + 1) Hw' Hh') as (ev2 & -> & Hp2); [lia|lia|]. res_simpl.
      eexists. split; [done|]. rewrite app_nil_r, packets_of_app, Hp2. exact Hp1.
    - change (Z.to_nat 0) with 0%nat. cbn [answer_set]. res_simpl.
      destruct (answer_after_ok w' i x' l last now fuel e Hw' Hh') as (ev2 & -> & Hp2); [lia|lia|]. res_simpl. by exists ev2. }
  exists ev. conj; [|done|done|done]. destruct (count <=? ackNackCount x); [done|]. exact E.
Qed.

(** ** The calls of the application and of the threads *)

Lemma new_data_ok bytes : bytes ≠ [] → zlen bytes < 64000 → mb_ok (new_data bytes) bytes 0.
Proof using All.
  intros Hne' Hl. assert (0 < zlen bytes) by (destruct bytes; [done|rewrite zlen_cons; pose proof (zlen_nonneg bytes); lia]).
  unfold new_data. destruct (mb_ok_reserve mb_empty [] 0 (zlen bytes) mb_ok_empty) as (b & -> & Hb); [lia|rewrite zlen_nil; lia|]. cbn [snd].
  destruct (mb_ok_append b [] _ bytes Hb) as (b' & -> & Hb'); [lia|]. cbn [snd]. cbn [app] in Hb'. by rewrite Z.max_r, Z.sub_diag in Hb' by lia.
Qed.

Lemma set_next_same (w : Writer B) n : m_nextSequenceNumberToSend w = SN n → set_next (SN n) w = w.
Proof using All. intros <-. by destruct w. Qed.

Lemma skip_dropped_ok (w : Writer B) l last n :
  holds (m_history w) l last → m_nextSequenceNumberToSend w = SN n →
  ∃ n', skip_dropped w = Ok (set_next (SN n') w) ∧ (n' = n ∨ n' = first_num l + 1).
Proof using All.
  intros Hh Hn. unfold skip_dropped. rewrite (getSeqNumMin_ok _ _ _ Hh). pose proof Hh as [_ _ Hr Hi _].
  assert (- 2 ^ 32 ≤ first_num l < 2 ^ 62) by (destruct l as [|c l]; [cbn; lia|]; apply Forall_cons in Hi as [[_ ?] _]; cbn; lia).
  destruct (isFull (m_history w)); [|exists n; by rewrite set_next_same by done; auto]. res_simpl. rewrite sn_incr_SN by lia. res_simpl.
  rewrite Hn, sn_ltb_SN. destruct (n <? first_num l + 1); [eauto|]. exists n. rewrite set_next_same by done. auto.
Qed.

Lemma newChange_writes w i x l last n bytes q d :
  writer_is w i x → history_ok (m_history w) l last → last + 1 < 2 ^ 60 → m_nextSequenceNumberToSend w = SN n → bytes ≠ [] → zlen bytes < 64000 →
  let c := mkChange ALIVE q d (SN (last + 1)) (new_data bytes) in
  ∃ n' place h' ev, newChange ALIVE bytes q d w = Ok (Some place, set_history h' (set_next (SN n') w), ev) ∧ packets_of ev = [] ∧
    history_ok h' (make_room (m_history w) l ++ [c]) (last + 1) ∧ (n' = n ∨ n' = first_num l + 1).
Proof using All.
  intros [Hg Hi Ho Hx Hfin] [Hh Hc Hl] Hlast Hn Hb Hbl c. unfold newChange. rewrite Hi. cbn [isIrrelevant orb negb].
  change (isIrrelevant ALIVE) with false. cbn [orb]. destruct (skip_dropped_ok w l last n Hh Hn) as (n' & -> & Hn'). res_simpl.
  cbn [set_next m_history]. destruct (addChange_ok (m_history w) l last bytes q d Hh) as (place & h' & -> & Ho' & Hw' & _); [lia|]. res_simpl.
  exists n', place, h'. eexists. conj; [done| | |done].
  - unfold packets_of, workload. cbn [mp_threadPool set_history set_next]. by destruct (mp_threadPool w).
  - constructor; [done| |done]. apply Forall_app. split.
    + unfold make_room. case_match; [|done]. apply Forall_forall. intros y Hy%drop_1_in. rewrite Forall_forall in Hc. auto.
    + constructor; [|constructor]. unfold change_ok, c. cbn [data sequenceNumber]. pose proof (new_data_ok bytes Hb Hbl) as Hd.
      rewrite (mb_ok_bytes _ _ Hd). pose proof (ho_range _ _ _ Hh). unfold num. cbn [sequenceNumber]. rewrite sn_val_SN. conj; done || lia.
Qed.

Lemma sendDataWRMulticast_ok w i x now c :
  writer_is w i x → change_ok c →
  packets_of (sendDataWRMulticast V now x c w) = [] ∨
  ∃ reid, (reid = er ∨ reid = ENTITYID_UNKNOWN) ∧ packets_of (sendDataWRMulticast V now x c w) = [data_packet now (inLineQoS c) (num c) reid (mb_bytes (data c))].
Proof using All.
  intros [Hg _ _ Hx _] Hc. unfold sendDataWRMulticast. destruct (useMulticast x || negb (suppressUnicast x)); [right|by left].
  exists (if useMulticast x then ENTITYID_UNKNOWN else er). split; [destruct (useMulticast x); auto|].
  unfold packets_of, send_to. cbn [omap list_omap buffer]. rewrite Hx. cbn [entityId]. f_equal. apply data_buffer_ok; [done..|].
  destruct (useMulticast x); [apply unknown_id_ok|done].
Qed.

Lemma progress_is w i x l last n now :
  writer_is w i x → history_ok (m_history w) l last → m_nextSequenceNumberToSend w = SN n → - 2 ^ 62 ≤ n < 2 ^ 62 →
  ∃ h' l' ev, progress (NUM_READER_PROXIES_PER_WRITER C) V now w = Ok (set_next (SN (n + 1)) (set_history h' w), ev) ∧ history_ok h' l' last ∧
    (l' = l ∨ ∃ c, c ∈ l ∧ diposeAfterWrite c = true ∧ l' = filter (λ y, num y ≠ num c) l) ∧
    Forall (λ b, ∃ c reid, c ∈ l ∧ (reid = er ∨ reid = ENTITYID_UNKNOWN) ∧ b = data_packet now (inLineQoS c) (num c) reid (mb_bytes (data c))) (packets_of ev).
Proof using All.
  intros Hw [Hh Hc Hl] Hn Hr. pose proof Hw as [Hg Hi Ho Hx Hfin]. unfold progress. rewrite Hn, (getChange_found _ _ _ _ Hh).
  assert (set_history (m_history w) w = w) as Hsame by (by destruct w).
  destruct (list_find _ l) as [[k c]|] eqn:E; cbn [fmap option_fmap option_map compose fst]; res_simpl.
  - apply list_find_Some in E as (Hk & Hnum & _). rewrite (ring_at _ _ _ _ (ho_ring _ _ _ Hh) Hk). res_simpl.
    rewrite (only_range _ HW _ _ _ Ho). res_simpl. cbn [send_all]. rewrite (only_at _ _ _ _ Ho). res_simpl.
    assert (c ∈ l) as Hin by (by eapply list_elem_of_lookup_2). pose proof (Forall_lookup_1 _ _ _ _ Hc Hk) as Hck.
    set (ev := (if negb (m_enforceUnicast w) then _ else _) ++ []).
    assert (Forall (λ b, ∃ c reid, c ∈ l ∧ (reid = er ∨ reid = ENTITYID_UNKNOWN) ∧ b = data_packet now (inLineQoS c) (num c) reid (mb_bytes (data c))) (packets_of ev)) as Hev.
    { unfold ev. rewrite app_nil_r. destruct (negb (m_enforceUnicast w)).
      - destruct (sendDataWRMulticast_ok w i x now c Hw Hck) as [->|(reid & Hreid & ->)]; [done|]. constructor; [|done]. by exists c, reid.
      - rewrite (sendData_ok w i x now c Hw Hck). constructor; [|done]. exists c, er. conj; [done|by left|done]. }
    destruct Hck as (_ & _ & _ & Hsn & _). destruct (diposeAfterWrite c) eqn:Hd.
    + rewrite Hsn. destruct (dropChange_any _ _ _ (num c) Hh) as (h' & -> & Ho' & _). res_simpl. cbn [set_history m_nextSequenceNumberToSend]. rewrite Hn, sn_incr_SN by lia. res_simpl.
      exists h', (filter (λ y, num y ≠ num c) l), ev. conj; [done| |right; by exists c|done]. constructor; [done| |done].
      apply Forall_forall. intros y [_ Hy]%list_elem_of_filter. rewrite Forall_forall in Hc. auto.
    + res_simpl. rewrite ?Hn, sn_incr_SN by lia. res_simpl. exists (m_history w), l, ev. rewrite Hsame. conj; [done|done|by left|done].
  - rewrite ?Hn, sn_incr_SN by lia. res_simpl. exists (m_history w), l, []. rewrite Hsame. conj; [done|done|by left|constructor].
Qed.

Lemma sendHeartBeat_is w i x l last :
  writer_is w i x → history_ok (m_history w) l last → 0 ≤ m_hbCount w < 2 ^ 31 - 1 →
  ∃ w' ev, sendHeartBeat (NUM_READER_PROXIES_PER_WRITER C) V w = Ok (w', ev) ∧
    match l with
    | [] => w' = w ∧ ev = []
    | _ => w' = set_heartbeats (m_hbCount w + 1) w ∧ packets_of ev = [heartbeat_packet (first_num l) last (m_hbCount w)]
    end.
Proof using All.
  intros [Hg Hi Ho Hx Hfin] [Hh Hc Hl] Hcount. unfold sendHeartBeat. rewrite (only_isEmpty _ HW _ _ _ Ho), Hi. cbn [negb orb].
  rewrite (only_range _ HW _ _ _ Ho). res_simpl. cbn [heartbeat_loop]. rewrite (only_at _ _ _ _ Ho). res_simpl.
  rewrite (getSeqNumMin_ok _ _ _ Hh), (getSeqNumMax_ok _ _ _ Hh). res_simpl. rewrite Hfin, andb_false_r. cbn [andb].
  rewrite SEQUENCENUMBER_UNKNOWN_SN, !sn_eqb_SN. pose proof Hh as [_ _ Hr Hit _]. destruct l as [|c l]; cbn [first_num last_num].
  - rewrite Z.eqb_refl. cbn [orb]. res_simpl. by exists w, [].
  - apply Forall_cons in Hit as [[_ Hnum] _]. rewrite !(proj2 (Z.eqb_neq _ _)) by lia. cbn [orb]. res_simpl. unfold int32.
    rewrite (proj2 (Z.leb_le _ _)), (proj2 (Z.ltb_lt _ _)) by lia. cbn [andb]. res_simpl. eexists _, _. split; [done|]. split; [done|].
    unfold packets_of, send_to. cbn [omap list_omap buffer]. f_equal. rewrite Hg, Hx. cbn [prefix entityId]. apply packet_bytes.
    cbn [fmap list_fmap concat]. rewrite app_nil_r. pose proof (rtps_header_ok V HV gw Hgw) as Hhd.
    apply addHeartbeat_ok; [by apply addHeader_ok|by rewrite zlen_header|apply SN_ok; lia|apply SN_ok; lia|done|done|unfold s32; lia].
Qed.

(** ** What is known of a session *)

Definition written_as (s : session) (z : Z) : option (list Z * bool) := s_written s !! Z.to_nat (z - 1).
Definition payload (s : session) (z : Z) : list Z := from_option fst [] (written_as s z).

(** The change was removed by the application, or was to be disposed of after sending. *)
Definition gone (s : session) (z : Z) : Prop := z ∈ s_removed s ∨ ∃ p, written_as s z = Some (p, true).

(** The number given out last. *)
Definition last_of (s : session) : Z := zlen (s_written s).

(** Numbers of which nothing is left, neither in the history nor under way, and what the reader's
    callbacks are: both stay for the whole session. *)
Context (lost : Z → Prop) (callbacks : list callbackElement).

(** The packets under way; [hb] and [an] are the next counts of heartbeats and of answers. *)
Inductive from_writer (hb : Z) (s : session) (b : list Z) : Prop :=
  | fw_data now q z reid : 1 ≤ z ≤ last_of s → payload s z ≠ [] → zlen (payload s z) < 64000 → reid = er ∨ reid = ENTITYID_UNKNOWN →
      ¬ lost z → b = data_packet now q z reid (payload s z) → from_writer hb s b
  | fw_gap now z : gone s z → 1 ≤ z ≤ last_of s → ¬ lost z → b = gap_packet now z → from_writer hb s b
  | fw_heartbeat first last count : 0 ≤ first < 2 ^ 61 → 0 ≤ last < 2 ^ 61 → s32 count → count < hb → b = heartbeat_packet first last count → from_writer hb s b.

Inductive from_reader (an : Z) (s : session) (b : list Z) : Prop :=
  | fr_acknack e bit count : 1 ≤ e ≤ last_of s + 1 → s32 count → count < an → b = acknack_packet (asks e bit) count → from_reader an s b.

(** The writer's participant; [l] are the changes in the history, [n] is the number to be sent
    next.  All numbers are bounded by [N], the number of steps. *)
Record writer_inv (N : Z) (s : session) (w : Writer B) (i : Z) (x : ReaderProxy) (l : list (CacheChange B)) (n : Z) : Prop := {
  wv_prefix : m_guidPrefix (s_writer s) = gw;
  wv_writers : m_writers (s_writer s) = [Some (StatefulWriter w)];
  wv_is : writer_is w i x;
  wv_history : history_ok (m_history w) l (last_of s);
  wv_next : m_nextSequenceNumberToSend w = SN n;
  wv_bounds : - 2 ^ 32 ≤ n ≤ N ∧ 0 ≤ m_hbCount w ≤ N ∧ last_of s ≤ N;
  wv_changes : Forall (λ c, written_as s (num c) = Some (mb_bytes (data c), diposeAfterWrite c)) l;
  wv_covered : ∀ z, 1 ≤ z → in_range l (last_of s) z = true → present l z = true ∨ gone s z;
  wv_lost : ∀ z, lost z → z ≤ last_of s ∧ Forall (λ c, z < num c) l
}.

(** What the callbacks are called with. *)
Definition delivered_change (s : session) (z : Z) : ReaderCacheChange :=
  mkReaderChange (payload s z) ALIVE (zlen (payload s z)) (mkGuid gw ew) (SN z).

(** The reader's participant, whose callbacks were called for the numbers [ks]. *)
Record reader_inv (N : Z) (s : session) (r : Reader) (i : Z) (x : WriterProxy) (e : Z) (ks : list Z) : Prop := {
  rv_prefix : m_guidPrefix (s_reader s) = gr;
  rv_readers : m_readers (s_reader s) = [Some (StatefulReader r)];
  rv_remotes : pool_ok (SPDP_MAX_NUMBER_FOUND_PARTICIPANTS C) (m_remoteParticipants (s_reader s));
  rv_is : reader_is r i x e;
  rv_bounds : 1 ≤ e ≤ last_of s + 1 ∧ 0 ≤ w_ackNackCount x ≤ N;
  rv_calls : s_calls s = ks ≫= (λ z, executeCallbacks (delivered_change s z) r);
  rv_sorted : StronglySorted Z.lt ks;
  rv_range : Forall (λ z, 1 ≤ z < e) ks;
  rv_covered : ∀ z, 1 ≤ z < e → z ∈ ks ∨ gone s z;
  rv_callbacks : m_callbacks r = callbacks
}.

(** The whole session. *)
Record session_inv (N : Z) (s : session) w i x l n r ir xr e ks : Prop := {
  sv_writer : writer_inv N s w i x l n;
  sv_reader : reader_inv N s r ir xr e ks;
  sv_heartbeats : w_hbCount xr < m_hbCount w;
  sv_acknacks : ackNackCount x < w_ackNackCount xr;
  sv_to_reader : Forall (from_writer (m_hbCount w) s) (s_to_reader s);
  sv_to_writer : Forall (from_reader (w_ackNackCount xr) s) (s_to_writer s)
}.

Definition invariant (N : Z) (s : session) : Prop := ∃ w i x l n r ir xr e ks, session_inv N s w i x l n r ir xr e ks.

(** More was written and removed. *)
Definition later (s s' : session) : Prop := s_written s `prefix_of` s_written s' ∧ s_removed s ⊆ s_removed s'.

Lemma later_last s s' : later s s' → last_of s ≤ last_of s'.
Proof using All. intros [[k E] _]. unfold last_of. rewrite E, zlen_app. pose proof (zlen_nonneg k). lia. Qed.

Lemma later_written s s' z x : later s s' → written_as s z = Some x → written_as s' z = Some x.
Proof using All. intros [[k E] _]. unfold written_as. intros Hz. rewrite E. by apply lookup_app_l_Some. Qed.

Lemma later_payload s s' z : later s s' → 1 ≤ z ≤ last_of s → payload s' z = payload s z.
Proof using All.
  intros Hl Hz. unfold payload, written_as, last_of, zlen in *. destruct (lookup_lt_is_Some_2 (s_written s) (Z.to_nat (z - 1))) as [x Hx]; [lia|].
  pose proof (later_written s s' z x Hl) as E. unfold written_as in E. by rewrite Hx, E.
Qed.

Lemma later_gone s s' z : later s s' → gone s z → gone s' z.
Proof using All. intros Hl [Hr|[p Hp]]; [left; by apply (proj2 Hl)|right; exists p; by apply (later_written s)]. Qed.

Lemma later_from_writer hb hb' s s' b : later s s' → hb ≤ hb' → from_writer hb s b → from_writer hb' s' b.
Proof using All.
  intros Hl Hh Hb. pose proof (later_last _ _ Hl). destruct Hb as [now q z reid Hz Hp Hpl Hr Hlo ->|now z Hg Hz Hlo ->|first last count Hf Hla Hc Hco ->].
  - rewrite <- (later_payload _ _ _ Hl Hz) in *. apply (fw_data _ _ _ now q z reid); done || lia.
  - apply (fw_gap _ _ _ now z); [by eapply later_gone|lia|done|done].
  - by apply (fw_heartbeat _ _ _ first last count); try lia.
Qed.

Lemma later_from_reader an an' s s' b : later s s' → an ≤ an' → from_reader an s b → from_reader an' s' b.
Proof using All. intros Hl Ha [e bit count He Hc Hco ->]. pose proof (later_last _ _ Hl). apply (fr_acknack _ _ _ e bit count); done || lia. Qed.

Lemma later_calls s s' r ks e :
  later s s' → e ≤ last_of s + 1 → Forall (λ z, 1 ≤ z < e) ks →
  (ks ≫= (λ z, executeCallbacks (delivered_change s z) r)) = (ks ≫= (λ z, executeCallbacks (delivered_change s' z) r) : list (event B)).
Proof using All.
  intros Hl He. induction 1 as [|z ks Hz _ IH]; [done|]. cbn [mbind list_bind]. f_equal; [|apply IH].
  unfold delivered_change. by rewrite (later_payload s s') by (done || lia).
Qed.

Lemma later_reader N s s' r i x e ks :
  later s s' → s_reader s' = s_reader s → s_calls s' = s_calls s → reader_inv N s r i x e ks → reader_inv (N + 1) s' r i x e ks.
Proof using All.
  intros Hl Hr Hc [Hp Hrs Hrem His Hb Hcalls Hs Hrg Hcov Hcbs]. pose proof (later_last _ _ Hl).
  constructor; rewrite ?Hr, ?Hc; try done; [lia| |].
  - rewrite Hcalls. apply (later_calls _ _ _ _ e Hl); [lia|done].
  - intros z Hz. destruct (Hcov z Hz); [by left|right; by eapply later_gone].
Qed.

(** ** Ranges *)

Implicit Types (l : list (CacheChange B)) (h : HistoryCache B) (c : CacheChange B).

Lemma in_range_spec l last z : 1 ≤ z → in_range l last z = true ↔ ∃ c0 l0, l = c0 :: l0 ∧ num c0 ≤ z ≤ last.
Proof using All.
  intros Hz. unfold in_range. rewrite andb_true_iff, !Z.leb_le. destruct l as [|c0 l0]; cbn [first_num last_num].
  - split; [lia|]. by intros (? & ? & ? & _).
  - split; [intros ?; by exists c0, l0|]. by intros (? & ? & [= -> ->] & ?).
Qed.

Lemma present_spec l z : present l z = true ↔ ∃ c, c ∈ l ∧ num c = z.
Proof using All. unfold present. rewrite bool_decide_eq_true. apply Exists_exists. Qed.

Lemma first_le h c0 l last c : holds h (c0 :: l) last → c ∈ c0 :: l → num c0 ≤ num c.
Proof using All.
  intros [_ _ _ _ Hs] [->|Hc]%elem_of_cons; [lia|]. inversion Hs as [|? ? _ HF]; subst. rewrite Forall_forall in HF. specialize (HF c Hc). lia.
Qed.

Definition covered (s : session) (l : list (CacheChange B)) (last : Z) : Prop :=
  ∀ z, 1 ≤ z → in_range l last z = true → present l z = true ∨ gone s z.

Lemma covered_later s s' l last : later s s' → covered s l last → covered s' l last.
Proof using All. intros Hl Hc z Hz Hr. destruct (Hc z Hz Hr); [by left|right; by eapply later_gone]. Qed.

Lemma covered_add s h l last c :
  holds h l last → num c = last + 1 → covered s l last → covered s (make_room h l ++ [c]) (last + 1).
Proof using All.
  intros Hh Hn Hc z Hz Hr. rewrite present_spec. apply in_range_spec in Hr as (c0 & l0 & El & Hz'); [|done].
  destruct (decide (z = last + 1)) as [->|Hlast]; [left; exists c; split; [set_solver|done]|].
  destruct (make_room h l) as [|c1 l1] eqn:Em; [injection El as <- <-; lia|]. injection El as <- _.
  assert (c1 ∈ l ∧ (∀ y, y ∈ l → num c1 ≤ num y → y ∈ c1 :: l1) ∧ l ≠ []) as (Hin & Hkeep & Hne').
  { unfold make_room in Em. destruct (zlen l =? width h - 1).
    - destruct l as [|y0 l]; [done|]. cbn [drop] in Em. rewrite drop_0 in Em. subst l. conj; [set_solver| |done].
      intros y [->|Hy]%elem_of_cons Hle; [|done]. pose proof Hh as [_ _ _ _ Hs]. inversion Hs as [|? ? _ HF]; subst. apply Forall_cons in HF as [? _]. lia.
    - subst l. conj; [by left|done|done]. }
  destruct (Hc z Hz) as [Hp|Hg]; [|apply present_spec in Hp as (y & Hy & Hyn)|by right].
  - apply in_range_spec; [done|]. destruct l as [|y0 l]; [done|]. exists y0, l. split; [done|]. pose proof (first_le _ _ _ _ _ Hh Hin). lia.
  - left. exists y. split; [|done]. apply elem_of_app. left. apply Hkeep; [done|lia].
Qed.

Lemma covered_filter s s' h l last z0 :
  later s s' → holds h l last → (present l z0 = true → gone s' z0) → covered s l last → covered s' (filter (λ c, num c ≠ z0) l) last.
Proof using All.
  intros Hl Hh Hz0 Hc z Hz Hr. rewrite present_spec. apply in_range_spec in Hr as (c0 & l0 & El & Hz'); [|done].
  assert (c0 ∈ l) as Hin. { assert (c0 ∈ filter (λ c, num c ≠ z0) l) as [_ ?]%list_elem_of_filter by (rewrite El; by left). done. }
  destruct (Hc z Hz) as [Hp|Hg]; [| |right; by eapply later_gone].
  - apply in_range_spec; [done|]. destruct l as [|y0 l]; [by apply not_elem_of_nil in Hin|]. exists y0, l. split; [done|]. pose proof (first_le _ _ _ _ _ Hh Hin). lia.
  - destruct (decide (z = z0)) as [->|Hne']; [right; by apply Hz0|]. apply present_spec in Hp as (y & Hy & Hyn). left. exists y. split; [|done].
    apply list_elem_of_filter. split; [lia|done].
Qed.

(** ** Steps of the writer's side *)

Lemma rtps_session_later N s w i x l n r ir xr e ks :
  session_inv N s w i x l n r ir xr e ks → session_inv (N + 1) s w i x l n r ir xr e ks.
Proof using All.
  intros [Hw Hr Hh Ha Htr Htw]. constructor; try done.
  - destruct Hw. constructor; done || lia.
  - by apply (later_reader N s).
Qed.

(** The session after a call of the writer. *)
Definition with_writer (s : session) (w : Writer B) (ev : list (event B)) (written : list (list Z * bool)) (removed : list Z) : session :=
  mkSession (set_writer 0 (Some (StatefulWriter w)) (s_writer s)) (s_reader s) (s_to_reader s ++ packets_of ev) (s_to_writer s)
    (s_written s ++ written) (s_removed s ++ removed) (s_calls s).

Lemma on_writer_is s (w : Writer B) f w' ev written removed :
  m_writers (s_writer s) = [Some (StatefulWriter w)] → f w = Ok (w', ev) →
  after_writer (on_writer f (s_writer s)) written removed s = Ok (with_writer s w' ev written removed).
Proof using All. intros Hw Hf. unfold after_writer, on_writer, call_writer. rewrite Hw. cbn [lookup list_lookup]. res_simpl. by rewrite Hf. Qed.

Lemma later_with s (w : Writer B) ev written removed : later s (with_writer s w ev written removed).
Proof using All. split; cbn; [by apply prefix_app_r|set_solver]. Qed.

Lemma invariant_writer N s w i x l n r ir xr e ks w' x' l' n' ev written removed :
  let s' := with_writer s w' ev written removed in
  session_inv N s w i x l n r ir xr e ks → writer_is w' i x' → history_ok (m_history w') l' (last_of s') → m_nextSequenceNumberToSend w' = SN n' →
  - 2 ^ 32 ≤ n' ≤ N + 1 ∧ m_hbCount w ≤ m_hbCount w' ≤ N + 1 ∧ last_of s' ≤ N + 1 → ackNackCount x' < w_ackNackCount xr →
  Forall (λ c, written_as s' (num c) = Some (mb_bytes (data c), diposeAfterWrite c)) l' → covered s' l' (last_of s') →
  (∀ z, lost z → Forall (λ c, z < num c) l') → Forall (from_writer (m_hbCount w') s') (packets_of ev) →
  session_inv (N + 1) s' w' i x' l' n' r ir xr e ks.
Proof using All.
  intros s' [Hwv Hrv Hhb Han Htr Htw] Hw' Hh' Hn' Hb Han' Hch Hcov Hlo Hev.
  pose proof (later_with s w' ev written removed) as Hl. fold s' in Hl. pose proof (later_last _ _ Hl). pose proof Hwv as [? Hws _ _ _ ? _ _ Hlost].
  constructor; [|by apply (later_reader N s)|lia|done| |].
  - constructor; try done; cbn [s' with_writer s_writer set_writer m_guidPrefix m_writers].
    + by rewrite Hws.
    + lia.
    + intros z Hz. split; [destruct (Hlost z Hz); lia|by apply Hlo].
  - cbn [s' with_writer s_to_reader]. apply Forall_app. split; [|done]. eapply Forall_impl; [exact Htr|]. intros b. apply later_from_writer; [done|lia].
  - eapply Forall_impl; [exact Htw|]. intros b. by apply later_from_reader.
Qed.

(** The changes of the history stay those written. *)
Lemma changes_later s s' l : later s s' →
  Forall (λ c, written_as s (num c) = Some (mb_bytes (data c), diposeAfterWrite c)) l →
  Forall (λ c, written_as s' (num c) = Some (mb_bytes (data c), diposeAfterWrite c)) l.
Proof using All. intros Hl Hf. eapply Forall_impl; [exact Hf|]. intros c. by apply later_written. Qed.

Lemma same_last s (w : Writer B) ev removed : last_of (with_writer s w ev [] removed) = last_of s.
Proof using All. unfold last_of. cbn. by rewrite app_nil_r. Qed.

Lemma Forall_filter_all (P : CacheChange B → Prop) (Q : CacheChange B → Prop) `{!∀ c, Decision (Q c)} l : Forall P l → Forall P (filter Q l).
Proof using All. intros HPl. apply Forall_forall. intros y [_ Hy]%list_elem_of_filter. rewrite Forall_forall in HPl. auto. Qed.

Lemma make_room_all (P : CacheChange B → Prop) h l : Forall P l → Forall P (make_room h l).
Proof using All.
  intros HPl. unfold make_room. case_match; [|done]. apply Forall_forall. intros y Hy%drop_1_in. rewrite Forall_forall in HPl. auto.
Qed.

(** A data packet of a change in the history. *)
Lemma data_from_writer hb s l last h now c reid :
  history_ok h l last → last = last_of s → Forall (λ c, written_as s (num c) = Some (mb_bytes (data c), diposeAfterWrite c)) l → c ∈ l →
  (∀ z, lost z → Forall (λ c, z < num c) l) →
  reid = er ∨ reid = ENTITYID_UNKNOWN → from_writer hb s (data_packet now (inLineQoS c) (num c) reid (mb_bytes (data c))).
Proof using All.
  intros [Hh Hc _] -> Hw Hin Hlo Hr. rewrite Forall_forall in Hc, Hw. destruct (Hc c Hin) as (_ & Hne' & Hl & _ & Hn). specialize (Hw c Hin).
  assert (payload s (num c) = mb_bytes (data c)) as E by (unfold payload; by rewrite Hw).
  pose proof (ho_items _ _ _ Hh) as Hi. rewrite Forall_forall in Hi. destruct (Hi c Hin) as [_ ?].
  apply (fw_data _ _ _ now (inLineQoS c) (num c) reid); rewrite ?E; try (done || lia).
  intros Hlost. specialize (Hlo _ Hlost). rewrite Forall_forall in Hlo. specialize (Hlo c Hin). lia.
Qed.

Lemma step_write N fuel s w i x l n r ir xr e ks bytes q d :
  session_inv N s w i x l n r ir xr e ks → N + 1 < 2 ^ 30 → bytes ≠ [] → zlen bytes < 64000 →
  ∃ s' w' l' n', step fuel (Write bytes q d) s = Ok s' ∧ session_inv (N + 1) s' w' i x l' n' r ir xr e ks.
Proof using All.
  intros Hinv HN Hb Hbl. pose proof (sv_writer _ _ _ _ _ _ _ _ _ _ _ _ Hinv) as [_ Hws Hwi Hh Hn Hbd Hch Hcov Hlo].
  destruct (newChange_writes w i x l (last_of s) n bytes q d Hwi Hh) as (n' & place & h' & ev & E & Hev & Hh' & Hn'); [lia|done..|].
  cbn [step]. rewrite (on_writer_is s w _ (set_history h' (set_next (SN n') w)) ev) by (done || by cbn [compose]; rewrite E).
  do 4 eexists. split; [done|]. pose proof (hk_holds _ _ _ Hh) as Ho. pose proof (ho_range _ _ _ Ho). set (c := mkChange ALIVE q d _ _) in *.
  pose proof (later_with s (set_history h' (set_next (SN n') w)) ev [(bytes, d)] []) as Hl. set (s' := with_writer _ _ _ _ _) in *.
  assert (last_of s' = last_of s + 1) as Els by (unfold last_of, s'; cbn; rewrite zlen_app; done).
  assert (num c = last_of s + 1) as Hc by apply sn_val_SN.
  assert (written_as s' (num c) = Some (mb_bytes (data c), diposeAfterWrite c)) as Hcw.
  { unfold c. cbn [data diposeAfterWrite]. rewrite (mb_ok_bytes _ _ (new_data_ok bytes Hb Hbl)). fold c. rewrite Hc. unfold written_as, s', last_of, zlen.
    cbn [with_writer s_written]. rewrite lookup_app_r by lia. replace (Z.to_nat _ - _)%nat with 0%nat by lia. done. }
  assert (- 2 ^ 32 ≤ first_num l ≤ last_of s) as Hf.
  { pose proof (ho_items _ _ _ Ho) as Hi. destruct l as [|c0 l]; [cbn; lia|]. apply Forall_cons in Hi as [[_ ?] _]. cbn. lia. }
  apply (invariant_writer N s w i x l n r ir xr e ks _ x (make_room (m_history w) l ++ [c]) n' ev _ _ Hinv); try done; fold s'; rewrite ?Els.
  - destruct Hwi. by constructor.
  - done.
  - split; [destruct Hn' as [->| ->]; lia|]. cbn. lia.
  - apply (sv_acknacks _ _ _ _ _ _ _ _ _ _ _ _ Hinv).
  - apply Forall_app. split; [|by constructor]. apply changes_later with (s := s); [done|]. by apply make_room_all.
  - apply covered_later with (s := s); [done|]. by apply covered_add.
  - intros z Hz. destruct (Hlo z Hz) as [? Hzl]. apply Forall_app. split; [by apply make_room_all|]. apply Forall_singleton. lia.
  - by rewrite Hev.
Qed.

Lemma step_progress N fuel s w i x l n r ir xr e ks now :
  session_inv N s w i x l n r ir xr e ks → N + 1 < 2 ^ 30 →
  ∃ s' w' l' n', step fuel (Progress now) s = Ok s' ∧ session_inv (N + 1) s' w' i x l' n' r ir xr e ks.
Proof using All.
  intros Hinv HN. pose proof (sv_writer _ _ _ _ _ _ _ _ _ _ _ _ Hinv) as [_ Hws Hwi Hh Hn Hbd Hch Hcov Hlo].
  destruct (progress_is w i x l (last_of s) n now Hwi Hh Hn) as (h' & l' & ev & E & Hh' & Hl' & Hev); [lia|].
  cbn [step]. rewrite (on_writer_is s w _ _ ev _ _ Hws E). do 4 eexists. split; [done|].
  pose proof (later_with s (set_next (SN (n + 1)) (set_history h' w)) ev [] []) as Hl. pose proof (same_last s (set_next (SN (n + 1)) (set_history h' w)) ev []) as Els.
  set (s' := with_writer _ _ _ _ _) in *. pose proof (hk_holds _ _ _ Hh) as Ho.
  assert (∀ P : CacheChange B → Prop, Forall P l → Forall P l') as Hsub by (intros P HPl; destruct Hl' as [->|(c & _ & _ & ->)]; [done|by apply Forall_filter_all]).
  apply (invariant_writer N s w i x l n r ir xr e ks _ x l' (n + 1) ev _ _ Hinv); try done; fold s'; rewrite ?Els.
  - destruct Hwi. by constructor.
  - done.
  - cbn. lia.
  - apply (sv_acknacks _ _ _ _ _ _ _ _ _ _ _ _ Hinv).
  - apply changes_later with (s := s); [done|]. by apply Hsub.
  - destruct Hl' as [->|(c & Hc & Hd & ->)]; [by apply covered_later with (s := s)|]. apply (covered_filter s _ (m_history w)); [done..| |done].
    intros _. right. exists (mb_bytes (data c)). apply (later_written s); [done|]. rewrite Forall_forall in Hch. rewrite (Hch c Hc). by rewrite Hd.
  - intros z Hz. apply Hsub. by apply Hlo.
  - eapply Forall_impl; [exact Hev|]. intros b (c & reid & Hc & Hr & ->).
    eapply data_from_writer; [exact Hh|by rewrite Els|by apply changes_later with (s := s)|done|by apply Hlo|done].
Qed.

(** A heartbeat names the least and the greatest number, if there is any. *)
Lemma step_heartbeat N fuel s w i x l n r ir xr e ks :
  session_inv N s w i x l n r ir xr e ks → N + 1 < 2 ^ 30 →
  ∃ s' w', step fuel Heartbeat s = Ok s' ∧ session_inv (N + 1) s' w' i x l n r ir xr e ks ∧ s_to_writer s' = s_to_writer s ∧ last_of s' = last_of s ∧
    s_to_reader s' = s_to_reader s ++ (match l with [] => [] | _ => [heartbeat_packet (first_num l) (last_of s) (m_hbCount w)] end) ∧
    (l ≠ [] → m_hbCount w' = m_hbCount w + 1).
Proof using All.
  intros Hinv HN. pose proof Hinv as [[_ Hws Hwi Hh Hn Hbd Hch Hcov Hlo] _ _ Han _ _].
  destruct (sendHeartBeat_is w i x l (last_of s) Hwi Hh) as (w' & ev & E & Hres); [lia|].
  cbn [step]. rewrite (on_writer_is s w _ _ ev _ _ Hws E). do 2 eexists. split; [done|].
  pose proof (later_with s w' ev [] []) as Hl. pose proof (same_last s w' ev []) as Els. set (s' := with_writer _ _ _ _ _) in *. pose proof (hk_holds _ _ _ Hh) as Ho.
  assert (writer_is w' i x ∧ m_history w' = m_history w ∧ m_nextSequenceNumberToSend w' = SN n ∧ m_hbCount w ≤ m_hbCount w' ≤ N + 1 ∧
    Forall (from_writer (m_hbCount w') s') (packets_of ev)) as (H1 & H2 & H3 & H4 & H5).
  { destruct l as [|c l]; destruct Hres as [-> Hev].
    - subst ev. conj; done || lia.
    - conj; [destruct Hwi; by constructor|done|done|cbn; lia|cbn; lia|]. rewrite Hev. constructor; [|done]. pose proof (ho_items _ _ _ Ho) as Hi.
      apply Forall_cons in Hi as [[_ ?] _]. apply (fw_heartbeat _ _ _ (num c) (last_of s) (m_hbCount w)); [lia|lia|unfold s32; lia|cbn; lia|done]. }
  split; [|split; [done|split; [done|split]]].
  - apply (invariant_writer N s w i x l n r ir xr e ks _ x l n ev _ _ Hinv); try done; fold s'; rewrite ?Els, ?H2;
      [done|lia|by apply changes_later with (s := s)|by apply covered_later with (s := s)|intros z Hz; by apply Hlo].
  - cbn [s' with_writer s_to_reader]. f_equal. destruct l; destruct Hres as [_ Hev]; [by subst ev|done].
  - intros Hl0. destruct l; [done|]. destruct Hres as [-> _]. done.
Qed.

Lemma step_unsent N fuel s w i x l n r ir xr e ks :
  session_inv N s w i x l n r ir xr e ks → N + 1 < 2 ^ 30 → ∃ s' w' n', step fuel Unsent s = Ok s' ∧ session_inv (N + 1) s' w' i x l n' r ir xr e ks.
Proof using All.
  intros Hinv HN. pose proof Hinv as [[_ Hws Hwi Hh Hn Hbd Hch Hcov Hlo] _ _ Han _ _]. pose proof (hk_holds _ _ _ Hh) as Ho.
  assert (setAllChangesToUnsent w = Ok (set_next (SN (first_num l)) w, workload w)) as E.
  { unfold setAllChangesToUnsent. by rewrite (getSeqNumMin_ok _ _ _ Ho). }
  cbn [step]. rewrite (on_writer_is s w _ _ _ _ _ Hws E). do 3 eexists. split; [done|].
  pose proof (later_with s (set_next (SN (first_num l)) w) (workload w) [] []) as Hl. pose proof (same_last s (set_next (SN (first_num l)) w) (workload w) []) as Els.
  set (s' := with_writer _ _ _ _ _) in *.
  apply (invariant_writer N s w i x l n r ir xr e ks _ x l (first_num l) (workload w) _ _ Hinv); try done; fold s'; rewrite ?Els.
  - destruct Hwi. by constructor.
  - done.
  - pose proof (ho_items _ _ _ Ho) as Hi. cbn. destruct l as [|c0 l]; [cbn; lia|]. apply Forall_cons in Hi as [[_ ?] _]. cbn. lia.
  - by apply changes_later with (s := s).
  - by apply covered_later with (s := s).
  - intros z Hz. by apply Hlo.
  - unfold workload, packets_of. by destruct (mp_threadPool w).
Qed.

Lemma step_remove N fuel s w i x l n r ir xr e ks z :
  session_inv N s w i x l n r ir xr e ks → N + 1 < 2 ^ 30 → ∃ s' w' l', step fuel (Remove z) s = Ok s' ∧ session_inv (N + 1) s' w' i x l' n r ir xr e ks.
Proof using All.
  intros Hinv HN. pose proof Hinv as [[_ Hws Hwi Hh Hn Hbd Hch Hcov Hlo] _ _ Han _ _]. pose proof (hk_holds _ _ _ Hh) as Ho.
  destruct (dropChange_any _ _ _ z Ho) as (h' & E & Ho' & _).
  assert (('(_, w) ← removeFromHistory (SN z) w; Ok (w, @nil (event B))) = Ok (set_history h' w, [])) as E' by (unfold removeFromHistory; by rewrite E).
  cbn [step]. rewrite (on_writer_is s w _ _ _ _ _ Hws E'). do 3 eexists. split; [done|].
  pose proof (later_with s (set_history h' w) [] [] [z]) as Hl. pose proof (same_last s (set_history h' w) [] [z]) as Els. set (s' := with_writer _ _ _ _ _) in *.
  apply (invariant_writer N s w i x l n r ir xr e ks _ x (filter (λ c, num c ≠ z) l) n [] _ _ Hinv); try done; fold s'; rewrite ?Els.
  - destruct Hwi. by constructor.
  - destruct Hh as [_ Hc ?]. constructor; [done| |done]. by apply Forall_filter_all.
  - cbn. lia.
  - apply changes_later with (s := s); [done|]. by apply Forall_filter_all.
  - apply (covered_filter s _ (m_history w)); [done..| |done]. intros _. left. cbn. set_solver.
  - intros y Hy. apply Forall_filter_all. by apply Hlo.
Qed.

(** ** Packets arrive *)

Lemma newMessage_is fuel now g subs (p : Participant B) :
  prefix_ok g → g ≠ m_guidPrefix p → Forall submessage_ok subs → zlen (message_bytes (rtps_header V g) subs) < 2 ^ 16 → (length subs ≤ 20)%nat →
  newMessage C fuel now (message_bytes (rtps_header V g) subs) p = dispatch_all (H := participant_endpoints C fuel now) g subs p [].
Proof using All.
  intros Hg Hgp Hok Hl Hn. pose proof (rtps_header_ok V HV g Hg) as Hh. unfold newMessage.
  rewrite (processMessage_ok (rtps_header V g) subs p); try done.
  - cbn [rtps_header guidPrefix]. by destruct (dispatch_all g subs p []) as [[? ?]|].
  - pose proof (zlen_header _ Hh) as E. unfold message_bytes. rewrite length_app. unfold zlen in E. lia.
Qed.

Lemma getWriter_is w i x p : writer_is w i x → m_writers p = [Some (StatefulWriter w)] → getWriter ew p = Some 0%nat.
Proof using All.
  intros [Hg _ _ _ _] Hp. unfold getWriter, first_such. rewrite Hp. cbn [list_find]. unfold writer_id, writer_of. rewrite Hg. cbn [entityId].
  rewrite decide_True by (by apply bool_decide_eq_true_2). done.
Qed.

Lemma getReader_is r i x e (p : Participant B) : reader_is r i x e → m_readers p = [Some (StatefulReader r)] → getReader er p = Some 0%nat.
Proof using All.
  intros [Hg _ _ _ _ _] Hp. unfold getReader, first_such. rewrite Hp. cbn [list_find]. unfold reader_id, reader_of. rewrite Hg. cbn [entityId].
  rewrite decide_True by (by apply bool_decide_eq_true_2). done.
Qed.

(** Data are for the reader by its own id or by the writer's. *)
Lemma data_reader r i x e (p : Participant B) reid :
  reader_is r i x e → m_readers p = [Some (StatefulReader r)] → reid = er ∨ reid = ENTITYID_UNKNOWN →
  (if bool_decide (reid = ENTITYID_UNKNOWN) then getReaderByWriterId C (mkGuid gw ew) p else Ok (getReader reid p)) = Ok (Some 0%nat).
Proof using All.
  intros Hr Hp Hid. destruct (decide (reid = ENTITYID_UNKNOWN)) as [E|E].
  - rewrite bool_decide_true by done. unfold getReaderByWriterId. rewrite Hp. cbn [getReaderByWriterId_loop reader_of]. destruct Hr as [_ _ _ Ho Hw _].
    unfold isProxy. rewrite (only_range _ HR _ _ _ Ho). res_simpl. cbn [isProxy_loop]. rewrite (only_at _ _ _ _ Ho). res_simpl. by rewrite Hw, bool_decide_true.
  - rewrite bool_decide_false by done. destruct Hid as [->|?]; [|done]. by rewrite (getReader_is r i x e).
Qed.

Lemma zlen_message g subs n : prefix_ok g → zlen (concat (wire <$> subs)) ≤ n → n < 65516 → zlen (message_bytes (rtps_header V g) subs) < 2 ^ 16.
Proof using All. intros Hg Hn Hl. unfold message_bytes. rewrite zlen_app, zlen_header by (by apply rtps_header_ok). lia. Qed.

Lemma zlen_ok sub : submessage_ok sub → zlen (wire sub) = 4 + octetsToNextHeader (sub_header sub).
Proof using All. by intros [_ ?]. Qed.

(** What arrives at the writer: an answer to a heartbeat. *)
Lemma acknack_arrives fuel now e bit count (p : Participant B) w i x l last :
  m_guidPrefix p = gw → m_writers p = [Some (StatefulWriter w)] → writer_is w i x → history_ok (m_history w) l last → 0 ≤ e < 2 ^ 60 → s32 count →
  last < Z.of_nat fuel - 1 →
  ∃ x' ev, let w' := RtpsWriter.set_pool (assign i x' (RtpsWriter.m_proxies w)) w in
    newMessage C fuel now (acknack_packet (asks e bit) count) p =
      on_writer (λ _, Ok (if count <=? ackNackCount x then (w, []) else (w', ev))) p ∧
    writer_is w' i x' ∧ ackNackCount x' = count ∧ packets_of ev = answer now l last e bit.
Proof using All.
  intros Hpre Hws Hwi Hh He Hcount Hf.
  assert (submessage_ok (SubAckNack (acknack_msg ew er (asks e bit) count))) as Hsub by (apply acknack_sub_ok; [apply asks_ok; lia|done..]).
  destruct (onNewAckNack_is w i x l last now fuel e bit count Hwi Hh) as (x' & ev & E & Hwi' & Hx' & Hev); [lia|lia|].
  exists x', ev. cbn zeta. conj; try done. unfold acknack_packet. rewrite newMessage_is; [|done|by rewrite Hpre|by apply Forall_singleton| |cbn; lia].
  - cbn [dispatch_all dispatch]. cbn [acknack_msg a_writerId ep_getWriter participant_endpoints]. rewrite (getWriter_is w i x _ Hwi Hws).
    unfold on_writer, call_writer. rewrite Hws. cbn [lookup list_lookup]. res_simpl. cbn [ep_onNewAckNack participant_endpoints call_writer].
    unfold call_writer. rewrite Hws. cbn [lookup list_lookup]. res_simpl. rewrite E. by destruct (count <=? ackNackCount x).
  - apply (zlen_message _ _ 32); [done| |done]. cbn [fmap list_fmap concat]. rewrite app_nil_r, (zlen_ok _ Hsub). cbn [sub_header acknack_msg a_header octetsToNextHeader].
    unfold SubmessageAckNack_getRawSize. by destruct (_ =? 0).
Qed.

Lemma answer_from_writer hb s l h now e bit :
  history_ok h l (last_of s) → Forall (λ c, written_as s (num c) = Some (mb_bytes (data c), diposeAfterWrite c)) l →
  covered s l (last_of s) → (∀ z, lost z → Forall (λ c, z < num c) l) → 1 ≤ e → Forall (from_writer hb s) (answer now l (last_of s) e bit).
Proof using All.
  intros Hh Hch Hcov Hlo He. unfold answer. apply Forall_app. split.
  - destruct bit; [|done]. unfold requested. destruct (in_range l (last_of s) e) eqn:Er, (present l e) eqn:Ep; cbn [andb negb]; try done.
    apply Forall_singleton. destruct (Hcov e) as [?|Hg]; [lia|done|congruence|]. apply in_range_spec in Er as (c0 & l0 & -> & ?); [|done].
    apply (fw_gap _ _ _ now e); [done|lia| |done]. intros Hlost. specialize (Hlo _ Hlost). apply Forall_cons in Hlo as [? _]. lia.
  - apply Forall_fmap, Forall_forall. intros c [_ Hc]%list_elem_of_filter. cbn. eapply data_from_writer; [exact Hh|done..|by left].
Qed.

Lemma step_acknack N fuel s w i x l n r ir xr e ks k now e0 bit count :
  session_inv N s w i x l n r ir xr e ks → N + 1 < 2 ^ 30 → N + 2 < Z.of_nat fuel →
  s_to_writer s !! k = Some (acknack_packet (asks e0 bit) count) → 1 ≤ e0 ≤ last_of s + 1 → s32 count → count < w_ackNackCount xr →
  ∃ s' w' x', step fuel (ToWriter k now) s = Ok s' ∧ session_inv (N + 1) s' w' i x' l n r ir xr e ks ∧ last_of s' = last_of s ∧ s_to_writer s' = s_to_writer s ∧
    s_to_reader s' = s_to_reader s ++ (if count <=? ackNackCount x then [] else answer now l (last_of s) e0 bit).
Proof using All.
  intros Hinv HN Hf Eb He Hcount Hless. pose proof Hinv as [[Hpre Hws Hwi Hh Hn Hbd Hch Hcov Hlo] _ _ Han _ _].
  destruct (acknack_arrives fuel now e0 bit count (s_writer s) w i x l (last_of s)) as (x' & ev & E & Hwi' & Hx' & Hev); try done; [lia..|].
  cbn [step]. rewrite Eb, E. destruct (count <=? ackNackCount x).
  - rewrite (on_writer_is s w _ w [] _ _ Hws eq_refl). do 3 eexists. split; [done|]. pose proof (later_with s w [] [] []) as Hl. pose proof (same_last s w [] []) as Els.
    set (s' := with_writer _ _ _ _ _) in *. split; [|done].
    apply (invariant_writer N s w i x l n r ir xr e ks _ x l n [] _ _ Hinv); try done; fold s'; rewrite ?Els;
      [done|lia|by apply changes_later with (s := s)|by apply covered_later with (s := s)|intros z Hz; by apply Hlo].
  - set (w' := RtpsWriter.set_pool _ w) in *. rewrite (on_writer_is s w _ w' ev _ _ Hws eq_refl). do 3 eexists. split; [done|].
    pose proof (later_with s w' ev [] []) as Hl. pose proof (same_last s w' ev []) as Els. set (s' := with_writer _ _ _ _ _) in *.
    assert (covered s' l (last_of s)) as Hcov' by (by apply covered_later with (s := s)). pose proof (changes_later s s' l Hl Hch) as Hch'.
    split; [|conj; [done|done|by rewrite <- Hev]].
    apply (invariant_writer N s w i x l n r ir xr e ks _ x' l n ev _ _ Hinv); try done; fold s'; rewrite ?Els; try done; [cbn; lia|lia|intros z Hz; by apply Hlo|].
    rewrite Hev, <- Els. apply (answer_from_writer _ _ _ (m_history w)); rewrite ?Els; try done; [|lia]. intros z Hz. by apply Hlo.
Qed.

(** ** Steps of the reader's side *)

Lemma refresh_ok now g (p : Participant B) :
  pool_ok (SPDP_MAX_NUMBER_FOUND_PARTICIPANTS C) (m_remoteParticipants p) →
  ∃ rem, refreshRemoteParticipantLiveliness C now g p = Ok (set_remotes rem p) ∧ pool_ok (SPDP_MAX_NUMBER_FOUND_PARTICIPANTS C) rem.
Proof using All.
  intros Hok. unfold refreshRemoteParticipantLiveliness, findRemoteParticipant.
  destruct (find_ok _ HP (λ d, bool_decide (prefix (m_guid d) = g)) _ Hok) as (o & -> & Ho). res_simpl. destruct o as [i|].
  - destruct Ho as (Hi & (x & Hx & Hd & _) & _). unfold at_bit, deref. rewrite Hd. res_simpl. eexists. split; [done|].
    eapply (pool_assign_ok _ HP); [done|lia|done].
  - exists (m_remoteParticipants p). split; [by destruct p|done].
Qed.

(** What arrives at the reader may let it advance, but never past a lost number. *)
Definition advances (e : Z) (ks : list Z) (e' : Z) (ks' : list Z) : Prop := e ≤ e' ∧ ks `prefix_of` ks' ∧ (lost e → e' = e ∧ ks' = ks).

Lemma advances_refl e ks : advances e ks e ks.
Proof using All. by split. Qed.

Lemma advances_trans e1 ks1 e2 ks2 e3 ks3 : advances e1 ks1 e2 ks2 → advances e2 ks2 e3 ks3 → advances e1 ks1 e3 ks3.
Proof using All.
  intros (? & ? & Hf1) (? & ? & Hf2). unfold advances. conj; [lia|by etrans|]. intros Hl. destruct (Hf1 Hl) as [-> ->]. by apply Hf2.
Qed.

(** What the arrival of a packet makes of the session. *)
Definition with_reader (s : session) (p : Participant B) (ev : list (event B)) : session :=
  mkSession (s_writer s) p (s_to_reader s) (s_to_writer s ++ packets_of ev) (s_written s) (s_removed s) (s_calls s ++ calls_of ev).

Lemma invariant_reader N s w iw xw l n r i x e ks p r' x' e' k ev :
  let s' := with_reader s p ev in
  session_inv N s w iw xw l n r i x e ks →
  m_guidPrefix p = gr → m_readers p = [Some (StatefulReader r')] → pool_ok (SPDP_MAX_NUMBER_FOUND_PARTICIPANTS C) (m_remoteParticipants p) →
  reader_is r' i x' e' → m_callbacks r' = m_callbacks r → w_ackNackCount x ≤ w_ackNackCount x' ≤ N + 1 → w_hbCount x' < m_hbCount w →
  (e' = e ∧ k = [] ∨ e' = e + 1 ∧ 1 ≤ e ≤ last_of s ∧ (k = [e] ∨ k = [] ∧ gone s e)) →
  calls_of ev = k ≫= (λ z, executeCallbacks (delivered_change s z) r) →
  Forall (from_reader (w_ackNackCount x') s) (packets_of ev) → session_inv (N + 1) s' w iw xw l n r' i x' e' (ks ++ k).
Proof using All.
  intros s' [Hw [Hpre Hrs Hrem His Hb Hcalls Hsort Hrg Hcov Hcbs] Hhb Han Htr Htw] Hp Hr Hrem' His' Hcb Hb' Hhb' He' Hev Hpk.
  assert (later s s') as Hl by done. constructor; [| |done|lia| |].
  - destruct Hw. constructor; try done. change (last_of s') with (last_of s). lia.
  - assert (Forall (λ z, 1 ≤ z < e') k) as Hk by (destruct He' as [[_ ->]|(-> & ? & [->|[-> _]])]; try done; apply Forall_singleton; lia).
    assert (e ≤ e') by (destruct He' as [[-> _]|(-> & _)]; lia).
    constructor; try done.
    + unfold last_of in *. cbn [s' with_reader s_written]. destruct He' as [[-> _]|(-> & ? & _)]; lia.
    + cbn [s' with_reader s_calls]. rewrite Hcalls, Hev, bind_app. unfold executeCallbacks. by rewrite Hcb.
    + destruct He' as [[_ ->]|(_ & _ & [->|[-> _]])]; rewrite ?app_nil_r; try done. apply StronglySorted_app_2; [|done|by repeat constructor].
      intros a b Ha ->%list_elem_of_singleton. rewrite Forall_forall in Hrg. specialize (Hrg a Ha). lia.
    + apply Forall_app. split; [|done]. eapply Forall_impl; [exact Hrg|]. cbn. lia.
    + intros z Hz. rewrite elem_of_app. destruct (decide (z < e)) as [Hlt|Hge].
      * destruct (Hcov z); [lia|by left; left|by right].
      * destruct He' as [[-> _]|(-> & _ & Hk')]; [lia|]. replace z with e by lia. destruct Hk' as [->|[_ Hg]]; [left; right; by left|by right].
    + by rewrite Hcb.
  - eapply Forall_impl; [exact Htr|]. intros b. by apply later_from_writer.
  - cbn [s' with_reader s_to_writer]. apply Forall_app. split.
    + eapply Forall_impl; [exact Htw|]. intros b. apply later_from_reader; [done|lia].
    + eapply Forall_impl; [exact Hpk|]. intros b. by apply later_from_reader.
Qed.

(** What arrives: data, *)
Lemma data_arrives fuel now t q z reid pl p r i x e :
  m_guidPrefix p = gr → m_readers p = [Some (StatefulReader r)] → reader_is r i x e → 0 ≤ e < 2 ^ 61 → 1 ≤ z < 2 ^ 61 → zlen pl < 64000 →
  reid = er ∨ reid = ENTITYID_UNKNOWN →
  newMessage C fuel now (data_packet t q z reid pl) p =
  Ok (if bool_decide (z = e)
      then (set_reader 0 (Some (StatefulReader (RtpsReader.set_proxies (assign i (set_expectedSN (SN (e + 1)) x) (RtpsReader.m_proxies r)) r))) p,
            executeCallbacks (mkReaderChange pl ALIVE (zlen pl) (mkGuid gw ew) (SN z)) r)
      else (set_reader 0 (Some (StatefulReader r)) p, [])).
Proof using All.
  intros Hpre Hrs His He Hz Hpl Hreid. pose proof (zlen_nonneg pl).
  assert (id_ok reid) as Hrid by (destruct Hreid as [->| ->]; [done|apply unknown_id_ok]).
  assert (submessage_ok (data_sub q (SN z) ew reid pl)) as Hsub by (apply data_sub_ok; [apply SN_ok; lia|done|done|lia]).
  unfold data_packet. rewrite newMessage_is; [|done|by rewrite Hpre|constructor; [apply timestamp_ok|by apply Forall_singleton]| |cbn; lia].
  2: { apply (zlen_message _ _ 64036); [done| |done]. cbn [fmap list_fmap concat]. rewrite app_nil_r, zlen_app, zlen_timestamp, (zlen_ok _ Hsub).
       cbn [data_sub sub_header d_header octetsToNextHeader]. lia. }
  unfold timestamp. cbn [dispatch_all dispatch data_sub d_readerId d_writerId d_writerSN]. res_simpl.
  cbn [ep_getReader ep_getReaderByWriterId participant_endpoints]. rewrite (data_reader r i x e p reid His Hrs Hreid). res_simpl.
  cbn [ep_newChange participant_endpoints]. unfold call_reader. rewrite Hrs. cbn [lookup list_lookup]. res_simpl.
  rewrite (newChange_is r i x e) by (done || lia). cbn [rc_sn]. destruct (decide (z = e)) as [->|Hn].
  - rewrite !bool_decide_true by done. done.
  - rewrite !bool_decide_false by (try (intros E%SN_inj); done). done.
Qed.

(** a gap of one number, *)
Lemma gap_arrives fuel now t z p r i x e :
  m_guidPrefix p = gr → m_readers p = [Some (StatefulReader r)] → reader_is r i x e → 0 ≤ e < 2 ^ 61 → 1 ≤ z < 2 ^ 61 → 0 ≤ w_ackNackCount x < 2 ^ 31 - 1 →
  ∃ r' x' e' ev,
    newMessage C fuel now (gap_packet t z) p = Ok (set_reader 0 (Some (StatefulReader r')) p, ev) ∧ reader_is r' i x' e' ∧ m_callbacks r' = m_callbacks r ∧
    w_ackNackCount x ≤ w_ackNackCount x' ≤ w_ackNackCount x + 1 ∧ w_hbCount x' = w_hbCount x ∧ calls_of ev = [] ∧ e' = (if bool_decide (z = e) then e + 1 else e) ∧
    (packets_of ev = [] ∨ packets_of ev = [acknack_packet (asks e' true) (w_ackNackCount x)] ∧ w_ackNackCount x' = w_ackNackCount x + 1).
Proof using All.
  intros Hpre Hrs His He Hz Hc. assert (submessage_ok (gap_sub ew er (SN z) (SN (z + 1)))) as Hsub by (apply gap_sub_ok; [apply SN_ok; lia..|done|done]).
  unfold gap_packet. rewrite newMessage_is; [|done|by rewrite Hpre|constructor; [apply timestamp_ok|by apply Forall_singleton]| |cbn; lia].
  2: { apply (zlen_message _ _ 60); [done| |done]. cbn [fmap list_fmap concat]. rewrite app_nil_r, zlen_app, zlen_timestamp, (zlen_ok _ Hsub). done. }
  unfold timestamp. cbn [dispatch_all dispatch gap_sub g_readerId]. res_simpl.
  cbn [ep_getReader participant_endpoints]. rewrite (getReader_is r i x e p His Hrs).
  cbn [ep_onNewGapMessage participant_endpoints]. unfold call_reader. rewrite Hrs. cbn [lookup list_lookup]. res_simpl.
  destruct (onNewGapMessage_is r i x e z er His) as [(-> & Ho)|(x' & pk & -> & Ho & His' & Hc' & Hh' & Hpk)]; [lia..|done| |]; unfold drop_result; res_simpl.
  - exists r, x, e, []. rewrite bool_decide_false by lia. conj; try done; [lia..|by left].
  - eexists _, x', (z + 1), [Send pk]. split; [done|]. conj; try done; [lia|lia| |].
    + destruct (bool_decide_reflect (z = e)); lia.
    + right. unfold packets_of. cbn [omap list_omap]. by rewrite Hpk.
Qed.

(** a heartbeat. *)
Lemma heartbeat_arrives fuel now first last count p r i x e :
  m_guidPrefix p = gr → m_readers p = [Some (StatefulReader r)] → reader_is r i x e → 0 ≤ e < 2 ^ 61 → 0 ≤ first < 2 ^ 61 → 0 ≤ last < 2 ^ 61 → s32 count →
  0 ≤ w_ackNackCount x < 2 ^ 31 - 1 → pool_ok (SPDP_MAX_NUMBER_FOUND_PARTICIPANTS C) (m_remoteParticipants p) →
  ∃ r' x' ev rem,
    newMessage C fuel now (heartbeat_packet first last count) p = Ok (set_remotes rem (set_reader 0 (Some (StatefulReader r')) p), ev) ∧
    pool_ok (SPDP_MAX_NUMBER_FOUND_PARTICIPANTS C) rem ∧ reader_is r' i x' e ∧ m_callbacks r' = m_callbacks r ∧ calls_of ev = [] ∧
    if count <=? w_hbCount x then x' = x ∧ ev = []
    else w_ackNackCount x' = w_ackNackCount x + 1 ∧ w_hbCount x' = count ∧
      packets_of ev = [acknack_packet (asks e (negb (last <? e))) (w_ackNackCount x)].
Proof using All.
  intros Hpre Hrs His He Hf Hl Hs Hc Hrem. assert (submessage_ok (heartbeat_sub ew er (SN first) (SN last) count)) as Hsub by (apply heartbeat_sub_ok; [apply SN_ok; lia..|done|done|done]).
  unfold heartbeat_packet. rewrite newMessage_is; [|done|by rewrite Hpre|by apply Forall_singleton| |cbn; lia].
  2: { apply (zlen_message _ _ 60); [done| |done]. cbn [fmap list_fmap concat]. rewrite app_nil_r, (zlen_ok _ Hsub). done. }
  cbn [dispatch_all dispatch heartbeat_sub h_readerId]. cbn [ep_getReader participant_endpoints]. rewrite (getReader_is r i x e p His Hrs).
  cbn [ep_onNewHeartbeat ep_refresh participant_endpoints]. unfold call_reader. rewrite Hrs. cbn [lookup list_lookup]. res_simpl.
  match goal with |- context [onNewHeartbeat _ _ ?m _ _] => set (msg := m) end.
  destruct (onNewHeartbeat_is r i x e msg His) as [(-> & Ho)|(x' & pk & -> & Ho & His' & Hc' & Hh & Hpk)]; [lia..|done|done| |]; unfold drop_result; res_simpl.
  all: match goal with |- context [refreshRemoteParticipantLiveliness C ?t ?g ?p'] => destruct (refresh_ok t g p' Hrem) as (rem & -> & Hrem') end; res_simpl.
  - exists r, x, [], rem. cbn [msg h_count] in Ho. by rewrite (proj2 (Z.leb_le _ _) Ho).
  - eexists _, x', [Send pk], rem. cbn [msg h_count h_lastSN] in Ho, Hh, Hpk. rewrite (proj2 (Z.leb_gt _ _)) by lia. rewrite sn_ltb_SN in Hpk.
    conj; try done. unfold packets_of. cbn [omap list_omap]. by rewrite Hpk.
Qed.
Lemma calls_of_callbacks (c : ReaderCacheChange) r : calls_of (executeCallbacks (B := B) c r) = executeCallbacks c r.
Proof using All.
  unfold executeCallbacks, calls_of. induction (m_callbacks r) as [|cb lc IH]; [done|]. cbn [omap list_omap]. destruct (cb_function cb); [|done].
  cbn [mbind option_bind]. rewrite filter_cons, decide_True by done. by f_equal.
Qed.

Lemma packets_of_callbacks (c : ReaderCacheChange) r : packets_of (executeCallbacks (B := B) c r) = [].
Proof using All. unfold executeCallbacks, packets_of. induction (m_callbacks r) as [|cb lc IH]; [done|]. cbn [omap list_omap]. by destruct (cb_function cb). Qed.

Lemma step_reader fuel s k now b p ev :
  s_to_reader s !! k = Some b → newMessage C fuel now b (s_reader s) = Ok (p, ev) → step fuel (ToReader k now) s = Ok (with_reader s p ev).
Proof using All. intros Hb Hm. cbn [step]. by rewrite Hb, Hm. Qed.

Lemma ack_from_reader an s e bit count : 1 ≤ e ≤ last_of s + 1 → 0 ≤ count < 2 ^ 31 → count < an → Forall (from_reader an s) [acknack_packet (asks e bit) count].
Proof using All. intros He Hc Ha. apply Forall_singleton. apply (fr_acknack _ _ _ e bit count); [done|unfold s32; lia|done|done]. Qed.

(** What a step of the reader leaves as it is. *)
Definition same_but_reader (s s' : session) : Prop := s_to_reader s' = s_to_reader s ∧ s_written s' = s_written s ∧ s_removed s' = s_removed s.

Lemma step_data N fuel s w iw xw l n r i x e ks k now t q z reid :
  session_inv N s w iw xw l n r i x e ks → N + 1 < 2 ^ 30 → s_to_reader s !! k = Some (data_packet t q z reid (payload s z)) →
  1 ≤ z ≤ last_of s → zlen (payload s z) < 64000 → reid = er ∨ reid = ENTITYID_UNKNOWN →
  ∃ s' r' x', step fuel (ToReader k now) s = Ok s' ∧ same_but_reader s s' ∧
    if bool_decide (z = e) then session_inv (N + 1) s' w iw xw l n r' i x' (e + 1) (ks ++ [e]) else session_inv (N + 1) s' w iw xw l n r' i x' e ks.
Proof using All.
  intros Hinv HN Eb Hz Hpl Hreid. pose proof Hinv as [Hw Hr Hhb _ _ _]. pose proof (wv_bounds _ _ _ _ _ _ _ Hw) as Hbd.
  pose proof Hr as [Hpre Hrs Hrem His [He Hc] _ _ _ _ _].
  pose proof (data_arrives fuel now t q z reid (payload s z) (s_reader s) r i x e Hpre Hrs His) as E.
  destruct (bool_decide_reflect (z = e)) as [->|Hn].
  - eexists _, (RtpsReader.set_proxies (assign i (set_expectedSN (SN (e + 1)) x) (RtpsReader.m_proxies r)) r), (set_expectedSN (SN (e + 1)) x).
    split; [eapply step_reader; [done|apply E; done || lia]|]. split; [done|].
    eapply (invariant_reader N s w iw xw l n r i x e ks); try done; cbn [set_reader m_readers]; rewrite ?Hrs; try done.
    + by apply (reader_is_expect r i x e).
    + cbn. lia.
    + right. conj; [done|lia..|by left].
    + cbn [mbind list_bind]. rewrite app_nil_r. apply calls_of_callbacks.
    + by rewrite packets_of_callbacks.
  - eexists _, r, x. split; [eapply step_reader; [done|apply E; done || lia]|]. split; [done|]. rewrite <- (app_nil_r ks).
    eapply (invariant_reader N s w iw xw l n r i x e ks); try done; cbn [set_reader m_readers]; rewrite ?Hrs; try done; [lia|by left].
Qed.

Lemma step_gap N fuel s w iw xw l n r i x e ks k now t z :
  session_inv N s w iw xw l n r i x e ks → N + 1 < 2 ^ 30 → s_to_reader s !! k = Some (gap_packet t z) → gone s z → 1 ≤ z ≤ last_of s →
  ∃ s' r' x', step fuel (ToReader k now) s = Ok s' ∧ same_but_reader s s' ∧
    session_inv (N + 1) s' w iw xw l n r' i x' (if bool_decide (z = e) then e + 1 else e) ks.
Proof using All.
  intros Hinv HN Eb Hg Hz. pose proof Hinv as [Hw Hr Hhb _ _ _]. pose proof (wv_bounds _ _ _ _ _ _ _ Hw) as Hbd.
  pose proof Hr as [Hpre Hrs Hrem His [He Hc] _ _ _ _ _].
  destruct (gap_arrives fuel now t z (s_reader s) r i x e) as (r' & x' & e' & ev & E & His' & Hcb & Hc' & Hh' & Hcalls & He' & Hpk); try done; [lia..|].
  eexists _, r', x'. split; [by eapply step_reader|]. split; [done|]. rewrite <- (app_nil_r ks), <- He'.
  eapply (invariant_reader N s w iw xw l n r i x e ks); try done; cbn [set_reader m_readers]; rewrite ?Hrs; try done; [lia|by rewrite Hh'| |].
  - subst e'. destruct (bool_decide_reflect (z = e)) as [->|]; [right|by left]. conj; [done|lia..|by right].
  - destruct Hpk as [->|[-> Hx']]; [done|]. apply ack_from_reader; [|lia|lia]. subst e'. destruct (bool_decide_reflect (z = e)); lia.
Qed.

Lemma step_heartbeat_arrives N fuel s w iw xw l n r i x e ks k now first last count :
  session_inv N s w iw xw l n r i x e ks → N + 1 < 2 ^ 30 → s_to_reader s !! k = Some (heartbeat_packet first last count) →
  0 ≤ first < 2 ^ 61 → 0 ≤ last < 2 ^ 61 → s32 count → count < m_hbCount w →
  ∃ s' r' x', step fuel (ToReader k now) s = Ok s' ∧ same_but_reader s s' ∧ session_inv (N + 1) s' w iw xw l n r' i x' e ks ∧
    (w_hbCount x < count → s_to_writer s' = s_to_writer s ++ [acknack_packet (asks e (negb (last <? e))) (w_ackNackCount x)] ∧ w_ackNackCount x' = w_ackNackCount x + 1).
Proof using All.
  intros Hinv HN Eb Hf Hl Hs Hcount. pose proof Hinv as [Hw Hr Hhb _ _ _]. pose proof (wv_bounds _ _ _ _ _ _ _ Hw) as Hbd.
  pose proof Hr as [Hpre Hrs Hrem His [He Hc] _ _ _ _ _].
  destruct (heartbeat_arrives fuel now first last count (s_reader s) r i x e) as (r' & x' & ev & rem & E & Hrem' & His' & Hcb & Hcalls & Hres); try done; [lia..|].
  eexists _, r', x'. split; [by eapply step_reader|]. split; [done|]. split.
  - rewrite <- (app_nil_r ks).
    eapply (invariant_reader N s w iw xw l n r i x e ks); try done; cbn [set_remotes set_reader m_readers]; rewrite ?Hrs; try done; [| |by left|].
    + destruct (count <=? w_hbCount x); [destruct Hres as [-> _]|]; lia.
    + destruct (count <=? w_hbCount x); [destruct Hres as [-> _]|destruct Hres as (_ & -> & _)]; lia.
    + destruct (count <=? w_hbCount x); [by destruct Hres as [_ ->]|]. destruct Hres as (? & _ & ->). apply ack_from_reader; lia.
  - intros Hlt. rewrite (proj2 (Z.leb_gt _ _)) in Hres by done. destruct Hres as (Hx' & _ & Hpk). cbn [with_reader s_to_writer]. by rewrite Hpk.
Qed.

Lemma step_to_reader N fuel s w iw xw l n r i x e ks k now :
  session_inv N s w iw xw l n r i x e ks → N + 1 < 2 ^ 30 →
  ∃ s' r' x' e' ks', step fuel (ToReader k now) s = Ok s' ∧ same_but_reader s s' ∧ session_inv (N + 1) s' w iw xw l n r' i x' e' ks' ∧ advances e ks e' ks'.
Proof using All.
  intros Hinv HN. destruct (s_to_reader s !! k) as [b|] eqn:Eb.
  2: { exists s, r, x, e, ks. cbn [step]. rewrite Eb. (split; [done|split; [done|split; [by apply rtps_session_later|apply advances_refl]]]). }
  pose proof (Forall_lookup_1 _ _ _ _ (sv_to_reader _ _ _ _ _ _ _ _ _ _ _ _ Hinv) Eb) as [t q z reid Hz Hp Hpl Hreid Hlo ->|t z Hg Hz Hlo ->|first last count Hf Hl Hs Hlt ->].
  - destruct (step_data N fuel s w iw xw l n r i x e ks k now t q z reid Hinv HN Eb Hz Hpl Hreid) as (s' & r' & x' & E & Hsame & Hinv').
    destruct (bool_decide_reflect (z = e)) as [->|]; exists s', r', x'; do 2 eexists; (split; [done|split; [done|split; [done|]]]); [|apply advances_refl].
    unfold advances. conj; [lia|by apply prefix_app_r|done].
  - destruct (step_gap N fuel s w iw xw l n r i x e ks k now t z Hinv HN Eb Hg Hz) as (s' & r' & x' & E & Hsame & Hinv').
    exists s', r', x'; do 2 eexists; (split; [done|split; [done|split; [done|]]]). destruct (bool_decide_reflect (z = e)) as [->|]; [|apply advances_refl]. unfold advances. conj; [lia|done|done].
  - destruct (step_heartbeat_arrives N fuel s w iw xw l n r i x e ks k now first last count Hinv HN Eb Hf Hl Hs Hlt) as (s' & r' & x' & E & Hsame & Hinv' & _).
    exists s', r', x', e, ks. (split; [done|split; [done|split; [done|]]]). apply advances_refl.
Qed.

(** ** Runs *)

(** What the application writes is not empty and fits into a packet. *)
Definition action_ok (a : action) : Prop := match a with Write bytes _ _ => bytes ≠ [] ∧ zlen bytes < 64000 | _ => True end.

Lemma step_ok N fuel s w i x l n r ir xr e ks a :
  session_inv N s w i x l n r ir xr e ks → N + 1 < 2 ^ 30 → N + 2 < Z.of_nat fuel → action_ok a →
  ∃ s' w' x' l' n' r' xr' e' ks', step fuel a s = Ok s' ∧ session_inv (N + 1) s' w' i x' l' n' r' ir xr' e' ks' ∧ advances e ks e' ks'.
Proof using All.
  intros Hinv HN Hf Ha. destruct a as [bytes q d|now| | |z|k now|k now].
  - destruct Ha as [Hb Hbl]. destruct (step_write N fuel s w i x l n r ir xr e ks bytes q d Hinv HN Hb Hbl) as (s' & w' & l' & n' & ? & ?).
    do 9 eexists; (split; [done|split; [done|apply advances_refl]]).
  - destruct (step_progress N fuel s w i x l n r ir xr e ks now Hinv HN) as (s' & w' & l' & n' & ? & ?). do 9 eexists; (split; [done|split; [done|apply advances_refl]]).
  - destruct (step_heartbeat N fuel s w i x l n r ir xr e ks Hinv HN) as (s' & w' & ? & ? & _). do 9 eexists; (split; [done|split; [done|apply advances_refl]]).
  - destruct (step_unsent N fuel s w i x l n r ir xr e ks Hinv HN) as (s' & w' & n' & ? & ?). do 9 eexists; (split; [done|split; [done|apply advances_refl]]).
  - destruct (step_remove N fuel s w i x l n r ir xr e ks z Hinv HN) as (s' & w' & l' & ? & ?). do 9 eexists; (split; [done|split; [done|apply advances_refl]]).
  - destruct (step_to_reader N fuel s w i x l n r ir xr e ks k now Hinv HN) as (s' & r' & x' & e' & ks' & ? & _ & ? & ?). do 9 eexists. done.
  - destruct (s_to_writer s !! k) as [b|] eqn:Eb.
    + pose proof (Forall_lookup_1 _ _ _ _ (sv_to_writer _ _ _ _ _ _ _ _ _ _ _ _ Hinv) Eb) as [e0 bit count He Hc Hlt ->].
      destruct (step_acknack N fuel s w i x l n r ir xr e ks k now e0 bit count Hinv HN Hf Eb He Hc Hlt) as (s' & w' & x' & ? & ? & _). do 9 eexists; (split; [done|split; [done|apply advances_refl]]).
    + cbn [step]. rewrite Eb. exists s. do 8 eexists; (split; [done|split; [by apply rtps_session_later|apply advances_refl]]).
Qed.

Lemma run_ok (acts : list action) : ∀ N fuel s w i x l n r ir xr e ks,
  session_inv N s w i x l n r ir xr e ks → N + zlen acts < 2 ^ 30 → N + zlen acts + 2 < Z.of_nat fuel → Forall action_ok acts →
  ∃ s' w' x' l' n' r' xr' e' ks', run fuel acts s = Ok s' ∧ session_inv (N + zlen acts) s' w' i x' l' n' r' ir xr' e' ks' ∧ advances e ks e' ks'.
Proof using All.
  induction acts as [|a acts IH]; intros N fuel s w i x l n r ir xr e ks Hinv HN Hf Hok; cbn [run].
  - exists s, w, x, l, n, r, xr, e, ks. rewrite zlen_nil, Z.add_0_r. split; [done|split; [done|apply advances_refl]].
  - rewrite zlen_cons in *. apply Forall_cons in Hok as [Ha Hok]. pose proof (zlen_nonneg acts).
    destruct (step_ok N fuel s w i x l n r ir xr e ks a Hinv) as (s1 & w1 & x1 & l1 & n1 & r1 & xr1 & e1 & ks1 & -> & Hinv1 & Hadv1); [lia|lia|done|]. res_simpl.
    destruct (IH _ fuel _ _ _ _ _ _ _ _ _ _ _ Hinv1) as (s' & w' & x' & l' & n' & r' & xr' & e' & ks' & -> & Hinv' & Hadv'); [lia|lia|done|].
    do 9 eexists. split; [done|]. rewrite (Z.add_assoc N). split; [exact Hinv'|]. by eapply advances_trans.
Qed.
End session.
