(* ===== verification/RtpsTheorems.v ===== *)
(** * RTPS: what a session guarantees

    Whatever the network does, the reader's application sees the writer's changes in their order,
    none twice and none skipped; when the network works again for as long as it takes, the reader
    catches up as long as the history still holds what it lacks, and never otherwise. *)

From S2P Require Import Prelude RtpsTypes RtpsBuffer RtpsMessages RtpsCodec RtpsReceiver RtpsReceive RtpsPackets MemoryPool RtpsReader.
From S2P Require Import HistoryCache HistoryCorrect HistoryTheorems RtpsWriter RtpsParticipant RtpsSession.
Local Open Scope Z_scope.

Section theorems.
Context {B : Type} `{MessageBufferLaws B} (C : Config).
Context (HV : length (VENDOR_ID C) = 2%nat).
Context (HR : 0 < NUM_WRITER_PROXIES_PER_READER C < 2 ^ 32 - 1) (HW : 0 < NUM_READER_PROXIES_PER_WRITER C < 2 ^ 32 - 1).
Context (HP : 0 < SPDP_MAX_NUMBER_FOUND_PARTICIPANTS C < 2 ^ 32 - 1).
Context (gw gr : GuidPrefix_t) (ew er : EntityId_t) (Hgw : prefix_ok gw) (Hgr : prefix_ok gr) (Hew : id_ok ew) (Her : id_ok er) (Hne : gw ≠ gr).
Implicit Types (s : session (B := B)) (r : Reader) (w : Writer B).

(** Two participants whose endpoints have just been made and know each other. *)
Record initial s r : Prop := {
  in_reader : ∃ i x, reader_is C gw gr ew er r i x 1 ∧ w_hbCount x = 0 ∧ w_ackNackCount x = 1;
  in_writer : ∃ w i x, m_writers (s_writer s) = [Some (StatefulWriter w)] ∧ writer_is C gw gr ew er w i x ∧ ackNackCount x = 0 ∧
    m_nextSequenceNumberToSend w = SN 1 ∧ m_hbCount w = 1 ∧ holds (m_history w) [] 0;
  in_prefixes : m_guidPrefix (s_writer s) = gw ∧ m_guidPrefix (s_reader s) = gr;
  in_readers : m_readers (s_reader s) = [Some (StatefulReader r)];
  in_remotes : pool_ok (SPDP_MAX_NUMBER_FOUND_PARTICIPANTS C) (m_remoteParticipants (s_reader s));
  in_network : s_to_reader s = [] ∧ s_to_writer s = [];
  in_application : s_written s = [] ∧ s_removed s = [] ∧ s_calls s = []
}.

(** The callbacks were called for the changes numbered [ks], in this order and with the bytes
    written; these are the numbers below [e], less some that the application removed or had
    disposed of. *)
Record received s r (e : Z) (ks : list Z) : Prop := {
  re_calls : s_calls s = ks ≫= (λ z, executeCallbacks (delivered_change gw ew s z) r);
  re_sorted : StronglySorted Z.lt ks;
  re_range : Forall (λ z, 1 ≤ z < e) ks;
  re_complete : ∀ z, 1 ≤ z < e → z ∈ ks ∨ gone s z
}.

(** The number the reader waits for, and the oldest one that the writer's history has. *)
Definition expected s : option Z :=
  match m_readers (s_reader s) with
  | [Some (StatefulReader r)] => match elements (RtpsReader.m_proxies r) with [x] => Some (sn_val (expectedSN x)) | _ => None end
  | _ => None
  end.
Definition oldest s : res SequenceNumber_t :=
  match m_writers (s_writer s) with
  | [Some (StatefulWriter w)] => getSeqNumMin (m_history w)
  | _ => Err Undefined
  end.

(** The invariant of [RtpsSession], for this section's participants. *)
Abbreviation inv lost cb := (session_inv C gw gr ew er lost cb).

Lemma initial_inv s r : initial s r → ∃ w i x ir xr, inv (λ _, False) (m_callbacks r) 1 s w i x [] 1 r ir xr 1 [].
Proof using All.
  intros [(ir & xr & Hr & Hh & Ha) (w & i & x & Hws & Hw & Hx & Hn & Hhb & Hho) [Hpw Hpr] Hrs Hrem [Htr Htw] (Hwr & Hre & Hca)].
  assert (last_of s = 0) as Hl by (unfold last_of; by rewrite Hwr).
  exists w, i, x, ir, xr. constructor; [| |lia|lia|by rewrite Htr|by rewrite Htw].
  - constructor; try done; rewrite ?Hl; try done; [lia|]. intros z Hz [_ Hin%Z.leb_le]%andb_true_iff. cbn in Hin. lia.
  - constructor; try done; [rewrite Hl; lia|apply SSorted_nil|intros z ?; lia].
Qed.

Lemma inv_received lost cb N s w i x l n r ir xr e ks r0 :
  inv lost cb N s w i x l n r ir xr e ks → cb = m_callbacks r0 → received s r0 e ks.
Proof using All.
  intros [_ [_ _ _ _ _ Hcalls Hs Hrg Hcov Hcb] _ _ _ _] Hr0. constructor; try done. rewrite Hcalls. unfold executeCallbacks. by rewrite Hcb, Hr0.
Qed.

Lemma inv_expected lost cb N s w i x l n r ir xr e ks : inv lost cb N s w i x l n r ir xr e ks → expected s = Some e.
Proof using All.
  intros [_ [_ Hrs _ [_ _ _ Ho _ He] _ _ _ _ _ _] _ _ _ _]. unfold expected. rewrite Hrs, (only_elements _ HR _ _ _ Ho), He. by rewrite sn_val_SN.
Qed.

Lemma inv_oldest lost cb N s w i x l n r ir xr e ks : inv lost cb N s w i x l n r ir xr e ks → oldest s = Ok (SN (first_num l)).
Proof using All.
  intros [[_ Hws _ Hh _ _ _ _ _] _ _ _ _ _]. unfold oldest. rewrite Hws. apply (getSeqNumMin_ok _ _ _ (hk_holds _ _ _ Hh)).
Qed.

(** C2 Reliable delivery is safe: whatever the application writes and removes, however threads,
    heartbeats and the network interleave, and whichever packets are lost, delayed, duplicated
    or reordered, no step fails, and the reader's callbacks have been called for changes in
    strictly increasing order, each with the bytes that were written under its number; of the
    numbers below the one the reader waits for only some that the application removed, or had
    disposed of after sending, are missing. *)
Theorem rtps_session s r fuel (acts : list action) :
  initial s r → Forall action_ok acts → zlen acts < 2 ^ 30 - 1 → zlen acts + 3 < Z.of_nat fuel →
  ∃ s' e ks, run C fuel acts s = Ok s' ∧ expected s' = Some e ∧ e ≤ last_of s' + 1 ∧ received s' r e ks.
Proof using All.
  intros Hi Hok Hl Hf. destruct (initial_inv s r Hi) as (w & i & x & ir & xr & Hinv).
  destruct (run_ok C HV HR HW HP gw gr ew er Hgw Hgr Hew Her Hne _ _ acts 1 fuel _ _ _ _ _ _ _ _ _ _ _ Hinv)
    as (s' & w' & x' & l' & n' & r' & xr' & e' & ks' & E & Hinv' & _); [lia..|done|].
  exists s', e', ks'. split; [done|]. split; [by eapply inv_expected|]. split; [apply (rv_bounds _ _ _ _ _ _ _ _ _ _ _ _ _ (sv_reader _ _ _ _ _ _ _ _ _ _ _ _ _ _ _ _ _ _ _ Hinv'))|].
  by eapply inv_received.
Qed.

(** ** The network works again *)

(** The places of the packets past the first [n]. *)
Definition since (n : nat) (packets : list (list Z)) : list nat := seq n (length packets - n).

(** A heartbeat is sent and arrives; *)
Definition announce (fuel : nat) (t : Z) s : res session :=
  s1 ← step C fuel Heartbeat s;
  run C fuel ((λ k, ToReader k t) <$> since (length (s_to_reader s)) (s_to_reader s1)) s1.

(** the reader's answers past the first [n] arrive; *)
Definition request (fuel : nat) (t : Z) (n : nat) s : res session := run C fuel ((λ k, ToWriter k t) <$> since n (s_to_writer s)) s.

(** and so do the writer's packets past the first [n]. *)
Definition repeat_changes (fuel : nat) (t : Z) (n : nat) s : res session := run C fuel ((λ k, ToReader k t) <$> since n (s_to_reader s)) s.

Definition round (fuel : nat) (t : Z) s : res session :=
  s1 ← announce fuel t s;
  s2 ← request fuel t (length (s_to_writer s)) s1;
  repeat_changes fuel t (length (s_to_reader s1)) s2.

Fixpoint rounds (n : nat) (fuel : nat) (t : Z) s : res session :=
  match n with O => Ok s | S n => s ← round fuel t s; rounds n fuel t s end.

Lemma since_app l1 l2 : since (length l1) (l1 ++ l2) = seq (length l1) (length l2).
Proof using. clear. unfold since. rewrite length_app. f_equal. lia. Qed.

Lemma inv_weaken lost cb N N' s w i x l n r ir xr e ks :
  inv lost cb N s w i x l n r ir xr e ks → N ≤ N' → inv lost cb N' s w i x l n r ir xr e ks.
Proof using All.
  intros [[] [] Hh Ha Htr Htw] HN. constructor; try done; constructor; done || lia.
Qed.

(** Packets that arrive at the reader change nothing at the writer. *)
Lemma run_to_reader lost cb t fuel (places : list nat) : ∀ N s w i x l n r ir xr e ks,
  inv lost cb N s w i x l n r ir xr e ks → N + zlen places < 2 ^ 30 →
  ∃ s' r' xr' e' ks', run C fuel ((λ k, ToReader k t) <$> places) s = Ok s' ∧ same_but_reader s s' ∧
    inv lost cb (N + zlen places) s' w i x l n r' ir xr' e' ks' ∧ advances lost e ks e' ks'.
Proof using All.
  induction places as [|k places IH]; intros N s w i x l n r ir xr e ks Hinv HN; cbn [fmap list_fmap run].
  - exists s, r, xr, e, ks. rewrite zlen_nil, Z.add_0_r. split; [done|]. split; [done|]. split; [done|]. by split.
  - rewrite zlen_cons in *. pose proof (zlen_nonneg places).
    destruct (step_to_reader C HV HR HW HP gw gr ew er Hgw Hgr Hew Her Hne _ _ N fuel s w i x l n r ir xr e ks k t Hinv)
      as (s1 & r1 & x1 & e1 & ks1 & -> & (Hs1 & Hs2 & Hs3) & Hinv1 & Hadv1); [lia|]. res_simpl.
    destruct (IH _ _ _ _ _ _ _ _ _ _ _ _ Hinv1) as (s' & r' & xr' & e' & ks' & -> & (Hs1' & Hs2' & Hs3') & Hinv' & Hadv'); [lia|].
    do 5 eexists. split; [done|]. split; [unfold same_but_reader; conj; congruence|]. rewrite Z.add_assoc. split; [exact Hinv'|].
    by eapply (advances_trans C HV HR HW HP gw gr ew er Hgw Hgr Hew Her Hne).
Qed.

(** The answer to a reader that asks for a number that the history covers begins with the change,
    or else with a gap. *)
Lemma answer_head now (h : HistoryCache B) (l : list (CacheChange B)) last e :
  holds h l last → in_range l last e = true → 1 ≤ e →
  ∃ b rest, answer C gw ew er now l last e true = b :: rest ∧ zlen rest ≤ zlen l ∧
    if present l e then ∃ c, c ∈ l ∧ num c = e ∧ b = packet_of C gw ew er now c else b = gap_packet C gw ew er now e.
Proof using All.
  intros Hh Hr He. unfold answer, requested. rewrite Hr. pose proof (from_split C HV HR HW HP gw gr ew er Hgw Hgr Hew Her Hne h l last e Hh) as Hs.
  assert (∀ z, zlen (filter (λ c, z ≤ num c) l) ≤ zlen l) as Hlen by (intros z; unfold zlen; pose proof (length_filter (λ c, z ≤ num c) l); lia).
  destruct (list_find _ l) as [[k c]|] eqn:E.
  - destruct Hs as (Hp & Hk & ->). rewrite Hp. apply list_find_Some in E as (_ & Hn & _).
    exists (packet_of C gw ew er now c), (packet_of C gw ew er now <$> filter (λ c, e + 1 ≤ num c) l). split; [done|]. split.
    + unfold zlen. rewrite length_fmap. apply Hlen.
    + exists c. split; [by eapply list_elem_of_lookup_2|done].
  - destruct Hs as (Hp & ->). rewrite Hp.
    exists (gap_packet C gw ew er now e), (packet_of C gw ew er now <$> filter (λ c, e + 1 ≤ num c) l). split; [done|]. split; [|done]. unfold zlen. rewrite length_fmap. apply Hlen.
Qed.

Lemma announce_ok lost cb N fuel t s w i x l n r ir xr e ks :
  inv lost cb N s w i x l n r ir xr e ks → in_range l (last_of s) e = true → N + 2 < 2 ^ 30 →
  ∃ s' w' r' xr', announce fuel t s = Ok s' ∧ inv lost cb (N + 2) s' w' i x l n r' ir xr' e ks ∧ last_of s' = last_of s ∧
    s_to_writer s' = s_to_writer s ++ [acknack_packet C gr ew er (asks e true) (w_ackNackCount xr)] ∧ w_ackNackCount xr' = w_ackNackCount xr + 1.
Proof using All.
  intros Hinv Hr HN.
  assert (1 ≤ e) as He by apply (rv_bounds _ _ _ _ _ _ _ _ _ _ _ _ _ (sv_reader _ _ _ _ _ _ _ _ _ _ _ _ _ _ _ _ _ _ _ Hinv)).
  pose proof (wv_bounds _ _ _ _ _ _ _ _ _ _ _ _ _ (sv_writer _ _ _ _ _ _ _ _ _ _ _ _ _ _ _ _ _ _ _ Hinv)) as Hb.
  pose proof (hk_holds _ _ _ (wv_history _ _ _ _ _ _ _ _ _ _ _ _ _ (sv_writer _ _ _ _ _ _ _ _ _ _ _ _ _ _ _ _ _ _ _ Hinv))) as Hh.
  pose proof (proj1 (in_range_spec C HV HR HW HP gw gr ew er Hgw Hgr Hew Her Hne lost cb l (last_of s) e He) Hr) as (c0 & l0 & El & Hlast).
  destruct (step_heartbeat C HV HR HW HP gw gr ew er Hgw Hgr Hew Her Hne _ _ N fuel s w i x l n r ir xr e ks Hinv)
    as (s1 & w1 & E1 & Hinv1 & Htw1 & Hl1 & Htr1 & Hhb1); [lia|].
  unfold announce. rewrite E1. res_simpl. specialize (Hhb1 ltac:(by rewrite El)). pose proof (sv_heartbeats _ _ _ _ _ _ _ _ _ _ _ _ _ _ _ _ _ _ _ Hinv).
  rewrite El in Htr1. rewrite Htr1, since_app. cbn [length seq fmap list_fmap run].
  assert (0 < num c0 ≤ last_of s) as Hc0 by (pose proof (ho_items _ _ _ Hh) as Hi; rewrite El in Hi; apply Forall_cons in Hi as [[_ ?] _]; lia).
  pose proof (ho_range _ _ _ Hh).
  destruct (step_heartbeat_arrives C HV HR HW HP gw gr ew er Hgw Hgr Hew Her Hne _ _ (N + 1) fuel s1 w1 i x l n r ir xr e ks (length (s_to_reader s)) t (num c0) (last_of s) (m_hbCount w) Hinv1)
    as (s2 & r2 & x2 & -> & (Hs2 & Hs2' & _) & Hinv2 & Hask); [lia|by rewrite Htr1, list_lookup_middle|lia|lia|unfold s32; lia|lia|]. res_simpl.
  destruct Hask as [Hask Hx2]; [lia|]. rewrite (proj2 (Z.ltb_ge _ _)) in Hask by lia. rewrite <- Z.add_assoc in Hinv2.
  exists s2, w1, r2, x2. split; [done|]. split; [exact Hinv2|]. split; [unfold last_of in *; by rewrite Hs2'|]. by rewrite Hask, Htw1.
Qed.

Lemma rtps_request_ok lost cb N fuel t s w i x l n r ir xr e ks tw count :
  inv lost cb N s w i x l n r ir xr e ks → N + 1 < 2 ^ 30 → N + 2 < Z.of_nat fuel →
  s_to_writer s = tw ++ [acknack_packet C gr ew er (asks e true) count] → ackNackCount x < count < w_ackNackCount xr → 0 ≤ count →
  ∃ s' w' x', request fuel t (length tw) s = Ok s' ∧ inv lost cb (N + 1) s' w' i x' l n r ir xr e ks ∧ last_of s' = last_of s ∧
    s_to_reader s' = s_to_reader s ++ answer C gw ew er t l (last_of s) e true.
Proof using All.
  intros Hinv HN Hf Htw Hc Hc0. unfold request. rewrite Htw, since_app. cbn [length seq fmap list_fmap run].
  pose proof (rv_bounds _ _ _ _ _ _ _ _ _ _ _ _ _ (sv_reader _ _ _ _ _ _ _ _ _ _ _ _ _ _ _ _ _ _ _ Hinv)).
  destruct (step_acknack C HV HR HW HP gw gr ew er Hgw Hgr Hew Her Hne _ _ N fuel s w i x l n r ir xr e ks (length tw) t e true count Hinv)
    as (s' & w' & x' & -> & Hinv' & Hl & _ & Htr); [lia|lia|by rewrite Htw, list_lookup_middle|lia|unfold s32; lia|lia|].
  rewrite (proj2 (Z.leb_gt _ _)) in Htr by lia. by exists s', w', x'.
Qed.

(** The first of the changes sent again is the one asked for, or a gap in its place. *)
Lemma repeat_ok lost cb N fuel t s w i x l n r ir xr e ks tr :
  inv lost cb N s w i x l n r ir xr e ks → in_range l (last_of s) e = true → N + 1 + zlen l < 2 ^ 30 →
  s_to_reader s = tr ++ answer C gw ew er t l (last_of s) e true →
  ∃ s' r' xr' e' ks', repeat_changes fuel t (length tr) s = Ok s' ∧ inv lost cb (N + 1 + zlen l) s' w i x l n r' ir xr' e' ks' ∧ e < e' ∧ last_of s' = last_of s.
Proof using All.
  intros Hinv Hr HN Htr. pose proof Hinv as [[_ _ _ Hh _ _ Hch Hcov _] [_ _ _ _ [[He _] _] _ _ _ _ _] _ _ _ _]. pose proof (hk_holds _ _ _ Hh) as Ho.
  destruct (answer_head t _ _ _ e Ho Hr He) as (b & rest & Ea & Hlen & Hb). pose proof (zlen_nonneg rest).
  pose proof (proj1 (in_range_spec C HV HR HW HP gw gr ew er Hgw Hgr Hew Her Hne lost cb l (last_of s) e He) Hr) as (c0 & l0 & _ & Hlast).
  unfold repeat_changes. rewrite Htr, since_app, Ea. cbn [length seq fmap list_fmap run].
  assert (s_to_reader s !! length tr = Some b) as Hk by (by rewrite Htr, Ea, list_lookup_middle).
  assert (∃ s1 r1 xr1 ks1, step C fuel (ToReader (length tr) t) s = Ok s1 ∧ same_but_reader s s1 ∧ inv lost cb (N + 1) s1 w i x l n r1 ir xr1 (e + 1) ks1)
    as (s1 & r1 & xr1 & ks1 & -> & (_ & Hs1 & _) & Hinv1).
  { destruct (present l e) eqn:Ep.
    - destruct Hb as (c & Hc & Hn & ->). rewrite Forall_forall in Hch. specialize (Hch c Hc). pose proof (hk_changes _ _ _ Hh) as Hok. rewrite Forall_forall in Hok.
      destruct (Hok c Hc) as (_ & _ & Hlc & _). assert (payload s (num c) = mb_bytes (HistoryCache.data c)) as Ep' by (unfold payload; by rewrite Hch).
      unfold packet_of in Hk. rewrite Hn, <- Hn, <- Ep' in Hk. rewrite <- Ep' in Hlc.
      destruct (step_data C HV HR HW HP gw gr ew er Hgw Hgr Hew Her Hne _ _ N fuel s w i x l n r ir xr e ks (length tr) t t (inLineQoS c) (num c) er Hinv)
        as (s1 & r1 & x1 & ? & ? & Hinv1); [lia|done|lia|done|by left|]. rewrite bool_decide_true in Hinv1 by done. by exists s1, r1, x1, (ks ++ [e]).
    - subst b. destruct (Hcov e He Hr) as [?|Hg]; [congruence|].
      destruct (step_gap C HV HR HW HP gw gr ew er Hgw Hgr Hew Her Hne _ _ N fuel s w i x l n r ir xr e ks (length tr) t t e Hinv)
        as (s1 & r1 & x1 & ? & ? & Hinv1); [lia|done|done|lia|]. rewrite bool_decide_true in Hinv1 by done. by exists s1, r1, x1, ks. }
  res_simpl. assert (zlen (seq (S (length tr)) (length rest)) = zlen rest) as Hlr by (unfold zlen; by rewrite length_seq).
  destruct (run_to_reader lost cb t fuel (seq (S (length tr)) (length rest)) (N + 1) s1 w i x l n r1 ir xr1 (e + 1) ks1 Hinv1)
    as (s' & r' & xr' & e' & ks' & -> & (_ & Hs' & _) & Hinv' & (Hadv & _)); [lia|].
  exists s', r', xr', e', ks'. split; [done|]. split; [eapply inv_weaken; [exact Hinv'|lia]|]. split; [lia|]. unfold last_of. by rewrite Hs', Hs1.
Qed.

(** Every round brings the reader at least one number further. *)
Lemma round_ok lost cb N fuel t s w i x l n r ir xr e ks :
  inv lost cb N s w i x l n r ir xr e ks → in_range l (last_of s) e = true → N + 4 + zlen l < 2 ^ 30 → N + 4 < Z.of_nat fuel →
  ∃ s' w' x' r' xr' e' ks', round fuel t s = Ok s' ∧ inv lost cb (N + 4 + zlen l) s' w' i x' l n r' ir xr' e' ks' ∧ e < e' ∧ last_of s' = last_of s.
Proof using All.
  intros Hinv Hr HN Hf. pose proof (zlen_nonneg l).
  destruct (announce_ok lost cb N fuel t s w i x l n r ir xr e ks Hinv Hr) as (s1 & w1 & r1 & xr1 & E1 & Hinv1 & Hl1 & Htw & Hx1); [lia|].
  pose proof (sv_acknacks _ _ _ _ _ _ _ _ _ _ _ _ _ _ _ _ _ _ _ Hinv). pose proof (rv_bounds _ _ _ _ _ _ _ _ _ _ _ _ _ (sv_reader _ _ _ _ _ _ _ _ _ _ _ _ _ _ _ _ _ _ _ Hinv)).
  destruct (rtps_request_ok lost cb (N + 2) fuel t s1 w1 i x l n r1 ir xr1 e ks (s_to_writer s) (w_ackNackCount xr) Hinv1) as (s2 & w2 & x2 & E2 & Hinv2 & Hl2 & Htr2); [lia|lia|exact Htw|lia|lia|].
  rewrite Hl1 in *. destruct (repeat_ok lost cb (N + 2 + 1) fuel t s2 w2 i x2 l n r1 ir xr1 e ks (s_to_reader s1) Hinv2) as (s3 & r3 & xr3 & e3 & ks3 & E3 & Hinv3 & He & Hl3);
    rewrite ?Hl2; [done|lia|done|].
  exists s3, w2, x2, r3, xr3, e3, ks3. unfold round. rewrite E1. res_simpl. rewrite E2. res_simpl. split; [done|]. split; [|split; [done|congruence]].
  eapply inv_weaken; [exact Hinv3|lia].
Qed.
Lemma first_in_range lost cb N s w i x l n r ir xr e ks :
  inv lost cb N s w i x l n r ir xr e ks → 1 ≤ first_num l ≤ e → e ≤ last_of s → in_range l (last_of s) e = true.
Proof using All.
  intros Hinv Hf He. unfold in_range. rewrite andb_true_iff, !Z.leb_le. destruct l; [cbn in Hf; lia|]. cbn [last_num]. lia.
Qed.

Lemma rounds_ok lost cb fuel t (d : nat) : ∀ N s w i x l n r ir xr e ks,
  inv lost cb N s w i x l n r ir xr e ks → 1 ≤ first_num l ≤ e → last_of s + 1 - e ≤ Z.of_nat d →
  N + Z.of_nat d * 2 ^ 17 < 2 ^ 30 → N + Z.of_nat d * 2 ^ 17 + 4 < Z.of_nat fuel →
  ∃ k s' w' x' r' xr' ks', (k ≤ d)%nat ∧ rounds k fuel t s = Ok s' ∧ last_of s' = last_of s ∧
    inv lost cb (N + Z.of_nat d * 2 ^ 17) s' w' i x' l n r' ir xr' (last_of s' + 1) ks'.
Proof using All.
  induction d as [|d IH]; intros N s w i x l n r ir xr e ks Hinv Hf Hd HN Hfu.
  all: pose proof (rv_bounds _ _ _ _ _ _ _ _ _ _ _ _ _ (sv_reader _ _ _ _ _ _ _ _ _ _ _ _ _ _ _ _ _ _ _ Hinv)) as [He _].
  all: destruct (Z.eq_dec e (last_of s + 1)) as [->|Hlt];
    [exists 0%nat, s, w, x, r, xr, ks; (split; [lia|split; [done|split; [done|]]]); eapply inv_weaken; [exact Hinv|lia]|].
  - lia.
  - pose proof (hk_holds _ _ _ (wv_history _ _ _ _ _ _ _ _ _ _ _ _ _ (sv_writer _ _ _ _ _ _ _ _ _ _ _ _ _ _ _ _ _ _ _ Hinv))) as Hh.
    assert (zlen l < 2 ^ 16) as Hl by (pose proof (rg_width _ _ (ho_ring _ _ _ Hh)); pose proof (rg_length _ _ (ho_ring _ _ _ Hh)); lia).
    pose proof (first_in_range _ _ _ _ _ _ _ _ _ _ _ _ _ _ Hinv Hf ltac:(lia)) as Hr.
    destruct (round_ok lost cb N fuel t s w i x l n r ir xr e ks Hinv Hr) as (s1 & w1 & x1 & r1 & xr1 & e1 & ks1 & E1 & Hinv1 & He1 & Hl1); [lia|lia|].
    destruct (IH (N + 2 ^ 17) s1 w1 i x1 l n r1 ir xr1 e1 ks1) as (k & s' & w' & x' & r' & xr' & ks' & Hk & E & Hl' & Hinv'); [eapply inv_weaken; [exact Hinv1|]; lia|lia..|].
    exists (S k), s', w', x', r', xr', ks'. split; [lia|]. cbn [rounds]. rewrite E1. res_simpl. split; [done|]. split; [congruence|].
    eapply inv_weaken; [exact Hinv'|lia].
Qed.

(** What a run tells about the state it ends in. *)
Lemma run_reaches s0 r fuel (acts : list action) s e m :
  initial s0 r → Forall action_ok acts → zlen acts < 2 ^ 30 - 1 → zlen acts + 3 < Z.of_nat fuel → run C fuel acts s0 = Ok s →
  expected s = Some e → oldest s = Ok m →
  ∃ w i x l n r' ir xr ks, inv (λ _, False) (m_callbacks r) (1 + zlen acts) s w i x l n r' ir xr e ks ∧ m = SN (first_num l) ∧ received s r e ks.
Proof using All.
  intros Hi Hok Hl Hf Erun He Hm. destruct (initial_inv s0 r Hi) as (w & i & x & ir & xr & Hinv).
  destruct (run_ok C HV HR HW HP gw gr ew er Hgw Hgr Hew Her Hne _ _ acts 1 fuel _ _ _ _ _ _ _ _ _ _ _ Hinv)
    as (s' & w' & x' & l' & n' & r' & xr' & e' & ks' & E & Hinv' & _); [lia..|done|].
  rewrite Erun in E. injection E as <-. pose proof (inv_expected _ _ _ _ _ _ _ _ _ _ _ _ _ _ Hinv') as He'. rewrite He in He'. injection He' as <-.
  pose proof (inv_oldest _ _ _ _ _ _ _ _ _ _ _ _ _ _ Hinv') as Hm'. rewrite Hm in Hm'. injection Hm' as ->.
  exists w', i, x', l', n', r', ir, xr', ks'. split; [exact Hinv'|]. split; [done|]. by eapply inv_received.
Qed.

(** C6 The protocol catches up: in every state that a session can reach, if the writer's history
    still reaches back to the number the reader waits for, then after finitely many rounds in
    which nothing is lost, at most one for each number behind, the reader waits for the number
    that has not been written yet: it has been given everything that was not removed. *)
Theorem rtps_recovers s0 r fuel (acts : list action) s t e m :
  initial s0 r → Forall action_ok acts → run C fuel acts s0 = Ok s → expected s = Some e → oldest s = Ok (SN m) → 1 ≤ m ≤ e →
  zlen acts + (last_of s + 1 - e) * 2 ^ 17 + 1 < 2 ^ 30 → zlen acts + (last_of s + 1 - e) * 2 ^ 17 + 5 < Z.of_nat fuel → e ≤ last_of s + 1 →
  ∃ k s' ks, Z.of_nat k ≤ last_of s + 1 - e ∧ rounds k fuel t s = Ok s' ∧ last_of s' = last_of s ∧
    expected s' = Some (last_of s' + 1) ∧ received s' r (last_of s' + 1) ks.
Proof using All.
  intros Hi Hok Erun He Hm Hme Hb Hf Hle.
  destruct (run_reaches s0 r fuel acts s e (SN m)) as (w & i & x & l & n & r' & ir & xr & ks & Hinv & ->%SN_inj & _); [done|done|lia|lia|done..|].
  destruct (rounds_ok _ _ fuel t (Z.to_nat (last_of s + 1 - e)) _ _ _ _ _ _ _ _ _ _ _ _ Hinv) as (k & s' & w' & x' & r1 & xr' & ks' & Hk & E & Hl & Hinv'); [lia..|].
  exists k, s', ks'. split; [lia|]. split; [done|]. split; [done|]. split; [by eapply inv_expected|by eapply inv_received].
Qed.

(** ** What cannot be recovered *)

(** The network loses everything under way. *)
Definition lose s : session := mkSession (s_writer s) (s_reader s) [] [] (s_written s) (s_removed s) (s_calls s).

Lemma lose_inv cb N s w i x l n r ir xr e ks :
  inv (λ _, False) cb N s w i x l n r ir xr e ks → e ≤ last_of s → Forall (λ c, e < num c) l →
  inv (λ z, z = e) cb N (lose s) w i x l n r ir xr e ks.
Proof using All.
  intros [[] [] ? ? _ _] He Hl. constructor; try done; constructor; try done. by intros z ->.
Qed.

(** C7 Reliable readers are not always served: once the history has dropped the number that the
    reader waits for and the packets under way are lost, the reader waits for ever, whatever is
    written, sent and answered afterwards, and drops every later change: the heartbeat's first
    number is ignored, and the writer answers requests for numbers below its history with
    nothing. *)
Theorem rtps_stuck s0 r fuel (acts : list action) s e m :
  initial s0 r → Forall action_ok acts → zlen acts < 2 ^ 30 - 1 → zlen acts + 3 < Z.of_nat fuel → run C fuel acts s0 = Ok s →
  expected s = Some e → oldest s = Ok m → e ≤ last_of s → sn_eqb m SEQUENCENUMBER_UNKNOWN = true ∨ sn_ltb (SN e) m = true →
  ∃ ks, received s r e ks ∧
    ∀ acts' : list action, Forall action_ok acts' → zlen acts + zlen acts' < 2 ^ 30 - 1 → zlen acts + zlen acts' + 3 < Z.of_nat fuel →
      ∃ s', run C fuel acts' (lose s) = Ok s' ∧ expected s' = Some e ∧ received s' r e ks.
Proof using All.
  intros Hi Hok Hn Hf Erun He Hm Hle Hmiss.
  destruct (run_reaches s0 r fuel acts s e m) as (w & i & x & l & n & r' & ir & xr & ks & Hinv & -> & Hrec); [done..|].
  exists ks. split; [done|]. intros acts' Hok' Hn' Hf'.
  pose proof (hk_holds _ _ _ (wv_history _ _ _ _ _ _ _ _ _ _ _ _ _ (sv_writer _ _ _ _ _ _ _ _ _ _ _ _ _ _ _ _ _ _ _ Hinv))) as [_ _ _ Hitems Hsort].
  assert (Forall (λ c, e < num c) l) as Hl.
  { destruct l as [|c l]; [done|]. cbn [first_num] in Hmiss. apply Forall_cons in Hitems as [[_ ?] _].
    rewrite SEQUENCENUMBER_UNKNOWN_SN, sn_eqb_SN, sn_ltb_SN, Z.eqb_eq, Z.ltb_lt in Hmiss. inversion Hsort as [|? ? _ HF]; subst.
    constructor; [lia|]. eapply Forall_impl; [exact HF|]. cbn. lia. }
  pose proof (lose_inv _ _ _ _ _ _ _ _ _ _ _ _ _ Hinv Hle Hl) as Hinv1.
  destruct (run_ok C HV HR HW HP gw gr ew er Hgw Hgr Hew Her Hne _ _ acts' _ fuel _ _ _ _ _ _ _ _ _ _ _ Hinv1)
    as (s' & w' & x' & l' & n' & r1 & xr' & e' & ks' & E & Hinv' & (_ & _ & Hadv)); [lia..|done|].
  destruct (Hadv eq_refl) as [-> ->]. exists s'. split; [done|]. split; [by eapply inv_expected|by eapply inv_received].
Qed.
End theorems.
