(* ===== verification/RtpsExample.v ===== *)
(** * RTPS: a session that the theorems apply to

    A writer with room for two changes and a reader, made and connected by the operations of the
    library, over buffers that are always allocated. *)

From S2P Require Import Prelude RtpsTypes RtpsBuffer RtpsMessages RtpsCodec RtpsReceiver RtpsReceive RtpsPackets MemoryPool RtpsReader.
From S2P Require Import HistoryCache HistoryCorrect HistoryTheorems RtpsWriter RtpsParticipant RtpsSession RtpsTheorems.
Local Open Scope Z_scope.

#[local] Instance alloc_buffer : MessageBuffer PBufWrapper := PBufWrapper_buffer ex_alloc.
Lemma ex_alloc_ok n : 0 < n < 2 ^ 16 → ∃ p, ex_alloc n = Some p ∧ zlen p = n.
Proof. intros Hn. eexists. split; [done|]. unfold zlen. rewrite length_replicate. lia. Qed.
#[local] Instance alloc_laws : MessageBufferLaws PBufWrapper := PBufWrapper_laws ex_alloc ex_alloc_ok.

Definition ex_config : Config := mkConfig 3 2 4 [13; 37].
Definition ex_gw : GuidPrefix_t := replicate 12 1.
Definition ex_gr : GuidPrefix_t := replicate 12 2.
Definition ex_ew : EntityId_t := mkEntityId [0; 0; 7] 2.
Definition ex_er : EntityId_t := mkEntityId [0; 0; 9] 4.
Definition ex_locator (last : Z) : LocatorIPv4 := mkLocator LOCATOR_KIND_UDPv4 [10; 0; 0; last] 7400.
Definition ex_invalid : LocatorIPv4 := mkLocator LOCATOR_KIND_INVALID [0; 0; 0; 0] 0.

(** Memory as it is before [init]. *)
Definition ex_pool_new {A} (size : nat) (x : A) : MemoryPool (A := A) := mkPool (replicate (S (size / 8)) 0) 0 (replicate size x).

Definition ex_reader : res Reader :=
  let r := mkReader (mkAttributes (mkGuid [] ex_er) ex_invalid ex_invalid) false (ex_pool_new 3 (WriterProxy_new (mkGuid [] ex_er) ex_invalid false)) 1 0
             (replicate 2 (mkCallback None 0 0)) 0 (mkSN 0 0) in
  let r := RtpsReader.init (mkAttributes (mkGuid ex_gr ex_er) (ex_locator 2) ex_invalid) r in
  let '(_, r) := registerCallback (Some 100) 5 r in
  '(_, r) ← addNewMatchedWriter (NUM_WRITER_PROXIES_PER_READER ex_config) (WriterProxy_new (mkGuid ex_gw ex_ew) (ex_locator 1) true) r;
  Ok r.

Definition ex_writer : res (Writer PBufWrapper) :=
  let w := mkWriter (mkAttributes (mkGuid [] ex_ew) ex_invalid ex_invalid) false false 0 false (mkSN 0 0)
             (ex_pool_new 2 (ReaderProxy_new (mkGuid [] ex_ew) ex_invalid ex_invalid false)) (HistoryCache_new 2) 0 (mkSN 0 0) in
  let w := RtpsWriter.init (mkAttributes (mkGuid ex_gw ex_ew) (ex_locator 1) ex_invalid) true false w in
  '(_, w) ← addNewMatchedReader (NUM_READER_PROXIES_PER_WRITER ex_config) (ReaderProxy_new (mkGuid ex_gr ex_er) (ex_locator 2) ex_invalid true) w;
  Ok w.

Definition ex_start : res (session (B := PBufWrapper) * Reader) :=
  r ← ex_reader;
  w ← ex_writer;
  let remotes := ex_pool_new 4 (mkRemote (mkGuid [] ex_er) 0) in
  let pr := mkParticipant ex_gr [0; 0; 1] [] [Some (StatefulReader r)] remotes in
  '(_, pr) ← addNewRemoteParticipant ex_config (mkRemote (mkGuid ex_gw ex_ew) 0) pr;
  let pw := mkParticipant ex_gw [0; 0; 1] [Some (StatefulWriter w)] [] remotes in
  Ok (mkSession pw pr [] [] [] [] [], r).

(** Small pools. *)
Lemma small_pool_ok {A} SIZE (b : Z) n (l : list A) :
  0 < SIZE < 8 → 0 ≤ b < 2 ^ SIZE → length l = Z.to_nat SIZE → n = Z.of_nat (length (elements (mkPool [b] n l))) → pool_ok SIZE (mkPool [b] n l).
Proof.
  intros HS Hb Hl Hn. assert (2 ^ SIZE ≤ 2 ^ 8) by (apply Z.pow_le_mono_r; lia). constructor; cbn [m_data m_bitMap m_numElements]; [done| | | |done].
  - rewrite Z.div_small by lia. done.
  - constructor; [unfold fits; lia|done].
  - intros i Hi. unfold bit_of. assert (0 ≤ i / 8) by (apply Z.div_pos; lia). destruct (Z.eq_dec (i / 8) 0) as [E|E].
    + rewrite E. change (Z.testbit b (i mod 8) = false). assert (i mod 8 = i) as -> by div_lia. destruct (Z.eq_dec b 0) as [->|?]; [apply Z.testbit_0_l|].
      apply Z.bits_above_log2; [lia|]. apply Z.log2_lt_pow2; [lia|]. eapply Z.lt_le_trans; [apply Hb|]. apply Z.pow_le_mono_r; lia.
    + rewrite lookup_ge_None_2 by (cbn; lia). apply Z.testbit_0_l.
Qed.

Lemma small_only {A} SIZE n (x : A) (l : list A) :
  0 < SIZE < 8 → length (x :: l) = Z.to_nat SIZE → n = Z.of_nat (length (elements (mkPool [1] n (x :: l)))) → used SIZE [1] 0 = [0] →
  only SIZE (mkPool [1] n (x :: l)) 0 x.
Proof.
  intros HS Hl Hn Hu. constructor; [|done|done]. apply small_pool_ok; [done| |done|done]. assert (2 ^ 1 ≤ 2 ^ SIZE) by (apply Z.pow_le_mono_r; lia). lia.
Qed.

Lemma ex_setting_ok :
  length (VENDOR_ID ex_config) = 2%nat ∧ 0 < NUM_WRITER_PROXIES_PER_READER ex_config < 2 ^ 32 - 1 ∧ 0 < NUM_READER_PROXIES_PER_WRITER ex_config < 2 ^ 32 - 1 ∧
  0 < SPDP_MAX_NUMBER_FOUND_PARTICIPANTS ex_config < 2 ^ 32 - 1 ∧ prefix_ok ex_gw ∧ prefix_ok ex_gr ∧ id_ok ex_ew ∧ id_ok ex_er ∧ ex_gw ≠ ex_gr.
Proof. unfold prefix_ok, id_ok, is_byte. cbn. conj; try done; repeat constructor; lia. Qed.

Lemma ex_start_initial : ∃ s r, ex_start = Ok (s, r) ∧ initial ex_config ex_gw ex_gr ex_ew ex_er s r.
Proof.
  destruct ex_start as [[s r]|] eqn:E; [|vm_compute in E; discriminate]. exists s, r. split; [done|].
  vm_compute in E. injection E as <- <-.
  constructor; [|do 3 eexists|by split|done|by apply small_pool_ok|by split|by split].
  - do 2 eexists. split; [constructor; [done|done|done|apply small_only; done|done|done]|by split].
  - split; [done|]. split; [constructor; [done|done|apply small_only; done|done|done]|].
    split; [done|]. split; [done|]. split; [done|]. exact (holds_clear (HistoryCache_new 2) [] 0 (proj1 (holds_new 2 ltac:(lia)))).
Qed.

(** Three changes are written, sent and received in the wrong order; a heartbeat and its answer
    follow; of the latter only the last arrives. *)
Definition ex_script : list action :=
  [Write [1; 1] false false; Progress 10; Write [2; 2] false false; Progress 11; ToReader 1 12; ToReader 0 13; ToReader 0 14; Heartbeat; ToReader 2 15;
   ToWriter 0 16; ToReader 3 17].

(** Two changes that do not arrive; four changes, of which the history keeps two. *)
Definition ex_unsent : list action := [Write [1; 1] false false; Progress 10; Write [2; 2] false false; Progress 11].
Definition ex_overflow : list action := [Write [1] false false; Write [2] false false; Write [3] false false; Write [4] false false].

Definition ex_run (fuel : nat) (l : list action) : res (session (B := PBufWrapper)) := '(s, _) ← ex_start; run ex_config fuel l s.

(** What is seen of the state at the end: the number the reader waits for, the oldest one in the
    history, the last one given out and the calls of the callbacks. *)
Definition ex_call (e : event PBufWrapper) : option (Z * Z * list Z * Z) :=
  match e with Called f a c => Some (f, a, rc_data c, sn_val (rc_sn c)) | _ => None end.
Definition ex_view (s : session) : option Z * res SequenceNumber_t * Z * list (Z * Z * list Z * Z) :=
  (expected s, oldest s, last_of s, omap ex_call (s_calls s)).

Definition ex_fuel : nat := Z.to_nat 300000.
Lemma ex_fuel_is : Z.of_nat ex_fuel = 300000.
Proof. by apply Z2Nat.id. Qed.

Lemma ex_actions_ok : Forall action_ok ex_script ∧ Forall action_ok ex_unsent ∧ Forall action_ok ex_overflow.
Proof. by split; [|split]; repeat (apply Forall_cons; split; [done|]); apply Forall_nil. Qed.

(** The callbacks are called for both changes, in their order. *)
Lemma ex_script_view : ex_view <$> ex_run 1000 ex_script = Ok (Some 3, Ok (SN 1), 2, [(100, 5, [1; 1], 1); (100, 5, [2; 2], 2)]).
Proof. vm_compute. reflexivity. Qed.

Lemma ex_unsent_view : ex_view <$> ex_run ex_fuel ex_unsent = Ok (Some 1, Ok (SN 1), 2, []).
Proof. vm_compute. reflexivity. Qed.

Lemma ex_overflow_view : ex_view <$> ex_run 1000 ex_overflow = Ok (Some 1, Ok (SN 3), 4, []).
Proof. vm_compute. reflexivity. Qed.

Lemma ex_run_ends fuel l e m last calls s r :
  ex_view <$> ex_run fuel l = Ok (e, m, last, calls) → ex_start = Ok (s, r) →
  ∃ s', run ex_config fuel l s = Ok s' ∧ expected s' = e ∧ oldest s' = m ∧ last_of s' = last.
Proof.
  unfold ex_run. intros E Es. rewrite Es in E. cbn [mbind res_bind] in E. destruct (run ex_config fuel l s) as [s'|]; [|discriminate].
  exists s'. cbn [fmap res_fmap] in E. unfold ex_view in E. by injection E as <- <- <- _.
Qed.

Lemma rtps_session_witness :
  ∃ s r s' ks, ex_start = Ok (s, r) ∧ run ex_config 1000 ex_script s = Ok s' ∧ expected s' = Some 3 ∧ last_of s' = 2 ∧ received ex_gw ex_ew s' r 3 ks.
Proof.
  destruct ex_start_initial as (s & r & Es & Hi). destruct ex_setting_ok as (HV & HR & HW & HP & Hgw & Hgr & Hew & Her & Hne).
  destruct (rtps_session ex_config HV HR HW HP ex_gw ex_gr ex_ew ex_er Hgw Hgr Hew Her Hne s r 1000 ex_script Hi) as (s' & e & ks & E & He & _ & Hrec);
    [apply ex_actions_ok|done|done|].
  destruct (ex_run_ends _ _ _ _ _ _ _ _ ex_script_view Es) as (s2 & E2 & He2 & _ & Hl). rewrite E2 in E. injection E as ->.
  rewrite He2 in He. injection He as <-. by exists s, r, s', ks.
Defined.

Lemma rtps_recovers_witness :
  ∃ s r s1 k s' ks, ex_start = Ok (s, r) ∧ run ex_config ex_fuel ex_unsent s = Ok s1 ∧ expected s1 = Some 1 ∧
    Z.of_nat k ≤ 2 ∧ rounds ex_config k ex_fuel 20 s1 = Ok s' ∧ expected s' = Some 3 ∧ received ex_gw ex_ew s' r 3 ks.
Proof.
  destruct ex_start_initial as (s & r & Es & Hi). destruct ex_setting_ok as (HV & HR & HW & HP & Hgw & Hgr & Hew & Her & Hne).
  destruct (ex_run_ends _ _ _ _ _ _ _ _ ex_unsent_view Es) as (s1 & E1 & He & Hm & Hl).
  destruct (rtps_recovers ex_config HV HR HW HP ex_gw ex_gr ex_ew ex_er Hgw Hgr Hew Her Hne s r ex_fuel ex_unsent s1 20 1 1 Hi)
    as (k & s' & ks & Hk & E & Hl' & He' & Hrec); rewrite ?Hl, ?ex_fuel_is; [apply ex_actions_ok|done..|].
  rewrite Hl', Hl in *. by exists s, r, s1, k, s', ks.
Defined.

Lemma rtps_stuck_witness :
  ∃ s r s1 ks, ex_start = Ok (s, r) ∧ run ex_config 1000 ex_overflow s = Ok s1 ∧ expected s1 = Some 1 ∧ oldest s1 = Ok (SN 3) ∧ last_of s1 = 4 ∧
    ∃ s', run ex_config 1000 ex_script (lose s1) = Ok s' ∧ expected s' = Some 1 ∧ received ex_gw ex_ew s' r 1 ks.
Proof.
  destruct ex_start_initial as (s & r & Es & Hi). destruct ex_setting_ok as (HV & HR & HW & HP & Hgw & Hgr & Hew & Her & Hne).
  destruct (ex_run_ends _ _ _ _ _ _ _ _ ex_overflow_view Es) as (s1 & E1 & He & Hm & Hl).
  destruct (rtps_stuck ex_config HV HR HW HP ex_gw ex_gr ex_ew ex_er Hgw Hgr Hew Her Hne s r 1000 ex_overflow s1 1 (SN 3) Hi)
    as (ks & _ & Hall); rewrite ?Hl; [apply ex_actions_ok|done..|by right|].
  destruct (Hall ex_script) as (s' & E & He' & Hrec); [apply ex_actions_ok|done|done|].
  exists s, r, s1, ks. repeat split; try done. by exists s'.
Defined.

(** ** Messages *)

(** A reader's participant without endpoints. *)
Definition ex_participant : Participant PBufWrapper := mkParticipant ex_gr [0; 0; 1] [] [] (ex_pool_new 4 (mkRemote (mkGuid [] ex_er) 0)).
Definition ex_header : Header := rtps_header (VENDOR_ID ex_config) ex_gw.

Lemma ex_header_ok :
  header_ok ex_header ∧ protocolName ex_header = RTPS_PROTOCOL_NAME ∧ major (protocolVersion ex_header) = major PROTOCOLVERSION ∧
  guidPrefix ex_header ≠ ep_prefix (Endpoints := participant_endpoints ex_config 9 0) ex_participant.
Proof. conj; [by apply rtps_header_ok; [|apply ex_setting_ok]|done|done|done]. Qed.

(** The participant of the connected reader takes a time stamp and the first change. *)
Lemma processMessage_correct_witness :
  ∃ s r, ex_start = Ok (s, r) ∧
    processMessage (H := participant_endpoints ex_config 9 0) 5 (message_bytes ex_header [timestamp 7; data_sub false (SN 1) ex_ew ex_er [8; 9]]) (s_reader s) =
      ('(p, ev) ← dispatch_all (H := participant_endpoints ex_config 9 0) ex_gw [timestamp 7; data_sub false (SN 1) ex_ew ex_er [8; 9]] (s_reader s) [];
       Ok (true, p, ev)).
Proof.
  destruct ex_start_initial as (s & r & Es & Hi). exists s, r. split; [done|].
  destruct ex_header_ok as (Hh & Hn & Hm & Hg). destruct ex_setting_ok as (_ & _ & _ & _ & _ & _ & Hew & Her & _).
  apply (processMessage_correct (H := participant_endpoints ex_config 9 0) ex_header [timestamp 7; data_sub false (SN 1) ex_ew ex_er [8; 9]] (s_reader s) 5);
    [done|done|done| | |vm_compute; reflexivity|cbn; lia].
  - cbn [ep_prefix participant_endpoints]. destruct (in_prefixes _ _ _ _ _ _ _ Hi) as [_ ->]. done.
  - apply Forall_cons. split; [apply timestamp_ok|]. apply Forall_singleton. by apply data_sub_ok; [apply SN_ok; lia|..].
Defined.

Lemma processMessage_diverges_witness :
  processMessage (H := participant_endpoints ex_config 9 0) 5 (wire_header ex_header ++ [1; 1; 252; 255]) ex_participant = Err OutOfFuel.
Proof. destruct ex_header_ok as (Hh & Hn & Hm & Hg). exact (processMessage_diverges (H := participant_endpoints ex_config 9 0) ex_header ex_participant 5 Hh Hn Hm Hg). Defined.

Lemma processMessage_overread_witness :
  processMessage (H := participant_endpoints ex_config 9 0) 1 (wire_header ex_header ++ [DATA; 1; 0; 0]) ex_participant = Err Undefined.
Proof. destruct ex_header_ok as (Hh & Hn & Hm & Hg). exact (processMessage_overread (H := participant_endpoints ex_config 9 0) ex_header ex_participant 0 Hh Hn Hm Hg). Defined.

Lemma codec_roundtrip_witness :
  let m := mkAckNack (mkSub ACKNACK 1 28) ex_er ex_ew (mkSNS (SN (2 ^ 40 + 3)) 5 [2 ^ 31 + 2 ^ 28]) 17 in
  ∃ b, serialize_AckNack m (mb_empty : PBufWrapper) = Ok (true, b) ∧ read_back deserialize_AckNack b [] = Ok (Some m).
Proof.
  destruct ex_setting_ok as (_ & _ & _ & _ & _ & _ & Hew & Her & _).
  destruct (codec_roundtrip (mb_empty : PBufWrapper) [] 0 mb_ok_empty ltac:(lia) ltac:(done)) as (_ & _ & _ & Ha). apply Ha.
  unfold acknack_ok, sub_ok, set_ok, s32, is_byte, fits, ACKNACK. cbn [a_header a_readerId a_writerId a_readerSNState a_count base numBits bitMap submessageId flags octetsToNextHeader].
  conj; try (done || lia); eexists; by conj.
Defined.
